(* ===== verification/_CoqProject ===== *)
-Q . S2P
Prelude.v
Pmm.v
Vmm.v
Paging.v
VmmProps.v
Cipher.v
Aes.v
Ccmp.v
Hash.v
Eapol.v
Tcp.v
Nic.v
Ipv6.v
Net.v
NetProps.v
Vfs.v
Blkfs.v
Fd.v
Files.v
Calls.v
FdProps.v
FdFlow.v
PipeRace.v
FilesProps.v
CallsProps.v
Accounts.v
AccountsProps.v
Loader.v
LoaderProps.v
Bignum.v
X509.v
Stream.v
Tls.v
TlsProps.v
Heap.v
Sched.v
