(* ===== verification/Prelude.v ===== *)
(** * YartOS: a verification library of the kernel

    The development models the kernel of YartOS (src/kernel/, C for x86-64) as
    executable definitions and proves what makes each component correct. A
    definition carries the name of the C function it translates wherever Rocq
    allows it; auxiliary loops are named after their function.

    ** Files and the code they model

    - [Prelude] (this file): machine integers as [Z] with explicit wrap-around
      ([u8] .. [u64]), C arrays as lists with the notations [a.[i]] and
      [a.[i <- v]], byte windows ([slice], [blit]), big-endian loads and stores,
      linked lists ([chain]), and the tactics the files share: [zbool] turns
      boolean integer tests into propositions, [case_ifZ] splits on one, [splits]
      opens conjunctions.
    - [Pmm]: kernel/mm/pmm.c, the frame bitmap and reference counts. What it
      calls in vmm.c and sched.c is the class [Reclaimer]: scripts of calls of pmm.c,
      of which the swapper of [Vmm] is one.
    - [Vmm]: kernel/mm/vmm.c, on top of [Pmm]: page tables are words of frames,
      so freeing a frame and editing a table act on the same memory. [Paging]
      reads the tables as a tree of frames; [VmmProps] has the properties. The
      disk of the swap tier and the OOM killer are the classes [SwapDisk] and
      [OomKiller].
    - [Heap]: kernel/mm/heap.c, on top of [Pmm]. Headers are a finite map from
      addresses; payload words (canaries, back pointers) are another.
    - [Sched]: kernel/sched/sched.c and watchdog.c, with [smp_least_loaded] of
      arch/x86_64/smp.c. Page tables and AP start-up are the class [Machine];
      effects on hardware and user memory are a log.
    - [Vfs]: kernel/fs/vfs.c, the vnode tree. [Blkfs]: kernel/fs/blkfs.c, the
      on-disk format YartFS v5, which persists and rebuilds that tree.
    - [Fd]: the descriptors of kernel/arch/x86_64/syscall.c (files of [Vfs], pipes,
      pseudo-terminals, event counters, epoll sets) with read, write, dup, poll, close
      and the copy at a fork. [Files]: its calls on paths and files, native and Linux.
      [Calls]: select, ioctl, directory listings, attributes and times. All three act
      on one record, [kstate], whose tree is the tree of [Vfs]; whether a user address
      may be read is an argument. [FdProps], [FdFlow], [FilesProps] and [CallsProps]
      have the properties. There a read or a write of a pipe is one step; [PipeRace] has
      the same two functions as the loads and stores of two CPUs.
    - [Accounts]: the account table of syscall.c, the calls that raise and drop
      privileges (doas, the password check, the setuid family of the Linux calls) and the change of
      a password, on [Hash] and [Vfs]; its properties are in [AccountsProps].
    - [Loader]: kernel/arch/x86_64/user.c, from the ELF checks to [user_exec], on
      [Vmm] and the vnodes of [Vfs]. A store to user memory is a store through the
      tables in CR3 that can fault and be resolved; its properties, with the start-up
      code of userland/start.c, are in [LoaderProps].
    - [Tcp]: kernel/net/tcp.c with the checksum of kernel/net/net.c. [Nic]:
      drivers/e1000.c, the rings between the card and the stack, and the result type
      [res] of the network files. [Ipv6]: kernel/net/ipv6.c. [Net]: kernel/net/net.c,
      everything from the frame to ICMP, UDP, DHCP and DNS, dispatching into [Tcp] and
      [Ipv6]; its properties are in [NetProps].
    - [Cipher] is the interface of a 128-bit block cipher; [Aes]
      (kernel/lib/aes.c) implements it, [Ccmp] (kernel/lib/ccmp.c) and the key
      wrap of [Eapol] are proved against it.
    - [Hash]: kernel/lib/sha1.c, sha256.c, hmac.c. [Eapol]: kernel/lib/wpa.c and
      eapol.c, the WPA2 4-way handshake, on [Hash] and [Cipher].
    - [Bignum]: kernel/lib/bignum.c, Montgomery arithmetic and RSA. [X509]:
      kernel/lib/x509.c, the DER walk to a certificate's RSA key.
    - [Stream]: the calls of tcp.c that TLS makes, as the class [Transport], and what
      TLS relies on, as the class [Stream]; the stack of [Net] implements both, with
      the waiting calls [net_tcp_connect] and [net_tcp_close], and so does a pipe.
      [Tls]: kernel/net/tls.c over a [Transport], both roles; its properties, over any
      [Stream], are in [TlsProps].

    ** How code becomes definitions

    State is a record passed and returned; a C pointer is a number, 0 the null
    pointer, and shared structures live in a finite map, so aliasing is that of
    the code. A critical section under a spinlock is one step; an operation that
    drops its lock in the middle (Tcp) is split there, and the schedulers of
    different CPUs interleave at these steps (Sched.[sched_step]). A call that can
    halt the machine returns [outcome]; undefined behaviour the code does not
    exclude (a write past a buffer, a loop that never ends) is a value of its own,
    [None], [Overrun], [Oob], [KWrite], [KRead] or a [Fault] of [call], and never
    assumed away. A loop that waits for the
    network consumes a list of rounds (frames and clock readings); [Starved] is the
    answer when they run out. Console output and self-tests are
    left out, save the authenticator of the handshake self-test, which is the
    other party of the protocol.

    ** What the theorems show

    - Memory. [Pmm]: the counters, the bitmap and the reference counts agree in
      every reachable state, the allocators return frames that were free, and a
      frame is released exactly at its last reference. [Heap]: [kmalloc] returns an
      aligned block apart from every other allocation whenever the lists hold one
      of a larger class, [kfree] takes exactly that block back whatever it is merged
      with; one class of double frees goes unnoticed.
    - Virtual memory. [VmmProps]: mapping refines a map from pages to entries, takes a
      frame for each missing table and leaves the rest of the tree alone; a page survives eviction and fault-in; a
      fork shares every private page read-only with exactly one reference per mapping of
      a region's page or of a kernel-shared buffer and a
      write gives the writer its own copy; the search for free room is first fit
      and terminates; the regions of a task stay disjoint, in range and paid for,
      except that a touched lazy page is paid for twice.
    - Scheduling. [Sched]: the linked run queues are FIFO lists; round robin gives
      every queued task the CPU after as many ticks as there are tasks before it; an
      exiting child never loses the wake-up of its parent, which goes to the CPU with the
      least to do. The step relation also
      reaches a state in which one task runs on two CPUs.
    - Files. [Vfs]: writes and truncation against the byte sequence they stand for,
      advisory locks, and the non-termination of symbolic-link cycles. [Blkfs]: the
      block allocator, the layout computed by [format], directory entries as a
      round trip, checksums, and the missing reservation of the root inode.
    - Descriptors. [FdProps]: over every sequence of calls, forks and exits in which
      no pipe sits on a standard descriptor at a fork, a descriptor of a pipe never
      dangles, reading it ends only when no writer is left and writing fails only when
      no reader is. [FdFlow]: a pipe delivers what was written, in order, and what poll
      reports can be read or written, when each call runs to its end before the next; a
      fork with a pipe on a standard descriptor leads to a use after free. [PipeRace]:
      on two CPUs a byte is lost or one is read that nobody wrote, since the count is
      updated without a lock. [FilesProps]: what a descriptor wrote is what it reads back,
      and no other file changes; the Linux calls of the ...at family open, read and
      write without any permission, and a position set by lseek takes a write past its
      buffer. [CallsProps]: the records of getdents64 parse back to the beginning of the
      directory; file times follow the calendar.
    - Accounts. [AccountsProps]: five wrong passwords lock an account for the whole
      period, in which the right one is refused too; the only ways for a task to become
      root are a password that hashes to the stored value and the Linux calls setreuid
      and setresuid, which check nothing; a changed password is the one that is asked
      for, and the one found when the password file is read back from the tree.
    - Programs. [LoaderProps]: after [user_exec] of a well-formed program, every
      address of its span shows the file's byte or zero, relocated, with the
      permissions its segments ask for, and the start-up code reads back the
      arguments and the environment it was given; loading reads nothing outside the
      file and writes nothing outside user memory whatever the bytes, if no segment's
      file range wraps around; a relocation, however, writes anywhere in the kernel's
      half, and between the halves of the address space it stops the machine.
    - Network. [Tcp]: the connection invariant over all reachable tables, in-order
      delivery of the peer's stream, segments as a round trip. [Nic]: the receive
      path is a pair of queues that loses only what it counts. [NetProps]: routing is
      longest-prefix match; any bytes of a DNS reply are walked safely and a
      well-formed one gives its first address; a datagram and a ping to 127.0.0.1
      come back through the loopback ring; a DHCP acknowledgement configures the
      interface and silence ends in the fallback; UDP sends overrun above 1476 bytes;
      a full ARP cache never resolves again. [Ipv6]: advertisements configure the
      address; one option of length 0 hangs the host.
    - Cryptography. [Aes], [Ccmp], [Hash], [Bignum]: decryption inverts encryption,
      the MIC is accepted exactly when it is the one the sender computes, streaming
      equals one-shot hashing, HMAC, PBKDF2 and CCM are those of their RFCs, and both
      RSA operations compute the modular powers. [Eapol]: honest runs agree on the
      keys, message 3 installs a key only with a valid MIC, key wrap is a round trip.
    - TLS. [X509]: the key an encoder put in a certificate is found, any bytes without a
      wrapping length are walked safely and in bounded time. [TlsProps]: the PRF is
      that of RFC 5246; records are delivered in order, whatever room the caller has, and none is
      accepted without its MAC once the cipher is on; before that the handshake reader
      does not depend on how messages are cut into records, up to the size of its buffer; the premaster reaches the server. Also what is
      wrong: a session without any key, keys computed from the ClientHello, a handshake
      message that overruns the stack, a certificate that hangs the scan.

    ** Fuel and bounds

    Loops are structural where the code counts; the others take fuel that is shown
    to be enough: walks along the free lists, run queues and sibling lists take one
    more step than there are headers, tasks or vnodes ([keys_fit]); buffering and
    padding loops of the hashes consume a byte per round; the search for free
    room skips a region for good in each round; the carry loop of a
    Montgomery product runs at most twice; the switch falls back to the idle task
    at most once; a relocation table is no longer than the file, and a store of the
    loader is tried again after at most three resolved faults; the drain of the receive ring gives back a descriptor per round; DNS
    names and DHCP options take a byte or more per round; the nesting of IPv6
    deliveries is at most two deep; a DER scan takes two bytes or more per round, and
    the waiting loops of TLS one call of [net_service]; reading a pipe or a keyboard
    queue takes a byte per round and walks over siblings a vnode; a wait of poll, select
    or epoll consumes a list of rounds as the network does; PBKDF2 counts its rounds
    down, and path lookups have the fuel of [Vfs], with [Fault Endless] when it runs out.
    A cycle of symbolic links, an empty option of a
    router advertisement and a wrapping length in a certificate are proved to exhaust any fuel.

    ** Not modelled

    The 802.11 state machines. Of syscall.c: the dispatch, brk and mmap, signals and
    sigreturn, the wrappers of futex, clone and the sockets around the modelled
    scheduler and network, window surfaces, and calls that only read a device or a
    counter. What two CPUs inside tls.c do to its static buffers (its lock is never
    taken). Left out for good:
    device drivers, interrupt and boot code (register programming of hardware the
    repository does not define), graphics and desktop programs, generated data, and
    the test programs. *)
From Stdlib Require Import ZArith Lia Bool.
From stdpp Require Import base gmap list numbers option.
#[export] Set Default Goal Selector "!".
Open Scope Z_scope.

(** ** Machine integers: unsigned C types are [Z] values kept in range by
    these wrappers at the places where the code truncates. *)
Definition u8 (x : Z) : Z := x mod 256.
Definition u16 (x : Z) : Z := x mod 65536.
Definition u32 (x : Z) : Z := x mod 4294967296.
Definition u64 (x : Z) : Z := x mod 18446744073709551616.

(** ** C arrays as lists: [a.[i]] reads (0 outside the array, which the
    well-formedness invariants exclude), [a.[i <- v]] writes in place. *)
Definition nthZ (l : list Z) (i : Z) : Z := nth (Z.to_nat i) l 0.
Definition updZ (l : list Z) (i v : Z) : list Z := <[Z.to_nat i := v]> l.

Declare Scope carray_scope.
Delimit Scope carray_scope with carray.
Notation "a .[ i ]" := (nthZ a i) (at level 1, left associativity, format "a .[ i ]") : carray_scope.
Notation "a .[ i <- v ]" := (updZ a i v) (at level 1, left associativity, format "a .[ i  <-  v ]") : carray_scope.
Open Scope carray_scope.

(** Length of a list as a C [size_t]. *)
Definition len {A} (l : list A) : Z := Z.of_nat (length l).

(** One step of a fold, as an equation for terms that must not be unfolded. *)
Lemma fold_left_cons {A B} (f : A -> B -> A) x l a : fold_left f (x :: l) a = fold_left f l (f a x).
Proof. reflexivity. Qed.

(** ** Byte-addressed physical memory. *)
Definition memory := Z -> Z.
Definition mem_set (m : memory) (a n v : Z) : memory :=
  fun x => if (a <=? x) && (x <? a + n) then v else m x.

(** The value of a call that may not return: [kpanic] halts the machine. *)
Inductive outcome (A : Type) : Type :=
| Ret (a : A)
| Panic.
Arguments Ret {A} a.
Arguments Panic {A}.

Definition obind {A B} (x : outcome A) (f : A -> outcome B) : outcome B :=
  match x with Ret a => f a | Panic => Panic end.

(** ** Reading and writing arrays *)
Create Rewrite HintDb carray.

Lemma length_updZ l i v : length (updZ l i v) = length l.
Proof. apply length_insert. Qed.

Lemma len_app (a b : list Z) : len (a ++ b) = len a + len b.
Proof. unfold len. rewrite length_app. lia. Qed.
Lemma len_nonneg (l : list Z) : 0 <= len l.
Proof. unfold len. lia. Qed.

Lemma len_updZ l i v : len (updZ l i v) = len l.
Proof. unfold len. by rewrite length_updZ. Qed.

Lemma nthZ_updZ_eq l i v : 0 <= i < len l -> nthZ (updZ l i v) i = v.
Proof.
  unfold nthZ, updZ, len. intros H.
  apply nth_lookup_Some. apply list_lookup_insert_eq. lia.
Qed.

Lemma nthZ_updZ_ne l i j v : 0 <= i -> 0 <= j -> i <> j -> nthZ (updZ l i v) j = nthZ l j.
Proof.
  unfold nthZ, updZ. intros ???.
  rewrite !nth_lookup. rewrite list_lookup_insert_ne; [done | lia].
Qed.

Lemma nthZ_replicate n v i : 0 <= i < Z.of_nat n -> nthZ (replicate n v) i = v.
Proof.
  intros. unfold nthZ. apply nth_lookup_Some, lookup_replicate_2. lia.
Qed.

Lemma len_replicate n (v : Z) : len (replicate n v) = Z.of_nat n.
Proof. unfold len. by rewrite length_replicate. Qed.

#[export] Hint Rewrite length_updZ len_updZ len_replicate : carray.

Lemma u16_small x : 0 <= x < 65536 -> u16 x = x.
Proof. apply Z.mod_small. Qed.
Lemma u32_small x : 0 <= x < 4294967296 -> u32 x = x.
Proof. apply Z.mod_small. Qed.
Lemma u64_small x : 0 <= x < 18446744073709551616 -> u64 x = x.
Proof. apply Z.mod_small. Qed.
Lemma u8_small x : 0 <= x < 256 -> u8 x = x.
Proof. apply Z.mod_small. Qed.
Lemma u8_range x : 0 <= u8 x < 256.
Proof. apply Z.mod_pos_bound. lia. Qed.
Lemma u16_range x : 0 <= u16 x < 65536.
Proof. apply Z.mod_pos_bound. lia. Qed.
Lemma u32_range x : 0 <= u32 x < 4294967296.
Proof. apply Z.mod_pos_bound. lia. Qed.
Lemma u64_range x : 0 <= u64 x < 18446744073709551616.
Proof. apply Z.mod_pos_bound. lia. Qed.

(** ** Case analysis on boolean integer tests *)
Ltac zbool :=
  repeat match goal with
  | H : (_ <? _) = true |- _ => apply Z.ltb_lt in H
  | H : (_ <? _) = false |- _ => apply Z.ltb_ge in H
  | H : (_ <=? _) = true |- _ => apply Z.leb_le in H
  | H : (_ <=? _) = false |- _ => apply Z.leb_gt in H
  | H : (_ =? _) = true |- _ => apply Z.eqb_eq in H
  | H : (_ =? _) = false |- _ => apply Z.eqb_neq in H
  | H : (_ && _) = true |- _ => apply andb_true_iff in H as [? ?]
  | H : (_ || _) = false |- _ => apply orb_false_iff in H as [? ?]
  | H : negb _ = true |- _ => apply negb_true_iff in H
  | H : negb _ = false |- _ => apply negb_false_iff in H
  end.

Ltac case_ifZ :=
  match goal with
  | |- context [if ?b then _ else _] => let E := fresh "E" in destruct b eqn:E; zbool
  end.

(** ** Alignment *)
Lemma land_lnot_mask a n : 0 <= n -> Z.land a (Z.lnot (Z.ones n)) = a / 2 ^ n * 2 ^ n.
Proof.
  intros. rewrite <- Z.ldiff_land, Z.ldiff_ones_r by lia.
  rewrite Z.shiftl_mul_pow2, Z.shiftr_div_pow2 by lia. done.
Qed.

(** Splits conjunctions only (records and iffs stay whole). *)
Ltac splits := repeat match goal with |- _ /\ _ => split end.

(** ** Byte strings *)
Definition byte (x : Z) : Prop := 0 <= x < 256.
Definition bytes (l : list Z) : Prop := Forall byte l.

#[export] Instance byte_dec x : Decision (byte x).
Proof. unfold byte. apply _. Defined.

(** [memcpy]-style access: [n] bytes of [l] from offset [off]. *)
Definition slice (l : list Z) (off n : Z) : list Z := take (Z.to_nat n) (drop (Z.to_nat off) l).

(** Byte-wise exclusive or of two buffers of the same length. *)
Definition xor_bytes (a b : list Z) : list Z := zip_with Z.lxor a b.

Lemma testbit_small x n i : 0 <= n -> 0 <= x < 2 ^ n -> n <= i -> Z.testbit x i = false.
Proof.
  intros ? [? ?] ?. destruct (Z.eq_dec x 0) as [->|]; [apply Z.testbit_0_l|].
  apply Z.bits_above_log2; [done|]. apply Z.log2_lt_pow2; [lia|].
  eapply Z.lt_le_trans; [done|]. apply Z.pow_le_mono_r; lia.
Qed.

Lemma bits_bound x n : 0 <= n -> 0 <= x -> (forall i, n <= i -> Z.testbit x i = false) -> x < 2 ^ n.
Proof.
  intros ?? Hb. destruct (Z.eq_dec x 0) as [->|]; [apply Z.pow_pos_nonneg; lia|].
  apply Z.log2_lt_pow2; [lia|]. destruct (Z.lt_ge_cases (Z.log2 x) n); [done|].
  assert (Z.testbit x (Z.log2 x) = true) as Ht by (apply Z.bit_log2; lia).
  rewrite Hb in Ht; done.
Qed.

Lemma lxor_range n x y : 0 <= n -> 0 <= x < 2 ^ n -> 0 <= y < 2 ^ n -> 0 <= Z.lxor x y < 2 ^ n.
Proof.
  intros. assert (0 <= Z.lxor x y) by (apply Z.lxor_nonneg; lia). split; [done|].
  apply bits_bound; [done..|]. intros i Hi. rewrite Z.lxor_spec, !(testbit_small _ n) by lia. done.
Qed.

Lemma lor_range n x y : 0 <= n -> 0 <= x < 2 ^ n -> 0 <= y < 2 ^ n -> 0 <= Z.lor x y < 2 ^ n.
Proof.
  intros. assert (0 <= Z.lor x y) by (apply Z.lor_nonneg; lia). split; [done|].
  apply bits_bound; [done..|]. intros i Hi. rewrite Z.lor_spec, !(testbit_small _ n) by lia. done.
Qed.

Lemma byte_lxor x y : byte x -> byte y -> byte (Z.lxor x y).
Proof. apply (lxor_range 8). lia. Qed.

Lemma byte_lor x y : byte x -> byte y -> byte (Z.lor x y).
Proof. apply (lor_range 8). lia. Qed.

Lemma byte_u8 x : byte (u8 x).
Proof. apply u8_range. Qed.

Lemma lxor_cancel x y : Z.lxor (Z.lxor x y) y = x.
Proof. by rewrite Z.lxor_assoc, Z.lxor_nilpotent, Z.lxor_0_r. Qed.

Create HintDb bytes.
#[export] Hint Resolve byte_lxor byte_lor byte_u8 : bytes.

(** Testing a bit with a mask. *)
Lemma land_bit w k : 0 <= k -> negb (Z.land w (Z.shiftl 1 k) =? 0) = Z.testbit w k.
Proof.
  intros Hk. destruct (Z.testbit w k) eqn:E.
  - apply negb_true_iff, Z.eqb_neq. intros H0.
    assert (Z.testbit (Z.land w (Z.shiftl 1 k)) k = false) as H1 by (rewrite H0; apply Z.testbit_0_l).
    rewrite Z.land_spec, E, Z.shiftl_spec, Z.sub_diag in H1 by lia. discriminate.
  - apply negb_false_iff, Z.eqb_eq. apply Z.bits_inj'. intros n Hn.
    rewrite Z.land_spec, Z.testbit_0_l, Z.shiftl_spec by lia.
    destruct (Z.eq_dec n k) as [->|Hne].
    + by rewrite E.
    + replace (Z.testbit 1 (n - k)) with false; [apply andb_false_r|].
      symmetry. destruct (Z.ltb_spec (n - k) 0) as [|].
      * by apply Z.testbit_neg_r.
      * apply (Z.bits_above_log2 1); simpl; lia.
Qed.

(** A property of all bytes is decided by running it on the 256 values. *)
Lemma all_bytes (f : Z -> bool) : forallb f (seqZ 0 256) = true -> forall a, byte a -> f a = true.
Proof.
  rewrite forallb_forall. intros Hf a Ha. apply Hf.
  apply list_elem_of_In, elem_of_seqZ. unfold byte in Ha. lia.
Qed.

Lemma all_bytes2 (f : Z -> Z -> bool) :
  forallb (fun a => forallb (f a) (seqZ 0 256)) (seqZ 0 256) = true ->
  forall a b, byte a -> byte b -> f a b = true.
Proof.
  intros Hf a b Ha Hb. apply (all_bytes _ Hf) in Ha. by apply (all_bytes _ Ha).
Qed.

Lemma nthZ_byte l i : bytes l -> byte (nthZ l i).
Proof.
  intros Hl. unfold nthZ. destruct (decide (Z.to_nat i < length l)%nat) as [Hi|Hi].
  - apply lookup_lt_is_Some in Hi as [x Hx]. rewrite nth_lookup, Hx.
    by eapply Forall_lookup_1 in Hx.
  - rewrite nth_overflow by lia. unfold byte. lia.
Qed.

Lemma bytes_app a b : bytes a -> bytes b -> bytes (a ++ b).
Proof. intros. apply Forall_app; auto. Qed.
Lemma bytes_take n l : bytes l -> bytes (take n l).
Proof. apply Forall_take. Qed.
Lemma bytes_drop n l : bytes l -> bytes (drop n l).
Proof. apply Forall_drop. Qed.
Lemma bytes_slice l o n : bytes l -> bytes (slice l o n).
Proof. intros. unfold slice. by apply bytes_take, bytes_drop. Qed.
Lemma bytes_replicate n v : byte v -> bytes (replicate n v).
Proof. intros. by apply Forall_replicate. Qed.
Lemma bytes_updZ l i v : bytes l -> byte v -> bytes (updZ l i v).
Proof. intros. by apply Forall_insert. Qed.
Lemma bytes_xor a b : bytes a -> bytes b -> bytes (xor_bytes a b).
Proof.
  intros Ha. revert b. induction Ha as [|x a Hx Ha IH]; intros b Hb; [by constructor|].
  destruct Hb as [|y b Hy Hb]; constructor; [by apply byte_lxor | by apply IH].
Qed.
#[export] Hint Resolve nthZ_byte bytes_app bytes_take bytes_drop bytes_slice bytes_replicate
  bytes_updZ bytes_xor : bytes.

Lemma xor_bytes_cancel a b : length a = length b -> xor_bytes (xor_bytes a b) b = a.
Proof.
  unfold xor_bytes. revert b. induction a as [|x a IH]; intros [|y b] Hl; simpl in *; try done.
  rewrite lxor_cancel, IH by lia. done.
Qed.

Lemma length_xor_bytes a b : length a = length b -> length (xor_bytes a b) = length a.
Proof. intros. unfold xor_bytes. rewrite length_zip_with. lia. Qed.

Lemma length_slice l o n :
  0 <= o -> 0 <= n -> o + n <= len l -> length (slice l o n) = Z.to_nat n.
Proof. intros. unfold slice, len in *. rewrite length_take, length_drop. lia. Qed.

Lemma u8_byte x : byte x -> u8 x = x.
Proof. apply u8_small. Qed.

Lemma bytes_check s : forallb (fun x => bool_decide (byte x)) s = true -> bytes s.
Proof.
  intros Hb. apply Forall_forall. intros x Hx. eapply bool_decide_eq_true_1.
  rewrite forallb_forall in Hb. apply Hb, Hx.
Qed.

Ltac check_bytes := apply bytes_check; vm_compute; reflexivity.

(** [memcmp]: the difference of the first bytes that differ. *)
Fixpoint memcmp (a b : list Z) : Z :=
  match a, b with
  | x :: a', y :: b' => if x =? y then memcmp a' b' else x - y
  | _, _ => 0
  end.

(** [memcpy] of [d] into [l] at offset [off]. *)
Definition blit (l : list Z) (off : Z) (d : list Z) : list Z :=
  take (Z.to_nat off) l ++ d ++ drop (Z.to_nat off + length d) l.

Lemma memcmp_antisym a : forall b, memcmp b a = - memcmp a b.
Proof.
  induction a as [|x a IH]; intros [|y b]; [done..|]. cbn [memcmp].
  rewrite (Z.eqb_sym y x). destruct (x =? y); [apply IH|lia].
Qed.

Lemma memcmp_eq a : forall b, length a = length b -> memcmp a b = 0 -> a = b.
Proof.
  induction a as [|x a IH]; intros [|y b] Hl; try done. cbn [memcmp].
  case_ifZ; [|lia]. intros. subst. f_equal. apply IH; [simpl in Hl; lia|done].
Qed.

Lemma memcmp_refl a : memcmp a a = 0.
Proof. induction a as [|x a IH]; [done|]. cbn [memcmp]. by rewrite Z.eqb_refl. Qed.

Lemma length_blit l off d : 0 <= off -> off + len d <= len l -> length (blit l off d) = length l.
Proof.
  unfold blit, len. intros. rewrite !length_app, length_take, length_drop. lia.
Qed.

Lemma bytes_blit l off d : bytes l -> bytes d -> bytes (blit l off d).
Proof. intros. unfold blit. auto with bytes. Qed.
#[export] Hint Resolve bytes_blit : bytes.

(** Reads of a written buffer: inside the window, before it, after it. *)
Lemma slice_blit_same l off d :
  0 <= off -> off + len d <= len l -> slice (blit l off d) off (len d) = d.
Proof.
  unfold slice, blit, len. intros. rewrite Nat2Z.id.
  rewrite drop_app_length' by (rewrite length_take; lia). by rewrite take_app_length.
Qed.

Lemma nthZ_app_r (a b : list Z) i : len a <= i -> (a ++ b).[i] = b.[i - len a].
Proof.
  unfold nthZ, len. intros. rewrite app_nth2 by lia. f_equal. lia.
Qed.
Lemma nthZ_app_l (a b : list Z) i : 0 <= i < len a -> (a ++ b).[i] = a.[i].
Proof. unfold nthZ, len. intros. by rewrite app_nth1 by lia. Qed.

Lemma slice_all (l : list Z) n : len l = n -> slice l 0 n = l.
Proof. intros <-. unfold slice, len. rewrite Nat2Z.id. apply take_ge. done. Qed.

Lemma slice_app_l a b o n : 0 <= o -> 0 <= n -> o + n <= len a -> slice (a ++ b) o n = slice a o n.
Proof.
  unfold slice, len. intros. rewrite drop_app_le, take_app_le by (rewrite ?length_drop; lia). done.
Qed.

Lemma slice_app_r a b o n : len a <= o -> slice (a ++ b) o n = slice b (o - len a) n.
Proof.
  unfold slice, len. intros. rewrite drop_app_ge by lia.
  by replace (Z.to_nat (o - Z.of_nat (length a))) with (Z.to_nat o - length a)%nat by lia.
Qed.

Lemma slice_take l m o n : 0 <= o -> 0 <= n -> o + n <= Z.of_nat m -> slice (take m l) o n = slice l o n.
Proof.
  unfold slice. intros. replace m with (Z.to_nat o + (m - Z.to_nat o))%nat by lia.
  rewrite <- take_drop_commute, take_take. f_equal. lia.
Qed.

Lemma slice_drop l m o n : 0 <= o -> slice (drop m l) o n = slice l (Z.of_nat m + o) n.
Proof. unfold slice. intros. rewrite drop_drop. do 2 f_equal. lia. Qed.

Lemma slice_blit_before l off d o n :
  0 <= o -> 0 <= n -> o + n <= off -> off <= len l -> slice (blit l off d) o n = slice l o n.
Proof.
  unfold blit. intros. rewrite slice_app_l.
  - apply slice_take; lia.
  - done.
  - done.
  - unfold len in *. rewrite length_take. lia.
Qed.

Lemma slice_blit_after l off d o n :
  0 <= off -> off + len d <= o -> off + len d <= len l -> slice (blit l off d) o n = slice l o n.
Proof.
  unfold blit. intros. unfold len in *.
  rewrite slice_app_r by (unfold len; rewrite length_take; lia).
  rewrite slice_app_r by (unfold len; rewrite length_take; lia).
  unfold len. rewrite length_take. rewrite slice_drop by lia. f_equal. lia.
Qed.

Lemma blit_blit l off d d' : 0 <= off -> off + len d <= len l -> length d = length d' ->
  blit (blit l off d) off d' = blit l off d'.
Proof.
  unfold blit, len. intros ?? Hd. rewrite take_app_length' by (rewrite length_take; lia).
  f_equal. f_equal. rewrite <- Hd.
  replace (Z.to_nat off + length d)%nat with (length (take (Z.to_nat off) l) + length d)%nat
    by (rewrite length_take; lia).
  by rewrite drop_app_add, drop_app_length.
Qed.

Lemma blit_slice l off n : 0 <= off -> 0 <= n -> off + n <= len l -> blit l off (slice l off n) = l.
Proof.
  unfold blit, slice, len. intros. rewrite length_take, length_drop, Nat.min_l by lia.
  by rewrite <- drop_drop, take_drop, take_drop.
Qed.

(** ** Big-endian loads undo big-endian stores *)
Lemma lor_byte_shift x s : 0 <= x -> 0 <= s ->
  Z.lor (Z.shiftl (Z.shiftr x (s + 8)) 8) (u8 (Z.shiftr x s)) = Z.shiftr x s.
Proof.
  intros Hx Hs. apply Z.bits_inj'. intros i Hi. rewrite Z.lor_spec, Z.shiftr_spec by lia.
  unfold u8. replace 256 with (2 ^ 8) by reflexivity.
  destruct (Z.lt_ge_cases i 8).
  - rewrite Z.shiftl_spec_low by lia. rewrite Z.mod_pow2_bits_low by lia.
    by rewrite Z.shiftr_spec by lia.
  - rewrite Z.shiftl_spec by lia. rewrite Z.mod_pow2_bits_high by lia.
    rewrite Z.shiftr_spec, orb_false_r by lia. f_equal. lia.
Qed.

Lemma be16_join v : 0 <= v < 65536 -> Z.lor (Z.shiftl (u8 (Z.shiftr v 8)) 8) (u8 v) = v.
Proof.
  intros Hv. pose proof (lor_byte_shift v 0 ltac:(lia) ltac:(lia)) as H.
  rewrite !Z.shiftr_0_r in H. rewrite <- H at 3. f_equal. f_equal.
  apply u8_small. rewrite Z.shiftr_div_pow2 by lia. split; [apply Z.div_pos; lia|].
  apply Z.div_lt_upper_bound; lia.
Qed.

Lemma be32_join v : 0 <= v < 4294967296 ->
  Z.lor (Z.lor (Z.lor (Z.shiftl (u8 (Z.shiftr v 24)) 24) (Z.shiftl (u8 (Z.shiftr v 16)) 16))
               (Z.shiftl (u8 (Z.shiftr v 8)) 8)) (u8 v) = v.
Proof.
  intros Hv.
  pose proof (lor_byte_shift v 16 ltac:(lia) ltac:(lia)) as H16.
  pose proof (lor_byte_shift v 8 ltac:(lia) ltac:(lia)) as H8.
  pose proof (lor_byte_shift v 0 ltac:(lia) ltac:(lia)) as H0.
  rewrite !Z.shiftr_0_r in H0. change (16 + 8) with 24 in H16. change (8 + 8) with 16 in H8.
  change (0 + 8) with 8 in H0.
  rewrite (u8_small (Z.shiftr v 24)).
  2: { rewrite Z.shiftr_div_pow2 by lia. split; [apply Z.div_pos; lia|apply Z.div_lt_upper_bound; lia]. }
  transitivity (Z.lor (Z.shiftl (Z.lor (Z.shiftl (Z.lor (Z.shiftl (Z.shiftr v 24) 8)
    (u8 (Z.shiftr v 16))) 8) (u8 (Z.shiftr v 8))) 8) (u8 v)).
  - rewrite !Z.shiftl_lor, !Z.shiftl_shiftl by lia. reflexivity.
  - by rewrite H16, H8, H0.
Qed.

(** ** Linked lists *)
(** The elements met from [x] along the links [nx], up to the null link. *)
Fixpoint chain (nx : Z -> Z) (x : Z) (l : list Z) : Prop :=
  match l with
  | [] => x = 0
  | a :: r => x = a /\ a <> 0 /\ chain nx (nx a) r
  end.

Lemma chain_frame nx nx' l : forall x, (forall a, a ∈ l -> nx' a = nx a) -> chain nx x l -> chain nx' x l.
Proof.
  induction l as [|a l IH]; intros x Hf Hl; [done|]. cbn [chain] in *. destruct Hl as (-> & Ha & Hl).
  rewrite (Hf a) by (by apply elem_of_cons; left). split; [done|]. split; [done|].
  apply IH; [intros b Hb; apply Hf; by apply elem_of_cons; right|done].
Qed.

Lemma chain_nonzero nx l : forall x, chain nx x l -> 0 ∉ l.
Proof.
  induction l as [|a l IH]; intros x Hl Hin; [by apply not_elem_of_nil in Hin|].
  cbn [chain] in Hl. destruct Hl as (_ & Ha & Hl). apply elem_of_cons in Hin as [<-|Hin]; [done|by eapply IH].
Qed.

Lemma chain_head nx x l : chain nx x l -> x = hd 0 l.
Proof. destruct l; cbn; [done|by intros [-> _]]. Qed.

(** The link of an element is the next element. *)
Lemma chain_next nx l1 a l2 : forall x, chain nx x (l1 ++ a :: l2) -> nx a = hd 0 l2.
Proof.
  induction l1 as [|b l1 IH]; intros x Hl; cbn [app chain] in Hl; destruct Hl as (_ & _ & Hl);
    [by apply chain_head in Hl|by eapply IH].
Qed.

(** Taking an element out by relinking its predecessor. *)
Lemma chain_unlink nx nx' l1 t b l2 : forall x, chain nx x (l1 ++ t :: b :: l2) ->
  nx' t = nx b -> (forall a, a ∈ l1 ++ l2 -> nx' a = nx a) -> chain nx' x (l1 ++ t :: l2).
Proof.
  induction l1 as [|a l1 IH]; intros x Hl Ht Hr; cbn [app chain] in *; destruct Hl as (-> & Ha & Hl).
  - destruct Hl as (E & Hb0 & Hl). split; [done|]. split; [done|]. rewrite Ht.
    eapply chain_frame; [|exact Hl]. done.
  - split; [done|]. split; [done|]. rewrite Hr by (by apply elem_of_cons; left).
    apply IH; try done. intros c Hc. apply Hr. by apply elem_of_cons; right.
Qed.

(** A list of keys of a finite map is no longer than the map. *)
Lemma keys_fit {A} (m : gmap Z A) (l : list Z) : NoDup l -> (forall a, a ∈ l -> is_Some (m !! a)) ->
  (length l < S (length (map_to_list m)))%nat.
Proof.
  intros Hnd Hm. enough (l ⊆+ (map_to_list m).*1) as Hs.
  { apply submseteq_length in Hs. rewrite length_fmap in Hs. lia. }
  apply NoDup_submseteq; [done|]. intros a Ha. destruct (Hm a Ha) as [v E]. apply list_elem_of_fmap. exists (a, v).
  split; [done|]. by apply elem_of_map_to_list.
Qed.
