(* ===== verification/Pmm.v ===== *)
(** * Physical memory manager (kernel/mm/pmm.c)

    The bitmap of used frames (64 frames per word), the 16-bit reference count
    of every frame, the next-fit cursor and the two detector counters, with
    every operation of the file: boot-time carving and initialisation, the
    single-frame allocator with its eviction and out-of-memory retries, the
    contiguous allocators, reference counting, freeing and reservation.
    Spinlock sections are atomic steps; [vmm_evict_some] and
    [sched_oom_kill_one], which live in other components, come in through the
    interface [Reclaimer]. *)
From Stdlib Require Import ZArith Lia Bool.
From stdpp Require Import base list numbers option.
From S2P Require Import Prelude.
#[local] Set Default Goal Selector "!".
Open Scope Z_scope.

Definition PAGE_SIZE : Z := 4096.
Definition PAGE_ALIGN_UP (x : Z) : Z := Z.land (x + (PAGE_SIZE - 1)) (Z.lnot (PAGE_SIZE - 1)).
Definition LIMINE_MEMMAP_USABLE : Z := 0.
Definition OOM_MAX_KILLS : nat := 16.

Record memmap_entry := MemmapEntry { e_base : Z; e_length : Z; e_type : Z }.

Record pmm := Pmm {
  bitmap : list Z;            (* u64 words *)
  refs : list Z;              (* u16 per frame *)
  bitmap_pages : Z;
  total_pages : Z;
  used_pages : Z;
  last_idx : Z;
  double_free_count : Z;
  bad_ref_count : Z;
  oom_force : bool;
  mem : memory                (* RAM, by physical address *)
}.

(** ** Bitmap macros *)
Definition bit_set (bm : list Z) (i : Z) : list Z :=
  bm.[i / 64 <- Z.lor (bm.[i / 64]) (Z.shiftl 1 (i mod 64))].
Definition bit_clr (bm : list Z) (i : Z) : list Z :=
  bm.[i / 64 <- Z.land (bm.[i / 64]) (Z.lnot (Z.shiftl 1 (i mod 64)))].
Definition bit_tst (bm : list Z) (i : Z) : bool :=
  negb (Z.land (bm.[i / 64]) (Z.shiftl 1 (i mod 64)) =? 0).

(** ** Boot-time initialisation *)
Fixpoint carve_region (mm : list memmap_entry) (need : Z) : option (Z * list memmap_entry) :=
  match mm with
  | [] => None
  | e :: rest =>
      if (e_type e =? LIMINE_MEMMAP_USABLE) && (need <=? e_length e) then
        Some (e_base e, MemmapEntry (e_base e + need) (e_length e - need) (e_type e) :: rest)
      else
        match carve_region rest need with
        | Some (p, rest') => Some (p, e :: rest')
        | None => None
        end
  end.

(** Highest usable address. *)
Definition highest_usable (mm : list memmap_entry) : Z :=
  fold_left (fun hi e =>
    if e_type e =? LIMINE_MEMMAP_USABLE then
      let top := e_base e + e_length e in if hi <? top then top else hi
    else hi) mm 0.

(** [for (a = base; a + PAGE_SIZE <= end; a += PAGE_SIZE) BIT_CLR(a / PAGE_SIZE)] *)
Fixpoint free_range (fuel : nat) (bm : list Z) (a stop : Z) : list Z :=
  match fuel with
  | O => bm
  | S k => if a + PAGE_SIZE <=? stop
           then free_range k (bit_clr bm (a / PAGE_SIZE)) (a + PAGE_SIZE) stop
           else bm
  end.

Definition mark_usable (mm : list memmap_entry) (bm : list Z) : list Z :=
  fold_left (fun bm e =>
    if e_type e =? LIMINE_MEMMAP_USABLE
    then free_range (S (Z.to_nat (e_length e / PAGE_SIZE))) bm (e_base e) (e_base e + e_length e)
    else bm) mm bm.

(** The low-memory loop over frames [i .. i + fuel). *)
Fixpoint reserve_low (fuel : nat) (i : Z) (bm rf : list Z) : list Z * list Z :=
  match fuel with
  | O => (bm, rf)
  | S k => if bit_tst bm i then reserve_low k (i + 1) bm rf
           else reserve_low k (i + 1) (bit_set bm i) (rf.[i <- 1])
  end.

(** Number of set bits among frames [i .. i + n). *)
Fixpoint count_used (bm : list Z) (n : nat) (i : Z) : Z :=
  match n with
  | O => 0
  | S k => (if bit_tst bm i then 1 else 0) + count_used bm k (i + 1)
  end.

Definition pmm_init (mm : list memmap_entry) (m : memory) : outcome pmm :=
  let total := highest_usable mm / PAGE_SIZE in
  let bm_bytes := PAGE_ALIGN_UP ((total + 7) / 8) in
  let rf_bytes := PAGE_ALIGN_UP (total * 2) in
  match carve_region mm bm_bytes with
  | None => Panic
  | Some (_, mm1) =>
    let bm0 := replicate (Z.to_nat (bm_bytes / 8)) 18446744073709551615 in
    match carve_region mm1 rf_bytes with
    | None => Panic
    | Some (_, mm2) =>
      let rf0 := replicate (Z.to_nat (rf_bytes / 2)) 0 in
      let bm1 := mark_usable mm2 bm0 in
      let '(bm2, rf2) := reserve_low 256 0 bm1 rf0 in
      Ret {| bitmap := bm2; refs := rf2; bitmap_pages := bm_bytes / PAGE_SIZE;
             total_pages := total;
             used_pages := count_used bm2 (Z.to_nat total) 0;
             last_idx := 0; double_free_count := 0; bad_ref_count := 0;
             oom_force := false; mem := m |}
    end
  end.

(** ** Allocation *)
Definition alloc_idx (s : pmm) (i : Z) : pmm * Z :=
  let p := i * PAGE_SIZE in
  ({| bitmap := bit_set (bitmap s) i; refs := (refs s).[i <- 1];
      bitmap_pages := bitmap_pages s; total_pages := total_pages s;
      used_pages := used_pages s + 1; last_idx := i + 1;
      double_free_count := double_free_count s; bad_ref_count := bad_ref_count s;
      oom_force := oom_force s; mem := mem_set (mem s) p PAGE_SIZE 0 |}, p).

(** First clear bit among frames [i .. i + n). *)
Fixpoint scan_free (bm : list Z) (n : nat) (i : Z) : option Z :=
  match n with
  | O => None
  | S k => if bit_tst bm i then scan_free bm k (i + 1) else Some i
  end.

Definition find_free_locked (s : pmm) : pmm * Z :=
  match scan_free (bitmap s) (Z.to_nat (total_pages s - last_idx s)) (last_idx s) with
  | Some i => alloc_idx s i
  | None =>
    match scan_free (bitmap s) (Z.to_nat (last_idx s)) 0 with
    | Some i => alloc_idx s i
    | None => (s, 0)
    end
  end.

Definition set_oom_force (s : pmm) (on : bool) : pmm :=
  {| bitmap := bitmap s; refs := refs s; bitmap_pages := bitmap_pages s;
     total_pages := total_pages s; used_pages := used_pages s; last_idx := last_idx s;
     double_free_count := double_free_count s; bad_ref_count := bad_ref_count s;
     oom_force := on; mem := mem s |}.
Definition pmm_oom_test_force (s : pmm) (on : bool) : pmm := set_oom_force s on.

(** ** Reference counting and freeing *)
Definition set_refs (s : pmm) (rf : list Z) : pmm :=
  {| bitmap := bitmap s; refs := rf; bitmap_pages := bitmap_pages s;
     total_pages := total_pages s; used_pages := used_pages s; last_idx := last_idx s;
     double_free_count := double_free_count s; bad_ref_count := bad_ref_count s;
     oom_force := oom_force s; mem := mem s |}.
Definition count_bad_ref (s : pmm) : pmm :=
  {| bitmap := bitmap s; refs := refs s; bitmap_pages := bitmap_pages s;
     total_pages := total_pages s; used_pages := used_pages s; last_idx := last_idx s;
     double_free_count := double_free_count s; bad_ref_count := u64 (bad_ref_count s + 1);
     oom_force := oom_force s; mem := mem s |}.
Definition count_double_free (s : pmm) : pmm :=
  {| bitmap := bitmap s; refs := refs s; bitmap_pages := bitmap_pages s;
     total_pages := total_pages s; used_pages := used_pages s; last_idx := last_idx s;
     double_free_count := u64 (double_free_count s + 1); bad_ref_count := bad_ref_count s;
     oom_force := oom_force s; mem := mem s |}.

Definition pmm_ref_page (s : pmm) (p : Z) : pmm :=
  let i := p / PAGE_SIZE in
  if (total_pages s <=? i) || negb (bit_tst (bitmap s) i) then count_bad_ref s
  else if (refs s).[i] <? 65535 then set_refs s ((refs s).[i <- (refs s).[i] + 1])
  else s.

Definition pmm_refcount (s : pmm) (p : Z) : Z :=
  let i := p / PAGE_SIZE in
  if total_pages s <=? i then 0 else (refs s).[i].

Definition pmm_unref_page (s : pmm) (p : Z) : pmm :=
  let i := p / PAGE_SIZE in
  if (total_pages s <=? i) || negb (bit_tst (bitmap s) i) then count_double_free s
  else if (refs s).[i] =? 0 then count_double_free s
  else
    let s1 := set_refs s ((refs s).[i <- (refs s).[i] - 1]) in
    if (refs s1).[i] =? 0 then
      {| bitmap := bit_clr (bitmap s1) i; refs := refs s1; bitmap_pages := bitmap_pages s1;
         total_pages := total_pages s1; used_pages := used_pages s1 - 1;
         last_idx := if i <? last_idx s1 then i else last_idx s1;
         double_free_count := double_free_count s1; bad_ref_count := bad_ref_count s1;
         oom_force := oom_force s1; mem := mem_set (mem s1) p PAGE_SIZE 0 |}
    else s1.

Definition pmm_free_page (s : pmm) (p : Z) : pmm := pmm_unref_page s p.

(** [for (k = 0; k < n; k++) pmm_unref_page(p + k * PAGE_SIZE)] *)
Fixpoint pmm_free_pages (s : pmm) (p : Z) (n : nat) : pmm :=
  match n with
  | O => s
  | S k => pmm_free_pages (pmm_unref_page s p) (p + PAGE_SIZE) k
  end.

Definition pmm_mark_page_used (s : pmm) (p : Z) : pmm :=
  let i := p / PAGE_SIZE in
  if (total_pages s <=? i) || bit_tst (bitmap s) i then s
  else {| bitmap := bit_set (bitmap s) i; refs := (refs s).[i <- 1];
          bitmap_pages := bitmap_pages s; total_pages := total_pages s;
          used_pages := used_pages s + 1; last_idx := last_idx s;
          double_free_count := double_free_count s; bad_ref_count := bad_ref_count s;
          oom_force := oom_force s; mem := mem s |}.

Fixpoint pmm_mark_range_used (s : pmm) (base : Z) (npages : nat) : pmm :=
  match npages with
  | O => s
  | S k => pmm_mark_range_used (pmm_mark_page_used s base) (base + PAGE_SIZE) k
  end.

Definition pmm_page_used (s : pmm) (p : Z) : bool :=
  let i := p / PAGE_SIZE in
  if total_pages s <=? i then true else bit_tst (bitmap s) i.
Definition pmm_page_refs (s : pmm) (p : Z) : Z :=
  let i := p / PAGE_SIZE in
  if total_pages s <=? i then 0 else (refs s).[i].
Definition pmm_total_pages (s : pmm) : Z := total_pages s.
Definition pmm_used_pages (s : pmm) : Z := used_pages s.

(** * Bitmap lemmas *)
Definition bits_cover (bm : list Z) (i : Z) : Prop := 0 <= i < 64 * len bm.

Lemma word_index bm i : bits_cover bm i -> 0 <= i / 64 < len bm.
Proof.
  unfold bits_cover. intros. pose proof (Z.div_mod i 64). pose proof (Z.mod_pos_bound i 64). lia.
Qed.

Lemma word_split i j : i / 64 = j / 64 -> i mod 64 = j mod 64 -> i = j.
Proof. intros. rewrite (Z.div_mod i 64), (Z.div_mod j 64) by lia. congruence. Qed.

Lemma bit_tst_spec bm i : bit_tst bm i = Z.testbit (bm.[i / 64]) (i mod 64).
Proof. apply land_bit. apply Z.mod_pos_bound. lia. Qed.

Lemma testbit_one k n : 0 <= k -> 0 <= n -> Z.testbit (Z.shiftl 1 k) n = (k =? n).
Proof.
  intros. rewrite Z.shiftl_1_l. rewrite Z.pow2_bits_eqb by lia. done.
Qed.

Lemma index_eqb i j : (i =? j) = ((i / 64 =? j / 64) && (i mod 64 =? j mod 64)).
Proof.
  destruct (i =? j) eqn:E; zbool.
  - subst. by rewrite !Z.eqb_refl.
  - symmetry. apply andb_false_iff.
    destruct (i / 64 =? j / 64) eqn:E1; [right|by left]. zbool.
    apply Z.eqb_neq. intros ?. apply E. by apply word_split.
Qed.

Lemma mod64_bound i : 0 <= i mod 64.
Proof. apply Z.mod_pos_bound. lia. Qed.

Lemma div64_nonneg i : 0 <= i -> 0 <= i / 64.
Proof. intros. apply Z.div_pos; lia. Qed.

#[local] Hint Resolve mod64_bound div64_nonneg : core.

Lemma bit_set_tst bm i j :
  bits_cover bm i -> 0 <= j -> bit_tst (bit_set bm i) j = (i =? j) || bit_tst bm j.
Proof.
  intros Hi Hj. rewrite !bit_tst_spec, index_eqb. unfold bit_set.
  destruct (i / 64 =? j / 64) eqn:E; zbool.
  - rewrite <- E, nthZ_updZ_eq by auto using word_index.
    rewrite Z.lor_spec, testbit_one by auto. simpl. apply orb_comm.
  - destruct Hi. rewrite nthZ_updZ_ne; auto.
Qed.

Lemma bit_clr_tst bm i j :
  bits_cover bm i -> 0 <= j -> bit_tst (bit_clr bm i) j = negb (i =? j) && bit_tst bm j.
Proof.
  intros Hi Hj. rewrite !bit_tst_spec, index_eqb. unfold bit_clr.
  destruct (i / 64 =? j / 64) eqn:E; zbool.
  - rewrite <- E, nthZ_updZ_eq by auto using word_index.
    rewrite Z.land_spec, Z.lnot_spec, testbit_one by auto. simpl. apply andb_comm.
  - destruct Hi. rewrite nthZ_updZ_ne; auto.
Qed.

Lemma len_bit_set bm i : len (bit_set bm i) = len bm.
Proof. apply len_updZ. Qed.
Lemma len_bit_clr bm i : len (bit_clr bm i) = len bm.
Proof. apply len_updZ. Qed.
#[local] Hint Rewrite len_bit_set len_bit_clr : carray.

(** ** Counting set bits *)
Lemma count_used_ext bm bm' n i :
  (forall j, i <= j < i + Z.of_nat n -> bit_tst bm j = bit_tst bm' j) ->
  count_used bm n i = count_used bm' n i.
Proof.
  revert i. induction n as [|n IH]; intros i Hx; simpl; [done|].
  rewrite Hx, (IH (i + 1)) by (intros; try apply Hx; lia). done.
Qed.

Lemma count_used_set bm n i k :
  bits_cover bm k -> 0 <= i <= k -> k < i + Z.of_nat n -> bit_tst bm k = false ->
  count_used (bit_set bm k) n i = count_used bm n i + 1.
Proof.
  intros Hc. revert i. induction n as [|n IH]; intros i Hi Hk Hf; [lia|].
  simpl. destruct (Z.eq_dec i k) as [->|Hne].
  - rewrite bit_set_tst by (assumption || lia). rewrite Z.eqb_refl, Hf. simpl.
    rewrite (count_used_ext (bit_set bm k) bm); [lia|].
    intros j Hj. rewrite bit_set_tst by (assumption || lia).
    destruct (k =? j) eqn:E; zbool; [lia | done].
  - rewrite (IH (i + 1)) by (lia || done). rewrite bit_set_tst by (assumption || lia).
    destruct (k =? i) eqn:E; zbool; [lia|]. simpl. lia.
Qed.

Lemma count_used_clr bm n i k :
  bits_cover bm k -> 0 <= i <= k -> k < i + Z.of_nat n -> bit_tst bm k = true ->
  count_used (bit_clr bm k) n i = count_used bm n i - 1.
Proof.
  intros Hc. revert i. induction n as [|n IH]; intros i Hi Hk Hf; [lia|].
  simpl. destruct (Z.eq_dec i k) as [->|Hne].
  - rewrite bit_clr_tst by (assumption || lia). rewrite Z.eqb_refl, Hf. simpl.
    rewrite (count_used_ext (bit_clr bm k) bm); [lia|].
    intros j Hj. rewrite bit_clr_tst by (assumption || lia).
    destruct (k =? j) eqn:E; zbool; [lia | done].
  - rewrite (IH (i + 1)) by (lia || done). rewrite bit_clr_tst by (assumption || lia).
    destruct (k =? i) eqn:E; zbool; [lia|]. simpl. lia.
Qed.

(** ** Allocation under pressure *)
(** What the allocator asks of the swapper and the scheduler. They touch the frame
    tables only through this file's operations: a reclaimer is the calls it makes, which
    it may choose from all of the state, and the bytes it writes; the calls are then
    carried out. *)
Inductive frame_call :=
| call_ref (p : Z)
| call_unref (p : Z)
| call_free_pages (p : Z) (n : nat)
| call_write (m : memory).
Definition set_mem (s : pmm) (m : memory) : pmm :=
  {| bitmap := bitmap s; refs := refs s; bitmap_pages := bitmap_pages s;
     total_pages := total_pages s; used_pages := used_pages s; last_idx := last_idx s;
     double_free_count := double_free_count s; bad_ref_count := bad_ref_count s;
     oom_force := oom_force s; mem := m |}.
Definition frame_run (s : pmm) (c : frame_call) : pmm :=
  match c with
  | call_ref p => pmm_ref_page s p
  | call_unref p => pmm_unref_page s p
  | call_free_pages p n => pmm_free_pages s p n
  | call_write m => set_mem s m
  end.

Class Reclaimer := {
  evict_calls : Z -> pmm -> list frame_call;
  kill_calls : pmm -> Z * list frame_call
}.
Definition vmm_evict_some `{Reclaimer} (n : Z) (s : pmm) : pmm := fold_left frame_run (evict_calls n s) s.
Definition sched_oom_kill_one `{Reclaimer} (s : pmm) : Z * pmm :=
  (fst (kill_calls s), fold_left frame_run (snd (kill_calls s)) s).

Section Alloc.
Context `{Reclaimer}.

(** [for (attempt = 0; attempt < 2 && !g_oom_force; attempt++)] *)
Fixpoint alloc_attempts (n : nat) (attempt : Z) (s : pmm) : pmm * Z :=
  match n with
  | O => (s, 0)
  | S k =>
    if oom_force s then (s, 0)
    else
      let '(s1, p) := find_free_locked s in
      if negb (p =? 0) then (s1, p)
      else alloc_attempts k (attempt + 1)
             (if attempt =? 0 then vmm_evict_some 16 s1 else s1)
  end.

(** The OOM-kill loop; falling out of it is the [kpanic]. *)
Fixpoint oom_attempts (n : nat) (s : pmm) : outcome (pmm * Z) :=
  match n with
  | O => Panic
  | S k =>
    let '(r, s1) := sched_oom_kill_one s in
    if r =? 0 then Panic
    else if r <? 0 then Ret (s1, 0)
    else
      let '(s2, p) := find_free_locked s1 in
      if negb (p =? 0) then Ret (s2, p) else oom_attempts k s2
  end.

Definition pmm_alloc_page (s : pmm) : outcome (pmm * Z) :=
  let '(s1, p) := alloc_attempts 2 0 s in
  if negb (p =? 0) then Ret (s1, p) else oom_attempts OOM_MAX_KILLS s1.

(** The shared scan of the two contiguous allocators: [run] free frames
    ending before [i], the first of them [run_start]. *)
Fixpoint scan_run (bm : list Z) (fuel : nat) (i n run run_start : Z) : option Z :=
  match fuel with
  | O => None
  | S k =>
    if bit_tst bm i then scan_run bm k (i + 1) n 0 run_start
    else
      let run_start := if run =? 0 then i else run_start in
      if run + 1 =? n then Some run_start
      else scan_run bm k (i + 1) n (run + 1) run_start
  end.

(** [for (k = 0; k < n; k++) alloc_idx(run_start + k)] *)
Fixpoint alloc_run (n : nat) (s : pmm) (i : Z) : pmm :=
  match n with
  | O => s
  | S k => alloc_run k (fst (alloc_idx s i)) (i + 1)
  end.

Definition pmm_alloc_pages (s : pmm) (n : Z) : outcome (pmm * Z) :=
  if n =? 1 then pmm_alloc_page s
  else
    match scan_run (bitmap s) (Z.to_nat (total_pages s)) 0 n 0 0 with
    | Some i => Ret (alloc_run (Z.to_nat n) s i, i * PAGE_SIZE)
    | None => Panic
    end.

Definition pmm_alloc_pages_below (s : pmm) (n limit : Z) : pmm * Z :=
  if n =? 0 then (s, 0)
  else
    let max_idx0 := limit / PAGE_SIZE in
    let max_idx := if total_pages s <? max_idx0 then total_pages s else max_idx0 in
    if max_idx <? n then (s, 0)
    else
      match scan_run (bitmap s) (Z.to_nat max_idx) 0 n 0 0 with
      | Some i => (alloc_run (Z.to_nat n) s i, i * PAGE_SIZE)
      | None => (s, 0)
      end.
End Alloc.

(** * The allocator invariant *)
Record pmm_inv (s : pmm) : Prop := {
  inv_bitmap : total_pages s <= 64 * len (bitmap s);
  inv_refs_len : total_pages s <= len (refs s);
  inv_last : 0 <= last_idx s <= total_pages s;
  inv_used : used_pages s = count_used (bitmap s) (Z.to_nat (total_pages s)) 0;
  inv_refs : forall i, 0 <= i < total_pages s -> 0 <= (refs s).[i] <= 65535;
  inv_free : forall i, 0 <= i < total_pages s -> bit_tst (bitmap s) i = false -> (refs s).[i] = 0;
  inv_low : forall i, 0 <= i < 256 -> i < total_pages s -> bit_tst (bitmap s) i = true
}.

(** What is asked of a reclaimer: the frames it gives back are above the low 1 MiB. *)
Definition high_call (c : frame_call) : Prop :=
  match c with
  | call_ref p => 0 <= p
  | call_unref p | call_free_pages p _ => 256 <= p / PAGE_SIZE
  | call_write _ => True
  end.
Class ReclaimerLaws `{Reclaimer} := {
  evict_high : forall n s, Forall high_call (evict_calls n s);
  kill_high : forall s, Forall high_call (snd (kill_calls s))
}.

Lemma inv_cover s i : pmm_inv s -> 0 <= i < total_pages s -> bits_cover (bitmap s) i.
Proof. intros []. unfold bits_cover. lia. Qed.
#[local] Hint Resolve inv_cover : core.

Lemma inv_in_refs s i : pmm_inv s -> 0 <= i < total_pages s -> 0 <= i < len (refs s).
Proof. intros []. lia. Qed.
#[local] Hint Resolve inv_in_refs : core.

(** Splits an index comparison left by a bitmap or array update. *)
Ltac index_case i j :=
  destruct (Z.eq_dec i j) as [->|];
  [ rewrite ?Z.eqb_refl in * | rewrite ?(proj2 (Z.eqb_neq i j)) in * by assumption ].

(** Taking a free frame with count 1: the common core of allocation and
    reservation. *)
Lemma take_frame_inv s i s' :
  pmm_inv s -> 0 <= i < total_pages s -> bit_tst (bitmap s) i = false ->
  bitmap s' = bit_set (bitmap s) i -> refs s' = (refs s).[i <- 1] ->
  total_pages s' = total_pages s -> used_pages s' = used_pages s + 1 ->
  0 <= last_idx s' <= total_pages s -> pmm_inv s'.
Proof.
  intros Hinv Hi Hf Eb Er Et Eu Hl.
  pose proof (inv_cover _ _ Hinv Hi). pose proof (inv_in_refs _ _ Hinv Hi).
  destruct Hinv as [I1 I2 I3 I4 I5 I6 I7].
  split; rewrite ?Eb, ?Er, ?Et, ?Eu; autorewrite with carray; try lia.
  - rewrite count_used_set by (assumption || lia). lia.
  - intros j Hj. index_case i j; [rewrite nthZ_updZ_eq by lia; lia | rewrite nthZ_updZ_ne by lia; auto].
  - intros j Hj. rewrite bit_set_tst by (assumption || lia). index_case i j; [done|].
    rewrite nthZ_updZ_ne by lia. auto.
  - intros j Hj Hjt. rewrite bit_set_tst by (assumption || lia). rewrite I7 by lia. apply orb_true_r.
Qed.

Lemma alloc_idx_inv s i :
  pmm_inv s -> 0 <= i < total_pages s -> bit_tst (bitmap s) i = false ->
  pmm_inv (fst (alloc_idx s i)).
Proof. intros. eapply (take_frame_inv s i); eauto; simpl. lia. Qed.

Lemma mark_page_used_inv s p : pmm_inv s -> 0 <= p -> pmm_inv (pmm_mark_page_used s p).
Proof.
  intros Hinv Hp. unfold pmm_mark_page_used. case_ifZ; [done|].
  assert (0 <= p / PAGE_SIZE < total_pages s) by (split; [apply Z.div_pos; unfold PAGE_SIZE|]; lia).
  eapply (take_frame_inv s (p / PAGE_SIZE)); eauto. simpl. apply Hinv.
Qed.

Lemma set_refs_inv s i v :
  pmm_inv s -> 0 <= i < total_pages s -> bit_tst (bitmap s) i = true -> 0 <= v <= 65535 ->
  pmm_inv (set_refs s ((refs s).[i <- v])).
Proof.
  intros Hinv Hi Hb Hv. pose proof (inv_in_refs _ _ Hinv Hi).
  destruct Hinv as [I1 I2 I3 I4 I5 I6 I7].
  split; simpl; autorewrite with carray; try lia; try assumption.
  - intros j Hj. index_case i j; [rewrite nthZ_updZ_eq by lia; lia | rewrite nthZ_updZ_ne by lia; auto].
  - intros j Hj Hf. index_case i j; [congruence|]. rewrite nthZ_updZ_ne by lia. auto.
Qed.

Lemma count_bad_ref_inv s : pmm_inv s -> pmm_inv (count_bad_ref s).
Proof. intros []; split; assumption. Qed.
Lemma count_double_free_inv s : pmm_inv s -> pmm_inv (count_double_free s).
Proof. intros []; split; assumption. Qed.
Lemma set_oom_force_inv s on : pmm_inv s -> pmm_inv (set_oom_force s on).
Proof. intros []; split; assumption. Qed.
#[local] Hint Resolve count_bad_ref_inv count_double_free_inv set_oom_force_inv : core.

Lemma page_index_nonneg p : 0 <= p -> 0 <= p / PAGE_SIZE.
Proof. intros. apply Z.div_pos; unfold PAGE_SIZE; lia. Qed.
#[local] Hint Resolve page_index_nonneg : core.

Lemma ref_page_inv s p : pmm_inv s -> 0 <= p -> pmm_inv (pmm_ref_page s p).
Proof.
  intros Hinv Hp. unfold pmm_ref_page. case_ifZ; [auto|]. zbool.
  assert (0 <= p / PAGE_SIZE < total_pages s) as Hi by (split; [auto|lia]).
  pose proof (inv_refs _ Hinv _ Hi). case_ifZ; [|done].
  apply set_refs_inv; auto. lia.
Qed.

Lemma unref_page_inv s p :
  pmm_inv s -> 256 <= p / PAGE_SIZE -> pmm_inv (pmm_unref_page s p).
Proof.
  intros Hinv Hp. unfold pmm_unref_page. case_ifZ; [auto|]. zbool.
  assert (0 <= p / PAGE_SIZE < total_pages s) as Hi by lia.
  set (i := p / PAGE_SIZE) in *. clearbody i.
  pose proof (inv_refs _ Hinv _ Hi). pose proof (inv_in_refs _ _ Hinv Hi).
  case_ifZ; [auto|].
  assert (pmm_inv (set_refs s ((refs s).[i <- (refs s).[i] - 1]))) as Hinv1.
  { apply set_refs_inv; auto. lia. }
  simpl. rewrite nthZ_updZ_eq by lia. case_ifZ; [|done].
  pose proof (inv_cover _ _ Hinv Hi).
  destruct Hinv1 as [I1 I2 I3 I4 I5 I6 I7]; simpl in *. autorewrite with carray in *.
  split; simpl; autorewrite with carray; auto.
  - case_ifZ; lia.
  - rewrite count_used_clr by (assumption || lia). lia.
  - intros j Hj. rewrite bit_clr_tst by (assumption || lia). index_case i j; [|auto].
    rewrite nthZ_updZ_eq by lia. lia.
  - intros j Hj Hjt. rewrite bit_clr_tst by (assumption || lia). index_case i j; [lia|].
    simpl. auto.
Qed.

(** * Scanning *)
Lemma scan_free_Some bm n i k :
  scan_free bm n i = Some k -> i <= k < i + Z.of_nat n /\ bit_tst bm k = false.
Proof.
  revert i. induction n as [|n IH]; intros i Hs; simpl in Hs; [done|].
  destruct (bit_tst bm i) eqn:E; [apply IH in Hs as [? ?] | simplify_eq]; split; auto; lia.
Qed.

Lemma scan_free_None bm n i j :
  scan_free bm n i = None -> i <= j < i + Z.of_nat n -> bit_tst bm j = true.
Proof.
  revert i. induction n as [|n IH]; intros i Hs Hj; simpl in Hs; [lia|].
  destruct (bit_tst bm i) eqn:E; [|done].
  destruct (Z.eq_dec i j) as [->|]; [done|]. apply (IH (i + 1)); [done|lia].
Qed.

(** Frames [i, i + n) are all free / there is such a run below [m]. *)
Definition run_free (bm : list Z) (i n : Z) : Prop :=
  forall j, i <= j < i + n -> bit_tst bm j = false.

Lemma scan_run_Some bm fuel i n run st k :
  1 <= n -> 0 <= run < n -> (run <> 0 -> st = i - run) -> run_free bm (i - run) run ->
  scan_run bm fuel i n run st = Some k ->
  i - run <= k /\ k + n <= i + Z.of_nat fuel /\ run_free bm k n.
Proof.
  intros Hn. revert i run st. induction fuel as [|f IH]; intros i run st Hr Hst Hfree Hs;
    cbn [scan_run] in Hs; [done|].
  destruct (bit_tst bm i) eqn:E.
  - apply IH in Hs; [|lia|lia|intros j; lia]. destruct Hs as (?&?&?). repeat split; try lia; done.
  - assert ((if run =? 0 then i else st) = i - run) as Hst'.
    { destruct (run =? 0) eqn:E0; zbool; [lia|auto]. }
    rewrite Hst' in Hs.
    assert (run_free bm (i - run) (run + 1)) as Hfree'.
    { intros j Hj. destruct (Z.eq_dec j i) as [->|]; [done|]. apply Hfree. lia. }
    destruct (run + 1 =? n) eqn:E1; zbool.
    + simplify_eq. repeat split; try lia. done.
    + apply IH in Hs; [|lia|lia|by replace (i + 1 - (run + 1)) with (i - run) by lia].
      destruct Hs as (?&?&?). repeat split; try lia; done.
Qed.

Lemma scan_run_None bm fuel i n run st j :
  1 <= n -> 0 <= run < n ->
  scan_run bm fuel i n run st = None ->
  i - run <= j -> j + n <= i + Z.of_nat fuel -> ~ run_free bm j n.
Proof.
  intros Hn. revert i run st. induction fuel as [|f IH]; intros i run st Hr Hs Hj Hjn Hfree;
    cbn [scan_run] in Hs; [lia|].
  destruct (bit_tst bm i) eqn:E.
  - destruct (Z.le_gt_cases j i).
    + specialize (Hfree i). rewrite Hfree in E; [done|lia].
    + eapply IH; [| exact Hs | | |exact Hfree]; lia.
  - destruct (run + 1 =? n) eqn:E1; zbool; [done|].
    eapply IH; [| exact Hs | | |exact Hfree]; lia.
Qed.

(** * What an allocation does *)
Record allocated (s s' : pmm) (i n : Z) : Prop := {
  al_free : run_free (bitmap s) i n;
  al_total : total_pages s' = total_pages s;
  al_used : used_pages s' = used_pages s + n;
  al_bits : forall j, 0 <= j ->
    bit_tst (bitmap s') j = ((i <=? j) && (j <? i + n)) || bit_tst (bitmap s) j;
  al_refs : forall j, 0 <= j ->
    (refs s').[j] = if (i <=? j) && (j <? i + n) then 1 else (refs s).[j];
  al_mem : forall a,
    mem s' a = if (i * PAGE_SIZE <=? a) && (a <? (i + n) * PAGE_SIZE) then 0 else mem s a
}.

Ltac case_interval :=
  repeat match goal with
  | |- context [?a <=? ?b] => destruct (Z.leb_spec a b)
  | |- context [?a <? ?b] => destruct (Z.ltb_spec a b)
  end; cbn [andb orb negb].

Lemma alloc_run_inv n s i :
  pmm_inv s -> 0 <= i -> i + Z.of_nat n <= total_pages s ->
  run_free (bitmap s) i (Z.of_nat n) -> pmm_inv (alloc_run n s i).
Proof.
  revert s i. induction n as [|n IH]; intros s i Hinv Hi Hn Hf; [done|].
  change (alloc_run (S n) s i) with (alloc_run n (fst (alloc_idx s i)) (i + 1)).
  apply IH; [|lia|cbn; lia|].
  - apply alloc_idx_inv; auto; [lia|]. apply Hf. lia.
  - intros j Hj. change (bitmap (fst (alloc_idx s i))) with (bit_set (bitmap s) i).
    rewrite bit_set_tst by (try apply inv_cover; auto; lia). index_case i j; [lia|].
    simpl. apply Hf. lia.
Qed.

Lemma alloc_run_spec n s i :
  pmm_inv s -> 0 <= i -> i + Z.of_nat n <= total_pages s ->
  run_free (bitmap s) i (Z.of_nat n) -> allocated s (alloc_run n s i) i (Z.of_nat n).
Proof.
  revert s i. induction n as [|n IH]; intros s i Hinv Hi Hn Hf.
  { split; simpl; try done; try lia; intros; case_interval; try done; lia. }
  change (alloc_run (S n) s i) with (alloc_run n (fst (alloc_idx s i)) (i + 1)).
  set (s1 := fst (alloc_idx s i)).
  assert (0 <= i < total_pages s) as Hit by lia.
  pose proof (inv_cover _ _ Hinv Hit). pose proof (inv_in_refs _ _ Hinv Hit).
  assert (pmm_inv s1) as Hinv1 by (apply alloc_idx_inv; auto; apply Hf; lia).
  assert (forall j, 0 <= j -> bit_tst (bitmap s1) j = (i =? j) || bit_tst (bitmap s) j) as Hb
    by (intros; by apply bit_set_tst).
  assert (run_free (bitmap s1) (i + 1) (Z.of_nat n)) as Hf1.
  { intros j Hj. rewrite Hb by lia. index_case i j; [lia|]. apply Hf. lia. }
  destruct (IH s1 (i + 1) Hinv1) as [A1 A2 A3 A4 A5 A6]; [lia|cbn; lia|done|].
  split; [done|by rewrite A2|rewrite A3; cbn; lia|..].
  - intros j Hj. rewrite A4, Hb by done. index_case i j; case_interval; try done; lia.
  - intros j Hj. rewrite A5 by done. unfold s1; cbn [alloc_idx fst refs].
    index_case i j; case_interval; try lia; rewrite ?nthZ_updZ_eq, ?nthZ_updZ_ne by lia; done.
  - intros a. rewrite A6. unfold s1; cbn [alloc_idx fst mem]. unfold mem_set, PAGE_SIZE in *.
    case_interval; try done; lia.
Qed.

Lemma alloc_one_spec s i :
  pmm_inv s -> 0 <= i < total_pages s -> bit_tst (bitmap s) i = false ->
  allocated s (fst (alloc_idx s i)) i 1.
Proof.
  intros. apply (alloc_run_spec 1); auto; try lia.
  intros j Hj. by replace j with i by lia.
Qed.

Lemma find_free_spec s s' p :
  pmm_inv s -> find_free_locked s = (s', p) ->
  (p = 0 /\ s' = s /\ forall i, 0 <= i < total_pages s -> bit_tst (bitmap s) i = true) \/
  (exists i, 256 <= i < total_pages s /\ p = i * PAGE_SIZE /\ allocated s s' i 1 /\ pmm_inv s').
Proof.
  intros Hinv Hff. unfold find_free_locked in Hff. pose proof (inv_last _ Hinv).
  assert (forall i, 0 <= i < total_pages s -> bit_tst (bitmap s) i = false ->
          alloc_idx s i = (s', p) ->
          exists i, 256 <= i < total_pages s /\ p = i * PAGE_SIZE /\ allocated s s' i 1 /\ pmm_inv s')
    as Hgot.
  { intros i Hi Hf Ha. exists i.
    assert (s' = fst (alloc_idx s i)) as -> by (by rewrite Ha).
    assert (p = snd (alloc_idx s i)) as -> by (by rewrite Ha).
    split; [|split; [done|split; [by apply alloc_one_spec | by apply alloc_idx_inv]]].
    destruct (Z.le_gt_cases 256 i); [lia|]. pose proof (inv_low _ Hinv i). intuition congruence. }
  destruct (scan_free (bitmap s) _ (last_idx s)) as [i|] eqn:E1.
  { apply scan_free_Some in E1 as [? ?]. right. eapply Hgot; eauto. lia. }
  destruct (scan_free (bitmap s) _ 0) as [i|] eqn:E2.
  { apply scan_free_Some in E2 as [? ?]. right. eapply Hgot; eauto. lia. }
  left. simplify_eq. split; [done|split; [done|]]. intros i Hi.
  destruct (Z.lt_ge_cases i (last_idx s')).
  - eapply scan_free_None; [exact E2|lia].
  - eapply scan_free_None; [exact E1|lia].
Qed.

(** * Initialisation establishes the invariant *)
Lemma page_align_up_eq x : PAGE_ALIGN_UP x = (x + 4095) / 4096 * 4096.
Proof. apply (land_lnot_mask (x + 4095) 12). lia. Qed.

Lemma free_range_len fuel bm a stop : len (free_range fuel bm a stop) = len bm.
Proof.
  revert bm a. induction fuel as [|k IH]; intros; simpl; [done|]. case_ifZ; [|done].
  rewrite IH. apply len_bit_clr.
Qed.

Lemma mark_usable_len mm bm : len (mark_usable mm bm) = len bm.
Proof.
  unfold mark_usable. revert bm. induction mm as [|e mm IH]; intros bm; cbn [fold_left]; [done|].
  rewrite IH. case_ifZ; [apply free_range_len | done].
Qed.

Lemma reserve_low_spec n i bm rf bm' rf' :
  0 <= i -> i + Z.of_nat n <= 64 * len bm -> i + Z.of_nat n <= len rf ->
  reserve_low n i bm rf = (bm', rf') ->
  len bm' = len bm /\ len rf' = len rf /\
  forall j, 0 <= j ->
    bit_tst bm' j = ((i <=? j) && (j <? i + Z.of_nat n)) || bit_tst bm j /\
    rf'.[j] = if ((i <=? j) && (j <? i + Z.of_nat n)) && negb (bit_tst bm j) then 1 else rf.[j].
Proof.
  revert i bm rf. induction n as [|n IH]; intros i bm rf Hi Hb Hr Hrl; cbn [reserve_low] in Hrl.
  { simplify_eq. repeat split; case_interval; try done; lia. }
  destruct (bit_tst bm i) eqn:E.
  - apply IH in Hrl as (L1 & L2 & Hj); [|lia..]. split; [done|split; [done|]].
    intros j Hj0. destruct (Hj j Hj0) as [-> ->]. index_case i j.
    + rewrite E. case_interval; try done; lia.
    + case_interval; try done; lia.
  - apply IH in Hrl as (L1 & L2 & Hj); autorewrite with carray in *; [|lia..].
    split; [done|split; [done|]]. intros j Hj0. destruct (Hj j Hj0) as [-> ->].
    assert (bits_cover bm i) by (unfold bits_cover; lia).
    rewrite bit_set_tst by done. index_case i j.
    + rewrite E. case_interval; try lia. simpl. rewrite nthZ_updZ_eq by lia. done.
    + rewrite nthZ_updZ_ne by lia. case_interval; try done; lia.
Qed.

Lemma pmm_init_inv mm m s :
  PAGE_SIZE <= highest_usable mm -> pmm_init mm m = Ret s -> pmm_inv s.
Proof.
  intros Hhi Hs. unfold pmm_init in Hs. set (total := highest_usable mm / PAGE_SIZE) in *.
  assert (1 <= total) as Ht by (apply Z.div_le_lower_bound; unfold PAGE_SIZE in *; lia).
  clearbody total. rewrite !page_align_up_eq in Hs.
  destruct (carve_region mm _) as [[? mm1]|]; [|done].
  destruct (carve_region mm1 _) as [[? mm2]|]; [|done].
  destruct (reserve_low _ _ _ _) as [bm2 rf2] eqn:E. simplify_eq.
  pose proof (Z.div_mod (total + 7) 8). pose proof (Z.mod_pos_bound (total + 7) 8).
  pose proof (Z.div_mod ((total + 7) / 8 + 4095) 4096).
  pose proof (Z.mod_pos_bound ((total + 7) / 8 + 4095) 4096).
  pose proof (Z.div_mod (total * 2 + 4095) 4096).
  pose proof (Z.mod_pos_bound (total * 2 + 4095) 4096).
  set (nb := ((total + 7) / 8 + 4095) / 4096) in *. set (nr := (total * 2 + 4095) / 4096) in *.
  replace (nb * 4096 / 8) with (nb * 512) in E by (rewrite <- (Z.div_mul (nb * 512) 8) by lia; f_equal; lia).
  replace (nr * 4096 / 2) with (nr * 2048) in E by (rewrite <- (Z.div_mul (nr * 2048) 2) by lia; f_equal; lia).
  apply reserve_low_spec in E; rewrite ?mark_usable_len, ?len_replicate; [|lia..].
  destruct E as (L1 & L2 & Hj). rewrite mark_usable_len, len_replicate in L1. rewrite len_replicate in L2.
  split; simpl; try done; try lia.
  - intros j Hjj. destruct (Hj j) as [_ ->]; [lia|].
    rewrite nthZ_replicate by lia. case_ifZ; lia.
  - intros j Hjj Hf. destruct (Hj j) as [Hb ->]; [lia|]. rewrite Hf in Hb.
    rewrite nthZ_replicate by lia. revert Hb. case_interval; simpl; done.
  - intros j Hj1 Hj2. destruct (Hj j) as [-> _]; [lia|]. case_interval; try lia; done.
Qed.

Lemma next_page_index p : (p + PAGE_SIZE) / PAGE_SIZE = p / PAGE_SIZE + 1.
Proof. unfold PAGE_SIZE. rewrite <- (Z.div_add p 1 4096) by lia. f_equal; lia. Qed.

Lemma free_pages_inv n s p :
  pmm_inv s -> 256 <= p / PAGE_SIZE -> pmm_inv (pmm_free_pages s p n).
Proof.
  revert s p. induction n as [|n IH]; intros s p Hinv Hp; cbn [pmm_free_pages]; [done|].
  apply IH; [by apply unref_page_inv | rewrite next_page_index; lia].
Qed.

(** Whatever calls a reclaimer makes, the invariant holds. *)
Lemma frame_run_inv s c : pmm_inv s -> high_call c -> pmm_inv (frame_run s c).
Proof.
  destruct c as [p|p|p n|m]; cbn [frame_run high_call]; intros Hinv Hc.
  - by apply ref_page_inv.
  - by apply unref_page_inv.
  - by apply free_pages_inv.
  - destruct Hinv. by split.
Qed.
Lemma frame_runs_inv cs : forall s, pmm_inv s -> Forall high_call cs -> pmm_inv (fold_left frame_run cs s).
Proof.
  induction cs as [|c cs IH]; intros s Hinv Hc; [done|]. apply Forall_cons_1 in Hc as [H1 H2].
  apply IH; [by apply frame_run_inv|done].
Qed.

(** * Reachable states *)
Section Reclaim.
Context `{ReclaimerLaws}.

Lemma evict_inv n s : pmm_inv s -> pmm_inv (vmm_evict_some n s).
Proof. intros. apply frame_runs_inv; [done|apply evict_high]. Qed.
Lemma kill_inv s : pmm_inv s -> pmm_inv (snd (sched_oom_kill_one s)).
Proof. intros. apply frame_runs_inv; [done|apply kill_high]. Qed.

Lemma oom_attempts_inv n s s' p :
  pmm_inv s -> oom_attempts n s = Ret (s', p) -> pmm_inv s'.
Proof.
  revert s. induction n as [|n IH]; intros s Hinv Ho; cbn [oom_attempts] in Ho; [done|].
  pose proof (kill_inv s Hinv) as Hk. destruct (sched_oom_kill_one s) as [r s1]; simpl in Hk.
  destruct (r =? 0); [done|]. destruct (r <? 0); [by simplify_eq|].
  destruct (find_free_locked s1) as [s2 q] eqn:E.
  apply find_free_spec in E as [(->&->&?)|(i&?&->&?&?)]; [by apply (IH s1)| |done].
  destruct (negb (i * PAGE_SIZE =? 0)) eqn:E1; [by simplify_eq|by apply (IH s2)].
Qed.

Lemma alloc_attempts_inv n a s s' p :
  pmm_inv s -> alloc_attempts n a s = (s', p) -> pmm_inv s'.
Proof.
  revert a s. induction n as [|n IH]; intros a s Hinv Ha; cbn [alloc_attempts] in Ha; [by simplify_eq|].
  destruct (oom_force s); [by simplify_eq|].
  destruct (find_free_locked s) as [s1 q] eqn:E.
  assert (pmm_inv s1) by (apply find_free_spec in E as [(?&->&?)|(?&?&?&?&?)]; done).
  destruct (negb (q =? 0)); [by simplify_eq|].
  eapply IH; [|exact Ha]. destruct (a =? 0); [by apply evict_inv|done].
Qed.

Lemma alloc_page_inv s s' p : pmm_inv s -> pmm_alloc_page s = Ret (s', p) -> pmm_inv s'.
Proof.
  intros Hinv. unfold pmm_alloc_page. destruct (alloc_attempts 2 0 s) as [s1 q] eqn:E.
  apply alloc_attempts_inv in E; [|done].
  destruct (negb (q =? 0)); [by intros; simplify_eq|]. by apply oom_attempts_inv.
Qed.

Lemma scan_from_0 s n k i :
  pmm_inv s -> 1 <= n -> Z.of_nat k <= total_pages s ->
  scan_run (bitmap s) k 0 n 0 0 = Some i ->
  256 <= i /\ i + n <= Z.of_nat k /\ run_free (bitmap s) i n.
Proof.
  intros Hinv Hn Hk Hs. apply scan_run_Some in Hs as (?&?&Hf); [|lia|lia|lia|intros j; lia].
  repeat split; try done. destruct (Z.le_gt_cases 256 i); [done|].
  pose proof (inv_low _ Hinv i) as Hlow. rewrite (Hf i) in Hlow; [|lia].
  discriminate Hlow; lia.
Qed.

Lemma alloc_run_at s n i :
  pmm_inv s -> 1 <= n -> 0 <= i -> i + n <= total_pages s -> run_free (bitmap s) i n ->
  pmm_inv (alloc_run (Z.to_nat n) s i) /\ allocated s (alloc_run (Z.to_nat n) s i) i n.
Proof.
  intros ? Hn ? ? Hf. rewrite <- (Z2Nat.id n) in Hf by lia. split.
  - apply alloc_run_inv; auto; lia.
  - rewrite <- (Z2Nat.id n) at 2 by lia. apply alloc_run_spec; auto; lia.
Qed.

End Reclaim.

(** Each allocation may meet another reclaimer: what it evicts or kills depends on the
    rest of the machine. *)
Inductive pmm_step (s : pmm) : pmm -> Prop :=
| step_alloc_page `{ReclaimerLaws} s' p : pmm_alloc_page s = Ret (s', p) -> pmm_step s s'
| step_alloc_pages `{ReclaimerLaws} n s' p : 0 < n -> pmm_alloc_pages s n = Ret (s', p) -> pmm_step s s'
| step_alloc_pages_below n limit :
    0 <= n -> 0 <= limit -> pmm_step s (fst (pmm_alloc_pages_below s n limit))
| step_ref p : 0 <= p -> pmm_step s (pmm_ref_page s p)
| step_unref p : 256 <= p / PAGE_SIZE -> pmm_step s (pmm_unref_page s p)
| step_free_pages p n : 256 <= p / PAGE_SIZE -> pmm_step s (pmm_free_pages s p n)
| step_mark p n : 0 <= p -> pmm_step s (pmm_mark_range_used s p n)
| step_oom_force on : pmm_step s (pmm_oom_test_force s on).

Inductive pmm_reachable : pmm -> Prop :=
| reach_init mm m s : PAGE_SIZE <= highest_usable mm -> pmm_init mm m = Ret s -> pmm_reachable s
| reach_step s s' : pmm_reachable s -> pmm_step s s' -> pmm_reachable s'.

Lemma mark_range_inv n s p : pmm_inv s -> 0 <= p -> pmm_inv (pmm_mark_range_used s p n).
Proof.
  revert s p. induction n as [|n IH]; intros s p Hinv Hp; cbn [pmm_mark_range_used]; [done|].
  apply IH; [by apply mark_page_used_inv | unfold PAGE_SIZE; lia].
Qed.

Lemma pmm_step_inv s s' : pmm_inv s -> pmm_step s s' -> pmm_inv s'.
Proof.
  intros Hinv [R L s1 p Ha|R L n s1 p Hn Ha|n limit Hn Hl|p Hp|p Hp|p n Hp|p n Hp|on].
  - by eapply alloc_page_inv.
  - unfold pmm_alloc_pages in Ha. destruct (n =? 1); [by eapply alloc_page_inv|].
    destruct (scan_run _ _ _ _ _ _) as [i|] eqn:E; [|done]. simplify_eq.
    apply scan_from_0 in E; [|done|lia|pose proof (inv_last _ Hinv); lia].
    apply alloc_run_at; auto; pose proof (inv_last _ Hinv); lia || apply E.
  - unfold pmm_alloc_pages_below. repeat case_ifZ; try done.
    all: destruct (scan_run _ _ _ _ _ _) as [i|] eqn:Es; [|done].
    all: apply scan_from_0 in Es; [|done|lia|lia].
    all: apply alloc_run_at; auto; lia || apply Es.
  - by apply ref_page_inv.
  - by apply unref_page_inv.
  - by apply free_pages_inv.
  - by apply mark_range_inv.
  - by apply set_oom_force_inv.
Qed.

(** A reclaimer with nothing to evict and no task to kill. *)
Definition no_reclaim : Reclaimer :=
  {| evict_calls := fun _ _ => []; kill_calls := fun s => (0, []) |}.
Lemma no_reclaim_laws : @ReclaimerLaws no_reclaim.
Proof. split; intros; apply Forall_nil_2. Qed.

(** * Properties *)

(** [C34] Every state the allocator can reach from a successful boot-time
    initialisation through allocations (single, contiguous, below a limit), reference
    counting, frees of frames above 1 MiB and reservations satisfies the invariant: the
    used counter equals the number of set bits, a free frame has no references, counts
    fit 16 bits and the low 1 MiB is never free. An allocation that finds no frame may
    evict and kill: the swapper and the scheduler are then any scripts of calls of this
    file and of writes to memory, carried out by this file's operations, which give back
    frames above 1 MiB only ([evict_some_calls] in [VmmProps] has the swapper as such a
    script). *)
Theorem pmm_reachable_inv s : pmm_reachable s -> pmm_inv s.
Proof. induction 1; eauto using pmm_init_inv, pmm_step_inv. Qed.

(** When some frame is free and the OOM test hook is
    off, [pmm_alloc_page] succeeds without eviction: it returns the address of
    a frame above 1 MiB that was free, which is now used with one reference
    and zeroed, and changes no other frame. *)
Theorem pmm_alloc_page_spec `{Reclaimer} s j :
  pmm_inv s -> oom_force s = false ->
  0 <= j < total_pages s -> bit_tst (bitmap s) j = false ->
  exists s' i, pmm_alloc_page s = Ret (s', i * PAGE_SIZE) /\
    256 <= i < total_pages s /\ allocated s s' i 1 /\ pmm_inv s'.
Proof.
  intros Hinv Hoom Hj Hf. unfold pmm_alloc_page. cbn [alloc_attempts]. rewrite Hoom.
  destruct (find_free_locked s) as [s1 q] eqn:E.
  apply find_free_spec in E as [(->&->&Hall)|(i&Hi&->&Ha&Hinv')]; [|exists s1, i|done].
  { rewrite Hall in Hf by done. done. }
  assert (negb (i * PAGE_SIZE =? 0) = true) as Hnz
    by (apply negb_true_iff, Z.eqb_neq; unfold PAGE_SIZE; lia).
  rewrite !Hnz. auto.
Qed.

(** The contiguous allocator returns [n] consecutive
    frames that were all free, above 1 MiB, and takes exactly those; it panics
    only when no run of [n] free frames exists. *)
Theorem pmm_alloc_pages_spec `{Reclaimer} s n :
  pmm_inv s -> 2 <= n ->
  match pmm_alloc_pages s n with
  | Ret (s', p) => exists i, p = i * PAGE_SIZE /\ 256 <= i /\ i + n <= total_pages s /\
                     allocated s s' i n /\ pmm_inv s'
  | Panic => forall i, 0 <= i -> i + n <= total_pages s -> ~ run_free (bitmap s) i n
  end.
Proof.
  intros Hinv Hn. unfold pmm_alloc_pages. case_ifZ; [lia|].
  pose proof (inv_last _ Hinv).
  destruct (scan_run _ _ _ _ _ _) as [i|] eqn:Es.
  - apply scan_from_0 in Es as (?&?&?); [|done|lia|lia].
    exists i. destruct (alloc_run_at s n i) as [? ?]; [done|lia|lia|lia|done|]. splits; auto; lia.
  - intros i Hi Hin. eapply scan_run_None; [| |exact Es| |]; lia.
Qed.

(** The DMA allocator never hands out memory at
    or above [limit], fails by returning 0 with the state unchanged, and fails
    only when no run of [n] free frames lies below the limit. *)
Theorem pmm_alloc_pages_below_spec s n limit s' p :
  pmm_inv s -> 1 <= n -> 0 <= limit -> pmm_alloc_pages_below s n limit = (s', p) ->
  (p = 0 /\ s' = s /\
     forall i, 0 <= i -> i + n <= total_pages s -> (i + n) * PAGE_SIZE <= limit ->
       ~ run_free (bitmap s) i n) \/
  (exists i, p = i * PAGE_SIZE /\ 256 <= i /\ p + n * PAGE_SIZE <= limit /\
     allocated s s' i n /\ pmm_inv s').
Proof.
  intros Hinv Hn Hl. unfold pmm_alloc_pages_below. case_ifZ; [lia|].
  pose proof (Z.mul_div_le limit PAGE_SIZE). pose proof (inv_last _ Hinv).
  assert (forall i, (i + n) * PAGE_SIZE <= limit -> i + n <= limit / PAGE_SIZE) as Hlim
    by (intros; apply Z.div_le_lower_bound; unfold PAGE_SIZE in *; lia).
  pose proof (page_index_nonneg _ Hl).
  set (mx := if total_pages s <? limit / PAGE_SIZE then total_pages s else limit / PAGE_SIZE).
  assert (0 <= mx <= total_pages s /\ mx <= limit / PAGE_SIZE /\
          (mx = total_pages s \/ mx = limit / PAGE_SIZE)) as Hmx
    by (unfold mx; case_ifZ; lia). clearbody mx.
  case_ifZ.
  { intros ?; simplify_eq. left. repeat split; auto. intros i ? ? Hi%Hlim. lia. }
  destruct (scan_run _ _ _ _ _ _) as [i|] eqn:Es; intros ?; simplify_eq.
  - apply scan_from_0 in Es as (?&?&?); [|done|lia|lia]. right. exists i.
    destruct (alloc_run_at s n i) as [? ?]; [done|lia|lia|lia|done|].
    splits; auto. unfold PAGE_SIZE in *. nia.
  - left. repeat split; auto. intros i ? ? Hi%Hlim.
    eapply scan_run_None; [| |exact Es| |]; lia.
Qed.

Lemma page_index i : i * PAGE_SIZE / PAGE_SIZE = i.
Proof. apply Z.div_mul. done. Qed.

(** [frame_at s i b r]: frame [i] is in range, with used bit [b] and count [r]. *)
Definition frame_at (s : pmm) (i : Z) (b : bool) (r : Z) : Prop :=
  0 <= i < total_pages s /\ bit_tst (bitmap s) i = b /\ (refs s).[i] = r.

Lemma ref_frame s i r :
  pmm_inv s -> frame_at s i true r -> r < 65535 ->
  let s' := pmm_ref_page s (i * PAGE_SIZE) in pmm_inv s' /\ frame_at s' i true (r + 1).
Proof.
  intros Hinv (Hi & Hb & Hr) Hlt. cbn zeta. split; [apply ref_page_inv; unfold PAGE_SIZE; auto; lia|].
  unfold pmm_ref_page. rewrite page_index, Hb, Hr. pose proof (inv_in_refs _ _ Hinv Hi).
  case_ifZ; [apply orb_true_iff in E as [?|?]; zbool; [lia|done]|].
  rewrite (proj2 (Z.ltb_lt r 65535)) by done.
  repeat split; simpl; try done; try lia. rewrite nthZ_updZ_eq; [lia|done].
Qed.

Lemma unref_frame_shared s i r :
  pmm_inv s -> 256 <= i -> frame_at s i true r -> 1 < r ->
  let s' := pmm_unref_page s (i * PAGE_SIZE) in
  pmm_inv s' /\ frame_at s' i true (r - 1) /\ used_pages s' = used_pages s /\ mem s' = mem s.
Proof.
  intros Hinv H256 (Hi & Hb & Hr) Hlt. cbn zeta.
  split; [apply unref_page_inv; [done|by rewrite page_index]|].
  unfold pmm_unref_page. rewrite page_index, Hb, Hr. pose proof (inv_in_refs _ _ Hinv Hi).
  case_ifZ; [apply orb_true_iff in E as [?|?]; zbool; [lia|done]|].
  cbn [set_refs refs]. rewrite nthZ_updZ_eq by done.
  rewrite (proj2 (Z.eqb_neq r 0)), (proj2 (Z.eqb_neq (r - 1) 0)) by lia.
  repeat split; simpl; try done; try lia. rewrite nthZ_updZ_eq; [lia|done].
Qed.

Lemma unref_frame_last s i :
  pmm_inv s -> 256 <= i -> frame_at s i true 1 ->
  let s' := pmm_unref_page s (i * PAGE_SIZE) in
  pmm_inv s' /\ frame_at s' i false 0 /\ used_pages s' = used_pages s - 1 /\
  last_idx s' <= i /\
  forall a, mem s' a = if (i * PAGE_SIZE <=? a) && (a <? (i + 1) * PAGE_SIZE) then 0 else mem s a.
Proof.
  intros Hinv H256 (Hi & Hb & Hr). cbn zeta.
  split; [apply unref_page_inv; [done|by rewrite page_index]|].
  unfold pmm_unref_page. rewrite page_index, Hb, Hr. pose proof (inv_in_refs _ _ Hinv Hi).
  pose proof (inv_cover _ _ Hinv Hi).
  case_ifZ; [apply orb_true_iff in E as [?|?]; zbool; [lia|done]|].
  cbn [set_refs refs]. rewrite nthZ_updZ_eq by done. change (1 =? 0) with false. change (1 - 1 =? 0) with true. cbv iota.
  unfold frame_at; cbn [total_pages bitmap refs used_pages last_idx mem].
  rewrite bit_clr_tst, Z.eqb_refl by (assumption || lia).
  repeat split; try done; try lia.
  - rewrite nthZ_updZ_eq; done.
  - case_ifZ; lia.
  - intros a. unfold mem_set. replace (i * PAGE_SIZE + PAGE_SIZE) with ((i + 1) * PAGE_SIZE); [done|].
    unfold PAGE_SIZE; lia.
Qed.

Lemma refs_accumulate k s i r :
  pmm_inv s -> frame_at s i true r -> r + Z.of_nat k <= 65535 ->
  let s' := Nat.iter k (fun s => pmm_ref_page s (i * PAGE_SIZE)) s in
  pmm_inv s' /\ frame_at s' i true (r + Z.of_nat k).
Proof.
  intros Hinv Hf. induction k as [|k IH]; intros Hk; cbn zeta in *.
  - by rewrite Z.add_0_r.
  - destruct IH as [Hi1 Hf1]; [lia|]. cbn [Nat.iter nat_rect].
    replace (r + Z.of_nat (S k)) with (r + Z.of_nat k + 1) by lia.
    apply ref_frame; auto. lia.
Qed.

Lemma unrefs_keep k s i r :
  pmm_inv s -> 256 <= i -> frame_at s i true r -> Z.of_nat k < r ->
  let s' := Nat.iter k (fun s => pmm_unref_page s (i * PAGE_SIZE)) s in
  pmm_inv s' /\ frame_at s' i true (r - Z.of_nat k) /\ used_pages s' = used_pages s /\ mem s' = mem s.
Proof.
  intros Hinv H256 Hf. induction k as [|k IH]; intros Hk; cbn zeta in *.
  - by rewrite Z.sub_0_r.
  - destruct IH as (Hi1 & Hf1 & Hu & Hm); [lia|]. cbn [Nat.iter nat_rect].
    replace (r - Z.of_nat (S k)) with (r - Z.of_nat k - 1) by lia.
    rewrite <- Hu, <- Hm. apply unref_frame_shared; auto. lia.
Qed.

(** A frame with one owner that is shared [k] more
    times stays allocated, untouched, until exactly [k + 1] references are
    dropped; the last drop clears its bit, zeroes the whole page, gives the
    frame back to the counter and rewinds the next-fit cursor to reach it. *)
Theorem pmm_refcount_lifecycle s i k :
  pmm_inv s -> 256 <= i -> frame_at s i true 1 -> 1 + Z.of_nat k <= 65535 ->
  let shared := Nat.iter k (fun s => pmm_ref_page s (i * PAGE_SIZE)) s in
  let held := Nat.iter k (fun s => pmm_unref_page s (i * PAGE_SIZE)) shared in
  let freed := pmm_unref_page held (i * PAGE_SIZE) in
  pmm_refcount shared (i * PAGE_SIZE) = 1 + Z.of_nat k /\
  frame_at held i true 1 /\ mem held = mem shared /\
  frame_at freed i false 0 /\ used_pages freed = used_pages shared - 1 /\ last_idx freed <= i /\
  (forall a, mem freed a =
     if (i * PAGE_SIZE <=? a) && (a <? (i + 1) * PAGE_SIZE) then 0 else mem shared a) /\
  pmm_inv freed.
Proof.
  intros Hinv H256 Hf Hk. cbn zeta.
  destruct (refs_accumulate k s i 1 Hinv Hf Hk) as [Hi1 Hf1]. revert Hi1 Hf1.
  set (shared := Nat.iter k _ s). intros Hi1 Hf1.
  destruct (unrefs_keep k shared i _ Hi1 H256 Hf1) as (Hi2 & Hf2 & Hu & Hm); [lia|].
  revert Hi2 Hf2 Hu Hm. set (held := Nat.iter k _ shared). intros Hi2 Hf2 Hu Hm.
  replace (1 + Z.of_nat k - Z.of_nat k) with 1 in Hf2 by lia.
  destruct (unref_frame_last held i Hi2 H256 Hf2) as (Hi3 & Hf3 & Hu3 & Hl3 & Hm3).
  rewrite <- Hm, <- Hu. repeat (split; [try done|]); try done; [|apply Hf2..].
  destruct Hf1 as ((?&?)&?&Hr). unfold pmm_refcount. rewrite page_index, Hr.
  case_ifZ; [lia|done].
Qed.

(** Dropping a reference of a frame that is out
    of range, not allocated, or allocated with no references left (a second
    free) only increments the double-free detector; no frame is affected. *)
Theorem pmm_double_free_detected s p :
  let i := p / PAGE_SIZE in
  total_pages s <= i \/ bit_tst (bitmap s) i = false \/ (refs s).[i] = 0 ->
  pmm_unref_page s p = count_double_free s /\ pmm_refcount (pmm_unref_page s p) p = pmm_refcount s p.
Proof.
  cbn zeta. intros Hbad. assert (pmm_unref_page s p = count_double_free s) as ->; [|done].
  unfold pmm_unref_page. case_ifZ; [done|].
  destruct Hbad as [?|[Hb|Hr]]; [lia|congruence|]. by rewrite Hr.
Qed.

(** ** Witnesses: a machine with 264 frames, 8 of them usable above 1 MiB *)
Definition demo_memmap : list memmap_entry := [MemmapEntry 0 (264 * PAGE_SIZE) 0].
Definition demo_pmm : pmm :=
  match pmm_init demo_memmap (fun _ => 170) with Ret s => s | Panic => Pmm [] [] 0 0 0 0 0 0 false (fun _ => 0) end.
Lemma demo_pmm_init : pmm_init demo_memmap (fun _ => 170) = Ret demo_pmm.
Proof. vm_compute. reflexivity. Qed.
Lemma demo_pmm_inv : pmm_inv demo_pmm.
Proof. apply (pmm_init_inv demo_memmap (fun _ => 170)); [vm_compute; discriminate | apply demo_pmm_init]. Qed.

(** A swapper that gives back the last frame. *)
Definition demo_reclaim : Reclaimer :=
  {| evict_calls := fun _ _ => [call_write (fun _ => 0); call_unref (263 * PAGE_SIZE)]; kill_calls := fun s => (0, []) |}.
Lemma demo_reclaim_laws : @ReclaimerLaws demo_reclaim.
Proof. split; intros; repeat (apply Forall_cons_2; [vm_compute; first [exact I | discriminate]|]); apply Forall_nil_2. Qed.
(** All eight frames are reserved; the next allocation evicts and gets the last one. *)
Lemma pmm_reachable_inv_witness : exists s, @pmm_alloc_page demo_reclaim (pmm_mark_range_used demo_pmm 1048576 8) = Ret (s, 263 * PAGE_SIZE) /\
  pmm_inv s.
Proof.
  assert (match @pmm_alloc_page demo_reclaim (pmm_mark_range_used demo_pmm 1048576 8) with Ret (_, p) => p | Panic => 0 end = 263 * PAGE_SIZE)
    as Hp by (vm_compute; reflexivity).
  destruct (@pmm_alloc_page demo_reclaim (pmm_mark_range_used demo_pmm 1048576 8)) as [[s p]|] eqn:E; [|discriminate Hp].
  subst p. exists s. split; [reflexivity|].
  apply pmm_reachable_inv. apply (reach_step (pmm_mark_range_used demo_pmm 1048576 8)).
  - apply (reach_step demo_pmm).
    + apply (reach_init demo_memmap (fun _ => 170)); [vm_compute; discriminate | apply demo_pmm_init].
    + apply step_mark. lia.
  - exact (@step_alloc_page _ demo_reclaim demo_reclaim_laws _ _ E).
Defined.

Lemma pmm_alloc_page_spec_witness :
  exists s' i, @pmm_alloc_page no_reclaim demo_pmm = Ret (s', i * PAGE_SIZE) /\
    256 <= i < total_pages demo_pmm /\ allocated demo_pmm s' i 1 /\ pmm_inv s'.
Proof.
  apply (@pmm_alloc_page_spec no_reclaim demo_pmm 260 demo_pmm_inv); [vm_compute; reflexivity| |vm_compute; reflexivity].
  vm_compute. split; [discriminate|reflexivity].
Defined.

Lemma pmm_alloc_pages_spec_witness :
  match @pmm_alloc_pages no_reclaim demo_pmm 3 with
  | Ret (s', p) => exists i, p = i * PAGE_SIZE /\ 256 <= i /\ i + 3 <= total_pages demo_pmm /\
                     allocated demo_pmm s' i 3 /\ pmm_inv s'
  | Panic => forall i, 0 <= i -> i + 3 <= total_pages demo_pmm -> ~ run_free (bitmap demo_pmm) i 3
  end.
Proof. apply (@pmm_alloc_pages_spec no_reclaim demo_pmm 3 demo_pmm_inv). lia. Defined.

Lemma pmm_alloc_pages_below_spec_witness :
  exists s' p, pmm_alloc_pages_below demo_pmm 4 (262 * PAGE_SIZE) = (s', p) /\
  ((p = 0 /\ s' = demo_pmm /\
     forall i, 0 <= i -> i + 4 <= total_pages demo_pmm -> (i + 4) * PAGE_SIZE <= 262 * PAGE_SIZE ->
       ~ run_free (bitmap demo_pmm) i 4) \/
  (exists i, p = i * PAGE_SIZE /\ 256 <= i /\ p + 4 * PAGE_SIZE <= 262 * PAGE_SIZE /\
     allocated demo_pmm s' i 4 /\ pmm_inv s')).
Proof.
  destruct (pmm_alloc_pages_below demo_pmm 4 (262 * PAGE_SIZE)) as [s' p] eqn:E.
  exists s', p. split; [done|].
  apply (pmm_alloc_pages_below_spec demo_pmm 4 (262 * PAGE_SIZE)); [apply demo_pmm_inv|lia|unfold PAGE_SIZE; lia|done].
Defined.

Lemma pmm_refcount_lifecycle_witness :
  pmm_refcount (Nat.iter 2 (fun s => pmm_ref_page s (257 * PAGE_SIZE))
                 (pmm_mark_page_used demo_pmm (257 * PAGE_SIZE))) (257 * PAGE_SIZE) = 1 + Z.of_nat 2.
Proof.
  refine (proj1 (pmm_refcount_lifecycle (pmm_mark_page_used demo_pmm (257 * PAGE_SIZE)) 257 2 _ _ _ _)).
  - apply mark_page_used_inv; [apply demo_pmm_inv | unfold PAGE_SIZE; lia].
  - lia.
  - repeat split; vm_compute; discriminate || reflexivity.
  - lia.
Defined.

Lemma pmm_double_free_detected_witness :
  pmm_unref_page demo_pmm (260 * PAGE_SIZE) = count_double_free demo_pmm /\
  pmm_refcount (pmm_unref_page demo_pmm (260 * PAGE_SIZE)) (260 * PAGE_SIZE)
    = pmm_refcount demo_pmm (260 * PAGE_SIZE).
Proof. apply pmm_double_free_detected. right. left. vm_compute. reflexivity. Defined.
