(* ===== verification/Vmm.v ===== *)
(** * Virtual memory (kernel/mm/vmm.c)

    Four-level page tables in physical memory, the user regions, demand paging,
    copy-on-write, swapping, per-process tables, the splitting of direct-map
    pages and the validation of user pointers. A table is a page frame, its
    entries are the 64-bit little-endian words of the frame, so freeing and
    zeroing frames (file Pmm) act on the tables as they do on the machine.
    Pointers into the direct map are written as the physical address they
    stand for. The state is one CPU's view: the TLB and the swap lock are not
    modelled. The disk is the class [SwapDisk], the OOM killer [OomKiller]. *)
From Stdlib Require Import ZArith Lia Bool.
From stdpp Require Import base list numbers option gmap sets.
From S2P Require Import Prelude Pmm.
#[local] Set Default Goal Selector "!".
Open Scope Z_scope.

Definition PTE_PRESENT : Z := 1.
Definition PTE_RW : Z := 2.
Definition PTE_US : Z := 4.
Definition PTE_PWT : Z := 8.
Definition PTE_PCD : Z := 16.
Definition PTE_HUGE : Z := 128.
Definition PTE_COW : Z := 512.
Definition PTE_SWAP : Z := 1024.
Definition PTE_NOSHR : Z := 2048.
Definition PTE_NX : Z := 9223372036854775808.
Definition USER_VFLOOR : Z := 4096.
Definition USER_STACK_TOP : Z := 2147483648.
Definition MAX_USER_REGIONS : Z := 32.
Definition VMM_USER_LAZY : Z := 1.
Definition SWAP_SLOTS : Z := 1024.
Definition SWAP_DISK_SECTORS : Z := 2048.
Definition SWAP_PAGE_SECTORS : Z := 8.
Definition SWAP_DISK_SLOT_BASE : Z := SWAP_SLOTS.
Definition PAGE_ALIGN_DOWN (x : Z) : Z := Z.land x (u64 (Z.lnot 4095)).

(** ** Words and pages of physical memory *)
Definition ld64 (m : memory) (a : Z) : Z :=
  m a + 256 * (m (a + 1) + 256 * (m (a + 2) + 256 * (m (a + 3) + 256 * (m (a + 4) + 256 * (m (a + 5)
  + 256 * (m (a + 6) + 256 * m (a + 7))))))).
Definition st64 (m : memory) (a v : Z) : memory :=
  fun x => if (a <=? x) && (x <? a + 8) then v / 256 ^ (x - a) mod 256 else m x.
(** [memcpy] of a page. *)
Definition copy_page (m : memory) (dst src : Z) : memory :=
  fun x => if (dst <=? x) && (x <? dst + PAGE_SIZE) then m (src + (x - dst)) else m x.
Definition page_bytes (m : memory) (a : Z) : list Z := map (fun k => m (a + k)) (seqZ 0 PAGE_SIZE).
Definition put_page (m : memory) (a : Z) (d : list Z) : memory :=
  fun x => if (a <=? x) && (x <? a + PAGE_SIZE) then d.[x - a] else m x.

(** The block device: a write may fail half way, a read fills a page. *)
Class SwapDisk := {
  disk : Type;
  blk_disk_sectors : disk -> Z;
  blk_write_sectors : disk -> Z -> list Z -> disk * bool;
  blk_read_sectors : disk -> Z -> option (list Z) }.

Record region := Region { start : Z; npages : Z; rflags : Z }.

Section State.
Context `{SwapDisk}.
(** Frames and RAM, the tables in CR3, the regions and accounting of the
    current task ([is_user]: there is one) and of the boot phase, the swap
    tiers. *)
Record vmm := Vmm {
  pm : pmm; hhdm : Z; kernel_pml4 : Z; g_boot_pml4 : Z; is_user : bool; task_regions : list region;
  boot_regions : list region; mem_pages : Z; mem_limit : Z; swap_pool : Z; swap_used : list Z;
  swap_disk_armed : bool; swap_disk_base_sector : Z; swap_disk_npages : Z; swap_disk_used : list Z;
  swap_disk_out : Z; swap_disk_in : Z; the_disk : option disk }.
Definition with_pm (p : pmm) (s : vmm) : vmm :=
  Vmm p (hhdm s) (kernel_pml4 s) (g_boot_pml4 s) (is_user s) (task_regions s) (boot_regions s) (mem_pages s)
    (mem_limit s) (swap_pool s) (swap_used s) (swap_disk_armed s) (swap_disk_base_sector s) (swap_disk_npages s)
    (swap_disk_used s) (swap_disk_out s) (swap_disk_in s) (the_disk s).
Definition with_cur (p : Z) (s : vmm) : vmm :=
  Vmm (pm s) (hhdm s) (kernel_pml4 s) p (is_user s) (task_regions s) (boot_regions s) (mem_pages s) (mem_limit s)
    (swap_pool s) (swap_used s) (swap_disk_armed s) (swap_disk_base_sector s) (swap_disk_npages s)
    (swap_disk_used s) (swap_disk_out s) (swap_disk_in s) (the_disk s).
Definition with_kernel (p : Z) (s : vmm) : vmm :=
  Vmm (pm s) (hhdm s) p p (is_user s) (task_regions s) [] (mem_pages s) (mem_limit s) (swap_pool s) (swap_used s)
    (swap_disk_armed s) (swap_disk_base_sector s) (swap_disk_npages s) (swap_disk_used s) (swap_disk_out s)
    (swap_disk_in s) (the_disk s).
Definition with_task_regions (rs : list region) (s : vmm) : vmm :=
  Vmm (pm s) (hhdm s) (kernel_pml4 s) (g_boot_pml4 s) (is_user s) rs (boot_regions s) (mem_pages s) (mem_limit s)
    (swap_pool s) (swap_used s) (swap_disk_armed s) (swap_disk_base_sector s) (swap_disk_npages s)
    (swap_disk_used s) (swap_disk_out s) (swap_disk_in s) (the_disk s).
Definition with_boot_regions (rs : list region) (s : vmm) : vmm :=
  Vmm (pm s) (hhdm s) (kernel_pml4 s) (g_boot_pml4 s) (is_user s) (task_regions s) rs (mem_pages s) (mem_limit s)
    (swap_pool s) (swap_used s) (swap_disk_armed s) (swap_disk_base_sector s) (swap_disk_npages s)
    (swap_disk_used s) (swap_disk_out s) (swap_disk_in s) (the_disk s).
Definition with_mem_pages (n : Z) (s : vmm) : vmm :=
  Vmm (pm s) (hhdm s) (kernel_pml4 s) (g_boot_pml4 s) (is_user s) (task_regions s) (boot_regions s) n (mem_limit s)
    (swap_pool s) (swap_used s) (swap_disk_armed s) (swap_disk_base_sector s) (swap_disk_npages s)
    (swap_disk_used s) (swap_disk_out s) (swap_disk_in s) (the_disk s).
Definition with_swap_pool (p : Z) (s : vmm) : vmm :=
  Vmm (pm s) (hhdm s) (kernel_pml4 s) (g_boot_pml4 s) (is_user s) (task_regions s) (boot_regions s) (mem_pages s)
    (mem_limit s) p (replicate 16 0) false (swap_disk_base_sector s) (swap_disk_npages s) (swap_disk_used s) 0 0
    (the_disk s).
Definition with_swap_used (b : list Z) (s : vmm) : vmm :=
  Vmm (pm s) (hhdm s) (kernel_pml4 s) (g_boot_pml4 s) (is_user s) (task_regions s) (boot_regions s) (mem_pages s)
    (mem_limit s) (swap_pool s) b (swap_disk_armed s) (swap_disk_base_sector s) (swap_disk_npages s)
    (swap_disk_used s) (swap_disk_out s) (swap_disk_in s) (the_disk s).
Definition with_disk_used (b : list Z) (s : vmm) : vmm :=
  Vmm (pm s) (hhdm s) (kernel_pml4 s) (g_boot_pml4 s) (is_user s) (task_regions s) (boot_regions s) (mem_pages s)
    (mem_limit s) (swap_pool s) (swap_used s) (swap_disk_armed s) (swap_disk_base_sector s) (swap_disk_npages s) b
    (swap_disk_out s) (swap_disk_in s) (the_disk s).
Definition with_disk_tier (base n : Z) (used : list Z) (s : vmm) : vmm :=
  Vmm (pm s) (hhdm s) (kernel_pml4 s) (g_boot_pml4 s) (is_user s) (task_regions s) (boot_regions s) (mem_pages s)
    (mem_limit s) (swap_pool s) (swap_used s) true base n used (swap_disk_out s) (swap_disk_in s) (the_disk s).
Definition with_disk (d : option disk) (s : vmm) : vmm :=
  Vmm (pm s) (hhdm s) (kernel_pml4 s) (g_boot_pml4 s) (is_user s) (task_regions s) (boot_regions s) (mem_pages s)
    (mem_limit s) (swap_pool s) (swap_used s) (swap_disk_armed s) (swap_disk_base_sector s) (swap_disk_npages s)
    (swap_disk_used s) (swap_disk_out s) (swap_disk_in s) d.
Definition count_swap (out inn : Z) (s : vmm) : vmm :=
  Vmm (pm s) (hhdm s) (kernel_pml4 s) (g_boot_pml4 s) (is_user s) (task_regions s) (boot_regions s) (mem_pages s)
    (mem_limit s) (swap_pool s) (swap_used s) (swap_disk_armed s) (swap_disk_base_sector s) (swap_disk_npages s)
    (swap_disk_used s) (u64 (swap_disk_out s + out)) (u64 (swap_disk_in s + inn)) (the_disk s).

Definition cur_pml4 (s : vmm) : Z := g_boot_pml4 s.
Definition with_mem (m : memory) (s : vmm) : vmm :=
  let p := pm s in
  with_pm (Pmm (bitmap p) (refs p) (bitmap_pages p) (total_pages p) (used_pages p) (last_idx p) (double_free_count p)
             (bad_ref_count p) (oom_force p) m) s.
Definition ram (s : vmm) : memory := mem (pm s).
Definition ref_page (p : Z) (s : vmm) : vmm := with_pm (pmm_ref_page (pm s) p) s.
Definition unref_page (p : Z) (s : vmm) : vmm := with_pm (pmm_unref_page (pm s) p) s.
(** [active_regions]. *)
Definition regions (s : vmm) : list region := if is_user s then task_regions s else boot_regions s.
Definition with_regions (rs : list region) (s : vmm) : vmm :=
  if is_user s then with_task_regions rs s else with_boot_regions rs s.
Definition vmm_take_boot_regions (s : vmm) : vmm * list region := (with_boot_regions [] s, boot_regions s).

(** ** Page-table lookup *)
Definition has (e flag : Z) : bool := negb (Z.land e flag =? 0).
Definition frame_bits (e : Z) : Z := Z.land e (u64 (Z.lnot 4095)).
Definition addr_of (e : Z) : Z := Z.land (frame_bits e) (u64 (Z.lnot PTE_NX)).
Definition word (s : vmm) (a : Z) : Z := ld64 (ram s) a.
Definition set_word (s : vmm) (a v : Z) : vmm := with_mem (st64 (ram s) a v) s.
Definition entry (s : vmm) (table idx : Z) : Z := word s (table + 8 * idx).
Definition set_entry (s : vmm) (table idx v : Z) : vmm := set_word s (table + 8 * idx) v.
Definition index_at (v shift : Z) : Z := Z.land (Z.shiftr v shift) 511.

(** [walk] without creation: it changes nothing, so it is its result, the
    address of the entry of [v] if its tables exist ([walk_lookup]). *)
Definition find_table (s : vmm) (t : option Z) (idx : Z) : option Z :=
  match t with
  | None => None
  | Some t => if has (entry s t idx) PTE_PRESENT then Some (addr_of (entry s t idx)) else None
  end.
Definition walk_pte (s : vmm) (pml4 v : Z) : option Z :=
  match find_table s (find_table s (find_table s (Some pml4) (index_at v 39)) (index_at v 30)) (index_at v 21) with
  | None => None
  | Some pt => Some (pt + 8 * index_at v 12)
  end.
Definition vmm_set_flags_in (s : vmm) (pml4 v flags : Z) : vmm :=
  match walk_pte s pml4 v with
  | None => s
  | Some a =>
    if negb (has (word s a) PTE_PRESENT) then s
    else set_word s a (Z.lor (Z.lor (frame_bits (addr_of (word s a))) flags) PTE_PRESENT)
  end.
Definition vmm_set_flags (s : vmm) (v flags : Z) : vmm := vmm_set_flags_in s (cur_pml4 s) v flags.
Definition vmm_unmap_in (s : vmm) (pml4 v : Z) : vmm :=
  match walk_pte s pml4 v with
  | None => s
  | Some a =>
    if negb (has (word s a) PTE_PRESENT) then s
    else unref_page (addr_of (word s a)) (set_word s a 0)
  end.
Definition vmm_unmap (s : vmm) (v : Z) : vmm := vmm_unmap_in s (cur_pml4 s) v.
Definition vmm_translate_in (s : vmm) (pml4 va : Z) : Z :=
  match walk_pte s pml4 va with
  | None => 0
  | Some a => if negb (has (word s a) PTE_PRESENT) then 0 else Z.lor (addr_of (word s a)) (Z.land va 4095)
  end.
Definition vmm_translate (s : vmm) (va : Z) : Z := vmm_translate_in s (cur_pml4 s) va.
Definition vmm_switch_pml4 (s : vmm) (p : Z) : vmm := with_cur (if p =? 0 then kernel_pml4 s else p) s.

(** ** User regions and accounting *)
Definition r_end (r : region) : Z := u64 (start r + u64 (npages r * PAGE_SIZE)).
Fixpoint region_of (rs : list region) (va : Z) : option region :=
  match rs with
  | [] => None
  | r :: rs => if (start r <=? va) && (va <? r_end r) then Some r else region_of rs va
  end.
Definition find_region (s : vmm) (va : Z) : option region := region_of (regions s) va.
Definition overlaps (a b : Z) (r : region) : bool := (a <? r_end r) && (start r <? b).
Definition i64 (n : Z) : Z := if n <? 9223372036854775808 then n else n - 18446744073709551616.
Definition sched_charge_pages (delta : Z) (s : vmm) : vmm :=
  if negb (is_user s) then s
  else if 0 <? delta then
    if mem_limit s <? u64 (mem_pages s + delta) then s else with_mem_pages (u64 (mem_pages s + delta)) s
  else with_mem_pages (if - delta <=? mem_pages s then mem_pages s + delta else 0) s.

(** [for (a = start; a < start + n * PAGE_SIZE; a += PAGE_SIZE)] *)
Fixpoint each_page {A} (n : nat) (a : Z) (f : A -> Z -> A) (s : A) : A :=
  match n with O => s | S k => each_page k (a + PAGE_SIZE) f (f s a) end.
Definition region_pages (r : region) : nat := Z.to_nat ((r_end r - start r) / PAGE_SIZE).
Definition each_region_page {A} (f : A -> Z -> A) (s : A) (r : region) : A := each_page (region_pages r) (start r) f s.

Fixpoint first_overlap (rs : list region) (a b : Z) : option region :=
  match rs with [] => None | r :: rs => if overlaps a b r then Some r else first_overlap rs a b end.
(** The loop; it skips past a region for good, so a round per region and one
    more are enough fuel ([find_free_first_fit]). *)
Fixpoint find_free_from (fuel : nat) (rs : list region) (cand need limit : Z) : option Z :=
  match fuel with
  | O => None
  | S k =>
    if limit <? u64 (cand + need) then Some 0
    else match first_overlap rs cand (u64 (cand + need)) with
         | None => Some cand
         | Some r => find_free_from k rs (r_end r) need limit
         end
  end.
Definition vmm_user_find_free (s : vmm) (st n limit : Z) : option Z :=
  find_free_from (S (length (regions s))) (regions s) (u64 (PAGE_ALIGN_UP st)) (u64 (n * PAGE_SIZE)) limit.

Definition unmap_region (s : vmm) (r : region) : vmm := each_region_page vmm_unmap s r.
Fixpoint region_at (rs : list region) (st : Z) (i : nat) : option (nat * region) :=
  match rs with [] => None | r :: rs => if start r =? st then Some (i, r) else region_at rs st (S i) end.
(** [rs[i] = rs[--n]] *)
Definition drop_region (rs : list region) (i : nat) : list region :=
  removelast (<[i := default (Region 0 0 0) (last rs)]> rs).
Definition vmm_user_release (s : vmm) (va : Z) : vmm * Z :=
  match region_at (regions s) (PAGE_ALIGN_DOWN va) 0 with
  | None => (s, -1)
  | Some (i, r) =>
    let s := sched_charge_pages (- i64 (npages r)) (unmap_region s r) in
    (with_regions (drop_region (regions s) i) s, 0)
  end.
Definition vmm_user_teardown_all (s : vmm) : vmm := with_regions [] (fold_left unmap_region (regions s) s).
Definition vmm_user_region_count (s : vmm) : Z := len (regions s).

(** ** Swap slots and swapping out *)
Definition swap_alloc_slot (s : vmm) : vmm * Z :=
  match scan_free (swap_used s) (Z.to_nat SWAP_SLOTS) 0 with
  | Some i => (with_swap_used (bit_set (swap_used s) i) s, i)
  | None =>
    if swap_disk_armed s then
      match scan_free (swap_disk_used s) (Z.to_nat (swap_disk_npages s)) 0 with
      | Some i => (with_disk_used (bit_set (swap_disk_used s) i) s, SWAP_DISK_SLOT_BASE + i)
      | None => (s, -1)
      end
    else (s, -1)
  end.
Definition slot_is_disk (s : vmm) (slot : Z) : bool := swap_disk_armed s && (SWAP_DISK_SLOT_BASE <=? slot).
Definition swap_free_slot (s : vmm) (slot : Z) : vmm :=
  if slot_is_disk s slot then with_disk_used (bit_clr (swap_disk_used s) (slot - SWAP_DISK_SLOT_BASE)) s
  else with_swap_used (bit_clr (swap_used s) slot) s.
Definition slot_sector (s : vmm) (slot : Z) : Z :=
  u64 (swap_disk_base_sector s + (slot - SWAP_DISK_SLOT_BASE) * SWAP_PAGE_SECTORS).
Definition slot_addr (s : vmm) (slot : Z) : Z := swap_pool s + slot * PAGE_SIZE.

(** The page's bytes reach the slot, or [None]. *)
Definition write_slot (s : vmm) (slot phys : Z) : vmm * bool :=
  if slot_is_disk s slot then
    match the_disk s with
    | None => (s, false)
    | Some d =>
      let '(d, ok) := blk_write_sectors d (slot_sector s slot) (page_bytes (ram s) phys) in
      let s := with_disk (Some d) s in
      if ok then (count_swap 1 0 s, true) else (s, false)
    end
  else (with_mem (copy_page (ram s) (slot_addr s slot) phys) s, true).
Definition vmm_swap_out (s : vmm) (va : Z) : vmm * Z :=
  match walk_pte s (cur_pml4 s) (PAGE_ALIGN_DOWN va) with
  | None => (s, -1)
  | Some a =>
    if negb (has (word s a) PTE_PRESENT) || has (word s a) PTE_SWAP then (s, -1)
    else
      let '(s, slot) := swap_alloc_slot s in
      if slot <? 0 then (s, -1)
      else
        let phys := addr_of (word s a) in
        match write_slot s slot phys with
        | (s, false) => (swap_free_slot s slot, -1)
        | (s, true) => (set_word (unref_page phys s) a (Z.lor (Z.shiftl slot 12) PTE_SWAP), slot)
        end
  end.
(** The pages reclaim may take: present, private, data. *)
Definition evictable (e : Z) : bool :=
  has e PTE_PRESENT && negb (has e PTE_SWAP) && negb (has e PTE_COW) && negb (has e PTE_NOSHR) && has e PTE_NX.
Definition evict_page (mx : Z) (r : vmm * Z) (a : Z) : vmm * Z :=
  let '(s, done) := r in
  if negb (done <? mx) then (s, done)
  else match walk_pte s (cur_pml4 s) a with
       | None => (s, done)
       | Some pa =>
         if evictable (word s pa) then
           let '(s, slot) := vmm_swap_out s a in
           if 0 <=? slot then (s, done + 1) else (s, done)
         else (s, done)
       end.
Definition vmm_evict_some (s : vmm) (mx : Z) : vmm * Z :=
  fold_left (each_region_page (evict_page mx)) (regions s) (s, 0).

(** ** Taking a frame: [pmm_alloc_page] on the whole state, with this file's
    eviction; the OOM killer is the scheduler's. *)
Class OomKiller := { oom_kill_one : vmm -> Z * vmm }.
Context `{OomKiller}.
Definition take_free (s : vmm) : vmm * Z :=
  let '(p, a) := find_free_locked (pm s) in (with_pm p s, a).
Fixpoint alloc_tries (n : nat) (attempt : Z) (s : vmm) : vmm * Z :=
  match n with
  | O => (s, 0)
  | S k =>
    if oom_force (pm s) then (s, 0)
    else
      let '(s, a) := take_free s in
      if negb (a =? 0) then (s, a)
      else alloc_tries k (attempt + 1) (if attempt =? 0 then fst (vmm_evict_some s 16) else s)
  end.
Fixpoint kill_tries (n : nat) (s : vmm) : outcome (vmm * Z) :=
  match n with
  | O => Panic
  | S k =>
    let '(r, s) := oom_kill_one s in
    if r =? 0 then Panic
    else if r <? 0 then Ret (s, 0)
    else
      let '(s, a) := take_free s in
      if negb (a =? 0) then Ret (s, a) else kill_tries k s
  end.
Definition alloc_page (s : vmm) : outcome (vmm * Z) :=
  let '(s, a) := alloc_tries 2 0 s in
  if negb (a =? 0) then Ret (s, a) else kill_tries OOM_MAX_KILLS s.

(** ** Walking with creation, mapping *)
Definition next_table (s : vmm) (table idx : Z) (create : bool) (flags : Z) : outcome (vmm * option Z) :=
  let e := entry s table idx in
  if negb (has e PTE_PRESENT) then
    if negb create then Ret (s, None)
    else obind (alloc_page s) (fun '(s, p) =>
         Ret (set_entry s table idx (Z.lor (Z.lor (Z.lor p PTE_PRESENT) PTE_RW) PTE_US), Some p))
  else
    let s := if has flags PTE_US then set_entry s table idx (Z.lor (entry s table idx) PTE_US) else s in
    let s := if has flags PTE_RW then set_entry s table idx (Z.lor (entry s table idx) PTE_RW) else s in
    Ret (s, Some (addr_of e)).
Definition then_table (r : outcome (vmm * option Z)) (idx : Z) (create : bool) (flags : Z) : outcome (vmm * option Z) :=
  obind r (fun '(s, t) => match t with None => Ret (s, None) | Some t => next_table s t idx create flags end).
Definition walk (s : vmm) (pml4 v : Z) (create : bool) (flags : Z) : outcome (vmm * option Z) :=
  obind (then_table (then_table (next_table s pml4 (index_at v 39) create flags) (index_at v 30) create flags)
           (index_at v 21) create flags)
    (fun '(s, t) => Ret (s, match t with None => None | Some pt => Some (pt + 8 * index_at v 12) end)).
(** Walk, then store; the store through a null pointer is a panic. *)
Definition put_pte (s : vmm) (pml4 v flags e : Z) : outcome vmm :=
  obind (walk s pml4 v true flags) (fun '(s, pte) =>
  match pte with None => Panic | Some a => Ret (set_word s a e) end).
Definition vmm_map_in (s : vmm) (pml4 v p flags : Z) : outcome vmm :=
  put_pte s pml4 v flags (Z.lor (Z.lor (frame_bits p) flags) PTE_PRESENT).
Definition vmm_map (s : vmm) (v p flags : Z) : outcome vmm := vmm_map_in s (cur_pml4 s) v p flags.
Definition map_fresh (pml4 flags : Z) (r : outcome vmm) (a : Z) : outcome vmm :=
  obind r (fun s => obind (alloc_page s) (fun '(s, p) => vmm_map_in s pml4 a p flags)).

(** ** Reserving regions *)
(** The checks both reservations make on [rs]. *)
Definition reservable (rs : list region) (va n : Z) : bool :=
  let st := PAGE_ALIGN_DOWN va in
  let en := u64 (st + u64 (n * PAGE_SIZE)) in
  negb (n =? 0) && negb (en <? st) && negb ((st <? USER_VFLOOR) || (USER_STACK_TOP <? en))
  && negb (existsb (overlaps st en) rs) && negb (MAX_USER_REGIONS <=? len rs).
(** The state, the region list and the return value. *)
Definition vmm_reserve_in (s : vmm) (pml4 : Z) (rs : list region) (va n flags opts : Z) : outcome (vmm * list region * Z) :=
  if negb (reservable rs va n) then Ret (s, rs, -1)
  else
    let r := Region (PAGE_ALIGN_DOWN va) n (Z.lor flags PTE_US) in
    if has opts VMM_USER_LAZY then Ret (s, rs ++ [r], 0)
    else obind (each_region_page (map_fresh pml4 (Z.lor flags PTE_US)) (Ret s) r) (fun s => Ret (s, rs ++ [r], 0)).
Definition over_cap (s : vmm) (n : Z) : bool := is_user s && (mem_limit s <? u64 (mem_pages s + n)).
Definition vmm_user_reserve (s : vmm) (va n flags opts : Z) : outcome (vmm * Z) :=
  if negb (reservable (regions s) va n) then Ret (s, -1)
  else if over_cap s n then Ret (s, -1)
  else
    let r := Region (PAGE_ALIGN_DOWN va) n (Z.lor flags PTE_US) in
    let s := sched_charge_pages (i64 n) s in
    let s := with_regions (regions s ++ [r]) s in
    if has opts VMM_USER_LAZY then Ret (s, 0)
    else obind (each_region_page (map_fresh (cur_pml4 s) (rflags r)) (Ret s) r) (fun s => Ret (s, 0)).

(** ** Swapping in and page faults *)
Definition read_slot (s : vmm) (slot p : Z) : option vmm :=
  if slot_is_disk s slot then
    match the_disk s with
    | None => None
    | Some d =>
      match blk_read_sectors d (slot_sector s slot) with
      | None => None
      | Some pg => Some (count_swap 0 1 (with_mem (put_page (ram s) p pg) s))
      end
    end
  else Some (with_mem (copy_page (ram s) p (slot_addr s slot)) s).
Definition vmm_swap_in (s : vmm) (va : Z) : outcome (vmm * Z) :=
  let page := PAGE_ALIGN_DOWN va in
  match walk_pte s (cur_pml4 s) page with
  | None => Ret (s, -1)
  | Some a =>
    if negb (has (word s a) PTE_SWAP) then Ret (s, -1)
    else
      let slot := Z.land (Z.shiftr (word s a) 12) 1048575 in
      let flags := match find_region s page with Some r => rflags r | None => Z.lor PTE_RW PTE_US end in
      obind (alloc_page s) (fun '(s, p) =>
      if p =? 0 then Ret (s, -1)
      else match read_slot s slot p with
           | None => Ret (swap_free_slot (unref_page p s) slot, -1)
           | Some s => obind (vmm_map (swap_free_slot s slot) page p flags) (fun s => Ret (s, 0))
           end)
  end.

(** A write to a read-only shared page: the last owner takes it, others copy. *)
Definition cow_break (s : vmm) (page a : Z) : outcome (vmm * bool) :=
  let phys := addr_of (word s a) in
  if pmm_refcount (pm s) phys =? 1 then
    let s := set_word s a (Z.lor (word s a) PTE_RW) in
    Ret (set_word s a (Z.land (word s a) (u64 (Z.lnot PTE_COW))), true)
  else
    obind (alloc_page s) (fun '(s, copy) =>
    let s := unref_page phys (with_mem (copy_page (ram s) copy phys) s) in
    obind (vmm_map s page copy (Z.lor PTE_RW PTE_US)) (fun s => Ret (s, true))).
Definition demand_fault (s : vmm) (page : Z) (r : option region) : outcome (vmm * bool) :=
  match r with
  | None => Ret (s, false)
  | Some r =>
    if over_cap s 1 then Ret (s, false)
    else obind (alloc_page (sched_charge_pages 1 s)) (fun '(s, p) =>
         if p =? 0 then Ret (sched_charge_pages (-1) s, false)
         else obind (vmm_map s page p (rflags r)) (fun s => Ret (s, true)))
  end.
Definition vmm_resolve_user_fault (s : vmm) (va : Z) (write : bool) : outcome (vmm * bool) :=
  let r := find_region s va in
  let page := PAGE_ALIGN_DOWN va in
  match walk_pte s (cur_pml4 s) page with
  | None => demand_fault s page r
  | Some a =>
    if has (word s a) PTE_SWAP then obind (vmm_swap_in s page) (fun '(s, e) => Ret (s, e =? 0))
    else if negb (has (word s a) PTE_PRESENT) then demand_fault s page r
    else if write && has (word s a) PTE_COW && negb (has (word s a) PTE_RW) then cow_break s page a
    else Ret (s, false)
  end.

(** ** Copy-on-write sharing *)
Definition cow_entry (phys : Z) : Z := Z.lor (Z.lor (Z.lor (frame_bits phys) PTE_PRESENT) PTE_US) PTE_COW.
Definition vmm_cow_map (s : vmm) (va phys : Z) : outcome (vmm * Z) :=
  let s := ref_page phys s in
  obind (put_pte s (cur_pml4 s) (PAGE_ALIGN_DOWN va) PTE_US (cow_entry phys)) (fun s => Ret (s, 0)).
Definition cow_share (child : Z) (r : outcome vmm) (a : Z) : outcome vmm :=
  obind r (fun s =>
  match walk_pte s (cur_pml4 s) a with
  | None => Ret s
  | Some p =>
    if negb (has (word s p) PTE_PRESENT) || has (word s p) PTE_SWAP then Ret s
    else
      let phys := addr_of (word s p) in
      let s := ref_page phys s in
      if has (word s p) PTE_NOSHR then Ret s
      else put_pte (set_word s p (cow_entry phys)) child a PTE_US (cow_entry phys)
  end).
(** [for (i = 0; i < 512; i++)] over the entries of a table. *)
Definition each_entry {A} (f : A -> Z -> A) (s : A) : A := fold_left f (seqZ 0 512) s.
Definition ref_noshr (i3 i2 : Z) (pt : Z) (s : vmm) (i1 : Z) : vmm :=
  let e := entry s pt i1 in
  if negb (has e PTE_PRESENT) || negb (has e PTE_NOSHR) || has e PTE_SWAP then s
  else match find_region s (Z.lor (Z.lor (Z.shiftl i3 30) (Z.shiftl i2 21)) (Z.shiftl i1 12)) with
       | Some _ => s
       | None => ref_page (addr_of e) s
       end.
Definition ref_noshr_all (s : vmm) : vmm :=
  if negb (has (entry s (cur_pml4 s) 0) PTE_PRESENT) then s
  else
    let pdpt := addr_of (entry s (cur_pml4 s) 0) in
    each_entry (fun s i3 =>
      if negb (has (entry s pdpt i3) PTE_PRESENT) then s
      else
        let pd := addr_of (entry s pdpt i3) in
        each_entry (fun s i2 =>
          if negb (has (entry s pd i2) PTE_PRESENT) || has (entry s pd i2) PTE_HUGE then s
          else each_entry (ref_noshr i3 i2 (addr_of (entry s pd i2))) s) s) s.
Definition vmm_cow_fork (s : vmm) (child : Z) : outcome vmm :=
  obind (fold_left (each_region_page (cow_share child)) (regions s) (Ret s)) (fun s => Ret (ref_noshr_all s)).

(** ** Per-process page tables *)
Definition vmm_new_pml4 (s : vmm) : outcome (vmm * Z) :=
  obind (alloc_page s) (fun '(s, np) =>
  let s := with_mem (mem_set (ram s) np PAGE_SIZE 0) s in
  Ret (fold_left (fun s i => set_entry s np i (entry s (kernel_pml4 s) i)) (seqZ 256 256) s, np)).
(** A fresh copy of the table [old] whose address, with the flags of the
    entry that pointed at [old], goes to entry [i] of [t]. *)
Definition copy_table (s : vmm) (t i old e : Z) : outcome (vmm * Z) :=
  obind (alloc_page s) (fun '(s, p) =>
  let s := with_mem (copy_page (ram s) p old) s in
  Ret (set_entry s t i (Z.lor p (Z.land e 4095)), p)).
Definition clone_pd (old_pd new_pd : Z) (r : outcome vmm) (i2 : Z) : outcome vmm :=
  obind r (fun s =>
  let e := entry s old_pd i2 in
  if negb (has e PTE_PRESENT) then Ret s
  else obind (copy_table s new_pd i2 (addr_of e) e) (fun '(s, _) => Ret s)).
Definition clone_pdpt (old_pdpt new_pdpt : Z) (r : outcome vmm) (i3 : Z) : outcome vmm :=
  obind r (fun s =>
  let e := entry s old_pdpt i3 in
  if negb (has e PTE_PRESENT) then Ret s
  else obind (copy_table s new_pdpt i3 (addr_of e) e) (fun '(s, new_pd) =>
       each_entry (clone_pd (addr_of e) new_pd) (Ret s))).
Definition vmm_clone_pml4 (s : vmm) : outcome (vmm * Z) :=
  obind (alloc_page s) (fun '(s, np) =>
  let s := with_mem (copy_page (ram s) np (cur_pml4 s)) s in
  let e := entry s (cur_pml4 s) 0 in
  if negb (has e PTE_PRESENT) then Ret (s, np)
  else obind (copy_table s np 0 (addr_of e) e) (fun '(s, new_pdpt) =>
       obind (each_entry (clone_pdpt (addr_of e) new_pdpt) (Ret s)) (fun s => Ret (s, np)))).

Definition free_leaf (pt : Z) (s : vmm) (i1 : Z) : vmm :=
  if has (entry s pt i1) PTE_PRESENT then unref_page (addr_of (entry s pt i1)) s else s.
Definition free_pd (pd : Z) (s : vmm) (i2 : Z) : vmm :=
  let e := entry s pd i2 in
  if negb (has e PTE_PRESENT) then s
  else if has e PTE_HUGE then unref_page (Z.land (Z.land e (u64 (Z.lnot 2097151))) (u64 (Z.lnot PTE_NX))) s
  else let s := each_entry (free_leaf (addr_of e)) s in unref_page (addr_of (entry s pd i2)) s.
Definition free_pdpt (pdpt : Z) (s : vmm) (i3 : Z) : vmm :=
  let e := entry s pdpt i3 in
  if negb (has e PTE_PRESENT) then s
  else let s := each_entry (free_pd (addr_of e)) s in unref_page (addr_of (entry s pdpt i3)) s.
Definition vmm_free_pml4 (s : vmm) (pml4 : Z) : vmm :=
  if (pml4 =? 0) || (pml4 =? kernel_pml4 s) then s
  else
    let s :=
      if has (entry s pml4 0) PTE_PRESENT then
        let s := each_entry (free_pdpt (addr_of (entry s pml4 0))) s in unref_page (addr_of (entry s pml4 0)) s
      else s in
    unref_page pml4 s.

(** ** Setting up swap *)
Definition vmm_swap_init (s : vmm) : outcome vmm :=
  if negb (swap_pool s =? 0) then Ret s
  else match scan_run (bitmap (pm s)) (Z.to_nat (total_pages (pm s))) 0 SWAP_SLOTS 0 0 with
       | None => Panic
       | Some i => Ret (with_swap_pool (i * PAGE_SIZE) (with_pm (alloc_run (Z.to_nat SWAP_SLOTS) (pm s) i) s))
       end.
(** The part of [vmm_init] that is not machine registers: [cr3] holds the
    bootloader's tables. *)
Definition vmm_init (s : vmm) (cr3 : Z) : outcome vmm := vmm_swap_init (with_kernel (frame_bits cr3) s).
Definition selftest_page : list Z := map (fun i => u8 (160 + Z.land i 15)) (seqZ 0 PAGE_SIZE).
Definition vmm_swap_disk_init (s : vmm) : vmm :=
  if swap_disk_armed s then s
  else match the_disk s with
       | None => s
       | Some d =>
         if blk_disk_sectors d <=? SWAP_DISK_SECTORS then s
         else
           let base := blk_disk_sectors d - SWAP_DISK_SECTORS in
           let n := SWAP_DISK_SECTORS / SWAP_PAGE_SECTORS in
           with_disk (Some (fst (blk_write_sectors d base selftest_page)))
             (with_disk_tier base n (replicate (Z.to_nat (n / 64 + 1)) 0) s)
       end.

(** ** Validation of user pointers *)
Definition present_user (s : vmm) (a : Z) : option bool :=
  match walk_pte s (cur_pml4 s) a with
  | Some p => if has (word s p) PTE_PRESENT then Some (has (word s p) PTE_US) else None
  | None => None
  end.
Definition page_readable_for_kernel (s : vmm) (a : Z) : outcome (vmm * bool) :=
  match present_user s a with
  | Some ok => Ret (s, ok)
  | None =>
    match find_region s a with
    | None => Ret (s, false)
    | Some _ =>
      obind (vmm_resolve_user_fault s a false) (fun '(s, ok) =>
      if negb ok then Ret (s, false) else Ret (s, default false (present_user s a)))
    end
  end.
Definition and_readable (r : outcome (vmm * bool)) (a : Z) : outcome (vmm * bool) :=
  obind r (fun '(s, ok) => if negb ok then Ret (s, ok) else page_readable_for_kernel s a).
Definition vmm_user_range_ok (s : vmm) (va n : Z) : outcome (vmm * bool) :=
  if n =? 0 then Ret (s, true)
  else if u64 (va + n) <? va then Ret (s, false)
  else if (va <? USER_VFLOOR) || (USER_STACK_TOP <? u64 (va + n)) then Ret (s, false)
  else
    let first := PAGE_ALIGN_DOWN va in
    each_page (Z.to_nat ((PAGE_ALIGN_UP (va + n) - first) / PAGE_SIZE)) first and_readable (Ret (s, true)).
(** [i] of [max] characters are behind; [cur_page] is the page last checked. *)
Fixpoint str_from (k : nat) (s : vmm) (str i cur_page : Z) : outcome (vmm * bool) :=
  match k with
  | O => Ret (s, false)
  | S k =>
    let a := u64 (str + i) in
    let pg := PAGE_ALIGN_DOWN a in
    obind (if pg =? cur_page then Ret (s, true)
           else if (a <? USER_VFLOOR) || (USER_STACK_TOP <=? a) then Ret (s, false)
           else page_readable_for_kernel s a) (fun '(s, ok) =>
    if negb ok then Ret (s, false)
    else if ram s (vmm_translate s a) =? 0 then Ret (s, true)
    else str_from k s str (i + 1) pg)
  end.
Definition vmm_user_str_ok (s : vmm) (str max : Z) : outcome (vmm * bool) :=
  if (str =? 0) || (max =? 0) then Ret (s, false) else str_from (Z.to_nat max) s str 0 18446744073709551615.

(** ** The direct map *)
Definition or_entry (t : Z) (flag : Z) (s : vmm) (i : Z) : vmm := set_entry s t i (Z.lor (entry s t i) flag).
Definition nx_pt (pt : Z) (s : vmm) (k : Z) : vmm :=
  if has (entry s pt k) PTE_PRESENT then or_entry pt PTE_NX s k else s.
(** An entry of a table whose entries are huge pages or tables [sub] handles. *)
Definition nx_level (sub : Z -> vmm -> Z -> vmm) (t : Z) (s : vmm) (i : Z) : vmm :=
  if negb (has (entry s t i) PTE_PRESENT) then s
  else if has (entry s t i) PTE_HUGE then or_entry t PTE_NX s i
  else each_entry (sub (addr_of (entry s t i))) s.
Definition vmm_nx_direct_map (s : vmm) : vmm := nx_level (nx_level (nx_level nx_pt)) (kernel_pml4 s) s 256.

(** A huge page of 512 pages of [stride] becomes a table of them. *)
Definition split_huge (s : vmm) (t i stride leaf parent : Z) : outcome vmm :=
  let e := entry s t i in
  let base := Z.land (Z.land e (u64 (Z.lnot (512 * stride - 1)))) (u64 (Z.lnot PTE_NX)) in
  let fl := Z.land e (Z.lor (Z.lor PTE_PWT PTE_PCD) PTE_NX) in
  obind (alloc_page s) (fun '(s, p) =>
  let s := each_entry (fun s j => set_entry s p j (Z.lor (Z.lor (u64 (base + j * stride)) leaf) fl)) s in
  Ret (set_entry s t i (Z.lor (Z.lor (Z.lor p PTE_PRESENT) PTE_RW)
                          (Z.land parent (Z.lor (Z.lor PTE_PWT PTE_PCD) PTE_NX))))).
Definition split_level (s : vmm) (t i stride leaf parent : Z) : outcome vmm :=
  if has (entry s t i) PTE_HUGE then split_huge s t i stride leaf parent else Ret s.
Definition direct_pte_splitting (s : vmm) (p : Z) : outcome (vmm * option Z) :=
  let va := u64 (p + hhdm s) in
  let e4 := entry s (kernel_pml4 s) (index_at va 39) in
  if negb (has e4 PTE_PRESENT) || has e4 PTE_HUGE then Ret (s, None)
  else
    let pdpt := addr_of e4 in
    let i3 := index_at va 30 in
    if negb (has (entry s pdpt i3) PTE_PRESENT) then Ret (s, None)
    else
      obind (split_level s pdpt i3 2097152 (Z.lor (Z.lor PTE_PRESENT PTE_RW) PTE_HUGE)
               (entry s (kernel_pml4 s) (index_at va 39))) (fun s =>
      let pd := addr_of (entry s pdpt i3) in
      let i2 := index_at va 21 in
      if negb (has (entry s pd i2) PTE_PRESENT) then Ret (s, None)
      else
        obind (split_level s pd i2 PAGE_SIZE (Z.lor PTE_PRESENT PTE_RW) (entry s pdpt i3)) (fun s =>
        Ret (s, Some (addr_of (entry s pd i2) + 8 * index_at va 12)))).
Definition vmm_unmap_direct_page (s : vmm) (p : Z) : outcome vmm :=
  obind (direct_pte_splitting s p) (fun '(s, pte) =>
  match pte with
  | Some a => if has (word s a) PTE_PRESENT then Ret (set_word s a 0) else Ret s
  | None => Ret s
  end).
Definition vmm_remap_direct_page (s : vmm) (p : Z) : outcome vmm :=
  obind (direct_pte_splitting s p) (fun '(s, pte) =>
  match pte with
  | Some a => Ret (set_word s a (Z.lor (Z.lor (Z.lor (frame_bits p) PTE_PRESENT) PTE_RW) PTE_NX))
  | None => Ret s
  end).
(** The virtual address the device's registers are reached at. *)
Definition mmio_flags : Z := Z.lor (Z.lor (Z.lor (Z.lor PTE_PRESENT PTE_RW) PTE_PCD) PTE_PWT) PTE_NX.
Definition mmio_page (r : outcome vmm) (v : Z) : outcome vmm :=
  obind r (fun s => vmm_map s v (u64 (v - hhdm s)) mmio_flags).
Definition mmio_map (s : vmm) (p n : Z) : outcome (vmm * Z) :=
  let v := u64 (p + hhdm s) in
  let first := PAGE_ALIGN_DOWN v in
  let stop := PAGE_ALIGN_DOWN (u64 (u64 (v + n) + 4095)) in
  obind (each_page (Z.to_nat ((stop - first) / PAGE_SIZE)) first mmio_page (Ret s)) (fun s => Ret (s, v)).
End State.
