(* ===== verification/Paging.v ===== *)
(** * Page tables as trees

    The lemmas the properties of Vmm rest on: the 64-bit words of physical
    memory, the page tables below a root as a tree of frames, well-formed
    address spaces ([wf]), what walking with creation preserves ([grown]), what
    storing a leaf entry does ([stored]) and why a second address space that
    shares no table is not touched ([stored_apart]). *)
From Stdlib Require Import ZArith Lia Bool.
From stdpp Require Import base list numbers option gmap sets.
From S2P Require Import Prelude Pmm Vmm.
#[local] Set Default Goal Selector "!".
Open Scope Z_scope.

(** * Words *)
Lemma word_digits v : 0 <= v < 18446744073709551616 ->
  v mod 256 + 256 * (v / 256 mod 256 + 256 * (v / 65536 mod 256 + 256 * (v / 16777216 mod 256
  + 256 * (v / 4294967296 mod 256 + 256 * (v / 1099511627776 mod 256 + 256 * (v / 281474976710656 mod 256
  + 256 * (v / 72057594037927936 mod 256))))))) = v.
Proof.
  intros Hv. assert (forall k, 0 < k -> v / (k * 256) = v / k / 256) as Hd by (intros; by rewrite Z.div_div by lia).
  change 65536 with (256 * 256). change 16777216 with (256 * 256 * 256). change 4294967296 with (256 * 256 * 256 * 256).
  change 1099511627776 with (256 * 256 * 256 * 256 * 256). change 281474976710656 with (256 * 256 * 256 * 256 * 256 * 256).
  change 72057594037927936 with (256 * 256 * 256 * 256 * 256 * 256 * 256). rewrite !Hd by done.
  set (a := v / 256). set (b := a / 256). set (c := b / 256). set (d := c / 256). set (e := d / 256). set (f := e / 256).
  set (g := f / 256). pose proof (Z_div_mod_eq_full v 256). pose proof (Z_div_mod_eq_full a 256).
  pose proof (Z_div_mod_eq_full b 256). pose proof (Z_div_mod_eq_full c 256). pose proof (Z_div_mod_eq_full d 256).
  pose proof (Z_div_mod_eq_full e 256). pose proof (Z_div_mod_eq_full f 256).
  pose proof (Z.mod_pos_bound v 256). pose proof (Z.mod_pos_bound a 256).
  pose proof (Z.mod_pos_bound b 256). pose proof (Z.mod_pos_bound c 256). pose proof (Z.mod_pos_bound d 256).
  pose proof (Z.mod_pos_bound e 256). pose proof (Z.mod_pos_bound f 256).
  rewrite (Z.mod_small g) by lia. lia.
Qed.

Lemma ld64_ext m m' a : (forall k, a <= k < a + 8 -> m' k = m k) -> ld64 m' a = ld64 m a.
Proof. intros E. unfold ld64. rewrite !E by lia. done. Qed.
Lemma st64_at m a v k : 0 <= k < 8 -> st64 m a v (a + k) = v / 256 ^ k mod 256.
Proof.
  intros. unfold st64. rewrite (proj2 (Z.leb_le a (a + k))), (proj2 (Z.ltb_lt (a + k) (a + 8))) by lia.
  by replace (a + k - a) with k by lia.
Qed.
Lemma ld64_st64_eq m a v : 0 <= v < 18446744073709551616 -> ld64 (st64 m a v) a = v.
Proof.
  intros Hv. unfold ld64. pose proof (st64_at m a v 0 ltac:(lia)) as E0. rewrite Z.add_0_r in E0.
  rewrite E0, !st64_at by lia. change (256 ^ 0) with 1. rewrite Z.div_1_r. by apply word_digits.
Qed.
Lemma st64_out m a v x : x < a \/ a + 8 <= x -> st64 m a v x = m x.
Proof. intros. unfold st64. destruct (Z.leb_spec a x), (Z.ltb_spec x (a + 8)); try done; lia. Qed.
Lemma ld64_st64_ne m a b v : b + 8 <= a \/ a + 8 <= b -> ld64 (st64 m a v) b = ld64 m b.
Proof. intros. apply ld64_ext. intros. apply st64_out. lia. Qed.

Definition word64 (x : Z) : Prop := 0 <= x < 18446744073709551616.
Definition byte_mem (m : memory) : Prop := forall a, byte (m a).
Lemma ld64_range m a : byte_mem m -> word64 (ld64 m a).
Proof.
  intros B. unfold ld64, word64. pose proof (B a). pose proof (B (a + 1)). pose proof (B (a + 2)). pose proof (B (a + 3)).
  pose proof (B (a + 4)). pose proof (B (a + 5)). pose proof (B (a + 6)). pose proof (B (a + 7)). unfold byte in *. lia.
Qed.
Lemma byte_mem_st64 m a v : byte_mem m -> byte_mem (st64 m a v).
Proof. intros B x. unfold st64. destruct (_ && _); [apply Z.mod_pos_bound; lia|apply B]. Qed.
Lemma byte_mem_set m a n : byte_mem m -> byte_mem (mem_set m a n 0).
Proof. intros B x. unfold mem_set. destruct (_ && _); [done|apply B]. Qed.

(** ** Entries: bits *)
Lemma word64_lor x y : word64 x -> word64 y -> word64 (Z.lor x y).
Proof. apply (lor_range 64). lia. Qed.
Lemma has_testbit e k : 0 <= k -> has e (Z.shiftl 1 k) = Z.testbit e k.
Proof. apply land_bit. Qed.
Lemma has_lor e f b : has (Z.lor e f) b = has e b || has f b.
Proof.
  unfold has. rewrite Z.land_lor_distr_l. generalize (Z.land e b) (Z.land f b). intros x y.
  pose proof (Z.lor_eq_0_iff x y). destruct (Z.eqb_spec x 0), (Z.eqb_spec y 0), (Z.eqb_spec (Z.lor x y) 0); cbn; intuition.
Qed.
Lemma addr_of_lor e f : addr_of (Z.lor e f) = Z.lor (addr_of e) (addr_of f).
Proof. unfold addr_of, frame_bits. by rewrite !Z.land_lor_distr_l. Qed.
Lemma addr_of_eq e : addr_of e = Z.land e 9223372036854771712.
Proof. unfold addr_of, frame_bits. rewrite <- Z.land_assoc. done. Qed.

(** * Page tables as a tree *)
(** [E t i]: entry [i] of table [t]; a path of indices leads from the root to a table. *)
Definition follow (E : Z -> Z -> Z) (t : option Z) (i : Z) : option Z :=
  match t with
  | None => None
  | Some t => if has (E t i) PTE_PRESENT then Some (addr_of (E t i)) else None
  end.
Definition tree (E : Z -> Z -> Z) (root : Z) (p : list Z) : option Z := fold_left (follow E) p (Some root).
(** The paths of the user half: the root's entry 0. *)
Definition upath (p : list Z) : Prop := Forall (fun i => 0 <= i < 512) p /\ hd 0 p = 0 /\ (length p <= 3)%nat.
Definition tree_inj (E : Z -> Z -> Z) (root : Z) : Prop :=
  forall p q t, upath p -> upath q -> tree E root p = Some t -> tree E root q = Some t -> p = q.
(** The indices of the leaf table of [v], and [v]'s entry if it is present. *)
Definition indices (v : Z) : list Z := [index_at v 39; index_at v 30; index_at v 21].
Definition present (e : Z) : option Z := if has e PTE_PRESENT then Some e else None.
Definition leaf (E : Z -> Z -> Z) (root v : Z) : option Z :=
  match tree E root (indices v) with Some pt => present (E pt (index_at v 12)) | None => None end.
Definition user_va (v : Z) : Prop := 0 <= v < 2 ^ 39.

Lemma tree_snoc E root p i : tree E root (p ++ [i]) = follow E (tree E root p) i.
Proof. unfold tree. by rewrite fold_left_app. Qed.
Lemma follow_Some E t i x : follow E t i = Some x ->
  exists y, t = Some y /\ has (E y i) PTE_PRESENT = true /\ x = addr_of (E y i).
Proof. destruct t as [y|]; cbn; [|done]. destruct (has _ _) eqn:Eh; [|done]. intros [= <-]. eauto. Qed.
Lemma follow_present E y i : has (E y i) PTE_PRESENT = true -> follow E (Some y) i = Some (addr_of (E y i)).
Proof. intros Eh. cbn. by rewrite Eh. Qed.

Lemma upath_snoc p i : upath (p ++ [i]) -> upath p /\ 0 <= i < 512 /\ (length p <= 2)%nat.
Proof.
  intros (F & Hh & L). rewrite Forall_app in F. destruct F as [F1 F2]. apply Forall_inv in F2.
  rewrite length_app in L. cbn in L. split; [|split; [done|lia]]. split; [done|split; [|lia]]. by destruct p.
Qed.
Lemma upath_neq p q i : upath q -> (length p <= 2)%nat -> length q = 3%nat -> p ++ [i] = q ++ [i] -> False.
Proof. intros _ L1 L2 E. apply (f_equal length) in E. rewrite !length_app in E. cbn in E. lia. Qed.

Lemma index_range v k : 0 <= index_at v k < 512.
Proof. unfold index_at. rewrite (Z.land_ones _ 9) by lia. apply Z.mod_pos_bound. lia. Qed.
Lemma index_eq v k : 0 <= k -> index_at v k = v / 2 ^ k mod 512.
Proof. intros. unfold index_at. rewrite (Z.land_ones _ 9), Z.shiftr_div_pow2 by lia. done. Qed.
Lemma index_39 v : user_va v -> index_at v 39 = 0.
Proof. intros Hv. rewrite index_eq by lia. unfold user_va in Hv. by rewrite Z.div_small. Qed.
Lemma upath_indices v : user_va v -> upath (indices v).
Proof.
  intros Hv. split; [|split; [by apply index_39|done]].
  unfold indices. repeat constructor; apply index_range.
Qed.
(** The indices of a user address are those of its page. *)
Lemma indices_page v v' : user_va v -> user_va v' ->
  (v / 4096 = v' / 4096 <-> indices v = indices v' /\ index_at v 12 = index_at v' 12).
Proof.
  intros Hv Hv'.
  assert (forall x, user_va x -> x / 4096 = index_at x 12 + 512 * (index_at x 21 + 512 * index_at x 30)) as Hd.
  { intros x Hx. rewrite !index_eq by lia. change (2 ^ 12) with 4096. change (2 ^ 21) with (4096 * 512).
    change (2 ^ 30) with (4096 * 512 * 512). rewrite <- !Z.div_div by lia.
    set (y := x / 4096). pose proof (Z_div_mod_eq_full y 512). pose proof (Z_div_mod_eq_full (y / 512) 512).
    rewrite (Z.mod_small (y / 512 / 512)); [lia|]. unfold y, user_va in *. rewrite !Z.div_div by lia.
    split; [apply Z.div_pos; lia|apply Z.div_lt_upper_bound; lia]. }
  split.
  - intros E. unfold indices. rewrite !(index_39 v), !(index_39 v') by done. pose proof (Hd v Hv). pose proof (Hd v' Hv').
    pose proof (index_range v 12). pose proof (index_range v' 12). pose proof (index_range v 21).
    pose proof (index_range v' 21).
    assert (index_at v 12 = index_at v' 12) by lia. assert (index_at v 21 = index_at v' 21) by lia.
    assert (index_at v 30 = index_at v' 30) by lia. split; congruence.
  - intros [E1 E2]. unfold indices in E1. injection E1 as _ E3 E4. rewrite !Hd by done. congruence.
Qed.

(** Changes that keep every inner entry's presence and address keep the tree. *)
Lemma tree_same E E' root :
  (forall q t i, upath (q ++ [i]) -> tree E root q = Some t ->
     has (E' t i) PTE_PRESENT = has (E t i) PTE_PRESENT /\ addr_of (E' t i) = addr_of (E t i)) ->
  forall q, upath q -> tree E' root q = tree E root q.
Proof.
  intros HE q. induction q as [|i q IH] using rev_ind; intros Hq; [done|].
  destruct (upath_snoc _ _ Hq) as (Hq' & _ & _). rewrite !tree_snoc, IH by done.
  destruct (tree E root q) as [t|] eqn:Et; [|done]. cbn. destruct (HE q t i Hq Et) as [-> ->]. done.
Qed.
(** Filling an empty inner entry with an empty table adds one path. *)
Lemma tree_add E E' root p t0 i0 f :
  tree_inj E root -> upath (p ++ [i0]) -> tree E root p = Some t0 -> has (E t0 i0) PTE_PRESENT = false ->
  has (E' t0 i0) PTE_PRESENT = true -> addr_of (E' t0 i0) = f ->
  (forall j, 0 <= j < 512 -> has (E' f j) PTE_PRESENT = false) ->
  (forall q t i, upath (q ++ [i]) -> tree E root q = Some t -> (t, i) <> (t0, i0) -> E' t i = E t i) ->
  forall q x, upath q -> (tree E' root q = Some x <-> tree E root q = Some x \/ (q = p ++ [i0] /\ x = f)).
Proof.
  intros Inj Hp Ht0 Hno Hyes Hf Hempty HE. destruct (upath_snoc _ _ Hp) as (Hp' & _ & _).
  intros q. induction q as [|i q IH] using rev_ind; intros x Hq.
  { cbn. split; [tauto|]. intros [?|[E1 _]]; [done|]. by destruct p. }
  destruct (upath_snoc _ _ Hq) as (Hq' & Hi & _). rewrite !tree_snoc. split.
  - intros (y & Ey & Eh & ->)%follow_Some. apply (IH y Hq') in Ey as [Ey|[-> ->]]; [|by rewrite Hempty in Eh].
    destruct (decide ((y, i) = (t0, i0))) as [[= -> ->]|Hne].
    + right. rewrite (Inj q p t0); auto.
    + left. rewrite Ey, (HE q y i) in * by done. by apply follow_present.
  - intros [(y & Ey & Eh & ->)%follow_Some|[E1 ->]].
    + rewrite (proj2 (IH y Hq')) by tauto.
      assert ((y, i) <> (t0, i0)) by congruence. rewrite <- (HE q y i) in * by done. by apply follow_present.
    + apply app_inj_tail in E1 as [-> ->]. rewrite (proj2 (IH t0 Hq')) by tauto. rewrite <- Hf. by apply follow_present.
Qed.

(** * Well-formed address spaces *)
(** Frame [t / PAGE_SIZE] is RAM above 1 MiB and in use. *)
Definition owned (s : pmm) (t : Z) : Prop :=
  exists i, t = i * PAGE_SIZE /\ 256 <= i < total_pages s /\ bit_tst (bitmap s) i = true.

Section Spec.
Context `{D : SwapDisk} `{K : !OomKiller}.
Implicit Types s : vmm.

Definition tables s root p : option Z := tree (entry s) root p.
Definition is_table s root t : Prop := exists p, upath p /\ tables s root p = Some t.
(** The page table's content as a map from user pages to entries. *)
Definition mapped s root v : option Z :=
  match walk_pte s root v with Some a => present (word s a) | None => None end.

Record wf s root : Prop := {
  wf_pmm : pmm_inv (pm s);
  wf_size : total_pages (pm s) <= 1099511627776;
  wf_bytes : byte_mem (ram s);
  wf_own : forall t, is_table s root t -> owned (pm s) t;
  wf_inj : tree_inj (entry s) root }.

Lemma walk_tables s root v : walk_pte s root v =
  match tables s root (indices v) with Some pt => Some (pt + 8 * index_at v 12) | None => None end.
Proof. done. Qed.
Lemma mapped_leaf s root v : mapped s root v = leaf (entry s) root v.
Proof. unfold mapped, leaf. rewrite walk_tables. unfold tables. by destruct (tree _ _ _). Qed.

Lemma owned_aligned p t : owned p t -> t mod PAGE_SIZE = 0 /\ 1048576 <= t /\ t / PAGE_SIZE < total_pages p.
Proof. intros (i & -> & Hi & _). rewrite page_index. unfold PAGE_SIZE. rewrite Z.mod_mul by lia. lia. Qed.

(** Entries of page-aligned tables do not meet. *)
Lemma slots_apart t i t' i' : t mod PAGE_SIZE = 0 -> t' mod PAGE_SIZE = 0 -> 0 <= i < 512 -> 0 <= i' < 512 ->
  (t, i) <> (t', i') -> t' + 8 * i' + 8 <= t + 8 * i \/ t + 8 * i + 8 <= t' + 8 * i'.
Proof.
  unfold PAGE_SIZE. intros Ht Ht' Hi Hi' Hne. apply Z.mod_divide in Ht as [a ->], Ht' as [b ->]; [|lia..].
  destruct (Z.eq_dec a b) as [->|]; [|lia]. destruct (Z.eq_dec i i') as [->|]; [congruence|lia].
Qed.
Lemma entry_set_eq s t i v : word64 v -> entry (set_entry s t i v) t i = v.
Proof. intros. by apply ld64_st64_eq. Qed.
Lemma entry_set_ne s t i v t' i' : t mod PAGE_SIZE = 0 -> t' mod PAGE_SIZE = 0 -> 0 <= i < 512 -> 0 <= i' < 512 ->
  (t', i') <> (t, i) -> entry (set_entry s t i v) t' i' = entry s t' i'.
Proof.
  intros. unfold entry, word, set_entry, set_word. cbn. apply ld64_st64_ne.
  apply (slots_apart t i t' i'); auto.
Qed.
Lemma entry_range s root t i : wf s root -> word64 (entry s t i).
Proof. intros W. apply ld64_range, (wf_bytes _ _ W). Qed.

(** What creating tables preserves: every mapping, every table, every frame in
    use that is not a table, its contents and its references; at most [n]
    frames are taken. *)
Record grown (n : Z) s s' root : Prop := {
  g_wf : wf s' root;
  g_rest : s' = with_pm (pm s') s;
  g_oom : oom_force (pm s') = oom_force (pm s);
  g_total : total_pages (pm s') = total_pages (pm s);
  g_used : used_pages (pm s') <= used_pages (pm s) + n;
  g_mapped : forall v, user_va v -> mapped s' root v = mapped s root v;
  g_tree : forall p t, upath p -> tables s root p = Some t -> tables s' root p = Some t;
  g_old : forall t, is_table s' root t -> is_table s root t \/ bit_tst (bitmap (pm s)) (t / PAGE_SIZE) = false;
  g_bits : forall i, 0 <= i -> bit_tst (bitmap (pm s)) i = true ->
    bit_tst (bitmap (pm s')) i = true /\ (refs (pm s')).[i] = (refs (pm s)).[i];
  g_mem : forall i k, 0 <= k < PAGE_SIZE -> 0 <= i -> bit_tst (bitmap (pm s)) i = true ->
    ~ is_table s root (i * PAGE_SIZE) -> ram s' (i * PAGE_SIZE + k) = ram s (i * PAGE_SIZE + k) }.

Lemma grown_refl s root : wf s root -> grown 0 s s root.
Proof. intros. split; auto; try lia. by destruct s. Qed.
Lemma grown_trans n m s1 s2 s3 root : grown n s1 s2 root -> grown m s2 s3 root -> grown (n + m) s1 s3 root.
Proof.
  intros [] []. split; auto; try congruence; try lia.
  - rewrite g_rest1, g_rest0. done.
  - intros v Hv. by rewrite g_mapped1, g_mapped0.
  - intros t Ht. destruct (owned_aligned _ _ (wf_own _ _ g_wf1 _ Ht)) as (_ & Hp & _).
    apply g_old1 in Ht as [?|Hf]; [by apply g_old0|]. right.
    destruct (bit_tst (bitmap (pm s1)) (t / PAGE_SIZE)) eqn:Eb; [|done].
    apply g_bits0 in Eb as [Eb _]; [congruence|]. apply Z.div_pos; unfold PAGE_SIZE; lia.
  - intros i Hi Hb. destruct (g_bits0 i Hi Hb) as [Hb' <-]. auto.
  - intros i k Hk Hi Hb Hn. destruct (g_bits0 i Hi Hb) as [Hb' _]. rewrite g_mem1; auto. intros Ht.
    destruct (g_old0 _ Ht) as [?|Hf]; [done|]. rewrite page_index in Hf. congruence.
Qed.

(** ** Taking a frame *)
Lemma count_used_free bm n i : count_used bm n i < Z.of_nat n -> exists j, i <= j < i + Z.of_nat n /\ bit_tst bm j = false.
Proof.
  revert i. induction n as [|n IH]; intros i Hc; cbn [count_used] in Hc; [lia|].
  destruct (bit_tst bm i) eqn:Eb; [|exists i; split; [lia|done]].
  destruct (IH (i + 1)) as (j & Hj & Hf); [lia|]. exists j. split; [lia|done].
Qed.
Lemma find_free_rest p : oom_force (fst (find_free_locked p)) = oom_force p.
Proof. unfold find_free_locked. destruct (scan_free _ _ _); [done|]. by destruct (scan_free _ _ _). Qed.
Lemma alloc_page_free s : pmm_inv (pm s) -> oom_force (pm s) = false -> used_pages (pm s) < total_pages (pm s) ->
  exists p i, alloc_page s = Ret (with_pm p s, i * PAGE_SIZE) /\ 256 <= i < total_pages (pm s) /\
    allocated (pm s) p i 1 /\ pmm_inv p /\ oom_force p = false.
Proof.
  intros Hinv Hoom Hu. destruct (count_used_free (bitmap (pm s)) (Z.to_nat (total_pages (pm s))) 0) as (j & Hj & Hf).
  { rewrite <- (inv_used _ Hinv). pose proof (inv_last _ Hinv). lia. }
  unfold alloc_page. cbn [alloc_tries]. rewrite Hoom. unfold take_free.
  pose proof (find_free_rest (pm s)) as Ho. destruct (find_free_locked (pm s)) as [p a] eqn:Ef. cbn [fst] in Ho.
  apply find_free_spec in Ef as [(_ & _ & Hall)|(i & Hi & -> & Ha & Hp)]; [|exists p, i|done].
  { rewrite Hall in Hf by lia. done. }
  rewrite (proj2 (Z.eqb_neq (i * PAGE_SIZE) 0)) by (unfold PAGE_SIZE; lia). cbn [negb].
  rewrite (proj2 (Z.eqb_neq (i * PAGE_SIZE) 0)) by (unfold PAGE_SIZE; lia). cbn [negb]. splits; auto; try lia; congruence.
Qed.

(** A frame that was free belongs to no table; its words are zero. *)
Lemma fresh_word s p i a : allocated (pm s) p i 1 -> i * PAGE_SIZE <= a -> a + 8 <= (i + 1) * PAGE_SIZE ->
  word (with_pm p s) a = 0.
Proof.
  intros A H1 H2. unfold word, ram, ld64. cbn [pm with_pm].
  assert (forall k, a <= k < a + 8 -> mem p k = 0) as E.
  { intros k Hk. rewrite (al_mem _ _ _ _ A). rewrite (proj2 (Z.leb_le _ _)), (proj2 (Z.ltb_lt _ _)) by lia. done. }
  by rewrite !E by lia.
Qed.
Lemma old_word s p i a : allocated (pm s) p i 1 -> a + 8 <= i * PAGE_SIZE \/ (i + 1) * PAGE_SIZE <= a ->
  word (with_pm p s) a = word s a.
Proof.
  intros A H1. unfold word, ram. cbn [pm with_pm]. apply ld64_ext. intros k Hk. rewrite (al_mem _ _ _ _ A).
  destruct (Z.leb_spec (i * PAGE_SIZE) k), (Z.ltb_spec k ((i + 1) * PAGE_SIZE)); try done; lia.
Qed.
Lemma old_entry s p i t j : allocated (pm s) p i 1 -> owned (pm s) t -> 0 <= j < 512 ->
  entry (with_pm p s) t j = entry s t j.
Proof.
  intros A (k & -> & _ & Hb) Hj. apply (old_word _ _ i); [done|].
  assert (k <> i). { intros ->. pose proof (al_free _ _ _ _ A i). rewrite H in Hb; [done|lia]. }
  unfold PAGE_SIZE. lia.
Qed.
Lemma fresh_not_owned s p i : allocated (pm s) p i 1 -> ~ owned (pm s) (i * PAGE_SIZE).
Proof.
  intros A (k & E & _ & Hb). apply Z.mul_cancel_r in E; [|done]. subst k. rewrite (al_free _ _ _ _ A i) in Hb; [done|lia].
Qed.

(** ** Growing the tree *)
Lemma addr_of_frame i : 0 <= i < 1099511627776 -> addr_of (i * PAGE_SIZE) = i * PAGE_SIZE.
Proof.
  intros Hi. rewrite addr_of_eq. change 9223372036854771712 with (Z.shiftl (Z.ones 51) 12).
  unfold PAGE_SIZE. change 4096 with (2 ^ 12). rewrite <- Z.shiftl_mul_pow2, <- Z.shiftl_land by lia.
  f_equal. rewrite Z.land_ones, Z.mod_small by lia. done.
Qed.
Lemma owned_addr s root t : wf s root -> owned (pm s) t -> addr_of t = t /\ word64 t.
Proof.
  intros W (i & -> & Hi & _). pose proof (wf_size _ _ W). split; [apply addr_of_frame; lia|].
  unfold word64, PAGE_SIZE. lia.
Qed.
Definition link (t : Z) : Z := Z.lor (Z.lor (Z.lor t PTE_PRESENT) PTE_RW) PTE_US.
Lemma link_spec i : 0 <= i < 1099511627776 ->
  has (link (i * PAGE_SIZE)) PTE_PRESENT = true /\ addr_of (link (i * PAGE_SIZE)) = i * PAGE_SIZE /\ word64 (link (i * PAGE_SIZE)).
Proof.
  intros Hi. unfold link. splits.
  - rewrite !has_lor. change (has PTE_PRESENT PTE_PRESENT) with true. by rewrite !orb_true_r.
  - rewrite !addr_of_lor, addr_of_frame, !Z.lor_0_r by done. done.
  - repeat apply word64_lor; unfold word64, PAGE_SIZE, PTE_PRESENT, PTE_RW, PTE_US; lia.
Qed.

Lemma set_word_rest s a v : set_word s a v = with_pm (pm (set_word s a v)) s.
Proof. by destruct s. Qed.
Lemma set_word_inv s a v : pmm_inv (pm s) -> pmm_inv (pm (set_word s a v)).
Proof. intros []. split; done. Qed.
Lemma ram_set_entry s t i v j k : t mod PAGE_SIZE = 0 -> 0 <= i < 512 -> 0 <= k < PAGE_SIZE -> t <> j * PAGE_SIZE ->
  ram (set_entry s t i v) (j * PAGE_SIZE + k) = ram s (j * PAGE_SIZE + k).
Proof.
  intros Ht Hi Hk Hne. apply st64_out. apply Z.mod_divide in Ht as [a ->]; [|done].
  assert (a <> j) by congruence. unfold PAGE_SIZE in *. lia.
Qed.

(** Rewriting an inner entry without moving what it points at. *)
Lemma grown_flags s root p t i e : wf s root -> upath (p ++ [i]) -> tables s root p = Some t -> word64 e ->
  has e PTE_PRESENT = has (entry s t i) PTE_PRESENT -> addr_of e = addr_of (entry s t i) ->
  grown 0 s (set_entry s t i e) root /\ (forall q, upath q -> tables (set_entry s t i e) root q = tables s root q).
Proof.
  intros W Hp Ht He H1 H2. set (s' := set_entry s t i e). destruct (upath_snoc _ _ Hp) as (Hp' & Hi & Hl).
  assert (forall q t, upath q -> tables s root q = Some t -> owned (pm s) t) as Hown
    by (intros; apply (wf_own _ _ W); eexists; eauto).
  destruct (owned_aligned _ _ (Hown p t Hp' Ht)) as (Hta & _ & _).
  assert (forall q t' j, upath q -> tables s root q = Some t' -> 0 <= j < 512 -> (t', j) <> (t, i) ->
            entry s' t' j = entry s t' j) as Hne.
  { intros q t' j Hq Ht' Hj ?. apply entry_set_ne; auto. by apply (owned_aligned _ _ (Hown q t' Hq Ht')). }
  assert (forall q, upath q -> tables s' root q = tables s root q) as Htree.
  { apply tree_same. intros q t' j Hq Ht'. destruct (upath_snoc _ _ Hq) as (Hq' & Hj & _).
    destruct (decide ((t', j) = (t, i))) as [[= -> ->]|N]; [|by rewrite (Hne q)].
    unfold s'. by rewrite entry_set_eq. }
  assert (forall x, is_table s' root x <-> is_table s root x) as Htab.
  { intros x. split; intros (q & Hq & Hx); exists q; (split; [done|]); [by rewrite <- Htree|by rewrite Htree]. }
  split; [|done]. split; try done; try lia.
  - split; [apply set_word_inv, W|apply W|apply byte_mem_st64, W|intros x Hx; by apply (wf_own _ _ W), Htab|].
    intros q r x Hq Hr. fold (tables s' root q) (tables s' root r). rewrite !Htree by done. by apply (wf_inj _ _ W).
  - cbn. lia.
  - intros v Hv. rewrite !mapped_leaf. unfold leaf. pose proof (upath_indices v Hv) as Hu.
    fold (tables s' root (indices v)) (tables s root (indices v)). rewrite Htree by done.
    destruct (tables s root (indices v)) as [pt|] eqn:Ept; [|done].
    rewrite (Hne (indices v)); try done; [apply index_range|].
    intros [= -> _]. pose proof (wf_inj _ _ W _ _ _ Hu Hp' Ept Ht) as E. apply (f_equal length) in E. cbn in E. lia.
  - intros q x Hq Hx. by rewrite Htree.
  - intros x Hx. left. by apply Htab.
  - intros j k Hk Hj Hb Hn. apply ram_set_entry; auto. intros ->. apply Hn. by exists p.
Qed.
(** Filling an empty inner entry with a frame that was free. *)
Lemma link_tables s root p t i pp f : wf s root -> upath (p ++ [i]) -> tables s root p = Some t ->
  has (entry s t i) PTE_PRESENT = false -> 256 <= f < total_pages (pm s) -> allocated (pm s) pp f 1 ->
  let s' := set_entry (with_pm pp s) t i (link (f * PAGE_SIZE)) in
  (forall q x, upath q -> (tables s' root q = Some x <-> tables s root q = Some x \/ (q = p ++ [i] /\ x = f * PAGE_SIZE))) /\
  (forall q t' j, upath q -> tables s root q = Some t' -> 0 <= j < 512 -> (t', j) <> (t, i) -> entry s' t' j = entry s t' j) /\
  (forall j, 0 <= j < 512 -> entry s' (f * PAGE_SIZE) j = 0).
Proof.
  intros W Hp Ht Hno Hf A s'. destruct (upath_snoc _ _ Hp) as (Hp' & Hi & Hl). pose proof (wf_size _ _ W).
  destruct (link_spec f) as (L1 & L2 & L3); [lia|].
  assert (forall q t, upath q -> tables s root q = Some t -> owned (pm s) t) as Hown
    by (intros; apply (wf_own _ _ W); eexists; eauto).
  destruct (owned_aligned _ _ (Hown p t Hp' Ht)) as (Hta & _ & _).
  assert (t <> f * PAGE_SIZE) as Htf by (intros ->; by apply (fresh_not_owned s pp f), (Hown p)).
  assert (f * PAGE_SIZE mod PAGE_SIZE = 0) as Hfa by by apply Z.mod_mul.
  assert (forall q t' j, upath q -> tables s root q = Some t' -> 0 <= j < 512 -> (t', j) <> (t, i) ->
            entry s' t' j = entry s t' j) as Hne.
  { intros q t' j Hq Ht' Hj N. unfold s'. rewrite entry_set_ne; auto; [|by apply (owned_aligned _ _ (Hown q t' Hq Ht'))].
    apply (old_entry _ _ f); eauto. }
  assert (forall j, 0 <= j < 512 -> entry s' (f * PAGE_SIZE) j = 0) as Hz.
  { intros j Hj. unfold s'. rewrite entry_set_ne; auto; [|congruence].
    apply (fresh_word _ _ f); [done|lia|unfold PAGE_SIZE in *; lia]. }
  split; [|done]. intros q x Hq. unfold tables. apply (tree_add _ _ root p t i (f * PAGE_SIZE)); auto.
  - apply (wf_inj _ _ W).
  - unfold s'. by rewrite entry_set_eq.
  - unfold s'. by rewrite entry_set_eq.
  - intros j Hj. by rewrite Hz.
  - intros q' t' j Hq' Ht' N. destruct (upath_snoc _ _ Hq') as (? & ? & _). by apply (Hne q').
Qed.

Lemma grown_link s root p t i pp f : wf s root -> upath (p ++ [i]) -> tables s root p = Some t ->
  has (entry s t i) PTE_PRESENT = false -> 256 <= f < total_pages (pm s) -> allocated (pm s) pp f 1 -> pmm_inv pp ->
  oom_force pp = oom_force (pm s) ->
  let s' := set_entry (with_pm pp s) t i (link (f * PAGE_SIZE)) in
  grown 1 s s' root /\ tables s' root (p ++ [i]) = Some (f * PAGE_SIZE).
Proof.
  intros W Hp Ht Hno Hf A Hinv Hoom s'.
  destruct (link_tables s root p t i pp f W Hp Ht Hno Hf A) as (Htree & Hne & Hz). fold s' in Htree, Hne, Hz.
  destruct (upath_snoc _ _ Hp) as (Hp' & Hi & Hl).
  assert (forall t, is_table s root t -> owned (pm s) t) as Hown by apply W.
  assert (owned (pm s) t) as Hto by (apply Hown; by exists p).
  assert (forall x, owned (pm s) x -> owned (pm s') x) as Hkeep.
  { intros x (k & -> & Hk & Hb). exists k. split; [done|]. cbn. rewrite (al_total _ _ _ _ A). split; [done|].
    rewrite (al_bits _ _ _ _ A) by lia. rewrite Hb. by rewrite orb_true_r. }
  assert (owned (pm s') (f * PAGE_SIZE)) as Hfo.
  { exists f. split; [done|]. cbn. rewrite (al_total _ _ _ _ A). split; [done|].
    rewrite (al_bits _ _ _ _ A) by lia. by rewrite (proj2 (Z.leb_le f f)), (proj2 (Z.ltb_lt f (f + 1))) by lia. }
  assert (forall q x, upath q -> tables s root q = Some x -> x <> f * PAGE_SIZE) as Hnf.
  { intros q x Hq Hx ->. apply (fresh_not_owned s pp f A), Hown. by exists q. }
  split; [|apply Htree; [done|tauto]]. split; try done.
  - split; [by apply set_word_inv|cbn; rewrite (al_total _ _ _ _ A); apply W| | |].
    + apply byte_mem_st64. intros a. change (byte (mem pp a)). rewrite (al_mem _ _ _ _ A). destruct (_ && _); [done|apply (wf_bytes _ _ W)].
    + intros x (q & Hq & [Hx|[_ ->]]%Htree); [|done..]. apply Hkeep, Hown. by exists q.
    + intros q r x Hq Hr Hx Hy. apply Htree in Hx as [Hx|[-> ->]], Hy as [Hy|[-> E]]; try done.
      * by apply (wf_inj _ _ W _ _ x).
      * by destruct (Hnf q x Hq Hx).
      * by destruct (Hnf r _ Hr Hy).
  - cbn. apply (al_total _ _ _ _ A).
  - cbn. rewrite (al_used _ _ _ _ A). lia.
  - intros v Hv. rewrite !mapped_leaf. unfold leaf. pose proof (upath_indices v Hv) as Hu.
    fold (tables s' root (indices v)) (tables s root (indices v)).
    destruct (tables s root (indices v)) as [pt|] eqn:Ept.
    + rewrite (proj2 (Htree _ pt Hu)) by tauto. rewrite (Hne (indices v)); try done; [apply index_range|].
      intros [= -> _]. pose proof (wf_inj _ _ W _ _ _ Hu Hp' Ept Ht) as E. apply (f_equal length) in E. cbn in E. lia.
    + destruct (tables s' root (indices v)) as [pt|] eqn:Ept'; [|done]. apply Htree in Ept' as [H|[_ ->]]; [by rewrite Ept in H| |done].
      by rewrite Hz by apply index_range.
  - intros q x Hq Hx. apply Htree; tauto.
  - intros x (q & Hq & [Hx|[_ ->]]%Htree); [left; by exists q| |done]. right. rewrite page_index.
    apply (al_free _ _ _ _ A). lia.
  - intros j Hj Hb. change (bit_tst (bitmap pp) j = true /\ (refs pp).[j] = (refs (pm s)).[j]). rewrite (al_bits _ _ _ _ A), (al_refs _ _ _ _ A), Hb, orb_true_r by done. split; [done|].
    destruct (Z.leb_spec f j), (Z.ltb_spec j (f + 1)); cbn; try done. assert (j = f) as -> by lia.
    rewrite (al_free _ _ _ _ A) in Hb; [done|lia].
  - intros j k Hk Hj Hb Hn. unfold s'. rewrite ram_set_entry; auto; [|apply (owned_aligned _ _ Hto)|intros ->; apply Hn; by exists p].
    change (mem pp (j * PAGE_SIZE + k) = ram s (j * PAGE_SIZE + k)). rewrite (al_mem _ _ _ _ A). assert (j <> f) by (intros ->; rewrite (al_free _ _ _ _ A) in Hb; [done|lia]).
    destruct (Z.leb_spec (f * PAGE_SIZE) (j * PAGE_SIZE + k)), (Z.ltb_spec (j * PAGE_SIZE + k) ((f + 1) * PAGE_SIZE));
      cbn; try done. unfold PAGE_SIZE in *. lia.
Qed.

Lemma grown_weaken n m s s' root : grown n s s' root -> n <= m -> grown m s s' root.
Proof. intros [] ?. split; auto. lia. Qed.
Lemma flag_step s root p t i f : wf s root -> upath (p ++ [i]) -> tables s root p = Some t ->
  f = PTE_US \/ f = PTE_RW ->
  let s' := set_entry s t i (Z.lor (entry s t i) f) in
  grown 0 s s' root /\ (forall q, upath q -> tables s' root q = tables s root q).
Proof.
  intros W Hp Ht Hf. apply (grown_flags _ _ p); auto.
  - apply word64_lor; [by apply (entry_range _ root)|]. by destruct Hf as [-> | ->].
  - rewrite has_lor. destruct Hf as [-> | ->]; apply orb_false_r.
  - rewrite addr_of_lor. destruct Hf as [-> | ->]; apply Z.lor_0_r.
Qed.
Lemma flag_if s root p t i (b : bool) f : wf s root -> upath (p ++ [i]) -> tables s root p = Some t ->
  f = PTE_US \/ f = PTE_RW ->
  let s' := if b then set_entry s t i (Z.lor (entry s t i) f) else s in
  grown 0 s s' root /\ (forall q, upath q -> tables s' root q = tables s root q).
Proof. intros. destruct b; [by apply (flag_step _ _ p)|]. split; [by apply grown_refl|done]. Qed.

Lemma next_table_present s root p t i x flags : wf s root -> upath (p ++ [i]) -> tables s root p = Some t ->
  tables s root (p ++ [i]) = Some x ->
  exists s', next_table s t i true flags = Ret (s', Some x) /\ grown 0 s s' root /\
    (forall q, upath q -> tables s' root q = tables s root q).
Proof.
  intros W Hp Ht Hx. unfold tables in Hx. rewrite tree_snoc in Hx. fold (tables s root p) in Hx. rewrite Ht in Hx.
  apply follow_Some in Hx as (? & [= <-] & Eh & ->). unfold next_table. rewrite Eh. cbn [negb].
  destruct (flag_if s root p t i (has flags PTE_US) PTE_US) as [G1 T1]; auto.
  set (s1 := if has flags PTE_US then _ else s) in *.
  destruct (upath_snoc _ _ Hp) as (Hp' & _).
  destruct (flag_if s1 root p t i (has flags PTE_RW) PTE_RW) as [G2 T2]; auto; [apply G1|by rewrite T1|].
  eexists. split; [done|]. split; [exact (grown_trans 0 0 _ _ _ _ G1 G2)|].
  intros q Hq. by rewrite T2, T1.
Qed.
Lemma next_table_spec s root p t i flags : wf s root -> upath (p ++ [i]) -> tables s root p = Some t ->
  oom_force (pm s) = false -> used_pages (pm s) < total_pages (pm s) ->
  exists s' t', next_table s t i true flags = Ret (s', Some t') /\ grown 1 s s' root /\ tables s' root (p ++ [i]) = Some t'.
Proof.
  intros W Hp Ht Ho Hu. destruct (tables s root (p ++ [i])) as [x|] eqn:Ex.
  { destruct (next_table_present s root p t i x flags) as (s' & E & G & T); auto.
    exists s', x. split; [done|]. split; [by apply (grown_weaken 0)|by rewrite T]. }
  unfold tables in Ex. rewrite tree_snoc in Ex. fold (tables s root p) in Ex. rewrite Ht in Ex. cbn in Ex.
  unfold next_table. destruct (has (entry s t i) PTE_PRESENT) eqn:Eh; cbn [negb]; [done|].
  destruct (alloc_page_free s) as (pp & f & -> & Hf & A & Hinv & Ho'); auto; [apply W|]. cbn [obind].
  destruct (grown_link s root p t i pp f) as [G T]; auto; [congruence|].
  eexists _, _. split; [done|]. split; [exact G|exact T].
Qed.

Lemma walk_spec s root v flags : wf s root -> user_va v -> oom_force (pm s) = false ->
  used_pages (pm s) + 3 <= total_pages (pm s) ->
  exists s' pt, walk s root v true flags = Ret (s', Some (pt + 8 * index_at v 12)) /\ grown 3 s s' root /\
    tables s' root (indices v) = Some pt.
Proof.
  intros W Hv Ho Hu. pose proof (upath_indices v Hv) as U3.
  destruct (upath_snoc [index_at v 39; index_at v 30] _ U3) as (U2 & _).
  destruct (upath_snoc [index_at v 39] _ U2) as (U1 & _). unfold walk.
  destruct (next_table_spec s root [] root (index_at v 39) flags) as (s1 & t1 & -> & G1 & T1); auto; [lia|].
  cbn [then_table obind].
  destruct (next_table_spec s1 root [index_at v 39] t1 (index_at v 30) flags) as (s2 & t2 & -> & G2 & T2); auto;
    [apply G1|destruct G1; congruence|destruct G1; lia|]. cbn [then_table obind].
  destruct (next_table_spec s2 root [index_at v 39; index_at v 30] t2 (index_at v 21) flags) as (s3 & t3 & -> & G3 & T3); auto;
    [apply G2|destruct G1, G2; congruence|destruct G1, G2; lia|]. cbn [obind].
  eexists _, _. split; [done|]. split; [|exact T3].
  apply (grown_trans 1 2 _ s1); [done|]. by apply (grown_trans 1 1 _ s2).
Qed.

(** How many frames the walk takes: one for each table that is missing on the way. *)
Definition missing s root p : Z := match tables s root p with Some _ => 0 | None => 1 end.
Definition missing_tables s root v : Z :=
  missing s root [index_at v 39] + missing s root [index_at v 39; index_at v 30] + missing s root (indices v).

Lemma next_table_exact s root p t i flags : wf s root -> upath (p ++ [i]) -> tables s root p = Some t ->
  oom_force (pm s) = false -> used_pages (pm s) < total_pages (pm s) ->
  exists s' t', next_table s t i true flags = Ret (s', Some t') /\ grown 1 s s' root /\ tables s' root (p ++ [i]) = Some t' /\
    used_pages (pm s') = used_pages (pm s) + missing s root (p ++ [i]) /\
    (forall q, upath q -> q <> p ++ [i] -> missing s' root q = missing s root q).
Proof.
  intros W Hp Ht Ho Hu. unfold missing. destruct (tables s root (p ++ [i])) as [x|] eqn:Ex.
  { destruct (next_table_present s root p t i x flags) as (s' & E & G & T); auto.
    exists s', x. splits; auto; [by apply (grown_weaken 0)|by rewrite T| |].
    - unfold tables in Ex. rewrite tree_snoc in Ex. fold (tables s root p) in Ex. rewrite Ht in Ex.
      apply follow_Some in Ex as (? & [= <-] & Eh & _). unfold next_table in E. rewrite Eh in E. injection E as <- _.
      destruct (has flags PTE_US), (has flags PTE_RW); cbn; lia.
    - intros q Hq _. by rewrite T. }
  unfold tables in Ex. rewrite tree_snoc in Ex. fold (tables s root p) in Ex. rewrite Ht in Ex. cbn in Ex.
  unfold next_table. destruct (has (entry s t i) PTE_PRESENT) eqn:Eh; cbn [negb]; [done|].
  destruct (alloc_page_free s) as (pp & f & -> & Hf & A & Hinv & Ho'); auto; [apply W|]. cbn [obind].
  destruct (grown_link s root p t i pp f) as [G T]; auto; [congruence|].
  destruct (link_tables s root p t i pp f W Hp Ht Eh Hf A) as (Htree & _).
  eexists _, _. split; [done|]. split; [exact G|]. split; [exact T|]. split; [exact (al_used _ _ _ _ A)|].
  intros q Hq N. destruct (tables s root q) as [x|] eqn:Eq.
  - assert (tables (set_entry (with_pm pp s) t i (link (f * PAGE_SIZE))) root q = Some x) as E by (apply Htree; tauto).
    unfold link in E. by rewrite E.
  - destruct (tables (set_entry _ _ _ _) root q) as [x|] eqn:Eq'; [|done].
    apply Htree in Eq' as [E|[? _]]; [congruence|done|done].
Qed.
Lemma walk_used s root v flags : wf s root -> user_va v -> oom_force (pm s) = false ->
  used_pages (pm s) + 3 <= total_pages (pm s) ->
  exists s' a, walk s root v true flags = Ret (s', Some a) /\
    used_pages (pm s') = used_pages (pm s) + missing_tables s root v.
Proof.
  intros W Hv Ho Hu. pose proof (upath_indices v Hv) as U3.
  destruct (upath_snoc [index_at v 39; index_at v 30] _ U3) as (U2 & _).
  destruct (upath_snoc [index_at v 39] _ U2) as (U1 & _). unfold walk.
  destruct (next_table_exact s root [] root (index_at v 39) flags) as (s1 & t1 & -> & G1 & T1 & N1 & M1); auto; [lia|].
  cbn [then_table obind].
  destruct (next_table_exact s1 root [index_at v 39] t1 (index_at v 30) flags) as (s2 & t2 & -> & G2 & T2 & N2 & M2); auto;
    [apply G1|destruct G1; congruence|destruct G1; lia|]. cbn [then_table obind].
  destruct (next_table_exact s2 root [index_at v 39; index_at v 30] t2 (index_at v 21) flags) as (s3 & t3 & -> & G3 & T3 & N3 & M3); auto;
    [apply G2|destruct G1, G2; congruence|destruct G1, G2; lia|]. cbn [obind].
  eexists _, _. split; [done|]. cbn [app] in *. unfold missing_tables. fold (indices v) in *.
  rewrite (M1 [index_at v 39; index_at v 30]) in N2 by done.
  rewrite (M2 (indices v)), (M1 (indices v)) in N3 by done. lia.
Qed.

(** When the tables exist already nothing is taken. *)
Lemma walk_present s root v flags pt : wf s root -> user_va v -> tables s root (indices v) = Some pt ->
  exists s', walk s root v true flags = Ret (s', Some (pt + 8 * index_at v 12)) /\ grown 0 s s' root /\
    (forall q, upath q -> tables s' root q = tables s root q).
Proof.
  intros W Hv Ht. pose proof (upath_indices v Hv) as U3.
  destruct (upath_snoc [index_at v 39; index_at v 30] _ U3) as (U2 & _).
  destruct (upath_snoc [index_at v 39] _ U2) as (U1 & _). unfold walk. pose proof Ht as Ht3.
  change (tree (entry s) root ([index_at v 39; index_at v 30] ++ [index_at v 21]) = Some pt) in Ht. rewrite tree_snoc in Ht.
  apply follow_Some in Ht as (t2 & Ht2 & _). pose proof Ht2 as Ht1.
  change (tree (entry s) root ([index_at v 39] ++ [index_at v 30]) = Some t2) in Ht1. rewrite tree_snoc in Ht1.
  apply follow_Some in Ht1 as (t1 & Ht1 & _).
  destruct (next_table_present s root [] root (index_at v 39) t1 flags) as (s1 & -> & G1 & T1); auto.
  cbn [then_table obind].
  destruct (next_table_present s1 root [index_at v 39] t1 (index_at v 30) t2 flags) as (s2 & -> & G2 & T2); auto;
    [apply G1|by rewrite T1|by rewrite T1|]. cbn [then_table obind].
  destruct (next_table_present s2 root [index_at v 39; index_at v 30] t2 (index_at v 21) pt flags) as (s3 & -> & G3 & T3); auto;
    [apply G2|by rewrite T2, T1|by rewrite T2, T1|]. cbn [obind].
  exists s3. split; [done|]. split; [|intros; by rewrite T3, T2, T1].
  apply (grown_trans 0 0 _ s1); [done|]. by apply (grown_trans 0 0 _ s2).
Qed.

(** [walk] without creation finds what [walk_pte] says and changes nothing. *)
Lemma walk_lookup s root v : walk s root v false 0 = Ret (s, walk_pte s root v).
Proof.
  assert (forall s t i, next_table s t i false 0 = Ret (s, find_table s (Some t) i)) as E.
  { intros s' t i. unfold next_table, find_table. by destruct (has _ _). }
  unfold walk, walk_pte, then_table. rewrite E. cbn [obind].
  destruct (find_table s (Some root) _) as [t|]; [rewrite E|done]. cbn [obind].
  destruct (find_table s (Some t) _) as [t'|]; [rewrite E|done]. cbn [obind]. by destruct (find_table s (Some t') _).
Qed.

(** ** Writing a leaf entry *)
Record leaf_set s s' root v (e : Z) : Prop := {
  ls_wf : wf s' root;
  ls_tables : forall q, upath q -> tables s' root q = tables s root q;
  ls_mapped : forall v', user_va v' -> mapped s' root v' = if v / 4096 =? v' / 4096 then present e else mapped s root v';
  ls_rest : s' = with_pm (pm s') s;
  ls_pm : bitmap (pm s') = bitmap (pm s) /\ refs (pm s') = refs (pm s) /\ total_pages (pm s') = total_pages (pm s) /\
    used_pages (pm s') = used_pages (pm s) /\ oom_force (pm s') = oom_force (pm s);
  ls_mem : forall i k, 0 <= k < PAGE_SIZE -> ~ is_table s root (i * PAGE_SIZE) ->
    ram s' (i * PAGE_SIZE + k) = ram s (i * PAGE_SIZE + k) }.
Lemma set_leaf s root v pt e : wf s root -> user_va v -> tables s root (indices v) = Some pt -> word64 e ->
  leaf_set s (set_word s (pt + 8 * index_at v 12) e) root v e.
Proof.
  intros W Hv Ht He. pose proof (upath_indices v Hv) as U. pose proof (index_range v 12) as Hi.
  change (set_word s (pt + 8 * index_at v 12) e) with (set_entry s pt (index_at v 12) e).
  set (s' := set_entry s pt (index_at v 12) e).
  assert (forall q t, upath q -> tables s root q = Some t -> owned (pm s) t) as Hown
    by (intros; apply (wf_own _ _ W); eexists; eauto).
  destruct (owned_aligned _ _ (Hown _ _ U Ht)) as (Hta & _ & _).
  assert (forall q t' j, upath q -> tables s root q = Some t' -> 0 <= j < 512 -> (t', j) <> (pt, index_at v 12) ->
            entry s' t' j = entry s t' j) as Hne.
  { intros q t' j Hq Ht' Hj ?. apply entry_set_ne; auto. by apply (owned_aligned _ _ (Hown q t' Hq Ht')). }
  assert (forall q, upath q -> tables s' root q = tables s root q) as Htree.
  { apply tree_same. intros q t' j Hq Ht'. destruct (upath_snoc _ _ Hq) as (Hq' & Hj & Hl). rewrite (Hne q); auto.
    intros [= -> _]. pose proof (wf_inj _ _ W _ _ _ U Hq' Ht Ht') as E. rewrite <- E in Hl. cbn in Hl. lia. }
  split; [|done| |done|done|].
  - split; [apply set_word_inv, W|apply W|apply byte_mem_st64, W| |].
    + intros x (q & Hq & Hx). apply (wf_own _ _ W). exists q. by rewrite <- Htree.
    + intros q r x Hq Hr. fold (tables s' root q) (tables s' root r). rewrite !Htree by done. by apply (wf_inj _ _ W).
  - intros v' Hv'. pose proof (upath_indices v' Hv') as U'. rewrite !mapped_leaf. unfold leaf.
    fold (tables s' root (indices v')) (tables s root (indices v')). rewrite Htree by done.
    destruct (Z.eqb_spec (v / 4096) (v' / 4096)) as [E|N].
    + apply indices_page in E as [<- <-]; [|done..]. rewrite Ht. unfold s'. by rewrite entry_set_eq.
    + destruct (tables s root (indices v')) as [pt'|] eqn:Ept; [|done]. rewrite (Hne (indices v')); auto using index_range.
      intros [= -> E]. apply N, indices_page; auto. split; [|done]. by apply (wf_inj _ _ W _ _ pt).
  - intros i k Hk Hn. apply ram_set_entry; auto. intros ->. apply Hn. by exists (indices v).
Qed.

(** ** Changes that leave the tables alone *)
Lemma wf_frame s s' root : wf s root -> pmm_inv (pm s') -> total_pages (pm s') = total_pages (pm s) -> byte_mem (ram s') ->
  (forall t, is_table s root t -> owned (pm s') t /\ forall i, 0 <= i < 512 -> entry s' t i = entry s t i) ->
  wf s' root /\ (forall q, upath q -> tables s' root q = tables s root q) /\
  (forall v, user_va v -> mapped s' root v = mapped s root v).
Proof.
  intros W Hinv Htot Hby Hkeep.
  assert (forall q, upath q -> tables s' root q = tables s root q) as Htree.
  { apply tree_same. intros q t j Hq Ht. destruct (upath_snoc _ _ Hq) as (Hq' & Hj & _).
    destruct (Hkeep t) as [_ E]; [by exists q|]. by rewrite E. }
  splits; auto.
  - split; auto; [rewrite Htot; apply W| |].
    + intros x (q & Hq & Hx). apply Hkeep. exists q. by rewrite <- Htree.
    + intros q r x Hq Hr. fold (tables s' root q) (tables s' root r). rewrite !Htree by done. by apply (wf_inj _ _ W).
  - intros v Hv. rewrite !mapped_leaf. unfold leaf. fold (tables s' root (indices v)) (tables s root (indices v)).
    pose proof (upath_indices v Hv) as U. rewrite Htree by done. destruct (tables s root (indices v)) as [pt|] eqn:Ept; [|done].
    destruct (Hkeep pt) as [_ E]; [by exists (indices v)|]. by rewrite E by apply index_range.
Qed.
Lemma unref_keeps p x : pmm_inv p -> 0 <= x ->
  total_pages (pmm_unref_page p x) = total_pages p /\ oom_force (pmm_unref_page p x) = oom_force p /\
  used_pages (pmm_unref_page p x) <= used_pages p /\
  (forall j, 0 <= j -> j <> x / PAGE_SIZE -> bit_tst (bitmap (pmm_unref_page p x)) j = bit_tst (bitmap p) j) /\
  (forall a, a < x \/ x + PAGE_SIZE <= a -> mem (pmm_unref_page p x) a = mem p a) /\
  (byte_mem (mem p) -> byte_mem (mem (pmm_unref_page p x))).
Proof.
  intros Hinv Hx. unfold pmm_unref_page. case_ifZ; [done|]. zbool.
  case_ifZ; [done|]. cbn [set_refs refs bitmap]. case_ifZ; [|done]. cbn [total_pages oom_force used_pages bitmap mem set_refs].
  splits; try done; try lia.
  - intros j Hj Hne. rewrite bit_clr_tst; [|apply inv_cover; auto; split; [by apply page_index_nonneg|lia]|lia].
    by rewrite (proj2 (Z.eqb_neq _ _)) by auto.
  - intros a Ha. unfold mem_set. destruct (Z.leb_spec x a), (Z.ltb_spec a (x + PAGE_SIZE)); try done; lia.
  - apply byte_mem_set.
Qed.
Lemma wf_unref s root x : wf s root -> 1048576 <= x -> x mod PAGE_SIZE = 0 -> ~ is_table s root x ->
  wf (unref_page x s) root /\ (forall q, upath q -> tables (unref_page x s) root q = tables s root q) /\
  (forall v, user_va v -> mapped (unref_page x s) root v = mapped s root v).
Proof.
  intros W Hx Hxa Hn. destruct (unref_keeps (pm s) x) as (Ht & _ & _ & Hb & Hm & Hby); [apply W|lia|].
  apply Z.mod_divide in Hxa as [k ->]; [|done]. rewrite page_index in Hb.
  apply wf_frame; auto.
  - apply unref_page_inv; [apply W|]. rewrite page_index. unfold PAGE_SIZE in *. lia.
  - apply Hby, W.
  - intros t Hta. destruct (wf_own _ _ W t Hta) as (i & -> & Hi & Hbt).
    assert (i <> k) as Hik by (intros ->; done). split.
    + exists i. cbn. rewrite Ht, Hb by lia. done.
    + intros j Hj. unfold entry, word, ram. cbn. apply ld64_ext. intros a Ha. apply Hm. unfold PAGE_SIZE in *. lia.
Qed.
Lemma translate_mapped s root v : vmm_translate_in s root v =
  match mapped s root v with Some e => Z.lor (addr_of e) (Z.land v 4095) | None => 0 end.
Proof. unfold vmm_translate_in, mapped, present. destruct (walk_pte s root v); [|done]. by destruct (has _ _). Qed.
Lemma mapped_Some s root v e : mapped s root v = Some e ->
  exists pt, tables s root (indices v) = Some pt /\ walk_pte s root v = Some (pt + 8 * index_at v 12) /\
    e = word s (pt + 8 * index_at v 12) /\ has e PTE_PRESENT = true.
Proof.
  unfold mapped. rewrite walk_tables. destruct (tables _ _ _) as [pt|]; [|done]. unfold present.
  destruct (has _ _) eqn:Eh; [|done]. intros [= <-]. eauto.
Qed.
Lemma word64_land x y : word64 x -> word64 y -> word64 (Z.land x y).
Proof.
  intros Hx Hy. unfold word64 in *. assert (0 <= Z.land x y) by (apply Z.land_nonneg; lia). split; [done|].
  apply (bits_bound _ 64); [lia|done|]. intros i Hi. rewrite Z.land_spec, (testbit_small x 64) by lia. done.
Qed.
Definition leaf_entry (p flags : Z) : Z := Z.lor (Z.lor (frame_bits p) flags) PTE_PRESENT.
Lemma leaf_entry_spec p flags : word64 p -> word64 flags ->
  word64 (leaf_entry p flags) /\ has (leaf_entry p flags) PTE_PRESENT = true.
Proof.
  intros. unfold leaf_entry. split; [repeat apply word64_lor; try done; by apply word64_land|].
  rewrite !has_lor. apply orb_true_r.
Qed.
Lemma put_pte_spec s root v flags e : wf s root -> user_va v -> word64 e -> oom_force (pm s) = false ->
  used_pages (pm s) + 3 <= total_pages (pm s) ->
  exists s1 s', put_pte s root v flags e = Ret s' /\ grown 3 s s1 root /\ leaf_set s1 s' root v e.
Proof.
  intros W Hv He Ho Hu. unfold put_pte. destruct (walk_spec s root v flags) as (s1 & pt & -> & G & T); auto. cbn [obind].
  eexists _, _. split; [done|]. split; [exact G|]. apply set_leaf; auto. apply G.
Qed.
Lemma put_pte_present s root v flags e pt : wf s root -> user_va v -> word64 e -> tables s root (indices v) = Some pt ->
  exists s1 s', put_pte s root v flags e = Ret s' /\ grown 0 s s1 root /\ leaf_set s1 s' root v e.
Proof.
  intros W Hv He Ht. unfold put_pte. destruct (walk_present s root v flags pt) as (s1 & -> & G & T); auto. cbn [obind].
  eexists _, _. split; [done|]. split; [exact G|]. apply set_leaf; auto; [apply G|rewrite T; [done|by apply upath_indices]].
Qed.
(** Both at once: what storing an entry, tables created as needed, does. *)
Record stored (n : Z) s s' root v e : Prop := {
  st_wf : wf s' root;
  st_mapped : forall v', user_va v' -> mapped s' root v' = if v / 4096 =? v' / 4096 then present e else mapped s root v';
  st_tree : forall p t, upath p -> tables s root p = Some t -> tables s' root p = Some t;
  st_old : forall t, is_table s' root t -> is_table s root t \/ bit_tst (bitmap (pm s)) (t / PAGE_SIZE) = false;
  st_rest : s' = with_pm (pm s') s;
  st_pm : total_pages (pm s') = total_pages (pm s) /\ oom_force (pm s') = oom_force (pm s) /\
    used_pages (pm s') <= used_pages (pm s) + n;
  st_bits : forall i, 0 <= i -> bit_tst (bitmap (pm s)) i = true ->
    bit_tst (bitmap (pm s')) i = true /\ (refs (pm s')).[i] = (refs (pm s)).[i];
  st_mem : forall i k, 0 <= k < PAGE_SIZE -> 0 <= i -> bit_tst (bitmap (pm s)) i = true ->
    ~ is_table s root (i * PAGE_SIZE) -> ram s' (i * PAGE_SIZE + k) = ram s (i * PAGE_SIZE + k) }.
Lemma grown_stored n s s1 s' root v e : grown n s s1 root -> leaf_set s1 s' root v e -> stored n s s' root v e.
Proof.
  intros [] [W T M R (B1 & B2 & B3 & B4 & B5) Mem]. split; auto.
  - intros v' Hv'. rewrite M, g_mapped0 by done. done.
  - intros p t Hp Ht. rewrite T by done. by apply g_tree0.
  - intros t (q & Hq & Hx). apply g_old0. exists q. by rewrite <- T.
  - rewrite R, g_rest0. done.
  - splits; (congruence || lia).
  - intros i Hi Hb. rewrite B1, B2. by apply g_bits0.
  - intros i k Hk Hi Hb Hn. rewrite Mem; auto. intros Ht. destruct (g_old0 _ Ht) as [?|Hf]; [done|].
    rewrite page_index in Hf. congruence.
Qed.
(** A second tree that shares no table with the first is not touched. *)
Lemma stored_apart n s s' root v e other : stored n s s' root v e -> wf s other ->
  (forall t, is_table s other t -> ~ is_table s root t) ->
  wf s' other /\ (forall q, upath q -> tables s' other q = tables s other q) /\
  (forall v, user_va v -> mapped s' other v = mapped s other v) /\ (forall t, is_table s' other t -> ~ is_table s' root t).
Proof.
  intros [W M T O R (P1 & P2 & P3) B Mem] Wo Dis.
  destruct (wf_frame s s' other) as (W' & T' & M'); [done|apply W|exact P1|apply W| |].
  - intros t Ht. destruct (wf_own _ _ Wo t Ht) as (i & -> & Hi & Hb). destruct (B i) as [Hb' _]; auto; [lia|]. split.
    + exists i. rewrite P1. done.
    + intros j Hj. apply ld64_ext. intros a Ha. replace a with (i * PAGE_SIZE + (a - i * PAGE_SIZE)) by lia.
      apply Mem; auto; unfold PAGE_SIZE in *; lia.
  - splits; auto. intros t (q & Hq & Ht) Hr. rewrite T' in Ht by done. assert (is_table s other t) as Hto by by exists q.
    destruct (O _ Hr) as [?|Hf]; [by apply (Dis t)|]. destruct (wf_own _ _ Wo t Hto) as (i & -> & Hi & Hb).
    rewrite page_index in Hf. congruence.
Qed.

Lemma map_spec s root v p flags : wf s root -> user_va v -> word64 p -> word64 flags -> oom_force (pm s) = false ->
  used_pages (pm s) + 3 <= total_pages (pm s) ->
  exists s', vmm_map_in s root v p flags = Ret s' /\ stored 3 s s' root v (leaf_entry p flags).
Proof.
  intros W Hv Hp Hf Ho Hu. destruct (leaf_entry_spec p flags) as (He & _); auto.
  destruct (put_pte_spec s root v flags (leaf_entry p flags)) as (s1 & s' & E & G & L); auto.
  exists s'. split; [exact E|]. by apply (grown_stored _ _ s1).
Qed.
Lemma map_used s root v p flags s' : wf s root -> user_va v -> oom_force (pm s) = false ->
  used_pages (pm s) + 3 <= total_pages (pm s) -> vmm_map_in s root v p flags = Ret s' ->
  used_pages (pm s') = used_pages (pm s) + missing_tables s root v.
Proof.
  intros W Hv Ho Hu E. unfold vmm_map_in, put_pte in E.
  destruct (walk_used s root v flags) as (s1 & a & Ew & N); auto. rewrite Ew in E. by injection E as <-.
Qed.
Lemma present_leaf p flags : word64 p -> word64 flags -> present (leaf_entry p flags) = Some (leaf_entry p flags).
Proof. intros. unfold present. destruct (leaf_entry_spec p flags) as (_ & ->); auto. Qed.

(** ** Page alignment *)
Lemma addr_of_aligned e : addr_of e mod PAGE_SIZE = 0.
Proof.
  rewrite addr_of_eq. unfold PAGE_SIZE. change 4096 with (2 ^ 12).
  rewrite <- Z.land_ones, <- Z.land_assoc by lia. apply Z.land_0_r.
Qed.
Lemma align_down x : word64 x -> PAGE_ALIGN_DOWN x = x / 4096 * 4096.
Proof.
  intros Hx. unfold PAGE_ALIGN_DOWN. change (u64 (Z.lnot 4095)) with (Z.land (Z.ones 64) (Z.lnot (Z.ones 12))).
  rewrite Z.land_assoc, Z.land_ones, Z.mod_small, land_lnot_mask by (unfold word64 in Hx; lia). done.
Qed.
Lemma user_word v : user_va v -> word64 v.
Proof. unfold user_va, word64. lia. Qed.
Lemma align_user v : user_va v -> user_va (PAGE_ALIGN_DOWN v) /\ PAGE_ALIGN_DOWN v / 4096 = v / 4096.
Proof.
  intros Hv. rewrite align_down by by apply user_word. rewrite Z.div_mul by done. split; [|done].
  unfold user_va in *. pose proof (Z.div_pos v 4096). pose proof (Z.mul_div_le v 4096). lia.
Qed.
Lemma mapped_page s root v v' : user_va v -> user_va v' -> v / 4096 = v' / 4096 -> mapped s root v = mapped s root v'.
Proof.
  intros Hv Hv' E. apply indices_page in E as [E1 E2]; auto. rewrite !mapped_leaf. unfold leaf. by rewrite E1, E2.
Qed.
Lemma walk_page s root v v' : user_va v -> user_va v' -> v / 4096 = v' / 4096 -> walk_pte s root v = walk_pte s root v'.
Proof. intros Hv Hv' E. apply indices_page in E as [E1 E2]; auto. rewrite !walk_tables. by rewrite E1, E2. Qed.
End Spec.
