(* ===== verification/VmmProps.v ===== *)
(** * Properties of virtual memory

    The search for free room, swapping, copy-on-write sharing and the region
    list of a user task, on top of the page-table lemmas of Paging; then the
    properties of the component and their witnesses on a machine of 1400
    frames. *)
From Stdlib Require Import ZArith Lia Bool.
From stdpp Require Import base list numbers option gmap sets.
From S2P Require Import Prelude Pmm Vmm Paging.
#[local] Set Default Goal Selector "!".
Open Scope Z_scope.

Section Spec.
Context `{D : SwapDisk} `{K : !OomKiller}.
Implicit Types s : vmm.

(** * Finding room *)
Lemma overlaps_spec a b r : overlaps a b r = true <-> a < r_end r /\ start r < b.
Proof. unfold overlaps. rewrite andb_true_iff, !Z.ltb_lt. done. Qed.
Lemma first_overlap_Some rs a b r : first_overlap rs a b = Some r -> r ∈ rs /\ overlaps a b r = true.
Proof.
  induction rs as [|r' rs IH]; [done|]. cbn. destruct (overlaps a b r') eqn:Eo.
  - intros [= <-]. split; [left|done].
  - intros [? ?]%IH. split; [by right|done].
Qed.
Lemma first_overlap_None rs a b r : first_overlap rs a b = None -> r ∈ rs -> overlaps a b r = false.
Proof.
  induction rs as [|r' rs IH]; intros Hf Hr; [by apply elem_of_nil in Hr|]. cbn in Hf.
  destruct (overlaps a b r') eqn:Eo; [done|]. apply elem_of_cons in Hr as [-> | Hr]; auto.
Qed.
(** The regions that still end above the candidate: the measure of the loop. *)
Definition ahead (rs : list region) (a : Z) : nat := length (List.filter (fun r => a <? r_end r) rs).
Lemma ahead_mono rs a b : a <= b -> (ahead rs b <= ahead rs a)%nat.
Proof.
  intros Hab. unfold ahead. induction rs as [|r rs IH]; [done|]. cbn.
  destruct (Z.ltb_spec a (r_end r)), (Z.ltb_spec b (r_end r)); cbn; lia.
Qed.
Lemma ahead_skip rs a r : r ∈ rs -> a < r_end r -> (ahead rs (r_end r) < ahead rs a)%nat.
Proof.
  intros Hr Ha. induction rs as [|r' rs IH]; [by apply elem_of_nil in Hr|]. unfold ahead in *. cbn.
  apply elem_of_cons in Hr as [-> | Hr].
  - rewrite (proj2 (Z.ltb_lt a (r_end r'))), Z.ltb_irrefl by done. cbn.
    pose proof (ahead_mono rs a (r_end r')). unfold ahead in *. lia.
  - specialize (IH Hr). destruct (Z.ltb_spec a (r_end r')), (Z.ltb_spec (r_end r) (r_end r')); cbn; lia.
Qed.
Lemma ahead_length rs a : (ahead rs a <= length rs)%nat.
Proof. unfold ahead. induction rs as [|r rs IH]; [done|]. cbn. destruct (_ <? _); cbn; lia. Qed.

(** What the search promises: the first address from [a] on at which [need]
    bytes below [limit] meet no region, or 0. *)
Definition first_fit (rs : list region) (a need limit x : Z) : Prop :=
  (x <> 0 -> a <= x /\ x + need <= limit /\ forall r, r ∈ rs -> overlaps x (x + need) r = false) /\
  (forall y, a <= y -> (x = 0 \/ y < x) -> y + need <= limit -> exists r, r ∈ rs /\ overlaps y (y + need) r = true).
Lemma find_free_from_fit fuel rs a need limit :
  (ahead rs a < fuel)%nat -> 0 <= need < 2 ^ 62 -> 0 < a < 2 ^ 63 -> (forall r, r ∈ rs -> r_end r < 2 ^ 63) ->
  exists x, find_free_from fuel rs a need limit = Some x /\ first_fit rs a need limit x /\
    (x = 0 \/ x = a \/ exists r, r ∈ rs /\ x = r_end r).
Proof.
  revert a. induction fuel as [|fuel IH]; intros a Hfuel Hneed Ha Hrs; [lia|]. cbn [find_free_from].
  rewrite (u64_small (a + need)) by lia. destruct (Z.ltb_spec limit (a + need)).
  { exists 0. split; [done|]. split; [|by left]. split; [done|]. intros. lia. }
  destruct (first_overlap rs a (a + need)) as [r|] eqn:Ef.
  - apply first_overlap_Some in Ef as [Hr Ho]. apply overlaps_spec in Ho as Ho'.
    pose proof (ahead_skip rs a r Hr). pose proof (Hrs r Hr).
    destruct (IH (r_end r)) as (x & -> & [F1 F2] & Hx); auto; [lia|lia|].
    exists x. split; [done|]. split; [split|].
    + intros N. destruct (F1 N) as (? & ? & ?). splits; auto. lia.
    + intros y Hy Hyx Hl. destruct (Z.lt_ge_cases y (r_end r)); [|by apply F2].
      exists r. split; [done|]. apply overlaps_spec. lia.
    + destruct Hx as [?|[->|?]]; auto. right. right. by exists r.
  - exists a. split; [done|]. split; [|auto]. split.
    + intros _. splits; [lia|lia|]. intros r Hr. by apply (first_overlap_None rs).
    + intros y Hy [?|?]; lia.
Qed.

(** * Changing one data frame *)
Lemma in_use p i : bit_tst (bitmap p) i = true -> forall q j, allocated p q j 1 -> i <> j.
Proof. intros Hb q j A ->. rewrite (al_free _ _ _ _ A j) in Hb; [done|lia]. Qed.
(** Writing inside frame [k], which is no table. *)
Lemma wf_write s root k m : wf s root -> byte_mem m -> ~ is_table s root (k * PAGE_SIZE) ->
  (forall a, a < k * PAGE_SIZE \/ (k + 1) * PAGE_SIZE <= a -> m a = ram s a) ->
  wf (with_mem m s) root /\ (forall q, upath q -> tables (with_mem m s) root q = tables s root q) /\
  (forall v, user_va v -> mapped (with_mem m s) root v = mapped s root v).
Proof.
  intros W Hby Hn Hm. apply wf_frame; auto; [destruct W as [[] _ _ _ _]; by split|].
  intros t Ht. split; [by apply (wf_own _ _ W)|]. intros j Hj. destruct (wf_own _ _ W t Ht) as (i & -> & Hi & _).
  assert (i <> k) by congruence. apply ld64_ext. intros a Ha. apply Hm. unfold PAGE_SIZE in *. lia.
Qed.
Lemma copy_page_at m dst src k : 0 <= k < PAGE_SIZE -> copy_page m dst src (dst + k) = m (src + k).
Proof.
  intros. unfold copy_page. rewrite (proj2 (Z.leb_le _ _)), (proj2 (Z.ltb_lt _ _)) by lia. cbn. f_equal. lia.
Qed.
Lemma copy_page_out m dst src a : a < dst \/ dst + PAGE_SIZE <= a -> copy_page m dst src a = m a.
Proof. intros. unfold copy_page. destruct (Z.leb_spec dst a), (Z.ltb_spec a (dst + PAGE_SIZE)); try done; lia. Qed.
Lemma byte_mem_copy m dst src : byte_mem m -> byte_mem (copy_page m dst src).
Proof. intros B x. unfold copy_page. destruct (_ && _); apply B. Qed.
Lemma page_bytes_ext m m' a a' : (forall k, 0 <= k < PAGE_SIZE -> m' (a' + k) = m (a + k)) -> page_bytes m' a' = page_bytes m a.
Proof. intros E. apply map_ext_in. intros k Hk. apply list_elem_of_In, elem_of_seqZ in Hk. apply E. lia. Qed.

(** Taking a frame for data. *)
Record taken s s' root f : Prop := {
  tk_range : 256 <= f < total_pages (pm s);
  tk_wf : wf s' root;
  tk_rest : s' = with_pm (pm s') s;
  tk_alloc : allocated (pm s) (pm s') f 1;
  tk_oom : oom_force (pm s') = oom_force (pm s);
  tk_tables : forall q, upath q -> tables s' root q = tables s root q;
  tk_mapped : forall v, user_va v -> mapped s' root v = mapped s root v;
  tk_fresh : ~ is_table s' root (f * PAGE_SIZE) }.
Lemma take_frame s root : wf s root -> oom_force (pm s) = false -> used_pages (pm s) < total_pages (pm s) ->
  exists s' f, alloc_page s = Ret (s', f * PAGE_SIZE) /\ taken s s' root f.
Proof.
  intros W Ho Hu. destruct (alloc_page_free s) as (p & f & E & Hf & A & Hinv & Ho'); auto; [apply W|].
  destruct (wf_frame s (with_pm p s) root) as (W' & T & M); auto.
  - apply (al_total _ _ _ _ A).
  - intros a. change (byte (mem p a)). rewrite (al_mem _ _ _ _ A). destruct (_ && _); [done|apply (wf_bytes _ _ W)].
  - intros t Ht. pose proof (wf_own _ _ W t Ht) as Hown. split; [|intros; by apply (old_entry _ _ f)].
    destruct Hown as (k & -> & Hk & Hb). exists k. cbn. rewrite (al_total _ _ _ _ A), (al_bits _ _ _ _ A), Hb, orb_true_r by lia. done.
  - exists (with_pm p s), f. split; [done|]. split; auto; [cbn; congruence|].
    intros (q & Hq & Ht). apply (fresh_not_owned s p f A), (wf_own _ _ W). exists q. by rewrite <- T.
Qed.
Lemma taken_mem s s' root f i k : taken s s' root f -> bit_tst (bitmap (pm s)) i = true -> 0 <= k < PAGE_SIZE ->
  ram s' (i * PAGE_SIZE + k) = ram s (i * PAGE_SIZE + k).
Proof.
  intros T Hb Hk. unfold ram. rewrite (al_mem _ _ _ _ (tk_alloc _ _ _ _ T)).
  pose proof (in_use _ _ Hb _ _ (tk_alloc _ _ _ _ T)).
  destruct (Z.leb_spec (f * PAGE_SIZE) (i * PAGE_SIZE + k)), (Z.ltb_spec (i * PAGE_SIZE + k) ((f + 1) * PAGE_SIZE)); try done.
  unfold PAGE_SIZE in *. lia.
Qed.
Lemma taken_used s s' root f i : taken s s' root f -> 0 <= i -> bit_tst (bitmap (pm s)) i = true ->
  bit_tst (bitmap (pm s')) i = true /\ (refs (pm s')).[i] = (refs (pm s)).[i].
Proof.
  intros T Hi Hb. pose proof (tk_alloc _ _ _ _ T) as A. pose proof (in_use _ _ Hb _ _ A).
  rewrite (al_bits _ _ _ _ A), (al_refs _ _ _ _ A), Hb, orb_true_r by done. split; [done|].
  destruct (Z.leb_spec f i), (Z.ltb_spec i (f + 1)); cbn; try done. lia.
Qed.

(** * Swapping *)
Definition swap_entry (slot : Z) : Z := Z.lor (Z.shiftl slot 12) PTE_SWAP.
Lemma swap_entry_spec slot : 0 <= slot < 1024 ->
  has (swap_entry slot) PTE_PRESENT = false /\ has (swap_entry slot) PTE_SWAP = true /\
  Z.land (Z.shiftr (swap_entry slot) 12) 1048575 = slot /\ word64 (swap_entry slot).
Proof.
  intros Hs. assert (forallb (fun x => let e := swap_entry x in negb (has e PTE_PRESENT) && has e PTE_SWAP
    && (Z.land (Z.shiftr e 12) 1048575 =? x) && (0 <=? e) && (e <? 18446744073709551616)) (seqZ 0 1024) = true) as F
    by (vm_compute; reflexivity).
  rewrite forallb_forall in F. specialize (F slot). cbn zeta in F. rewrite !andb_true_iff, negb_true_iff, Z.eqb_eq in F.
  destruct F as ((((F1 & F2) & F3) & F4) & F5); [apply list_elem_of_In, elem_of_seqZ; lia|]. unfold word64. splits; auto; lia.
Qed.
(** The RAM pool: 1024 frames in use from [b] on, none of them a table. *)
Record pool_at s root (b : Z) : Prop := {
  pool_addr : swap_pool s = b * PAGE_SIZE;
  pool_pos : 256 <= b;
  pool_bits : forall k, 0 <= k < SWAP_SLOTS -> bit_tst (bitmap (pm s)) (b + k) = true;
  pool_apart : forall k, 0 <= k < SWAP_SLOTS -> ~ is_table s root ((b + k) * PAGE_SIZE) }.
(** [va]'s page is mapped by [e] to data frame [i], neither table nor pool. *)
Record data_page s root (b va e i : Z) : Prop := {
  dp_mapped : mapped s root va = Some e;
  dp_noswap : has e PTE_SWAP = false;
  dp_frame : addr_of e = i * PAGE_SIZE;
  dp_range : 256 <= i;
  dp_table : ~ is_table s root (i * PAGE_SIZE);
  dp_pool : i < b \/ b + SWAP_SLOTS <= i }.

Record swapped_out s s1 root va i slot : Prop := {
  so_wf : wf s1 root;
  so_entry : exists pt, tables s1 root (indices va) = Some pt /\ word s1 (pt + 8 * index_at va 12) = swap_entry slot;
  so_mapped : forall v, user_va v -> mapped s1 root v = if va / 4096 =? v / 4096 then None else mapped s root v;
  so_tables : forall q, upath q -> tables s1 root q = tables s root q;
  so_slot : forall k, 0 <= k < PAGE_SIZE -> ram s1 (slot_addr s slot + k) = ram s (i * PAGE_SIZE + k);
  so_rest : s1 = with_pm (pm s1) (with_swap_used (bit_set (swap_used s) slot) s);
  so_total : total_pages (pm s1) = total_pages (pm s);
  so_oom : oom_force (pm s1) = oom_force (pm s);
  so_used : used_pages (pm s1) <= used_pages (pm s);
  so_bits : forall j, 0 <= j -> j <> i -> bit_tst (bitmap (pm s1)) j = bit_tst (bitmap (pm s)) j }.

Lemma swap_out_spec s b va e i slot : let root := cur_pml4 s in
  wf s root -> pool_at s root b -> user_va va -> va mod PAGE_SIZE = 0 -> data_page s root b va e i ->
  scan_free (swap_used s) (Z.to_nat SWAP_SLOTS) 0 = Some slot ->
  exists s1, vmm_swap_out s va = (s1, slot) /\ swapped_out s s1 root va i slot.
Proof.
  intros root W [P1 P2 P3 P4] Hv Hva [D1 D2 D3 D4 D5 D6] Hsc.
  assert (0 <= slot < 1024) as Hslot by (apply scan_free_Some in Hsc; unfold SWAP_SLOTS in Hsc; lia).
  destruct (swap_entry_spec slot Hslot) as (E1 & E2 & E3 & E4).
  assert (PAGE_ALIGN_DOWN va = va) as Hal.
  { rewrite align_down by by apply user_word. unfold PAGE_SIZE in Hva. pose proof (Z_div_mod_eq_full va 4096). lia. }
  destruct (mapped_Some _ _ _ _ D1) as (pt & T & Wk & Ee & Eh).
  unfold vmm_swap_out. rewrite Hal. fold root. rewrite Wk, <- Ee, Eh, D2. cbn [negb orb].
  unfold swap_alloc_slot. rewrite Hsc. set (s0 := with_swap_used (bit_set (swap_used s) slot) s).
  rewrite (proj2 (Z.ltb_ge slot 0)) by lia. unfold write_slot, slot_is_disk.
  rewrite (proj2 (Z.leb_gt SWAP_DISK_SLOT_BASE slot)), andb_false_r by (unfold SWAP_DISK_SLOT_BASE, SWAP_SLOTS; lia).
  change (word s0 (pt + 8 * index_at va 12)) with (word s (pt + 8 * index_at va 12)). rewrite <- Ee, D3.
  change (slot_addr s0 slot) with (slot_addr s slot). change (ram s0) with (ram s).
  assert (slot_addr s slot = (b + slot) * PAGE_SIZE) as Hsa by (unfold slot_addr; rewrite P1; lia).
  assert (wf s0 root) as W0 by (destruct W; by split).
  destruct (wf_write s0 root (b + slot) (copy_page (ram s) (slot_addr s slot) (i * PAGE_SIZE))) as (W1 & T1 & M1); auto.
  { apply byte_mem_copy, W. } { by apply (P4 slot). }
  { intros a Ha. rewrite Hsa. apply copy_page_out. unfold PAGE_SIZE in *. lia. }
  set (s1 := with_mem _ s0) in *.
  assert (~ is_table s1 root (i * PAGE_SIZE)) as Hnt by (intros (q & Hq & Ht); apply D5; exists q; rewrite T1 in Ht by done; by split).
  destruct (wf_unref s1 root (i * PAGE_SIZE)) as (W2 & T2 & M2); auto; [unfold PAGE_SIZE; lia|by apply Z.mod_mul|].
  destruct (unref_keeps (pm s1) (i * PAGE_SIZE)) as (U1 & U2 & U3 & U4 & U5 & _); [apply W1|unfold PAGE_SIZE; lia|].
  rewrite page_index in U4.
  set (s2 := unref_page (i * PAGE_SIZE) s1) in *.
  assert (tables s2 root (indices va) = Some pt) as T3.
  { rewrite T2, T1 by by apply upath_indices. exact T. }
  destruct (set_leaf s2 root va pt (swap_entry slot)) as [W4 T4 M4 R4 (B1 & B2 & B3 & B4 & B5) X4]; auto.
  eexists. split; [reflexivity|]. fold (swap_entry slot). set (s3 := set_word s2 _ _) in *.
  split; [done|..|exact (eq_trans B3 U1)|exact (eq_trans B5 U2)| |].
  - exists pt. rewrite T4 by by apply upath_indices. split; [done|]. by apply ld64_st64_eq.
  - intros v Hv'. rewrite M4, M2, M1 by done. unfold present. rewrite E1. by destruct (_ =? _).
  - intros q Hq. rewrite T4, T2, T1 by done. done.
  - intros k Hk. rewrite Hsa. rewrite X4; auto.
    + change (mem (pmm_unref_page (pm s1) (i * PAGE_SIZE)) ((b + slot) * PAGE_SIZE + k) = ram s (i * PAGE_SIZE + k)).
      rewrite U5; [|unfold SWAP_SLOTS, PAGE_SIZE in *; lia]. rewrite <- Hsa. by apply copy_page_at.
    + intros (q & Hq & Ht). apply (P4 slot); [done|]. exists q. rewrite T2, T1 in Ht by done. by split.
  - done.
  - rewrite B4. exact U3.
  - intros j Hj Hne. rewrite B1. by apply U4.
Qed.

(** A fault on a page whose entry is a swap slot brings it back in. *)
Definition fault_flags s va : Z := match find_region s va with Some r => rflags r | None => Z.lor PTE_RW PTE_US end.
Record swapped_in s s' root va f slot : Prop := {
  si_range : 256 <= f < total_pages (pm s);
  si_wf : wf s' root;
  si_mapped : forall v, user_va v ->
    mapped s' root v = if va / 4096 =? v / 4096 then Some (leaf_entry (f * PAGE_SIZE) (fault_flags s va)) else mapped s root v;
  si_page : forall k, 0 <= k < PAGE_SIZE -> ram s' (f * PAGE_SIZE + k) = ram s (slot_addr s slot + k);
  si_slot : swap_used s' = bit_clr (swap_used s) slot }.
Lemma mapped_entry s root v pt : tables s root (indices v) = Some pt ->
  mapped s root v = present (word s (pt + 8 * index_at v 12)).
Proof. intros E. unfold mapped. by rewrite walk_tables, E. Qed.

Lemma swap_in_spec s b va pt slot : let root := cur_pml4 s in
  wf s root -> pool_at s root b -> user_va va -> va mod PAGE_SIZE = 0 -> 0 <= slot < 1024 ->
  tables s root (indices va) = Some pt -> word s (pt + 8 * index_at va 12) = swap_entry slot ->
  word64 (fault_flags s va) -> oom_force (pm s) = false -> used_pages (pm s) + 4 <= total_pages (pm s) ->
  exists s' f, vmm_swap_in s va = Ret (s', 0) /\ swapped_in s s' root va f slot.
Proof.
  intros root W [P1 P2 P3 P4] Hv Hva Hslot Hpt Hw Hfl Ho Hu. destruct (swap_entry_spec slot Hslot) as (E1 & E2 & E3 & E4).
  assert (PAGE_ALIGN_DOWN va = va) as Hal.
  { rewrite align_down by by apply user_word. unfold PAGE_SIZE in Hva. pose proof (Z_div_mod_eq_full va 4096). lia. }
  unfold vmm_swap_in. rewrite Hal. fold root. rewrite walk_tables, Hpt, Hw, E2, E3. cbn [negb].
  fold (fault_flags s va). set (fl := fault_flags s va) in *.
  destruct (take_frame s root) as (s1 & f & -> & T); auto; [lia|]. cbn [obind].
  pose proof (tk_range _ _ _ _ T) as Hf. pose proof (tk_alloc _ _ _ _ T) as A.
  rewrite (proj2 (Z.eqb_neq (f * PAGE_SIZE) 0)) by (unfold PAGE_SIZE; lia).
  unfold read_slot, slot_is_disk. rewrite (proj2 (Z.leb_gt SWAP_DISK_SLOT_BASE slot)), andb_false_r by (unfold SWAP_DISK_SLOT_BASE, SWAP_SLOTS; lia).
  assert (slot_addr s1 slot = slot_addr s slot) as Hsa1 by (unfold slot_addr; by rewrite (tk_rest _ _ _ _ T)).
  assert (slot_addr s slot = (b + slot) * PAGE_SIZE) as Hsa by (unfold slot_addr; rewrite P1; lia).
  rewrite Hsa1, Hsa. set (m := copy_page (ram s1) (f * PAGE_SIZE) ((b + slot) * PAGE_SIZE)).
  destruct (wf_write s1 root f m) as (W2 & T2 & M2); [apply T|apply byte_mem_copy, T|apply T|..].
  { intros a Ha. apply copy_page_out. unfold PAGE_SIZE in *. lia. }
  set (s2 := with_mem m s1) in *. set (s3 := swap_free_slot s2 slot).
  assert (s3 = with_swap_used (bit_clr (swap_used s) slot) s2) as Es3.
  { unfold s3, swap_free_slot, slot_is_disk.
    rewrite (proj2 (Z.leb_gt SWAP_DISK_SLOT_BASE slot)), andb_false_r by (unfold SWAP_DISK_SLOT_BASE, SWAP_SLOTS; lia).
    change (swap_used s2) with (swap_used s1). by rewrite (tk_rest _ _ _ _ T). }
  assert (pm s3 = pm s2) as Epm by by rewrite Es3.
  assert (cur_pml4 s3 = root) as Ecur by (rewrite Es3; unfold cur_pml4; cbn; by rewrite (tk_rest _ _ _ _ T)).
  assert (wf s3 root) as W3 by (rewrite Es3; destruct W2; by split).
  assert (forall v, mapped s3 root v = mapped s2 root v) as M3 by by rewrite Es3.
  assert (bit_tst (bitmap (pm s1)) f = true) as Hbf.
  { rewrite (al_bits _ _ _ _ A) by lia. by rewrite (proj2 (Z.leb_le f f)), (proj2 (Z.ltb_lt f (f + 1))) by lia. }
  unfold vmm_map. rewrite Ecur. pose proof (wf_size _ _ W).
  assert (word64 (f * PAGE_SIZE)) as Hfw by (unfold word64, PAGE_SIZE; lia).
  destruct (map_spec s3 root va (f * PAGE_SIZE) fl) as (s4 & -> & [W4 M4 _ _ R4 _ _ X4]); auto.
  { rewrite Epm. change (oom_force (pm s1) = false). by rewrite (tk_oom _ _ _ _ T). }
  { rewrite Epm. change (used_pages (pm s1) + 3 <= total_pages (pm s1)). rewrite (al_used _ _ _ _ A), (al_total _ _ _ _ A). lia. }
  cbn [obind]. exists s4, f. split; [done|]. split; auto.
  - intros v Hv'. rewrite M4, present_leaf by done. destruct (_ =? _); [done|]. by rewrite M3, M2, (tk_mapped _ _ _ _ T).
  - intros k Hk. rewrite X4; [| done | lia | |].
    + unfold ram. rewrite Epm. change (m (f * PAGE_SIZE + k) = ram s (slot_addr s slot + k)). unfold m.
      rewrite copy_page_at, Hsa by done. apply (taken_mem _ _ _ _ _ _ T); [|done]. by apply P3.
    + by rewrite Epm.
    + intros (q & Hq & Ht). apply (tk_fresh _ _ _ _ T). exists q. rewrite Es3 in Ht. split; [done|]. by rewrite <- (T2 q).
  - rewrite R4, Es3. done.
Qed.

(** * Copy-on-write *)
Lemma leaf_stored s s' root v e : wf s root -> leaf_set s s' root v e -> stored 0 s s' root v e.
Proof. intros W L. apply (grown_stored _ _ s); [by apply grown_refl|done]. Qed.
Lemma has_frame_bits x f : Z.land (u64 (Z.lnot 4095)) f = 0 -> has (frame_bits x) f = false.
Proof. intros E. unfold has, frame_bits. by rewrite <- Z.land_assoc, E, Z.land_0_r. Qed.
Lemma addr_of_frame_bits x : addr_of (frame_bits x) = addr_of x.
Proof. unfold frame_bits. by rewrite !addr_of_eq, <- Z.land_assoc. Qed.
Lemma addr_of_idem e : addr_of (addr_of e) = addr_of e.
Proof. by rewrite !addr_of_eq, <- Z.land_assoc. Qed.
Lemma cow_entry_spec x : word64 x ->
  word64 (cow_entry x) /\ has (cow_entry x) PTE_PRESENT = true /\ has (cow_entry x) PTE_SWAP = false /\
  has (cow_entry x) PTE_NOSHR = false /\ has (cow_entry x) PTE_COW = true /\ has (cow_entry x) PTE_RW = false /\
  addr_of (cow_entry x) = addr_of x.
Proof.
  intros Hx. unfold cow_entry. rewrite !has_lor, !addr_of_lor, addr_of_frame_bits, !(has_frame_bits x) by done.
  splits; try done; [|rewrite !Z.lor_0_r; done].
  repeat apply word64_lor; try done. by apply word64_land.
Qed.
Lemma addr_of_word e : word64 e -> word64 (addr_of e).
Proof. intros. rewrite addr_of_eq. by apply word64_land. Qed.
Lemma mapped_word s root v e : wf s root -> mapped s root v = Some e -> word64 e.
Proof. intros W (pt & _ & _ & -> & _)%mapped_Some. apply ld64_range, W. Qed.

Lemma ref_page_refs p x j : pmm_inv p -> 0 <= x -> 0 <= j < total_pages p -> bit_tst (bitmap p) j = true ->
  (refs p).[j] < 65535 ->
  (refs (pmm_ref_page p x)).[j] = (refs p).[j] + (if x / PAGE_SIZE =? j then 1 else 0).
Proof.
  intros Hinv Hx Hj Hb Hr. pose proof (inv_in_refs _ _ Hinv Hj). pose proof (page_index_nonneg _ Hx).
  unfold pmm_ref_page. destruct (Z.eqb_spec (x / PAGE_SIZE) j) as [->|N].
  - rewrite Hb, (proj2 (Z.leb_gt _ _)), (proj2 (Z.ltb_lt _ _)) by lia. cbn [orb negb set_refs refs].
    by rewrite nthZ_updZ_eq.
  - rewrite Z.add_0_r. destruct (_ || _); [done|]. destruct (_ <? _); [|done]. cbn [set_refs refs]. apply nthZ_updZ_ne; lia.
Qed.
Lemma ref_page_same p x : bitmap (pmm_ref_page p x) = bitmap p /\ total_pages (pmm_ref_page p x) = total_pages p /\
  used_pages (pmm_ref_page p x) = used_pages p /\ oom_force (pmm_ref_page p x) = oom_force p /\
  mem (pmm_ref_page p x) = mem p.
Proof. unfold pmm_ref_page. destruct (_ || _); [done|]. by destruct (_ <? _). Qed.
Lemma ref_word x s a : word (ref_page x s) a = word s a.
Proof. destruct (ref_page_same (pm s) x) as (_ & _ & _ & _ & M). unfold word, ram. cbn. by rewrite M. Qed.
Lemma ref_tables x s root q : tables (ref_page x s) root q = tables s root q.
Proof.
  unfold tables. induction q as [|i q IH] using rev_ind; [done|]. rewrite !tree_snoc, IH.
  destruct (tree (entry s) root q) as [t|]; [|reflexivity]. unfold follow, entry. by rewrite !ref_word.
Qed.
Lemma ref_mapped x s root v : mapped (ref_page x s) root v = mapped s root v.
Proof. unfold mapped. rewrite !walk_tables, ref_tables. destruct (tables _ _ _); [by rewrite ref_word|done]. Qed.
Lemma ref_is_table x s root t : is_table (ref_page x s) root t <-> is_table s root t.
Proof. unfold is_table. by setoid_rewrite ref_tables. Qed.
Lemma wf_ref s root x : wf s root -> 0 <= x -> wf (ref_page x s) root.
Proof.
  intros W Hx. destruct (ref_page_same (pm s) x) as (B & T & _ & _ & M).
  split; [apply ref_page_inv; [apply W|done]|cbn; rewrite T; apply W| | |].
  - intros a. unfold ram. cbn. rewrite M. apply W.
  - intros t Ht%ref_is_table. destruct (wf_own _ _ W t Ht) as (i & ? & ? & ?). exists i. cbn. by rewrite T, B.
  - intros p q t Hp Hq. fold (tables (ref_page x s) root p) (tables (ref_page x s) root q). rewrite !ref_tables. by apply W.
Qed.

(** ** The fork *)
Definition same_page (v a : Z) : bool := a / 4096 =? v / 4096.
(** What an entry becomes when its page is in the list that is shared. *)
Definition shareable (e : Z) : bool := negb (has e PTE_SWAP) && negb (has e PTE_NOSHR).
Definition share (P : list Z) (v : Z) (e : option Z) : option Z :=
  match e with
  | Some e => Some (if existsb (same_page v) P && shareable e then cow_entry (addr_of e) else e)
  | None => None
  end.
Definition child_share (P : list Z) (v : Z) (parent child : option Z) : option Z :=
  match parent with
  | Some e => if existsb (same_page v) P && shareable e then Some (cow_entry (addr_of e)) else child
  | None => child
  end.
(** The visits that take a reference to frame [j]. *)
Fixpoint visits s root (P : list Z) (j : Z) : Z :=
  match P with
  | [] => 0
  | a :: P =>
    match mapped s root a with
    | Some e => if negb (has e PTE_SWAP) && (addr_of e / PAGE_SIZE =? j) then 1 else 0
    | None => 0
    end + visits s root P j
  end.
Record forking s parent child : Prop := {
  fk_cur : cur_pml4 s = parent;
  fk_parent : wf s parent;
  fk_child : wf s child;
  fk_apart : forall t, is_table s parent t -> ~ is_table s child t;
  fk_covers : forall v, user_va v -> is_Some (mapped s parent v) -> is_Some (tables s child (indices v)) }.

(** The tables above the leaves are the same, entry by entry. *)
Definition keeps_inner s s' root : Prop := forall q t j, upath q -> (length q <= 2)%nat -> tables s root q = Some t ->
  0 <= j < 512 -> tables s' root q = Some t /\ entry s' t j = entry s t j.
Lemma keeps_inner_trans s1 s2 s3 root : keeps_inner s1 s2 root -> keeps_inner s2 s3 root -> keeps_inner s1 s3 root.
Proof. intros A B q t j Hq L T Hj. destruct (A q t j) as [T2 E2]; auto. destruct (B q t j) as [T3 E3]; auto. by rewrite E3, E2. Qed.
Lemma ref_inner x s root : keeps_inner s (ref_page x s) root.
Proof. intros q t j _ _ T _. rewrite ref_tables. split; [done|]. apply ref_word. Qed.
Lemma leaf_inner s root v pt e : wf s root -> user_va v -> tables s root (indices v) = Some pt -> word64 e ->
  keeps_inner s (set_word s (pt + 8 * index_at v 12) e) root.
Proof.
  intros W Hv T He q t j Hq L Tq Hj. destruct (set_leaf s root v pt e W Hv T He) as [_ Tb _ _ _ _].
  pose proof (upath_indices v Hv) as U. split; [by rewrite Tb|].
  change (set_word s (pt + 8 * index_at v 12) e) with (set_entry s pt (index_at v 12) e).
  apply entry_set_ne; auto using index_range; [apply (owned_aligned (pm s)), (wf_own _ _ W); by exists (indices v)|
    apply (owned_aligned (pm s)), (wf_own _ _ W); by exists q|].
  intros [= -> _]. pose proof (wf_inj _ _ W _ _ _ Hq U Tq T) as E. rewrite E in L. cbn in L. lia.
Qed.
Lemma apart_inner n s s' root v e other : stored n s s' root v e -> wf s other ->
  (forall t, is_table s other t -> ~ is_table s root t) -> keeps_inner s s' other.
Proof.
  intros S Wo Dis q t j Hq _ T Hj. destruct (stored_apart _ _ _ _ _ _ other S Wo Dis) as (_ & Tb & _). split; [by rewrite Tb|].
  assert (is_table s other t) as Ht by by exists q. destruct (wf_own _ _ Wo t Ht) as (i & -> & Hi & Hb).
  apply ld64_ext. intros a Ha. replace a with (i * PAGE_SIZE + (a - i * PAGE_SIZE)) by lia.
  apply (st_mem _ _ _ _ _ _ S); auto; unfold PAGE_SIZE in *; lia.
Qed.

Lemma inner_tables s s' root q : keeps_inner s s' root -> upath q -> tables s' root q = tables s root q.
Proof.
  intros Kp. induction q as [|i q IH] using rev_ind; intros Hq; [done|]. destruct (upath_snoc _ _ Hq) as (Hq' & Hi & Hl).
  unfold tables. rewrite !tree_snoc. fold (tables s' root q) (tables s root q). rewrite IH by done.
  destruct (tables s root q) as [t|] eqn:T; [|done]. cbn. destruct (Kp q t i) as [_ ->]; auto.
Qed.
(** One page of the loop. *)
Record shared_page s s' parent child a : Prop := {
  sp_fork : forking s' parent child;
  sp_parent : forall v, user_va v -> mapped s' parent v = share [a] v (mapped s parent v);
  sp_child : forall v, user_va v -> mapped s' child v = child_share [a] v (mapped s parent v) (mapped s child v);
  sp_rest : s' = with_pm (pm s') s;
  sp_inner : keeps_inner s s' parent;
  sp_frames : total_pages (pm s') = total_pages (pm s) /\
    forall j, 0 <= j < total_pages (pm s) -> bit_tst (bitmap (pm s)) j = true -> (refs (pm s)).[j] < 65535 ->
      bit_tst (bitmap (pm s')) j = true /\ (refs (pm s')).[j] = (refs (pm s)).[j] + visits s parent [a] j }.
Lemma visits_one s root a j : visits s root [a] j =
  match mapped s root a with
  | Some e => if negb (has e PTE_SWAP) && (addr_of e / PAGE_SIZE =? j) then 1 else 0 | None => 0 end.
Proof. cbn. destruct (mapped s root a); [destruct (_ && _)|]; done. Qed.
Lemma share_one a v e : share [a] v e =
  match e with Some e => Some (if same_page v a && shareable e then cow_entry (addr_of e) else e) | None => None end.
Proof. unfold share. cbn [existsb]. by rewrite orb_false_r. Qed.
Lemma child_share_one a v e c : child_share [a] v e c =
  match e with Some e => if same_page v a && shareable e then Some (cow_entry (addr_of e)) else c | None => c end.
Proof. unfold child_share. cbn [existsb]. by rewrite orb_false_r. Qed.

(** A page that is not shared: absent, in swap, or a kernel buffer, of which
    the child's copied entry gets its own reference. *)
Lemma cow_share_skip s parent child a : forking s parent child -> user_va a ->
  match mapped s parent a with Some e => shareable e = false | None => True end ->
  exists s', cow_share child (Ret s) a = Ret s' /\ shared_page s s' parent child a.
Proof.
  intros F Ha Hno. destruct F as [C Wp Wc Ap Cov]. unfold cow_share. cbn [obind]. rewrite C.
  assert (forall v, user_va v -> share [a] v (mapped s parent v) = mapped s parent v /\
            forall c, child_share [a] v (mapped s parent v) c = c) as Hsh.
  { intros v Hv. rewrite share_one. split; [|intros c; rewrite child_share_one]; destruct (same_page v a) eqn:Es.
    1, 3: apply Z.eqb_eq in Es; rewrite (mapped_page _ _ a v) in Hno by done; destruct (mapped s parent v); [by rewrite Hno|done].
    all: by destruct (mapped s parent v). }
  destruct (mapped s parent a) as [e|] eqn:Em.
  - destruct (mapped_Some _ _ _ _ Em) as (pt & T & -> & Ee & Eh). rewrite <- Ee, Eh. cbn [negb orb].
    unfold shareable in Hno. destruct (has e PTE_SWAP) eqn:Esw; cbn [negb andb] in Hno.
    + exists s. split; [done|]. split; [by split|intros v Hv; by destruct (Hsh v Hv)|intros v Hv; by destruct (Hsh v Hv)|by destruct s|done|].
      split; [done|]. intros j Hj Hb Hr. rewrite visits_one, Em, Esw. cbn. by rewrite Z.add_0_r.
    + apply negb_false_iff in Hno. exists (ref_page (addr_of e) s).
      assert (0 <= addr_of e) as Hpos by (apply addr_of_word; by apply (mapped_word s parent a)).
      destruct (ref_page_same (pm s) (addr_of e)) as (B & Tot & _ & _ & _).
      rewrite ref_word, <- Ee, Hno. split; [done|]. split.
      * split; auto using wf_ref; [intros t X Y; apply ref_is_table in X, Y; by apply (Ap t)|].
        intros v Hv. rewrite ref_tables, ref_mapped. by apply Cov.
      * intros v Hv. rewrite ref_mapped. by destruct (Hsh v Hv).
      * intros v Hv. rewrite ref_mapped. by destruct (Hsh v Hv).
      * done.
      * apply ref_inner.
      * split; [exact Tot|]. intros j Hj Hb Hr.
        change (pm (ref_page (addr_of e) s)) with (pmm_ref_page (pm s) (addr_of e)). rewrite B. split; [done|].
        rewrite (ref_page_refs (pm s)), visits_one, Em, Esw by (auto; apply Wp). done.
  - exists s. rewrite walk_tables.
    assert (match tables s parent (indices a) with Some pt => has (word s (pt + 8 * index_at a 12)) PTE_PRESENT = false | None => True end) as Hn.
    { rewrite mapped_leaf in Em. unfold leaf in Em. fold (tables s parent (indices a)) in Em.
      destruct (tables s parent (indices a)); [|done]. unfold present in Em. by destruct (has _ _) eqn:?. }
    split; [destruct (tables s parent (indices a)); [by rewrite Hn|done]|].
    split; [by split|intros v Hv; by destruct (Hsh v Hv)|intros v Hv; by destruct (Hsh v Hv)|by destruct s|done|].
    split; [done|]. intros j Hj Hb Hr. rewrite visits_one, Em. by rewrite Z.add_0_r.
Qed.
Lemma present_cow x : word64 x -> present (cow_entry x) = Some (cow_entry x).
Proof. intros Hx. unfold present. by destruct (cow_entry_spec x Hx) as (_ & -> & _). Qed.
Lemma cow_share_do s parent child a e : forking s parent child -> user_va a ->
  mapped s parent a = Some e -> shareable e = true ->
  exists s', cow_share child (Ret s) a = Ret s' /\ shared_page s s' parent child a.
Proof.
  intros F Ha Em Hsh. pose proof F as [C Wp Wc Ap Cov]. unfold cow_share. cbn [obind]. rewrite C.
  destruct (mapped_Some _ _ _ _ Em) as (pt & T & -> & Ee & Eh). rewrite <- Ee, Eh.
  pose proof Hsh as (Hsw & Hns)%andb_true_iff. apply negb_true_iff in Hsw, Hns. rewrite Hsw. cbn [negb orb].
  rewrite ref_word, <- Ee, Hns. set (x := addr_of e).
  assert (word64 x) as Hx by (apply addr_of_word, (mapped_word s parent a); done).
  assert (0 <= x) as Hx0 by apply Hx. destruct (cow_entry_spec x Hx) as (C1 & _).
  set (s0 := ref_page x s). assert (wf s0 parent) as Wp0 by by apply wf_ref. assert (wf s0 child) as Wc0 by by apply wf_ref.
  assert (stored 0 s0 (set_word s0 (pt + 8 * index_at a 12) (cow_entry x)) parent a (cow_entry x)) as S1.
  { apply leaf_stored; [done|]. apply set_leaf; auto. by rewrite (ref_tables x s). }
  set (s1 := set_word s0 (pt + 8 * index_at a 12) (cow_entry x)) in *.
  destruct (stored_apart _ _ _ _ _ _ child S1 Wc0) as (Wc1 & Tc1 & Mc1 & Ap1).
  { intros t X Y. apply ref_is_table in X, Y. by apply (Ap t). }
  destruct (Cov a Ha) as (cpt & Ecpt); [by rewrite Em|].
  destruct (put_pte_present s1 child a PTE_US (cow_entry x) cpt) as (s1' & s2 & -> & G & L); auto.
  { rewrite Tc1 by by apply upath_indices. by rewrite (ref_tables x s). }
  pose proof (grown_stored _ _ _ _ _ _ _ G L) as S2.
  destruct (stored_apart _ _ _ _ _ _ parent S2 (st_wf _ _ _ _ _ _ S1)) as (Wp2 & Tp2 & Mp2 & Ap2).
  { intros t X Y. by apply (Ap1 t). }
  assert (forall v, user_va v -> mapped s2 parent v = if a / 4096 =? v / 4096 then Some (cow_entry x) else mapped s parent v) as MP.
  { intros v Hv. rewrite Mp2, (st_mapped _ _ _ _ _ _ S1), present_cow by done. unfold s0. by rewrite ref_mapped. }
  exists s2. split; [done|]. split.
  - split; auto; [rewrite (st_rest _ _ _ _ _ _ S2), (st_rest _ _ _ _ _ _ S1); exact C|apply S2|].
    intros v Hv Hm. rewrite MP in Hm by done.
    assert (is_Some (mapped s parent v)) as Hs.
    { destruct (Z.eqb_spec (a / 4096) (v / 4096)) as [E|]; [|done]. rewrite (mapped_page _ _ v a) by auto. by rewrite Em. }
    destruct (Cov v Hv Hs) as (t & Et). exists t. apply (st_tree _ _ _ _ _ _ S2); [by apply upath_indices|].
    rewrite Tc1 by by apply upath_indices. by rewrite (ref_tables x s).
  - intros v Hv. rewrite MP by done. rewrite share_one. unfold same_page.
    destruct (Z.eqb_spec (a / 4096) (v / 4096)) as [E|]; [|by destruct (mapped s parent v)].
    rewrite (mapped_page _ _ v a) by auto. rewrite Em, Hsh. done.
  - intros v Hv. rewrite (st_mapped _ _ _ _ _ _ S2), Mc1, present_cow by done. unfold s0. rewrite ref_mapped, child_share_one.
    unfold same_page. destruct (Z.eqb_spec (a / 4096) (v / 4096)) as [E|]; [|by destruct (mapped s parent v)].
    rewrite (mapped_page s parent v a) by auto. rewrite Em, Hsh. done.
  - rewrite (st_rest _ _ _ _ _ _ S2), (st_rest _ _ _ _ _ _ S1). done.
  - apply (keeps_inner_trans _ s0); [apply ref_inner|]. apply (keeps_inner_trans _ s1).
    + apply leaf_inner; auto. by rewrite (ref_tables x s).
    + apply (apart_inner _ _ _ _ _ _ _ S2); [apply S1|]. intros t X Y. by apply (Ap1 t).
  - destruct (st_pm _ _ _ _ _ _ S1) as (P1 & _), (st_pm _ _ _ _ _ _ S2) as (P2 & _).
    destruct (ref_page_same (pm s) x) as (B & Tot & _). split; [rewrite P2, P1; exact Tot|].
    intros j Hj Hb Hr. destruct (st_bits _ _ _ _ _ _ S1 j) as (B1 & R1); [lia|cbn; by rewrite B|].
    destruct (st_bits _ _ _ _ _ _ S2 j) as (B2 & R2); [lia|done|]. split; [done|]. rewrite R2, R1.
    change (pm s0) with (pmm_ref_page (pm s) x). rewrite (ref_page_refs (pm s)), visits_one, Em, Hsw by (auto; apply Wp). done.
Qed.
Lemma cow_share_page s parent child a : forking s parent child -> user_va a ->
  exists s', cow_share child (Ret s) a = Ret s' /\ shared_page s s' parent child a.
Proof.
  intros F Ha. destruct (mapped s parent a) as [e|] eqn:Em; [destruct (shareable e) eqn:Es|].
  - by apply (cow_share_do _ _ _ _ e).
  - apply cow_share_skip; auto. by rewrite Em.
  - apply cow_share_skip; auto. by rewrite Em.
Qed.

Lemma shareable_cow x : word64 x -> shareable (cow_entry x) = true.
Proof. intros Hx. unfold shareable. by destruct (cow_entry_spec x Hx) as (_ & _ & -> & -> & _). Qed.
Lemma cow_entry_idem e : word64 e -> cow_entry (addr_of (cow_entry (addr_of e))) = cow_entry (addr_of e).
Proof.
  intros He. destruct (cow_entry_spec (addr_of e)) as (_ & _ & _ & _ & _ & _ & ->); [by apply addr_of_word|].
  by rewrite addr_of_idem.
Qed.
Lemma share_cons a P v e : (forall x, e = Some x -> word64 x) -> share P v (share [a] v e) = share (a :: P) v e.
Proof.
  intros He. rewrite share_one. destruct e as [e|]; [|done]. pose proof (He e eq_refl) as Hw. cbn [share existsb].
  destruct (same_page v a) eqn:Ea; cbn [andb orb]; [|done]. destruct (shareable e) eqn:Es; [|by rewrite Es, andb_false_r].
  rewrite shareable_cow, andb_true_r by by apply addr_of_word. destruct (existsb _ _); [|done]. by rewrite cow_entry_idem.
Qed.
Lemma child_share_cons a P v e c : (forall x, e = Some x -> word64 x) ->
  child_share P v (share [a] v e) (child_share [a] v e c) = child_share (a :: P) v e c.
Proof.
  intros He. rewrite share_one, child_share_one. destruct e as [e|]; [|done]. pose proof (He e eq_refl) as Hw.
  cbn [child_share existsb]. destruct (same_page v a) eqn:Ea; cbn [andb orb]; [|done].
  destruct (shareable e) eqn:Es; [|by rewrite Es, andb_false_r].
  rewrite shareable_cow, andb_true_r by by apply addr_of_word. destruct (existsb _ _); [|done]. by rewrite cow_entry_idem.
Qed.

Lemma visits_share s s' parent child a P j : wf s parent -> Forall user_va P -> shared_page s s' parent child a ->
  visits s' parent P j = visits s parent P j.
Proof.
  intros W HP [_ M _ _ _ _]. induction HP as [|v P Hv HP IH]; [done|]. cbn [visits]. rewrite IH, M, share_one by done.
  destruct (mapped s parent v) as [e|] eqn:Em; [|done].
  destruct (same_page v a && shareable e) eqn:E; [|done]. apply andb_true_iff in E as [_ Hs].
  assert (word64 (addr_of e)) as Hw by by apply addr_of_word, (mapped_word s parent v).
  destruct (cow_entry_spec (addr_of e) Hw) as (_ & _ & -> & _ & _ & _ & ->). rewrite addr_of_idem.
  by apply andb_true_iff in Hs as [-> _].
Qed.
Lemma visits_range s root P j : 0 <= visits s root P j <= Z.of_nat (length P).
Proof.
  induction P as [|a P IH]; cbn [visits length]; [lia|]. destruct (mapped s root a); [|lia]. destruct (_ && _); lia.
Qed.

Lemma cow_share_list P : forall s parent child, forking s parent child -> Forall user_va P ->
  exists s', fold_left (cow_share child) P (Ret s) = Ret s' /\ forking s' parent child /\
    (forall v, user_va v -> mapped s' parent v = share P v (mapped s parent v)) /\
    (forall v, user_va v -> mapped s' child v = child_share P v (mapped s parent v) (mapped s child v)) /\
    s' = with_pm (pm s') s /\ keeps_inner s s' parent /\ total_pages (pm s') = total_pages (pm s) /\
    (forall j, 0 <= j < total_pages (pm s) -> bit_tst (bitmap (pm s)) j = true ->
       (refs (pm s)).[j] + Z.of_nat (length P) <= 65535 ->
       bit_tst (bitmap (pm s')) j = true /\ (refs (pm s')).[j] = (refs (pm s)).[j] + visits s parent P j).
Proof.
  induction P as [|a P IH]; intros s parent child F HP.
  - exists s. cbn. splits; auto; try (intros; lia).
    + intros v Hv. by destruct (mapped s parent v).
    + intros v Hv. by destruct (mapped s parent v).
    + by destruct s.
    + done.
    + intros j Hj Hb Hr. rewrite Z.add_0_r. done.
  - apply Forall_cons in HP as [Ha HP]. destruct (cow_share_page s parent child a F Ha) as (s1 & E1 & S1).
    destruct (IH s1 parent child (sp_fork _ _ _ _ _ S1) HP) as (s' & E & F' & MP & MC & Rest & Inn & Tot & R).
    exists s'. rewrite fold_left_cons, E1. split; [exact E|]. split; [done|].
    assert (forall v x, mapped s parent v = Some x -> word64 x) as Hw by (intros v x; apply mapped_word, F).
    destruct (sp_frames _ _ _ _ _ S1) as [Tot1 R1]. splits.
    + intros v Hv. rewrite MP, (sp_parent _ _ _ _ _ S1) by done. apply share_cons. apply Hw.
    + intros v Hv. rewrite MC, (sp_child _ _ _ _ _ S1), (sp_parent _ _ _ _ _ S1) by done. apply child_share_cons. apply Hw.
    + rewrite Rest, (sp_rest _ _ _ _ _ S1). done.
    + by apply (keeps_inner_trans _ s1), Inn; [apply S1|..].
    + congruence.
    + intros j Hj Hb Hr. cbn [length] in Hr. destruct (R1 j) as [Hb1 Hr1]; [done|done|lia|].
      pose proof (visits_range s parent [a] j) as V1. cbn [length] in V1.
      destruct (R j) as [Hb2 Hr2]; [by rewrite Tot1|done|lia|]. split; [done|].
      rewrite Hr2, Hr1, (visits_share s s1 parent child a); auto; [|apply F]. cbn [visits].
      rewrite Z.add_0_r. lia.
Qed.

(** The addresses the two nested loops visit. *)
Fixpoint page_addrs (n : nat) (a : Z) : list Z := match n with O => [] | S k => a :: page_addrs k (a + PAGE_SIZE) end.
Lemma each_page_fold {A} n a (f : A -> Z -> A) x : each_page n a f x = fold_left f (page_addrs n a) x.
Proof. revert a x. induction n as [|n IH]; intros a x; [done|]. cbn. apply IH. Qed.
Definition region_addrs (r : region) : list Z := page_addrs (region_pages r) (start r).
Lemma region_fold {A} (f : A -> Z -> A) rs x : fold_left (each_region_page f) rs x = fold_left f (flat_map region_addrs rs) x.
Proof.
  revert x. induction rs as [|r rs IH]; intros x; [done|]. cbn [flat_map]. rewrite fold_left_app, fold_left_cons, IH.
  unfold each_region_page. by rewrite each_page_fold.
Qed.
Lemma each_entry_ind {A} (P : A -> Prop) f : (forall x i, P x -> P (f x i)) -> forall x, P x -> P (each_entry f x).
Proof.
  intros Hf. unfold each_entry. generalize (seqZ 0 512). intros l. induction l as [|i l IH]; intros x Hx; [done|].
  rewrite fold_left_cons. apply IH. by apply Hf.
Qed.
(** ** The second pass *)
Definition indexes : list Z := seqZ 0 512.
Definition sumZ (f : Z -> Z) (l : list Z) : Z := foldr (fun i n => f i + n) 0 l.
Lemma sumZ_ext f g l : (forall i, i ∈ l -> f i = g i) -> sumZ f l = sumZ g l.
Proof.
  induction l as [|i l IH]; intros E; [done|]. change (f i + sumZ f l = g i + sumZ g l). rewrite (E i) by by left.
  rewrite IH; [done|]. intros k Hk. apply E. by right.
Qed.
Lemma sumZ_zero f l : (forall i, i ∈ l -> f i = 0) -> sumZ f l = 0.
Proof. intros E. rewrite (sumZ_ext _ (fun _ => 0)) by done. clear E. by induction l. Qed.
Lemma elem_of_indexes i : i ∈ indexes <-> 0 <= i < 512.
Proof. unfold indexes. rewrite elem_of_seqZ. lia. Qed.

(** A page of the user half, by its indices; the reference it takes to frame [j] if it
    is a present kernel-shared buffer outside every region; and all of them. *)
Definition user_page (i3 i2 i1 : Z) : Z := i3 * 2 ^ 30 + i2 * 2 ^ 21 + i1 * 2 ^ 12.
Definition in_region (v : Z) (r : region) : bool := (start r <=? v) && (v <? r_end r).
Definition canvas_ref s root j v : Z :=
  match mapped s root v with
  | Some e => if has e PTE_NOSHR && negb (has e PTE_SWAP) && negb (existsb (in_region v) (regions s)) &&
                 (addr_of e / PAGE_SIZE =? j) then 1 else 0
  | None => 0
  end.
Definition canvases s root j : Z :=
  sumZ (fun i3 => sumZ (fun i2 => sumZ (fun i1 => canvas_ref s root j (user_page i3 i2 i1)) indexes) indexes) indexes.
Definition no_huge s root : Prop := forall i3 pd i2, 0 <= i3 < 512 -> 0 <= i2 < 512 ->
  tables s root [0; i3] = Some pd -> has (entry s pd i2) PTE_HUGE = false.

(** Only references are taken: [n] of them to frame [j]. *)
Record gains (j n : Z) s s' : Prop := {
  gn_rest : s' = with_pm (pm s') s;
  gn_mem : mem (pm s') = mem (pm s);
  gn_bits : total_pages (pm s') = total_pages (pm s) /\ bitmap (pm s') = bitmap (pm s);
  gn_inv : pmm_inv (pm s) -> pmm_inv (pm s');
  gn_pos : 0 <= n;
  gn_refs : pmm_inv (pm s) -> 0 <= j < total_pages (pm s) -> bit_tst (bitmap (pm s)) j = true ->
    (refs (pm s)).[j] + n <= 65535 -> (refs (pm s')).[j] = (refs (pm s)).[j] + n }.
Lemma gains_refl j s : gains j 0 s s.
Proof. split; auto; try lia. by destruct s. Qed.
Lemma gains_trans j n m s1 s2 s3 : gains j n s1 s2 -> gains j m s2 s3 -> gains j (n + m) s1 s3.
Proof.
  intros [A1 A2 [A3 A4] A5 A6 A7] [B1 B2 [B3 B4] B5 B6 B7]. split; auto; try congruence; try lia.
  - by rewrite B1, A1.
  - split; congruence.
  - intros I Hj Hb Hr. pose proof (A7 I Hj Hb ltac:(lia)) as E. rewrite B7; [lia|by apply A5|congruence|congruence|lia].
Qed.
Lemma gains_page j x s : 0 <= x -> gains j (if x / PAGE_SIZE =? j then 1 else 0) s (ref_page x s).
Proof.
  intros Hx. destruct (ref_page_same (pm s) x) as (B & T & _ & _ & M). pose proof (page_index_nonneg _ Hx). split; auto.
  - intros I. by apply ref_page_inv.
  - case_ifZ; lia.
  - intros I Hj Hb Hr. change (pm (ref_page x s)) with (pmm_ref_page (pm s) x). destruct (Z.eqb_spec (x / PAGE_SIZE) j) as [E|N].
    + rewrite ref_page_refs by (auto; lia). by rewrite (proj2 (Z.eqb_eq _ _)) by done.
    + rewrite Z.add_0_r. unfold pmm_ref_page. destruct (_ || _); [done|]. destruct (_ <? _); [|done].
      cbn [set_refs refs]. apply nthZ_updZ_ne; lia.
Qed.
Lemma gains_word j n s s' a : gains j n s s' -> word s' a = word s a.
Proof. intros G. unfold word, ram. by rewrite (gn_mem _ _ _ _ G). Qed.
Lemma gains_entry j n s s' t i : gains j n s s' -> entry s' t i = entry s t i.
Proof. apply gains_word. Qed.
Lemma gains_mapped j n s s' root v : gains j n s s' -> mapped s' root v = mapped s root v.
Proof.
  intros G. assert (forall q, tables s' root q = tables s root q) as T.
  { intros q. unfold tables. induction q as [|i q IH] using rev_ind; [done|]. rewrite !tree_snoc, IH.
    destruct (tree (entry s) root q) as [t|]; [|reflexivity]. cbn. by rewrite !(gains_entry _ _ _ _ _ _ G). }
  unfold mapped. rewrite !walk_tables, T. destruct (tables _ _ _); [|done]. by rewrite (gains_word _ _ _ _ _ G).
Qed.

(** A loop over a table, whose body takes [f i] references at entry [i]. *)
Lemma each_entry_gains j f step s :
  (forall i x n, 0 <= i < 512 -> gains j n s x -> gains j (f i) x (step x i)) -> gains j (sumZ f indexes) s (each_entry step s).
Proof.
  intros Hs. unfold each_entry. fold indexes.
  assert (forall l x n, (forall i, i ∈ l -> 0 <= i < 512) -> gains j n s x -> gains j (n + sumZ f l) s (fold_left step l x)) as L.
  { induction l as [|i l IH]; intros x n Hl G; [by rewrite Z.add_0_r|]. rewrite fold_left_cons. cbn [sumZ foldr].
    rewrite Z.add_assoc. apply IH; [intros k Hk; apply Hl; by right|]. apply (gains_trans _ _ _ _ x); [done|].
    apply (Hs i x n); [apply Hl; by left|done]. }
  rewrite <- (Z.add_0_l (sumZ f indexes)). apply L; [intros i; apply elem_of_indexes|apply gains_refl].
Qed.

Lemma lor_parts x y k : 0 <= k -> 0 <= y < 2 ^ k -> Z.lor (x * 2 ^ k) y = x * 2 ^ k + y.
Proof.
  intros Hk Hy. pose proof (Z.add_lor_land (x * 2 ^ k) y). enough (Z.land (x * 2 ^ k) y = 0) by lia.
  apply Z.bits_inj'. intros i Hi. rewrite Z.land_spec, Z.bits_0. destruct (Z.lt_ge_cases i k).
  - by rewrite Z.mul_pow2_bits_low by lia.
  - by rewrite (testbit_small y k), andb_false_r by lia.
Qed.
Lemma user_page_shifts i3 i2 i1 : 0 <= i2 < 512 -> 0 <= i1 < 512 ->
  Z.lor (Z.lor (Z.shiftl i3 30) (Z.shiftl i2 21)) (Z.shiftl i1 12) = user_page i3 i2 i1.
Proof.
  intros. unfold user_page. rewrite !Z.shiftl_mul_pow2 by lia. rewrite (lor_parts i3) by lia.
  replace (i3 * 2 ^ 30 + i2 * 2 ^ 21) with ((i3 * 2 ^ 9 + i2) * 2 ^ 21) by lia. rewrite lor_parts by lia. lia.
Qed.
Lemma user_page_indices i3 i2 i1 : 0 <= i3 < 512 -> 0 <= i2 < 512 -> 0 <= i1 < 512 ->
  user_va (user_page i3 i2 i1) /\ indices (user_page i3 i2 i1) = [0; i3; i2] /\ index_at (user_page i3 i2 i1) 12 = i1.
Proof.
  intros. assert (user_va (user_page i3 i2 i1)) as U by (unfold user_va, user_page; lia). split; [done|].
  unfold indices. rewrite index_39 by done. rewrite !index_eq by lia. unfold user_page.
  rewrite <- (Z.div_unique (i3 * 2 ^ 30 + i2 * 2 ^ 21 + i1 * 2 ^ 12) (2 ^ 30) i3 (i2 * 2 ^ 21 + i1 * 2 ^ 12)) by lia.
  rewrite <- (Z.div_unique (i3 * 2 ^ 30 + i2 * 2 ^ 21 + i1 * 2 ^ 12) (2 ^ 21) (i3 * 512 + i2) (i1 * 2 ^ 12)) by lia.
  rewrite <- (Z.div_unique (i3 * 2 ^ 30 + i2 * 2 ^ 21 + i1 * 2 ^ 12) (2 ^ 12) ((i3 * 512 + i2) * 512 + i1) 0) by lia.
  rewrite (Z.mod_small i3), !(Z.add_comm (_ * 512)), !Z.mod_add, (Z.mod_small i2), (Z.mod_small i1) by lia. done.
Qed.
Lemma region_of_existsb rs v : region_of rs v = None <-> existsb (in_region v) rs = false.
Proof. induction rs as [|r rs IH]; cbn [region_of existsb]; [done|]. unfold in_region at 1. by destruct (_ && _). Qed.

Lemma ref_noshr_gains s root i3 i2 pt j x n i1 : byte_mem (ram s) -> 0 <= i3 < 512 -> 0 <= i2 < 512 -> 0 <= i1 < 512 ->
  tables s root [0; i3; i2] = Some pt -> gains j n s x ->
  gains j (canvas_ref s root j (user_page i3 i2 i1)) x (ref_noshr i3 i2 pt x i1).
Proof.
  intros By H3 H2 H1 T G. destruct (user_page_indices i3 i2 i1 H3 H2 H1) as (U & Ix & I1).
  unfold ref_noshr. cbv zeta. rewrite user_page_shifts, (gains_entry _ _ _ _ _ _ G) by done.
  unfold canvas_ref. rewrite mapped_leaf. unfold leaf. rewrite Ix, I1. fold (tables s root [0; i3; i2]). rewrite T.
  unfold present. destruct (has (entry s pt i1) PTE_PRESENT); cbn [negb orb]; [|apply gains_refl].
  destruct (has _ PTE_NOSHR); cbn [negb orb andb]; [|apply gains_refl].
  destruct (has _ PTE_SWAP); cbn [negb orb andb]; [apply gains_refl|].
  assert (find_region x (user_page i3 i2 i1) = region_of (regions s) (user_page i3 i2 i1)) as ->
    by (unfold find_region; by rewrite (gn_rest _ _ _ _ G)).
  pose proof (region_of_existsb (regions s) (user_page i3 i2 i1)) as R. destruct (region_of _ _) as [r|].
  - destruct (existsb _ _); [apply gains_refl|]. by discriminate (proj2 R).
  - rewrite (proj1 R) by done. cbn [negb]. apply gains_page. by apply addr_of_word, ld64_range.
Qed.

(** The second pass takes exactly the references of the buffers outside the regions. *)
Lemma ref_noshr_all_gains s j : byte_mem (ram s) -> no_huge s (cur_pml4 s) ->
  gains j (canvases s (cur_pml4 s) j) s (ref_noshr_all s).
Proof.
  intros By Hh. unfold ref_noshr_all. set (root := cur_pml4 s) in *.
  assert (forall i3 i2 i1, 0 <= i3 < 512 -> 0 <= i2 < 512 -> 0 <= i1 < 512 -> tables s root [0; i3; i2] = None ->
            canvas_ref s root j (user_page i3 i2 i1) = 0) as Hno.
  { intros i3 i2 i1 H3 H2 H1 T. destruct (user_page_indices i3 i2 i1 H3 H2 H1) as (_ & Ix & _).
    unfold canvas_ref. rewrite mapped_leaf. unfold leaf. rewrite Ix. fold (tables s root [0; i3; i2]). by rewrite T. }
  assert (tables s root [0] = follow (entry s) (Some root) 0) as T0 by done.
  assert (forall i3, tables s root [0; i3] = follow (entry s) (tables s root [0]) i3) as T1 by done.
  assert (forall i3 i2, tables s root [0; i3; i2] = follow (entry s) (tables s root [0; i3]) i2) as T2 by done.
  destruct (has (entry s root 0) PTE_PRESENT) eqn:E0; cbn [negb].
  2: { unfold canvases. rewrite sumZ_zero; [apply gains_refl|]. intros i3 H3%elem_of_indexes. apply sumZ_zero. intros i2 H2%elem_of_indexes.
    apply sumZ_zero. intros i1 H1%elem_of_indexes. apply Hno; auto. rewrite T2, T1, T0. cbn. by rewrite E0. }
  rewrite follow_present in T0 by done. cbv zeta. set (pdpt := addr_of (entry s root 0)) in *.
  apply each_entry_gains. intros i3 x n H3 G. rewrite !(gains_entry _ _ _ _ _ _ G).
  destruct (has (entry s pdpt i3) PTE_PRESENT) eqn:E1; cbn [negb].
  2: { rewrite sumZ_zero; [apply gains_refl|]. intros i2 H2%elem_of_indexes.
    apply sumZ_zero. intros i1 H1%elem_of_indexes. apply Hno; auto. rewrite T2, T1, T0. cbn. by rewrite E1. }
  specialize (T1 i3). rewrite T0, follow_present in T1 by done. set (pd := addr_of (entry s pdpt i3)) in *.
  apply each_entry_gains. intros i2 y m H2 G2. pose proof (gains_trans _ _ _ _ _ _ G G2) as G3.
  rewrite !(gains_entry _ _ _ _ _ _ G3), (Hh i3 pd i2), orb_false_r by done. specialize (T2 i3 i2). rewrite T1 in T2.
  destruct (has (entry s pd i2) PTE_PRESENT) eqn:E2; cbn [negb].
  2: { rewrite sumZ_zero; [apply gains_refl|]. intros i1 H1%elem_of_indexes. apply Hno; auto. rewrite T2. cbn. by rewrite E2. }
  rewrite follow_present in T2 by done.
  apply each_entry_gains. intros i1 z k H1 G4. apply (ref_noshr_gains _ _ _ _ _ _ _ (n + m + k)); auto.
  by apply (gains_trans _ _ _ _ y).
Qed.

(** The first pass leaves the buffers outside the regions alone. *)
Lemma canvases_share s s' parent j P : wf s parent -> regions s' = regions s ->
  (forall v, user_va v -> mapped s' parent v = share P v (mapped s parent v)) -> canvases s' parent j = canvases s parent j.
Proof.
  intros W R M. apply sumZ_ext. intros i3 H3%elem_of_indexes. apply sumZ_ext. intros i2 H2%elem_of_indexes.
  apply sumZ_ext. intros i1 H1%elem_of_indexes. destruct (user_page_indices i3 i2 i1) as (U & _); auto.
  unfold canvas_ref. rewrite M, R by done. destruct (mapped s parent _) as [e|] eqn:Em; [|done]. cbn [share].
  destruct (existsb _ P && shareable e) eqn:Es; [|done]. apply andb_true_iff in Es as [_ (Hs & Hn)%andb_true_iff].
  apply negb_true_iff in Hn. rewrite Hn. cbn [andb].
  destruct (cow_entry_spec (addr_of e)) as (_ & _ & _ & N & _); [by apply addr_of_word, (mapped_word s parent (user_page i3 i2 i1))|].
  by rewrite N.
Qed.

(** ** A write to a shared page *)
(** A read-only shared mapping of frame [i], which is in use and no table. *)
Record cow_page s root (va e i : Z) : Prop := {
  cp_mapped : mapped s root va = Some e;
  cp_cow : has e PTE_COW = true;
  cp_ro : has e PTE_RW = false;
  cp_noswap : has e PTE_SWAP = false;
  cp_frame : addr_of e = i * PAGE_SIZE;
  cp_used : 256 <= i < total_pages (pm s) /\ bit_tst (bitmap (pm s)) i = true;
  cp_table : ~ is_table s root (i * PAGE_SIZE) }.
Lemma align_id va : user_va va -> va mod PAGE_SIZE = 0 -> PAGE_ALIGN_DOWN va = va.
Proof.
  intros Hv Hva. rewrite align_down by by apply user_word. unfold PAGE_SIZE in Hva. pose proof (Z_div_mod_eq_full va 4096). lia.
Qed.
Lemma cow_fault s root va e i : root = cur_pml4 s -> user_va va -> cow_page s root (PAGE_ALIGN_DOWN va) e i ->
  exists pt, tables s root (indices (PAGE_ALIGN_DOWN va)) = Some pt /\
    vmm_resolve_user_fault s va true = cow_break s (PAGE_ALIGN_DOWN va) (pt + 8 * index_at (PAGE_ALIGN_DOWN va) 12) /\
    word s (pt + 8 * index_at (PAGE_ALIGN_DOWN va) 12) = e.
Proof.
  intros -> Hv []. destruct (mapped_Some _ _ _ _ cp_mapped0) as (pt & T & Wk & Ee & Eh). exists pt. split; [done|]. split; [|done].
  unfold vmm_resolve_user_fault. rewrite Wk, <- Ee, cp_noswap0, Eh, cp_cow0, cp_ro0. done.
Qed.

Record cow_copied s s' root va i f : Prop := {
  cc_fresh : bit_tst (bitmap (pm s)) f = false /\ 256 <= f < total_pages (pm s);
  cc_wf : wf s' root;
  cc_mapped : forall v, user_va v ->
    mapped s' root v = if va / 4096 =? v / 4096 then Some (leaf_entry (f * PAGE_SIZE) (Z.lor PTE_RW PTE_US)) else mapped s root v;
  cc_copy : forall k, 0 <= k < PAGE_SIZE -> ram s' (f * PAGE_SIZE + k) = ram s (i * PAGE_SIZE + k);
  cc_old : forall k, 0 <= k < PAGE_SIZE -> ram s' (i * PAGE_SIZE + k) = ram s (i * PAGE_SIZE + k);
  cc_refs : frame_at (pm s') i true ((refs (pm s)).[i] - 1) }.
Lemma cow_copy s root va e i : root = cur_pml4 s -> wf s root -> user_va va -> cow_page s root (PAGE_ALIGN_DOWN va) e i ->
  1 < (refs (pm s)).[i] -> oom_force (pm s) = false -> used_pages (pm s) + 4 <= total_pages (pm s) ->
  exists s' f, vmm_resolve_user_fault s va true = Ret (s', true) /\ cow_copied s s' root va i f.
Proof.
  intros Hroot W Hv CP Hr Ho Hu. destruct (cow_fault s root va e i) as (pt & Ept & -> & Ew); auto. destruct CP.
  destruct cp_used0 as [Hi Hb]. destruct (align_user va Hv) as [Hv' Epg]. set (page := PAGE_ALIGN_DOWN va) in *.
  unfold cow_break. rewrite Ew, cp_frame0. unfold pmm_refcount. rewrite page_index, (proj2 (Z.leb_gt _ _)) by lia.
  rewrite (proj2 (Z.eqb_neq _ 1)) by lia.
  destruct (take_frame s root) as (s1 & f & -> & T); auto; [lia|]. cbn [obind].
  pose proof (tk_range _ _ _ _ T) as Hf. pose proof (tk_alloc _ _ _ _ T) as A. pose proof (wf_size _ _ W).
  destruct (taken_used _ _ _ _ i T) as (Hb1 & Hr1); [lia|done|].
  set (m := copy_page (ram s1) (f * PAGE_SIZE) (i * PAGE_SIZE)).
  destruct (wf_write s1 root f m) as (W2 & T2 & M2); [apply T|apply byte_mem_copy, T|apply T| |].
  { intros a Ha. apply copy_page_out. unfold PAGE_SIZE in *. lia. }
  set (s2 := with_mem m s1) in *.
  assert (frame_at (pm s2) i true (refs (pm s)).[i]) as Fi by (split; [cbn; rewrite (al_total _ _ _ _ A); lia|by split]).
  destruct (unref_frame_shared (pm s2) i (refs (pm s)).[i]) as (I3 & F3 & U3 & Mm3); [apply W2|lia|done|done|].
  assert (~ is_table s2 root (i * PAGE_SIZE)) as Hnt.
  { intros (q & Hq & Ht). rewrite T2, (tk_tables _ _ _ _ T) in Ht by done. apply cp_table0. by exists q. }
  destruct (wf_unref s2 root (i * PAGE_SIZE)) as (W3 & T3 & M3); auto; [unfold PAGE_SIZE; lia|by apply Z.mod_mul|].
  destruct (unref_keeps (pm s2) (i * PAGE_SIZE)) as (U1 & U2 & _ & U4 & _ & _); [apply W2|unfold PAGE_SIZE; lia|].
  rewrite page_index in U4. set (s3 := unref_page (i * PAGE_SIZE) s2) in *.
  assert (cur_pml4 s3 = root) as Ecur by (unfold cur_pml4; cbn; rewrite (tk_rest _ _ _ _ T); by rewrite Hroot).
  unfold vmm_map. rewrite Ecur.
  destruct (map_spec s3 root page (f * PAGE_SIZE) (Z.lor PTE_RW PTE_US)) as (s4 & -> & [W4 M4 _ _ _ (P4 & _) B4 X4]); auto.
  { unfold word64, PAGE_SIZE. lia. } { done. }
  { rewrite <- (tk_oom _ _ _ _ T) in Ho. change (oom_force (pm s3) = false). by rewrite (U2 : oom_force (pm s3) = _). }
  { rewrite (U3 : used_pages (pm s3) = _), (U1 : total_pages (pm s3) = _). cbn.
    rewrite (al_used _ _ _ _ A), (al_total _ _ _ _ A). lia. }
  cbn [obind]. exists s4, f. split; [done|].
  assert (bit_tst (bitmap (pm s3)) f = true) as Hbf.
  { assert (f <> i) by (intros ->; rewrite (al_free _ _ _ _ A i) in Hb; [done|lia]).
    etrans; [apply (U4 f); lia|]. change (bit_tst (bitmap (pm s1)) f = true). rewrite (al_bits _ _ _ _ A) by lia.
    by rewrite (proj2 (Z.leb_le f f)), (proj2 (Z.ltb_lt f (f + 1))) by lia. }
  destruct F3 as (F31 & F32 & F33). destruct (B4 i) as [B41 B42]; [lia|done|].
  assert (forall k, ram s3 k = m k) as Hram by (intros k; exact (f_equal (fun g => g k) Mm3)).
  assert (~ is_table s3 root (i * PAGE_SIZE)) as Hnt3.
  { intros (q & Hq & Ht). apply Hnt. exists q. by rewrite <- (T3 q). }
  assert (~ is_table s3 root (f * PAGE_SIZE)) as Hnf.
  { intros (q & Hq & Ht). apply (tk_fresh _ _ _ _ T). exists q. by rewrite <- T2, <- (T3 q). }
  split; auto.
  - split; [apply (al_free _ _ _ _ A); lia|lia].
  - intros v Hvv. rewrite M4, present_leaf, Epg by (done || unfold word64, PAGE_SIZE; lia).
    destruct (_ =? _); [done|]. by rewrite M3, M2, (tk_mapped _ _ _ _ T).
  - intros k Hk. rewrite X4, Hram by (auto; lia). unfold m. rewrite copy_page_at by done. by apply (taken_mem _ _ _ _ _ _ T).
  - intros k Hk. rewrite X4, Hram by (auto; lia). unfold m. rewrite copy_page_out; [by apply (taken_mem _ _ _ _ _ _ T)|].
    assert (f <> i) by (intros ->; rewrite (al_free _ _ _ _ A i) in Hb; [done|lia]). unfold PAGE_SIZE in *. lia.
  - split; [rewrite P4; exact F31|]. split; [done|]. rewrite B42. exact F33.
Qed.

(** * The task's regions and accounting *)
Definition task_of s := (is_user s, task_regions s, boot_regions s, mem_pages s, mem_limit s).
(** Killing another task does not touch this one's. *)
Class OomLaws := oom_task : forall s, task_of (snd (oom_kill_one s)) = task_of s.
Definition keeps_task {A} (st : A -> vmm) s (r : outcome A) : Prop :=
  match r with Ret x => task_of (st x) = task_of s | Panic => True end.

Lemma fold_task {A} (st : A -> vmm) (f : A -> Z -> A) l x :
  (forall x a, task_of (st (f x a)) = task_of (st x)) -> task_of (st (fold_left f l x)) = task_of (st x).
Proof. intros Hf. revert x. induction l as [|a l IH]; intros x; [done|]. by rewrite fold_left_cons, IH, Hf. Qed.
Lemma unmap_task s pml4 v : task_of (vmm_unmap_in s pml4 v) = task_of s.
Proof. unfold vmm_unmap_in. destruct (walk_pte s pml4 v); [|done]. by destruct (has _ _). Qed.
Lemma unmap_region_task s r : task_of (unmap_region s r) = task_of s.
Proof.
  unfold unmap_region, each_region_page. rewrite each_page_fold. apply (fold_task (fun s => s)). intros. apply unmap_task.
Qed.
Lemma write_slot_task s slot phys : task_of (fst (write_slot s slot phys)) = task_of s.
Proof.
  unfold write_slot. destruct (slot_is_disk s slot); [|done]. destruct (the_disk s); [|done].
  destruct (blk_write_sectors _ _ _) as [d1 ok]. by destruct ok.
Qed.
Lemma swap_alloc_task s : task_of (fst (swap_alloc_slot s)) = task_of s.
Proof.
  unfold swap_alloc_slot. destruct (scan_free _ _ _); [done|]. destruct (swap_disk_armed s); [|done]. by destruct (scan_free _ _ _).
Qed.
Lemma swap_free_task s slot : task_of (swap_free_slot s slot) = task_of s.
Proof. unfold swap_free_slot. by destruct (slot_is_disk _ _). Qed.
Lemma swap_out_task s va : task_of (fst (vmm_swap_out s va)) = task_of s.
Proof.
  unfold vmm_swap_out. destruct (walk_pte _ _ _); [|done]. destruct (_ || _); [done|].
  pose proof (swap_alloc_task s). destruct (swap_alloc_slot s) as [s1 slot]. cbn [fst] in *. destruct (_ <? _); [done|].
  pose proof (write_slot_task s1 slot (addr_of (word s1 z))). destruct (write_slot _ _ _) as [s2 ok]. cbn [fst] in *.
  destruct ok; cbn [fst]; [|rewrite swap_free_task]; by etrans.
Qed.
Lemma evict_task s n : task_of (fst (vmm_evict_some s n)) = task_of s.
Proof.
  unfold vmm_evict_some. rewrite region_fold. apply (fold_task fst (evict_page n) _ (s, 0)). intros [s1 k] a. unfold evict_page.
  destruct (negb _); [done|]. destruct (walk_pte _ _ _); [|done]. destruct (evictable _); [|done].
  pose proof (swap_out_task s1 a). destruct (vmm_swap_out s1 a) as [s2 slot]. by destruct (_ <=? _).
Qed.

(** ** Eviction as a script of the page allocator's calls *)
Definition by_calls s s' : Prop := exists cs, pm s' = fold_left frame_run cs (pm s) /\
  Forall (fun c => match c with call_unref _ | call_write _ => True | _ => False end) cs.
Lemma by_calls_same s s' : pm s' = pm s -> by_calls s s'.
Proof. intros E. exists []. split; [exact E|apply Forall_nil_2]. Qed.
Lemma by_calls_trans s1 s2 s3 : by_calls s1 s2 -> by_calls s2 s3 -> by_calls s1 s3.
Proof.
  intros (cs & E1 & F1) (ds & E2 & F2). exists (cs ++ ds). rewrite fold_left_app, <- E1. split; [done|]. by apply Forall_app.
Qed.
Lemma by_calls_mem m s : by_calls s (with_mem m s).
Proof. exists [call_write m]. split; [done|]. by apply Forall_cons_2, Forall_nil_2. Qed.
Lemma by_calls_unref x s : by_calls s (unref_page x s).
Proof. exists [call_unref x]. split; [done|]. by apply Forall_cons_2, Forall_nil_2. Qed.
Lemma write_slot_calls s slot x : by_calls s (fst (write_slot s slot x)).
Proof.
  unfold write_slot. destruct (slot_is_disk _ _); [|apply by_calls_mem]. destruct (the_disk s); [|by apply by_calls_same].
  destruct (blk_write_sectors _ _ _) as [dk ok]. destruct ok; by apply by_calls_same.
Qed.
Lemma swap_out_calls s va : by_calls s (fst (vmm_swap_out s va)).
Proof.
  unfold vmm_swap_out. destruct (walk_pte _ _ _) as [a|]; [|by apply by_calls_same]. destruct (_ || _); [by apply by_calls_same|].
  assert (pm (fst (swap_alloc_slot s)) = pm s) as E.
  { unfold swap_alloc_slot. destruct (scan_free _ _ _); [done|]. destruct (swap_disk_armed s); [|done]. by destruct (scan_free _ _ _). }
  destruct (swap_alloc_slot s) as [s1 slot]. cbn [fst] in E. destruct (_ <? _); [by apply by_calls_same|].
  pose proof (write_slot_calls s1 slot (addr_of (word s1 a))) as W. destruct (write_slot _ _ _) as [s2 ok]. cbn [fst] in W.
  apply (by_calls_trans _ s1); [by apply by_calls_same|]. apply (by_calls_trans _ s2); [exact W|]. destruct ok; cbn [fst].
  - apply (by_calls_trans _ (unref_page (addr_of (word s1 a)) s2)); [apply by_calls_unref|apply by_calls_mem].
  - apply by_calls_same. unfold swap_free_slot. by destruct (slot_is_disk _ _).
Qed.
(** The swapper acts on the frames by dropping references and writing memory only, so
    it is one of the reclaimers of [Pmm]. *)
Lemma evict_some_calls s n : by_calls s (fst (vmm_evict_some s n)).
Proof.
  unfold vmm_evict_some. rewrite region_fold. generalize (flat_map region_addrs (regions s)). intros l.
  assert (forall l r, by_calls s (fst r) -> by_calls s (fst (fold_left (evict_page n) l r))) as H1.
  { clear l. induction l as [|a l IH]; intros [s1 k] B; [exact B|]. rewrite fold_left_cons. apply IH. cbn [fst] in B.
    unfold evict_page. destruct (negb _); [done|]. destruct (walk_pte _ _ _); [|done]. destruct (evictable _); [|done].
    pose proof (swap_out_calls s1 a) as C. destruct (vmm_swap_out s1 a) as [s2 slot]. cbn [fst] in C.
    destruct (_ <=? _); by apply (by_calls_trans _ s1). }
  apply H1. by apply by_calls_same.
Qed.

Context `{!OomLaws}.
Lemma take_free_task s : task_of (fst (take_free s)) = task_of s.
Proof. unfold take_free. by destruct (find_free_locked _). Qed.
Lemma alloc_tries_task n : forall k s, task_of (fst (alloc_tries n k s)) = task_of s.
Proof.
  induction n as [|n IH]; intros k s; [done|]. cbn [alloc_tries]. destruct (oom_force _); [done|].
  pose proof (take_free_task s). destruct (take_free s) as [s1 a]. cbn [fst] in *. destruct (negb _); [done|].
  rewrite IH. destruct (_ =? _); [by rewrite evict_task|done].
Qed.
Lemma kill_tries_task n : forall s, keeps_task fst s (kill_tries n s).
Proof.
  induction n as [|n IH]; intros s; [done|]. cbn [kill_tries]. pose proof (oom_task s). destruct (oom_kill_one s) as [r s1].
  cbn [snd] in *. destruct (_ =? _); [done|]. destruct (_ <? _); [done|]. pose proof (take_free_task s1).
  destruct (take_free s1) as [s2 a]. cbn [fst] in *. destruct (negb _); [cbn; congruence|].
  specialize (IH s2). unfold keeps_task in *. destruct (kill_tries n s2); [congruence|done].
Qed.
Lemma alloc_task s : keeps_task fst s (alloc_page s).
Proof.
  unfold alloc_page. pose proof (alloc_tries_task 2 0 s). destruct (alloc_tries 2 0 s) as [s1 a]. cbn [fst] in *.
  destruct (negb _); [done|]. pose proof (kill_tries_task OOM_MAX_KILLS s1). unfold keeps_task in *.
  destruct (kill_tries _ _); [congruence|done].
Qed.
Lemma keeps_bind {A B} (st : A -> vmm) (st' : B -> vmm) s r (f : A -> outcome B) :
  keeps_task st s r -> (forall x, keeps_task st' (st x) (f x)) -> keeps_task st' s (obind r f).
Proof.
  intros Hr Hf. destruct r as [x|]; [|done]. cbn in *. specialize (Hf x). unfold keeps_task in *. destruct (f x); [congruence|done].
Qed.
Lemma keeps_eq {A} (st : A -> vmm) s s' r : task_of s' = task_of s -> keeps_task st s' r -> keeps_task st s r.
Proof. intros E. unfold keeps_task. by rewrite E. Qed.
Lemma next_table_task s t i c flags : keeps_task fst s (next_table s t i c flags).
Proof.
  unfold next_table. destruct (has _ _); cbn [negb].
  - destruct (has flags PTE_US), (has flags PTE_RW); done.
  - destruct c; [|done]. apply (keeps_bind fst fst _ _ _ (alloc_task s)). by intros [s1 p].
Qed.
Lemma then_table_task s r i c flags : keeps_task fst s r -> keeps_task fst s (then_table r i c flags).
Proof. intros Hr. apply (keeps_bind fst fst _ _ _ Hr). intros [s1 [t|]]; [apply next_table_task|done]. Qed.
Lemma put_pte_task s pml4 v flags e : keeps_task (fun s => s) s (put_pte s pml4 v flags e).
Proof.
  unfold put_pte, walk. apply (keeps_bind fst). 2: by intros [s1 [a|]].
  apply (keeps_bind fst). 2: by intros [s1 [a|]]. do 2 apply then_table_task. apply next_table_task.
Qed.
Lemma map_fresh_fold s pml4 flags l : keeps_task (fun s => s) s (fold_left (map_fresh pml4 flags) l (Ret s)).
Proof.
  assert (forall r, keeps_task (fun s => s) s r -> keeps_task (fun s => s) s (fold_left (map_fresh pml4 flags) l r)) as Hl; [|by apply Hl].
  induction l as [|a l IH]; intros r Hr; [done|]. rewrite fold_left_cons. apply IH.
  apply (keeps_bind (fun s => s)); [done|]. intros s1. apply (keeps_bind fst); [apply alloc_task|]. intros [s2 p]. apply put_pte_task.
Qed.
Lemma swap_in_task s va : keeps_task fst s (vmm_swap_in s va).
Proof.
  unfold vmm_swap_in. destruct (walk_pte _ _ _); [|done]. destruct (negb _); [done|]. apply (keeps_bind fst); [apply alloc_task|].
  intros [s1 p]. cbn [fst]. destruct (_ =? _); [done|]. unfold read_slot. destruct (slot_is_disk s1 _).
  - destruct (the_disk s1); [|cbn; by rewrite swap_free_task]. destruct (blk_read_sectors _ _); [|cbn; by rewrite swap_free_task].
    apply (keeps_bind (fun s => s)); [|done]. eapply keeps_eq; [|apply put_pte_task]. by rewrite swap_free_task.
  - apply (keeps_bind (fun s => s)); [|done]. eapply keeps_eq; [|apply put_pte_task]. by rewrite swap_free_task.
Qed.
Lemma cow_break_task s page a : keeps_task fst s (cow_break s page a).
Proof.
  unfold cow_break. destruct (_ =? _); [done|]. apply (keeps_bind fst); [apply alloc_task|]. intros [s1 p].
  apply (keeps_bind (fun s => s)); [|done]. eapply keeps_eq; [|apply put_pte_task]. done.
Qed.

(** ** The region list *)
Definition region_ok (r : region) : Prop :=
  start r mod PAGE_SIZE = 0 /\ USER_VFLOOR <= start r /\ 0 < npages r /\ start r + npages r * PAGE_SIZE <= USER_STACK_TOP.
Definition apart (r r' : region) : Prop := r_end r <= start r' \/ r_end r' <= start r.
Fixpoint all_apart (rs : list region) : Prop :=
  match rs with [] => True | r :: rs => Forall (apart r) rs /\ all_apart rs end.
Fixpoint pages_of (rs : list region) : Z := match rs with [] => 0 | r :: rs => npages r + pages_of rs end.

Lemma all_apart_perm rs rs' : rs ≡ₚ rs' -> all_apart rs -> all_apart rs'.
Proof.
  induction 1 as [|r l l' P IH|r r' l|l1 l2 l3 P1 IH1 P2 IH2]; cbn; auto.
  - intros [F A]. split; [by rewrite <- P|auto].
  - intros [F1 [F2 A]]. apply Forall_cons in F1 as [Hr F1]. splits; auto. constructor; [|done]. unfold apart in *. tauto.
Qed.
Lemma pages_perm rs rs' : rs ≡ₚ rs' -> pages_of rs = pages_of rs'.
Proof. induction 1; cbn; lia. Qed.
Lemma region_at_Some rs st k i r : region_at rs st k = Some (i, r) -> exists j, i = (k + j)%nat /\ rs !! j = Some r /\ start r = st.
Proof.
  revert k. induction rs as [|r' rs IH]; intros k Hr; [done|]. cbn in Hr. destruct (Z.eqb_spec (start r') st).
  - injection Hr as <- <-. exists O. split; [lia|done].
  - apply IH in Hr as (j & -> & Hj & ?). exists (S j). split; [lia|done].
Qed.
(** [rs[i] = rs[--n]] removes region [i] from the multiset. *)
Lemma drop_region_perm rs i r : rs !! i = Some r -> rs ≡ₚ r :: drop_region rs i.
Proof.
  intros Hi. destruct rs as [|x l _] using rev_ind; [done|]. unfold drop_region. rewrite last_snoc. cbn [default].
  destruct (decide (i < length l)%nat) as [Hl|Hl].
  - rewrite lookup_app_l in Hi by done. rewrite insert_app_l by done. rewrite removelast_last.
    apply list_elem_of_split_length in Hi as (l1 & l2 & -> & ->).
    rewrite insert_app_r_alt, Nat.sub_diag by lia. cbn. rewrite Permutation_middle. solve_Permutation.
  - assert (i = length l) as -> by (apply lookup_lt_Some in Hi; rewrite length_app in Hi; cbn in Hi; lia).
    rewrite list_lookup_middle in Hi by done. injection Hi as ->.
    rewrite insert_app_r_alt, Nat.sub_diag by lia. cbn. rewrite removelast_last. symmetry. apply Permutation_cons_append.
Qed.

(** The invariant of a user task: its regions are page-aligned, inside the user
    range, disjoint, at most 32, and paid for within the task's limit. *)
Record regions_inv s : Prop := {
  ri_user : is_user s = true;
  ri_limit : mem_limit s < 2 ^ 51;
  ri_used : 0 <= mem_pages s <= mem_limit s;
  ri_count : len (regions s) <= MAX_USER_REGIONS;
  ri_ok : Forall region_ok (regions s);
  ri_apart : all_apart (regions s);
  ri_paid : pages_of (regions s) <= mem_pages s }.
Lemma regions_inv_task s s' : task_of s' = task_of s -> regions_inv s -> regions_inv s'.
Proof.
  intros E []. injection E as E1 E2 E3 E4 E5. assert (regions s' = regions s) as Er by (unfold regions; by rewrite E1, E2, E3).
  split; rewrite ?Er, ?E1, ?E4, ?E5; done.
Qed.
Lemma region_ok_end r : region_ok r -> r_end r = start r + npages r * PAGE_SIZE.
Proof.
  intros (_ & H1 & H2 & H3). unfold r_end, USER_STACK_TOP, USER_VFLOOR, PAGE_SIZE in *.
  rewrite (u64_small (npages r * 4096)), u64_small by lia. done.
Qed.
Lemma pages_nonneg rs : Forall region_ok rs -> 0 <= pages_of rs.
Proof. induction 1 as [|r rs (_ & _ & Hn & _)]; cbn; lia. Qed.

(** A reservation that passes every check does not wrap. *)
Lemma reservable_small s va n : regions_inv s -> word64 va -> word64 n -> reservable (regions s) va n = true ->
  over_cap s n = false ->
  let r := Region (PAGE_ALIGN_DOWN va) n 0 in
  region_ok r /\ mem_pages s + n <= mem_limit s /\ len (regions s) < MAX_USER_REGIONS /\
  forall r', r' ∈ regions s -> r_end r' <= start r \/ start r + n * PAGE_SIZE <= start r'.
Proof.
  intros [U L M C OK A P] Hva Hn Hres Hcap. unfold reservable in Hres. rewrite !andb_true_iff, !negb_true_iff in Hres.
  destruct Hres as ((((R1 & R2) & R3) & R4) & R5). apply Z.eqb_neq in R1. apply Z.ltb_ge in R2. apply Z.leb_gt in R5.
  apply orb_false_iff in R3 as [R3 R6]. apply Z.ltb_ge in R3, R6.
  unfold over_cap in Hcap. rewrite U in Hcap. cbn [andb] in Hcap. apply Z.ltb_ge in Hcap.
  set (st := PAGE_ALIGN_DOWN va) in *. unfold USER_VFLOOR, USER_STACK_TOP, word64, PAGE_SIZE in *.
  pose proof (u64_range (n * 4096)) as Hr0. pose proof (u64_range (st + u64 (n * 4096))) as Hr. set (en := u64 (st + u64 (n * 4096))) in *.
  assert (n < 2 ^ 51) as Hsmall.
  { unfold u64 in Hcap. destruct (Z.lt_ge_cases (mem_pages s + n) 18446744073709551616) as [G|G].
    - rewrite Z.mod_small in Hcap by lia. lia.
    - exfalso. assert (u64 (n * 4096) = n * 4096 - 4095 * 18446744073709551616) as E.
      { unfold u64. symmetry. apply (Z.mod_unique _ _ 4095); [left|]; lia. }
      destruct (Z.lt_ge_cases (st + u64 (n * 4096)) 18446744073709551616) as [G'|G'].
      + assert (en = st + u64 (n * 4096)) by (apply u64_small; lia). lia.
      + assert (en = st + u64 (n * 4096) - 18446744073709551616); [|lia].
        unfold en. set (x := u64 (n * 4096)) in *. unfold u64. symmetry. apply (Z.mod_unique _ _ 1); [left|]; lia. }
  assert (u64 (n * 4096) = n * 4096) as E1 by (apply u64_small; lia).
  assert (en = st + n * 4096) as E2.
  { unfold en. rewrite E1 in *. destruct (Z.lt_ge_cases (st + n * 4096) 18446744073709551616) as [G|G]; [apply u64_small; lia|].
    exfalso. assert (en = st + n * 4096 - 18446744073709551616); [|lia]. unfold en, u64. symmetry.
    apply (Z.mod_unique _ _ 1); [left|]; lia. }
  rewrite (u64_small (mem_pages s + n)) in Hcap by lia. cbn [start npages]. splits; auto.
  - unfold region_ok, USER_VFLOOR, USER_STACK_TOP, PAGE_SIZE. cbn [start npages]. splits; try lia.
    unfold st. rewrite align_down by done. by apply Z.mod_mul.
  - intros r' Hr'. assert (overlaps st en r' = false) as Ho.
    { destruct (overlaps st en r') eqn:Eo; [|done]. rewrite <- R4. symmetry. apply existsb_exists. exists r'.
      split; [by apply list_elem_of_In|done]. }
    unfold overlaps in Ho. apply andb_false_iff in Ho as [Ho|Ho]; apply Z.ltb_ge in Ho; lia.
Qed.

Lemma regions_with s rs : regions (with_regions rs s) = rs.
Proof. unfold regions, with_regions. destruct (is_user s) eqn:E; cbn; by rewrite E. Qed.
Lemma with_regions_task s rs : is_user (with_regions rs s) = is_user s /\ mem_pages (with_regions rs s) = mem_pages s /\
  mem_limit (with_regions rs s) = mem_limit s.
Proof. unfold with_regions. destruct (is_user s) eqn:E; cbn; rewrite E; done. Qed.
Lemma i64_small n : n < 9223372036854775808 -> i64 n = n.
Proof. intros. unfold i64. by rewrite (proj2 (Z.ltb_lt _ _)). Qed.
Lemma charge_up s n : is_user s = true -> 0 < n -> 0 <= mem_pages s -> mem_pages s + n <= mem_limit s -> mem_limit s < 2 ^ 51 ->
  sched_charge_pages n s = with_mem_pages (mem_pages s + n) s.
Proof.
  intros U Hn Hm Hl Hl2. unfold sched_charge_pages. rewrite U, (proj2 (Z.ltb_lt 0 n)), u64_small by lia. cbn [negb].
  by rewrite (proj2 (Z.ltb_ge (mem_limit s) (mem_pages s + n)) Hl).
Qed.
Lemma charge_down s n : is_user s = true -> 0 <= n <= mem_pages s ->
  sched_charge_pages (- n) s = with_mem_pages (mem_pages s - n) s.
Proof.
  intros U Hn. unfold sched_charge_pages. rewrite U, (proj2 (Z.ltb_ge 0 (- n))) by lia. cbn [negb].
  rewrite Z.opp_involutive, (proj2 (Z.leb_le n (mem_pages s))) by lia. done.
Qed.
(** The region a successful reservation adds, and what it charges. *)
Definition reserved s va n flags : vmm :=
  with_regions (regions s ++ [Region (PAGE_ALIGN_DOWN va) n (Z.lor flags PTE_US)]) (with_mem_pages (mem_pages s + n) s).
Lemma all_apart_snoc rs r : all_apart rs -> (forall r', r' ∈ rs -> apart r r') -> all_apart (rs ++ [r]).
Proof.
  intros A Hr. apply (all_apart_perm (r :: rs)); [apply Permutation_cons_append|]. split; [by apply Forall_forall|done].
Qed.
Lemma pages_snoc rs r : pages_of (rs ++ [r]) = pages_of rs + npages r.
Proof. rewrite <- (pages_perm _ _ (Permutation_cons_append rs r)). cbn. lia. Qed.
Lemma reserve_lazy s va n flags : regions_inv s -> word64 va -> word64 n -> reservable (regions s) va n = true ->
  over_cap s n = false ->
  regions_inv (reserved s va n flags) /\
  with_regions (regions (sched_charge_pages (i64 n) s) ++ [Region (PAGE_ALIGN_DOWN va) n (Z.lor flags PTE_US)])
    (sched_charge_pages (i64 n) s) = reserved s va n flags.
Proof.
  intros I Hva Hn Hres Hcap. destruct (reservable_small s va n) as ((R1 & R2 & R3 & R4) & Hm & Hl & Hap); auto.
  cbn [start npages] in *. destruct I as [U L M C OK A P].
  assert (i64 n = n) as -> by (apply i64_small; lia).
  rewrite charge_up by (done || lia). split; [|unfold reserved, regions; cbn; by rewrite U].
  unfold reserved. set (r := Region _ _ _). set (s1 := with_mem_pages _ _).
  destruct (with_regions_task s1 (regions s ++ [r])) as (E1 & E2 & E3).
  assert (region_ok r) as Hok by (split; [|split; [|split]]; done).
  split; rewrite ?regions_with, ?E1, ?E2, ?E3; cbn [s1 is_user mem_pages mem_limit with_mem_pages]; auto; try lia.
  - unfold len in *. rewrite length_app. cbn. lia.
  - apply Forall_app. auto.
  - apply all_apart_snoc; [done|]. intros r' Hr'. unfold apart. rewrite (region_ok_end r) by done. cbn [start npages r].
    destruct (Hap r' Hr'); lia.
  - rewrite pages_snoc. cbn [npages r]. lia.
Qed.
Lemma reserve_inv s va n flags opts s' x : regions_inv s -> word64 va -> word64 n ->
  vmm_user_reserve s va n flags opts = Ret (s', x) -> regions_inv s' /\ (x = 0 \/ x = -1).
Proof.
  intros I Hva Hn E. unfold vmm_user_reserve in E. destruct (reservable (regions s) va n) eqn:Hres; cbn [negb] in E.
  2: { injection E as <- <-. auto. }
  destruct (over_cap s n) eqn:Hcap. { injection E as <- <-. auto. }
  destruct (reserve_lazy s va n flags) as [I' Er]; auto. rewrite Er in E.
  destruct (has opts VMM_USER_LAZY). { injection E as <- <-. auto. }
  unfold each_region_page in E. rewrite each_page_fold in E.
  match type of E with obind ?r _ = _ => assert (keeps_task (fun s => s) (reserved s va n flags) r) as K1 by apply map_fresh_fold; destruct r; [|done] end.
  injection E as <- <-. split; [|auto]. by apply (regions_inv_task (reserved s va n flags)).
Qed.
Lemma release_inv s va : regions_inv s -> regions_inv (fst (vmm_user_release s va)).
Proof.
  intros I. unfold vmm_user_release. destruct (region_at _ _ _) as [[i r]|] eqn:Er; [|done]. cbn [fst].
  apply region_at_Some in Er as (j & -> & Hj & _). cbn [Nat.add]. pose proof (drop_region_perm _ _ _ Hj) as Pm.
  set (s1 := unmap_region s r). assert (task_of s1 = task_of s) as Et by apply unmap_region_task.
  apply (regions_inv_task s s1 Et) in I as I1. assert (regions s1 = regions s) as Ers.
  { injection Et as E1 E2 E3 _ _. unfold regions. by rewrite E1, E2, E3. }
  rewrite <- Ers in Pm. destruct I1 as [U L M C OK A P].
  rewrite Pm in OK. apply Forall_cons in OK as [Hr OK]. rewrite (pages_perm _ _ Pm) in P. cbn in P.
  apply (all_apart_perm _ _ Pm) in A. pose proof (pages_nonneg _ OK). destruct Hr as (R1 & R2 & R3 & R4).
  unfold USER_STACK_TOP, USER_VFLOOR, PAGE_SIZE in *.
  assert (i64 (npages r) = npages r) as -> by (apply i64_small; lia).
  rewrite charge_down by (done || lia). set (s2 := with_mem_pages _ _).
  replace (regions s2) with (regions s1) by done. rewrite Ers in *.
  destruct (with_regions_task s2 (drop_region (regions s) j)) as (E1 & E2 & E3).
  split; rewrite ?regions_with, ?E1, ?E2, ?E3; cbn [s2 is_user mem_pages mem_limit with_mem_pages]; auto; try lia.
  - pose proof (Permutation_length Pm) as Hlen. cbn in Hlen. unfold len in *. lia.
  - apply A.
Qed.
Lemma demand_fault_inv s page r s' b : regions_inv s -> demand_fault s page r = Ret (s', b) -> regions_inv s'.
Proof.
  intros I E. unfold demand_fault in E. destruct r as [r|]; [|by injection E as <- <-].
  destruct (over_cap s 1) eqn:Hcap; [by injection E as <- <-|]. destruct I as [U L M C OK A P].
  unfold over_cap in Hcap. rewrite U, u64_small in Hcap by lia. cbn [andb] in Hcap. apply Z.ltb_ge in Hcap.
  rewrite charge_up in E by (done || lia). set (s1 := with_mem_pages _ _) in E.
  assert (regions_inv s1) as I1 by (split; [exact U|exact L|cbn; lia|exact C|exact OK|exact A|etrans; [exact P|cbn; lia]]).
  pose proof (alloc_task s1) as K1. destruct (alloc_page s1) as [[s2 p]|]; [|done]. cbn in K1, E.
  assert (regions_inv s2) as I2 by by apply (regions_inv_task s1).
  destruct (p =? 0).
  - injection E as <- _. destruct I2 as [U2 L2 M2 C2 OK2 A2 P2]. injection K1 as K11 K12 K13 K14 K15.
    change (sched_charge_pages (-1) s2) with (sched_charge_pages (- (1)) s2). rewrite charge_down by (done || lia).
    split; [exact U2|exact L2|cbn; rewrite K14, K15; cbn; lia|exact C2|exact OK2|exact A2|]. cbn [mem_pages with_mem_pages].
    assert (regions s2 = regions s) as Ers by (change (regions s2 = regions s1); unfold regions; by rewrite K11, K12, K13).
    change (pages_of (regions s2) <= mem_pages s2 - 1). rewrite Ers, K14. cbn. lia.
  - pose proof (put_pte_task) as Hp. unfold vmm_map, vmm_map_in in E.
    match type of E with obind (put_pte ?s ?r ?v ?f ?e) _ = _ => specialize (Hp s r v f e); destruct (put_pte s r v f e); [|done] end.
    injection E as <- _. by apply (regions_inv_task s2).
Qed.
Lemma fault_inv s va w s' b : regions_inv s -> vmm_resolve_user_fault s va w = Ret (s', b) -> regions_inv s'.
Proof.
  intros I E. unfold vmm_resolve_user_fault in E. destruct (walk_pte _ _ _) as [a|]; [|by eapply demand_fault_inv].
  destruct (has _ PTE_SWAP).
  { pose proof (swap_in_task s (PAGE_ALIGN_DOWN va)) as K1. destruct (vmm_swap_in _ _) as [[s1 e]|]; [|done].
    injection E as <- _. by apply (regions_inv_task s). }
  destruct (negb _); [by eapply demand_fault_inv|]. destruct (_ && _); [|by injection E as <- <-].
  pose proof (cow_break_task s (PAGE_ALIGN_DOWN va) a) as K1. rewrite E in K1. by apply (regions_inv_task s).
Qed.

(** ** Runs of the operations of a user task *)
Inductive vmm_step s : vmm -> Prop :=
| step_reserve va n flags opts s' r : word64 va -> word64 n -> vmm_user_reserve s va n flags opts = Ret (s', r) -> vmm_step s s'
| step_release va : vmm_step s (fst (vmm_user_release s va))
| step_fault va w s' ok : vmm_resolve_user_fault s va w = Ret (s', ok) -> vmm_step s s'
| step_map pml4 v p flags s' : vmm_map_in s pml4 v p flags = Ret s' -> vmm_step s s'
| step_unmap pml4 v : vmm_step s (vmm_unmap_in s pml4 v)
| step_flags pml4 v flags : vmm_step s (vmm_set_flags_in s pml4 v flags)
| step_evict n : vmm_step s (fst (vmm_evict_some s n))
| step_switch p : vmm_step s (vmm_switch_pml4 s p).
Inductive vmm_runs s : vmm -> Prop :=
| runs_refl : vmm_runs s s
| runs_step s1 s2 : vmm_runs s s1 -> vmm_step s1 s2 -> vmm_runs s s2.
Lemma vmm_step_inv s s' : vmm_step s s' -> regions_inv s -> regions_inv s'.
Proof.
  destruct 1 as [va n flags opts s' r Hva Hn E|va|va w s' ok E|pml4 v p flags s' E|pml4 v|pml4 v flags|n|p]; intros I.
  - by eapply (reserve_inv s va n flags opts s' r).
  - by apply release_inv.
  - by eapply fault_inv.
  - pose proof (put_pte_task s pml4 v flags (leaf_entry p flags)) as K1. unfold vmm_map_in in E. unfold leaf_entry in K1.
    rewrite E in K1. by apply (regions_inv_task s).
  - apply (regions_inv_task s); [apply unmap_task|done].
  - apply (regions_inv_task s); [|done]. unfold vmm_set_flags_in. destruct (walk_pte _ _ _); [|done]. by destruct (negb _).
  - apply (regions_inv_task s); [apply evict_task|done].
  - by apply (regions_inv_task s).
Qed.
End Spec.

(** * Properties *)

(** [C18] Page tables refine a map from user pages to entries. With three frames free
    (and no allocation made to fail on purpose), mapping a page of user space succeeds and
    takes exactly one frame for each of the three tables on the way that is missing, none
    when they are there; frames in use stay in use with their reference counts. It sets
    the entry of that page and no other, keeps the tree well formed, and
    [vmm_translate_in] then returns exactly the mapped frame. *)
Theorem vmm_map_refines `{SwapDisk} `{!OomKiller} s root v p flags :
  wf s root -> user_va v -> word64 p -> word64 flags -> oom_force (pm s) = false ->
  used_pages (pm s) + 3 <= total_pages (pm s) ->
  exists s', vmm_map_in s root v p flags = Ret s' /\ wf s' root /\
    used_pages (pm s') = used_pages (pm s) + missing_tables s root v /\
    (forall i, 0 <= i -> bit_tst (bitmap (pm s)) i = true ->
       bit_tst (bitmap (pm s')) i = true /\ (refs (pm s')).[i] = (refs (pm s)).[i]) /\
    (forall v', user_va v' -> mapped s' root v' =
       if v / 4096 =? v' / 4096 then Some (Z.lor (Z.lor (frame_bits p) flags) PTE_PRESENT) else mapped s root v') /\
    (forall v', user_va v' -> v / 4096 <> v' / 4096 -> vmm_translate_in s' root v' = vmm_translate_in s root v') /\
    (addr_of flags = 0 -> addr_of p = p ->
       forall v', user_va v' -> v / 4096 = v' / 4096 -> vmm_translate_in s' root v' = Z.lor p (Z.land v' 4095)).
Proof.
  intros W Hv Hp Hf Ho Hu. destruct (map_spec s root v p flags) as (s' & E & [W' M _ _ _ _ B _]); auto.
  pose proof (map_used s root v p flags s' W Hv Ho Hu E) as U.
  exists s'. split; [done|]. split; [done|]. split; [done|]. split; [done|]. rewrite present_leaf in M by done. split; [done|]. split.
  - intros v' Hv' N. rewrite !translate_mapped, M by done. by rewrite (proj2 (Z.eqb_neq _ _) N).
  - intros F1 F2 v' Hv' E2. rewrite !translate_mapped, M, E2, Z.eqb_refl by done. unfold leaf_entry.
    rewrite !addr_of_lor, F1. change (addr_of PTE_PRESENT) with 0. rewrite !Z.lor_0_r.
    replace (addr_of (frame_bits p)) with (addr_of p); [by rewrite F2|]. unfold frame_bits. by rewrite !addr_of_eq, <- Z.land_assoc.
Qed.

(** Unmapping a page whose frame is not one of the tables removes its
    entry and no other, keeps the tree well formed and drops exactly one
    reference to the frame; unmapping a page that is not mapped changes
    nothing. *)
Theorem vmm_unmap_refines `{SwapDisk} `{!OomKiller} s root v :
  wf s root -> user_va v ->
  match mapped s root v with
  | None => vmm_unmap_in s root v = s
  | Some e =>
    1048576 <= addr_of e -> ~ is_table s root (addr_of e) ->
    let s' := vmm_unmap_in s root v in
    wf s' root /\ (forall v', user_va v' -> mapped s' root v' = if v / 4096 =? v' / 4096 then None else mapped s root v') /\
    exists s1, leaf_set s s1 root v 0 /\ s' = unref_page (addr_of e) s1
  end.
Proof.
  intros W Hv. unfold mapped at 1, vmm_unmap_in. destruct (walk_pte s root v) as [a|] eqn:Ea; [|done]. unfold present.
  destruct (has (word s a) PTE_PRESENT) eqn:Eh; [|done]. cbn [negb]. intros H1 Hn.
  rewrite walk_tables in Ea. destruct (tables s root (indices v)) as [pt|] eqn:Ept; [|done]. injection Ea as <-.
  assert (leaf_set s (set_word s (pt + 8 * index_at v 12) 0) root v 0) as L by by apply set_leaf.
  pose proof L as [W1 T1 M1 _ _ _].
  set (e := word s (pt + 8 * index_at v 12)) in *. set (s1 := set_word s (pt + 8 * index_at v 12) 0) in *.
  destruct (wf_unref s1 root (addr_of e)) as (W2 & T2 & M2); auto.
  - apply addr_of_aligned.
  - intros (q & Hq & Hx). apply Hn. exists q. by rewrite <- T1.
  - split; [done|]. split; [|by exists s1]. intros v' Hv'. rewrite M2, M1 by done. done.
Qed.

(** [vmm_user_find_free] terminates and is first fit: it returns the
    lowest page-aligned address at or above [st] where [n] pages below [limit]
    overlap no region of the task, and 0 exactly when there is none. *)
Theorem find_free_first_fit `{SwapDisk} s st n limit :
  0 < st < 2 ^ 62 -> 0 <= n < 2 ^ 50 ->
  (forall r, r ∈ regions s -> r_end r < 2 ^ 63 /\ r_end r mod PAGE_SIZE = 0) ->
  exists x, vmm_user_find_free s st n limit = Some x /\
    first_fit (regions s) (PAGE_ALIGN_UP st) (n * PAGE_SIZE) limit x /\ x mod PAGE_SIZE = 0.
Proof.
  intros Hst Hn Hrs. unfold vmm_user_find_free. rewrite page_align_up_eq in *.
  assert (0 < (st + 4095) / 4096 * 4096 < 2 ^ 63) as Ha.
  { pose proof (Z.mul_div_le (st + 4095) 4096). pose proof (Z_div_mod_eq_full (st + 4095) 4096).
    pose proof (Z.mod_pos_bound (st + 4095) 4096). lia. }
  rewrite (u64_small (n * PAGE_SIZE)), (u64_small ((st + 4095) / 4096 * 4096)) by (unfold PAGE_SIZE; lia).
  destruct (find_free_from_fit (S (length (regions s))) (regions s) ((st + 4095) / 4096 * 4096) (n * PAGE_SIZE) limit)
    as (x & -> & F & Hx); [pose proof (ahead_length (regions s) ((st + 4095) / 4096 * 4096)); lia|unfold PAGE_SIZE; lia|done|by apply Hrs|].
  exists x. split; [done|]. split; [done|].
  destruct Hx as [-> | [-> | (r & Hr & ->)]]; [done|by apply Z.mod_mul|by apply Hrs].
Qed.

(** Swapping out and faulting back in restores a page. From a well-formed
    state with a free RAM slot and four free frames, evicting a data page
    removes its mapping and keeps every other; the next access brings a frame
    with the same bytes back under the region's flags, every other mapping
    still in place, and gives the slot back. *)
Theorem swap_roundtrip `{SwapDisk} `{!OomKiller} s b va e i slot w :
  wf s (cur_pml4 s) -> pool_at s (cur_pml4 s) b -> user_va va -> va mod PAGE_SIZE = 0 ->
  data_page s (cur_pml4 s) b va e i -> scan_free (swap_used s) (Z.to_nat SWAP_SLOTS) 0 = Some slot ->
  word64 (fault_flags s va) -> oom_force (pm s) = false -> used_pages (pm s) + 4 <= total_pages (pm s) ->
  len (swap_used s) = 16 ->
  exists s1 s2 f, vmm_swap_out s va = (s1, slot) /\ vmm_translate s1 va = 0 /\
    vmm_resolve_user_fault s1 va w = Ret (s2, true) /\ wf s2 (cur_pml4 s) /\
    (forall v, user_va v -> mapped s2 (cur_pml4 s) v =
       if va / 4096 =? v / 4096 then Some (leaf_entry (f * PAGE_SIZE) (fault_flags s va)) else mapped s (cur_pml4 s) v) /\
    page_bytes (ram s2) (f * PAGE_SIZE) = page_bytes (ram s) (i * PAGE_SIZE) /\
    (forall j, 0 <= j < 1024 -> bit_tst (swap_used s2) j = bit_tst (swap_used s) j).
Proof.
  intros W P Hv Hva D Hsc Hfl Ho Hu Hlen. pose proof (scan_free_Some _ _ _ _ Hsc) as [Hslot Hfree].
  change (Z.to_nat SWAP_SLOTS) with 1024%nat in Hslot.
  destruct (swap_out_spec s b va e i slot) as (s1 & E1 & [W1 (pt & T1 & Ew) M1 Tb1 S1 R1 Tot1 O1 U1 B1]); auto.
  assert (cur_pml4 s1 = cur_pml4 s) as Ecur by (unfold cur_pml4; by rewrite R1).
  assert (forall t, is_table s1 (cur_pml4 s) t -> is_table s (cur_pml4 s) t) as Htab.
  { intros t (q & Hq & Ht). exists q. split; [done|]. by rewrite <- Tb1. }
  assert (pool_at s1 (cur_pml4 s1) b) as P1.
  { destruct P as [P1 P2 P3 P4]. rewrite Ecur. split; auto; [by rewrite R1|..].
    - intros k Hk. rewrite B1; [auto|lia|]. destruct (dp_pool _ _ _ _ _ _ D); lia.
    - intros k Hk X. by apply (P4 k), Htab. }
  assert (fault_flags s1 va = fault_flags s va) as Efl by (unfold fault_flags, find_region, regions; by rewrite R1).
  rewrite <- Ecur in W1, T1.
  destruct (swap_in_spec s1 b va pt slot) as (s2 & f & E2 & [R2 W2 M2 X2 L2]); auto; try lia; [by rewrite Efl|by rewrite O1|].
  destruct (swap_entry_spec slot) as (N1 & N2 & _); [lia|].
  exists s1, s2, f. split; [done|]. split.
  { unfold vmm_translate. rewrite translate_mapped, Ecur, M1, Z.eqb_refl by done. done. }
  split. { unfold vmm_resolve_user_fault. rewrite align_id, walk_tables, T1, Ew, N2, E2 by done. done. }
  split; [by rewrite <- Ecur|]. rewrite <- Ecur. split; [|split].
  - intros v Hv'. rewrite M2, Efl, Ecur, M1 by done. by destruct (_ =? _).
  - apply page_bytes_ext. intros k Hk. rewrite X2 by done. rewrite <- S1 by done. unfold slot_addr. by rewrite R1.
  - intros j Hj. rewrite L2, R1. cbn [swap_used with_pm with_swap_used].
    rewrite bit_clr_tst by (unfold bits_cover; rewrite ?len_bit_set; lia).
    rewrite bit_set_tst by (unfold bits_cover; lia).
    destruct (Z.eqb_spec slot j) as [<-|]; cbn; [by rewrite Hfree|done].
Qed.

(** [C25] After a fork the regions' pages are shared read-only, and every reference is
    accounted for. Let the child's tables be a copy of the parent's, with no table in
    common, and let the parent map no huge page in the user half. Then in both address
    spaces every present private page of a region maps the parent's frame with the
    copy-on-write entry, and every other page keeps its mapping. Each frame in use stays
    in use and gains exactly one reference for every page of a region that maps it
    ([visits], the first pass), and one for every page outside the regions that maps it
    as a kernel-shared buffer ([canvases], the second pass), provided its count can take
    them: references, region pages and those buffers together are at most 65535, where
    the count saturates. *)
Theorem cow_fork_shares `{SwapDisk} `{!OomKiller} s parent child :
  forking s parent child -> no_huge s parent -> Forall user_va (flat_map region_addrs (regions s)) ->
  (forall v, user_va v -> mapped s child v = mapped s parent v) ->
  let P := flat_map region_addrs (regions s) in
  exists s', vmm_cow_fork s child = Ret s' /\
    (forall v, user_va v -> mapped s' parent v = share P v (mapped s parent v) /\
                            mapped s' child v = share P v (mapped s parent v)) /\
    (forall j, 0 <= j < total_pages (pm s) -> bit_tst (bitmap (pm s)) j = true ->
       (refs (pm s)).[j] + Z.of_nat (length P) + canvases s parent j <= 65535 ->
       bit_tst (bitmap (pm s')) j = true /\
       (refs (pm s')).[j] = (refs (pm s)).[j] + visits s parent P j + canvases s parent j).
Proof.
  intros F Hh HP Hclone P. destruct (cow_share_list P s parent child F HP) as (s1 & E & F1 & MP & MC & Rest & Inn & Tot & R).
  unfold vmm_cow_fork. rewrite region_fold. fold P. rewrite E. cbn [obind]. exists (ref_noshr_all s1). split; [done|].
  assert (regions s1 = regions s) as Er by by rewrite Rest.
  assert (no_huge s1 parent) as Hh1.
  { intros i3 pd i2 H3 H2 T. assert (upath [0; i3]) as U by (split; [repeat (apply Forall_cons_2; [lia|]); by apply Forall_nil_2|by split; [|cbn; lia]]).
    rewrite (inner_tables s s1) in T by done. destruct (Inn [0; i3] pd i2) as [_ ->]; auto. by apply (Hh i3). }
  pose proof (fk_cur _ _ _ F1) as C1. pose proof (canvases_share s s1 parent) as Hc.
  assert (forall j, gains j (canvases s parent j) s1 (ref_noshr_all s1)) as G.
  { intros j. rewrite <- (Hc j P), <- C1; auto; [|apply F]. apply ref_noshr_all_gains; [apply F1|by rewrite C1]. }
  split.
  - intros v Hv. rewrite !(gains_mapped _ _ _ _ _ _ (G 0)), MP, MC, Hclone by done. split; [done|]. unfold child_share, share.
    destruct (mapped s parent v); [|done]. by destruct (_ && _).
  - intros j Hj Hb Hr. pose proof (gn_pos _ _ _ _ (G j)). pose proof (visits_range s parent P j).
    destruct (R j) as [Hb1 Hr1]; auto; [lia|]. destruct (gn_bits _ _ _ _ (G j)) as [_ B]. rewrite B. split; [done|].
    rewrite (gn_refs _ _ _ _ (G j)); [lia|apply F1|by rewrite Tot|done|lia].
Qed.

(** A write to a copy-on-write page gives the writer a page of its own.
    The last owner keeps its frame and gets the write permission back; while
    others hold the frame the writer gets a fresh frame with the same bytes,
    the shared frame keeps its bytes and loses one reference, and no other
    mapping changes. *)
Theorem cow_write_resolves `{SwapDisk} `{!OomKiller} s va e i :
  wf s (cur_pml4 s) -> user_va va -> cow_page s (cur_pml4 s) (PAGE_ALIGN_DOWN va) e i ->
  1 <= (refs (pm s)).[i] -> oom_force (pm s) = false -> used_pages (pm s) + 4 <= total_pages (pm s) ->
  exists s', vmm_resolve_user_fault s va true = Ret (s', true) /\
  if (refs (pm s)).[i] =? 1 then
    let e' := Z.land (Z.lor e PTE_RW) (u64 (Z.lnot PTE_COW)) in
    (forall v, user_va v -> mapped s' (cur_pml4 s) v = if va / 4096 =? v / 4096 then Some e' else mapped s (cur_pml4 s) v) /\
    addr_of e' = i * PAGE_SIZE /\ has e' PTE_RW = true /\ has e' PTE_COW = false
  else exists f, cow_copied s s' (cur_pml4 s) va i f.
Proof.
  intros W Hv CP Hr Ho Hu. destruct (Z.eqb_spec ((refs (pm s)).[i]) 1) as [E1|N].
  2: { destruct (cow_copy s (cur_pml4 s) va e i) as (s' & f & E & C); auto; [lia|]. eauto. }
  destruct (cow_fault s (cur_pml4 s) va e i) as (pt & Ept & -> & Ew); auto. destruct (align_user va Hv) as [Hv' Epg].
  destruct CP as [C1 C2 C3 C4 C5 [C6 C7] C8]. unfold cow_break. rewrite Ew, C5. unfold pmm_refcount.
  rewrite page_index, (proj2 (Z.leb_gt _ _)), E1 by lia. cbn [Z.eqb Pos.eqb]. eexists. split; [reflexivity|].
  assert (word64 e) as He by by apply (mapped_word s (cur_pml4 s) (PAGE_ALIGN_DOWN va)).
  set (page := PAGE_ALIGN_DOWN va) in *. set (e1 := Z.lor e PTE_RW).
  assert (word64 e1) as He1 by by apply word64_lor.
  destruct (set_leaf s (cur_pml4 s) page pt e1) as [W1 T1 M1 _ _ _]; auto. set (s1 := set_word s _ e1) in *.
  assert (word s1 (pt + 8 * index_at page 12) = e1) as -> by by apply ld64_st64_eq.
  set (e2 := Z.land e1 _). assert (word64 e2) as He2 by by apply word64_land.
  destruct (set_leaf s1 (cur_pml4 s) page pt e2) as [_ _ M2 _ _ _]; auto; [rewrite T1; [done|by apply upath_indices]|].
  assert (forall k, 0 <= k -> k <> 9 -> Z.testbit e2 k = Z.testbit e1 k) as Hbit.
  { intros k Hk N. unfold e2. rewrite Z.land_spec. destruct (Z.lt_ge_cases k 64).
    - replace (Z.testbit (u64 (Z.lnot PTE_COW)) k) with true; [apply andb_true_r|].
      unfold u64, PTE_COW. change 18446744073709551616 with (2 ^ 64). rewrite Z.mod_pow2_bits_low, Z.lnot_spec by lia.
      change 512 with (2 ^ 9). by rewrite Z.pow2_bits_false by lia.
    - rewrite (testbit_small e1 64) by (unfold word64 in He1; lia). done. }
  assert (present e2 = Some e2) as Hp.
  { unfold present. destruct (mapped_Some _ _ _ _ C1) as (_ & _ & _ & _ & Eh).
    change PTE_PRESENT with (Z.shiftl 1 0) in *. rewrite has_testbit in * by lia. rewrite Hbit by lia. unfold e1.
    rewrite Z.lor_spec, Eh. done. }
  splits.
  - intros v Hvv. rewrite M2, M1, Hp, Epg by done. by destruct (_ =? _).
  - rewrite <- C5, !addr_of_eq. unfold e2. rewrite <- Z.land_assoc.
    change (Z.land (u64 (Z.lnot PTE_COW)) 9223372036854771712) with 9223372036854771712. rewrite <- !addr_of_eq.
    unfold e1. rewrite addr_of_lor. apply Z.lor_0_r.
  - change PTE_RW with (Z.shiftl 1 1). rewrite has_testbit, Hbit by lia. unfold e1. rewrite Z.lor_spec. apply orb_true_r.
  - unfold e2, has. rewrite <- Z.land_assoc. change (Z.land (u64 (Z.lnot PTE_COW)) PTE_COW) with 0. by rewrite Z.land_0_r.
Qed.

(** [C33] Whatever a user task does with its address space - reserving,
    releasing, faulting, mapping, unmapping, evicting - its regions stay
    page-aligned, inside the user range, pairwise disjoint and at most 32, no
    length wraps around, and their pages are paid for within its limit. *)
Theorem regions_runs_inv `{SwapDisk} `{!OomKiller} `{!OomLaws} s s' :
  regions_inv s -> vmm_runs s s' -> regions_inv s'.
Proof. intros I. induction 1 as [|s1 s2 _ IH E]; [done|]. by apply (vmm_step_inv s1). Qed.

(** A lazily reserved page is charged twice: reserving [n] pages charges
    [n], the first touch of one of them charges one more, and releasing the
    region gives only [n] back, so the page stays on the account for good. *)
Theorem lazy_page_charged_twice `{SwapDisk} `{!OomKiller} `{!OomLaws} s va n flags s1 addr w s2 :
  regions_inv s -> word64 va -> word64 n ->
  vmm_user_reserve s va n flags VMM_USER_LAZY = Ret (s1, 0) ->
  match walk_pte s1 (cur_pml4 s1) (PAGE_ALIGN_DOWN addr) with
  | Some a => has (word s1 a) PTE_SWAP = false /\ has (word s1 a) PTE_PRESENT = false | None => True end ->
  vmm_resolve_user_fault s1 addr w = Ret (s2, true) ->
  mem_pages s1 = mem_pages s + n /\ mem_pages s2 = mem_pages s + n + 1 /\
  (forall s3, vmm_user_release s2 va = (s3, 0) ->
     (forall r, r ∈ regions s -> start r <> PAGE_ALIGN_DOWN va) -> mem_pages s3 = mem_pages s + 1).
Proof.
  intros I Hva Hn E1 Hw E2. unfold vmm_user_reserve in E1.
  destruct (reservable (regions s) va n) eqn:Hres; cbn [negb] in E1; [|done].
  destruct (over_cap s n) eqn:Hcap; [done|]. destruct (reserve_lazy s va n flags) as [I1 Er]; auto. rewrite Er in E1.
  change (has VMM_USER_LAZY VMM_USER_LAZY) with true in E1. injection E1 as <-.
  destruct (reservable_small s va n) as ((R1 & R2 & R3 & R4) & Hm & _); auto. cbn [start npages] in *.
  set (s1 := reserved s va n flags) in *. destruct (with_regions_task (with_mem_pages (mem_pages s + n) s)
    (regions s ++ [Region (PAGE_ALIGN_DOWN va) n (Z.lor flags PTE_US)])) as (X1 & X2 & X3).
  assert (mem_pages s1 = mem_pages s + n) as Em by exact X2. split; [done|].
  assert (demand_fault s1 (PAGE_ALIGN_DOWN addr) (find_region s1 addr) = Ret (s2, true)) as Ed.
  { unfold vmm_resolve_user_fault in E2. destruct (walk_pte _ _ _); [|done]. destruct Hw as [Hw1 Hw2]. by rewrite Hw1, Hw2 in E2. }
  assert (task_of s2 = task_of (with_mem_pages (mem_pages s + n + 1) s1)) as Et.
  { unfold demand_fault in Ed. destruct (find_region s1 addr) as [r|]; [|done]. destruct (over_cap s1 1) eqn:Hc1; [done|].
    pose proof I1 as [U L M C OK A P]. unfold over_cap in Hc1. rewrite U, u64_small in Hc1 by lia. cbn [andb] in Hc1.
    apply Z.ltb_ge in Hc1. rewrite charge_up, Em in Ed by (done || lia).
    set (s1' := with_mem_pages _ s1) in *. pose proof (alloc_task s1') as K1. destruct (alloc_page s1') as [[s4 p]|]; [|done].
    cbn [obind] in Ed. destruct (p =? 0); [done|]. pose proof put_pte_task as Hp. unfold vmm_map, vmm_map_in in Ed.
    match type of Ed with obind (put_pte ?s ?r ?v ?f ?e) _ = _ => specialize (Hp s r v f e); destruct (put_pte s r v f e); [|done] end.
    injection Ed as <-. cbn in Hp, K1. congruence. }
  assert (regions s2 = regions s1) as Ers.
  { injection Et as T1 T2 T3 _ _. unfold regions. by rewrite T1, T2, T3. }
  assert (mem_pages s2 = mem_pages s + n + 1) as Em2 by (injection Et; done). split; [done|].
  intros s3 Erel Hdist. unfold vmm_user_release in Erel. rewrite Ers in Erel.
  assert (regions s1 = regions s ++ [Region (PAGE_ALIGN_DOWN va) n (Z.lor flags PTE_US)]) as Er1 by apply regions_with.
  destruct (region_at (regions s1) (PAGE_ALIGN_DOWN va) 0) as [[i r]|] eqn:Ea; [|done].
  apply region_at_Some in Ea as (j & -> & Hj & Hst). rewrite Er1 in Hj.
  assert (npages r = n) as Hnp.
  { apply lookup_app_Some in Hj as [Hj|[_ Hj]].
    - by destruct (Hdist r); [eapply list_elem_of_lookup_2|].
    - apply list_elem_of_lookup_2, list_elem_of_singleton in Hj. by subst r. }
  injection Erel as <-. rewrite Hnp.
  set (s4 := unmap_region s2 r). assert (task_of s4 = task_of s2) as E4 by apply unmap_region_task.
  assert (is_user s4 = true) as U4.
  { injection E4 as -> _ _ _ _. injection Et as -> _ _ _ _. exact (ri_user _ I1). }
  assert (mem_pages s4 = mem_pages s + n + 1) as M4 by (injection E4; intros; congruence).
  unfold USER_STACK_TOP, USER_VFLOOR, PAGE_SIZE in R2, R3, R4. rewrite i64_small by lia. pose proof (ri_used _ I). rewrite charge_down by (done || lia).
  match goal with |- mem_pages (with_regions ?rs ?s) = _ => destruct (with_regions_task s rs) as (_ & -> & _) end. cbn. lia.
Qed.

(** * Witnesses: a machine of 1400 frames *)
(** No disk; nothing to kill. Frames 256 and 257 are two empty address spaces,
    258 to 1281 the swap pool, 1282 a data frame. *)
Definition no_disk : SwapDisk :=
  {| disk := unit; blk_disk_sectors := fun _ => 0; blk_write_sectors := fun d _ _ => (d, false);
     blk_read_sectors := fun _ _ => None |}.
Definition no_kill : @OomKiller no_disk := {| oom_kill_one := fun s => (0, s) |}.
#[local] Existing Instance no_disk.
#[local] Existing Instance no_kill.
Definition big_pmm : pmm :=
  match pmm_init [MemmapEntry 0 (1400 * PAGE_SIZE) 0] (fun _ => 170) with
  | Ret s => s | Panic => Pmm [] [] 0 0 0 0 0 0 false (fun _ => 0) end.
Definition demo_frames : pmm := alloc_run 1027 big_pmm 256.
Definition demo_vmm : vmm :=
  Vmm demo_frames 0 (256 * PAGE_SIZE) (256 * PAGE_SIZE) true [Region 1073741824 1 (Z.lor PTE_RW PTE_US)] [] 1 100
    (258 * PAGE_SIZE) (replicate 16 0) false 0 0 [] 0 0 None.
#[local] Instance no_kill_laws : OomLaws.
Proof. intros s. reflexivity. Qed.

Lemma big_pmm_init : pmm_init [MemmapEntry 0 (1400 * PAGE_SIZE) 0] (fun _ => 170) = Ret big_pmm.
Proof. vm_compute. reflexivity. Qed.
Lemma big_pmm_inv : pmm_inv big_pmm.
Proof. apply (pmm_init_inv [MemmapEntry 0 (1400 * PAGE_SIZE) 0] (fun _ => 170)); [vm_compute; discriminate|apply big_pmm_init]. Qed.
Lemma big_pmm_total : total_pages big_pmm = 1400.
Proof. vm_compute. reflexivity. Qed.
Lemma big_pmm_run : run_free (bitmap big_pmm) 256 1027.
Proof.
  intros j Hj. assert (forallb (fun j => negb (bit_tst (bitmap big_pmm) j)) (seqZ 256 1027) = true) as F by (vm_compute; reflexivity).
  rewrite forallb_forall in F. apply negb_true_iff, F, list_elem_of_In, elem_of_seqZ. lia.
Qed.
Lemma pmm_init_mem mm m s : pmm_init mm m = Ret s -> mem s = m /\ oom_force s = false.
Proof.
  unfold pmm_init. destruct (carve_region mm _) as [[? mm1]|]; [|done]. destruct (carve_region mm1 _) as [[? mm2]|]; [|done].
  destruct (reserve_low _ _ _ _) as [bm2 rf2]. by intros [= <-].
Qed.
Lemma big_pmm_byte a : byte (mem big_pmm a).
Proof. by rewrite (proj1 (pmm_init_mem _ _ _ big_pmm_init)). Qed.
Lemma demo_allocated : pmm_inv demo_frames /\ allocated big_pmm demo_frames 256 1027.
Proof.
  split.
  - apply (alloc_run_inv 1027); [apply big_pmm_inv|lia|rewrite big_pmm_total; lia|apply big_pmm_run].
  - apply (alloc_run_spec 1027); [apply big_pmm_inv|lia|rewrite big_pmm_total; lia|apply big_pmm_run].
Qed.
Lemma demo_bits j : 256 <= j < 1283 -> bit_tst (bitmap demo_frames) j = true /\ (refs demo_frames).[j] = 1.
Proof.
  intros Hj. destruct demo_allocated as [_ A]. rewrite (al_bits _ _ _ _ A), (al_refs _ _ _ _ A) by lia.
  by rewrite (proj2 (Z.leb_le 256 j)), (proj2 (Z.ltb_lt j (256 + 1027))) by lia.
Qed.
Lemma demo_total : total_pages demo_frames = 1400 /\ used_pages demo_frames <= 1283 + 1 /\ oom_force demo_frames = false.
Proof.
  destruct demo_allocated as [_ A]. rewrite (al_total _ _ _ _ A), (al_used _ _ _ _ A).
  assert (used_pages big_pmm <= 257) as Hu by (vm_compute; discriminate). rewrite big_pmm_total.
  pose proof (proj2 (pmm_init_mem _ _ _ big_pmm_init)) as O.
  split; [done|]. split; [lia|]. unfold demo_frames. rewrite <- O. generalize big_pmm as p, 256 as k. clear. generalize 1027%nat as n.
  intros n. induction n as [|n IH]; intros p k; [done|]. cbn [alloc_run]. by rewrite IH.
Qed.
#[local] Opaque demo_frames big_pmm.
Lemma allocated_bytes p p' i n : allocated p p' i n -> byte_mem (mem p) -> byte_mem (mem p').
Proof. intros A B a. rewrite (al_mem _ _ _ _ A). destruct (_ && _); [done|apply B]. Qed.
(** An owned frame whose first word is not present is an empty address space. *)
Lemma empty_tables `{SwapDisk} s root : has (entry s root 0) PTE_PRESENT = false -> forall q t, upath q -> tables s root q = Some t -> q = [] /\ t = root.
Proof.
  intros He q. induction q as [|i q IH] using rev_ind; intros t Hq Ht; [by injection Ht as <-|].
  destruct (upath_snoc _ _ Hq) as (Hq' & _). unfold tables in Ht. rewrite tree_snoc in Ht.
  apply follow_Some in Ht as (y & Ey & Eh & _). destruct (IH y Hq' Ey) as [-> ->].
  destruct Hq as (_ & Hi & _). cbn in Hi. subst i. by rewrite He in Eh.
Qed.
Lemma wf_empty `{SwapDisk} s root : pmm_inv (pm s) -> total_pages (pm s) <= 1099511627776 -> byte_mem (ram s) ->
  owned (pm s) root -> has (entry s root 0) PTE_PRESENT = false -> wf s root.
Proof.
  intros I Ht B O He. split; auto.
  - intros t (q & Hq & [_ ->]%empty_tables); auto.
  - intros p q t Hp Hq [-> _]%empty_tables [-> _]%empty_tables; auto.
Qed.
Lemma demo_zero j k : 256 <= j < 1283 -> 0 <= k < PAGE_SIZE -> ram demo_vmm (j * PAGE_SIZE + k) = 0.
Proof.
  intros Hj Hk. destruct demo_allocated as [_ A]. change (mem demo_frames (j * PAGE_SIZE + k) = 0).
  rewrite (al_mem _ _ _ _ A). unfold PAGE_SIZE in *. by rewrite (proj2 (Z.leb_le _ _)), (proj2 (Z.ltb_lt _ _)) by lia.
Qed.
Lemma demo_entry0 j : 256 <= j < 1283 -> has (entry demo_vmm (j * PAGE_SIZE) 0) PTE_PRESENT = false.
Proof.
  intros Hj. unfold entry, word, ld64. rewrite Z.mul_0_r, Z.add_0_r.
  pose proof (demo_zero j 0 Hj) as H0. rewrite Z.add_0_r in H0. rewrite H0, !demo_zero by (unfold PAGE_SIZE; lia). reflexivity.
Qed.
Lemma demo_wf j : 256 <= j < 1283 -> wf demo_vmm (j * PAGE_SIZE) /\ (forall t, is_table demo_vmm (j * PAGE_SIZE) t -> t = j * PAGE_SIZE).
Proof.
  intros Hj. destruct demo_allocated as [I A]. destruct demo_total as (T & _). pose proof (demo_entry0 j Hj) as He.
  split; [|intros t (q & Hq & Ht); apply (empty_tables demo_vmm _ He) in Ht; tauto]. apply wf_empty; [exact I| |..|exact He].
  - change (total_pages (pm demo_vmm)) with (total_pages demo_frames). rewrite T. lia.
  - exact (allocated_bytes _ _ _ _ A big_pmm_byte).
  - exists j. split; [reflexivity|]. change (total_pages (pm demo_vmm)) with (total_pages demo_frames). rewrite T.
    split; [lia|by apply demo_bits].
Qed.
Lemma demo_mapped j v : 256 <= j < 1283 -> user_va v -> mapped demo_vmm (j * PAGE_SIZE) v = None.
Proof.
  intros Hj Hv. rewrite mapped_leaf. unfold leaf. destruct (tree _ _ _) as [t|] eqn:Et; [|reflexivity].
  destruct (empty_tables demo_vmm _ (demo_entry0 j Hj) _ _ (upath_indices v Hv) Et) as [E _]. discriminate E.
Qed.
Definition demo_va : Z := 1073741824.
Definition demo_page : Z := 1282 * PAGE_SIZE.

Lemma demo_words : user_va demo_va /\ user_va (demo_va + 5) /\ word64 demo_page /\ word64 PTE_US.
Proof. unfold user_va, word64, demo_va, demo_page, PTE_US, PAGE_SIZE. lia. Qed.
Lemma demo_room : oom_force (pm demo_vmm) = false /\ used_pages (pm demo_vmm) + 20 <= total_pages (pm demo_vmm).
Proof.
  destruct demo_total as (T & U & O). split; [exact O|].
  change (used_pages demo_frames + 20 <= total_pages demo_frames). rewrite T. lia.
Qed.

Lemma vmm_map_refines_witness :
  exists s', vmm_map_in demo_vmm (256 * PAGE_SIZE) demo_va demo_page PTE_US = Ret s' /\
    vmm_translate_in s' (256 * PAGE_SIZE) (demo_va + 5) = demo_page + 5.
Proof.
  destruct demo_words as (V1 & V2 & V3 & V4). destruct demo_room as [O U].
  destruct (vmm_map_refines demo_vmm (256 * PAGE_SIZE) demo_va demo_page PTE_US) as (s' & E & _ & _ & _ & _ & _ & M);
    [apply demo_wf; lia|exact V1|exact V3|exact V4|exact O|lia|].
  exists s'. split; [exact E|]. rewrite M; [reflexivity|reflexivity|reflexivity|exact V2|reflexivity].
Defined.
Lemma vmm_unmap_refines_witness : vmm_unmap_in demo_vmm (256 * PAGE_SIZE) demo_va = demo_vmm.
Proof.
  pose proof (vmm_unmap_refines demo_vmm (256 * PAGE_SIZE) demo_va) as H. rewrite demo_mapped in H;
    [apply H; [apply demo_wf; lia|apply demo_words]|lia|apply demo_words].
Defined.
Lemma find_free_first_fit_witness :
  vmm_user_find_free demo_vmm demo_va 3 USER_STACK_TOP = Some (demo_va + 4096) /\
  exists x, vmm_user_find_free demo_vmm demo_va 3 USER_STACK_TOP = Some x /\
    first_fit (regions demo_vmm) (PAGE_ALIGN_UP demo_va) (3 * PAGE_SIZE) USER_STACK_TOP x /\ x mod PAGE_SIZE = 0.
Proof.
  split; [vm_compute; reflexivity|]. apply find_free_first_fit; [done|done|].
  intros r Hr. apply list_elem_of_singleton in Hr. subst r. done.
Defined.

(** The data frame mapped at [demo_va] with the given flags. *)
Definition demo_root : Z := 256 * PAGE_SIZE.
Record demo_state (s : vmm) (flags : Z) : Prop := {
  ds_wf : wf s demo_root;
  ds_rest : s = with_pm (pm s) demo_vmm;
  ds_mapped : mapped s demo_root demo_va = Some (leaf_entry demo_page flags);
  ds_used : forall j, 256 <= j < 1283 -> bit_tst (bitmap (pm s)) j = true /\ (refs (pm s)).[j] = 1;
  ds_tables : forall j, 257 <= j < 1283 -> ~ is_table s demo_root (j * PAGE_SIZE);
  ds_oom : oom_force (pm s) = false;
  ds_total : total_pages (pm s) = 1400;
  ds_room : used_pages (pm s) + 17 <= 1400 }.
Lemma demo_map flags : word64 flags -> exists s, demo_state s flags.
Proof.
  intros Hf. destruct demo_words as (V1 & _ & V3 & _). destruct demo_room as [O U]. destruct demo_total as (T & _).
  destruct (demo_wf 256) as [W X]; [lia|].
  destruct (map_spec demo_vmm demo_root demo_va demo_page flags W V1 V3 Hf O) as (s & _ & S); [lia|].
  exists s. destruct S as [W' M _ Old R (P1 & P2 & P3) B _].
  assert (forall j, 256 <= j < 1283 -> bit_tst (bitmap (pm demo_vmm)) j = true /\ (refs (pm demo_vmm)).[j] = 1) as Hb by apply demo_bits.
  change (total_pages demo_frames) with (total_pages (pm demo_vmm)) in T.
  split; [exact W'|exact R| | | |congruence|congruence|lia].
  - rewrite (M demo_va V1), Z.eqb_refl. by apply present_leaf.
  - intros j Hj. destruct (Hb j Hj) as [H1 H2]. destruct (B j) as [H3 H4]; [lia|exact H1|]. split; [exact H3|congruence].
  - intros j Hj Ht. apply Old in Ht as [Ht|Ht].
    + apply X in Ht. unfold PAGE_SIZE in Ht. lia.
    + rewrite page_index in Ht. destruct (Hb j) as [H1 _]; [lia|]. congruence.
Qed.
Lemma demo_pool s flags : demo_state s flags -> pool_at s demo_root 258.
Proof.
  intros D. split.
  - by rewrite (ds_rest _ _ D).
  - lia.
  - intros k Hk. apply (ds_used _ _ D). unfold SWAP_SLOTS in Hk. lia.
  - intros k Hk. apply (ds_tables _ _ D). unfold SWAP_SLOTS in Hk. lia.
Qed.
Lemma demo_cur s flags : demo_state s flags -> cur_pml4 s = demo_root.
Proof. intros D. by rewrite (ds_rest _ _ D). Qed.
Lemma demo_flags s flags : demo_state s flags -> fault_flags s demo_va = Z.lor PTE_RW PTE_US.
Proof. intros D. by rewrite (ds_rest _ _ D). Qed.

Lemma swap_roundtrip_witness : exists s s1 s2 f,
  vmm_swap_out s demo_va = (s1, 0) /\ vmm_translate s1 demo_va = 0 /\
  vmm_resolve_user_fault s1 demo_va false = Ret (s2, true) /\
  page_bytes (ram s2) (f * PAGE_SIZE) = page_bytes (ram s) demo_page.
Proof.
  destruct (demo_map (Z.lor PTE_US PTE_NX)) as (s & D); [by split|]. exists s.
  pose proof (ds_mapped _ _ D) as M. pose proof (ds_room _ _ D). pose proof (ds_total _ _ D).
  destruct (swap_roundtrip s 258 demo_va (leaf_entry demo_page (Z.lor PTE_US PTE_NX)) 1282 0 false)
    as (s1 & s2 & f & E1 & E2 & E3 & _ & _ & E4 & _).
  - rewrite (demo_cur _ _ D). apply D.
  - rewrite (demo_cur _ _ D). by apply (demo_pool _ (Z.lor PTE_US PTE_NX)).
  - apply demo_words.
  - reflexivity.
  - rewrite (demo_cur _ _ D). split; [exact M|reflexivity|reflexivity|lia|apply (ds_tables _ _ D); lia|unfold SWAP_SLOTS; lia].
  - rewrite (ds_rest _ _ D). reflexivity.
  - rewrite (demo_flags _ _ D). by split.
  - apply D.
  - lia.
  - by rewrite (ds_rest _ _ D).
  - exists s1, s2, f. auto.
Defined.

(** The frame shared with someone else: mapped read-only with two references. *)
Lemma cow_write_resolves_witness : exists s s' f,
  (refs (pm s)).[1282] = 2 /\ vmm_resolve_user_fault s demo_va true = Ret (s', true) /\
  cow_copied s s' (cur_pml4 s) demo_va 1282 f.
Proof.
  destruct (demo_map (Z.lor PTE_US PTE_COW)) as (s0 & D); [by split|].
  pose proof (ds_mapped _ _ D) as M. pose proof (ds_room _ _ D) as Ro. pose proof (ds_total _ _ D) as T.
  destruct (ds_used _ _ D 1282) as [B R]; [lia|]. set (s := ref_page demo_page s0).
  destruct (ref_page_same (pm s0) demo_page) as (P1 & P2 & P3 & P4 & _).
  assert (wf s demo_root) as W by (apply wf_ref; [apply D|apply demo_words]).
  assert ((refs (pm s)).[1282] = 2) as R2.
  { change (pm s) with (pmm_ref_page (pm s0) demo_page).
    rewrite ref_page_refs; [rewrite R; reflexivity|apply D|apply demo_words|lia|exact B|rewrite R; lia]. }
  assert (cur_pml4 s = demo_root) as C by exact (demo_cur _ _ D).
  assert (used_pages (pm s) = used_pages (pm s0)) as U by exact P3.
  assert (total_pages (pm s) = total_pages (pm s0)) as U2 by exact P2.
  destruct (cow_write_resolves s demo_va (leaf_entry demo_page (Z.lor PTE_US PTE_COW)) 1282) as (s' & E & H).
  - rewrite C. exact W.
  - apply demo_words.
  - rewrite C. change (PAGE_ALIGN_DOWN demo_va) with demo_va. split; [exact (eq_trans (ref_mapped _ _ _ _) M)|reflexivity..| |].
    + rewrite U2, T. split; [lia|]. change (bit_tst (bitmap (pmm_ref_page (pm s0) demo_page)) 1282 = true). by rewrite P1.
    + intros X. apply ref_is_table in X. revert X. apply (ds_tables _ _ D). lia.
  - rewrite R2. lia.
  - exact (eq_trans P4 (ds_oom _ _ D)).
  - lia.
  - rewrite R2 in H. destruct H as (f & H). exists s, s', f. auto.
Defined.

Definition demo_empty : vmm := with_regions [] (with_mem_pages 0 demo_vmm).
Lemma demo_empty_inv : regions_inv demo_empty.
Proof. split; try reflexivity; try (split; discriminate); try discriminate; constructor. Qed.
(** Reserving three pages lazily, then an overlapping one, then releasing. *)
Lemma regions_runs_inv_witness : exists s1 s2,
  vmm_user_reserve demo_empty demo_va 3 PTE_RW VMM_USER_LAZY = Ret (s1, 0) /\
  vmm_user_reserve s1 (demo_va + 8192) 4 PTE_RW VMM_USER_LAZY = Ret (s2, -1) /\
  regions (fst (vmm_user_release s2 demo_va)) = [] /\ regions_inv (fst (vmm_user_release s2 demo_va)).
Proof.
  eexists _, _. split; [reflexivity|]. split; [reflexivity|]. split; [reflexivity|].
  apply (regions_runs_inv demo_empty); [apply demo_empty_inv|].
  eapply runs_step; [|apply step_release]. eapply runs_step; [eapply runs_step; [apply runs_refl|]|].
  - apply (step_reserve _ demo_va 3 PTE_RW VMM_USER_LAZY _ 0); [unfold word64, demo_va; lia|unfold word64; lia|reflexivity].
  - apply (step_reserve _ (demo_va + 8192) 4 PTE_RW VMM_USER_LAZY _ (-1)); [unfold word64, demo_va; lia|unfold word64; lia|reflexivity].
Defined.

(** A parent and a child that both map the frame read-write at [demo_va], in the
    region, and as a kernel-shared buffer outside it. *)
Definition demo_child : Z := 257 * PAGE_SIZE.
Definition demo_rw : Z := Z.lor PTE_RW PTE_US.
Definition demo_leaf : Z := leaf_entry demo_page demo_rw.
Definition demo_canvas : Z := 1342177280.
Definition demo_shared : Z := Z.lor demo_rw PTE_NOSHR.
Lemma demo_unmapped v : user_va v -> mapped demo_vmm demo_root v = None /\ mapped demo_vmm demo_child v = None.
Proof. intros Hv. split; [apply (demo_mapped 256)|apply (demo_mapped 257)]; (lia || exact Hv). Qed.

(** Two separate address spaces, with [n] frames free. *)
Record demo_two (n : Z) (s : vmm) : Prop := {
  dt_parent : wf s demo_root;
  dt_child : wf s demo_child;
  dt_apart : forall t, is_table s demo_root t -> ~ is_table s demo_child t;
  dt_rest : s = with_pm (pm s) demo_vmm;
  dt_room : oom_force (pm s) = false /\ used_pages (pm s) + n <= total_pages (pm s);
  dt_frame : total_pages (pm s) = 1400 /\ bit_tst (bitmap (pm s)) 1282 = true /\ (refs (pm s)).[1282] = 1 }.
Definition map_both (s : vmm) (v flags : Z) : outcome vmm :=
  obind (vmm_map_in s demo_root v demo_page flags) (fun s => vmm_map_in s demo_child v demo_page flags).
Lemma demo_map_both n s v flags : demo_two n s -> 6 <= n -> user_va v -> word64 flags ->
  exists s', map_both s v flags = Ret s' /\ demo_two (n - 6) s' /\
    forall x, user_va x ->
      mapped s' demo_root x = (if v / 4096 =? x / 4096 then Some (leaf_entry demo_page flags) else mapped s demo_root x) /\
      mapped s' demo_child x = (if v / 4096 =? x / 4096 then Some (leaf_entry demo_page flags) else mapped s demo_child x).
Proof.
  intros [Wp Wc Ap Rest [O U] (T & B & Rf)] Hn V1 Hf. destruct demo_words as (_ & _ & V3 & _). unfold map_both.
  destruct (map_spec s demo_root v demo_page flags Wp V1 V3 Hf O) as (s1 & -> & S1); [lia|]. cbn [obind].
  destruct (stored_apart _ _ _ _ _ _ _ S1 Wc) as (Wc1 & Tc1 & Mc1 & Ap1); [intros t Y Z; by apply (Ap t)|].
  destruct (st_pm _ _ _ _ _ _ S1) as (P1 & Q1 & R1).
  destruct (map_spec s1 demo_child v demo_page flags Wc1 V1 V3 Hf) as (s2 & -> & S2); [congruence|lia|].
  destruct (stored_apart _ _ _ _ _ _ demo_root S2 (st_wf _ _ _ _ _ _ S1)) as (Wp2 & Tp2 & Mp2 & Ap2).
  { intros t Y Z. by apply (Ap1 t). }
  destruct (st_pm _ _ _ _ _ _ S2) as (P2 & Q2 & R2).
  destruct (st_bits _ _ _ _ _ _ S1 1282) as [B1 Rf1]; [lia|exact B|].
  destruct (st_bits _ _ _ _ _ _ S2 1282) as [B2 Rf2]; [lia|exact B1|].
  exists s2. split; [done|]. split.
  - split; [exact Wp2|apply S2|exact Ap2| |split; [congruence|lia]|splits; congruence].
    by rewrite (st_rest _ _ _ _ _ _ S2), (st_rest _ _ _ _ _ _ S1), Rest.
  - intros x Hx. rewrite Mp2, (st_mapped _ _ _ _ _ _ S1), (st_mapped _ _ _ _ _ _ S2), Mc1, !present_leaf by done. done.
Qed.

Definition huge_free (s : vmm) (root : Z) : bool :=
  forallb (fun i3 => match tables s root [0; i3] with
    | Some pd => forallb (fun i2 => negb (has (entry s pd i2) PTE_HUGE)) indexes
    | None => true
    end) indexes.
Lemma huge_free_spec s root : huge_free s root = true -> no_huge s root.
Proof.
  unfold huge_free. rewrite forallb_forall. intros Hf i3 pd i2 H3 H2 T.
  specialize (Hf i3 ltac:(apply list_elem_of_In, elem_of_indexes; lia)). rewrite T, forallb_forall in Hf.
  apply negb_true_iff, Hf, list_elem_of_In, elem_of_indexes. lia.
Qed.
Lemma sumZ_single f l i : NoDup l -> i ∈ l -> (forall k, k ∈ l -> k <> i -> f k = 0) -> sumZ f l = f i.
Proof.
  induction l as [|x l IH]; intros Hd Hi Hz; [by apply not_elem_of_nil in Hi|]. apply NoDup_cons in Hd as [Hx Hd].
  change (f x + sumZ f l = f i). destruct (Z.eq_dec x i) as [->|N].
  - rewrite sumZ_zero; [lia|]. intros k Hk. apply Hz; [by right|]. by intros ->.
  - rewrite (Hz x), IH; auto; [by apply elem_of_cons in Hi as [->|]|intros k Hk; apply Hz; by right|by left].
Qed.
(** Only the buffer at [demo_canvas] counts. *)
Lemma demo_canvases s j i3 i2 i1 : 0 <= i3 < 512 -> 0 <= i2 < 512 -> 0 <= i1 < 512 ->
  (forall v, user_va v -> v / 4096 <> user_page i3 i2 i1 / 4096 -> canvas_ref s demo_root j v = 0) ->
  canvases s demo_root j = canvas_ref s demo_root j (user_page i3 i2 i1).
Proof.
  intros H3 H2 H1 Hz.
  assert (forall k3 k2 k1, 0 <= k3 < 512 -> 0 <= k2 < 512 -> 0 <= k1 < 512 -> (k3, k2, k1) <> (i3, i2, i1) ->
            canvas_ref s demo_root j (user_page k3 k2 k1) = 0) as Hk.
  { intros k3 k2 k1 A3 A2 A1 N. destruct (user_page_indices k3 k2 k1) as (U & Ik & Lk); auto.
    destruct (user_page_indices i3 i2 i1) as (Ui & Ii & Li); auto.
    apply Hz; auto. intros E. apply indices_page in E as [E1 E2]; auto. rewrite Ik, Ii in E1. congruence. }
  assert (NoDup indexes) as Hd by apply NoDup_seqZ. unfold canvases.
  rewrite (sumZ_single _ indexes i3); [|done|by apply elem_of_indexes|].
  - rewrite (sumZ_single _ indexes i2); [|done|by apply elem_of_indexes|].
    + apply (sumZ_single (fun k => canvas_ref s demo_root j (user_page i3 i2 k)) indexes i1); [done|by apply elem_of_indexes|]. intros k1 A1%elem_of_indexes N. apply Hk; auto. congruence.
    + intros k2 A2%elem_of_indexes N. apply sumZ_zero. intros k1 A1%elem_of_indexes. apply Hk; auto. congruence.
  - intros k3 A3%elem_of_indexes N. apply sumZ_zero. intros k2 A2%elem_of_indexes. apply sumZ_zero. intros k1 A1%elem_of_indexes.
    apply Hk; auto. congruence.
Qed.

Record demo_fork (s : vmm) : Prop := {
  df_forking : forking s demo_root demo_child;
  df_huge : no_huge s demo_root;
  df_rest : s = with_pm (pm s) demo_vmm;
  df_parent : mapped s demo_root demo_va = Some demo_leaf;
  df_canvases : canvases s demo_root 1282 = 1;
  df_clone : forall v, user_va v -> mapped s demo_child v = mapped s demo_root v;
  df_frame : total_pages (pm s) = 1400 /\ bit_tst (bitmap (pm s)) 1282 = true /\ (refs (pm s)).[1282] = 1 }.
Lemma demo_fork_exists : exists s, demo_fork s.
Proof.
  destruct demo_words as (V1 & _ & V3 & _). destruct demo_room as [O U]. destruct demo_total as (T & _).
  destruct (demo_wf 256) as [Wp Xp]; [lia|]. destruct (demo_wf 257) as [Wc Xc]; [lia|].
  change (256 * PAGE_SIZE) with demo_root in *. change (257 * PAGE_SIZE) with demo_child in *.
  assert (user_va demo_canvas) as Vc by (unfold user_va, demo_canvas; lia).
  assert (word64 demo_rw) as Hf by (split; [discriminate|reflexivity]).
  assert (word64 demo_shared) as Hs by (split; [discriminate|reflexivity]).
  assert (demo_two 20 demo_vmm) as D0.
  { split; [exact Wp|exact Wc| |reflexivity|split; [exact O|exact U]|split; [exact T|apply demo_bits; lia]].
    intros t Y Z. apply Xp in Y. apply Xc in Z. unfold demo_root, demo_child, PAGE_SIZE in *. lia. }
  destruct (demo_map_both 20 demo_vmm demo_va demo_rw D0 ltac:(lia) V1 Hf) as (s1 & E1 & D1 & M1).
  destruct (demo_map_both (20 - 6) s1 demo_canvas demo_shared D1 ltac:(lia) Vc Hs) as (s & E2 & [Wp2 Wc2 Ap2 Rest _ Fr] & M2).
  assert (no_huge s demo_root) as Hh.
  { apply huge_free_spec. assert (match obind (map_both demo_vmm demo_va demo_rw) (fun s => map_both s demo_canvas demo_shared) with
      Ret s => huge_free s demo_root | Panic => false end = true) as E by (vm_compute; reflexivity).
    rewrite E1 in E. cbn [obind] in E. by rewrite E2 in E. }
  assert (forall v, user_va v -> mapped s demo_root v = if demo_canvas / 4096 =? v / 4096 then Some (leaf_entry demo_page demo_shared)
            else if demo_va / 4096 =? v / 4096 then Some demo_leaf else None) as MP.
  { intros v Hv. by rewrite (proj1 (M2 v Hv)), (proj1 (M1 v Hv)), (proj1 (demo_unmapped v Hv)). }
  assert (forall v, user_va v -> mapped s demo_child v = mapped s demo_root v) as MC.
  { intros v Hv. by rewrite MP, (proj2 (M2 v Hv)), (proj2 (M1 v Hv)), (proj2 (demo_unmapped v Hv)). }
  exists s. split; [|exact Hh|exact Rest|by rewrite MP| |exact MC|exact Fr].
  - split; [rewrite Rest; reflexivity|exact Wp2|exact Wc2|exact Ap2|].
    intros v Hv Hm. rewrite <- MC in Hm by exact Hv. destruct Hm as [e He].
    destruct (mapped_Some _ _ _ _ He) as (pt & E & _). exists pt. exact E.
  - rewrite (demo_canvases s 1282 1 128 0); [|lia..|].
    + change (user_page 1 128 0) with demo_canvas. unfold canvas_ref. rewrite MP, Z.eqb_refl by exact Vc. rewrite Rest. reflexivity.
    + intros v Hv N. unfold canvas_ref. rewrite MP by exact Hv. change (user_page 1 128 0) with demo_canvas in N.
      rewrite (proj2 (Z.eqb_neq _ _)) by congruence. by destruct (_ =? _).
Qed.
(** The frame had one reference: it gains one from the region's page and one from the buffer. *)
Lemma cow_fork_shares_witness : exists s s', demo_fork s /\ vmm_cow_fork s demo_child = Ret s' /\
  mapped s' demo_root demo_va = Some (cow_entry demo_page) /\ mapped s' demo_child demo_va = Some (cow_entry demo_page) /\
  (refs (pm s')).[1282] = 3.
Proof.
  destruct demo_fork_exists as (s & D). pose proof D as [F Hh R M Cv C (T & B & Rf)].
  assert (flat_map region_addrs (regions s) = [demo_va]) as EP by (rewrite R; reflexivity).
  destruct (cow_fork_shares s demo_root demo_child F Hh) as (s' & E & Hm & Hr).
  - rewrite EP. constructor; [apply demo_words|constructor].
  - exact C.
  - destruct (Hm demo_va) as [M1 M2]; [apply demo_words|]. rewrite EP, M in M1, M2.
    destruct (Hr 1282) as [_ Hr']; [lia|exact B|rewrite EP, Rf, Cv; cbn; lia|].
    exists s, s'. split; [exact D|]. split; [exact E|]. rewrite M1, M2. split; [reflexivity|]. split; [reflexivity|].
    rewrite EP, Rf, Cv in Hr'. cbn [visits] in Hr'. rewrite M in Hr'. exact Hr'.
Defined.

(** One lazily reserved page, touched once. *)
Definition demo_lazy : vmm := reserved demo_empty demo_va 1 PTE_RW.
Lemma demo_lazy_wf s' : pm s' = demo_frames -> wf s' demo_root /\ (forall v, user_va v -> walk_pte s' demo_root v = None).
Proof.
  intros E. destruct (demo_wf 256) as [W X]; [lia|].
  assert (forall t i, entry s' t i = entry demo_vmm t i) as Ee by (intros; unfold entry, word, ram; by rewrite E).
  assert (has (entry s' demo_root 0) PTE_PRESENT = false) as He by (rewrite Ee; apply (demo_entry0 256); lia).
  split.
  - destruct W as [W1 W2 W3 W4 _]. apply wf_empty; [rewrite E; exact W1|rewrite E; exact W2|unfold ram; rewrite E; exact W3| |exact He].
    rewrite E. apply W4. exists []. split; [split; [constructor|split; [reflexivity|cbn; lia]]|reflexivity].
  - intros v Hv. rewrite walk_tables. destruct (tables s' demo_root (indices v)) as [t|] eqn:Et; [|reflexivity].
    destruct (empty_tables s' _ He _ _ (upath_indices v Hv) Et) as [Ei _]. discriminate Ei.
Qed.
Lemma lazy_page_charged_twice_witness : exists s1 s2 s3,
  vmm_user_reserve demo_empty demo_va 1 PTE_RW VMM_USER_LAZY = Ret (s1, 0) /\
  vmm_resolve_user_fault s1 demo_va true = Ret (s2, true) /\ vmm_user_release s2 demo_va = (s3, 0) /\
  mem_pages demo_empty = 0 /\ mem_pages s3 = 1.
Proof.
  assert (pm demo_lazy = demo_frames) as Ep by reflexivity.
  destruct (demo_lazy_wf demo_lazy Ep) as [W Wk]. destruct demo_words as (V1 & _). destruct demo_room as [O U].
  destruct demo_total as (T & _). change (total_pages demo_frames) with (total_pages (pm demo_vmm)) in T.
  set (s1c := with_mem_pages 2 demo_lazy).
  destruct (take_frame s1c demo_root) as (s4 & f & Ea & Tk); [apply demo_lazy_wf; reflexivity|exact O|change (used_pages (pm demo_vmm) < total_pages (pm demo_vmm)); lia|].
  pose proof (tk_range _ _ _ _ Tk) as Hf. change (total_pages (pm s1c)) with (total_pages (pm demo_vmm)) in Hf.
  pose proof (tk_alloc _ _ _ _ Tk) as A.
  destruct (map_spec s4 demo_root demo_va (f * PAGE_SIZE) (Z.lor PTE_RW PTE_US)) as (s2 & Em & S2).
  { apply (tk_wf _ _ _ _ Tk). } { exact V1. } { unfold word64, PAGE_SIZE. lia. } { split; [discriminate|reflexivity]. } { rewrite (tk_oom _ _ _ _ Tk). exact O. }
  { rewrite (al_used _ _ _ _ A), (al_total _ _ _ _ A). change (used_pages (pm demo_vmm) + 1 + 3 <= total_pages (pm demo_vmm)). lia. }
  assert (vmm_resolve_user_fault demo_lazy demo_va true = Ret (s2, true)) as Ef.
  { unfold vmm_resolve_user_fault. change (PAGE_ALIGN_DOWN demo_va) with demo_va. change (cur_pml4 demo_lazy) with demo_root.
    rewrite Wk by exact V1. change (find_region demo_lazy demo_va) with (Some (Region demo_va 1 (Z.lor PTE_RW PTE_US))).
    unfold demand_fault. change (over_cap demo_lazy 1) with false. change (sched_charge_pages 1 demo_lazy) with s1c. cbv iota beta.
    rewrite Ea. cbn [obind rflags]. rewrite (proj2 (Z.eqb_neq (f * PAGE_SIZE) 0)) by (unfold PAGE_SIZE; lia).
    unfold vmm_map. replace (cur_pml4 s4) with demo_root by (rewrite (tk_rest _ _ _ _ Tk); reflexivity). rewrite Em. reflexivity. }
  exists demo_lazy, s2, (fst (vmm_user_release s2 demo_va)).
  assert (vmm_user_reserve demo_empty demo_va 1 PTE_RW VMM_USER_LAZY = Ret (demo_lazy, 0)) as Er by reflexivity.
  assert (regions s2 = regions demo_lazy) as Rg by (rewrite (st_rest _ _ _ _ _ _ S2), (tk_rest _ _ _ _ Tk); reflexivity).
  assert (vmm_user_release s2 demo_va = (fst (vmm_user_release s2 demo_va), 0)) as El.
  { assert (snd (vmm_user_release s2 demo_va) = 0) as E0 by (unfold vmm_user_release; rewrite Rg; reflexivity).
    rewrite <- E0. apply surjective_pairing. }
  split; [exact Er|]. split; [exact Ef|]. split; [exact El|]. split; [reflexivity|].
  destruct (lazy_page_charged_twice demo_empty demo_va 1 PTE_RW demo_lazy demo_va true s2) as (_ & _ & H);
    [apply demo_empty_inv|unfold word64, demo_va; lia|unfold word64; lia|exact Er| |exact Ef|].
  - change (cur_pml4 demo_lazy) with demo_root. rewrite Wk; [exact I|apply demo_words].
  - rewrite (H _ El); [reflexivity|]. intros r Hr. apply elem_of_nil in Hr. destruct Hr.
Defined.
