(* ===== verification/Cipher.v ===== *)
(** * Interface of the 128-bit block cipher

    What kernel/lib/ccmp.c and kernel/lib/eapol.c use of kernel/lib/aes.c:
    key expansion and the two block operations, with the promises their
    theorems rely on. [Aes.aes128] is the implementation. *)
From Stdlib Require Import ZArith Lia.
From stdpp Require Import base list numbers fin vector finite.
From S2P Require Import Prelude.
#[local] Set Default Goal Selector "!".
Open Scope Z_scope.

Definition block16 (s : list Z) : Prop := length s = 16%nat /\ bytes s.

Class BlockCipher := {
  aes_keyexpand : list Z -> list Z;
  aes_encrypt : list Z -> list Z -> list Z;
  aes_decrypt : list Z -> list Z -> list Z
}.

Class BlockCipherLaws `{BlockCipher} := {
  aes_encrypt_block16 : forall key inp, block16 key -> block16 inp ->
    block16 (aes_encrypt (aes_keyexpand key) inp);
  aes_decrypt_encrypt : forall key inp, block16 key -> block16 inp ->
    aes_decrypt (aes_keyexpand key) (aes_encrypt (aes_keyexpand key) inp) = inp
}.

Lemma xor_block a b : block16 a -> block16 b -> block16 (xor_bytes a b).
Proof.
  intros [La Ba] [Lb Bb]. split; [rewrite length_xor_bytes; lia|auto with bytes].
Qed.

Lemma block16_check s : (length s =? 16)%nat && forallb (fun x => bool_decide (byte x)) s = true -> block16 s.
Proof.
  intros [Hl Hb]%andb_true_iff. split; [by apply Nat.eqb_eq|].
  apply Forall_forall. intros x Hx. eapply bool_decide_eq_true_1.
  rewrite forallb_forall in Hb. by apply Hb, list_elem_of_In.
Qed.
(** ** Decryption undoes encryption both ways: blocks are finitely many, so that
    the one direction of the interface gives the other. *)
Definition block_of (v : vec (fin 256) 16) : list Z := (fun i : fin 256 => Z.of_nat (fin_to_nat i)) <$> vec_to_list v.
Definition fin_of (x : Z) : fin 256 :=
  match decide (Z.to_nat x < 256)%nat with left H => nat_to_fin H | right _ => 0%fin end.
Definition of_block (s : list Z) : vec (fin 256) 16 := fun_to_vec (fun i => fin_of (nth (fin_to_nat i) s 0)).

Lemma block_of_block16 v : block16 (block_of v).
Proof.
  split; [unfold block_of; by rewrite length_fmap, length_vec_to_list|].
  apply Forall_fmap, Forall_forall. intros i _. cbn. unfold byte. pose proof (fin_to_nat_lt i). lia.
Qed.
Lemma block_of_of s : block16 s -> block_of (of_block s) = s.
Proof.
  intros [L B]. unfold block_of. apply list_eq_same_length with 16%nat; [done|by rewrite length_fmap, length_vec_to_list|].
  intros i x y Hi. rewrite list_lookup_fmap. intros Hx Hy.
  destruct (vec_to_list (of_block s) !! i) as [f|] eqn:E; [|done]. cbn in Hx. injection Hx as <-.
  apply vlookup_lookup' in E as [Hl E]. unfold of_block in E. rewrite lookup_fun_to_vec in E. subst f.
  rewrite fin_to_nat_to_fin. rewrite (nth_lookup_Some _ _ _ _ Hy).
  pose proof (Forall_lookup_1 _ _ _ _ B Hy) as By. unfold byte in By. unfold fin_of.
  destruct (decide _); [rewrite fin_to_nat_to_fin; lia|lia].
Qed.

Lemma aes_encrypt_decrypt `{BlockCipherLaws} key ct : block16 key -> block16 ct ->
  block16 (aes_decrypt (aes_keyexpand key) ct) /\
  aes_encrypt (aes_keyexpand key) (aes_decrypt (aes_keyexpand key) ct) = ct.
Proof.
  intros Hk Hc. pose (f v := of_block (aes_encrypt (aes_keyexpand key) (block_of v))).
  assert (Inj (=) (=) f) as Hi.
  { intros v w E%(f_equal block_of). unfold f in E. pose proof (block_of_block16 v). pose proof (block_of_block16 w).
    rewrite !block_of_of in E by (by apply aes_encrypt_block16).
    apply (f_equal (aes_decrypt (aes_keyexpand key))) in E. rewrite !aes_decrypt_encrypt in E by done.
    assert (Inj (=) (=) (fun i : fin 256 => Z.of_nat (fin_to_nat i))) as H3 by (intros a b ?%Nat2Z.inj%(inj fin_to_nat); done).
    apply vec_to_list_inj2. exact (list_fmap_eq_inj _ H3 _ _ E). }
  destruct (finite_inj_surj f eq_refl (of_block ct)) as [v Hv].
  apply (f_equal block_of) in Hv. unfold f in Hv. pose proof (block_of_block16 v) as Hb.
  rewrite !block_of_of in Hv by (done || by apply aes_encrypt_block16).
  rewrite <- Hv, aes_decrypt_encrypt by done. done.
Qed.
