(* ===== verification/Aes.v ===== *)
(** * AES-128 (kernel/lib/aes.c)

    The S-boxes built from the GF(2^8) inverse and the affine map, key
    expansion, the block cipher in both directions and CBC mode. A block is a
    list of 16 bytes updated in place the way the C arrays are; the tables,
    which the code fills on first use and never changes, are constants
    computed by the same loops. *)
From Stdlib Require Import ZArith Lia Bool.
From stdpp Require Import base list numbers option.
From S2P Require Import Prelude Cipher.
#[local] Set Default Goal Selector "!".
Open Scope Z_scope.

(** ** The field *)
Definition xtime (a : Z) : Z :=
  let hi := Z.land a 128 in
  let a := u8 (Z.shiftl a 1) in
  if negb (hi =? 0) then Z.lxor a 27 else a.

Fixpoint gf_loop (n : nat) (a b r : Z) : Z :=
  match n with
  | O => r
  | S k =>
      let r := if negb (Z.land b 1 =? 0) then Z.lxor r a else r in
      gf_loop k (xtime a) (Z.shiftr b 1) r
  end.
Definition gf_mul (a b : Z) : Z := gf_loop 8 a b 0.
Definition gf_inv (x : Z) : Z := Nat.iter 254 (fun r => gf_mul r x) 1.

(** ** Tables *)
Definition bit_at (x b : Z) : Z := Z.land (Z.shiftr x b) 1.
Definition affine (inv : Z) : Z :=
  fold_left (fun s b =>
    let bit := Z.lxor (Z.lxor (Z.lxor (Z.lxor (Z.lxor (bit_at inv b)
                 (bit_at inv (Z.land (b + 4) 7))) (bit_at inv (Z.land (b + 5) 7)))
                 (bit_at inv (Z.land (b + 6) 7))) (bit_at inv (Z.land (b + 7) 7)))
                 (bit_at 99 b) in
    Z.lor s (u8 (Z.shiftl bit b))) (seqZ 0 8) 0.

Definition aes_build_tables : list Z * list Z :=
  fold_left (fun '(sbox, isbox) i =>
    let inv := if i =? 0 then 0 else gf_inv i in
    let s := affine inv in
    (sbox.[i <- s], isbox.[s <- i]))
    (seqZ 0 256) (replicate 256 0, replicate 256 0).

Definition g_sbox : list Z := Eval vm_compute in fst aes_build_tables.
Definition g_isbox : list Z := Eval vm_compute in snd aes_build_tables.

(** ** Key expansion *)
Definition key_word (rk : list Z) (base rcon : Z) : list Z :=
  [Z.lxor (g_sbox.[rk.[base - 3]]) rcon; g_sbox.[rk.[base - 2]];
   g_sbox.[rk.[base - 1]]; g_sbox.[rk.[base - 4]]].

(** The inner [j] loop of one round key. *)
Definition expand_column (t : list Z) (base : Z) (rk : list Z) (j : Z) : list Z :=
  let rk := rk.[base + j <- Z.lxor (rk.[base - 16 + j]) (t.[j])] in
  let rk := rk.[base + 4 + j <- Z.lxor (rk.[base - 12 + j]) (rk.[base + j])] in
  let rk := rk.[base + 8 + j <- Z.lxor (rk.[base - 8 + j]) (rk.[base + 4 + j])] in
  rk.[base + 12 + j <- Z.lxor (rk.[base - 4 + j]) (rk.[base + 8 + j])].

Definition expand_round (st : list Z * Z) (i : Z) : list Z * Z :=
  let '(rk, rcon) := st in
  let base := i * 16 in
  let t := key_word rk base rcon in
  (fold_left (expand_column t base) [0; 1; 2; 3] rk, gf_mul rcon 2).

(** [memcpy(rk, key, 16)] into the 176-byte array, then ten rounds. *)
Definition aes128_keyexpand (key : list Z) : list Z :=
  fst (fold_left expand_round (seqZ 1 10) (take 16 key ++ replicate 160 0, 1)).

(** ** Rounds *)
Definition add_round_key (s rk : list Z) (off : Z) : list Z := xor_bytes s (slice rk off 16).
Definition sub_bytes (s : list Z) : list Z := map (fun x => g_sbox.[x]) s.
Definition inv_sub_bytes (s : list Z) : list Z := map (fun x => g_isbox.[x]) s.

Definition shift_rows (s : list Z) : list Z :=
  let t := s.[1] in
  let s := s.[1 <- s.[5]] in let s := s.[5 <- s.[9]] in
  let s := s.[9 <- s.[13]] in let s := s.[13 <- t] in
  let t := s.[2] in let s := s.[2 <- s.[10]] in let s := s.[10 <- t] in
  let t := s.[6] in let s := s.[6 <- s.[14]] in let s := s.[14 <- t] in
  let t := s.[15] in
  let s := s.[15 <- s.[11]] in let s := s.[11 <- s.[7]] in
  let s := s.[7 <- s.[3]] in s.[3 <- t].

Definition inv_shift_rows (s : list Z) : list Z :=
  let t := s.[13] in
  let s := s.[13 <- s.[9]] in let s := s.[9 <- s.[5]] in
  let s := s.[5 <- s.[1]] in let s := s.[1 <- t] in
  let t := s.[2] in let s := s.[2 <- s.[10]] in let s := s.[10 <- t] in
  let t := s.[6] in let s := s.[6 <- s.[14]] in let s := s.[14 <- t] in
  let t := s.[3] in
  let s := s.[3 <- s.[7]] in let s := s.[7 <- s.[11]] in
  let s := s.[11 <- s.[15]] in s.[15 <- t].

Definition mix4 (m0 m1 m2 m3 a0 a1 a2 a3 : Z) : Z :=
  u8 (Z.lxor (Z.lxor (Z.lxor (gf_mul a0 m0) (gf_mul a1 m1)) (gf_mul a2 m2)) (gf_mul a3 m3)).

Definition mix_column (s : list Z) (c : Z) : list Z :=
  let p := c * 4 in
  let a0 := s.[p] in let a1 := s.[p + 1] in let a2 := s.[p + 2] in let a3 := s.[p + 3] in
  let s := s.[p <- u8 (Z.lxor (Z.lxor (Z.lxor (gf_mul a0 2) (gf_mul a1 3)) a2) a3)] in
  let s := s.[p + 1 <- u8 (Z.lxor (Z.lxor (Z.lxor a0 (gf_mul a1 2)) (gf_mul a2 3)) a3)] in
  let s := s.[p + 2 <- u8 (Z.lxor (Z.lxor (Z.lxor a0 a1) (gf_mul a2 2)) (gf_mul a3 3))] in
  s.[p + 3 <- u8 (Z.lxor (Z.lxor (Z.lxor (gf_mul a0 3) a1) a2) (gf_mul a3 2))].
Definition mix_columns (s : list Z) : list Z := fold_left mix_column [0; 1; 2; 3] s.

Definition inv_mix_column (s : list Z) (c : Z) : list Z :=
  let p := c * 4 in
  let a0 := s.[p] in let a1 := s.[p + 1] in let a2 := s.[p + 2] in let a3 := s.[p + 3] in
  let s := s.[p <- mix4 14 11 13 9 a0 a1 a2 a3] in
  let s := s.[p + 1 <- mix4 9 14 11 13 a0 a1 a2 a3] in
  let s := s.[p + 2 <- mix4 13 9 14 11 a0 a1 a2 a3] in
  s.[p + 3 <- mix4 11 13 9 14 a0 a1 a2 a3].
Definition inv_mix_columns (s : list Z) : list Z := fold_left inv_mix_column [0; 1; 2; 3] s.

(** ** Block cipher *)
Definition enc_round (rk : list Z) (s : list Z) (r : Z) : list Z :=
  add_round_key (mix_columns (shift_rows (sub_bytes s))) rk (r * 16).
Definition aes128_encrypt_block (rk inp : list Z) : list Z :=
  let s := add_round_key inp rk 0 in
  let s := fold_left (enc_round rk) [1; 2; 3; 4; 5; 6; 7; 8; 9] s in
  add_round_key (shift_rows (sub_bytes s)) rk 160.

Definition dec_round (rk : list Z) (s : list Z) (r : Z) : list Z :=
  inv_mix_columns (add_round_key (inv_sub_bytes (inv_shift_rows s)) rk (r * 16)).
Definition aes128_decrypt_block (rk inp : list Z) : list Z :=
  let s := add_round_key inp rk 160 in
  let s := fold_left (dec_round rk) [9; 8; 7; 6; 5; 4; 3; 2; 1] s in
  add_round_key (inv_sub_bytes (inv_shift_rows s)) rk 0.

(** ** CBC: [n] blocks of [data]; the running IV is the last ciphertext. *)
Fixpoint aes128_cbc_encrypt (rk iv : list Z) (n : nat) (data : list Z) {struct n} : list Z * list Z :=
  match n with
  | O => ([], iv)
  | S k =>
      let block := xor_bytes (take 16 data) iv in
      let c := aes128_encrypt_block rk block in
      let '(rest, iv') := aes128_cbc_encrypt rk c k (drop 16 data) in
      (c ++ rest, iv')
  end.

Fixpoint aes128_cbc_decrypt (rk prev : list Z) (n : nat) (data : list Z) {struct n} : list Z :=
  match n with
  | O => []
  | S k =>
      let block := take 16 data in
      xor_bytes (aes128_decrypt_block rk block) prev
        ++ aes128_cbc_decrypt rk block k (drop 16 data)
  end.

(** * Field lemmas *)
Lemma xtime_lin a b : byte a -> byte b -> xtime (Z.lxor a b) = Z.lxor (xtime a) (xtime b).
Proof.
  intros Ha Hb. apply Z.eqb_eq.
  apply (all_bytes2 (fun a b => xtime (Z.lxor a b) =? Z.lxor (xtime a) (xtime b))); [|done..].
  vm_compute. reflexivity.
Qed.

Lemma xtime_byte a : byte (xtime a).
Proof.
  unfold xtime. destruct (negb _); [|apply byte_u8]. apply byte_lxor; [apply byte_u8|].
  unfold byte; lia.
Qed.

Lemma gf_loop_byte n a b r : byte a -> byte r -> byte (gf_loop n a b r).
Proof.
  revert a b r. induction n as [|n IH]; intros a b r Ha Hr; cbn [gf_loop]; [done|].
  apply IH; [apply xtime_byte|]. destruct (negb _); auto using byte_lxor.
Qed.

Lemma gf_mul_byte a b : byte a -> byte (gf_mul a b).
Proof. intros. apply gf_loop_byte; [done|]. unfold byte; lia. Qed.
#[export] Hint Resolve xtime_byte gf_mul_byte : bytes.

Lemma lxor_swap4 a b c d : Z.lxor (Z.lxor a b) (Z.lxor c d) = Z.lxor (Z.lxor a c) (Z.lxor b d).
Proof.
  rewrite !Z.lxor_assoc. f_equal. rewrite <- !Z.lxor_assoc. f_equal. apply Z.lxor_comm.
Qed.

Lemma gf_loop_lin n a1 a2 b r1 r2 :
  byte a1 -> byte a2 ->
  gf_loop n (Z.lxor a1 a2) b (Z.lxor r1 r2) = Z.lxor (gf_loop n a1 b r1) (gf_loop n a2 b r2).
Proof.
  revert a1 a2 b r1 r2. induction n as [|n IH]; intros a1 a2 b r1 r2 H1 H2; cbn [gf_loop]; [done|].
  rewrite xtime_lin by done. destruct (negb _); [|by rewrite IH by auto with bytes].
  rewrite lxor_swap4. by rewrite IH by auto with bytes.
Qed.

Lemma gf_mul_lin a b m : byte a -> byte b -> gf_mul (Z.lxor a b) m = Z.lxor (gf_mul a m) (gf_mul b m).
Proof. intros. unfold gf_mul. by rewrite <- gf_loop_lin. Qed.

(** * The S-boxes are mutually inverse *)
Lemma sbox_tables : aes_build_tables = (g_sbox, g_isbox).
Proof. vm_compute. reflexivity. Qed.

Lemma sbox_bytes : bytes g_sbox.
Proof. apply (bool_decide_unpack _). vm_compute. exact I. Qed.
Lemma isbox_bytes : bytes g_isbox.
Proof. apply (bool_decide_unpack _). vm_compute. exact I. Qed.
#[export] Hint Resolve sbox_bytes isbox_bytes : bytes.

Lemma isbox_sbox x : byte x -> g_isbox.[g_sbox.[x]] = x.
Proof.
  intros Hx. apply Z.eqb_eq. apply (all_bytes (fun x => g_isbox.[g_sbox.[x]] =? x)); [|done].
  vm_compute. reflexivity.
Qed.

(** * Blocks *)
Lemma block16_inv s : block16 s ->
  exists a0 a1 a2 a3 a4 a5 a6 a7 a8 a9 a10 a11 a12 a13 a14 a15,
  s = [a0; a1; a2; a3; a4; a5; a6; a7; a8; a9; a10; a11; a12; a13; a14; a15] /\
  (byte a0 /\ byte a1 /\ byte a2 /\ byte a3) /\ (byte a4 /\ byte a5 /\ byte a6 /\ byte a7) /\
  (byte a8 /\ byte a9 /\ byte a10 /\ byte a11) /\ (byte a12 /\ byte a13 /\ byte a14 /\ byte a15).
Proof.
  intros [Hl Hb]. do 16 (destruct s as [|? s]; [discriminate Hl|]).
  destruct s; [|discriminate Hl]. unfold bytes in Hb. do 16 (apply Forall_cons_1 in Hb as [? Hb]).
  do 16 eexists. split; [reflexivity|]. splits; assumption.
Qed.

Ltac explode H :=
  apply block16_inv in H;
  destruct H as (?&?&?&?&?&?&?&?&?&?&?&?&?&?&?&?&->&(?&?&?&?)&(?&?&?&?)&(?&?&?&?)&(?&?&?&?)).

(** Computes a block of known shape and checks its bytes one by one. *)
Ltac eval_block :=
  match goal with |- bytes ?l => let l' := eval vm_compute in l in change (bytes l') end;
  repeat first [apply Forall_cons_2; [solve [auto with bytes]|] | apply Forall_nil_2].

Lemma sub_bytes_block s : block16 s -> block16 (sub_bytes s).
Proof.
  intros [Hl Hb]. split; [unfold sub_bytes; by rewrite length_map|].
  unfold sub_bytes, bytes. apply Forall_map, Forall_true. intros. apply nthZ_byte, sbox_bytes.
Qed.

Lemma inv_sub_bytes_block s : block16 s -> block16 (inv_sub_bytes s).
Proof.
  intros [Hl Hb]. split; [unfold inv_sub_bytes; by rewrite length_map|].
  unfold inv_sub_bytes, bytes. apply Forall_map, Forall_true. intros. apply nthZ_byte, isbox_bytes.
Qed.

Lemma inv_sub_sub s : bytes s -> inv_sub_bytes (sub_bytes s) = s.
Proof.
  unfold inv_sub_bytes, sub_bytes. induction 1 as [|x s Hx Hs IH]; simpl; [done|].
  rewrite isbox_sbox by done. by f_equal.
Qed.

Lemma shift_rows_block s : block16 s -> block16 (shift_rows s).
Proof.
  intros Hs. explode Hs. split; [reflexivity|]. eval_block.
Qed.

Lemma inv_shift_shift s : block16 s -> inv_shift_rows (shift_rows s) = s.
Proof. intros Hs. explode Hs. reflexivity. Qed.

Lemma inv_shift_rows_block s : block16 s -> block16 (inv_shift_rows s).
Proof.
  intros Hs. explode Hs. split; [reflexivity|]. eval_block.
Qed.

Lemma add_round_key_block s rk off :
  block16 s -> bytes rk -> 0 <= off -> off + 16 <= len rk -> block16 (add_round_key s rk off).
Proof.
  intros [Hl Hb] Hrk Ho Hlen. unfold add_round_key. split; [|auto with bytes].
  rewrite length_xor_bytes; rewrite ?length_slice; lia.
Qed.

Lemma add_round_key_twice s rk off :
  block16 s -> 0 <= off -> off + 16 <= len rk ->
  add_round_key (add_round_key s rk off) rk off = s.
Proof.
  intros [Hl Hb] Ho Hlen. unfold add_round_key. apply xor_bytes_cancel.
  rewrite length_slice; lia.
Qed.

(** ** MixColumns is undone by InvMixColumns *)
Definition mc0 a0 a1 a2 a3 : Z := Z.lxor (Z.lxor (Z.lxor (gf_mul a0 2) (gf_mul a1 3)) a2) a3.
Definition mc1 a0 a1 a2 a3 : Z := Z.lxor (Z.lxor (Z.lxor a0 (gf_mul a1 2)) (gf_mul a2 3)) a3.
Definition mc2 a0 a1 a2 a3 : Z := Z.lxor (Z.lxor (Z.lxor a0 a1) (gf_mul a2 2)) (gf_mul a3 3).
Definition mc3 a0 a1 a2 a3 : Z := Z.lxor (Z.lxor (Z.lxor (gf_mul a0 3) a1) a2) (gf_mul a3 2).

Lemma mix4_lin m0 m1 m2 m3 a0 a1 a2 a3 :
  byte a0 -> byte a1 -> byte a2 -> byte a3 ->
  mix4 m0 m1 m2 m3 (mc0 a0 a1 a2 a3) (mc1 a0 a1 a2 a3) (mc2 a0 a1 a2 a3) (mc3 a0 a1 a2 a3) =
  Z.lxor (Z.lxor (mix4 m0 m1 m2 m3 (gf_mul a0 2) a0 a0 (gf_mul a0 3))
                 (mix4 m0 m1 m2 m3 (gf_mul a1 3) (gf_mul a1 2) a1 a1))
         (Z.lxor (mix4 m0 m1 m2 m3 a2 (gf_mul a2 3) (gf_mul a2 2) a2)
                 (mix4 m0 m1 m2 m3 a3 a3 (gf_mul a3 3) (gf_mul a3 2))).
Proof.
  intros. unfold mix4, mc0, mc1, mc2, mc3. rewrite !gf_mul_lin by auto 10 with bytes.
  rewrite !u8_small by (repeat (apply byte_lxor); auto 10 with bytes).
  apply Z.bits_inj'. intros n _. rewrite !Z.lxor_spec.
  generalize (Z.testbit (gf_mul (gf_mul a0 2) m0) n) (Z.testbit (gf_mul (gf_mul a1 3) m0) n)
    (Z.testbit (gf_mul a2 m0) n) (Z.testbit (gf_mul a3 m0) n)
    (Z.testbit (gf_mul a0 m1) n) (Z.testbit (gf_mul (gf_mul a1 2) m1) n)
    (Z.testbit (gf_mul (gf_mul a2 3) m1) n) (Z.testbit (gf_mul a3 m1) n).
  intros. Btauto.btauto.
Qed.

(** The product of the two circulant matrices is the identity, coefficient by
    coefficient: row [(m0 .. m3)] against the four columns, each checked on all
    256 field elements; [e] is the column that must give the element back. *)
Definition row_check (m0 m1 m2 m3 e a : Z) : bool :=
  (mix4 m0 m1 m2 m3 (gf_mul a 2) a a (gf_mul a 3) =? (if e =? 0 then a else 0)) &&
  (mix4 m0 m1 m2 m3 (gf_mul a 3) (gf_mul a 2) a a =? (if e =? 1 then a else 0)) &&
  (mix4 m0 m1 m2 m3 a (gf_mul a 3) (gf_mul a 2) a =? (if e =? 2 then a else 0)) &&
  (mix4 m0 m1 m2 m3 a a (gf_mul a 3) (gf_mul a 2) =? (if e =? 3 then a else 0)).

Lemma row_spec m0 m1 m2 m3 e a0 a1 a2 a3 :
  forallb (row_check m0 m1 m2 m3 e) (seqZ 0 256) = true ->
  byte a0 -> byte a1 -> byte a2 -> byte a3 ->
  mix4 m0 m1 m2 m3 (mc0 a0 a1 a2 a3) (mc1 a0 a1 a2 a3) (mc2 a0 a1 a2 a3) (mc3 a0 a1 a2 a3) =
  Z.lxor (Z.lxor (if e =? 0 then a0 else 0) (if e =? 1 then a1 else 0))
         (Z.lxor (if e =? 2 then a2 else 0) (if e =? 3 then a3 else 0)).
Proof.
  intros Hc H0 H1 H2 H3. rewrite mix4_lin by done.
  apply (all_bytes _ Hc) in H0, H1, H2, H3. unfold row_check in *. zbool. by repeat f_equal.
Qed.

Lemma rows_ok :
  forallb (row_check 14 11 13 9 0) (seqZ 0 256) = true /\
  forallb (row_check 9 14 11 13 1) (seqZ 0 256) = true /\
  forallb (row_check 13 9 14 11 2) (seqZ 0 256) = true /\
  forallb (row_check 11 13 9 14 3) (seqZ 0 256) = true.
Proof. vm_compute. auto. Qed.

Definition mc_block (s : list Z) : list Z :=
  match s with
  | [a0; a1; a2; a3; b0; b1; b2; b3; c0; c1; c2; c3; d0; d1; d2; d3] =>
      [mc0 a0 a1 a2 a3; mc1 a0 a1 a2 a3; mc2 a0 a1 a2 a3; mc3 a0 a1 a2 a3;
       mc0 b0 b1 b2 b3; mc1 b0 b1 b2 b3; mc2 b0 b1 b2 b3; mc3 b0 b1 b2 b3;
       mc0 c0 c1 c2 c3; mc1 c0 c1 c2 c3; mc2 c0 c1 c2 c3; mc3 c0 c1 c2 c3;
       mc0 d0 d1 d2 d3; mc1 d0 d1 d2 d3; mc2 d0 d1 d2 d3; mc3 d0 d1 d2 d3]
  | _ => []
  end.

Lemma mix4_byte m0 m1 m2 m3 a0 a1 a2 a3 : byte (mix4 m0 m1 m2 m3 a0 a1 a2 a3).
Proof. apply byte_u8. Qed.
#[local] Opaque gf_mul mix4.


Lemma mc_bytes a0 a1 a2 a3 : byte a0 -> byte a1 -> byte a2 -> byte a3 ->
  byte (mc0 a0 a1 a2 a3) /\ byte (mc1 a0 a1 a2 a3) /\ byte (mc2 a0 a1 a2 a3) /\ byte (mc3 a0 a1 a2 a3).
Proof. intros. unfold mc0, mc1, mc2, mc3. splits; auto 10 with bytes. Qed.

Lemma list16_eq {A} (x0 x1 x2 x3 x4 x5 x6 x7 x8 x9 x10 x11 x12 x13 x14 x15
  y0 y1 y2 y3 y4 y5 y6 y7 y8 y9 y10 y11 y12 y13 y14 y15 : A) :
  x0 = y0 -> x1 = y1 -> x2 = y2 -> x3 = y3 -> x4 = y4 -> x5 = y5 -> x6 = y6 -> x7 = y7 ->
  x8 = y8 -> x9 = y9 -> x10 = y10 -> x11 = y11 -> x12 = y12 -> x13 = y13 -> x14 = y14 -> x15 = y15 ->
  [x0; x1; x2; x3; x4; x5; x6; x7; x8; x9; x10; x11; x12; x13; x14; x15] =
  [y0; y1; y2; y3; y4; y5; y6; y7; y8; y9; y10; y11; y12; y13; y14; y15].
Proof. intros. by subst. Qed.

Lemma mix_columns_eq s : block16 s -> mix_columns s = mc_block s.
Proof.
  intros Hs. explode Hs. cbn -[gf_mul u8 Z.lxor mc0 mc1 mc2 mc3].
  apply list16_eq; unfold mc0, mc1, mc2, mc3; apply u8_byte;
    auto 10 with bytes.
Qed.

Lemma mc_block_block s : block16 s -> block16 (mc_block s).
Proof.
  intros Hs. explode Hs. split; [reflexivity|]. unfold bytes, mc_block.
  repeat apply Forall_cons_2; try apply mc_bytes; try assumption. apply Forall_nil_2.
Qed.

Lemma mix_columns_block s : block16 s -> block16 (mix_columns s).
Proof. intros Hs. rewrite mix_columns_eq by done. by apply mc_block_block. Qed.

Definition imc_block (s : list Z) : list Z :=
  match s with
  | [a0; a1; a2; a3; b0; b1; b2; b3; c0; c1; c2; c3; d0; d1; d2; d3] =>
      [mix4 14 11 13 9 a0 a1 a2 a3; mix4 9 14 11 13 a0 a1 a2 a3;
       mix4 13 9 14 11 a0 a1 a2 a3; mix4 11 13 9 14 a0 a1 a2 a3;
       mix4 14 11 13 9 b0 b1 b2 b3; mix4 9 14 11 13 b0 b1 b2 b3;
       mix4 13 9 14 11 b0 b1 b2 b3; mix4 11 13 9 14 b0 b1 b2 b3;
       mix4 14 11 13 9 c0 c1 c2 c3; mix4 9 14 11 13 c0 c1 c2 c3;
       mix4 13 9 14 11 c0 c1 c2 c3; mix4 11 13 9 14 c0 c1 c2 c3;
       mix4 14 11 13 9 d0 d1 d2 d3; mix4 9 14 11 13 d0 d1 d2 d3;
       mix4 13 9 14 11 d0 d1 d2 d3; mix4 11 13 9 14 d0 d1 d2 d3]
  | _ => []
  end.

Lemma inv_mix_columns_eq s : block16 s -> inv_mix_columns s = imc_block s.
Proof. intros Hs. explode Hs. reflexivity. Qed.

Lemma inv_mix_mix s : block16 s -> inv_mix_columns (mix_columns s) = s.
Proof.
  intros Hs. rewrite inv_mix_columns_eq by by apply mix_columns_block.
  rewrite mix_columns_eq by done. destruct rows_ok as (R0 & R1 & R2 & R3).
  explode Hs. cbn [mc_block imc_block].
  rewrite !(row_spec _ _ _ _ _ _ _ _ _ R0), !(row_spec _ _ _ _ _ _ _ _ _ R1),
    !(row_spec _ _ _ _ _ _ _ _ _ R2), !(row_spec _ _ _ _ _ _ _ _ _ R3) by assumption.
  cbn [Z.eqb Pos.eqb]. rewrite ?Z.lxor_0_l, ?Z.lxor_0_r. reflexivity.
Qed.

Lemma inv_mix_columns_block s : block16 s -> block16 (inv_mix_columns s).
Proof.
  intros Hs. rewrite inv_mix_columns_eq by done. explode Hs. split; [reflexivity|].
  unfold bytes, imc_block. repeat (apply Forall_cons_2; [apply mix4_byte|]). apply Forall_nil_2.
Qed.

#[local] Hint Resolve sub_bytes_block shift_rows_block mix_columns_block inv_sub_bytes_block
  inv_shift_rows_block inv_mix_columns_block : core.

(** * Keys *)
Definition round_keys (rk : list Z) : Prop := length rk = 176%nat /\ bytes rk.

Lemma expand_column_wf t base rk j :
  bytes t -> bytes rk -> bytes (expand_column t base rk j) /\
  length (expand_column t base rk j) = length rk.
Proof.
  intros. unfold expand_column. split; [auto 30 with bytes|]. by rewrite !length_updZ.
Qed.

Lemma expand_round_wf rk rcon i :
  round_keys rk -> byte rcon ->
  round_keys (fst (expand_round (rk, rcon) i)) /\ byte (snd (expand_round (rk, rcon) i)).
Proof.
  intros [Hl Hb] Hr. unfold expand_round. cbn [fst snd]. split; [|auto with bytes].
  assert (bytes (key_word rk (i * 16) rcon)) as Ht.
  { unfold key_word. repeat (apply Forall_cons_2; [auto with bytes|]). apply Forall_nil_2. }
  revert Ht. generalize (key_word rk (i * 16) rcon) as t. intros t Ht.
  assert (round_keys rk) as Hrk by done. clear Hl Hb. revert rk Hrk.
  generalize [0; 1; 2; 3] as l. induction l as [|j l IH]; intros rk [Hl Hb]; cbn [fold_left]; [done|].
  apply IH. destruct (expand_column_wf t (i * 16) rk j Ht Hb) as [? Hl']. split; [by rewrite Hl'|done].
Qed.

Lemma expand_rounds_wf l st :
  round_keys (fst st) -> byte (snd st) -> round_keys (fst (fold_left expand_round l st)).
Proof.
  revert st. induction l as [|i l IH]; intros [rk rcon] Hrk Hr; cbn [fold_left]; [done|].
  apply IH; by apply expand_round_wf.
Qed.

Lemma aes128_keyexpand_wf key : block16 key -> round_keys (aes128_keyexpand key).
Proof.
  intros [Hl Hb]. apply expand_rounds_wf; cbn [fst snd]; [|unfold byte; lia].
  split; [rewrite length_app, length_take, length_replicate; lia|].
  apply bytes_app; auto with bytes. apply bytes_replicate. unfold byte; lia.
Qed.

(** * The block cipher *)
#[local] Opaque shift_rows sub_bytes mix_columns inv_shift_rows inv_sub_bytes inv_mix_columns.
Section Cipher.
Context (rk : list Z) (Hrk : round_keys rk).

Lemma ark_block s off : block16 s -> 0 <= off -> off + 16 <= 176 -> block16 (add_round_key s rk off).
Proof. intros. destruct Hrk. apply add_round_key_block; auto; unfold len; lia. Qed.

Lemma ark_twice s off :
  block16 s -> 0 <= off -> off + 16 <= 176 -> add_round_key (add_round_key s rk off) rk off = s.
Proof. intros. destruct Hrk. apply add_round_key_twice; auto; unfold len; lia. Qed.

Lemma enc_round_block s r : 1 <= r <= 9 -> block16 s -> block16 (enc_round rk s r).
Proof. intros. unfold enc_round. apply ark_block; auto; lia. Qed.

Lemma dec_round_block s r : 1 <= r <= 9 -> block16 s -> block16 (dec_round rk s r).
Proof. intros. unfold dec_round. apply inv_mix_columns_block, ark_block; auto; lia. Qed.

(** A decryption round takes the state before a round key of encryption to
    the corresponding state one round earlier. *)
Lemma dec_enc_round s r : 1 <= r <= 9 -> block16 s ->
  dec_round rk (shift_rows (sub_bytes (enc_round rk s r))) r = shift_rows (sub_bytes s).
Proof.
  intros Hr Hs. pose proof (enc_round_block s r Hr Hs) as Hs'. unfold dec_round.
  rewrite inv_shift_shift by auto. rewrite inv_sub_sub by apply Hs'.
  unfold enc_round. rewrite ark_twice by (auto; lia). by apply inv_mix_mix; auto.
Qed.

End Cipher.

(** The round structure alone: [enc] and [dec] are keyed rounds and [pre] the
    unkeyed half round, such that a decryption round undoes an encryption
    round through [pre]. *)
Section Rounds.
Context {A : Type} (ok : A -> Prop) (enc dec : A -> Z -> A) (pre : A -> A) (keyed : Z -> Prop).
Hypothesis enc_ok : forall s r, keyed r -> ok s -> ok (enc s r).
Hypothesis dec_enc : forall s r, keyed r -> ok s -> dec (pre (enc s r)) r = pre s.

Lemma undo_rounds (l : list Z) s :
  Forall keyed l -> ok s ->
  ok (fold_left enc l s) /\ fold_left dec (rev l) (pre (fold_left enc l s)) = pre s.
Proof.
  intros Hl. revert s. induction Hl as [|r l Hr Hl IH]; intros s Hs; [by split|].
  destruct (IH (enc s r)) as [Hb Heq]; [by apply enc_ok|]. cbn [fold_left rev].
  split; [exact Hb|]. rewrite fold_left_app, Heq. by apply dec_enc.
Qed.
End Rounds.

Definition enc_schedule : list Z := [1; 2; 3; 4; 5; 6; 7; 8; 9].
Lemma enc_schedule_ok : Forall (fun r => 1 <= r <= 9) enc_schedule.
Proof. repeat constructor; lia. Qed.

Lemma encrypt_block_wf rk s : round_keys rk -> block16 s -> block16 (aes128_encrypt_block rk s).
Proof.
  intros Hrk Hs. unfold aes128_encrypt_block. apply ark_block; [done| |lia..].
  apply shift_rows_block, sub_bytes_block.
  apply (undo_rounds block16 (enc_round rk) (dec_round rk) (fun x => shift_rows (sub_bytes x))
    (fun r => 1 <= r <= 9) (enc_round_block rk Hrk) (dec_enc_round rk Hrk)).
  - exact enc_schedule_ok.
  - by apply ark_block.
Qed.

Lemma decrypt_encrypt_block rk s : round_keys rk -> block16 s ->
  aes128_decrypt_block rk (aes128_encrypt_block rk s) = s.
Proof.
  intros Hrk Hs. unfold aes128_decrypt_block, aes128_encrypt_block.
  assert (block16 (add_round_key s rk 0)) as H0 by (apply ark_block; auto; lia).
  destruct (undo_rounds block16 (enc_round rk) (dec_round rk) (fun x => shift_rows (sub_bytes x))
    (fun r => 1 <= r <= 9) (enc_round_block rk Hrk) (dec_enc_round rk Hrk)
    enc_schedule (add_round_key s rk 0) enc_schedule_ok H0) as [Hb Heq].
  fold enc_schedule. change [9; 8; 7; 6; 5; 4; 3; 2; 1] with (rev enc_schedule).
  revert Hb Heq. generalize (fold_left (enc_round rk) enc_schedule (add_round_key s rk 0)).
  intros x Hb Heq. rewrite ark_twice by (auto; lia). rewrite Heq, inv_shift_shift by auto.
  rewrite inv_sub_sub by apply H0. apply ark_twice; auto; lia.
Qed.

#[export] Hint Resolve aes128_keyexpand_wf encrypt_block_wf : bytes.

(** The first block of a buffer of [S k] blocks, and the rest. *)
Lemma blocks_cons (k : nat) data :
  length data = (16 * S k)%nat -> bytes data ->
  block16 (take 16 data) /\ length (drop 16 data) = (16 * k)%nat /\ bytes (drop 16 data).
Proof.
  intros Hl Hb. unfold block16. rewrite length_take, length_drop. splits; auto with bytes; lia.
Qed.

Lemma cbc_encrypt_length rk iv n data :
  round_keys rk -> block16 iv -> length data = (16 * n)%nat -> bytes data ->
  length (fst (aes128_cbc_encrypt rk iv n data)) = (16 * n)%nat /\
  bytes (fst (aes128_cbc_encrypt rk iv n data)) /\
  block16 (snd (aes128_cbc_encrypt rk iv n data)).
Proof.
  intros Hrk. revert iv data. induction n as [|n IH]; intros iv data Hiv Hl Hb;
    cbn [aes128_cbc_encrypt fst snd]; [splits; [done|apply Forall_nil_2|done]|].
  destruct (blocks_cons n data Hl Hb) as (Hblk & Hl' & Hb').
  assert (block16 (aes128_encrypt_block rk (xor_bytes (take 16 data) iv))) as Hc
    by (by apply encrypt_block_wf, xor_block).
  destruct (IH (aes128_encrypt_block rk (xor_bytes (take 16 data) iv)) (drop 16 data) Hc Hl' Hb')
    as (L & B & K).
  revert L B K. destruct (aes128_cbc_encrypt _ _ n _) as [rest iv']. cbn [fst snd]. intros.
  destruct Hc. rewrite length_app. splits; auto with bytes. lia.
Qed.

(** [C36] The AES block cipher decrypts what it encrypts: for every 16-byte key
    and block, decryption under the expanded key undoes encryption, and a
    ciphertext block is again 16 bytes. *)
Theorem aes128_roundtrip key inp :
  block16 key -> block16 inp ->
  let rk := aes128_keyexpand key in
  block16 (aes128_encrypt_block rk inp) /\
  aes128_decrypt_block rk (aes128_encrypt_block rk inp) = inp.
Proof.
  intros Hk Hi. split; [by apply encrypt_block_wf; [apply aes128_keyexpand_wf|]|].
  apply decrypt_encrypt_block; [by apply aes128_keyexpand_wf | done].
Qed.

(** CBC mode round trip: for any number of blocks, decrypting the CBC
    ciphertext with the same key and initial vector gives the data back; the
    ciphertext has the length of the data. *)
Theorem aes128_cbc_roundtrip key iv n data :
  block16 key -> block16 iv -> length data = (16 * n)%nat -> bytes data ->
  let rk := aes128_keyexpand key in
  length (fst (aes128_cbc_encrypt rk iv n data)) = length data /\
  aes128_cbc_decrypt rk iv n (fst (aes128_cbc_encrypt rk iv n data)) = data.
Proof.
  intros Hk%aes128_keyexpand_wf. cbn zeta. revert Hk. generalize (aes128_keyexpand key).
  intros rk Hk Hiv Hl Hb. split; [rewrite Hl; by apply cbc_encrypt_length|].
  revert iv data Hiv Hl Hb. induction n as [|n IH]; intros iv data Hiv Hl Hb.
  { by destruct data. }
  destruct (blocks_cons n data Hl Hb) as (Hblk & Hl' & Hb').
  cbn [aes128_cbc_encrypt]. set (x := xor_bytes (take 16 data) iv).
  assert (block16 x) as Hx by by apply xor_block.
  assert (block16 (aes128_encrypt_block rk x)) as Hc by by apply encrypt_block_wf.
  specialize (IH (aes128_encrypt_block rk x) (drop 16 data) Hc Hl' Hb').
  pose proof (decrypt_encrypt_block rk x Hk Hx) as Hdec.
  revert IH Hc Hdec. generalize (aes128_encrypt_block rk x) as c. intros c IH Hc Hdec.
  destruct (aes128_cbc_encrypt rk c n (drop 16 data)) as [rest iv']. cbn [fst] in *.
  cbn [aes128_cbc_decrypt]. destruct Hc as [Lc _].
  rewrite take_app_length', drop_app_length' by done. rewrite Hdec, IH.
  unfold x. destruct Hblk, Hiv. rewrite xor_bytes_cancel by lia. apply take_drop.
Qed.

(** ** Witnesses: the FIPS-197 key and plaintext *)
Definition fips_key : list Z := [0; 1; 2; 3; 4; 5; 6; 7; 8; 9; 10; 11; 12; 13; 14; 15].
Definition fips_plain : list Z :=
  [0; 17; 34; 51; 68; 85; 102; 119; 136; 153; 170; 187; 204; 221; 238; 255].

Example fips_197_vector : aes128_encrypt_block (aes128_keyexpand fips_key) fips_plain
  = [105; 196; 224; 216; 106; 123; 4; 48; 216; 205; 183; 128; 112; 180; 197; 90].
Proof. vm_compute. reflexivity. Qed.

Lemma aes128_roundtrip_witness :
  block16 fips_key /\ block16 fips_plain /\
  aes128_decrypt_block (aes128_keyexpand fips_key)
    (aes128_encrypt_block (aes128_keyexpand fips_key) fips_plain) = fips_plain.
Proof.
  assert (block16 fips_key) as Hk by (apply block16_check; vm_compute; reflexivity).
  assert (block16 fips_plain) as Hp by (apply block16_check; vm_compute; reflexivity).
  split; [exact Hk|split; [exact Hp|]]. exact (proj2 (aes128_roundtrip _ _ Hk Hp)).
Defined.

Lemma aes128_cbc_roundtrip_witness :
  aes128_cbc_decrypt (aes128_keyexpand fips_key) fips_plain 2
    (fst (aes128_cbc_encrypt (aes128_keyexpand fips_key) fips_plain 2 (fips_plain ++ fips_key)))
  = fips_plain ++ fips_key.
Proof.
  assert (block16 fips_key) as Hk by (apply block16_check; vm_compute; reflexivity).
  assert (block16 fips_plain) as Hp by (apply block16_check; vm_compute; reflexivity).
  refine (proj2 (aes128_cbc_roundtrip fips_key fips_plain 2 (fips_plain ++ fips_key) Hk Hp _ _)).
  - reflexivity.
  - apply bytes_app; [apply Hp | apply Hk].
Defined.

(** ** The interface is implemented *)
#[export] Instance aes128 : BlockCipher :=
  {| aes_keyexpand := aes128_keyexpand; aes_encrypt := aes128_encrypt_block;
     aes_decrypt := aes128_decrypt_block |}.

#[export] Instance aes128_laws : @BlockCipherLaws aes128.
Proof.
  split; intros key inp Hk Hi; cbn.
  - apply encrypt_block_wf; [by apply aes128_keyexpand_wf | done].
  - apply decrypt_encrypt_block; [by apply aes128_keyexpand_wf | done].
Qed.
