(* ===== verification/Ccmp.v ===== *)
(** * AES-CCMP (kernel/lib/ccmp.c)

    CCM with an 8-octet MIC and a 13-octet nonce: CBC-MAC over B_0, the
    length-prefixed additional data and the plaintext, CTR encryption, and the
    decrypt-then-compare path. *)
From Stdlib Require Import ZArith Lia Bool.
From stdpp Require Import base list numbers option.
From S2P Require Import Prelude Cipher Aes.
#[local] Set Default Goal Selector "!".
Open Scope Z_scope.

Definition CCM_M : Z := 8.
Definition CCM_L : Z := 2.
Definition NONCE_LEN : Z := 15 - CCM_L.

Section Ccm.
Context {BC : BlockCipher}.

(** [xor16(x, blk)] *)
Definition xor16 (d s : list Z) : list Z := xor_bytes d s.

(** B_0: flags, nonce, message length. *)
Definition ccm_b0 (nonce : list Z) (mlen alen : Z) : list Z :=
  let flags := Z.lor (Z.lor (if negb (alen =? 0) then 64 else 0)
                            (u8 (Z.shiftl ((CCM_M - 2) / 2) 3))) (u8 (CCM_L - 1)) in
  let b0 := flags :: slice nonce 0 NONCE_LEN ++ [0; 0] in
  let b0 := b0.[15 - 0 <- u8 (Z.shiftr mlen (8 * 0))] in
  b0.[15 - 1 <- u8 (Z.shiftr mlen (8 * 1))].

Definition ccm_ctr0 (nonce : list Z) : list Z :=
  u8 (CCM_L - 1) :: slice nonce 0 NONCE_LEN ++ [0; 0].

Definition ctr_inc (ctr : list Z) : list Z :=
  let c := Z.lor (u16 (Z.shiftl (ctr.[14]) 8)) (ctr.[15]) in
  let c := u16 (c + 1) in
  (ctr.[14 <- u8 (Z.shiftr c 8)]).[15 <- u8 c].

(** [blk] zero-padded to 16 bytes. *)
Definition pad16 (d : list Z) : list Z := d ++ replicate (16 - length d) 0.

(** CBC-MAC over [data]; [fuel] bounds the number of blocks. *)
Fixpoint mac_feed (fuel : nat) (rk x data : list Z) {struct fuel} : list Z :=
  match fuel with
  | O => x
  | S k =>
    if 16 <=? len data then
      mac_feed k rk (aes_encrypt rk (xor16 x (take 16 data))) (drop 16 data)
    else if negb (len data =? 0) then aes_encrypt rk (xor16 x (pad16 data))
    else x
  end.

(** Enough fuel for [n] bytes: one step per 16 bytes and one for the tail. *)
Definition mac_fuel (data : list Z) : nat := S (length data / 16).

(** The first block of additional data: its length field and what fits. *)
Definition aad_first (alen : Z) : Z :=
  if alen <? 65280 then (if alen <? 14 then alen else 14) else (if alen <? 10 then alen else 10).
Definition aad_block (aad : list Z) : list Z :=
  let alen := len aad in
  let first := aad_first alen in
  if alen <? 65280 then
    pad16 ([u8 (Z.shiftr alen 8); u8 alen] ++ slice aad 0 first)
  else
    pad16 ([255; 254; u8 (Z.shiftr alen 24); u8 (Z.shiftr alen 16); u8 (Z.shiftr alen 8); u8 alen]
             ++ slice aad 0 first).

Definition ccm_mac (rk b0 aad pt : list Z) : list Z :=
  let x := aes_encrypt rk b0 in
  let x :=
    if negb (len aad =? 0) then
      let first := aad_first (len aad) in
      let x := aes_encrypt rk (xor16 x (aad_block aad)) in
      if first <? len aad then
        let rest := drop (Z.to_nat first) aad in mac_feed (mac_fuel rest) rk x rest
      else x
    else x in
  mac_feed (mac_fuel pt) rk x pt.

(** CTR mode; the counter is incremented before each block. *)
Fixpoint ccm_ctr (fuel : nat) (rk ctr inp : list Z) {struct fuel} : list Z :=
  match fuel with
  | O => []
  | S k =>
    if 16 <=? len inp then
      let ctr := ctr_inc ctr in
      xor_bytes (take 16 inp) (aes_encrypt rk ctr) ++ ccm_ctr k rk ctr (drop 16 inp)
    else if negb (len inp =? 0) then
      let ctr := ctr_inc ctr in
      xor_bytes inp (aes_encrypt rk ctr)
    else []
  end.

Definition ccm_tag (rk nonce aad pt : list Z) : list Z :=
  let b0 := ccm_b0 nonce (len pt) (len aad) in
  let mac := ccm_mac rk b0 aad pt in
  let s0 := aes_encrypt rk (ccm_ctr0 nonce) in
  take 8 (xor_bytes mac s0).

Definition ccmp_encrypt (key nonce aad pt : list Z) : list Z * list Z :=
  let rk := aes_keyexpand key in
  (ccm_ctr (mac_fuel pt) rk (ccm_ctr0 nonce) pt, ccm_tag rk nonce aad pt).

(** [d |= expect[i] ^ mic[i]] over the eight octets. *)
Definition mic_diff (expect mic : list Z) : Z :=
  fold_left Z.lor (zip_with Z.lxor expect mic) 0.

(** Returns the status and what was written to [pt_out]. *)
Definition ccmp_decrypt (key nonce aad ct mic : list Z) : Z * list Z :=
  let rk := aes_keyexpand key in
  let pt := ccm_ctr (mac_fuel ct) rk (ccm_ctr0 nonce) ct in
  let expect := ccm_tag rk nonce aad pt in
  (if negb (mic_diff expect (take 8 mic) =? 0) then -1 else 0, pt).

(** * Reference: RFC 3610 formatting *)
Fixpoint chunks (n : nat) (l : list Z) : list (list Z) :=
  match n with O => [] | S k => take 16 l :: chunks k (drop 16 l) end.
Definition blocks (l : list Z) : list (list Z) := chunks (length l / 16) l.
Definition zero_pad (d : list Z) : list Z := d ++ replicate ((16 - length d mod 16) mod 16) 0.

(** Encoding of the length of the additional data (RFC 3610, section 2.2). *)
Definition rfc_length (alen : Z) : list Z :=
  if alen <? 65280 then [alen / 256; alen mod 256]
  else [255; 254; alen / 16777216 mod 256; alen / 65536 mod 256; alen / 256 mod 256; alen mod 256].
Definition rfc_aad (aad : list Z) : list Z :=
  match aad with [] => [] | _ => zero_pad (rfc_length (len aad) ++ aad) end.

Definition cbc_mac (rk : list Z) (bs : list (list Z)) : list Z :=
  fold_left (fun x b => aes_encrypt rk (xor_bytes x b)) bs (replicate 16 0).

(** * Block lemmas *)
Lemma div16_add (k n : nat) : ((16 * k + n) / 16 = k + n / 16)%nat.
Proof. rewrite Nat.add_comm, Nat.mul_comm, Nat.div_add by lia. lia. Qed.

Lemma blocks_app k a b : length a = (16 * k)%nat -> blocks (a ++ b) = blocks a ++ blocks b.
Proof.
  intros Ha. unfold blocks. rewrite length_app, Ha, div16_add.
  replace (16 * k / 16)%nat with k by (rewrite Nat.mul_comm, Nat.div_mul; lia).
  revert a Ha. induction k as [|k IH]; intros a Ha; cbn [Nat.add chunks app].
  - by destruct a.
  - rewrite take_app_le, drop_app_le by lia. f_equal. apply IH. rewrite length_drop. lia.
Qed.

Lemma blocks_one b : length b = 16%nat -> blocks b = [b].
Proof. intros Hb. unfold blocks. rewrite Hb. cbn. by rewrite take_ge by lia. Qed.

Lemma mod16_sub (n : nat) : (16 <= n)%nat -> ((n - 16) mod 16 = n mod 16)%nat.
Proof. intros. replace n with (n - 16 + 1 * 16)%nat at 2 by lia. by rewrite Nat.Div0.mod_add. Qed.

Lemma zero_pad_cons d : (16 <= length d)%nat -> zero_pad d = take 16 d ++ zero_pad (drop 16 d).
Proof.
  intros. unfold zero_pad. rewrite length_drop, mod16_sub by done.
  by rewrite app_assoc, take_drop.
Qed.

Lemma zero_pad_length d : exists k, length (zero_pad d) = (16 * k)%nat.
Proof.
  unfold zero_pad. rewrite length_app, length_replicate.
  pose proof (Nat.div_mod_eq (length d) 16). pose proof (Nat.mod_upper_bound (length d) 16 ltac:(done)).
  destruct (Nat.eq_dec (length d mod 16)%nat 0%nat) as [E|].
  - rewrite E. exists (length d / 16)%nat. change ((16 - 0) mod 16)%nat with 0%nat. lia.
  - exists (S (length d / 16))%nat. rewrite (Nat.mod_small (16 - _)) by lia. lia.
Qed.

Lemma zero_pad_small d : (0 < length d < 16)%nat -> zero_pad d = pad16 d.
Proof. intros. unfold zero_pad, pad16. rewrite !Nat.mod_small; [done|lia|rewrite Nat.mod_small; lia]. Qed.

Lemma mac_feed_blocks fuel rk x d :
  (length d / 16 < fuel)%nat ->
  mac_feed fuel rk x d =
    fold_left (fun x b => aes_encrypt rk (xor_bytes x b)) (blocks (zero_pad d)) x.
Proof.
  revert x d. induction fuel as [|k IH]; intros x d Hf; [lia|]. cbn [mac_feed]. unfold len.
  destruct (Z.leb_spec 16 (Z.of_nat (length d))) as [H16|H16].
  - rewrite zero_pad_cons by lia. rewrite (blocks_app 1) by (rewrite length_take; lia).
    rewrite blocks_one by (rewrite length_take; lia). cbn [app fold_left].
    apply IH. rewrite length_drop.
    replace (length d) with (16 * 1 + (length d - 16))%nat in Hf by lia. rewrite div16_add in Hf. lia.
  - destruct (Z.eqb_spec (Z.of_nat (length d)) 0) as [H0|H0]; cbn [negb].
    + by destruct d.
    + rewrite zero_pad_small by lia. rewrite blocks_one; [reflexivity|].
      unfold pad16. rewrite length_app, length_replicate. lia.
Qed.

Lemma mac_fuel_enough d : (length d / 16 < mac_fuel d)%nat.
Proof. unfold mac_fuel. lia. Qed.

Lemma zero_pad_le16 d : (0 < length d <= 16)%nat -> zero_pad d = pad16 d.
Proof.
  intros. destruct (Nat.eq_dec (length d) 16%nat) as [E|].
  - unfold zero_pad, pad16. by rewrite E.
  - apply zero_pad_small. lia.
Qed.


Lemma u8_shiftr n k : 0 <= k -> u8 (Z.shiftr n k) = n / 2 ^ k mod 256.
Proof. intros. unfold u8. by rewrite Z.shiftr_div_pow2. Qed.

Lemma slice_0_take (l : list Z) n cap : (Z.to_nat n = Nat.min (length l) cap)%nat -> slice l 0 n = take cap l.
Proof.
  intros Hn. unfold slice. cbn [Z.to_nat drop]. rewrite drop_0, Hn.
  destruct (Nat.le_gt_cases (length l) cap).
  - rewrite !take_ge by lia. done.
  - by rewrite Nat.min_r by lia.
Qed.

Lemma aad_header aad : (0 < length aad)%nat ->
  exists hdr cap, rfc_length (len aad) = hdr /\ (length hdr + cap = 16)%nat /\ (0 < length hdr)%nat /\
    Z.to_nat (aad_first (len aad)) = Nat.min (length aad) cap /\
    aad_block aad = pad16 (hdr ++ take cap aad).
Proof.
  intros Hlen. exists (rfc_length (len aad)), (if len aad <? 65280 then 14%nat else 10%nat).
  assert (Z.to_nat (aad_first (len aad)) = Nat.min (length aad) (if len aad <? 65280 then 14%nat else 10%nat))
    as Hcap.
  { unfold aad_first, len. repeat case_ifZ; lia. }
  unfold rfc_length, aad_block. rewrite (slice_0_take _ _ _ Hcap).
  rewrite !u8_shiftr by lia. unfold len in *. change (u8 ?x) with (x mod 256).
  destruct (Z.of_nat (length aad) <? 65280) eqn:E; zbool; splits; try done; cbn [length]; try lia.
  change (2 ^ 8) with 256. rewrite (Z.mod_small (_ / 256)); [done|].
  split; [apply Z.div_pos; lia | apply Z.div_lt_upper_bound; lia].
Qed.

Lemma aad_blocks aad x rk : (0 < length aad)%nat ->
  fold_left (fun x b => aes_encrypt rk (xor_bytes x b)) (blocks (rfc_aad aad)) x =
  (let first := aad_first (len aad) in
   let x := aes_encrypt rk (xor16 x (aad_block aad)) in
   if first <? len aad then
     let rest := drop (Z.to_nat first) aad in mac_feed (mac_fuel rest) rk x rest
   else x).
Proof.
  intros Hlen. destruct (aad_header aad Hlen) as (hdr & cap & Eh & Hcap & Hh & Hf & Hb).
  assert ((aad_first (len aad) <? len aad) = (cap <? length aad)%nat) as Hlt.
  { assert (0 <= aad_first (len aad)) by (unfold aad_first, len; repeat case_ifZ; lia).
    unfold len in *. destruct (Nat.ltb_spec cap (length aad)); [apply Z.ltb_lt|apply Z.ltb_ge]; lia. }
  assert (rfc_aad aad = zero_pad (hdr ++ aad)) as -> by (destruct aad; [cbn in Hlen; lia|by rewrite <- Eh]).
  cbn zeta. rewrite Hb, Hf, Hlt. clear Eh Hb Hf Hlt. destruct (Nat.ltb_spec cap (length aad)).
  - rewrite zero_pad_cons by (rewrite length_app; lia).
    rewrite (blocks_app 1) by (rewrite length_take, length_app; lia).
    rewrite blocks_one by (rewrite length_take, length_app; lia).
    rewrite take_app_ge, drop_app_ge by lia. replace (16 - length hdr)%nat with cap by lia.
    cbn [app fold_left]. rewrite Nat.min_r by lia.
    rewrite <- (mac_feed_blocks (mac_fuel (drop cap aad))) by apply mac_fuel_enough.
    unfold xor16, pad16. rewrite length_app, length_take.
    replace (16 - _)%nat with 0%nat by lia. by rewrite app_nil_r.
  - rewrite zero_pad_le16 by (rewrite length_app; lia). rewrite (take_ge aad) by lia.
    rewrite blocks_one; [done|]. unfold pad16. rewrite !length_app, length_replicate. lia.
Qed.

Lemma xor_zeros b n : length b = n -> xor_bytes (replicate n 0) b = b.
Proof.
  unfold xor_bytes. revert n. induction b as [|y b IH]; intros [|n] Hb; try done.
  cbn in *. rewrite IH by lia. done.
Qed.

Lemma b0_length nonce mlen alen : (13 <= length nonce)%nat -> length (ccm_b0 nonce mlen alen) = 16%nat.
Proof.
  intros. unfold ccm_b0. rewrite !length_updZ. cbn [length]. rewrite length_app, length_slice.
  - done.
  - lia.
  - cbv; discriminate.
  - unfold len. change NONCE_LEN with 13. lia.
Qed.

Lemma ccm_mac_blocks rk b0 aad pt : length b0 = 16%nat ->
  ccm_mac rk b0 aad pt = cbc_mac rk (blocks (b0 ++ rfc_aad aad ++ zero_pad pt)).
Proof.
  intros H0. unfold ccm_mac, cbc_mac. rewrite (blocks_app 1), blocks_one by done.
  assert (exists k, length (rfc_aad aad) = (16 * k)%nat) as [k Hk].
  { unfold rfc_aad. destruct aad; [by exists 0%nat|apply zero_pad_length]. }
  rewrite (blocks_app k) by done. rewrite !fold_left_app. cbn [fold_left].
  rewrite xor_zeros by done. rewrite (mac_feed_blocks (mac_fuel pt)) by apply mac_fuel_enough.
  f_equal. destruct aad as [|a aad]; [done|]. rewrite aad_blocks by (cbn; lia). done.
Qed.
End Ccm.

(** * Counter mode *)
Section Ccmp.
Context {BC : BlockCipher} {BCL : BlockCipherLaws}.

Definition nonce_ok (nonce : list Z) : Prop := (13 <= length nonce)%nat /\ bytes nonce.

Lemma nonce_slice nonce : nonce_ok nonce ->
  length (slice nonce 0 NONCE_LEN) = 13%nat /\ bytes (slice nonce 0 NONCE_LEN).
Proof.
  intros [Hl Hb]. split; [|auto with bytes].
  rewrite length_slice; [done|lia|cbv; discriminate|]. unfold len. change NONCE_LEN with 13. lia.
Qed.

Lemma ctr0_block nonce : nonce_ok nonce -> block16 (ccm_ctr0 nonce).
Proof.
  intros Hn%nonce_slice. destruct Hn as [Hl Hb]. unfold ccm_ctr0. split.
  - cbn [length]. rewrite length_app, Hl. done.
  - apply Forall_cons_2; [apply byte_u8|]. apply bytes_app; [done|].
    repeat apply Forall_cons_2; [unfold byte; lia..|apply Forall_nil_2].
Qed.

Lemma b0_block nonce mlen alen : nonce_ok nonce -> block16 (ccm_b0 nonce mlen alen).
Proof.
  intros Hn. split; [apply b0_length, Hn|]. apply nonce_slice in Hn as [Hl Hb]. unfold ccm_b0.
  apply bytes_updZ; [apply bytes_updZ|]; [|apply byte_u8..].
  apply Forall_cons_2; [|apply bytes_app; [done|]].
  - destruct (negb (alen =? 0)); vm_compute; split; discriminate || reflexivity.
  - repeat apply Forall_cons_2; [unfold byte; lia..|apply Forall_nil_2].
Qed.

Lemma ctr_inc_block ctr : block16 ctr -> block16 (ctr_inc ctr).
Proof.
  intros [Hl Hb]. unfold ctr_inc. split; [by rewrite !length_updZ|].
  apply bytes_updZ; [apply bytes_updZ|]; auto with bytes.
Qed.

Lemma xor_take_length a b : (length a <= length b)%nat -> length (xor_bytes a b) = length a.
Proof. intros. unfold xor_bytes. rewrite length_zip_with. lia. Qed.

Lemma xor_cancel_le a b : (length a <= length b)%nat -> xor_bytes (xor_bytes a b) b = a.
Proof.
  unfold xor_bytes. revert b. induction a as [|x a IH]; intros [|y b] Hl; cbn in *; try lia; [done..|].
  rewrite lxor_cancel, IH by lia. done.
Qed.

(** Applying the keystream twice is the identity, for any sufficient fuel. *)
Lemma ccm_ctr_twice key n ctr inp :
  block16 key -> block16 ctr -> bytes inp -> (length inp / 16 < n)%nat ->
  let rk := aes_keyexpand key in
  length (ccm_ctr n rk ctr inp) = length inp /\ bytes (ccm_ctr n rk ctr inp) /\
  ccm_ctr n rk ctr (ccm_ctr n rk ctr inp) = inp.
Proof.
  intros Hk. cbn zeta. revert ctr inp. induction n as [|n IH]; intros ctr inp Hc Hb Hn; [lia|].
  cbn [ccm_ctr]. pose proof (ctr_inc_block ctr Hc) as Hc'.
  pose proof (aes_encrypt_block16 key _ Hk Hc') as [Lk Bk].
  revert Lk Bk. generalize (aes_encrypt (aes_keyexpand key) (ctr_inc ctr)) as ks. intros ks Lk Bk.
  unfold len in *. destruct (Z.leb_spec 16 (Z.of_nat (length inp))) as [H16|H16].
  - assert (length (drop 16 inp) / 16 < n)%nat as Hd.
    { rewrite length_drop. replace (length inp) with (16 * 1 + (length inp - 16))%nat in Hn by lia.
      rewrite div16_add in Hn. lia. }
    destruct (IH (ctr_inc ctr) (drop 16 inp) Hc' (bytes_drop _ _ Hb) Hd) as (L & B & R).
    assert (length (take 16 inp) = 16%nat) as Lt by (rewrite length_take; lia).
    assert (length (xor_bytes (take 16 inp) ks) = 16%nat) as Lx by (rewrite xor_take_length; lia).
    rewrite length_app, L, Lx, length_drop. splits; [lia|auto 10 with bytes|].
    rewrite (proj2 (Z.leb_le _ _)) by lia. rewrite take_app_length', drop_app_length' by done.
    rewrite R, xor_cancel_le by lia. apply take_drop.
  - destruct (Z.eqb_spec (Z.of_nat (length inp)) 0) as [H0|H0]; cbn [negb].
    + destruct inp; [|cbn in *; lia]. splits; [done|done|reflexivity].
    + rewrite xor_take_length by lia. splits; [done|auto with bytes|].
      rewrite (proj2 (Z.leb_gt _ _)) by lia. rewrite (proj2 (Z.eqb_neq _ _)) by lia. cbn [negb].
      by rewrite xor_cancel_le by lia.
Qed.

(** * Tags *)
Lemma aes_mac_block key bs x : block16 key -> block16 x -> Forall block16 bs ->
  block16 (fold_left (fun x b => aes_encrypt (aes_keyexpand key) (xor_bytes x b)) bs x).
Proof.
  intros Hk Hx Hbs. revert x Hx. induction Hbs as [|b bs Hb Hbs IH]; intros x Hx; cbn [fold_left]; [done|].
  apply IH. apply aes_encrypt_block16; [done|]. by apply xor_block.
Qed.

Lemma chunks_block n l : length l = (16 * n)%nat -> bytes l -> Forall block16 (chunks n l).
Proof.
  revert l. induction n as [|n IH]; intros l Hl Hb; cbn [chunks]; [constructor|].
  apply Forall_cons_2; [split; [rewrite length_take; lia|auto with bytes]|].
  apply IH; [rewrite length_drop; lia|auto with bytes].
Qed.

Lemma zero_pad_bytes d : bytes d -> bytes (zero_pad d).
Proof. intros. apply bytes_app; [done|]. apply bytes_replicate. unfold byte; lia. Qed.

Lemma blocks_ok l k : length l = (16 * k)%nat -> bytes l -> Forall block16 (blocks l).
Proof.
  intros Hl Hb. unfold blocks. rewrite Hl, Nat.mul_comm, Nat.div_mul by lia.
  apply chunks_block; [lia|done].
Qed.

Lemma rfc_aad_ok aad : bytes aad -> (exists k, length (rfc_aad aad) = (16 * k)%nat) /\ bytes (rfc_aad aad).
Proof.
  intros Hb. unfold rfc_aad. destruct aad as [|a aad]; [split; [by exists 0%nat|apply Forall_nil_2]|].
  split; [apply zero_pad_length|]. apply zero_pad_bytes, bytes_app; [|done].
  unfold rfc_length. assert (0 <= len (a :: aad)) as Hn0 by (unfold len; lia).
  revert Hn0. generalize (len (a :: aad)). intros n Hn. assert (forall x, byte (x mod 256)) as Hmod
    by (intros x; apply u8_range). assert (byte 255 /\ byte 254) as [? ?] by (unfold byte; lia).
  case_ifZ; repeat (apply Forall_cons_2; [auto|]); try apply Forall_nil_2.
  unfold byte. split; [apply Z.div_pos; lia|apply Z.div_lt_upper_bound; lia].
Qed.

Lemma ccm_mac_ok key nonce mlen alen aad pt :
  block16 key -> nonce_ok nonce -> bytes aad -> bytes pt ->
  block16 (ccm_mac (aes_keyexpand key) (ccm_b0 nonce mlen alen) aad pt).
Proof.
  intros Hk Hn Ha Hp. pose proof (b0_block nonce mlen alen Hn) as H0.
  rewrite ccm_mac_blocks by apply H0. apply aes_mac_block; [done| |].
  - split; [done|]. apply bytes_replicate. unfold byte; lia.
  - destruct (rfc_aad_ok aad Ha) as [[k1 E1] B1]. destruct (zero_pad_length pt) as [k2 E2].
    apply (blocks_ok _ (1 + k1 + k2)); [rewrite !length_app, E1, E2, (proj1 H0); lia|].
    apply bytes_app; [apply H0|]. apply bytes_app; [done|by apply zero_pad_bytes].
Qed.

Lemma ccm_tag_ok key nonce aad pt :
  block16 key -> nonce_ok nonce -> bytes aad -> bytes pt ->
  length (ccm_tag (aes_keyexpand key) nonce aad pt) = 8%nat /\
  bytes (ccm_tag (aes_keyexpand key) nonce aad pt).
Proof.
  intros Hk Hn Ha Hp. unfold ccm_tag.
  pose proof (ccm_mac_ok key nonce (len pt) (len aad) aad pt Hk Hn Ha Hp) as Hm.
  pose proof (aes_encrypt_block16 key _ Hk (ctr0_block nonce Hn)) as Hs.
  pose proof (xor_block _ _ Hm Hs) as [Lx Bx]. rewrite length_take, Lx. split; [done|auto with bytes].
Qed.

Lemma lor_fold_zero l a : 0 <= a -> Forall (fun x => 0 <= x) l ->
  fold_left Z.lor l a = 0 <-> a = 0 /\ Forall (fun x => x = 0) l.
Proof.
  revert a. induction l as [|x l IH]; intros a Ha Hl; cbn [fold_left].
  { split; [by split|by intros []]. }
  apply Forall_cons_1 in Hl as [Hx Hl]. rewrite IH; [|by apply Z.lor_nonneg|done].
  rewrite Z.lor_eq_0_iff. split.
  - intros [[-> ->] Hz]. split; [done|]. by apply Forall_cons_2.
  - intros [-> Hz]. apply Forall_cons_1 in Hz as [-> Hz]. done.
Qed.

Lemma mic_diff_zero a b : length a = length b -> bytes a -> bytes b -> mic_diff a b = 0 <-> a = b.
Proof.
  intros Hl Ha Hb. unfold mic_diff. rewrite lor_fold_zero; [|done|].
  - transitivity (Forall (fun x => x = 0) (zip_with Z.lxor a b)); [split; [by intros []|by split]|].
    revert b Hl Hb. induction Ha as [|x a Hx Ha IH]; intros [|y b] Hl Hb; cbn in *; try done.
    apply Forall_cons_1 in Hb as [Hy Hb]. split.
    + intros Hz. apply Forall_cons_1 in Hz as [Hxy%Z.lxor_eq Hz]. f_equal; [done|]. apply IH; auto.
    + intros [= -> ->]. apply Forall_cons_2; [apply Z.lxor_nilpotent|]. apply IH; auto.
  - pose proof (bytes_xor a b Ha Hb) as Hx. unfold bytes, xor_bytes in Hx.
    induction Hx as [|x l Hx Hl' IH]; constructor; [unfold byte in Hx; lia|done].
Qed.

Lemma ccmp_decrypt_encrypt key nonce aad pt ct mic :
  block16 key -> nonce_ok nonce -> bytes aad -> bytes pt ->
  ccmp_encrypt key nonce aad pt = (ct, mic) ->
  ccmp_decrypt key nonce aad ct mic = (0, pt) /\ length ct = length pt /\ length mic = 8%nat.
Proof.
  intros Hk Hn Ha Hp He. unfold ccmp_encrypt in He. simplify_eq.
  pose proof (ctr0_block nonce Hn) as Hc.
  destruct (ccm_ctr_twice key (mac_fuel pt) _ pt Hk Hc Hp (mac_fuel_enough pt)) as (L & B & R).
  destruct (ccm_tag_ok key nonce aad pt Hk Hn Ha Hp) as [Lt Bt].
  splits; [|done|done]. unfold ccmp_decrypt. unfold mac_fuel in *. rewrite L, R.
  rewrite take_ge by lia. rewrite (proj2 (mic_diff_zero _ _ eq_refl Bt Bt) eq_refl). done.
Qed.

(** CCMP decrypts what it encrypts: with the same key, nonce and
    additional data, the ciphertext (as long as the plaintext) and its MIC are
    accepted and give the plaintext back. *)
Theorem ccmp_roundtrip key nonce aad pt ct mic :
  block16 key -> nonce_ok nonce -> bytes aad -> bytes pt ->
  ccmp_encrypt key nonce aad pt = (ct, mic) ->
  ccmp_decrypt key nonce aad ct mic = (0, pt) /\ length ct = length pt /\ length mic = 8%nat.
Proof. apply ccmp_decrypt_encrypt. Qed.

(** [C35] CCMP authenticates: a frame is accepted exactly when its ciphertext
    and MIC are the encryption of the plaintext returned, so any change to the
    MIC, the ciphertext, the nonce or the additional data that is not itself a
    valid encryption is rejected with -1. *)
Theorem ccmp_accepts_iff key nonce aad ct mic pt :
  block16 key -> nonce_ok nonce -> bytes aad -> bytes ct -> bytes mic -> length mic = 8%nat ->
  ccmp_decrypt key nonce aad ct mic = (0, pt) <->
  bytes pt /\ ccmp_encrypt key nonce aad pt = (ct, mic).
Proof.
  intros Hk Hn Ha Hc Hm Lm. split.
  - unfold ccmp_decrypt. pose proof (ctr0_block nonce Hn) as H0.
    destruct (ccm_ctr_twice key (mac_fuel ct) _ ct Hk H0 Hc (mac_fuel_enough ct)) as (L & B & R).
    intros [Hd <-]%pair_equal_spec. rewrite (take_ge mic) in * by lia.
    match type of Hd with (if ?b then _ else _) = _ => destruct b eqn:E; [done|] end. zbool.
    destruct (ccm_tag_ok key nonce aad _ Hk Hn Ha B) as [Lt Bt].
    rewrite mic_diff_zero in E by (done || lia). split; [done|]. unfold ccmp_encrypt, mac_fuel in *.
    by rewrite L, R, E.
  - intros [Hp He]. by eapply ccmp_decrypt_encrypt in He as [? _].
Qed.

(** The chained MAC of the code (special first block of additional data,
    partial blocks zero-padded on the fly) is the CBC-MAC of RFC 3610 over B_0,
    the length-prefixed padded additional data and the padded message. *)
Theorem ccm_mac_rfc3610 rk nonce mlen alen aad pt :
  (13 <= length nonce)%nat ->
  ccm_mac rk (ccm_b0 nonce mlen alen) aad pt =
  cbc_mac rk (blocks (ccm_b0 nonce mlen alen ++ rfc_aad aad ++ zero_pad pt)).
Proof. intros. by apply ccm_mac_blocks, b0_length. Qed.
End Ccmp.

(** * Packet vectors of RFC 3610, with AES as the cipher *)
Definition rfc_key : list Z :=
  [192; 193; 194; 195; 196; 197; 198; 199; 200; 201; 202; 203; 204; 205; 206; 207].
Definition rfc_nonce : list Z := [0; 0; 0; 3; 2; 1; 0; 160; 161; 162; 163; 164; 165].
Definition rfc_hdr : list Z := seqZ 0 8.
Definition rfc_msg : list Z := seqZ 8 23.
Definition rfc_ct : list Z :=
  [88; 140; 151; 154; 97; 198; 99; 210; 240; 102; 208; 194; 192; 249; 137; 128;
   109; 95; 107; 97; 218; 195; 132].
Definition rfc_mic : list Z := [23; 232; 209; 44; 253; 249; 38; 224].

Example rfc3610_vector_1 : ccmp_encrypt rfc_key rfc_nonce rfc_hdr rfc_msg = (rfc_ct, rfc_mic).
Proof. vm_compute. reflexivity. Qed.

Lemma ccmp_roundtrip_witness :
  ccmp_decrypt rfc_key rfc_nonce rfc_hdr rfc_ct rfc_mic = (0, rfc_msg) /\
  length rfc_ct = length rfc_msg /\ length rfc_mic = 8%nat.
Proof.
  apply (ccmp_roundtrip rfc_key rfc_nonce rfc_hdr rfc_msg).
  - apply block16_check; vm_compute; reflexivity.
  - split; [cbn; lia|check_bytes].
  - check_bytes.
  - check_bytes.
  - vm_compute. reflexivity.
Defined.

Lemma ccmp_accepts_iff_witness :
  ccmp_decrypt rfc_key rfc_nonce rfc_hdr rfc_ct (u8 (rfc_mic.[0] + 1) :: drop 1 rfc_mic) = (0, rfc_msg) <->
  bytes rfc_msg /\
  ccmp_encrypt rfc_key rfc_nonce rfc_hdr rfc_msg = (rfc_ct, u8 (rfc_mic.[0] + 1) :: drop 1 rfc_mic).
Proof.
  apply ccmp_accepts_iff.
  - apply block16_check; vm_compute; reflexivity.
  - split; [cbn; lia|check_bytes].
  - check_bytes.
  - check_bytes.
  - check_bytes.
  - reflexivity.
Defined.

Lemma ccm_mac_rfc3610_witness :
  ccm_mac (aes_keyexpand rfc_key) (ccm_b0 rfc_nonce 23 8) rfc_hdr rfc_msg =
  cbc_mac (aes_keyexpand rfc_key) (blocks (ccm_b0 rfc_nonce 23 8 ++ rfc_aad rfc_hdr ++ zero_pad rfc_msg)).
Proof. apply ccm_mac_rfc3610. cbn. lia. Defined.
