(* ===== verification/Hash.v ===== *)
(** * SHA-1, SHA-256, HMAC and PBKDF2 (kernel/lib/sha1.c, sha256.c, hmac.c)

    Both hashes keep a 64-byte block buffer that [update] fills and flushes
    through the compression function; [md_feed] is that loop, which the two
    files write identically. The buffer field holds the valid prefix
    [buf[0 .. buf_len)] of the C array. *)
From Stdlib Require Import ZArith Lia Bool.
From stdpp Require Import base list numbers option.
From S2P Require Import Prelude.
#[local] Set Default Goal Selector "!".
Open Scope Z_scope.

(** ** The buffering loop of [sha1_update] and [sha256_update] *)
Section Feed.
Context {St : Type} (compress : St -> list Z -> St).

Fixpoint md_feed (fuel : nat) (h : St) (buf data : list Z) {struct fuel} : St * list Z :=
  match fuel with
  | O => (h, buf)
  | S k =>
    if len data =? 0 then (h, buf)
    else
      let take0 := 64 - len buf in
      let n := if len data <? take0 then len data else take0 in
      let buf := buf ++ take (Z.to_nat n) data in
      let data := drop (Z.to_nat n) data in
      if len buf =? 64 then md_feed k (compress h buf) [] data
      else md_feed k h buf data
  end.
End Feed.

(** [while (c->buf_len != 56) update(c, &zero, 1)]: at most 64 turns. *)
Section Pad.
Context {Ctx : Type} (buf : Ctx -> list Z) (update : Ctx -> list Z -> Ctx).
Fixpoint md_pad (fuel : nat) (c : Ctx) {struct fuel} : Ctx :=
  match fuel with
  | O => c
  | S k => if negb (len (buf c) =? 56) then md_pad k (update c [0]) else c
  end.
End Pad.

(** Each iteration consumes at least one byte. *)
Definition feed_fuel (data : list Z) : nat := S (length data).

Definition be32_at (data : list Z) (i : Z) : Z :=
  Z.lor (Z.lor (Z.lor (Z.shiftl (data.[i * 4]) 24) (Z.shiftl (data.[i * 4 + 1]) 16))
               (Z.shiftl (data.[i * 4 + 2]) 8)) (data.[i * 4 + 3]).

Definition put_be32 (x : Z) : list Z :=
  [u8 (Z.shiftr x 24); u8 (Z.shiftr x 16); u8 (Z.shiftr x 8); u8 x].

(** [lenb[i] = (u8)(bitlen >> (56 - 8 * i))] *)
Definition len_bytes (bitlen : Z) : list Z :=
  map (fun i => u8 (Z.shiftr bitlen (56 - 8 * i))) (seqZ 0 8).

(** ** SHA-1 *)
Definition rol32 (x n : Z) : Z := Z.lor (u32 (Z.shiftl x n)) (Z.shiftr x (32 - n)).

Record sha1_ctx := Sha1Ctx { s1_h : list Z; s1_len : Z; s1_buf : list Z }.

Definition sha1_schedule (p : list Z) : list Z :=
  fold_left (fun w i =>
    w ++ [rol32 (Z.lxor (Z.lxor (Z.lxor (w.[i - 3]) (w.[i - 8])) (w.[i - 14])) (w.[i - 16])) 1])
    (seqZ 16 64) (map (be32_at p) (seqZ 0 16)).

Definition sha1_round (w : list Z) (st : Z * Z * Z * Z * Z) (i : Z) : Z * Z * Z * Z * Z :=
  let '(a, b, cc, d, e) := st in
  let '(f, k) :=
    if i <? 20 then (Z.lor (Z.land b cc) (Z.land (Z.lnot b) d), 1518500249)
    else if i <? 40 then (Z.lxor (Z.lxor b cc) d, 1859775393)
    else if i <? 60 then (Z.lor (Z.lor (Z.land b cc) (Z.land b d)) (Z.land cc d), 2400959708)
    else (Z.lxor (Z.lxor b cc) d, 3395469782) in
  let t := u32 (rol32 a 5 + f + e + k + w.[i]) in
  (t, a, rol32 b 30, cc, d).

Definition sha1_block (h p : list Z) : list Z :=
  let w := sha1_schedule p in
  let '(a, b, cc, d, e) :=
    fold_left (sha1_round w) (seqZ 0 80) (h.[0], h.[1], h.[2], h.[3], h.[4]) in
  [u32 (h.[0] + a); u32 (h.[1] + b); u32 (h.[2] + cc); u32 (h.[3] + d); u32 (h.[4] + e)].

Definition sha1_init : sha1_ctx :=
  Sha1Ctx [1732584193; 4023233417; 2562383102; 271733878; 3285377520] 0 [].

Definition sha1_update (c : sha1_ctx) (data : list Z) : sha1_ctx :=
  let '(h, buf) := md_feed sha1_block (feed_fuel data) (s1_h c) (s1_buf c) data in
  Sha1Ctx h (u64 (s1_len c + len data)) buf.

Definition sha1_pad : nat -> sha1_ctx -> sha1_ctx := md_pad s1_buf sha1_update.

Definition sha1_final (c : sha1_ctx) : list Z :=
  let bitlen := u64 (s1_len c * 8) in
  let c := sha1_update c [128] in
  let c := sha1_pad 64 c in
  let c := sha1_update c (len_bytes bitlen) in
  concat (map (fun i => put_be32 ((s1_h c).[i])) (seqZ 0 5)).

(** ** SHA-256 *)
Definition K : list Z := [
  1116352408; 1899447441; 3049323471; 3921009573; 961987163; 1508970993; 2453635748; 2870763221;
  3624381080; 310598401; 607225278; 1426881987; 1925078388; 2162078206; 2614888103; 3248222580;
  3835390401; 4022224774; 264347078; 604807628; 770255983; 1249150122; 1555081692; 1996064986;
  2554220882; 2821834349; 2952996808; 3210313671; 3336571891; 3584528711; 113926993; 338241895;
  666307205; 773529912; 1294757372; 1396182291; 1695183700; 1986661051; 2177026350; 2456956037;
  2730485921; 2820302411; 3259730800; 3345764771; 3516065817; 3600352804; 4094571909; 275423344;
  430227734; 506948616; 659060556; 883997877; 958139571; 1322822218; 1537002063; 1747873779;
  1955562222; 2024104815; 2227730452; 2361852424; 2428436474; 2756734187; 3204031479; 3329325298].

Definition ROTR (x n : Z) : Z := Z.lor (Z.shiftr x n) (u32 (Z.shiftl x (32 - n))).
Definition CH (x y z : Z) : Z := Z.lxor (Z.land x y) (Z.land (Z.lnot x) z).
Definition MAJ (x y z : Z) : Z := Z.lxor (Z.lxor (Z.land x y) (Z.land x z)) (Z.land y z).
Definition EP0 (x : Z) : Z := Z.lxor (Z.lxor (ROTR x 2) (ROTR x 13)) (ROTR x 22).
Definition EP1 (x : Z) : Z := Z.lxor (Z.lxor (ROTR x 6) (ROTR x 11)) (ROTR x 25).
Definition SIG0 (x : Z) : Z := Z.lxor (Z.lxor (ROTR x 7) (ROTR x 18)) (Z.shiftr x 3).
Definition SIG1 (x : Z) : Z := Z.lxor (Z.lxor (ROTR x 17) (ROTR x 19)) (Z.shiftr x 10).

Record sha256_ctx := Sha256Ctx { s2_state : list Z; s2_bitlen : Z; s2_buf : list Z }.

Definition sha256_schedule (data : list Z) : list Z :=
  fold_left (fun w i =>
    w ++ [u32 (SIG1 (w.[i - 2]) + w.[i - 7] + SIG0 (w.[i - 15]) + w.[i - 16])])
    (seqZ 16 48) (map (be32_at data) (seqZ 0 16)).

Definition sha256_round (w : list Z) (st : Z * Z * Z * Z * Z * Z * Z * Z) (i : Z)
  : Z * Z * Z * Z * Z * Z * Z * Z :=
  let '(a, b, cc, d, e, f, g, h) := st in
  let t1 := u32 (h + EP1 e + CH e f g + K.[i] + w.[i]) in
  let t2 := u32 (EP0 a + MAJ a b cc) in
  (u32 (t1 + t2), a, b, cc, u32 (d + t1), e, f, g).

Definition sha256_transform (s data : list Z) : list Z :=
  let w := sha256_schedule data in
  let '(a, b, cc, d, e, f, g, h) :=
    fold_left (sha256_round w) (seqZ 0 64)
      (s.[0], s.[1], s.[2], s.[3], s.[4], s.[5], s.[6], s.[7]) in
  [u32 (s.[0] + a); u32 (s.[1] + b); u32 (s.[2] + cc); u32 (s.[3] + d);
   u32 (s.[4] + e); u32 (s.[5] + f); u32 (s.[6] + g); u32 (s.[7] + h)].

Definition sha256_init : sha256_ctx :=
  Sha256Ctx [1779033703; 3144134277; 1013904242; 2773480762;
             1359893119; 2600822924; 528734635; 1541459225] 0 [].

(** The [bitlen += take * 8] of each iteration adds up to [8 * len]. *)
Definition sha256_update (c : sha256_ctx) (data : list Z) : sha256_ctx :=
  let '(s, buf) := md_feed sha256_transform (feed_fuel data) (s2_state c) (s2_buf c) data in
  Sha256Ctx s (u64 (s2_bitlen c + len data * 8)) buf.

Definition sha256_pad : nat -> sha256_ctx -> sha256_ctx := md_pad s2_buf sha256_update.

Definition sha256_final (c : sha256_ctx) : list Z :=
  let orig_bitlen := s2_bitlen c in
  let c := sha256_update c [128] in
  let c := sha256_pad 64 c in
  let c := sha256_update c (len_bytes orig_bitlen) in
  concat (map (fun i => put_be32 ((s2_state c).[i])) (seqZ 0 8)).

(** Absent strings (null pointers) are skipped. *)
Definition update_opt (c : sha256_ctx) (s : option (list Z)) : sha256_ctx :=
  match s with Some d => sha256_update c d | None => c end.
Definition sha256_strings (s1 s2 s3 : option (list Z)) : list Z :=
  sha256_final (update_opt (update_opt (update_opt sha256_init s1) s2) s3).

Definition hx : list Z := [48; 49; 50; 51; 52; 53; 54; 55; 56; 57; 97; 98; 99; 100; 101; 102].
Definition sha256_to_hex (d : list Z) : list Z :=
  concat (map (fun i => [hx.[Z.shiftr (d.[i]) 4]; hx.[Z.land (d.[i]) 15]]) (seqZ 0 32)) ++ [0].

(** ** HMAC *)
(** [memset(k, 0, 64)], then the key or its digest. *)
Definition key_block (digest : list Z -> list Z) (key : list Z) : list Z :=
  let k := if 64 <? len key then digest key else key in
  k ++ replicate (64 - length k) 0.
Definition xor_pad (k : list Z) (v : Z) : list Z := map (fun b => Z.lxor b v) k.

Definition hmac_sha1 (key data : list Z) : list Z :=
  let k := key_block (fun m => sha1_final (sha1_update sha1_init m)) key in
  let ipad := xor_pad k 54 in
  let opad := xor_pad k 92 in
  let inner := sha1_final (sha1_update (sha1_update sha1_init ipad) data) in
  sha1_final (sha1_update (sha1_update sha1_init opad) inner).

Definition hmac_sha256 (key data : list Z) : list Z :=
  let k := key_block (fun m => sha256_final (sha256_update sha256_init m)) key in
  let ipad := xor_pad k 54 in
  let opad := xor_pad k 92 in
  let inner := sha256_final (sha256_update (sha256_update sha256_init ipad) data) in
  sha256_final (sha256_update (sha256_update sha256_init opad) inner).

(** ** PBKDF2: one block [T_block], then the output loop *)
Fixpoint pbkdf2_iter (n : nat) (pass u t : list Z) : list Z :=
  match n with
  | O => t
  | S k => let u := hmac_sha1 pass u in pbkdf2_iter k pass u (xor_bytes t u)
  end.

Definition pbkdf2_block (pass salt : list Z) (iterations block : Z) : list Z :=
  let u := hmac_sha1 pass (salt ++ put_be32 block) in
  pbkdf2_iter (Z.to_nat (iterations - 1)) pass u u.

(** [while (outlen)], 20 bytes at a time. *)
Fixpoint pbkdf2_out (fuel : nat) (pass salt : list Z) (iterations block outlen : Z) {struct fuel}
  : list Z :=
  match fuel with
  | O => []
  | S k =>
    if outlen =? 0 then []
    else
      let t := pbkdf2_block pass salt iterations block in
      let n := if 20 <? outlen then 20 else outlen in
      take (Z.to_nat n) t ++ pbkdf2_out k pass salt iterations (u32 (block + 1)) (outlen - n)
  end.

Definition pbkdf2_hmac_sha1 (pass salt : list Z) (iterations outlen : Z) : list Z :=
  pbkdf2_out (S (Z.to_nat outlen)) pass salt iterations 1 outlen.

(** ** The reference: Merkle-Damgard over the padded message *)
Section Reference.
Context {St : Type} (compress : St -> list Z -> St).

Fixpoint blocks (n : nat) (s : list Z) : list (list Z) :=
  match n with O => [] | S k => take 64 s :: blocks k (drop 64 s) end.

Definition absorb (h : St) (s : list Z) : St * list Z :=
  let n := (length s / 64)%nat in
  (fold_left compress (blocks n s) h, drop (64 * n) s).

(** FIPS 180-4, 5.1.1: a one bit, the least number of zero bytes that leaves
    room for the 64-bit length, the length. *)
Definition padded (m : list Z) : list Z :=
  m ++ [128] ++ replicate (Z.to_nat ((55 - len m) mod 64)) 0 ++ len_bytes (8 * len m).

Definition md_hash (iv : St) (m : list Z) : St :=
  let p := padded m in fold_left compress (blocks (length p / 64) p) iv.

Lemma absorb_small h s : (length s < 64)%nat -> absorb h s = (h, s).
Proof.
  intros Hl. unfold absorb. rewrite Nat.div_small by done.
  cbn [blocks fold_left]. by rewrite Nat.mul_0_r, drop_0.
Qed.

Lemma absorb_block h b s :
  length b = 64%nat -> absorb h (b ++ s) = absorb (compress h b) s.
Proof.
  intros Hb. unfold absorb. rewrite length_app, Hb.
  replace ((64 + length s) / 64)%nat with (S (length s / 64))
    by (replace (64 + length s)%nat with (length s + 1 * 64)%nat by lia; rewrite Nat.div_add; lia).
  cbn [blocks fold_left]. rewrite (take_app_length' b s 64), (drop_app_length' b s 64) by lia. f_equal.
  replace (64 * S (length s / 64))%nat with (length b + 64 * (length s / 64))%nat by lia.
  by rewrite drop_app_add.
Qed.

Lemma absorb_step h s :
  (64 <= length s)%nat -> absorb h s = absorb (compress h (take 64 s)) (drop 64 s).
Proof.
  intros Hl. rewrite <- (take_drop 64 s) at 1. apply absorb_block. rewrite length_take. lia.
Qed.

Lemma absorb_app a : forall h b,
  absorb h (a ++ b) = absorb (fst (absorb h a)) (snd (absorb h a) ++ b).
Proof.
  induction a as [a IH] using (induction_ltof1 _ (@length Z)). unfold ltof in IH. intros h b.
  destruct (decide (length a < 64)%nat) as [Hs|Hs]; [by rewrite (absorb_small h a)|].
  rewrite (absorb_step h a) by lia. rewrite <- IH by (rewrite length_drop; lia).
  rewrite <- (take_drop 64 a) at 1. rewrite <- app_assoc. apply absorb_block. rewrite length_take. lia.
Qed.

Lemma absorb_rest h s : length (snd (absorb h s)) = (length s mod 64)%nat.
Proof.
  unfold absorb. cbn [snd]. rewrite length_drop.
  pose proof (Nat.div_mod_eq (length s) 64). lia.
Qed.

Lemma absorb_whole h s :
  (length s mod 64 = 0)%nat -> absorb h s = (fold_left compress (blocks (length s / 64) s) h, []).
Proof.
  intros Hm. pose proof (absorb_rest h s) as Hr. rewrite Hm in Hr. apply nil_length_inv in Hr.
  rewrite <- Hr. done.
Qed.

Lemma md_feed_absorb fuel : forall h buf data,
  (length buf < 64)%nat -> (length data < fuel)%nat ->
  md_feed compress fuel h buf data = absorb h (buf ++ data).
Proof.
  induction fuel as [|k IH]; intros h buf data Hb Hf; [lia|]. cbn [md_feed].
  unfold len at 1. case_ifZ.
  { destruct data; [|done]. rewrite app_nil_r. by rewrite absorb_small. }
  set (n := if _ <? _ then _ else _).
  assert (Hn : 0 < n <= 64 - len buf /\ n <= len data) by (unfold n, len in *; case_ifZ; lia).
  assert (Es : buf ++ data = (buf ++ take (Z.to_nat n) data) ++ drop (Z.to_nat n) data)
    by (by rewrite <- app_assoc, take_drop).
  rewrite Es.
  unfold len in *. case_ifZ.
  - rewrite IH; [|simpl; lia|rewrite length_drop; lia]. symmetry. apply absorb_block. lia.
  - rewrite length_app, length_take in E0.
    apply IH; rewrite ?length_app, ?length_take, ?length_drop; lia.
Qed.
End Reference.

(** ** Any split of the input into updates gives the same digest context *)
Lemma length_len_bytes x : length (len_bytes x) = 8%nat.
Proof. unfold len_bytes. by rewrite length_map, length_seqZ. Qed.

(** A hash context that buffers through [md_feed]: what both files share. *)
Record md_ctx {Ctx St : Type} := MdCtx {
  md_compress : St -> list Z -> St;
  md_h : Ctx -> St;
  md_buf : Ctx -> list Z;
  md_update : Ctx -> list Z -> Ctx;
  md_update_spec : forall c d, (length (md_buf c) < 64)%nat ->
    (md_h (md_update c d), md_buf (md_update c d)) = absorb md_compress (md_h c) (md_buf c ++ d) }.
Arguments md_ctx : clear implicits.

Section Stream.
Context {Ctx St : Type} (M : md_ctx Ctx St).
#[local] Abbreviation h := (md_h M).
#[local] Abbreviation buf := (md_buf M).
#[local] Abbreviation update := (md_update M).
#[local] Abbreviation absorb := (absorb (md_compress M)).
#[local] Abbreviation ok c := (length (buf c) < 64)%nat.

Lemma update_h c d : ok c -> h (update c d) = fst (absorb (h c) (buf c ++ d)).
Proof. intros Hc. by rewrite <- (md_update_spec M c d Hc). Qed.
Lemma update_buf c d : ok c -> buf (update c d) = snd (absorb (h c) (buf c ++ d)).
Proof. intros Hc. by rewrite <- (md_update_spec M c d Hc). Qed.
Lemma update_ok c d : ok c -> ok (update c d).
Proof. intros Hc. rewrite update_buf, absorb_rest by done. apply Nat.mod_upper_bound. lia. Qed.

Lemma update_app c a b : ok c ->
  (h (update (update c a) b), buf (update (update c a) b))
  = (h (update c (a ++ b)), buf (update c (a ++ b))).
Proof.
  intros Hc. rewrite !(md_update_spec M) by (try done; by apply update_ok).
  by rewrite update_h, update_buf, app_assoc, <- absorb_app by done.
Qed.

Lemma update_buf_len c d : ok c ->
  length (buf (update c d)) = ((length (buf c) + length d) mod 64)%nat.
Proof. intros Hc. by rewrite update_buf, absorb_rest, length_app by done. Qed.

(** The padding loop stops, with [buf_len] at 56, after [k] turns. *)
Lemma md_pad_spec fuel : forall k c, ok c -> (k < fuel)%nat -> (k < 64)%nat ->
  ((length (buf c) + k) mod 64 = 56)%nat ->
  (h (md_pad buf update fuel c), buf (md_pad buf update fuel c))
  = absorb (h c) (buf c ++ replicate k 0).
Proof.
  induction fuel as [|f IH]; intros k c Hc Hf Hk Hm; [lia|]. cbn [md_pad]. unfold len.
  destruct k as [|k].
  - rewrite Nat.add_0_r, Nat.mod_small in Hm by lia. rewrite Hm. cbn [replicate].
    rewrite app_nil_r. by rewrite absorb_small by lia.
  - destruct (decide (length (buf c) = 56%nat)) as [E|E].
    { rewrite E in Hm. exfalso. pose proof (Nat.div_mod_eq (56 + S k) 64). lia. }
    rewrite (proj2 (Z.eqb_neq _ _)) by lia. cbn [negb].
    rewrite (IH k); [|by apply update_ok|lia|lia|].
    + rewrite update_h, update_buf, <- absorb_app, <- app_assoc by done. done.
    + rewrite update_buf_len by done. cbn [length]. rewrite Nat.Div0.add_mod_idemp_l. rewrite <- Hm.
      f_equal; lia.
Qed.

(** Update with the message, the 0x80 byte, the pad loop and the length:
    the whole padded message has gone through the compression function. *)
Lemma md_final_spec c0 m : buf c0 = [] ->
  h (update (md_pad buf update 64 (update (update c0 m) [128])) (len_bytes (8 * len m)))
  = md_hash (md_compress M) (h c0) m.
Proof.
  intros H0. assert (Hc0 : ok c0) by (rewrite H0; simpl; lia).
  set (c1 := update (update c0 m) [128]).
  assert (Hc1 : ok c1) by (apply update_ok, update_ok, Hc0).
  assert (E1 : (h c1, buf c1) = absorb (h c0) (m ++ [128])).
  { unfold c1. rewrite update_app, md_update_spec by done. by rewrite H0. }
  set (k := Z.to_nat ((55 - len m) mod 64)).
  assert (Hk : (k < 64)%nat) by (unfold k; pose proof (Z.mod_pos_bound (55 - len m) 64); lia).
  assert (Hm : ((length (buf c1) + k) mod 64 = 56)%nat).
  { replace (buf c1) with (snd (absorb (h c0) (m ++ [128]))) by (by rewrite <- E1).
    rewrite absorb_rest, length_app, Nat.Div0.add_mod_idemp_l. cbn [length].
    unfold k, len. pose proof (Z.div_mod (55 - Z.of_nat (length m)) 64 ltac:(lia)) as Hd.
    pose proof (Z.mod_pos_bound (55 - Z.of_nat (length m)) 64 ltac:(lia)) as Hb.
    set (r := (55 - Z.of_nat (length m)) mod 64) in *. set (d := (55 - Z.of_nat (length m)) / 64) in *.
    apply Nat2Z.inj. rewrite Nat2Z.inj_mod. symmetry. apply (Z.mod_unique _ _ (- d)); lia. }
  pose proof (md_pad_spec 64 k c1 Hc1 Hk Hk Hm) as E2.
  set (c2 := md_pad buf update 64 c1) in *.
  assert (Hc2 : length (buf c2) = 56%nat).
  { replace (buf c2) with (snd (absorb (h c1) (buf c1 ++ replicate k 0))) by (by rewrite <- E2).
    by rewrite absorb_rest, length_app, length_replicate. }
  rewrite update_h by lia.
  rewrite (f_equal fst E2 : h c2 = _), (f_equal snd E2 : buf c2 = _), <- absorb_app, <- app_assoc.
  rewrite (f_equal fst E1 : h c1 = _), (f_equal snd E1 : buf c1 = _), <- absorb_app, <- app_assoc.
  fold k. change (m ++ [128] ++ _) with (padded m).
  rewrite absorb_whole; [done|].
  unfold padded. rewrite !length_app, length_replicate, length_len_bytes. fold k. cbn [length].
  replace (length m + (1 + (k + 8)))%nat with (length m + 1 + k + 8)%nat by lia.
  rewrite <- Nat.Div0.add_mod_idemp_l. replace ((length m + 1 + k) mod 64)%nat with 56%nat; [done|].
  by rewrite (f_equal snd E1 : buf c1 = _), absorb_rest, length_app, Nat.Div0.add_mod_idemp_l in Hm.
Qed.
End Stream.

#[local] Opaque sha1_block sha256_transform md_feed md_hash.

(** ** SHA-1 and SHA-256 implement the reference *)
Definition sha1_digest (h : list Z) : list Z := concat (map (fun i => put_be32 (h.[i])) (seqZ 0 5)).
Definition sha256_digest (h : list Z) : list Z := concat (map (fun i => put_be32 (h.[i])) (seqZ 0 8)).

(** The hash of a message, as FIPS 180-4 states it. *)
Definition sha1 (m : list Z) : list Z := sha1_digest (md_hash sha1_block (s1_h sha1_init) m).
Definition sha256 (m : list Z) : list Z :=
  sha256_digest (md_hash sha256_transform (s2_state sha256_init) m).

Lemma sha1_update_spec c d : (length (s1_buf c) < 64)%nat ->
  (s1_h (sha1_update c d), s1_buf (sha1_update c d)) = absorb sha1_block (s1_h c) (s1_buf c ++ d).
Proof.
  intros Hc. unfold sha1_update. rewrite md_feed_absorb; [|done|unfold feed_fuel; lia].
  by destruct (absorb sha1_block _ _).
Qed.

Lemma sha256_update_spec c d : (length (s2_buf c) < 64)%nat ->
  (s2_state (sha256_update c d), s2_buf (sha256_update c d))
  = absorb sha256_transform (s2_state c) (s2_buf c ++ d).
Proof.
  intros Hc. unfold sha256_update. rewrite md_feed_absorb; [|done|unfold feed_fuel; lia].
  by destruct (absorb sha256_transform _ _).
Qed.

Definition sha1_md : md_ctx sha1_ctx (list Z) := MdCtx _ _ _ _ _ _ sha1_update_spec.
Definition sha256_md : md_ctx sha256_ctx (list Z) := MdCtx _ _ _ _ _ _ sha256_update_spec.

Lemma u64_add_l x y : u64 (u64 x + y) = u64 (x + y).
Proof. unfold u64. apply Zplus_mod_idemp_l. Qed.

Lemma s1_len_update c d : s1_len (sha1_update c d) = u64 (s1_len c + len d).
Proof. unfold sha1_update. by destruct (md_feed _ _ _ _ _). Qed.
Lemma s2_bitlen_update c d : s2_bitlen (sha256_update c d) = u64 (s2_bitlen c + len d * 8).
Proof. unfold sha256_update. by destruct (md_feed _ _ _ _ _). Qed.

Lemma sha1_ctx_ext c c' :
  (s1_h c, s1_buf c) = (s1_h c', s1_buf c') -> s1_len c = s1_len c' -> c = c'.
Proof. destruct c, c'. cbn. rewrite pair_equal_spec. by intros [-> ->] ->. Qed.
Lemma sha256_ctx_ext c c' :
  (s2_state c, s2_buf c) = (s2_state c', s2_buf c') -> s2_bitlen c = s2_bitlen c' -> c = c'.
Proof. destruct c, c'. cbn. rewrite pair_equal_spec. by intros [-> ->] ->. Qed.

Lemma sha1_update_app c a b : (length (s1_buf c) < 64)%nat ->
  sha1_update (sha1_update c a) b = sha1_update c (a ++ b).
Proof.
  intros Hc. apply sha1_ctx_ext; [apply (update_app sha1_md c a b Hc)|].
  rewrite !s1_len_update, u64_add_l, len_app. f_equal. lia.
Qed.

Lemma sha256_update_app c a b : (length (s2_buf c) < 64)%nat ->
  sha256_update (sha256_update c a) b = sha256_update c (a ++ b).
Proof.
  intros Hc. apply sha256_ctx_ext; [apply (update_app sha256_md c a b Hc)|].
  rewrite !s2_bitlen_update, u64_add_l, len_app. f_equal. lia.
Qed.

Lemma sha1_final_spec m : 8 * len m < 2 ^ 64 -> sha1_final (sha1_update sha1_init m) = sha1 m.
Proof.
  intros Hm. unfold sha1_final, sha1, sha1_digest. rewrite s1_len_update.
  change (s1_len sha1_init + len m) with (len m).
  assert (0 <= len m) by (unfold len; lia).
  replace (u64 (u64 (len m) * 8)) with (8 * len m) by (rewrite !u64_small; rewrite ?u64_small; lia).
  pose proof (md_final_spec sha1_md sha1_init m eq_refl) as Hf.
  cbn [md_h md_buf md_update md_compress sha1_md] in Hf. unfold sha1_pad.
  rewrite Hf. reflexivity.
Qed.

Lemma sha256_final_spec m :
  8 * len m < 2 ^ 64 -> sha256_final (sha256_update sha256_init m) = sha256 m.
Proof.
  intros Hm. unfold sha256_final, sha256, sha256_digest. rewrite s2_bitlen_update.
  change (s2_bitlen sha256_init + len m * 8) with (len m * 8).
  assert (0 <= len m) by (unfold len; lia).
  replace (u64 (len m * 8)) with (8 * len m) by (rewrite u64_small; lia).
  pose proof (md_final_spec sha256_md sha256_init m eq_refl) as Hf.
  cbn [md_h md_buf md_update md_compress sha256_md] in Hf. unfold sha256_pad.
  rewrite Hf. reflexivity.
Qed.

Lemma sha1_fold_update chunks : forall d,
  fold_left sha1_update chunks (sha1_update sha1_init d) = sha1_update sha1_init (d ++ concat chunks).
Proof.
  induction chunks as [|e es IH]; intros d; cbn [fold_left concat]; [by rewrite app_nil_r|].
  rewrite sha1_update_app by (simpl; lia). by rewrite IH, app_assoc.
Qed.

Lemma sha256_fold_update chunks : forall d,
  fold_left sha256_update chunks (sha256_update sha256_init d)
  = sha256_update sha256_init (d ++ concat chunks).
Proof.
  induction chunks as [|e es IH]; intros d; cbn [fold_left concat]; [by rewrite app_nil_r|].
  rewrite sha256_update_app by (simpl; lia). by rewrite IH, app_assoc.
Qed.

Lemma sha1_streaming chunks : 8 * len (concat chunks) < 2 ^ 64 ->
  sha1_final (fold_left sha1_update chunks sha1_init) = sha1 (concat chunks).
Proof.
  intros Hl. rewrite <- sha1_final_spec by done. f_equal.
  exact (sha1_fold_update chunks []).
Qed.

Lemma sha256_streaming chunks : 8 * len (concat chunks) < 2 ^ 64 ->
  sha256_final (fold_left sha256_update chunks sha256_init) = sha256 (concat chunks).
Proof.
  intros Hl. rewrite <- sha256_final_spec by done. f_equal.
  exact (sha256_fold_update chunks []).
Qed.

(** Hashing is independent of how the input is cut into updates, and is
    the FIPS 180-4 function: for every sequence of [sha1_update] (respectively
    [sha256_update]) calls on a fresh context, [sha1_final] returns the
    compression function folded over the blocks of the padded concatenation,
    in big-endian words. The padding loop always reaches byte 56, and the
    length recorded is the message's as long as it fits 64 bits. *)
Theorem hash_streaming chunks : 8 * len (concat chunks) < 2 ^ 64 ->
  sha1_final (fold_left sha1_update chunks sha1_init) = sha1 (concat chunks) /\
  sha256_final (fold_left sha256_update chunks sha256_init) = sha256 (concat chunks).
Proof. intros Hl. split; [by apply sha1_streaming | by apply sha256_streaming]. Qed.

(** "abc" in two updates. *)
Lemma hash_streaming_witness :
  8 * len (concat [[97]; [98; 99]]) < 2 ^ 64 /\
  sha256_final (fold_left sha256_update [[97]; [98; 99]] sha256_init) = sha256 [97; 98; 99].
Proof.
  refine ((fun H => conj H (proj2 (hash_streaming [[97]; [98; 99]] H))) _). vm_compute. reflexivity.
Defined.

(** FIPS 180-4, appendix: the digests of "abc". *)
Example fips_180_abc :
  firstn 4 (sha1 [97; 98; 99]) = [169; 153; 62; 54] /\
  firstn 4 (sha256 [97; 98; 99]) = [186; 120; 22; 191].
Proof. vm_compute. done. Qed.

(** ** HMAC and PBKDF2 implement RFC 2104 and RFC 2898 *)
(** RFC 2104: [H(K xor opad, H(K xor ipad, text))], the key hashed when longer
    than a block and padded with zeros. *)
Definition rfc2104 (H : list Z -> list Z) (key text : list Z) : list Z :=
  let k := key_block H key in
  H (xor_pad k 92 ++ H (xor_pad k 54 ++ text)).

Lemma length_concat_words (f : Z -> Z) l : length (concat (map (fun i => put_be32 (f i)) l)) = (4 * length l)%nat.
Proof. induction l as [|x l IH]; [done|]. cbn [map concat]. rewrite length_app, IH. simpl. lia. Qed.

Lemma length_sha1 m : length (sha1 m) = 20%nat.
Proof. unfold sha1, sha1_digest. by rewrite length_concat_words, length_seqZ. Qed.
Lemma length_sha256 m : length (sha256 m) = 32%nat.
Proof. unfold sha256, sha256_digest. by rewrite length_concat_words, length_seqZ. Qed.

Lemma length_key_block H key : (forall m, (length (H m) <= 64)%nat) ->
  length (key_block H key) = 64%nat.
Proof.
  intros HH. unfold key_block, len. rewrite length_app, length_replicate.
  case_ifZ; [specialize (HH key)|]; lia.
Qed.

Lemma length_xor_pad k v : length (xor_pad k v) = length k.
Proof. apply length_map. Qed.

Lemma hmac_sha1_spec key text :
  8 * len key < 2 ^ 64 -> 8 * (64 + len text) < 2 ^ 64 -> hmac_sha1 key text = rfc2104 sha1 key text.
Proof.
  intros Hk Ht. unfold hmac_sha1, rfc2104. unfold len in *.
  replace (key_block (fun m => sha1_final (sha1_update sha1_init m)) key) with (key_block sha1 key)
    by (unfold key_block; by rewrite sha1_final_spec).
  pose proof (length_key_block sha1 key ltac:(intros; rewrite length_sha1; lia)) as Hkb.
  rewrite !sha1_update_app by (simpl; lia).
  rewrite (sha1_final_spec (_ ++ text)), sha1_final_spec; [done|..];
    unfold len; rewrite ?length_app, ?length_sha1, ?length_xor_pad, ?Hkb; lia.
Qed.

Lemma hmac_sha256_spec key text :
  8 * len key < 2 ^ 64 -> 8 * (64 + len text) < 2 ^ 64 -> hmac_sha256 key text = rfc2104 sha256 key text.
Proof.
  intros Hk Ht. unfold hmac_sha256, rfc2104. unfold len in *.
  replace (key_block (fun m => sha256_final (sha256_update sha256_init m)) key)
    with (key_block sha256 key) by (unfold key_block; by rewrite sha256_final_spec).
  pose proof (length_key_block sha256 key ltac:(intros; rewrite length_sha256; lia)) as Hkb.
  rewrite !sha256_update_app by (simpl; lia).
  rewrite (sha256_final_spec (_ ++ text)), sha256_final_spec; [done|..];
    unfold len; rewrite ?length_app, ?length_sha256, ?length_xor_pad, ?Hkb; lia.
Qed.

(** [hmac_sha1] and [hmac_sha256] compute the RFC 2104 construction over
    the reference hash, for keys shorter and longer than a block. *)
Theorem hmac_rfc2104 key text : 8 * len key < 2 ^ 64 -> 8 * (64 + len text) < 2 ^ 64 ->
  hmac_sha1 key text = rfc2104 sha1 key text /\ hmac_sha256 key text = rfc2104 sha256 key text.
Proof. intros Hk Ht. split; [by apply hmac_sha1_spec | by apply hmac_sha256_spec]. Qed.

(** RFC 2202, test case 2. *)
Lemma hmac_rfc2104_witness :
  hmac_sha1 [74; 101; 102; 101] [119; 104; 97; 116]
  = rfc2104 sha1 [74; 101; 102; 101] [119; 104; 97; 116].
Proof.
  refine (proj1 (hmac_rfc2104 [74; 101; 102; 101] [119; 104; 97; 116] _ _)); vm_compute; reflexivity.
Defined.

(** RFC 2898, 5.2: [U_1 = PRF(P, S || INT(i))], [U_{j+1} = PRF(P, U_j)],
    [T_i = U_1 xor ... xor U_c]. *)
Section PBKDF2.
Context (prf : list Z -> list Z) (salt : list Z) (c : nat).
Definition pbkdf2_U (i : Z) (j : nat) : list Z := Nat.iter (j - 1) prf (prf (salt ++ put_be32 i)).
Definition pbkdf2_T (i : Z) : list Z :=
  fold_left (fun t j => xor_bytes t (pbkdf2_U i j)) (seq 2 (c - 1)) (pbkdf2_U i 1).
Definition pbkdf2_spec (outlen : Z) : list Z :=
  take (Z.to_nat outlen) (concat (map pbkdf2_T (seqZ 1 ((outlen + 19) / 20)))).
End PBKDF2.

Lemma length_hmac_sha1 key text : length (hmac_sha1 key text) = 20%nat.
Proof. unfold hmac_sha1, sha1_final. by rewrite length_concat_words, length_seqZ. Qed.

Lemma pbkdf2_iter_spec pass salt i n : forall j t, (1 <= j)%nat ->
  pbkdf2_iter n pass (pbkdf2_U (hmac_sha1 pass) salt i j) t
  = fold_left (fun t j => xor_bytes t (pbkdf2_U (hmac_sha1 pass) salt i j)) (seq (S j) n) t.
Proof.
  induction n as [|n IH]; intros j t Hj; [reflexivity|]. cbn [pbkdf2_iter seq fold_left].
  replace (hmac_sha1 pass (pbkdf2_U (hmac_sha1 pass) salt i j))
    with (pbkdf2_U (hmac_sha1 pass) salt i (S j)).
  - apply IH. lia.
  - unfold pbkdf2_U. replace (S j - 1)%nat with (S (j - 1)) by lia. reflexivity.
Qed.

Lemma pbkdf2_block_spec pass salt c i :
  pbkdf2_block pass salt c i = pbkdf2_T (hmac_sha1 pass) salt (Z.to_nat c) i.
Proof.
  unfold pbkdf2_block, pbkdf2_T. rewrite Z2Nat.inj_sub by lia.
  exact (pbkdf2_iter_spec pass salt i (Z.to_nat c - 1) 1 _ ltac:(lia)).
Qed.

Lemma length_pbkdf2_T pass salt c i : length (pbkdf2_T (hmac_sha1 pass) salt c i) = 20%nat.
Proof.
  unfold pbkdf2_T. assert (HU : forall j, length (pbkdf2_U (hmac_sha1 pass) salt i j) = 20%nat).
  { intros j. unfold pbkdf2_U. destruct (j - 1)%nat; apply length_hmac_sha1. }
  generalize (HU 1%nat). generalize (pbkdf2_U (hmac_sha1 pass) salt i 1).
  generalize (seq 2 (c - 1)) as l. induction l as [|j l IH]; intros t Ht; [done|].
  cbn [fold_left]. apply IH. by rewrite length_xor_bytes by (by rewrite HU).
Qed.

Lemma pbkdf2_out_spec fuel : forall pass salt c i outlen,
  1 <= i -> 0 <= outlen -> i * 20 + outlen < 2 ^ 32 -> outlen < Z.of_nat fuel ->
  pbkdf2_out fuel pass salt c i outlen
  = take (Z.to_nat outlen)
      (concat (map (pbkdf2_T (hmac_sha1 pass) salt (Z.to_nat c)) (seqZ i ((outlen + 19) / 20)))).
Proof.
  induction fuel as [|f IH]; intros pass salt c i outlen Hi Ho Hb Hf; [lia|]. cbn [pbkdf2_out].
  case_ifZ; [subst; reflexivity|].
  rewrite pbkdf2_block_spec. pose proof (length_pbkdf2_T pass salt (Z.to_nat c) i) as Ht.
  assert (Hq : (outlen + 19) / 20 = Z.succ ((outlen - 1) / 20))
    by (replace (outlen + 19) with (outlen - 1 + 1 * 20) by lia; rewrite Z.div_add by lia; lia).
  rewrite Hq. rewrite seqZ_cons by (pose proof (Z.div_pos (outlen - 1) 20); lia).
  cbn [map concat]. rewrite u32_small by lia.
  case_ifZ.
  - rewrite IH by lia. rewrite (take_ge (pbkdf2_T _ _ _ _)) by lia.
    rewrite take_app_ge, Ht by lia. f_equal. f_equal; [lia|]. f_equal. f_equal. unfold Z.succ. f_equal.
    replace (outlen - 20 + 19) with (outlen - 1) by lia. lia.
  - rewrite Z.sub_diag. rewrite take_app_le by lia.
    destruct f; cbn [pbkdf2_out Z.eqb]; by rewrite app_nil_r.
Qed.

(** [pbkdf2_hmac_sha1] is PBKDF2 of RFC 2898 over the HMAC of this file:
    block [i] of the output is the xor of the iterated PRF from
    [salt || INT(i)], blocks are numbered from 1, and the output is cut to
    exactly [outlen] bytes (the last block may be partial). The salt has to
    leave room for the block number in the code's 64-byte [msg]. *)
Theorem pbkdf2_rfc2898 pass salt iterations outlen : len salt <= 60 -> 0 <= outlen < 2 ^ 31 ->
  pbkdf2_hmac_sha1 pass salt iterations outlen
  = pbkdf2_spec (hmac_sha1 pass) salt (Z.to_nat iterations) outlen /\
  length (pbkdf2_hmac_sha1 pass salt iterations outlen) = Z.to_nat outlen.
Proof.
  intros Hs Ho. assert (E : pbkdf2_hmac_sha1 pass salt iterations outlen
    = pbkdf2_spec (hmac_sha1 pass) salt (Z.to_nat iterations) outlen)
    by (apply pbkdf2_out_spec; lia).
  split; [done|]. rewrite E. unfold pbkdf2_spec. rewrite length_take.
  assert (forall l, length (concat (map (pbkdf2_T (hmac_sha1 pass) salt (Z.to_nat iterations)) l))
    = (20 * length l)%nat) as ->.
  { induction l as [|x l IH]; [done|]. cbn [map concat].
    rewrite length_app, length_pbkdf2_T, IH. simpl. lia. }
  rewrite length_seqZ. pose proof (Z.div_mod (outlen + 19) 20). pose proof (Z.mod_pos_bound (outlen + 19) 20).
  lia.
Qed.

(** RFC 6070, test case 2: password "password", salt "salt", two iterations. *)
Lemma pbkdf2_rfc2898_witness :
  pbkdf2_hmac_sha1 [112; 97; 115; 115; 119; 111; 114; 100] [115; 97; 108; 116] 2 20
  = pbkdf2_spec (hmac_sha1 [112; 97; 115; 115; 119; 111; 114; 100]) [115; 97; 108; 116] 2 20 /\
  firstn 4 (pbkdf2_hmac_sha1 [112; 97; 115; 115; 119; 111; 114; 100] [115; 97; 108; 116] 2 20)
  = [234; 108; 1; 77].
Proof.
  split; [refine (proj1 (pbkdf2_rfc2898 _ _ 2 20 _ _)); [by vm_compute | lia] | vm_compute; reflexivity].
Defined.

Lemma bytes_words (f : Z -> Z) l : bytes (concat (map (fun i => put_be32 (f i)) l)).
Proof.
  induction l as [|x l IH]; cbn [map concat]; [by constructor|].
  apply bytes_app; [|exact IH]. repeat constructor; apply byte_u8.
Qed.
Lemma bytes_hmac_sha1 key text : bytes (hmac_sha1 key text).
Proof. unfold hmac_sha1, sha1_final. apply bytes_words. Qed.
Lemma bytes_hmac_sha256 key text : bytes (hmac_sha256 key text).
Proof. unfold hmac_sha256, sha256_final. apply bytes_words. Qed.
Lemma length_hmac_sha256 key text : length (hmac_sha256 key text) = 32%nat.
Proof. unfold hmac_sha256, sha256_final. by rewrite length_concat_words, length_seqZ. Qed.
Lemma len_hmac_sha256 key text : len (hmac_sha256 key text) = 32.
Proof. unfold len. by rewrite length_hmac_sha256. Qed.
#[export] Hint Resolve bytes_hmac_sha1 bytes_hmac_sha256 : bytes.
