(* ===== verification/Eapol.v ===== *)
(** * WPA2 keys and the 4-way handshake (kernel/lib/wpa.c, kernel/lib/eapol.c)

    The PRF and the pairwise key, AES Key Wrap over the block-cipher
    interface, and both ends of the handshake: the supplicant state machine
    and the authenticator of the self-test. A frame is the list of its bytes,
    so the [(f, len)] pairs of the code are one argument. *)
From Stdlib Require Import ZArith Lia Bool.
From stdpp Require Import base list numbers option.
From S2P Require Import Prelude Cipher Aes Hash.
#[local] Set Default Goal Selector "!".
Open Scope Z_scope.

(** ** wpa.c *)
(** The output loop of [wpa_prf]; [msg] is label, NUL, data, counter. *)
Fixpoint prf_loop (fuel : nat) (key msg : list Z) (counter outlen : Z) {struct fuel} : list Z :=
  match fuel with
  | O => []
  | S k =>
    if 0 <? outlen then
      let h := hmac_sha1 key (msg ++ [counter]) in
      let n := if 20 <? outlen then 20 else outlen in
      take (Z.to_nat n) h ++ prf_loop k key msg (u8 (counter + 1)) (outlen - n)
    else []
  end.

Definition wpa_prf (key label data : list Z) (outlen : Z) : list Z :=
  prf_loop (S (Z.to_nat outlen)) key ((label ++ [0]) ++ data) 0 outlen.

(** "Pairwise key expansion" *)
Definition pairwise_label : list Z :=
  [80; 97; 105; 114; 119; 105; 115; 101; 32; 107; 101; 121; 32;
   101; 120; 112; 97; 110; 115; 105; 111; 110].

Definition wpa_ptk_derive (pmk aa spa anonce snonce : list Z) : list Z :=
  let m1 := if memcmp aa spa <? 0 then aa else spa in
  let m2 := if memcmp aa spa <? 0 then spa else aa in
  let n1 := if memcmp anonce snonce <? 0 then anonce else snonce in
  let n2 := if memcmp anonce snonce <? 0 then snonce else anonce in
  wpa_prf pmk pairwise_label (m1 ++ m2 ++ n1 ++ n2) 48.

Definition wpa_eapol_mic (kck frame : list Z) : list Z := take 16 (hmac_sha1 kck frame).

(** ** eapol.c: big-endian helpers *)
Definition be16 (f : list Z) (off : Z) : Z := u16 (Z.lor (Z.shiftl (f.[off]) 8) (f.[off + 1])).
Definition put16 (f : list Z) (off v : Z) : list Z := blit f off [u8 (Z.shiftr v 8); u8 v].
Definition be64 (f : list Z) (off : Z) : Z :=
  fold_left (fun v i => Z.lor (u64 (Z.shiftl v 8)) (f.[off + i])) (seqZ 0 8) 0.
(** Byte [i] is [v >> 8 * (7 - i)], as the descending loop leaves it. *)
Definition put64 (f : list Z) (off v : Z) : list Z := blit f off (len_bytes v).

(** ** Frame layout *)
Definition E_DESC := 0.
Definition E_KEYINFO := 1.
Definition E_KEYLEN := 3.
Definition E_REPLAY := 5.
Definition E_NONCE := 13.
Definition E_MIC := 77.
Definition E_DLEN := 93.
Definition E_DATA := 95.
Definition WPA_KI_VERSION := 2.
Definition WPA_KI_TYPE := 8.
Definition WPA_KI_INSTALL := 64.
Definition WPA_KI_ACK := 128.
Definition WPA_KI_MIC := 256.
Definition WPA_KI_SECURE := 512.
Definition WPA_KI_ENCR := 4096.

Definition has (ki flag : Z) : bool := negb (Z.land ki flag =? 0).

Definition ct_memcmp (a b : list Z) : Z := fold_left Z.lor (xor_bytes a b) 0.

(** [tmp] has 256 bytes: copying a longer frame into it is undefined, [None]. *)
Definition mic_frame (kck frame : list Z) : option (list Z) :=
  if 256 <? len frame then None
  else
    let tmp := frame ++ replicate (256 - length frame) 0 in
    let tmp := blit tmp E_MIC (replicate 16 0) in
    Some (wpa_eapol_mic kck (take (length frame) tmp)).

Definition eapol_key_msg_type (f : list Z) : Z :=
  if len f <? 95 then 0
  else if negb (f.[E_DESC] =? 254) && negb (f.[E_DESC] =? 2) then 0
  else
    let ki := be16 f E_KEYINFO in
    let ack := has ki WPA_KI_ACK in
    let mic := has ki WPA_KI_MIC in
    if ack && negb mic then 1
    else if negb ack && mic then (if has ki WPA_KI_SECURE then 4 else 2)
    else if ack && mic then 3
    else 0.

(** ** AES Key Wrap *)
Section KeyWrap.
Context {BC : BlockCipher}.

(** The state of the loops: the register [a] and the blocks. *)
Definition wrap_step (rk : list Z) (n j : Z) (st : list Z * list Z) (i : Z) : list Z * list Z :=
  let '(a, r) := st in
  let t := u64 (n * j + i) in
  let enc := aes_encrypt rk (a ++ slice r (8 * (i - 1)) 8) in
  (xor_bytes (take 8 enc) (len_bytes t), blit r (8 * (i - 1)) (drop 8 enc)).

Definition wrap_pass (rk : list Z) (n : Z) (st : list Z * list Z) (j : Z) : list Z * list Z :=
  fold_left (wrap_step rk n j) (seqZ 1 n) st.

Definition aes_key_wrap (kek pt : list Z) (n : Z) : list Z :=
  let rk := aes_keyexpand kek in
  let '(a, r) := fold_left (wrap_pass rk n) [0; 1; 2; 3; 4; 5]
                   (replicate 8 166, take (Z.to_nat (8 * n)) pt) in
  a ++ r.

Definition unwrap_step (rk : list Z) (n j : Z) (st : list Z * list Z) (i : Z) : list Z * list Z :=
  let '(a, r) := st in
  let t := u64 (n * j + i) in
  let dec := aes_decrypt rk (xor_bytes a (len_bytes t) ++ slice r (8 * (i - 1)) 8) in
  (take 8 dec, blit r (8 * (i - 1)) (drop 8 dec)).

Definition unwrap_pass (rk : list Z) (n : Z) (st : list Z * list Z) (j : Z) : list Z * list Z :=
  fold_left (unwrap_step rk n j) (rev (seqZ 1 n)) st.

(** The return code and the bytes left in [pt] (written in any case). *)
Definition aes_key_unwrap (kek ct : list Z) (n : Z) : Z * list Z :=
  let rk := aes_keyexpand kek in
  let '(a, r) := fold_left (unwrap_pass rk n) [5; 4; 3; 2; 1; 0]
                   (take 8 ct, slice ct 8 (8 * n)) in
  (if forallb (fun x => x =? 166) a then 0 else -1, r).
End KeyWrap.

(** ** The supplicant *)
Record supplicant := Supplicant {
  s_pmk : list Z; s_aa : list Z; s_spa : list Z;
  s_anonce : list Z; s_snonce : list Z; s_ptk : list Z;
  s_replay : Z; s_have_ptk : bool; s_have_gtk : bool;
  s_gtk : list Z; s_gtk_len : Z; s_gtk_key_id : Z }.

(** [gtk] is not initialised by the code: its bytes are an argument. *)
Definition eapol_init (gtk0 pmk aa spa : list Z) : supplicant :=
  Supplicant (take 32 pmk) (take 6 aa) (take 6 spa) (replicate 32 0) (replicate 32 0)
    (replicate 48 0) 0 false false gtk0 0 0.

Definition fixed_snonce : list Z := map (fun i => u8 (34 + i)) (seqZ 0 32).

Definition eapol_process_msg1 (s : supplicant) (f : list Z) : Z * supplicant :=
  if len f <? 95 then (-1, s)
  else if negb (f.[E_DESC] =? 254) && negb (f.[E_DESC] =? 2) then (-1, s)
  else
    let ki := be16 f E_KEYINFO in
    if negb (has ki WPA_KI_ACK) then (-1, s)
    else if has ki WPA_KI_MIC then (-1, s)
    else
      let anonce := slice f E_NONCE 32 in
      let snonce := fixed_snonce in
      (0, Supplicant (s_pmk s) (s_aa s) (s_spa s) anonce snonce
            (wpa_ptk_derive (s_pmk s) (s_aa s) (s_spa s) anonce snonce)
            (be64 f E_REPLAY) true (s_have_gtk s) (s_gtk s) (s_gtk_len s) (s_gtk_key_id s)).

Definition kck (ptk : list Z) : list Z := slice ptk 0 16.
Definition kek (ptk : list Z) : list Z := slice ptk 16 16.

Definition rsn_ie : list Z :=
  [48; 20; 1; 0; 0; 15; 172; 4; 1; 0; 0; 15; 172; 4; 1; 0; 0; 15; 172; 2; 0; 0].

(** [mic_frame(ptk, f, len, mic); memcpy(f + E_MIC, mic, 16);] *)
Definition put_mic (ptk f : list Z) : option (list Z) :=
  option_map (fun mic => blit f E_MIC mic) (mic_frame (kck ptk) f).

(** [None] stands for the code's -1. *)
Definition eapol_build_msg2 (s : supplicant) (cap : Z) : option (list Z) :=
  if negb (s_have_ptk s) || (cap <? 95 + 22) then None
  else
    let f := replicate 117 0 in
    let f := f.[E_DESC <- 254] in
    let f := put16 f E_KEYINFO (Z.lor (Z.lor WPA_KI_VERSION WPA_KI_TYPE) WPA_KI_MIC) in
    let f := put16 f E_KEYLEN 16 in
    let f := put64 f E_REPLAY (s_replay s) in
    let f := blit f E_NONCE (s_snonce s) in
    let f := put16 f E_DLEN 22 in
    let f := blit f E_DATA rsn_ie in
    put_mic (s_ptk s) f.

Definition eapol_build_msg4 (s : supplicant) (cap : Z) : option (list Z) :=
  if negb (s_have_ptk s) || (cap <? 95) then None
  else
    let f := replicate 95 0 in
    let f := f.[E_DESC <- 254] in
    let f := put16 f E_KEYINFO
               (Z.lor (Z.lor (Z.lor WPA_KI_VERSION WPA_KI_TYPE) WPA_KI_MIC) WPA_KI_SECURE) in
    let f := put16 f E_KEYLEN 0 in
    let f := put64 f E_REPLAY (s_replay s) in
    put_mic (s_ptk s) f.

Section Msg3.
Context {BC : BlockCipher}.

Definition set_replay (s : supplicant) (r : Z) : supplicant :=
  Supplicant (s_pmk s) (s_aa s) (s_spa s) (s_anonce s) (s_snonce s) (s_ptk s) r
    (s_have_ptk s) (s_have_gtk s) (s_gtk s) (s_gtk_len s) (s_gtk_key_id s).
Definition set_gtk_bytes (s : supplicant) (g : list Z) : supplicant :=
  Supplicant (s_pmk s) (s_aa s) (s_spa s) (s_anonce s) (s_snonce s) (s_ptk s) (s_replay s)
    (s_have_ptk s) (s_have_gtk s) (blit (s_gtk s) 0 g) (s_gtk_len s) (s_gtk_key_id s).
Definition set_gtk_info (s : supplicant) (l id : Z) : supplicant :=
  Supplicant (s_pmk s) (s_aa s) (s_spa s) (s_anonce s) (s_snonce s) (s_ptk s) (s_replay s)
    (s_have_ptk s) (s_have_gtk s) (s_gtk s) l id.
Definition set_have_gtk (s : supplicant) : supplicant :=
  Supplicant (s_pmk s) (s_aa s) (s_spa s) (s_anonce s) (s_snonce s) (s_ptk s) (s_replay s)
    (s_have_ptk s) true (s_gtk s) (s_gtk_len s) (s_gtk_key_id s).

(** [None]: undefined behaviour inside [mic_frame]. *)
Definition eapol_process_msg3 (s : supplicant) (f : list Z) : option (Z * supplicant) :=
  if (len f <? 95) || negb (s_have_ptk s) then Some (-1, s)
  else if negb (f.[E_DESC] =? 254) && negb (f.[E_DESC] =? 2) then Some (-1, s)
  else
    let ki := be16 f E_KEYINFO in
    if negb (has ki WPA_KI_MIC) || negb (has ki WPA_KI_ACK) then Some (-1, s)
    else
      let expect := slice f E_MIC 16 in
      match mic_frame (kck (s_ptk s)) f with
      | None => None
      | Some got =>
        if negb (ct_memcmp expect got =? 0) then Some (-1, s)
        else if negb (memcmp (slice f E_NONCE 32) (s_anonce s) =? 0) then Some (-1, s)
        else
          let s := set_replay s (be64 f E_REPLAY) in
          if has ki WPA_KI_ENCR then
            let dl := be16 f E_DLEN in
            if negb (dl =? 24) || (len f <? 95 + dl) then Some (-1, s)
            else
              let '(rc, g) := aes_key_unwrap (kek (s_ptk s)) (slice f E_DATA dl) (dl / 8 - 1) in
              let s := set_gtk_bytes s g in
              if negb (rc =? 0) then Some (-1, s)
              else
                let s := set_gtk_info s 16 (u8 (Z.land (Z.shiftr ki 4) 3)) in
                Some (0, set_have_gtk s)
          else Some (0, set_have_gtk s)
      end.
End Msg3.

(** ** The authenticator of the self-test *)
Record ap_side := ApSide {
  a_pmk : list Z; a_aa : list Z; a_spa : list Z; a_anonce : list Z; a_snonce : list Z;
  a_ptk : list Z; a_rctr : Z; a_gtk : list Z }.

Definition ap_m1 (a : ap_side) : list Z :=
  let f := replicate 95 0 in
  let f := f.[E_DESC <- 254] in
  let f := put16 f E_KEYINFO (Z.lor (Z.lor WPA_KI_VERSION WPA_KI_TYPE) WPA_KI_ACK) in
  let f := put16 f E_KEYLEN 16 in
  let f := put64 f E_REPLAY (a_rctr a) in
  blit f E_NONCE (a_anonce a).

(** The MIC check shared by [ap_m2] and [ap_m4]. *)
Definition ap_check (ptk f : list Z) : option Z :=
  match mic_frame (kck ptk) f with
  | None => None
  | Some got => Some (if negb (ct_memcmp (slice f E_MIC 16) got =? 0) then -1 else 0)
  end.

Definition ap_m2 (a : ap_side) (f : list Z) : option Z * ap_side :=
  if len f <? 95 then (Some (-1), a)
  else
    let snonce := slice f E_NONCE 32 in
    let ptk := wpa_ptk_derive (a_pmk a) (a_aa a) (a_spa a) (a_anonce a) snonce in
    (ap_check ptk f,
     ApSide (a_pmk a) (a_aa a) (a_spa a) (a_anonce a) snonce ptk (a_rctr a) (a_gtk a)).

Definition ap_m4 (a : ap_side) (f : list Z) : option Z :=
  if len f <? 95 then Some (-1) else ap_check (a_ptk a) f.

Definition ap_m3 {BC : BlockCipher} (a : ap_side) : option (list Z) * ap_side :=
  let f := replicate 119 0 in
  let f := f.[E_DESC <- 254] in
  let f := put16 f E_KEYINFO
             (fold_left Z.lor [WPA_KI_TYPE; WPA_KI_ACK; WPA_KI_MIC; WPA_KI_INSTALL;
                               WPA_KI_ENCR; WPA_KI_SECURE] WPA_KI_VERSION) in
  let f := put16 f E_KEYLEN 16 in
  let rctr := u64 (a_rctr a + 1) in
  let f := put64 f E_REPLAY rctr in
  let f := blit f E_NONCE (a_anonce a) in
  let f := put16 f E_DLEN 24 in
  let f := blit f E_DATA (aes_key_wrap (kek (a_ptk a)) (a_gtk a) 2) in
  (put_mic (a_ptk a) f,
   ApSide (a_pmk a) (a_aa a) (a_spa a) (a_anonce a) (a_snonce a) (a_ptk a) rctr (a_gtk a)).

#[local] Opaque hmac_sha1.

(** ** The PRF and the pairwise key *)
(** IEEE 802.11i 8.5.1.1: blocks numbered from 0, cut to the length asked. *)
Definition prf_spec (key label data : list Z) (outlen : Z) : list Z :=
  take (Z.to_nat outlen)
    (concat (map (fun i => hmac_sha1 key (label ++ [0] ++ data ++ [i])) (seqZ 0 ((outlen + 19) / 20)))).

Lemma prf_loop_spec fuel : forall key msg c outlen,
  0 <= c -> 0 <= outlen -> c * 20 + outlen <= 5100 -> outlen < Z.of_nat fuel ->
  prf_loop fuel key msg c outlen
  = take (Z.to_nat outlen)
      (concat (map (fun i => hmac_sha1 key (msg ++ [i])) (seqZ c ((outlen + 19) / 20)))).
Proof.
  induction fuel as [|f IH]; intros key msg c outlen Hc Ho Hb Hf; [lia|]. cbn [prf_loop].
  destruct (0 <? outlen) eqn:E; zbool;
    [|replace (Z.to_nat outlen) with 0%nat by lia; reflexivity].
  pose proof (length_hmac_sha1 key (msg ++ [c])) as Hh.
  assert (Hq : (outlen + 19) / 20 = Z.succ ((outlen - 1) / 20))
    by (replace (outlen + 19) with (outlen - 1 + 1 * 20) by lia; rewrite Z.div_add by lia; lia).
  rewrite Hq, seqZ_cons by (pose proof (Z.div_pos (outlen - 1) 20); lia).
  cbn [map concat]. case_ifZ.
  - rewrite (u8_small (c + 1)) by lia. rewrite IH by lia. rewrite (take_ge (hmac_sha1 _ _)) by lia.
    rewrite take_app_ge, Hh by lia. f_equal. f_equal; [lia|]. do 3 f_equal.
    replace (outlen - 20 + 19) with (outlen - 1) by lia. lia.
  - rewrite Z.sub_diag. rewrite take_app_le by lia.
    destruct f; cbn [prf_loop Z.ltb Z.compare]; by rewrite app_nil_r.
Qed.

Lemma wpa_prf_spec key label data outlen :
  0 <= outlen <= 5100 -> wpa_prf key label data outlen = prf_spec key label data outlen.
Proof.
  intros Ho. unfold wpa_prf, prf_spec. rewrite prf_loop_spec by lia.
  apply (f_equal (fun l => take _ (concat l))), map_ext. intros i. rewrite <- !app_assoc. reflexivity.
Qed.

Lemma wpa_prf_length key label data outlen :
  0 <= outlen <= 5100 -> length (wpa_prf key label data outlen) = Z.to_nat outlen.
Proof.
  intros Ho. rewrite wpa_prf_spec by done. unfold prf_spec. rewrite length_take.
  assert (forall l, length (concat (map (fun i => hmac_sha1 key (label ++ [0] ++ data ++ [i])) l))
    = (20 * length l)%nat) as ->.
  { induction l as [|x l IH]; [done|]. cbn [map concat].
    rewrite length_app, length_hmac_sha1, IH. simpl. lia. }
  rewrite length_seqZ. pose proof (Z.div_mod (outlen + 19) 20).
  pose proof (Z.mod_pos_bound (outlen + 19) 20). lia.
Qed.

(** [memcmp] picks the same smaller and larger buffer from either side. *)
Lemma memcmp_min_max a b : length a = length b ->
  (if memcmp a b <? 0 then a else b) = (if memcmp b a <? 0 then b else a) /\
  (if memcmp a b <? 0 then b else a) = (if memcmp b a <? 0 then a else b).
Proof.
  intros Hl. rewrite (memcmp_antisym a b).
  destruct (memcmp a b <? 0) eqn:E1, (- memcmp a b <? 0) eqn:E2; zbool; try done; try lia.
  assert (a = b) as -> by (apply memcmp_eq; [done|lia]). done.
Qed.

(** The pairwise key is PRF-384 of IEEE 802.11i over the ordered
    addresses and nonces, is 48 bytes long, and does not depend on which end
    computes it: swapping the two addresses and the two nonces gives the same
    key. *)
Theorem ptk_symmetric pmk aa spa anonce snonce :
  length aa = 6%nat -> length spa = 6%nat -> length anonce = 32%nat -> length snonce = 32%nat ->
  wpa_ptk_derive pmk spa aa snonce anonce = wpa_ptk_derive pmk aa spa anonce snonce /\
  length (wpa_ptk_derive pmk aa spa anonce snonce) = 48%nat /\
  (memcmp aa spa < 0 -> memcmp anonce snonce < 0 ->
   wpa_ptk_derive pmk aa spa anonce snonce
   = prf_spec pmk pairwise_label (aa ++ spa ++ anonce ++ snonce) 48).
Proof.
  intros Ha Hs Hn Hm. unfold wpa_ptk_derive.
  destruct (memcmp_min_max aa spa) as [-> ->]; [lia|].
  destruct (memcmp_min_max anonce snonce) as [-> ->]; [lia|]. splits.
  - done.
  - apply wpa_prf_length. lia.
  - intros E1 E2. rewrite (memcmp_antisym aa spa), (memcmp_antisym anonce snonce).
    rewrite !(proj2 (Z.ltb_ge _ _)) by lia. apply wpa_prf_spec. lia.
Qed.

(** ** Key wrap is inverted by unwrap *)
Lemma fold_rev_inverse {S X} (P : S -> Prop) (f g : S -> X -> S) l :
  (forall s x, In x l -> P s -> P (f s x) /\ g (f s x) x = s) ->
  forall s, P s -> P (fold_left f l s) /\ fold_left g (rev l) (fold_left f l s) = s.
Proof.
  induction l as [|x l IH]; intros Hfg s Hs; [done|]. cbn [fold_left rev].
  destruct (Hfg s x (in_eq _ _) Hs) as [Hp Hg].
  destruct (IH (fun s' y Hy => Hfg s' y (in_cons _ _ _ Hy)) _ Hp) as [Hp' Hr].
  split; [done|]. rewrite fold_left_app, Hr. done.
Qed.

Lemma bytes_len_bytes x : bytes (len_bytes x).
Proof.
  unfold len_bytes, bytes. induction (seqZ 0 8) as [|i l IH]; [by constructor|].
  constructor; [apply byte_u8|done].
Qed.
#[export] Hint Resolve bytes_len_bytes : bytes.

Section KeyWrapProofs.
Context {BC : BlockCipher} {BCL : BlockCipherLaws} (key : list Z) (Hkey : block16 key) (n : Z).

Definition wrap_ok (st : list Z * list Z) : Prop :=
  length (fst st) = 8%nat /\ bytes (fst st) /\ len (snd st) = 8 * n /\ bytes (snd st).

Lemma wrap_step_inverse j i st : 1 <= i <= n -> wrap_ok st ->
  wrap_ok (wrap_step (aes_keyexpand key) n j st i) /\
  unwrap_step (aes_keyexpand key) n j (wrap_step (aes_keyexpand key) n j st i) i = st.
Proof.
  intros Hi. destruct st as [a r]. intros (La & Ba & Lr & Br). cbn [fst snd] in *.
  unfold wrap_step. set (o := 8 * (i - 1)). set (t := len_bytes _).
  assert (Lt : length t = 8%nat) by apply length_len_bytes.
  assert (Hin : block16 (a ++ slice r o 8)).
  { split; [rewrite length_app, length_slice; lia|auto with bytes]. }
  pose proof (aes_encrypt_block16 _ _ Hkey Hin) as [Le Be].
  pose proof (aes_decrypt_encrypt _ _ Hkey Hin) as Hd.
  set (enc := aes_encrypt _ _) in *.
  assert (Lh : length (take 8 enc) = length t) by (rewrite length_take; lia).
  assert (Ld : len (drop 8 enc) = 8) by (unfold len; rewrite length_drop; lia).
  split.
  - unfold wrap_ok. cbn [fst snd]. unfold len. rewrite length_blit, length_xor_bytes by (done || lia).
    unfold len in Lr. splits; [lia|unfold t; auto with bytes|lia|auto with bytes].
  - assert (Es : slice (blit r o (drop 8 enc)) o 8 = drop 8 enc)
      by (rewrite <- Ld at 1; apply slice_blit_same; lia).
    unfold unwrap_step. fold o t. rewrite xor_bytes_cancel, Es, take_drop, Hd by done.
    rewrite take_app_length' by lia. rewrite drop_app_length' by lia. f_equal.
    rewrite blit_blit; [apply blit_slice; lia|lia|lia|].
    unfold len in Ld. rewrite length_slice; lia.
Qed.

Lemma wrap_pass_inverse j st : wrap_ok st ->
  wrap_ok (wrap_pass (aes_keyexpand key) n st j) /\
  unwrap_pass (aes_keyexpand key) n (wrap_pass (aes_keyexpand key) n st j) j = st.
Proof.
  intros Hst. unfold wrap_pass, unwrap_pass.
  apply (fold_rev_inverse wrap_ok (wrap_step _ n j) (unwrap_step _ n j)); [|done].
  intros s i Hi Hs. apply wrap_step_inverse; [|done].
  apply list_elem_of_In, elem_of_seqZ in Hi. lia.
Qed.

Lemma key_wrap_inverse pt : 0 <= n -> bytes pt -> len pt = 8 * n ->
  aes_key_unwrap key (aes_key_wrap key pt n) n = (0, pt) /\
  len (aes_key_wrap key pt n) = 8 * n + 8 /\ bytes (aes_key_wrap key pt n).
Proof.
  intros Hn Hb Hl. unfold aes_key_unwrap, aes_key_wrap.
  rewrite (take_ge pt) by (unfold len in Hl; lia).
  assert (Hst : wrap_ok (replicate 8 166, pt)).
  { unfold wrap_ok. cbn [fst snd]. splits; [done| |done|done]. apply bytes_replicate. unfold byte. lia. }
  destruct (fold_rev_inverse wrap_ok (wrap_pass (aes_keyexpand key) n)
    (unwrap_pass (aes_keyexpand key) n) [0; 1; 2; 3; 4; 5]
    (fun s j _ Hs => wrap_pass_inverse j s Hs) _ Hst) as [Hp Hr].
  set (w := fold_left (wrap_pass _ n) _ _) in *. destruct w as [a r].
  destruct Hp as (La & Ba & Lr & Br). cbn [fst snd] in *. splits.
  - rewrite take_app_length' by lia.
    replace (slice (a ++ r) 8 (8 * n)) with r.
    { change [5; 4; 3; 2; 1; 0] with (rev [0; 1; 2; 3; 4; 5]). rewrite Hr. done. }
    unfold slice. rewrite drop_app_length' by lia. rewrite take_ge; [done|]. unfold len in Lr. lia.
  - unfold len in *. rewrite length_app. lia.
  - auto with bytes.
Qed.

(** The other way around: what unwraps is a wrapped key. *)
Lemma unwrap_step_inverse j i st : 1 <= i <= n -> wrap_ok st ->
  wrap_ok (unwrap_step (aes_keyexpand key) n j st i) /\
  wrap_step (aes_keyexpand key) n j (unwrap_step (aes_keyexpand key) n j st i) i = st.
Proof.
  intros Hi. destruct st as [a r]. intros (La & Ba & Lr & Br). cbn [fst snd] in *.
  unfold unwrap_step. set (o := 8 * (i - 1)). set (t := len_bytes _).
  assert (Lt : length t = 8%nat) by apply length_len_bytes.
  assert (Hin : block16 (xor_bytes a t ++ slice r o 8)).
  { split; [rewrite length_app, length_slice, length_xor_bytes; lia|unfold t; auto with bytes]. }
  destruct (aes_encrypt_decrypt _ _ Hkey Hin) as [[Le Be] Hd].
  set (dec := aes_decrypt _ _) in *.
  assert (Lh : length (take 8 dec) = 8%nat) by (rewrite length_take; lia).
  assert (Ld : len (drop 8 dec) = 8) by (unfold len; rewrite length_drop; lia).
  split.
  - unfold wrap_ok. cbn [fst snd]. unfold len. rewrite length_blit by (done || lia).
    unfold len in Lr. splits; [lia|auto with bytes|lia|auto with bytes].
  - assert (Es : slice (blit r o (drop 8 dec)) o 8 = drop 8 dec)
      by (rewrite <- Ld at 1; apply slice_blit_same; lia).
    unfold wrap_step. fold o t. rewrite Es, take_drop, Hd.
    assert (Lx : length (xor_bytes a t) = 8%nat) by (rewrite length_xor_bytes; lia).
    rewrite take_app_length' by lia. rewrite drop_app_length' by lia.
    rewrite xor_bytes_cancel by lia. f_equal.
    rewrite blit_blit; [apply blit_slice; lia|lia|lia|].
    unfold len in Ld. rewrite length_slice; lia.
Qed.

Lemma unwrap_pass_inverse j st : wrap_ok st ->
  wrap_ok (unwrap_pass (aes_keyexpand key) n st j) /\
  wrap_pass (aes_keyexpand key) n (unwrap_pass (aes_keyexpand key) n st j) j = st.
Proof.
  intros Hst. unfold wrap_pass, unwrap_pass. rewrite <- (rev_involutive (seqZ 1 n)) at 2.
  apply (fold_rev_inverse wrap_ok (unwrap_step _ n j) (wrap_step _ n j)); [|done].
  intros s i Hi Hs. apply unwrap_step_inverse; [|done].
  apply in_rev, list_elem_of_In, elem_of_seqZ in Hi. lia.
Qed.

Lemma key_unwrap_inverse ct g : 0 <= n -> bytes ct -> len ct = 8 * n + 8 ->
  aes_key_unwrap key ct n = (0, g) -> len g = 8 * n /\ bytes g /\ aes_key_wrap key g n = ct.
Proof.
  intros Hn Hb Hl. unfold aes_key_unwrap, aes_key_wrap, len in *.
  assert (Hst : wrap_ok (take 8 ct, slice ct 8 (8 * n))).
  { unfold wrap_ok, len. cbn [fst snd]. rewrite length_take, length_slice by (unfold len; lia).
    splits; [lia|auto with bytes|lia|auto with bytes]. }
  destruct (fold_rev_inverse wrap_ok (unwrap_pass (aes_keyexpand key) n)
    (wrap_pass (aes_keyexpand key) n) [5; 4; 3; 2; 1; 0]
    (fun s j _ Hs => unwrap_pass_inverse j s Hs) _ Hst) as [Hp Hr].
  change (rev [5; 4; 3; 2; 1; 0]) with [0; 1; 2; 3; 4; 5] in Hr.
  destruct (fold_left (unwrap_pass _ n) _ _) as [a r]. destruct Hp as (La & Ba & Lr & Br). cbn [fst snd] in *.
  destruct (forallb _ a) eqn:Ea; [|done]. intros [= <-].
  assert (a = replicate 8 166) as ->.
  { symmetry. apply replicate_as_elem_of. split; [done|]. intros x Hx. rewrite forallb_forall in Ea.
    apply Z.eqb_eq, Ea. by apply list_elem_of_In. }
  splits; [exact Lr|exact Br|].
  rewrite (take_ge r) by (unfold len in Lr; lia). rewrite Hr. unfold slice. change (Z.to_nat 8) with 8%nat.
  rewrite (take_ge (drop 8 ct)) by (rewrite length_drop; lia). apply take_drop.
Qed.

(** AES Key Wrap round trip: unwrapping a wrapped key of any number of
    64-bit blocks under the same KEK passes the IV check and returns the key;
    the wrapped form is 8 bytes longer. Holds for every cipher that satisfies
    the block-cipher interface. *)
Theorem key_wrap_roundtrip pt : 0 <= n -> bytes pt -> len pt = 8 * n ->
  aes_key_unwrap key (aes_key_wrap key pt n) n = (0, pt) /\
  len (aes_key_wrap key pt n) = 8 * n + 8.
Proof. intros. split; by apply key_wrap_inverse. Qed.
End KeyWrapProofs.

(** RFC 3394, 4.1 *)
Definition rfc3394_kek : list Z := seqZ 0 16.
Definition rfc3394_pt : list Z := map (fun i => i * 17) (seqZ 0 16).
Example rfc3394_vector :
  aes_key_wrap rfc3394_kek rfc3394_pt 2 =
  [31; 166; 139; 10; 129; 18; 180; 71; 174; 243; 75; 216; 251; 90; 123; 130;
   157; 62; 134; 35; 113; 210; 207; 229].
Proof. vm_compute. reflexivity. Qed.

Lemma key_wrap_roundtrip_witness :
  aes_key_unwrap rfc3394_kek (aes_key_wrap rfc3394_kek rfc3394_pt 2) 2 = (0, rfc3394_pt).
Proof.
  refine (proj1 (key_wrap_roundtrip rfc3394_kek _ 2 rfc3394_pt _ _ _)).
  - apply block16_check. vm_compute. reflexivity.
  - lia.
  - check_bytes.
  - vm_compute. reflexivity.
Defined.

(** ** MICs *)
Lemma fold_lor_zero l : forall x, fold_left Z.lor l x = 0 <-> x = 0 /\ Forall (eq 0) l.
Proof.
  induction l as [|y l IH]; intros x; cbn [fold_left].
  - split; [intros ->; split; [reflexivity|by constructor]|by intros [-> _]].
  - rewrite IH, Z.lor_eq_0_iff. split.
    + intros [[-> ->] Hl]. split; [reflexivity|by constructor].
    + intros [-> Hl]. split; [split; [reflexivity|symmetry]|]; by inversion Hl.
Qed.

Lemma ct_memcmp_zero a : forall b, length a = length b -> ct_memcmp a b = 0 <-> a = b.
Proof.
  unfold ct_memcmp. intros b Hl. rewrite fold_lor_zero. split.
  - intros [_ Hf]. revert b Hl Hf. induction a as [|x a IH]; intros [|y b] Hl Hf; try done.
    inversion Hf as [|? ? Hxy Hf']; subst. f_equal; [by apply Z.lxor_eq|].
    apply IH; [simpl in Hl; lia|done].
  - intros <-. split; [done|]. unfold xor_bytes. clear Hl. induction a as [|x a IH]; constructor; [|done].
    by rewrite Z.lxor_nilpotent.
Qed.

Lemma len_blit l off d : 0 <= off -> off + len d <= len l -> len (blit l off d) = len l.
Proof. intros. unfold len at 1. by rewrite length_blit. Qed.

Definition zero_mic (f : list Z) : list Z := blit f E_MIC (replicate 16 0).

Lemma mic_frame_spec k f : 95 <= len f ->
  mic_frame k f = if 256 <? len f then None else Some (wpa_eapol_mic k (zero_mic f)).
Proof.
  intros Hl. unfold mic_frame, zero_mic. case_ifZ; [reflexivity|].
  apply (f_equal (fun x => Some (wpa_eapol_mic k x))). unfold blit, E_MIC, len in *. rewrite length_replicate.
  rewrite (take_app_le f) by lia. rewrite (drop_app_le f) by lia.
  rewrite !app_assoc. rewrite take_app_length'; [reflexivity|].
  rewrite !length_app, length_take, length_drop, length_replicate. lia.
Qed.

Lemma length_mic k f : length (wpa_eapol_mic k f) = 16%nat.
Proof. unfold wpa_eapol_mic. rewrite length_take, length_hmac_sha1. reflexivity. Qed.

(** A frame signed by [put_mic] passes the MIC check of whoever holds the key. *)
Lemma put_mic_spec ptk f : 95 <= len f <= 256 -> exists mic,
  length mic = 16%nat /\ put_mic ptk f = Some (blit f E_MIC mic) /\
  mic_frame (kck ptk) (blit f E_MIC mic) = Some mic /\
  slice (blit f E_MIC mic) E_MIC 16 = mic.
Proof.
  intros Hf. set (mic := wpa_eapol_mic (kck ptk) (zero_mic f)).
  assert (Hm : length mic = 16%nat) by apply length_mic.
  assert (Hl : len (blit f E_MIC mic) = len f) by (apply len_blit; unfold len, E_MIC in *; lia).
  exists mic. split; [exact Hm|]. unfold put_mic. rewrite !mic_frame_spec by lia.
  rewrite Hl, !(proj2 (Z.ltb_ge _ _)) by lia. cbn [option_map]. splits; [reflexivity| |].
  - apply (f_equal (fun x => Some (wpa_eapol_mic _ x))). unfold zero_mic at 1.
    rewrite blit_blit; [reflexivity| | |].
    + unfold E_MIC. lia.
    + unfold len, E_MIC in *. lia.
    + exact Hm.
  - replace 16 with (len mic) by (unfold len; lia). apply slice_blit_same; unfold len, E_MIC in *; lia.
Qed.

Lemma ap_check_spec ptk f mic :
  length mic = 16%nat -> mic_frame (kck ptk) f = Some mic -> slice f E_MIC 16 = mic ->
  ap_check ptk f = Some 0.
Proof.
  intros Hl Hm Hs. unfold ap_check. rewrite Hm, Hs.
  by rewrite (proj2 (ct_memcmp_zero mic mic eq_refl) eq_refl).
Qed.

(** ** Reading the fields of built frames *)
Ltac expand l H :=
  repeat (destruct l as [|? l]; [discriminate H|]; apply Nat.succ_inj in H);
  try (destruct l; [|discriminate H]); clear H.

Lemma be64_slice f off : 0 <= off -> off + 8 <= len f -> be64 f off = be64 (slice f off 8) 0.
Proof.
  intros Ho Hl. unfold be64.
  assert (Hn : forall i, In i (seqZ 0 8) -> f.[off + i] = (slice f off 8).[0 + i]).
  { intros i Hi. apply list_elem_of_In, elem_of_seqZ in Hi. unfold nthZ, slice.
    rewrite !nth_lookup. rewrite lookup_take_lt by lia. rewrite lookup_drop. do 2 f_equal. lia. }
  assert (He : forall l v, (forall i, In i l -> f.[off + i] = (slice f off 8).[0 + i]) ->
    fold_left (fun v i => Z.lor (u64 (Z.shiftl v 8)) (f.[off + i])) l v
    = fold_left (fun v i => Z.lor (u64 (Z.shiftl v 8)) ((slice f off 8).[0 + i])) l v).
  { induction l as [|i l IH]; intros v Hl'; [reflexivity|]. cbn [fold_left].
    rewrite (Hl' i) by (by left). apply IH. intros j Hj. apply Hl'. by right. }
  by apply He.
Qed.

Lemma be64_len_bytes v : 0 <= v < 2 ^ 64 -> be64 (len_bytes v) 0 = v.
Proof.
  intros Hv.
  assert (Hs : forall k k', 0 <= k <= 56 -> k' = k + 8 ->
    Z.lor (u64 (Z.shiftl (Z.shiftr v k') 8)) (u8 (Z.shiftr v k)) = Z.shiftr v k).
  { intros k k' Hk ->. rewrite u64_small; [apply lor_byte_shift; lia|].
    rewrite Z.shiftl_mul_pow2, Z.shiftr_div_pow2, Z.pow_add_r, <- Z.div_div by lia.
    split; [apply Z.mul_nonneg_nonneg; [repeat apply Z.div_pos; lia|lia]|].
    apply Z.le_lt_trans with v; [|lia]. transitivity (v / 2 ^ k).
    - rewrite Z.mul_comm. apply Z.mul_div_le. lia.
    - apply Z.div_le_upper_bound; nia. }
  change (be64 (len_bytes v) 0) with (fold_left (fun w k =>
    Z.lor (u64 (Z.shiftl w 8)) (u8 (Z.shiftr v k))) [56; 48; 40; 32; 24; 16; 8; 0] 0).
  cbn [fold_left]. replace 0 with (Z.shiftr v 64) at 1
    by (rewrite Z.shiftr_div_pow2, Z.div_small by lia; reflexivity).
  rewrite (Hs 56 64), (Hs 48 56), (Hs 40 48), (Hs 32 40), (Hs 24 32), (Hs 16 24), (Hs 8 16),
    (Hs 0 8) by lia.
  apply Z.shiftr_0_r.
Qed.

(** ** The frames as built, before signing *)
Definition m2_body (replay : Z) (snonce : list Z) : list Z :=
  blit (put16 (blit (put64 (put16 (put16 ((replicate 117 0).[0 <- 254]) 1 266) 3 16) 5 replay)
    13 snonce) 93 22) 95 rsn_ie.
Definition m4_body (replay : Z) : list Z :=
  put64 (put16 (put16 ((replicate 95 0).[0 <- 254]) 1 778) 3 0) 5 replay.
Definition m3_body (replay : Z) (anonce wrapped : list Z) : list Z :=
  blit (put16 (blit (put64 (put16 (put16 ((replicate 119 0).[0 <- 254]) 1 5066) 3 16) 5 replay)
    13 anonce) 93 24) 95 wrapped.

Lemma build_msg2_body s cap : s_have_ptk s = true -> 117 <= cap ->
  eapol_build_msg2 s cap = put_mic (s_ptk s) (m2_body (s_replay s) (s_snonce s)).
Proof.
  intros Hp Hc. unfold eapol_build_msg2. rewrite Hp, (proj2 (Z.ltb_ge _ _)) by lia. reflexivity.
Qed.

Lemma build_msg4_body s cap : s_have_ptk s = true -> 95 <= cap ->
  eapol_build_msg4 s cap = put_mic (s_ptk s) (m4_body (s_replay s)).
Proof.
  intros Hp Hc. unfold eapol_build_msg4. rewrite Hp, (proj2 (Z.ltb_ge _ _)) by lia. reflexivity.
Qed.

Ltac field_values :=
  unfold put16, put64; splits; try reflexivity; try (vm_compute; reflexivity).

Lemma m1_fields a : length (a_anonce a) = 32%nat ->
  let f := ap_m1 a in
  len f = 95 /\ f.[E_DESC] = 254 /\ be16 f E_KEYINFO = 138 /\
  slice f E_NONCE 32 = a_anonce a /\ slice f E_REPLAY 8 = len_bytes (a_rctr a).
Proof.
  intros Ha. destruct a as [pmk aa spa anonce sn ptk r gtk]. cbn [a_anonce a_rctr] in *.
  unfold ap_m1. cbn [a_anonce a_rctr]. expand anonce Ha. unfold put64.
  generalize (length_len_bytes r). generalize (len_bytes r) as l. intros l Hl. expand l Hl.
  field_values.
Qed.

Lemma m2_fields r snonce mic : length snonce = 32%nat -> length mic = 16%nat ->
  let f := blit (m2_body r snonce) E_MIC mic in
  len (m2_body r snonce) = 117 /\ len f = 117 /\ f.[E_DESC] = 254 /\ be16 f E_KEYINFO = 266 /\
  slice f E_NONCE 32 = snonce.
Proof.
  intros Hs Hm. expand snonce Hs. expand mic Hm. unfold m2_body, put64.
  generalize (length_len_bytes r). generalize (len_bytes r) as l. intros l Hl. expand l Hl.
  field_values.
Qed.

Lemma m4_fields r mic : length mic = 16%nat ->
  let f := blit (m4_body r) E_MIC mic in
  len (m4_body r) = 95 /\ len f = 95 /\ f.[E_DESC] = 254 /\ be16 f E_KEYINFO = 778.
Proof.
  intros Hm. expand mic Hm. unfold m4_body, put64.
  generalize (length_len_bytes r). generalize (len_bytes r) as l. intros l Hl. expand l Hl.
  field_values.
Qed.

Lemma m3_fields r anonce w mic : length anonce = 32%nat -> length w = 24%nat -> length mic = 16%nat ->
  let f := blit (m3_body r anonce w) E_MIC mic in
  len (m3_body r anonce w) = 119 /\ len f = 119 /\ f.[E_DESC] = 254 /\ be16 f E_KEYINFO = 5066 /\
  be16 f E_DLEN = 24 /\ slice f E_NONCE 32 = anonce /\ slice f E_DATA 24 = w /\
  slice f E_REPLAY 8 = len_bytes r.
Proof.
  intros Ha Hw Hm. expand anonce Ha. expand w Hw. expand mic Hm. unfold m3_body, put64.
  generalize (length_len_bytes r). generalize (len_bytes r) as l. intros l Hl. expand l Hl.
  field_values.
Qed.

Lemma bytes_ptk pmk aa spa anonce snonce : bytes (wpa_ptk_derive pmk aa spa anonce snonce).
Proof.
  unfold wpa_ptk_derive. rewrite wpa_prf_spec by lia. unfold prf_spec. apply bytes_take.
  generalize (seqZ 0 ((48 + 19) / 20)) as l. induction l as [|i l IH]; [by constructor|].
  cbn [map concat]. apply bytes_app; [apply bytes_hmac_sha1|exact IH].
Qed.

Lemma kek_block16 pmk aa spa anonce snonce :
  block16 (kek (wpa_ptk_derive pmk aa spa anonce snonce)).
Proof.
  split; [|apply bytes_slice, bytes_ptk]. unfold kek. rewrite length_slice; [reflexivity|lia..|].
  unfold wpa_ptk_derive, len. rewrite wpa_prf_length by lia. lia.
Qed.

(** The supplicant once Message 1 of [a] has been processed. *)
Definition sta_after_m1 (s : supplicant) (a : ap_side) : supplicant :=
  Supplicant (s_pmk s) (s_aa s) (s_spa s) (a_anonce a) fixed_snonce
    (wpa_ptk_derive (s_pmk s) (s_aa s) (s_spa s) (a_anonce a) fixed_snonce)
    (a_rctr a) true (s_have_gtk s) (s_gtk s) (s_gtk_len s) (s_gtk_key_id s).

Section Handshake.
Context {BC : BlockCipher} {BCL : BlockCipherLaws}.

Lemma msg1_step s a : length (a_anonce a) = 32%nat -> 0 <= a_rctr a < 2 ^ 64 ->
  eapol_process_msg1 s (ap_m1 a) = (0, sta_after_m1 s a) /\ eapol_key_msg_type (ap_m1 a) = 1.
Proof.
  intros Ha Hr. destruct (m1_fields a Ha) as (Fl & Fd & Fk & Fn & Fr).
  unfold eapol_process_msg1, eapol_key_msg_type, sta_after_m1.
  rewrite be64_slice by (unfold E_REPLAY; lia). rewrite Fl, Fd, Fk, Fn, Fr, be64_len_bytes by done.
  split; reflexivity.
Qed.

Lemma msg2_step s a cap :
  s_have_ptk s = true -> 117 <= cap -> s_snonce s = fixed_snonce ->
  s_ptk s = wpa_ptk_derive (a_pmk a) (a_aa a) (a_spa a) (a_anonce a) fixed_snonce ->
  exists m2, eapol_build_msg2 s cap = Some m2 /\ len m2 = 117 /\ eapol_key_msg_type m2 = 2 /\
    ap_m2 a m2 = (Some 0, ApSide (a_pmk a) (a_aa a) (a_spa a) (a_anonce a) fixed_snonce (s_ptk s)
                            (a_rctr a) (a_gtk a)).
Proof.
  intros Hp Hc Hs Hk. rewrite build_msg2_body by done.
  destruct (put_mic_spec (s_ptk s) (m2_body (s_replay s) (s_snonce s))) as (mic & Lm & E & Ef & Es).
  { rewrite Hs. rewrite (proj1 (m2_fields (s_replay s) fixed_snonce (replicate 16 0) eq_refl eq_refl)). lia. }
  rewrite Hs in *.
  destruct (m2_fields (s_replay s) fixed_snonce mic eq_refl Lm) as (_ & Fl & Fd & Fk & Fn).
  eexists. splits; [exact E|exact Fl| |].
  - unfold eapol_key_msg_type. rewrite Fl, Fd, Fk. reflexivity.
  - unfold ap_m2. rewrite Fl, Fn, <- Hk. cbn [Z.ltb Z.compare Pos.compare Pos.compare_cont].
    by rewrite (ap_check_spec _ _ mic).
Qed.

(** The supplicant after an authentic Message 3 carrying [gtk]. *)
Definition sta_after_m3 (s : supplicant) (replay : Z) (gtk : list Z) : supplicant :=
  Supplicant (s_pmk s) (s_aa s) (s_spa s) (s_anonce s) (s_snonce s) (s_ptk s) replay (s_have_ptk s) true
    (blit (s_gtk s) 0 gtk) 16 0.

Lemma msg3_step s a :
  s_have_ptk s = true -> s_ptk s = a_ptk a -> s_anonce s = a_anonce a -> block16 (kek (a_ptk a)) ->
  length (a_anonce a) = 32%nat -> block16 (a_gtk a) -> 0 <= a_rctr a < 2 ^ 64 - 1 ->
  exists m3, len m3 = 119 /\ eapol_key_msg_type m3 = 3 /\
    ap_m3 a = (Some m3, ApSide (a_pmk a) (a_aa a) (a_spa a) (a_anonce a) (a_snonce a) (a_ptk a)
                          (a_rctr a + 1) (a_gtk a)) /\
    eapol_process_msg3 s m3 = Some (0, sta_after_m3 s (a_rctr a + 1) (a_gtk a)).
Proof.
  intros Hp Hk Ha Hkek Hn [Lg Bg] Hr. unfold ap_m3. rewrite (u64_small (a_rctr a + 1)) by lia.
  destruct (key_wrap_inverse (kek (a_ptk a)) Hkek 2 (a_gtk a)) as (Hw & Lw & _);
    [lia|exact Bg|unfold len; lia|].
  set (w := aes_key_wrap (kek (a_ptk a)) (a_gtk a) 2) in *.
  assert (Lw' : length w = 24%nat) by (unfold len in Lw; lia).
  fold (m3_body (a_rctr a + 1) (a_anonce a) w).
  match goal with |- context [put_mic (a_ptk a) ?f] =>
    change f with (m3_body (a_rctr a + 1) (a_anonce a) w) end.
  destruct (put_mic_spec (a_ptk a) (m3_body (a_rctr a + 1) (a_anonce a) w)) as (mic & Lm & E & Ef & Es).
  { rewrite (proj1 (m3_fields _ _ _ (replicate 16 0) Hn Lw' eq_refl)). lia. }
  destruct (m3_fields (a_rctr a + 1) (a_anonce a) w mic Hn Lw' Lm)
    as (_ & Fl & Fd & Fk & Fdl & Fn & Fda & Fr).
  set (f := blit _ E_MIC mic) in *. exists f. splits; [exact Fl| |by rewrite E|].
  - unfold eapol_key_msg_type. rewrite Fl, Fd, Fk. reflexivity.
  - unfold eapol_process_msg3. rewrite Fl, Hp, Fd, Fk, Hk, Ef, Es, Fn, Ha, memcmp_refl, Fdl, Fda.
    rewrite (proj2 (ct_memcmp_zero mic mic eq_refl) eq_refl).
    rewrite be64_slice by (unfold E_REPLAY; lia). rewrite Fr, be64_len_bytes by lia.
    cbn [orb negb andb Z.ltb Z.eqb Z.compare Pos.compare Pos.compare_cont Pos.eqb].
    change (24 / 8 - 1) with 2. cbn [s_ptk set_replay]. rewrite Hk, Hw. reflexivity.
Qed.

Lemma msg4_step s a cap : s_have_ptk s = true -> 95 <= cap -> s_ptk s = a_ptk a ->
  exists m4, eapol_build_msg4 s cap = Some m4 /\ len m4 = 95 /\ eapol_key_msg_type m4 = 4 /\
    ap_m4 a m4 = Some 0.
Proof.
  intros Hp Hc Hk. rewrite build_msg4_body by done.
  destruct (put_mic_spec (s_ptk s) (m4_body (s_replay s))) as (mic & Lm & E & Ef & Es).
  { rewrite (proj1 (m4_fields (s_replay s) (replicate 16 0) eq_refl)). lia. }
  destruct (m4_fields (s_replay s) mic Lm) as (_ & Fl & Fd & Fk).
  eexists. splits; [exact E|exact Fl| |].
  - unfold eapol_key_msg_type. rewrite Fl, Fd, Fk. reflexivity.
  - unfold ap_m4. rewrite Fl, <- Hk. cbn [Z.ltb Z.compare Pos.compare Pos.compare_cont].
    by apply (ap_check_spec _ _ mic).
Qed.
End Handshake.

(** ** The whole handshake *)
Section Agreement.
Context {BC : BlockCipher} {BCL : BlockCipherLaws}.

(** [C38] The 4-way handshake succeeds and both ends agree: starting from the
    same PMK, each of the four messages is accepted by the other end (return
    code 0) and classified as its number, the supplicant and the authenticator
    hold the same pairwise key, the supplicant's group key is the one the
    authenticator wrapped, and its replay counter is the authenticator's. For
    every nonce, address, counter and group key, and every block cipher that
    satisfies the interface. *)
Theorem handshake_agreement gtk0 pmk aa spa anonce snonce0 ptk0 rctr gtk :
  length pmk = 32%nat -> length aa = 6%nat -> length spa = 6%nat -> length anonce = 32%nat ->
  length gtk0 = 32%nat -> block16 gtk -> 0 <= rctr < 2 ^ 64 - 1 ->
  let sta0 := eapol_init gtk0 pmk aa spa in
  let ap0 := ApSide pmk aa spa anonce snonce0 ptk0 rctr gtk in
  exists sta1 m2 ap1 m3 ap2 sta2 m4,
    eapol_process_msg1 sta0 (ap_m1 ap0) = (0, sta1) /\
    eapol_build_msg2 sta1 256 = Some m2 /\ ap_m2 ap0 m2 = (Some 0, ap1) /\
    ap_m3 ap1 = (Some m3, ap2) /\ eapol_process_msg3 sta1 m3 = Some (0, sta2) /\
    eapol_build_msg4 sta2 256 = Some m4 /\ ap_m4 ap2 m4 = Some 0 /\
    map eapol_key_msg_type [ap_m1 ap0; m2; m3; m4] = [1; 2; 3; 4] /\
    s_ptk sta2 = a_ptk ap2 /\ a_ptk ap2 = wpa_ptk_derive pmk aa spa anonce fixed_snonce /\
    take 16 (s_gtk sta2) = gtk /\ s_have_gtk sta2 = true /\ s_replay sta2 = a_rctr ap2.
Proof.
  intros Lp La Ls Ln Lg Hg Hr sta0 ap0.
  destruct (msg1_step sta0 ap0 Ln) as [E1 T1]; [cbn; lia|].
  set (sta1 := sta_after_m1 sta0 ap0) in *.
  assert (Hk : s_ptk sta1 = wpa_ptk_derive pmk aa spa anonce fixed_snonce).
  { unfold sta1, sta_after_m1, sta0, eapol_init. cbn [s_ptk s_pmk s_aa s_spa a_anonce ap0].
    by rewrite !take_ge by lia. }
  destruct (msg2_step sta1 ap0 256) as (m2 & E2 & _ & T2 & A2); [reflexivity|lia|reflexivity|exact Hk|].
  match type of A2 with _ = (_, ?a) => set (ap1 := a) in * end.
  destruct (msg3_step sta1 ap1) as (m3 & _ & T3 & A3 & E3);
    [reflexivity..|cbn [a_ptk ap1]; rewrite Hk; apply kek_block16|exact Ln|exact Hg|exact Hr|].
  match type of A3 with _ = (_, ?a) => set (ap2 := a) in * end.
  set (sta2 := sta_after_m3 _ _ _) in *.
  destruct (msg4_step sta2 ap2 256) as (m4 & E4 & _ & T4 & A4); [reflexivity|lia|reflexivity|].
  exists sta1, m2, ap1, m3, ap2, sta2, m4. splits; [exact E1|exact E2|exact A2|exact A3|exact E3|exact E4|exact A4| |
    reflexivity|exact Hk| |reflexivity|reflexivity].
  - cbn [map]. rewrite T1, T2, T3, T4. reflexivity.
  - cbn [s_gtk sta2 sta_after_m3 sta1 sta_after_m1 sta0 eapol_init a_gtk ap1 ap0].
    unfold blit. change (take (Z.to_nat 0) gtk0 ++ ?x) with x. apply take_app_length'. by destruct Hg.
Qed.

(** What an accepted message 3 does, in the terms of the code. *)
Lemma msg3_facts s f rc s' :
  length (s_anonce s) = 32%nat -> block16 (kek (s_ptk s)) -> bytes f -> eapol_process_msg3 s f = Some (rc, s') ->
  s_ptk s' = s_ptk s /\ s_anonce s' = s_anonce s /\ s_snonce s' = s_snonce s /\
  (slice f E_MIC 16 <> wpa_eapol_mic (kck (s_ptk s)) (zero_mic f) -> rc = -1 /\ s' = s) /\
  (rc = 0 ->
    95 <= len f <= 256 /\ s_have_ptk s = true /\
    slice f E_MIC 16 = wpa_eapol_mic (kck (s_ptk s)) (zero_mic f) /\
    slice f E_NONCE 32 = s_anonce s /\ s_have_gtk s' = true /\ s_replay s' = be64 f E_REPLAY /\
    if has (be16 f E_KEYINFO) WPA_KI_ENCR then
      exists g, len g = 16 /\ aes_key_wrap (kek (s_ptk s)) g 2 = slice f E_DATA 24 /\ s_gtk s' = blit (s_gtk s) 0 g
    else s_gtk s' = s_gtk s).
Proof.
  intros La Hk Bf. unfold eapol_process_msg3.
  assert (Hnop : forall rc0 s0, Some (-1, s) = Some (rc0, s0) -> rc0 <> 0 /\ rc0 = -1 /\ s0 = s)
    by (intros ? ? [= <- <-]; done).
  case_ifZ; [intros (? & -> & ->)%Hnop; splits; try reflexivity; done|].
  destruct (negb (f.[E_DESC] =? 254) && _); [intros (? & -> & ->)%Hnop; splits; try reflexivity; done|].
  destruct (negb (has _ WPA_KI_MIC) || _); [intros (? & -> & ->)%Hnop; splits; try reflexivity; done|].
  rewrite mic_frame_spec by lia. destruct (256 <? len f) eqn:E256; [done|]. zbool.
  assert (Ls : forall o n, 0 <= o -> 0 <= n -> o + n <= 95 -> length (slice f o n) = Z.to_nat n)
    by (intros; apply length_slice; lia).
  destruct (ct_memcmp _ _ =? 0) eqn:Ec; zbool; cbn [negb].
  2: { intros (? & -> & ->)%Hnop; splits; try reflexivity; done. }
  apply ct_memcmp_zero in Ec; [|rewrite length_mic, Ls; unfold E_MIC; [reflexivity|lia..]].
  destruct (memcmp _ _ =? 0) eqn:En; zbool; cbn [negb].
  2: { intros (? & -> & ->)%Hnop; splits; try reflexivity; done. }
  apply memcmp_eq in En; [|rewrite La, Ls; unfold E_NONCE; [reflexivity|lia..]].
  destruct (has _ WPA_KI_ENCR).
  - case_ifZ; [intros [= <- <-]; splits; try reflexivity; done|].
    match goal with H : be16 f E_DLEN = 24 |- _ => rewrite H; change (24 / 8 - 1) with 2 end. destruct (aes_key_unwrap _ _ _) as [r g] eqn:Eu. destruct (r =? 0) eqn:Er; zbool; cbn [negb].
    + intros [= <- <-]. splits; try reflexivity; [done|]. intros _. splits; try done; try lia.
      subst r. assert (len (slice f E_DATA 24) = 24) as L24 by (unfold len; rewrite length_slice; unfold E_DATA, len in *; lia).
      apply key_unwrap_inverse in Eu as (Lg & _ & Hw); [by exists g|exact Hk|lia|auto with bytes|lia].
    + intros [= <- <-]. splits; try reflexivity; done.
  - intros [= <- <-]. splits; try reflexivity; [done|]. intros _. splits; try done; lia.
Qed.
Lemma msg3_length s f rc s' : eapol_process_msg3 s f = Some (rc, s') -> 95 <= len f <= 256 \/ (rc = -1 /\ s' = s).
Proof.
  unfold eapol_process_msg3. case_ifZ; [by intros [= <- <-]; right|].
  destruct (negb (f.[E_DESC] =? 254) && _); [by intros [= <- <-]; right|].
  destruct (negb (has _ WPA_KI_MIC) || _); [by intros [= <- <-]; right|].
  rewrite mic_frame_spec by lia. destruct (256 <? len f) eqn:E256; [done|]. zbool. intros _. left. lia.
Qed.

(** The MIC of a frame: the first 16 bytes of the HMAC-SHA-1 of RFC 2104, under the
    first 16 of the pairwise key, over the frame with zeros for the MIC. *)
Definition frame_mic (ptk f : list Z) : list Z :=
  take 16 (rfc2104 sha1 (take 16 ptk) (take 77 f ++ replicate 16 0 ++ drop 93 f)).
Lemma frame_mic_eq ptk f : 95 <= len f <= 256 -> wpa_eapol_mic (kck ptk) (zero_mic f) = frame_mic ptk f.
Proof.
  intros Hl. unfold wpa_eapol_mic, frame_mic, kck, zero_mic.
  rewrite hmac_sha1_spec; [reflexivity| |].
  - unfold slice, len. rewrite length_take. lia.
  - rewrite len_blit; [lia|unfold E_MIC; lia|]. change (len (replicate 16 0)) with 16. unfold E_MIC. lia.
Qed.

(** [C1] Message 3 authenticates, for every frame of bytes and every cipher with the
    laws of [Cipher]: it is accepted only if its MIC is the HMAC-SHA-1 (RFC 2104) of the
    frame under the supplicant's own KCK ([frame_mic]) and its nonce is the one of
    Message 1; then the replay counter is the frame's, and when the key data is encrypted
    the group key is the one whose RFC 3394 wrap under the KEK, integrity value included,
    the frame carries. Whatever the frame, the pairwise key and both nonces stay, and a
    frame with a wrong MIC changes nothing. (A frame that passes the first checks and has
    more than 256 bytes overruns the buffer of the MIC instead, and has no result.) *)
Theorem msg3_authentic s f rc s' :
  length (s_anonce s) = 32%nat -> block16 (kek (s_ptk s)) -> bytes f -> eapol_process_msg3 s f = Some (rc, s') ->
  s_ptk s' = s_ptk s /\ s_anonce s' = s_anonce s /\ s_snonce s' = s_snonce s /\
  (slice f 77 16 <> frame_mic (s_ptk s) f -> rc = -1 /\ s' = s) /\
  (rc = 0 ->
    95 <= len f <= 256 /\ s_have_ptk s = true /\
    slice f 77 16 = frame_mic (s_ptk s) f /\
    slice f 13 32 = s_anonce s /\ s_have_gtk s' = true /\ s_replay s' = be64 f E_REPLAY /\
    if has (be16 f E_KEYINFO) WPA_KI_ENCR then
      exists g, len g = 16 /\ aes_key_wrap (kek (s_ptk s)) g 2 = slice f 95 24 /\ s_gtk s' = blit (s_gtk s) 0 g
    else s_gtk s' = s_gtk s).
Proof.
  intros La Hk Bf E. destruct (msg3_facts s f rc s' La Hk Bf E) as (H1 & H2 & H3 & H4 & H5).
  split; [done|]. split; [done|]. split; [done|]. split.
  - intros Hm. destruct (msg3_length s f rc s' E) as [Hl|Hr]; [|done]. apply H4. by rewrite frame_mic_eq.
  - intros Hr. destruct (H5 Hr) as (Hl & P1 & P2 & P3). rewrite frame_mic_eq in P2 by done. by split.
Qed.

(** The only undefined behaviour of Message 3 processing is the copy of
    the frame into the 256-byte buffer of [mic_frame], before the MIC is
    checked: it happens for every frame longer than that with a known
    descriptor type and the MIC and ACK bits, once Message 1 has been seen. *)
Theorem msg3_overrun s f :
  eapol_process_msg3 s f = None <->
  s_have_ptk s = true /\ 256 < len f /\ (f.[E_DESC] = 254 \/ f.[E_DESC] = 2) /\
  has (be16 f E_KEYINFO) WPA_KI_MIC = true /\ has (be16 f E_KEYINFO) WPA_KI_ACK = true.
Proof.
  unfold eapol_process_msg3.
  destruct (s_have_ptk s); cbn [negb]; rewrite ?orb_true_r, ?orb_false_r; [|split; [done|by intros (? & _)]].
  destruct (len f <? 95) eqn:E95; zbool; [split; [done|lia]|].
  destruct (has _ WPA_KI_MIC); cbn [negb orb].
  2: { destruct (negb _ && _); split; try done; intros (_ & _ & _ & ? & _); done. }
  destruct (has _ WPA_KI_ACK); cbn [negb].
  2: { destruct (negb _ && _); split; try done; intros (_ & _ & _ & _ & ?); done. }
  destruct (f.[E_DESC] =? 254) eqn:Ed; destruct (f.[E_DESC] =? 2) eqn:Ed'; zbool; cbn [negb andb].
  4: { split; [done|lia]. }
  all: rewrite mic_frame_spec by lia; destruct (256 <? len f) eqn:E256; zbool;
    [split; [intros _; splits; auto; lia|done]|].
  all: split; [|lia].
  all: repeat match goal with
    | |- (if ?b then _ else _) = None -> _ => destruct b
    | |- (let '(_, _) := ?p in _) = None -> _ => destruct p
    end; done.
Qed.
End Agreement.

(** ** The run of the self-test, with AES *)
Definition demo_mac (x : Z) : list Z := [0; 16; 24; 222; 11; x].
Definition demo_pmk : list Z := seqZ 100 32.
Definition demo_ap : ap_side :=
  ApSide demo_pmk (demo_mac 177) (demo_mac 178) (seqZ 17 32) (replicate 32 0) (replicate 48 0) 1
    (seqZ 68 16).
Definition demo_sta : supplicant :=
  eapol_init (replicate 32 0) demo_pmk (demo_mac 177) (demo_mac 178).
Definition demo_sta1 : supplicant := Eval vm_compute in snd (eapol_process_msg1 demo_sta (ap_m1 demo_ap)).
Definition demo_m3 : list Z := Eval vm_compute in
  match ap_m3 (ApSide demo_pmk (demo_mac 177) (demo_mac 178) (seqZ 17 32) fixed_snonce
                 (s_ptk demo_sta1) 1 (seqZ 68 16)) with (Some m3, _) => m3 | _ => [] end.
Definition demo_sta2 : supplicant := Eval vm_compute in
  match eapol_process_msg3 demo_sta1 demo_m3 with Some (_, s) => s | None => demo_sta1 end.

Lemma handshake_agreement_witness : exists sta2 ap2 m4,
  ap_m4 ap2 m4 = Some 0 /\ s_ptk sta2 = a_ptk ap2 /\ take 16 (s_gtk sta2) = seqZ 68 16.
Proof.
  destruct (handshake_agreement (replicate 32 0) demo_pmk (demo_mac 177) (demo_mac 178) (seqZ 17 32)
    (replicate 32 0) (replicate 48 0) 1 (seqZ 68 16))
    as (sta1 & m2 & ap1 & m3 & ap2 & sta2 & m4 & _ & _ & _ & _ & _ & _ & A4 & _ & Hp & _ & Hg & _);
    [reflexivity..|apply block16_check; vm_compute; reflexivity|lia|].
  exists sta2, ap2, m4. split; [exact A4|split; [exact Hp|exact Hg]].
Defined.

Lemma ptk_symmetric_witness :
  wpa_ptk_derive demo_pmk (demo_mac 178) (demo_mac 177) (replicate 32 2) (replicate 32 1)
  = wpa_ptk_derive demo_pmk (demo_mac 177) (demo_mac 178) (replicate 32 1) (replicate 32 2).
Proof.
  exact (proj1 (ptk_symmetric demo_pmk (demo_mac 177) (demo_mac 178) (replicate 32 1) (replicate 32 2)
    eq_refl eq_refl eq_refl eq_refl)).
Defined.

Lemma demo_m3_accepted : eapol_process_msg3 demo_sta1 demo_m3 = Some (0, demo_sta2).
Proof. vm_compute. reflexivity. Qed.

Lemma msg3_authentic_witness :
  slice demo_m3 77 16 = frame_mic (s_ptk demo_sta1) demo_m3 /\
  s_ptk demo_sta2 = s_ptk demo_sta1.
Proof.
  destruct (msg3_authentic demo_sta1 demo_m3 0 demo_sta2 eq_refl) as (Hp & _ & _ & _ & Hok);
    [apply block16_check; vm_compute; reflexivity|check_bytes|exact demo_m3_accepted|].
  destruct (Hok eq_refl) as (_ & _ & Hm & _). split; [exact Hm|exact Hp].
Defined.
