(* ===== verification/Tcp.v ===== *)
(** * TCP (kernel/net/tcp.c)

    The connection table, the segment builder with its checksum
    (kernel/net/net.c), the inbound state machine, the retransmission timer
    and the socket operations. The code drops [g_tcp_lock] while it resolves a
    MAC address and while it waits for a handshake; an operation that does is
    split there into two steps, so that any other step can come between.
    What the operations read from outside is one argument: the interface's
    address, the tick counter and the initial sequence number. *)
From Stdlib Require Import ZArith Lia Bool.
From stdpp Require Import base list numbers option relations.
From S2P Require Import Prelude.
#[local] Set Default Goal Selector "!".
Open Scope Z_scope.

Definition TCP_MAX_CONN : Z := 8.
Definition TCP_SNDBUF : Z := 8192.
Definition TCP_RXBUF : Z := 65535.
Definition TCP_MAX_DATA : Z := 1400.
Definition TICK_HZ : Z := 250.
Definition MS_TO_TICKS (ms : Z) : Z := ms * TICK_HZ / 1000.
Definition TCP_RETRANS_TICKS : Z := MS_TO_TICKS 200.
Definition TCP_MAX_RETRIES : Z := 4.

Definition TF_FIN : Z := 1.
Definition TF_SYN : Z := 2.
Definition TF_RST : Z := 4.
Definition TF_PSH : Z := 8.
Definition TF_ACK : Z := 16.

Inductive tcp_state :=
| TCP_CLOSED | TCP_LISTEN | TCP_SYN_SENT | TCP_ESTABLISHED
| TCP_FIN_WAIT1 | TCP_FIN_WAIT2 | TCP_LAST_ACK | TCP_CLOSING.

#[export] Instance tcp_state_eq_dec : EqDecision tcp_state.
Proof. solve_decision. Defined.

Definition is_st (a b : tcp_state) : bool := bool_decide (a = b).

(** [snd] and [rx] are the valid prefixes of the two arrays, so [snd_len] and
    [rx_len] are their lengths. *)
Record tcp_conn := TcpConn {
  used : bool; st : tcp_state; lport : Z; rport : Z; rip : Z;
  snd_una : Z; rcv_nxt : Z; iss : Z; fin_seq : Z;
  snd_buf : list Z; rx : list Z; last_send : Z; retries : Z }.

Definition no_conn : tcp_conn := TcpConn false TCP_CLOSED 0 0 0 0 0 0 0 [] [] 0 0.
Definition snd_len (c : tcp_conn) : Z := len (snd_buf c).
Definition rx_len (c : tcp_conn) : Z := len (rx c).

Record packet := Packet { p_src : Z; p_dst : Z; p_seg : list Z }.

(** What one step reads from the rest of the kernel. *)
Record env := Env { own_ip : Z; pit_ticks : Z; tcp_seq : Z }.

Record tcp := Tcp { g_tcp : list tcp_conn; g_eph_port : Z; wire : list packet }.

(** ** Field updates *)
Definition with_st (c : tcp_conn) (s : tcp_state) : tcp_conn :=
  TcpConn (used c) s (lport c) (rport c) (rip c) (snd_una c) (rcv_nxt c) (iss c) (fin_seq c)
    (snd_buf c) (rx c) (last_send c) (retries c).
Definition with_timer (c : tcp_conn) (t r : Z) : tcp_conn :=
  TcpConn (used c) (st c) (lport c) (rport c) (rip c) (snd_una c) (rcv_nxt c) (iss c) (fin_seq c)
    (snd_buf c) (rx c) t r.
Definition with_rcv (c : tcp_conn) (n : Z) (r : list Z) : tcp_conn :=
  TcpConn (used c) (st c) (lport c) (rport c) (rip c) (snd_una c) n (iss c) (fin_seq c)
    (snd_buf c) r (last_send c) (retries c).
Definition with_snd (c : tcp_conn) (una : Z) (s : list Z) : tcp_conn :=
  TcpConn (used c) (st c) (lport c) (rport c) (rip c) una (rcv_nxt c) (iss c) (fin_seq c)
    s (rx c) (last_send c) (retries c).
Definition with_fin (c : tcp_conn) (f : Z) : tcp_conn :=
  TcpConn (used c) (st c) (lport c) (rport c) (rip c) (snd_una c) (rcv_nxt c) (iss c) f
    (snd_buf c) (rx c) (last_send c) (retries c).

(** ** Checksum (net.c) *)
Fixpoint csum_loop (data : list Z) (sum : Z) : Z :=
  match data with
  | [] => sum
  | [x] =>
      let sum := sum + u16 (Z.shiftl x 8) in
      if negb (Z.land sum 4294901760 =? 0) then Z.land sum 65535 + 1 else sum
  | x :: y :: rest =>
      let sum := sum + u16 (Z.lor (Z.shiftl x 8) y) in
      csum_loop rest (if negb (Z.land sum 4294901760 =? 0) then Z.land sum 65535 + 1 else sum)
  end.

Definition net_csum (data : list Z) : Z :=
  let sum := csum_loop data 0 in
  let sum := Z.shiftr sum 16 + Z.land sum 65535 in
  let sum := u32 (sum + Z.shiftr sum 16) in
  u16 (Z.lnot sum).

(** ** Building a segment *)
Definition be16_bytes (v : Z) : list Z := [u8 (Z.shiftr v 8); u8 v].
(** The bytes [memcpy] copies out of [hton32(v)]. *)
Definition be32_bytes (v : Z) : list Z :=
  [u8 (Z.shiftr v 24); u8 (Z.shiftr v 16); u8 (Z.shiftr v 8); u8 v].

Definition tcp_is_loopback (c : tcp_conn) : bool := Z.land (rip c) 4278190080 =? 2130706432.

Definition hdr_len (flags : Z) : Z := if negb (Z.land flags TF_SYN =? 0) then 24 else 20.

(** The header with a zero checksum. *)
Definition tcp_header (c : tcp_conn) (flags seq ack : Z) : list Z :=
  be16_bytes (lport c) ++ be16_bytes (rport c) ++ be32_bytes seq ++ be32_bytes ack ++
  [u8 (Z.shiftl (hdr_len flags / 4) 4); flags] ++
  be16_bytes (u16 (TCP_RXBUF - rx_len c)) ++ [0; 0] ++ [0; 0] ++
  (if negb (Z.land flags TF_SYN =? 0) then [2; 4; 5; 180] else []).

Definition pseudo_header (src dst tlen : Z) : list Z :=
  be32_bytes src ++ be32_bytes dst ++ [0; 6] ++ be16_bytes tlen.

Definition tcp_src (e : env) (c : tcp_conn) : Z :=
  if tcp_is_loopback c then 2130706433 else own_ip e.

(** The 1440-byte [seg] cannot hold more: copying past it is undefined, [None].
    Otherwise the packets handed to [net_ip_send]. *)
Definition tcp_send_seg (e : env) (c : tcp_conn) (flags seq ack : Z) (data : list Z)
  : option (list packet) :=
  if (own_ip e =? 0) && negb (tcp_is_loopback c) then Some []
  else
    let hlen := hdr_len flags in
    let dlen := u16 (len data) in
    if TCP_MAX_DATA + 40 <? hlen + dlen then None
    else
      let tlen := u16 (hlen + dlen) in
      let seg := tcp_header c flags seq ack ++ take (Z.to_nat dlen) data in
      let chk := net_csum (pseudo_header (tcp_src e c) (rip c) tlen ++ seg) in
      Some [Packet (tcp_src e c) (rip c) (blit seg 16 (be16_bytes chk))].

(** ** Steps that may send *)
Notation "x <- a ; b" := (match a with Some x => b | None => None end)
  (at level 100, a at next level, right associativity, only parsing).

Definition u32_add (a b : Z) : Z := u32 (a + b).

(** The sequence number after everything buffered. *)
Definition snd_next (c : tcp_conn) : Z := u32_add (snd_una c) (snd_len c).

Definition flag (flags f : Z) : bool := negb (Z.land flags f =? 0).

(** ** Timer *)
Definition tcp_poll_conn (e : env) (c : tcp_conn) : option (tcp_conn * list packet) :=
  let now := pit_ticks e in
  if negb (is_st (st c) TCP_SYN_SENT) && negb (is_st (st c) TCP_FIN_WAIT1)
     && negb (is_st (st c) TCP_LAST_ACK) && (snd_len c =? 0)
  then Some (c, [])
  else if u64 (now - last_send c) <? TCP_RETRANS_TICKS then Some (c, [])
  else
    let c := with_timer c now (retries c + 1) in
    if TCP_MAX_RETRIES <? retries c then
      o <- tcp_send_seg e c (Z.lor TF_RST TF_ACK) (snd_next c) (rcv_nxt c) [];
      Some (no_conn, o)
    else if is_st (st c) TCP_SYN_SENT then
      o <- tcp_send_seg e c TF_SYN (iss c) 0 []; Some (c, o)
    else if 0 <? snd_len c then
      o <- tcp_send_seg e c (Z.lor TF_ACK TF_PSH) (snd_una c) (rcv_nxt c) (snd_buf c); Some (c, o)
    else
      o <- tcp_send_seg e c (Z.lor TF_FIN TF_ACK) (fin_seq c) (rcv_nxt c) []; Some (c, o).

Fixpoint poll_conns (e : env) (cs : list tcp_conn) : option (list tcp_conn * list packet) :=
  match cs with
  | [] => Some ([], [])
  | c :: rest =>
      r <- (if used c && negb (is_st (st c) TCP_LISTEN) then tcp_poll_conn e c else Some (c, []));
      r' <- poll_conns e rest;
      Some (fst r :: fst r', snd r ++ snd r')
  end.

Definition tcp_poll (e : env) (t : tcp) : option tcp :=
  r <- poll_conns e (g_tcp t);
  Some (Tcp (fst r) (g_eph_port t) (wire t ++ snd r)).

(** ** The table *)
Definition conn_at (t : tcp) (i : Z) : tcp_conn := nth (Z.to_nat i) (g_tcp t) no_conn.
Definition put_conn (t : tcp) (i : Z) (c : tcp_conn) (out : list packet) : tcp :=
  Tcp (<[Z.to_nat i := c]> (g_tcp t)) (g_eph_port t) (wire t ++ out).

(** The first slot that satisfies a test. *)
Fixpoint find_conn (p : tcp_conn -> bool) (cs : list tcp_conn) (i : Z) : option Z :=
  match cs with
  | [] => None
  | c :: rest => if p c then Some i else find_conn p rest (i + 1)
  end.

Definition free_slot (t : tcp) : option Z := find_conn (fun c => negb (used c)) (g_tcp t) 0.

(** ** Inbound: the parts of [net_tcp_deliver] *)
Definition rd16 (f : list Z) (off : Z) : Z := u16 (Z.lor (Z.shiftl (f.[off]) 8) (f.[off + 1])).
Definition rd32 (f : list Z) (off : Z) : Z :=
  Z.lor (Z.lor (Z.lor (Z.shiftl (f.[off]) 24) (Z.shiftl (f.[off + 1]) 16))
               (Z.shiftl (f.[off + 2]) 8)) (f.[off + 3]).

Record seg_fields := SegFields {
  sport : Z; dport : Z; sseq : Z; sack : Z; sflags : Z; sdata : list Z }.

(** [None]: shorter than a header, or a bad data offset. *)
Definition parse_seg (seg : list Z) : option seg_fields :=
  if len seg <? 20 then None
  else
    let hlen := u16 (Z.shiftr (seg.[12]) 4 * 4) in
    if (hlen <? 20) || (len seg <? hlen) then None
    else Some (SegFields (rd16 seg 0) (rd16 seg 2) (rd32 seg 4) (rd32 seg 8) (seg.[13])
                 (drop (Z.to_nat hlen) seg)).

(** An exact child first, then a listener on the port. *)
Definition match_conn (t : tcp) (f : seg_fields) (src : Z) : option Z :=
  match find_conn (fun o => used o && (lport o =? dport f) && negb (is_st (st o) TCP_LISTEN)
                            && (rport o =? sport f) && (rip o =? src)) (g_tcp t) 0 with
  | Some i => Some i
  | None => find_conn (fun o => used o && (lport o =? dport f) && is_st (st o) TCP_LISTEN) (g_tcp t) 0
  end.

(** No connection: answer with a reset, unless the segment is one. *)
Definition deliver_none (e : env) (f : seg_fields) (src : Z) : option (list packet) :=
  if flag (sflags f) TF_RST then Some []
  else
    let tmp := TcpConn false TCP_CLOSED (dport f) (sport f) src 0 0 0 0 [] [] 0 0 in
    let rseq := if flag (sflags f) TF_ACK then sack f else 0 in
    let rack := u32 (sseq f + len (sdata f) + (if flag (sflags f) TF_SYN then 1 else 0)) in
    tcp_send_seg e tmp (Z.lor TF_RST TF_ACK) rseq rack [].

(** The child that a SYN creates, before the lock is dropped. *)
Definition new_child (e : env) (f : seg_fields) (src : Z) : tcp_conn :=
  TcpConn true TCP_ESTABLISHED (dport f) (sport f) src (u32_add (tcp_seq e) 1) (u32_add (sseq f) 1)
    (tcp_seq e) 0 [] [] 0 0.

(** SYN_SENT: only SYN|ACK of our SYN moves. *)
Definition deliver_syn_sent (e : env) (c : tcp_conn) (f : seg_fields)
  : option (tcp_conn * list packet) :=
  if flag (sflags f) TF_SYN && flag (sflags f) TF_ACK && (sack f =? u32_add (snd_una c) 1) then
    let c := with_timer (with_rcv (with_st c TCP_ESTABLISHED) (u32_add (sseq f) 1) (rx c))
               (last_send c) 0 in
    o <- tcp_send_seg e c TF_ACK (u32_add (iss c) 1) (rcv_nxt c) [];
    Some (with_snd c (u32_add (iss c) 1) (snd_buf c), o)
  else Some (c, []).

(** Sliding the send window. *)
Definition slide (c : tcp_conn) (ack : Z) : tcp_conn :=
  let acked := u32 (ack - snd_una c) in
  if (1 <=? acked) && (acked <=? snd_len c) then
    with_timer (with_snd c ack (drop (Z.to_nat acked) (snd_buf c))) (last_send c) 0
  else if acked =? u32_add (snd_len c) 1 then with_timer (with_snd c ack []) (last_send c) 0
  else if u32_add (snd_len c) 1 <? acked then with_timer (with_snd c ack []) (last_send c) 0
  else c.

(** [None] in the first component: the connection was freed and processing of
    the segment stops. *)
Definition deliver_ack (c : tcp_conn) (ack : Z) : option tcp_conn :=
  let acked := u32 (ack - snd_una c) in
  let c := slide c ack in
  let c := if is_st (st c) TCP_FIN_WAIT1 && (u32_add (snd_len c) 1 <=? acked)
           then with_st c TCP_FIN_WAIT2 else c in
  if is_st (st c) TCP_LAST_ACK && (1 <=? acked) then
    if 0 <? rx_len c then Some (with_st c TCP_CLOSING) else None
  else Some c.

Definition send_ack (e : env) (c : tcp_conn) : option (list packet) :=
  tcp_send_seg e c TF_ACK (snd_next c) (rcv_nxt c) [].

Definition deliver_data (e : env) (c : tcp_conn) (f : seg_fields) : option (tcp_conn * list packet) :=
  let dlen := len (sdata f) in
  if (0 <? dlen) && is_st (st c) TCP_ESTABLISHED then
    if (sseq f =? rcv_nxt c) && (dlen <=? TCP_RXBUF - rx_len c) then
      let c := with_rcv c (u32_add (rcv_nxt c) dlen) (rx c ++ sdata f) in
      o <- send_ack e c; Some (c, o)
    else if negb (sseq f =? rcv_nxt c) then o <- send_ack e c; Some (c, o)
    else Some (c, [])
  else Some (c, []).

Definition deliver_fin (e : env) (c : tcp_conn) (f : seg_fields) : option (tcp_conn * list packet) :=
  if flag (sflags f) TF_FIN then
    if is_st (st c) TCP_ESTABLISHED || is_st (st c) TCP_FIN_WAIT1 || is_st (st c) TCP_FIN_WAIT2 then
      let c := if (u32 (sseq f + len (sdata f)) =? rcv_nxt c) || (sseq f =? rcv_nxt c)
               then with_rcv c (u32_add (rcv_nxt c) 1) (rx c) else c in
      o <- send_ack e c;
      if is_st (st c) TCP_ESTABLISHED then
        let c := with_timer (with_fin (with_st c TCP_LAST_ACK) (snd_next c)) (pit_ticks e) 0 in
        o' <- tcp_send_seg e c (Z.lor TF_FIN TF_ACK) (fin_seq c) (rcv_nxt c) [];
        Some (c, o ++ o')
      else if is_st (st c) TCP_FIN_WAIT2 then
        if 0 <? rx_len c then Some (with_st c TCP_CLOSING, o) else Some (no_conn, o)
      else Some (c, o)
    else Some (c, [])
  else Some (c, []).

(** A connection that is neither listening nor opening. *)
Definition deliver_conn (e : env) (c : tcp_conn) (f : seg_fields) : option (tcp_conn * list packet) :=
  match (if flag (sflags f) TF_ACK then deliver_ack c (sack f) else Some c) with
  | None => Some (no_conn, [])
  | Some c =>
      r <- deliver_data e c f;
      r' <- deliver_fin e (fst r) f;
      Some (fst r', snd r ++ snd r')
  end.

(** Either the segment is dealt with, or a SYN reserved a child slot and the
    lock is dropped to resolve the peer's address. *)
Inductive delivered :=
| Done (t : tcp)
| Resolving (t : tcp) (slot : Z).

Definition net_tcp_deliver (e : env) (t : tcp) (seg : list Z) (src : Z) : option delivered :=
  match parse_seg seg with
  | None => Some (Done t)
  | Some f =>
    match match_conn t f src with
    | None => o <- deliver_none e f src; Some (Done (Tcp (g_tcp t) (g_eph_port t) (wire t ++ o)))
    | Some i =>
      let c := conn_at t i in
      if is_st (st c) TCP_LISTEN then
        if flag (sflags f) TF_SYN && negb (flag (sflags f) TF_RST) then
          match free_slot t with
          | Some ch => Some (Resolving (put_conn t ch (new_child e f src) []) ch)
          | None => Some (Done t)
          end
        else Some (Done t)
      else if flag (sflags f) TF_RST then Some (Done (put_conn t i no_conn []))
      else
        r <- (if is_st (st c) TCP_SYN_SENT then deliver_syn_sent e c f else deliver_conn e c f);
        Some (Done (put_conn t i (fst r) (snd r)))
    end
  end.

(** The second half of accepting a SYN, with the outcome of
    [net_arp_resolve] and whatever ran meanwhile already in [t]. *)
Definition deliver_resume (e : env) (t : tcp) (ch : Z) (aok : bool) : option tcp :=
  let c := conn_at t ch in
  if used c && is_st (st c) TCP_ESTABLISHED then
    if aok then
      let c := with_timer c (pit_ticks e) (retries c) in
      o <- tcp_send_seg e c (Z.lor TF_SYN TF_ACK) (iss c) (rcv_nxt c) [];
      Some (put_conn t ch c o)
    else Some (put_conn t ch no_conn [])
  else Some t.

(** ** Socket operations *)
(** Opening: the slot, or -1. [arp_ok] is the outcome of [net_arp_resolve]. *)
Definition net_tcp_connect_begin (e : env) (arp_ok : bool) (t : tcp) (ip port : Z) : option (tcp * Z) :=
  if (own_ip e =? 0) && negb (Z.land ip 4278190080 =? 2130706432) then Some (t, -1)
  else if negb arp_ok then Some (t, -1)
  else
    match free_slot t with
    | None => Some (t, -1)
    | Some slot =>
        let c := TcpConn true TCP_SYN_SENT (g_eph_port t) port ip (tcp_seq e) 0 (tcp_seq e) 0 [] []
                   (pit_ticks e) 0 in
        o <- tcp_send_seg e c TF_SYN (iss c) 0 [];
        Some (Tcp (<[Z.to_nat slot := c]> (g_tcp t)) (u16 (g_eph_port t + 1)) (wire t ++ o), slot)
    end.

(** The test of the waiting loop, and what follows it. *)
Definition connect_done (t : tcp) (slot : Z) : bool :=
  negb (used (conn_at t slot)) || is_st (st (conn_at t slot)) TCP_ESTABLISHED.

Definition net_tcp_connect_end (t : tcp) (slot : Z) : tcp * Z :=
  let c := conn_at t slot in
  if used c && is_st (st c) TCP_ESTABLISHED then (t, slot)
  else if used c then (put_conn t slot no_conn [], -1) else (t, -1).

Definition net_tcp_send (e : env) (t : tcp) (id : Z) (data : list Z) : option (tcp * Z) :=
  if (id <? 0) || (TCP_MAX_CONN <=? id) || (len data <=? 0) || (TCP_MAX_DATA <? len data)
  then Some (t, -1)
  else
    let c := conn_at t id in
    if negb (used c) || negb (is_st (st c) TCP_ESTABLISHED) then Some (t, -1)
    else if TCP_SNDBUF <? snd_len c + len data then Some (t, -1)
    else
      let c := with_snd c (snd_una c) (snd_buf c ++ data) in
      o <- tcp_send_seg e c (Z.lor TF_ACK TF_PSH) (snd_una c) (rcv_nxt c) (snd_buf c);
      Some (put_conn t id (with_timer c (pit_ticks e) 0) o, len data).

(** The table, the return code and the bytes copied to the caller. *)
Definition net_tcp_recv (e : env) (t : tcp) (id cap : Z) : option (tcp * Z * list Z) :=
  if (id <? 0) || (TCP_MAX_CONN <=? id) || (cap <=? 0) then Some (t, -1, [])
  else
    let c := conn_at t id in
    if negb (used c) || is_st (st c) TCP_CLOSED then Some (t, 0, [])
    else if is_st (st c) TCP_LISTEN || is_st (st c) TCP_SYN_SENT then Some (t, -1, [])
    else
      let n := if cap <? rx_len c then cap else rx_len c in
      let got := take (Z.to_nat n) (rx c) in
      let c := with_rcv c (rcv_nxt c) (drop (Z.to_nat n) (rx c)) in
      o <- (if (0 <? n) && is_st (st c) TCP_ESTABLISHED && used c then send_ack e c else Some []);
      if (rx_len c =? 0) && (is_st (st c) TCP_CLOSING || is_st (st c) TCP_LAST_ACK)
      then Some (put_conn t id no_conn o, n, got)
      else if (n =? 0) && is_st (st c) TCP_ESTABLISHED then Some (put_conn t id c o, -1, got)
      else Some (put_conn t id c o, n, got).

(** The first half of closing: [true] when the caller then waits. *)
Definition net_tcp_close_begin (e : env) (t : tcp) (id : Z) : option (tcp * Z * bool) :=
  if (id <? 0) || (TCP_MAX_CONN <=? id) then Some (t, -1, false)
  else
    let c := conn_at t id in
    if negb (used c) then Some (t, -1, false)
    else if is_st (st c) TCP_LISTEN then Some (put_conn t id no_conn [], 0, false)
    else if is_st (st c) TCP_CLOSING then Some (put_conn t id no_conn [], 0, false)
    else if is_st (st c) TCP_ESTABLISHED || is_st (st c) TCP_FIN_WAIT1 then
      let c := with_timer (with_fin (with_st c TCP_FIN_WAIT1) (snd_next c)) (pit_ticks e) 0 in
      o <- tcp_send_seg e c (Z.lor TF_FIN TF_ACK) (fin_seq c) (rcv_nxt c) [];
      Some (put_conn t id c o, 0, true)
    else Some (put_conn t id no_conn [], 0, false).

Definition close_done (t : tcp) (id : Z) : bool :=
  negb (used (conn_at t id)) || is_st (st (conn_at t id)) TCP_FIN_WAIT2.

Definition net_tcp_close_end (t : tcp) (id : Z) : tcp * Z :=
  if used (conn_at t id) then (put_conn t id no_conn [], 0) else (t, 0).

Definition net_tcp_listen (t : tcp) (port : Z) : tcp * Z :=
  match find_conn (fun c => used c && (lport c =? port)) (g_tcp t) 0 with
  | Some _ => (t, -1)
  | None =>
    match free_slot t with
    | None => (t, -1)
    | Some i => (put_conn t i (TcpConn true TCP_LISTEN port 0 0 0 0 0 0 [] [] 0 0) [], i)
    end
  end.

(** [None]: the code indexes the table with an unchecked [listener_id]. *)
Fixpoint accept_scan (cs : list tcp_conn) (i listener_id port : Z) : Z :=
  match cs with
  | [] => -2
  | o :: rest =>
      if used o && is_st (st o) TCP_ESTABLISHED && (lport o =? port) && negb (i =? listener_id)
      then i else accept_scan rest (i + 1) listener_id port
  end.

Definition net_tcp_accept (t : tcp) (listener_id : Z) : option Z :=
  if (listener_id <? 0) || (TCP_MAX_CONN <=? listener_id) then None
  else
    let l := conn_at t listener_id in
    if negb (used l) || negb (is_st (st l) TCP_LISTEN) then Some (-1)
    else Some (accept_scan (g_tcp t) 0 listener_id (lport l)).

Definition tcp_init : tcp := Tcp (replicate 8 no_conn) 30000 [].

(** * The checksum *)
Lemma list_pair_ind {A} (P : list A -> Prop) :
  P [] -> (forall x, P [x]) -> (forall x y l, P l -> P (x :: y :: l)) -> forall l, P l.
Proof.
  intros H0 H1 H2. fix IH 1. intros [|x [|y l]]; [exact H0|apply H1|apply H2, IH].
Qed.

(** The sum of the big-endian 16-bit words. *)
Fixpoint wsum (data : list Z) : Z :=
  match data with
  | [] => 0
  | [x] => 256 * x
  | x :: y :: rest => 256 * x + y + wsum rest
  end.

Lemma wsum_app a b : Nat.even (length a) = true -> wsum (a ++ b) = wsum a + wsum b.
Proof.
  induction a as [|x|x y a IH] using list_pair_ind; intros He; [done|done|].
  cbn [app wsum]. rewrite IH by done. lia.
Qed.

Lemma wsum_nonneg a : bytes a -> 0 <= wsum a.
Proof.
  induction a as [|x|x y a IH] using list_pair_ind; intros Hb; [done| |];
    apply Forall_cons_1 in Hb as [Hx Hb]; unfold byte in *; cbn [wsum]; [lia|].
  apply Forall_cons_1 in Hb as [Hy Hb]. unfold byte in *. specialize (IH Hb). lia.
Qed.

Lemma carry_spec s : 0 <= s < 131072 ->
  (if negb (Z.land s 4294901760 =? 0) then Z.land s 65535 + 1 else s)
  = if s <? 65536 then s else s - 65535.
Proof.
  intros Hs.
  assert (Hm : Z.land s 4294901760 = Z.shiftl (Z.shiftr s 16) 16).
  { change 4294901760 with (Z.shiftl 65535 16). apply Z.bits_inj'. intros i Hi.
    rewrite Z.land_spec. destruct (Z.lt_ge_cases i 16).
    - rewrite !Z.shiftl_spec_low by lia. apply andb_false_r.
    - rewrite !Z.shiftl_spec, Z.shiftr_spec by lia. change 65535 with (Z.ones 16).
      rewrite Z.testbit_ones by lia. replace (i - 16 + 16) with i by lia.
      rewrite (proj2 (Z.leb_le _ _)) by lia. destruct (i - 16 <? 16) eqn:E; zbool; [apply andb_true_r|].
      rewrite (testbit_small s 32); [done|lia..]. }
  rewrite Hm. change 65535 with (Z.ones 16) at 1. rewrite Z.land_ones, Z.shiftl_mul_pow2, Z.shiftr_div_pow2 by lia.
  change (2 ^ 16) with 65536. pose proof (Z.div_mod s 65536 ltac:(lia)) as Hd.
  pose proof (Z.mod_pos_bound s 65536 ltac:(lia)) as Hp.
  assert (s / 65536 = 0 \/ s / 65536 = 1) as [Hq|Hq].
  { assert (0 <= s / 65536) by (apply Z.div_pos; lia).
    assert (s / 65536 < 2) by (apply Z.div_lt_upper_bound; lia). lia. }
  - rewrite Hq in *. change (0 * 65536 =? 0) with true. cbn [negb]. rewrite (proj2 (Z.ltb_lt _ _)) by lia. done.
  - rewrite Hq in *. change (1 * 65536 =? 0) with false. cbn [negb]. rewrite (proj2 (Z.ltb_ge _ _)) by lia. lia.
Qed.

Lemma word_value x y : byte x -> byte y -> u16 (Z.lor (Z.shiftl x 8) y) = 256 * x + y.
Proof.
  unfold byte. intros Hx Hy. rewrite <- Z.add_nocarry_lxor || idtac.
  assert (Hl : Z.land (Z.shiftl x 8) y = 0).
  { apply Z.bits_inj'. intros i Hi. rewrite Z.land_spec, Z.bits_0. destruct (Z.lt_ge_cases i 8).
    - by rewrite Z.shiftl_spec_low by lia.
    - rewrite (testbit_small y 8) by lia. apply andb_false_r. }
  rewrite <- Z.lxor_lor, <- Z.add_nocarry_lxor by done.
  rewrite Z.shiftl_mul_pow2 by lia. rewrite u16_small; lia.
Qed.

(** One's-complement addition: the loop returns the representative in
    [0 .. 65535] of the word sum, 0 only when every word is. *)
Lemma csum_loop_spec data : forall sum, bytes data -> 0 <= sum <= 65535 ->
  let r := csum_loop data sum in
  0 <= r <= 65535 /\ (exists k, sum + wsum data = r + 65535 * k) /\
  (r = 0 <-> sum = 0 /\ wsum data = 0).
Proof.
  induction data as [|x|x y data IH] using list_pair_ind; intros sum Hb Hs; cbn [csum_loop wsum].
  - splits; [lia..|exists 0; lia|lia].
  - apply Forall_cons_1 in Hb as [Hx _]. pose proof (word_value x 0 Hx ltac:(unfold byte; lia)) as Hw.
    rewrite Z.lor_0_r in Hw. rewrite Hw. unfold byte in Hx. rewrite carry_spec by lia.
    destruct (sum + (256 * x + 0) <? 65536) eqn:E; zbool.
    + splits; [lia..|exists 0; lia|lia].
    + splits; [lia..|exists 1; lia|lia].
  - apply Forall_cons_1 in Hb as [Hx Hb]. apply Forall_cons_1 in Hb as [Hy Hb].
    rewrite word_value by done. unfold byte in Hx, Hy. rewrite carry_spec by lia.
    pose proof (wsum_nonneg data Hb) as Hn.
    set (s' := if _ <? _ then _ else _).
    assert (Hs' : 0 <= s' <= 65535 /\ (s' = 0 <-> sum = 0 /\ 256 * x + y = 0) /\
      exists k, sum + (256 * x + y) = s' + 65535 * k).
    { unfold s'. destruct (_ <? 65536) eqn:E; zbool; splits; try lia; [exists 0|exists 1]; lia. }
    destruct Hs' as (Hs1 & Hs2 & k & Hk). destruct (IH s' Hb Hs1) as (Hr & (k' & Hk') & Hz).
    splits; [lia..|exists (k + k'); lia|]. rewrite Hz, Hs2. lia.
Qed.

Lemma net_csum_value data : bytes data -> net_csum data = 65535 - csum_loop data 0.
Proof.
  intros Hb. unfold net_csum. destruct (csum_loop_spec data 0 Hb ltac:(lia)) as (Hr & _ & _).
  set (r := csum_loop data 0) in *.
  assert (Hs : Z.shiftr r 16 = 0) by (rewrite Z.shiftr_div_pow2 by lia; apply Z.div_small; lia).
  assert (Hm : Z.land r 65535 = r)
    by (change 65535 with (Z.ones 16); rewrite Z.land_ones by lia; apply Z.mod_small; lia).
  rewrite Hs, Hm, Z.add_0_l, Hs, Z.add_0_r, u32_small by lia. unfold Z.lnot, u16.
  symmetry. apply (Z.mod_unique _ _ (-1)); lia.
Qed.

(** Writing the checksum into the zeroed field makes the whole sum verify. *)
Lemma net_csum_verify a b : bytes a -> bytes b -> Nat.even (length a) = true ->
  net_csum (a ++ be16_bytes (net_csum (a ++ [0; 0] ++ b)) ++ b) = 0.
Proof.
  intros Ha Hb He. assert (Hz : bytes (a ++ [0; 0] ++ b)).
  { repeat apply bytes_app; [done| |done]. repeat constructor; unfold byte; lia. }
  pose proof (net_csum_value _ Hz) as Hv.
  destruct (csum_loop_spec _ 0 Hz ltac:(lia)) as (Hr & (k & Hk) & Hr0).
  set (chk := net_csum (a ++ [0; 0] ++ b)) in *. set (r := csum_loop (a ++ [0; 0] ++ b) 0) in *.
  assert (Hc : bytes (a ++ be16_bytes chk ++ b)).
  { repeat apply bytes_app; [done| |done]. repeat constructor; apply byte_u8. }
  rewrite net_csum_value by done.
  destruct (csum_loop_spec _ 0 Hc ltac:(lia)) as (Hr' & (k' & Hk') & Hr0').
  set (r' := csum_loop (a ++ be16_bytes chk ++ b) 0) in *.
  assert (Hw : 256 * u8 (Z.shiftr chk 8) + u8 chk = chk).
  { rewrite <- word_value by apply byte_u8. rewrite be16_join by lia. apply u16_small. lia. }
  rewrite wsum_app in Hk, Hk', Hr0, Hr0' by done. cbn [app be16_bytes wsum] in Hk, Hk', Hr0, Hr0'.
  pose proof (wsum_nonneg a Ha). pose proof (wsum_nonneg b Hb).
  assert (r' = 0 \/ r' = 65535) as [|] by nia; [|lia]. exfalso.
  assert (chk = 0 /\ wsum a = 0 /\ wsum b = 0) as (? & ? & ?) by (pose proof (byte_u8 chk);
    pose proof (byte_u8 (Z.shiftr chk 8)); unfold byte in *; lia).
  lia.
Qed.

(** * Segments *)
Definition u16_ok (x : Z) : Prop := 0 <= x < 65536.
Definition u32_ok (x : Z) : Prop := 0 <= x < 4294967296.

(** The first sixteen bytes of a header and the bytes after the checksum. *)
Definition hdr_front (c : tcp_conn) (flags seq ack : Z) : list Z :=
  be16_bytes (lport c) ++ be16_bytes (rport c) ++ be32_bytes seq ++ be32_bytes ack ++
  [u8 (Z.shiftl (hdr_len flags / 4) 4); flags] ++ be16_bytes (u16 (TCP_RXBUF - rx_len c)).
Definition hdr_back (flags : Z) : list Z :=
  [0; 0] ++ (if negb (Z.land flags TF_SYN =? 0) then [2; 4; 5; 180] else []).

Lemma tcp_header_split c flags seq ack :
  tcp_header c flags seq ack = hdr_front c flags seq ack ++ [0; 0] ++ hdr_back flags.
Proof. reflexivity. Qed.

Lemma bytes_be16 v : bytes (be16_bytes v).
Proof. repeat constructor; apply byte_u8. Qed.
Lemma bytes_be32 v : bytes (be32_bytes v).
Proof. repeat constructor; apply byte_u8. Qed.

Lemma bytes_hdr_front c flags seq ack : byte flags -> bytes (hdr_front c flags seq ack).
Proof.
  intros Hf. unfold hdr_front. repeat apply bytes_app; try apply bytes_be16; try apply bytes_be32.
  apply Forall_cons_2; [apply byte_u8|]. apply Forall_cons_2; [exact Hf|by constructor].
Qed.
Lemma bytes_hdr_back flags : bytes (hdr_back flags).
Proof. unfold hdr_back. case_ifZ; repeat constructor; unfold byte; lia. Qed.
Lemma bytes_pseudo s d t : bytes (pseudo_header s d t).
Proof.
  unfold pseudo_header. repeat apply bytes_app; try apply bytes_be16; try apply bytes_be32.
  repeat constructor; unfold byte; lia.
Qed.

Lemma length_hdr_front c flags seq ack : length (hdr_front c flags seq ack) = 16%nat.
Proof. reflexivity. Qed.
Lemma length_hdr_back flags : Z.of_nat (length (hdr_back flags)) = hdr_len flags - 18.
Proof. unfold hdr_back, hdr_len. by case_ifZ. Qed.
Lemma hdr_len_range flags : 20 <= hdr_len flags <= 24.
Proof. unfold hdr_len. case_ifZ; lia. Qed.

Definition can_send (e : env) (c : tcp_conn) : Prop := own_ip e <> 0 \/ tcp_is_loopback c = true.

(** What goes out when the segment fits. *)
Lemma send_seg_value e c flags seq ack data :
  can_send e c -> hdr_len flags + len data <= 1440 ->
  tcp_send_seg e c flags seq ack data =
  Some [Packet (tcp_src e c) (rip c)
    (hdr_front c flags seq ack ++
     be16_bytes (net_csum ((pseudo_header (tcp_src e c) (rip c) (hdr_len flags + len data)
       ++ hdr_front c flags seq ack) ++ [0; 0] ++ (hdr_back flags ++ data))) ++
     (hdr_back flags ++ data))].
Proof.
  intros Hs Hl. pose proof (hdr_len_range flags). assert (0 <= len data) by (unfold len; lia).
  unfold tcp_send_seg.
  replace ((own_ip e =? 0) && negb (tcp_is_loopback c)) with false.
  2: { destruct Hs as [Hs| ->]; [by rewrite (proj2 (Z.eqb_neq _ _) Hs)|symmetry; apply andb_false_r]. }
  rewrite (u16_small (len data)) by lia. unfold TCP_MAX_DATA.
  rewrite (proj2 (Z.ltb_ge _ _)) by lia. rewrite u16_small by lia.
  rewrite take_ge by (unfold len; lia). rewrite tcp_header_split. do 3 f_equal.
Qed.

Lemma send_seg_overrun e c flags seq ack data :
  can_send e c -> len data <= 65535 -> 1440 < hdr_len flags + len data ->
  tcp_send_seg e c flags seq ack data = None.
Proof.
  intros Hs Hd Hl. assert (0 <= len data) by (unfold len; lia). unfold tcp_send_seg.
  replace ((own_ip e =? 0) && negb (tcp_is_loopback c)) with false.
  2: { destruct Hs as [Hs| ->]; [by rewrite (proj2 (Z.eqb_neq _ _) Hs)|symmetry; apply andb_false_r]. }
  rewrite (u16_small (len data)) by lia. unfold TCP_MAX_DATA. by rewrite (proj2 (Z.ltb_lt _ _)) by lia.
Qed.

Lemma rd16_bytes v l l' n : length l = n -> u16_ok v -> rd16 (l ++ be16_bytes v ++ l') (Z.of_nat n) = v.
Proof.
  intros Hn Hv. unfold rd16, nthZ. rewrite Z2Nat.inj_add, Nat2Z.id by lia.
  rewrite !(app_nth2 l) by lia. rewrite Hn, Nat.sub_diag.
  replace (n + Z.to_nat 1 - n)%nat with 1%nat by lia. cbn [nth app be16_bytes].
  rewrite be16_join by done. by apply u16_small.
Qed.

Lemma rd32_bytes v l l' n : length l = n -> u32_ok v -> rd32 (l ++ be32_bytes v ++ l') (Z.of_nat n) = v.
Proof.
  intros Hn Hv. unfold rd32, nthZ. rewrite !Z2Nat.inj_add, Nat2Z.id by lia.
  rewrite !(app_nth2 l) by lia. rewrite Hn, Nat.sub_diag.
  replace (n + Z.to_nat 1 - n)%nat with 1%nat by lia. replace (n + Z.to_nat 2 - n)%nat with 2%nat by lia.
  replace (n + Z.to_nat 3 - n)%nat with 3%nat by lia. cbn [nth app be32_bytes]. by apply be32_join.
Qed.

Lemma parse_built c flags seq ack chk data :
  u16_ok (lport c) -> u16_ok (rport c) -> u32_ok seq -> u32_ok ack ->
  parse_seg (hdr_front c flags seq ack ++ be16_bytes chk ++ (hdr_back flags ++ data))
  = Some (SegFields (lport c) (rport c) seq ack flags data).
Proof.
  intros Hl Hr Hs Ha. set (seg := _ ++ _).
  assert (E0 : rd16 seg 0 = lport c) by exact (rd16_bytes (lport c) [] _ 0 eq_refl Hl).
  assert (E2 : rd16 seg 2 = rport c)
    by exact (rd16_bytes (rport c) (be16_bytes (lport c)) _ 2 eq_refl Hr).
  assert (E4 : rd32 seg 4 = seq)
    by exact (rd32_bytes seq (be16_bytes (lport c) ++ be16_bytes (rport c)) _ 4 eq_refl Hs).
  assert (E8 : rd32 seg 8 = ack)
    by exact (rd32_bytes ack (be16_bytes (lport c) ++ be16_bytes (rport c) ++ be32_bytes seq) _ 8
                eq_refl Ha).
  assert (E13 : seg.[13] = flags) by reflexivity.
  assert (E12 : seg.[12] = u8 (Z.shiftl (hdr_len flags / 4) 4)) by reflexivity.
  assert (Ls : len seg = hdr_len flags + len data).
  { unfold seg, len. rewrite !length_app, length_hdr_front. change (length (be16_bytes chk)) with 2%nat.
    pose proof (length_hdr_back flags). lia. }
  unfold parse_seg. rewrite E0, E2, E4, E8, E12, E13, Ls.
  assert (Hh : u16 (Z.shiftr (u8 (Z.shiftl (hdr_len flags / 4) 4)) 4 * 4) = hdr_len flags)
    by (unfold hdr_len; by case_ifZ).
  rewrite Hh. pose proof (hdr_len_range flags). assert (0 <= len data) by (unfold len; lia).
  rewrite !(proj2 (Z.ltb_ge _ _)) by lia. cbn [orb]. do 2 f_equal. unfold seg.
  rewrite !app_assoc. apply drop_app_length'.
  rewrite !length_app, length_hdr_front. change (length (be16_bytes chk)) with 2%nat.
  pose proof (length_hdr_back flags). lia.
Qed.

(** What is sent can be received: a segment whose data fits the buffer
    leaves as one packet for the peer, the Internet checksum of its pseudo
    header and bytes verifies (sums to zero), and parsing it as
    [net_tcp_deliver] does gives back the ports, sequence and acknowledgement
    numbers, flags and data it was built from. *)
Theorem segment_roundtrip e c flags seq ack data :
  can_send e c -> hdr_len flags + len data <= 1440 -> byte flags -> bytes data ->
  u16_ok (lport c) -> u16_ok (rport c) -> u32_ok seq -> u32_ok ack ->
  exists p, tcp_send_seg e c flags seq ack data = Some [p] /\ p_dst p = rip c /\
    parse_seg (p_seg p) = Some (SegFields (lport c) (rport c) seq ack flags data) /\
    net_csum (pseudo_header (p_src p) (p_dst p) (len (p_seg p)) ++ p_seg p) = 0.
Proof.
  intros Hs Hl Hf Hd Hlp Hrp Hsq Hak. rewrite send_seg_value by done. eexists. split; [reflexivity|].
  cbn [p_dst p_src p_seg]. splits; [reflexivity|by apply parse_built|].
  set (chk := net_csum ((_ ++ _) ++ [0; 0] ++ _)).
  assert (Ls : len (hdr_front c flags seq ack ++ be16_bytes chk ++ (hdr_back flags ++ data))
    = hdr_len flags + len data).
  { unfold len. rewrite !length_app, length_hdr_front. change (length (be16_bytes chk)) with 2%nat.
    pose proof (length_hdr_back flags). lia. }
  rewrite Ls, app_assoc. apply net_csum_verify.
  - apply bytes_app; [apply bytes_pseudo|by apply bytes_hdr_front].
  - apply bytes_app; [apply bytes_hdr_back|done].
  - rewrite length_app, length_hdr_front. reflexivity.
Qed.

(** * Sending *)
(** [net_tcp_send] on an established connection: the data is appended to
    the unacknowledged buffer and the whole buffer goes out as one segment from
    [snd_una]; a buffer past 8192 bytes is refused with -1. Between the two, as
    soon as more than 1420 bytes are unacknowledged, building that one segment
    writes past the 1440-byte array of [tcp_send_seg]. *)
Theorem net_tcp_send_spec e t id data :
  let c := conn_at t id in let total := snd_len c + len data in
  0 <= id < 8 -> used c = true -> st c = TCP_ESTABLISHED -> can_send e c ->
  1 <= len data <= 1400 ->
  (total <= 1420 -> bytes (snd_buf c) -> bytes data ->
   u16_ok (lport c) -> u16_ok (rport c) -> u32_ok (snd_una c) -> u32_ok (rcv_nxt c) ->
   exists p c', net_tcp_send e t id data = Some (put_conn t id c' [p], len data) /\
     snd_buf c' = snd_buf c ++ data /\ snd_una c' = snd_una c /\
     parse_seg (p_seg p) = Some (SegFields (lport c) (rport c) (snd_una c) (rcv_nxt c)
                                   (Z.lor TF_ACK TF_PSH) (snd_buf c ++ data))) /\
  (1420 < total <= 8192 -> net_tcp_send e t id data = None) /\
  (8192 < total -> net_tcp_send e t id data = Some (t, -1)).
Proof.
  intros c total Hid Hu Hst Hs Hd. unfold net_tcp_send, TCP_MAX_CONN, TCP_MAX_DATA, TCP_SNDBUF.
  rewrite (proj2 (Z.ltb_ge id 0)), (proj2 (Z.leb_gt 8 id)) by lia.
  rewrite (proj2 (Z.leb_gt (len data) 0)), (proj2 (Z.ltb_ge 1400 (len data))) by lia.
  fold c. rewrite Hu. unfold is_st. rewrite Hst. cbn [negb orb bool_decide decide].
  rewrite bool_decide_eq_true_2 by done. cbn [negb]. fold total.
  assert (Lt : len (snd_buf c ++ data) = total) by (unfold total, snd_len, len; rewrite length_app; lia).
  set (c1 := with_snd c (snd_una c) (snd_buf c ++ data)). splits.
  - intros Ht Hb1 Hb2 Hl Hr Hsu Hrn. rewrite (proj2 (Z.ltb_ge 8192 total)) by lia.
    change (snd_buf c1) with (snd_buf c ++ data).
    rewrite (send_seg_value e c1) by (done || (change (hdr_len (Z.lor TF_ACK TF_PSH)) with 20; lia)).
    eexists _, (with_timer c1 (pit_ticks e) 0). split; [reflexivity|].
    splits; [reflexivity..|]. cbn [p_seg]. by apply (parse_built c1).
  - intros Ht. rewrite (proj2 (Z.ltb_ge 8192 total)) by lia.
    change (snd_buf c1) with (snd_buf c ++ data).
    rewrite (send_seg_overrun e c1); [done|done|lia|].
    change (hdr_len (Z.lor TF_ACK TF_PSH)) with 20. lia.
  - intros Ht. by rewrite (proj2 (Z.ltb_lt 8192 total)) by lia.
Qed.

(** A connection to 10.0.2.2:80 from port 30000, two 1400-byte sends. *)
Definition demo_env : env := Env 167772687 1000 7.
Definition demo_conn (s : list Z) : tcp_conn :=
  TcpConn true TCP_ESTABLISHED 30000 80 167772674 8 101 7 0 s [] 0 0.
Definition demo_tcp (c : tcp_conn) : tcp := Tcp (c :: replicate 7 no_conn) 30001 [].
Definition demo_data : list Z := replicate 1400 65.

Lemma net_tcp_send_spec_witness :
  net_tcp_send demo_env (demo_tcp (demo_conn demo_data)) 0 demo_data = None.
Proof.
  refine (proj1 (proj2 (net_tcp_send_spec demo_env (demo_tcp (demo_conn demo_data)) 0 demo_data
    _ _ _ _ _)) _).
  - lia.
  - reflexivity.
  - reflexivity.
  - left. discriminate.
  - vm_compute. split; discriminate.
  - vm_compute. split; [reflexivity|discriminate].
Defined.

(** * Acknowledgements *)
(** Acknowledgement processing on an established connection. Inside the
    window the acknowledged bytes leave the front of the buffer and the end of
    the sent stream stays where it was. Every acknowledgement outside the
    window, an old duplicate included, empties the buffer and moves [snd_una]
    to it: bytes the peer has not confirmed are forgotten. *)
Theorem deliver_ack_established c ack :
  st c = TCP_ESTABLISHED -> u32_ok ack -> u32_ok (snd_una c) -> snd_len c < 2 ^ 31 ->
  let acked := u32 (ack - snd_una c) in
  exists c', deliver_ack c ack = Some c' /\ st c' = TCP_ESTABLISHED /\ rx c' = rx c /\
    rcv_nxt c' = rcv_nxt c /\
    (acked = 0 -> c' = c) /\
    (1 <= acked <= snd_len c ->
     snd_una c' = ack /\ snd_buf c' = drop (Z.to_nat acked) (snd_buf c) /\ snd_next c' = snd_next c) /\
    (snd_len c < acked -> snd_una c' = ack /\ snd_buf c' = []).
Proof.
  intros Hst Ha Hu Hl acked. unfold deliver_ack. fold acked.
  assert (Hk : 0 <= acked < 4294967296) by apply u32_range.
  assert (Hn : 0 <= snd_len c) by (unfold snd_len, len; lia).
  exists (slide c ack).
  assert (Hs : st (slide c ack) = TCP_ESTABLISHED).
  { unfold slide. repeat case_ifZ; exact Hst. }
  rewrite Hs. change (is_st TCP_ESTABLISHED TCP_FIN_WAIT1) with false. cbn [andb].
  rewrite Hs. change (is_st TCP_ESTABLISHED TCP_LAST_ACK) with false. cbn [andb].
  split; [reflexivity|]. split; [done|].
  unfold slide. fold acked. unfold u32_add. rewrite (u32_small (snd_len c + 1)) by lia.
  destruct ((1 <=? acked) && (acked <=? snd_len c)) eqn:E1; zbool.
  { splits; [done..|lia| |lia]. intros _. splits; [done..|].
    unfold snd_next, snd_len, u32_add. cbn [snd_buf with_timer with_snd snd_una].
    assert (Hd : ack = u32 (snd_una c + acked)).
    { unfold acked, u32. rewrite Zplus_mod_idemp_r.
      replace (snd_una c + (ack - snd_una c)) with ack by lia. symmetry. by apply Z.mod_small. }
    rewrite Hd at 1. unfold u32 at 1 2. rewrite Zplus_mod_idemp_l.
    unfold u32. f_equal. unfold len, snd_len, len in *. rewrite length_drop. lia. }
  apply andb_false_iff in E1. destruct (acked =? snd_len c + 1) eqn:E2; zbool.
  { splits; [done..|lia|lia|]. done. }
  destruct (snd_len c + 1 <? acked) eqn:E3; zbool.
  { splits; [done..|lia|lia|]. done. }
  splits; [done..|lia|].
  destruct E1 as [E1|E1]; zbool; lia.
Qed.

(** An old duplicate acknowledgement, one byte below [snd_una]. *)
Lemma deliver_ack_established_witness : exists c',
  deliver_ack (demo_conn demo_data) 7 = Some c' /\ snd_buf c' = [].
Proof.
  destruct (deliver_ack_established (demo_conn demo_data) 7 eq_refl) as (c' & E & _ & _ & _ & _ & _ & H).
  - vm_compute. split; [discriminate|reflexivity].
  - vm_compute. split; [discriminate|reflexivity].
  - vm_compute. reflexivity.
  - exists c'. split; [exact E|]. apply H. vm_compute. reflexivity.
Defined.

(** In FIN_WAIT1 an acknowledgement of buffered data alone can be taken
    for the one of the FIN: the test runs on the buffer length after the slide,
    so once at least half of the buffer (rounded up) is acknowledged the
    connection moves to FIN_WAIT2 with the FIN, and perhaps data, unconfirmed. *)
Theorem fin_wait1_data_ack c ack :
  st c = TCP_FIN_WAIT1 -> u32_ok (snd_una c) -> snd_len c < 2 ^ 31 ->
  let acked := u32 (ack - snd_una c) in
  1 <= acked <= snd_len c -> snd_len c + 1 <= 2 * acked ->
  exists c', deliver_ack c ack = Some c' /\ st c' = TCP_FIN_WAIT2 /\
    snd_buf c' = drop (Z.to_nat acked) (snd_buf c).
Proof.
  intros Hst Hu Hl acked Ha H2. unfold deliver_ack. fold acked.
  assert (Hs : slide c ack = with_timer (with_snd c ack (drop (Z.to_nat acked) (snd_buf c))) (last_send c) 0).
  { unfold slide. fold acked. by rewrite !(proj2 (Z.leb_le _ _)) by lia. }
  rewrite Hs. set (c1 := with_timer _ _ _).
  assert (Hl1 : snd_len c1 = snd_len c - acked).
  { unfold snd_len, c1, len in *. cbn [snd_buf with_timer with_snd]. rewrite length_drop. lia. }
  assert (Hst1 : st c1 = TCP_FIN_WAIT1) by exact Hst.
  rewrite Hst1. change (is_st TCP_FIN_WAIT1 TCP_FIN_WAIT1) with true. unfold u32_add.
  rewrite Hl1, u32_small, (proj2 (Z.leb_le _ _)) by lia. cbn [andb].
  exists (with_st c1 TCP_FIN_WAIT2). splits; reflexivity.
Qed.

Lemma fin_wait1_data_ack_witness : exists c',
  deliver_ack (with_st (demo_conn demo_data) TCP_FIN_WAIT1) 1408 = Some c' /\ st c' = TCP_FIN_WAIT2.
Proof.
  destruct (fin_wait1_data_ack (with_st (demo_conn demo_data) TCP_FIN_WAIT1) 1408) as (c' & E & H & _).
  - reflexivity.
  - vm_compute. split; [discriminate|reflexivity].
  - vm_compute. reflexivity.
  - vm_compute. split; discriminate.
  - vm_compute. discriminate.
  - exists c'. split; [exact E|exact H].
Defined.

(** * In-order delivery *)
Lemma is_st_spec a b : is_st a b = true <-> a = b.
Proof. unfold is_st. apply bool_decide_eq_true. Qed.

Lemma length_put_conn t i c o : length (g_tcp (put_conn t i c o)) = length (g_tcp t).
Proof. apply length_insert. Qed.

Lemma conn_at_put t i c o : conn_at (put_conn t i c o) i = c \/
  (conn_at (put_conn t i c o) i = no_conn /\ conn_at t i = no_conn).
Proof.
  unfold conn_at, put_conn. cbn [g_tcp].
  destruct (decide (Z.to_nat i < length (g_tcp t))%nat).
  - left. rewrite nth_lookup, list_lookup_insert_eq by done. done.
  - right. rewrite !nth_overflow by (rewrite ?length_insert; lia). done.
Qed.

Lemma conn_at_put_ne t i j c o : Z.to_nat i <> Z.to_nat j -> conn_at (put_conn t i c o) j = conn_at t j.
Proof. intros Hn. unfold conn_at, put_conn. cbn [g_tcp]. by rewrite !nth_lookup, list_lookup_insert_ne. Qed.

Lemma poll_conns_nth e cs : forall cs' o k, poll_conns e cs = Some (cs', o) ->
  nth k cs' no_conn = nth k cs no_conn \/
  exists o', tcp_poll_conn e (nth k cs no_conn) = Some (nth k cs' no_conn, o').
Proof.
  induction cs as [|c cs IH]; intros cs' o k; cbn [poll_conns].
  - intros [= <- <-]. by left.
  - match goal with |- context [if ?b then ?x else ?y] =>
      destruct (if b then x else y) as [[c1 o1]|] eqn:E1; [|done] end.
    destruct (poll_conns e cs) as [[cs1 o2]|] eqn:E2; [|done]. intros [= <- <-].
    destruct k as [|k]; cbn [nth fst]; [|by eapply IH].
    destruct (used c && _); [right; by exists o1|left; by simplify_eq].
Qed.

Ltac step_some := match goal with
  | |- context [match ?x with Some _ => _ | None => _ end] =>
      let E := fresh "E" in destruct x eqn:E; [|done]
  end.

Section InOrder.
(** The peer's byte stream, the sequence number of its SYN and the slot. *)
Context (stream : list Z) (irs i : Z) (Hlen : len stream < 2 ^ 31).

(** A segment of the peer: any piece of the stream, under its own sequence
    number, in any order and any number of times. *)
Definition genuine (f : seg_fields) : Prop :=
  exists off, 0 <= off /\ off + len (sdata f) <= len stream /\
    sseq f = u32 (irs + 1 + off) /\ sdata f = slice stream off (len (sdata f)).

(** [r] has been read and [rx c] is waiting: together a prefix of the stream,
    and an established connection expects the byte after it. *)
Definition in_order (c : tcp_conn) (r : list Z) : Prop :=
  st c <> TCP_SYN_SENT /\
  exists n, 0 <= n <= len stream /\ r ++ rx c = take (Z.to_nat n) stream /\
    (st c = TCP_ESTABLISHED -> rcv_nxt c = u32 (irs + 1 + n)).

Inductive rx_step : tcp * list Z -> tcp * list Z -> Prop :=
| rx_deliver e t r seg src f t' :
    parse_seg seg = Some f -> match_conn t f src = Some i -> genuine f ->
    net_tcp_deliver e t seg src = Some (Done t') -> rx_step (t, r) (t', r)
| rx_recv e t r cap t' rc got :
    net_tcp_recv e t i cap = Some (t', rc, got) -> rx_step (t, r) (t', r ++ got)
| rx_send e t r data t' rc : net_tcp_send e t i data = Some (t', rc) -> rx_step (t, r) (t', r)
| rx_poll e t r t' : tcp_poll e t = Some t' -> rx_step (t, r) (t', r)
| rx_close e t r t' rc w : net_tcp_close_begin e t i = Some (t', rc, w) -> rx_step (t, r) (t', r)
| rx_other t r t' : conn_at t' i = conn_at t i -> rx_step (t, r) (t', r).

Lemma in_order_freed c r : in_order c r -> in_order no_conn r.
Proof.
  intros (_ & n & Hn & Hr & _). split; [done|]. exists (len r). cbn [rx no_conn].
  assert (Hl : (length (r ++ rx c) <= Z.to_nat n)%nat) by (rewrite Hr, length_take; lia).
  assert (Hl2 : (length (r ++ rx c) <= length stream)%nat) by (rewrite Hr, length_take; lia).
  rewrite length_app in Hl, Hl2. unfold len in *. splits; [lia..| |done].
  rewrite app_nil_r, Nat2Z.id. rewrite <- (take_app_length r (rx c)) at 1. rewrite Hr, take_take.
  f_equal. lia.
Qed.

(** Changes that leave the receive side alone and do not (re)open. *)
Lemma in_order_same c c' r : rx c' = rx c -> rcv_nxt c' = rcv_nxt c ->
  (st c' = st c \/ st c' <> TCP_ESTABLISHED /\ st c' <> TCP_SYN_SENT) ->
  in_order c r -> in_order c' r.
Proof.
  intros Hx Hn Hs (Hss & n & Hn0 & Hr & He). split.
  - destruct Hs as [->|[_ Hs]]; done.
  - exists n. rewrite Hx. splits; [lia..|done|]. rewrite Hn. intros Hc.
    destruct Hs as [Hs|[Hs _]]; [|done]. apply He. congruence.
Qed.

Lemma slide_rx c ack : rx (slide c ack) = rx c /\ rcv_nxt (slide c ack) = rcv_nxt c /\
  st (slide c ack) = st c.
Proof. unfold slide. by repeat case_ifZ. Qed.

Lemma in_order_ack c ack c' r : deliver_ack c ack = Some c' -> in_order c r -> in_order c' r.
Proof.
  unfold deliver_ack. destruct (slide_rx c ack) as (Hx & Hn & Hs).
  set (c1 := slide c ack) in *.
  set (c2 := if is_st (st c1) TCP_FIN_WAIT1 && _ then with_st c1 TCP_FIN_WAIT2 else c1).
  assert (H2 : rx c2 = rx c /\ rcv_nxt c2 = rcv_nxt c /\
    (st c2 = st c \/ st c2 <> TCP_ESTABLISHED /\ st c2 <> TCP_SYN_SENT)).
  { unfold c2. case_ifZ; splits; auto. }
  destruct H2 as (Hx2 & Hn2 & Hs2). destruct (is_st (st c2) TCP_LAST_ACK && _).
  - case_ifZ; [|done]. intros [= <-]. apply in_order_same; [done|done|by right].
  - intros [= <-]. by apply in_order_same.
Qed.

Lemma same_offset n off : 0 <= n <= len stream -> 0 <= off <= len stream ->
  u32 (irs + 1 + off) = u32 (irs + 1 + n) -> off = n.
Proof.
  intros Hn Ho He. unfold u32 in He.
  pose proof (Z.div_mod (irs + 1 + off) 4294967296 ltac:(lia)) as H1.
  pose proof (Z.div_mod (irs + 1 + n) 4294967296 ltac:(lia)) as H2. rewrite He in H1. lia.
Qed.

Lemma in_order_data e c f c' o r : genuine f -> deliver_data e c f = Some (c', o) ->
  in_order c r -> in_order c' r.
Proof.
  intros (off & Ho & Hol & Hs & Hd). unfold deliver_data.
  destruct ((0 <? _) && is_st _ _) eqn:E; [|by intros [= <- <-]].
  apply andb_true_iff in E as [Hpos Hst]. zbool. apply is_st_spec in Hst.
  destruct (_ && (_ <=? _)) eqn:E1.
  - apply andb_true_iff in E1 as [Hseq _]. zbool. destruct (send_ack _ _); [|done].
    intros [= <- <-] (Hss & n & Hn & Hr & He). specialize (He Hst).
    assert (off = n) as -> by (apply same_offset; [lia|lia|congruence]).
    split; [done|]. exists (n + len (sdata f)). cbn [rx with_rcv rcv_nxt st]. splits; [lia..| |].
    + set (m := len (sdata f)) in *. rewrite app_assoc, Hr, Hd. unfold slice.
      rewrite take_take_drop. f_equal. lia.
    + intros _. unfold u32_add. rewrite He. unfold u32. rewrite Zplus_mod_idemp_l. f_equal. lia.
  - destruct (negb _); [destruct (send_ack _ _); [|done]|]; by intros [= <- <-].
Qed.

Lemma in_order_fin e c f c' o r : deliver_fin e c f = Some (c', o) -> in_order c r -> in_order c' r.
Proof.
  unfold deliver_fin. destruct (flag _ _); [|by intros [= <- <-]].
  destruct (is_st (st c) TCP_ESTABLISHED || _ || _) eqn:Eo; [|by intros [= <- <-]].
  set (c1 := if (_ =? _) || _ then with_rcv c _ _ else c).
  assert (H1 : rx c1 = rx c /\ st c1 = st c) by (unfold c1; by case_ifZ).
  destruct H1 as [Hx1 Hs1]. step_some. intros Hd (Hss & n & Hn & Hr & He).
  assert (Hgo : forall c2, rx c2 = rx c -> st c2 <> TCP_ESTABLISHED -> st c2 <> TCP_SYN_SENT ->
    in_order c2 r).
  { intros c2 Hx2 Hs2 Hs3. split; [done|]. exists n. rewrite Hx2. splits; [lia..|exact Hr|intros; congruence]. }
  destruct (is_st (st c1) TCP_ESTABLISHED) eqn:Ee.
  - revert Hd. step_some. intros [= <- <-]. apply Hgo; [exact Hx1|discriminate|discriminate].
  - destruct (is_st (st c1) TCP_FIN_WAIT2) eqn:E2.
    + destruct (0 <? rx_len c1); injection Hd as <- <-; [apply Hgo; [exact Hx1|discriminate|discriminate]|].
      by apply (in_order_freed c); split; [|exists n].
    + injection Hd as <- <-. apply Hgo; [exact Hx1| |by rewrite Hs1].
      intros Hc. apply is_st_spec in Hc. congruence.
Qed.

Lemma in_order_conn e c f c' o r : genuine f -> deliver_conn e c f = Some (c', o) ->
  in_order c r -> in_order c' r.
Proof.
  intros Hg. unfold deliver_conn.
  destruct (if flag (sflags f) TF_ACK then deliver_ack c (sack f) else Some c) as [c1|] eqn:E1.
  2: { intros [= <- <-]. apply in_order_freed. }
  intros Hd Hc. assert (H1 : in_order c1 r).
  { destruct (flag _ _); [by eapply in_order_ack|by simplify_eq]. }
  revert Hd. step_some. destruct p as [c2 o2]. step_some. destruct p as [c3 o3].
  intros [= <- <-]. cbn [fst] in *. eapply in_order_fin; [done|]. by eapply in_order_data.
Qed.

Lemma in_order_put t c o r : in_order c r -> in_order (conn_at t i) r ->
  in_order (conn_at (put_conn t i c o) i) r.
Proof. intros Hc Ht. destruct (conn_at_put t i c o) as [->|[-> <-]]; done. Qed.

Lemma find_conn_some p cs : forall k j, find_conn p cs k = Some j ->
  k <= j /\ p (nth (Z.to_nat (j - k)) cs no_conn) = true.
Proof.
  induction cs as [|c cs IH]; intros k j; cbn [find_conn]; [done|]. destruct (p c) eqn:Ep.
  - intros [= <-]. rewrite Z.sub_diag. split; [lia|done].
  - intros [Hk Hp]%IH. split; [lia|].
    replace (Z.to_nat (j - k)) with (S (Z.to_nat (j - (k + 1)))) by lia. done.
Qed.

Lemma in_order_poll e c c' o r : tcp_poll_conn e c = Some (c', o) -> in_order c r -> in_order c' r.
Proof.
  unfold tcp_poll_conn. case_ifZ; [by intros [= <- <-]|].
  destruct (u64 _ <? _); [by intros [= <- <-]|].
  destruct (TCP_MAX_RETRIES <? _); [step_some; intros [= <- <-]; apply in_order_freed|].
  intros Hd. apply in_order_same; revert Hd;
    repeat (case_ifZ || step_some); intros [= <- <-]; auto.
Qed.

Lemma in_order_deliver e t seg src f t' r :
  parse_seg seg = Some f -> match_conn t f src = Some i -> genuine f ->
  net_tcp_deliver e t seg src = Some (Done t') ->
  in_order (conn_at t i) r -> in_order (conn_at t' i) r.
Proof.
  intros Hp Hm Hg. unfold net_tcp_deliver. rewrite Hp, Hm. intros Hd Hc. revert Hd.
  destruct (is_st (st (conn_at t i)) TCP_LISTEN).
  { case_ifZ; [|by intros [= <-]]. by destruct (free_slot t); intros [= <-]. }
  destruct (flag (sflags f) TF_RST).
  { intros [= <-]. apply in_order_put; [|done]. by eapply in_order_freed. }
  destruct (is_st (st (conn_at t i)) TCP_SYN_SENT) eqn:Es.
  { apply is_st_spec in Es. by destruct Hc. }
  step_some. destruct p as [c' o]. intros [= <-]. cbn [fst snd]. apply in_order_put; [|done].
  by eapply in_order_conn.
Qed.

Lemma in_order_recv e t cap t' rc got r :
  net_tcp_recv e t i cap = Some (t', rc, got) ->
  in_order (conn_at t i) r -> in_order (conn_at t' i) (r ++ got).
Proof.
  unfold net_tcp_recv. set (c := conn_at t i) in *.
  assert (Hid : in_order c r -> in_order c (r ++ [])) by (by rewrite app_nil_r).
  repeat (case_ifZ; [intros [= <- <- <-]; exact Hid|]). clear Hid.
  set (n := if cap <? rx_len c then cap else rx_len c).
  set (c1 := with_rcv c _ _). intros Hd Hc.
  assert (Hc1 : in_order c1 (r ++ take (Z.to_nat n) (rx c))).
  { destruct Hc as (Hss & m & Hm & Hr & He). split; [done|]. exists m.
    splits; [lia..| |exact He]. cbn [c1 rx with_rcv]. by rewrite <- app_assoc, take_drop. }
  assert (Hput : forall c2 o, in_order c2 (r ++ take (Z.to_nat n) (rx c)) ->
    in_order (conn_at (put_conn t i c2 o) i) (r ++ take (Z.to_nat n) (rx c))).
  { intros c2 o Hc2. destruct (conn_at_put t i c2 o) as [->|[-> Hno]]; [done|].
    by eapply in_order_freed. }
  revert Hd. step_some. repeat case_ifZ; intros [= <- _ <-]; apply Hput; try done.
  by eapply in_order_freed.
Qed.

Lemma in_order_send e t data t' rc r : net_tcp_send e t i data = Some (t', rc) ->
  in_order (conn_at t i) r -> in_order (conn_at t' i) r.
Proof.
  unfold net_tcp_send. repeat (case_ifZ; [by intros [= <- _]|]). step_some. intros [= <- _] Hc.
  apply in_order_put; [|done]. eapply in_order_same; [..|exact Hc]; auto.
Qed.

Lemma in_order_close e t t' rc w r : net_tcp_close_begin e t i = Some (t', rc, w) ->
  in_order (conn_at t i) r -> in_order (conn_at t' i) r.
Proof.
  unfold net_tcp_close_begin. intros Hd Hc. assert (Hf := in_order_freed _ _ Hc). revert Hd.
  case_ifZ; [by intros [= <- _ _]|]. case_ifZ; [by intros [= <- _ _]|].
  case_ifZ; [intros [= <- _ _]; by apply in_order_put|].
  case_ifZ; [intros [= <- _ _]; by apply in_order_put|].
  case_ifZ; [|intros [= <- _ _]; by apply in_order_put].
  step_some. intros [= <- _ _]. apply in_order_put; [|done].
  eapply in_order_same; [..|exact Hc]; [done|done|by right].
Qed.

Lemma in_order_step s s' : rx_step s s' ->
  in_order (conn_at (fst s) i) (snd s) -> in_order (conn_at (fst s') i) (snd s').
Proof.
  intros [e t r seg src f t' Hp Hm Hg Hd|e t r cap t' rc got Hr|e t r data t' rc Hs|e t r t' Hp
    |e t r t' rc w Hc|t r t' Ho]; cbn [fst snd].
  - by eapply in_order_deliver.
  - by eapply in_order_recv.
  - by eapply in_order_send.
  - unfold tcp_poll in Hp. destruct (poll_conns e (g_tcp t)) as [[cs o]|] eqn:E; [|done]. simplify_eq.
    unfold conn_at. cbn [g_tcp fst].
    destruct (poll_conns_nth e _ _ _ (Z.to_nat i) E) as [->|[o' Ho']]; [done|]. by eapply in_order_poll.
  - by eapply in_order_close.
  - by rewrite Ho.
Qed.

(** [C3] Delivery is in order, without gaps or duplicates: from a fresh established
    connection (nothing received, the next sequence number right after the peer's
    initial one) and for a stream of fewer than 2^31 bytes, whatever segments of
    the peer's byte stream arrive, in any order and any number of times, and
    whatever reads, sends, timer ticks, closes and operations on other slots
    come between, the bytes read from the connection followed by those waiting
    in its buffer are a prefix of the stream. *)
Theorem in_order_delivery t0 t r :
  st (conn_at t0 i) = TCP_ESTABLISHED -> rx (conn_at t0 i) = [] ->
  rcv_nxt (conn_at t0 i) = u32 (irs + 1) ->
  rtc rx_step (t0, []) (t, r) ->
  exists n, 0 <= n <= len stream /\ r ++ rx (conn_at t i) = take (Z.to_nat n) stream.
Proof.
  intros Hst Hrx Hn Hsteps.
  assert (H0 : in_order (conn_at t0 i) []).
  { split; [by rewrite Hst|]. exists 0. rewrite Hrx, Hn. unfold len. splits; [lia..|done|].
    intros _. f_equal. lia. }
  assert (H : in_order (conn_at (fst (t, r)) i) (snd (t, r))).
  { remember (t0, []) as s0 eqn:E0. assert (Hs0 : in_order (conn_at (fst s0) i) (snd s0)) by (by subst).
    clear -Hsteps Hs0 Hlen. induction Hsteps as [s|s1 s2 s3 H12 _ IH]; [done|].
    apply IH. by eapply in_order_step. }
  destruct H as (_ & n & Hn' & Hr & _). by exists n.
Qed.
End InOrder.

(** A peer sends "HELLO" from sequence number 101; "LLO" comes first. *)
Definition demo_stream : list Z := [72; 69; 76; 76; 79].
Definition demo_peer : tcp_conn :=
  TcpConn false TCP_CLOSED 80 30000 167772687 0 0 0 0 [] [] 0 0.
Definition demo_seg (seq : Z) (data : list Z) : list Z :=
  match tcp_send_seg (Env 167772674 0 0) demo_peer TF_ACK seq 8 data with
  | Some [p] => p_seg p | _ => [] end.
Definition demo_deliver (t : tcp) (seg : list Z) : tcp :=
  match net_tcp_deliver demo_env t seg 167772674 with Some (Done t') => t' | _ => t end.
Definition demo_t0 : tcp := demo_tcp (demo_conn []).
Definition demo_t1 : tcp := demo_deliver demo_t0 (demo_seg 103 [76; 76; 79]).
Definition demo_t2 : tcp := demo_deliver demo_t1 (demo_seg 101 [72; 69]).

Lemma in_order_delivery_witness : exists n,
  0 <= n <= len demo_stream /\ [] ++ rx (conn_at demo_t2 0) = take (Z.to_nat n) demo_stream.
Proof.
  refine (in_order_delivery demo_stream 100 0 _ demo_t0 demo_t2 [] _ _ _ _);
    [vm_compute; reflexivity|reflexivity|reflexivity|reflexivity|].
  apply (rtc_l _ _ (demo_t1, [])); [|apply rtc_once].
  - refine (rx_deliver _ _ _ demo_env _ _ (demo_seg 103 [76; 76; 79]) 167772674
      (SegFields 80 30000 103 8 16 [76; 76; 79]) _ _ _ _ _); [vm_compute; reflexivity..| |
      vm_compute; reflexivity].
    exists 2. vm_compute. repeat split; discriminate.
  - refine (rx_deliver _ _ _ demo_env _ _ (demo_seg 101 [72; 69]) 167772674
      (SegFields 80 30000 101 8 16 [72; 69]) _ _ _ _ _); [vm_compute; reflexivity..| |
      vm_compute; reflexivity].
    exists 0. vm_compute. repeat split; discriminate.
Defined.

(** * The connection table *)
Definition conn_ok (c : tcp_conn) : Prop :=
  snd_len c <= TCP_SNDBUF /\ rx_len c <= TCP_RXBUF /\
  (used c = false -> c = no_conn) /\ (used c = true -> st c <> TCP_CLOSED).
Definition tcp_inv (t : tcp) : Prop := length (g_tcp t) = 8%nat /\ Forall conn_ok (g_tcp t).

(** Every step of the code that changes the table, between two points where
    the lock is free. *)
Inductive tcp_step (e : env) (t : tcp) : tcp -> Prop :=
| step_poll t' : tcp_poll e t = Some t' -> tcp_step e t t'
| step_deliver seg src t' : net_tcp_deliver e t seg src = Some (Done t') -> tcp_step e t t'
| step_syn seg src t' ch : net_tcp_deliver e t seg src = Some (Resolving t' ch) -> tcp_step e t t'
| step_resume ch aok t' : deliver_resume e t ch aok = Some t' -> tcp_step e t t'
| step_connect aok ip port t' rc :
    net_tcp_connect_begin e aok t ip port = Some (t', rc) -> tcp_step e t t'
| step_connect_end slot t' rc : net_tcp_connect_end t slot = (t', rc) -> tcp_step e t t'
| step_send id data t' rc : net_tcp_send e t id data = Some (t', rc) -> tcp_step e t t'
| step_recv id cap t' rc got : net_tcp_recv e t id cap = Some (t', rc, got) -> tcp_step e t t'
| step_close id t' rc w : net_tcp_close_begin e t id = Some (t', rc, w) -> tcp_step e t t'
| step_close_end id t' rc : net_tcp_close_end t id = (t', rc) -> tcp_step e t t'
| step_listen port t' rc : net_tcp_listen t port = (t', rc) -> tcp_step e t t'.

Inductive tcp_reachable : tcp -> Prop :=
| tcp_reach_init : tcp_reachable tcp_init
| tcp_reach_step e t t' : tcp_reachable t -> tcp_step e t t' -> tcp_reachable t'.

Lemma no_conn_ok : conn_ok no_conn.
Proof. unfold conn_ok. splits; try done; unfold snd_len, rx_len, len, TCP_SNDBUF, TCP_RXBUF; simpl; lia. Qed.

Lemma conn_at_ok t i : tcp_inv t -> conn_ok (conn_at t i).
Proof.
  intros [_ Hf]. unfold conn_at. destruct (decide (Z.to_nat i < length (g_tcp t))%nat) as [Hi|Hi].
  - apply lookup_lt_is_Some in Hi as [c Hc]. rewrite nth_lookup, Hc. by eapply Forall_lookup_1 in Hc.
  - rewrite nth_overflow by lia. apply no_conn_ok.
Qed.

Lemma put_conn_inv t i c o : tcp_inv t -> conn_ok c -> tcp_inv (put_conn t i c o).
Proof.
  intros [Hl Hf] Hc. split; [by rewrite length_put_conn|]. by apply Forall_insert.
Qed.

(** A live connection whose buffers did not grow past their arrays. *)
Lemma conn_ok_live c : used c = true -> st c <> TCP_CLOSED -> snd_len c <= TCP_SNDBUF ->
  rx_len c <= TCP_RXBUF -> conn_ok c.
Proof. intros Hu Hs H1 H2. unfold conn_ok. splits; [done..|congruence|done]. Qed.

Lemma len_drop_le (l : list Z) n : len (drop n l) <= len l.
Proof. unfold len. rewrite length_drop. lia. Qed.

(** What the receive path keeps: liveness and the send buffer's bound. *)
Definition shrinks (c c' : tcp_conn) : Prop :=
  used c' = used c /\ st c' <> TCP_CLOSED /\ snd_len c' <= snd_len c /\ rx_len c' = rx_len c.

Lemma shrinks_ok c c' : used c = true -> shrinks c c' -> conn_ok c -> conn_ok c'.
Proof.
  intros Hu (Hu' & Hs & H1 & H2) (Hb1 & Hb2 & _). apply conn_ok_live; [congruence|done|lia|lia].
Qed.

Lemma slide_shrinks c ack : st c <> TCP_CLOSED -> shrinks c (slide c ack).
Proof.
  intros Hs. unfold slide, shrinks. assert (0 <= snd_len c) by (unfold snd_len, len; lia).
  repeat case_ifZ; splits; try done; try reflexivity; unfold snd_len in *;
    cbn [snd_buf with_timer with_snd]; [apply len_drop_le|unfold len in *; simpl; lia..].
Qed.

Lemma deliver_ack_ok c ack c' : used c = true -> conn_ok c -> deliver_ack c ack = Some c' ->
  conn_ok c' /\ used c' = true.
Proof.
  intros Hu Hc. pose proof Hc as (_ & _ & _ & Hcl). specialize (Hcl Hu).
  pose proof (slide_shrinks c ack Hcl) as Hsh. pose proof (shrinks_ok _ _ Hu Hsh Hc) as Hok.
  destruct Hsh as (Hu1 & Hs1 & _). rewrite Hu in Hu1. unfold deliver_ack.
  set (c1 := slide c ack) in *. set (c2 := if is_st (st c1) TCP_FIN_WAIT1 && _ then _ else c1).
  assert (H2 : conn_ok c2 /\ used c2 = true).
  { unfold c2. destruct (_ && _); [|done]. split; [|done].
    destruct Hok as (H1 & H2 & _). by apply conn_ok_live. }
  destruct H2 as [H2 Hu2]. destruct (is_st (st c2) TCP_LAST_ACK && _); [|by intros [= <-]].
  case_ifZ; [|done]. intros [= <-]. split; [|done]. destruct H2 as (Hx & Hy & _). by apply conn_ok_live.
Qed.

Lemma deliver_data_ok e c f c' o : used c = true -> conn_ok c -> deliver_data e c f = Some (c', o) ->
  conn_ok c' /\ used c' = true.
Proof.
  intros Hu Hc. pose proof Hc as (H1 & H2 & _ & H4). unfold deliver_data.
  destruct ((0 <? _) && _); [|by intros [= <- <-]].
  destruct ((sseq f =? _) && _) eqn:E.
  - step_some. intros [= <- <-]. zbool. split; [|done]. apply conn_ok_live; [done|by apply H4|done|].
    unfold rx_len, len in *. cbn [rx with_rcv]. rewrite length_app. lia.
  - destruct (negb _); [step_some|]; by intros [= <- <-].
Qed.

Lemma deliver_fin_ok e c f c' o : used c = true -> conn_ok c -> deliver_fin e c f = Some (c', o) ->
  conn_ok c'.
Proof.
  intros Hu Hc. pose proof Hc as (H1 & H2 & _ & H4). unfold deliver_fin.
  destruct (flag _ _); [|by intros [= <- <-]].
  destruct (is_st (st c) TCP_ESTABLISHED || _ || _); [|by intros [= <- <-]].
  set (c1 := if (_ =? _) || _ then with_rcv c _ _ else c).
  assert (Hc1 : used c1 = true /\ st c1 = st c /\ snd_len c1 = snd_len c /\ rx_len c1 = rx_len c)
    by (unfold c1; by case_ifZ).
  destruct Hc1 as (Hu1 & Hs1 & Hl1 & Hr1). step_some.
  destruct (is_st (st c1) TCP_ESTABLISHED).
  - step_some. intros [= <- <-]. apply conn_ok_live; [exact Hu1|discriminate| |].
    + change (snd_len c1 <= TCP_SNDBUF). lia.
    + change (rx_len c1 <= TCP_RXBUF). lia.
  - destruct (is_st (st c1) TCP_FIN_WAIT2).
    + case_ifZ; intros [= <- <-]; [|apply no_conn_ok]. apply conn_ok_live; [exact Hu1|discriminate| |].
      * change (snd_len c1 <= TCP_SNDBUF). lia.
      * change (rx_len c1 <= TCP_RXBUF). lia.
    + intros [= <- <-]. apply conn_ok_live; [done| |lia|lia]. rewrite Hs1. by apply H4.
Qed.

Lemma deliver_conn_ok e c f c' o : used c = true -> conn_ok c -> deliver_conn e c f = Some (c', o) ->
  conn_ok c'.
Proof.
  intros Hu Hc. unfold deliver_conn.
  destruct (if flag (sflags f) TF_ACK then deliver_ack c (sack f) else Some c) as [c1|] eqn:E1.
  2: { intros [= <- <-]. apply no_conn_ok. }
  assert (H1 : conn_ok c1 /\ used c1 = true).
  { destruct (flag _ _); [by eapply deliver_ack_ok|by simplify_eq]. }
  destruct H1 as [Hc1 Hu1]. destruct (deliver_data e c1 f) as [[c2 o2]|] eqn:E2; [|done].
  destruct (deliver_data_ok _ _ _ _ _ Hu1 Hc1 E2) as [Hc2 Hu2]. cbn [fst snd].
  destruct (deliver_fin e c2 f) as [[c3 o3]|] eqn:E3; [|done]. intros [= <- <-].
  exact (deliver_fin_ok _ _ _ _ _ Hu2 Hc2 E3).
Qed.

Lemma poll_conn_ok e c c' o : used c = true -> conn_ok c -> tcp_poll_conn e c = Some (c', o) -> conn_ok c'.
Proof.
  intros Hu (H1 & H2 & _ & H4). unfold tcp_poll_conn.
  assert (Hok : conn_ok c) by (by apply conn_ok_live; auto).
  case_ifZ; [by intros [= <- <-]|]. destruct (u64 _ <? _); [by intros [= <- <-]|].
  destruct (TCP_MAX_RETRIES <? _); [step_some; intros [= <- <-]; apply no_conn_ok|].
  set (c1 := with_timer _ _ _). assert (Hc1 : conn_ok c1) by (apply conn_ok_live; auto).
  repeat (case_ifZ || step_some); by intros [= <- <-].
Qed.

Lemma match_conn_used t f src i : match_conn t f src = Some i -> used (conn_at t i) = true.
Proof.
  unfold match_conn, conn_at. destruct (find_conn _ (g_tcp t) 0) as [j|] eqn:E.
  - intros [= <-]. apply find_conn_some in E as [_ E]. rewrite Z.sub_0_r in E.
    repeat (apply andb_true_iff in E as [E _]). done.
  - intros E'. apply find_conn_some in E' as [_ E']. rewrite Z.sub_0_r in E'.
    repeat (apply andb_true_iff in E' as [E' _]). done.
Qed.

Lemma fresh_ok s lp rp ip una nxt is_ ls : s <> TCP_CLOSED ->
  conn_ok (TcpConn true s lp rp ip una nxt is_ 0 [] [] ls 0).
Proof.
  intros Hs. apply conn_ok_live; [done|done|unfold snd_len|unfold rx_len];
    unfold len, TCP_SNDBUF, TCP_RXBUF; simpl; lia.
Qed.

Lemma deliver_inv e t seg src d : tcp_inv t -> net_tcp_deliver e t seg src = Some d ->
  match d with Done t' => tcp_inv t' | Resolving t' _ => tcp_inv t' end.
Proof.
  intros Hinv. unfold net_tcp_deliver. destruct (parse_seg seg) as [f|]; [|by intros [= <-]].
  destruct (match_conn t f src) as [i|] eqn:Em.
  2: { step_some. intros [= <-]. exact Hinv. }
  pose proof (match_conn_used _ _ _ _ Em) as Hu. pose proof (conn_at_ok t i Hinv) as Hc.
  destruct (is_st _ TCP_LISTEN).
  { case_ifZ; [|by intros [= <-]]. destruct (free_slot t); intros [= <-]; [|done].
    apply put_conn_inv; [done|by apply fresh_ok]. }
  case_ifZ; [intros [= <-]; apply put_conn_inv; [done|apply no_conn_ok]|].
  step_some. destruct p as [c' o]. intros [= <-]. cbn [fst snd]. apply put_conn_inv; [done|].
  destruct (is_st _ TCP_SYN_SENT); [|by eapply deliver_conn_ok].
  revert E0. unfold deliver_syn_sent. case_ifZ; [|by intros [= <- <-]]. step_some. intros [= <- <-].
  destruct Hc as (Hsb & Hrb & _). by apply conn_ok_live.
Qed.

Lemma poll_inv e t t' : tcp_inv t -> tcp_poll e t = Some t' -> tcp_inv t'.
Proof.
  intros [Hl Hf]. unfold tcp_poll. destruct (poll_conns e (g_tcp t)) as [[cs o]|] eqn:E; [|done].
  intros [= <-]. unfold tcp_inv. cbn [g_tcp fst]. rewrite <- Hl. clear Hl.
  revert cs o E. induction Hf as [|c l Hc Hl IH]; intros cs o; cbn [poll_conns].
  { by intros [= <- <-]. }
  match goal with |- context [if ?b then ?x else ?y] =>
    destruct b eqn:Eb; [destruct x as [[c1 o1]|] eqn:Ec1; [|done]|] end.
  - destruct (poll_conns e l) as [[cs1 o2]|] eqn:Ec2; [|done]. intros [= <- <-].
    destruct (IH _ _ eq_refl) as [HA HB]. apply andb_true_iff in Eb as [Hu _]. cbn [length fst].
    split; [lia|]. apply Forall_cons_2; [by eapply poll_conn_ok|done].
  - destruct (poll_conns e l) as [[cs1 o2]|] eqn:Ec2; [|done]. intros [= <- <-].
    destruct (IH _ _ eq_refl) as [HA HB]. cbn [length fst]. split; [lia|]. by apply Forall_cons_2.
Qed.

Lemma send_inv e t id data t' rc : tcp_inv t -> net_tcp_send e t id data = Some (t', rc) -> tcp_inv t'.
Proof.
  intros Hinv. unfold net_tcp_send. pose proof (conn_at_ok t id Hinv) as (_ & Hrb & _).
  case_ifZ; [by intros [= <- _]|]. destruct (negb (used _) || _) eqn:Eu; [by intros [= <- _]|]. zbool.
  match goal with H : is_st _ _ = true |- _ => apply is_st_spec in H as Hst end.
  destruct (TCP_SNDBUF <? _) eqn:Es; [by intros [= <- _]|]. zbool. step_some. intros [= <- _].
  apply put_conn_inv; [done|]. apply conn_ok_live; [done| | |done].
  - cbn [st with_timer with_snd]. by rewrite Hst.
  - unfold snd_len, len in *. cbn [snd_buf with_timer with_snd]. rewrite length_app. lia.
Qed.

Lemma recv_inv e t id cap t' rc got : tcp_inv t -> net_tcp_recv e t id cap = Some (t', rc, got) -> tcp_inv t'.
Proof.
  intros Hinv. unfold net_tcp_recv. pose proof (conn_at_ok t id Hinv) as (Hsb & Hrb & _).
  case_ifZ; [by intros [= <- _ _]|]. destruct (negb (used _) || _) eqn:Eu; [by intros [= <- _ _]|].
  zbool. destruct (is_st (st (conn_at t id)) TCP_LISTEN || _); [by intros [= <- _ _]|].
  set (n := if cap <? _ then _ else _). set (c1 := with_rcv _ _ _).
  assert (Hc1' : conn_ok c1).
  { apply conn_ok_live; [done| |done|].
    - intros Hc. match goal with H : is_st _ TCP_CLOSED = false |- _ =>
        apply is_st_spec in Hc; unfold c1 in Hc; cbn [st with_rcv] in Hc; congruence end.
    - unfold rx_len in *. cbn [rx with_rcv c1]. pose proof (len_drop_le (rx (conn_at t id)) (Z.to_nat n)). lia. }
  step_some. repeat case_ifZ; intros [= <- _ _]; apply put_conn_inv; try done.
Qed.

Lemma close_inv e t id t' rc w : tcp_inv t -> net_tcp_close_begin e t id = Some (t', rc, w) -> tcp_inv t'.
Proof.
  intros Hinv. unfold net_tcp_close_begin. pose proof (conn_at_ok t id Hinv) as (Hsb & Hrb & _).
  assert (Hz : tcp_inv (put_conn t id no_conn [])) by (apply put_conn_inv; [done|apply no_conn_ok]).
  case_ifZ; [by intros [= <- _ _]|]. destruct (used _) eqn:Hu; cbn [negb]; [|by intros [= <- _ _]].
  do 2 (case_ifZ; [by intros [= <- _ _]|]). case_ifZ; [|by intros [= <- _ _]].
  step_some. intros [= <- _ _]. apply put_conn_inv; [done|]. by apply conn_ok_live.
Qed.

Lemma step_inv e t t' : tcp_inv t -> tcp_step e t t' -> tcp_inv t'.
Proof.
  intros Hinv Hstep. destruct Hstep as [t' Hs|seg src t' Hs|seg src t' ch Hs|ch aok t' Hs
    |aok ip port t' rc Hs|slot t' rc Hs|id data t' rc Hs|id cap t' rc got Hs|id t' rc w Hs
    |id t' rc Hs|port t' rc Hs].
  - by eapply poll_inv.
  - exact (deliver_inv _ _ _ _ _ Hinv Hs).
  - exact (deliver_inv _ _ _ _ _ Hinv Hs).
  - revert Hs. unfold deliver_resume. pose proof (conn_at_ok t ch Hinv) as (Hsb & Hrb & _ & Hlv).
    destruct (used _) eqn:Hu; cbn [andb]; [|by intros [= <-]]. case_ifZ; [|by intros [= <-]].
    destruct aok; [step_some|]; intros [= <-]; (apply put_conn_inv; [done|]); [|apply no_conn_ok].
    apply conn_ok_live; auto.
  - revert Hs. unfold net_tcp_connect_begin. do 2 (case_ifZ; [by intros [= <- _]|]).
    destruct (free_slot t) as [s|]; [|by intros [= <- _]]. step_some. intros [= <- _].
    apply (put_conn_inv t s _ l Hinv). by apply fresh_ok.
  - revert Hs. unfold net_tcp_connect_end. repeat case_ifZ; intros [= <- _]; try done.
    apply put_conn_inv; [done|apply no_conn_ok].
  - by eapply send_inv.
  - by eapply recv_inv.
  - by eapply close_inv.
  - revert Hs. unfold net_tcp_close_end. case_ifZ; intros [= <- _]; [|done].
    apply put_conn_inv; [done|apply no_conn_ok].
  - revert Hs. unfold net_tcp_listen. destruct (find_conn _ _ _); [by intros [= <- _]|].
    destruct (free_slot t); intros [= <- _]; [|done]. apply put_conn_inv; [done|by apply fresh_ok].
Qed.

(** [C39] The connection table stays well formed: in every state reachable from
    [tcp_init], for any inbound segments, socket calls, timer ticks and
    interleaving at the points where the lock is dropped, there are eight slots,
    no send buffer holds more than 8192 bytes and no receive buffer more than
    65535, a free slot is all zero and a used one is never CLOSED. *)
Theorem tcp_reachable_inv t : tcp_reachable t ->
  length (g_tcp t) = 8%nat /\
  forall i, 0 <= i < 8 ->
    snd_len (conn_at t i) <= 8192 /\ rx_len (conn_at t i) <= 65535 /\
    (used (conn_at t i) = false -> conn_at t i = no_conn) /\
    (used (conn_at t i) = true -> st (conn_at t i) <> TCP_CLOSED).
Proof.
  intros Hr. assert (Hinv : tcp_inv t).
  { induction Hr as [|e t t' _ IH Hs]; [|by eapply step_inv].
    split; [done|]. by apply Forall_replicate, no_conn_ok. }
  split; [by destruct Hinv|]. intros i _. exact (conn_at_ok t i Hinv).
Qed.

Lemma tcp_reachable_inv_witness :
  length (g_tcp (fst (net_tcp_listen tcp_init 80))) = 8%nat.
Proof.
  refine (proj1 (tcp_reachable_inv _ _)).
  apply (tcp_reach_step demo_env tcp_init); [constructor|].
  apply (step_listen _ _ 80 _ (snd (net_tcp_listen tcp_init 80))). by destruct (net_tcp_listen _ _).
Defined.

Lemma segment_roundtrip_witness : exists p,
  tcp_send_seg demo_env (demo_conn []) TF_ACK 8 101 demo_stream = Some [p] /\
  parse_seg (p_seg p) = Some (SegFields 30000 80 8 101 TF_ACK demo_stream).
Proof.
  destruct (segment_roundtrip demo_env (demo_conn []) TF_ACK 8 101 demo_stream) as (p & E & _ & Hp & _).
  - left. discriminate.
  - vm_compute. discriminate.
  - vm_compute. split; [discriminate|reflexivity].
  - check_bytes.
  - vm_compute. split; [discriminate|reflexivity].
  - vm_compute. split; [discriminate|reflexivity].
  - vm_compute. split; [discriminate|reflexivity].
  - vm_compute. split; [discriminate|reflexivity].
  - exists p. split; [exact E|exact Hp].
Defined.
