(* ===== verification/Nic.v ===== *)
(** * Rings, and the network card's driver (kernel/drivers/e1000.c)

    First what the files of the network stack share: the result of code that can
    touch memory it does not own or wait for events, and rings, that is arrays
    read from a head index with wrap-around. Then the driver: the receive
    descriptors it shares with the device, the FIFO of received frames that
    [net_pump] drains, and the transmit ring. Finding the card on the PCI bus
    and programming its registers are not modelled. *)
From Stdlib Require Import ZArith Lia Bool.
From stdpp Require Import base list numbers option.
From S2P Require Import Prelude.
#[local] Set Default Goal Selector "!".
Open Scope Z_scope.

(** ** Results *)
(** [Oob]: the code reads or writes outside the object it was given.
    [Starved]: it still waits when the listed events (or the fuel) are used up. *)
Inductive res (A : Type) : Type :=
| Ok (a : A)
| Oob
| Starved.
Arguments Ok {A} a.
Arguments Oob {A}.
Arguments Starved {A}.

Definition rbind {A B} (x : res A) (f : A -> res B) : res B :=
  match x with Ok a => f a | Oob => Oob | Starved => Starved end.

Notation "'let*' p ':=' a 'in' b" := (rbind a (fun p => b))
  (at level 10, p pattern, a at level 200, b at level 200).

Definition of_option {A} (x : option A) : res A := match x with Some a => Ok a | None => Oob end.

(** [n] bytes at [off] of the memory that starts at a pointer. *)
Definition rd_bytes (m : list Z) (off n : Z) : res (list Z) :=
  if (0 <=? off) && (0 <=? n) && (off + n <=? len m) then Ok (slice m off n) else Oob.
Definition rd_byte (m : list Z) (off : Z) : res Z :=
  if (0 <=? off) && (off <? len m) then Ok (m.[off]) else Oob.

Lemma rd_byte_ok r off : 0 <= off < len r -> rd_byte r off = Ok (r.[off]).
Proof.
  intros H. unfold rd_byte. rewrite (proj2 (Z.leb_le 0 off)) by lia. by rewrite (proj2 (Z.ltb_lt off (len r))) by lia.
Qed.
Lemma rd_bytes_ok r off n : 0 <= off -> 0 <= n -> off + n <= len r -> rd_bytes r off n = Ok (slice r off n).
Proof.
  intros. unfold rd_bytes. rewrite (proj2 (Z.leb_le 0 off)), (proj2 (Z.leb_le 0 n)) by lia.
  by rewrite (proj2 (Z.leb_le (off + n) (len r))) by lia.
Qed.

(** What one step reads from outside: the tick counter, the initial sequence
    number and the time stamp counter, the addresses of the two copies of the
    card's MAC (they salt identifiers), and whether the transmit slot frees up. *)
Record nenv := Nenv { ticks : Z; isn : Z; tsc : Z; mac_at : Z; mac6_at : Z; tx_done : bool }.

(** ** Rings *)
Section Rings.
Context {A : Type} (d : A).

(** The [n] elements from index [h] on, wrapping around. *)
Definition ring (q : list A) (h n : Z) : list A :=
  (fun k => nth (Z.to_nat ((h + k) mod len q)) q d) <$> seqZ 0 n.

Lemma length_ring q h n : length (ring q h n) = Z.to_nat n.
Proof. unfold ring. by rewrite length_fmap, length_seqZ. Qed.

Lemma ring_nil q h : ring q h 0 = [].
Proof. reflexivity. Qed.

Lemma ring_snoc q h n : 0 <= n -> ring q h (n + 1) = ring q h n ++ [nth (Z.to_nat ((h + n) mod len q)) q d].
Proof.
  intros. unfold ring. rewrite seqZ_app by lia. by rewrite fmap_app.
Qed.

Lemma ring_pop q h n : 0 < n ->
  ring q h n = nth (Z.to_nat (h mod len q)) q d :: ring q ((h + 1) mod len q) (n - 1).
Proof.
  intros. unfold ring. rewrite seqZ_cons by lia. cbn [fmap list_fmap]. rewrite Z.add_0_r.
  f_equal. replace (seqZ (Z.succ 0) (Z.pred n)) with (Z.add 1 <$> seqZ 0 (n - 1)).
  2: { rewrite fmap_add_seqZ. f_equal; lia. }
  rewrite <- list_fmap_compose. apply list_fmap_ext. intros i k _. unfold compose.
  rewrite Zplus_mod_idemp_l. do 3 f_equal. lia.
Qed.

(** Slots outside the window do not matter. *)
Lemma ring_update_out q h n i x : 0 <= n -> 0 <= i < len q ->
  (forall k, 0 <= k < n -> (h + k) mod len q <> i) ->
  ring (<[Z.to_nat i := x]> q) h n = ring q h n.
Proof.
  intros Hn Hi Hk. unfold ring.
  assert (len (<[Z.to_nat i := x]> q) = len q) as -> by (unfold len; by rewrite length_insert).
  apply list_fmap_ext. intros j k Hj. apply lookup_seqZ in Hj as [-> Hj].
  specialize (Hk (0 + Z.of_nat j) ltac:(lia)).
  pose proof (Z.mod_pos_bound (h + (0 + Z.of_nat j)) (len q) ltac:(lia)) as Hb.
  rewrite !nth_lookup. rewrite list_lookup_insert_ne; [done|lia].
Qed.

Lemma mod_window_ne N h a b : 0 < N -> 0 <= a < b -> b < a + N -> (h + a) mod N <> (h + b) mod N.
Proof.
  intros HN Hab Hb E.
  pose proof (Z_div_mod_eq_full (h + a) N) as Ha. pose proof (Z_div_mod_eq_full (h + b) N) as Hb'.
  rewrite E in Ha. assert (N * ((h + b) / N - (h + a) / N) = b - a) as Hd by lia.
  destruct (Z.lt_trichotomy ((h + b) / N - (h + a) / N) 0) as [|[|]]; nia.
Qed.

(** Writing the slot behind the last element appends. *)
Lemma ring_push q h n x : 0 <= n < len q ->
  ring (<[Z.to_nat ((h + n) mod len q) := x]> q) h (n + 1) = ring q h n ++ [x].
Proof.
  intros Hn. pose proof (Z.mod_pos_bound (h + n) (len q) ltac:(lia)) as Hb.
  rewrite ring_snoc by lia.
  assert (len (<[Z.to_nat ((h + n) mod len q) := x]> q) = len q) as -> by (unfold len; by rewrite length_insert).
  rewrite ring_update_out.
  - f_equal. f_equal. apply nth_lookup_Some, list_lookup_insert_eq. unfold len in *. lia.
  - lia.
  - done.
  - intros k Hk. apply mod_window_ne; lia.
Qed.
End Rings.

(** ** The driver *)
Definition NUM_RX : Z := 32.
Definition NUM_TX : Z := 32.
Definition RXFIFO : Z := 64.
Definition RXFRAME : Z := 2048.
Definition RX_DD : Z := 1.
Definition RX_EOP : Z := 2.
Definition TX_DD : Z := 1.
(** [TX_CMD_EOP | TX_CMD_IFCS | TX_CMD_RS]. *)
Definition TX_CMD : Z := 11.

(** A descriptor with the buffer it points to. *)
Record rx_desc := RxDesc { rx_status : Z; rx_length : Z; rx_buf : list Z }.
Record tx_desc := TxDesc { tx_status : Z; tx_length : Z; tx_cmd : Z; tx_buf : list Z }.

Definition no_rx : rx_desc := RxDesc 0 0 [].
Definition no_tx : tx_desc := TxDesc 0 0 0 [].

(** The FIFO's slots hold the frames, so [g_rxfifo_len] is their lengths. [sent]
    records the frames given to the device, in order; no code reads it. *)
Record nic := Nic {
  g_up : bool;
  g_rxring : list rx_desc; g_rx_sw : Z; reg_rdt : Z;
  g_rxfifo : list (list Z); g_rxfifo_head : Z; g_rxfifo_tail : Z; g_rx_drop : Z;
  g_txring : list tx_desc; g_tx_sw : Z; reg_tdt : Z; sent : list (list Z) }.

Definition with_fifo (s : nic) (q : list (list Z)) (h t drops : Z) : nic :=
  Nic (g_up s) (g_rxring s) (g_rx_sw s) (reg_rdt s) q h t drops (g_txring s) (g_tx_sw s) (reg_tdt s) (sent s).
Definition with_rx (s : nic) (r : list rx_desc) (sw rdt : Z) : nic :=
  Nic (g_up s) r sw rdt (g_rxfifo s) (g_rxfifo_head s) (g_rxfifo_tail s) (g_rx_drop s)
    (g_txring s) (g_tx_sw s) (reg_tdt s) (sent s).
Definition with_tx (s : nic) (r : list tx_desc) (sw tdt : Z) (f : list Z) : nic :=
  Nic (g_up s) (g_rxring s) (g_rx_sw s) (reg_rdt s) (g_rxfifo s) (g_rxfifo_head s) (g_rxfifo_tail s)
    (g_rx_drop s) r sw tdt (sent s ++ [f]).

Definition rx_fifo_push (s : nic) (frame : list Z) : nic :=
  let next := (g_rxfifo_head s + 1) mod RXFIFO in
  if next =? g_rxfifo_tail s
  then with_fifo s (g_rxfifo s) (g_rxfifo_head s) (g_rxfifo_tail s) (u32 (g_rx_drop s + 1))
  else with_fifo s (<[Z.to_nat (g_rxfifo_head s) := frame]> (g_rxfifo s)) next (g_rxfifo_tail s)
         (g_rx_drop s).

(** The bytes copied out; none when the FIFO is empty. *)
Definition rx_fifo_pop (s : nic) (cap : Z) : nic * list Z :=
  if g_rxfifo_tail s =? g_rxfifo_head s then (s, [])
  else
    let f := nth (Z.to_nat (g_rxfifo_tail s)) (g_rxfifo s) [] in
    let n := if cap <? len f then cap else len f in
    (with_fifo s (g_rxfifo s) (g_rxfifo_head s) ((g_rxfifo_tail s + 1) mod RXFIFO) (g_rx_drop s),
     take (Z.to_nat n) f).

Definition nic_rx (s : nic) (cap : Z) : nic * list Z := rx_fifo_pop s cap.

Definition rx_at (s : nic) : rx_desc := nth (Z.to_nat (g_rx_sw s)) (g_rxring s) no_rx.
Definition is_done (d : rx_desc) : bool := negb (Z.land (rx_status d) RX_DD =? 0).

(** The frame of a completed descriptor, when it is kept. *)
Definition rx_good (d : rx_desc) : option (list Z) :=
  let n := if RXFRAME <? rx_length d then RXFRAME else rx_length d in
  if (n <=? 1518) && negb (Z.land (rx_status d) RX_EOP =? 0) then Some (slice (rx_buf d) 0 n) else None.

Definition drain_one (s : nic) : nic :=
  let d := rx_at s in
  let s := match rx_good d with Some f => rx_fifo_push s f | None => s end in
  with_rx s (<[Z.to_nat (g_rx_sw s) := RxDesc 0 (rx_length d) (rx_buf d)]> (g_rxring s))
    ((g_rx_sw s + 1) mod NUM_RX) (reg_rdt s).

Fixpoint drain_loop (fuel : nat) (s : nic) : nic :=
  match fuel with
  | O => s
  | S fuel => if is_done (rx_at s) then drain_loop fuel (drain_one s) else s
  end.

(** A round gives one descriptor back, so 32 rounds are enough. *)
Definition rx_drain (s : nic) : nic :=
  if negb (g_up s) then s
  else
    let s := drain_loop 32 s in
    with_rx s (g_rxring s) (g_rx_sw s) ((g_rx_sw s + NUM_RX - 1) mod NUM_RX).

Definition nic_poll (s : nic) : nic := if g_up s then rx_drain s else s.

Definition tx_at (s : nic) : tx_desc := nth (Z.to_nat (g_tx_sw s)) (g_txring s) no_tx.

(** [done]: the device reports the slot's previous frame as sent within the
    2,000,000 reads of the wait loop. *)
Definition nic_send (done : bool) (s : nic) (frame : list Z) : nic * Z :=
  if negb (g_up s) || (1518 <? len frame) then (s, -1)
  else if (Z.land (tx_status (tx_at s)) TX_DD =? 0) && negb done then (s, -1)
  else
    let sw := (g_tx_sw s + 1) mod NUM_TX in
    (with_tx s (<[Z.to_nat (g_tx_sw s) := TxDesc 0 (len frame) TX_CMD (blit (tx_buf (tx_at s)) 0 frame)]>
                  (g_txring s)) sw sw frame, 0).

Definition nic_present (s : nic) : bool := g_up s.

(** The rings and the FIFO as [nic_init] leaves them. *)
Definition nic_init : nic :=
  Nic true (replicate 32 (RxDesc 0 0 (replicate 4096 0))) 0 31 (replicate 64 []) 0 0 0
    (replicate 32 (TxDesc TX_DD 0 0 (replicate 4096 0))) 0 0 [].

(** * The receive path refines two queues *)

Definition fifo_wf (s : nic) : Prop :=
  length (g_rxfifo s) = 64%nat /\ 0 <= g_rxfifo_head s < 64 /\ 0 <= g_rxfifo_tail s < 64.
Definition queued_len (s : nic) : Z := (g_rxfifo_head s - g_rxfifo_tail s) mod 64.
(** The frames in the FIFO, oldest first. *)
Definition queued (s : nic) : list (list Z) := ring [] (g_rxfifo s) (g_rxfifo_tail s) (queued_len s).

Lemma len_queued s : len (queued s) = queued_len s.
Proof.
  unfold queued, len. rewrite length_ring.
  pose proof (Z.mod_pos_bound (g_rxfifo_head s - g_rxfifo_tail s) 64 ltac:(lia)). unfold queued_len. lia.
Qed.

Lemma queued_len_range s : 0 <= queued_len s < 64.
Proof. apply Z.mod_pos_bound. lia. Qed.

Lemma fifo_head s : fifo_wf s -> g_rxfifo_head s = (g_rxfifo_tail s + queued_len s) mod 64.
Proof.
  intros (_ & Hh & Ht). unfold queued_len. rewrite Zplus_mod_idemp_r.
  replace (g_rxfifo_tail s + (g_rxfifo_head s - g_rxfifo_tail s)) with (g_rxfifo_head s) by lia.
  symmetry. apply Z.mod_small. lia.
Qed.

Lemma queued_len_next s : fifo_wf s -> queued_len s < 63 ->
  ((g_rxfifo_head s + 1) mod 64 - g_rxfifo_tail s) mod 64 = queued_len s + 1.
Proof.
  intros Hw Hr. rewrite Zminus_mod_idemp_l. rewrite (fifo_head s Hw) at 1.
  pose proof (queued_len_range s).
  replace ((g_rxfifo_tail s + queued_len s) mod 64 + 1 - g_rxfifo_tail s)
    with ((g_rxfifo_tail s + queued_len s) mod 64 + (1 - g_rxfifo_tail s)) by lia.
  rewrite Zplus_mod_idemp_l.
  replace (g_rxfifo_tail s + queued_len s + (1 - g_rxfifo_tail s)) with (queued_len s + 1) by lia.
  apply Z.mod_small. lia.
Qed.

Lemma fifo_full_iff s : fifo_wf s -> (g_rxfifo_head s + 1) mod 64 = g_rxfifo_tail s <-> queued_len s = 63.
Proof.
  intros Hw. pose proof (queued_len_range s). split.
  - intros E. destruct (Z.eq_dec (queued_len s) 63); [done|].
    pose proof (queued_len_next s Hw ltac:(lia)) as Hn. rewrite E, Z.sub_diag, Zmod_0_l in Hn. lia.
  - intros E. rewrite (fifo_head s Hw), E, Zplus_mod_idemp_l.
    replace (g_rxfifo_tail s + 63 + 1) with (g_rxfifo_tail s + 1 * 64) by lia.
    rewrite Z_mod_plus_full. apply Z.mod_small. destruct Hw as (_ & _ & ?). lia.
Qed.

Lemma len_app_gen {A} (a b : list A) : len (a ++ b) = len a + len b.
Proof. unfold len. rewrite length_app. lia. Qed.

(** A frame joins the end of the queue, or is counted as dropped. *)
Lemma rx_fifo_push_spec s f : fifo_wf s ->
  fifo_wf (rx_fifo_push s f) /\
  ((queued_len s < 63 /\ queued (rx_fifo_push s f) = queued s ++ [f] /\ g_rx_drop (rx_fifo_push s f) = g_rx_drop s)
   \/ (queued_len s = 63 /\ queued (rx_fifo_push s f) = queued s
       /\ g_rx_drop (rx_fifo_push s f) = u32 (g_rx_drop s + 1))).
Proof.
  intros Hw. pose proof (fifo_full_iff s Hw) as Hf. pose proof (queued_len_range s) as Hr.
  pose proof (fifo_head s Hw) as Hh. destruct Hw as (Hl & Hhd & Htl). unfold rx_fifo_push, RXFIFO.
  destruct ((g_rxfifo_head s + 1) mod 64 =? g_rxfifo_tail s) eqn:E; zbool.
  - split; [done|]. right. split; [by apply Hf|]. done.
  - assert (queued_len s <> 63) as Hne by (intros ?; by apply E, Hf).
    split.
    { split; [cbn; by rewrite length_insert|]. cbn. split; [apply Z.mod_pos_bound|]; lia. }
    left. split; [lia|]. split; [|done]. unfold queued at 1. unfold queued_len at 1. cbn -[Z.modulo].
    rewrite queued_len_next by (try done; lia). rewrite Hh.
    replace 64 with (len (g_rxfifo s)) by (unfold len; lia). apply ring_push. unfold len. lia.
Qed.

Lemma rx_fifo_push_frame s f :
  g_up (rx_fifo_push s f) = g_up s /\ g_rxring (rx_fifo_push s f) = g_rxring s /\
  g_rx_sw (rx_fifo_push s f) = g_rx_sw s /\ reg_rdt (rx_fifo_push s f) = reg_rdt s /\
  sent (rx_fifo_push s f) = sent s.
Proof. unfold rx_fifo_push. by destruct (_ =? _). Qed.

(** The oldest frame leaves, cut to the caller's buffer. *)
Lemma nic_rx_spec s cap : fifo_wf s ->
  match queued s with
  | [] => nic_rx s cap = (s, [])
  | f :: q => snd (nic_rx s cap) = take (Z.to_nat (Z.min cap (len f))) f
              /\ queued (fst (nic_rx s cap)) = q /\ fifo_wf (fst (nic_rx s cap))
  end.
Proof.
  intros Hw. pose proof (queued_len_range s) as Hr. pose proof (len_queued s) as Hq.
  unfold nic_rx, rx_fifo_pop.
  destruct (g_rxfifo_tail s =? g_rxfifo_head s) eqn:E; zbool.
  - assert (queued_len s = 0) as H0 by (unfold queued_len; by rewrite E, Z.sub_diag).
    rewrite H0 in Hq. destruct (queued s); [done|unfold len in Hq; simpl in Hq; lia].
  - destruct (Z.eq_dec (queued_len s) 0) as [H0|H0].
    { pose proof (fifo_head s Hw) as Hh. rewrite H0, Z.add_0_r, Z.mod_small in Hh by (destruct Hw as (_ & _ & ?); lia). lia. }
    unfold queued at 1. rewrite ring_pop by lia. destruct Hw as (Hl & Hh & Ht).
    assert (len (g_rxfifo s) = 64) as HL by (unfold len; lia). rewrite HL. cbn [fst snd].
    rewrite (Z.mod_small (g_rxfifo_tail s)) by lia. split.
    { case_ifZ; [by rewrite Z.min_l by lia|by rewrite Z.min_r by lia]. }
    split.
    + unfold queued, queued_len. cbn -[Z.modulo]. f_equal. unfold RXFIFO.
      rewrite Zminus_mod_idemp_r.
      replace (g_rxfifo_head s - (g_rxfifo_tail s + 1)) with (g_rxfifo_head s - g_rxfifo_tail s - 1) by lia.
      rewrite <- Zminus_mod_idemp_l. apply Z.mod_small. fold (queued_len s). lia.
    + split; [done|]. cbn -[Z.modulo]. unfold RXFIFO. split; [lia|apply Z.mod_pos_bound; lia].
Qed.

(** ** The receive ring *)
(** The device completes descriptors in order from its head register [rdh] and
    never reaches the tail register; [m] of them wait for the driver. *)
Definition rx_wf (s : nic) (m : Z) : Prop :=
  length (g_rxring s) = 32%nat /\ 0 <= g_rx_sw s < 32 /\ 0 <= m < 32 /\
  (forall k, 0 <= k < 32 ->
     is_done (nth (Z.to_nat ((g_rx_sw s + k) mod 32)) (g_rxring s) no_rx) = (k <? m)).
Definition completed (s : nic) (m : Z) : list rx_desc := ring no_rx (g_rxring s) (g_rx_sw s) m.
Definition good_frames (ds : list rx_desc) : list (list Z) := omap rx_good ds.

Lemma rx_at_window s : length (g_rxring s) = 32%nat -> 0 <= g_rx_sw s < 32 ->
  rx_at s = nth (Z.to_nat ((g_rx_sw s + 0) mod 32)) (g_rxring s) no_rx.
Proof. intros. unfold rx_at. by rewrite Z.add_0_r, Z.mod_small by lia. Qed.

Lemma land_0_DD : is_done (RxDesc 0 0 []) = false.
Proof. reflexivity. Qed.

Lemma drain_one_wf s m : rx_wf s m -> 0 < m -> rx_wf (drain_one s) (m - 1).
Proof.
  intros (Hl & Hsw & Hm & Hd) Hpos. unfold drain_one.
  set (s1 := match rx_good (rx_at s) with Some f => rx_fifo_push s f | None => s end).
  assert (g_rxring s1 = g_rxring s) as E1 by (subst s1; destruct (rx_good _); [apply rx_fifo_push_frame|done]).
  assert (g_rx_sw s1 = g_rx_sw s) as E2 by (subst s1; destruct (rx_good _); [apply rx_fifo_push_frame|done]).
  unfold rx_wf. cbn -[Z.modulo nth]. rewrite E1, E2. unfold NUM_RX.
  split; [by rewrite length_insert|]. split; [apply Z.mod_pos_bound; lia|]. split; [lia|].
  intros k Hk. rewrite Zplus_mod_idemp_l. replace (g_rx_sw s + 1 + k) with (g_rx_sw s + (k + 1)) by lia.
  rewrite nth_lookup. destruct (Z.eq_dec k 31) as [->|Hne].
  - replace (g_rx_sw s + (31 + 1)) with (g_rx_sw s + 1 * 32) by lia.
    rewrite Z_mod_plus_full, Z.mod_small by lia. rewrite list_lookup_insert_eq by lia. cbn [from_option].
    transitivity false; [reflexivity|symmetry; apply Z.ltb_ge; lia].
  - rewrite list_lookup_insert_ne.
    2: { intros E. apply (mod_window_ne 32 (g_rx_sw s) 0 (k + 1)); try lia.
         rewrite Z.add_0_r, (Z.mod_small (g_rx_sw s)) by lia.
         pose proof (Z.mod_pos_bound (g_rx_sw s + (k + 1)) 32 ltac:(lia)). lia. }
    rewrite <- nth_lookup. rewrite Hd by lia.
    destruct (Z.ltb_spec (k + 1) m), (Z.ltb_spec k (m - 1)); done || lia.
Qed.

Lemma drain_one_fifo s : fifo_wf s ->
  let s' := drain_one s in
  fifo_wf s' /\ g_up s' = g_up s /\ sent s' = sent s /\
  queued s' = take 63 (queued s ++ good_frames [rx_at s]) /\
  u32 (g_rx_drop s') = u32 (g_rx_drop s + len (queued s ++ good_frames [rx_at s]) - len (queued s')).
Proof.
  intros Hw. cbv zeta. unfold drain_one, good_frames. cbn [omap list_omap].
  pose proof (len_queued s) as Hq. pose proof (queued_len_range s) as Hr.
  destruct (rx_good (rx_at s)) as [f|].
  - destruct (rx_fifo_push_spec s f Hw) as (Hw' & Hc). pose proof (rx_fifo_push_frame s f) as (Eu & _ & _ & _ & Es).
    set (s1 := rx_fifo_push s f) in *.
    assert (forall r sw t, queued (with_rx s1 r sw t) = queued s1) as -> by reflexivity.
    split; [exact Hw'|]. split; [exact Eu|]. split; [exact Es|]. cbn [g_rx_drop with_rx].
    destruct Hc as [(Hlt & -> & ->)|(Hfull & -> & ->)].
    + rewrite take_ge by (rewrite length_app; unfold len in Hq; simpl; lia). split; [done|]. f_equal. lia.
    + assert (length (queued s) = 63%nat) as HL by (unfold len in Hq; lia).
      rewrite take_app_le, take_ge by lia. split; [done|]. unfold u32. rewrite Zmod_mod. f_equal.
      rewrite len_app_gen. change (len [f]) with 1. lia.
  - rewrite !app_nil_r. split; [exact Hw|]. split; [done|]. split; [done|]. change (queued (with_rx _ _ _ _)) with (queued s).
    rewrite take_ge by (unfold len in Hq; lia). split; [done|]. cbn. f_equal. lia.
Qed.

Lemma completed_pop s m : rx_wf s m -> 0 < m -> completed s m = rx_at s :: completed (drain_one s) (m - 1).
Proof.
  intros (Hl & Hsw & Hm & Hd) Hpos. unfold completed. rewrite ring_pop by lia.
  assert (len (g_rxring s) = 32) as HL by (unfold len; lia). rewrite HL.
  rewrite (Z.mod_small (g_rx_sw s)) by lia. f_equal. unfold drain_one.
  set (s1 := match rx_good (rx_at s) with Some f => rx_fifo_push s f | None => s end).
  assert (g_rxring s1 = g_rxring s) as E1 by (subst s1; destruct (rx_good _); [apply rx_fifo_push_frame|done]).
  assert (g_rx_sw s1 = g_rx_sw s) as E2 by (subst s1; destruct (rx_good _); [apply rx_fifo_push_frame|done]).
  cbn [g_rxring g_rx_sw with_rx]. rewrite E1, E2. unfold NUM_RX. rewrite ring_update_out; [done|lia|lia|].
  intros k Hk. rewrite HL, Zplus_mod_idemp_l. rewrite <- (Z.mod_small (g_rx_sw s) 32) at 2 by lia.
  rewrite <- (Z.add_0_r (g_rx_sw s)) at 2. apply not_eq_sym.
  replace (g_rx_sw s + 1 + k) with (g_rx_sw s + (1 + k)) by lia. apply mod_window_ne; lia.
Qed.

Lemma take_take_app {A} n (a b : list A) : take n (take n a ++ b) = take n (a ++ b).
Proof.
  destruct (le_lt_dec n (length a)) as [Hle|Hlt].
  - rewrite (take_app_le a) by done. rewrite take_app_le by (rewrite length_take; lia). rewrite take_take. f_equal. lia.
  - by rewrite (take_ge a) by lia.
Qed.

(** What a run of the drain loop leaves: the first 63 frames queued, the
    others counted. *)
Definition drained (s : nic) (fs : list (list Z)) (s' : nic) : Prop :=
  fifo_wf s' /\ g_up s' = g_up s /\ sent s' = sent s /\ queued s' = take 63 (queued s ++ fs) /\
  u32 (g_rx_drop s') = u32 (g_rx_drop s + len (queued s ++ fs) - len (queued s')).

Lemma drained_nil s : fifo_wf s -> drained s [] s.
Proof.
  intros Hw. unfold drained. rewrite app_nil_r. pose proof (len_queued s) as Hq. pose proof (queued_len_range s).
  rewrite take_ge by (unfold len in Hq; lia). repeat (split; [done|]). f_equal. lia.
Qed.

Lemma drained_app s fs s1 fs' s' : drained s fs s1 -> drained s1 fs' s' -> drained s (fs ++ fs') s'.
Proof.
  intros (_ & Eu & Es & Eq & Ed) (Hw & Eu' & Es' & Eq' & Ed'). unfold drained. split; [done|].
  split; [congruence|]. split; [congruence|]. split.
  - rewrite Eq', Eq, take_take_app, <- app_assoc. done.
  - rewrite Ed'. rewrite !len_app_gen in *. unfold u32 in *.
    rewrite <- Zminus_mod_idemp_l, <- Zplus_mod_idemp_l, Ed, Zplus_mod_idemp_l, Zminus_mod_idemp_l. f_equal. lia.
Qed.

Lemma drain_loop_spec fuel : forall s m, rx_wf s m -> fifo_wf s -> m <= Z.of_nat fuel ->
  let s' := drain_loop fuel s in
  rx_wf s' 0 /\ g_rx_sw s' = (g_rx_sw s + m) mod 32 /\ drained s (good_frames (completed s m)) s'.
Proof.
  induction fuel as [|fuel IH]; intros s m Hr Hw Hf; cbn zeta.
  - pose proof Hr as (_ & Hsw & Hm & _). assert (m = 0) as -> by lia. cbn [drain_loop]. split; [done|].
    split; [rewrite Z.add_0_r, Z.mod_small by lia; done|]. by apply drained_nil.
  - pose proof Hr as (Hl & Hsw & Hm & Hd). cbn [drain_loop].
    pose proof (Hd 0 ltac:(lia)) as H0. rewrite <- rx_at_window in H0 by done. rewrite H0.
    destruct (Z.ltb_spec 0 m) as [Hpos|].
    + destruct (drain_one_fifo s Hw) as (Hw1 & Hu1 & Hs1 & Hq1 & Hd1).
      destruct (IH (drain_one s) (m - 1) (drain_one_wf s m Hr Hpos) Hw1 ltac:(lia)) as (Hr' & Hsw' & Hdr).
      split; [exact Hr'|]. split.
      * rewrite Hsw'. assert (g_rx_sw (drain_one s) = (g_rx_sw s + 1) mod 32) as ->.
        { unfold drain_one. destruct (rx_good (rx_at s)) as [f|]; [|done].
          pose proof (rx_fifo_push_frame s f) as (_ & _ & E & _). cbn [g_rx_sw with_rx]. by rewrite E. }
        rewrite Zplus_mod_idemp_l. f_equal. lia.
      * rewrite (completed_pop s m) by done. change (rx_at s :: ?l) with ([rx_at s] ++ l).
        unfold good_frames. rewrite omap_app. eapply drained_app; [|exact Hdr].
        unfold drained. split; [done|]. split; [done|]. split; [done|]. by split.
    + assert (m = 0) as -> by lia. split; [done|]. split; [rewrite Z.add_0_r, Z.mod_small by lia; done|].
      by apply drained_nil.
Qed.

(** ** Device and driver together *)
Inductive nic_event :=
| Arrive (d : rx_desc)
| Poll
| Receive (cap : Z) (got : list Z).

(** [Arrive]: the device completes the descriptor at its head, unless the head
    has reached the tail register. *)
Inductive nic_step : nic * Z -> nic_event -> nic * Z -> Prop :=
| step_arrive s m d : is_done d = true -> (g_rx_sw s + m) mod 32 <> reg_rdt s ->
    nic_step (s, m) (Arrive d)
      (with_rx s (<[Z.to_nat ((g_rx_sw s + m) mod 32) := d]> (g_rxring s)) (g_rx_sw s) (reg_rdt s), m + 1)
| step_poll s m : nic_step (s, m) Poll (nic_poll s, 0)
| step_receive s m cap : nic_step (s, m) (Receive cap (snd (nic_rx s cap))) (fst (nic_rx s cap), m).

(** The frame a completed descriptor stands for: its first [rx_length] bytes, when it
    ends a packet (bit 1 of the status) and is no longer than an Ethernet frame. *)
Definition whole_frame (d : rx_desc) : option (list Z) :=
  if Z.testbit (rx_status d) 1 && (rx_length d <=? 1518) then Some (take (Z.to_nat (rx_length d)) (rx_buf d)) else None.
Definition whole_frames (ds : list rx_desc) : list (list Z) := omap whole_frame ds.
Lemma rx_good_whole d : rx_good d = whole_frame d.
Proof.
  unfold rx_good, whole_frame, RXFRAME. assert (negb (Z.land (rx_status d) RX_EOP =? 0) = Z.testbit (rx_status d) 1) as ->
    by (change RX_EOP with (Z.shiftl 1 1); by apply land_bit).
  rewrite andb_comm. destruct (Z.testbit _ _); cbn [andb]; [|done].
  destruct (Z.ltb_spec 2048 (rx_length d)), (Z.leb_spec (rx_length d) 1518); try done; lia.
Qed.
Lemma good_frames_whole ds : good_frames ds = whole_frames ds.
Proof. unfold good_frames, whole_frames. induction ds as [|d ds IH]; [done|]. cbn. by rewrite rx_good_whole, IH. Qed.

(** The frames in the ring, the frames in the FIFO and the drop counter. *)
Definition nic_abs (c : nic * Z) : list (list Z) * list (list Z) * Z :=
  (whole_frames (completed (fst c) (snd c)), queued (fst c), u32 (g_rx_drop (fst c))).

Inductive queues_step : list (list Z) * list (list Z) * Z -> nic_event -> list (list Z) * list (list Z) * Z -> Prop :=
| queues_arrive r q n d : queues_step (r, q, n) (Arrive d) (r ++ whole_frames [d], q, n)
| queues_poll r q n : queues_step (r, q, n) Poll
    ([], take 63 (q ++ r), u32 (n + len (drop 63 (q ++ r))))
| queues_none r n cap : queues_step (r, [], n) (Receive cap []) (r, [], n)
| queues_receive r f q n cap :
    queues_step (r, f :: q, n) (Receive cap (take (Z.to_nat (Z.min cap (len f))) f)) (r, q, n).

Definition nic_inv (c : nic * Z) : Prop :=
  g_up (fst c) = true /\ fifo_wf (fst c) /\ rx_wf (fst c) (snd c) /\
  reg_rdt (fst c) = (g_rx_sw (fst c) + 31) mod 32.

Lemma nic_init_inv : nic_inv (nic_init, 0).
Proof.
  split; [done|]. split; [split; [reflexivity|split; cbn; lia]|]. split; [|reflexivity].
  cbn [fst snd]. split; [reflexivity|]. change (g_rx_sw nic_init) with 0. split; [lia|]. split; [lia|]. intros k Hk.
  pose proof (Z.mod_pos_bound (0 + k) 32 ltac:(lia)).
  cbn [g_rxring nic_init]. rewrite nth_lookup, lookup_replicate_2 by lia.
  transitivity false; [reflexivity|symmetry; apply Z.ltb_ge; lia].
Qed.

Lemma arrive_wf s m d : rx_wf s m -> is_done d = true -> m < 31 ->
  let s' := with_rx s (<[Z.to_nat ((g_rx_sw s + m) mod 32) := d]> (g_rxring s)) (g_rx_sw s) (reg_rdt s) in
  rx_wf s' (m + 1) /\ completed s' (m + 1) = completed s m ++ [d].
Proof.
  intros (Hl & Hsw & Hm & Hd) Hdd Hlt. cbn zeta. assert (len (g_rxring s) = 32) as HL by (unfold len; lia).
  split.
  - unfold rx_wf. cbn -[Z.modulo nth]. split; [by rewrite length_insert|]. split; [done|]. split; [lia|].
    intros k Hk. rewrite nth_lookup. pose proof (Z.mod_pos_bound (g_rx_sw s + m) 32 ltac:(lia)).
    pose proof (Z.mod_pos_bound (g_rx_sw s + k) 32 ltac:(lia)).
    destruct (Z.eq_dec k m) as [->|Hne].
    + rewrite list_lookup_insert_eq by lia. transitivity (is_done d); [reflexivity|]. rewrite Hdd. symmetry. apply Z.ltb_lt. lia.
    + rewrite list_lookup_insert_ne.
      2: { intros E. destruct (Z.lt_ge_cases k m) as [|].
           - apply (mod_window_ne 32 (g_rx_sw s) k m); lia.
           - apply (mod_window_ne 32 (g_rx_sw s) m k); lia. }
      rewrite <- nth_lookup, Hd by lia.
      destruct (Z.ltb_spec k m), (Z.ltb_spec k (m + 1)); done || lia.
  - unfold completed. cbn [g_rxring g_rx_sw with_rx]. rewrite <- HL. apply ring_push. lia.
Qed.

(** [C40] The receive path of the e1000 driver is two queues in a row. A descriptor the
    device completes stands for a frame when it ends a packet and holds at most 1518
    bytes; the others are given back and not counted. Those frames leave [nic_rx] in the
    order in which the device completed their descriptors, whole, or cut to the caller's
    buffer; one is lost only when the FIFO holds 63 others, and [g_rx_drop] counts
    exactly those, modulo 2^32; every descriptor is given back to the device. The device
    completes descriptors in order and stops at the tail register. *)
Theorem nic_refines_queues c ev c' : nic_inv c -> nic_step c ev c' ->
  nic_inv c' /\ queues_step (nic_abs c) ev (nic_abs c').
Proof.
  intros (Hu & Hw & Hr & Ht) Hs. destruct Hs as [s m d Hd Hne|s m|s m cap]; cbn [fst snd] in *.
  - pose proof Hr as (_ & Hsw & Hm & _).
    assert (m < 31) as Hlt by (destruct (Z.eq_dec m 31) as [->|]; [congruence|lia]).
    destruct (arrive_wf s m d Hr Hd Hlt) as (Hr' & Hc). split; [by split|].
    unfold nic_abs. cbn [fst snd]. rewrite Hc. unfold whole_frames at 2. rewrite omap_app. constructor.
  - unfold nic_poll, rx_drain. rewrite Hu. cbn [negb].
    destruct (drain_loop_spec 32 s m Hr Hw ltac:(destruct Hr as (_ & _ & ? & _); lia)) as (Hr' & Hsw & Hw' & Hu' & Hs' & Hq & Hd).
    set (s' := drain_loop 32 s) in *. clearbody s'. split.
    + split; [cbn; congruence|]. split; [exact Hw'|]. split; [exact Hr'|]. cbn -[Z.modulo]. f_equal. unfold NUM_RX. lia.
    + unfold nic_abs. cbn [fst snd]. change (queued (with_rx s' _ _ _)) with (queued s'). rewrite !good_frames_whole in *.
      cbn [g_rx_drop with_rx]. rewrite Hq, Hd, Hq. change (whole_frames (completed (with_rx _ _ _ _) 0)) with (@nil (list Z)).
      replace (u32 (g_rx_drop s + _ - _))
        with (u32 (u32 (g_rx_drop s) + len (drop 63 (queued s ++ whole_frames (completed s m))))); [constructor|].
      unfold u32. rewrite Zplus_mod_idemp_l. f_equal. unfold len. rewrite length_drop, length_take. lia.
  - pose proof (nic_rx_spec s cap Hw) as Hx. unfold nic_abs. cbn [fst snd].
    destruct (queued s) as [|f q] eqn:Eq.
    + rewrite Hx. cbn [fst snd]. rewrite Eq. split; [by split|]. constructor.
    + destruct Hx as (-> & -> & Hw'). 
      assert (g_up (fst (nic_rx s cap)) = g_up s /\ g_rxring (fst (nic_rx s cap)) = g_rxring s /\
        g_rx_sw (fst (nic_rx s cap)) = g_rx_sw s /\ reg_rdt (fst (nic_rx s cap)) = reg_rdt s /\
        g_rx_drop (fst (nic_rx s cap)) = g_rx_drop s) as (E1 & E2 & E3 & E4 & E5)
        by (unfold nic_rx, rx_fifo_pop; by destruct (_ =? _)).
      unfold completed, nic_inv, rx_wf. cbn [fst snd]. rewrite E1, E2, E3, E4, E5.
      split; [by split|]. constructor.
Qed.

Definition demo_rx : rx_desc := RxDesc 3 3 [1; 2; 3].

(** The frame arrives, and is the one frame of the ring. *)
Lemma nic_refines_queues_witness :
  let c := (with_rx nic_init (<[0%nat := demo_rx]> (g_rxring nic_init)) 0 31, 1) in
  nic_inv c /\ queues_step (nic_abs (nic_init, 0)) (Arrive demo_rx) (nic_abs c) /\ nic_abs c = ([[1; 2; 3]], [], 0).
Proof.
  cbv zeta. destruct (nic_refines_queues (nic_init, 0) (Arrive demo_rx)
    (with_rx nic_init (<[0%nat := demo_rx]> (g_rxring nic_init)) 0 31, 1)) as [Hi Hq].
  - exact nic_init_inv.
  - apply (step_arrive nic_init 0 demo_rx); [reflexivity|discriminate].
  - split; [exact Hi|]. split; [exact Hq|]. vm_compute. reflexivity.
Defined.

(** ** Sending *)
Lemma nic_send_spec b s f :
  (snd (nic_send b s f) = 0 /\ g_up s = true /\ len f <= 1518 /\ sent (fst (nic_send b s f)) = sent s ++ [f])
  \/ (nic_send b s f = (s, -1)).
Proof.
  unfold nic_send. destruct (g_up s) eqn:Eu; cbn [negb orb]; [|by right].
  destruct (1518 <? len f) eqn:E; [by right|]. zbool. destruct (_ && _); [by right|]. left. by repeat split.
Qed.

Lemma nic_send_ok s f : g_up s = true -> len f <= 1518 ->
  snd (nic_send true s f) = 0 /\ sent (fst (nic_send true s f)) = sent s ++ [f].
Proof.
  intros Hu Hl. unfold nic_send. rewrite Hu. cbn [negb orb]. rewrite (proj2 (Z.ltb_ge 1518 (len f))) by lia.
  rewrite andb_false_r. by split.
Qed.

Lemma nic_send_rx b s f : nic_abs (fst (nic_send b s f), 0) = nic_abs (s, 0) /\
  g_up (fst (nic_send b s f)) = g_up s.
Proof. unfold nic_send. destruct (_ || _); [done|]. by destruct (_ && _). Qed.
