(* ===== verification/Ipv6.v ===== *)
(** * IPv6 (kernel/net/ipv6.c)

    The neighbour cache, building and sending ICMPv6 messages, what the host
    does with the messages it receives, and stateless address configuration.
    Addresses are the 16 bytes of the packet. A received packet is a pointer
    into a larger buffer: the list is the memory from the pointer on, the length
    is passed beside it, and reads behind the length see what the buffer holds
    there. *)
From Stdlib Require Import ZArith Lia Bool.
From stdpp Require Import base list numbers option.
From S2P Require Import Prelude Tcp Nic.
#[local] Set Default Goal Selector "!".
Open Scope Z_scope.

Definition ICMP6_ECHO_REQUEST : Z := 128.
Definition ICMP6_ECHO_REPLY : Z := 129.
Definition ICMP6_RS : Z := 133.
Definition ICMP6_RA : Z := 134.
Definition ICMP6_NS : Z := 135.
Definition ICMP6_NA : Z := 136.
Definition ND6_CACHE : Z := 8.

Definition zeros (n : nat) : list Z := replicate n 0.
Definition IP6_ALL_NODES : list Z := [255; 2; 0; 0; 0; 0; 0; 0; 0; 0; 0; 0; 0; 0; 0; 1].
Definition IP6_ALL_ROUTERS : list Z := [255; 2; 0; 0; 0; 0; 0; 0; 0; 0; 0; 0; 0; 0; 0; 2].

Record nd6_ent := Nd6Ent { nd_ip : list Z; nd_mac : list Z; nd_valid : bool }.
Definition no_nd6 : nd6_ent := Nd6Ent (zeros 16) (zeros 6) false.

Record ip6 := Ip6 {
  g_ip6 : list Z; g_ip6_gw : list Z; g_ip6_ok : bool; g_mac6 : list Z;
  g_icmp6_id : Z; g_icmp6_seq : Z; g_ping6_hit : bool;
  g_nd6 : list nd6_ent;
  v6_rs_n : Z; v6_gave_up : bool; v6_last_rs : Z }.

Definition with_addr (s : ip6) (a gw : list Z) (ok : bool) : ip6 :=
  Ip6 a gw ok (g_mac6 s) (g_icmp6_id s) (g_icmp6_seq s) (g_ping6_hit s) (g_nd6 s)
    (v6_rs_n s) (v6_gave_up s) (v6_last_rs s).
Definition with_ping6 (s : ip6) (id seq : Z) (hit : bool) : ip6 :=
  Ip6 (g_ip6 s) (g_ip6_gw s) (g_ip6_ok s) (g_mac6 s) id seq hit (g_nd6 s)
    (v6_rs_n s) (v6_gave_up s) (v6_last_rs s).
Definition with_nd6 (s : ip6) (c : list nd6_ent) : ip6 :=
  Ip6 (g_ip6 s) (g_ip6_gw s) (g_ip6_ok s) (g_mac6 s) (g_icmp6_id s) (g_icmp6_seq s) (g_ping6_hit s) c
    (v6_rs_n s) (v6_gave_up s) (v6_last_rs s).
Definition with_rs (s : ip6) (n : Z) (gave_up : bool) (last : Z) : ip6 :=
  Ip6 (g_ip6 s) (g_ip6_gw s) (g_ip6_ok s) (g_mac6 s) (g_icmp6_id s) (g_icmp6_seq s) (g_ping6_hit s)
    (g_nd6 s) n gave_up last.

(** ** Addresses *)
Definition ip6_is_zero (a : list Z) : bool := forallb (fun b => b =? 0) a.
Definition ip6_eq (a b : list Z) : bool := bool_decide (a = b).
Definition ip6_is_multicast (a : list Z) : bool := a.[0] =? 255.

Definition ip6_iid_from_mac (mac : list Z) : list Z :=
  [Z.lxor (mac.[0]) 2; mac.[1]; mac.[2]; 255; 254; mac.[3]; mac.[4]; mac.[5]].

Definition ip6_linklocal (s : ip6) : list Z := [254; 128] ++ zeros 6 ++ ip6_iid_from_mac (g_mac6 s).

Definition ip6_solicited_node (a : list Z) : list Z :=
  [255; 2] ++ zeros 9 ++ [1; 255; a.[13]; a.[14]; a.[15]].

Definition ip6_mcast_mac (a : list Z) : list Z := [51; 51; a.[12]; a.[13]; a.[14]; a.[15]].

(** ** The neighbour cache *)
Fixpoint nd6_find (c : list nd6_ent) (ip : list Z) (i : Z) : option Z :=
  match c with
  | [] => None
  | n :: r => if nd_valid n && ip6_eq (nd_ip n) ip then Some i else nd6_find r ip (i + 1)
  end.

Definition nd6_at (s : ip6) (i : Z) : nd6_ent := nth (Z.to_nat i) (g_nd6 s) no_nd6.
Definition nd6_lookup (s : ip6) (ip : list Z) : option (list Z) :=
  match nd6_find (g_nd6 s) ip 0 with Some i => Some (nd_mac (nd6_at s i)) | None => None end.

Fixpoint nd6_free (c : list nd6_ent) (i : Z) : option Z :=
  match c with
  | [] => None
  | n :: r => if negb (nd_valid n) then Some i else nd6_free r (i + 1)
  end.

Definition nd6_store (s : ip6) (ip mac : list Z) : ip6 :=
  match nd6_find (g_nd6 s) ip 0 with
  | Some i => with_nd6 s (<[Z.to_nat i := Nd6Ent (nd_ip (nd6_at s i)) mac true]> (g_nd6 s))
  | None =>
    match nd6_free (g_nd6 s) 0 with
    | Some i => with_nd6 s (<[Z.to_nat i := Nd6Ent ip mac true]> (g_nd6 s))
    | None => s
    end
  end.

(** ** Sending *)
Definition ip6_header (src dst : list Z) (proto plen : Z) : list Z :=
  [96; 0; 0; 0] ++ be16_bytes plen ++ [proto; 64] ++ src ++ dst.

(** What [net_ipv6_deliver] is to the functions it is built from. *)
Definition deliver6 : Type := ip6 -> nic -> list Z -> Z -> res (ip6 * nic).

(** The frame buffers hold 1500 bytes of payload. A packet to ourselves that no
    cache entry claims is delivered on the spot. *)
Definition ip6_send (deliver : deliver6) (e : nenv) (s : ip6) (n : nic) (dst : list Z) (proto : Z)
    (payload : list Z) : res (ip6 * nic * Z) :=
  let plen := len payload in
  let frame mac :=
    if 1500 <? plen then Oob
    else
      let f := mac ++ g_mac6 s ++ [134; 221] ++ ip6_header (g_ip6 s) dst proto plen ++ payload in
      let r := nic_send (tx_done e) n f in
      Ok (s, fst r, snd r) in
  if ip6_is_multicast dst then frame (ip6_mcast_mac dst)
  else
    match nd6_lookup s dst with
    | Some mac => frame mac
    | None =>
      if ip6_eq dst (g_ip6 s) then
        if 1500 <? plen then Oob
        else
          let h := ip6_header (g_ip6 s) dst proto plen ++ payload in
          let* r := deliver s n (h ++ zeros (1540 - length h)) (u16 (40 + plen)) in
          Ok (fst r, snd r, 0)
      else frame (ip6_mcast_mac dst)
    end.

Definition icmp6_pseudo (src dst : list Z) (total : Z) : list Z :=
  src ++ dst ++ zeros 4 ++ be16_bytes total ++ [0; 58].

(** The message buffer has room for 312 bytes after the header. *)
Definition icmp6_message (s : ip6) (dst : list Z) (kind code : Z) (param data : list Z) : list Z :=
  let total := u16 (8 + len data) in
  let chk := net_csum (icmp6_pseudo (g_ip6 s) dst total ++ [kind; code; 0; 0] ++ param ++ data) in
  [kind; code] ++ be16_bytes chk ++ param ++ data.

Definition icmp6_send (deliver : deliver6) (e : nenv) (s : ip6) (n : nic) (dst : list Z) (kind code : Z)
    (param data : list Z) : res (ip6 * nic * Z) :=
  if 312 <? len data then Oob
  else ip6_send deliver e s n dst 58 (icmp6_message s dst kind code param data).

(** ** Router advertisements *)
(** The options: whether the one at [opt] configures the address, and the
    offset of the next. *)
Definition prefix_option (m : list Z) (opt : Z) : bool :=
  (m.[opt] =? 3) && (4 <=? m.[opt + 1]) && (m.[opt + 2] =? 64) && negb (Z.land (m.[opt + 3]) 64 =? 0).

(** One round per option; an option of length 0 is met again and again. *)
Fixpoint ra_options (fuel : nat) (s : ip6) (m : list Z) (mlen : Z) (src : list Z) (opt : Z) : res ip6 :=
  if opt + 4 <=? mlen then
    match fuel with
    | O => Starved
    | S fuel =>
      if prefix_option m opt then
        let* p := rd_bytes m (opt + 16) 8 in
        Ok (with_addr s (p ++ ip6_iid_from_mac (g_mac6 s)) src true)
      else ra_options fuel s m mlen src (u16 (opt + u16 (m.[opt + 1] * 8)))
    end
  else Ok s.

(** Every option takes at least 8 of at most 65535 bytes. *)
Definition ra_fuel : nat := Z.to_nat 8192.

Definition ra_handle (s : ip6) (m : list Z) (mlen : Z) (src : list Z) : res ip6 :=
  let s := if (24 <=? mlen) && (m.[16] =? 1) && (m.[17] =? 1) then nd6_store s src (slice m 18 6) else s in
  if g_ip6_ok s then Ok s else ra_options ra_fuel s m mlen src 16.

(** ** Inbound *)
Definition icmp6_handle (deliver : deliver6) (e : nenv) (s : ip6) (n : nic) (m : list Z) (mlen : Z)
    (src : list Z) : res (ip6 * nic) :=
  if mlen <? 8 then Ok (s, n)
  else
    let kind := m.[0] in
    if kind =? ICMP6_ECHO_REQUEST then
      let blen := if 8 <? mlen then mlen - 8 else 0 in
      let blen := if 56 <? blen then 56 else blen in
      let* r := icmp6_send deliver e s n src ICMP6_ECHO_REPLY 0 (slice m 4 4) (slice m 8 blen) in
      Ok (fst (fst r), snd (fst r))
    else if kind =? ICMP6_ECHO_REPLY then
      if (m.[4] =? u8 (Z.shiftr (g_icmp6_id s) 8)) && (m.[5] =? Z.land (g_icmp6_id s) 255)
         && (m.[6] =? u8 (Z.shiftr (g_icmp6_seq s) 8)) && (m.[7] =? Z.land (g_icmp6_seq s) 255)
      then Ok (with_ping6 s (g_icmp6_id s) (g_icmp6_seq s) true, n)
      else Ok (s, n)
    else if kind =? ICMP6_RA then
      let* s := ra_handle s m mlen src in Ok (s, n)
    else if kind =? ICMP6_NA then
      if 32 <=? mlen then Ok (nd6_store s src (slice m 26 6), n) else Ok (s, n)
    else if kind =? ICMP6_NS then
      if g_ip6_ok s && (24 <=? mlen) && (memcmp (slice m 8 16) (g_ip6 s) =? 0) then
        let* r := icmp6_send deliver e s n src ICMP6_NA 0 [32; 0; 0; 0]
                    (g_ip6 s ++ [2; 1] ++ g_mac6 s) in
        Ok (fst (fst r), snd (fst r))
      else Ok (s, n)
    else Ok (s, n).

(** The payload's length: the header's, cut to what arrived. *)
Definition ip6_plen (h : list Z) (hlen : Z) : Z :=
  let plen := u16 (Z.lor (Z.shiftl (h.[4]) 8) (h.[5])) in
  if hlen <? 40 + plen then u16 (hlen - 40) else plen.

(** Delivering can send, and sending to ourselves delivers: [fuel] bounds the
    nesting, and two levels are enough. *)
Fixpoint net_ipv6_deliver (fuel : nat) (e : nenv) (s : ip6) (n : nic) (h : list Z) (hlen : Z)
    : res (ip6 * nic) :=
  match fuel with
  | O => Starved
  | S fuel =>
    if hlen <? 40 then Ok (s, n)
    else if negb (Z.shiftr (h.[0]) 4 =? 6) then Ok (s, n)
    else
      let src := slice h 8 16 in
      let dst := slice h 24 16 in
      let mine := (g_ip6_ok s && ip6_eq dst (g_ip6 s)) || ip6_eq dst IP6_ALL_NODES || ip6_is_multicast dst in
      if negb mine && negb (ip6_eq dst (g_ip6 s)) then Ok (s, n)
      else if h.[6] =? 58 then icmp6_handle (net_ipv6_deliver fuel e) e s n (drop 40 h) (ip6_plen h hlen) src
      else Ok (s, n)
  end.

(** ** The public operations *)
Definition ndp_send_rs (e : nenv) (s : ip6) (n : nic) : res (ip6 * nic) :=
  let zero := with_addr s (zeros 16) (g_ip6_gw s) true in
  let* r := icmp6_send (net_ipv6_deliver 2 e) e zero n IP6_ALL_ROUTERS ICMP6_RS 0 [0; 0; 0; 0] [] in
  Ok (with_addr (fst (fst r)) (g_ip6 s) (g_ip6_gw (fst (fst r))) (g_ip6_ok s), snd (fst r)).

Definition net_ipv6_poll (e : nenv) (s : ip6) (n : nic) : res (ip6 * nic) :=
  if v6_gave_up s || g_ip6_ok s then Ok (s, n)
  else if negb (v6_last_rs s =? 0) && (u64 (ticks e - v6_last_rs s) <? MS_TO_TICKS 1000) then Ok (s, n)
  else
    let s := with_rs s (v6_rs_n s) (v6_gave_up s) (ticks e) in
    if v6_rs_n s <? 3 then
      let* r := ndp_send_rs e s n in
      Ok (with_rs (fst r) (v6_rs_n (fst r) + 1) (v6_gave_up (fst r)) (v6_last_rs (fst r)), snd r)
    else Ok (with_rs s (v6_rs_n s) true (v6_last_rs s), n).

(** [net_icmp6_ping] up to its waiting loop: the echo request. *)
Definition net_icmp6_ping_begin (e : nenv) (s : ip6) (n : nic) (a : list Z) : res (ip6 * nic * Z) :=
  if negb (g_ip6_ok s) && negb (ip6_eq a (g_ip6 s)) && ip6_is_zero a then Ok (s, n, -1)
  else
    let s := with_ping6 s (u16 (Z.lxor (ticks e) (u16 (mac6_at e)))) (u16 (g_icmp6_seq s + 1)) false in
    let body := (fun i => 64 + i) <$> seqZ 0 32 in
    let p := [u8 (Z.shiftr (g_icmp6_id s) 8); Z.land (g_icmp6_id s) 255;
              u8 (Z.shiftr (g_icmp6_seq s) 8); Z.land (g_icmp6_seq s) 255] in
    let* r := icmp6_send (net_ipv6_deliver 2 e) e s n a ICMP6_ECHO_REQUEST 0 p body in
    Ok (fst (fst r), snd (fst r), if snd r =? 0 then 0 else -1).

Definition net_ipv6_ready (s : ip6) : bool := g_ip6_ok s.
Definition net_ipv6_addrs (s : ip6) : list Z * list Z := (g_ip6 s, g_ip6_gw s).

(** The neighbour cache keeps what it has. *)
Definition net_ipv6_init (s : ip6) (mac : list Z) : ip6 :=
  Ip6 (zeros 16) (zeros 16) false mac 0 0 false (g_nd6 s) 0 false 0.

(** Static initialization. *)
Definition ip6_boot : ip6 := Ip6 (zeros 16) (zeros 16) false (zeros 6) 0 0 false (replicate 8 no_nd6) 0 false 0.

(** * The checksum *)

Lemma length_zeros n : length (zeros n) = n.
Proof. apply length_replicate. Qed.
Lemma bytes_zeros n : bytes (zeros n).
Proof. by apply bytes_replicate. Qed.
#[export] Hint Resolve bytes_zeros : bytes.

Lemma bytes_cons x l : byte x -> bytes l -> bytes (x :: l).
Proof. by constructor. Qed.
Lemma bytes_nil : bytes [].
Proof. constructor. Qed.
#[export] Hint Resolve bytes_cons bytes_nil bytes_be16 : bytes.
#[export] Hint Extern 2 (byte (Zpos _)) => (unfold byte; lia) : bytes.
#[export] Hint Extern 2 (byte 0) => (unfold byte; lia) : bytes.

(** A message carries the checksum that makes the sum over it and its
    pseudo-header vanish. *)
Lemma icmp6_message_checksum s dst kind code param data :
  bytes (g_ip6 s) -> bytes dst -> length (g_ip6 s) = 16%nat -> length dst = 16%nat ->
  byte kind -> byte code -> bytes param -> bytes data -> length param = 4%nat -> len data <= 312 ->
  net_csum (icmp6_pseudo (g_ip6 s) dst (len (icmp6_message s dst kind code param data))
            ++ icmp6_message s dst kind code param data) = 0.
Proof.
  intros Hs Hd Ls Ld Hk Hc Hp Hb Lp Hl. pose proof (len_nonneg data).
  assert (u16 (8 + len data) = 8 + len data) as Eu by (apply u16_small; lia).
  assert (len (icmp6_message s dst kind code param data) = 8 + len data) as ->.
  { unfold icmp6_message, len. rewrite !length_app, Lp. simpl. lia. }
  unfold icmp6_message. rewrite Eu.
  set (ph := icmp6_pseudo (g_ip6 s) dst (8 + len data)).
  assert (bytes ph) as Hph by (unfold ph, icmp6_pseudo; auto 10 with bytes).
  assert (length ph = 40%nat) as Lph by (unfold ph, icmp6_pseudo; rewrite !length_app, length_zeros, Ls, Ld; reflexivity).
  replace (ph ++ [kind; code; 0; 0] ++ param ++ data) with ((ph ++ [kind; code]) ++ [0; 0] ++ (param ++ data))
    by (rewrite <- !app_assoc; reflexivity).
  rewrite (app_assoc ph [kind; code]).
  apply net_csum_verify; [auto with bytes|auto with bytes|]. rewrite length_app, Lph. reflexivity.
Qed.

(** * Delivery is finite *)

Definition settled {A} (x : res A) : Prop := x <> Starved.

Create HintDb settled.
Lemma settled_bind {A B} (x : res A) (f : A -> res B) : settled x -> (forall a, settled (f a)) -> settled (rbind x f).
Proof. unfold settled. destruct x; cbn; auto. Qed.
Lemma settled_Ok {A} (a : A) : settled (Ok a).
Proof. done. Qed.
Lemma settled_Oob {A} : settled (A := A) Oob.
Proof. done. Qed.
#[export] Hint Resolve settled_bind settled_Ok settled_Oob : settled.

Ltac settle := repeat first [ solve [auto with settled] | case_ifZ | apply settled_bind; [|intros ?] ].

Lemma nthZ_drop k (l : list Z) i : 0 <= i -> (drop k l).[i] = l.[Z.of_nat k + i].
Proof.
  unfold nthZ. intros. rewrite !nth_lookup, lookup_drop. f_equal. f_equal. lia.
Qed.

Lemma length_ip6_header src dst proto plen : length src = 16%nat -> length dst = 16%nat ->
  length (ip6_header src dst proto plen) = 40%nat.
Proof. intros Hs Hd. unfold ip6_header. rewrite !length_app, Hs, Hd. reflexivity. Qed.

(** What is delivered to ourselves starts, behind its header, like the payload. *)
Lemma ip6_send_settled d e s n dst proto p : length (g_ip6 s) = 16%nat -> 0 < len p ->
  (forall s n h k, h.[40] = p.[0] -> settled (d s n h k)) -> settled (ip6_send d e s n dst proto p).
Proof.
  intros Hl Hp Hd. unfold ip6_send. cbv zeta. case_ifZ; [by settle|]. destruct (nd6_lookup s dst); [by settle|].
  destruct (ip6_eq dst (g_ip6 s)) eqn:Eq; [|by settle]. case_ifZ; [done|]. apply settled_bind; [|done].
  apply bool_decide_eq_true_1 in Eq as ->. apply Hd.
  assert (len (ip6_header (g_ip6 s) (g_ip6 s) proto (len p)) = 40) as Hh
    by (unfold len; by rewrite length_ip6_header).
  rewrite nthZ_app_l by (rewrite len_app; lia). rewrite nthZ_app_r by lia. by rewrite Hh.
Qed.

Lemma icmp6_send_settled d e s n dst kind code p data : length (g_ip6 s) = 16%nat ->
  (forall s n h k, h.[40] = kind -> settled (d s n h k)) -> settled (icmp6_send d e s n dst kind code p data).
Proof.
  intros Hl Hd. unfold icmp6_send. case_ifZ; [done|]. apply ip6_send_settled; [done| |exact Hd].
  unfold icmp6_message, len. rewrite length_app. simpl. lia.
Qed.

(** ** Options of a router advertisement *)
(** Every option up to the end of the message states a length. *)
Fixpoint opts_ok (fuel : nat) (m : list Z) (mlen opt : Z) : bool :=
  if opt + 4 <=? mlen then
    match fuel with
    | O => false
    | S fuel => (1 <=? m.[opt + 1]) && opts_ok fuel m mlen (opt + m.[opt + 1] * 8)
    end
  else true.

Lemma ra_options_settled fuel : forall s m mlen src opt, bytes m -> mlen <= 60000 -> 0 <= opt ->
  opts_ok fuel m mlen opt = true -> settled (ra_options fuel s m mlen src opt).
Proof.
  induction fuel as [|fuel IH]; intros s m mlen src opt Hm Hl Ho Hok; cbn [ra_options opts_ok] in *.
  - by case_ifZ.
  - destruct (opt + 4 <=? mlen) eqn:E; [|done]. apply andb_true_iff in Hok as [H1 Hok]. zbool.
    destruct (prefix_option m opt); [unfold rd_bytes; by case_ifZ|].
    pose proof (nthZ_byte m (opt + 1) Hm) as Hb. unfold byte in Hb.
    rewrite (u16_small (m.[opt + 1] * 8)) by lia. rewrite u16_small by lia. apply IH; auto; lia.
Qed.

Lemma ra_handle_settled s m mlen src : bytes m -> mlen <= 60000 ->
  opts_ok ra_fuel m mlen 16 = true -> settled (ra_handle s m mlen src).
Proof.
  intros Hm Hl Hok. unfold ra_handle. cbv zeta. case_ifZ; case_ifZ; try done; by apply ra_options_settled.
Qed.

(** A message that neither asks nor configures is handled without sending. *)
Lemma deliver_quiet f e s n h k : h.[40] <> 128 -> h.[40] <> 134 -> h.[40] <> 135 ->
  settled (net_ipv6_deliver (S f) e s n h k).
Proof.
  intros H1 H2 H3. cbn [net_ipv6_deliver]. case_ifZ; [done|]. case_ifZ; [done|]. cbv zeta. case_ifZ; [done|].
  case_ifZ; [|done]. unfold icmp6_handle. cbv zeta. case_ifZ; [done|]. rewrite nthZ_drop by lia.
  change (Z.of_nat 40 + 0) with 40.
  rewrite (proj2 (Z.eqb_neq (h.[40]) ICMP6_ECHO_REQUEST)) by done.
  rewrite (proj2 (Z.eqb_neq (h.[40]) ICMP6_RA)) by done.
  rewrite (proj2 (Z.eqb_neq (h.[40]) ICMP6_NS)) by done. settle.
Qed.

(** Delivery ends: the answer to a message is itself never answered. The one
    exception are router advertisements with an option of length 0. *)
Lemma deliver_settled f e s n h hlen : length (g_ip6 s) = 16%nat -> bytes h -> hlen <= 60000 ->
  (h.[40] = 134 -> opts_ok ra_fuel (drop 40 h) (ip6_plen h hlen) 16 = true) ->
  settled (net_ipv6_deliver (S (S f)) e s n h hlen).
Proof.
  intros Hl Hh Hle Hra.
  assert (forall k s n h j, h.[40] = k -> k = 129 \/ k = 136 -> settled (net_ipv6_deliver (S f) e s n h j)) as Hq.
  { intros k s' n' h' j E Hk. apply deliver_quiet; rewrite E; lia. }
  remember (S f) as g eqn:Eg. cbn [net_ipv6_deliver]. case_ifZ; [done|]. case_ifZ; [done|]. cbv zeta.
  case_ifZ; [done|]. case_ifZ; [|done]. unfold icmp6_handle. cbv zeta. case_ifZ; [done|].
  rewrite nthZ_drop by lia. change (Z.of_nat 40 + 0) with 40.
  destruct (h.[40] =? ICMP6_ECHO_REQUEST); [apply settled_bind; [|done]; apply icmp6_send_settled; eauto|].
  destruct (h.[40] =? ICMP6_ECHO_REPLY); [by settle|].
  destruct (h.[40] =? ICMP6_RA) eqn:Era; zbool.
  - apply settled_bind; [|done]. apply ra_handle_settled; [by apply bytes_drop| |by apply Hra].
    unfold ip6_plen. pose proof (u16_range (hlen - 40)). case_ifZ; [|lia]. rewrite u16_small; lia.
  - destruct (h.[40] =? ICMP6_NA); [by settle|]. destruct (h.[40] =? ICMP6_NS); [|done].
    case_ifZ; [|done]. apply settled_bind; [|done]. apply icmp6_send_settled; eauto.
Qed.

(** ** Malformed advertisements *)
Lemma ra_options_stuck fuel : forall s m mlen src opt, 0 <= opt < 65536 -> opt + 4 <= mlen ->
  m.[opt + 1] = 0 -> ra_options fuel s m mlen src opt = Starved.
Proof.
  induction fuel as [|fuel IH]; intros s m mlen src opt Ho Hl H0; cbn [ra_options].
  - by rewrite (proj2 (Z.leb_le (opt + 4) mlen)).
  - rewrite (proj2 (Z.leb_le (opt + 4) mlen)) by done. unfold prefix_option. rewrite H0.
    rewrite andb_false_r. cbn [andb]. rewrite Z.mul_0_l, (u16_small 0), Z.add_0_r, u16_small by lia. by apply IH.
Qed.

(** A router advertisement to all nodes whose first option states length 0 makes
    a host without an address spin in the option loop: no number of rounds is
    enough, so the receive path never returns. *)
Theorem ra_zero_option_loops fuel e s n h hlen :
  g_ip6_ok s = false -> 40 <= hlen -> Z.shiftr (h.[0]) 4 = 6 -> h.[24] = 255 -> 24 < len h ->
  h.[6] = 58 -> h.[40] = ICMP6_RA -> 20 <= ip6_plen h hlen -> h.[57] = 0 ->
  (forall rounds src, ra_options rounds s (drop 40 h) (ip6_plen h hlen) src 16 = Starved) /\
  net_ipv6_deliver (S fuel) e s n h hlen = Starved.
Proof.
  intros Hok Hl H6 Hm Hh Hp Hk Hpl H0.
  assert (forall rounds s src, ra_options rounds s (drop 40 h) (ip6_plen h hlen) src 16 = Starved) as Hst.
  { intros. apply ra_options_stuck; [lia|lia|]. rewrite nthZ_drop by lia. exact H0. }
  split; [by intros; apply Hst|]. cbn [net_ipv6_deliver].
  rewrite (proj2 (Z.ltb_ge hlen 40)) by lia. rewrite H6. cbv zeta. cbn [Z.eqb Pos.eqb negb].
  assert (ip6_is_multicast (slice h 24 16) = true) as ->.
  { unfold ip6_is_multicast, slice, len in *. apply Z.eqb_eq. rewrite <- Hm. unfold nthZ. rewrite !nth_lookup.
    rewrite lookup_take_lt by lia. by rewrite lookup_drop. }
  rewrite orb_true_r. cbn [negb andb]. rewrite Hp. cbn [Z.eqb Pos.eqb]. unfold icmp6_handle. cbv zeta.
  rewrite (proj2 (Z.ltb_ge (ip6_plen h hlen) 8)) by lia. rewrite nthZ_drop by lia. change (Z.of_nat 40 + 0) with 40.
  rewrite Hk. cbn [Z.eqb Pos.eqb ICMP6_RA ICMP6_ECHO_REQUEST ICMP6_ECHO_REPLY].
  assert (forall s' src, g_ip6_ok s' = false -> ra_handle s' (drop 40 h) (ip6_plen h hlen) src = Starved) as Hr.
  { intros s' src Hs'. unfold ra_handle. cbv zeta. destruct (_ && _); [|by rewrite Hs'].
    assert (g_ip6_ok (nd6_store s' src (slice (drop 40 h) 18 6)) = false) as ->; [|apply Hst].
    unfold nd6_store. destruct (nd6_find _ _ _); [done|]. by destruct (nd6_free _ _). }
  by rewrite (Hr s).
Qed.

Definition demo_mac : list Z := [82; 84; 0; 18; 52; 86].
Definition demo_router : list Z := [254; 128] ++ zeros 13 ++ [1].
Definition demo_env : nenv := Nenv 1000 7 99 4096 8192 true.
Definition demo_ra : list Z :=
  ip6_header demo_router IP6_ALL_NODES 58 24 ++ ([134; 0; 0; 0] ++ zeros 12) ++ [5; 0; 0; 0; 0; 0; 0; 0].

Lemma ra_zero_option_loops_witness :
  net_ipv6_deliver 1 demo_env (net_ipv6_init ip6_boot demo_mac) nic_init demo_ra 64 = Starved.
Proof.
  apply (ra_zero_option_loops 0 demo_env (net_ipv6_init ip6_boot demo_mac) nic_init demo_ra 64);
    first [reflexivity | (intros E; discriminate E)].
Defined.

(** * Address configuration *)
(** An option of the wire: its type and body, whose length is a multiple of 8
    with the two header bytes. *)
Definition opt_bytes (o : Z * list Z) : list Z := [fst o; (2 + len (snd o)) / 8] ++ snd o.
Definition opt_wf (o : Z * list Z) : Prop :=
  byte (fst o) /\ bytes (snd o) /\ (2 + len (snd o)) mod 8 = 0 /\ 8 <= 2 + len (snd o) <= 2040.

(** A prefix-information option for a /64 with the autonomous flag. *)
Definition is_slaac (o : Z * list Z) : bool :=
  (fst o =? 3) && (30 <=? len (snd o)) && ((snd o).[0] =? 64) && negb (Z.land ((snd o).[1]) 64 =? 0).
Definition slaac_prefix (os : list (Z * list Z)) : option (list Z) :=
  match filter (fun o => is_slaac o = true) os with o :: _ => Some (slice (snd o) 14 8) | [] => None end.

Lemma len_opt_bytes o : len (opt_bytes o) = 2 + len (snd o).
Proof. unfold opt_bytes. rewrite len_app. reflexivity. Qed.

Lemma opt_units o : opt_wf o -> (2 + len (snd o)) / 8 * 8 = 2 + len (snd o).
Proof. intros (_ & _ & Hm & _). pose proof (Z_div_mod_eq_full (2 + len (snd o)) 8). lia. Qed.

(** Reading an option in the middle of a message. *)
Lemma prefix_option_at pre o rest : opt_wf o ->
  prefix_option (pre ++ opt_bytes o ++ rest) (len pre) = is_slaac o /\
  (pre ++ opt_bytes o ++ rest).[len pre + 1] * 8 = 2 + len (snd o).
Proof.
  intros Hw. pose proof (len_nonneg pre) as Hp. pose proof (opt_units o Hw) as Hu. destruct Hw as (_ & _ & _ & Hl).
  assert (forall i, 0 <= i < 2 + len (snd o) -> (pre ++ opt_bytes o ++ rest).[len pre + i] = (opt_bytes o).[i]) as Hr.
  { intros i Hi. rewrite nthZ_app_r by lia. replace (len pre + i - len pre) with i by lia.
    apply nthZ_app_l. rewrite len_opt_bytes. lia. }
  assert (forall i, 2 <= i -> (opt_bytes o).[i] = (snd o).[i - 2]) as Hb.
  { intros i Hi. unfold opt_bytes. rewrite nthZ_app_r by (unfold len; simpl; lia). reflexivity. }
  unfold prefix_option, is_slaac. rewrite <- (Z.add_0_r (len pre)) at 1. rewrite !Hr by lia. rewrite (Hb 2), (Hb 3) by lia.
  change ((opt_bytes o).[0]) with (fst o). change ((opt_bytes o).[1]) with ((2 + len (snd o)) / 8).
  split; [|exact Hu]. f_equal. f_equal. f_equal.
  destruct (Z.leb_spec 4 ((2 + len (snd o)) / 8)), (Z.leb_spec 30 (len (snd o))); done || lia.
Qed.

Lemma ra_options_walk os : forall fuel s pre rest src, (length os <= fuel)%nat -> Forall opt_wf os ->
  len pre + len (concat (opt_bytes <$> os)) <= 60000 -> 0 <= len pre ->
  ra_options fuel s (pre ++ concat (opt_bytes <$> os) ++ rest) (len pre + len (concat (opt_bytes <$> os))) src (len pre) =
  match slaac_prefix os with
  | Some p => Ok (with_addr s (p ++ ip6_iid_from_mac (g_mac6 s)) src true)
  | None => Ok s
  end.
Proof.
  induction os as [|o os IH]; intros fuel s pre rest src Hf Hw Hl Hp.
  - cbn [fmap list_fmap concat]. change (len (@nil Z)) with 0.
    destruct fuel; cbn [ra_options]; by rewrite (proj2 (Z.leb_gt _ _)) by lia.
  - apply Forall_cons_1 in Hw as [Ho Hw]. destruct fuel as [|fuel]; [simpl in Hf; lia|].
    cbn [fmap list_fmap concat] in *. rewrite len_app, len_opt_bytes in *. rewrite <- app_assoc.
    pose proof (len_nonneg (concat (opt_bytes <$> os))) as Hc. pose proof Ho as (_ & _ & _ & Hlo).
    destruct (prefix_option_at pre o (concat (opt_bytes <$> os) ++ rest) Ho) as [E1 E2].
    cbn [ra_options]. case_ifZ; [|lia]. rewrite E1, E2. unfold slaac_prefix.
    rewrite filter_cons. destruct (decide (is_slaac o = true)) as [Ey|En].
    + rewrite Ey. unfold is_slaac in Ey. zbool. unfold rd_bytes. rewrite (proj2 (Z.leb_le 0 (len pre + 16))) by lia.
      rewrite (proj2 (Z.leb_le 0 8)) by lia. cbn [andb].
      assert ((len pre + 16 + 8 <=? len (pre ++ opt_bytes o ++ concat (opt_bytes <$> os) ++ rest)) = true) as ->.
      { apply Z.leb_le. rewrite !len_app, len_opt_bytes. pose proof (len_nonneg rest). lia. }
      cbn [rbind]. do 3 f_equal. rewrite slice_app_r by lia. replace (len pre + 16 - len pre) with 16 by lia.
      rewrite slice_app_l by (rewrite ?len_opt_bytes; lia). unfold opt_bytes. rewrite slice_app_r by (unfold len; simpl; lia). reflexivity.
    + apply not_true_is_false in En. rewrite En. rewrite (u16_small (2 + _)) by lia. rewrite u16_small by lia.
      assert (len pre + (2 + len (snd o)) = len (pre ++ opt_bytes o)) as El by (rewrite len_app, len_opt_bytes; lia).
      rewrite (app_assoc pre). rewrite Z.add_assoc, El. rewrite IH; [reflexivity|simpl in Hf; lia|done|lia|lia].
Qed.

Definition first_lladdr (os : list (Z * list Z)) : option (list Z) :=
  match os with o :: _ => if (fst o =? 1) && (len (snd o) =? 6) then Some (snd o) else None | [] => None end.

(** The router's link address, when it comes first. *)
Lemma ra_lladdr hd os rest : len hd = 16 -> Forall opt_wf os ->
  let m := hd ++ concat (opt_bytes <$> os) ++ rest in
  let mlen := 16 + len (concat (opt_bytes <$> os)) in
  match first_lladdr os with
  | Some mac => (24 <=? mlen) && (m.[16] =? 1) && (m.[17] =? 1) = true /\ slice m 18 6 = mac
  | None => (24 <=? mlen) && (m.[16] =? 1) && (m.[17] =? 1) = false
  end.
Proof.
  intros Hh Hw m mlen. destruct os as [|o os]; [reflexivity|].
  apply Forall_cons_1 in Hw as [Ho _]. pose proof (opt_units o Ho) as Hu. destruct Ho as (_ & _ & _ & Hl).
  pose proof (len_nonneg (concat (opt_bytes <$> os))) as Hc. subst mlen m. cbn [fmap list_fmap concat first_lladdr].
  rewrite len_app, len_opt_bytes. rewrite (proj2 (Z.leb_le 24 _)) by lia. cbn [andb].
  set (tl := concat (opt_bytes <$> os)) in *.
  assert (forall i, 16 <= i < 18 -> (hd ++ (opt_bytes o ++ tl) ++ rest).[i] = (opt_bytes o).[i - 16]) as Hr.
  { intros i Hi. rewrite nthZ_app_r, Hh by lia. rewrite <- app_assoc. apply nthZ_app_l. rewrite len_opt_bytes. lia. }
  rewrite (Hr 16), (Hr 17) by lia. change ((opt_bytes o).[16 - 16]) with (fst o).
  change ((opt_bytes o).[17 - 16]) with ((2 + len (snd o)) / 8).
  destruct (fst o =? 1); [|reflexivity]. cbn [andb]. destruct (len (snd o) =? 6) eqn:E; zbool.
  - split; [apply Z.eqb_eq; rewrite E; reflexivity|]. rewrite slice_app_r, Hh by lia. rewrite <- app_assoc.
    rewrite slice_app_l by (rewrite ?len_opt_bytes; lia). unfold opt_bytes. rewrite slice_app_r by (unfold len; simpl; lia).
    change (18 - 16 - len [fst o; (2 + len (snd o)) / 8]) with 0. by apply slice_all.
  - apply Z.eqb_neq. lia.
Qed.

Lemma nd6_store_keeps s ip mac : g_ip6 (nd6_store s ip mac) = g_ip6 s /\ g_ip6_gw (nd6_store s ip mac) = g_ip6_gw s /\
  g_ip6_ok (nd6_store s ip mac) = g_ip6_ok s /\ g_mac6 (nd6_store s ip mac) = g_mac6 s.
Proof. unfold nd6_store. destruct (nd6_find _ _ _); [done|]. by destruct (nd6_free _ _). Qed.

Lemma ip6_header_fields src dst proto plen rest : length src = 16%nat -> length dst = 16%nat -> 0 <= plen < 65536 ->
  let h := ip6_header src dst proto plen ++ rest in
  Z.shiftr (h.[0]) 4 = 6 /\ h.[6] = proto /\ slice h 8 16 = src /\ slice h 24 16 = dst /\ drop 40 h = rest /\
  Z.lor (Z.shiftl (h.[4]) 8) (h.[5]) = plen.
Proof.
  intros Hs Hd Hp. cbv zeta. assert (len src = 16 /\ len dst = 16) as [Ls Ld] by (unfold len; lia).
  split; [reflexivity|]. split; [reflexivity|].
  assert (ip6_header src dst proto plen ++ rest
          = ([96; 0; 0; 0] ++ be16_bytes plen ++ [proto; 64]) ++ src ++ dst ++ rest) as ->
    by (unfold ip6_header; rewrite <- !app_assoc; reflexivity).
  split.
  { rewrite slice_app_r by (change (len ([96; 0; 0; 0] ++ be16_bytes plen ++ [proto; 64])) with 8; lia). change (8 - len ([96; 0; 0; 0] ++ be16_bytes plen ++ [proto; 64])) with 0.
    rewrite slice_app_l by lia. by apply slice_all. }
  split.
  { rewrite slice_app_r by (change (len ([96; 0; 0; 0] ++ be16_bytes plen ++ [proto; 64])) with 8; lia). change (24 - len ([96; 0; 0; 0] ++ be16_bytes plen ++ [proto; 64])) with 16.
    rewrite slice_app_r, Ls by lia. change (16 - 16) with 0. rewrite slice_app_l by lia.
    by apply slice_all. }
  split.
  { change 40%nat with (8 + 32)%nat. rewrite <- drop_drop. rewrite drop_app_length' by reflexivity.
    change 32%nat with (16 + 16)%nat. rewrite <- drop_drop. rewrite !drop_app_length' by lia. done. }
  apply be16_join. lia.
Qed.

(** What the host keeps of an advertisement before it reads the prefix. *)
Definition learn_router (s : ip6) (os : list (Z * list Z)) (src : list Z) : ip6 :=
  match first_lladdr os with Some mac => nd6_store s src mac | None => s end.

(** The modified EUI-64 identifier of a card (RFC 4291, appendix A). *)
Definition eui64 (mac : list Z) : list Z :=
  match mac with [a; b; c; d; e; f] => [Z.lxor a 2; b; c; 255; 254; d; e; f] | _ => [] end.
(** The cache after [ip] was seen at [mac]: a valid entry in place of a valid one of
    that address, else in place of an invalid one; unchanged when all are taken. *)
Definition remembered (l : list nd6_ent) (ip mac : list Z) (l' : list nd6_ent) : Prop :=
  (exists i e, l !! i = Some e /\ l' = <[i := Nd6Ent ip mac true]> l /\
     ((nd_valid e = true /\ nd_ip e = ip) \/
      (nd_valid e = false /\ forall x, x ∈ l -> nd_valid x = true -> nd_ip x <> ip))) \/
  ((forall x, x ∈ l -> nd_valid x = true /\ nd_ip x <> ip) /\ l' = l).

Lemma nd6_find_spec ip c : forall k, match nd6_find c ip k with
  | Some j => exists i e, j = k + Z.of_nat i /\ c !! i = Some e /\ nd_valid e = true /\ nd_ip e = ip
  | None => forall x, x ∈ c -> nd_valid x = true -> nd_ip x <> ip
  end.
Proof.
  induction c as [|n c IH]; intros k; cbn [nd6_find]; [intros x Hx; by apply not_elem_of_nil in Hx|].
  destruct (nd_valid n && ip6_eq (nd_ip n) ip) eqn:E.
  - apply andb_true_iff in E as [E1 E2%bool_decide_eq_true]. exists 0%nat, n. splits; (done || lia).
  - specialize (IH (k + 1)). destruct (nd6_find c ip (k + 1)) as [j|].
    + destruct IH as (i & e & -> & ? & ? & ?). exists (S i), e. splits; (done || lia).
    + intros x [->|Hx]%elem_of_cons Hv Hip; [|by apply (IH x)]. rewrite Hv in E. cbn [andb] in E.
      by apply bool_decide_eq_false in E.
Qed.
Lemma nd6_free_spec c : forall k, match nd6_free c k with
  | Some j => exists i e, j = k + Z.of_nat i /\ c !! i = Some e /\ nd_valid e = false
  | None => forall x, x ∈ c -> nd_valid x = true
  end.
Proof.
  induction c as [|n c IH]; intros k; cbn [nd6_free]; [intros x Hx; by apply not_elem_of_nil in Hx|].
  destruct (nd_valid n) eqn:E; cbn [negb].
  - specialize (IH (k + 1)). destruct (nd6_free c (k + 1)) as [j|].
    + destruct IH as (i & e & -> & ? & ?). exists (S i), e. splits; (done || lia).
    + intros x [->|Hx]%elem_of_cons; [done|by apply IH].
  - exists 0%nat, n. splits; (done || lia).
Qed.
Lemma nd6_store_spec s ip mac : remembered (g_nd6 s) ip mac (g_nd6 (nd6_store s ip mac)) /\
  nd6_store s ip mac = with_nd6 s (g_nd6 (nd6_store s ip mac)).
Proof.
  unfold nd6_store, remembered. pose proof (nd6_find_spec ip (g_nd6 s) 0) as F. destruct (nd6_find _ _ _) as [j|].
  - destruct F as (i & e & -> & Hi & Hv & Hip). split; [|done]. left. exists i, e. rewrite Z.add_0_l, Nat2Z.id.
    unfold nd6_at. rewrite Nat2Z.id, nth_lookup, Hi. cbn [default g_nd6 with_nd6]. rewrite Hip. split; [done|]. unfold id. rewrite Hip. split; [done|]. by left.
  - pose proof (nd6_free_spec (g_nd6 s) 0) as G. destruct (nd6_free _ _) as [j|].
    + destruct G as (i & e & -> & Hi & Hv). split; [|done]. left. exists i, e. rewrite Z.add_0_l, Nat2Z.id. split; [done|]. split; [done|]. by right.
    + split; [|by destruct s]. right. split; [|done]. intros x Hx. split; [by apply G|]. apply F; [done|by apply G].
Qed.

(** The advertisement in the terms of the code. *)
Lemma ra_configures fuel e s n src hd os rest :
  g_ip6_ok s = false -> length src = 16%nat -> len hd = 15 -> Forall opt_wf os ->
  len (concat (opt_bytes <$> os)) <= 2000 ->
  let msg := (ICMP6_RA :: hd) ++ concat (opt_bytes <$> os) in
  net_ipv6_deliver (S fuel) e s n (ip6_header src IP6_ALL_NODES 58 (len msg) ++ msg ++ rest) (40 + len msg) =
  Ok (match slaac_prefix os with
      | Some p => with_addr (learn_router s os src) (p ++ ip6_iid_from_mac (g_mac6 s)) src true
      | None => learn_router s os src
      end, n).
Proof.
  intros Hok Hsrc Hhd Hw Hl msg. pose proof (len_nonneg (concat (opt_bytes <$> os))) as Hc.
  assert (len msg = 16 + len (concat (opt_bytes <$> os))) as Hm.
  { unfold msg. rewrite len_app. unfold len at 1. cbn [length]. unfold len in Hhd. lia. }
  destruct (ip6_header_fields src IP6_ALL_NODES 58 (len msg) (msg ++ rest) Hsrc eq_refl ltac:(lia))
    as (H6 & Hp & Es & Ed & Er & Eb).
  set (h := ip6_header src IP6_ALL_NODES 58 (len msg) ++ msg ++ rest) in *.
  assert (ip6_plen h (40 + len msg) = len msg) as Epl.
  { unfold ip6_plen. rewrite Eb. rewrite u16_small by lia. rewrite (proj2 (Z.ltb_ge (40 + len msg) (40 + len msg))) by lia. done. }
  cbn [net_ipv6_deliver]. rewrite (proj2 (Z.ltb_ge (40 + len msg) 40)) by lia. rewrite H6, Es, Ed, Er, Epl, Hp.
  cbv zeta. cbn [Z.eqb Pos.eqb negb].
  change (ip6_eq IP6_ALL_NODES IP6_ALL_NODES) with true. rewrite orb_true_r. cbn [orb negb andb].
  unfold icmp6_handle. cbv zeta. rewrite (proj2 (Z.ltb_ge (len msg) 8)) by lia.
  change ((msg ++ rest).[0]) with ICMP6_RA. cbn [Z.eqb Pos.eqb ICMP6_RA ICMP6_ECHO_REQUEST ICMP6_ECHO_REPLY].
  unfold ra_handle. cbv zeta. 
  pose proof (ra_lladdr (ICMP6_RA :: hd) os rest) as Hll. rewrite app_assoc in Hll. fold msg in Hll.
  rewrite <- Hm in Hll. specialize (Hll ltac:(unfold len in *; cbn [length]; lia) Hw). cbv zeta in Hll.
  match goal with |- context [if ?b then nd6_store s src ?m else s] => set (s1 := if b then nd6_store s src m else s) end.
  assert (s1 = learn_router s os src) as E1.
  { unfold s1, learn_router. destruct (first_lladdr os) as [mac|]; [|by rewrite Hll]. destruct Hll as [-> ->]. done. }
  assert (g_ip6_ok s1 = false /\ g_mac6 s1 = g_mac6 s) as [Eo Em].
  { rewrite E1. unfold learn_router. destruct (first_lladdr os) as [mac|]; [|done].
    destruct (nd6_store_keeps s src mac) as (_ & _ & -> & ->). done. }
  rewrite Eo. assert (16 = len (ICMP6_RA :: hd)) as E16 by (unfold len in *; cbn [length]; lia).
  unfold msg. rewrite <- app_assoc. rewrite len_app. rewrite E16.
  rewrite ra_options_walk.
  - rewrite Em, E1. by destruct (slaac_prefix os).
  - clear - Hw Hl Hc. assert (Z.of_nat (length os) * 8 <= len (concat (opt_bytes <$> os))) as Hlen; [|unfold ra_fuel; lia].
    clear Hl Hc. induction Hw as [|o os Ho Hw IH]; [done|]. cbn [fmap list_fmap concat length].
    rewrite len_app, len_opt_bytes. destruct Ho as (_ & _ & _ & ?). lia.
  - done.
  - rewrite <- E16. lia.
  - rewrite <- E16. lia.
Qed.

(** [C32] An advertisement from a router configures a host that has no address yet
    ([g_ip6_ok] false; one that has keeps it). The options are well formed and take at
    most 2000 bytes. With an autonomous /64 prefix among them the address becomes the
    first such prefix followed by the EUI-64 identifier of the card, and the sender
    becomes the router; without one the address stays. When the very first option is the
    router's link address (only there does the code look for it), a valid entry for the
    sender is put in the neighbour cache, unless the cache is full of others; without
    one the cache stays. Nothing else changes and nothing is sent. *)
Theorem ra_slaac fuel e s n src hd os rest :
  g_ip6_ok s = false -> length (g_mac6 s) = 6%nat -> length src = 16%nat -> len hd = 15 -> Forall opt_wf os ->
  len (concat (opt_bytes <$> os)) <= 2000 ->
  let msg := (ICMP6_RA :: hd) ++ concat (opt_bytes <$> os) in
  exists cache, net_ipv6_deliver (S fuel) e s n (ip6_header src IP6_ALL_NODES 58 (len msg) ++ msg ++ rest) (40 + len msg) =
    Ok (match slaac_prefix os with
        | Some p => with_addr (with_nd6 s cache) (p ++ eui64 (g_mac6 s)) src true
        | None => with_nd6 s cache
        end, n) /\
    match first_lladdr os with
    | Some mac => remembered (g_nd6 s) src mac cache
    | None => cache = g_nd6 s
    end.
Proof.
  intros Hok Hmac Hsrc Hhd Hw Hl. exists (g_nd6 (learn_router s os src)).
  assert (ip6_iid_from_mac (g_mac6 s) = eui64 (g_mac6 s)) as Hiid.
  { by destruct (g_mac6 s) as [|? [|? [|? [|? [|? [|? [|? ?]]]]]]]. }
  assert (learn_router s os src = with_nd6 s (g_nd6 (learn_router s os src)) /\
          match first_lladdr os with
          | Some mac => remembered (g_nd6 s) src mac (g_nd6 (learn_router s os src))
          | None => g_nd6 (learn_router s os src) = g_nd6 s
          end) as [El Hl2].
  { unfold learn_router. destruct (first_lladdr os) as [mac|]; [|by destruct s]. by destruct (nd6_store_spec s src mac). }
  split; [|exact Hl2]. rewrite <- El, <- Hiid. by apply ra_configures.
Qed.

Definition demo_prefix : list Z := [253; 0; 0; 0; 0; 0; 0; 0].
Definition demo_opts : list (Z * list Z) :=
  [(1, [2; 0; 0; 0; 0; 1]); (5, [0; 0; 0; 0; 5; 220]); (3, [64; 192] ++ zeros 12 ++ demo_prefix ++ zeros 8)].

(** The first advertisement, with the router's link address in front. *)
Lemma ra_slaac_witness :
  let msg := (ICMP6_RA :: zeros 15) ++ concat (opt_bytes <$> demo_opts) in
  let s := net_ipv6_init ip6_boot demo_mac in
  exists cache, net_ipv6_deliver 1 demo_env s nic_init
      (ip6_header demo_router IP6_ALL_NODES 58 (len msg) ++ msg ++ []) (40 + len msg) =
    Ok (with_addr (with_nd6 s cache) [253; 0; 0; 0; 0; 0; 0; 0; 80; 84; 0; 255; 254; 18; 52; 86] demo_router true, nic_init) /\
    remembered (g_nd6 s) demo_router [2; 0; 0; 0; 0; 1] cache.
Proof.
  apply (ra_slaac 0 demo_env (net_ipv6_init ip6_boot demo_mac) nic_init demo_router (zeros 15) demo_opts []);
    first [reflexivity | repeat constructor; vm_compute; first [reflexivity | (intros E; discriminate E)]
          | vm_compute; intros E; discriminate E].
Defined.

(** * Talking to ourselves *)
Lemma ip6_eq_refl a : ip6_eq a a = true.
Proof. by apply bool_decide_eq_true_2. Qed.

Lemma deliver_mine f e s n src p rest : length src = 16%nat -> length (g_ip6 s) = 16%nat -> len p <= 1500 ->
  net_ipv6_deliver (S f) e s n (ip6_header src (g_ip6 s) 58 (len p) ++ p ++ rest) (40 + len p) =
  icmp6_handle (net_ipv6_deliver f e) e s n (p ++ rest) (len p) src.
Proof.
  intros Hs Hd Hl. pose proof (len_nonneg p).
  destruct (ip6_header_fields src (g_ip6 s) 58 (len p) (p ++ rest) Hs Hd ltac:(lia)) as (H6 & Hp & Es & Ed & Er & Eb).
  set (h := ip6_header src (g_ip6 s) 58 (len p) ++ p ++ rest) in *.
  assert (ip6_plen h (40 + len p) = len p) as Epl.
  { unfold ip6_plen. rewrite Eb. rewrite u16_small by lia. by rewrite (proj2 (Z.ltb_ge (40 + len p) (40 + len p))) by lia. }
  cbn [net_ipv6_deliver]. rewrite (proj2 (Z.ltb_ge (40 + len p) 40)) by lia. rewrite H6, Es, Ed, Er, Epl, Hp.
  cbv zeta. rewrite ip6_eq_refl, andb_false_r. reflexivity.
Qed.

Lemma self_send f e s n p : ip6_is_multicast (g_ip6 s) = false -> nd6_lookup s (g_ip6 s) = None ->
  length (g_ip6 s) = 16%nat -> len p <= 1500 ->
  exists rest, ip6_send (net_ipv6_deliver (S f) e) e s n (g_ip6 s) 58 p =
    let* r := icmp6_handle (net_ipv6_deliver f e) e s n (p ++ rest) (len p) (g_ip6 s) in Ok (fst r, snd r, 0).
Proof.
  intros Hm Hn Hl Hp. pose proof (len_nonneg p). eexists. unfold ip6_send. rewrite Hm, Hn, ip6_eq_refl. cbv zeta.
  rewrite (proj2 (Z.ltb_ge 1500 (len p))) by lia. rewrite u16_small by lia.
  rewrite <- app_assoc. rewrite deliver_mine by done. reflexivity.
Qed.

Lemma icmp6_message_fields s dst kind code param data rest : len param = 4 ->
  let m := icmp6_message s dst kind code param data ++ rest in
  m.[0] = kind /\ slice m 4 4 = param /\ slice m 8 (len data) = data /\
  len (icmp6_message s dst kind code param data) = 8 + len data.
Proof.
  intros Hp. cbv zeta. unfold icmp6_message. set (chk := net_csum _).
  assert (([kind; code] ++ be16_bytes chk ++ param ++ data) ++ rest
          = ([kind; code] ++ be16_bytes chk) ++ param ++ data ++ rest) as -> by (by rewrite <- !app_assoc).
  split; [reflexivity|]. assert (len ([kind; code] ++ be16_bytes chk) = 4) as L4 by reflexivity.
  split; [rewrite slice_app_r, L4 by lia; rewrite slice_app_l by lia; by apply slice_all|].
  split.
  - rewrite slice_app_r, L4 by lia. rewrite slice_app_r, Hp by lia. pose proof (len_nonneg data).
    rewrite slice_app_l by lia. by apply slice_all.
  - rewrite !len_app, Hp. change (len (be16_bytes chk)) with 2. change (len [kind; code]) with 2. lia.
Qed.

Lemma nth4 (m p : list Z) i : slice m 4 4 = p -> 0 <= i < 4 -> m.[4 + i] = p.[i].
Proof.
  intros <- Hi. unfold slice, nthZ. rewrite !nth_lookup. rewrite lookup_take_lt by lia. rewrite lookup_drop.
  f_equal. f_equal. lia.
Qed.

(** Pinging the own address succeeds at once and sends no frame. *)
Lemma self_ping6 e s n : ip6_is_multicast (g_ip6 s) = false -> nd6_lookup s (g_ip6 s) = None ->
  length (g_ip6 s) = 16%nat ->
  exists s', net_icmp6_ping_begin e s n (g_ip6 s) = Ok (s', n, 0) /\ g_ping6_hit s' = true.
Proof.
  intros Hm Hn Hl. unfold net_icmp6_ping_begin. rewrite ip6_eq_refl, andb_false_r. cbn [andb].
  set (s1 := with_ping6 s _ _ false). cbv zeta.
  set (p := [u8 _; _; _; _]). set (body := _ <$> _).
  assert (len body = 32) as Lb by reflexivity.
  unfold icmp6_send at 1. rewrite Lb. cbn [Z.ltb Z.compare Pos.compare Pos.compare_cont].
  set (msg := icmp6_message s1 (g_ip6 s) ICMP6_ECHO_REQUEST 0 p body).
  assert (len msg = 40) as Lm by (apply (icmp6_message_fields s1 (g_ip6 s) ICMP6_ECHO_REQUEST 0 p body [] eq_refl)).
  destruct (self_send 1 e s1 n msg Hm Hn Hl ltac:(lia)) as [rest E]. change (g_ip6 s1) with (g_ip6 s) in E.
  rewrite E. destruct (icmp6_message_fields s1 (g_ip6 s) ICMP6_ECHO_REQUEST 0 p body rest eq_refl) as (E0 & E4 & E8 & _).
  fold msg in E0, E4, E8. unfold icmp6_handle at 1. rewrite Lm, E0. cbv zeta.
  change (40 <? 8) with false. change (ICMP6_ECHO_REQUEST =? ICMP6_ECHO_REQUEST) with true. cbv iota.
  rewrite E4.
  match goal with |- context [slice (msg ++ rest) 8 ?k] => change k with (len body) end. rewrite E8. unfold icmp6_send. rewrite Lb. cbn [Z.ltb Z.compare Pos.compare Pos.compare_cont].
  set (msg' := icmp6_message s1 (g_ip6 s) ICMP6_ECHO_REPLY 0 p body).
  assert (len msg' = 40) as Lm' by (apply (icmp6_message_fields s1 (g_ip6 s) ICMP6_ECHO_REPLY 0 p body [] eq_refl)).
  destruct (self_send 0 e s1 n msg' Hm Hn Hl ltac:(lia)) as [rest' E']. change (g_ip6 s1) with (g_ip6 s) in E'. rewrite E'.
  destruct (icmp6_message_fields s1 (g_ip6 s) ICMP6_ECHO_REPLY 0 p body rest' eq_refl) as (F0 & F4 & _ & _).
  fold msg' in F0, F4. unfold icmp6_handle. rewrite Lm', F0. cbv zeta.
  pose proof (nth4 _ _ 0 F4 ltac:(lia)) as N0. pose proof (nth4 _ _ 1 F4 ltac:(lia)) as N1.
  pose proof (nth4 _ _ 2 F4 ltac:(lia)) as N2. pose proof (nth4 _ _ 3 F4 ltac:(lia)) as N3.
  change (4 + 0) with 4 in N0. change (4 + 1) with 5 in N1. change (4 + 2) with 6 in N2. change (4 + 3) with 7 in N3.
  rewrite N0, N1, N2, N3.
  change (p.[0]) with (u8 (Z.shiftr (g_icmp6_id s1) 8)). change (p.[1]) with (Z.land (g_icmp6_id s1) 255).
  change (p.[2]) with (u8 (Z.shiftr (g_icmp6_seq s1) 8)). change (p.[3]) with (Z.land (g_icmp6_seq s1) 255).
  rewrite !Z.eqb_refl. eexists. split; reflexivity.
Qed.
