(* ===== verification/Net.v ===== *)
(** * The IPv4 stack (kernel/net/net.c)

    Routing, the firewall, the loopback ring, ARP, sending and receiving IPv4
    packets with ICMP and UDP, the DHCP client, the DNS resolver, and the pump
    that drives them, with [Tcp] and [Ipv6] below the same dispatcher. Addresses
    are in host order.

    Received bytes lie in a static buffer; a pointer into it is the list of the
    bytes from there to its end, passed with a length, so a read behind the
    packet sees what an earlier packet left. While [net_pump] runs it holds its
    lock, and the nested call made by [net_arp_resolve] returns at once:
    resolution inside the pump is [arp_resolve_held]. A loop that waits consumes
    one [round] per turn: what the card received meanwhile and the clock. *)
From Stdlib Require Import ZArith Lia Bool.
From stdpp Require Import base list numbers option.
From S2P Require Import Prelude Tcp Nic Ipv6.
#[local] Set Default Goal Selector "!".
Open Scope Z_scope.

Definition RT_MAX : Z := 8.
Definition RT_LOCAL : Z := 1.
Definition RT_LINK : Z := 2.
Definition RT_DEFAULT : Z := 4.
Definition FW_MAX_RULES : Z := 16.
Definition LOOPBACK_QUEUE : Z := 8.
Definition ARP_CACHE : Z := 8.
Definition ARP_TTL : Z := MS_TO_TICKS 3000.
Definition DHCP_DISCOVER : Z := 1.
Definition DHCP_OFFER : Z := 2.
Definition DHCP_REQUEST : Z := 3.
Definition DHCP_ACK : Z := 5.
Definition DHCP_DONE : Z := 99.
Definition UDP_RXBUF : Z := 2048.
Definition DNS_CLIENT_PORT : Z := 5353.
Definition DNS_RXBUF : Z := 512.
Definition UDP_DHCP_CLIENT : Z := 68.
Definition UDP_DHCP_SERVER : Z := 67.
Definition UDP_DNS : Z := 53.
Definition ETH_IPV4 : Z := 2048.
Definition ETH_ARP : Z := 2054.
Definition ETH_IPV6 : Z := 34525.
Definition BROADCAST : list Z := [255; 255; 255; 255; 255; 255].
(** 255.255.255.255 and 127.0.0.1. *)
Definition IP_BROADCAST : Z := 4294967295.
Definition IP_LOCALHOST : Z := 2130706433.
Definition is_loopback (ip : Z) : bool := Z.land ip 4278190080 =? 2130706432.

(** ** State *)
Record route := Route { rt_dst : Z; rt_mask : Z; rt_gw : Z; rt_flags : Z }.
Record fw_rule := FwRule { fw_used : bool; fw_proto : Z; fw_dip : Z; fw_dport : Z; fw_drop : bool }.
Record arp_ent := ArpEnt { arp_ip : Z; arp_mac : list Z; arp_valid : bool; arp_time : Z }.
Definition no_rule : fw_rule := FwRule false 0 0 0 false.
Definition no_arp : arp_ent := ArpEnt 0 (zeros 6) false 0.

(** A slot holds its packet, so [g_lo_len] is the length of the list. *)
Record loopback := Loopback {
  g_lo_q : list (list Z);
  g_lo_head : Z;
  g_lo_tail : Z;
  g_lo_count : Z }.

Record dhcp_client := DhcpClient {
  g_dhcp_state : Z;
  g_xid : Z;
  g_dhcp_last : Z;
  g_offer_ip : Z;
  g_server_id : Z;
  dhcp_retries : Z }.
Definition set_g_dhcp_state (v : Z) (s : dhcp_client) : dhcp_client :=
  DhcpClient v (g_xid s) (g_dhcp_last s) (g_offer_ip s) (g_server_id s) (dhcp_retries s).
Definition set_g_xid (v : Z) (s : dhcp_client) : dhcp_client :=
  DhcpClient (g_dhcp_state s) v (g_dhcp_last s) (g_offer_ip s) (g_server_id s) (dhcp_retries s).
Definition set_g_dhcp_last (v : Z) (s : dhcp_client) : dhcp_client :=
  DhcpClient (g_dhcp_state s) (g_xid s) v (g_offer_ip s) (g_server_id s) (dhcp_retries s).
Definition set_dhcp_retries (v : Z) (s : dhcp_client) : dhcp_client :=
  DhcpClient (g_dhcp_state s) (g_xid s) (g_dhcp_last s) (g_offer_ip s) (g_server_id s) v.

Record ping_client := PingClient {
  g_ping_id : Z;
  g_ping_seq : Z;
  g_ping_hit : bool;
  g_ping_reply_src : Z;
  g_ping_reply_id : Z;
  g_ping_reply_seq : Z }.

(** The buffers are their valid prefixes, so the lengths are those of the lists. *)
Record udp_client := UdpClient {
  g_udp_src_port : Z;
  g_udp_rx : list Z;
  g_dns_rx : list Z;
  g_dns_id : Z }.
Definition set_g_udp_src_port (v : Z) (s : udp_client) : udp_client :=
  UdpClient v (g_udp_rx s) (g_dns_rx s) (g_dns_id s).
Definition set_g_udp_rx (v : list Z) (s : udp_client) : udp_client :=
  UdpClient (g_udp_src_port s) v (g_dns_rx s) (g_dns_id s).
Definition set_g_dns_rx (v : list Z) (s : udp_client) : udp_client :=
  UdpClient (g_udp_src_port s) (g_udp_rx s) v (g_dns_id s).
Definition set_g_dns_id (v : Z) (s : udp_client) : udp_client :=
  UdpClient (g_udp_src_port s) (g_udp_rx s) (g_dns_rx s) v.

Record iface := Iface {
  g_mac : list Z;
  g_ip : Z;
  g_mask : Z;
  g_gw : Z;
  g_dns : Z }.

(** The stack. [g_routes] is the valid prefix of its array; [frame_buf] and [tmp_buf] are
    the buffers of [net_pump]. *)
Record net := Net {
  ifc : iface;
  g_routes : list route;
  g_fw : list fw_rule;
  g_fw_dropped : Z;
  lo : loopback;
  g_arp : list arp_ent;
  dhcp : dhcp_client;
  ping : ping_client;
  udp : udp_client;
  tcb : tcp;
  v6 : ip6;
  card : nic;
  frame_buf : list Z;
  tmp_buf : list Z }.
Definition set_ifc (v : iface) (s : net) : net :=
  Net v (g_routes s) (g_fw s) (g_fw_dropped s) (lo s) (g_arp s) (dhcp s) (ping s) (udp s) (tcb s) (v6 s) (card s) (frame_buf s) (tmp_buf s).
Definition set_g_routes (v : list route) (s : net) : net :=
  Net (ifc s) v (g_fw s) (g_fw_dropped s) (lo s) (g_arp s) (dhcp s) (ping s) (udp s) (tcb s) (v6 s) (card s) (frame_buf s) (tmp_buf s).
Definition set_g_fw (v : list fw_rule) (s : net) : net :=
  Net (ifc s) (g_routes s) v (g_fw_dropped s) (lo s) (g_arp s) (dhcp s) (ping s) (udp s) (tcb s) (v6 s) (card s) (frame_buf s) (tmp_buf s).
Definition set_g_fw_dropped (v : Z) (s : net) : net :=
  Net (ifc s) (g_routes s) (g_fw s) v (lo s) (g_arp s) (dhcp s) (ping s) (udp s) (tcb s) (v6 s) (card s) (frame_buf s) (tmp_buf s).
Definition set_lo (v : loopback) (s : net) : net :=
  Net (ifc s) (g_routes s) (g_fw s) (g_fw_dropped s) v (g_arp s) (dhcp s) (ping s) (udp s) (tcb s) (v6 s) (card s) (frame_buf s) (tmp_buf s).
Definition set_g_arp (v : list arp_ent) (s : net) : net :=
  Net (ifc s) (g_routes s) (g_fw s) (g_fw_dropped s) (lo s) v (dhcp s) (ping s) (udp s) (tcb s) (v6 s) (card s) (frame_buf s) (tmp_buf s).
Definition set_dhcp (v : dhcp_client) (s : net) : net :=
  Net (ifc s) (g_routes s) (g_fw s) (g_fw_dropped s) (lo s) (g_arp s) v (ping s) (udp s) (tcb s) (v6 s) (card s) (frame_buf s) (tmp_buf s).
Definition set_ping (v : ping_client) (s : net) : net :=
  Net (ifc s) (g_routes s) (g_fw s) (g_fw_dropped s) (lo s) (g_arp s) (dhcp s) v (udp s) (tcb s) (v6 s) (card s) (frame_buf s) (tmp_buf s).
Definition set_udp (v : udp_client) (s : net) : net :=
  Net (ifc s) (g_routes s) (g_fw s) (g_fw_dropped s) (lo s) (g_arp s) (dhcp s) (ping s) v (tcb s) (v6 s) (card s) (frame_buf s) (tmp_buf s).
Definition set_tcb (v : tcp) (s : net) : net :=
  Net (ifc s) (g_routes s) (g_fw s) (g_fw_dropped s) (lo s) (g_arp s) (dhcp s) (ping s) (udp s) v (v6 s) (card s) (frame_buf s) (tmp_buf s).
Definition set_v6 (v : ip6) (s : net) : net :=
  Net (ifc s) (g_routes s) (g_fw s) (g_fw_dropped s) (lo s) (g_arp s) (dhcp s) (ping s) (udp s) (tcb s) v (card s) (frame_buf s) (tmp_buf s).
Definition set_card (v : nic) (s : net) : net :=
  Net (ifc s) (g_routes s) (g_fw s) (g_fw_dropped s) (lo s) (g_arp s) (dhcp s) (ping s) (udp s) (tcb s) (v6 s) v (frame_buf s) (tmp_buf s).
Definition set_frame_buf (v : list Z) (s : net) : net :=
  Net (ifc s) (g_routes s) (g_fw s) (g_fw_dropped s) (lo s) (g_arp s) (dhcp s) (ping s) (udp s) (tcb s) (v6 s) (card s) v (tmp_buf s).
Definition set_tmp_buf (v : list Z) (s : net) : net :=
  Net (ifc s) (g_routes s) (g_fw s) (g_fw_dropped s) (lo s) (g_arp s) (dhcp s) (ping s) (udp s) (tcb s) (v6 s) (card s) (frame_buf s) v.

Definition own (s : net) : Z := g_ip (ifc s).

(** ** Routing *)
Fixpoint route_index (rs : list route) (dst mask : Z) : option nat :=
  match rs with
  | [] => None
  | r :: t => if (rt_dst r =? dst) && (rt_mask r =? mask) then Some 0%nat
              else match route_index t dst mask with Some i => Some (S i) | None => None end
  end.

Definition route_add (rs : list route) (dst mask gw flags : Z) : list route :=
  match route_index rs dst mask with
  | Some i => <[i := Route dst mask gw flags]> rs
  | None => if len rs <? RT_MAX then rs ++ [Route dst mask gw flags] else rs
  end.

Definition route_matches (r : route) (dst : Z) : bool := Z.land dst (rt_mask r) =? Z.land (rt_dst r) (rt_mask r).

(** The loop of [route_next_hop]: the last match among those of greatest mask. *)
Fixpoint route_scan (rs : list route) (dst : Z) (best : option route) (best_mask : Z) : option route :=
  match rs with
  | [] => best
  | r :: t => if route_matches r dst && (best_mask <=? rt_mask r) then route_scan t dst (Some r) (rt_mask r)
              else route_scan t dst best best_mask
  end.

(** The address to resolve, 0 when there is no route. *)
Definition route_next_hop (rs : list route) (dst : Z) : Z :=
  if dst =? IP_BROADCAST then IP_BROADCAST
  else if is_loopback dst then dst
  else
    match route_scan rs dst None 0 with
    | None => 0
    | Some r => if negb (Z.land (rt_flags r) RT_DEFAULT =? 0) then rt_gw r else dst
    end.

(** ** The firewall *)
Definition fw_hit (r : fw_rule) (proto dip dport : Z) : bool :=
  fw_used r && ((fw_proto r =? 0) || (fw_proto r =? proto)) && ((fw_dip r =? 0) || (fw_dip r =? dip))
  && ((fw_dport r =? 0) || (fw_dport r =? dport)).

Fixpoint net_fw_check (rs : list fw_rule) (proto dip dport : Z) : bool :=
  match rs with
  | [] => false
  | r :: t => if fw_hit r proto dip dport then fw_drop r else net_fw_check t proto dip dport
  end.

Fixpoint fw_insert (rs : list fw_rule) (n : fw_rule) : option (list fw_rule) :=
  match rs with
  | [] => None
  | r :: t => if negb (fw_used r) then Some (n :: t)
              else match fw_insert t n with Some t' => Some (r :: t') | None => None end
  end.

Definition net_fw_add (s : net) (proto dip dport : Z) (drop : bool) : net * Z :=
  match fw_insert (g_fw s) (FwRule true proto dip dport drop) with
  | Some f => (set_g_fw f s, 0)
  | None => (s, -1)
  end.

Definition net_fw_clear (s : net) : net := set_g_fw (replicate 16 no_rule) s.

(** The test made of a transport payload, with the counter. *)
Definition fw_blocks (s : net) (proto dst : Z) (payload : list Z) (plen : Z) : bool :=
  (4 <=? plen) && ((proto =? 6) || (proto =? 17)) && net_fw_check (g_fw s) proto dst (rd16 payload 2).
Definition fw_count (s : net) : net := set_g_fw_dropped (u64 (g_fw_dropped s + 1)) s.

(** ** The ARP cache *)
Definition arp_live (e : nenv) (a : arp_ent) (ip : Z) : bool :=
  arp_valid a && (arp_ip a =? ip) && (u64 (ticks e - arp_time a) <? ARP_TTL).

Fixpoint arp_find (p : arp_ent -> bool) (c : list arp_ent) : option nat :=
  match c with
  | [] => None
  | a :: t => if p a then Some 0%nat else match arp_find p t with Some i => Some (S i) | None => None end
  end.

Definition arp_index (e : nenv) (c : list arp_ent) (ip : Z) : option nat := arp_find (fun a => arp_live e a ip) c.
Definition arp_lookup (e : nenv) (c : list arp_ent) (ip : Z) : option (list Z) :=
  match arp_index e c ip with Some i => Some (arp_mac (nth i c no_arp)) | None => None end.

Definition arp_store (e : nenv) (c : list arp_ent) (ip : Z) (mac : list Z) : list arp_ent :=
  match arp_index e c ip with
  | Some i => <[i := let a := nth i c no_arp in ArpEnt (arp_ip a) mac (arp_valid a) (arp_time a)]> c
  | None =>
    match arp_find (fun a => negb (arp_valid a)) c with
    | Some i => <[i := ArpEnt ip mac true (ticks e)]> c
    | None => c
    end
  end.

(** ** Sending *)
Definition send_frame (e : nenv) (s : net) (f : list Z) : net * Z :=
  let r := nic_send (tx_done e) (card s) f in (set_card (fst r) s, snd r).

Definition arp_packet (mac : list Z) (oper srcip dstip : Z) (dstmac : list Z) : list Z :=
  [0; 1; 8; 0; 6; 4] ++ be16_bytes oper ++ mac ++ be32_bytes srcip ++ dstmac ++ be32_bytes dstip.

Definition arp_send (e : nenv) (s : net) (oper srcip dstip : Z) (dstmac : list Z) : net :=
  let mac := g_mac (ifc s) in
  fst (send_frame e s (BROADCAST ++ mac ++ [8; 6] ++ arp_packet mac oper srcip dstip dstmac)).

(** The 20-byte header with its checksum. *)
Definition ip_header (src dst proto total : Z) : list Z :=
  let front := [69; 0] ++ be16_bytes total ++ [0; 0; 0; 0; 64; proto] in
  let back := be32_bytes src ++ be32_bytes dst in
  front ++ be16_bytes (net_csum (front ++ [0; 0] ++ back)) ++ back.

Definition lo_push (l : loopback) (p : list Z) : loopback :=
  Loopback (<[Z.to_nat (g_lo_tail l) := p]> (g_lo_q l)) (g_lo_head l)
    ((g_lo_tail l + 1) mod LOOPBACK_QUEUE) (g_lo_count l + 1).

(** The loopback slots hold 1528 bytes and the frame buffer 1518. *)
Definition net_ip_send (e : nenv) (s : net) (src dst proto : Z) (payload : list Z) : res (net * Z) :=
  let plen := len payload in
  let total := u16 (20 + plen) in
  if fw_blocks s proto dst payload plen then Ok (fw_count s, -2)
  else if is_loopback dst then
    if 1528 <? 20 + plen then Oob
    else if LOOPBACK_QUEUE <=? g_lo_count (lo s) then Ok (s, -1)
    else Ok (set_lo (lo_push (lo s) (ip_header IP_LOCALHOST dst proto total ++ payload)) s, 0)
  else
    let nh := route_next_hop (g_routes s) dst in
    let out mac :=
      if 1518 <? 34 + plen then Oob
      else Ok (send_frame e s (mac ++ g_mac (ifc s) ++ [8; 0] ++ ip_header src dst proto total ++ payload)) in
    if nh =? IP_BROADCAST then out BROADCAST
    else if nh =? 0 then Ok (s, -1)
    else
      match arp_lookup e (g_arp s) nh with
      | Some mac => out mac
      | None => Ok (s, -1)
      end.

Definition ip_send (e : nenv) (s : net) (dst proto : Z) (payload : list Z) : res (net * Z) :=
  net_ip_send e s (own s) dst proto payload.

Definition udp_datagram (sport dport : Z) (buf : list Z) : list Z :=
  be16_bytes sport ++ be16_bytes dport ++ be16_bytes (u16 (8 + len buf)) ++ [0; 0] ++ buf.

(** [udp_raw_send] once the next hop is resolved. *)
Definition udp_emit (e : nenv) (s : net) (src dst sport dport : Z) (buf : list Z) : res (net * Z) :=
  net_ip_send e s src dst 17 (take (Z.to_nat (u16 (8 + len buf))) (udp_datagram sport dport buf)).

(** ** DHCP *)
Definition dhcp_build_msg (s : net) (msgtype req_ip server_id : Z) : list Z :=
  let opts := [99; 130; 83; 99] ++ [53; 1; msgtype]
    ++ (if msgtype =? DHCP_REQUEST then [50; 4] ++ be32_bytes req_ip ++ [54; 4] ++ be32_bytes server_id else [])
    ++ [55; 3; 1; 3; 6; 255] in
  let hdr := [1; 1; 6; 0] ++ be32_bytes (g_xid (dhcp s)) ++ [0; 0; 128; 0] ++ zeros 16 ++ g_mac (ifc s) in
  let pkt := hdr ++ zeros (236 - length hdr) ++ opts in
  pkt ++ zeros (300 - length pkt).

(** The destination is the broadcast address, which needs no resolution. *)
Definition dhcp_send (e : nenv) (s : net) (msgtype req_ip server_id : Z) : res net :=
  let* r := udp_emit e s (own s) IP_BROADCAST UDP_DHCP_CLIENT UDP_DHCP_SERVER
              (dhcp_build_msg s msgtype req_ip server_id) in
  Ok (set_dhcp (set_g_dhcp_last (ticks e) (dhcp (fst r))) (fst r)).

Record dhcp_opts := DhcpOpts { o_msgtype : Z; o_mask : Z; o_router : Z; o_dns : Z; o_srv : Z }.

(** One option: its code, length and value at [o]. *)
Definition dhcp_option (p : list Z) (o code olen : Z) (a : dhcp_opts) : dhcp_opts :=
  DhcpOpts
    (if (code =? 53) && (1 <=? olen) then p.[o + 2] else o_msgtype a)
    (if (code =? 1) && (4 <=? olen) then rd32 p (o + 2) else o_mask a)
    (if (code =? 3) && (4 <=? olen) then rd32 p (o + 2) else o_router a)
    (if (code =? 6) && (4 <=? olen) then rd32 p (o + 2) else o_dns a)
    (if (code =? 54) && (4 <=? olen) then rd32 p (o + 2) else o_srv a).

Fixpoint dhcp_options (fuel : nat) (p : list Z) (plen o : Z) (a : dhcp_opts) : res dhcp_opts :=
  if (o <? plen) && negb (p.[o] =? 255) then
    match fuel with
    | O => Starved
    | S fuel =>
      let* olen := rd_byte p (o + 1) in
      if plen - o <? olen + 2 then Ok a
      else dhcp_options fuel p plen (o + 2 + olen) (dhcp_option p o (p.[o]) olen a)
    end
  else Ok a.

Definition dhcp_bind (s : net) (ip : Z) (a : dhcp_opts) : net :=
  let s := set_ifc (Iface (g_mac (ifc s)) ip (o_mask a) (o_router a) (o_dns a)) s in
  let s := set_dhcp (set_g_dhcp_state DHCP_DONE (dhcp s)) s in
  let s := if negb (o_mask a =? 0)
           then set_g_routes (route_add (g_routes s) (Z.land ip (o_mask a)) (o_mask a) 0 RT_LINK) s else s in
  if negb (o_router a =? 0) then set_g_routes (route_add (g_routes s) 0 0 (o_router a) RT_DEFAULT) s else s.

Definition dhcp_handle (e : nenv) (s : net) (p : list Z) (plen : Z) : res net :=
  if plen <? 240 then Ok s
  else if negb (rd32 p 4 =? g_xid (dhcp s)) then Ok s
  else
    let* a := dhcp_options (Z.to_nat plen) p plen 240 (DhcpOpts 0 0 0 0 0) in
    let yiaddr := rd32 p 16 in
    if g_dhcp_state (dhcp s) =? DHCP_DONE then Ok s
    else if (o_msgtype a =? DHCP_OFFER) && (g_dhcp_state (dhcp s) =? DHCP_DISCOVER) then
      let d := dhcp s in
      let s := set_dhcp (DhcpClient DHCP_REQUEST (g_xid d) (g_dhcp_last d) yiaddr (o_srv a) (dhcp_retries d)) s in
      dhcp_send e s DHCP_REQUEST yiaddr (o_srv a)
    else if (o_msgtype a =? DHCP_ACK) && negb (yiaddr =? 0) then Ok (dhcp_bind s yiaddr a)
    else Ok s.

(** ** TCP below IP *)
(** [tcp_send_seg] hands a packet to [net_ip_send] and ignores its result. *)
Fixpoint send_packets (e : nenv) (s : net) (ps : list packet) : res net :=
  match ps with
  | [] => Ok s
  | p :: t => let* r := net_ip_send e s (p_src p) (p_dst p) 6 (p_seg p) in send_packets e (fst r) t
  end.

Definition tcp_env (e : nenv) (s : net) : env := Env (own s) (ticks e) (isn e).
Definition quiet (t : tcp) : tcp := Tcp (Tcp.g_tcp t) (g_eph_port t) [].

(** The new table, then the packets the step put on the wire. *)
Definition tcp_flush (e : nenv) (s : net) (t : tcp) : res net :=
  send_packets e (set_tcb (quiet t) s) (wire t).

(** A call of an operation of [Tcp]. *)
Definition tcp_call {A} (e : nenv) (s : net) (f : env -> tcp -> option (tcp * A)) : res (net * A) :=
  let* r := of_option (f (tcp_env e s) (quiet (tcb s))) in
  let* s' := tcp_flush e s (fst r) in Ok (s', snd r).

(** ** ARP resolution *)
(** The cases in which no request is needed. *)
Definition arp_ready (e : nenv) (s : net) (ip : Z) : bool :=
  let nh := route_next_hop (g_routes s) ip in
  is_loopback ip || (nh =? 0) || (nh =? IP_BROADCAST)
  || match arp_lookup e (g_arp s) nh with Some _ => true | None => false end.

Definition arp_request (e : nenv) (s : net) (ip : Z) : net :=
  arp_send e s 1 (own s) (route_next_hop (g_routes s) ip) BROADCAST.

(** Inside the pump no reply can be processed: the loop runs into its time-out. *)
Definition arp_resolve_held (e : nenv) (s : net) (ip : Z) : net * bool :=
  if arp_ready e s ip then (s, true) else (arp_request e s ip, false).

(** ** Inbound *)
Definition process_arp (e : nenv) (s : net) (a : list Z) (alen : Z) : net :=
  if alen <? 28 then s
  else
    let spa := rd32 a 14 in
    let s := set_g_arp (arp_store e (g_arp s) spa (slice a 8 6)) s in
    if (rd16 a 6 =? 1) && (rd32 a 24 =? own s) then arp_send e s 2 (own s) spa (slice a 8 6) else s.

(** The message with its checksum at offset 2. *)
Definition icmp_message (kind code : Z) (body : list Z) : list Z :=
  [kind; code] ++ be16_bytes (net_csum ([kind; code; 0; 0] ++ body)) ++ body.

(** An echo reply copies 4 bytes more than the request has behind its header. *)
Definition echo_len (plen : Z) : Z :=
  let dlen := if 4 <? plen then plen - 4 else 0 in if 56 <? dlen then 56 else dlen.

Definition process_icmp (e : nenv) (s : net) (p : list Z) (plen src : Z) : res net :=
  if plen <? 8 then Ok s
  else if p.[0] =? 8 then
    let* body := rd_bytes p 8 (echo_len plen) in
    let* r := ip_send e s src 1 (icmp_message 0 0 (slice p 4 4 ++ body)) in Ok (fst r)
  else if p.[0] =? 0 then
    let g := ping s in
    Ok (set_ping (PingClient (g_ping_id g) (g_ping_seq g) true src (rd16 p 4) (rd16 p 6)) s)
  else Ok s.

Definition icmp_unreachable (e : nenv) (s : net) (src : Z) (iphdr : list Z) (iplen : Z) (seg : list Z)
    (seglen code : Z) : res net :=
  let qh := if 20 <? iplen then 20 else iplen in
  let seglen := if 8 <? seglen then 8 else seglen in
  let* r := ip_send e s src 1 (icmp_message 3 code (zeros 4 ++ slice iphdr 0 qh ++ slice seg 0 seglen)) in
  Ok (fst r).

Definition process_udp (e : nenv) (s : net) (p : list Z) (plen src : Z) (iphdr : list Z) (iplen : Z) : res net :=
  if plen <? 8 then Ok s
  else
    let dport := rd16 p 2 in
    let u := udp s in
    if dport =? UDP_DHCP_CLIENT then dhcp_handle e s (drop 8 p) (plen - 8)
    else if dport =? DNS_CLIENT_PORT then
      let dlen := if DNS_RXBUF <? plen - 8 then DNS_RXBUF else plen - 8 in
      Ok (set_udp (UdpClient (g_udp_src_port u) (g_udp_rx u) (slice p 8 dlen) (g_dns_id u)) s)
    else if dport =? g_udp_src_port u then
      let dlen := if UDP_RXBUF <? plen - 8 then UDP_RXBUF else plen - 8 in
      Ok (set_udp (UdpClient (g_udp_src_port u) (slice p 8 dlen) (g_dns_rx u) (g_dns_id u)) s)
    else icmp_unreachable e s src iphdr iplen p plen 3.

(** [net_tcp_deliver], with the resolution it makes for a new connection. *)
Definition process_tcp (e : nenv) (s : net) (p : list Z) (plen src : Z) : res net :=
  let* r := of_option (net_tcp_deliver (tcp_env e s) (quiet (tcb s)) (slice p 0 plen) src) in
  match r with
  | Done t => tcp_flush e s t
  | Resolving t ch =>
      let r := arp_resolve_held e (set_tcb t s) src in
      let* t' := of_option (deliver_resume (tcp_env e (fst r)) (tcb (fst r)) ch (snd r)) in
      tcp_flush e (fst r) t'
  end.

(** The transport protocols. *)
Definition ip_dispatch (e : nenv) (s : net) (proto : Z) (payload : list Z) (plen src : Z) (ip : list Z) (total : Z)
    : res net :=
  if proto =? 1 then process_icmp e s payload plen src
  else if proto =? 17 then process_udp e s payload plen src ip total
  else if proto =? 6 then process_tcp e s payload plen src
  else Ok s.

(** [ip]: the bytes from the packet to the end of the buffer it lies in. *)
Definition process_ip (e : nenv) (s : net) (ip : list Z) (iplen : Z) : res net :=
  if iplen <? 20 then Ok s
  else
    let ihl := u8 (Z.land (ip.[0]) 15 * 4) in
    let total := rd16 ip 2 in
    let proto := ip.[9] in
    let src := rd32 ip 12 in
    let dst := rd32 ip 16 in
    if negb (dst =? own s) && negb (dst =? IP_BROADCAST) && negb (dst =? IP_LOCALHOST) && negb (own s =? 0)
    then Ok s
    else if (total <? ihl) || (iplen <? total) then Ok s
    else
      let payload := drop (Z.to_nat ihl) ip in
      let plen := total - ihl in
      if fw_blocks s proto dst payload plen then Ok (fw_count s)
      else ip_dispatch e s proto payload plen src ip total.

Definition process_eth (e : nenv) (s : net) (f : list Z) (flen : Z) : res net :=
  if flen <? 14 then Ok s
  else
    let type := rd16 f 12 in
    if type =? ETH_ARP then Ok (process_arp e s (drop 14 f) (flen - 14))
    else if type =? ETH_IPV4 then process_ip e s (drop 14 f) (flen - 14)
    else if type =? ETH_IPV6 then
      let* r := net_ipv6_deliver 2 e (v6 s) (card s) (drop 14 f) (flen - 14) in
      Ok (set_card (snd r) (set_v6 (fst r) s))
    else Ok s.

(** ** The pump *)
(** A clock reading is used up by every packet. *)
Fixpoint pump_rx (es : list nenv) (s : net) : res (net * list nenv) :=
  let r := nic_rx (card s) 2048 in
  match snd r with
  | [] => Ok (set_card (fst r) s, es)
  | f =>
    match es with
    | [] => Starved
    | e :: es =>
      let buf := blit (frame_buf s) 0 f in
      let* s := process_eth e (set_frame_buf buf (set_card (fst r) s)) buf (len f) in
      pump_rx es s
    end
  end.

(** The packet is copied out and its slot freed before it is processed. *)
Definition lo_pop (l : loopback) : loopback :=
  Loopback (g_lo_q l) ((g_lo_head l + 1) mod LOOPBACK_QUEUE) (g_lo_tail l) (g_lo_count l - 1).
Definition lo_first (l : loopback) : list Z := nth (Z.to_nat (g_lo_head l)) (g_lo_q l) [].

Fixpoint pump_lo (es : list nenv) (s : net) : res net :=
  if 0 <? g_lo_count (lo s) then
    match es with
    | [] => Starved
    | e :: es =>
      let p := lo_first (lo s) in
      let buf := blit (tmp_buf s) 0 p in
      let* s := process_ip e (set_tmp_buf buf (set_lo (lo_pop (lo s)) s)) buf (len p) in
      pump_lo es s
    end
  else Ok s.

Definition net_pump (es : list nenv) (s : net) : res net :=
  let* r := pump_rx es (set_card (nic_poll (card s)) s) in
  pump_lo (snd r) (fst r).

(** The device fills the first free descriptors behind the driver's index, up to
    the tail register. *)
Fixpoint first_empty (fuel : nat) (r : list rx_desc) (i : Z) : Z :=
  match fuel with
  | O => i
  | S fuel => if is_done (nth (Z.to_nat i) r no_rx) then first_empty fuel r ((i + 1) mod NUM_RX) else i
  end.
Definition device_fill (n : nic) (d : rx_desc) : nic :=
  let i := first_empty 32 (g_rxring n) (g_rx_sw n) in
  if i =? reg_rdt n then n else with_rx n (<[Z.to_nat i := d]> (g_rxring n)) (g_rx_sw n) (reg_rdt n).

(** One turn of a waiting loop: the descriptors the device completed before it,
    the clock at each packet, and the clock at its end. *)
Record round := Round { r_fill : list rx_desc; r_envs : list nenv; r_end : nenv }.
Definition pump_round (r : round) (s : net) : res net :=
  net_pump (r_envs r) (set_card (fold_left device_fill (r_fill r) (card s)) s).

(** ** Waiting operations *)
Fixpoint arp_wait (rounds : list round) (e : nenv) (t0 : Z) (s : net) (nh : Z) : res (net * Z * nenv) :=
  match arp_lookup e (g_arp s) nh with
  | Some _ => Ok (s, 0, e)
  | None =>
    match rounds with
    | [] => Starved
    | r :: rounds =>
      let* s := pump_round r s in
      if MS_TO_TICKS 1500 <? u64 (ticks (r_end r) - t0) then Ok (s, -1, r_end r)
      else arp_wait rounds (r_end r) t0 s nh
    end
  end.

Definition net_arp_resolve (rounds : list round) (e : nenv) (s : net) (ip : Z) : res (net * Z * nenv) :=
  if arp_ready e s ip then Ok (s, 0, e)
  else arp_wait rounds e (ticks e) (arp_request e s ip) (route_next_hop (g_routes s) ip).

Definition udp_raw_send (rounds : list round) (e : nenv) (s : net) (src dst sport dport : Z) (buf : list Z)
    : res (net * Z * nenv) :=
  let nh := route_next_hop (g_routes s) dst in
  if nh =? 0 then Ok (s, -1, e)
  else
    let* r := (if nh =? IP_BROADCAST then Ok (s, 0, e) else net_arp_resolve rounds e s dst) in
    let '(s, rc, e) := r in
    if negb (rc =? 0) then Ok (s, -1, e)
    else let* r := udp_emit e s src dst sport dport buf in Ok (fst r, snd r, e).

Definition net_udp_send (rounds : list round) (e : nenv) (s : net) (dst dport : Z) (buf : list Z)
    : res (net * Z * nenv) :=
  if (own s =? 0) && negb (is_loopback dst) then Ok (s, -1, e)
  else udp_raw_send rounds e s (own s) dst (g_udp_src_port (udp s)) dport buf.

(** The bytes copied out; the datagram is gone even when it was cut. *)
Definition net_udp_recv (s : net) (cap : Z) : net * list Z :=
  match g_udp_rx (udp s) with
  | [] => (s, [])
  | d => (set_udp (set_g_udp_rx [] (udp s)) s, take (Z.to_nat (if cap <? len d then cap else len d)) d)
  end.

Definition net_udp_bind (s : net) (port : Z) : net := set_udp (set_g_udp_src_port port (udp s)) s.

Fixpoint ping_wait (rounds : list round) (e : nenv) (t0 : Z) (s : net) (ip : Z) : res (net * Z) :=
  if u64 (ticks e - t0) <? MS_TO_TICKS 1500 then
    match rounds with
    | [] => Starved
    | r :: rounds =>
      let* s := pump_round r s in
      let g := ping s in
      if g_ping_hit g && (g_ping_reply_src g =? ip) && (g_ping_reply_id g =? g_ping_id g)
         && (g_ping_reply_seq g =? g_ping_seq g)
      then Ok (s, 0)
      else ping_wait rounds (r_end r) t0 s ip
    end
  else Ok (s, -1).

Definition echo_request (id seq : Z) : list Z :=
  icmp_message 8 0 ([u8 (Z.shiftr id 8); Z.land id 255; u8 (Z.shiftr seq 8); Z.land seq 255]
                    ++ ((fun i => u8 (i + 65)) <$> seqZ 8 32)).

Definition net_icmp_ping (rounds : list round) (e : nenv) (s : net) (ip : Z) : res (net * Z) :=
  if (own s =? 0) && negb (is_loopback ip) then Ok (s, -1)
  else
    let g := ping s in
    let id := u16 (Z.lxor (Z.lxor (ticks e) (Z.shiftr ip 16)) (u16 (mac_at e))) in
    let seq := u16 (g_ping_seq g + 1) in
    let s := set_ping (PingClient id seq false (g_ping_reply_src g) (g_ping_reply_id g) (g_ping_reply_seq g)) s in
    let* r := net_ip_send e s (own s) ip 1 (echo_request id seq) in
    if negb (snd r =? 0) then Ok (fst r, -1) else ping_wait rounds e (ticks e) (fst r) ip.

(** ** DNS *)
Fixpoint label_len (p : list Z) : Z :=
  match p with [] => 0 | c :: t => if c =? 46 then 0 else 1 + label_len t end.

(** One round per label; [o] is the length of the output so far. *)
Fixpoint encode_labels (fuel : nat) (p : list Z) (o : Z) : option (list Z) :=
  match p with
  | [] => Some [0]
  | _ =>
    match fuel with
    | O => None
    | S fuel =>
      let l := label_len p in
      if (l <=? 0) || (63 <? l) || (250 <? o + l + 2) then None
      else
        match encode_labels fuel (drop (Z.to_nat (l + 1)) p) (o + 1 + l) with
        | Some rest => Some (l :: take (Z.to_nat l) p ++ rest)
        | None => None
        end
    end
  end.

(** [None]: -1. *)
Definition dns_encode_name (host : list Z) : option (list Z) :=
  match host with [] => None | _ => encode_labels (length host) host 0 end.

Definition dns_query (id : Z) (name : list Z) : list Z :=
  [u8 (Z.shiftr id 8); Z.land id 255; 1; 0; 0; 1] ++ zeros 6 ++ name ++ [0; 1; 0; 1].

Definition is_pointer (b : Z) : bool := Z.land b 192 =? 192.

(** Over the labels of a name; a pointer ends it. *)
Fixpoint skip_labels (fuel : nat) (r : list Z) (off : Z) : res Z :=
  if off <? len r then
    let* b := rd_byte r off in
    if b =? 0 then Ok off
    else
      match fuel with
      | O => Starved
      | S fuel => if is_pointer b then Ok (off + 2) else skip_labels fuel r (off + (b + 1))
      end
  else Ok off.
Definition skip_name (r : list Z) (off : Z) : res Z := skip_labels (length r) r off.

Fixpoint skip_questions (qd : nat) (r : list Z) (off : Z) : res (option Z) :=
  match qd with
  | O => Ok (Some off)
  | S qd =>
    let* off := skip_name r off in
    let off := off + 5 in
    if len r <? off then Ok None else skip_questions qd r off
  end.

(** The address bytes of the first A record. *)
Fixpoint walk_answers (an : nat) (r : list Z) (off : Z) : res (option (list Z)) :=
  match an with
  | O => Ok None
  | S an =>
    if len r <=? off then Ok None
    else
      let* b := rd_byte r off in
      let* off := (if is_pointer b then Ok (off + 2) else let* o := skip_name r off in Ok (o + 1)) in
      if len r <? off + 10 then Ok None
      else
        let* h := rd_bytes r off 10 in
        let rdlen := rd16 h 8 in
        let off := off + 10 in
        if len r <? off + rdlen then Ok None
        else if (rd16 h 0 =? 1) && (rd16 h 2 =? 1) && (rdlen =? 4) then
          let* a := rd_bytes r off 4 in Ok (Some a)
        else walk_answers an r (off + rdlen)
  end.

Definition dns_answer (id : Z) (r : list Z) : res (option (list Z)) :=
  if len r <? 12 then Ok None
  else if negb (r.[0] =? u8 (Z.shiftr id 8)) || negb (r.[1] =? Z.land id 255) then Ok None
  else if Z.land (r.[2]) 128 =? 0 then Ok None
  else if negb (Z.land (r.[3]) 15 =? 0) then Ok None
  else
    let* o := skip_questions (Z.to_nat (rd16 r 4)) r 12 in
    match o with
    | None => Ok None
    | Some off => walk_answers (Z.to_nat (rd16 r 6)) r off
    end.

Fixpoint dns_wait (rounds : list round) (e : nenv) (t0 : Z) (s : net) : res (net * nenv) :=
  if (u64 (ticks e - t0) <? MS_TO_TICKS 400) && (len (g_dns_rx (udp s)) =? 0) then
    match rounds with
    | [] => Starved
    | r :: rounds => let* s := pump_round r s in dns_wait rounds (r_end r) t0 s
    end
  else Ok (s, e).

(** An attempt has the rounds of its resolution and those of its wait. *)
Fixpoint dns_attempts (n : nat) (atts : list (list round * list round)) (e : nenv) (s : net) (q : list Z)
    : res (net * nenv) :=
  match n with
  | O => Ok (s, e)
  | S n =>
    if negb (len (g_dns_rx (udp s)) =? 0) then Ok (s, e)
    else
      match atts with
      | [] => Starved
      | (ra, rw) :: atts =>
        let* r := udp_raw_send ra e s (own s) (g_dns (ifc s)) DNS_CLIENT_PORT UDP_DNS q in
        let '(s, rc, e) := r in
        if negb (rc =? 0) then Ok (s, e)
        else let* r := dns_wait rw e (ticks e) s in dns_attempts n atts (snd r) (fst r) q
      end
  end.

(** The code, and the four bytes stored in [*out_ip]. *)
Definition net_dns_resolve (atts : list (list round * list round)) (e : nenv) (s : net) (host : list Z)
    : res (net * Z * list Z) :=
  if (own s =? 0) || (g_dns (ifc s) =? 0) then Ok (s, -1, [])
  else
    let id := u16 (Z.lxor (Z.lxor (ticks e) (Z.shiftl (host.[0]) 8)) (u16 (mac_at e))) in
    let s := set_udp (set_g_dns_id id (udp s)) s in
    match dns_encode_name host with
    | None => Ok (s, -1, [])
    | Some name =>
      let s := set_udp (set_g_dns_rx [] (udp s)) s in
      let* r := dns_attempts 2 atts e s (dns_query id name) in
      let s := fst r in
      if len (g_dns_rx (udp s)) =? 0 then Ok (s, -1, [])
      else
        let* a := dns_answer id (g_dns_rx (udp s)) in
        match a with Some ip => Ok (s, 0, ip) | None => Ok (s, -1, []) end
    end.

(** ** The service loop *)
Definition net_slirp_fallback (s : net) : net :=
  if negb (own s =? 0) then s
  else
    let ip := 167772687 in
    let s := set_ifc (Iface (g_mac (ifc s)) ip 4294967040 167772674 167772675) s in
    let s := set_g_routes (route_add (g_routes s) (Z.land ip 4294967040) 4294967040 0 RT_LINK) s in
    set_g_routes (route_add (g_routes s) 0 0 167772674 RT_DEFAULT) s.

Definition dhcp_drive (e : nenv) (s : net) : res net :=
  let d := dhcp s in
  if negb (g_dhcp_state d =? DHCP_DONE) && nic_present (card s) then
    if g_dhcp_state d =? 0 then
      let xid := u32 (Z.lxor (Z.lxor (tsc e) (u64 (Z.shiftl (ticks e) 16))) (u32 (mac_at e))) in
      dhcp_send e (set_dhcp (set_g_dhcp_state DHCP_DISCOVER (set_g_xid xid d)) s) DHCP_DISCOVER 0 0
    else if MS_TO_TICKS 200 <? u64 (ticks e - g_dhcp_last d) then
      let s := set_dhcp (set_dhcp_retries (dhcp_retries d + 1) d) s in
      if 8 <? dhcp_retries d + 1 then
        Ok (net_slirp_fallback (set_dhcp (set_g_dhcp_state DHCP_DONE (dhcp s)) s))
      else if g_dhcp_state d =? DHCP_DISCOVER then dhcp_send e s DHCP_DISCOVER 0 0
      else if g_dhcp_state d =? DHCP_REQUEST then dhcp_send e s DHCP_REQUEST (g_offer_ip d) (g_server_id d)
      else Ok s
    else Ok s
  else Ok s.

Definition net_service (r : round) (s : net) : res net :=
  let e := r_end r in
  let* s := pump_round r s in
  let* s := dhcp_drive e s in
  let* t := of_option (tcp_poll (tcp_env e s) (quiet (tcb s))) in
  let* s := tcp_flush e s t in
  let* p := net_ipv6_poll e (v6 s) (card s) in
  Ok (set_card (snd p) (set_v6 (fst p) s)).

(** [net_icmp6_ping]: its waiting loop drives [net_service]. *)
Fixpoint ping6_wait (rounds : list round) (e : nenv) (t0 : Z) (s : net) : res (net * Z) :=
  if u64 (ticks e - t0) <? MS_TO_TICKS 1500 then
    match rounds with
    | [] => Starved
    | r :: rounds =>
      let* s := net_service r s in
      if g_ping6_hit (v6 s) then Ok (s, 0) else ping6_wait rounds (r_end r) t0 s
    end
  else Ok (s, -1).

Definition net_icmp6_ping (rounds : list round) (e : nenv) (s : net) (a : list Z) : res (net * Z) :=
  let* r := net_icmp6_ping_begin e (v6 s) (card s) a in
  let s := set_card (snd (fst r)) (set_v6 (fst (fst r)) s) in
  if negb (snd r =? 0) then Ok (s, -1) else ping6_wait rounds e (ticks e) s.

Definition net_init (s : net) (mac : list Z) : net :=
  Net (Iface mac 0 0 0 0) (route_add [] 2130706432 4278190080 0 RT_LOCAL) (replicate 16 no_rule) 0
    (Loopback (g_lo_q (lo s)) 0 0 0) (replicate 8 no_arp)
    (set_g_dhcp_state 0 (dhcp s)) (ping s) (set_g_udp_rx [] (udp s)) tcp_init
    (net_ipv6_init (v6 s) mac) (card s) (frame_buf s) (tmp_buf s).

(** Static storage before [net_init], with the card up. *)
Definition net_boot : net :=
  Net (Iface (zeros 6) 0 0 0 0) [] (replicate 16 no_rule) 0 (Loopback (replicate 8 []) 0 0 0)
    (replicate 8 no_arp) (DhcpClient 0 0 0 0 0 0) (PingClient 0 0 false 0 0 0) (UdpClient 7777 [] [] 0)
    tcp_init ip6_boot nic_init (zeros 2048) (zeros 1528).
