(* ===== verification/NetProps.v ===== *)
(** * Properties of the IPv4 stack

    Routing, the ARP cache, the DNS walk over replies, IP packets and their
    bounds, and operations that go through the whole stack: a datagram and a ping
    over the loopback ring, and a DHCP lease. *)
From Stdlib Require Import ZArith Lia Bool.
From stdpp Require Import base list numbers option.
From S2P Require Import Prelude Tcp Nic Ipv6 Net.
#[local] Set Default Goal Selector "!".
Open Scope Z_scope.

(** * Routing *)
(** The mask of a [/k] prefix. *)
Definition mask_of (k : Z) : Z := 4294967296 - 2 ^ (32 - k).

Lemma mask_of_mono k k' : 0 <= k <= 32 -> 0 <= k' <= 32 -> mask_of k' <= mask_of k -> k' <= k.
Proof.
  unfold mask_of. intros ?? Hle. destruct (Z.le_gt_cases k' k) as [|Hlt]; [done|].
  assert (2 ^ (32 - k') < 2 ^ (32 - k)) by (apply Z.pow_lt_mono_r; lia). lia.
Qed.

Lemma route_scan_spec rs : forall dst best bm, Forall (fun r => 0 <= rt_mask r) rs ->
  match best with Some b => bm = rt_mask b | None => bm = 0 end ->
  (route_scan rs dst best bm = best /\ forall r, r ∈ rs -> route_matches r dst = true -> rt_mask r < bm) \/
  (exists r, r ∈ rs /\ route_scan rs dst best bm = Some r /\ route_matches r dst = true /\ bm <= rt_mask r /\
     forall r', r' ∈ rs -> route_matches r' dst = true -> rt_mask r' <= rt_mask r).
Proof.
  induction rs as [|r rs IH]; intros dst best bm Hp Hb; cbn [route_scan].
  { left. split; [done|]. intros r Hr. by apply not_elem_of_nil in Hr. }
  apply Forall_cons_1 in Hp as [Hr Hp].
  destruct (route_matches r dst && (bm <=? rt_mask r)) eqn:E; zbool.
  - destruct (IH dst (Some r) (rt_mask r) Hp eq_refl) as [[-> Hlt]|(x & Hx & -> & Hm & Hle & Hmax)].
    + right. exists r. split; [by apply elem_of_cons; left|]. split; [done|]. split; [done|]. split; [done|].
      intros r' [->|Hin]%elem_of_cons Hm'; [lia|]. specialize (Hlt r' Hin Hm'). lia.
    + right. exists x. split; [by apply elem_of_cons; right|]. split; [done|]. split; [done|]. split; [lia|].
      intros r' [->|Hin]%elem_of_cons Hm'; [lia|]. by apply Hmax.
  - assert (route_matches r dst = true -> rt_mask r < bm) as Hr'.
    { intros Hm. rewrite Hm in E. cbn [andb] in E. by apply Z.leb_gt in E. }
    destruct (IH dst best bm Hp Hb) as [[-> Hlt]|(x & Hx & -> & Hm & Hle & Hmax)].
    + left. split; [done|]. intros r' [->|Hin]%elem_of_cons Hm'; [by apply Hr'|by apply Hlt].
    + right. exists x. split; [by apply elem_of_cons; right|]. split; [done|]. split; [done|]. split; [done|].
      intros r' [->|Hin]%elem_of_cons Hm'; [specialize (Hr' Hm'); lia|by apply Hmax].
Qed.

(** Routing is longest-prefix match: with prefix masks in the table, an address
    that is neither broadcast nor loopback is sent by a matching route no other
    matching route is more specific than, to the gateway of a default route and
    directly otherwise; only an address no route matches has no next hop. *)
Theorem route_longest_prefix rs dst :
  Forall (fun r => exists k, 0 <= k <= 32 /\ rt_mask r = mask_of k) rs ->
  dst <> IP_BROADCAST -> is_loopback dst = false ->
  ((forall r, r ∈ rs -> route_matches r dst = false) /\ route_next_hop rs dst = 0) \/
  exists r k, r ∈ rs /\ route_matches r dst = true /\ 0 <= k <= 32 /\ rt_mask r = mask_of k /\
    (forall r' k', r' ∈ rs -> route_matches r' dst = true -> 0 <= k' <= 32 -> rt_mask r' = mask_of k' -> k' <= k) /\
    route_next_hop rs dst = (if negb (Z.land (rt_flags r) RT_DEFAULT =? 0) then rt_gw r else dst).
Proof.
  intros Hk Hb Hl. unfold route_next_hop. rewrite (proj2 (Z.eqb_neq dst IP_BROADCAST)) by done. rewrite Hl.
  assert (Forall (fun r => 0 <= rt_mask r) rs) as Hp.
  { eapply Forall_impl; [|exact Hk]. intros r (k & Hr & ->). unfold mask_of.
    assert (2 ^ (32 - k) <= 2 ^ 32) by (apply Z.pow_le_mono_r; lia). lia. }
  destruct (route_scan_spec rs dst None 0 Hp eq_refl) as [[-> Hlt]|(r & Hr & -> & Hm & _ & Hmax)].
  - left. split; [|done]. intros r Hr. destruct (route_matches r dst) eqn:E; [|done].
    specialize (Hlt r Hr E). rewrite Forall_forall in Hp. specialize (Hp r (proj1 (list_elem_of_In _ _) Hr)). lia.
  - right. rewrite Forall_forall in Hk. destruct (Hk r (proj1 (list_elem_of_In _ _) Hr)) as (k & Hkr & E). exists r, k.
    repeat (split; [done|]). split; [|done]. intros r' k' Hr' Hm' Hkr' E'. specialize (Hmax r' Hr' Hm').
    rewrite E, E' in Hmax. by apply mask_of_mono.
Qed.

Definition demo_routes : list route :=
  [Route 2130706432 (mask_of 8) 0 RT_LOCAL; Route 167772672 (mask_of 24) 0 RT_LINK;
   Route 0 (mask_of 0) 167772674 RT_DEFAULT].

Lemma route_longest_prefix_witness :
  (route_next_hop demo_routes 167772680 = 167772680 /\ route_next_hop demo_routes 134744072 = 167772674) /\
  (((forall r, r ∈ demo_routes -> route_matches r 134744072 = false) /\ route_next_hop demo_routes 134744072 = 0) \/
   exists r k, r ∈ demo_routes /\ route_matches r 134744072 = true /\ 0 <= k <= 32 /\ rt_mask r = mask_of k /\
    (forall r' k', r' ∈ demo_routes -> route_matches r' 134744072 = true -> 0 <= k' <= 32 -> rt_mask r' = mask_of k' -> k' <= k) /\
    route_next_hop demo_routes 134744072 = (if negb (Z.land (rt_flags r) RT_DEFAULT =? 0) then rt_gw r else 134744072)).
Proof.
  split; [split; reflexivity|].
  apply route_longest_prefix; [|discriminate|reflexivity].
  constructor; [exists 8; split; [lia|reflexivity]|]. constructor; [exists 24; split; [lia|reflexivity]|].
  constructor; [exists 0; split; [lia|reflexivity]|constructor].
Defined.

(** The lease: hosts of the subnet directly, everything else by the router. *)
Lemma lease_routes rs ip mask router dst :
  rs = route_add (route_add [Route 2130706432 4278190080 0 RT_LOCAL] (Z.land ip mask) mask 0 RT_LINK) 0 0 router RT_DEFAULT ->
  0 < mask -> (Z.land ip mask <> 2130706432 \/ mask <> 4278190080) ->
  dst <> IP_BROADCAST -> is_loopback dst = false ->
  route_next_hop rs dst = if Z.land dst mask =? Z.land ip mask then dst else router.
Proof.
  intros -> Hm Hne Hb Hl.
  assert (route_add (route_add [Route 2130706432 4278190080 0 RT_LOCAL] (Z.land ip mask) mask 0 RT_LINK) 0 0 router RT_DEFAULT
    = [Route 2130706432 4278190080 0 RT_LOCAL; Route (Z.land ip mask) mask 0 RT_LINK; Route 0 0 router RT_DEFAULT]) as ->.
  { assert (route_add [Route 2130706432 4278190080 0 RT_LOCAL] (Z.land ip mask) mask 0 RT_LINK
      = [Route 2130706432 4278190080 0 RT_LOCAL; Route (Z.land ip mask) mask 0 RT_LINK]) as ->.
    { unfold route_add. cbn [route_index rt_dst rt_mask].
      assert ((2130706432 =? Z.land ip mask) && (4278190080 =? mask) = false) as ->; [|reflexivity].
      apply andb_false_iff. destruct Hne; [left|right]; apply Z.eqb_neq; lia. }
    unfold route_add. cbn [route_index rt_dst rt_mask]. rewrite (proj2 (Z.eqb_neq mask 0)) by lia.
    cbn [Z.eqb]. rewrite !andb_false_r. reflexivity. }
  unfold route_next_hop. rewrite (proj2 (Z.eqb_neq dst IP_BROADCAST)) by done. rewrite Hl. cbn [route_scan].
  assert (route_matches (Route 2130706432 4278190080 0 RT_LOCAL) dst = false) as -> by exact Hl.
  cbn [andb]. unfold route_matches. cbn [rt_mask rt_dst]. rewrite !Z.land_0_r.
  rewrite <- Z.land_assoc, Z.land_diag. rewrite (proj2 (Z.leb_le 0 mask)) by lia.
  destruct (Z.land dst mask =? Z.land ip mask) eqn:E; cbn [andb Z.eqb].
  - rewrite (proj2 (Z.leb_gt mask 0)) by lia. reflexivity.
  - reflexivity.
Qed.

(** * The firewall: the first rule that applies decides *)
Lemma net_fw_check_first rs r rs' proto dip dport :
  Forall (fun x => fw_hit x proto dip dport = false) rs -> fw_hit r proto dip dport = true ->
  net_fw_check (rs ++ r :: rs') proto dip dport = fw_drop r.
Proof.
  intros Hf Hr. induction Hf as [|x rs Hx Hf IH]; cbn [app net_fw_check]; [by rewrite Hr|by rewrite Hx].
Qed.

(** * The ARP cache *)
Lemma rbind_Ok {A B} (x : res A) (f : A -> res B) b : rbind x f = Ok b -> exists a, x = Ok a /\ f a = Ok b.
Proof. destruct x; [eauto|done|done]. Qed.

Ltac bind_ok :=
  repeat match goal with
  | H : rbind _ _ = Ok _ |- _ => let a := fresh "a" in let E := fresh "E" in apply rbind_Ok in H as (a & E & H)
  end.

(** The parts of the stack that no send changes. *)
Lemma send_frame_keeps e s f : g_arp (fst (send_frame e s f)) = g_arp s.
Proof. done. Qed.

Lemma net_ip_send_arp e s src dst proto p r : net_ip_send e s src dst proto p = Ok r -> g_arp (fst r) = g_arp s.
Proof.
  unfold net_ip_send. cbv zeta. intros H. destruct (fw_blocks _ _ _ _ _); [by injection H as <-|].
  destruct (is_loopback dst).
  - destruct (1528 <? _); [done|]. by destruct (_ <=? _); injection H as <-.
  - destruct (_ =? IP_BROADCAST).
    + destruct (1518 <? _); [done|]. by injection H as <-.
    + destruct (_ =? 0); [by injection H as <-|]. destruct (arp_lookup _ _ _); [|by injection H as <-].
      destruct (1518 <? _); [done|]. by injection H as <-.
Qed.

Lemma send_packets_arp e ps : forall s s', send_packets e s ps = Ok s' -> g_arp s' = g_arp s.
Proof.
  induction ps as [|p ps IH]; intros s s' H; cbn [send_packets] in H; [by injection H as <-|].
  bind_ok. apply net_ip_send_arp in E. by rewrite (IH _ _ H).
Qed.

Lemma dhcp_send_arp e s m r v s' : dhcp_send e s m r v = Ok s' -> g_arp s' = g_arp s.
Proof. unfold dhcp_send, udp_emit. intros H. bind_ok. apply net_ip_send_arp in E. by injection H as <-. Qed.

Lemma dhcp_bind_arp s ip a : g_arp (dhcp_bind s ip a) = g_arp s.
Proof. unfold dhcp_bind. cbv zeta. by destruct (o_mask a =? 0), (o_router a =? 0). Qed.

Lemma dhcp_handle_arp e s p n s' : dhcp_handle e s p n = Ok s' -> g_arp s' = g_arp s.
Proof.
  unfold dhcp_handle. intros H. destruct (n <? 240); [by injection H as <-|].
  destruct (negb _); [by injection H as <-|]. bind_ok. cbv zeta in H.
  destruct (_ =? DHCP_DONE); [by injection H as <-|]. destruct ((_ =? DHCP_OFFER) && _).
  - apply dhcp_send_arp in H. exact H.
  - destruct ((_ =? DHCP_ACK) && _); injection H as <-; [apply dhcp_bind_arp|done].
Qed.

Lemma ip_send_arp e s dst proto p (r : net * Z) (s' : net) :
  (let* r := ip_send e s dst proto p in Ok (fst r)) = Ok s' -> g_arp s' = g_arp s.
Proof. unfold ip_send. intros H. bind_ok. apply net_ip_send_arp in E. by injection H as <-. Qed.

Lemma process_ip_arp e s p n s' : process_ip e s p n = Ok s' -> g_arp s' = g_arp s.
Proof.
  unfold process_ip. cbv zeta. intros H. destruct (n <? 20); [by injection H as <-|].
  destruct (negb _ && _ && _ && _); [by injection H as <-|]. destruct ((_ <? _) || _); [by injection H as <-|].
  destruct (fw_blocks _ _ _ _ _); [by injection H as <-|]. unfold ip_dispatch in H.
  destruct (_ =? 1).
  { unfold process_icmp in H. destruct (_ <? 8); [by injection H as <-|]. destruct (_ =? 8).
    - apply rbind_Ok in H as (b & _ & H). apply rbind_Ok in H as (r & E & H). apply net_ip_send_arp in E. by injection H as <-.
    - by destruct (_ =? 0); injection H as <-. }
  destruct (_ =? 17).
  { unfold process_udp in H. cbv zeta in H. destruct (_ <? 8); [by injection H as <-|].
    destruct (_ =? UDP_DHCP_CLIENT); [by apply dhcp_handle_arp in H|].
    destruct (_ =? DNS_CLIENT_PORT); [by injection H as <-|].
    destruct (_ =? g_udp_src_port _); [by injection H as <-|].
    unfold icmp_unreachable in H. apply rbind_Ok in H as (r & E & H). apply net_ip_send_arp in E. by injection H as <-. }
  destruct (_ =? 6); [|by injection H as <-].
  unfold process_tcp in H. apply rbind_Ok in H as (d & _ & H). destruct d as [t|t ch].
  - unfold tcp_flush in H. by apply send_packets_arp in H.
  - apply rbind_Ok in H as (t' & _ & H). unfold tcp_flush in H. apply send_packets_arp in H.
    unfold arp_resolve_held in H. by destruct (arp_ready _ _ _).
Qed.

(** All entries are in use, and none is younger than its lifetime at [t]. *)
Definition arp_dead (t : Z) (c : list arp_ent) : Prop :=
  Forall (fun a => arp_valid a = true /\ 0 <= arp_time a /\ arp_time a + ARP_TTL <= t) c.
Definition later (t : Z) (e : nenv) : Prop := t <= ticks e < 18446744073709551616.

Lemma arp_dead_lookup t e c ip : arp_dead t c -> later t e -> arp_index e c ip = None.
Proof.
  intros Hd He. unfold arp_index. induction Hd as [|a c (Hv & H0 & Ht) Hd IH]; [done|]. cbn [arp_find].
  assert (arp_live e a ip = false) as ->; [|by rewrite IH].
  unfold arp_live. unfold later in He. rewrite u64_small by (change ARP_TTL with 750 in *; lia).
  rewrite (proj2 (Z.ltb_ge (ticks e - arp_time a) ARP_TTL)) by lia. apply andb_false_r.
Qed.

Lemma arp_dead_store t e c ip mac : arp_dead t c -> later t e -> arp_store e c ip mac = c.
Proof.
  intros Hd He. unfold arp_store. rewrite (arp_dead_lookup t) by done.
  assert (arp_find (fun a => negb (arp_valid a)) c = None) as ->; [|done].
  clear He. induction Hd as [|a c (Hv & _) Hd IH]; [done|]. cbn [arp_find]. by rewrite Hv, IH.
Qed.

Lemma process_eth_arp t e s f n s' : arp_dead t (g_arp s) -> later t e ->
  process_eth e s f n = Ok s' -> g_arp s' = g_arp s.
Proof.
  intros Hd He. unfold process_eth. cbv zeta. intros H. destruct (n <? 14); [by injection H as <-|].
  destruct (_ =? ETH_ARP).
  { injection H as <-. unfold process_arp. cbv zeta. destruct (_ <? 28); [done|].
    destruct (_ && _); cbn [g_arp arp_send send_frame fst set_card]; by apply (arp_dead_store t). }
  destruct (_ =? ETH_IPV4); [by apply process_ip_arp in H|]. destruct (_ =? ETH_IPV6); [|by injection H as <-].
  bind_ok. by injection H as <-.
Qed.

Lemma pump_rx_arp t es : forall s r, arp_dead t (g_arp s) -> Forall (later t) es ->
  pump_rx es s = Ok r -> g_arp (fst r) = g_arp s /\ Forall (later t) (snd r).
Proof.
  induction es as [|e es IH]; intros s r Hd He H; cbn [pump_rx] in H.
  - destruct (snd (nic_rx _ _)); [|done]. by injection H as <-.
  - destruct (snd (nic_rx _ _)) as [|x f]; [by injection H as <-|]. cbv zeta in H. bind_ok.
    apply Forall_cons_1 in He as [He Hes]. apply (process_eth_arp t) in E; [|done|done]. cbn [g_arp set_frame_buf set_card] in E.
    destruct (IH a r ltac:(by rewrite E) Hes H) as [-> ?]. by split.
Qed.

Lemma pump_lo_arp es : forall s s', pump_lo es s = Ok s' -> g_arp s' = g_arp s.
Proof.
  induction es as [|e es IH]; intros s s' H; cbn [pump_lo] in H.
  - destruct (0 <? _); [done|by injection H as <-].
  - destruct (0 <? _); [|by injection H as <-]. cbv zeta in H. bind_ok. apply process_ip_arp in E. by rewrite (IH _ _ H).
Qed.

Lemma pump_round_arp t r s s' : arp_dead t (g_arp s) -> Forall (later t) (r_envs r) ->
  pump_round r s = Ok s' -> g_arp s' = g_arp s.
Proof.
  intros Hd He H. unfold pump_round, net_pump in H. bind_ok.
  apply (pump_rx_arp t) in E; [|done|done]. destruct E as [E _]. apply pump_lo_arp in H. by rewrite H, E.
Qed.

Definition round_later (t : Z) (r : round) : Prop := Forall (later t) (r_envs r) /\ later t (r_end r).

(** Entries of the ARP cache expire but are never given up: once eight addresses
    were learned and their 3 seconds are over, no frame that arrives changes the
    cache, and resolving any address that needs it fails, whatever replies come. *)
Theorem arp_cache_dies t rounds e s ip s' rc e' :
  length (g_arp s) = 8%nat -> arp_dead t (g_arp s) -> later t e -> Forall (round_later t) rounds ->
  is_loopback ip = false -> route_next_hop (g_routes s) ip <> 0 -> route_next_hop (g_routes s) ip <> IP_BROADCAST ->
  net_arp_resolve rounds e s ip = Ok (s', rc, e') -> rc = -1 /\ g_arp s' = g_arp s.
Proof.
  intros _ Hd He Hr Hl H0 Hb H. unfold net_arp_resolve, arp_ready in H. rewrite Hl in H.
  rewrite (proj2 (Z.eqb_neq _ 0)) in H by done. rewrite (proj2 (Z.eqb_neq _ IP_BROADCAST)) in H by done.
  unfold arp_lookup at 1 in H. rewrite (arp_dead_lookup t) in H by done. cbn [orb] in H.
  assert (g_arp (arp_request e s ip) = g_arp s) as E by done.
  set (s1 := arp_request e s ip) in *. clearbody s1. set (nh := route_next_hop (g_routes s) ip) in *. clearbody nh.
  remember (ticks e) as t0 eqn:Et. clear Et. revert e s1 E He H.
  induction rounds as [|r rounds IH]; intros e s1 E He H; cbn [arp_wait] in H; unfold arp_lookup in H;
    rewrite E, (arp_dead_lookup t) in H by done; [done|].
  apply Forall_cons_1 in Hr as [[Hre Hrl] Hr]. bind_ok. apply (pump_round_arp t) in E0; [|by rewrite E|done].
  destruct (_ <? _); [injection H as <- <- <-; split; [done|congruence]|].
  eapply IH; [done| |exact Hrl|exact H]. congruence.
Qed.

(** * DNS: any reply is walked safely *)
Lemma skip_labels_safe fuel : forall r off, bytes r -> 0 <= off -> len r - off <= Z.of_nat fuel ->
  exists o, skip_labels fuel r off = Ok o /\ off <= o.
Proof.
  induction fuel as [|fuel IH]; intros r off Hr Ho Hf; cbn [skip_labels].
  - rewrite (proj2 (Z.ltb_ge off (len r))) by lia. eauto with lia.
  - destruct (off <? len r) eqn:E; zbool; [|eauto with lia]. rewrite rd_byte_ok by lia. cbn [rbind].
    pose proof (nthZ_byte r off Hr) as Hb. unfold byte in Hb.
    destruct (r.[off] =? 0) eqn:E0; zbool; [eauto with lia|]. destruct (is_pointer _); [eauto with lia|].
    destruct (IH r (off + (r.[off] + 1)) Hr ltac:(lia) ltac:(lia)) as (o & -> & ?). eauto with lia.
Qed.

Lemma skip_name_safe r off : bytes r -> 0 <= off -> exists o, skip_name r off = Ok o /\ off <= o.
Proof. intros. apply skip_labels_safe; [done|done|unfold len; lia]. Qed.

Lemma skip_questions_safe qd : forall r off, bytes r -> 0 <= off ->
  exists o, skip_questions qd r off = Ok o /\ forall x, o = Some x -> off <= x.
Proof.
  induction qd as [|qd IH]; intros r off Hr Ho; cbn [skip_questions].
  - eexists. split; [done|]. intros x [= ->]. lia.
  - destruct (skip_name_safe r off Hr Ho) as (o & -> & Hle). cbn [rbind]. cbv zeta.
    destruct (len r <? o + 5); [by eexists|]. destruct (IH r (o + 5) Hr ltac:(lia)) as (o' & -> & Hx).
    eexists. split; [done|]. intros x ->. specialize (Hx x eq_refl). lia.
Qed.

Lemma rd16_range f i : bytes f -> 0 <= rd16 f i < 65536.
Proof. intros. apply u16_range. Qed.

Lemma walk_answers_safe an : forall r off, bytes r -> 0 <= off ->
  exists a, walk_answers an r off = Ok a /\
    forall ip, a = Some ip -> exists o, off <= o /\ o + 4 <= len r /\ ip = slice r o 4.
Proof.
  induction an as [|an IH]; intros r off Hr Ho; cbn [walk_answers]; [by eexists|].
  destruct (len r <=? off) eqn:E; zbool; [by eexists|]. rewrite rd_byte_ok by lia. cbn [rbind].
  assert (exists o, (if is_pointer (r.[off]) then Ok (off + 2) else let* o := skip_name r off in Ok (o + 1)) = Ok o /\ off <= o)
    as (o & -> & Hle).
  { destruct (is_pointer _); [eauto with lia|]. destruct (skip_name_safe r off Hr Ho) as (o & -> & ?).
    cbn [rbind]. eauto with lia. }
  cbn [rbind]. destruct (len r <? o + 10) eqn:E1; zbool; [by eexists|]. rewrite rd_bytes_ok by lia. cbn [rbind]. cbv zeta.
  pose proof (rd16_range (slice r o 10) 8 ltac:(auto with bytes)) as Hd.
  destruct (len r <? o + 10 + rd16 (slice r o 10) 8) eqn:E2; zbool; [by eexists|].
  destruct (_ && _ && _) eqn:E3; zbool.
  - rewrite rd_bytes_ok by lia. cbn [rbind]. eexists. split; [done|]. intros ip [= <-]. exists (o + 10). split; [lia|]. split; [lia|done].
  - destruct (IH r (o + 10 + rd16 (slice r o 10) 8) Hr ltac:(lia)) as (a & -> & Ha). eexists. split; [done|].
    intros ip ->. destruct (Ha ip eq_refl) as (o' & ? & ? & ?). exists o'. split; [lia|done].
Qed.

(** [C24] The resolver parses any bytes a server may send: it never reads behind the
    reply, always ends, and an address it returns is four bytes of the reply
    behind the header. *)
Theorem dns_answer_safe id r : bytes r ->
  exists a, dns_answer id r = Ok a /\
    forall ip, a = Some ip -> exists o, 12 <= o /\ o + 4 <= len r /\ ip = slice r o 4.
Proof.
  intros Hr. unfold dns_answer. destruct (len r <? 12); [by eexists|]. destruct (_ || _); [by eexists|].
  destruct (_ =? 0); [by eexists|]. destruct (negb _); [by eexists|].
  destruct (skip_questions_safe (Z.to_nat (rd16 r 4)) r 12 Hr ltac:(lia)) as (o & -> & Ho). cbn [rbind].
  destruct o as [off|]; [|by eexists]. specialize (Ho off eq_refl).
  destruct (walk_answers_safe (Z.to_nat (rd16 r 6)) r off Hr ltac:(lia)) as (a & -> & Ha).
  eexists. split; [done|]. intros ip ->. destruct (Ha ip eq_refl) as (x & ? & ? & ?). exists x. split; [lia|done].
Qed.

(** Names that point at themselves, a truncated record: neither stops the walk. *)
Definition demo_bad_reply : list Z :=
  [0; 7; 129; 128; 0; 1; 255; 255; 0; 0; 0; 0; 192; 12; 0; 1; 0; 1; 63; 192; 12; 0].
Lemma dns_answer_safe_witness :
  dns_answer 7 demo_bad_reply = Ok None /\
  exists a, dns_answer 7 demo_bad_reply = Ok a /\
    forall ip, a = Some ip -> exists o, 12 <= o /\ o + 4 <= len demo_bad_reply /\ ip = slice demo_bad_reply o 4.
Proof. split; [vm_compute; reflexivity|]. apply (dns_answer_safe 7 demo_bad_reply). check_bytes. Defined.

(** ** Well-formed replies *)
(** A name is a pointer or labels up to the root. *)
Inductive dname := Pointer (hi lo : Z) | Labels (ls : list (list Z)).
Definition label_ok (l : list Z) : Prop := 1 <= len l <= 63.
Definition label_bytes (l : list Z) : list Z := len l :: l.
Definition labels_bytes (ls : list (list Z)) : list Z := concat (label_bytes <$> ls) ++ [0].
Definition dname_bytes (n : dname) : list Z :=
  match n with Pointer hi lo => [hi; lo] | Labels ls => labels_bytes ls end.
Definition dname_ok (n : dname) : Prop :=
  match n with Pointer hi _ => is_pointer hi = true | Labels ls => Forall label_ok ls end.

Record rr := RR { rr_name : dname; rr_type : Z; rr_class : Z; rr_ttl : list Z; rr_data : list Z }.
Definition rr_bytes (x : rr) : list Z :=
  dname_bytes (rr_name x) ++ be16_bytes (rr_type x) ++ be16_bytes (rr_class x) ++ rr_ttl x
  ++ be16_bytes (len (rr_data x)) ++ rr_data x.
Definition rr_ok (x : rr) : Prop :=
  dname_ok (rr_name x) /\ 0 <= rr_type x < 65536 /\ 0 <= rr_class x < 65536 /\ len (rr_ttl x) = 4
  /\ len (rr_data x) < 65536.
Definition is_a (x : rr) : bool := (rr_type x =? 1) && (rr_class x =? 1) && (len (rr_data x) =? 4).
Fixpoint first_a (xs : list rr) : option (list Z) :=
  match xs with [] => None | x :: t => if is_a x then Some (rr_data x) else first_a t end.

Definition dns_reply (id fl rc : Z) (name : list Z) (answers : list rr) (cnts more : list Z) : list Z :=
  be16_bytes id ++ [fl; rc] ++ [0; 1] ++ be16_bytes (len answers) ++ cnts
  ++ name ++ [0; 1; 0; 1] ++ concat (rr_bytes <$> answers) ++ more.

Lemma small_not_pointer b : 0 <= b <= 63 -> is_pointer b = false.
Proof.
  intros Hb. apply Z.eqb_neq. intros E.
  assert (Z.land b 192 = 0); [|lia]. apply Z.bits_inj'. intros i Hi. rewrite Z.land_spec, Z.testbit_0_l.
  destruct (Z.lt_ge_cases i 6) as [Hlt|Hge].
  - assert (Z.testbit 192 i = false) as ->; [|apply andb_false_r].
    assert (i = 0 \/ i = 1 \/ i = 2 \/ i = 3 \/ i = 4 \/ i = 5) as Hc by lia.
    by destruct Hc as [-> |[-> |[-> |[-> |[-> | ->]]]]].
  - by rewrite (testbit_small b 6) by lia.
Qed.

(** The walk over labels stops at the root label. *)
Lemma skip_labels_walk ls : forall fuel pre post, Forall label_ok ls -> (length ls <= fuel)%nat ->
  skip_labels fuel (pre ++ labels_bytes ls ++ post) (len pre) = Ok (len pre + len (labels_bytes ls) - 1).
Proof.
  induction ls as [|l ls IH]; intros fuel pre post Hok Hf; pose proof (len_nonneg pre) as Hp.
  - assert (len (pre ++ labels_bytes [] ++ post) = len pre + 1 + len post) as HL by (rewrite !len_app; unfold len; cbn; lia).
    pose proof (len_nonneg post) as Hq. change (len (labels_bytes [])) with 1.
    assert ((pre ++ labels_bytes [] ++ post).[len pre] = 0) as H0
      by (rewrite nthZ_app_r by lia; rewrite Z.sub_diag; reflexivity).
    destruct fuel; cbn [skip_labels]; rewrite HL, (proj2 (Z.ltb_lt (len pre) (len pre + 1 + len post))) by lia;
      rewrite rd_byte_ok by lia; cbn [rbind]; rewrite H0; cbn [Z.eqb]; f_equal; lia.
  - apply Forall_cons_1 in Hok as [Hl Hok]. destruct fuel as [|fuel]; [cbn in Hf; lia|].
    assert (labels_bytes (l :: ls) = label_bytes l ++ labels_bytes ls) as El by (unfold labels_bytes; cbn; by rewrite <- app_assoc).
    assert (len (label_bytes l) = 1 + len l) as Lb by (unfold label_bytes, len; cbn [length]; lia).
    unfold label_ok in Hl. cbn [skip_labels]. rewrite El. rewrite <- (app_assoc (label_bytes l)).
    assert (len (pre ++ label_bytes l ++ labels_bytes ls ++ post) = len pre + 1 + len l + len (labels_bytes ls) + len post) as HL
      by (rewrite !len_app, Lb; lia).
    pose proof (len_nonneg (labels_bytes ls)). pose proof (len_nonneg post).
    rewrite (proj2 (Z.ltb_lt (len pre) _)) by lia. rewrite rd_byte_ok by lia. cbn [rbind].
    assert ((pre ++ label_bytes l ++ labels_bytes ls ++ post).[len pre] = len l) as ->
      by (rewrite nthZ_app_r by lia; rewrite Z.sub_diag; reflexivity).
    rewrite (proj2 (Z.eqb_neq (len l) 0)) by lia. rewrite small_not_pointer by lia.
    rewrite app_assoc. replace (len pre + (len l + 1)) with (len (pre ++ label_bytes l)) by (rewrite len_app; lia).
    rewrite IH by (try done; cbn in Hf; lia). rewrite !len_app, Lb. f_equal. lia.
Qed.

Lemma length_labels ls : Forall label_ok ls -> Z.of_nat (length ls) < len (labels_bytes ls).
Proof.
  unfold labels_bytes. rewrite len_app. change (len [0]) with 1. induction 1 as [|l ls Hl _ IH]; cbn [fmap list_fmap concat length]; [reflexivity|].
  rewrite len_app. unfold label_bytes at 1, len at 1. cbn [length]. unfold label_ok, len in *. lia.
Qed.

Lemma skip_name_walk ls pre post : Forall label_ok ls ->
  skip_name (pre ++ labels_bytes ls ++ post) (len pre) = Ok (len pre + len (labels_bytes ls) - 1).
Proof.
  intros Hok. apply skip_labels_walk; [done|]. pose proof (length_labels ls Hok) as Hl. unfold len in Hl.
  rewrite !length_app. lia.
Qed.

Lemma rd16_at pre v rest : 0 <= v < 65536 -> rd16 (pre ++ be16_bytes v ++ rest) (len pre) = v.
Proof. intros. by apply rd16_bytes. Qed.
Lemma rd32_at pre v rest : 0 <= v < 4294967296 -> rd32 (pre ++ be32_bytes v ++ rest) (len pre) = v.
Proof. intros. by apply rd32_bytes. Qed.

(** The fixed part of a record. *)
Definition rr_head (x : rr) : list Z :=
  be16_bytes (rr_type x) ++ be16_bytes (rr_class x) ++ rr_ttl x ++ be16_bytes (len (rr_data x)).

Lemma rr_head_fields x : rr_ok x ->
  len (rr_head x) = 10 /\ rd16 (rr_head x) 0 = rr_type x /\ rd16 (rr_head x) 2 = rr_class x /\
  rd16 (rr_head x) 8 = len (rr_data x).
Proof.
  intros (_ & Ht & Hc & Hl & Hd). pose proof (len_nonneg (rr_data x)). unfold rr_head. split.
  { rewrite !len_app, Hl. reflexivity. }
  split; [apply (rd16_at []); lia|].
  split; [apply (rd16_at (be16_bytes (rr_type x))); lia|].
  rewrite (app_assoc (be16_bytes (rr_class x))), (app_assoc (be16_bytes (rr_type x))).
  set (pre := be16_bytes (rr_type x) ++ be16_bytes (rr_class x) ++ rr_ttl x).
  assert (len pre = 8) as Lp by (unfold pre; rewrite !len_app, Hl; reflexivity).
  rewrite <- Lp. rewrite <- (app_nil_r (be16_bytes _)). apply rd16_at. lia.
Qed.

(** Over a record's name. *)
Lemma answer_name n pre post : dname_ok n ->
  let r := pre ++ dname_bytes n ++ post in
  1 <= len (dname_bytes n) /\
  (let* b := rd_byte r (len pre) in
   if is_pointer b then Ok (len pre + 2) else let* o := skip_name r (len pre) in Ok (o + 1))
  = Ok (len pre + len (dname_bytes n)).
Proof.
  intros Hn r. pose proof (len_nonneg pre). pose proof (len_nonneg post).
  assert (1 <= len (dname_bytes n)) as Hl.
  { destruct n as [hi lo|ls]; [unfold len; cbn; lia|]. pose proof (length_labels ls Hn). cbn [dname_bytes]. lia. }
  split; [done|]. unfold r. rewrite rd_byte_ok by (rewrite !len_app; lia). cbn [rbind].
  rewrite nthZ_app_r by lia. rewrite Z.sub_diag. destruct n as [hi lo|ls]; cbn [dname_bytes dname_ok] in *.
  - change (([hi; lo] ++ post).[0]) with hi. by rewrite Hn.
  - assert (is_pointer ((labels_bytes ls ++ post).[0]) = false) as ->.
    { destruct ls as [|l ls]; [reflexivity|]. apply Forall_cons_1 in Hn as [Hk _].
      change ((labels_bytes (l :: ls) ++ post).[0]) with (len l). unfold label_ok in Hk. apply small_not_pointer. lia. }
    rewrite skip_name_walk by done. cbn [rbind]. f_equal. lia.
Qed.

Lemma walk_answers_first xs : forall pre more, Forall rr_ok xs ->
  walk_answers (length xs) (pre ++ concat (rr_bytes <$> xs) ++ more) (len pre) = Ok (first_a xs).
Proof.
  induction xs as [|x xs IH]; intros pre more Hok; cbn [length walk_answers first_a]; [done|].
  apply Forall_cons_1 in Hok as [Hx Hok]. cbn [fmap list_fmap concat].
  destruct (rr_head_fields x Hx) as (Hh & Et & Ec & Ed). pose proof Hx as (Hn & _).
  set (tl := concat (rr_bytes <$> xs) ++ more).
  assert (pre ++ (rr_bytes x ++ concat (rr_bytes <$> xs)) ++ more
          = pre ++ dname_bytes (rr_name x) ++ rr_head x ++ rr_data x ++ tl) as ->.
  { unfold rr_bytes, rr_head, tl. by rewrite <- !app_assoc. }
  set (rest := rr_head x ++ rr_data x ++ tl). set (nm := dname_bytes (rr_name x)).
  destruct (answer_name (rr_name x) pre rest Hn) as [Hl1 Hstep]. fold nm in Hl1, Hstep.
  assert (len (pre ++ nm ++ rest) = len pre + len nm + 10 + len (rr_data x) + len tl) as HL
    by (unfold rest; rewrite !len_app, Hh; lia).
  pose proof (len_nonneg pre). pose proof (len_nonneg (rr_data x)). pose proof (len_nonneg tl).
  rewrite HL. rewrite (proj2 (Z.leb_gt _ (len pre))) by lia.
  rewrite rd_byte_ok in * by lia. cbn [rbind] in *. rewrite Hstep. cbn [rbind].
  rewrite (proj2 (Z.ltb_ge _ (len pre + len nm + 10))) by lia.
  rewrite rd_bytes_ok by lia. cbn [rbind].
  assert (slice (pre ++ nm ++ rest) (len pre + len nm) 10 = rr_head x) as ->.
  { rewrite app_assoc, <- len_app. rewrite slice_app_r by lia. rewrite Z.sub_diag. unfold rest.
    rewrite slice_app_l by lia. by apply slice_all. }
  cbv zeta. rewrite Et, Ec, Ed. rewrite (proj2 (Z.ltb_ge _ _)) by lia. fold (is_a x).
  destruct (is_a x) eqn:Ea.
  - unfold is_a in Ea. zbool. rewrite rd_bytes_ok by lia. cbn [rbind]. do 2 f_equal.
    replace (len pre + len nm + 10) with (len (pre ++ nm ++ rr_head x)) by (rewrite !len_app, Hh; lia).
    unfold rest. rewrite (app_assoc nm), (app_assoc pre). rewrite slice_app_r by lia. rewrite Z.sub_diag.
    rewrite slice_app_l by lia. by apply slice_all.
  - replace (len pre + len nm + 10 + len (rr_data x)) with (len (pre ++ nm ++ rr_head x ++ rr_data x))
      by (rewrite !len_app, Hh; lia).
    replace (pre ++ nm ++ rest) with ((pre ++ nm ++ rr_head x ++ rr_data x) ++ tl)
      by (unfold rest; by rewrite <- !app_assoc). unfold tl. by apply IH.
Qed.

(** ** Encoding names *)
Lemma label_len_range p : 0 <= label_len p <= len p.
Proof.
  induction p as [|c p IH]; [unfold len; cbn; lia|]. cbn [label_len].
  assert (len (c :: p) = 1 + len p) as -> by (unfold len; cbn [length]; lia). destruct (c =? 46); lia.
Qed.

(** What is sent is a sequence of labels. *)
Lemma encode_labels_shape fuel : forall p o out, encode_labels fuel p o = Some out ->
  exists ls, Forall label_ok ls /\ out = labels_bytes ls.
Proof.
  induction fuel as [|fuel IH]; intros p o out H; destruct p as [|c p]; cbn [encode_labels] in H.
  1,3: injection H as <-; exists []; by split. 1: done. cbv zeta in H.
  set (q := c :: p) in *. destruct (_ || _) eqn:E; [done|]. zbool.
  destruct (encode_labels fuel _ _) as [rest|] eqn:Er; [|done]. injection H as <-.
  destruct (IH _ _ _ Er) as (ls & Hok & ->). pose proof (label_len_range q) as Hr.
  exists (take (Z.to_nat (label_len q)) q :: ls).
  assert (len (take (Z.to_nat (label_len q)) q) = label_len q) as Ll by (unfold len in *; rewrite length_take; lia).
  split; [constructor; [unfold label_ok; rewrite Ll; lia|done]|].
  unfold labels_bytes. cbn [fmap list_fmap concat]. unfold label_bytes at 2. rewrite Ll. by rewrite <- app_assoc.
Qed.

(** Asking for [host] and getting a well-formed answer to that question gives
    the address of the first A record, whatever other records (aliases) come
    before it and whether record names are spelled out or compressed; [None] when
    there is no such record. *)
Theorem dns_finds_first_a host name id fl xs cnts more :
  dns_encode_name host = Some name -> 0 <= id < 65536 -> byte fl -> Z.land fl 128 <> 0 ->
  Forall rr_ok xs -> len xs < 65536 -> len cnts = 4 ->
  dns_answer id (dns_reply id fl 0 name xs cnts more) = Ok (first_a xs).
Proof.
  intros Hname Hid _ Hfl Hxs Hn Hc.
  assert (exists ls, Forall label_ok ls /\ name = labels_bytes ls) as (ls & Hls & ->).
  { unfold dns_encode_name in Hname. destruct host as [|c h]; [done|]. by eapply encode_labels_shape. }
  unfold dns_reply.
  set (hdr := be16_bytes id ++ [fl; 0] ++ [0; 1] ++ be16_bytes (len xs) ++ cnts).
  assert (len hdr = 12) as Lh by (unfold hdr; rewrite !len_app, Hc; reflexivity).
  set (tl := concat (rr_bytes <$> xs) ++ more).
  assert (be16_bytes id ++ [fl; 0] ++ [0; 1] ++ be16_bytes (len xs) ++ cnts ++ labels_bytes ls ++ [0; 1; 0; 1] ++ tl
          = hdr ++ labels_bytes ls ++ [0; 1; 0; 1] ++ tl) as -> by (unfold hdr; by rewrite <- !app_assoc).
  set (r := hdr ++ labels_bytes ls ++ [0; 1; 0; 1] ++ tl).
  pose proof (len_nonneg tl). pose proof (length_labels ls Hls) as Hll.
  assert (len r = 12 + len (labels_bytes ls) + 4 + len tl) as HL by (unfold r; rewrite !len_app, Lh; change (len [0; 1; 0; 1]) with 4; lia).
  unfold dns_answer. rewrite HL. rewrite (proj2 (Z.ltb_ge _ 12)) by lia.
  change (r.[0]) with (u8 (Z.shiftr id 8)). change (r.[1]) with (u8 id). change (r.[2]) with fl. change (r.[3]) with 0.
  assert (u8 id = Z.land id 255) as -> by (unfold u8; symmetry; apply (Z.land_ones id 8); lia).
  rewrite !Z.eqb_refl. cbn [negb orb]. rewrite (proj2 (Z.eqb_neq (Z.land fl 128) 0)) by done.
  change (negb (Z.land 0 15 =? 0)) with false. cbv iota.
  change (rd16 r 4) with 1. change (Z.to_nat 1) with 1%nat. cbn [skip_questions].
  assert (rd16 r 6 = len xs) as ->.
  { pose proof (rd16_at (be16_bytes id ++ [fl; 0] ++ [0; 1]) (len xs) (cnts ++ labels_bytes ls ++ [0; 1; 0; 1] ++ tl)) as H6.
    change (len (be16_bytes id ++ [fl; 0] ++ [0; 1])) with 6 in H6. rewrite <- H6 by (unfold len in *; lia).
    unfold r, hdr. by rewrite <- !app_assoc. }
  unfold r at 1. rewrite <- Lh. rewrite skip_name_walk by done. cbn [rbind].
  fold r. rewrite HL, Lh. rewrite (proj2 (Z.ltb_ge _ _)) by lia. cbn [rbind].
  unfold len at 1. rewrite Nat2Z.id.
  replace (12 + len (labels_bytes ls) - 1 + 5) with (len (hdr ++ labels_bytes ls ++ [0; 1; 0; 1]))
    by (rewrite !len_app, Lh; change (len [0; 1; 0; 1]) with 4; lia).
  unfold r. replace (hdr ++ labels_bytes ls ++ [0; 1; 0; 1] ++ tl) with ((hdr ++ labels_bytes ls ++ [0; 1; 0; 1]) ++ tl)
    by (by rewrite <- !app_assoc). by apply walk_answers_first.
Qed.

Definition demo_host : list Z := [119; 119; 119; 46; 97; 46; 98].
Definition demo_rrs : list rr :=
  [RR (Pointer 192 12) 5 1 [0; 0; 0; 9] [1; 99; 192; 16];
   RR (Labels [[99]; [98]]) 1 1 [0; 0; 0; 9] [93; 184; 216; 34]].
Lemma dns_finds_first_a_witness :
  dns_answer 7 (dns_reply 7 129 0 [3; 119; 119; 119; 1; 97; 1; 98; 0] demo_rrs [0; 0; 0; 0] []) = Ok (Some [93; 184; 216; 34]).
Proof.
  apply (dns_finds_first_a demo_host _ 7 129 demo_rrs [0; 0; 0; 0] []);
    [reflexivity|split; [discriminate|reflexivity]|split; [discriminate|reflexivity]|discriminate| |reflexivity|reflexivity].
  constructor; [|constructor; [|constructor]]; split; [reflexivity| |repeat constructor; discriminate| ];
    repeat split; try discriminate; reflexivity.
Defined.

(** A name made of labels and a final pointer is not understood: the walk steps one
    byte too far and misses the address. *)
Lemma dns_label_pointer_missed :
  dns_answer 7 (be16_bytes 7 ++ [129; 128; 0; 1; 0; 1; 0; 0; 0; 0] ++ labels_bytes [[97]; [98]] ++ [0; 1; 0; 1]
    ++ ([1; 99; 192; 14] ++ [0; 1; 0; 1; 0; 0; 0; 9; 0; 4; 93; 184; 216; 34])) = Ok None.
Proof. vm_compute. reflexivity. Qed.

(** * IP packets *)
Lemma len_be16 v : len (be16_bytes v) = 2.
Proof. reflexivity. Qed.
Lemma len_be32 v : len (be32_bytes v) = 4.
Proof. reflexivity. Qed.
#[export] Hint Resolve bytes_be32 : bytes.

Lemma len_ip_header src dst proto total : len (ip_header src dst proto total) = 20.
Proof. reflexivity. Qed.

(** The header a receiver checks and reads. *)
Lemma ip_header_spec src dst proto total rest : byte proto -> 0 <= total < 65536 ->
  0 <= src < 4294967296 -> 0 <= dst < 4294967296 ->
  let p := ip_header src dst proto total ++ rest in
  net_csum (ip_header src dst proto total) = 0 /\ p.[0] = 69 /\ rd16 p 2 = total /\ p.[9] = proto /\
  rd32 p 12 = src /\ rd32 p 16 = dst /\ drop 20 p = rest.
Proof.
  intros Hp Ht Hs Hd. cbv zeta. unfold ip_header. cbv zeta.
  set (front := [69; 0] ++ be16_bytes total ++ [0; 0; 0; 0; 64; proto]).
  set (back := be32_bytes src ++ be32_bytes dst). set (chk := net_csum (front ++ [0; 0] ++ back)).
  split; [apply net_csum_verify; [unfold front; auto 10 with bytes|unfold back; auto with bytes|reflexivity]|].
  split; [reflexivity|]. split.
  { assert ((front ++ be16_bytes chk ++ back) ++ rest = [69; 0] ++ be16_bytes total ++ ([0; 0; 0; 0; 64; proto] ++ be16_bytes chk ++ back ++ rest)) as ->
      by (unfold front; by rewrite <- !app_assoc). apply (rd16_at [69; 0]). lia. }
  split; [reflexivity|]. split.
  { assert ((front ++ be16_bytes chk ++ back) ++ rest = (front ++ be16_bytes chk) ++ be32_bytes src ++ (be32_bytes dst ++ rest)) as ->
      by (unfold back; by rewrite <- !app_assoc). apply (rd32_at (front ++ be16_bytes chk)). lia. }
  split.
  { assert ((front ++ be16_bytes chk ++ back) ++ rest = (front ++ be16_bytes chk ++ be32_bytes src) ++ be32_bytes dst ++ rest) as ->
      by (unfold back; by rewrite <- !app_assoc). apply (rd32_at (front ++ be16_bytes chk ++ be32_bytes src)). lia. }
  reflexivity.
Qed.

Lemma fw_blocks_app s proto dst p rest : fw_blocks s proto dst (p ++ rest) (len p) = fw_blocks s proto dst p (len p).
Proof.
  unfold fw_blocks. destruct (4 <=? len p) eqn:E; [|done]. zbool. cbn [andb].
  unfold rd16. by rewrite !nthZ_app_l by lia.
Qed.

(** Receiving what [net_ip_send] builds. *)
Lemma process_ip_built e s src dst proto p rest :
  byte proto -> 0 <= src < 4294967296 -> 0 <= dst < 4294967296 -> 20 + len p < 65536 ->
  let pkt := ip_header src dst proto (20 + len p) ++ p in
  process_ip e s (pkt ++ rest) (len pkt) =
  if negb (dst =? own s) && negb (dst =? IP_BROADCAST) && negb (dst =? IP_LOCALHOST) && negb (own s =? 0) then Ok s
  else if fw_blocks s proto dst p (len p) then Ok (fw_count s)
  else ip_dispatch e s proto (p ++ rest) (len p) src (pkt ++ rest) (20 + len p).
Proof.
  intros Hp Hs Hd Hl pkt. pose proof (len_nonneg p).
  assert (len pkt = 20 + len p) as Lp by (unfold pkt; rewrite len_app, len_ip_header; done).
  destruct (ip_header_spec src dst proto (20 + len p) (p ++ rest) Hp ltac:(lia) Hs Hd) as (_ & H0 & H2 & H9 & H12 & H16 & Hdr).
  unfold pkt. rewrite <- app_assoc. set (b := ip_header src dst proto (20 + len p) ++ p ++ rest) in *.
  fold pkt. unfold process_ip. rewrite Lp. rewrite (proj2 (Z.ltb_ge (20 + len p) 20)) by lia.
  cbv zeta. rewrite H0, H2, H9, H12, H16.
  change (u8 (Z.land 69 15 * 4)) with 20. change (Z.to_nat 20) with 20%nat. rewrite Hdr.
  destruct (negb (dst =? own s) && _ && _ && _); [done|].
  rewrite (proj2 (Z.ltb_ge (20 + len p) 20)), (proj2 (Z.ltb_ge (20 + len p) (20 + len p))) by lia. cbn [orb].
  replace (20 + len p - 20) with (len p) by lia. by rewrite fw_blocks_app.
Qed.

(** ** The loopback ring *)
Definition lo_wf (l : loopback) : Prop :=
  length (g_lo_q l) = 8%nat /\ 0 <= g_lo_head l < 8 /\ 0 <= g_lo_count l <= 8 /\
  g_lo_tail l = (g_lo_head l + g_lo_count l) mod 8.
(** The packets under way, oldest first. *)
Definition lo_packets (l : loopback) : list (list Z) := ring [] (g_lo_q l) (g_lo_head l) (g_lo_count l).

Lemma lo_push_spec l p : lo_wf l -> g_lo_count l < 8 ->
  lo_wf (lo_push l p) /\ lo_packets (lo_push l p) = lo_packets l ++ [p].
Proof.
  intros (Hq & Hh & Hc & Ht) Hlt. unfold lo_push. split.
  - unfold lo_wf. cbn -[Z.modulo]. rewrite length_insert. rewrite Ht. unfold LOOPBACK_QUEUE. rewrite Zplus_mod_idemp_l.
    split; [done|]. split; [done|]. split; [lia|]. f_equal. lia.
  - unfold lo_packets. cbn -[Z.modulo ring]. rewrite Ht. replace 8 with (len (g_lo_q l)) by (unfold len; lia).
    apply ring_push. unfold len. lia.
Qed.

Lemma lo_pop_spec l : lo_wf l -> 0 < g_lo_count l ->
  lo_wf (lo_pop l) /\ lo_packets l = lo_first l :: lo_packets (lo_pop l).
Proof.
  intros (Hq & Hh & Hc & Ht) Hlt. unfold lo_pop. split.
  - unfold lo_wf. cbn -[Z.modulo]. unfold LOOPBACK_QUEUE. split; [done|]. split; [apply Z.mod_pos_bound; lia|].
    split; [lia|]. rewrite Zplus_mod_idemp_l, Ht. f_equal. lia.
  - unfold lo_packets, lo_first. cbn -[Z.modulo ring]. rewrite ring_pop by lia.
    assert (len (g_lo_q l) = 8) as -> by (unfold len; lia). rewrite (Z.mod_small (g_lo_head l)) by lia. reflexivity.
Qed.

Lemma lo_send e s src dst proto p : is_loopback dst = true -> len p <= 1508 -> g_lo_count (lo s) < 8 ->
  fw_blocks s proto dst p (len p) = false ->
  net_ip_send e s src dst proto p =
    Ok (set_lo (lo_push (lo s) (ip_header IP_LOCALHOST dst proto (20 + len p) ++ p)) s, 0).
Proof.
  intros Hl Hp Hc Hf. pose proof (len_nonneg p). unfold net_ip_send. cbv zeta. rewrite Hf, Hl.
  rewrite (proj2 (Z.ltb_ge 1528 (20 + len p))) by lia. rewrite (proj2 (Z.leb_gt LOOPBACK_QUEUE _)) by (unfold LOOPBACK_QUEUE; lia).
  rewrite u16_small by lia. done.
Qed.

(** One turn of the loopback loop. *)
Lemma pump_lo_one e es s p q : lo_wf (lo s) -> lo_packets (lo s) = p :: q ->
  pump_lo (e :: es) s =
  let* s := process_ip e (set_tmp_buf (blit (tmp_buf s) 0 p) (set_lo (lo_pop (lo s)) s))
              (p ++ drop (length p) (tmp_buf s)) (len p) in pump_lo es s.
Proof.
  intros Hw Hp. cbn [pump_lo].
  assert (0 < g_lo_count (lo s)) as Hc.
  { destruct Hw as (_ & _ & Hc & _). destruct (Z.eq_dec (g_lo_count (lo s)) 0) as [E|]; [|lia].
    unfold lo_packets in Hp. rewrite E in Hp. discriminate. }
  rewrite (proj2 (Z.ltb_lt 0 (g_lo_count (lo s)))) by lia. destruct (lo_pop_spec (lo s) Hw Hc) as [_ E].
  rewrite Hp in E. injection E as <- _. reflexivity.
Qed.

Lemma pump_lo_done es s : lo_packets (lo s) = [] -> lo_wf (lo s) -> pump_lo es s = Ok s.
Proof.
  intros Hp (_ & _ & Hc & _). assert (g_lo_count (lo s) = 0) as E.
  { unfold lo_packets in Hp. apply (f_equal length) in Hp. rewrite length_ring in Hp. cbn in Hp. lia. }
  destruct es; cbn [pump_lo]; by rewrite E.
Qed.

(** Nothing arrived at the card. *)
Definition idle (s : net) : Prop := snd (nic_rx (nic_poll (card s)) 2048) = [].

Lemma net_pump_idle es s : idle s -> exists s', s' = set_card (card s') s /\ net_pump es s = pump_lo es s'.
Proof.
  intros Hi. exists (set_card (fst (nic_rx (nic_poll (card s)) 2048)) (set_card (nic_poll (card s)) s)).
  split; [done|]. unfold net_pump. destruct es; cbn [pump_rx]; cbn [card set_card]; unfold idle in Hi; by rewrite Hi.
Qed.

(** ** A datagram to ourselves *)
Lemma len_udp_datagram sp dp d : len (udp_datagram sp dp d) = 8 + len d.
Proof. unfold udp_datagram. rewrite !len_app, !len_be16. change (len [0; 0]) with 2. lia. Qed.

Lemma udp_emit_all e s src dst sp dp d : len d <= 65527 ->
  udp_emit e s src dst sp dp d = net_ip_send e s src dst 17 (udp_datagram sp dp d).
Proof.
  intros Hd. pose proof (len_nonneg d). unfold udp_emit. rewrite u16_small by lia.
  rewrite take_ge; [done|]. pose proof (len_udp_datagram sp dp d) as Hl. unfold len in *. lia.
Qed.

Lemma udp_datagram_fields sp dp d rest : 0 <= dp < 65536 ->
  rd16 (udp_datagram sp dp d ++ rest) 2 = dp /\ slice (udp_datagram sp dp d ++ rest) 8 (len d) = d.
Proof.
  intros Hd. unfold udp_datagram. split.
  - rewrite <- !app_assoc. apply (rd16_at (be16_bytes sp)). lia.
  - assert ((be16_bytes sp ++ be16_bytes dp ++ be16_bytes (u16 (8 + len d)) ++ [0; 0] ++ d) ++ rest
      = (be16_bytes sp ++ be16_bytes dp ++ be16_bytes (u16 (8 + len d)) ++ [0; 0]) ++ d ++ rest) as ->
      by (by rewrite <- !app_assoc).
    rewrite slice_app_r by (unfold len; cbn; lia).
    change (8 - len (be16_bytes sp ++ be16_bytes dp ++ be16_bytes (u16 (8 + len d)) ++ [0; 0])) with 0.
    pose proof (len_nonneg d). rewrite slice_app_l by lia. by apply slice_all.
Qed.

Lemma ready_loopback e s ip : is_loopback ip = true -> arp_ready e s ip = true.
Proof. intros H. unfold arp_ready. by rewrite H. Qed.

Lemma next_hop_localhost rs : route_next_hop rs IP_LOCALHOST = IP_LOCALHOST.
Proof. reflexivity. Qed.

Lemma lo_packets_nil l : g_lo_count l = 0 -> lo_packets l = [].
Proof. unfold lo_packets. by intros ->. Qed.

(** A packet of ours to 127.0.0.1, as the loopback ring carries it. *)
Definition local_packet (proto : Z) (p : list Z) : list Z :=
  ip_header IP_LOCALHOST IP_LOCALHOST proto (20 + len p) ++ p.
(** The state in which it is processed, and what lies behind it in the buffer. *)
Definition popped (s : net) (pkt : list Z) : net :=
  set_tmp_buf (blit (tmp_buf s) 0 pkt) (set_lo (lo_pop (lo s)) s).
Definition behind (s : net) (pkt : list Z) : list Z := drop (length pkt) (tmp_buf s).

Lemma pump_localhost e es s proto p q : byte proto -> 20 + len p < 65536 -> lo_wf (lo s) ->
  lo_packets (lo s) = local_packet proto p :: q -> fw_blocks s proto IP_LOCALHOST p (len p) = false ->
  let s1 := popped s (local_packet proto p) in
  let rest := behind s (local_packet proto p) in
  lo_wf (lo s1) /\ lo_packets (lo s1) = q /\ g_lo_count (lo s1) = g_lo_count (lo s) - 1 /\
  pump_lo (e :: es) s =
  let* s2 := ip_dispatch e s1 proto (p ++ rest) (len p) IP_LOCALHOST (local_packet proto p ++ rest) (20 + len p) in
  pump_lo es s2.
Proof.
  intros Hb Hl Hw Hq Hf s1 rest.
  assert (0 < g_lo_count (lo s)) as Hc.
  { destruct Hw as (_ & _ & Hc & _). destruct (Z.eq_dec (g_lo_count (lo s)) 0) as [E|]; [|lia].
    rewrite lo_packets_nil in Hq by done. discriminate. }
  destruct (lo_pop_spec (lo s) Hw Hc) as [Hw1 Hq1]. rewrite Hq in Hq1. injection Hq1 as _ Hq1.
  split; [exact Hw1|]. split; [exact (eq_sym Hq1)|]. split; [done|].
  rewrite (pump_lo_one e es s _ q Hw Hq).
  pose proof (process_ip_built e s1 IP_LOCALHOST IP_LOCALHOST proto p rest Hb
    ltac:(split; [discriminate|reflexivity]) ltac:(split; [discriminate|reflexivity]) Hl) as Hp.
  cbv zeta in Hp. fold (local_packet proto p) in Hp. unfold s1, rest, popped, behind in *. rewrite Hp.
  change (IP_LOCALHOST =? IP_LOCALHOST) with true. cbn [negb]. rewrite !andb_false_r. cbn [andb].
  change (fw_blocks (set_tmp_buf ?b ?x) proto IP_LOCALHOST p (len p)) with (fw_blocks s proto IP_LOCALHOST p (len p)).
  by rewrite Hf.
Qed.

Lemma send_localhost e s src proto p : lo_wf (lo s) -> g_lo_count (lo s) = 0 -> len p <= 1508 ->
  fw_blocks s proto IP_LOCALHOST p (len p) = false ->
  let s1 := set_lo (lo_push (lo s) (local_packet proto p)) s in
  net_ip_send e s src IP_LOCALHOST proto p = Ok (s1, 0) /\ lo_wf (lo s1) /\
  lo_packets (lo s1) = [local_packet proto p] /\ g_lo_count (lo s1) = 1.
Proof.
  intros Hw Hc Hl Hf. cbv zeta. split; [apply lo_send; (done || lia)|].
  destruct (lo_push_spec (lo s) (local_packet proto p) Hw ltac:(lia)) as [Hw1 Hq]. rewrite (lo_packets_nil (lo s)) in Hq by done.
  split; [exact Hw1|]. split; [exact Hq|]. cbn [lo set_lo g_lo_count lo_push]. lia.
Qed.

(** Delivering a datagram to the socket. *)
Lemma process_udp_socket e s sp port data rest src ip total : g_udp_src_port (udp s) = port -> 0 <= port < 65536 ->
  port <> UDP_DHCP_CLIENT -> port <> DNS_CLIENT_PORT -> len data <= 2048 ->
  process_udp e s (udp_datagram sp port data ++ rest) (len (udp_datagram sp port data)) src ip total =
  Ok (set_udp (UdpClient (g_udp_src_port (udp s)) data (g_dns_rx (udp s)) (g_dns_id (udp s))) s).
Proof.
  intros Hp Hr H1 H2 Hd. pose proof (len_nonneg data). rewrite len_udp_datagram.
  destruct (udp_datagram_fields sp port data rest Hr) as [F2 F8].
  unfold process_udp. cbv zeta. rewrite (proj2 (Z.ltb_ge (8 + len data) 8)) by lia. rewrite F2, Hp.
  rewrite (proj2 (Z.eqb_neq port UDP_DHCP_CLIENT)), (proj2 (Z.eqb_neq port DNS_CLIENT_PORT)), Z.eqb_refl by done.
  replace (8 + len data - 8) with (len data) by lia.
  rewrite (proj2 (Z.ltb_ge UDP_RXBUF (len data))) by (unfold UDP_RXBUF; lia). by rewrite F8.
Qed.

(** [C10] A datagram of 1 to 1500 bytes sent to 127.0.0.1 on the socket's own port comes
    back unchanged: [net_udp_send] queues it, one turn of the pump delivers it, and
    [net_udp_recv] returns its bytes, with any own address or none. The port is not one
    the receive path keeps for itself (68 for DHCP, 5353 for DNS answers), the firewall
    lets UDP to that port of 127.0.0.1 through, the loopback ring is empty before, and
    nothing has arrived at the card. *)
Theorem udp_loopback_roundtrip e e' s port data :
  lo_wf (lo s) -> g_lo_count (lo s) = 0 -> idle s ->
  g_udp_src_port (udp s) = port -> 0 <= port < 65536 -> port <> UDP_DHCP_CLIENT -> port <> DNS_CLIENT_PORT ->
  1 <= len data <= 1500 -> net_fw_check (g_fw s) 17 IP_LOCALHOST port = false ->
  exists s1 s2, net_udp_send [] e s IP_LOCALHOST port data = Ok (s1, 0, e) /\
    net_pump [e'] s1 = Ok s2 /\ snd (net_udp_recv s2 2048) = data.
Proof.
  intros Hw Hc Hi Hp Hpr Hp1 Hp2 Hd Hf. set (dg := udp_datagram port port data).
  assert (len dg = 8 + len data) as Ldg by apply len_udp_datagram.
  assert (fw_blocks s 17 IP_LOCALHOST dg (len dg) = false) as Hfw.
  { unfold fw_blocks. destruct (udp_datagram_fields port port data [] Hpr) as [E _]. rewrite app_nil_r in E.
    fold dg in E. rewrite E, Hf. apply andb_false_r. }
  destruct (send_localhost e s (own s) 17 dg Hw Hc ltac:(lia) Hfw) as (Hs & Hw1 & Hq1 & _).
  set (s1 := set_lo (lo_push (lo s) (local_packet 17 dg)) s) in *.
  assert (net_udp_send [] e s IP_LOCALHOST port data = Ok (s1, 0, e)) as E1.
  { unfold net_udp_send, udp_raw_send, net_arp_resolve. change (is_loopback IP_LOCALHOST) with true.
    rewrite andb_false_r, next_hop_localhost. cbn [Z.eqb Pos.eqb IP_LOCALHOST IP_BROADCAST].
    rewrite ready_loopback by done. cbn [rbind Z.eqb negb]. rewrite Hp, udp_emit_all by lia. fold dg. by rewrite Hs. }
  destruct (net_pump_idle [e'] s1 Hi) as (s1' & Es1 & Epump).
  assert (lo s1' = lo s1 /\ fw_blocks s1' 17 IP_LOCALHOST dg (len dg) = false /\ udp s1' = udp s) as (El & Hfw' & Eu)
    by (rewrite Es1; split; [done|split; [exact Hfw|done]]).
  rewrite <- El in Hw1, Hq1.
  destruct (pump_localhost e' [] s1' 17 dg [] ltac:(split; [discriminate|reflexivity]) ltac:(lia) Hw1 Hq1 Hfw')
    as (Hw2 & Hq2 & _ & Hpl).
  change (ip_dispatch ?a ?b 17 ?c ?d ?x ?y ?z) with (process_udp a b c d x y z) in Hpl.
  match type of Hpl with context [process_udp e' ?st (dg ++ ?r) (len dg) ?src ?ip ?t] =>
    pose proof (process_udp_socket e' st port port data r src ip t) as Hpu end.
  fold dg in Hpu. rewrite Hpu in Hpl; [|change (g_udp_src_port (udp s1') = port); by rewrite Eu|done|done|done|lia].
  cbn [rbind] in Hpl. rewrite (pump_lo_done []) in Hpl; [|exact Hq2|exact Hw2].
  eexists s1, _. split; [exact E1|]. split; [by rewrite Epump|].
  unfold net_udp_recv. cbn [udp set_udp g_udp_rx]. destruct data as [|x d]; [unfold len in Hd; cbn in Hd; lia|].
  cbn [snd]. apply take_ge. rewrite (proj2 (Z.ltb_ge 2048 _)) by lia. unfold len. lia.
Qed.

Definition demo_net : net := net_init net_boot demo_mac.

Lemma udp_loopback_roundtrip_witness :
  exists s1 s2, net_udp_send [] demo_env demo_net IP_LOCALHOST 7777 [1; 2; 3] = Ok (s1, 0, demo_env) /\
    net_pump [demo_env] s1 = Ok s2 /\ snd (net_udp_recv s2 2048) = [1; 2; 3].
Proof.
  apply (udp_loopback_roundtrip demo_env demo_env demo_net 7777 [1; 2; 3]).
  - split; [reflexivity|]. split; [split; [discriminate|reflexivity]|]. split; [split; discriminate|reflexivity].
  - reflexivity.
  - vm_compute. reflexivity.
  - reflexivity.
  - split; [discriminate|reflexivity].
  - discriminate.
  - discriminate.
  - split; discriminate.
  - reflexivity.
Defined.

(** ** Ping *)
Lemma len_icmp_message k c b : len (icmp_message k c b) = 4 + len b.
Proof. unfold icmp_message. rewrite !len_app. rewrite len_be16. change (len [k; c]) with 2. lia. Qed.

Lemma icmp_message_body k c b rest n : 0 <= n <= len b -> slice (icmp_message k c b ++ rest) 4 n = slice b 0 n.
Proof.
  intros Hn. unfold icmp_message. set (chk := net_csum _).
  assert (([k; c] ++ be16_bytes chk ++ b) ++ rest = ([k; c] ++ be16_bytes chk) ++ b ++ rest) as -> by (by rewrite <- !app_assoc).
  rewrite slice_app_r by (unfold len; cbn; lia). change (4 - len ([k; c] ++ be16_bytes chk)) with 0.
  by rewrite slice_app_l by lia.
Qed.

Lemma land_255 x : Z.land x 255 = u8 x.
Proof. unfold u8. apply (Z.land_ones x 8). lia. Qed.

(** Requests and replies carry identifier and sequence number the same way. *)
Lemma icmp_message_ids k c id seq b rest : 0 <= id < 65536 -> 0 <= seq < 65536 ->
  let m := icmp_message k c ([u8 (Z.shiftr id 8); Z.land id 255; u8 (Z.shiftr seq 8); Z.land seq 255] ++ b) ++ rest in
  rd16 m 4 = id /\ rd16 m 6 = seq /\
  slice m 4 4 = [u8 (Z.shiftr id 8); Z.land id 255; u8 (Z.shiftr seq 8); Z.land seq 255].
Proof.
  intros Hi Hs. cbv zeta. split; [|split].
  - change (u16 (Z.lor (Z.shiftl (u8 (Z.shiftr id 8)) 8) (Z.land id 255)) = id).
    rewrite land_255, be16_join by lia. by apply u16_small.
  - change (u16 (Z.lor (Z.shiftl (u8 (Z.shiftr seq 8)) 8) (Z.land seq 255)) = seq).
    rewrite land_255, be16_join by lia. by apply u16_small.
  - rewrite icmp_message_body; [reflexivity|]. rewrite len_app. change (len [_; _; _; _]) with 4.
    pose proof (len_nonneg b). lia.
Qed.

(** The reply to an echo request of at most 60 bytes: identifier, number and data,
    and the 4 bytes that lie behind the request in the buffer. *)
Lemma process_icmp_echo e s p rest src : 8 <= len p -> len p <= 60 -> 4 <= len rest -> p.[0] = 8 ->
  process_icmp e s (p ++ rest) (len p) src =
  let* r := ip_send e s src 1 (icmp_message 0 0 (slice p 4 (len p - 4) ++ take 4 rest)) in Ok (fst r).
Proof.
  intros Hl Hu Hr H0. unfold process_icmp. rewrite (proj2 (Z.ltb_ge (len p) 8)) by lia.
  rewrite nthZ_app_l by lia. rewrite H0. cbn [Z.eqb Pos.eqb].
  assert (echo_len (len p) = len p - 4) as ->.
  { unfold echo_len. rewrite (proj2 (Z.ltb_lt 4 (len p))) by lia. by rewrite (proj2 (Z.ltb_ge 56 (len p - 4))) by lia. }
  rewrite rd_bytes_ok by (rewrite ?len_app; lia). cbn [rbind].
  rewrite slice_app_l by lia. do 2 f_equal.
  assert (slice (p ++ rest) 8 (len p - 4) = drop 8 p ++ take 4 rest) as ->.
  { unfold slice, len in *. change (Z.to_nat 8) with 8%nat. rewrite drop_app_le by lia.
    rewrite take_app, length_drop. rewrite take_ge by (rewrite length_drop; lia). f_equal. f_equal. lia. }
  rewrite app_assoc. f_equal. f_equal. unfold slice, len in *. change (Z.to_nat 4) with 4%nat.
  replace (Z.to_nat (Z.of_nat (length p) - 4)) with (4 + (length p - 8))%nat by lia.
  rewrite <- take_take_drop. rewrite drop_drop. rewrite (take_ge (drop (4 + 4) p)); [done|rewrite length_drop; lia].
Qed.

Lemma len_body : len ((fun i => u8 (i + 65)) <$> seqZ 8 32) = 32.
Proof. reflexivity. Qed.

(** The second half: the reply reaches the client that waits for it. *)
Lemma process_icmp_reply e s p rest id seq : 8 <= len p -> p.[0] = 0 -> rd16 (p ++ rest) 4 = id -> rd16 (p ++ rest) 6 = seq ->
  process_icmp e s (p ++ rest) (len p) IP_LOCALHOST =
  Ok (set_ping (PingClient (g_ping_id (ping s)) (g_ping_seq (ping s)) true IP_LOCALHOST id seq) s).
Proof.
  intros Hl H0 H4 H6. unfold process_icmp. rewrite (proj2 (Z.ltb_ge (len p) 8)) by lia.
  rewrite nthZ_app_l by lia. rewrite H0. cbn [Z.eqb]. cbv zeta. by rewrite H4, H6.
Qed.

(** Both packets of a ping to ourselves, in two turns of the loop. *)
Lemma pump_ping e1 e2 es s id seq : 0 <= id < 65536 -> 0 <= seq < 65536 -> lo_wf (lo s) ->
  lo_packets (lo s) = [local_packet 1 (echo_request id seq)] -> length (tmp_buf s) = 1528%nat ->
  exists s', pump_lo (e1 :: e2 :: es) s = Ok s' /\ ping s' = PingClient (g_ping_id (ping s)) (g_ping_seq (ping s)) true IP_LOCALHOST id seq.
Proof.
  intros Hi Hs Hw Hq Ht. set (req := echo_request id seq) in *.
  assert (len req = 40) as Lr by (unfold req, echo_request; rewrite len_icmp_message; reflexivity).
  destruct (pump_localhost e1 (e2 :: es) s 1 req [] ltac:(split; [discriminate|reflexivity]) ltac:(lia) Hw Hq)
    as (Hw1 & Hq1 & Hc1 & ->). { unfold fw_blocks. by rewrite andb_false_r. }
  set (s1 := popped s (local_packet 1 req)) in *. set (rest := behind s (local_packet 1 req)).
  assert (4 <= len rest) as Hrest.
  { unfold rest, behind, len. rewrite length_drop. unfold local_packet. rewrite length_app.
    unfold len in Lr. change (length (ip_header _ _ _ _)) with 20%nat. lia. }
  change (ip_dispatch ?a ?b 1 ?c ?d ?x ?y ?z) with (process_icmp a b c d x).
  rewrite process_icmp_echo by (first [lia|reflexivity]).
  assert (g_lo_count (lo s1) = 0) as C1.
  { destruct Hw1 as (_ & _ & ? & _). apply (f_equal length) in Hq1. unfold lo_packets in Hq1. rewrite length_ring in Hq1. cbn in Hq1. lia. }
  rewrite Lr. change (40 - 4) with 36.
  set (ids := [u8 (Z.shiftr id 8); Z.land id 255; u8 (Z.shiftr seq 8); Z.land seq 255]).
  assert (slice req 4 36 = ids ++ ((fun i => u8 (i + 65)) <$> seqZ 8 32)) as ->.
  { pose proof (icmp_message_body 8 0 (ids ++ ((fun i => u8 (i + 65)) <$> seqZ 8 32)) [] 36) as E.
    rewrite app_nil_r in E. change (icmp_message 8 0 (ids ++ ((fun i => u8 (i + 65)) <$> seqZ 8 32))) with req in E. rewrite E by (rewrite len_app, len_body; change (len ids) with 4; lia).
    apply slice_all. rewrite len_app, len_body. reflexivity. }
  rewrite <- app_assoc. set (b := _ ++ take 4 rest).
  assert (len b = 36) as Lb by (unfold b; rewrite len_app, len_body; unfold len; rewrite length_take; unfold len in Hrest; lia).
  set (rep := icmp_message 0 0 (ids ++ b)).
  assert (len rep = 44) as Lrep by (unfold rep; rewrite len_icmp_message, len_app, Lb; reflexivity).
  destruct (send_localhost e1 s1 (own s1) 1 rep Hw1 C1 ltac:(lia)) as (Hsend & Hw2 & Hq2 & _).
  { unfold fw_blocks. by rewrite andb_false_r. }
  unfold ip_send. rewrite Hsend. cbn [rbind fst]. set (s2 := set_lo _ s1) in *.
  destruct (pump_localhost e2 es s2 1 rep [] ltac:(split; [discriminate|reflexivity]) ltac:(lia) Hw2 Hq2)
    as (Hw3 & Hq3 & _ & ->). { unfold fw_blocks. by rewrite andb_false_r. }
  change (ip_dispatch ?a ?b 1 ?c ?d ?x ?y ?z) with (process_icmp a b c d x).
  destruct (icmp_message_ids 0 0 id seq b (behind s2 (local_packet 1 rep)) Hi Hs) as (I4 & I6 & _).
  fold ids rep in I4, I6.
  rewrite (process_icmp_reply _ _ rep _ id seq) by (first [lia|reflexivity|done]). cbn [rbind].
  eexists. split; [apply pump_lo_done; [exact Hq3|exact Hw3]|]. reflexivity.
Qed.

(** A ping to 127.0.0.1 is answered: the request goes through the loopback
    ring, the stack replies to itself, and the waiting loop returns success after
    its first turn, with any own address or none. *)
Theorem ping_localhost e r e1 e2 es rounds s :
  lo_wf (lo s) -> g_lo_count (lo s) = 0 -> idle s -> length (tmp_buf s) = 1528%nat ->
  r_fill r = [] -> r_envs r = e1 :: e2 :: es ->
  exists s', net_icmp_ping (r :: rounds) e s IP_LOCALHOST = Ok (s', 0).
Proof.
  intros Hw Hc Hi Ht Hf He. unfold net_icmp_ping. change (is_loopback IP_LOCALHOST) with true. rewrite andb_false_r.
  cbv zeta. set (id := u16 _). set (seq := u16 (g_ping_seq (ping s) + 1)).
  assert (0 <= id < 65536 /\ 0 <= seq < 65536) as [Hid Hseq] by (split; apply u16_range).
  set (s0 := set_ping _ s).
  assert (len (echo_request id seq) = 40) as Lr by (unfold echo_request; rewrite len_icmp_message; reflexivity).
  destruct (send_localhost e s0 (own s0) 1 (echo_request id seq) Hw Hc ltac:(lia)) as (-> & Hw1 & Hq1 & _).
  { unfold fw_blocks. by rewrite andb_false_r. }
  cbn [rbind fst snd Z.eqb negb ping_wait]. rewrite Z.sub_diag. change (u64 0 <? MS_TO_TICKS 1500) with true. cbv iota.
  set (s1 := set_lo _ s0) in *. unfold pump_round. rewrite Hf, He. cbn [fold_left].
  destruct (net_pump_idle (e1 :: e2 :: es) (set_card (card s1) s1) Hi) as (s1' & Es1 & ->).
  destruct (pump_ping e1 e2 es s1' id seq Hid Hseq) as (s2 & -> & Hp).
  { rewrite Es1. exact Hw1. }
  { rewrite Es1. exact Hq1. }
  { rewrite Es1. exact Ht. }
  cbn [rbind]. rewrite Hp. cbn [g_ping_hit g_ping_reply_src g_ping_reply_id g_ping_reply_seq g_ping_id g_ping_seq].
  rewrite Es1. change (ping (set_card (card s1') (set_card (card s1) s1))) with (ping s0).
  change (g_ping_id (ping s0)) with id. change (g_ping_seq (ping s0)) with seq. rewrite !Z.eqb_refl. by eexists.
Qed.

Lemma ping_localhost_witness :
  exists s', net_icmp_ping [Round [] [demo_env; demo_env] demo_env] demo_env demo_net IP_LOCALHOST = Ok (s', 0).
Proof.
  apply (ping_localhost demo_env (Round [] [demo_env; demo_env] demo_env) demo_env demo_env [] [] demo_net);
    first [reflexivity | vm_compute; reflexivity | idtac].
  split; [reflexivity|]. split; [split; [discriminate|reflexivity]|]. split; [split; discriminate|reflexivity].
Defined.

(** * Bounds *)
(** A UDP send overruns its buffers exactly when the data is longer than 1476
    bytes (1500 for a loopback destination): neither [net_udp_send] nor
    [net_ip_send] compares the length with the frame and ring slots. *)
Theorem udp_send_overrun e s dst port data :
  len data <= 65527 -> (own s = 0 -> is_loopback dst = true) -> route_next_hop (g_routes s) dst <> 0 ->
  arp_ready e s dst = true ->
  fw_blocks s 17 dst (udp_datagram (g_udp_src_port (udp s)) port data) (8 + len data) = false ->
  net_udp_send [] e s dst port data = Oob <-> (if is_loopback dst then 1500 else 1476) < len data.
Proof.
  intros Hd Ho Hnh Har Hf. unfold net_udp_send.
  assert ((own s =? 0) && negb (is_loopback dst) = false) as ->.
  { destruct (own s =? 0) eqn:E; [|done]. zbool. by rewrite Ho. }
  unfold udp_raw_send. rewrite (proj2 (Z.eqb_neq (route_next_hop (g_routes s) dst) 0)) by done.
  assert ((if route_next_hop (g_routes s) dst =? IP_BROADCAST then Ok (s, 0, e) else net_arp_resolve [] e s dst) = Ok (s, 0, e)) as ->.
  { destruct (_ =? IP_BROADCAST); [done|]. unfold net_arp_resolve. by rewrite Har. }
  cbn [rbind Z.eqb negb]. rewrite udp_emit_all by done. set (dg := udp_datagram _ port data) in *.
  assert (len dg = 8 + len data) as Ldg by apply len_udp_datagram. pose proof (len_nonneg data).
  assert (forall x : res (net * Z), (let* r := x in Ok (fst r, snd r, e)) = Oob <-> x = Oob) as -> by (intros [?| |]; done).
  unfold net_ip_send. cbv zeta. rewrite Ldg, Hf. destruct (is_loopback dst) eqn:El.
  - destruct (1528 <? 20 + (8 + len data)) eqn:E; zbool; [split; [lia|done]|].
    destruct (LOOPBACK_QUEUE <=? _); split; (done || lia).
  - unfold arp_ready in Har. rewrite El in Har. rewrite (proj2 (Z.eqb_neq (route_next_hop (g_routes s) dst) 0)) in * by done.
    cbn [orb] in Har. destruct (_ =? IP_BROADCAST); [|destruct (arp_lookup _ _ _); [|done]].
    all: destruct (1518 <? 34 + (8 + len data)) eqn:E; zbool; split; (done || lia).
Qed.

Definition demo_arp : list arp_ent := ArpEnt 167772674 [82; 85; 10; 0; 2; 2] true 900 :: replicate 7 no_arp.
Definition demo_up : net :=
  set_g_arp demo_arp (net_slirp_fallback demo_net).

Lemma udp_send_overrun_witness :
  net_udp_send [] demo_env demo_up 167772674 9 (zeros 1477) = Oob <-> 1476 < len (zeros 1477).
Proof.
  apply (udp_send_overrun demo_env demo_up 167772674 9 (zeros 1477));
    first [discriminate | reflexivity | vm_compute; reflexivity | (intros E; discriminate E)
          | (vm_compute; intros E; discriminate E)].
Defined.

(** * DHCP *)
(** Options as a server writes them. *)
Definition tlv (o : Z * list Z) : list Z := fst o :: len (snd o) :: snd o.
Definition tlv_ok (o : Z * list Z) : Prop := byte (fst o) /\ fst o <> 255 /\ len (snd o) <= 255.

(** What an option adds to those before it. *)
Definition dhcp_apply (a : dhcp_opts) (o : Z * list Z) : dhcp_opts :=
  let '(c, v) := o in
  DhcpOpts
    (if (c =? 53) && (1 <=? len v) then v.[0] else o_msgtype a)
    (if (c =? 1) && (4 <=? len v) then rd32 v 0 else o_mask a)
    (if (c =? 3) && (4 <=? len v) then rd32 v 0 else o_router a)
    (if (c =? 6) && (4 <=? len v) then rd32 v 0 else o_dns a)
    (if (c =? 54) && (4 <=? len v) then rd32 v 0 else o_srv a).

Lemma len_tlv o : len (tlv o) = 2 + len (snd o).
Proof. unfold tlv, len. cbn [length]. lia. Qed.

Lemma dhcp_option_at pre o rest a :
  dhcp_option (pre ++ tlv o ++ rest) (len pre) (fst o) (len (snd o)) a = dhcp_apply a o.
Proof.
  destruct o as [c v]. cbn [fst snd]. pose proof (len_nonneg pre).
  assert (forall i, 0 <= i < len v -> (pre ++ tlv (c, v) ++ rest).[len pre + 2 + i] = v.[i]) as Hr.
  { intros i Hi. rewrite nthZ_app_r by lia. rewrite nthZ_app_l by (rewrite len_tlv; cbn [snd]; lia).
    change (tlv (c, v)) with ([c; len v] ++ v). rewrite nthZ_app_r by (unfold len; cbn; lia). f_equal.
    change (len [c; len v]) with 2. lia. }
  assert (1 <= len v -> (pre ++ tlv (c, v) ++ rest).[len pre + 2] = v.[0]) as H0.
  { intros. rewrite <- (Hr 0) by lia. f_equal. lia. }
  assert (4 <= len v -> rd32 (pre ++ tlv (c, v) ++ rest) (len pre + 2) = rd32 v 0) as H4.
  { intros. unfold rd32. by rewrite H0, (Hr 1), (Hr 2), (Hr 3) by lia. }
  unfold dhcp_option, dhcp_apply.
  destruct (Z.leb_spec 1 (len v)), (Z.leb_spec 4 (len v)); try lia; rewrite ?andb_false_r; rewrite ?H0, ?H4 by lia; done.
Qed.

Lemma dhcp_options_walk os : forall fuel pre rest a, (length os <= fuel)%nat -> Forall tlv_ok os ->
  let p := pre ++ concat (tlv <$> os) ++ [255] ++ rest in
  dhcp_options fuel p (len pre + len (concat (tlv <$> os)) + 1) (len pre) a = Ok (fold_left dhcp_apply os a).
Proof.
  induction os as [|o os IH]; intros fuel pre rest a Hf Hok; cbv zeta.
  - cbn [fmap list_fmap concat app fold_left]. change (len (@nil Z)) with 0.
    assert ((pre ++ 255 :: rest).[len pre] = 255) as E by (rewrite nthZ_app_r by lia; by rewrite Z.sub_diag).
    destruct fuel; cbn [dhcp_options]; rewrite E; cbn [Z.eqb Pos.eqb negb]; by rewrite andb_false_r.
  - apply Forall_cons_1 in Hok as [(Hb & Hne & Hlv) Hok]. destruct fuel as [|fuel]; [cbn in Hf; lia|].
    cbn [fmap list_fmap concat fold_left]. set (cs := concat (tlv <$> os)) in *.
    rewrite len_app, len_tlv. rewrite <- app_assoc. pose proof (len_nonneg pre). pose proof (len_nonneg cs).
    pose proof (len_nonneg (snd o)). pose proof (len_nonneg rest).
    set (p := pre ++ tlv o ++ cs ++ [255] ++ rest).
    assert (len p = len pre + 2 + len (snd o) + len cs + 1 + len rest) as Lp
      by (unfold p; rewrite !len_app, len_tlv; change (len [255]) with 1; lia).
    assert (p.[len pre] = fst o) as E0 by (unfold p; rewrite nthZ_app_r by lia; by rewrite Z.sub_diag).
    assert (p.[len pre + 1] = len (snd o)) as E1
      by (unfold p; rewrite nthZ_app_r by lia; replace (len pre + 1 - len pre) with 1 by lia; done).
    cbn [dhcp_options]. rewrite E0. rewrite (proj2 (Z.ltb_lt (len pre) _)) by lia.
    rewrite (proj2 (Z.eqb_neq (fst o) 255)) by done. cbn [negb andb]. rewrite rd_byte_ok by lia. cbn [rbind]. rewrite E1.
    rewrite (proj2 (Z.ltb_ge _ (len (snd o) + 2))) by lia. unfold p at 2. rewrite dhcp_option_at.
    specialize (IH fuel (pre ++ tlv o) rest (dhcp_apply a o) ltac:(cbn in Hf; lia) Hok). cbv zeta in IH.
    rewrite <- app_assoc in IH. fold cs in IH. fold p in IH. rewrite len_app, len_tlv in IH. rewrite <- IH. f_equal; lia.
Qed.

(** A reply: transaction, offered address, and options. *)
Definition dhcp_reply (front mid tail : list Z) (xid yiaddr : Z) (os : list (Z * list Z)) : list Z :=
  front ++ be32_bytes xid ++ mid ++ be32_bytes yiaddr ++ tail ++ concat (tlv <$> os) ++ [255].
Definition dhcp_read (os : list (Z * list Z)) : dhcp_opts := fold_left dhcp_apply os (DhcpOpts 0 0 0 0 0).

Lemma dhcp_handle_reply e s front mid tail yiaddr os rest :
  len front = 4 -> len mid = 8 -> len tail = 220 -> 0 <= yiaddr < 4294967296 ->
  0 <= g_xid (dhcp s) < 4294967296 -> Forall tlv_ok os ->
  let p := dhcp_reply front mid tail (g_xid (dhcp s)) yiaddr os in
  let a := dhcp_read os in
  dhcp_handle e s (p ++ rest) (len p) =
  if g_dhcp_state (dhcp s) =? DHCP_DONE then Ok s
  else if (o_msgtype a =? DHCP_OFFER) && (g_dhcp_state (dhcp s) =? DHCP_DISCOVER) then
    dhcp_send e (set_dhcp (DhcpClient DHCP_REQUEST (g_xid (dhcp s)) (g_dhcp_last (dhcp s)) yiaddr (o_srv a) (dhcp_retries (dhcp s))) s)
      DHCP_REQUEST yiaddr (o_srv a)
  else if (o_msgtype a =? DHCP_ACK) && negb (yiaddr =? 0) then Ok (dhcp_bind s yiaddr a) else Ok s.
Proof.
  intros Lf Lm Lt Hy Hx Hok p a. pose proof (len_nonneg (concat (tlv <$> os))) as Hc.
  assert (len p = 240 + len (concat (tlv <$> os)) + 1) as Lp.
  { unfold p, dhcp_reply. rewrite !len_app, Lf, Lm, Lt, !len_be32. change (len [255]) with 1. lia. }
  assert (rd32 (p ++ rest) 4 = g_xid (dhcp s)) as E4.
  { unfold p, dhcp_reply. rewrite <- !app_assoc. rewrite <- Lf. by apply rd32_at. }
  assert (rd32 (p ++ rest) 16 = yiaddr) as E16.
  { assert (p ++ rest = (front ++ be32_bytes (g_xid (dhcp s)) ++ mid) ++ be32_bytes yiaddr ++ (tail ++ concat (tlv <$> os) ++ [255] ++ rest)) as ->
      by (unfold p, dhcp_reply; by rewrite <- !app_assoc).
    assert (len (front ++ be32_bytes (g_xid (dhcp s)) ++ mid) = 16) as <- by (rewrite !len_app, Lf, Lm; done). by apply rd32_at. }
  unfold dhcp_handle. rewrite Lp. rewrite (proj2 (Z.ltb_ge _ 240)) by lia. rewrite E4, Z.eqb_refl. cbn [negb].
  set (pre := front ++ be32_bytes (g_xid (dhcp s)) ++ mid ++ be32_bytes yiaddr ++ tail).
  assert (len pre = 240) as Lpre by (unfold pre; rewrite !len_app, Lf, Lm, Lt; done).
  assert (p ++ rest = pre ++ concat (tlv <$> os) ++ [255] ++ rest) as Ep by (unfold p, dhcp_reply, pre; by rewrite <- !app_assoc).
  rewrite E16. rewrite Ep at 1. rewrite <- Lpre. rewrite dhcp_options_walk; [reflexivity| |done].
  rewrite Lpre. enough (Z.of_nat (length os) <= len (concat (tlv <$> os))) by lia. clear.
  induction os as [|o os IH]; [done|]. cbn [fmap list_fmap concat length]. rewrite len_app, len_tlv. pose proof (len_nonneg (snd o)). lia.
Qed.

(** An acknowledgement configures the interface: address, mask, router and name
    server are those of the message wherever its options stand, the client stops,
    and from then on the hosts of the subnet are reached directly and every
    other address by the router. *)
Theorem dhcp_ack_configures e s front mid tail yiaddr os rest :
  len front = 4 -> len mid = 8 -> len tail = 220 -> 0 < yiaddr < 4294967296 ->
  0 <= g_xid (dhcp s) < 4294967296 -> Forall tlv_ok os -> g_dhcp_state (dhcp s) <> DHCP_DONE ->
  let p := dhcp_reply front mid tail (g_xid (dhcp s)) yiaddr os in
  let a := dhcp_read os in
  o_msgtype a = DHCP_ACK -> 0 < o_mask a -> o_router a <> 0 ->
  g_routes s = route_add [] 2130706432 4278190080 0 RT_LOCAL ->
  (Z.land yiaddr (o_mask a) <> 2130706432 \/ o_mask a <> 4278190080) ->
  exists s', dhcp_handle e s (p ++ rest) (len p) = Ok s' /\
    ifc s' = Iface (g_mac (ifc s)) yiaddr (o_mask a) (o_router a) (o_dns a) /\
    g_dhcp_state (dhcp s') = DHCP_DONE /\
    forall dst, dst <> IP_BROADCAST -> is_loopback dst = false ->
      route_next_hop (g_routes s') dst =
      (if Z.land dst (o_mask a) =? Z.land yiaddr (o_mask a) then dst else o_router a).
Proof.
  intros Lf Lm Lt Hy Hx Hok Hst p a Ha Hm Hr Hrt Hne. exists (dhcp_bind s yiaddr a). split; [|split; [|split]].
  - unfold p. rewrite dhcp_handle_reply by (done || lia). fold a. rewrite (proj2 (Z.eqb_neq _ DHCP_DONE)) by done.
    rewrite Ha. rewrite (proj2 (Z.eqb_neq yiaddr 0)) by lia. reflexivity.
  - unfold dhcp_bind. cbv zeta. by destruct (o_mask a =? 0), (o_router a =? 0).
  - unfold dhcp_bind. cbv zeta. by destruct (o_mask a =? 0), (o_router a =? 0).
  - intros dst Hb Hl. eapply lease_routes; [|exact Hm|exact Hne|exact Hb|exact Hl].
    unfold dhcp_bind. cbv zeta. rewrite (proj2 (Z.eqb_neq (o_mask a) 0)) by lia. rewrite (proj2 (Z.eqb_neq (o_router a) 0)) by done.
    cbn [negb g_routes set_g_routes set_dhcp set_ifc]. by rewrite Hrt.
Qed.

Definition demo_dhcp : net := set_dhcp (DhcpClient DHCP_REQUEST 305419896 900 167772687 167772674 0) demo_net.
Definition demo_lease : list (Z * list Z) :=
  [(53, [5]); (54, [10; 0; 2; 2]); (1, [255; 255; 255; 0]); (51, [0; 1; 81; 128]); (3, [10; 0; 2; 2]); (6, [10; 0; 2; 3])].
Lemma dhcp_ack_configures_witness :
  let p := dhcp_reply (zeros 4) (zeros 8) (zeros 220) 305419896 167772687 demo_lease in
  exists s', dhcp_handle demo_env demo_dhcp (p ++ zeros 4) (len p) = Ok s' /\
    ifc s' = Iface demo_mac 167772687 4294967040 167772674 167772675 /\
    g_dhcp_state (dhcp s') = DHCP_DONE /\
    forall dst, dst <> IP_BROADCAST -> is_loopback dst = false ->
      route_next_hop (g_routes s') dst = (if Z.land dst 4294967040 =? 167772672 then dst else 167772674).
Proof.
  apply (dhcp_ack_configures demo_env demo_dhcp (zeros 4) (zeros 8) (zeros 220) 167772687 demo_lease (zeros 4));
    first [reflexivity | (split; [first [reflexivity | discriminate]|reflexivity]) | discriminate
          | (intros E; discriminate E) | (left; discriminate) | idtac].
  repeat constructor; cbn; first [discriminate | reflexivity | (intros E; discriminate E)].
Defined.

(** ** Without a server *)
Lemma len_dhcp_build s m r v : length (g_mac (ifc s)) = 6%nat -> len (dhcp_build_msg s m r v) = 300.
Proof.
  intros Hm. unfold dhcp_build_msg, len. cbv zeta. rewrite !length_app, !length_zeros, Hm.
  destruct (m =? DHCP_REQUEST); reflexivity.
Qed.

(** The broadcast needs no resolution, so sending only notes the time. *)
Lemma dhcp_send_ok e s m r v : length (g_mac (ifc s)) = 6%nat ->
  exists s', dhcp_send e s m r v = Ok s' /\ dhcp s' = set_g_dhcp_last (ticks e) (dhcp s) /\ ifc s' = ifc s /\
    g_up (card s') = g_up (card s).
Proof.
  intros Hm. unfold dhcp_send. pose proof (len_dhcp_build s m r v Hm) as Hl. rewrite udp_emit_all by lia.
  set (dg := udp_datagram _ _ _). assert (len dg = 308) as Ld by (unfold dg; rewrite len_udp_datagram; lia).
  assert (exists n c, net_ip_send e s (own s) IP_BROADCAST 17 dg = Ok (n, c) /\ dhcp n = dhcp s /\ ifc n = ifc s /\
    g_up (card n) = g_up (card s)) as (n & c & -> & Ed & Ei & Eu).
  { unfold net_ip_send. cbv zeta. destruct (fw_blocks _ _ _ _ _); [by eexists _, _|].
    change (is_loopback IP_BROADCAST) with false. change (route_next_hop (g_routes s) IP_BROADCAST) with IP_BROADCAST.
    rewrite Z.eqb_refl, Ld. cbn [Z.add Z.ltb Z.compare Pos.compare Pos.compare_cont Pos.add Pos.succ].
    eexists _, _. split; [done|]. split; [done|]. split; [done|]. cbn [card fst send_frame set_card]. apply nic_send_rx. }
  cbn [rbind fst]. eexists. split; [done|]. cbn [dhcp ifc card set_dhcp]. by rewrite Ed.
Qed.

Definition asking (s : net) : Prop :=
  (g_dhcp_state (dhcp s) = DHCP_DISCOVER \/ g_dhcp_state (dhcp s) = DHCP_REQUEST) /\
  g_up (card s) = true /\ length (g_mac (ifc s)) = 6%nat /\ own s = 0.

Lemma dhcp_drive_retry e s : asking s -> 0 <= g_dhcp_last (dhcp s) -> g_dhcp_last (dhcp s) + 50 < ticks e < 18446744073709551616 ->
  dhcp_retries (dhcp s) < 8 ->
  exists s', dhcp_drive e s = Ok s' /\ asking s' /\ dhcp_retries (dhcp s') = dhcp_retries (dhcp s) + 1 /\
    g_dhcp_last (dhcp s') = ticks e.
Proof.
  intros (Hst & Hu & Hm & Ho) H0 Ht Hr. unfold dhcp_drive. cbv zeta. unfold nic_present. rewrite Hu.
  rewrite (u64_small (ticks e - g_dhcp_last (dhcp s))) by lia. rewrite (proj2 (Z.ltb_lt (MS_TO_TICKS 200) _)) by (change (MS_TO_TICKS 200) with 50; lia).
  rewrite (proj2 (Z.ltb_ge 8 _)) by lia. set (s1 := set_dhcp (set_dhcp_retries _ _) s).
  assert (forall m r v, exists s', dhcp_send e s1 m r v = Ok s' /\ asking s' /\
    dhcp_retries (dhcp s') = dhcp_retries (dhcp s) + 1 /\ g_dhcp_last (dhcp s') = ticks e) as Hs.
  { intros m r v. destruct (dhcp_send_ok e s1 m r v Hm) as (s' & -> & Ed & Ei & Eu). exists s'. split; [done|].
    rewrite Ed. split; [|split; reflexivity]. unfold asking, own. rewrite Ed, Ei, Eu.
    split; [exact Hst|]. split; [exact Hu|]. split; [exact Hm|exact Ho]. }
  destruct Hst as [E|E]; rewrite E; cbn [Z.eqb Pos.eqb negb andb DHCP_DISCOVER DHCP_REQUEST DHCP_DONE]; apply Hs.
Qed.

Lemma dhcp_drive_last e s : asking s -> 0 <= g_dhcp_last (dhcp s) -> g_dhcp_last (dhcp s) + 50 < ticks e < 18446744073709551616 ->
  8 <= dhcp_retries (dhcp s) ->
  exists s', dhcp_drive e s = Ok s' /\ g_dhcp_state (dhcp s') = DHCP_DONE /\
    ifc s' = Iface (g_mac (ifc s)) 167772687 4294967040 167772674 167772675.
Proof.
  intros (Hst & Hu & Hm & Ho) H0 Ht Hr. unfold dhcp_drive. cbv zeta. unfold nic_present. rewrite Hu.
  rewrite (u64_small (ticks e - g_dhcp_last (dhcp s))) by lia. rewrite (proj2 (Z.ltb_lt (MS_TO_TICKS 200) _)) by (change (MS_TO_TICKS 200) with 50; lia).
  rewrite (proj2 (Z.ltb_lt 8 _)) by lia. set (s2 := set_dhcp _ (set_dhcp _ s)).
  assert (net_slirp_fallback s2 = set_g_routes (g_routes (net_slirp_fallback s2))
    (set_ifc (Iface (g_mac (ifc s)) 167772687 4294967040 167772674 167772675) s2)) as E2.
  { unfold net_slirp_fallback. change (own s2) with (own s). rewrite Ho. reflexivity. }
  destruct Hst as [E|E]; rewrite E; cbn [Z.eqb Pos.eqb negb andb DHCP_DISCOVER DHCP_REQUEST DHCP_DONE];
    eexists; (split; [reflexivity|]); rewrite E2; by split.
Qed.

(** Calls of [net_service] that find the network silent, 200 ms apart. *)
Fixpoint drive_all (es : list nenv) (s : net) : res net :=
  match es with [] => Ok s | e :: es => let* s := dhcp_drive e s in drive_all es s end.
Fixpoint spaced (t : Z) (es : list nenv) : Prop :=
  match es with [] => True | e :: es => t + 50 < ticks e < 18446744073709551616 /\ spaced (ticks e) es end.

(** A silent network does not keep the client asking: after at most eight more
    messages, 200 ms apart, it stops with the fallback address and routes. *)
Theorem dhcp_gives_up es : forall s, asking s -> 0 <= g_dhcp_last (dhcp s) -> dhcp_retries (dhcp s) <= 8 ->
  len es = 9 - dhcp_retries (dhcp s) -> spaced (g_dhcp_last (dhcp s)) es ->
  exists s', drive_all es s = Ok s' /\ g_dhcp_state (dhcp s') = DHCP_DONE /\ own s' = 167772687.
Proof.
  induction es as [|e es IH]; intros s Ha H0 Hr Hl Hs; [unfold len in Hl; cbn in Hl; lia|].
  destruct Hs as [Ht Hs]. cbn [drive_all]. assert (len (e :: es) = 1 + len es) as El by (unfold len; cbn [length]; lia).
  destruct (Z.eq_dec (dhcp_retries (dhcp s)) 8) as [E8|Hne].
  - destruct (dhcp_drive_last e s Ha H0 Ht ltac:(lia)) as (s' & -> & Hd & Hi). cbn [rbind].
    assert (es = []) as -> by (destruct es; [done|unfold len in *; cbn [length] in *; lia]).
    exists s'. split; [done|]. split; [done|]. unfold own. by rewrite Hi.
  - destruct (dhcp_drive_retry e s Ha H0 Ht ltac:(lia)) as (s' & -> & Ha' & Hr' & Hl'). cbn [rbind].
    apply IH; [done|lia|lia|lia|by rewrite Hl'].
Qed.

Definition demo_clock (t : Z) : nenv := Nenv t 7 99 4096 8192 true.
Definition demo_clocks : list nenv := demo_clock <$> [1060; 1120; 1180; 1240; 1300; 1360; 1420; 1480; 1540].
Lemma dhcp_gives_up_witness :
  exists s', drive_all demo_clocks (set_dhcp (DhcpClient DHCP_DISCOVER 77 1000 0 0 0) demo_net) = Ok s' /\
    g_dhcp_state (dhcp s') = DHCP_DONE /\ own s' = 167772687.
Proof.
  apply (dhcp_gives_up demo_clocks (set_dhcp (DhcpClient DHCP_DISCOVER 77 1000 0 0 0) demo_net)).
  - split; [left; reflexivity|]. split; [reflexivity|]. split; reflexivity.
  - discriminate.
  - discriminate.
  - reflexivity.
  - repeat split.
Defined.

(** * More of ARP *)
Lemma arp_find_lt p c i : arp_find p c = Some i -> (i < length c)%nat /\ p (nth i c no_arp) = true.
Proof.
  revert i. induction c as [|a c IH]; intros i H; cbn [arp_find] in H; [done|].
  destruct (p a) eqn:E; [injection H as <-; split; [cbn; lia|done]|].
  destruct (arp_find p c) as [j|]; [|done]. injection H as <-. destruct (IH j eq_refl). split; [cbn; lia|done].
Qed.

Lemma arp_find_insert p c i a : (i < length c)%nat -> p a = true ->
  (forall j, (j < i)%nat -> p (nth j c no_arp) = false) -> arp_find p (<[i := a]> c) = Some i.
Proof.
  revert i. induction c as [|b c IH]; intros i Hi Ha Hb; [cbn in Hi; lia|]. destruct i as [|i].
  - cbn. by rewrite Ha.
  - change (<[S i := a]> (b :: c)) with (b :: <[i := a]> c). cbn [arp_find].
    pose proof (Hb 0%nat ltac:(lia)) as H0. cbn [nth] in H0. rewrite H0.
    by rewrite (IH i ltac:(cbn in Hi; lia) Ha (fun j Hj => Hb (S j) ltac:(lia))).
Qed.

Lemma arp_find_none p c : arp_find p c = None -> forall j, (j < length c)%nat -> p (nth j c no_arp) = false.
Proof.
  induction c as [|a c IH]; intros H j Hj; [cbn in Hj; lia|]. cbn [arp_find] in H. destruct (p a) eqn:E; [done|].
  destruct (arp_find p c); [done|]. destruct j; [done|]. apply IH; [done|cbn in Hj; lia].
Qed.

Lemma arp_find_first p c : forall i, arp_find p c = Some i -> forall j, (j < i)%nat -> p (nth j c no_arp) = false.
Proof.
  induction c as [|a c IH]; intros i H j Hj; cbn [arp_find] in H; [done|]. destruct (p a) eqn:E; [injection H as <-; lia|].
  destruct (arp_find p c) as [k|]; [|done]. injection H as <-. destruct j; [done|]. cbn [nth]. apply (IH k); [done|lia].
Qed.

(** An address is learned, or its entry refreshed, as long as a slot is unused. *)
Lemma arp_store_lookup e c ip mac :
  arp_index e c ip <> None \/ arp_find (fun a => negb (arp_valid a)) c <> None ->
  arp_lookup e (arp_store e c ip mac) ip = Some mac.
Proof.
  intros Hslot. unfold arp_store, arp_lookup. destruct (arp_index e c ip) as [i|] eqn:Ei.
  - destruct (arp_find_lt _ _ _ Ei) as [Hi Hl]. unfold arp_index in *.
    rewrite (arp_find_insert _ c i); [|done|exact Hl|intros j Hj; exact (arp_find_first (fun a => arp_live e a ip) c i Ei j Hj)].
    f_equal. cbv zeta. rewrite nth_lookup, list_lookup_insert_eq by done. reflexivity.
  - destruct (arp_find _ c) as [i|] eqn:Ef; [|by destruct Hslot]. destruct (arp_find_lt _ _ _ Ef) as [Hi _].
    unfold arp_index in *. rewrite (arp_find_insert _ c i); [|done| |].
    + f_equal. rewrite nth_lookup, list_lookup_insert_eq by done. reflexivity.
    + unfold arp_live. cbn [arp_valid arp_ip arp_time]. rewrite Z.eqb_refl, Z.sub_diag. reflexivity.
    + intros j Hj. apply (arp_find_none (fun a => arp_live e a ip) c Ei). lia.
Qed.

Definition demo_full : list arp_ent := (fun i => ArpEnt (167772700 + i) (zeros 6) true 100) <$> seqZ 0 8.
Definition demo_stuck : net := set_g_arp demo_full (net_slirp_fallback demo_net).
(** The gateway answers the request. *)
Definition demo_answer : list Z :=
  demo_mac ++ [82; 85; 10; 0; 2; 2] ++ [8; 6] ++ arp_packet [82; 85; 10; 0; 2; 2] 2 167772674 167772687 demo_mac.
Definition demo_rounds : list round :=
  [Round [RxDesc 3 42 (demo_answer ++ zeros 6)] [demo_clock 1001] (demo_clock 1002); Round [] [] (demo_clock 1500)].

Lemma arp_cache_dies_witness :
  match net_arp_resolve demo_rounds (demo_clock 1000) demo_stuck 167772674 with
  | Ok (s', rc, _) => rc = -1 /\ g_arp s' = g_arp demo_stuck
  | _ => False
  end.
Proof.
  assert (match net_arp_resolve demo_rounds (demo_clock 1000) demo_stuck 167772674 with Ok _ => true | _ => false end = true) as Hok
    by (vm_compute; reflexivity).
  destruct (net_arp_resolve demo_rounds (demo_clock 1000) demo_stuck 167772674) as [[[s' rc] e']| |] eqn:E; [|discriminate|discriminate].
  apply (arp_cache_dies 900 demo_rounds (demo_clock 1000) demo_stuck 167772674 s' rc e');
    [reflexivity| | | |reflexivity|discriminate|discriminate|exact E].
  - repeat constructor; discriminate.
  - split; [discriminate|reflexivity].
  - repeat constructor; first [discriminate | reflexivity].
Defined.

(** A 127/8 address other than 127.0.0.1 is queued, but the pump throws the packet
    away as soon as the host has an address. *)
Lemma loopback_alias_lost e s src dst proto p rest : byte proto -> 0 <= src < 4294967296 -> 0 <= dst < 4294967296 ->
  20 + len p < 65536 -> own s <> 0 -> dst <> own s -> dst <> IP_LOCALHOST -> dst <> IP_BROADCAST ->
  process_ip e s ((ip_header src dst proto (20 + len p) ++ p) ++ rest) (len (ip_header src dst proto (20 + len p) ++ p)) = Ok s.
Proof.
  intros Hp Hs Hd Hl Ho H1 H2 H3. rewrite process_ip_built by done.
  rewrite (proj2 (Z.eqb_neq dst (own s))), (proj2 (Z.eqb_neq dst IP_BROADCAST)), (proj2 (Z.eqb_neq dst IP_LOCALHOST)),
    (proj2 (Z.eqb_neq (own s) 0)) by done. reflexivity.
Qed.
