(* ===== verification/Vfs.v ===== *)
(** * The virtual file system (kernel/fs/vfs.c)

    The tree of vnodes is a store of records linked by address, as in the code:
    [parent], first [child], next [sibling], 0 for the null pointer. Lookup
    and symbolic-link resolution call each other and take fuel; file contents
    are byte buffers of the allocated capacity. The block file system is told
    of deleted inodes through the operation [note_delete]. C strings are lists of
    bytes without their terminating zero. *)
From Stdlib Require Import ZArith Lia Bool.
From stdpp Require Import base list numbers option gmap.
From S2P Require Import Prelude.
#[local] Set Default Goal Selector "!".
Open Scope Z_scope.

Definition VFS_MAX_NAME : Z := 96.
Definition VFS_MAX_PATH : Z := 256.
Definition VFS_ACL_MAX : Z := 8.
Definition PERM_RWX : Z := 7.
Definition BLK_SECTOR_SIZE : Z := 512.

Inductive vnode_type := VN_FILE | VN_DIR | VN_SYMLINK.
#[export] Instance vnode_type_eq_dec : EqDecision vnode_type.
Proof. solve_decision. Defined.
Definition is_vt (a b : vnode_type) : bool := bool_decide (a = b).

(** [data] is the heap buffer, [None] for a null pointer. The icon, which only
    the desktop reads, is left out. *)
Record vnode := Vnode {
  name : list Z; type : vnode_type; ino : Z; size : Z; cap : Z; data : option (list Z);
  mtime : Z; refs : Z; uid : Z; gid : Z; mode : Z; acl : list (Z * Z);
  dirty : bool; dirty_b0 : Z; dirty_b1 : Z; parent : Z; child : Z; sibling : Z }.

(** What an operation reads from the rest of the kernel: the clock, the
    credentials of the caller, and the buffer [kmalloc] returns for a size, with
    whatever bytes it holds. *)
Record venv := Venv {
  now_epoch : Z; cur_euid : Z; cur_egid : Z; cur_umask : Z; kmalloc : Z -> option (list Z) }.

(** ** Names and paths *)
Definition streq (a b : list Z) : bool := bool_decide (a = b).

(** One path component: at most 95 characters up to a slash, and the rest. *)
Fixpoint take_part (n : nat) (s : list Z) : list Z * list Z :=
  match n, s with
  | S k, c :: r => if c =? 47 then ([], s) else let '(p, r') := take_part k r in (c :: p, r')
  | _, _ => ([], s)
  end.
Definition part_max : nat := Z.to_nat (VFS_MAX_NAME - 1).

Fixpoint skip_slashes (s : list Z) : list Z :=
  match s with c :: r => if c =? 47 then skip_slashes r else s | [] => [] end.

Definition dot : list Z := [46].
Definition dotdot : list Z := [46; 46].

(** Octal field of a tar header. *)
Fixpoint oct_loop (s : list Z) (v : Z) : Z :=
  match s with
  | c :: r =>
      if (c =? 0) || (c =? 32) then v
      else if (c <? 48) || (55 <? c) then v
      else oct_loop r (u64 (v * 8 + (c - 48)))
  | [] => v
  end.
Definition oct (s : list Z) (n : Z) : Z := oct_loop (take (Z.to_nat n) s) 0.

(** ** Permission check *)
Fixpoint acl_find (l : list (Z * Z)) (euid : Z) : option Z :=
  match l with
  | (u, m) :: r => if u =? euid then Some m else acl_find r euid
  | [] => None
  end.

Definition mode_bits (v : vnode) (euid : Z) (groups : list Z) : Z :=
  if uid v =? euid then Z.land (Z.shiftr (mode v) 6) PERM_RWX
  else if existsb (fun g => gid v =? g) groups then Z.land (Z.shiftr (mode v) 3) PERM_RWX
  else Z.land (mode v) PERM_RWX.

Definition vfs_check_perm (ov : option vnode) (euid : Z) (groups : list Z) (want : Z) : bool :=
  match ov with
  | None => false
  | Some v =>
    if euid =? 0 then true
    else
      match acl_find (take (Z.to_nat VFS_ACL_MAX) (acl v)) euid with
      | Some mask => Z.land mask want =? want
      | None => Z.land (mode_bits v euid groups) want =? want
      end
  end.

(** ** File contents *)
Definition with_content (v : vnode) (sz c : Z) (d : option (list Z)) : vnode :=
  Vnode (name v) (type v) (ino v) sz c d (mtime v) (refs v) (uid v) (gid v) (mode v) (acl v)
    (dirty v) (dirty_b0 v) (dirty_b1 v) (parent v) (child v) (sibling v).
Definition with_dirty (v : vnode) (t b0 b1 : Z) : vnode :=
  Vnode (name v) (type v) (ino v) (size v) (cap v) (data v) t (refs v) (uid v) (gid v) (mode v)
    (acl v) true b0 b1 (parent v) (child v) (sibling v).

(** [memcpy]/[memset] into the buffer: past its end it is undefined, [None]. *)
Definition buf_write (d : option (list Z)) (off : Z) (bs : list Z) : option (option (list Z)) :=
  if len bs =? 0 then Some d
  else match d with
       | Some l => if off + len bs <=? len l then Some (Some (blit l off bs)) else None
       | None => None
       end.

Inductive io_result := Overrun | Result (rc : Z) (v : vnode).

(** [vfs_read]: the bytes copied out and the return code; [None] when the copy
    would leave the buffer. *)
Definition vfs_read (v : vnode) (off n : Z) : option (Z * list Z) :=
  if negb (is_vt (type v) VN_FILE) then Some (-1, [])
  else if size v <=? off then Some (0, [])
  else
    let n := if size v <? u64 (off + n) then u64 (size v - off) else n in
    if n =? 0 then Some (0, [])
    else
      match data v with
      | Some l => if off + n <=? len l then Some (n, slice l off n) else None
      | None => None
      end.

(** The doubling loop; [None] when it does not end (the product wrapped to 0). *)
Fixpoint grow_cap (fuel : nat) (newcap need : Z) : option Z :=
  match fuel with
  | O => None
  | S k => if newcap <? need then grow_cap k (u64 (newcap * 2)) need else Some newcap
  end.

(** [None]: does not return. [Some None]: -1. *)
Definition ensure_cap (e : venv) (v : vnode) (need : Z) : option (option vnode) :=
  if need <=? cap v then Some (Some v)
  else
    match grow_cap 65 (if cap v =? 0 then 64 else cap v) need with
    | None => None
    | Some newcap =>
      match kmalloc e newcap with
      | None => Some None
      | Some nb =>
        let nb := match data v with
                  | Some l => if size v =? 0 then nb else blit nb 0 (take (Z.to_nat (size v)) l)
                  | None => nb end in
        Some (Some (with_content v (size v) newcap (Some nb)))
      end
    end.

Definition vfs_write (e : venv) (v : vnode) (buf : list Z) (off : Z) : io_result :=
  if negb (is_vt (type v) VN_FILE) then Result (-1) v
  else
    let n := len buf in
    match ensure_cap e v (u64 (off + n)) with
    | None => Overrun
    | Some None => Result (-1) v
    | Some (Some v) =>
      match (if size v <? off then buf_write (data v) (size v) (replicate (Z.to_nat (off - size v)) 0)
             else Some (data v)) with
      | None => Overrun
      | Some d =>
        match buf_write d off buf with
        | None => Overrun
        | Some d =>
          let v := with_content v (if size v <? u64 (off + n) then u64 (off + n) else size v) (cap v) d in
          let b0 := u32 (off / BLK_SECTOR_SIZE) in
          let b1 := u32 (u64 (off + n + BLK_SECTOR_SIZE - 1) / BLK_SECTOR_SIZE) in
          Result n (with_dirty v (now_epoch e)
                      (if b0 <? dirty_b0 v then b0 else dirty_b0 v)
                      (if dirty_b1 v <? b1 then b1 else dirty_b1 v))
        end
      end
    end.

Definition vfs_truncate (e : venv) (v : vnode) (n : Z) : io_result :=
  if negb (is_vt (type v) VN_FILE) then Result (-1) v
  else
    let fin v := Result 0 (with_dirty (with_content v n (cap v) (data v)) (now_epoch e) 0 4294967295) in
    if size v <? n then
      match ensure_cap e v n with
      | None => Overrun
      | Some None => Result (-1) v
      | Some (Some v) =>
        match buf_write (data v) (size v) (replicate (Z.to_nat (n - size v)) 0) with
        | None => Overrun
        | Some d => fin (with_content v (size v) (cap v) d)
        end
      end
    else fin v.

(** ** The tree *)
(** [D] is the state of the block file system, [note_delete] its operation
    [blkfs_note_delete]. [next_addr] is the address of the next allocation. *)
Record vfs (D : Type) := Vfs { nodes : gmap Z vnode; root_node : Z; next_addr : Z; disk_state : D }.
Arguments Vfs {D}. Arguments nodes {D}. Arguments root_node {D}. Arguments next_addr {D}.
Arguments disk_state {D}.

Section Tree.
Context {D : Type} (note_delete : D -> Z -> D).

Definition node (t : vfs D) (a : Z) : option vnode := if a =? 0 then None else nodes t !! a.
Definition put (t : vfs D) (a : Z) (v : vnode) : vfs D :=
  Vfs (<[a := v]> (nodes t)) (root_node t) (next_addr t) (disk_state t).
Definition upd (t : vfs D) (a : Z) (f : vnode -> vnode) : vfs D :=
  match node t a with Some v => put t a (f v) | None => t end.
(** A field of a node; null pointers and freed nodes read as zero. *)
Definition fld {A} (t : vfs D) (a : Z) (f : vnode -> A) (z : A) : A :=
  match node t a with Some v => f v | None => z end.

Definition with_links (v : vnode) (p c s : Z) : vnode :=
  Vnode (name v) (type v) (ino v) (size v) (cap v) (data v) (mtime v) (refs v) (uid v) (gid v)
    (mode v) (acl v) (dirty v) (dirty_b0 v) (dirty_b1 v) p c s.
Definition set_parent (p : Z) (v : vnode) := with_links v p (child v) (sibling v).
Definition set_child (c : Z) (v : vnode) := with_links v (parent v) c (sibling v).
Definition set_sibling (s : Z) (v : vnode) := with_links v (parent v) (child v) s.
Definition set_dirty (b : bool) (v : vnode) : vnode :=
  Vnode (name v) (type v) (ino v) (size v) (cap v) (data v) (mtime v) (refs v) (uid v) (gid v)
    (mode v) (acl v) b (dirty_b0 v) (dirty_b1 v) (parent v) (child v) (sibling v).
Definition set_refs (r : Z) (v : vnode) : vnode :=
  Vnode (name v) (type v) (ino v) (size v) (cap v) (data v) (mtime v) r (uid v) (gid v)
    (mode v) (acl v) (dirty v) (dirty_b0 v) (dirty_b1 v) (parent v) (child v) (sibling v).
Definition set_mode (m : Z) (v : vnode) : vnode :=
  Vnode (name v) (type v) (ino v) (size v) (cap v) (data v) (mtime v) (refs v) (uid v) (gid v)
    m (acl v) (dirty v) (dirty_b0 v) (dirty_b1 v) (parent v) (child v) (sibling v).

(** A zeroed allocation, then the fields [mknode] sets. *)
Definition new_node (e : venv) (nm : list Z) (t : vnode_type) : vnode :=
  Vnode (take part_max nm) t 0 0 0 None (now_epoch e) 1 (cur_euid e) (cur_egid e)
    (Z.land (if is_vt t VN_DIR then 493 else 420) (u16 (Z.lnot (cur_umask e)))) [] false 0 0 0 0 0.
Definition mknode (e : venv) (t : vfs D) (nm : list Z) (ty : vnode_type) : vfs D * Z :=
  (Vfs (<[next_addr t := new_node e nm ty]> (nodes t)) (root_node t) (next_addr t + 1)
     (disk_state t), next_addr t).

Definition vnode_ref (t : vfs D) (a : Z) : vfs D := upd t a (fun v => set_refs (u32 (refs v + 1)) v).
Definition vnode_unref (t : vfs D) (a : Z) : vfs D :=
  match node t a with
  | None => t
  | Some v =>
    if refs v =? 0 then t
    else if refs v - 1 =? 0
    then Vfs (delete a (nodes t)) (root_node t) (next_addr t) (disk_state t)
    else put t a (set_refs (refs v - 1) v)
  end.

(** A walk along the siblings is bounded by the number of nodes. *)
Definition walk_fuel (t : vfs D) : nat := S (base.size (nodes t)).

Fixpoint last_sibling (fuel : nat) (t : vfs D) (a : Z) : Z :=
  match fuel with
  | O => a
  | S k => let s := fld t a sibling 0 in if s =? 0 then a else last_sibling k t s
  end.

Definition attach (t : vfs D) (p c : Z) : vfs D :=
  let t := upd t c (set_parent p) in
  if fld t p child 0 =? 0 then upd t p (set_child c)
  else upd t (last_sibling (walk_fuel t) t (fld t p child 0)) (set_sibling c).

Fixpoint find_sibling (fuel : nat) (t : vfs D) (c : Z) (nm : list Z) : Z :=
  match fuel with
  | O => 0
  | S k =>
    match node t c with
    | None => 0
    | Some v => if streq (name v) nm then c else find_sibling k t (sibling v) nm
    end
  end.

Definition is_dir (t : vfs D) (a : Z) : bool := fld t a (fun v => is_vt (type v) VN_DIR) false.

Definition find_child (t : vfs D) (p : Z) (nm : list Z) : Z :=
  if is_dir t p then find_sibling (walk_fuel t) t (fld t p child 0) nm else 0.

Definition find_or_make_dir (e : venv) (t : vfs D) (p : Z) (nm : list Z) : vfs D * Z :=
  let c := find_child t p nm in
  if negb (c =? 0) && is_dir t c then (t, c)
  else let '(t, d) := mknode e t nm VN_DIR in (attach t p d, d).

Definition mark_new (v : vnode) : vnode := with_dirty v (mtime v) 0 4294967295.

Definition vfs_create (e : venv) (t : vfs D) (p : Z) (nm : list Z) (ty : vnode_type) : vfs D * Z :=
  if negb (is_dir t p) then (t, 0)
  else if negb (find_child t p nm =? 0) then (t, 0)
  else
    let '(t, n) := mknode e t nm ty in
    let t := upd t n mark_new in
    let t := attach t p n in
    (upd t p (set_dirty true), n).

Definition set_data (d : list Z) (sz : Z) (v : vnode) : vnode := with_content v sz (cap v) (Some d).

Definition vfs_symlink (e : venv) (t : vfs D) (p : Z) (nm target : list Z) : vfs D * Z :=
  if negb (is_dir t p) then (t, 0)
  else if negb (find_child t p nm =? 0) then (t, 0)
  else
    let '(t, n) := mknode e t nm VN_SYMLINK in
    let t := upd t n (set_data (target ++ [0]) (len target)) in
    let t := upd t n (set_mode 511) in
    let t := upd t n mark_new in
    let t := attach t p n in
    (upd t p (set_dirty true), n).

(** Unlinking: [sibling] of the predecessor is found by a scan. *)
Fixpoint unlink_scan (fuel : nat) (t : vfs D) (c v s : Z) : vfs D :=
  match fuel with
  | O => t
  | S k =>
    if c =? 0 then t
    else if fld t c sibling 0 =? v then upd t c (set_sibling s)
    else unlink_scan k t (fld t c sibling 0) v s
  end.

Definition vfs_unlink (t : vfs D) (a : Z) : vfs D * Z :=
  match node t a with
  | None => (t, -1)
  | Some v =>
    if parent v =? 0 then (t, -1)
    else if is_vt (type v) VN_DIR && negb (child v =? 0) then (t, -1)
    else
      let t := if negb (ino v =? 0)
               then Vfs (nodes t) (root_node t) (next_addr t) (note_delete (disk_state t) (ino v))
               else t in
      let p := parent v in
      let t := if fld t p child 0 =? a then upd t p (set_child (sibling v))
               else unlink_scan (walk_fuel t) t (fld t p child 0) a (sibling v) in
      let t := upd t a (fun v => with_links v 0 (child v) 0) in
      let t := upd t p (set_dirty true) in
      (vnode_unref t a, 0)
  end.

(** ** Lookup *)
Definition c_string (l : list Z) : list Z :=
  (fix go l := match l with c :: r => if c =? 0 then [] else c :: go r | [] => [] end) l.

(** The link's target, [None] when null or empty. *)
Definition link_target (t : vfs D) (a : Z) : option (list Z) :=
  match fld t a data None with
  | Some l => let s := c_string l in if len s =? 0 then None else Some s
  | None => None
  end.

Definition start_dir (t : vfs D) (cwd : Z) (path : list Z) : Z :=
  if head path is Some c then if c =? 47 then root_node t else if cwd =? 0 then root_node t else cwd
  else if cwd =? 0 then root_node t else cwd.

Definition trivial_path (path : list Z) : bool := streq path [] || streq path [47].

(** [None]: out of fuel. Otherwise the node, 0 for null. *)
Fixpoint vfs_lookup_at (fuel : nat) (t : vfs D) (cwd : Z) (path : list Z) {struct fuel} : option Z :=
  match fuel with
  | O => None
  | S k =>
    if trivial_path path then Some (start_dir t cwd path)
    else walk k t (start_dir t cwd path) (match path with c :: r => if c =? 47 then r else path | [] => [] end)
  end
with walk (fuel : nat) (t : vfs D) (cur : Z) (s : list Z) {struct fuel} : option Z :=
  match fuel with
  | O => None
  | S k =>
    match s with
    | [] => Some cur
    | _ =>
      let '(part, rest) := take_part part_max s in
      let s := skip_slashes rest in
      if len part =? 0 then walk k t cur s
      else if streq part dot then walk k t cur s
      else if streq part dotdot then
        walk k t (if fld t cur parent 0 =? 0 then cur else fld t cur parent 0) s
      else
        let next := find_child t cur part in
        if next =? 0 then Some 0
        else
          match resolve_link k t next 0 with
          | None => None
          | Some next => if next =? 0 then Some 0 else walk k t next s
          end
    end
  end
with resolve_link (fuel : nat) (t : vfs D) (v depth : Z) {struct fuel} : option Z :=
  match fuel with
  | O => None
  | S k =>
    if negb (v =? 0) && fld t v (fun n => is_vt (type n) VN_SYMLINK) false && (depth <? 8) then
      match link_target t v with
      | None => Some 0
      | Some tgt =>
        let base := if head tgt is Some c then if c =? 47 then root_node t else fld t v parent 0
                    else fld t v parent 0 in
        match vfs_lookup_at k t base tgt with
        | None => None
        | Some v' => resolve_link k t v' (depth + 1)
        end
      end
    else Some v
  end.

Definition vfs_lookup (fuel : nat) (t : vfs D) (path : list Z) : option Z := vfs_lookup_at fuel t 0 path.

(** The last component is returned without following it. *)
Fixpoint walk_nofollow (fuel : nat) (t : vfs D) (cur : Z) (s : list Z) (last : bool) {struct fuel}
  : option Z :=
  match fuel with
  | O => None
  | S k =>
    match s with
    | [] => Some cur
    | _ =>
      if last then Some cur
      else
        let '(part, rest) := take_part part_max s in
        let s := skip_slashes rest in
        let last := streq s [] in
        if len part =? 0 then walk_nofollow k t cur s last
        else if streq part dot then walk_nofollow k t cur s last
        else if streq part dotdot then
          walk_nofollow k t (if fld t cur parent 0 =? 0 then cur else fld t cur parent 0) s last
        else
          let next := find_child t cur part in
          if next =? 0 then Some 0
          else
            match (if last then Some next else resolve_link k t next 0) with
            | None => None
            | Some next => if next =? 0 then Some 0 else walk_nofollow k t next s last
            end
    end
  end.

Definition vfs_lookup_at_nofollow (fuel : nat) (t : vfs D) (cwd : Z) (path : list Z) : option Z :=
  if trivial_path path then Some (start_dir t cwd path)
  else walk_nofollow fuel t (start_dir t cwd path)
         (match path with c :: r => if c =? 47 then r else path | [] => [] end) false.

(** [mkdir -p]: 0, or -1 when a component is not a directory. *)
Fixpoint mkdir_loop (fuel : nat) (e : venv) (t : vfs D) (cur : Z) (s : list Z) : vfs D * Z :=
  match fuel, s with
  | S k, _ :: _ =>
      let '(part, rest) := take_part part_max s in
      let s := skip_slashes rest in
      if len part =? 0 then mkdir_loop k e t cur s
      else
        let c := find_child t cur part in
        if c =? 0 then let '(t, n) := vfs_create e t cur part VN_DIR in mkdir_loop k e t n s
        else if negb (is_dir t c) then (t, -1)
        else mkdir_loop k e t c s
  | _, _ => (t, 0)
  end.
Definition vfs_mkdir_p (e : venv) (t : vfs D) (path : list Z) : vfs D * Z :=
  mkdir_loop (S (length path)) e t (root_node t)
    (match path with c :: r => if c =? 47 then r else path | [] => [] end).

(** The path of a node, built from its end in a 256-byte buffer; [None] is -1.
    [acc] is what is written so far. *)
Fixpoint path_loop (fuel : nat) (t : vfs D) (c : Z) (acc : list Z) : option (list Z) :=
  match fuel with
  | O => None
  | S k =>
    if (c =? 0) || (c =? root_node t) then Some acc
    else
      let nm := fld t c name [] in
      if 255 - len acc - len nm - 1 <? 0 then None
      else path_loop k t (fld t c parent 0) ([47] ++ nm ++ acc)
  end.
Definition vfs_path_of (t : vfs D) (a cap : Z) : option (list Z) :=
  if a =? 0 then None
  else if a =? root_node t then Some [47]
  else
    match path_loop (walk_fuel t) t a [] with
    | Some out => if cap <? len out + 1 then None else Some out
    | None => None
    end.

Fixpoint count_siblings (fuel : nat) (t : vfs D) (c : Z) : Z :=
  match fuel with
  | O => 0
  | S k => if c =? 0 then 0 else 1 + count_siblings k t (fld t c sibling 0)
  end.
Definition vfs_count_children (t : vfs D) (a : Z) : Z :=
  if is_dir t a then count_siblings (walk_fuel t) t (fld t a child 0) else 0.

(** ** Importing the initial archive *)
Fixpoint strip_dot_slash (fuel : nat) (s : list Z) : list Z :=
  match fuel with
  | O => s
  | S k =>
    match s with
    | 46 :: [] => strip_dot_slash k []
    | 46 :: 47 :: _ => strip_dot_slash k (skip_slashes (drop 1 s))
    | _ => s
    end
  end.

Fixpoint insert_loop (fuel : nat) (e : venv) (t : vfs D) (cur : Z) (s : list Z) (ty : vnode_type)
  (content : list Z) (md : Z) : vfs D :=
  match fuel, s with
  | S k, _ :: _ =>
      let '(part, rest) := take_part part_max s in
      if len part =? 0 then t
      else
        let last := streq rest [] || streq rest [47] in
        let s := match rest with c :: r => if c =? 47 then r else rest | [] => [] end in
        if streq part dot then insert_loop k e t cur s ty content md
        else if negb last || is_vt ty VN_DIR then
          let '(t, d) := find_or_make_dir e t cur part in insert_loop k e t d s ty content md
        else
          let f := find_child t cur part in
          let '(t, f) := if f =? 0 then let '(t, n) := mknode e t part VN_FILE in (attach t cur n, n)
                         else (t, f) in
          let t := if negb (md =? 0)
                   then upd t f (fun v => set_dirty false (set_mode (Z.land md 511) v)) else t in
          if negb (len content =? 0)
          then upd t f (fun v => with_content v (len content) (len content) (Some content)) else t
  | _, _ => t
  end.

Definition insert_path (e : venv) (t : vfs D) (path : list Z) (ty : vnode_type) (content : list Z)
  (md : Z) : vfs D :=
  insert_loop (S (length path)) e t (root_node t)
    (strip_dot_slash (S (length path)) (skip_slashes path)) ty content md.
End Tree.

(** ** The tree lock *)
(** [vfs_lock] and [vfs_unlock] as the memory accesses each processor makes, in
    order. [spin] is the state of the spinlock, [owner] and [depth] the two
    globals. A processor is outside, about to take the spinlock, holding it with
    [owner] not yet written, with [depth] not yet written, inside, or between
    the steps of the release. *)
Inductive lock_pc := Out | Spin | GotSpin | SetOwner | Inside | Released | Disowned.
Record lock_state := LockState { spin : bool; owner : Z; depth : Z; pcs : Z -> lock_pc }.

Definition pc_set (f : Z -> lock_pc) (c : Z) (p : lock_pc) : Z -> lock_pc :=
  fun x => if x =? c then p else f x.

Inductive lock_step : lock_state -> lock_state -> Prop :=
(** [vfs_lock]: the test [owner == me && depth > 0], nested entry or not *)
| lock_nested s c : (pcs s c = Inside \/ pcs s c = Out) -> owner s = c -> 0 < depth s ->
    lock_step s (LockState (spin s) (owner s) (depth s + 1) (pc_set (pcs s) c Inside))
| lock_first s c : pcs s c = Out -> ~ (owner s = c /\ 0 < depth s) ->
    lock_step s (LockState (spin s) (owner s) (depth s) (pc_set (pcs s) c Spin))
| lock_reenter s c : pcs s c = Inside -> ~ (owner s = c /\ 0 < depth s) ->
    lock_step s (LockState (spin s) (owner s) (depth s) (pc_set (pcs s) c Spin))
| lock_acquire s c : pcs s c = Spin -> spin s = false ->
    lock_step s (LockState true (owner s) (depth s) (pc_set (pcs s) c GotSpin))
| lock_owner s c : pcs s c = GotSpin ->
    lock_step s (LockState (spin s) c (depth s) (pc_set (pcs s) c SetOwner))
| lock_depth s c : pcs s c = SetOwner ->
    lock_step s (LockState (spin s) (owner s) 1 (pc_set (pcs s) c Inside))
(** [vfs_unlock] *)
| unlock_nested s c : pcs s c = Inside -> depth s - 1 <> 0 ->
    lock_step s (LockState (spin s) (owner s) (depth s - 1) (pcs s))
| unlock_last s c : pcs s c = Inside -> depth s - 1 = 0 ->
    lock_step s (LockState (spin s) (owner s) 0 (pc_set (pcs s) c Released))
| unlock_disown s c : pcs s c = Released ->
    lock_step s (LockState (spin s) 4294967295 (depth s) (pc_set (pcs s) c Disowned))
| unlock_spin s c : pcs s c = Disowned ->
    lock_step s (LockState false (owner s) (depth s) (pc_set (pcs s) c Out)).

Inductive lock_reachable : lock_state -> Prop :=
| lock_boot : lock_reachable (LockState false 0 0 (fun _ => Out))
| lock_next s s' : lock_reachable s -> lock_step s s' -> lock_reachable s'.

(** * File contents *)
Definition contents (v : vnode) : list Z :=
  match data v with Some l => take (Z.to_nat (size v)) l | None => [] end.

Definition file_ok (v : vnode) : Prop :=
  type v = VN_FILE /\ 0 <= size v <= cap v /\ cap v < 2 ^ 62 /\
  match data v with Some l => len l = cap v | None => cap v = 0 end.

(** The allocator returns a buffer of the size asked. *)
Definition alloc_ok (e : venv) : Prop := forall n l, kmalloc e n = Some l -> len l = n.

Lemma is_vt_refl a : is_vt a a = true.
Proof. by apply bool_decide_eq_true_2. Qed.

Lemma len_contents v : file_ok v -> len (contents v) = size v.
Proof.
  intros (_ & Hs & _ & Hd). unfold contents, len in *. destruct (data v) as [l|]; [|simpl; lia].
  rewrite length_take. lia.
Qed.

Lemma grow_cap_spec fuel : forall c need, 1 <= c < 2 ^ 62 -> need <= 2 ^ 61 ->
  need <= c * 2 ^ (Z.of_nat fuel - 1) -> (0 < fuel)%nat ->
  exists c', grow_cap fuel c need = Some c' /\ need <= c' /\ c <= c' < 2 ^ 62.
Proof.
  induction fuel as [|k IH]; intros c need Hc Hn Hf Hpos; [lia|]. cbn [grow_cap].
  destruct (c <? need) eqn:E; zbool; [|exists c; splits; lia || done].
  rewrite u64_small by lia.
  destruct (decide (k = 0%nat)) as [->|Hk].
  { change (Z.of_nat 1 - 1) with 0 in Hf. lia. }
  destruct (IH (c * 2) need) as (c' & -> & H1 & H2); [lia|lia| |lia|].
  - replace (c * 2 * 2 ^ (Z.of_nat k - 1)) with (c * 2 ^ (Z.of_nat (S k) - 1)); [done|].
    replace (Z.of_nat (S k) - 1) with (Z.succ (Z.of_nat k - 1)) by lia.
    rewrite Z.pow_succ_r by lia. ring.
  - exists c'. splits; lia || done.
Qed.

(** Growing keeps the contents, whatever the fresh buffer holds. *)
Lemma ensure_cap_spec e v need : alloc_ok e -> file_ok v -> 0 <= need <= 2 ^ 61 ->
  ensure_cap e v need = Some None \/
  exists v', ensure_cap e v need = Some (Some v') /\ file_ok v' /\ size v' = size v /\
    need <= cap v' /\ contents v' = contents v.
Proof.
  intros He Hv Hn. pose proof Hv as (Ht & Hs & Hc & Hd). unfold ensure_cap. case_ifZ.
  { right. exists v. splits; done || lia. }
  set (c0 := if cap v =? 0 then 64 else cap v).
  assert (H0 : 1 <= c0 < 2 ^ 62) by (unfold c0; case_ifZ; lia).
  destruct (grow_cap_spec 65 c0 need) as (c' & -> & H1 & H2); [lia|lia| |lia|].
  { change (Z.of_nat 65 - 1) with 64. nia. }
  destruct (kmalloc e c') as [nb|] eqn:Ek; [|by left]. right. apply He in Ek.
  set (nb' := match data v with Some _ => _ | None => nb end). exists (with_content v (size v) c' (Some nb')).
  assert (Hc' : cap v <= c') by (unfold c0 in H2; destruct (cap v =? 0) eqn:E0; zbool; lia).
  assert (Hnb : len nb' = c' /\ take (Z.to_nat (size v)) nb' = contents v).
  { unfold nb', contents. destruct (data v) as [l|]; [|split; [done|]; by replace (size v) with 0 by lia].
    destruct (size v =? 0) eqn:E0; zbool; [rewrite E0; done|].
    assert (Hl : len (take (Z.to_nat (size v)) l) = size v) by (unfold len in *; rewrite length_take; lia).
    split; [unfold len; rewrite length_blit; [exact Ek|lia|lia]|].
    unfold blit. change (take (Z.to_nat 0) nb ++ ?x) with x. apply take_app_length'. unfold len in Hl. lia. }
  destruct Hnb as [Hl Hcn]. splits; try done; cbn [size cap data with_content]; try lia.
  unfold file_ok. cbn [type size cap data with_content]. splits; try done; lia.
Qed.

Lemma len_replicate' n : 0 <= n -> len (replicate (Z.to_nat n) (0 : Z)) = n.
Proof. intros. rewrite len_replicate. lia. Qed.

(** A write that stays within the buffer. *)
Lemma buf_write_ok d c off bs :
  match d with Some l => len l = c | None => c = 0 end -> 0 <= off -> off + len bs <= c ->
  exists d', buf_write d off bs = Some d' /\ match d' with Some l => len l = c | None => c = 0 end /\
    (len bs = 0 -> d' = d) /\
    (0 < len bs -> exists l, d = Some l /\ d' = Some (blit l off bs)).
Proof.
  intros Hd Ho Hc. unfold buf_write. assert (0 <= len bs) by (unfold len; lia). case_ifZ.
  - exists d. splits; try done. lia.
  - destruct d as [l|]; [|lia]. rewrite (proj2 (Z.leb_le _ _)) by lia. eexists. split; [reflexivity|].
    splits; [unfold len; rewrite length_blit; [exact Hd|lia|lia]|lia|]. intros _. by exists l.
Qed.

(** The contents a write leaves: the gap up to [off] zero-filled, then [buf]
    over what was there. *)
Definition written (c : list Z) (off : Z) (buf : list Z) : list Z :=
  let c := c ++ replicate (Z.to_nat (off - len c)) 0 in
  take (Z.to_nat off) c ++ buf ++ drop (Z.to_nat (off + len buf)) c.

Lemma take_blit_ge l off d n : 0 <= off -> off + len d <= n -> n <= len l ->
  take (Z.to_nat n) (blit l off d) = blit (take (Z.to_nat n) l) off d.
Proof.
  intros Ho Hd Hn. unfold blit, len in *. rewrite take_app_ge by (rewrite length_take; lia).
  rewrite take_take, Nat.min_l by lia. f_equal. rewrite length_take.
  rewrite take_app_ge by lia. f_equal. rewrite skipn_firstn_comm. f_equal. lia.
Qed.

Lemma blit_written l off buf m : 0 <= off <= m -> m <= len l -> off + len buf <= len l ->
  take (Z.to_nat (Z.max m (off + len buf))) (blit l off buf)
  = take (Z.to_nat off) (take (Z.to_nat m) l) ++ buf
      ++ drop (Z.to_nat (off + len buf)) (take (Z.to_nat m) l).
Proof.
  intros Ho Hm Hb. assert (0 <= len buf) by (unfold len; lia).
  rewrite take_blit_ge by lia. unfold blit. rewrite !take_take. f_equal; [f_equal; lia|f_equal].
  unfold len in *. replace (Z.to_nat off + length buf)%nat with (Z.to_nat (off + Z.of_nat (length buf))) by lia.
  rewrite !skipn_firstn_comm. f_equal. lia.
Qed.

(** The zero-filled prefix. *)
Lemma blit_zeros l s off : 0 <= s <= off -> off <= len l ->
  take (Z.to_nat off) (blit l s (replicate (Z.to_nat (off - s)) 0))
  = take (Z.to_nat s) l ++ replicate (Z.to_nat (off - s)) 0.
Proof.
  intros Hs Ho. unfold blit, len in *. rewrite app_assoc. apply take_app_length'.
  rewrite length_app, length_take, length_replicate. lia.
Qed.

Lemma write_spec e v buf off : alloc_ok e -> file_ok v -> 0 <= off -> off + len buf <= 2 ^ 61 ->
  vfs_write e v buf off = Result (-1) v \/
  exists v', vfs_write e v buf off = Result (len buf) v' /\ file_ok v' /\ dirty v' = true /\
    contents v' = written (contents v) off buf.
Proof.
  intros He Hv Ho Hb. assert (Hn : 0 <= len buf) by (unfold len; lia).
  pose proof Hv as (Ht & _). unfold vfs_write. rewrite Ht, is_vt_refl. cbn [negb].
  rewrite (u64_small (off + len buf)) by lia.
  destruct (ensure_cap_spec e v (off + len buf) He Hv) as [->|(v1 & -> & H1 & Hs1 & Hc1 & Hcn)]; [lia|by left|].
  right. pose proof (len_contents v1 H1) as Lc. destruct H1 as (Ht1 & Hsz & Hcap & Hd1).
  rewrite <- Hcn. set (s := size v1) in *.
  (* the gap *)
  assert (Hgap : exists d1, (if s <? off then buf_write (data v1) s (replicate (Z.to_nat (off - s)) 0)
      else Some (data v1)) = Some d1 /\
    match d1 with
    | Some l => len l = cap v1 /\ take (Z.to_nat (Z.max s off)) l
                  = contents v1 ++ replicate (Z.to_nat (off - len (contents v1))) 0
    | None => cap v1 = 0 end).
  { rewrite Lc. unfold contents. fold s. destruct (s <? off) eqn:Eg; zbool.
    - destruct (buf_write_ok (data v1) (cap v1) s (replicate (Z.to_nat (off - s)) 0) Hd1)
        as (d1 & -> & Hd1' & _ & Hex); rewrite ?len_replicate' by lia; [lia|lia|].
      exists d1. split; [done|]. rewrite len_replicate' in Hex by lia.
      destruct (Hex ltac:(lia)) as (l & El & ->). rewrite El in *. split; [done|].
      rewrite Z.max_r by lia. apply blit_zeros; lia.
    - exists (data v1). split; [done|]. destruct (data v1) as [l|]; [|done]. split; [done|].
      rewrite Z.max_l by lia. replace (Z.to_nat (off - s)) with 0%nat by lia. by rewrite app_nil_r. }
  destruct Hgap as (d1 & -> & Hg).
  destruct (buf_write_ok d1 (cap v1) off buf) as (d2 & -> & Hd2 & Hz & Hex); [by destruct d1 as [l|]; [destruct Hg|]|lia|lia|].
  eexists. split; [reflexivity|]. cbn [dirty with_dirty].
  assert (Hsize : (if s <? off + len buf then off + len buf else s) = Z.max s (off + len buf))
    by (case_ifZ; lia).
  rewrite Hsize. splits; [|done|].
  - unfold file_ok. cbn [type size cap data with_dirty with_content]. splits; try done; lia.
  - unfold contents at 1. cbn [data size with_dirty with_content]. unfold written. rewrite Lc.
    destruct (decide (0 < len buf)) as [Hp|Hp].
    + destruct (Hex Hp) as (l & -> & ->). destruct Hg as [Hl Hg]. rewrite Lc in Hg. rewrite <- Hg.
      replace (Z.max s (off + len buf)) with (Z.max (Z.max s off) (off + len buf)) by lia.
      apply blit_written; lia.
    + assert (len buf = 0) as H0 by lia. rewrite (Hz H0).
      assert (buf = []) as -> by (destruct buf; [done|unfold len in H0; simpl in H0; lia]).
      cbn [app]. rewrite Z.add_0_r. rewrite take_drop.
      destruct d1 as [l|]; [rewrite Lc in Hg; destruct Hg as [_ Hg]; rewrite H0, ?Z.add_0_r in *; exact Hg|].
      replace (Z.to_nat (off - s)) with 0%nat by lia. rewrite app_nil_r.
      destruct (contents v1); [done|unfold len in Lc; simpl in Lc; lia].
Qed.

Lemma read_spec v off n : file_ok v -> 0 <= off -> 0 <= n -> off + n < 2 ^ 64 ->
  vfs_read v off n = Some (len (slice (contents v) off n), slice (contents v) off n).
Proof.
  intros Hv Ho Hn Hb. pose proof (len_contents v Hv) as Lc. destruct Hv as (Ht & Hs & Hc & Hd).
  unfold vfs_read. rewrite Ht, is_vt_refl. cbn [negb]. case_ifZ.
  { replace (slice (contents v) off n) with ([] : list Z); [done|].
    unfold slice. rewrite drop_ge by (unfold len in Lc; lia). by rewrite take_nil. }
  rewrite (u64_small (off + n)), (u64_small (size v - off)) by lia.
  set (m := if size v <? off + n then size v - off else n).
  assert (Hm : slice (contents v) off n = slice (contents v) off m /\ 0 <= m /\ off + m <= size v).
  { unfold m. destruct (size v <? off + n) eqn:E1; zbool; [|splits; done || lia]. splits; [|lia..].
    unfold slice. rewrite !(take_ge (drop _ _)); [done|..]; rewrite length_drop; unfold len in Lc; lia. }
  destruct Hm as (-> & Hm0 & Hm). assert (Ls : len (slice (contents v) off m) = m).
  { unfold len at 1. rewrite length_slice by lia. lia. }
  rewrite Ls. case_ifZ.
  { f_equal. f_equal; [done|]. unfold slice. rewrite E0. done. }
  unfold contents in *. destruct (data v) as [l|]; [|lia]. rewrite (proj2 (Z.leb_le _ _)) by lia.
  do 2 f_equal. symmetry. apply slice_take; lia.
Qed.

(** Reading back what was written, and bytes the write did not cover. *)
Lemma written_slice c off buf : 0 <= off ->
  slice (written c off buf) off (len buf) = buf /\
  (forall o n, 0 <= o -> 0 <= n -> o + n <= off -> o + n <= len c ->
     slice (written c off buf) o n = slice c o n) /\
  (forall o n, off + len buf <= o -> 0 <= n -> o + n <= len c ->
     slice (written c off buf) o n = slice c o n).
Proof.
  intros Ho. unfold written. set (c1 := c ++ _).
  assert (L1 : off <= len c1) by (unfold c1, len; rewrite length_app, length_replicate; lia).
  assert (Lt : len (take (Z.to_nat off) c1) = off) by (unfold len in *; rewrite length_take; lia).
  assert (0 <= len buf) by (unfold len; lia). splits.
  - rewrite slice_app_r by lia. rewrite Lt, Z.sub_diag. rewrite slice_app_l by lia.
    unfold slice. cbn [Z.to_nat]. rewrite drop_0. apply take_ge. unfold len. lia.
  - intros o n H1 H2 H3 H4. rewrite slice_app_l by lia. rewrite slice_take by lia.
    unfold c1. by rewrite slice_app_l by lia.
  - intros o n H1 H2 H3. rewrite slice_app_r by lia. rewrite Lt. rewrite slice_app_r by lia.
    rewrite slice_drop by lia. unfold c1. rewrite <- (slice_app_l c (replicate (Z.to_nat (off - len c)) 0)) by lia.
    f_equal. lia.
Qed.

(** Writing to a file. For every buffer and offset (the sum below 2^61),
    either the allocator fails and the file is unchanged with -1, or the write
    returns its length, stays inside the buffer and leaves a well-formed file
    whose bytes are: the old ones outside the window, zeros in a gap before it,
    and the written ones inside, which reading back at that offset returns. The
    unspecified bytes of a freshly grown buffer are never visible. *)
Theorem vfs_write_spec e v buf off :
  alloc_ok e -> file_ok v -> 0 <= off -> off + len buf <= 2 ^ 61 ->
  vfs_write e v buf off = Result (-1) v \/
  exists v', vfs_write e v buf off = Result (len buf) v' /\ file_ok v' /\ dirty v' = true /\
    contents v' = written (contents v) off buf /\
    vfs_read v' off (len buf) = Some (len buf, buf).
Proof.
  intros He Hv Ho Hb. assert (0 <= len buf) by (unfold len; lia).
  destruct (write_spec e v buf off He Hv Ho Hb) as [->|(v' & -> & Hv' & Hd & Hc)]; [by left|right].
  exists v'. splits; try done. rewrite read_spec by (done || lia). rewrite Hc.
  destruct (written_slice (contents v) off buf Ho) as (-> & _). done.
Qed.

(** Truncation sets the length exactly: a shorter file keeps its first
    bytes, a longer one is padded with zeros, whatever the buffer held there
    (bytes of an earlier, longer state, or of a fresh allocation). *)
Theorem vfs_truncate_spec e v n :
  alloc_ok e -> file_ok v -> 0 <= n <= 2 ^ 61 ->
  vfs_truncate e v n = Result (-1) v \/
  exists v', vfs_truncate e v n = Result 0 v' /\ file_ok v' /\ size v' = n /\
    contents v' = take (Z.to_nat n) (contents v ++ replicate (Z.to_nat (n - size v)) 0).
Proof.
  intros He Hv Hn. pose proof Hv as (Ht & Hs & _ & _). unfold vfs_truncate. rewrite Ht, is_vt_refl.
  cbn [negb]. destruct (size v <? n) eqn:E; zbool.
  - destruct (ensure_cap_spec e v n He Hv) as [->|(v1 & -> & H1 & Hs1 & Hc1 & Hcn)]; [lia|by left|right].
    destruct H1 as (Ht1 & Hsz & Hcap & Hd1).
    destruct (buf_write_ok (data v1) (cap v1) (size v1) (replicate (Z.to_nat (n - size v1)) 0) Hd1)
      as (d & -> & Hd & _ & Hex); rewrite ?len_replicate' by lia; [lia|lia|].
    rewrite len_replicate' in Hex by lia. destruct (Hex ltac:(lia)) as (l & El & ->). rewrite El in Hd1.
    eexists. split; [reflexivity|]. splits.
    + unfold file_ok. cbn [type size cap data with_dirty with_content]. splits; try done; lia.
    + done.
    + unfold contents at 1. cbn [data size with_dirty with_content]. rewrite blit_zeros by lia.
      rewrite <- Hcn, <- Hs1. unfold contents. rewrite El. symmetry. apply take_ge.
      unfold len in *. rewrite length_app, length_take, length_replicate. lia.
  - right. eexists. split; [reflexivity|]. splits; [| done|].
    + destruct Hv as (_ & _ & Hc & Hd). unfold file_ok.
      cbn [type size cap data with_dirty with_content]. splits; try done; lia.
    + unfold contents. cbn [data size with_dirty with_content].
      replace (Z.to_nat (n - size v)) with 0%nat by lia. rewrite app_nil_r.
      destruct (data v) as [l|]; [|by rewrite take_nil]. rewrite take_take. f_equal. lia.
Qed.

(** A write whose end wraps past 2^64 (an offset [lseek] lets a process
    set) passes the capacity check, which sees the wrapped sum, and then fills
    the gap up to the offset: the buffer is overrun. *)
Theorem vfs_write_wrap e v buf off :
  file_ok v -> off < 2 ^ 64 -> 2 ^ 64 <= off + len buf -> len buf < 2 ^ 61 ->
  off + len buf - 2 ^ 64 <= cap v -> vfs_write e v buf off = Overrun.
Proof.
  intros (Ht & Hs & Hc & Hd) Ho Hw Hb Hcap. unfold vfs_write. rewrite Ht, is_vt_refl. cbn [negb].
  assert (Hu : u64 (off + len buf) = off + len buf - 2 ^ 64).
  { unfold u64. symmetry. apply (Z.mod_unique _ _ 1); lia. }
  rewrite Hu. unfold ensure_cap. rewrite (proj2 (Z.leb_le _ _)) by lia.
  rewrite (proj2 (Z.ltb_lt _ _)) by lia. unfold buf_write.
  rewrite len_replicate' by lia. rewrite (proj2 (Z.eqb_neq _ 0)) by lia.
  destruct (data v) as [l|]; [|done]. by rewrite (proj2 (Z.leb_gt _ _)) by lia.
Qed.

(** A five-byte file in an eight-byte buffer; fresh memory holds 170s. *)
Definition demo_env : venv :=
  Venv 7 0 0 18 (fun n => if n <? 0 then None else Some (replicate (Z.to_nat n) 170)).
Definition demo_file : vnode :=
  Vnode [102] VN_FILE 0 5 8 (Some [1; 2; 3; 4; 5; 99; 99; 99]) 0 1 0 0 420 [] false 0 0 0 0 0.

Lemma demo_file_ok : file_ok demo_file.
Proof. vm_compute. repeat split; discriminate. Qed.
Lemma demo_alloc_ok : alloc_ok demo_env.
Proof.
  intros n l. cbn [kmalloc demo_env]. case_ifZ; [done|]. intros [= <-]. rewrite len_replicate. lia.
Qed.

Lemma vfs_write_spec_witness : exists v',
  vfs_write demo_env demo_file [7; 7] 10 = Result 2 v' /\
  contents v' = [1; 2; 3; 4; 5; 0; 0; 0; 0; 0; 7; 7].
Proof.
  destruct (vfs_write_spec demo_env demo_file [7; 7] 10 demo_alloc_ok demo_file_ok)
    as [H|(v' & E & _ & _ & Hc & _)]; [lia|vm_compute; discriminate|discriminate H|].
  exists v'. split; [exact E|rewrite Hc; vm_compute; reflexivity].
Defined.

Lemma vfs_truncate_spec_witness : exists v',
  vfs_truncate demo_env demo_file 7 = Result 0 v' /\ contents v' = [1; 2; 3; 4; 5; 0; 0].
Proof.
  destruct (vfs_truncate_spec demo_env demo_file 7 demo_alloc_ok demo_file_ok)
    as [H|(v' & E & _ & _ & Hc)]; [lia|discriminate H|].
  exists v'. split; [exact E|rewrite Hc; vm_compute; reflexivity].
Defined.

Lemma vfs_write_wrap_witness :
  vfs_write demo_env demo_file (replicate 10 65) (2 ^ 64 - 5) = Overrun.
Proof.
  apply (vfs_write_wrap demo_env demo_file (replicate 10 65) (2 ^ 64 - 5) demo_file_ok);
    vm_compute; (reflexivity || discriminate).
Defined.

(** * Symbolic links *)
Section Links.
Context {D : Type} (t : vfs D).

Lemma take_part_plain nm n : (length nm <= n)%nat -> Forall (fun c => c <> 47) nm ->
  take_part n nm = (nm, []).
Proof.
  intros Hl Hf. revert n Hl. induction Hf as [|c nm Hc Hf IH]; intros n Hl; [by destruct n|].
  destruct n as [|n]; [simpl in Hl; lia|]. cbn [take_part].
  rewrite (proj2 (Z.eqb_neq c 47)) by done. rewrite IH by (simpl in Hl; lia). done.
Qed.

Lemma streq_false a b : a <> b -> streq a b = false.
Proof. intros. by apply bool_decide_eq_false_2. Qed.

(** A link [a] whose target is its own name. *)
Definition self_link (a : Z) (nm : list Z) : Prop :=
  a <> 0 /\ fld t a (fun n => is_vt (type n) VN_SYMLINK) false = true /\
  link_target t a = Some nm /\ find_child t (fld t a parent 0) nm = a /\ fld t a parent 0 <> 0 /\
  (0 < length nm <= 95)%nat /\ Forall (fun c => c <> 47) nm /\ nm <> dot /\ nm <> dotdot.

Lemma self_link_diverges a nm : self_link a nm -> forall fuel,
  (forall d, d < 8 -> resolve_link fuel t a d = None) /\
  vfs_lookup_at fuel t (fld t a parent 0) nm = None /\
  walk fuel t (fld t a parent 0) nm = None.
Proof.
  intros (Ha & Hty & Htg & Hf & Hp & Hl & Hs & Hd & Hdd) fuel.
  assert (Hne : exists c r, nm = c :: r /\ c <> 47).
  { destruct nm as [|c r]; [simpl in Hl; lia|]. exists c, r. split; [done|by inversion Hs]. }
  destruct Hne as (c & r & -> & Hc).
  assert (H47 : (c =? 47) = false) by (by apply Z.eqb_neq).
  assert (Hst : start_dir t (fld t a parent 0) (c :: r) = fld t a parent 0).
  { unfold start_dir. cbn [head]. by rewrite H47, (proj2 (Z.eqb_neq _ 0)) by done. }
  induction fuel as [|k (IHr & IHl & IHw)]; [done|]. splits.
  - intros d Hd8. cbn [resolve_link]. rewrite (proj2 (Z.eqb_neq a 0)), Hty by done.
    rewrite (proj2 (Z.ltb_lt d 8)) by done. cbn [negb andb]. rewrite Htg. cbn [head].
    by rewrite H47, IHl.
  - cbn [vfs_lookup_at]. unfold trivial_path.
    rewrite (streq_false (c :: r) []), (streq_false (c :: r) [47]) by congruence. cbn [orb].
    by rewrite Hst, H47.
  - cbn [walk]. rewrite take_part_plain; [|unfold part_max, VFS_MAX_NAME; simpl in *; lia|done].
    cbn [skip_slashes]. rewrite (proj2 (Z.eqb_neq (len (c :: r)) 0)) by (unfold len; simpl; lia).
    rewrite (streq_false _ dot), (streq_false _ dotdot) by done.
    by rewrite Hf, (proj2 (Z.eqb_neq a 0)), IHr by done.
Qed.

(** Link resolution does not terminate on a loop: the bound of eight
    counts the links of one call, and every nested lookup starts a new count. For
    a link whose target is its own name, resolution and lookup run out of every
    amount of fuel; in the kernel the recursion exhausts the stack. *)
Theorem symlink_loop_diverges a nm fuel : self_link a nm ->
  resolve_link fuel t a 0 = None /\ vfs_lookup_at fuel t (fld t a parent 0) nm = None.
Proof.
  intros Hs. destruct (self_link_diverges a nm Hs fuel) as (Hr & Hl & _). split; [by apply Hr|done].
Qed.
End Links.

(** [ln -s a /a] on an empty file system. *)
Definition demo_root : vfs unit :=
  Vfs (<[1 := new_node demo_env [47] VN_DIR]> ∅) 1 2 tt.
Definition demo_loop : vfs unit := fst (vfs_symlink demo_env demo_root 1 [97] [97]).

Lemma symlink_loop_diverges_witness :
  vfs_lookup_at 1000 demo_loop 1 [97] = None.
Proof.
  refine (proj2 (symlink_loop_diverges demo_loop 2 [97] 1000 _)).
  unfold self_link. splits; try (vm_compute; reflexivity); try discriminate; try (simpl; lia).
  repeat constructor. discriminate.
Defined.

(** * The tree lock *)
Definition lock_inv (s : lock_state) : Prop :=
  (depth s = 0 /\ (forall c, pcs s c <> Inside) /\
   (spin s = false /\ (forall c, pcs s c = Out \/ pcs s c = Spin) \/
    spin s = true /\ exists h, (pcs s h = GotSpin \/ (pcs s h = SetOwner /\ owner s = h) \/
                               pcs s h = Released \/ pcs s h = Disowned) /\
                    forall c, c <> h -> pcs s c = Out \/ pcs s c = Spin)) \/
  (0 < depth s /\ spin s = true /\ pcs s (owner s) = Inside /\
   forall c, c <> owner s -> pcs s c = Out \/ pcs s c = Spin).

Lemma pc_set_same f c p : pc_set f c p c = p.
Proof. unfold pc_set. by rewrite Z.eqb_refl. Qed.
Lemma pc_set_ne f c p x : x <> c -> pc_set f c p x = f x.
Proof. intros. unfold pc_set. by rewrite (proj2 (Z.eqb_neq x c)). Qed.

(** When [h] owns the spinlock and changes its own position, the others stay out. *)
Lemma others_set f h p x : x <> h -> (forall c, c <> h -> f c = Out \/ f c = Spin) ->
  pc_set f h p x = Out \/ pc_set f h p x = Spin.
Proof. intros Hx Hf. rewrite pc_set_ne by done. by apply Hf. Qed.

(** The position of any processor inside the protected part is the holder's. *)
Ltac holder c h Ho :=
  destruct (decide (c = h)) as [->|]; [|exfalso; destruct (Ho c) as [?|?]; [done|congruence|congruence]].

Lemma lock_step_inv s s' : lock_inv s -> lock_step s s' -> lock_inv s'.
Proof.
  intros Hinv Hstep. destruct Hstep as [s c Hpc Ho Hd|s c Hpc Hn|s c Hpc Hn|s c Hpc Hf|s c Hpc|s c Hpc
    |s c Hpc Hd|s c Hpc Hd|s c Hpc|s c Hpc].
  - destruct Hinv as [(Hz & _)|(Hp & Hs & Hin & Hot)]; [lia|]. right. subst c. cbn. splits.
    + lia.
    + done.
    + by rewrite pc_set_same.
    + intros x Hx. by apply others_set.
  - destruct Hinv as [(Hz & Hni & [[Hs Hot]|(Hs & h & Hh & Hot)])|(Hp & Hs & Hin & Hot)].
    + left. cbn. splits; [done| |left; split; [done|]]; intros x;
        destruct (decide (x = c)) as [->|]; rewrite ?pc_set_same, ?pc_set_ne by done; auto; done.
    + left. assert (c <> h) by (intros ->; destruct Hh as [H|[[H _]|[H|H]]]; congruence).
      cbn. splits; [done| |right; split; [done|]].
      * intros x. destruct (decide (x = c)) as [->|]; rewrite ?pc_set_same, ?pc_set_ne by done; [done|auto].
      * exists h. rewrite pc_set_ne by done. split; [done|]. intros x Hx.
        destruct (decide (x = c)) as [->|]; rewrite ?pc_set_same, ?pc_set_ne by done; auto.
    + right. assert (c <> owner s) by congruence. cbn. splits; [done..| |].
      * by rewrite pc_set_ne by done.
      * intros x Hx. destruct (decide (x = c)) as [->|]; rewrite ?pc_set_same, ?pc_set_ne by done; auto.
  - exfalso. destruct Hinv as [(_ & Hni & _)|(Hp & Hs & Hin & Hot)]; [by apply (Hni c)|].
    destruct (decide (c = owner s)) as [->|Hc]; [by apply Hn|]. destruct (Hot c Hc); congruence.
  - destruct Hinv as [(Hz & Hni & [[Hs Hot]|(Hs & _)])|(_ & Hs & _)]; [|congruence|congruence].
    left. cbn. splits; [done| |right; split; [done|]].
    + intros x. destruct (decide (x = c)) as [->|]; rewrite ?pc_set_same, ?pc_set_ne by done; [done|auto].
    + exists c. rewrite pc_set_same. split; [by left|]. intros x Hx. rewrite pc_set_ne by done. auto.
  - destruct Hinv as [(Hz & Hni & [[Hs Hot]|(Hs & h & Hh & Hot)])|(_ & _ & Hin & Hot)].
    + destruct (Hot c); congruence.
    + holder c h Hot. left. cbn. splits; [done| |right; split; [done|]].
      * intros x. destruct (decide (x = h)) as [->|]; rewrite ?pc_set_same, ?pc_set_ne by done; [done|auto].
      * exists h. rewrite pc_set_same. split; [right; left; done|]. intros x Hx. by apply others_set.
    + exfalso. destruct (decide (c = owner s)) as [->|Hc]; [congruence|]. destruct (Hot c Hc); congruence.
  - destruct Hinv as [(Hz & Hni & [[Hs Hot]|(Hs & h & Hh & Hot)])|(_ & _ & Hin & Hot)].
    + destruct (Hot c); congruence.
    + holder c h Hot. assert (Hoh : owner s = h) by (destruct Hh as [H|[[_ H]|[H|H]]]; congruence).
      right. cbn. subst h. splits; [lia|done|by rewrite pc_set_same|]. intros x Hx. by apply others_set.
    + exfalso. destruct (decide (c = owner s)) as [->|Hc]; [congruence|]. destruct (Hot c Hc); congruence.
  - destruct Hinv as [(_ & Hni & _)|(Hp & Hs & Hin & Hot)]; [by destruct (Hni c)|].
    right. cbn. splits; [lia|done..].
  - destruct Hinv as [(_ & Hni & _)|(Hp & Hs & Hin & Hot)]; [by destruct (Hni c)|].
    holder c (owner s) Hot. left. cbn. splits; [done| |right; split; [done|]].
    + intros x. destruct (decide (x = owner s)) as [->|]; rewrite ?pc_set_same, ?pc_set_ne by done; [done|].
      destruct (Hot x); congruence.
    + exists (owner s). rewrite pc_set_same. split; [auto|]. intros x Hx. by apply others_set.
  - destruct Hinv as [(Hz & Hni & [[Hs Hot]|(Hs & h & Hh & Hot)])|(_ & _ & Hin & Hot)].
    + destruct (Hot c); congruence.
    + holder c h Hot. left. cbn. splits; [done| |right; split; [done|]].
      * intros x. destruct (decide (x = h)) as [->|]; rewrite ?pc_set_same, ?pc_set_ne by done; [done|auto].
      * exists h. rewrite pc_set_same. split; [auto|]. intros x Hx. by apply others_set.
    + exfalso. destruct (decide (c = owner s)) as [->|Hc]; [congruence|]. destruct (Hot c Hc); congruence.
  - destruct Hinv as [(Hz & Hni & [[Hs Hot]|(Hs & h & Hh & Hot)])|(_ & _ & Hin & Hot)].
    + destruct (Hot c); congruence.
    + holder c h Hot. left. cbn. splits; [done| |left; split; [done|]]; intros x;
        destruct (decide (x = h)) as [->|]; rewrite ?pc_set_same, ?pc_set_ne by done; auto; done.
    + exfalso. destruct (decide (c = owner s)) as [->|Hc]; [congruence|]. destruct (Hot c Hc); congruence.
Qed.

(** The recursive tree lock is a lock: in every interleaving of the memory
    accesses of any number of processors, at most one is inside, it is the
    recorded owner with a positive depth (so a nested entry takes the recursive
    path and never waits for itself), and no other processor passes the
    unsynchronised ownership test. *)
Theorem vfs_lock_mutex s : lock_reachable s ->
  (forall c c', pcs s c = Inside -> pcs s c' = Inside -> c = c') /\
  (forall c, pcs s c = Inside -> owner s = c /\ 0 < depth s) /\
  (forall c, owner s = c -> 0 < depth s -> pcs s c = Inside).
Proof.
  intros Hr. assert (Hinv : lock_inv s).
  { induction Hr as [|s s' _ IH Hs]; [|by eapply lock_step_inv].
    left. cbn. splits; [done|done|left; split; [done|]]. by left. }
  destruct Hinv as [(Hz & Hni & _)|(Hp & Hs & Hin & Hot)].
  - splits; intros; [by destruct (Hni c)|by destruct (Hni c)|lia].
  - assert (Hh : forall c, pcs s c = Inside -> c = owner s).
    { intros c Hc. destruct (decide (c = owner s)) as [|Hne]; [done|]. destruct (Hot c Hne); congruence. }
    splits.
    + intros c c' Hc%Hh Hc'%Hh. congruence.
    + intros c Hc%Hh. split; [congruence|done].
    + by intros c <-.
Qed.

(** Processor 1 enters while processor 2 waits. *)
Lemma vfs_lock_mutex_witness : exists s,
  lock_reachable s /\ pcs s 1 = Inside /\ pcs s 2 = Spin /\ owner s = 1.
Proof.
  pose (s0 := LockState false 0 0 (fun _ => Out)).
  pose (s1 := LockState false 0 0 (pc_set (pcs s0) 1 Spin)).
  pose (s2 := LockState true 0 0 (pc_set (pcs s1) 1 GotSpin)).
  pose (s3 := LockState true 0 0 (pc_set (pcs s2) 2 Spin)).
  pose (s4 := LockState true 1 0 (pc_set (pcs s3) 1 SetOwner)).
  pose (s5 := LockState true 1 1 (pc_set (pcs s4) 1 Inside)).
  assert (H : lock_reachable s5).
  { eapply (lock_next s4); [|by apply (lock_depth s4 1)].
    eapply (lock_next s3); [|by apply (lock_owner s3 1)].
    eapply (lock_next s2); [|apply (lock_first s2 2); [done|cbn; lia]].
    eapply (lock_next s1); [|by apply (lock_acquire s1 1)].
    eapply (lock_next s0); [|apply (lock_first s0 1); [done|cbn; lia]]. apply lock_boot. }
  exists s5. split; [exact H|]. split; [reflexivity|]. split; [reflexivity|].
  exact (proj1 (proj1 (proj2 (vfs_lock_mutex s5 H)) 1 eq_refl)).
Defined.
