(* ===== verification/Blkfs.v ===== *)
(** * The on-disk file system, YartFS v5 (kernel/fs/blkfs.c)

    Block groups with bitmaps and inode tables, the block map of an inode
    (direct, single and double indirect), directory entries, per-block CRCs, and
    the two directions between the vnode tree and the disk: persisting dirty
    nodes and rebuilding the tree at mount. A disk is a function from block
    numbers to blocks of 4096 bytes; the structures are laid out in bytes as the
    packed C structs are. *)
From Stdlib Require Import ZArith Lia Bool.
From stdpp Require Import base list numbers option gmap.
From S2P Require Import Prelude Vfs.
#[local] Set Default Goal Selector "!".
Open Scope Z_scope.

Definition YFS_MAGIC : Z := 6436299477982642176.
Definition YFS_VERSION : Z := 5.
Definition YFS_BLOCK_SIZE : Z := 4096.
Definition YFS_SECTORS_PER_BLK : Z := YFS_BLOCK_SIZE / BLK_SECTOR_SIZE.
Definition YFS_BLOCKS_PER_GROUP : Z := 4096.
Definition YFS_INODES_PER_GROUP : Z := 1024.
Definition YFS_INODE_SIZE : Z := 128.
Definition YFS_INODES_PER_BLK : Z := YFS_BLOCK_SIZE / YFS_INODE_SIZE.
Definition YFS_ITABLE_BLOCKS : Z := YFS_INODES_PER_GROUP / YFS_INODES_PER_BLK.
Definition YFS_META_PER_GROUP : Z := 2 + YFS_ITABLE_BLOCKS.
Definition YFS_INDIRECT_PER : Z := YFS_BLOCK_SIZE / 4.
Definition YFS_DIRECT : Z := 12.
Definition YFS_MAX_GROUPS : Z := 64.
Definition YFS_JOURNAL_BLOCKS : Z := 64.
Definition YFS_ROOT_INO : Z := 1.
Definition YFS_TYPE_FILE : Z := 1.
Definition YFS_TYPE_DIR : Z := 2.
Definition YFS_TYPE_LNK : Z := 3.

(** ** Little-endian integers *)
Definition le16 (v : Z) : list Z := [u8 v; u8 (Z.shiftr v 8)].
Definition le32 (v : Z) : list Z := [u8 v; u8 (Z.shiftr v 8); u8 (Z.shiftr v 16); u8 (Z.shiftr v 24)].
Definition rd16 (b : list Z) (o : Z) : Z := Z.lor (Z.shiftl (b.[o + 1]) 8) (b.[o]).
Definition rd32 (b : list Z) (o : Z) : Z :=
  Z.lor (Z.lor (Z.lor (Z.shiftl (b.[o + 3]) 24) (Z.shiftl (b.[o + 2]) 16))
               (Z.shiftl (b.[o + 1]) 8)) (b.[o]).
(** Entry [i] of a block of pointers. *)
Definition ptr (buf : list Z) (i : Z) : Z := rd32 buf (4 * i).
Definition set_ptr (buf : list Z) (i v : Z) : list Z := blit buf (4 * i) (le32 v).

(** ** On-disk structures *)
Record yfs_sb := Sb {
  magic : Z; version : Z; sb_geometry : list Z; total_blocks : Z; total_groups : Z; journal_start : Z; journal_blocks : Z;
  crc_start : Z; sb_mtime : Z; mount_count : Z; state : Z; sb_reserved : list Z }.
Record yfs_gdesc := Gdesc {
  block_bitmap : Z; inode_bitmap : Z; inode_table : Z; data_start : Z; data_end : Z;
  free_blocks : Z; free_inodes : Z; gd_reserved : Z }.
Record yfs_inode := Inode {
  i_mode : Z; i_uid : Z; i_gid : Z; i_size : Z; i_mtime : Z; links_count : Z; blocks_count : Z;
  direct : list Z; single_indirect : Z; double_indirect : Z; triple_indirect : Z;
  generation : Z; i_crc : Z; i_reserved : list Z }.

Definition no_gdesc : yfs_gdesc := Gdesc 0 0 0 0 0 0 0 0.
Definition no_inode : yfs_inode := Inode 0 0 0 0 0 0 0 (replicate 12 0) 0 0 0 0 0 (replicate 8 0).

Definition encode_words (ws : list Z) : list Z := concat (map le32 ws).
Definition encode_inode (n : yfs_inode) : list Z :=
  encode_words ([i_mode n; i_uid n; i_gid n; i_size n; i_mtime n; links_count n; blocks_count n]
    ++ direct n ++ [single_indirect n; double_indirect n; triple_indirect n; generation n; i_crc n]
    ++ i_reserved n).
Definition decode_inode (b : list Z) : yfs_inode :=
  let w i := rd32 b (4 * i) in
  Inode (w 0) (w 1) (w 2) (w 3) (w 4) (w 5) (w 6) (map w (seqZ 7 12)) (w 19) (w 20) (w 21) (w 22) (w 23)
    (map w (seqZ 24 8)).
Definition encode_sb (s : yfs_sb) : list Z :=
  le32 (u32 (magic s)) ++ le32 (Z.shiftr (magic s) 32) ++
  encode_words ([version s] ++ sb_geometry s ++
    [total_blocks s; total_groups s; journal_start s; journal_blocks s; crc_start s; sb_mtime s;
     mount_count s; state s] ++ sb_reserved s).
Definition decode_sb (b : list Z) : yfs_sb :=
  Sb (Z.lor (rd32 b 0) (Z.shiftl (rd32 b 4) 32)) (rd32 b 8) (map (rd32 b) [12; 16; 20; 24])
     (rd32 b 28) (rd32 b 32) (rd32 b 36) (rd32 b 40) (rd32 b 44) (rd32 b 48) (rd32 b 52) (rd32 b 56)
     (map (rd32 b) [60; 64; 68; 72; 76; 80; 84]).
Definition encode_gdesc (d : yfs_gdesc) : list Z :=
  encode_words [block_bitmap d; inode_bitmap d; inode_table d; data_start d; data_end d;
                free_blocks d; free_inodes d; gd_reserved d].
Definition decode_gdesc (b : list Z) (o : Z) : yfs_gdesc :=
  Gdesc (rd32 b o) (rd32 b (o + 4)) (rd32 b (o + 8)) (rd32 b (o + 12)) (rd32 b (o + 16))
        (rd32 b (o + 20)) (rd32 b (o + 24)) (rd32 b (o + 28)).

(** ** State *)
Record yfs := Yfs {
  sb : yfs_sb; g_desc : list yfs_gdesc; g_bbitmap : list (list Z); g_ibitmap : list (list Z);
  g_deleted : list Z; g_active : bool; g_synced_files : Z; disk : Z -> list Z }.

Definition set_disk (y : yfs) (d : Z -> list Z) : yfs :=
  Yfs (sb y) (g_desc y) (g_bbitmap y) (g_ibitmap y) (g_deleted y) (g_active y) (g_synced_files y) d.
Definition set_bbitmap (y : yfs) (b : list (list Z)) : yfs :=
  Yfs (sb y) (g_desc y) b (g_ibitmap y) (g_deleted y) (g_active y) (g_synced_files y) (disk y).
Definition set_ibitmap (y : yfs) (b : list (list Z)) : yfs :=
  Yfs (sb y) (g_desc y) (g_bbitmap y) b (g_deleted y) (g_active y) (g_synced_files y) (disk y).
Definition set_sb (y : yfs) (s : yfs_sb) : yfs :=
  Yfs s (g_desc y) (g_bbitmap y) (g_ibitmap y) (g_deleted y) (g_active y) (g_synced_files y) (disk y).
Definition set_desc (y : yfs) (d : list yfs_gdesc) : yfs :=
  Yfs (sb y) d (g_bbitmap y) (g_ibitmap y) (g_deleted y) (g_active y) (g_synced_files y) (disk y).
Definition set_deleted (y : yfs) (l : list Z) : yfs :=
  Yfs (sb y) (g_desc y) (g_bbitmap y) (g_ibitmap y) l (g_active y) (g_synced_files y) (disk y).
Definition set_active (y : yfs) (a : bool) : yfs :=
  Yfs (sb y) (g_desc y) (g_bbitmap y) (g_ibitmap y) (g_deleted y) a (g_synced_files y) (disk y).
Definition set_synced (y : yfs) (n : Z) : yfs :=
  Yfs (sb y) (g_desc y) (g_bbitmap y) (g_ibitmap y) (g_deleted y) (g_active y) n (disk y).
Definition set_sb_state (s : yfs_sb) (v : Z) : yfs_sb :=
  Sb (magic s) (version s) (sb_geometry s) (total_blocks s) (total_groups s) (journal_start s)
    (journal_blocks s) (crc_start s) (sb_mtime s) (mount_count s) v (sb_reserved s).
Definition set_sb_mounts (s : yfs_sb) (v : Z) : yfs_sb :=
  Sb (magic s) (version s) (sb_geometry s) (total_blocks s) (total_groups s) (journal_start s)
    (journal_blocks s) (crc_start s) (sb_mtime s) v (state s) (sb_reserved s).
Definition set_sb_magic (s : yfs_sb) : yfs_sb :=
  Sb YFS_MAGIC YFS_VERSION (sb_geometry s) (total_blocks s) (total_groups s) (journal_start s)
    (journal_blocks s) (crc_start s) (sb_mtime s) 0 0 (sb_reserved s).

Definition rd_blk (y : yfs) (b : Z) : list Z := disk y b.
Definition wr_blk (y : yfs) (b : Z) (buf : list Z) : yfs :=
  set_disk y (fun x => if x =? b then buf else disk y x).
Definition zero_blk : list Z := replicate 4096 0.
(** [memset(buf, 0, sizeof buf); memcpy(buf, d, ...)] *)
Definition blk_of (d : list Z) : list Z := blit zero_blk 0 d.

(** ** CRC-32 *)
Definition crc_bit (crc : Z) : Z :=
  Z.lxor (Z.shiftr crc 1) (Z.land 3988292384 (u32 (- Z.land crc 1))).
Definition crc_byte (crc b : Z) : Z := Nat.iter 8 crc_bit (Z.lxor crc b).
Definition crc32b (data : list Z) : Z := u32 (Z.lnot (fold_left crc_byte data 4294967295)).

(** ** Geometry *)
Definition disk_total_blocks (sectors swap : Z) : Z :=
  u32 ((if swap <? sectors then sectors - swap else 0) / YFS_SECTORS_PER_BLK).

Definition gd (y : yfs) (g : Z) : yfs_gdesc := nth (Z.to_nat g) (g_desc y) no_gdesc.
Definition in_data (d : yfs_gdesc) (blk : Z) : bool := (data_start d <=? blk) && (blk <? data_end d).

(** The first group, of those from [g], whose data range holds the block. *)
Fixpoint find_group (n : nat) (y : yfs) (g blk : Z) : Z :=
  match n with
  | O => -1
  | S k => if in_data (gd y g) blk then g else find_group k y (g + 1) blk
  end.
Definition groups (y : yfs) : Z := total_groups (sb y).
Definition group_of_data_block (y : yfs) (blk : Z) : Z := find_group (Z.to_nat (groups y)) y 0 blk.

(** One group's descriptor, [None] when its span is too short. *)
Definition layout_group (jstart g : Z) : option yfs_gdesc :=
  let span := u32 (2 + u32 (g * YFS_BLOCKS_PER_GROUP)) in
  let span_end := u32 (span + YFS_BLOCKS_PER_GROUP) in
  let span_end := if jstart <? span_end then jstart else span_end in
  if span_end <=? u32 (span + YFS_META_PER_GROUP) then None
  else
    let ds := u32 (span + YFS_META_PER_GROUP) in
    Some (Gdesc span (u32 (span + 1)) (u32 (span + 2)) ds span_end (u32 (span_end - ds))
            YFS_INODES_PER_GROUP 0).

Fixpoint layout_groups (n : nat) (jstart g : Z) : option (list yfs_gdesc) :=
  match n with
  | O => Some []
  | S k =>
    match layout_group jstart g, layout_groups k jstart (g + 1) with
    | Some d, Some l => Some (d :: l)
    | _, _ => None
    end
  end.

Definition data_blocks (d : yfs_gdesc) : Z := u32 (data_end d - data_start d).
Definition data_total (l : list yfs_gdesc) : Z := fold_left (fun s d => u32 (s + data_blocks d)) l 0.
Definition clamp_end (crc : Z) (d : yfs_gdesc) : yfs_gdesc :=
  Gdesc (block_bitmap d) (inode_bitmap d) (inode_table d) (data_start d)
    (if crc <? data_end d then crc else data_end d) (free_blocks d) (free_inodes d) (gd_reserved d).

(** The superblock and descriptors for a disk of [total] blocks. *)
Definition compute_layout (old : yfs_sb) (total : Z) : option (yfs_sb * list yfs_gdesc) :=
  if total <? 1024 then None
  else
    let ngroups := u32 (total + YFS_BLOCKS_PER_GROUP - 1) / YFS_BLOCKS_PER_GROUP in
    if (ngroups =? 0) || (YFS_MAX_GROUPS <? ngroups) then None
    else
      let jstart := u32 (total - YFS_JOURNAL_BLOCKS) in
      match layout_groups (Z.to_nat ngroups) jstart 0 with
      | None => None
      | Some ds =>
        let crc_blocks := u32 (u32 (data_total ds * 4) + YFS_BLOCK_SIZE - 1) / YFS_BLOCK_SIZE in
        let crc := u32 (jstart - crc_blocks) in
        let ds' := map (clamp_end crc) ds in
        if data_start (nth 0 ds no_gdesc) <? crc
        then Some (Sb (magic old) (version old)
                     [YFS_BLOCK_SIZE; YFS_BLOCKS_PER_GROUP; YFS_INODES_PER_GROUP; YFS_INODE_SIZE]
                     total ngroups jstart YFS_JOURNAL_BLOCKS crc
                     (sb_mtime old) (mount_count old) (state old) (sb_reserved old), ds')
        else None
      end.

Definition wr_gdt (y : yfs) : yfs :=
  wr_blk y 1 (blk_of (concat (map encode_gdesc (take (Z.to_nat (groups y)) (g_desc y))))).
Definition rd_gdt (y : yfs) : yfs :=
  let b := rd_blk y 1 in
  set_desc y (map (fun g => decode_gdesc b (32 * g)) (seqZ 0 (groups y))
              ++ drop (Z.to_nat (groups y)) (g_desc y)).

(** ** Bitmaps *)
Definition bit_get (bm : list (list Z)) (g i : Z) : bool :=
  negb (Z.land (Z.shiftr ((nth (Z.to_nat g) bm []).[i / 8]) (i mod 8)) 1 =? 0).
Definition bit_put (bm : list (list Z)) (g i : Z) (v : bool) : list (list Z) :=
  let m := nth (Z.to_nat g) bm [] in
  let w := m.[i / 8] in
  let w := if v then Z.lor w (Z.shiftl 1 (i mod 8)) else Z.land w (u8 (Z.lnot (Z.shiftl 1 (i mod 8)))) in
  <[Z.to_nat g := m.[i / 8 <- w]]> bm.

Definition ino_group (n : Z) : Z := u32 (n - 1) / YFS_INODES_PER_GROUP.
Definition ino_index (n : Z) : Z := u32 (n - 1) mod YFS_INODES_PER_GROUP.
Definition ibit (y : yfs) (n : Z) : bool := bit_get (g_ibitmap y) (ino_group n) (ino_index n).
Definition iset (y : yfs) (n : Z) (v : bool) : yfs :=
  set_ibitmap y (bit_put (g_ibitmap y) (ino_group n) (ino_index n) v).

Definition bbit (y : yfs) (blk : Z) : bool :=
  let g := group_of_data_block y blk in
  if g <? 0 then true else bit_get (g_bbitmap y) g (blk - data_start (gd y g)).
Definition bset (y : yfs) (blk : Z) (v : bool) : yfs :=
  let g := group_of_data_block y blk in
  if g <? 0 then y else set_bbitmap y (bit_put (g_bbitmap y) g (blk - data_start (gd y g)) v).

(** Inode numbers are tried in the order 1, 2, ... over all groups. *)
Fixpoint scan_ino (n : nat) (y : yfs) (k : Z) : yfs * Z :=
  match n with
  | O => (y, 0)
  | S m => if negb (ibit y k) then (iset y k true, k) else scan_ino m y (k + 1)
  end.
Definition alloc_ino (y : yfs) : yfs * Z :=
  scan_ino (Z.to_nat (groups y * YFS_INODES_PER_GROUP)) y 1.

Fixpoint scan_block (n : nat) (y : yfs) (blk : Z) : option Z :=
  match n with
  | O => None
  | S m => if negb (bbit y blk) then Some blk else scan_block m y (u32 (blk + 1))
  end.
Definition scan_group (y : yfs) (g : Z) : option Z :=
  scan_block (Z.to_nat (data_blocks (gd y g))) y (data_start (gd y g)).
Fixpoint scan_groups (gs : list Z) (y : yfs) : option Z :=
  match gs with
  | [] => None
  | g :: r => match scan_group y g with Some b => Some b | None => scan_groups r y end
  end.
(** The groups in the order of the two passes. *)
Definition group_order (y : yfs) (prefer : Z) : list Z :=
  map (fun gg => u32 (prefer + gg) mod groups y) (seqZ 0 (groups y)) ++ seqZ 0 (groups y).
Definition alloc_block (y : yfs) (prefer : Z) : yfs * Z :=
  match scan_groups (group_order y prefer) y with
  | Some b => (bset y b true, b)
  | None => (y, 0)
  end.

(** ** Inode table *)
Definition inode_block (y : yfs) (n : Z) : Z :=
  u32 (inode_table (gd y (ino_group n)) + ino_index n / YFS_INODES_PER_BLK).
Definition inode_slot_off (n : Z) : Z := ino_index n mod YFS_INODES_PER_BLK * YFS_INODE_SIZE.
Definition rd_inode (y : yfs) (n : Z) : yfs_inode :=
  decode_inode (slice (rd_blk y (inode_block y n)) (inode_slot_off n) YFS_INODE_SIZE).
Definition wr_inode (y : yfs) (n : Z) (i : yfs_inode) : yfs :=
  wr_blk y (inode_block y n) (blit (rd_blk y (inode_block y n)) (inode_slot_off n) (encode_inode i)).

(** ** Per-block CRCs *)
Fixpoint data_index_loop (n : nat) (y : yfs) (g blk idx : Z) : Z :=
  match n with
  | O => 4294967295
  | S k => if in_data (gd y g) blk then u32 (idx + (blk - data_start (gd y g)))
           else data_index_loop k y (g + 1) blk (u32 (idx + data_blocks (gd y g)))
  end.
Definition data_index (y : yfs) (blk : Z) : Z := data_index_loop (Z.to_nat (groups y)) y 0 blk 0.
Definition crc_slot_blk (y : yfs) (idx : Z) : Z := u32 (crc_start (sb y) + u32 (idx * 4) / YFS_BLOCK_SIZE).
Definition crc_of_block (y : yfs) (blk : Z) : Z :=
  let idx := data_index y blk in
  if idx =? 4294967295 then 0
  else rd32 (rd_blk y (crc_slot_blk y idx)) (u32 (idx * 4) mod YFS_BLOCK_SIZE).
Definition crc_store_block (y : yfs) (blk crc : Z) : yfs :=
  let idx := data_index y blk in
  if idx =? 4294967295 then y
  else wr_blk y (crc_slot_blk y idx)
         (blit (rd_blk y (crc_slot_blk y idx)) (u32 (idx * 4) mod YFS_BLOCK_SIZE) (le32 crc)).

(** ** Block map of an inode *)
Definition with_direct (n : yfs_inode) (d : list Z) : yfs_inode :=
  Inode (i_mode n) (i_uid n) (i_gid n) (i_size n) (i_mtime n) (links_count n) (blocks_count n)
    d (single_indirect n) (double_indirect n) (triple_indirect n) (generation n) (i_crc n) (i_reserved n).
Definition with_indirect (n : yfs_inode) (s d t : Z) : yfs_inode :=
  Inode (i_mode n) (i_uid n) (i_gid n) (i_size n) (i_mtime n) (links_count n) (blocks_count n)
    (direct n) s d t (generation n) (i_crc n) (i_reserved n).
Definition with_size (n : yfs_inode) (sz blocks : Z) : yfs_inode :=
  Inode (i_mode n) (i_uid n) (i_gid n) sz (i_mtime n) (links_count n) blocks
    (direct n) (single_indirect n) (double_indirect n) (triple_indirect n) (generation n) (i_crc n)
    (i_reserved n).

(** [alloc_block] for a pointer that is zero: the pointer and whether it is new. *)
Definition get_or_alloc (y : yfs) (b : Z) (alloc : bool) (prefer : Z) : yfs * Z :=
  if negb (b =? 0) then (y, b) else if alloc then alloc_block y prefer else (y, 0).

(** A pointer to a table; a new table is zeroed on the disk. *)
Definition get_table (y : yfs) (b : Z) (alloc : bool) (prefer : Z) : yfs * Z :=
  if negb (b =? 0) then (y, b)
  else if alloc then
    let '(y, t) := alloc_block y prefer in
    if t =? 0 then (y, 0) else (wr_blk y t zero_blk, t)
  else (y, 0).

(** Entry [i] of table [tbl], allocated when missing. [mk] is the allocation:
    [get_or_alloc] for a data block, [get_table] for a table. *)
Definition get_entry (mk : yfs -> Z -> bool -> Z -> yfs * Z) (y : yfs) (tbl i : Z) (alloc : bool)
  (prefer : Z) : yfs * Z :=
  let buf := rd_blk y tbl in
  let b0 := ptr buf i in
  let '(y, b) := mk y b0 alloc prefer in
  if (b0 =? 0) && negb (b =? 0) then (wr_blk y tbl (set_ptr buf i b), b) else (y, b).

Definition inode_get_block (y : yfs) (n : yfs_inode) (index : Z) (alloc : bool) (prefer : Z)
  : yfs * yfs_inode * Z :=
  if index <? YFS_DIRECT then
    let '(y, b) := get_or_alloc y ((direct n).[index]) alloc prefer in
    (y, if b =? 0 then n else with_direct n ((direct n).[index <- b]), b)
  else
    let index := index - YFS_DIRECT in
    if index <? YFS_INDIRECT_PER then
      let '(y, tbl) := get_table y (single_indirect n) alloc prefer in
      if tbl =? 0 then (y, n, 0)
      else
        let n := with_indirect n tbl (double_indirect n) (triple_indirect n) in
        let '(y, b) := get_entry get_or_alloc y tbl index alloc prefer in
        (y, n, b)
    else
      let index := index - YFS_INDIRECT_PER in
      if index <? YFS_INDIRECT_PER * YFS_INDIRECT_PER then
        let '(y, dtbl) := get_table y (double_indirect n) alloc prefer in
        if dtbl =? 0 then (y, n, 0)
        else
          let n := with_indirect n (single_indirect n) dtbl (triple_indirect n) in
          let '(y, tbl) := get_entry get_table y dtbl (index / YFS_INDIRECT_PER) alloc prefer in
          if tbl =? 0 then (y, n, 0)
          else
            let '(y, b) := get_entry get_or_alloc y tbl (index mod YFS_INDIRECT_PER) alloc prefer in
            (y, n, b)
      else (y, n, 0).

Definition free_if (y : yfs) (b : Z) : yfs := if b =? 0 then y else bset y b false.

Fixpoint free_indirect_tree (depth : nat) (y : yfs) (tbl : Z) {struct depth} : yfs :=
  if tbl =? 0 then y
  else
    let buf := rd_blk y tbl in
    let y := match depth with
             | O => y
             | S O => fold_left (fun y i => free_if y (ptr buf i)) (seqZ 0 YFS_INDIRECT_PER) y
             | S k => fold_left (fun y i => free_indirect_tree k y (ptr buf i)) (seqZ 0 YFS_INDIRECT_PER) y
             end in
    bset y tbl false.

Definition free_direct_from (y : yfs) (n : yfs_inode) (from : Z) : yfs * yfs_inode :=
  fold_left (fun '(y, n) i => (free_if y ((direct n).[i]), with_direct n ((direct n).[i <- 0])))
    (seqZ from (YFS_DIRECT - from)) (y, n).

Definition free_all_blocks (y : yfs) (n : yfs_inode) : yfs * yfs_inode :=
  let '(y, n) := free_direct_from y n 0 in
  let y := free_indirect_tree 1 y (single_indirect n) in
  let y := free_indirect_tree 2 y (double_indirect n) in
  let y := free_indirect_tree 3 y (triple_indirect n) in
  (y, with_size (with_indirect n 0 0 0) (i_size n) 0).

(** Entries [hi ..] of the single-indirect table, freed and zeroed. *)
Definition free_entries (y : yfs) (tbl hi : Z) : yfs :=
  let '(y, buf) := fold_left (fun '(y, buf) i =>
      (free_if y (ptr buf i), if ptr buf i =? 0 then buf else set_ptr buf i 0))
      (seqZ hi (YFS_INDIRECT_PER - hi)) (y, rd_blk y tbl) in
  wr_blk y tbl buf.

Definition truncate_blocks (y : yfs) (n : yfs_inode) (nblocks : Z) : yfs * yfs_inode :=
  let '(y, n) := free_direct_from y n nblocks in
  let '(y, n) :=
    if single_indirect n =? 0 then (y, n)
    else if nblocks <=? YFS_DIRECT then
      (free_indirect_tree 1 y (single_indirect n),
       with_indirect n 0 (double_indirect n) (triple_indirect n))
    else
      let hi := nblocks - YFS_DIRECT in
      if YFS_INDIRECT_PER <=? hi then
        (free_indirect_tree 1 y (single_indirect n),
         with_indirect n 0 (double_indirect n) (triple_indirect n))
      else (free_entries y (single_indirect n) hi, n) in
  let '(y, n) :=
    if negb (double_indirect n =? 0) && (nblocks <=? YFS_DIRECT + YFS_INDIRECT_PER)
    then (free_indirect_tree 2 y (double_indirect n),
          with_indirect n (single_indirect n) 0 (triple_indirect n))
    else (y, n) in
  let '(y, n) :=
    if triple_indirect n =? 0 then (y, n)
    else (free_indirect_tree 3 y (triple_indirect n),
          with_indirect n (single_indirect n) (double_indirect n) 0) in
  (y, with_size n (i_size n) nblocks).

Definition inode_free (y : yfs) (k : Z) : yfs :=
  let n := rd_inode y k in
  let y := fold_left (fun y i => free_if y ((direct n).[i])) (seqZ 0 YFS_DIRECT) y in
  let y := free_indirect_tree 1 y (single_indirect n) in
  let y := free_indirect_tree 2 y (double_indirect n) in
  let y := free_indirect_tree 3 y (triple_indirect n) in
  let y := iset y k false in
  wr_inode y k no_inode.

(** ** Directory entries *)
Definition dirent_rec_len (name_len : Z) : Z := u16 (Z.land (u32 (8 + name_len + 3)) (u32 (Z.lnot 3))).
Definition dirent_type (t : vnode_type) : Z :=
  match t with VN_DIR => YFS_TYPE_DIR | VN_SYMLINK => YFS_TYPE_LNK | VN_FILE => YFS_TYPE_FILE end.

Record dirent := Dirent { d_ino : Z; d_type : vnode_type; d_name : list Z }.

Definition dirent_bytes (d : dirent) : list Z :=
  le32 (d_ino d) ++ le16 (dirent_rec_len (len (d_name d))) ++ [u8 (len (d_name d)); dirent_type (d_type d)]
    ++ d_name d.

(** The entries are written over a fresh buffer, whose bytes remain in the
    padding. *)
Definition write_dirent (st : list Z * Z) (d : dirent) : list Z * Z :=
  let '(buf, off) := st in
  if d_ino d =? 0 then st
  else (blit buf off (dirent_bytes d), off + dirent_rec_len (len (d_name d))).
Definition dirents_total (ds : list dirent) : Z :=
  fold_left (fun s d => if d_ino d =? 0 then s else s + dirent_rec_len (len (d_name d))) ds 0.
Definition dir_build (fresh : Z -> list Z) (ds : list dirent) : list Z :=
  let total := dirents_total ds in
  let '(buf, off) := fold_left write_dirent ds (fresh (if total =? 0 then 1 else total), 0) in
  take (Z.to_nat off) buf.

(** The parsing loop of [mount_dir]: the entries it acts on. *)
Definition type_of (b : Z) : vnode_type :=
  if b =? YFS_TYPE_DIR then VN_DIR else if b =? YFS_TYPE_LNK then VN_SYMLINK else VN_FILE.
Fixpoint parse_dirents (fuel : nat) (buf : list Z) (size off : Z) : list dirent :=
  match fuel with
  | O => []
  | S k =>
    if off + 8 <=? size then
      let rec_len := rd16 buf (off + 4) in
      if (rec_len <? 8) || (size - off <? rec_len) then []
      else
        let nl := buf.[off + 6] in
        let nl := if VFS_MAX_NAME <=? nl then VFS_MAX_NAME - 1 else nl in
        let rest := parse_dirents k buf size (off + rec_len) in
        let n := rd32 buf off in
        if negb (n =? 0) && negb (nl =? 0)
        then Dirent n (type_of (buf.[off + 7])) (slice buf (off + 8) nl) :: rest
        else rest
    else []
  end.

(** ** Persisting *)
Fixpoint write_blocks (fuel : nat) (y : yfs) (n : yfs_inode) (data : list Z) (b nblocks prefer : Z)
  : yfs * yfs_inode * Z :=
  match fuel with
  | O => (y, n, 0)
  | S k =>
    if b <? nblocks then
      let '(y, n, db) := inode_get_block y n b true prefer in
      if db =? 0 then (y, n, -1)
      else
        let buf := blk_of (slice data (b * YFS_BLOCK_SIZE) YFS_BLOCK_SIZE) in
        let y := wr_blk y db buf in
        let y := crc_store_block y db (crc32b buf) in
        write_blocks k y n data (b + 1) nblocks prefer
    else (y, n, 0)
  end.

Definition persist_data (y : yfs) (k : Z) (n : yfs_inode) (data : list Z) : yfs * yfs_inode * Z :=
  let prefer := ino_group k in
  let nblocks := u32 (len data + YFS_BLOCK_SIZE - 1) / YFS_BLOCK_SIZE in
  let '(y, n) := if nblocks <? blocks_count n then truncate_blocks y n nblocks else (y, n) in
  let '(y, n, rc) := write_blocks (S (Z.to_nat nblocks)) y n data 0 nblocks prefer in
  if rc =? 0 then (y, with_size n (len data) nblocks, 0) else (y, n, rc).

(** The world: the vnode tree, with this file system as its block layer. *)
Definition world := vfs yfs.
Definition set_yfs (w : world) (y : yfs) : world :=
  Vfs (nodes w) (Vfs.root_node w) (next_addr w) y.

Definition blkfs_note_delete (y : yfs) (k : Z) : yfs :=
  if negb (g_active y) || (k =? 0) then y
  else if existsb (fun d => d =? k) (g_deleted y) then y
  else if len (g_deleted y) <? 64 then set_deleted y (g_deleted y ++ [k]) else y.

(** The children of a directory, in sibling order. *)
Fixpoint siblings (fuel : nat) (w : world) (c : Z) : list Z :=
  match fuel with
  | O => []
  | S k => match node w c with Some v => c :: siblings k w (sibling v) | None => [] end
  end.
Definition children (w : world) (a : Z) : list Z := siblings (walk_fuel w) w (fld w a child 0).

Definition dirent_of (w : world) (c : Z) : dirent :=
  Dirent (fld w c ino 0) (fld w c type VN_FILE) (fld w c name []).
Definition dir_build_entries (fresh : Z -> list Z) (w : world) (a : Z) : list Z :=
  dir_build fresh (map (dirent_of w) (children w a)).

Definition set_ino (k : Z) (v : vnode) : vnode :=
  Vnode (name v) (type v) k (size v) (cap v) (data v) (mtime v) (refs v) (uid v) (gid v) (mode v)
    (acl v) (dirty v) (dirty_b0 v) (dirty_b1 v) (parent v) (child v) (sibling v).

Definition fill_inode (v : vnode) (n : yfs_inode) : yfs_inode :=
  let n := Inode (Z.lor (Z.shiftl (dirent_type (type v)) 16) (Z.land (mode v) 65535)) (uid v) (gid v)
             (i_size n) (u32 (mtime v)) (if links_count n =? 0 then 1 else links_count n)
             (blocks_count n) (direct n) (single_indirect n) (double_indirect n) (triple_indirect n)
             (u32 (generation n + 1)) 0 (i_reserved n) in
  Inode (i_mode n) (i_uid n) (i_gid n) (i_size n) (i_mtime n) (links_count n) (blocks_count n)
    (direct n) (single_indirect n) (double_indirect n) (triple_indirect n) (generation n)
    (crc32b (encode_inode n)) (i_reserved n).

Definition file_bytes (v : vnode) : list Z :=
  match data v with Some l => take (Z.to_nat (size v)) l | None => [] end.

Definition persist_node (fresh : Z -> list Z) (w : world) (a : Z) : world :=
  match node w a with
  | None => w
  | Some v =>
    let was_new := ino v =? 0 in
    let '(y, k) := if was_new
                   then if a =? Vfs.root_node w then (disk_state w, YFS_ROOT_INO)
                        else alloc_ino (disk_state w)
                   else (disk_state w, ino v) in
    let w := upd (set_yfs w y) a (set_ino k) in
    if k =? 0 then w
    else
      let n := if was_new then no_inode else rd_inode y k in
      let bytes := if is_vt (type v) VN_DIR then dir_build_entries fresh w a else file_bytes v in
      let '(y, n, rc) := persist_data y k n bytes in
      if negb (rc =? 0) then set_yfs w y
      else
        let y := wr_inode y k (fill_inode v n) in
        let w := set_yfs w (set_synced y (u64 (g_synced_files y + 1))) in
        let w := upd w a (set_dirty false) in
        upd w (parent v) (set_dirty true)
  end.

(** Post-order, one fuel unit per level. *)
Fixpoint sync_tree (fuel : nat) (fresh : Z -> list Z) (w : world) (a : Z) : world :=
  match fuel with
  | O => w
  | S k =>
    let w := fold_left (fun w c => sync_tree k fresh w c) (children w a) w in
    if fld w a dirty false then persist_node fresh w a else w
  end.

Fixpoint clear_dirty (fuel : nat) (w : world) (a : Z) : world :=
  match fuel with
  | O => w
  | S k => let w := upd w a (set_dirty false) in
           fold_left (fun w c => clear_dirty k w c) (children w a) w
  end.

Definition flush_bitmaps (y : yfs) : yfs :=
  fold_left (fun y g =>
    let y := wr_blk y (block_bitmap (gd y g)) (nth (Z.to_nat g) (g_bbitmap y) []) in
    wr_blk y (inode_bitmap (gd y g)) (nth (Z.to_nat g) (g_ibitmap y) [])) (seqZ 0 (groups y)) y.

Definition wr_sb (y : yfs) : yfs := wr_blk y 0 (blk_of (encode_sb (sb y))).

(** The number of files written. *)
Definition blkfs_sync (fresh : Z -> list Z) (w : world) : world * Z :=
  let y := disk_state w in
  if negb (g_active y) then (w, 0)
  else
    let dels := len (g_deleted y) in
    let y := fold_left (fun y k => if k =? 0 then y else inode_free y k) (g_deleted y) y in
    let y := set_deleted y [] in
    let before := g_synced_files y in
    let w := sync_tree (walk_fuel w) fresh (set_yfs w y) (Vfs.root_node w) in
    let y := disk_state w in
    let n := u32 (g_synced_files y - before) in
    if (n =? 0) && (dels =? 0) then (w, 0)
    else
      let y := wr_sb (set_sb y (set_sb_state (sb y) 1)) in
      let y := wr_gdt (flush_bitmaps y) in
      let y := wr_sb (set_sb y (set_sb_state (sb y) 0)) in
      (set_yfs w y, n).

(** ** Formatting and mounting *)
Definition format (y : yfs) (total : Z) : yfs :=
  match compute_layout (sb y) total with
  | None => y
  | Some (s, ds) =>
    let y := set_sb (set_desc y ds) s in
    let zero bm := map (fun _ => zero_blk) (seqZ 0 (groups y)) ++ drop (Z.to_nat (groups y)) bm in
    let y := set_ibitmap (set_bbitmap y (zero (g_bbitmap y))) (zero (g_ibitmap y)) in
    let y := fold_left (fun y b => wr_blk y b zero_blk)
               (seqZ (crc_start s) (journal_start s + journal_blocks s - crc_start s)) y in
    let y := set_sb y (set_sb_magic (sb y)) in
    set_active (flush_bitmaps (wr_gdt (wr_sb y))) true
  end.

(** The bytes an inode maps, read block by block until [want] are there or a
    block is missing. *)
Fixpoint read_blocks (fuel : nat) (y : yfs) (n : yfs_inode) (b want : Z) : list Z :=
  match fuel with
  | O => []
  | S k =>
    if 0 <? want then
      let '(_, _, db) := inode_get_block y n b false 0 in
      if db =? 0 then []
      else
        let m := if YFS_BLOCK_SIZE <? want then YFS_BLOCK_SIZE else want in
        take (Z.to_nat m) (rd_blk y db) ++ read_blocks k y n (b + 1) (want - m)
    else []
  end.
Definition read_file (y : yfs) (n : yfs_inode) : list Z :=
  read_blocks (S (Z.to_nat (i_size n))) y n 0 (i_size n).

(** A buffer of [size] fresh bytes, with what was read in front. *)
Definition loaded (fresh : Z -> list Z) (y : yfs) (n : yfs_inode) (extra : Z) : list Z :=
  blit (fresh (i_size n + extra)) 0 (read_file y n).

Definition set_attrs (k : Z) (n : yfs_inode) (v : vnode) : vnode :=
  Vnode (name v) (type v) k (size v) (cap v) (data v) (i_mtime n) (refs v) (i_uid n) (i_gid n)
    (Z.land (i_mode n) 65535) (acl v) false (dirty_b0 v) (dirty_b1 v) (parent v) (child v) (sibling v).

(** One entry of a directory; [rec] mounts a subdirectory. *)
Definition mount_entry (e : venv) (fresh : Z -> list Z) (rec : world -> Z -> yfs_inode -> world)
  (dir : Z) (w : world) (d : dirent) : world :=
  let nm := c_string (d_name d) in
  let c := find_child w dir nm in
  let '(w, c) := if c =? 0 then vfs_create e w dir nm (d_type d) else (w, c) in
  if c =? 0 then w
  else
    let n := rd_inode (disk_state w) (d_ino d) in
    let w := upd w c (set_attrs (d_ino d) n) in
    if is_vt (d_type d) VN_DIR then rec w c n
    else if negb (i_size n =? 0) || is_vt (d_type d) VN_SYMLINK then
      let l := loaded fresh (disk_state w) n 1 in
      upd w c (fun v => with_content v (i_size n) (i_size n) (Some (l.[i_size n <- 0])))
    else w.

Fixpoint mount_dir (fuel : nat) (e : venv) (fresh : Z -> list Z) (w : world) (dir : Z) (din : yfs_inode)
  : world :=
  match fuel with
  | O => w
  | S k =>
    if i_size din =? 0 then w
    else
      let buf := loaded fresh (disk_state w) din 0 in
      fold_left (mount_entry e fresh (fun w c n => mount_dir k e fresh w c n) dir)
        (parse_dirents (S (Z.to_nat (i_size din))) buf (i_size din) 0) w
  end.

(** [present] and the geometry come from the disk driver, [depth] bounds the
    nesting of directories. *)
Definition blkfs_init (depth : nat) (e : venv) (fresh : Z -> list Z) (present : bool) (total : Z)
  (w : world) : world * Z :=
  let y := disk_state w in
  if negb present then (set_yfs w (set_active y false), -1)
  else
    let zero := map (fun _ => zero_blk) (seqZ 0 YFS_MAX_GROUPS) in
    let y := set_ibitmap (set_bbitmap y zero) zero in
    let y := set_sb y (decode_sb (rd_blk y 0)) in
    if negb (magic (sb y) =? YFS_MAGIC) || negb (version (sb y) =? YFS_VERSION) then
      let y := format y total in
      (set_yfs w y, if g_active y then 0 else -1)
    else
      let y := rd_gdt y in
      let y := fold_left (fun y g =>
        let y := set_bbitmap y (<[Z.to_nat g := rd_blk y (block_bitmap (gd y g))]> (g_bbitmap y)) in
        set_ibitmap y (<[Z.to_nat g := rd_blk y (inode_bitmap (gd y g))]> (g_ibitmap y)))
        (seqZ 0 (groups y)) y in
      let y := set_active y true in
      let y := set_sb y (set_sb_mounts (sb y) (u32 (mount_count (sb y) + 1))) in
      let y := wr_sb y in
      let w := set_yfs w y in
      let root := Vfs.root_node w in
      let n := rd_inode y YFS_ROOT_INO in
      let w := if root =? 0 then w else mount_dir depth e fresh (upd w root (set_ino YFS_ROOT_INO)) root n in
      (clear_dirty (walk_fuel w) w root, 0).

(** * CRC-32 detects a changed byte *)
Lemma crc_bit_value x : crc_bit x = Z.lxor (Z.shiftr x 1) (if Z.odd x then 3988292384 else 0).
Proof.
  unfold crc_bit. apply (f_equal (Z.lxor _)).
  assert (H : Z.land x 1 = if Z.odd x then 1 else 0).
  { change (Z.land x 1) with (Z.land x (Z.ones 1)). rewrite Z.land_ones by lia. apply Zmod_odd. }
  rewrite H. destruct (Z.odd x); reflexivity.
Qed.

Lemma crc_bit_range x : 0 <= x < 2 ^ 32 -> 0 <= crc_bit x < 2 ^ 32.
Proof.
  intros Hx. rewrite crc_bit_value. apply lxor_range; [lia| |destruct (Z.odd x); lia].
  rewrite Z.shiftr_div_pow2 by lia. split; [apply Z.div_pos; lia|apply Z.div_lt_upper_bound; lia].
Qed.

Lemma crc_bit_inj x y : 0 <= x < 2 ^ 32 -> 0 <= y < 2 ^ 32 -> crc_bit x = crc_bit y -> x = y.
Proof.
  intros Hx Hy. rewrite !crc_bit_value. intros He.
  assert (Hb : forall z, 0 <= z < 2 ^ 32 ->
    Z.testbit (Z.lxor (Z.shiftr z 1) (if Z.odd z then 3988292384 else 0)) 31 = Z.odd z).
  { intros z Hz. rewrite Z.lxor_spec, Z.shiftr_spec by lia. rewrite (testbit_small z 32) by lia.
    by destruct (Z.odd z). }
  pose proof (Hb x Hx) as Hbx. pose proof (Hb y Hy) as Hby. rewrite He, Hby in Hbx.
  rewrite <- Hbx in He.
  assert (Hs : Z.shiftr x 1 = Z.shiftr y 1).
  { rewrite <- (lxor_cancel (Z.shiftr x 1) (if Z.odd y then 3988292384 else 0)), He. apply lxor_cancel. }
  rewrite !Z.shiftr_div_pow2 in Hs by lia. change (2 ^ 1) with 2 in Hs.
  rewrite (Z.div_mod x 2), (Z.div_mod y 2), Hs, !Zmod_odd, Hbx by lia. done.
Qed.

Lemma crc_iter_range n : forall x, 0 <= x < 2 ^ 32 -> 0 <= Nat.iter n crc_bit x < 2 ^ 32.
Proof. induction n as [|n IH]; intros x Hx; [done|]. by apply crc_bit_range, IH. Qed.

Lemma crc_iter_inj n : forall x y, 0 <= x < 2 ^ 32 -> 0 <= y < 2 ^ 32 ->
  Nat.iter n crc_bit x = Nat.iter n crc_bit y -> x = y.
Proof.
  induction n as [|n IH]; intros x y Hx Hy He; [done|]. apply IH; [done..|].
  apply crc_bit_inj; [by apply crc_iter_range..|exact He].
Qed.


Lemma crc_byte_eq c b : crc_byte c b = Nat.iter 8 crc_bit (Z.lxor c b).
Proof. reflexivity. Qed.
Lemma crc32b_eq d : crc32b d = u32 (Z.lnot (fold_left crc_byte d 4294967295)).
Proof. reflexivity. Qed.

Lemma crc_byte_range c b : 0 <= c < 2 ^ 32 -> byte b -> 0 <= crc_byte c b < 2 ^ 32.
Proof. intros Hc Hb. rewrite crc_byte_eq. apply crc_iter_range, lxor_range; unfold byte in *; lia. Qed.

Lemma crc_lxor_range c x : 0 <= c < 2 ^ 32 -> byte x -> 0 <= Z.lxor c x < 2 ^ 32.
Proof. unfold byte. intros Hc Hx. apply lxor_range; lia. Qed.

Lemma lxor_inj_l c x y : Z.lxor c x = Z.lxor c y -> x = y.
Proof.
  intros He. rewrite <- (lxor_cancel x c), (Z.lxor_comm x), He, (Z.lxor_comm c y). apply lxor_cancel.
Qed.

Lemma crc_byte_lxor c x c' y : 0 <= c < 2 ^ 32 -> 0 <= c' < 2 ^ 32 -> byte x -> byte y ->
  crc_byte c x = crc_byte c' y -> Z.lxor c x = Z.lxor c' y.
Proof.
  intros Hc Hc' Hx Hy He. rewrite !crc_byte_eq in He.
  refine (crc_iter_inj 8 _ _ _ _ He); by apply crc_lxor_range.
Qed.

Lemma crc_byte_inj c x y : 0 <= c < 2 ^ 32 -> byte x -> byte y -> crc_byte c x = crc_byte c y -> x = y.
Proof. intros Hc Hx Hy He. apply crc_byte_lxor in He; try assumption. by apply lxor_inj_l in He. Qed.

Lemma crc_byte_inj_state c c' b :
  0 <= c < 2 ^ 32 -> 0 <= c' < 2 ^ 32 -> byte b -> crc_byte c b = crc_byte c' b -> c = c'.
Proof.
  intros Hc Hc' Hb He. apply crc_byte_lxor in He; try assumption.
  rewrite (Z.lxor_comm c), (Z.lxor_comm c') in He. by apply lxor_inj_l in He.
Qed.

Lemma crc_fold_range data : forall c, 0 <= c < 2 ^ 32 -> bytes data ->
  0 <= fold_left crc_byte data c < 2 ^ 32.
Proof.
  induction data as [|b data IH]; intros c Hc Hb; [done|]. apply Forall_cons_1 in Hb as [Hb Hbs].
  rewrite fold_left_cons. apply IH; [by apply crc_byte_range|done].
Qed.

Lemma crc_fold_inj data : forall c c', 0 <= c < 2 ^ 32 -> 0 <= c' < 2 ^ 32 -> bytes data ->
  fold_left crc_byte data c = fold_left crc_byte data c' -> c = c'.
Proof.
  induction data as [|b data IH]; intros c c' Hc Hc' Hb He; [done|].
  apply Forall_cons_1 in Hb as [Hb Hbs]. rewrite !fold_left_cons in He.
  apply IH in He; [|by apply crc_byte_range..|done].
  by apply crc_byte_inj_state in He.
Qed.

Lemma crc_not v : 0 <= v < 2 ^ 32 -> u32 (Z.lnot v) = 4294967295 - v.
Proof. intros Hv. unfold u32, Z.lnot. symmetry. apply (Z.mod_unique _ _ (-1)); lia. Qed.

Lemma crc_suffix_inj c s s' : bytes c -> 0 <= s < 2 ^ 32 -> 0 <= s' < 2 ^ 32 ->
  u32 (Z.lnot (fold_left crc_byte c s)) = u32 (Z.lnot (fold_left crc_byte c s')) -> s = s'.
Proof.
  intros Hc Hs Hs' He. apply (crc_fold_inj c s s' Hs Hs' Hc).
  rewrite !crc_not in He by (by apply crc_fold_range). lia.
Qed.

Lemma crc32b_app a c x :
  crc32b (a ++ x :: c) = u32 (Z.lnot (fold_left crc_byte c (crc_byte (fold_left crc_byte a 4294967295) x))).
Proof. rewrite crc32b_eq, fold_left_app, fold_left_cons. reflexivity. Qed.

(** The per-block checksum detects corruption of one byte: two blocks that
    differ in exactly one byte (however many of its bits) have different CRCs. *)
Theorem crc32b_detects a c x y :
  bytes a -> bytes c -> byte x -> byte y -> x <> y -> crc32b (a ++ x :: c) <> crc32b (a ++ y :: c).
Proof.
  intros Ha Hc Hx Hy Hne He. apply Hne. rewrite !crc32b_app in He.
  assert (Hs : 0 <= fold_left crc_byte a 4294967295 < 2 ^ 32) by (apply crc_fold_range; [lia|assumption]).
  apply crc_suffix_inj in He; try assumption; try (by apply crc_byte_range).
  by apply crc_byte_inj in He.
Qed.

(** The standard check value, and a flipped bit. *)
Example crc32_check : crc32b [49; 50; 51; 52; 53; 54; 55; 56; 57] = 3421780262.
Proof. vm_compute. reflexivity. Qed.

Lemma crc32b_detects_witness : crc32b ([49] ++ 50 :: [51]) <> crc32b ([49] ++ 58 :: [51]).
Proof.
  refine (crc32b_detects [49] [51] 50 58 _ _ _ _ _);
    [check_bytes|check_bytes|unfold byte; lia|unfold byte; lia|discriminate].
Defined.

(** * Directory entries *)
Definition dirent_ok (d : dirent) : Prop :=
  0 <= d_ino d < 4294967296 /\ 0 < len (d_name d) < 96 /\ bytes (d_name d).

Lemma rec_len_bounds n : 0 <= n < 96 -> 8 + n <= dirent_rec_len n <= n + 11.
Proof.
  intros Hn.
  assert (H : (8 + n <=? dirent_rec_len n) && (dirent_rec_len n <=? n + 11) || (96 <=? n) = true).
  { apply (all_bytes (fun n => (8 + n <=? dirent_rec_len n) && (dirent_rec_len n <=? n + 11) || (96 <=? n)));
      [vm_compute; reflexivity|unfold byte; lia]. }
  apply orb_true_iff in H as [H|H]; zbool; lia.
Qed.

(** [b] is a packed array of the entries, with any padding. *)
Inductive packed : list dirent -> list Z -> Prop :=
| packed_nil : packed [] []
| packed_cons d pad ds b :
    len (dirent_bytes d ++ pad) = dirent_rec_len (len (d_name d)) -> packed ds b ->
    packed (d :: ds) ((dirent_bytes d ++ pad) ++ b).

Lemma packed_app ds b ds' b' : packed ds b -> packed ds' b' -> packed (ds ++ ds') (b ++ b').
Proof.
  intros H H'. induction H as [|d pad ds b Hl _ IH]; [done|]. cbn [app]. rewrite <- app_assoc.
  by constructor.
Qed.

Lemma len_dirent_bytes d : len (dirent_bytes d) = 8 + len (d_name d).
Proof. unfold dirent_bytes. rewrite !len_app. unfold len. simpl. lia. Qed.

Lemma take_blit_front l off d : 0 <= off -> off + len d <= len l ->
  take (Z.to_nat (off + len d)) (blit l off d) = take (Z.to_nat off) l ++ d.
Proof.
  intros Ho Hl. unfold blit, len in *. rewrite app_assoc. apply take_app_length'.
  rewrite length_app, length_take. lia.
Qed.

Definition listed (ds : list dirent) : list dirent := filter (fun d => d_ino d <> 0) ds.

Lemma dirents_total_acc ds : forall s,
  fold_left (fun s d => if d_ino d =? 0 then s else s + dirent_rec_len (len (d_name d))) ds s
  = s + dirents_total ds.
Proof.
  unfold dirents_total. induction ds as [|d ds IH]; intros s; cbn [fold_left]; [lia|].
  rewrite IH, (IH (if d_ino d =? 0 then 0 else _)). case_ifZ; lia.
Qed.

Lemma dirents_total_nonneg ds : Forall dirent_ok ds -> 0 <= dirents_total ds.
Proof.
  induction 1 as [|d ds (_ & Hn & _) _ IH]; [done|]. unfold dirents_total. cbn [fold_left].
  rewrite dirents_total_acc. pose proof (rec_len_bounds (len (d_name d)) ltac:(lia)). case_ifZ; lia.
Qed.

Lemma write_dirents_spec ds : forall buf off, Forall dirent_ok ds ->
  0 <= off -> off + dirents_total ds <= len buf ->
  exists buf' b, fold_left write_dirent ds (buf, off) = (buf', off + dirents_total ds) /\
    len buf' = len buf /\ packed (listed ds) b /\
    take (Z.to_nat (off + dirents_total ds)) buf' = take (Z.to_nat off) buf ++ b.
Proof.
  induction ds as [|d ds IH]; intros buf off Hds Ho Hl.
  - exists buf, []. change (dirents_total []) with 0. rewrite Z.add_0_r, app_nil_r.
    splits; try done. constructor.
  - apply Forall_cons_1 in Hds as [Hd Hds]. pose proof (dirents_total_nonneg ds Hds) as Ht.
    assert (Etot : dirents_total (d :: ds)
      = (if d_ino d =? 0 then 0 else dirent_rec_len (len (d_name d))) + dirents_total ds).
    { unfold dirents_total at 1. cbn [fold_left]. rewrite dirents_total_acc. by case_ifZ. }
    rewrite Etot in *. cbn [fold_left write_dirent]. unfold listed. cbn [filter list_filter].
    destruct (d_ino d =? 0) eqn:E0; zbool.
    + rewrite decide_False by (by intros H; apply H). rewrite Z.add_0_l in *. by apply IH.
    + rewrite decide_True by done. destruct Hd as (Hi & Hn & Hb).
      pose proof (rec_len_bounds (len (d_name d)) ltac:(lia)) as Hr.
      set (r := dirent_rec_len (len (d_name d))) in *. pose proof (len_dirent_bytes d) as Hlb.
      set (buf1 := blit buf off (dirent_bytes d)).
      assert (Hl1 : len buf1 = len buf) by (unfold len at 1, buf1; rewrite length_blit; [done|lia|lia]).
      destruct (IH buf1 (off + r) Hds) as (buf' & b & -> & Hl' & Hp & Htk); [lia|lia|].
      exists buf', ((dirent_bytes d ++ slice buf1 (off + len (dirent_bytes d)) (r - len (dirent_bytes d))) ++ b).
      splits; [f_equal; lia|lia| |].
      * constructor; [|exact Hp]. fold r. rewrite len_app. unfold len at 2. rewrite length_slice by lia. lia.
      * replace (off + (r + dirents_total ds)) with (off + r + dirents_total ds) by lia.
        rewrite Htk, app_assoc. f_equal. rewrite app_assoc, <- (take_blit_front buf off) by lia.
        fold buf1. unfold slice. rewrite take_take_drop. f_equal. lia.
Qed.

Lemma nthZ_app_at (a b : list Z) i : 0 <= i -> (a ++ b).[len a + i] = b.[i].
Proof.
  intros Hi. unfold nthZ, len. rewrite app_nth2 by lia. f_equal. lia.
Qed.

Lemma rd32_app (a b : list Z) v : 0 <= v < 4294967296 -> rd32 (a ++ le32 v ++ b) (len a) = v.
Proof.
  intros Hv. unfold rd32. rewrite <- (Z.add_0_r (len a)) at 4. rewrite !nthZ_app_at by lia.
  by apply be32_join.
Qed.

Lemma rd16_app (a b : list Z) v : 0 <= v < 65536 -> rd16 (a ++ le16 v ++ b) (len a) = v.
Proof.
  intros Hv. unfold rd16. rewrite <- (Z.add_0_r (len a)) at 2. rewrite !nthZ_app_at by lia.
  by apply be16_join.
Qed.

Lemma type_of_dirent_type t : type_of (dirent_type t) = t.
Proof. by destruct t. Qed.

(** One entry in the middle of a buffer is read back. *)
Lemma parse_dirent d pre rest pad k size :
  dirent_ok d -> d_ino d <> 0 -> len (dirent_bytes d ++ pad) = dirent_rec_len (len (d_name d)) ->
  len pre + dirent_rec_len (len (d_name d)) <= size ->
  parse_dirents (S k) (pre ++ (dirent_bytes d ++ pad) ++ rest) size (len pre)
  = d :: parse_dirents k (pre ++ (dirent_bytes d ++ pad) ++ rest) size
           (len pre + dirent_rec_len (len (d_name d))).
Proof.
  intros (Hi & Hn & Hb) Hi0 Hl Hs.
  pose proof (rec_len_bounds (len (d_name d)) ltac:(lia)) as Hr.
  set (r := dirent_rec_len (len (d_name d))) in *.
  set (tail := pad ++ rest).
  assert (Eb : pre ++ (dirent_bytes d ++ pad) ++ rest
    = pre ++ le32 (d_ino d) ++ le16 r ++ [u8 (len (d_name d)); dirent_type (d_type d)] ++ d_name d ++ tail).
  { unfold dirent_bytes, tail. fold r. by rewrite <- !app_assoc. }
  assert (E4 : rd16 (pre ++ (dirent_bytes d ++ pad) ++ rest) (len pre + 4) = r).
  { rewrite Eb, app_assoc. replace (len pre + 4) with (len (pre ++ le32 (d_ino d))).
    - apply rd16_app. lia.
    - rewrite len_app. reflexivity. }
  assert (Eo : forall i, 0 <= i -> (pre ++ (dirent_bytes d ++ pad) ++ rest).[len pre + (6 + i)]
    = ([u8 (len (d_name d)); dirent_type (d_type d)] ++ d_name d ++ tail).[i]).
  { intros i Hi'. rewrite Eb, app_assoc, app_assoc.
    replace (len pre + (6 + i)) with (len ((pre ++ le32 (d_ino d)) ++ le16 r) + i).
    - by rewrite nthZ_app_at.
    - rewrite !len_app. change (len (le32 _)) with 4. change (len (le16 _)) with 2. lia. }
  assert (E6 : (pre ++ (dirent_bytes d ++ pad) ++ rest).[len pre + 6] = len (d_name d)).
  { transitivity (u8 (len (d_name d))); [exact (Eo 0 ltac:(lia))|apply u8_small; lia]. }
  assert (E7 : (pre ++ (dirent_bytes d ++ pad) ++ rest).[len pre + 7] = dirent_type (d_type d)).
  { exact (Eo 1 ltac:(lia)). }
  assert (E8 : slice (pre ++ (dirent_bytes d ++ pad) ++ rest) (len pre + 8) (len (d_name d)) = d_name d).
  { rewrite Eb, !app_assoc. rewrite <- (app_assoc _ (d_name d)).
    rewrite slice_app_r by (rewrite !len_app; change (len (le32 _)) with 4; change (len (le16 _)) with 2;
      change (len [_; _]) with 2; lia).
    replace (len pre + 8 - _) with 0
      by (rewrite !len_app; change (len (le32 _)) with 4; change (len (le16 _)) with 2;
          change (len [_; _]) with 2; lia).
    rewrite slice_app_l by lia. unfold slice, len. by rewrite Nat2Z.id, drop_0, take_ge by lia. }
  assert (E1 : rd32 (pre ++ (dirent_bytes d ++ pad) ++ rest) (len pre) = d_ino d).
  { rewrite Eb. by apply rd32_app. }
  cbn [parse_dirents]. rewrite E4, E6, E7, E1, type_of_dirent_type.
  rewrite (proj2 (Z.leb_le _ _)) by lia.
  rewrite (proj2 (Z.ltb_ge _ _)), (proj2 (Z.ltb_ge _ _)) by lia. cbn [orb].
  rewrite (proj2 (Z.leb_gt VFS_MAX_NAME _)) by (change VFS_MAX_NAME with 96; lia).
  rewrite E8, (proj2 (Z.eqb_neq _ _) Hi0), (proj2 (Z.eqb_neq _ _)) by lia.
  destruct d; reflexivity.
Qed.

Lemma parse_packed ds b : packed ds b -> Forall (fun d => dirent_ok d /\ d_ino d <> 0) ds ->
  forall pre fuel, (length b < fuel)%nat ->
  parse_dirents fuel (pre ++ b) (len pre + len b) (len pre) = ds.
Proof.
  induction 1 as [|d pad ds b Hl Hp IH]; intros Hds pre fuel Hf; (destruct fuel as [|k]; [lia|]).
  - cbn [parse_dirents]. rewrite (proj2 (Z.leb_gt _ _)); [done|]. change (len []) with 0. lia.
  - apply Forall_cons_1 in Hds as [[Hd Hi] Hds]. destruct Hd as (Hd1 & Hn & Hd3).
    pose proof (rec_len_bounds (len (d_name d)) ltac:(lia)) as Hr. pose proof (len_nonneg b).
    rewrite parse_dirent; [|done..|rewrite !len_app in *; lia].
    f_equal. rewrite app_assoc. rewrite <- Hl.
    replace (len pre + len ((dirent_bytes d ++ pad) ++ b)) with (len (pre ++ dirent_bytes d ++ pad) + len b)
      by (rewrite !len_app; lia).
    replace (len pre + len (dirent_bytes d ++ pad)) with (len (pre ++ dirent_bytes d ++ pad))
      by (rewrite !len_app; lia).
    apply IH; [done|]. unfold len in *. rewrite !length_app in *. lia.
Qed.

Lemma listed_ok ds : Forall dirent_ok ds -> Forall (fun d => dirent_ok d /\ d_ino d <> 0) (listed ds).
Proof.
  induction 1 as [|d ds Hd _ IH]; [constructor|]. unfold listed. cbn [filter list_filter].
  case_decide; [|exact IH]. constructor; [done|exact IH].
Qed.

(** A directory survives a sync and a mount: parsing the data that
    [dir_build_entries] writes gives back the inode number, type and name of
    every child that has an inode, in order, whatever bytes the fresh buffer
    (and so the padding) holds. *)
Theorem dirents_roundtrip fresh ds :
  Forall dirent_ok ds -> (forall n, 0 <= n -> len (fresh n) = n) ->
  let b := dir_build fresh ds in
  len b = dirents_total ds /\ parse_dirents (S (Z.to_nat (len b))) b (len b) 0 = listed ds.
Proof.
  intros Hds Hf b. subst b. unfold dir_build. pose proof (dirents_total_nonneg ds Hds) as Ht.
  set (buf0 := fresh (if dirents_total ds =? 0 then 1 else dirents_total ds)).
  assert (Hl0 : dirents_total ds <= len buf0) by (unfold buf0; rewrite Hf by (case_ifZ; lia); case_ifZ; lia).
  destruct (write_dirents_spec ds buf0 0 Hds) as (buf' & b & -> & Hl & Hp & Htk); [lia..|].
  rewrite Z.add_0_l in *. change (take (Z.to_nat 0) buf0 ++ b) with b in Htk. rewrite Htk.
  assert (Hb : len b = dirents_total ds).
  { rewrite <- Htk. unfold len in *. rewrite length_take. lia. }
  split; [done|].
  apply (parse_packed (listed ds) b Hp (listed_ok ds Hds) [] (S (Z.to_nat (len b)))).
  unfold len. rewrite Nat2Z.id. lia.
Qed.

Lemma dirents_roundtrip_witness :
  let ds := [Dirent 5 VN_FILE [97; 46; 99]; Dirent 0 VN_FILE [98]; Dirent 9 VN_DIR [98; 105; 110]] in
  let b := dir_build (fun n => replicate (Z.to_nat n) 170) ds in
  len b = dirents_total ds /\ parse_dirents (S (Z.to_nat (len b))) b (len b) 0 = listed ds.
Proof.
  refine (dirents_roundtrip (fun n => replicate (Z.to_nat n) 170) _ _ _).
  - repeat first [apply Forall_nil_2 | apply Forall_cons_2];
      (split; [cbn; lia | split; [unfold len; cbn; lia | check_bytes]]).
  - intros n Hn. unfold len. rewrite length_replicate. lia.
Defined.

(** * Bitmaps and block allocation *)
Definition put_bit (w i : Z) (v : bool) : Z :=
  if v then Z.lor w (Z.shiftl 1 i) else Z.land w (u8 (Z.lnot (Z.shiftl 1 i))).
Definition get_bit (w i : Z) : bool := negb (Z.land (Z.shiftr w i) 1 =? 0).

Definition bit_check (w k : Z) : bool :=
  let i := k / 8 mod 8 in let j := k mod 8 in let v := 64 <=? k mod 128 in
  bool_decide (byte (put_bit w i v)) &&
  eqb (get_bit (put_bit w i v) j) (if i =? j then v else get_bit w j).

Lemma bit_check_all w k : byte w -> byte k -> bit_check w k = true.
Proof. apply (all_bytes2 bit_check). vm_compute. reflexivity. Qed.

Lemma put_bit_spec w i j v : byte w -> 0 <= i < 8 -> 0 <= j < 8 ->
  byte (put_bit w i v) /\ get_bit (put_bit w i v) j = if i =? j then v else get_bit w j.
Proof.
  intros Hw Hi Hj.
  pose proof (bit_check_all w (8 * (8 * (if v then 1 else 0) + i) + j) Hw
    ltac:(unfold byte; destruct v; lia)) as Hf.
  unfold bit_check in Hf.
  set (c := if v then 1 else 0) in *.
  assert (Hc : 0 <= c < 2) by (unfold c; destruct v; lia).
  assert (Ei : (8 * (8 * c + i) + j) / 8 mod 8 = i).
  { rewrite (Z.mul_comm 8), Z.div_add_l, (Z.div_small j), Z.add_0_r, Z.mul_comm by lia.
    rewrite Z.add_comm, Z.mod_add by lia. by apply Z.mod_small. }
  assert (Ej : (8 * (8 * c + i) + j) mod 8 = j).
  { rewrite Z.add_comm, Z.mul_comm, Z.mod_add by lia. by apply Z.mod_small. }
  assert (Ev : (64 <=? (8 * (8 * c + i) + j) mod 128) = v).
  { rewrite Z.mod_small by lia. unfold c. destruct v; [apply Z.leb_le|apply Z.leb_gt]; lia. }
  rewrite Ei, Ej, Ev in Hf.
  apply andb_true_iff in Hf as [Ha Hb]. split; [by apply bool_decide_eq_true_1 in Ha|].
  by apply eqb_prop in Hb.
Qed.

(** A bitmap of [groups] blocks of 4096 bytes. *)
Definition bitmap_ok (bm : list (list Z)) : Prop := Forall (fun m => length m = 4096%nat /\ bytes m) bm.

Lemma bitmap_nth bm g : bitmap_ok bm -> 0 <= g < Z.of_nat (length bm) ->
  length (nth (Z.to_nat g) bm []) = 4096%nat /\ bytes (nth (Z.to_nat g) bm []).
Proof.
  intros Hb Hg. apply (proj1 (Forall_nth _ [] bm) Hb). lia.
Qed.

Lemma bit_put_ok bm g i v : bitmap_ok bm -> 0 <= g < Z.of_nat (length bm) -> 0 <= i < 32768 ->
  bitmap_ok (bit_put bm g i v) /\ length (bit_put bm g i v) = length bm.
Proof.
  intros Hb Hg Hi. destruct (bitmap_nth bm g Hb Hg) as [Hl Hm]. unfold bit_put.
  split; [|apply length_insert]. apply Forall_insert; [done|].
  split; [rewrite length_updZ; exact Hl|]. apply bytes_updZ; [done|].
  apply (put_bit_spec _ (i mod 8) 0 v); [by apply nthZ_byte|apply Z.mod_pos_bound; lia|lia].
Qed.

Lemma bit_get_put bm g i v g' j : bitmap_ok bm -> 0 <= g < Z.of_nat (length bm) -> 0 <= g' ->
  0 <= i < 32768 -> 0 <= j < 32768 ->
  bit_get (bit_put bm g i v) g' j = if (g =? g') && (i =? j) then v else bit_get bm g' j.
Proof.
  intros Hb Hg Hg' Hi Hj. destruct (bitmap_nth bm g Hb Hg) as [Hl Hm].
  unfold bit_get. fold (get_bit ((nth (Z.to_nat g') (bit_put bm g i v) []).[j / 8]) (j mod 8)).
  fold (get_bit ((nth (Z.to_nat g') bm []).[j / 8]) (j mod 8)). unfold bit_put.
  destruct (Z.eqb_spec g g') as [<-|Hne]; cbn [andb].
  - rewrite nth_lookup, list_lookup_insert_eq by lia. unfold default, id, from_option.
    fold (put_bit ((nth (Z.to_nat g) bm []).[i / 8]) (i mod 8) v).
    pose proof (put_bit_spec ((nth (Z.to_nat g) bm []).[i / 8]) (i mod 8) (j mod 8) v
                  (nthZ_byte _ _ Hm) ltac:(apply Z.mod_pos_bound; lia) ltac:(apply Z.mod_pos_bound; lia)) as [_ Hp].
    pose proof (Z.div_mod i 8 ltac:(lia)). pose proof (Z.div_mod j 8 ltac:(lia)).
    pose proof (Z.mod_pos_bound i 8 ltac:(lia)). pose proof (Z.mod_pos_bound j 8 ltac:(lia)).
    destruct (Z.eq_dec (i / 8) (j / 8)) as [He|He].
    + rewrite <- He. rewrite nthZ_updZ_eq by (unfold len; lia). rewrite Hp.
      destruct (Z.eqb_spec (i mod 8) (j mod 8)); destruct (Z.eqb_spec i j); try done; lia.
    + rewrite nthZ_updZ_ne by lia. rewrite (proj2 (Z.eqb_neq i j)); [done|]. intros ->. done.
  - by rewrite !nth_lookup, list_lookup_insert_ne by lia.
Qed.

(** What a mounted file system's geometry satisfies: the data ranges of the
    groups are disjoint, nonempty or not, and fit their bitmaps. *)
Record geom_ok (y : yfs) : Prop := {
  geo_groups : 0 < groups y <= YFS_MAX_GROUPS;
  geo_range g : 0 <= g < groups y ->
    0 < data_start (gd y g) <= data_end (gd y g) /\ data_end (gd y g) < 4294967296 /\
    data_end (gd y g) - data_start (gd y g) <= 32768;
  geo_disjoint g g' blk : 0 <= g < groups y -> 0 <= g' < groups y ->
    in_data (gd y g) blk = true -> in_data (gd y g') blk = true -> g = g';
  geo_bitmap : bitmap_ok (g_bbitmap y) /\ groups y <= Z.of_nat (length (g_bbitmap y)) }.

Lemma find_group_spec n y g blk : forall k, 0 <= k -> k <= g < k + Z.of_nat n ->
  (forall g', k <= g' < k + Z.of_nat n -> in_data (gd y g') blk = true -> g' = g) ->
  in_data (gd y g) blk = true -> find_group n y k blk = g.
Proof.
  induction n as [|n IH]; intros k Hk Hg Hu Hin; [lia|]. cbn [find_group].
  destruct (in_data (gd y k) blk) eqn:Ek; [apply Hu; [lia|done]|].
  assert (k <> g) by (intros ->; congruence).
  apply IH; [lia|lia| |done]. intros g' Hg'. apply Hu. lia.
Qed.

Lemma find_group_neg n y blk : forall k, 0 <= k ->
  (forall g, k <= g < k + Z.of_nat n -> in_data (gd y g) blk = false) -> find_group n y k blk = -1.
Proof.
  induction n as [|n IH]; intros k Hk Hf; [done|]. cbn [find_group]. rewrite Hf by lia.
  apply IH; [lia|]. intros g Hg. apply Hf. lia.
Qed.

Lemma group_of_data_block_eq y g blk : geom_ok y -> 0 <= g < groups y ->
  in_data (gd y g) blk = true -> group_of_data_block y blk = g.
Proof.
  intros Hy Hg Hin. apply find_group_spec; [lia|lia| |done].
  intros g' Hg' Hin'. apply (geo_disjoint y Hy g' g blk); [lia|done..].
Qed.

Lemma in_data_index y g blk : geom_ok y -> 0 <= g < groups y -> in_data (gd y g) blk = true ->
  0 <= blk - data_start (gd y g) < 32768.
Proof.
  intros Hy Hg Hin. pose proof (geo_range y Hy g Hg). unfold in_data in Hin. zbool. lia.
Qed.

(** A block the bitmaps cover. *)
Definition data_block (y : yfs) (blk : Z) : Prop :=
  exists g, 0 <= g < groups y /\ in_data (gd y g) blk = true.

Lemma bset_geom y blk v : geom_ok y -> geom_ok (bset y blk v).
Proof.
  intros Hy. unfold bset. destruct (group_of_data_block y blk <? 0) eqn:Eg; [done|]. zbool.
  set (g := group_of_data_block y blk) in *.
  assert (Hin : 0 <= g < groups y /\ in_data (gd y g) blk = true).
  { unfold g, group_of_data_block in *. clear g. revert Eg.
    assert (H : forall n k, 0 <= k -> 0 <= find_group n y k blk ->
      k <= find_group n y k blk < k + Z.of_nat n /\ in_data (gd y (find_group n y k blk)) blk = true).
    { induction n as [|n IH]; intros k Hk; cbn [find_group]; [lia|].
      destruct (in_data (gd y k) blk) eqn:Ek; [intros; split; [lia|done]|].
      intros H. apply IH in H; [|lia]. destruct H. split; [lia|done]. }
    pose proof (geo_groups y Hy). intros Eg. apply H in Eg; [|lia]. destruct Eg. split; [lia|done]. }
  destruct Hin as [Hg Hin]. pose proof (geo_bitmap y Hy) as [Hb Hl].
  destruct (bit_put_ok (g_bbitmap y) g (blk - data_start (gd y g)) v Hb ltac:(lia)
              (in_data_index y g blk Hy Hg Hin)) as [Hb' Hl'].
  split; [apply Hy|apply Hy|apply Hy|]. split; [exact Hb'|]. cbn [g_bbitmap set_bbitmap].
  rewrite Hl'. exact Hl.
Qed.

Lemma bbit_bset y b v blk : geom_ok y -> data_block y b -> data_block y blk ->
  bbit (bset y b v) blk = if b =? blk then v else bbit y blk.
Proof.
  intros Hy (g & Hg & Hin) (g' & Hg' & Hin').
  pose proof (bset_geom y b v Hy) as Hy'. unfold bset, bbit in *.
  rewrite !(group_of_data_block_eq y g b Hy Hg Hin) in *.
  rewrite !(group_of_data_block_eq y g' blk Hy Hg' Hin').
  rewrite (proj2 (Z.ltb_ge g 0)) in * by lia.
  rewrite (group_of_data_block_eq _ g' blk Hy' Hg' Hin').
  rewrite (proj2 (Z.ltb_ge g' 0)) by lia. cbn [g_bbitmap set_bbitmap].
  change (gd (set_bbitmap y _) g') with (gd y g').
  pose proof (geo_bitmap y Hy) as [Hb Hl].
  rewrite bit_get_put; [|done|lia|lia|by apply in_data_index..].
  destruct (Z.eqb_spec b blk) as [<-|Hne].
  - pose proof (geo_disjoint y Hy g g' b Hg Hg' Hin Hin') as <-. by rewrite !Z.eqb_refl.
  - destruct (Z.eqb_spec g g') as [<-|]; [|done]. cbn [andb].
    rewrite (proj2 (Z.eqb_neq _ _)) by lia. done.
Qed.

Lemma scan_block_spec y n : forall blk, 0 <= blk -> blk + Z.of_nat n < 4294967296 ->
  match scan_block n y blk with
  | Some b => blk <= b < blk + Z.of_nat n /\ bbit y b = false
  | None => forall b, blk <= b < blk + Z.of_nat n -> bbit y b = true
  end.
Proof.
  induction n as [|n IH]; intros blk Hb Hn; cbn [scan_block]; [intros; lia|].
  destruct (bbit y blk) eqn:Eb; cbn [negb]; [|split; [lia|done]].
  rewrite u32_small by lia. specialize (IH (blk + 1) ltac:(lia) ltac:(lia)).
  destruct (scan_block n y (blk + 1)) as [b|]; [split; [lia|apply IH]|].
  intros b Hb'. destruct (Z.eq_dec b blk) as [->|]; [done|]. apply IH. lia.
Qed.

Lemma scan_group_spec y g : geom_ok y -> 0 <= g < groups y ->
  match scan_group y g with
  | Some b => in_data (gd y g) b = true /\ bbit y b = false
  | None => forall b, in_data (gd y g) b = true -> bbit y b = true
  end.
Proof.
  intros Hy Hg. pose proof (geo_range y Hy g Hg) as (Hs & He & _). unfold scan_group, data_blocks.
  rewrite u32_small by lia.
  pose proof (scan_block_spec y (Z.to_nat (data_end (gd y g) - data_start (gd y g)))
                (data_start (gd y g)) ltac:(lia) ltac:(lia)) as H.
  destruct (scan_block _ y _) as [b|].
  - destruct H as [H Hb]. split; [|done]. unfold in_data. apply andb_true_iff.
    rewrite Z.leb_le, Z.ltb_lt. lia.
  - intros b Hin. apply H. unfold in_data in Hin. zbool. lia.
Qed.

Lemma scan_groups_spec y gs : geom_ok y -> Forall (fun g => 0 <= g < groups y) gs ->
  match scan_groups gs y with
  | Some b => data_block y b /\ bbit y b = false
  | None => forall g b, g ∈ gs -> in_data (gd y g) b = true -> bbit y b = true
  end.
Proof.
  intros Hy. induction 1 as [|g gs Hg _ IH]; cbn [scan_groups].
  - intros g b Hg. by apply not_elem_of_nil in Hg.
  - pose proof (scan_group_spec y g Hy Hg) as H. destruct (scan_group y g) as [b|].
    + destruct H. split; [by exists g|done].
    + destruct (scan_groups gs y) as [b|]; [done|].
      intros g' b [->|Hg']%elem_of_cons; [apply H|by apply IH].
Qed.

Lemma group_order_ok y prefer : geom_ok y ->
  Forall (fun g => 0 <= g < groups y) (group_order y prefer) /\
  forall g, 0 <= g < groups y -> g ∈ group_order y prefer.
Proof.
  intros Hy. pose proof (geo_groups y Hy). unfold group_order. split.
  - apply Forall_app. split; apply Forall_forall; intros g Hg; apply list_elem_of_In in Hg.
    + apply in_map_iff in Hg as (k & <- & _). apply Z.mod_pos_bound. lia.
    + by apply list_elem_of_In, elem_of_seqZ in Hg.
  - intros g Hg. apply elem_of_app. right. apply elem_of_seqZ. lia.
Qed.

(** [C37] Block allocation: on a file system whose groups are laid out properly,
    [alloc_block] returns a block of some group's data range that was free and
    marks exactly that block used, or returns 0, changing nothing, and then
    every data block is in use: an allocation fails only on a full disk,
    whatever group is preferred. The layout is preserved. *)
Theorem alloc_block_spec y prefer y' b :
  geom_ok y -> alloc_block y prefer = (y', b) ->
  geom_ok y' /\ disk y' = disk y /\ sb y' = sb y /\ g_desc y' = g_desc y /\
  ((b = 0 /\ y' = y /\ forall blk, data_block y blk -> bbit y blk = true) \/
   (0 < b /\ data_block y b /\ bbit y b = false /\
    forall blk, data_block y blk -> bbit y' blk = if b =? blk then true else bbit y blk)).
Proof.
  intros Hy. unfold alloc_block. destruct (group_order_ok y prefer Hy) as [Ho Hall].
  pose proof (scan_groups_spec y _ Hy Ho) as H.
  destruct (scan_groups (group_order y prefer) y) as [c|]; intros [= <- <-].
  - destruct H as [Hd Hb]. split; [by apply bset_geom|].
    assert (Hsame : disk (bset y c true) = disk y /\ sb (bset y c true) = sb y /\
      g_desc (bset y c true) = g_desc y) by (unfold bset; case_ifZ; done).
    destruct Hsame as (-> & -> & ->). splits; try done. right. splits; try done.
    + destruct Hd as (g & Hg & Hin). pose proof (geo_range y Hy g Hg). unfold in_data in Hin. zbool. lia.
    + intros blk Hblk. by apply bbit_bset.
  - splits; try done. left. splits; try done. intros blk (g & Hg & Hin). by apply (H g), Hin; apply Hall.
Qed.

Lemma alloc_block_spec_witness :
  let y := Yfs (Sb 0 0 [] 1024 1 960 64 959 0 0 0 []) [Gdesc 2 3 4 36 959 923 1024 0]
             [replicate 4096 0] [replicate 4096 0] [] true 0 (fun _ => zero_blk) in
  exists y' b, alloc_block y 0 = (y', b) /\ b = 36 /\
    geom_ok y' /\ disk y' = disk y /\ sb y' = sb y /\ g_desc y' = g_desc y /\
    ((b = 0 /\ y' = y /\ forall blk, data_block y blk -> bbit y blk = true) \/
     (0 < b /\ data_block y b /\ bbit y b = false /\
      forall blk, data_block y blk -> bbit y' blk = if b =? blk then true else bbit y blk)).
Proof.
  intros y. exists (bset y 36 true), 36.
  assert (E : alloc_block y 0 = (bset y 36 true, 36)) by (vm_compute; reflexivity).
  split; [exact E|]. split; [reflexivity|]. refine (alloc_block_spec y 0 _ _ _ E).
  assert (Hg : groups y = 1) by reflexivity.
  split; rewrite ?Hg.
  - change YFS_MAX_GROUPS with 64. lia.
  - intros g Hr. assert (g = 0) as -> by lia.
    change (gd y 0) with (Gdesc 2 3 4 36 959 923 1024 0). cbn [data_start data_end]. lia.
  - intros. lia.
  - split; [|cbn; lia]. apply Forall_cons_2; [|apply Forall_nil_2].
    split; [reflexivity|check_bytes].
Defined.

(** * The layout of a formatted disk *)
Definition group_span (g : Z) : Z := 2 + 4096 * g.
Definition raw_desc (jstart g : Z) : yfs_gdesc :=
  let e := Z.min jstart (group_span g + 4096) in
  Gdesc (group_span g) (group_span g + 1) (group_span g + 2) (group_span g + 34) e
    (e - (group_span g + 34)) 1024 0.

Lemma layout_group_spec jstart g d : 0 <= g < 64 -> 0 <= jstart < 262144 ->
  layout_group jstart g = Some d -> d = raw_desc jstart g /\ group_span g + 34 < jstart.
Proof.
  intros Hg Hj. unfold layout_group, raw_desc, group_span.
  change YFS_BLOCKS_PER_GROUP with 4096. change YFS_META_PER_GROUP with 34.
  change YFS_INODES_PER_GROUP with 1024.
  rewrite (u32_small (g * 4096)), (u32_small (2 + g * 4096)), (u32_small (2 + g * 4096 + 4096)),
    (u32_small (2 + g * 4096 + 1)), (u32_small (2 + g * 4096 + 2)), (u32_small (2 + g * 4096 + 34)) by lia.
  rewrite (Z.mul_comm g). destruct (jstart <? 2 + 4096 * g + 4096) eqn:Ej; zbool; case_ifZ; intros [= <-].
  - rewrite Z.min_l, u32_small by lia. split; [done|lia].
  - rewrite Z.min_r, u32_small by lia. split; [done|lia].
Qed.

Lemma layout_groups_spec n jstart : 0 <= jstart < 262144 -> forall g l,
  0 <= g -> g + Z.of_nat n <= 64 -> layout_groups n jstart g = Some l ->
  l = map (raw_desc jstart) (seqZ g (Z.of_nat n)) /\
  forall k, g <= k < g + Z.of_nat n -> group_span k + 34 < jstart.
Proof.
  intros Hj. induction n as [|n IH]; intros g l Hg Hn; cbn [layout_groups].
  - intros [= <-]. split; [done|]. intros. lia.
  - destruct (layout_group jstart g) as [d|] eqn:Ed; [|done].
    destruct (layout_groups n jstart (g + 1)) as [r|] eqn:Er; [|done]. intros [= <-].
    apply layout_group_spec in Ed as [-> Hs]; [|lia|lia].
    apply IH in Er as [-> Hr]; [|lia|lia]. split.
    + rewrite (seqZ_cons g) by lia. cbn [map].
      replace (Z.succ g) with (g + 1) by lia. by replace (Z.pred (Z.of_nat (S n))) with (Z.of_nat n) by lia.
    + intros k Hk. destruct (Z.eq_dec k g) as [->|]; [done|]. apply Hr. lia.
Qed.

(** Number of data blocks of [n] groups from [g]. *)
Fixpoint width_sum (f : Z -> yfs_gdesc) (n : nat) (g : Z) : Z :=
  match n with O => 0 | S k => (data_end (f g) - data_start (f g)) + width_sum f k (g + 1) end.

Lemma width_sum_bound f b n : forall g,
  (forall k, g <= k < g + Z.of_nat n -> 0 <= data_end (f k) - data_start (f k) <= b) ->
  0 <= width_sum f n g <= b * Z.of_nat n.
Proof.
  induction n as [|n IH]; intros g Hf; cbn [width_sum]; [lia|].
  pose proof (Hf g ltac:(lia)). pose proof (IH (g + 1) ltac:(intros; apply Hf; lia)). lia.
Qed.

Lemma width_sum_le f h n : forall g,
  (forall k, g <= k < g + Z.of_nat n ->
    data_end (f k) - data_start (f k) <= data_end (h k) - data_start (h k)) ->
  width_sum f n g <= width_sum h n g.
Proof.
  induction n as [|n IH]; intros g Hf; cbn [width_sum]; [lia|].
  pose proof (Hf g ltac:(lia)). pose proof (IH (g + 1) ltac:(intros; apply Hf; lia)). lia.
Qed.

Lemma data_blocks_eq d : 0 <= data_end d - data_start d <= 4096 ->
  data_blocks d = data_end d - data_start d.
Proof. intros H. apply u32_small. lia. Qed.

Lemma data_total_sum f n : forall g a,
  (forall k, g <= k < g + Z.of_nat n -> 0 <= data_end (f k) - data_start (f k) <= 4096) ->
  0 <= a -> a + 4096 * Z.of_nat n < 4294967296 ->
  fold_left (fun s d => u32 (s + data_blocks d)) (map f (seqZ g (Z.of_nat n))) a
  = a + width_sum f n g.
Proof.
  induction n as [|n IH]; intros g a Hf Ha Hn; [rewrite seqZ_nil by lia; cbn; lia|].
  rewrite seqZ_cons by lia. cbn [map fold_left width_sum]. pose proof (Hf g ltac:(lia)).
  rewrite (data_blocks_eq (f g)), (u32_small (a + _)) by lia.
  replace (Z.succ g) with (g + 1) by lia. replace (Z.pred (Z.of_nat (S n))) with (Z.of_nat n) by lia.
  rewrite IH; [lia| |lia|lia]. intros. apply Hf. lia.
Qed.

(** The index of a data block among all data blocks. *)
Lemma data_index_loop_bound y blk n : forall g idx,
  (forall k, g <= k < g + Z.of_nat n -> 0 <= data_end (gd y k) - data_start (gd y k) <= 4096) ->
  (exists k, g <= k < g + Z.of_nat n /\ in_data (gd y k) blk = true) ->
  0 <= idx -> idx + 4096 * Z.of_nat n < 4294967295 ->
  idx <= data_index_loop n y g blk idx < idx + width_sum (gd y) n g.
Proof.
  induction n as [|n IH]; intros g idx Hw Hex Hi Hn; [destruct Hex as (k & Hk & _); lia|].
  cbn [data_index_loop width_sum]. pose proof (Hw g ltac:(lia)) as Hg.
  pose proof (width_sum_bound (gd y) 4096 n (g + 1) ltac:(intros; apply Hw; lia)).
  destruct (in_data (gd y g) blk) eqn:Ein.
  - unfold in_data in Ein. zbool. rewrite u32_small by lia. lia.
  - rewrite (data_blocks_eq (gd y g)), (u32_small (idx + _)) by lia.
    specialize (IH (g + 1) (idx + (data_end (gd y g) - data_start (gd y g)))). destruct IH as [I1 I2];
      [intros; apply Hw; lia| |lia|lia|lia].
    destruct Hex as (k & Hk & Hin). exists k. split; [|done].
    assert (k <> g) by (intros ->; congruence). lia.
Qed.

(** The parameters of the layout of a disk of [total] blocks. *)
Definition layout_crc_blocks (total : Z) : Z :=
  let n := (total + 4095) / 4096 in
  (4 * width_sum (raw_desc (total - 64)) (Z.to_nat n) 0 + 4095) / 4096.

Lemma raw_width jstart g : group_span g + 34 < jstart ->
  0 < data_end (raw_desc jstart g) - data_start (raw_desc jstart g) <= 4062.
Proof. intros. cbn. lia. Qed.

Lemma compute_layout_spec old total s ds : total <= 262144 -> compute_layout old total = Some (s, ds) ->
  let n := (total + 4095) / 4096 in
  let crc := total - 64 - layout_crc_blocks total in
  0 < n <= 64 /\ 1024 <= total /\ 0 < crc < total - 64 /\
  (forall g, 0 <= g < n -> group_span g + 34 < total - 64) /\
  ds = map (fun g => clamp_end crc (raw_desc (total - 64) g)) (seqZ 0 n) /\
  total_groups s = n /\ journal_start s = total - 64 /\ journal_blocks s = 64 /\ crc_start s = crc.
Proof.
  intros Ht. unfold compute_layout. change YFS_BLOCKS_PER_GROUP with 4096.
  change YFS_JOURNAL_BLOCKS with 64. change YFS_BLOCK_SIZE with 4096. change YFS_MAX_GROUPS with 64.
  destruct (total <? 1024) eqn:Emin; [done|]. zbool.
  rewrite (u32_small (total + 4096 - 1)) by lia. rewrite (u32_small (total - 64)) by lia.
  replace (total + 4096 - 1) with (total + 4095) by lia.
  pose proof (Z.div_mod (total + 4095) 4096 ltac:(lia)) as Hdm.
  pose proof (Z.mod_pos_bound (total + 4095) 4096 ltac:(lia)) as Hm.
  set (n := (total + 4095) / 4096) in *.
  destruct ((n =? 0) || (64 <? n)) eqn:En; [done|]. zbool.
  assert (Hn : 0 < n <= 64) by lia.
  destruct (layout_groups (Z.to_nat n) (total - 64) 0) as [l|] eqn:El; [|done].
  apply layout_groups_spec in El as [-> Hs]; [|lia..]. rewrite Z2Nat.id in * by lia.
  assert (Hw : forall k, 0 <= k < 0 + Z.of_nat (Z.to_nat n) ->
    0 <= data_end (raw_desc (total - 64) k) - data_start (raw_desc (total - 64) k) <= 4062).
  { intros k Hk. pose proof (raw_width (total - 64) k (Hs k ltac:(lia))). lia. }
  pose proof (width_sum_bound _ 4062 _ 0 Hw) as Hsum. rewrite Z2Nat.id in Hsum by lia.
  set (W := width_sum (raw_desc (total - 64)) (Z.to_nat n) 0) in *.
  assert (Hdt : data_total (map (raw_desc (total - 64)) (seqZ 0 n)) = W).
  { unfold data_total. rewrite <- (Z2Nat.id n) at 1 by lia. rewrite data_total_sum; [lia| |lia|lia].
    intros k Hk. pose proof (Hw k Hk). lia. }
  rewrite Hdt. unfold layout_crc_blocks. fold n. fold W.
  assert (HW : 0 < W).
  { unfold W. replace (Z.to_nat n) with (S (Z.to_nat n - 1)) by lia. cbn [width_sum].
    pose proof (raw_width (total - 64) 0 (Hs 0 ltac:(lia))).
    pose proof (width_sum_bound (raw_desc (total - 64)) 4062 (Z.to_nat n - 1) (0 + 1)
      ltac:(intros k Hk; apply Hw; lia)). lia. }
  rewrite (u32_small (W * 4)), (u32_small (W * 4 + 4096 - 1)) by lia.
  replace (W * 4 + 4096 - 1) with (4 * W + 4095) by lia.
  pose proof (Z.div_mod (4 * W + 4095) 4096 ltac:(lia)) as Hd2.
  pose proof (Z.mod_pos_bound (4 * W + 4095) 4096 ltac:(lia)) as Hm2.
  set (C := (4 * W + 4095) / 4096) in *.
  rewrite (u32_small (total - 64 - C)) by lia.
  destruct (data_start (nth 0 (map (raw_desc (total - 64)) (seqZ 0 n)) no_gdesc) <? total - 64 - C); [|done].
  intros [= <- <-]. cbn. splits; try done; try lia.
  apply map_map.
Qed.

Lemma clamped_gd y total s ds g : compute_layout (sb y) total = Some (s, ds) -> total <= 262144 ->
  0 <= g < total_groups s -> nth (Z.to_nat g) ds no_gdesc = clamp_end (crc_start s) (raw_desc (total - 64) g).
Proof.
  intros Hc Ht Hg. destruct (compute_layout_spec _ _ _ _ Ht Hc) as (Hn & _ & _ & _ & -> & E1 & _ & _ & ->).
  rewrite E1 in *. rewrite nth_lookup, list_lookup_fmap, lookup_seqZ_lt by lia. cbn.
  by rewrite Z2Nat.id by lia.
Qed.

(** Writing blocks changes nothing but the disk. *)
Definition same_meta (y y' : yfs) : Prop :=
  sb y' = sb y /\ g_desc y' = g_desc y /\ g_bbitmap y' = g_bbitmap y /\ g_ibitmap y' = g_ibitmap y.

Lemma same_meta_fold {A} (f : yfs -> A -> yfs) l : (forall y a, same_meta y (f y a)) ->
  forall y, same_meta y (fold_left f l y).
Proof.
  intros Hf. induction l as [|a l IH]; intros y; [done|]. cbn [fold_left].
  destruct (Hf y a) as (H1 & H2 & H3 & H4). destruct (IH (f y a)) as (I1 & I2 & I3 & I4).
  unfold same_meta. by rewrite I1, I2, I3, I4.
Qed.

Lemma flush_bitmaps_meta y : same_meta y (flush_bitmaps y).
Proof. apply same_meta_fold. intros. done. Qed.

Definition zeroed (n : Z) (bm : list (list Z)) : list (list Z) :=
  map (fun _ => zero_blk) (seqZ 0 n) ++ drop (Z.to_nat n) bm.

Lemma format_meta y total s ds : compute_layout (sb y) total = Some (s, ds) ->
  g_desc (format y total) = ds /\ groups (format y total) = total_groups s /\
  crc_start (sb (format y total)) = crc_start s /\
  g_bbitmap (format y total) = zeroed (total_groups s) (g_bbitmap y) /\
  g_ibitmap (format y total) = zeroed (total_groups s) (g_ibitmap y).
Proof.
  intros Hc. unfold format. rewrite Hc. cbv zeta.
  set (z1 := map _ _ ++ _). set (z2 := map _ (seqZ _ _) ++ drop _ (g_ibitmap _)).
  set (y1 := set_ibitmap _ _).
  set (y2 := fold_left _ _ y1).
  assert (H2 : same_meta y1 y2) by (apply same_meta_fold; done). clearbody y2.
  destruct H2 as (E1 & E2 & E3 & E4).
  pose proof (flush_bitmaps_meta (wr_gdt (wr_sb (set_sb y2 (set_sb_magic (sb y2)))))) as (F1 & F2 & F3 & F4).
  unfold groups. cbn [g_desc set_active sb g_bbitmap g_ibitmap].
  rewrite F1, F2, F3, F4. cbn. rewrite E1, E2, E3, E4. done.
Qed.

Lemma zeroed_nth n bm g : 0 <= g < n -> nth (Z.to_nat g) (zeroed n bm) [] = zero_blk.
Proof.
  intros Hg. unfold zeroed. rewrite app_nth1 by (rewrite length_map, length_seqZ; lia).
  by rewrite nth_lookup, list_lookup_fmap, lookup_seqZ_lt by lia.
Qed.

Lemma zero_bit bm g i : nth (Z.to_nat g) bm [] = zero_blk -> 0 <= i < 32768 -> bit_get bm g i = false.
Proof.
  intros E Hi. unfold bit_get. rewrite E. unfold zero_blk.
  rewrite nthZ_replicate by (split; [apply Z.div_pos; lia|apply Z.div_lt_upper_bound; lia]).
  by rewrite Z.shiftr_0_l.
Qed.

Lemma zeroed_ok n bm : 0 <= n <= Z.of_nat (length bm) -> bitmap_ok bm ->
  bitmap_ok (zeroed n bm) /\ n <= Z.of_nat (length (zeroed n bm)).
Proof.
  intros Hn Hb. unfold zeroed. split.
  - apply Forall_app. split; [|by apply Forall_drop]. apply Forall_fmap, Forall_true.
    intros. split; [done|]. by apply bytes_replicate.
  - rewrite length_app, length_map, length_seqZ. lia.
Qed.

(** The last group's metadata ends before the CRC table. *)
Definition crc_clear (total : Z) : Prop :=
  group_span ((total + 4095) / 4096 - 1) + 34 <= total - 64 - layout_crc_blocks total.

#[export] Instance crc_clear_dec total : Decision (crc_clear total).
Proof. unfold crc_clear. apply _. Defined.

Lemma clamped_range total g : let n := (total + 4095) / 4096 in
  let d := clamp_end (total - 64 - layout_crc_blocks total) (raw_desc (total - 64) g) in
  crc_clear total -> 0 <= g < n -> group_span g + 34 < total - 64 ->
  data_start d = group_span g + 34 /\ data_start d <= data_end d <= group_span g + 4096 /\
  data_end d <= total - 64 - layout_crc_blocks total /\
  data_end d - data_start d <= data_end (raw_desc (total - 64) g) - data_start (raw_desc (total - 64) g).
Proof.
  cbv zeta. unfold crc_clear. intros Hc Hg Hs. unfold clamp_end, raw_desc, group_span in *.
  set (n := (total + 4095) / 4096) in *. set (c := layout_crc_blocks total) in *. clearbody n c.
  cbn [data_start data_end].
  destruct (total - 64 - c <? Z.min (total - 64) (2 + 4096 * g + 4096)) eqn:E; zbool; lia.
Qed.

Section Formatted.
Context (y : yfs) (total : Z) (s : yfs_sb) (ds : list yfs_gdesc).
Hypothesis Hc : compute_layout (sb y) total = Some (s, ds).
Hypothesis Ht : total <= 262144.
Hypothesis Hclear : crc_clear total.
Hypothesis Hbm : bitmap_ok (g_bbitmap y) /\ length (g_bbitmap y) = 64%nat.

Lemma formatted_gd g : 0 <= g < total_groups s ->
  gd (format y total) g = clamp_end (total - 64 - layout_crc_blocks total) (raw_desc (total - 64) g).
Proof using Hc Ht.
  intros Hg. destruct (format_meta y total s ds Hc) as (E1 & _). unfold gd. rewrite E1.
  rewrite (clamped_gd y total s ds g Hc Ht Hg).
  by destruct (compute_layout_spec _ _ _ _ Ht Hc) as (_ & _ & _ & _ & _ & _ & _ & _ & ->).
Qed.

Lemma formatted_range g : 0 <= g < groups (format y total) ->
  data_start (gd (format y total) g) = group_span g + 34 /\
  data_start (gd (format y total) g) <= data_end (gd (format y total) g) <= group_span g + 4096 /\
  data_end (gd (format y total) g) <= total - 64 - layout_crc_blocks total /\
  data_end (gd (format y total) g) - data_start (gd (format y total) g)
  <= data_end (raw_desc (total - 64) g) - data_start (raw_desc (total - 64) g).
Proof using Hc Ht Hclear.
  intros Hg. destruct (format_meta y total s ds Hc) as (_ & E2 & _). rewrite E2 in Hg.
  destruct (compute_layout_spec _ _ _ _ Ht Hc) as (Hn & _ & _ & Hs & _ & En & _).
  rewrite (formatted_gd g Hg). rewrite En in Hg. apply clamped_range; [done|done|by apply Hs].
Qed.

Lemma formatted_geom : geom_ok (format y total).
Proof using All.
  destruct (format_meta y total s ds Hc) as (_ & E2 & _ & E4 & _).
  destruct (compute_layout_spec _ _ _ _ Ht Hc) as (Hn & _ & Hcrc & Hs & _ & En & _).
  pose proof formatted_range as Hr. rewrite E2, En in Hr. split; rewrite E2, En.
  - change YFS_MAX_GROUPS with 64. lia.
  - intros g Hg. destruct (Hr g Hg) as (Hd & He & _). pose proof (Hs g Hg).
    unfold group_span in *. lia.
  - intros g g' blk Hg Hg' Hin Hin'. destruct (Hr g Hg) as (Hd & He & _).
    destruct (Hr g' Hg') as (Hd' & He' & _). unfold in_data, group_span in *. zbool. lia.
  - rewrite E4, En. apply zeroed_ok; [destruct Hbm as [_ ->]; lia|apply Hbm].
Qed.

Lemma formatted_free blk : data_block (format y total) blk -> bbit (format y total) blk = false.
Proof using All.
  intros (g & Hg & Hin). unfold bbit. rewrite (group_of_data_block_eq _ g blk formatted_geom Hg Hin).
  rewrite (proj2 (Z.ltb_ge g 0)) by lia. apply zero_bit.
  - destruct (format_meta y total s ds Hc) as (_ & E2 & _ & -> & _). apply zeroed_nth. lia.
  - apply (in_data_index _ g blk formatted_geom Hg Hin).
Qed.

Lemma formatted_crc_slot blk : data_block (format y total) blk ->
  crc_start s <= crc_slot_blk (format y total) (data_index (format y total) blk) < journal_start s.
Proof using All.
  intros (g & Hg & Hin). destruct (format_meta y total s ds Hc) as (_ & E2 & E3 & _).
  destruct (compute_layout_spec _ _ _ _ Ht Hc) as (Hn & Ht1 & Hcrc & Hs & _ & En & -> & _ & Es).
  pose proof formatted_range as Hr. rewrite E2, En in Hr, Hg.
  assert (Hw : forall k, 0 <= k < 0 + Z.of_nat (Z.to_nat ((total + 4095) / 4096)) ->
    0 <= data_end (gd (format y total) k) - data_start (gd (format y total) k) <= 4096).
  { intros k Hk. destruct (Hr k ltac:(lia)) as (Hd & He & _). unfold group_span in *. lia. }
  pose proof (data_index_loop_bound (format y total) blk (Z.to_nat ((total + 4095) / 4096)) 0 0 Hw
    ltac:(exists g; split; [lia|exact Hin]) ltac:(lia) ltac:(lia)) as Hi.
  assert (Hle : width_sum (gd (format y total)) (Z.to_nat ((total + 4095) / 4096)) 0
    <= width_sum (raw_desc (total - 64)) (Z.to_nat ((total + 4095) / 4096)) 0).
  { apply width_sum_le. intros k Hk. apply Hr. lia. }
  assert (Hub : width_sum (gd (format y total)) (Z.to_nat ((total + 4095) / 4096)) 0 <= 4096 * 64)
    by (pose proof (width_sum_bound _ 4096 _ 0 Hw); lia).
  unfold data_index, groups. unfold groups in E2. rewrite E2, En.
  set (i := data_index_loop _ _ _ _ _) in *. clearbody i.
  unfold crc_slot_blk. rewrite E3, Es. change YFS_BLOCK_SIZE with 4096. unfold layout_crc_blocks in *.
  cbv zeta in *. rewrite (u32_small (i * 4)) by lia.
  pose proof (Z.div_mod (i * 4) 4096 ltac:(lia)). pose proof (Z.mod_pos_bound (i * 4) 4096 ltac:(lia)).
  set (W := width_sum (raw_desc _) _ _) in *.
  pose proof (Z.div_mod (4 * W + 4095) 4096 ltac:(lia)).
  pose proof (Z.mod_pos_bound (4 * W + 4095) 4096 ltac:(lia)).
  rewrite u32_small by lia. lia.
Qed.
End Formatted.

(** Formatting: when the last group keeps its metadata below the CRC table,
    the on-disk regions do not overlap. Every group's metadata lies before its
    data range, ranges of different groups are disjoint and end before the CRC
    table, the CRC slot of every data block lies between the CRC table's start
    and the journal, and the journal ends the disk; all data blocks are free. *)
Theorem format_layout y total s ds :
  compute_layout (sb y) total = Some (s, ds) -> total <= 262144 -> crc_clear total ->
  bitmap_ok (g_bbitmap y) /\ length (g_bbitmap y) = 64%nat ->
  let y' := format y total in
  geom_ok y' /\ journal_start s + journal_blocks s = total /\
  (forall g, 0 <= g < groups y' ->
     block_bitmap (gd y' g) = 2 + 4096 * g /\ inode_bitmap (gd y' g) = 3 + 4096 * g /\
     inode_table (gd y' g) = 4 + 4096 * g /\ inode_table (gd y' g) + YFS_ITABLE_BLOCKS = data_start (gd y' g)) /\
  (forall blk, data_block y' blk ->
     bbit y' blk = false /\ 2 <= blk < crc_start s /\
     (forall g, 0 <= g < groups y' -> ~ block_bitmap (gd y' g) <= blk < data_start (gd y' g)) /\
     crc_start s <= crc_slot_blk y' (data_index y' blk) < journal_start s).
Proof.
  intros Hc Ht Hcl Hbm y'. subst y'.
  destruct (format_meta y total s ds Hc) as (_ & E2 & _).
  destruct (compute_layout_spec _ _ _ _ Ht Hc) as (Hn & _ & _ & Hs & _ & En & Ej & Eb & Ec).
  pose proof (formatted_range y total s ds Hc Ht Hcl) as Hr.
  split; [by eapply formatted_geom|]. split; [lia|]. split.
  - intros g Hg. destruct (Hr g Hg) as (Hd & _). rewrite E2 in Hg. rewrite Hd.
    rewrite (formatted_gd y total s ds Hc Ht g Hg). change YFS_ITABLE_BLOCKS with 32. cbn. unfold group_span. lia.
  - intros blk Hblk. split; [by eapply formatted_free|].
    pose proof (formatted_crc_slot y total s ds Hc Ht Hcl Hbm blk Hblk) as Hslot.
    destruct Hblk as (g & Hg & Hin). destruct (Hr g Hg) as (Hd & He & Hl & _).
    unfold in_data in Hin. zbool. unfold group_span in *. splits; try lia.
    intros g' Hg'. destruct (Hr g' Hg') as (Hd' & _). rewrite Hd'. rewrite E2 in Hg'.
    rewrite (formatted_gd y total s ds Hc Ht g' Hg'). cbn. unfold group_span. lia.
Qed.

Definition blank_sb : yfs_sb := Sb 0 0 [] 0 0 0 0 0 0 0 0 [].
Definition blank_yfs : yfs :=
  Yfs blank_sb [] (replicate 64 zero_blk) (replicate 64 zero_blk) [] false 0 (fun _ => zero_blk).

Lemma blank_bitmap : bitmap_ok (replicate 64 zero_blk) /\ length (replicate 64 zero_blk) = 64%nat.
Proof.
  split; [|reflexivity]. apply Forall_replicate. split; [reflexivity|by apply bytes_replicate].
Qed.

Lemma format_layout_witness : exists s ds, compute_layout (sb blank_yfs) 16384 = Some (s, ds) /\
  let y' := format blank_yfs 16384 in
  geom_ok y' /\ journal_start s + journal_blocks s = 16384 /\
  (forall g, 0 <= g < groups y' ->
     block_bitmap (gd y' g) = 2 + 4096 * g /\ inode_bitmap (gd y' g) = 3 + 4096 * g /\
     inode_table (gd y' g) = 4 + 4096 * g /\ inode_table (gd y' g) + YFS_ITABLE_BLOCKS = data_start (gd y' g)) /\
  (forall blk, data_block y' blk ->
     bbit y' blk = false /\ 2 <= blk < crc_start s /\
     (forall g, 0 <= g < groups y' -> ~ block_bitmap (gd y' g) <= blk < data_start (gd y' g)) /\
     crc_start s <= crc_slot_blk y' (data_index y' blk) < journal_start s).
Proof.
  eexists _, _. split; [vm_compute; reflexivity|].
  refine (format_layout blank_yfs 16384 _ _ _ _ _ blank_bitmap);
    [vm_compute; reflexivity|lia|apply (bool_decide_eq_true_1 _); vm_compute; reflexivity].
Defined.

(** The side condition is needed: [compute_layout] checks only the first group,
    and on this disk the CRC table starts before the last group's bitmaps. *)
Lemma layout_crc_overlap : exists s ds, compute_layout blank_sb (10 * 4096 + 105) = Some (s, ds) /\
  crc_start s < block_bitmap (nth 10 ds no_gdesc) < journal_start s /\
  data_end (nth 10 ds no_gdesc) < data_start (nth 10 ds no_gdesc).
Proof. eexists _, _. split; [vm_compute; reflexivity|]. vm_compute. done. Qed.

(** The inode that holds the root directory is not reserved: formatting
    clears every inode bitmap, so the first file persisted on the new file
    system is given the root's own inode number, and syncing the root then
    writes the directory over it. *)
Theorem format_root_unreserved y total s ds :
  compute_layout (sb y) total = Some (s, ds) -> total <= 262144 ->
  alloc_ino (format y total) = (iset (format y total) YFS_ROOT_INO true, YFS_ROOT_INO).
Proof.
  intros Hc Ht. destruct (format_meta y total s ds Hc) as (_ & E2 & _ & _ & E5).
  destruct (compute_layout_spec _ _ _ _ Ht Hc) as (Hn & _ & _ & _ & _ & En & _).
  unfold alloc_ino. rewrite E2, En. change YFS_INODES_PER_GROUP with 1024.
  set (n := (total + 4095) / 4096) in *.
  replace (Z.to_nat (n * 1024)) with (S (Z.to_nat (n * 1024) - 1)) by lia. cbn [scan_ino].
  unfold ibit. rewrite E5. change (ino_group 1) with 0. change (ino_index 1) with 0.
  rewrite (zero_bit _ 0 0); [done| |lia]. apply zeroed_nth. lia.
Qed.

Lemma format_root_unreserved_witness :
  alloc_ino (format blank_yfs 1024) = (iset (format blank_yfs 1024) YFS_ROOT_INO true, YFS_ROOT_INO).
Proof.
  destruct (compute_layout (sb blank_yfs) 1024) as [[s ds]|] eqn:E; [|vm_compute in E; discriminate].
  refine (format_root_unreserved blank_yfs 1024 s ds E _). lia.
Defined.
