(* ===== verification/Fd.v ===== *)
(** * File descriptors (kernel/arch/x86_64/syscall.c)

    The descriptor tables of the tasks and what descriptors stand for: files of
    [Vfs], pipes, pseudo-terminals, event counters and epoll sets, with the calls
    that read, write, duplicate, wait for and close them, and the copy of the
    table at a fork (sched/sched.c). Pipes and vnodes live in stores of their own
    and are freed when their counts say so, so that a descriptor can dangle.
    Whether a user address is readable ([vmm_user_range_ok] and
    [vmm_user_str_ok] of [Vmm]) is an argument. *)
From Stdlib Require Import ZArith Lia Bool.
From stdpp Require Import base list numbers option gmap.
From S2P Require Import Prelude Vfs.
#[local] Set Default Goal Selector "!".
Open Scope Z_scope.
Open Scope carray_scope.

(** ** Outcomes *)
(** A call returns, or the kernel does what C leaves undefined: it follows a null
    pointer, uses an object it has freed, leaves a buffer, or never returns. *)
Inductive fault := NullDeref | UseAfterFree | OutOfBounds | Endless.
Inductive call (A : Type) : Type :=
| Done (a : A)
| Fault (f : fault).
Arguments Done {A} a.
Arguments Fault {A} f.
Definition cbind {A B} (m : call A) (f : A -> call B) : call B :=
  match m with Done a => f a | Fault x => Fault x end.
Notation "'let!' p ':=' a 'in' b" := (cbind a (fun p => b))
  (at level 10, p pattern, a at level 200, b at level 200).

(** ** Constants *)
Definition MAX_FD : Z := 64.
Definition PIPE_BUF_SIZE : Z := 4096.
Definition PTY_BUF_SZ : Z := 4096.
Definition PTY_MAX : Z := 16.
Definition EPOLL_INST_MAX : Z := 16.
Definition EPOLL_MAX_ITEMS : Z := 64.
Definition TASK_KBDQ : Z := 64.
Definition USER_BUF_MAX : Z := 1048576.
Definition USER_STR_MAX : Z := 256.
Definition KLOG_LINE : Z := 256.
Definition PERM_R : Z := 4.
Definition PERM_W : Z := 2.
Definition POLLIN : Z := 1.
Definition POLLOUT : Z := 4.
Definition POLLERR : Z := 8.
Definition POLLHUP : Z := 16.
Definition POLLNVAL : Z := 32.
Definition EBADF : Z := 9.
Definition ENOMEM : Z := 12.
Definition EINVAL : Z := 22.
Definition EMFILE : Z := 24.
Definition ENOSPC : Z := 28.

(** A value as a C [int]. *)
Definition int_of (x : Z) : Z := if u32 x <? 2147483648 then u32 x else u32 x - 4294967296.

(** ** Rings: the buffer of a pipe and the two of a terminal, of 4096 bytes *)
Record ring := Ring { rbuf : list Z; rhead : Z; rtail : Z; rcount : Z }.
Definition ring_put (r : ring) (b : Z) : ring :=
  Ring ((rbuf r).[rhead r <- b]) ((rhead r + 1) mod PIPE_BUF_SIZE) (rtail r) (rcount r + 1).
Definition ring_byte (r : ring) : Z := (rbuf r).[rtail r].
Definition ring_drop (r : ring) : ring :=
  Ring (rbuf r) (rhead r) ((rtail r + 1) mod PIPE_BUF_SIZE) (rcount r - 1).
Definition empty_ring : ring := Ring (replicate (Z.to_nat PIPE_BUF_SIZE) 0) 0 0 0.

(** [while (got < n && count > 0)]. *)
Fixpoint ring_read (n : nat) (r : ring) : list Z * ring :=
  match n with
  | O => ([], r)
  | S n => if 0 <? rcount r then let '(l, r') := ring_read n (ring_drop r) in (ring_byte r :: l, r') else ([], r)
  end.

(** ** Pipes and terminals *)
Record pipe := Pipe { p_ring : ring; p_refs : Z; read_ends : Z; write_ends : Z }.
Definition pipe_new : pipe := Pipe empty_ring 2 1 1.
Definition pipe_write (p : pipe) (src : list Z) : pipe :=
  Pipe (fold_left ring_put src (p_ring p)) (p_refs p) (read_ends p) (write_ends p).
Definition pipe_read (p : pipe) (n : Z) : list Z * pipe :=
  let '(l, r) := ring_read (Z.to_nat n) (p_ring p) in (l, Pipe r (p_refs p) (read_ends p) (write_ends p)).
(** A further descriptor, and one less, of an end. *)
Definition pipe_ref (reader : bool) (p : pipe) : pipe :=
  Pipe (p_ring p) (p_refs p + 1) (if reader then read_ends p + 1 else read_ends p)
    (if reader then write_ends p else write_ends p + 1).
Definition drop_end (reader : bool) (p : pipe) : pipe :=
  Pipe (p_ring p) (p_refs p) (if reader && (0 <? read_ends p) then read_ends p - 1 else read_ends p)
    (if negb reader && (0 <? write_ends p) then write_ends p - 1 else write_ends p).

Record pty := Pty {
  pt_in_use : bool; locked : bool; pt_id : Z; master_pid : Z; fg_pgrp : Z; pt_in : ring; pt_out : ring;
  c_iflag : Z; c_oflag : Z; c_cflag : Z; c_lflag : Z; c_cc : list Z; winsize : Z * Z * Z * Z }.
Definition no_pty : pty := Pty false false 0 0 0 empty_ring empty_ring 0 0 0 0 (replicate 32 0) (0, 0, 0, 0).
Definition with_rings (i o : ring) (p : pty) : pty :=
  Pty (pt_in_use p) (locked p) (pt_id p) (master_pid p) (fg_pgrp p) i o (c_iflag p) (c_oflag p) (c_cflag p)
    (c_lflag p) (c_cc p) (winsize p).
Definition close_pty (p : pty) : pty :=
  Pty false (locked p) (pt_id p) (master_pid p) (fg_pgrp p) (pt_in p) (pt_out p) (c_iflag p) (c_oflag p) (c_cflag p)
    (c_lflag p) (c_cc p) (winsize p).
Definition ECHO : Z := 8.
Definition ICANON : Z := 2.
(** VINTR, VQUIT, VERASE, VKILL, VEOF, VTIME, VMIN and VSUSP. *)
Definition default_cc : list Z := [3; 28; 127; 21; 4; 0; 1; 0; 0; 0; 26] ++ replicate 21 0.
Definition fresh_pty (i pid pgrp : Z) : pty :=
  Pty true false i pid pgrp empty_ring empty_ring 1280 5 191 35387 default_cc (25, 80, 640, 400).

(** The master's bytes: into the input ring as far as there is room, echoed. *)
Fixpoint pty_type (p : pty) (bs : list Z) : pty * Z :=
  match bs with
  | [] => (p, 0)
  | ch :: bs =>
    if rcount (pt_in p) <? PTY_BUF_SZ then
      let i := ring_put (pt_in p) ch in
      let o := if negb (Z.land (c_lflag p) ECHO =? 0) && (rcount (pt_out p) <? PTY_BUF_SZ)
               then ring_put (pt_out p) ch else pt_out p in
      let '(p, k) := pty_type (with_rings i o p) bs in (p, k + 1)
    else (p, 0)
  end.
(** The slave's bytes: into the output ring. *)
Fixpoint pty_print (p : pty) (bs : list Z) : pty * Z :=
  match bs with
  | [] => (p, 0)
  | ch :: bs =>
    if rcount (pt_out p) <? PTY_BUF_SZ
    then let '(p, k) := pty_print (with_rings (pt_in p) (ring_put (pt_out p) ch) p) bs in (p, k + 1)
    else (p, 0)
  end.

(** What the kernel tells the rest of the system. *)
Inductive event := Console (line : list Z) | Signal (pid sig : Z).

(** The line discipline at the slave's end. A round takes a byte from the ring, so
    that its count is fuel enough: bytes, signals, and the terminal. *)
Fixpoint pty_lines (fuel : nat) (p : pty) (n : Z) : list Z * list event * pty :=
  match fuel with
  | O => ([], [], p)
  | S fuel =>
    if (0 <? n) && (0 <? rcount (pt_in p)) then
      let ch := ring_byte (pt_in p) in
      let p := with_rings (ring_drop (pt_in p)) (pt_out p) p in
      let signal sig := if negb (fg_pgrp p =? 0) then [Signal (fg_pgrp p) sig] else [] in
      if ch =? (c_cc p).[0] then let '(l, e, p') := pty_lines fuel p n in (l, signal 2 ++ e, p')
      else if ch =? (c_cc p).[10] then let '(l, e, p') := pty_lines fuel p n in (l, signal 20 ++ e, p')
      else if ch =? (c_cc p).[4] then ([], [], p)
      else if negb (Z.land (c_lflag p) ICANON =? 0) && (ch =? 10) then ([ch], [], p)
      else let '(l, e, p') := pty_lines fuel p (n - 1) in (ch :: l, e, p')
    else ([], [], p)
  end.

(** ** Descriptors *)
Inductive fd_type :=
| FD_TYPE_FILE | FD_TYPE_PIPE | FD_TYPE_EVENTFD | FD_TYPE_EPOLL | FD_TYPE_PTY_MASTER | FD_TYPE_PTY_SLAVE
| FD_TYPE_DEV_NULL | FD_TYPE_DEV_ZERO | FD_TYPE_DEV_RANDOM | FD_TYPE_DEV_TTY.
#[export] Instance fd_type_eq_dec : EqDecision fd_type.
Proof. solve_decision. Defined.

(** Pointers are addresses, 0 for null; an epoll set is its index. *)
Record fd_entry := Fd {
  vn : Z; pos : Z; fflags : Z; in_use : bool; is_pipe : bool; read_end : bool; fpipe : Z; ftype : fd_type;
  pty_id : Z; eventfd_val : Z; epoll_data : option Z }.
Definition no_fd : fd_entry := Fd 0 0 0 false false false 0 FD_TYPE_FILE 0 0 None.
Definition is_ft (f : fd_entry) (t : fd_type) : bool := bool_decide (ftype f = t).
(** [f->is_pipe || f->type == FD_TYPE_PIPE]. *)
Definition pipe_fd (f : fd_entry) : bool := is_pipe f || is_ft f FD_TYPE_PIPE.
Definition with_pos (p : Z) (f : fd_entry) : fd_entry :=
  Fd (vn f) p (fflags f) (in_use f) (is_pipe f) (read_end f) (fpipe f) (ftype f) (pty_id f) (eventfd_val f) (epoll_data f).
Definition with_in_use (b : bool) (f : fd_entry) : fd_entry :=
  Fd (vn f) (pos f) (fflags f) b (is_pipe f) (read_end f) (fpipe f) (ftype f) (pty_id f) (eventfd_val f) (epoll_data f).
Definition with_eventfd (v : Z) (f : fd_entry) : fd_entry :=
  Fd (vn f) (pos f) (fflags f) (in_use f) (is_pipe f) (read_end f) (fpipe f) (ftype f) (pty_id f) v (epoll_data f).
Definition with_fflags (v : Z) (f : fd_entry) : fd_entry :=
  Fd (vn f) (pos f) v (in_use f) (is_pipe f) (read_end f) (fpipe f) (ftype f) (pty_id f) (eventfd_val f) (epoll_data f).

Record epoll_item := EpollItem { ev_fd : Z; ev_events : Z; ev_data : Z }.
Record epoll_inst := Epoll { ep_in_use : bool; items : list epoll_item }.

(** What of a task the calls use; [groups] is [sched_current_groups]. *)
Record ptask := PTask {
  pid : Z; pgid : Z; euid : Z; groups : list Z; cwd : Z; from_user : bool; fds : list fd_entry;
  kbd_q : list Z; kbd_qh : Z; kbd_qt : Z }.
Definition with_fds (l : list fd_entry) (t : ptask) : ptask :=
  PTask (pid t) (pgid t) (euid t) (groups t) (cwd t) (from_user t) l (kbd_q t) (kbd_qh t) (kbd_qt t).
Definition with_cwd (c : Z) (t : ptask) : ptask :=
  PTask (pid t) (pgid t) (euid t) (groups t) c (from_user t) (fds t) (kbd_q t) (kbd_qh t) (kbd_qt t).
Definition with_kbd (q : Z) (t : ptask) : ptask :=
  PTask (pid t) (pgid t) (euid t) (groups t) (cwd t) (from_user t) (fds t) (kbd_q t) (kbd_qh t) q.

Record kstate (D : Type) := KState {
  tree : vfs D; pipes : gmap Z pipe; ptys : list pty; epolls : list epoll_inst; tasks : gmap Z ptask; me : Z;
  rand_state : Z; told : list event }.
Arguments KState {D}. Arguments tree {D}. Arguments pipes {D}. Arguments ptys {D}. Arguments epolls {D}.
Arguments tasks {D}. Arguments me {D}. Arguments rand_state {D}. Arguments told {D}.

Section Calls.
Context {D : Type} (range_ok : Z -> Z -> bool).
Implicit Types s : kstate D.

(** ** The state's parts *)
Definition with_tree (t : vfs D) s : kstate D := KState t (pipes s) (ptys s) (epolls s) (tasks s) (me s) (rand_state s) (told s).
Definition with_pipes (p : gmap Z pipe) s : kstate D := KState (tree s) p (ptys s) (epolls s) (tasks s) (me s) (rand_state s) (told s).
Definition with_ptys (p : list pty) s : kstate D := KState (tree s) (pipes s) p (epolls s) (tasks s) (me s) (rand_state s) (told s).
Definition with_epolls (e : list epoll_inst) s : kstate D := KState (tree s) (pipes s) (ptys s) e (tasks s) (me s) (rand_state s) (told s).
Definition with_tasks (t : gmap Z ptask) s : kstate D := KState (tree s) (pipes s) (ptys s) (epolls s) t (me s) (rand_state s) (told s).
Definition with_rand (r : Z) s : kstate D := KState (tree s) (pipes s) (ptys s) (epolls s) (tasks s) (me s) r (told s).
Definition tell (l : list event) s : kstate D := KState (tree s) (pipes s) (ptys s) (epolls s) (tasks s) (me s) (rand_state s) (told s ++ l).

Definition cur s : option ptask := tasks s !! me s.
Definition upd_cur (f : ptask -> ptask) s : kstate D := with_tasks (alter f (me s) (tasks s)) s.

(** A pipe, a vnode, by address. *)
Definition pipe_at s (a : Z) : call pipe :=
  if a =? 0 then Fault NullDeref else match pipes s !! a with Some p => Done p | None => Fault UseAfterFree end.
Definition put_pipe (a : Z) (p : pipe) s : kstate D := with_pipes (<[a := p]> (pipes s)) s.
Definition vnode_at s (a : Z) : call vnode :=
  if a =? 0 then Fault NullDeref else match node (tree s) a with Some v => Done v | None => Fault UseAfterFree end.
Definition pty_at s (i : Z) : pty := nth (Z.to_nat i) (ptys s) no_pty.
Definition put_pty (i : Z) (p : pty) s : kstate D := with_ptys (<[Z.to_nat i := p]> (ptys s)) s.

(** ** User memory and permissions *)
(** A user's buffer or string: its address and what is there. *)
Record ubuf := Ubuf { u_at : Z; u_data : list Z }.
Definition g_sys_from_user s : bool := match cur s with Some t => from_user t | None => false end.
Definition uptr s (p n : Z) : bool :=
  if negb (g_sys_from_user s) then true else if USER_BUF_MAX <? n then false else range_ok p n.
Definition perm_ok s (v : option vnode) (want : Z) : bool :=
  if negb (g_sys_from_user s) then true
  else vfs_check_perm v (match cur s with Some t => euid t | None => 0 end)
         (match cur s with Some t => groups t | None => [0] end) want.

(** ** The descriptor table *)
Definition fd_entry_at (t : ptask) (fd : Z) : fd_entry := nth (Z.to_nat fd) (fds t) no_fd.
Definition fd_get s (fd : Z) : option fd_entry :=
  match cur s with
  | None => None
  | Some t => if (fd <? 0) || (MAX_FD <=? fd) || negb (in_use (fd_entry_at t fd)) then None else Some (fd_entry_at t fd)
  end.
Definition set_fd (fd : Z) (f : fd_entry) s : kstate D := upd_cur (fun t => with_fds (<[Z.to_nat fd := f]> (fds t)) t) s.
Definition alloc_fd_from s (min_fd : Z) : Z :=
  match cur s with
  | None => -1
  | Some t =>
    let lo := if min_fd <? 0 then 0 else min_fd in
    default (-1) (find (fun i => negb (in_use (fd_entry_at t i))) (seqZ lo (MAX_FD - lo)))
  end.
Definition alloc_fd s : Z := alloc_fd_from s 3.

(** ** Terminals *)
Definition valid_pty s (i : Z) : bool := (0 <=? i) && (i <? PTY_MAX) && pt_in_use (pty_at s i).
Definition pty_alloc s : kstate D * Z :=
  match find (fun i => negb (pt_in_use (pty_at s i))) (seqZ 0 PTY_MAX) with
  | None => (s, -1)
  | Some i =>
    let p := match cur s with Some t => pid t | None => 0 end in
    let g := match cur s with Some t => if pgid t =? 0 then pid t else pgid t | None => 0 end in
    (put_pty i (fresh_pty i p g) s, i)
  end.
(** The decimal number at the start of a name; a number too large wraps. *)
Fixpoint pty_number (name : list Z) (id : Z) : Z :=
  match name with
  | c :: r => if (48 <=? c) && (c <=? 57) then pty_number r (int_of (id * 10 + (c - 48))) else id
  | [] => id
  end.
Definition pty_slave_open s (name : list Z) : Z :=
  let id := pty_number name 0 in
  if (id <? 0) || (PTY_MAX <=? id) then -1
  else if pt_in_use (pty_at s id) && negb (locked (pty_at s id)) then id else -1.
Definition pty_write_master s (i : Z) (d : list Z) : kstate D * Z :=
  if negb (valid_pty s i) then (s, -1) else let '(p, n) := pty_type (pty_at s i) d in (put_pty i p s, n).
Definition pty_write_slave s (i : Z) (d : list Z) : kstate D * Z :=
  if negb (valid_pty s i) then (s, -1) else let '(p, n) := pty_print (pty_at s i) d in (put_pty i p s, n).
Definition pty_read_master s (i n : Z) : kstate D * Z * list Z :=
  if negb (valid_pty s i) then (s, -1, [])
  else
    let p := pty_at s i in
    let '(l, o) := ring_read (Z.to_nat n) (pt_out p) in
    (put_pty i (with_rings (pt_in p) o p) s, len l, l).
Definition pty_read_slave s (i n : Z) : kstate D * Z * list Z :=
  if negb (valid_pty s i) then (s, -1, [])
  else
    let p := pty_at s i in
    let '(l, e, p') := pty_lines (Z.to_nat (rcount (pt_in p))) p n in
    (tell e (put_pty i p' s), len l, l).

(** ** Random bytes *)
(** [seed] is what the first call makes of the time stamp. *)
Definition linux_rand_u64 (seed x : Z) : Z :=
  let x := if x =? 0 then (if seed =? 0 then 1 else seed) else x in
  let x := u64 (Z.lxor x (Z.shiftl x 13)) in
  let x := Z.lxor x (Z.shiftr x 7) in
  u64 (Z.lxor x (Z.shiftl x 17)).
Definition word_bytes (v : Z) : list Z := map (fun k => u8 (Z.shiftr v (8 * k))) (seqZ 0 8).
(** Eight bytes per draw, [fuel] draws at most. *)
Fixpoint rand_bytes (fuel : nat) (seed x n : Z) : Z * list Z :=
  match fuel with
  | O => (x, [])
  | S fuel =>
    if n <=? 0 then (x, [])
    else
      let x := linux_rand_u64 seed x in
      let '(x', l) := rand_bytes fuel seed x (n - 8) in
      (x', take (Z.to_nat (if n <? 8 then n else 8)) (word_bytes x) ++ l)
  end.

(** ** write *)
Definition klog s (d : list Z) : kstate D :=
  tell [Console (c_string (take (Z.to_nat (KLOG_LINE - 1)) d))] s.

Definition sys_write (e : venv) s (fd : Z) (b : ubuf) : call (kstate D * Z) :=
  let n := len (u_data b) in
  if negb (uptr s (u_at b) n) then Done (s, -1)
  else
    match fd_get s fd with
    | None => if (fd =? 1) || (fd =? 2) then Done (klog s (u_data b), n) else Done (s, -1)
    | Some f =>
      if is_ft f FD_TYPE_DEV_NULL || is_ft f FD_TYPE_DEV_ZERO || is_ft f FD_TYPE_DEV_RANDOM then Done (s, n)
      else if is_ft f FD_TYPE_DEV_TTY then Done (klog s (u_data b), n)
      else if is_ft f FD_TYPE_PTY_MASTER then Done (pty_write_master s (pty_id f) (u_data b))
      else if is_ft f FD_TYPE_PTY_SLAVE then Done (pty_write_slave s (pty_id f) (u_data b))
      else if is_ft f FD_TYPE_EVENTFD then
        if n <? 8 then Done (s, -1)
        else
          let val := fold_right (fun x v => x + 256 * v) 0 (take 8 (u_data b)) in
          Done (set_fd fd (with_eventfd (u64 (eventfd_val f + val)) f) s, 8)
      else if pipe_fd f then
        if fpipe f =? 0 then Done (s, -1)
        else
          let! p := pipe_at s (fpipe f) in
          if read_ends p =? 0 then Done (s, -1)
          else
            let room := u32 (PIPE_BUF_SIZE - rcount (p_ring p)) in
            if room =? 0 then Done (s, -2)
            else
              let k := if u32 n <? room then u32 n else room in
              Done (put_pipe (fpipe f) (pipe_write p (take (Z.to_nat k) (u_data b))) s, k)
      else if vn f =? 0 then
        if (fd =? 1) || (fd =? 2) then Done (klog s (u_data b), n) else Done (s, -1)
      else
        let! v := vnode_at s (vn f) in
        if negb (perm_ok s (Some v) PERM_W) then Done (s, -1)
        else
          match vfs_write e v (u_data b) (pos f) with
          | Overrun => Fault OutOfBounds
          | Result w v =>
            let s := with_tree (put (tree s) (vn f) v) s in
            Done (if 0 <? w then set_fd fd (with_pos (u64 (pos f + w)) f) s else s, w)
          end
    end.

(** ** read *)
(** The task's keyboard ring: [fuel] is its size. *)
Fixpoint kbd_read (fuel : nat) (q : list Z) (qh qt n : Z) : list Z * Z :=
  match fuel with
  | O => ([], qt)
  | S fuel =>
    if (0 <? n) && negb (qh =? qt) then
      let ev := q.[qt] in
      let '(l, qt') := kbd_read fuel q qh ((qt + 1) mod TASK_KBDQ) (if (0 <? ev) && (ev <? 256) then n - 1 else n) in
      ((if (0 <? ev) && (ev <? 256) then [ev] else []) ++ l, qt')
    else ([], qt)
  end.

(** The state, the return value, and the bytes at the start of the caller's buffer. *)
Definition sys_read (seed : Z) s (fd at_ n : Z) : call (kstate D * Z * list Z) :=
  if negb (uptr s at_ n) then Done (s, -1, [])
  else
    match fd_get s fd with
    | None => Done (s, if fd <=? 2 then 0 else -1, [])
    | Some f =>
      if is_ft f FD_TYPE_DEV_NULL then Done (s, 0, [])
      else if is_ft f FD_TYPE_DEV_ZERO then Done (s, n, replicate (Z.to_nat n) 0)
      else if is_ft f FD_TYPE_DEV_RANDOM then
        let '(x, l) := rand_bytes (Z.to_nat n) seed (rand_state s) n in Done (with_rand x s, n, l)
      else if is_ft f FD_TYPE_PTY_MASTER then Done (pty_read_master s (pty_id f) n)
      else if is_ft f FD_TYPE_PTY_SLAVE then Done (pty_read_slave s (pty_id f) n)
      else if is_ft f FD_TYPE_DEV_TTY then
        match cur s with
        | None => Done (s, 0, [])
        | Some t =>
          let '(l, qt) := kbd_read (Z.to_nat TASK_KBDQ) (kbd_q t) (kbd_qh t) (kbd_qt t) n in
          Done (upd_cur (with_kbd qt) s, len l, l)
        end
      else if is_ft f FD_TYPE_EVENTFD then
        if n <? 8 then Done (s, -1, [])
        else if eventfd_val f =? 0 then Done (s, -2, [])
        else Done (set_fd fd (with_eventfd 0 f) s, 8, word_bytes (eventfd_val f))
      else if pipe_fd f then
        if fpipe f =? 0 then Done (s, -1, [])
        else
          let! p := pipe_at s (fpipe f) in
          if rcount (p_ring p) =? 0 then Done (s, if write_ends p =? 0 then 0 else -2, [])
          else let '(l, p') := pipe_read p (u32 n) in Done (put_pipe (fpipe f) p' s, len l, l)
      else if vn f =? 0 then Done (s, 0, [])
      else
        let! v := vnode_at s (vn f) in
        if negb (perm_ok s (Some v) PERM_R) then Done (s, -1, [])
        else
          match vfs_read v (pos f) n with
          | None => Fault OutOfBounds
          | Some (r, l) => Done (if 0 <? r then set_fd fd (with_pos (u64 (pos f + r)) f) s else s, r, l)
          end
    end.

(** ** close *)
Definition pipe_put (a : Z) (p : pipe) s : kstate D :=
  let p := Pipe (p_ring p) (p_refs p - 1) (read_ends p) (write_ends p) in
  if p_refs p <=? 0 then with_pipes (delete a (pipes s)) s else put_pipe a p s.

(** The entry a close leaves behind. *)
Definition closed_fd (f : fd_entry) : fd_entry :=
  Fd 0 (pos f) (fflags f) false false (read_end f) (if is_pipe f then 0 else fpipe f) FD_TYPE_FILE (pty_id f)
    (eventfd_val f) (epoll_data f).

Definition sys_close s (fd : Z) : call (kstate D * Z) :=
  match fd_get s fd with
  | None => Done (s, -1)
  | Some f =>
    let! s := (if is_pipe f && negb (fpipe f =? 0) then
                 let! p := pipe_at s (fpipe f) in
                 Done (pipe_put (fpipe f) (drop_end (read_end f) p) s)
               else if is_ft f FD_TYPE_PTY_MASTER then
                 Done (if pty_id f <? PTY_MAX then put_pty (pty_id f) (close_pty (pty_at s (pty_id f))) s else s)
               else if negb (vn f =? 0) then
                 let! _ := vnode_at s (vn f) in Done (with_tree (vnode_unref (tree s) (vn f)) s)
               else Done s) in
    Done (set_fd fd (closed_fd f) s, 0)
  end.

(** ** Duplication *)
(** The references of a copied entry. *)
Definition share_fd (f : fd_entry) s : call (kstate D) :=
  if is_pipe f && negb (fpipe f =? 0) then
    let! p := pipe_at s (fpipe f) in Done (put_pipe (fpipe f) (pipe_ref (read_end f) p) s)
  else if negb (vn f =? 0) then
    let! _ := vnode_at s (vn f) in Done (with_tree (vnode_ref (tree s) (vn f)) s)
  else Done s.
Definition copy_fd (f : fd_entry) (fd : Z) s : call (kstate D) :=
  let! s := share_fd f s in Done (set_fd fd (with_in_use true f) s).

Definition sys_dup2 s (oldfd newfd : Z) : call (kstate D * Z) :=
  if (newfd <? 0) || (MAX_FD <=? newfd) || (oldfd <? 0) || (MAX_FD <=? oldfd) then Done (s, -1)
  else if negb (g_sys_from_user s) then Done (s, -1)
  else
    match fd_get s oldfd with
    | None => Done (s, -1)
    | Some old =>
      if oldfd =? newfd then Done (s, newfd)
      else
        let! (s, rc) := (match fd_get s newfd with Some _ => sys_close s newfd | None => Done (s, 0) end) in
        if negb (rc =? 0) then Done (s, -1)
        else let! s := copy_fd old newfd s in Done (s, newfd)
    end.

Definition linux_dup s (oldfd : Z) : call (kstate D * Z) :=
  match fd_get s oldfd with
  | None => Done (s, - EBADF)
  | Some f =>
    let i := alloc_fd_from s 0 in
    if i <? 0 then Done (s, - EMFILE) else let! s := copy_fd f i s in Done (s, i)
  end.

Definition F_DUPFD : Z := 0.
Definition F_GETFL : Z := 3.
Definition F_SETFL : Z := 4.
Definition F_DUPFD_CLOEXEC : Z := 1030.
(** O_APPEND and O_NONBLOCK. *)
Definition SETFL_MASK : Z := 3072.
Definition linux_fcntl s (fd cmd arg : Z) : call (kstate D * Z) :=
  match fd_get s fd with
  | None => Done (s, - EBADF)
  | Some f =>
    if (cmd =? F_DUPFD) || (cmd =? F_DUPFD_CLOEXEC) then
      let start := if int_of arg <? 0 then 0 else int_of arg in
      if MAX_FD <=? start then Done (s, - EINVAL)
      else
        let i := alloc_fd_from s start in
        if i <? 0 then Done (s, - EMFILE) else let! s := copy_fd f i s in Done (s, i)
    else if cmd =? F_GETFL then Done (s, fflags f)
    else if cmd =? F_SETFL then
      Done (set_fd fd (with_fflags (Z.lor (Z.land (fflags f) (u32 (Z.lnot SETFL_MASK))) (Z.land (u32 arg) SETFL_MASK)) f) s, 0)
    else Done (s, 0)
  end.

(** ** pipe *)
(** The entry the call turns into an end: what it does not assign stays. *)
Definition pipe_end (reader : bool) (a : Z) (f : fd_entry) : fd_entry :=
  Fd 0 0 (fflags f) true true reader a (ftype f) (pty_id f) (eventfd_val f) (epoll_data f).

(** [mem] is what [kzalloc] returns; the pair is what it writes to the caller's array at [at_]. *)
Definition sys_pipe (mem : option Z) s (at_ : Z) : call (kstate D * Z * option (Z * Z)) :=
  if negb (g_sys_from_user s) then Done (s, -1, None)
  else if negb (uptr s at_ 8) then Done (s, -1, None)
  else
    match cur s with
    | None => Done (s, -1, None)
    | Some t =>
      let r := alloc_fd s in
      if r <? 0 then Done (s, -1, None)
      else
        let fr := fd_entry_at t r in
        let s1 := set_fd r (with_in_use true fr) s in
        let w := alloc_fd s1 in
        if w <? 0 then Done (set_fd r (with_in_use false fr) s1, -1, None)
        else
          let fw := fd_entry_at t w in
          let s2 := set_fd w (with_in_use true fw) s1 in
          match mem with
          | None => Done (set_fd w (with_in_use false fw) (set_fd r (with_in_use false fr) s2), -1, None)
          | Some a =>
            Done (set_fd w (pipe_end false a fw) (set_fd r (pipe_end true a fr) (put_pipe a pipe_new s2)), 0, Some (r, w))
          end
    end.

(** ** lseek and getdents *)
(** [whence] 0, 1, 2: from the start, from here, from the end. *)
Definition sys_lseek s (fd off whence : Z) : call (kstate D * Z) :=
  match fd_get s fd with
  | None => Done (s, -1)
  | Some f =>
    let seek base := Done (set_fd fd (with_pos (u64 (base + off)) f) s, u64 (base + off)) in
    if whence =? 0 then seek 0
    else if whence =? 1 then seek (pos f)
    else if whence =? 2 then
      if vn f =? 0 then seek 0 else let! v := vnode_at s (vn f) in seek (size v)
    else Done (s, -1)
  end.

Record dirent := Dirent { d_type : vnode_type; d_size : Z; d_name : list Z }.
Fixpoint children (fuel : nat) (t : vfs D) (c : Z) : list dirent :=
  match fuel with
  | O => []
  | S k => match node t c with None => [] | Some v => Dirent (type v) (size v) (take 95 (name v)) :: children k t (sibling v) end
  end.
Definition sys_getdents s (fd at_ cnt : Z) : call (kstate D * Z * list dirent) :=
  if 256 <? cnt then Done (s, -1, [])
  else if negb (uptr s at_ (cnt * 112)) then Done (s, -1, [])
  else
    match fd_get s fd with
    | None => Done (s, -1, [])
    | Some f =>
      if fd <? 3 then Done (s, -1, [])
      else
        let! v := vnode_at s (vn f) in
        if negb (is_vt (type v) VN_DIR) then Done (s, -1, [])
        else if negb (perm_ok s (Some v) PERM_R) then Done (s, -1, [])
        else
          let l := take (Z.to_nat cnt) (drop (Z.to_nat (pos f)) (children (walk_fuel (tree s)) (tree s) (child v))) in
          Done (set_fd fd (with_pos (u64 (pos f + len l)) f) s, len l, l)
    end.

(** ** Event counters and epoll sets *)
Definition linux_eventfd s (initval flags : Z) : kstate D * Z :=
  let fd := alloc_fd_from s 3 in
  if fd <? 0 then (s, - EMFILE)
  else (set_fd fd (Fd 0 0 (u32 flags) true false false 0 FD_TYPE_EVENTFD 0 initval None) s, fd).

Definition epoll_at s (i : Z) : epoll_inst := nth (Z.to_nat i) (epolls s) (Epoll false []).
Definition put_epoll (i : Z) (x : epoll_inst) s : kstate D := with_epolls (<[Z.to_nat i := x]> (epolls s)) s.
Definition linux_epoll_create1 s : kstate D * Z :=
  let fd := alloc_fd_from s 3 in
  if fd <? 0 then (s, - EMFILE)
  else
    match find (fun i => negb (ep_in_use (epoll_at s i))) (seqZ 0 EPOLL_INST_MAX) with
    | None => (s, - ENOMEM)
    | Some i => (set_fd fd (Fd 0 0 0 true false false 0 FD_TYPE_EPOLL 0 0 (Some i)) (put_epoll i (Epoll true []) s), fd)
    end.

(** The first item of a descriptor is changed, or replaced by the last item. *)
Fixpoint ep_mod (l : list epoll_item) (fd ev data : Z) : list epoll_item :=
  match l with
  | [] => []
  | i :: l => if ev_fd i =? fd then EpollItem fd ev data :: l else i :: ep_mod l fd ev data
  end.
Fixpoint ep_index (l : list epoll_item) (fd : Z) : option nat :=
  match l with
  | [] => None
  | i :: l => if ev_fd i =? fd then Some O else S <$> ep_index l fd
  end.
Definition ep_del (l : list epoll_item) (fd : Z) : list epoll_item :=
  match ep_index l fd, last l with
  | Some k, Some x => removelast (<[k := x]> l)
  | _, _ => l
  end.
(** [op]: 1 add, 2 delete, 3 modify. *)
Definition linux_epoll_ctl s (epfd op fd at_ : Z) (ev data : Z) : kstate D * Z :=
  match fd_get s epfd with
  | Some f =>
    match (if is_ft f FD_TYPE_EPOLL then epoll_data f else None) with
    | None => (s, - EBADF)
    | Some i =>
      if negb (op =? 2) && negb (uptr s at_ 12) then (s, - EINVAL)
      else
        let x := epoll_at s i in
        let set l := put_epoll i (Epoll (ep_in_use x) l) s in
        if op =? 1 then
          if EPOLL_MAX_ITEMS <=? len (items x) then (s, - ENOSPC) else (set (items x ++ [EpollItem fd ev data]), 0)
        else if op =? 3 then (set (ep_mod (items x) fd ev data), 0)
        else if op =? 2 then (set (ep_del (items x) fd), 0)
        else (s, 0)
    end
  | None => (s, - EBADF)
  end.

(** ** Waiting *)
Definition when (b : bool) (m : Z) : Z := if b then m else 0.
Definition linux_check_fd_events s (fd events : Z) : call Z :=
  let wants m := negb (Z.land events m =? 0) in
  let both := Z.lor (when (wants POLLIN) POLLIN) (when (wants POLLOUT) POLLOUT) in
  if (fd <? 0) || (MAX_FD <=? fd) then Done POLLNVAL
  else
    match fd_get s fd with
    | None => Done (if fd <=? 2 then both else POLLNVAL)
    | Some f =>
      if is_ft f FD_TYPE_DEV_NULL || is_ft f FD_TYPE_DEV_ZERO || is_ft f FD_TYPE_DEV_RANDOM || is_ft f FD_TYPE_DEV_TTY
      then Done both
      else if is_ft f FD_TYPE_PTY_MASTER then
        let p := pty_at s (pty_id f) in
        Done (Z.lor (when (wants POLLIN && (0 <? rcount (pt_out p))) POLLIN)
                    (when (wants POLLOUT && (rcount (pt_in p) <? PTY_BUF_SZ)) POLLOUT))
      else if is_ft f FD_TYPE_PTY_SLAVE then
        let p := pty_at s (pty_id f) in
        Done (Z.lor (when (wants POLLIN && (0 <? rcount (pt_in p))) POLLIN)
                    (when (wants POLLOUT && (rcount (pt_out p) <? PTY_BUF_SZ)) POLLOUT))
      else if pipe_fd f then
        if fpipe f =? 0 then Done 0
        else
          let! p := pipe_at s (fpipe f) in
          if read_end f then
            Done (Z.lor (when (wants POLLIN && (0 <? rcount (p_ring p))) POLLIN)
                        (when (write_ends p =? 0) (Z.lor POLLHUP POLLIN)))
          else
            Done (Z.lor (when (wants POLLOUT && (0 <? u32 (PIPE_BUF_SIZE - rcount (p_ring p)))) POLLOUT)
                        (when (read_ends p =? 0) POLLERR))
      else if is_ft f FD_TYPE_EVENTFD then
        Done (Z.lor (when (wants POLLIN && (0 <? eventfd_val f)) POLLIN) (when (wants POLLOUT) POLLOUT))
      else if negb (vn f =? 0) then Done both
      else Done 0
    end.

Record pollfd := Pollfd { pfd : Z; pevents : Z; revents : Z }.
(** One pass over the array: the entries and the number that is ready. *)
Fixpoint poll_pass s (l : list pollfd) : call (list pollfd * Z) :=
  match l with
  | [] => Done ([], 0)
  | x :: l =>
    let! r := linux_check_fd_events s (pfd x) (pevents x) in
    let! (l, n) := poll_pass s l in
    Done (Pollfd (pfd x) (pevents x) r :: l, if r =? 0 then n else n + 1)
  end.

(** The rounds of a wait: the state another task may have changed in the
    meantime, and the clock. [None] when the rounds run out. *)
Fixpoint poll_wait {A} (pass : kstate D -> call (A * Z)) (timeout limit : Z) (rounds : list (kstate D * Z))
    : call (option (A * Z)) :=
  match rounds with
  | [] => Done None
  | (s, now) :: rounds =>
    let! (l, ready) := pass s in
    if (0 <? ready) || (timeout =? 0) then Done (Some (l, ready))
    else if (0 <? timeout) && (limit <=? now) then Done (Some (l, 0))
    else poll_wait pass timeout limit rounds
  end.
Definition TICK_HZ : Z := 250.
Definition poll_limit (t0 timeout : Z) : Z := if 0 <? timeout then u64 (t0 + timeout * TICK_HZ / 1000) else 0.

(** The entries written back and the return value. [t0] is the first clock reading. *)
Definition linux_poll s (at_ : Z) (l : list pollfd) (timeout t0 : Z) (rounds : list (kstate D * Z))
    : call (option (list pollfd * Z)) :=
  if (256 <? len l) || ((0 <? len l) && negb (uptr s at_ (len l * 8))) then Done (Some ([], - EINVAL))
  else poll_wait (fun s => poll_pass s (take 32 l)) timeout (poll_limit t0 timeout) rounds.

(** A pass of epoll_wait: the events and data of what is ready, [n] at most. *)
Fixpoint epoll_pass s (n : nat) (l : list epoll_item) : call (list (Z * Z)) :=
  match n, l with
  | S n', i :: l =>
    let! r := linux_check_fd_events s (ev_fd i) (ev_events i) in
    if r =? 0 then epoll_pass s n l
    else let! evs := epoll_pass s n' l in Done ((u32 r, ev_data i) :: evs)
  | _, _ => Done []
  end.
Definition linux_epoll_wait s (epfd at_ maxevents timeout t0 : Z) (rounds : list (kstate D * Z))
    : call (option (list (Z * Z) * Z)) :=
  if (maxevents <=? 0) || (64 <? maxevents) || negb (uptr s at_ (maxevents * 12)) then Done (Some ([], - EINVAL))
  else
    match fd_get s epfd with
    | Some f =>
      match (if is_ft f FD_TYPE_EPOLL then epoll_data f else None) with
      | None => Done (Some ([], - EBADF))
      | Some i =>
        poll_wait (fun s => let! l := epoll_pass s (Z.to_nat (Z.min maxevents 32)) (items (epoll_at s i)) in Done (l, len l))
          timeout (poll_limit t0 timeout) rounds
      end
    | None => Done (Some ([], - EBADF))
    end.

(** ** fork *)
(** The child's table: a copy, with references for the entries from 3 on. [child]
    is the task without its descriptors. *)
Definition share_from (k : Z) (l : list fd_entry) s : call (kstate D) :=
  fold_left (fun m i =>
    let! s := m in
    let f := nth (Z.to_nat i) l no_fd in
    if in_use f then share_fd f s else Done s) (seqZ k (MAX_FD - k)) (Done s).
Definition fork_fds (s : kstate D) (child : ptask) : call (kstate D) :=
  match cur s with
  | None => Done s
  | Some t =>
    let! s := share_from 3 (fds t) s in
    let s := with_tree (vnode_ref (tree s) (cwd t)) s in
    Done (with_tasks (<[pid child := with_cwd (cwd t) (with_fds (fds t) child)]> (tasks s)) s)
  end.
End Calls.
