(* ===== verification/Files.v ===== *)
(** * Calls on paths and files (kernel/arch/x86_64/syscall.c)

    Opening, creating, renaming and removing files, through the native calls and
    the Linux ones, and the Linux calls that read and write at an offset. They
    put the descriptors of [Fd] on the tree of [Vfs]. The Linux calls of the
    ...at family copy the path into the kernel and call the native ones with that
    copy, whose address [kbuf] is then checked as a user's. The last byte of a
    name buffer, which [strncpy] does not write, is taken for 0. *)
From Stdlib Require Import ZArith Lia Bool String.
From stdpp Require Import base list numbers option gmap.
From S2P Require Import Prelude Vfs Fd.
#[local] Set Default Goal Selector "!".
Open Scope Z_scope.
Open Scope carray_scope.

Definition chars (s : string) : list Z := map (fun c => Z.of_nat (Ascii.nat_of_ascii c)) (list_ascii_of_string s).

Definition O_WRONLY : Z := 1.
Definition O_RDWR : Z := 2.
Definition O_CREAT : Z := 64.
Definition O_TRUNC : Z := 512.
Definition O_APPEND : Z := 1024.
Definition PERM_X : Z := 1.
Definition PERM_STICKY : Z := 512.
Definition ENOENT : Z := 2.
Definition EIO : Z := 5.
Definition EACCES : Z := 13.
Definition ENOTDIR : Z := 20.
Definition AT_FDCWD : Z := -100.

(** ** Directory and name *)
(** The position of the last slash. *)
Fixpoint last_slash (p : list Z) : option nat :=
  match p with
  | [] => None
  | c :: p => match last_slash p with Some k => Some (S k) | None => if c =? 47 then Some O else None end
  end.
Definition base_name (l : list Z) : list Z := take (Z.to_nat (VFS_MAX_NAME - 1)) l.
(** As open and mkdir split a path, *)
Definition split_path (p : list Z) : list Z * list Z :=
  match last_slash p with
  | Some l => (take (match l with O => 1%nat | _ => l end) p, base_name (drop (S l) p))
  | None => (dot, base_name p)
  end.
(** as rename does, *)
Definition split_rename (p : list Z) : list Z * list Z :=
  match last_slash p with
  | Some (S l) => (take (S l) p, base_name (drop (S (S l)) p))
  | _ => (dot, base_name p)
  end.
(** and as symlink does. *)
Definition split_symlink (p : list Z) : list Z * list Z :=
  match last_slash p with
  | Some (S l) => (take (S l) p, base_name (drop (S (S l)) p))
  | Some O => ([47], base_name (drop 1 p))
  | None => ([47], base_name p)
  end.

Section Paths.
Context {D : Type} (note_delete : D -> Z -> D) (range_ok str_ok : Z -> Z -> bool) (kbuf : Z) (fuel : nat).
Implicit Types s : kstate D.

Definition ustr s (p max : Z) : bool :=
  if negb (g_sys_from_user s) then true else if USER_STR_MAX <? max then false else str_ok p max.
(** The bytes up to the terminator, which stands within [cap]. *)
Definition copy_user_str s (us : ubuf) (cap : Z) : option (list Z) :=
  if negb (ustr s (u_at us) cap) then None else Some (c_string (take (Z.to_nat cap) (u_data us))).

(** Lookups; a cycle of links never returns. *)
Definition look s (from : Z) (path : list Z) : call Z :=
  match vfs_lookup_at fuel (tree s) from path with Some a => Done a | None => Fault Endless end.
Definition look_nofollow s (from : Z) (path : list Z) : call Z :=
  match vfs_lookup_at_nofollow fuel (tree s) from path with Some a => Done a | None => Fault Endless end.
Definition vnode_or_null s (a : Z) : option vnode := node (tree s) a.
Definition cwd_or_null s : Z := match cur s with Some t => cwd t | None => 0 end.
(** [cur()->cwd], without a test of [cur()]. *)
Definition cur_cwd s : call Z := match cur s with Some t => Done (cwd t) | None => Fault NullDeref end.
Definition upd_tree (f : vfs D -> vfs D) s : kstate D := with_tree (f (tree s)) s.
Definition set_vnode (a : Z) (v : vnode) s : kstate D := upd_tree (fun t => put t a v) s.
Definition truncate_at (e : venv) s (a n : Z) : call (kstate D * Z) :=
  let! v := vnode_at s a in
  match vfs_truncate e v n with Overrun => Fault OutOfBounds | Result rc v => Done (set_vnode a v s, rc) end.

(** ** open *)
Definition dev_type (p : list Z) : option fd_type :=
  if streq p (chars "/dev/null") then Some FD_TYPE_DEV_NULL
  else if streq p (chars "/dev/zero") then Some FD_TYPE_DEV_ZERO
  else if streq p (chars "/dev/urandom") || streq p (chars "/dev/random") then Some FD_TYPE_DEV_RANDOM
  else if streq p (chars "/dev/tty") || streq p (chars "/dev/console") then Some FD_TYPE_DEV_TTY
  else None.
Definition special_fd (t : fd_type) (flags i : Z) : fd_entry := Fd 0 0 (u32 flags) true false false 0 t i 0 None.
(** The names that are no files: [None] for a file. The last two are the errors of
    a terminal that cannot be had. *)
Definition open_special s (fd flags : Z) (p : list Z) (emaster eslave : Z) : option (kstate D * Z) :=
  match dev_type p with
  | Some t => Some (set_fd fd (special_fd t flags 0) s, fd)
  | None =>
    if streq p (chars "/dev/ptmx") then
      let '(s, i) := pty_alloc s in
      if i <? 0 then Some (s, emaster) else Some (set_fd fd (special_fd FD_TYPE_PTY_MASTER flags i) s, fd)
    else if streq (take 9 p) (chars "/dev/pts/") then
      let i := pty_slave_open s (drop 9 p) in
      if i <? 0 then Some (s, eslave) else Some (set_fd fd (special_fd FD_TYPE_PTY_SLAVE flags i) s, fd)
    else None
  end.

(** The descriptor of a file, which holds a reference of its own. *)
Definition file_fd (a p flags : Z) : fd_entry := Fd a p (u32 flags) true false false 0 FD_TYPE_FILE 0 0 None.
Definition install_fd s (fd a flags : Z) : call (kstate D * Z) :=
  let s := upd_tree (fun t => vnode_ref t a) s in
  let! v := vnode_at s a in
  Done (set_fd fd (file_fd a (if Z.land flags O_APPEND =? 0 then 0 else size v) flags) s, fd).

Definition sys_open (e : venv) s (us : ubuf) (flags : Z) : call (kstate D * Z) :=
  match copy_user_str s us VFS_MAX_PATH with
  | None => Done (s, -1)
  | Some path =>
    let fd := alloc_fd_from s 0 in
    if fd <? 0 then Done (s, -1)
    else
      let s := set_fd fd no_fd s in
      match open_special s fd flags path (-1) (-1) with
      | Some r => Done r
      | None =>
        let from := cwd_or_null s in
        let! a := look s from path in
        let! (s, a) := (if (a =? 0) && negb (Z.land flags O_CREAT =? 0) then
                 let '(dir, base) := split_path path in
                 let! d := look s from dir in
                 if (d =? 0) || negb (perm_ok s (vnode_or_null s d) PERM_W) then Done (s, 0)
                 else let '(t, a) := vfs_create e (tree s) d base VN_FILE in Done (with_tree t s, a)
               else Done (s, a)) in
        if a =? 0 then Done (s, -1)
        else
          let! v := vnode_at s a in
          let need := Z.lor (if Z.land flags 3 =? O_WRONLY then 0 else PERM_R)
                            (if Z.land flags (Z.lor O_WRONLY (Z.lor O_RDWR (Z.lor O_TRUNC O_APPEND))) =? 0 then 0 else PERM_W) in
          if negb (need =? 0) && negb (perm_ok s (Some v) need) then Done (s, -1)
          else
            let! s := (if is_vt (type v) VN_FILE && negb (Z.land flags O_TRUNC =? 0)
                       then let! r := truncate_at e s a 0 in Done (fst r) else Done s) in
            install_fd s fd a flags
      end
  end.

(** ** Directories *)
Definition sys_mkdir (e : venv) s (us : ubuf) : call (kstate D * Z) :=
  match copy_user_str s us VFS_MAX_PATH with
  | None => Done (s, -1)
  | Some path =>
    let '(dir, base) := split_path path in
    let! from := cur_cwd s in
    let! d := look s from dir in
    if (d =? 0) || negb (perm_ok s (vnode_or_null s d) PERM_W) then Done (s, -1)
    else let '(t, a) := vfs_create e (tree s) d base VN_DIR in Done (with_tree t s, if a =? 0 then -1 else 0)
  end.

Definition sys_chdir s (us : ubuf) : call (kstate D * Z) :=
  match copy_user_str s us VFS_MAX_PATH with
  | None => Done (s, -1)
  | Some path =>
    let! from := cur_cwd s in
    let! a := look s from path in
    if negb (is_dir (tree s) a) then Done (s, -1)
    else if negb (perm_ok s (vnode_or_null s a) PERM_X) then Done (s, -1)
    else
      let s := upd_tree (fun t => vnode_unref (vnode_ref t a) from) s in
      Done (upd_cur (with_cwd a) s, 0)
  end.

(** A sticky directory: only its owner, the file's, or root may remove an entry. *)
Definition sticky_refuses (t : ptask) (p v : vnode) : bool :=
  negb (Z.land (mode p) PERM_STICKY =? 0) && negb (euid t =? 0) && negb (euid t =? uid p) && negb (euid t =? uid v).

Definition sys_unlink s (us : ubuf) : call (kstate D * Z) :=
  match copy_user_str s us VFS_MAX_PATH with
  | None => Done (s, -1)
  | Some path =>
    match cur s with
    | None => Fault NullDeref
    | Some t =>
      let! a := look_nofollow s (cwd t) path in
      if a =? 0 then Done (s, -1)
      else
        let! v := vnode_at s a in
        if parent v =? 0 then Done (s, -1)
        else
          let! p := vnode_at s (parent v) in
          if negb (perm_ok s (Some p) PERM_W) then Done (s, -1)
          else if sticky_refuses t p v then Done (s, -1)
          else let '(tr, rc) := vfs_unlink note_delete (tree s) a in Done (with_tree tr s, rc)
    end
  end.

(** ** rename *)
(** The new node takes the owner and the mode; [d] is the copy of the data, if it
    could be had. *)
Definition adopt (v : vnode) (d : option (list Z)) (n : vnode) : vnode :=
  Vnode (name n) (type n) (ino n) (match d with Some _ => size v | None => size n end)
    (match d with Some _ => size v | None => cap n end) (match d with Some _ => d | None => data n end)
    (mtime n) (refs n) (uid v) (gid v) (mode v) (acl n) true (dirty_b0 n) (dirty_b1 n) (parent n) (child n) (sibling n).
Definition copied_data (e : venv) (v : vnode) : option (list Z) :=
  if is_vt (type v) VN_FILE && negb (size v =? 0)
  then match kmalloc e (size v) with Some _ => take (Z.to_nat (size v)) <$> data v | None => None end else None.

Definition sys_rename (e : venv) s (oldp newp : ubuf) : call (kstate D * Z) :=
  match copy_user_str s oldp VFS_MAX_PATH, copy_user_str s newp VFS_MAX_PATH with
  | Some kold, Some knew =>
    match cur s with
    | None => Fault NullDeref
    | Some t =>
      let! a := look_nofollow s (cwd t) kold in
      if a =? 0 then Done (s, -1)
      else
        let! v := vnode_at s a in
        if negb (perm_ok s (vnode_or_null s (parent v)) PERM_W) then Done (s, -1)
        else
          let! p := vnode_at s (parent v) in
          if sticky_refuses t p v then Done (s, -1)
          else
            let '(dir, base) := split_rename knew in
            let! np := look s (cwd t) dir in
            if negb (is_dir (tree s) np) then Done (s, -1)
            else if negb (perm_ok s (vnode_or_null s np) PERM_W) then Done (s, -1)
            else
              let! there := look s np base in
              if negb (there =? 0) then Done (s, -1)
              else
                let '(tr, nv) := vfs_create e (tree s) np base (type v) in
                if nv =? 0 then Done (with_tree tr s, -1)
                else
                  let tr := upd tr nv (adopt v (copied_data e v)) in
                  let '(tr, rc) := vfs_unlink note_delete tr a in
                  Done (with_tree tr s, if rc =? 0 then 0 else -1)
    end
  | _, _ => Done (s, -1)
  end.

(** ** Links, sizes, modes *)
Definition sys_symlink (e : venv) s (target linkpath : ubuf) : call (kstate D * Z) :=
  match copy_user_str s target VFS_MAX_PATH, copy_user_str s linkpath VFS_MAX_PATH with
  | Some kt, Some kl =>
    let '(dir, base) := split_symlink kl in
    let! from := cur_cwd s in
    let! d := look s from dir in
    if negb (is_dir (tree s) d) || negb (perm_ok s (vnode_or_null s d) PERM_W) then Done (s, -1)
    else let '(t, a) := vfs_symlink e (tree s) d base kt in Done (with_tree t s, if a =? 0 then -1 else 0)
  | _, _ => Done (s, -1)
  end.

(** The return value and what is written to the buffer of [n] bytes. *)
Definition sys_readlink s (us : ubuf) (at_ n : Z) : call (Z * list Z) :=
  match copy_user_str s us VFS_MAX_PATH with
  | None => Done (-1, [])
  | Some path =>
    if negb (uptr range_ok s at_ n) then Done (-1, [])
    else
      let! from := cur_cwd s in
      let! a := look_nofollow s from path in
      match vnode_or_null s a with
      | Some v =>
        if negb (is_vt (type v) VN_SYMLINK) then Done (-1, [])
        else
          let k := if n <=? size v then (if n =? 0 then 0 else n - 1) else size v in
          Done (size v, take (Z.to_nat k) (default [] (data v)) ++ (if n =? 0 then [] else [0]))
      | None => Done (-1, [])
      end
  end.

Definition sys_truncate (e : venv) s (us : ubuf) (n : Z) : call (kstate D * Z) :=
  match copy_user_str s us VFS_MAX_PATH with
  | None => Done (s, -1)
  | Some path =>
    let! from := cur_cwd s in
    let! a := look s from path in
    if a =? 0 then Done (s, -1)
    else if negb (perm_ok s (vnode_or_null s a) PERM_W) then Done (s, -1)
    else truncate_at e s a n
  end.

Definition sys_chmod s (us : ubuf) (m : Z) : call (kstate D * Z) :=
  match copy_user_str s us VFS_MAX_PATH with
  | None => Done (s, -1)
  | Some path =>
    let! a := look s (cwd_or_null s) path in
    if a =? 0 then Done (s, -1)
    else
      let! v := vnode_at s a in
      let euid := match cur s with Some t => euid t | None => 0 end in
      if g_sys_from_user s && negb (euid =? 0) && negb (uid v =? euid) then Done (s, -1)
      else Done (set_vnode a (set_dirty true (set_mode (Z.land m 511) v)) s, 0)
  end.

(** ** The Linux calls *)
Definition linux_resolve_dirfd s (dirfd : Z) : call Z :=
  if dirfd =? AT_FDCWD then Done (match cur s with Some t => cwd t | None => root_node (tree s) end)
  else
    match fd_get s (int_of dirfd) with
    | Some f =>
      if vn f =? 0 then Done 0
      else let! v := vnode_at s (vn f) in Done (if is_vt (type v) VN_DIR then vn f else 0)
    | None => Done 0
    end.
Definition dir_base s (dirfd : Z) (path : list Z) : call Z :=
  match path with c :: _ => if c =? 47 then Done (root_node (tree s)) else linux_resolve_dirfd s dirfd
             | [] => linux_resolve_dirfd s dirfd end.

Definition linux_openat (e : venv) s (dirfd : Z) (us : ubuf) (flags m : Z) : call (kstate D * Z) :=
  match copy_user_str s us VFS_MAX_PATH with
  | None => Done (s, - EINVAL)
  | Some path =>
    let! base := dir_base s dirfd path in
    if base =? 0 then Done (s, - EBADF)
    else
      let fd := alloc_fd_from s 0 in
      if fd <? 0 then Done (s, - EMFILE)
      else
        let s := set_fd fd no_fd s in
        match open_special s fd flags path (- ENOMEM) (- ENOENT) with
        | Some r => Done r
        | None =>
          let! a := look s base path in
          let! (s, a, rc) := (if (a =? 0) && negb (Z.land flags O_CREAT =? 0) then
                   let '(dir, name) := split_path path in
                   let! d := look s base dir in
                   if d =? 0 then Done (s, 0, - ENOENT)
                   else if negb (perm_ok s (vnode_or_null s d) PERM_W) then Done (s, 0, - EACCES)
                   else
                     let '(t, a) := vfs_create e (tree s) d name VN_FILE in
                     let t := if negb (a =? 0) && negb (m =? 0) then upd t a (set_mode (Z.land m 511)) else t in
                     Done (with_tree t s, a, - ENOENT)
                 else Done (s, a, - ENOENT)) in
          if a =? 0 then Done (s, rc)
          else
            let! v := vnode_at s a in
            let! s := (if is_vt (type v) VN_FILE && negb (Z.land flags O_TRUNC =? 0)
                       then let! r := truncate_at e s a 0 in Done (fst r) else Done s) in
            install_fd s fd a flags
        end
  end.

Definition linux_pread64 s (fd at_ n off : Z) : call (Z * list Z) :=
  if negb (uptr range_ok s at_ n) then Done (- EINVAL, [])
  else
    match fd_get s fd with
    | Some f =>
      if vn f =? 0 then Done (- EBADF, [])
      else
        let! v := vnode_at s (vn f) in
        match vfs_read v (u64 off) n with
        | None => Fault OutOfBounds
        | Some (r, l) => Done (if 0 <=? r then r else - EIO, l)
        end
    | None => Done (- EBADF, [])
    end.

Definition linux_pwrite64 (e : venv) s (fd : Z) (b : ubuf) (off : Z) : call (kstate D * Z) :=
  if negb (uptr range_ok s (u_at b) (len (u_data b))) then Done (s, - EINVAL)
  else
    match fd_get s fd with
    | Some f =>
      if vn f =? 0 then Done (s, - EBADF)
      else
        let! v := vnode_at s (vn f) in
        match vfs_write e v (u_data b) (u64 off) with
        | Overrun => Fault OutOfBounds
        | Result w v => Done (set_vnode (vn f) v s, if 0 <=? w then w else - EIO)
        end
    | None => Done (s, - EBADF)
    end.

Definition linux_ftruncate (e : venv) s (fd n : Z) : call (kstate D * Z) :=
  match fd_get s fd with
  | Some f =>
    if (vn f =? 0) || is_pipe f then Done (s, - EBADF)
    else let! (s, rc) := truncate_at e s (vn f) n in Done (s, if rc =? 0 then 0 else -1)
  | None => Done (s, - EBADF)
  end.

Definition linux_fchmod s (fd m : Z) : call (kstate D * Z) :=
  match fd_get s fd with
  | Some f =>
    if vn f =? 0 then Done (s, - EBADF)
    else let! v := vnode_at s (vn f) in Done (set_vnode (vn f) (set_mode (Z.land m 511) v) s, 0)
  | None => Done (s, - EBADF)
  end.

Definition linux_unlinkat s (dirfd : Z) (us : ubuf) (flags : Z) : call (kstate D * Z) :=
  match copy_user_str s us VFS_MAX_PATH with
  | None => Done (s, - EINVAL)
  | Some path =>
    let! base := dir_base s dirfd path in
    if base =? 0 then Done (s, - EBADF)
    else
      let! a := look_nofollow s base path in
      if a =? 0 then Done (s, - ENOENT)
      else
        let! v := vnode_at s a in
        if negb (Z.land flags 512 =? 0) && negb (is_vt (type v) VN_DIR) then Done (s, - ENOTDIR)
        else let '(t, rc) := vfs_unlink note_delete (tree s) a in Done (with_tree t s, if rc =? 0 then 0 else - EACCES)
  end.

Definition check_access s (a m : Z) : Z :=
  if a =? 0 then - ENOENT
  else if negb (Z.land m 2 =? 0) && negb (perm_ok s (vnode_or_null s a) PERM_W) then - EACCES
  else if negb (Z.land m 4 =? 0) && negb (perm_ok s (vnode_or_null s a) PERM_R) then - EACCES
  else 0.
Definition linux_access s (us : ubuf) (m : Z) : call Z :=
  match copy_user_str s us VFS_MAX_PATH with
  | None => Done (- EINVAL)
  | Some path => let! a := look s (cwd_or_null s) path in Done (check_access s a m)
  end.

(** The calls that hand the kernel's copy of a path to a native call. *)
Definition kernel_copy (path : list Z) : ubuf := Ubuf kbuf (path ++ [0]).
Definition linux_mkdirat (e : venv) s (us : ubuf) : call (kstate D * Z) :=
  match copy_user_str s us VFS_MAX_PATH with
  | None => Done (s, - EINVAL)
  | Some path => sys_mkdir e s (kernel_copy path)
  end.
Definition linux_symlinkat (e : venv) s (target linkpath : ubuf) : call (kstate D * Z) :=
  match copy_user_str s target VFS_MAX_PATH, copy_user_str s linkpath VFS_MAX_PATH with
  | Some t, Some l => sys_symlink e s (kernel_copy t) (kernel_copy l)
  | _, _ => Done (s, - EINVAL)
  end.
Definition linux_readlinkat s (us : ubuf) (at_ n : Z) : call (Z * list Z) :=
  match copy_user_str s us VFS_MAX_PATH with
  | None => Done (- EINVAL, [])
  | Some path => sys_readlink s (kernel_copy path) at_ n
  end.
Definition linux_fchmodat s (us : ubuf) (m : Z) : call (kstate D * Z) :=
  match copy_user_str s us VFS_MAX_PATH with
  | None => Done (s, - EINVAL)
  | Some path => sys_chmod s (kernel_copy path) (u16 m)
  end.
Definition linux_renameat2 (e : venv) s (olddirfd : Z) (oldp : ubuf) (newdirfd : Z) (newp : ubuf) : call (kstate D * Z) :=
  match copy_user_str s oldp VFS_MAX_PATH, copy_user_str s newp VFS_MAX_PATH with
  | Some o, Some n =>
    let! ob := dir_base s olddirfd o in
    let! nb := dir_base s newdirfd n in
    if (ob =? 0) || (nb =? 0) then Done (s, - EBADF)
    else
      let! a := look_nofollow s ob o in
      if a =? 0 then Done (s, - ENOENT) else sys_rename e s (kernel_copy o) (kernel_copy n)
  | _, _ => Done (s, - EINVAL)
  end.
Definition linux_socketpair (mem : option Z) s (at_ : Z) : call (kstate D * Z * option (Z * Z)) :=
  if negb (uptr range_ok s at_ 8) then Done (s, - EINVAL, None)
  else
    let! (s, rc, l) := sys_pipe range_ok mem s kbuf in
    Done (s, if rc =? 0 then 0 else - EMFILE, l).

(** ** Vectors and sendfile *)
(** [total] bytes are behind. *)
Fixpoint writev_loop (e : venv) s (fd : Z) (iov : list ubuf) (total : Z) : call (kstate D * Z) :=
  match iov with
  | [] => Done (s, total)
  | b :: iov =>
    let! (s, w) := sys_write range_ok e s fd b in
    if w <? 0 then Done (s, w)
    else if w <? len (u_data b) then Done (s, total + w)
    else writev_loop e s fd iov (total + w)
  end.
Definition linux_writev (e : venv) s (fd at_ : Z) (iov : list ubuf) : call (kstate D * Z) :=
  if (64 <? len iov) || negb (uptr range_ok s at_ (len iov * 16)) then Done (s, - EINVAL)
  else writev_loop e s fd iov 0.

Fixpoint readv_loop (seed : Z) s (fd : Z) (iov : list (Z * Z)) (total : Z) : call (kstate D * Z * list (list Z)) :=
  match iov with
  | [] => Done (s, total, [])
  | (a, n) :: iov =>
    let! (s, r, l) := sys_read range_ok seed s fd a n in
    if r <? 0 then Done (s, r, [])
    else if r <? n then Done (s, total + r, [l])
    else let! (s, r, ls) := readv_loop seed s fd iov (total + r) in Done (s, r, l :: ls)
  end.
Definition linux_readv (seed : Z) s (fd at_ : Z) (iov : list (Z * Z)) : call (kstate D * Z * list (list Z)) :=
  if (64 <? len iov) || negb (uptr range_ok s at_ (len iov * 16)) then Done (s, - EINVAL, [])
  else readv_loop seed s fd iov 0.

(** A round moves a byte or more, so that [count] rounds are enough. [off] is the
    offset the caller gave, and the one it gets back. *)
Fixpoint sendfile_loop (rounds : nat) (e : venv) (seed : Z) s (out_fd in_fd : Z) (off : option Z) (count copied : Z)
    : call (kstate D * Z) :=
  match rounds with
  | O => Done (s, copied)
  | S rounds =>
    if count <=? copied then Done (s, copied)
    else
      let want := if 4096 <? count - copied then 4096 else count - copied in
      let! (s, r, l) := (match off with
               | Some o => let! (r, l) := linux_pread64 s in_fd kbuf want (o + copied) in Done (s, r, l)
               | None => sys_read range_ok seed s in_fd kbuf want
               end) in
      if r <=? 0 then Done (s, copied)
      else
        let! (s, w) := sys_write range_ok e s out_fd (Ubuf kbuf l) in
        if w <=? 0 then Done (s, copied)
        else sendfile_loop rounds e seed s out_fd in_fd off count (copied + w)
  end.
Definition linux_sendfile (e : venv) (seed : Z) s (out_fd in_fd at_ : Z) (off : option Z) (count : Z)
    : call (kstate D * Z * option Z) :=
  if (match off with Some _ => negb (uptr range_ok s at_ 8) | None => false end) then Done (s, - EINVAL, None)
  else
    let! (s, n) := sendfile_loop (Z.to_nat count) e seed s out_fd in_fd off count 0 in
    Done (s, n, (fun o => o + n) <$> off).
End Paths.
