(* ===== verification/Calls.v ===== *)
(** * More calls on descriptors and files (kernel/arch/x86_64/syscall.c)

    Select, terminal control, directory listings, attributes and times, on the
    state of [Fd]; and two things all tasks share, the ring of notifications and
    the clipboard. *)
From Stdlib Require Import ZArith Lia Bool String.
From stdpp Require Import base list numbers option gmap.
From S2P Require Import Prelude Vfs Fd Files.
#[local] Set Default Goal Selector "!".
Open Scope Z_scope.
Open Scope carray_scope.

Definition EPOLLIN_LIKE : Z := Z.lor POLLIN (Z.lor POLLHUP POLLERR).
Definition TIOCGPTN : Z := 2147767344.
Definition TIOCSPTLCK : Z := 1074025521.
Definition TCGETS : Z := 21505.
Definition TCSETS : Z := 21506.
Definition TCSETSW : Z := 21507.
Definition TCSETSF : Z := 21508.
Definition TIOCGPGRP : Z := 21519.
Definition TIOCSPGRP : Z := 21520.
Definition TIOCGWINSZ : Z := 21523.
Definition TIOCSWINSZ : Z := 21524.
Definition FIONREAD : Z := 21531.
Definition FIONBIO : Z := 21537.
Definition SIZEOF_TERMIOS : Z := 60.
Definition O_NONBLOCK : Z := 2048.
Definition AT_EMPTY_PATH : Z := 4096.
Definition AT_SYMLINK_NOFOLLOW : Z := 256.
Definition NOTIFY_RING : Z := 16.
Definition NOTIFY_LEN : Z := 128.
Definition CLIP_MAX : Z := 512.

(** ** The clock *)
Record rtc_time := Rtc { year : Z; month : Z; day : Z; hour : Z; minute : Z; second : Z }.
Definition mdays : list Z := [31; 28; 31; 30; 31; 30; 31; 31; 30; 31; 30; 31].
Definition leap (y : Z) : bool := ((Z.rem y 4 =? 0) && negb (Z.rem y 100 =? 0)) || (Z.rem y 400 =? 0).
Definition linux_epoch_seconds (t : rtc_time) : Z :=
  let days := (year t - 1970) * 365 in
  let days := days + (Z.quot (year t - 1969) 4 - Z.quot (year t - 1901) 100 + Z.quot (year t - 1601) 400) in
  let days := fold_left (fun d m => d + mdays.[m - 1]) (seqZ 1 (month t - 1)) days in
  let days := if (2 <? month t) && leap (year t) then days + 1 else days in
  let days := days + (day t - 1) in
  u64 (u64 days * 86400 + hour t * 3600 + minute t * 60 + second t).

(** ** What all tasks share *)
Record ring16 := Notify { slots : list (list Z); n_head : Z; n_tail : Z }.
Record shared_text := Shared { notes : ring16; clip : list Z }.

Section More.
Context {D : Type} (range_ok str_ok : Z -> Z -> bool) (fuel : nat).
Implicit Types s : kstate D.

(** ** select *)
Definition linux_ppoll s (at_ : Z) (l : list pollfd) (tsp : Z * (Z * Z)) (t0 : Z) (rounds : list (kstate D * Z)) :=
  let '(tp, (sec, nsec)) := tsp in
  let timeout := if negb (tp =? 0) && uptr range_ok s tp 16 then sec * 1000 + Z.quot nsec 1000000 else -1 in
  linux_poll range_ok s at_ l timeout t0 rounds.

(** A set of descriptors in user memory: its address and value. *)
Record fdset := FdSet { fs_at : Z; fs_val : Z }.
Definition set_ok s (x : fdset) : bool := negb (fs_at x =? 0) && uptr range_ok s (fs_at x) 8.
(** The descriptors in [l]: the sets that are ready, and their number. *)
Fixpoint select_pass s (l : list Z) (rbits wbits : Z) : call (Z * Z * Z) :=
  match l with
  | [] => Done (0, 0, 0)
  | i :: l =>
    let! r := (if Z.testbit rbits i then
                 let! rev := linux_check_fd_events s i POLLIN in Done (negb (Z.land rev EPOLLIN_LIKE =? 0))
               else Done false) in
    let! w := (if Z.testbit wbits i then
                 let! rev := linux_check_fd_events s i POLLOUT in Done (negb (Z.land rev POLLOUT =? 0))
               else Done false) in
    let! (rout, wout, n) := select_pass s l rbits wbits in
    Done (if r then Z.lor (Z.shiftl 1 i) rout else rout, if w then Z.lor (Z.shiftl 1 i) wout else wout,
          n + (if r then 1 else 0) + (if w then 1 else 0))
  end.
(** The sets written back, and the number. *)
Definition linux_select s (nfds : Z) (rfds wfds efds : fdset) (tv : Z * (Z * Z)) (t0 : Z) (rounds : list (kstate D * Z))
    : call (option (list fdset * Z)) :=
  let nfds := if 64 <? nfds then 64 else nfds in
  let rbits := if set_ok s rfds then fs_val rfds else 0 in
  let wbits := if set_ok s wfds then fs_val wfds else 0 in
  let '(tp, (sec, usec)) := tv in
  let timeout := if negb (tp =? 0) && uptr range_ok s tp 16 then sec * 1000 + Z.quot usec 1000 else -1 in
  let! o := poll_wait (fun s => let! (rout, wout, n) := select_pass s (seqZ 0 nfds) rbits wbits in Done ((rout, wout), n))
              timeout (poll_limit t0 timeout) rounds in
  Done ((fun x : Z * Z * Z => let '(rout, wout, n) := x in
          let back (f : fdset) v := if set_ok s f then [FdSet (fs_at f) v] else [] in
          (back rfds rout ++ back wfds wout ++ back efds 0, n)) <$> o).
Definition linux_pselect6 := linux_select.

(** ** ioctl *)
(** The memory at the argument, read as each of the types the calls take; and what is written there. *)
Record termios := Termios { t_iflag : Z; t_oflag : Z; t_cflag : Z; t_lflag : Z; t_cc : list Z }.
Record ioctl_arg := IoctlArg { as_word : Z; as_termios : termios; as_winsize : Z * Z * Z * Z }.
Inductive ioctl_out := Nothing | Word (w : Z) | TermiosOut (t : termios) | Winsize (w : Z * Z * Z * Z).
Definition with_locked (b : bool) (p : pty) : pty :=
  Pty (pt_in_use p) b (pt_id p) (master_pid p) (fg_pgrp p) (pt_in p) (pt_out p) (c_iflag p) (c_oflag p) (c_cflag p) (c_lflag p) (c_cc p) (winsize p).
Definition with_pgrp (g : Z) (p : pty) : pty :=
  Pty (pt_in_use p) (locked p) (pt_id p) (master_pid p) g (pt_in p) (pt_out p) (c_iflag p) (c_oflag p) (c_cflag p) (c_lflag p) (c_cc p) (winsize p).
Definition with_termios (t : termios) (p : pty) : pty :=
  Pty (pt_in_use p) (locked p) (pt_id p) (master_pid p) (fg_pgrp p) (pt_in p) (pt_out p) (t_iflag t) (t_oflag t) (t_cflag t) (t_lflag t) (t_cc t) (winsize p).
Definition with_winsize (w : Z * Z * Z * Z) (p : pty) : pty :=
  Pty (pt_in_use p) (locked p) (pt_id p) (master_pid p) (fg_pgrp p) (pt_in p) (pt_out p) (c_iflag p) (c_oflag p) (c_cflag p) (c_lflag p) (c_cc p) w.
Definition with_pgid (g : Z) (t : ptask) : ptask :=
  PTask (pid t) g (euid t) (groups t) (cwd t) (from_user t) (fds t) (kbd_q t) (kbd_qh t) (kbd_qt t).
Definition or_default (x d : Z) : Z := if x =? 0 then d else x.
Definition is_tcset (cmd : Z) : bool := (cmd =? TCSETS) || (cmd =? TCSETSW) || (cmd =? TCSETSF).
Definition default_termios : termios := Termios 1280 5 191 35387 ([3; 28; 127; 21; 4; 0; 0; 0; 0; 0; 26] ++ replicate 21 0).

(** The commands of a terminal; [None] for the others. *)
Definition pty_ioctl s (t : ptask) (i cmd arg : Z) (a : ioctl_arg) : option (kstate D * Z * ioctl_out) :=
  let p := pty_at s i in
  let ask n (r : kstate D * Z * ioctl_out) := Some (if negb (uptr range_ok s arg n) then (s, - EINVAL, Nothing) else r) in
  if cmd =? TIOCGPTN then ask 4 (s, 0, Word i)
  else if cmd =? TIOCSPTLCK then ask 4 (put_pty i (with_locked (negb (as_word a =? 0)) p) s, 0, Nothing)
  else if cmd =? TCGETS then ask SIZEOF_TERMIOS (s, 0, TermiosOut (Termios (c_iflag p) (c_oflag p) (c_cflag p) (c_lflag p) (c_cc p)))
  else if is_tcset cmd then ask SIZEOF_TERMIOS (put_pty i (with_termios (as_termios a) p) s, 0, Nothing)
  else if cmd =? TIOCGWINSZ then
    let '(r, c, x, y) := winsize p in
    ask 8 (s, 0, Winsize (or_default r 25, or_default c 80, or_default x 640, or_default y 400))
  else if cmd =? TIOCSWINSZ then
    ask 8 (tell (if negb (fg_pgrp p =? 0) then [Signal (fg_pgrp p) 28] else []) (put_pty i (with_winsize (as_winsize a) p) s), 0, Nothing)
  else if cmd =? TIOCGPGRP then ask 4 (s, 0, Word (or_default (fg_pgrp p) (pid t)))
  else if cmd =? TIOCSPGRP then ask 4 (put_pty i (with_pgrp (as_word a) p) s, 0, Nothing)
  else None.
Definition linux_ioctl s (fd cmd arg : Z) (a : ioctl_arg) : call (kstate D * Z * ioctl_out) :=
  match cur s with
  | None => Done (s, - EBADF, Nothing)
  | Some t =>
    let f := fd_get s fd in
    match (match f with
           | Some f => if is_ft f FD_TYPE_PTY_MASTER || is_ft f FD_TYPE_PTY_SLAVE then pty_ioctl s t (pty_id f) cmd arg a else None
           | None => None end) with
    | Some r => Done r
    | None =>
      let ask n (r : call (kstate D * Z * ioctl_out)) := if negb (uptr range_ok s arg n) then Done (s, - EINVAL, Nothing) else r in
      if cmd =? TCGETS then ask SIZEOF_TERMIOS (Done (s, 0, TermiosOut default_termios))
      else if is_tcset cmd then Done (s, 0, Nothing)
      else if cmd =? TIOCGWINSZ then ask 8 (Done (s, 0, Winsize (25, 80, 640, 400)))
      else if cmd =? TIOCSWINSZ then Done (s, 0, Nothing)
      else if cmd =? TIOCGPGRP then ask 4 (Done (s, 0, Word (or_default (pgid t) (pid t))))
      else if cmd =? TIOCSPGRP then ask 4 (Done (upd_cur (with_pgid (as_word a)) s, 0, Nothing))
      else if cmd =? FIONREAD then
        ask 4 (match f with
               | Some f =>
                 if is_pipe f && negb (fpipe f =? 0) then let! p := pipe_at s (fpipe f) in Done (s, 0, Word (rcount (p_ring p)))
                 else Done (s, 0, Word 0)
               | None => Done (s, 0, Word 0) end)
      else if cmd =? FIONBIO then
        ask 4 (match f with
               | Some f =>
                 let v := if negb (as_word a =? 0) then Z.lor (fflags f) O_NONBLOCK else Z.land (fflags f) (u32 (Z.lnot O_NONBLOCK)) in
                 Done (set_fd fd (with_fflags v f) s, 0, Nothing)
               | None => Done (s, 0, Nothing) end)
      else Done (s, 0, Nothing)
    end
  end.
Definition linux_getrandom (seed : Z) s (at_ n : Z) : kstate D * Z * list Z :=
  if (USER_BUF_MAX <? n) || negb (uptr range_ok s at_ n) then (s, - EINVAL, [])
  else let '(x, l) := rand_bytes (Z.to_nat n) seed (rand_state s) n in (with_rand x s, n, l).

(** ** Directory listings *)
Definition dt_of (t : vnode_type) : Z := if is_vt t VN_DIR then 4 else if is_vt t VN_SYMLINK then 10 else 8.
Definition rec_len (nm : list Z) : Z := Z.land (19 + len nm + 1 + 7) (Z.lnot 7).
(** The bytes a record writes: inode, next offset, length, type, name. What pads
    it to eight bytes is left as it was. *)
Definition dirent64 (off a : Z) (v : vnode) : list Z :=
  let n := rec_len (name v) in
  word_bytes (if ino v =? 0 then a else ino v) ++ word_bytes (off + n) ++ [u8 n; u8 (Z.shiftr n 8)] ++ [dt_of (type v)] ++ name v ++ [0].
Fixpoint fill_dents (n : nat) (t : vfs D) (c : Z) (buf : list Z) (off : Z) : list Z * Z :=
  match n with
  | O => (buf, off)
  | S n =>
    match node t c with
    | None => (buf, off)
    | Some v =>
      if len buf <? off + rec_len (name v) then (buf, off)
      else fill_dents n t (sibling v) (blit buf off (dirent64 off c v)) (off + rec_len (name v))
    end
  end.
(** The buffer afterwards. *)
Definition linux_getdents64 s (fd : Z) (b : ubuf) : call (Z * list Z) :=
  if negb (uptr range_ok s (u_at b) (len (u_data b))) then Done (- EINVAL, u_data b)
  else
    match fd_get s fd with
    | Some f =>
      if vn f =? 0 then Done (- EBADF, u_data b)
      else
        let! v := vnode_at s (vn f) in
        if negb (is_vt (type v) VN_DIR) then Done (- EBADF, u_data b)
        else let '(buf, off) := fill_dents (walk_fuel (tree s)) (tree s) (child v) (u_data b) 0 in Done (off, buf)
    | None => Done (- EBADF, u_data b)
    end.

(** ** Attributes *)
Record stat := Stat { s_type : vnode_type; s_mode : Z; s_size : Z; s_mtime : Z }.
Definition sys_stat s (us : ubuf) (at_ : Z) : call (Z * option stat) :=
  match copy_user_str str_ok s us VFS_MAX_PATH with
  | None => Done (-1, None)
  | Some path =>
    if negb (uptr range_ok s at_ 24) then Done (-1, None)
    else
      let! from := cur_cwd s in
      let! a := look fuel s from path in
      if a =? 0 then Done (-1, None)
      else let! v := vnode_at s a in Done (0, Some (Stat (type v) (mode v) (size v) (mtime v)))
  end.
Record linux_stat := LStat { st_ino : Z; st_nlink : Z; st_mode : Z; st_uid : Z; st_gid : Z; st_size : Z; st_blksize : Z; st_blocks : Z; st_mtime : Z }.
Definition linux_fill_stat (a : Z) (v : vnode) : linux_stat :=
  LStat (if ino v =? 0 then a else ino v) 1
    (Z.lor (if is_vt (type v) VN_DIR then 16384 else if is_vt (type v) VN_SYMLINK then 40960 else 32768) (Z.land (mode v) 4095))
    (uid v) (gid v) (size v) 4096 (u64 (size v + 511) / 512) (mtime v).
Definition linux_newfstatat s (dirfd : Z) (us : option ubuf) (at_ flags : Z) : call (Z * option linux_stat) :=
  if negb (uptr range_ok s at_ 144) then Done (- EINVAL, None)
  else
    match (match us with Some us => copy_user_str str_ok s us VFS_MAX_PATH | None => Some [] end) with
    | None => Done (- EINVAL, None)
    | Some path =>
      let! (a, rc) := (if streq path [] || negb (Z.land flags AT_EMPTY_PATH =? 0) then
                         if dirfd =? AT_FDCWD then Done (match cur s with Some t => cwd t | None => root_node (tree s) end, 0)
                         else match fd_get s (int_of dirfd) with
                              | Some f => if vn f =? 0 then Done (0, - EBADF) else Done (vn f, 0)
                              | None => Done (0, - EBADF) end
                       else
                         let! base := dir_base s dirfd path in
                         if base =? 0 then Done (0, - EBADF)
                         else let! a := (if negb (Z.land flags AT_SYMLINK_NOFOLLOW =? 0) then look_nofollow fuel s base path
                                         else look fuel s base path) in Done (a, 0)) in
      if negb (rc =? 0) then Done (rc, None)
      else if a =? 0 then Done (- ENOENT, None)
      else let! v := vnode_at s a in Done (0, Some (linux_fill_stat a v))
    end.
Definition sys_getcwd s (at_ cap : Z) : call (Z * list Z) :=
  if negb (uptr range_ok s at_ cap) then Done (-1, [])
  else
    let! c := cur_cwd s in
    Done (match vfs_path_of (tree s) c cap with Some p => (len p, p) | None => (-1, []) end).

Definition set_acl (l : list (Z * Z)) (v : vnode) : vnode :=
  Vnode (name v) (type v) (ino v) (size v) (cap v) (data v) (mtime v) (refs v) (uid v) (gid v) (mode v) l true
    (dirty_b0 v) (dirty_b1 v) (parent v) (child v) (sibling v).
Definition set_mtime (m : Z) (v : vnode) : vnode :=
  Vnode (name v) (type v) (ino v) (size v) (cap v) (data v) m (refs v) (uid v) (gid v) (mode v) (acl v) (dirty v)
    (dirty_b0 v) (dirty_b1 v) (parent v) (child v) (sibling v).
Fixpoint acl_index (l : list (Z * Z)) (u : Z) : option nat :=
  match l with [] => None | (x, _) :: l => if x =? u then Some O else S <$> acl_index l u end.
(** The list after the call; [None]: it is full. *)
Definition acl_change (l : list (Z * Z)) (u mask : Z) : option (list (Z * Z)) :=
  match acl_index (take (Z.to_nat VFS_ACL_MAX) l) u with
  | Some k =>
    if mask =? 0 then Some (match last l with Some x => removelast (<[k := x]> l) | None => l end)
    else Some (<[k := (u, Z.land mask PERM_RWX)]> l)
  | None => if mask =? 0 then Some l else if VFS_ACL_MAX <=? len l then None else Some (l ++ [(u, Z.land mask PERM_RWX)])
  end.
Definition sys_acl s (us : ubuf) (u mask : Z) : call (kstate D * Z) :=
  match copy_user_str str_ok s us VFS_MAX_PATH with
  | None => Done (s, -1)
  | Some path =>
    let! from := cur_cwd s in
    let! a := look fuel s from path in
    if a =? 0 then Done (s, -1)
    else
      let! v := vnode_at s a in
      let euid := match cur s with Some t => euid t | None => 0 end in
      if g_sys_from_user s && negb (euid =? 0) && negb (uid v =? euid) then Done (s, -1)
      else
        match acl_change (acl v) u mask with
        | None => Done (s, -1)
        | Some l =>
          (* nothing to remove: nothing is written *)
          if (mask =? 0) && match acl_index (take (Z.to_nat VFS_ACL_MAX) (acl v)) u with None => true | Some _ => false end then Done (s, 0)
          else Done (set_vnode a (set_acl l v) s, 0)
        end
  end.

Definition linux_faccessat s (dirfd : Z) (us : ubuf) (m flags : Z) : call Z :=
  match copy_user_str str_ok s us VFS_MAX_PATH with
  | None => Done (- EINVAL)
  | Some path =>
    let! base := dir_base s dirfd path in
    if base =? 0 then Done (- EBADF)
    else
      let! a := (if negb (Z.land flags AT_SYMLINK_NOFOLLOW =? 0) then look_nofollow fuel s base path else look fuel s base path) in
      Done (check_access s a m)
  end.
Definition linux_mknodat (e : venv) s (dirfd : Z) (us : ubuf) (m : Z) := linux_openat str_ok fuel e s dirfd us (Z.lor O_CREAT O_RDWR) m.
Definition linux_mknod (e : venv) s (us : ubuf) (m : Z) := linux_mknodat e s AT_FDCWD us m.
Definition linux_utimensat (now : rtc_time) s (us : option ubuf) (tsp : Z * Z) : call (kstate D * Z) :=
  match us with
  | None => Done (s, 0)
  | Some us =>
    match copy_user_str str_ok s us VFS_MAX_PATH with
    | None => Done (s, - EINVAL)
    | Some path =>
      let! a := look fuel s (cwd_or_null s) path in
      if a =? 0 then Done (s, - ENOENT)
      else
        let! v := vnode_at s a in
        let m := if negb (fst tsp =? 0) && uptr range_ok s (fst tsp) 32 then u64 (snd tsp) else linux_epoch_seconds now in
        Done (set_vnode a (set_mtime m v) s, 0)
    end
  end.
Definition linux_futimesat := linux_utimensat.
Definition linux_utimes := linux_utimensat.
Definition linux_utime := linux_utimensat.

(** ** Notifications and the clipboard *)
(** The C string in a slot of 128 bytes of which the last is never written. *)
Definition sys_notify s (us : ubuf) (g : ring16) : ring16 * Z :=
  match copy_user_str str_ok s us NOTIFY_LEN with
  | None => (g, -1)
  | Some [] => (g, -1)
  | Some m =>
    let next := (n_head g + 1) mod NOTIFY_RING in
    let tail := if next =? n_tail g then (n_tail g + 1) mod NOTIFY_RING else n_tail g in
    (Notify (<[Z.to_nat (n_head g) := take (Z.to_nat (NOTIFY_LEN - 1)) m]> (slots g)) next tail, 0)
  end.
(** The bytes written to the buffer, the terminator among them if it fits. *)
Definition sys_notify_poll s (at_ cap : Z) (g : ring16) : ring16 * Z * list Z :=
  if negb (uptr range_ok s at_ cap) then (g, -1, [])
  else
    let cap := if NOTIFY_LEN <? cap then NOTIFY_LEN else cap in
    if n_tail g =? n_head g then (g, 0, [])
    else
      let m := nth (Z.to_nat (n_tail g)) (slots g) [] in
      (Notify (slots g) (n_head g) ((n_tail g + 1) mod NOTIFY_RING), len m, take (Z.to_nat cap) (m ++ [0])).
Definition sys_clipboard_set s (us : ubuf) (c : list Z) : list Z * Z :=
  match copy_user_str str_ok s us CLIP_MAX with
  | None => (c, -1)
  | Some m => (take (Z.to_nat (CLIP_MAX - 1)) m, 0)
  end.
Definition sys_clipboard_get s (at_ cap : Z) (c : list Z) : Z * list Z :=
  if negb (uptr range_ok s at_ cap) then (-1, [])
  else
    let n := if cap <=? len c then (if cap =? 0 then 0 else cap - 1) else len c in
    (len c, take (Z.to_nat n) c ++ (if cap =? 0 then [] else [0])).
End More.
