(* ===== verification/FdProps.v ===== *)
(** * Properties of descriptors, pipes and files

    The invariant of the descriptor tables over every sequence of calls, forks and
    exits, with pipes as counted objects: a pipe lives as long as a descriptor
    holds one of its ends, reading ends when no writer is left, and writing
    fails when no reader is. *)
From Stdlib Require Import ZArith Lia Bool String.
From stdpp Require Import base list numbers option gmap.
From S2P Require Import Prelude Vfs Fd Files.
#[local] Set Default Goal Selector "!".
Open Scope Z_scope.
Open Scope carray_scope.

(** ** Rings as queues *)
Record ring_ok (r : ring) : Prop := {
  ro_len : len (rbuf r) = PIPE_BUF_SIZE;
  ro_tail : 0 <= rtail r < PIPE_BUF_SIZE;
  ro_count : 0 <= rcount r <= PIPE_BUF_SIZE;
  ro_head : rhead r = (rtail r + rcount r) mod PIPE_BUF_SIZE }.
Definition queue (r : ring) : list Z := map (fun k => (rbuf r).[(rtail r + k) mod PIPE_BUF_SIZE]) (seqZ 0 (rcount r)).
Lemma len_queue r : ring_ok r -> len (queue r) = rcount r.
Proof. intros [_ _ H _]. unfold len, queue. rewrite length_map, length_seqZ. lia. Qed.
Lemma empty_ring_ok : ring_ok empty_ring /\ queue empty_ring = [].
Proof. split; [split; (done || vm_compute; (reflexivity || (split; discriminate)))|done]. Qed.

Lemma ring_put_spec r b : ring_ok r -> rcount r < PIPE_BUF_SIZE ->
  ring_ok (ring_put r b) /\ queue (ring_put r b) = queue r ++ [b].
Proof.
  intros [L T C H] Hc. unfold PIPE_BUF_SIZE in *. split.
  - split; unfold ring_put, PIPE_BUF_SIZE; cbn [rbuf rtail rcount rhead]; [by rewrite len_updZ|lia|lia|].
    rewrite H, Zplus_mod_idemp_l. f_equal. lia.
  - unfold queue, ring_put, PIPE_BUF_SIZE. cbn [rbuf rtail rcount rhead].
    rewrite seqZ_app by lia. rewrite map_app. cbn [map seqZ]. f_equal.
    + apply list_fmap_ext. intros i k Hk%lookup_seqZ. rewrite nthZ_updZ_ne; [done|Z.div_mod_to_equations; lia|Z.div_mod_to_equations; lia|].
      rewrite H. Z.div_mod_to_equations; lia.
    + change (seqZ (0 + rcount r) 1) with [0 + rcount r]. cbn [map]. rewrite Z.add_0_l, <- H, nthZ_updZ_eq; [done|].
      rewrite H. Z.div_mod_to_equations; lia.
Qed.

Lemma ring_drop_spec r : ring_ok r -> 0 < rcount r ->
  ring_ok (ring_drop r) /\ queue r = ring_byte r :: queue (ring_drop r).
Proof.
  intros [L T C H] Hc. unfold PIPE_BUF_SIZE in *. split.
  - split; unfold ring_drop, PIPE_BUF_SIZE; cbn [rbuf rtail rcount rhead]; [done|Z.div_mod_to_equations; lia|lia|].
    rewrite H, Zplus_mod_idemp_l. f_equal. lia.
  - unfold queue, ring_drop, ring_byte, PIPE_BUF_SIZE. cbn [rbuf rtail rcount rhead].
    rewrite (seqZ_cons 0) by lia. cbn [map]. rewrite Z.add_0_r, (Z.mod_small (rtail r)) by lia. f_equal.
    change (Z.succ 0) with (1 + 0). rewrite <- (fmap_add_seqZ 1 0). replace (Z.pred (rcount r)) with (rcount r - 1) by lia.
    unfold fmap. rewrite <- list_fmap_compose. apply list_fmap_ext. intros i k _. unfold compose.
    f_equal. rewrite Zplus_mod_idemp_l. f_equal. lia.
Qed.

Lemma ring_puts_spec d : forall r, ring_ok r -> len d + rcount r <= PIPE_BUF_SIZE ->
  ring_ok (fold_left ring_put d r) /\ queue (fold_left ring_put d r) = queue r ++ d.
Proof.
  induction d as [|b d IH]; intros r Hr Hd; cbn [fold_left]; [by rewrite app_nil_r|]. unfold len in *. cbn [length] in *.
  destruct (ring_put_spec r b Hr) as [H1 H2]; [lia|]. destruct (IH _ H1) as [H3 H4]; [change (rcount (ring_put r b)) with (rcount r + 1); lia|].
  split; [done|]. rewrite H4, H2, <- app_assoc. done.
Qed.

Lemma ring_read_spec n : forall r l r', ring_ok r -> ring_read n r = (l, r') ->
  ring_ok r' /\ queue r = l ++ queue r' /\ len l = Z.min (Z.of_nat n) (rcount r).
Proof.
  induction n as [|n IH]; intros r l r' Hr E; cbn [ring_read] in E.
  - injection E as <- <-. splits; auto. destruct Hr as [_ _ Hc _]. unfold len. cbn [length]. lia.
  - destruct (Z.ltb_spec 0 (rcount r)) as [Hc|Hc].
    + destruct (ring_drop_spec r Hr Hc) as [H1 H2]. destruct (ring_read n (ring_drop r)) as [l' r''] eqn:Er.
      injection E as <- <-. destruct (IH _ _ _ H1 Er) as (H3 & H4 & H5). splits; auto.
      * by rewrite H2, H4.
      * change (rcount (ring_drop r)) with (rcount r - 1) in H5. unfold len in *. cbn [length]. lia.
    + injection E as <- <-. splits; auto. destruct Hr as [_ _ Hc2 _]. unfold len. cbn [length]. lia.
Qed.

(** ** Counting descriptors *)
(** The references an entry is worth: to the pipe at [a], and to one of its ends. *)
Definition w_ref (a : Z) (f : fd_entry) : Z := if in_use f && is_pipe f && (fpipe f =? a) then 1 else 0.
Definition w_end (reader : bool) (a : Z) (f : fd_entry) : Z :=
  if in_use f && is_pipe f && (fpipe f =? a) && eqb (read_end f) reader then 1 else 0.
Definition fd_sum (w : fd_entry -> Z) (l : list fd_entry) : Z := foldr (fun f n => w f + n) 0 l.

Lemma fd_sum_app w a b : fd_sum w (a ++ b) = fd_sum w a + fd_sum w b.
Proof. unfold fd_sum. induction a as [|x a IH]; cbn; [done|]. rewrite IH. lia. Qed.
Lemma fd_sum_insert w l i f x : l !! i = Some x -> fd_sum w (<[i := f]> l) = fd_sum w l - w x + w f.
Proof.
  intros Hx. rewrite <- (take_drop_middle l i x Hx) at 2. rewrite insert_take_drop by (by eapply lookup_lt_Some).
  rewrite !fd_sum_app. unfold fd_sum. cbn. lia.
Qed.
Lemma fd_sum_nonneg w l : (forall f, 0 <= w f) -> 0 <= fd_sum w l.
Proof. intros H. unfold fd_sum. induction l as [|x l IH]; cbn; [done|]. specialize (H x). lia. Qed.
Lemma fd_sum_zero w l : (forall f, f ∈ l -> w f = 0) -> fd_sum w l = 0.
Proof. unfold fd_sum. induction l as [|x l IH]; intros H; cbn; [done|]. rewrite H by left. rewrite IH; [done|]. intros f Hf. apply H. by right. Qed.
Lemma fd_sum_in w l f : (forall f, 0 <= w f) -> f ∈ l -> w f <= fd_sum w l.
Proof.
  intros H Hf. induction l as [|x l IH]; [by apply not_elem_of_nil in Hf|]. pose proof (fd_sum_nonneg w l H). pose proof (H x).
  change (fd_sum w (x :: l)) with (w x + fd_sum w l). apply elem_of_cons in Hf as [->|Hf]; [lia|]. specialize (IH Hf). lia.
Qed.

Definition total (w : fd_entry -> Z) (m : gmap Z ptask) : Z := map_fold (fun _ t n => fd_sum w (fds t) + n) 0 m.
Lemma total_fresh w m k t : m !! k = None -> total w (<[k := t]> m) = fd_sum w (fds t) + total w m.
Proof. intros H. unfold total. rewrite map_fold_insert_L; [done| |done]. intros. lia. Qed.
Lemma total_delete w m k t : m !! k = Some t -> total w m = fd_sum w (fds t) + total w (delete k m).
Proof. intros H. rewrite <- (total_fresh w (delete k m) k t) by apply lookup_delete_eq. by rewrite insert_delete_id. Qed.
Lemma total_update w m k t t' : m !! k = Some t -> total w (<[k := t']> m) = total w m - fd_sum w (fds t) + fd_sum w (fds t').
Proof.
  intros H. rewrite <- insert_delete_eq, (total_fresh w (delete k m) k t') by apply lookup_delete_eq. rewrite (total_delete w m k t H). lia.
Qed.
Lemma total_task w m k t : (forall f, 0 <= w f) -> m !! k = Some t -> fd_sum w (fds t) <= total w m.
Proof.
  intros Hw H. rewrite (total_delete w m k t H).
  assert (0 <= total w (delete k m)); [|lia]. generalize (delete k m). intros m'. clear -Hw.
  induction m' as [|i x m' Hi IH] using map_ind; [done|]. rewrite total_fresh by done. pose proof (fd_sum_nonneg w (fds x) Hw). lia.
Qed.

Lemma w_ref_nonneg a f : 0 <= w_ref a f.
Proof. unfold w_ref. by destruct (_ && _). Qed.
Lemma w_end_nonneg b a f : 0 <= w_end b a f.
Proof. unfold w_end. by destruct (_ && _). Qed.

(** ** The invariant *)
(** An entry is a pipe's end, or holds nothing of a pipe; a free one is a file's. *)
Record fd_ok (f : fd_entry) : Prop := {
  fo_pipe : is_pipe f = true -> ftype f = FD_TYPE_FILE /\ in_use f = true /\ fpipe f <> 0;
  fo_plain : is_pipe f = false -> fpipe f = 0;
  fo_type : ftype f <> FD_TYPE_PIPE;
  fo_free : in_use f = false -> ftype f = FD_TYPE_FILE }.

(** A pipe counts at least the descriptors there are, in [exact] histories exactly those. *)
Definition counted (exact : bool) (n real : Z) : Prop := if exact then n = real else real <= n.
Record pipe_ok (exact : bool) (m : gmap Z ptask) (a : Z) (p : pipe) : Prop := {
  po_refs : counted exact (p_refs p) (total (w_ref a) m);
  po_read : counted exact (read_ends p) (total (w_end true a) m);
  po_write : counted exact (write_ends p) (total (w_end false a) m);
  po_ring : ring_ok (p_ring p);
  po_addr : a <> 0 }.

Section Inv.
Context {D : Type} (exact : bool).
Implicit Types s : kstate D.
Record inv s : Prop := {
  iv_fds : forall k t, tasks s !! k = Some t -> length (fds t) = Z.to_nat MAX_FD /\ Forall fd_ok (fds t);
  iv_live : forall k t f, tasks s !! k = Some t -> f ∈ fds t -> is_pipe f = true -> is_Some (pipes s !! fpipe f);
  iv_pipes : forall a p, pipes s !! a = Some p -> pipe_ok exact (tasks s) a p }.

Lemma inv_frame s s' : tasks s' = tasks s -> pipes s' = pipes s -> inv s -> inv s'.
Proof. intros E1 E2 [H1 H2 H3]. split; rewrite ?E1, ?E2; auto. Qed.

(** The entry of a valid descriptor. *)
Lemma entry_lookup s t fd : inv s -> cur s = Some t -> 0 <= fd < MAX_FD -> fds t !! Z.to_nat fd = Some (fd_entry_at t fd).
Proof.
  intros [H1 _ _] Ht Hfd. destruct (H1 _ _ Ht) as [Hl _]. unfold fd_entry_at.
  destruct (lookup_lt_is_Some_2 (fds t) (Z.to_nat fd)) as [x Hx]; [unfold MAX_FD in *; lia|]. by rewrite (nth_lookup_Some _ _ _ _ Hx).
Qed.
Lemma fd_get_spec s fd f : inv s -> fd_get s fd = Some f ->
  exists t, cur s = Some t /\ 0 <= fd < MAX_FD /\ fds t !! Z.to_nat fd = Some f /\ in_use f = true /\ fd_ok f.
Proof.
  intros I E. unfold fd_get in E. destruct (cur s) as [t|] eqn:Ec; [|done].
  destruct (Z.ltb_spec fd 0), (Z.leb_spec MAX_FD fd); cbn [orb] in E; try done.
  destruct (in_use (fd_entry_at t fd)) eqn:Eu; [|done]. injection E as <-.
  exists t. assert (fds t !! Z.to_nat fd = Some (fd_entry_at t fd)) as Hl by (eapply entry_lookup; eauto).
  do 2 (split; [done || lia|]). split; [done|]. split; [done|]. destruct (iv_fds _ I _ _ Ec) as [_ Hf]. rewrite Forall_lookup in Hf. by apply (Hf (Z.to_nat fd)).
Qed.

(** An entry replaced. *)
Definition task_after s fd f (t : ptask) : gmap Z ptask := <[me s := with_fds (<[Z.to_nat fd := f]> (fds t)) t]> (tasks s).
Lemma tasks_set_fd s fd f t : cur s = Some t -> tasks (set_fd fd f s) = task_after s fd f t.
Proof.
  intros Ht. unfold set_fd, upd_cur, task_after. cbn. apply map_eq. intros k. destruct (decide (k = me s)) as [->|Hk].
  - rewrite lookup_alter_eq, lookup_insert_eq. unfold cur in Ht. by rewrite Ht.
  - by rewrite lookup_alter_ne, lookup_insert_ne by done.
Qed.
Lemma total_set_fd w s fd f t x : cur s = Some t -> fds t !! Z.to_nat fd = Some x ->
  total w (tasks (set_fd fd f s)) = total w (tasks s) - w x + w f.
Proof.
  intros Ht Hx. rewrite (tasks_set_fd _ _ _ _ Ht). unfold task_after. rewrite (total_update _ _ _ _ _ Ht). cbn [fds with_fds].
  rewrite (fd_sum_insert _ _ _ _ _ Hx). lia.
Qed.
Lemma fds_set_fd s fd f t k t' : cur s = Some t -> tasks (set_fd fd f s) !! k = Some t' ->
  tasks s !! k = Some t' \/ (k = me s /\ t' = with_fds (<[Z.to_nat fd := f]> (fds t)) t).
Proof.
  intros Ht. rewrite (tasks_set_fd _ _ _ _ Ht). unfold task_after. destruct (decide (k = me s)) as [->|Hk].
  - rewrite lookup_insert_eq. intros [= <-]. by right.
  - rewrite lookup_insert_ne by done. by left.
Qed.

(** The totals of the pipe's three counts move together. *)
Lemma w_plain a b f : is_pipe f = false -> w_ref a f = 0 /\ w_end b a f = 0.
Proof. intros H. unfold w_ref, w_end. rewrite H, !andb_false_r. done. Qed.
Lemma w_mine f b : is_pipe f = true -> in_use f = true ->
  w_ref (fpipe f) f = 1 /\ w_end b (fpipe f) f = if eqb (read_end f) b then 1 else 0.
Proof. intros H1 H2. unfold w_ref, w_end. rewrite H1, H2, Z.eqb_refl. done. Qed.
Lemma w_other a b f : fpipe f <> a -> w_ref a f = 0 /\ w_end b a f = 0.
Proof. intros H. unfold w_ref, w_end. rewrite (proj2 (Z.eqb_neq _ _)), !andb_false_r by done. done. Qed.

Lemma counted_shift n real d : counted exact n real -> counted exact (n + d) (real + d).
Proof. unfold counted. destruct exact; lia. Qed.

(** An entry that comes: what it needs of the tables around it. *)
Lemma fds_ok_set s fd f t k t' : inv s -> cur s = Some t -> fd_ok f -> tasks (set_fd fd f s) !! k = Some t' ->
  length (fds t') = Z.to_nat MAX_FD /\ Forall fd_ok (fds t').
Proof.
  intros I Ht Hf H. destruct (fds_set_fd _ _ _ _ _ _ Ht H) as [H'|[-> ->]]; [by apply (iv_fds _ I k)|].
  destruct (iv_fds _ I _ _ Ht) as [L F]. cbn [fds with_fds]. split; [by rewrite length_insert|by apply Forall_insert].
Qed.
Lemma elem_set s fd f t k t' g : cur s = Some t -> tasks (set_fd fd f s) !! k = Some t' -> g ∈ fds t' ->
  g = f \/ exists t0, tasks s !! k = Some t0 /\ g ∈ fds t0.
Proof.
  intros Ht H Hg. destruct (fds_set_fd _ _ _ _ _ _ Ht H) as [H'|[-> ->]]; [eauto|].
  cbn [fds with_fds] in Hg. apply list_elem_of_lookup in Hg as (i & Hi). apply list_lookup_insert_Some in Hi as [(_ & -> & _)|(_ & Hi)]; [by left|].
  right. exists t. split; [done|]. by apply list_elem_of_lookup_2 in Hi.
Qed.

(** A pipe-free entry for another. *)
Lemma inv_set_plain s fd f x t : inv s -> cur s = Some t -> fds t !! Z.to_nat fd = Some x -> is_pipe x = false ->
  fd_ok f -> is_pipe f = false -> inv (set_fd fd f s).
Proof.
  intros I Ht Hx Px Hf Pf. split.
  - intros k t' H. by eapply fds_ok_set.
  - intros k t' g H Hg Pg. destruct (elem_set _ _ _ _ _ _ _ Ht H Hg) as [->|(t0 & H0 & Hg0)]; [congruence|]. by apply (iv_live _ I k t0 g).
  - intros a p Hp. destruct (iv_pipes _ I a p Hp) as [R1 R2 R3 R4 R5]. split; auto;
      rewrite (total_set_fd _ _ _ _ _ _ Ht Hx).
    + destruct (w_plain a true x Px) as [-> _], (w_plain a true f Pf) as [-> _]. by rewrite Z.sub_0_r, Z.add_0_r.
    + destruct (w_plain a true x Px) as [_ ->], (w_plain a true f Pf) as [_ ->]. by rewrite Z.sub_0_r, Z.add_0_r.
    + destruct (w_plain a false x Px) as [_ ->], (w_plain a false f Pf) as [_ ->]. by rewrite Z.sub_0_r, Z.add_0_r.
Qed.

(** A pipe whose ring changed. *)
Lemma inv_ring s a p r : inv s -> pipes s !! a = Some p -> ring_ok r ->
  inv (put_pipe a (Pipe r (p_refs p) (read_ends p) (write_ends p)) s).
Proof.
  intros I Hp Hr. split.
  - apply I.
  - intros k t f Ht Hf Pf. cbn. destruct (decide (fpipe f = a)) as [->|Hn]; [rewrite lookup_insert_eq; eauto|].
    rewrite lookup_insert_ne by done. by apply (iv_live _ I k t).
  - intros a' p' Hp'. cbn in Hp'. destruct (decide (a' = a)) as [->|Hn].
    + rewrite lookup_insert_eq in Hp'. injection Hp' as <-. destruct (iv_pipes _ I a p Hp). by split.
    + rewrite lookup_insert_ne in Hp' by done. by apply (iv_pipes _ I).
Qed.

(** One more end of a pipe. *)
Lemma inv_share s fd f x t p : inv s -> cur s = Some t -> fds t !! Z.to_nat fd = Some x -> is_pipe x = false ->
  fd_ok f -> is_pipe f = true -> pipes s !! fpipe f = Some p -> inv (set_fd fd f (put_pipe (fpipe f) (pipe_ref (read_end f) p) s)).
Proof.
  intros I Ht Hx Px Hf Pf Hp. set (s1 := put_pipe _ _ s). assert (cur s1 = Some t) as Ht1 by done.
  destruct (fo_pipe _ Hf Pf) as (_ & Uf & _). split.
  - intros k t' H. change (tasks (set_fd fd f s1)) with (tasks (set_fd fd f s)) in H. by eapply fds_ok_set.
  - intros k t' g H Hg Pg. change (pipes (set_fd fd f s1)) with (<[fpipe f := pipe_ref (read_end f) p]> (pipes s)).
    destruct (decide (fpipe g = fpipe f)) as [->|Hn]; [rewrite lookup_insert_eq; eauto|]. rewrite lookup_insert_ne by done.
    destruct (elem_set _ _ _ _ _ _ _ Ht1 H Hg) as [->|(t0 & H0 & Hg0)]; [done|]. by apply (iv_live _ I k t0 g).
  - intros a q Hq. change (pipes (set_fd fd f s1)) with (<[fpipe f := pipe_ref (read_end f) p]> (pipes s)) in Hq.
    change (tasks (set_fd fd f s1)) with (tasks (set_fd fd f s)).
    destruct (decide (a = fpipe f)) as [->|Hn].
    + rewrite lookup_insert_eq in Hq. injection Hq as <-. destruct (iv_pipes _ I _ _ Hp) as [R1 R2 R3 R4 R5].
      destruct (w_plain (fpipe f) true x Px) as [E1 E2], (w_plain (fpipe f) false x Px) as [_ E3].
      destruct (w_mine f true Pf Uf) as [F1 F2], (w_mine f false Pf Uf) as [_ F3].
      split; auto; rewrite (total_set_fd _ _ _ _ _ _ Ht Hx); unfold pipe_ref; cbn [p_refs read_ends write_ends].
      * rewrite E1, F1, Z.sub_0_r. by apply counted_shift.
      * rewrite E2, F2, Z.sub_0_r. destruct (read_end f); cbn [eqb]; [by apply counted_shift|by rewrite Z.add_0_r].
      * rewrite E3, F3, Z.sub_0_r. destruct (read_end f); cbn [eqb]; [by rewrite Z.add_0_r|by apply counted_shift].
    + rewrite lookup_insert_ne in Hq by done. destruct (iv_pipes _ I _ _ Hq) as [R1 R2 R3 R4 R5].
      destruct (w_plain a true x Px) as [E1 E2], (w_plain a false x Px) as [_ E3].
      destruct (w_other a true f) as [F1 F2]; [done|]. destruct (w_other a false f) as [_ F3]; [done|].
      split; auto; rewrite (total_set_fd _ _ _ _ _ _ Ht Hx); rewrite ?E1, ?E2, ?E3, ?F1, ?F2, ?F3, Z.sub_0_r, Z.add_0_r; done.
Qed.

(** One end less. *)
Lemma inv_drop s fd f x t p : inv s -> cur s = Some t -> fds t !! Z.to_nat fd = Some x -> is_pipe x = true ->
  fd_ok f -> is_pipe f = false -> pipes s !! fpipe x = Some p -> inv (set_fd fd f (pipe_put (fpipe x) (drop_end (read_end x) p) s)).
Proof.
  intros I Ht Hx Px Hf Pf Hp. set (s1 := pipe_put _ _ s).
  assert (tasks s1 = tasks s /\ me s1 = me s) as [Et Em] by (unfold s1, pipe_put; by case_match).
  assert (cur s1 = Some t) as Ht1 by (unfold cur; by rewrite Et, Em).
  assert (tasks (set_fd fd f s1) = tasks (set_fd fd f s)) as Ets by (rewrite !(tasks_set_fd _ _ _ t) by done; unfold task_after; by rewrite Et, Em).
  destruct (iv_fds _ I _ _ Ht) as [_ Fo]. rewrite Forall_lookup in Fo. destruct (fo_pipe _ (Fo _ _ Hx) Px) as (_ & Ux & _).
  destruct (iv_pipes _ I _ _ Hp) as [R1 R2 R3 R4 R5].
  destruct (w_mine x true Px Ux) as [X1 X2], (w_mine x false Px Ux) as [_ X3].
  assert (forall a, total (w_ref a) (tasks (set_fd fd f s)) = total (w_ref a) (tasks s) - w_ref a x) as T1.
  { intros a. rewrite (total_set_fd _ _ _ _ _ _ Ht Hx). destruct (w_plain a true f Pf) as [-> _]. lia. }
  assert (forall b a, total (w_end b a) (tasks (set_fd fd f s)) = total (w_end b a) (tasks s) - w_end b a x) as T2.
  { intros b a. rewrite (total_set_fd _ _ _ _ _ _ Ht Hx). destruct (w_plain a b f Pf) as [_ ->]. lia. }
  assert (1 <= total (w_ref (fpipe x)) (tasks s)) as N1.
  { pose proof (fd_sum_in _ _ _ (w_ref_nonneg (fpipe x)) (list_elem_of_lookup_2 _ _ _ Hx)). pose proof (total_task _ _ _ _ (w_ref_nonneg (fpipe x)) Ht). lia. }
  assert (forall b, w_end b (fpipe x) x <= total (w_end b (fpipe x)) (tasks s)) as N2.
  { intros b. pose proof (fd_sum_in _ _ _ (w_end_nonneg b (fpipe x)) (list_elem_of_lookup_2 _ _ _ Hx)).
    pose proof (total_task _ _ _ _ (w_end_nonneg b (fpipe x)) Ht). lia. }
  pose proof (N2 true) as N3. pose proof (N2 false) as N4. rewrite X2 in N3. rewrite X3 in N4.
  assert (forall k t', tasks (set_fd fd f s) !! k = Some t' -> length (fds t') = Z.to_nat MAX_FD /\ Forall fd_ok (fds t')) as Hfds
    by (intros k t' H; by eapply fds_ok_set).
  assert (forall k t' g, tasks (set_fd fd f s) !! k = Some t' -> g ∈ fds t' -> is_pipe g = true -> is_Some (pipes s !! fpipe g)) as Hlive.
  { intros k t' g H Hg Pg. destruct (elem_set _ _ _ _ _ _ _ Ht H Hg) as [->|(t0 & H0 & Hg0)]; [congruence|]. by apply (iv_live _ I k t0 g). }
  assert (forall a q, a <> fpipe x -> pipes s !! a = Some q -> pipe_ok exact (tasks (set_fd fd f s)) a q) as Hother.
  { intros a q Hn Hq. destruct (iv_pipes _ I _ _ Hq) as [Q1 Q2 Q3 Q4 Q5]. destruct (w_other a true x) as [O1 O2]; [done|].
    destruct (w_other a false x) as [_ O3]; [done|]. split; auto; rewrite ?T1, ?T2, ?O1, ?O2, ?O3, Z.sub_0_r; done. }
  split; rewrite Ets; [done| |]; unfold s1, pipe_put; cbn [p_refs drop_end p_ring read_ends write_ends];
    destruct (Z.leb_spec (p_refs p - 1) 0) as [Hz|Hz]; cbn [pipes set_fd upd_cur with_tasks with_pipes put_pipe].
  - intros k t' g H Hg Pg. rewrite lookup_delete_ne; [by eapply Hlive|].
    intros Eg. destruct (Hfds k t' H) as [_ Fo']. rewrite Forall_forall in Fo'. destruct (fo_pipe _ (Fo' _ Hg) Pg) as (_ & Ug & _).
    pose proof (fd_sum_in _ _ _ (w_ref_nonneg (fpipe g)) Hg). pose proof (total_task _ _ _ _ (w_ref_nonneg (fpipe g)) H) as Hle.
    destruct (w_mine g true Pg Ug) as [G1 _]. rewrite <- Eg in *. rewrite T1 in Hle. unfold counted in R1. destruct exact; lia.
  - intros k t' g H Hg Pg. destruct (decide (fpipe g = fpipe x)) as [->|Hn]; [rewrite lookup_insert_eq; eauto|].
    rewrite lookup_insert_ne by done. by eapply Hlive.
  - intros a q Hq. apply lookup_delete_Some in Hq as [Hn Hq]. by apply Hother.
  - intros a q Hq. destruct (decide (a = fpipe x)) as [->|Hn].
    + rewrite lookup_insert_eq in Hq. injection Hq as <-. split; cbn [p_refs read_ends write_ends p_ring]; auto; rewrite ?T1, ?T2.
      * rewrite X1. by apply (counted_shift _ _ (-1)).
      * rewrite X2. destruct (read_end x); cbn [eqb andb negb] in *; [|by rewrite Z.sub_0_r].
        rewrite (proj2 (Z.ltb_lt _ _)) by (unfold counted in R2; destruct exact; lia). by apply (counted_shift _ _ (-1)).
      * rewrite X3. destruct (read_end x); cbn [eqb andb negb] in *; [by rewrite Z.sub_0_r|].
        rewrite (proj2 (Z.ltb_lt _ _)) by (unfold counted in R3; destruct exact; lia). by apply (counted_shift _ _ (-1)).
    + rewrite lookup_insert_ne in Hq by done. by apply Hother.
Qed.

(** The same entry with another position, counter or flags. *)
Definition alike (f g : fd_entry) : Prop :=
  in_use g = in_use f /\ is_pipe g = is_pipe f /\ read_end g = read_end f /\ fpipe g = fpipe f /\ ftype g = ftype f.
Lemma alike_w f g a b : alike f g -> w_ref a g = w_ref a f /\ w_end b a g = w_end b a f.
Proof. intros (E1 & E2 & E3 & E4 & E5). unfold w_ref, w_end. by rewrite E1, E2, E3, E4. Qed.
Lemma alike_ok f g : alike f g -> fd_ok f -> fd_ok g.
Proof. intros (E1 & E2 & E3 & E4 & E5) [H1 H2 H3 H4]. split; rewrite ?E1, ?E2, ?E4, ?E5; auto. Qed.
Lemma inv_set_alike s fd f g : inv s -> fd_get s fd = Some f -> alike f g -> inv (set_fd fd g s).
Proof.
  intros I Hf Ha. destruct (fd_get_spec _ _ _ I Hf) as (t & Ht & _ & Hx & _ & Ok). split.
  - intros k t' H. exact (fds_ok_set s fd g t k t' I Ht (alike_ok f g Ha Ok) H).
  - intros k t' h H Hh Ph. destruct (elem_set _ _ _ _ _ _ _ Ht H Hh) as [->|(t0 & H0 & Hh0)]; [|by apply (iv_live _ I k t0 h)].
    destruct Ha as (_ & E2 & _ & E4 & _). rewrite E4. rewrite E2 in Ph. apply (iv_live _ I (me s) t f); auto. by eapply list_elem_of_lookup_2.
  - intros a p Hp. destruct (iv_pipes _ I a p Hp) as [R1 R2 R3 R4 R5].
    destruct (alike_w f g a true Ha) as [W1 W2], (alike_w f g a false Ha) as [_ W3].
    split; auto; rewrite (total_set_fd _ _ _ _ _ _ Ht Hx); rewrite ?W1, ?W2, ?W3, Z.sub_add; done.
Qed.

Lemma pipe_at_spec s a p : pipe_at s a = Done p -> pipes s !! a = Some p.
Proof. unfold pipe_at. destruct (a =? 0); [done|]. destruct (pipes s !! a); [by intros [= ->]|done]. Qed.
Lemma pipe_at_live s fd f : inv s -> fd_get s fd = Some f -> is_pipe f = true -> exists p, pipe_at s (fpipe f) = Done p /\ pipe_ok exact (tasks s) (fpipe f) p.
Proof.
  intros I Hf Pf. destruct (fd_get_spec _ _ _ I Hf) as (t & Ht & _ & Hx & _ & Ok).
  destruct (iv_live _ I (me s) t f Ht) as [p Hp]; [by eapply list_elem_of_lookup_2|done|].
  exists p. unfold pipe_at. destruct (fo_pipe _ Ok Pf) as (_ & _ & Hn). rewrite (proj2 (Z.eqb_neq _ 0)), Hp by done.
  split; [done|]. by apply iv_pipes.
Qed.
Lemma pipe_fd_spec f : fd_ok f -> pipe_fd f = is_pipe f.
Proof.
  intros Ok. unfold pipe_fd, is_ft. rewrite bool_decide_eq_false_2 by apply (fo_type _ Ok). by rewrite orb_false_r.
Qed.

(** ** close *)
Lemma closed_ok f : fd_ok f -> fd_ok (closed_fd f) /\ is_pipe (closed_fd f) = false.
Proof.
  intros Ok. split; [|done]. split; cbn; try done. intros _. destruct (is_pipe f) eqn:Ep; [done|]. by apply (fo_plain _ Ok).
Qed.
Lemma close_spec s fd f s' rc : inv s -> fd_get s fd = Some f -> sys_close s fd = Done (s', rc) ->
  rc = 0 /\ inv s' /\ tasks s' = tasks (set_fd fd (closed_fd f) s) /\ me s' = me s.
Proof.
  intros I Hf E. destruct (fd_get_spec _ _ _ I Hf) as (t & Ht & _ & Hx & Hu & Ok). unfold sys_close in E. rewrite Hf in E.
  destruct (closed_ok f Ok) as [Ok' P'].
  destruct (is_pipe f) eqn:Ep.
  - destruct (fo_pipe _ Ok Ep) as (_ & _ & Hn). rewrite (proj2 (Z.eqb_neq _ 0)) in E by done. cbn [andb negb] in E.
    destruct (pipe_at s (fpipe f)) as [p|] eqn:Ea; cbn [cbind] in E; [|done]. injection E as <- <-. apply pipe_at_spec in Ea.
    splits; auto; [by eapply inv_drop| |].
    + unfold pipe_put. by case_match.
    + unfold pipe_put. by case_match.
  - cbn [andb] in E. assert (inv (set_fd fd (closed_fd f) s)) as I' by (eapply inv_set_plain; eauto).
    destruct (is_ft f FD_TYPE_PTY_MASTER); cbn [cbind] in E.
    { injection E as <- <-. splits; auto; [|by case_match|by case_match]. eapply inv_frame; [| |exact I']; by case_match. }
    destruct (negb (vn f =? 0)); cbn [cbind] in E.
    { destruct (vnode_at s (vn f)); cbn [cbind] in E; [|done]. injection E as <- <-. splits; auto. by eapply inv_frame; [| |exact I']. }
    injection E as <- <-. by splits.
Qed.

(** ** Copies *)
Lemma free_plain s t fd : inv s -> cur s = Some t -> 0 <= fd < MAX_FD -> in_use (fd_entry_at t fd) = false -> is_pipe (fd_entry_at t fd) = false.
Proof.
  intros I Ht Hfd Hu. destruct (iv_fds _ I _ _ Ht) as [_ Fo]. rewrite Forall_lookup in Fo.
  pose proof (Fo _ _ (entry_lookup _ _ _ I Ht Hfd)) as Ok. destruct (is_pipe (fd_entry_at t fd)) eqn:Ep; [|done].
  destruct (fo_pipe _ Ok Ep) as (_ & H & _). congruence.
Qed.
Lemma copy_spec s f fd x t s' : inv s -> cur s = Some t -> fds t !! Z.to_nat fd = Some x -> is_pipe x = false ->
  fd_ok f -> in_use f = true -> copy_fd f fd s = Done s' -> inv s'.
Proof.
  intros I Ht Hx Px Ok Hu E. unfold copy_fd, share_fd in E.
  assert (with_in_use true f = f) as Ew by (destruct f; cbn in Hu; by rewrite Hu). rewrite Ew in E.
  destruct (is_pipe f) eqn:Ep.
  - destruct (fo_pipe _ Ok Ep) as (_ & _ & Hn). rewrite (proj2 (Z.eqb_neq _ 0)) in E by done. cbn [andb negb] in E.
    destruct (pipe_at s (fpipe f)) as [p|] eqn:Ea; cbn [cbind] in E; [|done]. injection E as <-. apply pipe_at_spec in Ea. by eapply inv_share.
  - cbn [andb] in E. assert (inv (set_fd fd f s)) as I' by (eapply inv_set_plain; eauto).
    destruct (negb (vn f =? 0)); cbn [cbind] in E; [|by injection E as <-].
    destruct (vnode_at s (vn f)); cbn [cbind] in E; [|done]. injection E as <-. by eapply inv_frame; [| |exact I'].
Qed.

Lemma find_hit {A} (P : A -> bool) l x : find P l = Some x -> x ∈ l /\ P x = true.
Proof. intros H. apply find_some in H as [H1 H2]. split; [by apply list_elem_of_In|done]. Qed.
Lemma alloc_spec s m t : cur s = Some t -> 0 <= alloc_fd_from s m ->
  Z.max m 0 <= alloc_fd_from s m < MAX_FD /\ in_use (fd_entry_at t (alloc_fd_from s m)) = false.
Proof.
  intros Ht. unfold alloc_fd_from. rewrite Ht. set (lo := if m <? 0 then 0 else m).
  destruct (find _ _) as [i|] eqn:Ef; cbn [from_option id]; [|intros H; by destruct H]. intros _. apply find_hit in Ef as [Hi Hu].
  apply elem_of_seqZ in Hi. apply negb_true_iff in Hu. split; [|done]. revert Hi. unfold lo. destruct (Z.ltb_spec m 0); lia.
Qed.
Lemma alloc_cur s m : 0 <= alloc_fd_from s m -> exists t, cur s = Some t.
Proof. unfold alloc_fd_from. destruct (cur s) as [t|]; [eauto|lia]. Qed.

(** A copy into a fresh slot. *)
Lemma copy_fresh s f fd0 m s' : inv s -> fd_get s fd0 = Some f -> 0 <= alloc_fd_from s m -> copy_fd f (alloc_fd_from s m) s = Done s' -> inv s'.
Proof.
  intros I Hf Ha E. destruct (fd_get_spec _ _ _ I Hf) as (t & Ht & _ & _ & Hu & Ok). destruct (alloc_spec s m t Ht Ha) as [Hr Hu'].
  apply (copy_spec s f (alloc_fd_from s m) (fd_entry_at t (alloc_fd_from s m)) t); auto.
  - apply (entry_lookup s); auto. lia.
  - apply (free_plain s); auto. lia.
Qed.
Lemma dup_spec s fd s' r : inv s -> linux_dup s fd = Done (s', r) -> inv s'.
Proof.
  intros I E. unfold linux_dup in E. destruct (fd_get s fd) as [f|] eqn:Ef; [|by injection E as <- <-].
  destruct (Z.ltb_spec (alloc_fd_from s 0) 0); [by injection E as <- <-|].
  destruct (copy_fd _ _ _) as [s1|] eqn:Ec; cbn [cbind] in E; [|done]. injection E as <- <-. eapply copy_fresh; eauto.
Qed.
Lemma fcntl_spec s fd cmd arg s' r : inv s -> linux_fcntl s fd cmd arg = Done (s', r) -> inv s'.
Proof.
  intros I E. unfold linux_fcntl in E. destruct (fd_get s fd) as [f|] eqn:Ef; [|by injection E as <- <-].
  destruct (_ || _).
  - destruct (_ <=? _); [by injection E as <- <-|]. destruct (Z.ltb_spec (alloc_fd_from s (if int_of arg <? 0 then 0 else int_of arg)) 0); [by injection E as <- <-|].
    destruct (copy_fd _ _ _) as [s1|] eqn:Ec; cbn [cbind] in E; [|done]. injection E as <- <-. eapply copy_fresh; eauto.
  - destruct (_ =? F_GETFL); [by injection E as <- <-|]. destruct (_ =? F_SETFL); [|by injection E as <- <-].
    injection E as <- <-. eapply inv_set_alike; eauto. by repeat split.
Qed.
Lemma dup2_spec s a b s' r : inv s -> sys_dup2 s a b = Done (s', r) -> inv s'.
Proof.
  intros I E. unfold sys_dup2 in E. destruct (_ || _) eqn:Er; [by injection E as <- <-|]. destruct (negb _); [by injection E as <- <-|].
  destruct (fd_get s a) as [f|] eqn:Ef; [|by injection E as <- <-]. destruct (Z.eqb_spec a b) as [|Hab]; [by injection E as <- <-|].
  destruct (fd_get_spec _ _ _ I Ef) as (t & Ht & Ha & Hx & Hu & Ok).
  rewrite !orb_false_iff, !Z.ltb_ge, !Z.leb_gt in Er. destruct Er as (((B1 & B2) & _) & _).
  destruct (fd_get s b) as [g|] eqn:Eg.
  - destruct (sys_close s b) as [[s1 rc]|] eqn:Ec; cbn [cbind] in E; [|done].
    destruct (close_spec _ _ _ _ _ I Eg Ec) as (-> & I1 & T1 & M1). change (negb (0 =? 0)) with false in E. cbv iota in E.
    destruct (copy_fd f b s1) as [s2|] eqn:E2; cbn [cbind] in E; [|done]. injection E as <- <-.
    destruct (fd_get_spec _ _ _ I Eg) as (t' & Ht' & _ & Hy & _ & Okg). assert (t' = t) as -> by congruence.
    assert (cur s1 = Some (with_fds (<[Z.to_nat b := closed_fd g]> (fds t)) t)) as Hc1.
    { unfold cur. rewrite M1, T1, (tasks_set_fd _ _ _ _ Ht). unfold task_after. by rewrite lookup_insert_eq. }
    eapply (copy_spec s1 f b (closed_fd g)); eauto. cbn [fds with_fds]. apply list_lookup_insert_eq. by eapply lookup_lt_Some.
  - cbn [cbind] in E. change (negb (0 =? 0)) with false in E. cbv iota in E.
    destruct (copy_fd f b s) as [s2|] eqn:E2; cbn [cbind] in E; [|done]. injection E as <- <-.
    assert (0 <= b < MAX_FD) as Hb by lia.
    apply (copy_spec s f b (fd_entry_at t b) t); auto; [by eapply entry_lookup|]. apply (free_plain s); auto.
    unfold fd_get in Eg. rewrite Ht in Eg. rewrite (proj2 (Z.ltb_ge b 0)), (proj2 (Z.leb_gt _ b)) in Eg by lia. cbn [orb] in Eg.
    by destruct (in_use (fd_entry_at t b)).
Qed.

(** ** read and write *)
Context (range_ok : Z -> Z -> bool).

(** What the calls do on a pipe. *)
Definition write_room (p : pipe) (n : Z) : Z := Z.min (u32 n) (PIPE_BUF_SIZE - rcount (p_ring p)).
Lemma pipe_branch f : fd_ok f -> is_pipe f = true -> (forall x, x <> FD_TYPE_FILE -> is_ft f x = false) /\ pipe_fd f = true /\ (fpipe f =? 0) = false.
Proof.
  intros Ok Ep. destruct (fo_pipe _ Ok Ep) as (Et & _ & Hn). splits.
  - intros x Hx. unfold is_ft. rewrite Et. by apply bool_decide_eq_false_2.
  - unfold pipe_fd. by rewrite Ep.
  - by apply Z.eqb_neq.
Qed.
Lemma write_pipe_eq s fd f b e : inv s -> fd_get s fd = Some f -> is_pipe f = true -> uptr range_ok s (u_at b) (len (u_data b)) = true ->
  exists p, pipes s !! fpipe f = Some p /\ pipe_ok exact (tasks s) (fpipe f) p /\
    sys_write range_ok e s fd b =
      if read_ends p =? 0 then Done (s, -1)
      else if rcount (p_ring p) =? PIPE_BUF_SIZE then Done (s, -2)
      else let k := write_room p (len (u_data b)) in
           Done (put_pipe (fpipe f) (pipe_write p (take (Z.to_nat k) (u_data b))) s, k).
Proof.
  intros I Hf Ep Hu. destruct (pipe_at_live s fd f I Hf Ep) as (p & Ha & Hp). destruct (fd_get_spec _ _ _ I Hf) as (t & _ & _ & _ & _ & Ok).
  destruct (pipe_branch f Ok Ep) as (Hft & Hpf & Hn). exists p. split; [by apply pipe_at_spec|]. split; [done|].
  unfold sys_write. rewrite Hu, Hf. cbn [negb]. rewrite !Hft by done. cbn [orb]. rewrite Hpf, Hn, Ha. cbn [cbind].
  destruct (po_ring _ _ _ _ Hp) as [_ _ Hc _]. destruct (read_ends p =? 0); [done|]. rewrite u32_small by (unfold PIPE_BUF_SIZE in *; lia).
  unfold write_room. destruct (Z.eqb_spec (PIPE_BUF_SIZE - rcount (p_ring p)) 0), (Z.eqb_spec (rcount (p_ring p)) PIPE_BUF_SIZE); try (done || lia).
  cbv zeta. destruct (Z.ltb_spec (u32 (len (u_data b))) (PIPE_BUF_SIZE - rcount (p_ring p))).
  - by rewrite Z.min_l by lia.
  - by rewrite Z.min_r by lia.
Qed.
Lemma read_pipe_eq seed s fd f at_ n : inv s -> fd_get s fd = Some f -> is_pipe f = true -> uptr range_ok s at_ n = true ->
  exists p, pipes s !! fpipe f = Some p /\ pipe_ok exact (tasks s) (fpipe f) p /\
    sys_read range_ok seed s fd at_ n =
      if rcount (p_ring p) =? 0 then Done (s, if write_ends p =? 0 then 0 else -2, [])
      else let '(l, p') := pipe_read p (u32 n) in Done (put_pipe (fpipe f) p' s, len l, l).
Proof.
  intros I Hf Ep Hu. destruct (pipe_at_live s fd f I Hf Ep) as (p & Ha & Hp). destruct (fd_get_spec _ _ _ I Hf) as (t & _ & _ & _ & _ & Ok).
  destruct (pipe_branch f Ok Ep) as (Hft & Hpf & Hn). exists p. split; [by apply pipe_at_spec|]. split; [done|].
  unfold sys_read. rewrite Hu, Hf. cbn [negb]. rewrite !Hft by done. by rewrite Hpf, Hn, Ha.
Qed.

Lemma pipe_write_ring p d : ring_ok (p_ring p) -> len d <= PIPE_BUF_SIZE - rcount (p_ring p) ->
  ring_ok (p_ring (pipe_write p d)) /\ queue (p_ring (pipe_write p d)) = queue (p_ring p) ++ d.
Proof. intros Hr Hd. apply ring_puts_spec; [done|lia]. Qed.
Lemma len_take_room p (d : list Z) : len (take (Z.to_nat (write_room p (len d))) d) <= PIPE_BUF_SIZE - rcount (p_ring p) \/ PIPE_BUF_SIZE < rcount (p_ring p).
Proof. unfold write_room, len. rewrite length_take. lia. Qed.

Lemma pty_write_keeps s i d s' r : inv s ->
  pty_write_master s i d = (s', r) \/ pty_write_slave s i d = (s', r) -> inv s'.
Proof.
  intros I [E|E]; [unfold pty_write_master in E|unfold pty_write_slave in E]; destruct (negb _); try (by injection E as <- <-);
    [destruct (pty_type _ _)|destruct (pty_print _ _)]; injection E as <- <-; by eapply inv_frame; [| |exact I].
Qed.

Lemma write_inv s fd b e s' r : inv s -> sys_write range_ok e s fd b = Done (s', r) -> inv s'.
Proof.
  intros I E. destruct (uptr range_ok s (u_at b) (len (u_data b))) eqn:Hu; [|unfold sys_write in E; rewrite Hu in E; by injection E as <- <-].
  destruct (fd_get s fd) as [f|] eqn:Hf.
  - destruct (is_pipe f) eqn:Ep.
    + destruct (write_pipe_eq s fd f b e I Hf Ep Hu) as (p & Hp & Ok & E'). rewrite E' in E.
      destruct (read_ends p =? 0); [by injection E as <- <-|]. destruct (_ =? PIPE_BUF_SIZE); [by injection E as <- <-|]. injection E as <- <-.
      apply inv_ring; auto. pose proof (po_ring _ _ _ _ Ok) as Hr. destruct (len_take_room p (u_data b)) as [Hl|Hl]; [|destruct Hr; lia].
      by destruct (pipe_write_ring p _ Hr Hl).
    + destruct (fd_get_spec _ _ _ I Hf) as (t & Ht & _ & _ & _ & Ok). unfold sys_write in E. rewrite Hu, Hf in E. cbn [negb] in E.
      rewrite (pipe_fd_spec f Ok), Ep in E.
      assert (forall g, alike f g -> inv (set_fd fd g s)) as Hg by (intros g; by apply inv_set_alike).
      repeat case_match; simplify_eq; try done; cbn [cbind] in *; simplify_eq;
        try (by eapply inv_frame; [| |exact I]); try (by apply Hg; repeat split);
        try (by eapply pty_write_keeps; eauto).
      destruct (vnode_at s (vn f)) as [v|]; cbn [cbind] in E; [|done]. destruct (negb _); [by injection E as <- <-|].
      destruct (vfs_write e v (u_data b) (pos f)) as [|w v']; [done|]. injection E as <- <-. destruct (0 <? w); [|by eapply inv_frame; [| |exact I]].
      eapply inv_frame; [| |apply (Hg (with_pos (u64 (pos f + w)) f)); by repeat split]; done.
  - unfold sys_write in E. rewrite Hu, Hf in E. cbn [negb] in E. destruct (_ || _); injection E as <- <-; by eapply inv_frame; [| |exact I].
Qed.

Lemma pty_read_keeps s i n s' r l : inv s ->
  pty_read_master s i n = (s', r, l) \/ pty_read_slave s i n = (s', r, l) -> inv s'.
Proof.
  intros I [E|E]; [unfold pty_read_master in E|unfold pty_read_slave in E]; destruct (negb _); try (by injection E as <- <- <-);
    [destruct (ring_read _ _)|destruct (pty_lines _ _ _) as [[? ?] ?]]; injection E as <- <- <-; by eapply inv_frame; [| |exact I].
Qed.

(** The current task changed, but not its descriptors. *)
Lemma inv_task g s : (forall t, fds (g t) = fds t) -> inv s -> inv (upd_cur g s).
Proof.
  intros Hg I. assert (forall k, tasks (upd_cur g s) !! k = (if decide (k = me s) then g <$> tasks s !! k else tasks s !! k)) as El.
  { intros k. cbn. case_decide as Hk; [subst; apply lookup_alter_eq|by apply lookup_alter_ne]. }
  assert (forall w, total w (tasks (upd_cur g s)) = total w (tasks s)) as Et.
  { intros w. cbn. destruct (tasks s !! me s) as [t|] eqn:Ec.
    - replace (alter g (me s) (tasks s)) with (<[me s := g t]> (tasks s)).
      + rewrite (total_update _ _ _ _ _ Ec), Hg. lia.
      + apply map_eq. intros k. destruct (decide (k = me s)) as [->|Hk]; [by rewrite lookup_alter_eq, lookup_insert_eq, Ec|by rewrite lookup_alter_ne, lookup_insert_ne].
    - f_equal. apply map_eq. intros k. destruct (decide (k = me s)) as [->|Hk]; [by rewrite lookup_alter_eq, Ec|by rewrite lookup_alter_ne]. }
  destruct I as [I1 I2 I3]. split.
  - intros k t H. rewrite El in H. case_decide; [|by apply (I1 k)]. apply fmap_Some in H as (t0 & H & ->). rewrite Hg. by apply (I1 k t0).
  - intros k t f H Hf Pf. rewrite El in H. case_decide; [|by apply (I2 k t)]. apply fmap_Some in H as (t0 & H & ->). rewrite Hg in Hf. by apply (I2 k t0).
  - intros a p Hp. destruct (I3 a p Hp). by split; rewrite ?Et.
Qed.

Lemma read_inv seed s fd at_ n s' r l : inv s -> sys_read range_ok seed s fd at_ n = Done (s', r, l) -> inv s'.
Proof.
  intros I E. destruct (uptr range_ok s at_ n) eqn:Hu; [|unfold sys_read in E; rewrite Hu in E; by injection E as <- <- <-].
  destruct (fd_get s fd) as [f|] eqn:Hf; [|unfold sys_read in E; rewrite Hu, Hf in E; by injection E as <- <- <-].
  assert (forall g, alike f g -> inv (set_fd fd g s)) as Hg by (intros g; by apply inv_set_alike).
  destruct (is_pipe f) eqn:Ep.
  - destruct (read_pipe_eq seed s fd f at_ n I Hf Ep Hu) as (p & Hp & Ok & E'). rewrite E' in E.
    destruct (_ =? 0); [by injection E as <- <- <-|]. unfold pipe_read in E. destruct (ring_read _ _) as [l' r'] eqn:Er. injection E as <- <- <-.
    apply inv_ring; auto. by destruct (ring_read_spec _ _ _ _ (po_ring _ _ _ _ Ok) Er).
  - destruct (fd_get_spec _ _ _ I Hf) as (t & Ht & _ & _ & _ & Ok). unfold sys_read in E. rewrite Hu, Hf in E. cbn [negb] in E.
    rewrite (pipe_fd_spec f Ok), Ep in E.
    destruct (is_ft f FD_TYPE_DEV_NULL); [by injection E as <- <- <-|]. destruct (is_ft f FD_TYPE_DEV_ZERO); [by injection E as <- <- <-|].
    destruct (is_ft f FD_TYPE_DEV_RANDOM); [destruct (rand_bytes _ _ _ _); injection E as <- <- <-; by eapply inv_frame; [| |exact I]|].
    destruct (is_ft f FD_TYPE_PTY_MASTER); [injection E as E; by eapply pty_read_keeps; eauto|].
    destruct (is_ft f FD_TYPE_PTY_SLAVE); [injection E as E; by eapply pty_read_keeps; eauto|].
    destruct (is_ft f FD_TYPE_DEV_TTY); [rewrite Ht in E; destruct (kbd_read _ _ _ _ _); injection E as <- <- <-; by apply inv_task|].
    destruct (is_ft f FD_TYPE_EVENTFD).
    { destruct (n <? 8); [by injection E as <- <- <-|]. destruct (_ =? 0); [by injection E as <- <- <-|]. injection E as <- <- <-. apply Hg. by repeat split. }
    destruct (vn f =? 0); [by injection E as <- <- <-|]. destruct (vnode_at s (vn f)) as [v|]; cbn [cbind] in E; [|done].
    destruct (negb _); [by injection E as <- <- <-|]. destruct (vfs_read v (pos f) n) as [[k d]|]; [|done]. injection E as <- <- <-.
    destruct (0 <? k); [|done]. apply Hg. by repeat split.
Qed.

(** ** A fresh slot is filled *)
(** States that differ in files, terminals and the like only. *)
Definition frame s s' : Prop := tasks s' = tasks s /\ pipes s' = pipes s /\ me s' = me s.
Lemma frame_refl s : frame s s.
Proof. done. Qed.
Lemma frame_trans s1 s2 s3 : frame s1 s2 -> frame s2 s3 -> frame s1 s3.
Proof. intros (A1 & A2 & A3) (B1 & B2 & B3). repeat split; congruence. Qed.
Lemma frame_inv s s' : frame s s' -> inv s -> inv s'.
Proof. intros (A1 & A2 & _). by apply inv_frame. Qed.
Lemma frame_set s s' fd f : frame s s' -> frame (set_fd fd f s) (set_fd fd f s').
Proof. intros (A1 & A2 & A3). repeat split; cbn; congruence. Qed.
Lemma set_set s fd f g : frame (set_fd fd f s) (set_fd fd f (set_fd fd g s)).
Proof.
  repeat split. cbn. apply map_eq. intros k. destruct (decide (k = me s)) as [->|Hk].
  - rewrite !lookup_alter_eq. destruct (tasks s !! me s) as [t|]; [|done]. cbn. unfold with_fds. cbn. by rewrite list_insert_insert_eq.
  - by rewrite !lookup_alter_ne.
Qed.

Definition fills s s' : Prop :=
  frame s s' \/ exists m g, 0 <= alloc_fd_from s m /\ fd_ok g /\ is_pipe g = false /\ frame (set_fd (alloc_fd_from s m) g s) s'.
Lemma fills_inv s s' : fills s s' -> inv s -> inv s'.
Proof.
  intros [H|(m & g & Ha & Ok & Pg & H)] I; [by eapply frame_inv|]. eapply frame_inv; [exact H|].
  destruct (alloc_cur s m Ha) as [t Ht]. destruct (alloc_spec s m t Ht Ha) as [Hr Hu].
  apply (inv_set_plain s _ _ (fd_entry_at t (alloc_fd_from s m)) t); auto; [apply (entry_lookup s); auto; lia|]. apply (free_plain s); auto. lia.
Qed.
Lemma fills_set s m g s' : 0 <= alloc_fd_from s m -> fd_ok g -> is_pipe g = false ->
  frame (set_fd (alloc_fd_from s m) no_fd s) s' -> fills s (set_fd (alloc_fd_from s m) g s').
Proof.
  intros Ha Ok Pg Hf. right. exists m, g. splits; auto. eapply frame_trans; [apply set_set|]. by apply frame_set.
Qed.
Lemma no_fd_ok : fd_ok no_fd /\ is_pipe no_fd = false.
Proof. repeat split; done. Qed.
Lemma fills_cleared s m s' : 0 <= alloc_fd_from s m -> frame (set_fd (alloc_fd_from s m) no_fd s) s' -> fills s s'.
Proof. intros Ha Hf. right. exists m, no_fd. destruct no_fd_ok. by splits. Qed.
Lemma special_ok t flags i : t <> FD_TYPE_PIPE -> fd_ok (special_fd t flags i) /\ is_pipe (special_fd t flags i) = false.
Proof. intros Ht. repeat split; done. Qed.

Lemma eventfd_fills s v flags s' r : linux_eventfd s v flags = (s', r) -> fills s s'.
Proof.
  unfold linux_eventfd. destruct (Z.ltb_spec (alloc_fd_from s 3) 0); intros [= <- <-]; [by left|].
  right. eexists 3, _. splits; [done| | |apply frame_refl]; [repeat split; done|done].
Qed.
Lemma epoll_fills s s' r : linux_epoll_create1 s = (s', r) -> fills s s'.
Proof.
  unfold linux_epoll_create1. destruct (Z.ltb_spec (alloc_fd_from s 3) 0); [intros [= <- <-]; by left|].
  destruct (find _ _) as [i|]; intros [= <- <-]; [|by left].
  right. eexists 3, _. splits; [done| | |apply frame_set; by repeat split]; [repeat split; done|done].
Qed.

Lemma dev_type_file p t : dev_type p = Some t -> t <> FD_TYPE_PIPE.
Proof. unfold dev_type. repeat case_match; intros [= <-]; done. Qed.
Lemma open_special_fills s m flags p e1 e2 s' r : 0 <= alloc_fd_from s m ->
  open_special (set_fd (alloc_fd_from s m) no_fd s) (alloc_fd_from s m) flags p e1 e2 = Some (s', r) -> fills s s'.
Proof.
  intros Ha. unfold open_special. set (s1 := set_fd _ no_fd s).
  destruct (dev_type p) as [t|] eqn:Ed.
  - intros [= <- <-]. apply fills_set; [done|by apply special_ok, (dev_type_file p)|done|apply frame_refl].
  - destruct (streq p _).
    + destruct (pty_alloc s1) as [s2 i] eqn:Ep.
      assert (frame s1 s2) as Hf by (unfold pty_alloc in Ep; destruct (find _ _); injection Ep as <- <-; by repeat split).
      destruct (i <? 0); intros [= <- <-]; [by eapply fills_cleared|]. apply fills_set; [done|by apply special_ok|done|done].
    + destruct (streq _ _); [|done]. destruct (_ <? 0); intros [= <- <-]; [by eapply fills_cleared|]. apply fills_set; [done|by apply special_ok|done|done].
Qed.
Lemma install_fills s m a flags s1 s' r : 0 <= alloc_fd_from s m -> frame (set_fd (alloc_fd_from s m) no_fd s) s1 ->
  install_fd s1 (alloc_fd_from s m) a flags = Done (s', r) -> fills s s'.
Proof.
  intros Ha Hf. unfold install_fd. destruct (vnode_at _ a); cbn [cbind]; [|done]. intros [= <- <-].
  apply fills_set; [done|repeat split; done|done|]. eapply frame_trans; [exact Hf|]. by repeat split.
Qed.
Lemma truncate_frame e s a n s' r : truncate_at e s a n = Done (s', r) -> frame s s'.
Proof. unfold truncate_at. destruct (vnode_at s a); cbn [cbind]; [|done]. destruct (vfs_truncate _ _ _); [done|]. intros [= <- <-]. by repeat split. Qed.

Context (str_ok : Z -> Z -> bool) (fuel : nat).
(** What both kinds of open share once the path is known. *)
Ltac open_done := match goal with
  | E : Done _ = Done _ |- _ => injection E as <- <-
  | E : Fault _ = Done _ |- _ => discriminate E end.
Lemma open_fills e s us flags s' r : sys_open str_ok fuel e s us flags = Done (s', r) -> fills s s'.
Proof.
  unfold sys_open. intros E. destruct (copy_user_str _ _ _ _) as [path|]; [|open_done; by left].
  destruct (Z.ltb_spec (alloc_fd_from s 0) 0); [open_done; by left|].
  destruct (open_special _ _ _ _ _ _) as [[s1 r1]|] eqn:Es; [open_done; by eapply open_special_fills|].
  set (s0 := set_fd (alloc_fd_from s 0) no_fd s) in *.
  destruct (look _ _ _ path) as [a|]; cbn [cbind] in E; [|done].
  match type of E with cbind ?m _ = _ => destruct m as [[s1 a1]|] eqn:E1 end; cbn [cbind] in E; [|done].
  assert (frame s0 s1) as Hf.
  { destruct (_ && _); [|by injection E1 as <- <-]. destruct (split_path path). destruct (look _ _ _ _); cbn [cbind] in E1; [|done].
    destruct (_ || _); [by injection E1 as <- <-|]. destruct (vfs_create _ _ _ _ _). injection E1 as <- <-. by repeat split. }
  destruct (a1 =? 0); [open_done; by eapply fills_cleared|]. destruct (vnode_at s1 a1) as [v|]; cbn [cbind] in E; [|done].
  cbv zeta in E. match type of E with (if ?b then _ else _) = _ => destruct b end; [open_done; by eapply fills_cleared|].
  match type of E with cbind ?m _ = _ => destruct m as [s2|] eqn:E2 end; cbn [cbind] in E; [|done].
  eapply install_fills; [done| |exact E]. eapply frame_trans; [exact Hf|].
  match type of E2 with (if ?b then _ else _) = _ => destruct b end; [|by injection E2 as <-].
  destruct (truncate_at _ _ _ _) as [[s3 r3]|] eqn:E3; cbn [cbind] in E2; [|done]. injection E2 as <-. by eapply truncate_frame.
Qed.
Lemma openat_fills e s dirfd us flags m s' r : linux_openat str_ok fuel e s dirfd us flags m = Done (s', r) -> fills s s'.
Proof.
  unfold linux_openat. intros E. destruct (copy_user_str _ _ _ _) as [path|]; [|open_done; by left].
  destruct (dir_base s dirfd path) as [base|]; cbn [cbind] in E; [|done]. destruct (base =? 0); [open_done; by left|].
  destruct (Z.ltb_spec (alloc_fd_from s 0) 0); [open_done; by left|].
  destruct (open_special _ _ _ _ _ _) as [[s1 r1]|] eqn:Es; [open_done; by eapply open_special_fills|].
  set (s0 := set_fd (alloc_fd_from s 0) no_fd s) in *.
  destruct (look _ _ _ path) as [a|]; cbn [cbind] in E; [|done].
  match type of E with cbind ?m _ = _ => destruct m as [[[s1 a1] rc]|] eqn:E1 end; cbn [cbind] in E; [|done].
  assert (frame s0 s1) as Hf.
  { destruct (_ && _); [|by injection E1 as <- <- <-]. destruct (split_path path). destruct (look _ _ _ _) as [d|]; cbn [cbind] in E1; [|done].
    destruct (d =? 0); [by injection E1 as <- <- <-|]. destruct (negb _); [by injection E1 as <- <- <-|].
    destruct (vfs_create _ _ _ _ _). injection E1 as <- <- <-. by repeat split. }
  destruct (a1 =? 0); [open_done; by eapply fills_cleared|]. destruct (vnode_at s1 a1) as [v|]; cbn [cbind] in E; [|done].
  match type of E with cbind ?m _ = _ => destruct m as [s2|] eqn:E2 end; cbn [cbind] in E; [|done].
  eapply install_fills; [done| |exact E]. eapply frame_trans; [exact Hf|].
  match type of E2 with (if ?b then _ else _) = _ => destruct b end; [|by injection E2 as <-].
  destruct (truncate_at _ _ _ _) as [[s3 r3]|] eqn:E3; cbn [cbind] in E2; [|done]. injection E2 as <-. by eapply truncate_frame.
Qed.

(** ** pipe *)
Lemma total_absent s a w : inv s -> pipes s !! a = None -> (forall f, is_pipe f = false -> w f = 0) -> (forall f, fpipe f <> a -> w f = 0) ->
  total w (tasks s) = 0.
Proof.
  intros I Ha W1 W2. assert (forall k t, tasks s !! k = Some t -> fd_sum w (fds t) = 0) as Hz.
  { intros k t Ht. apply fd_sum_zero. intros f Hf. destruct (is_pipe f) eqn:Ep; [|auto]. apply W2. intros <-.
    destruct (iv_live _ I k t f Ht Hf Ep) as [p Hp]. congruence. }
  clear -Hz. revert Hz. generalize (tasks s). intros m. induction m as [|k t m Hk IH] using map_ind; intros Hz; [done|].
  rewrite total_fresh by done. rewrite (Hz k t) by apply lookup_insert_eq. rewrite IH; [done|]. intros k' t' Hk'. apply (Hz k').
  rewrite lookup_insert_ne; [done|]. intros ->. congruence.
Qed.
Lemma inv_new s a : inv s -> a <> 0 -> pipes s !! a = None -> inv (put_pipe a (Pipe empty_ring 0 0 0) s).
Proof.
  intros I Hn Ha. split; [apply I| |].
  - intros k t f Ht Hf Pf. cbn. destruct (iv_live _ I k t f Ht Hf Pf) as [q Hq]. rewrite lookup_insert_ne; [eauto|]. intros Ea. congruence.
  - intros a' p' Hp'. cbn in Hp'. destruct (decide (a' = a)) as [->|Hne]; [|rewrite lookup_insert_ne in Hp' by done; by apply (iv_pipes _ I)].
    rewrite lookup_insert_eq in Hp'. injection Hp' as <-. split; cbn [p_refs read_ends write_ends p_ring]; auto; [| | |apply empty_ring_ok];
      change (tasks (put_pipe a (Pipe empty_ring 0 0 0) s)) with (tasks s); rewrite (total_absent s a); auto; try (by destruct exact).
    all: intros f Hf; first [by apply (w_plain a true)|by apply (w_plain a false)|by apply (w_other a true)|by apply (w_other a false)].
Qed.

Lemma free_entry s t m : inv s -> cur s = Some t -> 0 <= alloc_fd_from s m ->
  let fd := alloc_fd_from s m in let f := fd_entry_at t fd in
  fds t !! Z.to_nat fd = Some f /\ is_pipe f = false /\ fd_ok f /\ ftype f = FD_TYPE_FILE /\ in_use f = false /\ 0 <= fd < MAX_FD.
Proof.
  intros I Ht Ha fd f. destruct (alloc_spec s m t Ht Ha) as [Hr Hu].
  assert (fds t !! Z.to_nat fd = Some f) as Hl by (apply (entry_lookup s); auto; lia).
  destruct (iv_fds _ I _ _ Ht) as [_ Fo]. rewrite Forall_lookup in Fo. pose proof (Fo _ _ Hl) as Ok. splits; auto; try lia.
  - apply (free_plain s); auto. lia.
  - by apply (fo_free _ Ok).
Qed.
Lemma in_use_ok b f : fd_ok f -> is_pipe f = false -> ftype f = FD_TYPE_FILE -> fd_ok (with_in_use b f).
Proof. intros [H1 H2 H3 H4] Hp Ht. split; cbn; auto. congruence. Qed.
Lemma pipe_end_ok b a f : a <> 0 -> ftype f = FD_TYPE_FILE -> fd_ok (pipe_end b a f).
Proof. intros Ha Ht. split; cbn; auto; [done|congruence]. Qed.

Lemma cur_set_fd s fd f t : cur s = Some t -> cur (set_fd fd f s) = Some (with_fds (<[Z.to_nat fd := f]> (fds t)) t).
Proof. intros Ht. unfold cur. rewrite (tasks_set_fd _ _ _ _ Ht). unfold task_after. by rewrite lookup_insert_eq. Qed.

Lemma pipe_inv mem s at_ s' r l : inv s -> (forall a, mem = Some a -> a <> 0 /\ pipes s !! a = None) ->
  sys_pipe range_ok mem s at_ = Done (s', r, l) -> inv s'.
Proof.
  intros I Hm E. unfold sys_pipe in E. destruct (negb _); [by injection E as <- <- <-|]. destruct (negb _); [by injection E as <- <- <-|].
  destruct (cur s) as [t|] eqn:Ht; [|by injection E as <- <- <-]. unfold alloc_fd in E.
  destruct (Z.ltb_spec (alloc_fd_from s 3) 0) as [|Ha]; [by injection E as <- <- <-|].
  destruct (free_entry s t 3 I Ht Ha) as (L1 & P1 & O1 & T1 & U1 & B1). set (fr := alloc_fd_from s 3) in *. set (er := fd_entry_at t fr) in *.
  assert (inv (set_fd fr (with_in_use true er) s)) as I1 by (apply (inv_set_plain s _ _ er t); auto using in_use_ok).
  pose proof (cur_set_fd s fr (with_in_use true er) t Ht) as Ht1. set (s1 := set_fd fr (with_in_use true er) s) in *.
  set (t1 := with_fds _ t) in Ht1. assert (fds t1 !! Z.to_nat fr = Some (with_in_use true er)) as L1' by (apply list_lookup_insert_eq; by eapply lookup_lt_Some).
  assert (forall b, inv (set_fd fr (with_in_use b er) s1)) as Ib
    by (intros b; apply (inv_set_plain s1 _ _ (with_in_use true er) t1); auto using in_use_ok).
  destruct (Z.ltb_spec (alloc_fd_from s1 3) 0) as [|Ha1]; [injection E as <- <- <-; apply Ib|].
  destruct (free_entry s1 t1 3 I1 Ht1 Ha1) as (L2 & P2 & O2 & T2 & U2 & B2). set (fw := alloc_fd_from s1 3) in *.
  assert (fw <> fr) as Hne. { intros Ew. rewrite Ew in L2. rewrite L1' in L2. injection L2 as L2. rewrite Ew, <- L2 in U2. done. }
  assert (fd_entry_at t1 fw = fd_entry_at t fw) as Ew.
  { unfold fd_entry_at at 1. unfold t1. cbn [fds with_fds]. rewrite !nth_lookup, list_lookup_insert_ne by lia. by rewrite <- nth_lookup. }
  rewrite Ew in *. set (ew := fd_entry_at t fw) in *.
  assert (inv (set_fd fw (with_in_use true ew) s1)) as I2 by (apply (inv_set_plain s1 _ _ ew t1); auto using in_use_ok).
  pose proof (cur_set_fd s1 fw (with_in_use true ew) t1 Ht1) as Ht2. set (s2 := set_fd fw (with_in_use true ew) s1) in *.
  set (t2 := with_fds _ t1) in Ht2.
  assert (fds t2 !! Z.to_nat fr = Some (with_in_use true er)) as L3 by (unfold t2; cbn [fds with_fds]; rewrite list_lookup_insert_ne by lia; done).
  assert (fds t2 !! Z.to_nat fw = Some (with_in_use true ew)) as L4 by (apply list_lookup_insert_eq; by eapply lookup_lt_Some).
  destruct mem as [a|].
  - destruct (Hm a eq_refl) as [Hn Hnone]. injection E as <- <- <-.
    set (p0 := Pipe empty_ring 0 0 0). assert (inv (put_pipe a p0 s2)) as I3 by (by apply inv_new).
    pose proof (inv_share (put_pipe a p0 s2) fr (pipe_end true a er) (with_in_use true er) t2 p0 I3 Ht2 L3 P1 (pipe_end_ok _ _ _ Hn T1) eq_refl
      (lookup_insert_eq _ _ _)) as I4. cbn [fpipe pipe_end read_end] in I4.
    set (s4 := set_fd fr (pipe_end true a er) _) in I4.
    pose proof (cur_set_fd (put_pipe a (pipe_ref true p0) (put_pipe a p0 s2)) fr (pipe_end true a er) t2 Ht2) as Ht4. fold s4 in Ht4.
    refine (inv_frame _ _ _ _ (inv_share s4 fw (pipe_end false a ew) (with_in_use true ew) _ (pipe_ref true p0) I4 Ht4 _ P2 (pipe_end_ok _ _ _ Hn T2) eq_refl
      (lookup_insert_eq _ _ _))).
    + done.
    + cbn. by rewrite !insert_insert_eq.
    + cbn [fds with_fds]. by rewrite list_lookup_insert_ne by lia.
  - injection E as <- <- <-.
    assert (inv (set_fd fr (with_in_use false er) s2)) as I3 by (apply (inv_set_plain s2 _ _ (with_in_use true er) t2); auto using in_use_ok).
    apply (inv_set_plain _ _ _ (with_in_use true ew) (with_fds (<[Z.to_nat fr := with_in_use false er]> (fds t2)) t2)); auto using in_use_ok.
    + by apply cur_set_fd.
    + cbn [fds with_fds]. by rewrite list_lookup_insert_ne by lia.
Qed.

Lemma lseek_inv s fd off wh s' r : inv s -> sys_lseek s fd off wh = Done (s', r) -> inv s'.
Proof.
  intros I E. unfold sys_lseek in E. destruct (fd_get s fd) as [f|] eqn:Hf; [|by injection E as <- <-].
  assert (forall p, inv (set_fd fd (with_pos p f) s)) as Hg by (intros p; eapply inv_set_alike; eauto; by repeat split).
  destruct (_ =? 0); [injection E as <- <-; apply Hg|]. destruct (_ =? 1); [injection E as <- <-; apply Hg|].
  destruct (_ =? 2); [|by injection E as <- <-]. destruct (vn f =? 0); [injection E as <- <-; apply Hg|].
  destruct (vnode_at s (vn f)); cbn [cbind] in E; [|done]. injection E as <- <-. apply Hg.
Qed.

Lemma getdents_inv s fd at_ cnt s' r l : inv s -> sys_getdents range_ok s fd at_ cnt = Done (s', r, l) -> inv s'.
Proof.
  intros I E. unfold sys_getdents in E. destruct (256 <? cnt); [by injection E as <- <- <-|]. destruct (negb _); [by injection E as <- <- <-|].
  destruct (fd_get s fd) as [f|] eqn:Hf; [|by injection E as <- <- <-]. destruct (fd <? 3); [by injection E as <- <- <-|].
  destruct (vnode_at s (vn f)) as [v|]; cbn [cbind] in E; [|done]. destruct (negb _); [by injection E as <- <- <-|].
  destruct (negb _); [by injection E as <- <- <-|]. injection E as <- <- <-. eapply inv_set_alike; eauto. by repeat split.
Qed.
Lemma chdir_inv s us s' r : inv s -> sys_chdir str_ok fuel s us = Done (s', r) -> inv s'.
Proof.
  intros I E. unfold sys_chdir in E. destruct (copy_user_str _ _ _ _) as [path|]; [|by injection E as <- <-].
  destruct (cur_cwd s) as [c|]; cbn [cbind] in E; [|done]. destruct (look _ _ _ _) as [a|]; cbn [cbind] in E; [|done].
  destruct (negb _); [by injection E as <- <-|]. destruct (negb _); [by injection E as <- <-|]. injection E as <- <-.
  by apply inv_task, (inv_frame s).
Qed.

(** ** fork *)
(** The pipes count the entries of [l] more. *)
Definition more (l : list fd_entry) (a : Z) (p : pipe) : pipe :=
  Pipe (p_ring p) (p_refs p + fd_sum (w_ref a) l) (read_ends p + fd_sum (w_end true a) l) (write_ends p + fd_sum (w_end false a) l).
Definition grown (l : list fd_entry) s s' : Prop :=
  tasks s' = tasks s /\ me s' = me s /\ forall a, pipes s' !! a = more l a <$> pipes s !! a.
Lemma more_nil a p : more [] a p = p.
Proof. destruct p. unfold more. cbn. by rewrite !Z.add_0_r. Qed.
Lemma more_app l l' a p : more l' a (more l a p) = more (l ++ l') a p.
Proof. unfold more. cbn [p_ring p_refs read_ends write_ends]. rewrite !fd_sum_app, !Z.add_assoc. done. Qed.
Lemma grown_nil s s' : frame s s' -> grown [] s s'.
Proof. intros (A & B & C). repeat split; auto. intros a. rewrite B. destruct (pipes s !! a) as [p|]; [cbn; by rewrite more_nil|done]. Qed.
Lemma grown_app l l' s1 s2 s3 : grown l s1 s2 -> grown l' s2 s3 -> grown (l ++ l') s1 s3.
Proof.
  intros (A1 & A2 & A3) (B1 & B2 & B3). repeat split; try congruence. intros a. rewrite B3, A3.
  destruct (pipes s1 !! a) as [p|]; [cbn; by rewrite more_app|done].
Qed.
Lemma share_grown f s s' : fd_ok f -> in_use f = true -> share_fd f s = Done s' -> grown [f] s s'.
Proof.
  intros Ok Hu E. unfold share_fd in E. destruct (is_pipe f) eqn:Ep.
  - destruct (fo_pipe _ Ok Ep) as (_ & _ & Hn). rewrite (proj2 (Z.eqb_neq _ 0)) in E by done. cbn [andb negb] in E.
    destruct (pipe_at s (fpipe f)) as [p|] eqn:Ea; cbn [cbind] in E; [|done]. injection E as <-. apply pipe_at_spec in Ea.
    repeat split. intros a. cbn. destruct (decide (a = fpipe f)) as [->|Hne].
    + rewrite lookup_insert_eq, Ea. cbn. f_equal. unfold more, pipe_ref, fd_sum. cbn.
      destruct (w_mine f true Ep Hu) as [-> ->], (w_mine f false Ep Hu) as [_ ->]. destruct (read_end f); cbn; f_equal; lia.
    + rewrite lookup_insert_ne by done. destruct (pipes s !! a) as [q|]; [|done]. cbn. f_equal. unfold more, fd_sum. cbn.
      destruct (w_other a true f) as [-> ->]; [done|]. destruct (w_other a false f) as [_ ->]; [done|]. destruct q. cbn. f_equal; lia.
  - cbn [andb] in E. assert (frame s s' -> grown [f] s s') as Hg.
    { intros Hf. pose proof (grown_nil _ _ Hf) as (A & B & C). repeat split; auto. intros a. rewrite C. destruct (pipes s !! a) as [q|]; [|done].
      cbn. f_equal. unfold more, fd_sum. cbn. destruct (w_plain a true f Ep) as [-> ->], (w_plain a false f Ep) as [_ ->]. done. }
    apply Hg. destruct (negb (vn f =? 0)); [|by injection E as <-]. destruct (vnode_at s (vn f)); cbn [cbind] in E; [|done]. injection E as <-. by repeat split.
Qed.
Lemma grown_idle f s : in_use f = false -> grown [f] s s.
Proof.
  intros Hu. repeat split. intros a. destruct (pipes s !! a) as [q|]; [|done]. cbn. f_equal. unfold more, fd_sum. cbn. unfold w_ref, w_end. rewrite Hu. cbn.
  destruct q. cbn. f_equal; lia.
Qed.

Lemma share_fold ks l : Forall fd_ok l -> forall m s', fold_left (fun m i =>
    let! s := m in let f := nth (Z.to_nat i) l no_fd in if in_use f then share_fd f s else Done s) ks m = Done s' ->
  exists s : kstate D, m = Done s /\ grown (map (fun i => nth (Z.to_nat i) l no_fd) ks) s s'.
Proof.
  intros Fo. induction ks as [|i ks IH]; intros m s' E; cbn [fold_left map] in *.
  - exists s'. split; [done|]. apply grown_nil, frame_refl.
  - apply IH in E as (s1 & E & G). destruct m as [s|]; cbn [cbind] in E; [|done]. exists s. split; [done|].
    eapply (grown_app [_]); [|exact G].
    assert (fd_ok (nth (Z.to_nat i) l no_fd)) as Ok.
    { destruct (nth_in_or_default (Z.to_nat i) l no_fd) as [Hin| ->]; [|apply no_fd_ok]. rewrite Forall_forall in Fo. by apply Fo, list_elem_of_In. }
    destruct (in_use _) eqn:Hu; [by apply share_grown|]. injection E as <-. by apply grown_idle.
Qed.
Lemma nths_drop (l : list fd_entry) k : 0 <= k -> length l = Z.to_nat MAX_FD ->
  map (fun i => nth (Z.to_nat i) l no_fd) (seqZ k (MAX_FD - k)) = drop (Z.to_nat k) l.
Proof.
  intros Hk Hl. unfold MAX_FD in *. apply list_eq. intros i. rewrite lookup_drop. change (map ?g ?x !! i) with ((g <$> x) !! i).
  rewrite list_lookup_fmap. destruct (decide (k + Z.of_nat i < 64)) as [Hi|Hi].
  - rewrite (lookup_seqZ_lt k) by lia. cbn. replace (Z.to_nat (k + Z.of_nat i)) with (Z.to_nat k + i)%nat by lia.
    destruct (lookup_lt_is_Some_2 l (Z.to_nat k + i)) as [x Hx]; [lia|]. rewrite Hx. f_equal. by apply nth_lookup_Some.
  - rewrite (lookup_seqZ_ge k) by lia. cbn. symmetry. apply lookup_ge_None. lia.
Qed.

(** The standard descriptors, which a fork copies without counting, hold no pipe. *)
Definition std_plain (t : ptask) : Prop := forall f, f ∈ take 3 (fds t) -> is_pipe f = false.
Lemma fork_inv s child t s' : inv s -> cur s = Some t -> std_plain t -> tasks s !! pid child = None -> fork_fds s child = Done s' -> inv s'.
Proof.
  intros I Ht Hstd Hfresh E. unfold fork_fds in E. rewrite Ht in E. unfold share_from in E.
  destruct (iv_fds _ I _ _ Ht) as [Hl Fo].
  destruct (fold_left _ _ _) as [s1|] eqn:Es in E; cbn [cbind] in E; [|done]. injection E as <-.
  apply (share_fold _ _ Fo) in Es as (s0 & [= <-] & G1 & G2 & G3). rewrite nths_drop in G3 by done.
  assert (forall w, (forall f, is_pipe f = false -> w f = 0) -> fd_sum w (drop (Z.to_nat 3) (fds t)) = fd_sum w (fds t)) as Hd.
  { intros w Hw. rewrite <- (take_drop (Z.to_nat 3) (fds t)) at 2. rewrite fd_sum_app, (fd_sum_zero w (take _ _)); [done|]. intros f Hf. by apply Hw, Hstd. }
  set (ct := with_cwd (cwd t) (with_fds (fds t) child)).
  split; cbn [tasks with_tasks with_tree pipes]; rewrite G1.
  - intros k t' H. destruct (decide (k = pid child)) as [->|Hk]; [rewrite lookup_insert_eq in H; by injection H as <-|].
    rewrite lookup_insert_ne in H by done. by apply (iv_fds _ I k).
  - intros k t' f H Hf Pf. assert (exists k0 t0, tasks s !! k0 = Some t0 /\ f ∈ fds t0) as (k0 & t0 & H0 & Hf0).
    { destruct (decide (k = pid child)) as [->|Hk]; [rewrite lookup_insert_eq in H; injection H as <-; by exists (me s), t|].
      rewrite lookup_insert_ne in H by done. eauto. }
    destruct (iv_live _ I k0 t0 f H0 Hf0 Pf) as [p Hp]. rewrite G3, Hp. eauto.
  - intros a p Hp. rewrite G3 in Hp. apply fmap_Some in Hp as (q & Hq & ->). destruct (iv_pipes _ I a q Hq) as [R1 R2 R3 R4 R5].
    split; unfold more; cbn [p_ring p_refs read_ends write_ends]; auto; rewrite total_fresh by done; cbn [fds with_fds with_cwd];
      rewrite Hd, Z.add_comm by (intros f Hf; first [by apply (w_plain a true)|by apply (w_plain a false)]);
      rewrite (Z.add_comm (fd_sum _ _)); rewrite (Z.add_comm (fd_sum _ _)); by apply counted_shift.
Qed.

(** ** Histories *)
Definition with_me (k : Z) s : kstate D := KState (tree s) (pipes s) (ptys s) (epolls s) (tasks s) k (rand_state s) (told s).
(** The bytes a step moves: into the pipe at an address, or out of it. *)
Inductive traffic := Wrote (a : Z) (l : list Z) | Got (a : Z) (l : list Z) | Other.
Definition through (move : Z -> list Z -> traffic) s (fd : Z) (l : list Z) : traffic :=
  match fd_get s fd with Some f => if is_pipe f then move (fpipe f) l else Other | None => Other end.
(** A call of the current task, a switch to another, a fork, an exit. An exit
    drops the table as it is; [exact] histories have none. The calls on paths and
    the others that touch neither tables nor pipes are [st_frame]. The label says
    which bytes went into a pipe or came out of one. *)
Inductive fd_step : kstate D -> traffic -> kstate D -> Prop :=
| st_read seed s fd at_ n s' r l : sys_read range_ok seed s fd at_ n = Done (s', r, l) -> fd_step s (through Got s fd l) s'
| st_write e s fd b s' r : sys_write range_ok e s fd b = Done (s', r) ->
    fd_step s (through Wrote s fd (take (Z.to_nat r) (u_data b))) s'
| st_close s fd s' r : sys_close s fd = Done (s', r) -> fd_step s Other s'
| st_dup s fd s' r : linux_dup s fd = Done (s', r) -> fd_step s Other s'
| st_dup2 s a b s' r : sys_dup2 s a b = Done (s', r) -> fd_step s Other s'
| st_fcntl s fd cmd arg s' r : linux_fcntl s fd cmd arg = Done (s', r) -> fd_step s Other s'
| st_pipe mem s at_ s' r l : (forall a, mem = Some a -> a <> 0 /\ pipes s !! a = None) ->
    sys_pipe range_ok mem s at_ = Done (s', r, l) -> fd_step s Other s'
| st_lseek s fd off wh s' r : sys_lseek s fd off wh = Done (s', r) -> fd_step s Other s'
| st_getdents s fd at_ cnt s' r l : sys_getdents range_ok s fd at_ cnt = Done (s', r, l) -> fd_step s Other s'
| st_chdir s us s' r : sys_chdir str_ok fuel s us = Done (s', r) -> fd_step s Other s'
| st_eventfd s v flags s' r : linux_eventfd s v flags = (s', r) -> fd_step s Other s'
| st_epoll s s' r : linux_epoll_create1 s = (s', r) -> fd_step s Other s'
| st_open e s us flags s' r : sys_open str_ok fuel e s us flags = Done (s', r) -> fd_step s Other s'
| st_openat e s dirfd us flags m s' r : linux_openat str_ok fuel e s dirfd us flags m = Done (s', r) -> fd_step s Other s'
| st_frame s s' : frame s s' -> fd_step s Other s'
| st_switch k s : fd_step s Other (with_me k s)
| st_fork s child t s' : cur s = Some t -> std_plain t -> tasks s !! pid child = None -> fork_fds s child = Done s' -> fd_step s Other s'
| st_exit k s : exact = false -> fd_step s Other (with_tasks (delete k (tasks s)) s).

(** The tasks the kernel starts with: three standard descriptors, no pipes. *)
Definition std_fds : list fd_entry := replicate 3 (with_in_use true no_fd) ++ replicate 61 no_fd.
Definition fd_boot s : Prop := pipes s = ∅ /\ forall k t, tasks s !! k = Some t -> fds t = std_fds.
Inductive fd_reachable : kstate D -> Prop :=
| fr_boot s : fd_boot s -> fd_reachable s
| fr_step s l s' : fd_reachable s -> fd_step s l s' -> fd_reachable s'.

Lemma boot_inv s : fd_boot s -> inv s.
Proof.
  intros [Hp Ht]. assert (Forall (fun f => fd_ok f /\ is_pipe f = false) std_fds) as Hs.
  { apply Forall_app. split; apply Forall_replicate; repeat split; done. }
  split.
  - intros k t H. rewrite (Ht k t H). split; [done|]. eapply Forall_impl; [exact Hs|]. by intros f [].
  - intros k t f H Hf Pf. rewrite (Ht k t H) in Hf. rewrite Forall_forall in Hs. destruct (Hs f Hf). congruence.
  - intros a p H. by rewrite Hp in H.
Qed.
Lemma exit_inv s k : exact = false -> inv s -> inv (with_tasks (delete k (tasks s)) s).
Proof.
  intros He I. split; cbn [tasks with_tasks pipes].
  - intros k' t [_ H]%lookup_delete_Some. by apply (iv_fds _ I k').
  - intros k' t f [_ H]%lookup_delete_Some. by apply (iv_live _ I k').
  - intros a p Hp. destruct (iv_pipes _ I a p Hp) as [R1 R2 R3 R4 R5].
    assert (forall w, (forall f, 0 <= w f) -> total w (delete k (tasks s)) <= total w (tasks s)) as Hle.
    { intros w Hw. destruct (tasks s !! k) as [t|] eqn:Ek; [|by rewrite delete_id].
      rewrite (total_delete w _ _ _ Ek). pose proof (fd_sum_nonneg w (fds t) Hw). lia. }
    unfold counted in *. split; auto; unfold counted; rewrite He in *.
    + specialize (Hle (w_ref a) (w_ref_nonneg a)). lia.
    + specialize (Hle (w_end true a) (w_end_nonneg true a)). lia.
    + specialize (Hle (w_end false a) (w_end_nonneg false a)). lia.
Qed.
Lemma fd_step_inv s l s' : fd_step s l s' -> inv s -> inv s'.
Proof.
  intros [] I.
  - by eapply read_inv.
  - by eapply write_inv.
  - destruct (fd_get s0 fd) as [f|] eqn:Hf; [by destruct (close_spec _ _ _ _ _ I Hf H) as (_ & I' & _)|].
    unfold sys_close in H. rewrite Hf in H. by injection H as <- <-.
  - by eapply dup_spec.
  - by eapply dup2_spec.
  - by eapply fcntl_spec.
  - by eapply pipe_inv.
  - by eapply lseek_inv.
  - by eapply getdents_inv.
  - by eapply chdir_inv.
  - eapply fills_inv; [by eapply eventfd_fills|done].
  - eapply fills_inv; [by eapply epoll_fills|done].
  - eapply fills_inv; [by eapply open_fills|done].
  - eapply fills_inv; [by eapply openat_fills|done].
  - by eapply frame_inv.
  - destruct I. by split.
  - by eapply fork_inv.
  - by apply exit_inv.
Qed.
Lemma reachable_inv s : fd_reachable s -> inv s.
Proof. induction 1; [by apply boot_inv|by eapply fd_step_inv]. Qed.

(** ** Ends *)
(** Some task has a descriptor of that end. *)
Definition has_end (reader : bool) (a : Z) s : Prop :=
  exists k t f, tasks s !! k = Some t /\ f ∈ fds t /\ is_pipe f = true /\ fpipe f = a /\ read_end f = reader.
Lemma has_end_total s b a : inv s -> has_end b a s -> 1 <= total (w_end b a) (tasks s).
Proof.
  intros I (k & t & f & Ht & Hf & Pf & <- & <-). destruct (iv_fds _ I _ _ Ht) as [_ Fo]. rewrite Forall_forall in Fo.
  destruct (fo_pipe _ (Fo _ Hf) Pf) as (_ & Uf & _). pose proof (fd_sum_in _ _ _ (w_end_nonneg (read_end f) (fpipe f)) Hf).
  pose proof (total_task _ _ _ _ (w_end_nonneg (read_end f) (fpipe f)) Ht). destruct (w_mine f (read_end f) Pf Uf) as [_ E].
  rewrite eqb_reflx in E. lia.
Qed.
Lemma sum_pos w l : 0 < fd_sum w l -> exists f, f ∈ l /\ 0 < w f.
Proof.
  unfold fd_sum. induction l as [|x l IH]; cbn [foldr]; [done|]. intros H. destruct (Z.lt_ge_cases 0 (w x)) as [Hx|Hx].
  - exists x. split; [left|done].
  - destruct IH as (f & Hf & Hw); [lia|]. exists f. split; [by right|done].
Qed.
Lemma total_has_end s b a : 0 < total (w_end b a) (tasks s) -> has_end b a s.
Proof.
  unfold has_end. generalize (tasks s). intros m. induction m as [|k t m Hk IH] using map_ind; [done|]. rewrite total_fresh by done. intros H.
  destruct (Z.lt_ge_cases 0 (fd_sum (w_end b a) (fds t))) as [Hs|Hs].
  - apply sum_pos in Hs as (f & Hf & Hw). exists k, t, f. unfold w_end in Hw. destruct (_ && _) eqn:Eb; [|done].
    rewrite !andb_true_iff, Z.eqb_eq, eqb_true_iff in Eb. rewrite lookup_insert_eq. destruct Eb as (((_ & E1) & E2) & E3). by splits.
  - destruct IH as (k' & t' & f & Ht & Hf); [lia|]. exists k', t', f. split; [|done]. rewrite lookup_insert_ne; [done|]. congruence.
Qed.
Lemma counted_zero n real : 0 <= real -> counted exact n real -> n = 0 -> real = 0.
Proof. unfold counted. destruct exact; lia. Qed.
Lemma no_end s a b n : inv s -> counted exact n (total (w_end b a) (tasks s)) -> n = 0 -> ~ has_end b a s.
Proof. intros I Hc -> H%has_end_total; [|done]. unfold counted in Hc. destruct exact; lia. Qed.
Lemma an_end s a b n : exact = true -> counted exact n (total (w_end b a) (tasks s)) -> 0 <= total (w_end b a) (tasks s) -> n <> 0 -> has_end b a s.
Proof. intros -> Hc Hn H. apply total_has_end. cbn in Hc. lia. Qed.
Lemma total_nonneg w m : (forall f, 0 <= w f) -> 0 <= total w m.
Proof.
  intros Hw. induction m as [|i x m' Hi IH] using map_ind; [done|]. rewrite total_fresh by done. pose proof (fd_sum_nonneg w (fds x) Hw). lia.
Qed.

(** [C2] Pipes live as long as their descriptors. After any history of calls,
    forks with plain standard descriptors and exits, closing, reading and writing a
    pipe's descriptor return and never meet freed memory; end of file is reported
    only when no task has a write end any more, a broken pipe only when none has a
    read end; and without exits, would-block only while the other end exists. *)
Theorem pipe_ends_counted s fd f : fd_reachable s -> fd_get s fd = Some f -> is_pipe f = true ->
  (exists s', sys_close s fd = Done (s', 0)) /\
  (forall seed at_ n, uptr range_ok s at_ n = true -> 0 < n <= USER_BUF_MAX ->
     exists s' r l, sys_read range_ok seed s fd at_ n = Done (s', r, l) /\
       (r = 0 -> ~ has_end false (fpipe f) s) /\ (r = -2 -> exact = true -> has_end false (fpipe f) s)) /\
  (forall e b, uptr range_ok s (u_at b) (len (u_data b)) = true ->
     exists s' r, sys_write range_ok e s fd b = Done (s', r) /\
       (r = -1 -> ~ has_end true (fpipe f) s) /\ (r = -2 -> exact = true -> has_end true (fpipe f) s)).
Proof.
  intros R Hf Ep. pose proof (reachable_inv _ R) as I. split; [|split].
  - destruct (pipe_at_live s fd f I Hf Ep) as (p & Ha & _). destruct (fd_get_spec _ _ _ I Hf) as (t & _ & _ & _ & _ & Ok).
    destruct (fo_pipe _ Ok Ep) as (_ & _ & Hn). unfold sys_close. rewrite Hf, Ep, (proj2 (Z.eqb_neq _ 0)) by done. cbn [andb negb].
    rewrite Ha. cbn [cbind]. eauto.
  - intros seed at_ n Hu Hn. destruct (read_pipe_eq seed s fd f at_ n I Hf Ep Hu) as (p & Hp & Ok & ->). destruct Ok as [_ _ R3 R4 _].
    pose proof (total_nonneg _ (tasks s) (w_end_nonneg false (fpipe f))).
    destruct (Z.eqb_spec (rcount (p_ring p)) 0) as [Hc|Hc].
    + do 3 eexists. split; [done|]. destruct (Z.eqb_spec (write_ends p) 0) as [Hw|Hw]; split; intros; try done; [by eapply no_end|by eapply an_end].
    + unfold pipe_read. destruct (ring_read _ _) as [l r'] eqn:Er. do 3 eexists. split; [done|].
      destruct (ring_read_spec _ _ _ _ R4 Er) as (_ & _ & Hl). destruct R4 as [_ _ Hb _].
      rewrite u32_small in Hl by (unfold USER_BUF_MAX in *; lia). split; intros; lia.
  - intros e b Hu. destruct (write_pipe_eq s fd f b e I Hf Ep Hu) as (p & Hp & Ok & ->). destruct Ok as [_ R2 _ R4 _].
    pose proof (total_nonneg _ (tasks s) (w_end_nonneg true (fpipe f))).
    destruct (Z.eqb_spec (read_ends p) 0) as [Hr|Hr]; [do 2 eexists; split; [done|]; split; intros; [by eapply no_end|done]|].
    destruct (Z.eqb_spec (rcount (p_ring p)) PIPE_BUF_SIZE); do 2 eexists; (split; [done|]); split; intros E; try done; [intros; by eapply an_end|..];
      unfold write_room in E; pose proof (u32_range (len (u_data b))); destruct R4 as [_ _ Hb _]; lia.
Qed.
End Inv.

(** ** A history *)
Definition demo_user (k : Z) : ptask := PTask k 0 1000 [100] 1 true std_fds (replicate 64 0) 0 0.
Definition demo_start : kstate unit := KState demo_root ∅ (replicate 16 no_pty) (replicate 16 (Epoll false [])) {[1 := demo_user 1]} 1 7 [].
Definition all_ok : Z -> Z -> bool := fun _ _ => true.
Definition or_else {A} (a : A) (c : call A) : A := match c with Done x => x | Fault _ => a end.
(** A pipe at address 4096 on descriptors 3 and 4, and a fork. *)
Definition demo_piped : kstate unit := fst (fst (or_else (demo_start, 0, None) (sys_pipe all_ok (Some 4096) demo_start 0))).
Definition demo_forked : kstate unit := or_else demo_start (fork_fds demo_piped (demo_user 2)).
Lemma demo_start_boot : fd_boot demo_start.
Proof. split; [done|]. intros k t H. cbn in H. apply lookup_singleton_Some in H as [_ <-]. done. Qed.
Lemma demo_forked_reachable exact : fd_reachable exact all_ok all_ok 10 demo_forked.
Proof.
  eapply (fr_step _ _ _ _ demo_piped Other); [eapply (fr_step _ _ _ _ demo_start Other); [by apply fr_boot, demo_start_boot|]|].
  - apply (st_pipe _ _ _ _ (Some 4096) demo_start 0 demo_piped 0 (Some (3, 4))); [intros a [= <-]; done|]. vm_compute. reflexivity.
  - apply (st_fork _ _ _ _ demo_piped (demo_user 2) (or_else (demo_user 1) (match cur demo_piped with Some t => Done t | None => Fault NullDeref end)));
      try (vm_compute; reflexivity).
    unfold std_plain. vm_compute (take 3 _). intros f Hf. repeat (apply elem_of_cons in Hf as [-> |Hf]; [reflexivity|]). by apply not_elem_of_nil in Hf.
Qed.

Lemma pipe_ends_counted_witness : exists (s : kstate unit) f, fd_reachable true all_ok all_ok 10 s /\ fd_get s 4 = Some f /\ is_pipe f = true /\
  exists s', sys_close s 4 = Done (s', 0).
Proof.
  exists demo_forked, (Fd 0 0 0 true true false 4096 FD_TYPE_FILE 0 0 None).
  assert (fd_get demo_forked 4 = Some (Fd 0 0 0 true true false 4096 FD_TYPE_FILE 0 0 None)) as H by (vm_compute; reflexivity).
  split; [exact (demo_forked_reachable true)|]. split; [exact H|]. split; [reflexivity|].
  exact (proj1 (pipe_ends_counted true all_ok all_ok 10 demo_forked 4 _ (demo_forked_reachable true) H eq_refl)).
Defined.
