(* ===== verification/FdFlow.v ===== *)
(** * What goes through descriptors, and where the model breaks

    A pipe is a queue: over any history of labelled calls, forks and exits what is
    read is what was written, in order. A descriptor that poll reports is one
    whose read or write does not ask to be tried again. And where that ends: a
    fork with a pipe on the standard descriptors. *)
From Stdlib Require Import ZArith Lia Bool String.
From stdpp Require Import base list numbers option gmap.
From S2P Require Import Prelude Vfs Fd Files FdProps.
#[local] Set Default Goal Selector "!".
Open Scope Z_scope.
Open Scope carray_scope.

(** ** Rings the calls do not move *)
Section Kept.
Context {D : Type}.
Implicit Types s : kstate D.

(** Every pipe there is was there, with the ring it has. *)
Definition kept s s' : Prop := forall a p', pipes s' !! a = Some p' -> exists p, pipes s !! a = Some p /\ p_ring p' = p_ring p.
Lemma kept_same s s' : pipes s' = pipes s -> kept s s'.
Proof. intros E a p Hp. rewrite E in Hp. eauto. Qed.
Lemma rings_kept_trans s1 s2 s3 : kept s1 s2 -> kept s2 s3 -> kept s1 s3.
Proof. intros H1 H2 a p3 (p2 & Hp2 & E2)%H2. destruct (H1 _ _ Hp2) as (p1 & Hp1 & E1). exists p1. split; [done|congruence]. Qed.
Lemma kept_put s a p p' : pipes s !! a = Some p -> p_ring p' = p_ring p -> kept s (put_pipe a p' s).
Proof.
  intros Hp E b q Hq. cbn in Hq. destruct (decide (b = a)) as [->|Hb]; [|rewrite lookup_insert_ne in Hq by done; eauto].
  rewrite lookup_insert_eq in Hq. injection Hq as <-. eauto.
Qed.
Lemma kept_pipe_put s a p p' : pipes s !! a = Some p -> p_ring p' = p_ring p -> kept s (pipe_put a p' s).
Proof.
  intros Hp E. unfold pipe_put. case_match; [|by eapply kept_put]. intros b q Hq. cbn in Hq. apply lookup_delete_Some in Hq as [_ Hq]. eauto.
Qed.

Lemma close_kept s fd s' r : sys_close s fd = Done (s', r) -> kept s s'.
Proof.
  unfold sys_close. destruct (fd_get s fd) as [f|]; [|intros [= <- <-]; by apply kept_same].
  intros E. destruct (_ && _).
  - destruct (pipe_at s (fpipe f)) as [p|] eqn:Ha; cbn [cbind] in E; [|done]. injection E as <- <-. apply pipe_at_spec in Ha.
    eapply rings_kept_trans; [eapply (kept_pipe_put _ _ p (drop_end (read_end f) p)); done|by apply kept_same].
  - destruct (is_ft f FD_TYPE_PTY_MASTER); cbn [cbind] in E; [injection E as <- <-; apply kept_same; by case_match|].
    destruct (negb _); cbn [cbind] in E; [|injection E as <- <-; by apply kept_same].
    destruct (vnode_at s (vn f)); cbn [cbind] in E; [|done]. injection E as <- <-. by apply kept_same.
Qed.
Lemma share_kept f s s' : share_fd f s = Done s' -> kept s s'.
Proof.
  unfold share_fd. intros E. destruct (_ && _).
  - destruct (pipe_at s (fpipe f)) as [p|] eqn:Ha; cbn [cbind] in E; [|done]. injection E as <-. apply pipe_at_spec in Ha. by eapply kept_put.
  - destruct (negb _); [|injection E as <-; by apply kept_same].
    destruct (vnode_at s (vn f)); cbn [cbind] in E; [|done]. injection E as <-. by apply kept_same.
Qed.
Lemma copy_kept f fd s s' : copy_fd f fd s = Done s' -> kept s s'.
Proof.
  unfold copy_fd. destruct (share_fd f s) as [s1|] eqn:Es; cbn [cbind]; [|done]. intros [= <-].
  eapply rings_kept_trans; [by eapply share_kept|by apply kept_same].
Qed.
Lemma dup_kept s fd s' r : linux_dup s fd = Done (s', r) -> kept s s'.
Proof.
  unfold linux_dup. intros E. destruct (fd_get s fd) as [f|]; [|injection E as <- <-; by apply kept_same].
  destruct (_ <? 0); [injection E as <- <-; by apply kept_same|].
  destruct (copy_fd _ _ _) eqn:Ec; cbn [cbind] in E; [|done]. injection E as <- <-. by eapply copy_kept.
Qed.
Lemma fcntl_kept s fd cmd arg s' r : linux_fcntl s fd cmd arg = Done (s', r) -> kept s s'.
Proof.
  unfold linux_fcntl. intros E. destruct (fd_get s fd) as [f|]; [|injection E as <- <-; by apply kept_same].
  destruct (_ || _).
  - destruct (_ <=? _); [injection E as <- <-; by apply kept_same|]. destruct (_ <? 0); [injection E as <- <-; by apply kept_same|].
    destruct (copy_fd _ _ _) eqn:Ec; cbn [cbind] in E; [|done]. injection E as <- <-. by eapply copy_kept.
  - destruct (_ =? F_GETFL); [injection E as <- <-; by apply kept_same|]. destruct (_ =? F_SETFL); injection E as <- <-; by apply kept_same.
Qed.
Lemma dup2_kept s a b s' r : sys_dup2 s a b = Done (s', r) -> kept s s'.
Proof.
  unfold sys_dup2. intros E. destruct (_ || _); [injection E as <- <-; by apply kept_same|]. destruct (negb _); [injection E as <- <-; by apply kept_same|].
  destruct (fd_get s a) as [f|]; [|injection E as <- <-; by apply kept_same]. destruct (_ =? _); [injection E as <- <-; by apply kept_same|].
  assert (exists s1 rc, (match fd_get s b with Some _ => sys_close s b | None => Done (s, 0) end) = Done (s1, rc) /\ kept s s1) as (s1 & rc & Ec & K).
  { destruct (fd_get s b); [|exists s, 0; split; [done|by apply kept_same]].
    destruct (sys_close s b) as [[s1 rc]|] eqn:Ec; [|done]. exists s1, rc. split; [done|]. by eapply close_kept. }
  rewrite Ec in E. cbn [cbind] in E. destruct (negb _); [by injection E as <- <-|].
  destruct (copy_fd _ _ _) eqn:Ef; cbn [cbind] in E; [|done]. injection E as <- <-. eapply rings_kept_trans; [done|by eapply copy_kept].
Qed.
Lemma frame_kept s s' : frame s s' -> kept s s'.
Proof. intros (_ & E & _). by apply kept_same. Qed.
Lemma fills_kept s s' : fills s s' -> kept s s'.
Proof. intros [H|(m & g & _ & _ & _ & H)]; [by apply frame_kept|]. eapply rings_kept_trans; [|by apply frame_kept]. by apply kept_same. Qed.
Lemma lseek_kept s fd off wh s' r : sys_lseek s fd off wh = Done (s', r) -> kept s s'.
Proof.
  unfold sys_lseek. intros E. apply kept_same. destruct (fd_get s fd) as [f|]; [|by injection E as <- <-].
  destruct (_ =? 0); [by injection E as <- <-|]. destruct (_ =? 1); [by injection E as <- <-|].
  destruct (_ =? 2); [|by injection E as <- <-]. destruct (vn f =? 0); [by injection E as <- <-|].
  destruct (vnode_at s (vn f)); cbn [cbind] in E; [|done]. by injection E as <- <-.
Qed.
Lemma getdents_kept range_ok s fd at_ cnt s' r l : sys_getdents range_ok s fd at_ cnt = Done (s', r, l) -> kept s s'.
Proof.
  unfold sys_getdents. intros E. apply kept_same. destruct (256 <? cnt); [by injection E as <- <- <-|]. destruct (negb _); [by injection E as <- <- <-|].
  destruct (fd_get s fd) as [f|]; [|by injection E as <- <- <-]. destruct (fd <? 3); [by injection E as <- <- <-|].
  destruct (vnode_at s (vn f)); cbn [cbind] in E; [|done]. destruct (negb _); [by injection E as <- <- <-|]. destruct (negb _); by injection E as <- <- <-.
Qed.
Lemma chdir_kept str_ok fuel s us s' r : sys_chdir str_ok fuel s us = Done (s', r) -> kept s s'.
Proof.
  unfold sys_chdir. intros E. apply kept_same. destruct (copy_user_str _ _ _ _); [|by injection E as <- <-].
  destruct (cur_cwd s) as [c|]; cbn [cbind] in E; [|done]. destruct (look _ _ _ _) as [a|]; cbn [cbind] in E; [|done].
  destruct (negb _); [by injection E as <- <-|]. destruct (negb _); by injection E as <- <-.
Qed.
Lemma fork_kept s child s' : fork_fds s child = Done s' -> kept s s'.
Proof.
  unfold fork_fds, share_from. destruct (cur s) as [t|]; [|intros [= <-]; by apply kept_same]. generalize (seqZ 3 (MAX_FD - 3)) as ks. intros ks E.
  assert (forall (m : call (kstate D)) s1, fold_left (fun m i =>
    let! s := m in let f := nth (Z.to_nat i) (fds t) no_fd in if in_use f then share_fd f s else Done s) ks m = Done s1 ->
    exists s0, m = Done s0 /\ kept s0 s1) as H.
  { clear E. induction ks as [|i ks IH]; intros m s1 E; cbn [fold_left] in E; [exists s1; split; [done|by apply kept_same]|].
    apply IH in E as (s2 & E & K). destruct m as [s0|]; cbn [cbind] in E; [|done]. exists s0. split; [done|].
    eapply rings_kept_trans; [|exact K]. cbv zeta in E. destruct (in_use _); [by eapply share_kept|]. injection E as <-. by apply kept_same. }
  destruct (fold_left _ _ _) as [s1|] eqn:Es in E; cbn [cbind] in E; [|done]. injection E as <-.
  destruct (H _ _ Es) as (s0 & [= <-] & K). eapply rings_kept_trans; [exact K|by apply kept_same].
Qed.
End Kept.

(** ** Pipes as queues *)
Section Queues.
Context {D : Type} (exact : bool) (range_ok str_ok : Z -> Z -> bool) (fuel : nat).
Implicit Types s : kstate D.
#[local] Abbreviation step := (fd_step exact range_ok str_ok fuel).
#[local] Abbreviation reachable := (fd_reachable exact range_ok str_ok fuel).

(** What a label says of the pipe at [a]. *)
Definition sent (a : Z) (l : traffic) : list Z := match l with Wrote b d => if a =? b then d else [] | _ => [] end.
Definition got (a : Z) (l : traffic) : list Z := match l with Got b d => if a =? b then d else [] | _ => [] end.
(** A history during which the pipe lives, the bytes that went in and came out. *)
Inductive pipe_run (a : Z) : kstate D -> list Z -> list Z -> kstate D -> Prop :=
| pr_nil s : pipe_run a s [] [] s
| pr_step s l s1 ins outs s2 : step s l s1 -> is_Some (pipes s1 !! a) -> pipe_run a s1 ins outs s2 ->
    pipe_run a s (sent a l ++ ins) (got a l ++ outs) s2.

(** A step, seen from the queue of one pipe. *)
Definition relayed (a : Z) s (l : traffic) s' : Prop := forall p p', pipes s !! a = Some p -> pipes s' !! a = Some p' ->
  queue (p_ring p) ++ sent a l = got a l ++ queue (p_ring p').
Lemma kept_relayed a s s' : kept s s' -> relayed a s Other s'.
Proof. intros K p p' Hp (q & Hq & E)%K. cbn. rewrite app_nil_r, E. congruence. Qed.

Lemma write_relayed a s e fd b s' r : inv exact s -> sys_write range_ok e s fd b = Done (s', r) ->
  relayed a s (through Wrote s fd (take (Z.to_nat r) (u_data b))) s'.
Proof.
  intros I E. unfold through. destruct (fd_get s fd) as [f|] eqn:Hf; [destruct (is_pipe f) eqn:Ep|].
  - assert (s' = s /\ r < 0 -> relayed a s (Wrote (fpipe f) (take (Z.to_nat r) (u_data b))) s') as Hsame.
    { intros [-> Hr] p p' Hp Hp'. cbn. assert (p' = p) as -> by congruence. rewrite (Z2Nat.nonpos r) by lia. case_match; by rewrite ?app_nil_r. }
    destruct (uptr range_ok s (u_at b) (len (u_data b))) eqn:Hu; cycle 1.
    { unfold sys_write in E. rewrite Hu in E. injection E as <- <-. by apply Hsame. }
    destruct (write_pipe_eq exact range_ok s fd f b e I Hf Ep Hu) as (q & Hq & Ok & E'). rewrite E' in E.
    destruct (read_ends q =? 0); [injection E as <- <-; by apply Hsame|].
    destruct (_ =? PIPE_BUF_SIZE); [injection E as <- <-; by apply Hsame|]. injection E as <- <-.
    intros p p' Hp Hp'. cbn [sent got app]. cbn in Hp'. destruct (Z.eqb_spec a (fpipe f)) as [->|Ha].
    + rewrite lookup_insert_eq in Hp'. injection Hp' as <-. assert (q = p) as -> by congruence. pose proof (po_ring _ _ _ _ Ok) as Hr.
      destruct (len_take_room p (u_data b)) as [Hl|Hl]; [|destruct Hr; lia]. by destruct (pipe_write_ring p _ Hr Hl) as [_ ->].
    + rewrite lookup_insert_ne in Hp' by done. rewrite app_nil_r. congruence.
  - apply kept_relayed, kept_same. destruct (fd_get_spec exact s fd f I Hf) as (t & _ & _ & _ & _ & Ok). unfold sys_write in E. rewrite Hf in E.
    rewrite (pipe_fd_spec f Ok), Ep in E. unfold pty_write_master, pty_write_slave in E.
    repeat case_match; simplify_eq; try done; cbn [cbind] in *; simplify_eq; try done.
    all: destruct (vnode_at s (vn f)) as [v|]; cbn [cbind] in E; [|done]; repeat case_match; by simplify_eq.
  - apply kept_relayed, kept_same. unfold sys_write in E. rewrite Hf in E. repeat case_match; by simplify_eq.
Qed.

Lemma read_relayed a seed s fd at_ n s' r l : inv exact s -> sys_read range_ok seed s fd at_ n = Done (s', r, l) ->
  relayed a s (through Got s fd l) s'.
Proof.
  intros I E. unfold through. destruct (fd_get s fd) as [f|] eqn:Hf; [destruct (is_pipe f) eqn:Ep|].
  - destruct (uptr range_ok s at_ n) eqn:Hu; cycle 1.
    { unfold sys_read in E. rewrite Hu in E. injection E as <- <- <-. intros p p' Hp Hp'. cbn. replace p' with p by congruence. rewrite app_nil_r; by destruct (a =? fpipe f). }
    destruct (read_pipe_eq exact range_ok seed s fd f at_ n I Hf Ep Hu) as (q & Hq & Ok & E'). rewrite E' in E.
    destruct (_ =? 0).
    { injection E as <- <- <-. intros p p' Hp Hp'. cbn. replace p' with p by congruence. rewrite app_nil_r; by destruct (a =? fpipe f). }
    unfold pipe_read in E. destruct (ring_read _ _) as [d r'] eqn:Er. injection E as <- <- <-.
    intros p p' Hp Hp'. cbn [sent got app]. rewrite app_nil_r. cbn in Hp'. destruct (Z.eqb_spec a (fpipe f)) as [->|Ha].
    + rewrite lookup_insert_eq in Hp'. injection Hp' as <-. assert (q = p) as -> by congruence.
      by destruct (ring_read_spec _ _ _ _ (po_ring _ _ _ _ Ok) Er) as (_ & -> & _).
    + rewrite lookup_insert_ne in Hp' by done. cbn. congruence.
  - apply kept_relayed, kept_same. destruct (fd_get_spec exact s fd f I Hf) as (t & _ & _ & _ & _ & Ok). unfold sys_read in E. rewrite Hf in E.
    rewrite (pipe_fd_spec f Ok), Ep in E. unfold pty_read_master, pty_read_slave in E.
    repeat case_match; simplify_eq; try done; cbn [cbind] in *; simplify_eq; try done.
    all: destruct (vnode_at s (vn f)) as [v|]; cbn [cbind] in E; [|done]; repeat case_match; by simplify_eq.
  - apply kept_relayed, kept_same. unfold sys_read in E. rewrite Hf in E. repeat case_match; by simplify_eq.
Qed.

Lemma pipe_relayed a mem s at_ s' r l : (forall b, mem = Some b -> b <> 0 /\ pipes s !! b = None) ->
  sys_pipe range_ok mem s at_ = Done (s', r, l) -> relayed a s Other s'.
Proof.
  intros Hm E p p' Hp Hp'. cbn. rewrite app_nil_r. unfold sys_pipe in E.
  assert (pipes s' !! a = pipes s !! a) as Ea; [|congruence].
  destruct (negb _); [by injection E as <- <- <-|]. destruct (negb _); [by injection E as <- <- <-|].
  destruct (cur s) as [t|]; [|by injection E as <- <- <-]. destruct (_ <? 0); [by injection E as <- <- <-|].
  destruct (_ <? 0); [by injection E as <- <- <-|]. destruct mem as [b|]; [|by injection E as <- <- <-].
  destruct (Hm b eq_refl) as [_ Hb]. injection E as <- <- <-. cbn. rewrite lookup_insert_ne; [done|congruence].
Qed.

Lemma step_relayed a s l s' : step s l s' -> inv exact s -> relayed a s l s'.
Proof.
  intros [] I.
  - by eapply read_relayed.
  - by eapply write_relayed.
  - apply kept_relayed. by eapply close_kept.
  - apply kept_relayed. by eapply dup_kept.
  - apply kept_relayed. by eapply dup2_kept.
  - apply kept_relayed. by eapply fcntl_kept.
  - by eapply pipe_relayed.
  - apply kept_relayed. by eapply lseek_kept.
  - apply kept_relayed. by eapply getdents_kept.
  - apply kept_relayed. by eapply chdir_kept.
  - apply kept_relayed, fills_kept. by eapply eventfd_fills.
  - apply kept_relayed, fills_kept. by eapply epoll_fills.
  - apply kept_relayed, fills_kept. by eapply open_fills.
  - apply kept_relayed, fills_kept. by eapply openat_fills.
  - by apply kept_relayed, frame_kept.
  - by apply kept_relayed, kept_same.
  - apply kept_relayed. by eapply fork_kept.
  - by apply kept_relayed, kept_same.
Qed.

(** [C5] A pipe is a bounded queue. From any reachable state, over any history of
    calls of any tasks, forks and exits during which the pipe lives, each call one step
    and every fork of a task with no pipe on its descriptors 0 to 2 (a fork does not
    count those), the bytes it held followed by the bytes the writes took are the
    bytes the reads returned followed by the bytes it holds: nothing is lost, repeated or
    reordered, in whatever order the calls come and however often the ring wraps; and it
    never holds more than its 4096 bytes. *)
Theorem pipe_fifo a s ins outs s' p p' : reachable s -> pipe_run a s ins outs s' ->
  pipes s !! a = Some p -> pipes s' !! a = Some p' ->
  queue (p_ring p) ++ ins = outs ++ queue (p_ring p') /\ len (queue (p_ring p')) <= PIPE_BUF_SIZE.
Proof.
  intros R Run. revert p R. induction Run as [s|s l s1 ins outs s2 St [q Hq] Run IH]; intros p R Hp Hp'.
  - replace p' with p by congruence. rewrite app_nil_r. split; [done|]. pose proof (iv_pipes _ _ (reachable_inv _ _ _ _ _ R) a p Hp) as [_ _ _ H _].
    rewrite len_queue by done. destruct H; lia.
  - destruct (IH q (fr_step _ _ _ _ _ _ _ R St) Hq Hp') as [E H]. split; [|done].
    pose proof (step_relayed a s l s1 St (reachable_inv _ _ _ _ _ R) p q Hp Hq) as E1. by rewrite app_assoc, E1, <- !app_assoc, E.
Qed.

(** ** Readiness *)
(** A read, a write, that asks to be tried again. *)
Definition idle_in s (f : fd_entry) : Prop :=
  (ftype f = FD_TYPE_EVENTFD /\ eventfd_val f = 0) \/
  (is_pipe f = true /\ exists p, pipes s !! fpipe f = Some p /\ rcount (p_ring p) = 0 /\ write_ends p <> 0).
Definition full_out s (f : fd_entry) : Prop :=
  is_pipe f = true /\ exists p, pipes s !! fpipe f = Some p /\ rcount (p_ring p) = PIPE_BUF_SIZE /\ read_ends p <> 0.
Lemma is_ft_true f t : is_ft f t = true <-> ftype f = t.
Proof. apply bool_decide_eq_true. Qed.
Lemma vfs_read_rc v off n r l : 0 <= n -> vfs_read v off n = Some (r, l) -> -1 <= r.
Proof.
  intros Hn. unfold vfs_read. repeat (case_match; try done); intros [= <- <-]; try lia; pose proof (u64_range (size v - off)); lia.
Qed.
Lemma vfs_write_rc e v d off r v' : vfs_write e v d off = Result r v' -> -1 <= r.
Proof. unfold vfs_write. repeat (case_match; try done); intros [= <- <-]; unfold len; lia. Qed.
Lemma pty_type_rc bs : forall p, 0 <= snd (pty_type p bs).
Proof. induction bs as [|b bs IH]; intros p; cbn; [done|]. case_match; [|done]. destruct (pty_type _ bs) eqn:E; specialize (IH (with_rings (ring_put (pt_in p) b) (if negb (Z.land (c_lflag p) ECHO =? 0) && (rcount (pt_out p) <? PTY_BUF_SZ) then ring_put (pt_out p) b else pt_out p) p)). rewrite E in IH. cbn in *. lia. Qed.
Lemma pty_print_rc bs : forall p, 0 <= snd (pty_print p bs).
Proof. induction bs as [|b bs IH]; intros p; cbn; [done|]. case_match; [|done]. specialize (IH (with_rings (pt_in p) (ring_put (pt_out p) b) p)). destruct (pty_print _ bs). cbn in *. lia. Qed.

Lemma read_retry seed s fd f at_ n s' k l : inv exact s -> fd_get s fd = Some f -> uptr range_ok s at_ n = true ->
  8 <= n <= USER_BUF_MAX -> sys_read range_ok seed s fd at_ n = Done (s', k, l) -> k = -2 <-> idle_in s f.
Proof.
  intros I Hf Hu Hn E. destruct (fd_get_spec exact s fd f I Hf) as (t & Ht & _ & _ & _ & Ok). unfold idle_in.
  destruct (is_pipe f) eqn:Ep.
  - destruct (read_pipe_eq exact range_ok seed s fd f at_ n I Hf Ep Hu) as (p & Hp & Hk & E'). rewrite E' in E.
    destruct (fo_pipe _ Ok Ep) as (Et & _ & _). destruct (Z.eqb_spec (rcount (p_ring p)) 0) as [Hc|Hc].
    + injection E as <- <- <-. destruct (Z.eqb_spec (write_ends p) 0); split; try done.
      * intros [[E1 _]|(_ & q & Hq & _ & H)]; congruence.
      * intros _. right. split; [done|]. by exists p.
    + unfold pipe_read in E. destruct (ring_read _ _). injection E as <- <- <-. split; [unfold len; lia|].
      intros [[E1 _]|(_ & q & Hq & H & _)]; congruence.
  - assert (k = -2 <-> ftype f = FD_TYPE_EVENTFD /\ eventfd_val f = 0) as ->; [|split; [by left|by intros [H|[H _]]]].
    unfold sys_read in E. rewrite Hu, Hf in E. cbn [negb] in E. rewrite (pipe_fd_spec f Ok), Ep in E.
    unfold pty_read_master, pty_read_slave in E. destruct (is_ft f FD_TYPE_EVENTFD) eqn:Ee.
    + apply is_ft_true in Ee. unfold is_ft in E. rewrite Ee in E. cbn in E. rewrite (proj2 (Z.ltb_ge n 8)) in E by lia.
      destruct (Z.eqb_spec (eventfd_val f) 0); injection E as <- <- <-; (split; [done|by intros []]).
    + assert (ftype f <> FD_TYPE_EVENTFD) as Hne by (intros H%is_ft_true; congruence).
      split; [|by intros [H _]]. intros ->. exfalso.
      repeat case_match; simplify_eq; unfold len in *; try lia.
      destruct (vnode_at s (vn f)) as [v|]; cbn [cbind] in E; [|done]. destruct (negb _); [done|].
      destruct (vfs_read v (pos f) n) as [[r d]|] eqn:Er; [|done]. injection E as _ -> _. apply vfs_read_rc in Er; lia.
Qed.
Lemma write_retry e s fd f b s' k : inv exact s -> fd_get s fd = Some f -> uptr range_ok s (u_at b) (len (u_data b)) = true ->
  sys_write range_ok e s fd b = Done (s', k) -> k = -2 <-> full_out s f.
Proof.
  intros I Hf Hu E. destruct (fd_get_spec exact s fd f I Hf) as (t & Ht & _ & _ & _ & Ok). unfold full_out.
  destruct (is_pipe f) eqn:Ep.
  - destruct (write_pipe_eq exact range_ok s fd f b e I Hf Ep Hu) as (p & Hp & Hk & E'). rewrite E' in E.
    destruct (po_ring _ _ _ _ Hk) as [_ _ Hr _].
    destruct (Z.eqb_spec (read_ends p) 0); [injection E as <- <-; split; [done|]; intros (_ & q & Hq & _ & H); congruence|].
    destruct (Z.eqb_spec (rcount (p_ring p)) PIPE_BUF_SIZE); injection E as <- <-; [split; [by eauto 10|done]|].
    split; [unfold write_room; pose proof (u32_range (len (u_data b))); lia|]. intros (_ & q & Hq & H & _); congruence.
  - split; [|by intros []]. intros ->. exfalso. unfold sys_write in E. rewrite Hu, Hf in E. cbn [negb] in E. rewrite (pipe_fd_spec f Ok), Ep in E.
    unfold pty_write_master, pty_write_slave in E. pose proof (pty_type_rc (u_data b) (pty_at s (pty_id f))). pose proof (pty_print_rc (u_data b) (pty_at s (pty_id f))).
    repeat case_match; simplify_eq; cbn [snd] in *; unfold len in *; try lia.
    destruct (vnode_at s (vn f)) as [v|]; cbn [cbind] in E; [|done]. destruct (negb _); [done|].
    destruct (vfs_write e v (u_data b) (pos f)) as [|w v'] eqn:Er; [done|]. injection E as _ ->. apply vfs_write_rc in Er. lia.
Qed.

Lemma poll_spec s fd f ev r : inv exact s -> fd_get s fd = Some f -> linux_check_fd_events s fd ev = Done r ->
  (Z.land r POLLIN <> 0 -> ~ idle_in s f) /\
  (is_pipe f = true -> read_end f = true -> Z.land ev POLLIN <> 0 -> ~ idle_in s f -> Z.land r POLLIN <> 0) /\
  (Z.land r POLLOUT <> 0 -> ~ full_out s f) /\
  (is_pipe f = true -> read_end f = false -> Z.land ev POLLOUT <> 0 -> ~ full_out s f -> Z.land r (Z.lor POLLOUT POLLERR) <> 0).
Proof.
  intros I Hf E. destruct (fd_get_spec exact s fd f I Hf) as (t & Ht & Hfd & _ & _ & Ok).
  unfold linux_check_fd_events in E. rewrite (proj2 (Z.ltb_ge fd 0)), (proj2 (Z.leb_gt _ fd)), Hf in E by lia. cbn [orb] in E.
  destruct (is_pipe f) eqn:Ep.
  - destruct (pipe_branch f Ok Ep) as (Hft & Hpf & Hn). rewrite !Hft, Hpf, Hn in E by done. cbn [orb] in E.
    destruct (pipe_at_live exact s fd f I Hf Ep) as (p & Ha & Hp). rewrite Ha in E. cbn [cbind] in E. apply pipe_at_spec in Ha.
    destruct (po_ring _ _ _ _ Hp) as [_ _ Hc _]. destruct (fo_pipe _ Ok Ep) as (Et & _ & _).
    assert (idle_in s f <-> rcount (p_ring p) = 0 /\ write_ends p <> 0) as ->.
    { split; [intros [[H _]|(_ & q & Hq & H)]; [congruence|by replace p with q by congruence]|]. intros H. right. split; [done|]. by exists p. }
    assert (full_out s f <-> rcount (p_ring p) = PIPE_BUF_SIZE /\ read_ends p <> 0) as ->.
    { split; [intros (_ & q & Hq & H); by replace p with q by congruence|]. intros H. split; [done|]. by exists p. }
    rewrite u32_small in E by (unfold PIPE_BUF_SIZE in *; lia).
    destruct (read_end f); injection E as <-.
    + destruct (Z.ltb_spec 0 (rcount (p_ring p))), (Z.eqb_spec (write_ends p) 0), (Z.eqb_spec (Z.land ev POLLIN) 0); cbn; splits; (done || lia).
    + destruct (Z.ltb_spec 0 (PIPE_BUF_SIZE - rcount (p_ring p))), (Z.eqb_spec (read_ends p) 0), (Z.eqb_spec (Z.land ev POLLOUT) 0); cbn; splits; (done || lia).
  - splits; try done.
    + intros Hr [[Et Hv]|[H _]]; [|congruence]. unfold is_ft in E. rewrite Et in E. rewrite (pipe_fd_spec f Ok), Ep, Hv in E. cbn in E.
      injection E as <-. rewrite andb_false_r in Hr. revert Hr. by destruct (negb _).
    + intros _ [H _]; congruence.
Qed.

(** [C16] Poll tells the truth about blocking. On any descriptor in a reachable
    state, if poll reports POLLIN, a read of eight bytes or more does not return
    "try again", and if it reports POLLOUT, no write does. For the end of a pipe that
    is polled for what it can do the converse holds too: a read (write) that would
    not be asked to try again is reported, as POLLIN (as POLLOUT or POLLERR). *)
Theorem poll_exact s fd f ev r : reachable s -> fd_get s fd = Some f -> linux_check_fd_events s fd ev = Done r ->
  (forall seed at_ n s' k l, uptr range_ok s at_ n = true -> 8 <= n <= USER_BUF_MAX ->
     sys_read range_ok seed s fd at_ n = Done (s', k, l) ->
     (Z.land r POLLIN <> 0 -> k <> -2) /\
     (is_pipe f = true -> read_end f = true -> Z.land ev POLLIN <> 0 -> k <> -2 -> Z.land r POLLIN <> 0)) /\
  (forall e b s' k, uptr range_ok s (u_at b) (len (u_data b)) = true ->
     sys_write range_ok e s fd b = Done (s', k) ->
     (Z.land r POLLOUT <> 0 -> k <> -2) /\
     (is_pipe f = true -> read_end f = false -> Z.land ev POLLOUT <> 0 -> k <> -2 -> Z.land r (Z.lor POLLOUT POLLERR) <> 0)).
Proof.
  intros R Hf Hr. pose proof (reachable_inv _ _ _ _ _ R) as I.
  destruct (poll_spec s fd f ev r I Hf Hr) as (H1 & H2 & H3 & H4). split.
  - intros seed at_ n s' k l Hu Hn E. pose proof (read_retry seed s fd f at_ n s' k l I Hf Hu Hn E) as Hk. rewrite Hk. auto.
  - intros e b s' k Hu E. pose proof (write_retry e s fd f b s' k I Hf Hu E) as Hk. rewrite Hk. auto.
Qed.
End Queues.

(** ** Where the counts end *)
(** A pipe put on the standard output, as a shell does, and a fork; then the parent
    closes its descriptors, the child those of the pipe but its output, and writes. *)
Definition write_after_fork : call (kstate unit * Z) :=
  let! (s, _, _) := sys_pipe all_ok (Some 4096) demo_start 0 in
  let! (s, _) := sys_dup2 s 4 1 in
  let! s := fork_fds s (demo_user 2) in
  let! (s, _) := sys_close s 3 in
  let! (s, _) := sys_close s 4 in
  let! (s, _) := sys_close s 1 in
  let s := with_me 2 s in
  let! (s, _) := sys_close s 3 in
  let! (s, _) := sys_close s 4 in
  sys_write all_ok demo_env s 1 (Ubuf 0 [104; 105]).
(** A fork copies the descriptors 0 to 2 without counting them: with a pipe on the
    standard output this ends in a write to a freed pipe. *)
Lemma fork_uses_freed : write_after_fork = Fault UseAfterFree.
Proof. vm_compute. reflexivity. Qed.

(** Three bytes through the pipe, in two reads. *)
Definition demo_said : kstate unit := fst (or_else (demo_start, 0) (sys_write all_ok demo_env demo_forked 4 (Ubuf 0 [1; 2; 3]))).
Definition demo_heard : kstate unit := fst (fst (or_else (demo_start, 0, []) (sys_read all_ok 0 (with_me 2 demo_said) 3 0 2))).
Lemma demo_run : pipe_run true all_ok all_ok 10 4096 demo_forked ([1; 2; 3] ++ [] ++ [] ++ []) ([] ++ [] ++ [1; 2] ++ []) demo_heard.
Proof.
  apply (pr_step _ _ _ _ 4096 demo_forked (Wrote 4096 [1; 2; 3]) demo_said [] [1; 2]); [|vm_compute; eauto|].
  - apply (st_write true all_ok all_ok 10 demo_env demo_forked 4 (Ubuf 0 [1; 2; 3]) demo_said 3). vm_compute. reflexivity.
  - apply (pr_step _ _ _ _ 4096 demo_said Other (with_me 2 demo_said) [] [1; 2]); [by apply st_switch|vm_compute; eauto|].
    apply (pr_step _ _ _ _ 4096 (with_me 2 demo_said) (Got 4096 [1; 2]) demo_heard [] []); [|vm_compute; eauto|by apply pr_nil].
    apply (st_read true all_ok all_ok 10 0 (with_me 2 demo_said) 3 0 2 demo_heard 2 [1; 2]). vm_compute. reflexivity.
Qed.

Lemma pipe_fifo_witness : exists p', pipes demo_heard !! 4096 = Some p' /\ queue (p_ring p') = [3].
Proof.
  destruct (pipes demo_forked !! 4096) as [p|] eqn:Hp; [|vm_compute in Hp; discriminate].
  destruct (pipes demo_heard !! 4096) as [p'|] eqn:Hp'; [|vm_compute in Hp'; discriminate].
  destruct (pipe_fifo true all_ok all_ok 10 4096 demo_forked _ _ demo_heard p p' (demo_forked_reachable true) demo_run Hp Hp') as [E _].
  exists p'. split; [reflexivity|]. assert (queue (p_ring p) = []) as E0.
  { assert (Some p = Some pipe_new \/ queue (p_ring p) = []) as [H|H]; [|injection H as ->; reflexivity|exact H].
    right. rewrite <- (f_equal (fun o => match o with Some q => queue (p_ring q) | None => [] end) Hp). vm_compute. reflexivity. }
  rewrite E0 in E. cbn [app] in E. injection E as E. symmetry. exact E.
Defined.

Lemma poll_exact_witness : exists (s' : kstate unit) l,
  linux_check_fd_events demo_said 3 POLLIN = Done POLLIN /\ sys_read all_ok 0 demo_said 3 0 8 = Done (s', 3, l) /\ 3 <> -2.
Proof.
  assert (fd_reachable true all_ok all_ok 10 demo_said) as R.
  { eapply (fr_step _ _ _ _ demo_forked (Wrote 4096 [1; 2; 3])); [apply demo_forked_reachable|].
    apply (st_write true all_ok all_ok 10 demo_env demo_forked 4 (Ubuf 0 [1; 2; 3]) demo_said 3). vm_compute. reflexivity. }
  assert (fd_get demo_said 3 = Some (Fd 0 0 0 true true true 4096 FD_TYPE_FILE 0 0 None)) as H by (vm_compute; reflexivity).
  assert (linux_check_fd_events demo_said 3 POLLIN = Done POLLIN) as Hc by (vm_compute; reflexivity).
  destruct (poll_exact true all_ok all_ok 10 demo_said 3 _ POLLIN POLLIN R H Hc) as [Hr _].
  destruct (sys_read all_ok 0 demo_said 3 0 8) as [[[s' k] l]|] eqn:E; [|vm_compute in E; discriminate].
  exists s', l. split; [exact Hc|]. destruct (Hr 0 0 8 s' k l eq_refl ltac:(vm_compute; split; discriminate) E) as [Hk _].
  assert (k = 3) as -> by (vm_compute in E; injection E; congruence). split; [reflexivity|apply Hk; discriminate].
Defined.
