(* ===== verification/PipeRace.v ===== *)
(** * A reader and a writer of one pipe on two CPUs

    [pipe_write] and [pipe_read] of kernel/arch/x86_64/syscall.c take no lock. [Fd]
    makes a step of each call; here they are taken apart into their loads and stores,
    which the CPUs interleave. Run without interruption they are the functions of
    [Fd]; interleaved, they lose bytes and make bytes up. *)
From Stdlib Require Import ZArith Lia Bool.
From stdpp Require Import base list numbers option relations.
From S2P Require Import Prelude Vfs Fd FdProps.
#[local] Set Default Goal Selector "!".
Open Scope Z_scope.
Open Scope carray_scope.

(** ** The two loops, an access to the pipe at a time *)
(** [pipe_write]: bytes left to store, and the [n] to add to the count at the end;
    [WPut] holds the sum that is about to be stored. *)
Inductive writer := WCopy (src : list Z) (n : Z) | WMove (src : list Z) (n : Z) | WPut (v : Z) | WDone.
(** [pipe_read]: bytes still wanted and bytes got; [RPut] holds the difference that is
    about to be stored. *)
Inductive reader :=
| RTest (n : nat) (got : list Z) | RByte (n : nat) (got : list Z) | RMove (n : nat) (got : list Z)
| RLoad (n : nat) (got : list Z) | RPut (n : nat) (got : list Z) (v : Z) | RDone (got : list Z).

Definition set_count (v : Z) (r : ring) : ring := Ring (rbuf r) (rhead r) (rtail r) v.
Definition store_head (b : Z) (r : ring) : ring := Ring ((rbuf r).[rhead r <- b]) (rhead r) (rtail r) (rcount r).
Definition move_head (r : ring) : ring := Ring (rbuf r) ((rhead r + 1) mod PIPE_BUF_SIZE) (rtail r) (rcount r).
Definition move_tail (r : ring) : ring := Ring (rbuf r) (rhead r) ((rtail r + 1) mod PIPE_BUF_SIZE) (rcount r).

Definition write_step (r : ring) (w : writer) : option (ring * writer) :=
  match w with
  | WCopy (b :: src) n => Some (store_head b r, WMove src n)
  | WMove src n => Some (move_head r, WCopy src n)
  | WCopy [] n => Some (r, WPut (u32 (rcount r + n)))
  | WPut v => Some (set_count v r, WDone)
  | WDone => None
  end.
Definition read_step (r : ring) (x : reader) : option (ring * reader) :=
  match x with
  | RTest O got => Some (r, RDone got)
  | RTest (S n) got => Some (r, if 0 <? rcount r then RByte n got else RDone got)
  | RByte n got => Some (r, RMove n (got ++ [ring_byte r]))
  | RMove n got => Some (move_tail r, RLoad n got)
  | RLoad n got => Some (r, RPut n got (u32 (rcount r - 1)))
  | RPut n got v => Some (set_count v r, RTest n got)
  | RDone _ => None
  end.

Record pair_state := Pair { ring_of : ring; wr : writer; rd : reader }.
Inductive cpu_step : pair_state -> pair_state -> Prop :=
| step_writer r w x r' w' : write_step r w = Some (r', w') -> cpu_step (Pair r w x) (Pair r' w' x)
| step_reader r w x r' x' : read_step r x = Some (r', x') -> cpu_step (Pair r w x) (Pair r' w x').
Notation "s ~> s'" := (rtc cpu_step s s') (at level 70).

Ltac one := eapply rtc_l; [constructor; reflexivity|].
Ltac one_read := eapply rtc_l; [apply step_reader; reflexivity|].

(** ** Without interruption *)
(** The stores of the writer's loop, the count aside. *)
Fixpoint stored (src : list Z) (r : ring) : ring :=
  match src with [] => r | b :: src => stored src (move_head (store_head b r)) end.
Lemma stored_count src : forall r v, stored src (set_count v r) = set_count v (stored src r) /\ rcount (stored src r) = rcount r /\ rtail (stored src r) = rtail r.
Proof. induction src as [|b src IH]; intros r v; [done|]. cbn [stored]. exact (IH (move_head (store_head b r)) v). Qed.
Lemma stored_spec src : forall r, fold_left ring_put src r = set_count (rcount r + len src) (stored src r).
Proof.
  induction src as [|b src IH]; intros r; cbn [fold_left stored].
  { unfold len. cbn. rewrite Z.add_0_r. by destruct r. }
  rewrite IH. change (ring_put r b) with (set_count (rcount r + 1) (move_head (store_head b r))).
  rewrite (proj1 (stored_count src _ _)). unfold len, set_count. cbn [length rcount]. f_equal. lia.
Qed.
Lemma write_loop src n x : forall r, Pair r (WCopy src n) x ~> Pair (stored src r) (WCopy [] n) x.
Proof. induction src as [|b src IH]; intros r; [apply rtc_refl|]. one. one. apply IH. Qed.
Lemma write_alone src r x : ring_ok r -> len src + rcount r <= PIPE_BUF_SIZE ->
  Pair r (WCopy src (len src)) x ~> Pair (fold_left ring_put src r) WDone x.
Proof.
  intros [_ _ C _] H. etrans; [apply write_loop|]. one. one.
  rewrite stored_spec, (proj1 (proj2 (stored_count src r 0))), u32_small by (unfold PIPE_BUF_SIZE, len in *; lia). apply rtc_refl.
Qed.
(** One round of the reader's loop. *)
Lemma read_round n got r w : ring_ok r -> 0 < rcount r ->
  Pair r w (RTest (S n) got) ~> Pair (ring_drop r) w (RTest n (got ++ [ring_byte r])).
Proof.
  intros [_ _ C _] H. one. cbn [read_step]. rewrite (proj2 (Z.ltb_lt 0 _) H). one. one. one. one.
  cbn [rcount move_tail]. rewrite u32_small by (unfold PIPE_BUF_SIZE in *; lia). apply rtc_refl.
Qed.
Lemma read_alone n w : forall r got l r', ring_ok r -> ring_read n r = (l, r') -> Pair r w (RTest n got) ~> Pair r' w (RDone (got ++ l)).
Proof.
  induction n as [|n IH]; intros r got l r' Hr; cbn [ring_read].
  { intros [= <- <-]. rewrite app_nil_r. one. apply rtc_refl. }
  destruct (Z.ltb_spec 0 (rcount r)) as [H|H].
  - destruct (ring_read n (ring_drop r)) as [l1 r1] eqn:E. intros [= <- <-].
    etrans; [by apply read_round|]. replace (got ++ ring_byte r :: l1) with ((got ++ [ring_byte r]) ++ l1) by (by rewrite <- app_assoc).
    apply IH; [|exact E]. by apply ring_drop_spec.
  - intros [= <- <-]. rewrite app_nil_r. one. rewrite (proj2 (Z.ltb_ge 0 _)) by lia. apply rtc_refl.
Qed.

(** ** Interleaved *)
Lemma queue_count r v w : 0 <= v <= w -> queue (set_count w r) = queue (set_count v r) ++ map (fun k => (rbuf r).[(rtail r + k) mod PIPE_BUF_SIZE]) (seqZ v (w - v)).
Proof.
  intros H. unfold queue, set_count. cbn [rbuf rtail rcount]. rewrite <- map_app. f_equal.
  replace w with (v + (w - v)) at 1 by lia. rewrite seqZ_app by lia. reflexivity.
Qed.
(** The ring after the writer's stores and the reader's move, with any count. *)
Lemma stored_moved r src v : set_count v (move_tail (stored src r)) = set_count v (ring_drop (fold_left ring_put src r)).
Proof. rewrite stored_spec. reflexivity. Qed.
Lemma stored_byte r src : ring_ok r -> 0 < rcount r -> len src + rcount r <= PIPE_BUF_SIZE ->
  queue (ring_drop (fold_left ring_put src r)) = drop 1 (queue r ++ src) /\
  rcount (ring_drop (fold_left ring_put src r)) = rcount r + len src - 1 /\
  ring_byte (stored src r) = ring_byte r.
Proof.
  intros Hr Hc Hl. destruct (ring_puts_spec src r Hr Hl) as [Hp Eq].
  assert (rcount (fold_left ring_put src r) = rcount r + len src) as Ec by (rewrite stored_spec; reflexivity).
  pose proof (len_queue _ Hr). destruct (ring_drop_spec _ Hp) as [_ Ed]; [unfold len in *; lia|]. rewrite Eq in Ed.
  split; [by rewrite Ed|]. split; [cbn [rcount ring_drop]; lia|].
  rewrite stored_spec in Ed. destruct (ring_drop_spec r Hr Hc) as [_ Er]. rewrite Er in Ed. cbn [app] in Ed. by injection Ed.
Qed.

Lemma stored_tail src : forall r, stored src (move_tail r) = move_tail (stored src r).
Proof. induction src as [|b src IH]; intros r; [done|]. cbn [stored]. exact (IH (move_head (store_head b r))). Qed.

(** [C21] The pipe between two CPUs. A write and a read that nobody interrupts are the
    steps the other theorems take them for. But neither takes a lock: for every pipe that
    holds a byte and has room for what is written, a writer of any bytes and a reader of
    one can interleave so that both report success and either every byte written is
    lost (the reader's store of the count overtakes the writer's), or the pipe ends with
    a byte more than was put in (the other way around). *)
Theorem pipe_race r src n l r' : ring_ok r -> len src + rcount r <= PIPE_BUF_SIZE -> ring_read n r = (l, r') ->
  (forall x, Pair r (WCopy src (len src)) x ~> Pair (fold_left ring_put src r) WDone x) /\
  (forall w, Pair r w (RTest n []) ~> Pair r' w (RDone l)) /\
  (0 < rcount r -> exists r1 r2 b x,
    Pair r (WCopy src (len src)) (RTest 1 []) ~> Pair r1 WDone (RDone [b]) /\ b :: queue r1 = queue r /\
    Pair r (WCopy src (len src)) (RTest 1 []) ~> Pair r2 WDone (RDone [b]) /\ b :: queue r2 = queue r ++ src ++ [x]).
Proof.
  intros Hr Hl Hn. split; [intros x; by apply write_alone|]. split; [intros w; exact (read_alone n w r [] l r' Hr Hn)|]. intros Hc.
  destruct (stored_byte r src Hr Hc Hl) as (Eq & Ec & Eb). pose proof Hr as [_ _ Cr _].
  pose proof (len_queue _ Hr) as Lq. pose proof (ring_drop_spec r Hr Hc) as [_ Ed].
  set (F := ring_drop (fold_left ring_put src r)) in *. set (m := rcount r + len src) in *.
  assert (u32 (rcount r - 1) = rcount r - 1 /\ u32 m = m) as [E1 E2] by (split; apply u32_small; unfold PIPE_BUF_SIZE, len in *; lia).
  destruct (stored_count src r 0) as (_ & Es & _).
  assert (set_count (m - 1) F = F) as EF by (rewrite <- Ec; by destruct F).
  assert (queue F = queue (ring_drop r) ++ src) as EQ by (rewrite Eq, Ed; reflexivity).
  assert (forall v, set_count v (move_tail (stored src r)) = set_count v F) as Em by (intros v; apply stored_moved).
  assert (0 <= len src) as Hs by apply len_nonneg.
  exists (set_count (rcount r - 1) F), (set_count m F), (ring_byte r), ((rbuf F).[(rtail F + (m - 1)) mod PIPE_BUF_SIZE]).
  splits.
  - (* the reader has loaded the count, the writer runs, the reader stores *)
    one_read. rewrite (proj2 (Z.ltb_lt 0 _) Hc). do 3 one_read. etrans; [apply write_loop|].
    do 4 one. rewrite stored_tail. cbn [rcount move_tail]. rewrite E1, <- Em. apply rtc_refl.
  - (* the queue is cut to what the reader has left *)
    rewrite Ed. f_equal. pose proof (queue_count F (rcount r - 1) (m - 1)) as Hq. rewrite EF, EQ in Hq.
    specialize (Hq ltac:(lia)). apply app_inj_1 in Hq as [-> _]; [done|]. unfold queue. by rewrite !length_map, !length_seqZ.
  - etrans; [apply write_loop|]. one. one_read. rewrite Es, (proj2 (Z.ltb_lt 0 _) Hc). do 5 one_read. one.
    fold m. rewrite Eb, E2. cbn [rcount set_count]. rewrite <- Em. apply rtc_refl.
  - pose proof (queue_count F (m - 1) m) as Hq. rewrite EF, EQ in Hq. specialize (Hq ltac:(lia)). rewrite Hq.
    rewrite Ed. cbn [app]. f_equal. rewrite <- app_assoc. f_equal. f_equal. replace (m - (m - 1)) with 1 by lia. reflexivity.
Qed.

(** A pipe that holds one byte; two more are written. *)
Definition demo_ring : ring := ring_put empty_ring 7.
Lemma pipe_race_witness : exists r1 b, Pair demo_ring (WCopy [8; 9] 2) (RTest 1 []) ~> Pair r1 WDone (RDone [b]) /\ b :: queue r1 = queue demo_ring.
Proof.
  destruct empty_ring_ok as [He _]. destruct (ring_put_spec empty_ring 7 He) as [Hr _]; [vm_compute; reflexivity|].
  destruct (pipe_race demo_ring [8; 9] 0 [] demo_ring Hr) as (_ & _ & H); [vm_compute; discriminate|reflexivity|].
  destruct H as (r1 & _ & b & _ & H1 & H2 & _); [vm_compute; reflexivity|]. exists r1, b. split; [exact H1|exact H2].
Defined.
