(* ===== verification/FilesProps.v ===== *)
(** * Properties of the calls on files

    What is written through a descriptor is what is read back through it, and only
    its file changes. And where that ends: a position that [lseek] sets and
    [vfs_write] adds to in 64 bits, and the Linux calls that open, read and write
    without asking for a permission. *)
From Stdlib Require Import ZArith Lia Bool String.
From stdpp Require Import base list numbers option gmap.
From S2P Require Import Prelude Vfs Fd Files.
#[local] Set Default Goal Selector "!".
Open Scope Z_scope.
Open Scope carray_scope.

Section Files.
Context {D : Type} (range_ok str_ok : Z -> Z -> bool) (fuel : nat).
Implicit Types s : kstate D.

(** ** The state after a step *)
Lemma node_put (t : vfs D) a b v : node (put t a v) b = if decide (b = a) then (if b =? 0 then None else Some v) else node t b.
Proof. unfold node, put. cbn. case_decide as H; [subst; by rewrite lookup_insert_eq|by rewrite lookup_insert_ne]. Qed.
Lemma node_put_eq (t : vfs D) a v w : node t a = Some w -> node (put t a v) a = Some v.
Proof. intros H. rewrite node_put, decide_True by done. unfold node in H. by destruct (a =? 0). Qed.
Lemma node_put_ne (t : vfs D) a b v : b <> a -> node (put t a v) b = node t b.
Proof. intros H. by rewrite node_put, decide_False. Qed.
Lemma vnode_at_node s a v : node (tree s) a = Some v -> vnode_at s a = Done v.
Proof. unfold vnode_at, node. destruct (a =? 0); [done|]. by intros ->. Qed.

(** What permission checks look at. *)
Definition same_rights (v w : vnode) : Prop := uid v = uid w /\ gid v = gid w /\ mode v = mode w /\ acl v = acl w.
Definition same_user s s' : Prop :=
  match cur s, cur s' with Some t, Some t' => euid t = euid t' /\ groups t = groups t' /\ from_user t = from_user t' | None, None => True | _, _ => False end.
Lemma perm_same s s' v w m : same_user s s' -> same_rights v w -> perm_ok s (Some v) m = perm_ok s' (Some w) m.
Proof.
  unfold same_user, perm_ok, g_sys_from_user. intros Hu (R1 & R2 & R3 & R4).
  assert (forall u g, vfs_check_perm (Some v) u g m = vfs_check_perm (Some w) u g m) as Hv.
  { intros u g. unfold vfs_check_perm, mode_bits. by rewrite R1, R2, R3, R4. }
  destruct (cur s) as [t|], (cur s') as [t'|]; try done. destruct Hu as (-> & -> & ->). destruct (negb _); [done|]. by rewrite Hv.
Qed.
Lemma uptr_same s s' p n : same_user s s' -> uptr range_ok s p n = uptr range_ok s' p n.
Proof.
  unfold same_user, uptr, g_sys_from_user. destruct (cur s) as [t|], (cur s') as [t'|]; try done. by intros (_ & _ & ->).
Qed.
Lemma ensure_rights e v n w : ensure_cap e v n = Some (Some w) -> same_rights w v.
Proof. unfold ensure_cap. repeat (case_match; try done); intros [= <-]; by repeat split. Qed.
Lemma write_rights e v d off r w : vfs_write e v d off = Result r w -> same_rights w v.
Proof.
  unfold vfs_write. destruct (negb _); [intros [= <- <-]; by repeat split|]. destruct (ensure_cap _ _ _) as [[v1|]|] eqn:E; [|by intros [= <- <-]|done].
  apply ensure_rights in E. repeat (case_match; try done); intros [= <- <-]; destruct E as (? & ? & ? & ?); repeat split; assumption.
Qed.

Lemma cur_set s fd f : cur (set_fd fd f s) = (fun t => with_fds (<[Z.to_nat fd := f]> (fds t)) t) <$> cur s.
Proof. unfold cur, set_fd, upd_cur. cbn. by rewrite lookup_alter_eq. Qed.
Lemma user_set s s' fd f : same_user s s' -> same_user s (set_fd fd f s').
Proof. unfold same_user. rewrite cur_set. destruct (cur s), (cur s'); done. Qed.
Lemma user_refl s : same_user s s.
Proof. unfold same_user. by destruct (cur s). Qed.
Lemma get_set s fd f g : fd_get s fd = Some f -> in_use g = true -> fd_get (set_fd fd g s) fd = Some g.
Proof.
  unfold fd_get. rewrite cur_set. destruct (cur s) as [t|]; cbn [fmap option_fmap option_map]; [|done].
  destruct ((fd <? 0) || (MAX_FD <=? fd)); cbn [orb]; [done|]. unfold fd_entry_at. cbn [fds with_fds]. destruct (in_use (nth (Z.to_nat fd) (fds t) no_fd)) eqn:Eu; cbn [negb]; [|done].
  intros _ Hg. destruct (decide (Z.to_nat fd < length (fds t))%nat) as [Hl|Hl].
  - rewrite (nth_lookup_Some _ _ _ g) by (by apply list_lookup_insert_eq). by rewrite Hg.
  - rewrite nth_overflow in Eu by lia. done.
Qed.

(** ** A descriptor of a file *)
Record file_fd_ok s (fd : Z) (f : fd_entry) (v : vnode) : Prop := {
  ff_get : fd_get s fd = Some f;
  ff_type : ftype f = FD_TYPE_FILE /\ is_pipe f = false /\ in_use f = true;
  ff_node : node (tree s) (vn f) = Some v }.

Lemma file_branch s fd f v : file_fd_ok s fd f v ->
  (forall x, x <> FD_TYPE_FILE -> is_ft f x = false) /\ pipe_fd f = false /\ (vn f =? 0) = false /\ vnode_at s (vn f) = Done v.
Proof.
  intros [_ (Et & Ep & _) Hv]. assert (forall x, x <> FD_TYPE_FILE -> is_ft f x = false) as Hft.
  { intros x Hx. unfold is_ft. rewrite Et. by apply bool_decide_eq_false_2. }
  splits; [done| | |by apply vnode_at_node].
  - unfold pipe_fd. by rewrite Ep, Hft.
  - unfold node in Hv. by destruct (vn f =? 0).
Qed.
Lemma write_file_eq e s fd f v b : file_fd_ok s fd f v -> uptr range_ok s (u_at b) (len (u_data b)) = true ->
  sys_write range_ok e s fd b =
    if perm_ok s (Some v) PERM_W then
      match vfs_write e v (u_data b) (pos f) with
      | Overrun => Fault OutOfBounds
      | Result w v =>
        let s := with_tree (put (tree s) (vn f) v) s in Done (if 0 <? w then set_fd fd (with_pos (u64 (pos f + w)) f) s else s, w)
      end
    else Done (s, -1).
Proof.
  intros H Hu. destruct (file_branch _ _ _ _ H) as (Hft & Hp & Hz & Hv). unfold sys_write. rewrite Hu, (ff_get _ _ _ _ H), !Hft by done.
  cbn [negb orb]. rewrite Hp, Hz, Hv. cbn [cbind]. by destruct (perm_ok _ _ _).
Qed.
Lemma read_file_eq seed s fd f v at_ n : file_fd_ok s fd f v -> uptr range_ok s at_ n = true ->
  sys_read range_ok seed s fd at_ n =
    if perm_ok s (Some v) PERM_R then
      match vfs_read v (pos f) n with
      | None => Fault OutOfBounds
      | Some (r, l) => Done (if 0 <? r then set_fd fd (with_pos (u64 (pos f + r)) f) s else s, r, l)
      end
    else Done (s, -1, []).
Proof.
  intros H Hu. destruct (file_branch _ _ _ _ H) as (Hft & Hp & Hz & Hv). unfold sys_read. rewrite Hu, (ff_get _ _ _ _ H), !Hft by done.
  cbn [negb orb]. rewrite Hp, Hz, Hv. cbn [cbind]. by destruct (perm_ok _ _ _).
Qed.
Lemma lseek_set_eq s fd f v off : file_fd_ok s fd f v ->
  sys_lseek s fd off 0 = Done (set_fd fd (with_pos (u64 off) f) s, u64 off).
Proof. intros H. unfold sys_lseek. by rewrite (ff_get _ _ _ _ H). Qed.
Lemma file_set_pos s fd f v p : file_fd_ok s fd f v -> file_fd_ok (set_fd fd (with_pos p f) s) fd (with_pos p f) v.
Proof. intros [H1 H2 H3]. split; [|done|done]. eapply get_set; [done|]. by destruct H2 as (_ & _ & ?). Qed.
Lemma file_put s fd f v w : file_fd_ok s fd f v -> file_fd_ok (with_tree (put (tree s) (vn f) w) s) fd f w.
Proof. intros [H1 H2 H3]. split; [done|done|]. by eapply node_put_eq. Qed.

(** [C9] What is written through a descriptor is read back through it. For a
    descriptor of a well-formed file that the task may read and write, at any position
    up to 2^60 (near 2^64 the sums in [vfs_write] wrap around, see [seek_write_overrun]),
    and any bytes, from one to the megabyte a call accepts: either memory is out, the call returns -1 and neither
    the file nor the position changed, or it returns the length, and seeking back
    and reading as many bytes returns exactly those and leaves the position behind
    them; the file has its old bytes with the new ones written over, and no other
    file of the tree has changed. *)
Theorem file_write_read e seed s fd f v at_ d : file_fd_ok s fd f v -> alloc_ok e -> file_ok v ->
  perm_ok s (Some v) PERM_R = true -> perm_ok s (Some v) PERM_W = true -> uptr range_ok s at_ (len d) = true ->
  d <> [] -> len d <= USER_BUF_MAX -> 0 <= pos f <= 2 ^ 60 ->
  (exists s1, sys_write range_ok e s fd (Ubuf at_ d) = Done (s1, -1) /\ fd_get s1 fd = Some f /\ forall a, node (tree s1) a = node (tree s) a) \/
  exists s1 s2 s3 v', sys_write range_ok e s fd (Ubuf at_ d) = Done (s1, len d) /\
    sys_lseek s1 fd (pos f) 0 = Done (s2, pos f) /\
    sys_read range_ok seed s2 fd at_ (len d) = Done (s3, len d, d) /\
    fd_get s3 fd = Some (with_pos (pos f + len d) f) /\
    node (tree s3) (vn f) = Some v' /\ contents v' = written (contents v) (pos f) d /\
    forall a, a <> vn f -> node (tree s3) a = node (tree s) a.
Proof.
  intros H He Hv HR HW Hu Hd Hb0 [Hp Hp0]. assert (pos f + len d <= 2 ^ 61) as Hb by (unfold USER_BUF_MAX in *; lia). assert (0 < len d) as Hl by (destruct d; [done|unfold len; cbn [length]; lia]).
  rewrite (write_file_eq e s fd f v (Ubuf at_ d) H Hu), HW. cbn [u_data].
  destruct (write_spec e v d (pos f) He Hv Hp Hb) as [->|(v' & Ew & Hv' & _ & Hc)].
  { left. eexists. split; [reflexivity|]. split; [by destruct H|]. intros a. cbn. destruct (decide (a = vn f)) as [->|Ha]; [|by apply node_put_ne].
    rewrite (ff_node _ _ _ _ H). eapply node_put_eq, (ff_node _ _ _ _ H). }
  right. pose proof (write_rights _ _ _ _ _ _ Ew) as Hr. rewrite Ew, (proj2 (Z.ltb_lt _ _)), u64_small by lia. cbv zeta.
  set (s0 := with_tree _ s). pose proof (file_put s fd f v v' H) as H0. fold s0 in H0.
  pose proof (file_set_pos _ _ _ _ (pos f + len d) H0) as H1. set (s1 := set_fd _ _ s0) in *. set (f1 := with_pos _ f) in *.
  pose proof (lseek_set_eq s1 fd f1 v' (pos f) H1) as E2. rewrite (u64_small (pos f)) in E2 by lia.
  change (with_pos (pos f) f1) with (with_pos (pos f) f) in E2.
  pose proof (file_set_pos _ _ _ _ (pos f) H1) as H2. change (with_pos (pos f) f1) with (with_pos (pos f) f) in H2. set (s2 := set_fd fd (with_pos (pos f) f) s1) in *.
  assert (same_user s s2) as Us by (do 2 apply user_set; apply (user_refl s)).
  assert (sys_read range_ok seed s2 fd at_ (len d) = Done (set_fd fd (with_pos (pos f + len d) f) s2, len d, d)) as E3.
  { rewrite (read_file_eq seed s2 fd _ v' at_ (len d) H2) by (by rewrite <- (uptr_same s)).
    assert (same_rights v v') as Hr' by (destruct Hr as (? & ? & ? & ?); by repeat split).
    rewrite <- (perm_same s s2 v v' PERM_R Us Hr'), HR. cbn [pos with_pos].
    rewrite (read_spec v' (pos f) (len d) Hv'), Hc by lia. destruct (written_slice (contents v) (pos f) d Hp) as (-> & _).
    rewrite (proj2 (Z.ltb_lt _ _)), u64_small by lia. reflexivity. }
  exists s1, s2, (set_fd fd (with_pos (pos f + len d) f) s2), v'. split; [reflexivity|]. split; [exact E2|]. split; [exact E3|].
  split; [eapply get_set; [by destruct H2|by destruct H as [_ (_ & _ & ?) _]]|]. split; [by destruct H0|]. split; [done|].
  intros a Ha. by apply node_put_ne.
Qed.

(** Where the position is not checked. On any descriptor of a well-formed
    file that the task may write, and any non-empty buffer, seeking as far before the
    start as the buffer is long succeeds, and the write that follows ends at 2^64:
    it passes the test of the capacity and leaves the file's buffer. *)
Theorem seek_write_overrun e s fd f v at_ d : file_fd_ok s fd f v -> file_ok v -> perm_ok s (Some v) PERM_W = true ->
  uptr range_ok s at_ (len d) = true -> d <> [] -> len d <= USER_BUF_MAX ->
  exists s1, sys_lseek s fd (- len d) 0 = Done (s1, 2 ^ 64 - len d) /\
    sys_write range_ok e s1 fd (Ubuf at_ d) = Fault OutOfBounds.
Proof.
  intros H Hv HW Hu Hd Hl. unfold USER_BUF_MAX in Hl. assert (0 < len d) as Hl0 by (destruct d; [done|unfold len; cbn [length]; lia]).
  assert (u64 (- len d) = 2 ^ 64 - len d) as Eu by (unfold u64; symmetry; apply (Z.mod_unique _ _ (-1)); lia).
  eexists. split; [rewrite (lseek_set_eq _ _ _ _ _ H), Eu; reflexivity|]. pose proof (file_set_pos _ _ _ _ (2 ^ 64 - len d) H) as H1.
  set (s1 := set_fd _ _ s) in *. assert (same_user s s1) as Us by (apply user_set, user_refl).
  rewrite (write_file_eq e s1 fd _ v _ H1) by (cbn [u_at u_data]; by rewrite <- (uptr_same s)).
  rewrite <- (perm_same s s1 v v PERM_W Us), HW by (by repeat split). cbn [u_data pos with_pos].
  assert (0 <= cap v) by (destruct Hv as (_ & ? & _); lia).
  rewrite (vfs_write_wrap e v d (2 ^ 64 - len d) Hv) by lia. reflexivity.
Qed.

(** ** Opening without asking *)
Lemma alloc_cleared s t m : cur s = Some t -> length (fds t) = Z.to_nat MAX_FD -> 0 <= alloc_fd_from s m ->
  forall g, in_use g = true -> fd_get (set_fd (alloc_fd_from s m) g s) (alloc_fd_from s m) = Some g.
Proof.
  intros Ht Hl Ha g Hg. assert (0 <= alloc_fd_from s m < MAX_FD) as Hr.
  { revert Ha. unfold alloc_fd_from. rewrite Ht. destruct (find _ _) as [i|] eqn:Ef; cbn [from_option id]; [|lia]. intros _.
    apply find_some in Ef as [Hi _]. apply list_elem_of_In, elem_of_seqZ in Hi. destruct (Z.ltb_spec m 0); lia. }
  unfold fd_get. rewrite cur_set, Ht. cbn [fmap option_fmap option_map]. rewrite (proj2 (Z.ltb_ge _ 0)), (proj2 (Z.leb_gt _ _)) by lia.
  unfold fd_entry_at. cbn [fds with_fds orb]. rewrite (nth_lookup_Some _ _ _ g), Hg; [done|]. apply list_lookup_insert_eq. lia.
Qed.
Lemma set_again s fd f g : set_fd fd f (set_fd fd g s) = set_fd fd f s.
Proof.
  unfold set_fd, upd_cur, with_tasks. cbn. f_equal. apply map_eq. intros k. destruct (decide (k = me s)) as [->|Hk].
  - rewrite !lookup_alter_eq. destruct (tasks s !! me s) as [t|]; [|done]. cbn. unfold with_fds. cbn. by rewrite list_insert_insert_eq.
  - by rewrite !lookup_alter_ne.
Qed.

(** What openat without O_TRUNC makes of a path that names a file. *)
Definition shared (v : vnode) : vnode := set_refs (u32 (refs v + 1)) v.
Definition opened_fd (a : Z) (v : vnode) (flags : Z) : fd_entry := file_fd a (if Z.land flags O_APPEND =? 0 then 0 else size v) flags.
Definition opened s (a : Z) (v : vnode) (flags : Z) : kstate D :=
  let fd := alloc_fd_from s 0 in set_fd fd (opened_fd a v flags) (with_tree (put (tree s) a (shared v)) (set_fd fd no_fd s)).
Record names_file s (dirfd : Z) (us : ubuf) (a : Z) (v : vnode) : Prop := {
  nf_room : exists t, cur s = Some t /\ length (fds t) = Z.to_nat MAX_FD /\ 0 <= alloc_fd_from s 0;
  nf_path : exists path base, copy_user_str str_ok s us VFS_MAX_PATH = Some path /\ dir_base s dirfd path = Done base /\ base <> 0 /\
    dev_type path = None /\ streq path (chars "/dev/ptmx") = false /\ streq (take 9 path) (chars "/dev/pts/") = false /\
    look fuel s base path = Done a;
  nf_node : node (tree s) a = Some v;
  nf_ok : file_ok v }.
Lemma openat_opens e s dirfd us flags m a v : names_file s dirfd us a v -> Z.land flags O_TRUNC = 0 ->
  linux_openat str_ok fuel e s dirfd us flags m = Done (opened s a v flags, alloc_fd_from s 0) /\
  file_fd_ok (opened s a v flags) (alloc_fd_from s 0) (opened_fd a v flags) (shared v) /\ same_user s (opened s a v flags).
Proof.
  intros [(t & Ht & Hl & Ha) (path & base & Hp & Hb & Hb0 & E1 & E2 & E3 & Hlook) Hv Ok] Ht0. set (fd := alloc_fd_from s 0) in *. splits.
  - unfold linux_openat. rewrite Hp, Hb. cbn [cbind]. rewrite (proj2 (Z.eqb_neq base 0)) by done. fold fd. rewrite (proj2 (Z.ltb_ge fd 0)) by done.
    unfold open_special. rewrite E1, E2, E3. unfold look in *. cbn [tree set_fd upd_cur with_tasks]. rewrite Hlook. cbn [cbind].
    assert ((a =? 0) = false) as -> by (unfold node in Hv; by destruct (a =? 0)). cbn [andb cbind]. assert ((a =? 0) = false) as -> by (unfold node in Hv; by destruct (a =? 0)).
    rewrite (vnode_at_node _ a v) by done. cbn [cbind]. rewrite Ht0, andb_false_r. cbn [cbind]. unfold install_fd, upd_tree, vnode_ref, upd.
    cbn [tree set_fd upd_cur with_tasks]. rewrite Hv. rewrite (vnode_at_node _ a (shared v)) by (by eapply node_put_eq). reflexivity.
  - split; [|done|cbn; by eapply node_put_eq]. unfold opened. fold fd. change (fd_get (set_fd fd (opened_fd a v flags) (set_fd fd no_fd s)) fd = Some (opened_fd a v flags)).
    rewrite set_again. by eapply alloc_cleared.
  - apply user_set. change (same_user s (set_fd fd no_fd s)). apply user_set, user_refl.
Qed.

(** [C20] The Linux calls do not ask. For any regular file that a path reaches,
    whatever its owner and mode, [openat] with any flags but O_TRUNC gives a descriptor,
    if the task has one free. On that, if the task may not write the file, the native
    write is refused, but [pwrite64] stores any bytes the call accepts at any offset up
    to 2^60 (or memory is out); and if it may not read it, the native read is refused,
    but [pread64] returns its bytes. *)
Theorem openat_unchecked e seed s dirfd us a v flags m at_ d off n : names_file s dirfd us a v -> Z.land flags O_TRUNC = 0 -> alloc_ok e ->
  uptr range_ok s at_ (len d) = true -> uptr range_ok s at_ n = true -> 0 <= off <= 2 ^ 60 -> len d <= USER_BUF_MAX -> 0 <= n <= USER_BUF_MAX ->
  exists s1 fd, linux_openat str_ok fuel e s dirfd us flags m = Done (s1, fd) /\ 0 <= fd /\
    (perm_ok s (Some v) PERM_W = false ->
       sys_write range_ok e s1 fd (Ubuf at_ d) = Done (s1, -1) /\
       exists s2 r, linux_pwrite64 range_ok e s1 fd (Ubuf at_ d) off = Done (s2, r) /\
         (r = - EIO \/ (r = len d /\ exists w, node (tree s2) a = Some w /\ contents w = written (contents v) off d))) /\
    (perm_ok s (Some v) PERM_R = false ->
       sys_read range_ok seed s1 fd at_ n = Done (s1, -1, []) /\
       linux_pread64 range_ok s1 fd at_ n off = Done (len (slice (contents v) off n), slice (contents v) off n)).
Proof.
  unfold USER_BUF_MAX. intros N Ht0 He Hud Hun [Ho Ho1] Hod1 Hn. assert (off + len d <= 2 ^ 61) as Hod by lia. destruct (openat_opens e s dirfd us flags m a v N Ht0) as (Eo & Hf & Us). assert (0 <= len d) as Hld by (unfold len; lia).
  pose proof (nf_ok _ _ _ _ _ N) as Ok. change (file_ok (shared v)) in Ok. assert (same_rights v (shared v)) as Hr by (by repeat split).
  destruct (nf_room _ _ _ _ _ N) as (t & _ & _ & Ha). exists (opened s a v flags), (alloc_fd_from s 0). split; [exact Eo|]. split; [done|].
  set (s1 := opened s a v flags) in *. set (fd := alloc_fd_from s 0) in *. set (f := opened_fd a v flags) in *.
  destruct (file_branch _ _ _ _ Hf) as (_ & _ & Hz & Hva). split; intros HP.
  - split.
    + by rewrite (write_file_eq e s1 fd f _ _ Hf), <- (perm_same s s1 v _ PERM_W Us Hr), HP by (by rewrite <- (uptr_same s)).
    + unfold linux_pwrite64. rewrite <- (uptr_same s s1), (ff_get _ _ _ _ Hf) by done. cbn [u_at u_data]. rewrite Hud. cbn [negb]. rewrite Hz, Hva. cbn [cbind].
      rewrite u64_small by lia. destruct (write_spec e (shared v) d off He Ok Ho Hod) as [->|(w & -> & _ & _ & Hc)]; [do 2 eexists; split; [reflexivity|by left]|].
      rewrite (proj2 (Z.leb_le 0 _)) by done. do 2 eexists. split; [reflexivity|]. right. split; [done|]. exists w.
      split; [|exact Hc]. eapply node_put_eq. apply (ff_node _ _ _ _ Hf).
  - split.
    + by rewrite (read_file_eq seed s1 fd f _ _ _ Hf), <- (perm_same s s1 v _ PERM_R Us Hr), HP by (by rewrite <- (uptr_same s)).
    + unfold linux_pread64. rewrite <- (uptr_same s s1), (ff_get _ _ _ _ Hf), Hun by done. cbn [negb]. rewrite Hz, Hva. cbn [cbind].
      rewrite u64_small, (read_spec (shared v) off n Ok) by lia. rewrite (proj2 (Z.leb_le 0 _)) by (unfold len; lia). reflexivity.
Qed.
End Files.

(** ** A task with a file *)
Definition demo_tree (owner m : Z) : vfs unit :=
  let '(t, a) := vfs_create (Venv 7 owner 0 18 (kmalloc demo_env)) demo_root 1 [102] VN_FILE in upd t a (set_mode m).
Definition demo_owner : ptask :=
  PTask 1 0 1000 [100] 1 true (replicate 3 (with_in_use true no_fd) ++ replicate 61 no_fd) (replicate 64 0) 0 0.
Definition demo_with (t : vfs unit) : kstate unit := KState t ∅ (replicate 16 no_pty) (replicate 16 (Epoll false [])) {[1 := demo_owner]} 1 7 [].
Definition yes : Z -> Z -> bool := fun _ _ => true.
(** "/f", of the task's own user and open, *)
Definition demo_path : ubuf := Ubuf 0 [47; 102; 0].
Definition demo_open : kstate unit :=
  match sys_open yes 10 demo_env (demo_with (demo_tree 1000 420)) demo_path O_RDWR with Done (s, _) => s | Fault _ => demo_with demo_root end.
Definition demo_node (s : kstate unit) : vnode := match node (tree s) 2 with Some v => v | None => demo_file end.
Lemma demo_open_ok : file_fd_ok demo_open 3 (file_fd 2 0 O_RDWR) (demo_node demo_open) /\ file_ok (demo_node demo_open).
Proof. split; [split; vm_compute; auto|]. vm_compute. repeat split; discriminate. Qed.
(** and root's alone. *)
Definition demo_secret : kstate unit := demo_with (demo_tree 0 384).
Lemma demo_secret_ok : names_file yes 10 demo_secret AT_FDCWD demo_path 2 (demo_node demo_secret).
Proof.
  split; [|exists [47; 102], 1; vm_compute; repeat split; discriminate|reflexivity|vm_compute; repeat split; discriminate].
  exists demo_owner. vm_compute. repeat split; discriminate.
Qed.

Lemma file_write_read_witness : exists s1 s2 s3,
  sys_write yes demo_env demo_open 3 (Ubuf 0 [9; 8; 7]) = Done (s1, 3) /\ sys_lseek s1 3 0 0 = Done (s2, 0) /\
  sys_read yes 0 s2 3 0 3 = Done (s3, 3, [9; 8; 7]).
Proof.
  destruct demo_open_ok as [H Hv].
  destruct (file_write_read yes demo_env 0 demo_open 3 _ _ 0 [9; 8; 7] H demo_alloc_ok Hv) as [(s1 & E & _)|(s1 & s2 & s3 & v' & E1 & E2 & E3 & _)].
  1-3: vm_compute; reflexivity.
  1: discriminate.
  1-2: vm_compute; intuition discriminate.
  - vm_compute in E. discriminate.
  - exists s1, s2, s3. split; [exact E1|]. split; [exact E2|exact E3].
Defined.

Lemma seek_write_overrun_witness : exists s1,
  sys_lseek demo_open 3 (-2) 0 = Done (s1, 2 ^ 64 - 2) /\ sys_write yes demo_env s1 3 (Ubuf 0 [9; 8]) = Fault OutOfBounds.
Proof.
  destruct demo_open_ok as [H Hv]. apply (seek_write_overrun yes demo_env demo_open 3 _ _ 0 [9; 8] H Hv).
  1-2: vm_compute; reflexivity.
  - discriminate.
  - vm_compute. discriminate.
Defined.

Lemma openat_unchecked_witness : exists s1 fd s2 r,
  linux_openat yes 10 demo_env demo_secret AT_FDCWD demo_path O_RDWR 0 = Done (s1, fd) /\
  sys_write yes demo_env s1 fd (Ubuf 0 [9; 8]) = Done (s1, -1) /\ linux_pwrite64 yes demo_env s1 fd (Ubuf 0 [9; 8]) 0 = Done (s2, r).
Proof.
  assert (perm_ok demo_secret (Some (demo_node demo_secret)) PERM_W = false) as HP by (vm_compute; reflexivity).
  destruct (openat_unchecked yes yes 10 demo_env 0 demo_secret AT_FDCWD demo_path 2 (demo_node demo_secret) O_RDWR 0 0 [9; 8] 0 4
    demo_secret_ok eq_refl demo_alloc_ok) as (s1 & fd & E & _ & H & _).
  1-2: vm_compute; reflexivity.
  1-3: vm_compute; intuition discriminate.
  destruct (H HP) as (Hw & s2 & r & Ep & _). exists s1, fd, s2, r. split; [exact E|]. split; [exact Hw|exact Ep].
Defined.
