(* ===== verification/CallsProps.v ===== *)
(** * Properties of directory listings and of what tasks share

    The buffer [getdents64] fills, parsed as a C library does, is the beginning of
    the directory; the seconds that the file times are made from count days as the
    calendar does. *)
From Stdlib Require Import ZArith Lia Bool String.
From stdpp Require Import base list numbers option gmap.
From S2P Require Import Prelude Vfs Fd Files FilesProps Calls.
#[local] Set Default Goal Selector "!".
Open Scope Z_scope.
Open Scope carray_scope.

(** ** Reading a listing *)
Definition le (l : list Z) : Z := fold_right (fun b v => b + 256 * v) 0 l.
Record dent := Dent { de_ino : Z; de_type : option vnode_type; de_name : list Z }.
(** The types of <dirent.h>: DT_DIR, DT_REG, DT_LNK. *)
Definition type_of_dt (d : Z) : option vnode_type :=
  if d =? 4 then Some VN_DIR else if d =? 8 then Some VN_FILE else if d =? 10 then Some VN_SYMLINK else None.
(** From [off] to [stop], record by record, as [readdir] does. *)
Fixpoint parse_dents (n : nat) (buf : list Z) (off stop : Z) : list dent :=
  match n with
  | O => []
  | S n =>
    if stop <=? off then []
    else Dent (le (slice buf off 8)) (type_of_dt (buf.[off + 18])) (c_string (drop (Z.to_nat (off + 19)) buf))
         :: parse_dents n buf (off + le (slice buf (off + 16) 2)) stop
  end.
Definition dent_of (a : Z) (v : vnode) : dent := Dent (if ino v =? 0 then a else ino v) (Some (type v)) (name v).

(** A record: a header of 19 bytes, the name and its 0, rounded up to eight. *)
Definition dent_size (v : vnode) : Z := (19 + len (name v) + 1 + 7) / 8 * 8.

Lemma rec_len_eq nm : rec_len nm = 8 * ((27 + len nm) / 8).
Proof.
  unfold rec_len. rewrite <- Z.ldiff_land. change 7 with (Z.ones 3) at 2. rewrite Z.ldiff_ones_r, Z.shiftl_mul_pow2, Z.shiftr_div_pow2 by lia.
  replace (19 + len nm + 1 + 7) with (27 + len nm) by lia. change (2 ^ 3) with 8. lia.
Qed.
Lemma dent_len_bounds nm : 20 + len nm <= rec_len nm <= 27 + len nm.
Proof. rewrite rec_len_eq. assert (0 <= len nm) by (unfold len; lia). Z.div_mod_to_equations. lia. Qed.
Lemma dent_size_eq v : dent_size v = rec_len (name v).
Proof. rewrite rec_len_eq. unfold dent_size. replace (19 + len (name v) + 1 + 7) with (27 + len (name v)) by lia. lia. Qed.
Lemma len_dirent off a v : len (dirent64 off a v) = 20 + len (name v).
Proof. unfold dirent64. rewrite !len_app. change (len (word_bytes ?x)) with 8. unfold len. cbn [length]. lia. Qed.
Lemma le_word v : 0 <= v < 2 ^ 64 -> le (word_bytes v) = v.
Proof.
  intros Hv. unfold word_bytes. change (seqZ 0 8) with [0; 1; 2; 3; 4; 5; 6; 7]. cbn [map le fold_right].
  unfold u8. rewrite !Z.shiftr_div_pow2 by lia. cbn [Z.mul Z.pow Z.pow_pos Pos.iter Pos.mul]. Z.div_mod_to_equations. lia.
Qed.

Section Listing.
Context {D : Type} (t : vfs D).
(** The nodes along the siblings, and the first of them that fit. *)
Fixpoint sibling_chain (n : nat) (c : Z) : list (Z * vnode) :=
  match n with
  | O => []
  | S n => match node t c with None => [] | Some v => (c, v) :: sibling_chain n (sibling v) end
  end.
Fixpoint fitting (l : list (Z * vnode)) (off room : Z) : list (Z * vnode) :=
  match l with
  | [] => []
  | (a, v) :: l => if room <? off + dent_size v then [] else (a, v) :: fitting l (off + dent_size v) room
  end.
(** Names are C strings of the length the tree keeps; numbers are words. *)
Definition listed_ok (x : Z * vnode) : Prop :=
  0 <= fst x < 2 ^ 64 /\ 0 <= ino (snd x) < 2 ^ 64 /\ Forall (fun b => b <> 0) (name (snd x)) /\ len (name (snd x)) < VFS_MAX_NAME.

Lemma c_string_app nm r : Forall (fun b => b <> 0) nm -> c_string (nm ++ 0 :: r) = nm.
Proof. induction 1 as [|b l Hb _ IH]; [done|]. cbn. rewrite (proj2 (Z.eqb_neq b 0)) by done. f_equal. exact IH. Qed.

(** A record is read back from any buffer that has it at its place. *)
Lemma read_dirent buf off a v : 0 <= off -> off + len (dirent64 off a v) <= len buf -> off + rec_len (name v) < 2 ^ 64 -> listed_ok (a, v) ->
  slice buf off (len (dirent64 off a v)) = dirent64 off a v ->
  Dent (le (slice buf off 8)) (type_of_dt (buf.[off + 18])) (c_string (drop (Z.to_nat (off + 19)) buf)) = dent_of a v /\
  le (slice buf (off + 16) 2) = rec_len (name v).
Proof.
  intros Ho Hb Hu (Ha & Hi & Hz & Hl) Hs. cbn [fst snd] in *. pose proof (dent_len_bounds (name v)) as Hr. assert (0 <= len (name v)) by (unfold len; lia).
  unfold VFS_MAX_NAME in Hl. rewrite len_dirent in *.
  assert (drop (Z.to_nat off) buf = dirent64 off a v ++ drop (Z.to_nat (off + (20 + len (name v)))) buf) as Hd.
  { rewrite <- Hs at 1. unfold slice. rewrite <- (take_drop (Z.to_nat (20 + len (name v))) (drop (Z.to_nat off) buf)) at 1. f_equal. rewrite drop_drop. f_equal. lia. }
  assert (forall o n, 0 <= o -> 0 <= n -> o + n <= 20 + len (name v) -> slice buf (off + o) n = slice (dirent64 off a v) o n) as Hsl.
  { intros o n Ho' Hn Hon. transitivity (slice (drop (Z.to_nat off) buf) o n); [rewrite slice_drop by lia; f_equal; lia|].
    rewrite Hd, slice_app_l; [done|lia|lia|by rewrite len_dirent]. }
  split; [unfold dent_of; f_equal|].
  - replace off with (off + 0) at 1 by lia. rewrite Hsl by lia. unfold dirent64. rewrite slice_app_l by (change (len (word_bytes ?x)) with 8; lia).
    rewrite (slice_all (word_bytes _) 8) by done. apply le_word. destruct (_ =? _); lia.
  - assert (buf.[off + 18] = nth 0 (slice buf (off + 18) 1) 0) as ->.
    { unfold nthZ, slice. rewrite <- (Nat.add_0_r (Z.to_nat (off + 18))), <- nth_skipn. change (Z.to_nat 1) with 1%nat. unfold len in Hb.
      destruct (drop (Z.to_nat (off + 18)) buf) eqn:E; [|by rewrite Nat.add_0_r, E]. by rewrite Nat.add_0_r, E. }
    rewrite Hsl by lia. change (nth 0 (slice (dirent64 off a v) 18 1) 0) with (dt_of (type v)). by destruct (type v).
  - replace (Z.to_nat (off + 19)) with (Z.to_nat off + 19)%nat by lia. rewrite <- drop_drop, Hd.
    change (drop 19 (dirent64 off a v ++ ?r)) with ((name v ++ [0]) ++ r). rewrite <- app_assoc. cbn [app]. by apply c_string_app.
  - rewrite Hsl by lia. change (slice (dirent64 off a v) 16 2) with [u8 (rec_len (name v)); u8 (Z.shiftr (rec_len (name v)) 8)].
    cbn [le fold_right]. unfold u8. rewrite Z.shiftr_div_pow2 by lia. change (2 ^ 8) with 256. Z.div_mod_to_equations. lia.
Qed.

Lemma fill_spec n : forall c buf off buf' r, 0 <= off <= len buf -> len buf < 2 ^ 63 -> Forall listed_ok (sibling_chain n c) ->
  fill_dents n t c buf off = (buf', r) ->
  off <= r <= len buf /\ len buf' = len buf /\ (forall o k, 0 <= o -> 0 <= k -> o + k <= off -> slice buf' o k = slice buf o k) /\
  (forall m, (n <= m)%nat -> parse_dents m buf' off r = map (fun x => dent_of (fst x) (snd x)) (fitting (sibling_chain n c) off (len buf))).
Proof.
  induction n as [|n IH]; intros c buf off buf' r Ho Hb Hok E; cbn [fill_dents sibling_chain fitting map] in *.
  { injection E as <- <-. splits; auto; try lia. intros [|m] _; [done|]. cbn. by rewrite (proj2 (Z.leb_le off off)) by lia. }
  assert (forall l, (buf, off) = (buf', r) -> fitting l off (len buf) = [] -> off <= r <= len buf /\ len buf' = len buf /\
    (forall o k, 0 <= o -> 0 <= k -> o + k <= off -> slice buf' o k = slice buf o k) /\
    (forall m, (S n <= m)%nat -> parse_dents m buf' off r = map (fun x => dent_of (fst x) (snd x)) (fitting l off (len buf)))) as Hstop.
  { intros l [= <- <-] ->. splits; auto; try lia. intros [|m] ?; [lia|]. cbn. by rewrite (proj2 (Z.leb_le off off)) by lia. }
  destruct (node t c) as [v|] eqn:Hv; [|by apply Hstop]. apply Forall_cons in Hok as [Hc Hok].
  destruct (Z.ltb_spec (len buf) (off + rec_len (name v))) as [Hfull|Hroom]; [apply Hstop; [done|]; cbn; rewrite dent_size_eq; by rewrite (proj2 (Z.ltb_lt _ _)) by lia|].
  pose proof (dent_len_bounds (name v)) as Hr. assert (0 <= len (name v)) by (unfold len; lia). set (d := dirent64 off c v) in *.
  assert (len d = 20 + len (name v)) as Hd by apply len_dirent. assert (len (blit buf off d) = len buf) as Hlb by (unfold len; rewrite length_blit by lia; done).
  destruct (IH (sibling v) (blit buf off d) (off + rec_len (name v)) buf' r) as (R1 & R2 & R3 & R4); [lia|lia|done|done|]. rewrite Hlb in *. splits; auto; try lia.
  - intros o k Ho' Hk Hok'. rewrite R3 by lia. apply slice_blit_before; lia.
  - intros [|m] Hm; [lia|]. cbn [parse_dents]. rewrite (proj2 (Z.leb_gt r off)) by lia. cbn [fitting map fst snd]. rewrite dent_size_eq, (proj2 (Z.ltb_ge _ _)) by lia.
    destruct (read_dirent buf' off c v) as [-> ->]; [lia|fold d; lia|lia|done| |cbn [map fst snd]; f_equal; apply R4; lia].
    fold d. rewrite R3 by lia. apply slice_blit_same; lia.
Qed.
Lemma fitting_all l : forall off room, off + fold_right (fun x n => dent_size (snd x) + n) 0 l <= room -> fitting l off room = l.
Proof.
  induction l as [|[a v] l IH]; intros off room H; [done|]. cbn [fold_right fitting snd] in *.
  assert (0 <= fold_right (fun (x : Z * vnode) n => dent_size (snd x) + n) 0 l).
  { clear. induction l as [|[a v] l IH]; cbn [fold_right snd]; [done|]. rewrite dent_size_eq. pose proof (dent_len_bounds (name v)). assert (0 <= len (name v)) by (unfold len; lia). lia. }
  rewrite (proj2 (Z.ltb_ge _ _)) by lia. f_equal. apply IH. lia.
Qed.
End Listing.

(** [C19] A directory is listed as it is, and for ever. For a directory's
    descriptor and any buffer of at most a megabyte, the call stays inside the
    buffer, and what a C library reads from it, record by record, are inode, type
    and name of the directory's first entries, as many as fit, and all of them when
    there is room (names are the tree's, without zero bytes and below its limit). But it neither reads nor moves the position: whenever the first
    entry fits, this call and every later one returns more than 0, so that reading
    until 0 does not end. *)
Theorem getdents64_lists {D} range_ok (s : kstate D) fd f v b :
  fd_get s fd = Some f -> node (tree s) (vn f) = Some v -> type v = VN_DIR ->
  uptr range_ok s (u_at b) (len (u_data b)) = true -> len (u_data b) <= USER_BUF_MAX ->
  let entries := sibling_chain (tree s) (walk_fuel (tree s)) (child v) in
  Forall listed_ok entries ->
  exists r buf, linux_getdents64 range_ok s fd b = Done (r, buf) /\ 0 <= r <= len (u_data b) /\ len buf = len (u_data b) /\
    parse_dents (walk_fuel (tree s)) buf 0 r = map (fun x => dent_of (fst x) (snd x)) (fitting entries 0 (len (u_data b))) /\
    (fold_right (fun x n => dent_size (snd x) + n) 0 entries <= len (u_data b) -> fitting entries 0 (len (u_data b)) = entries) /\
    (forall x l, entries = x :: l -> dent_size (snd x) <= len (u_data b) -> 0 < r).
Proof.
  intros Hf Hv Ht Hu Hb entries Hok. unfold USER_BUF_MAX in Hb. assert (0 <= len (u_data b)) by (unfold len; lia).
  unfold linux_getdents64. rewrite Hu, Hf. cbn [negb].
  assert ((vn f =? 0) = false) as -> by (unfold node in Hv; by destruct (vn f =? 0)). rewrite (vnode_at_node s _ v Hv). cbn [cbind]. rewrite Ht. change (negb (is_vt VN_DIR VN_DIR)) with false. cbv iota.
  destruct (fill_dents _ _ _ _ _) as [buf r] eqn:E. exists r, buf. split; [done|].
  destruct (fill_spec (tree s) _ _ _ _ _ _ (conj (Z.le_refl 0) H) ltac:(lia) Hok E) as (H1 & H2 & _ & H3). split; [done|]. split; [done|].
  split; [by apply H3|]. split; [intros Hall; by apply fitting_all|].
  intros [a w] l El Hw. cbn [snd] in Hw. specialize (H3 _ (Nat.le_refl _)). fold entries in H3. rewrite El in H3. cbn [fitting] in H3.
  rewrite (proj2 (Z.ltb_ge _ _)) in H3 by lia. destruct (Z.le_gt_cases r 0) as [Hr|Hr]; [|lia]. unfold walk_fuel in H3. cbn [parse_dents map] in H3.
  by rewrite (proj2 (Z.leb_le r 0)) in H3.
Qed.

(** ** The calendar *)
(** Every fourth year is a leap year, but for the centuries that 400 does not divide. *)
Definition leap_year (y : Z) : Prop := (y mod 4 = 0 /\ y mod 100 <> 0) \/ y mod 400 = 0.
#[export] Instance leap_year_dec y : Decision (leap_year y).
Proof. unfold leap_year. apply _. Defined.
Definition year_length (y : Z) : Z := if decide (leap_year y) then 366 else 365.
Definition month_length (y m : Z) : Z :=
  if decide (m = 2) then if decide (leap_year y) then 29 else 28 else if decide (m = 4 \/ m = 6 \/ m = 9 \/ m = 11) then 30 else 31.
Definition sum_of (f : Z -> Z) (l : list Z) : Z := fold_right (fun k n => f k + n) 0 l.
(** The days of the years, the months and the days gone by. *)
Definition calendar_days (y m d : Z) : Z :=
  sum_of year_length (seqZ 1970 (y - 1970)) + sum_of (month_length y) (seqZ 1 (m - 1)) + (d - 1).

Lemma leap_spec y : 0 <= y -> leap y = bool_decide (leap_year y).
Proof.
  intros Hy. unfold leap, leap_year. rewrite !Z.rem_mod_nonneg by lia. apply eq_true_iff_eq.
  rewrite orb_true_iff, andb_true_iff, negb_true_iff, !Z.eqb_eq, Z.eqb_neq, bool_decide_eq_true. done.
Qed.
Lemma sum_of_app f a b : sum_of f (a ++ b) = sum_of f a + sum_of f b.
Proof. unfold sum_of. induction a as [|x a IH]; cbn; [done|]. rewrite IH. lia. Qed.
Lemma sum_of_snoc f a n : 0 <= n -> sum_of f (seqZ a (n + 1)) = sum_of f (seqZ a n) + f (a + n).
Proof. intros Hn. rewrite seqZ_app by lia. rewrite sum_of_app. change (seqZ (a + n) 1) with [a + n]. cbn. lia. Qed.
Lemma years_spec n : sum_of year_length (seqZ 1970 (Z.of_nat n)) =
  Z.of_nat n * 365 + ((Z.of_nat n + 1) / 4 - (Z.of_nat n + 69) / 100 + (Z.of_nat n + 369) / 400).
Proof.
  induction n as [|n IH]; [reflexivity|]. replace (Z.of_nat (S n)) with (Z.of_nat n + 1) by lia. rewrite sum_of_snoc, IH by lia.
  unfold year_length, leap_year. set (k := Z.of_nat n). assert (0 <= k) by lia. case_decide as Hl; Z.div_mod_to_equations; lia.
Qed.
Lemma months_spec y m : 1 <= m <= 12 -> 0 <= y ->
  (let days := fold_left (fun d k => d + mdays.[k - 1]) (seqZ 1 (m - 1)) 0 in if (2 <? m) && leap y then days + 1 else days)
  = sum_of (month_length y) (seqZ 1 (m - 1)).
Proof.
  intros Hm Hy. rewrite leap_spec by done. assert (exists k, (k < 12)%nat /\ m = Z.of_nat (S k)) as (k & Hk & ->) by (exists (Z.to_nat (m - 1)); lia).
  unfold month_length. destruct (decide (leap_year y)) as [Hl|Hl]; [rewrite bool_decide_eq_true_2 by done|rewrite bool_decide_eq_false_2 by done];
    do 12 (destruct k as [|k]; [reflexivity|]); lia.
Qed.

(** File times are the calendar's. For every date from 1970 on, the seconds
    the call computes are those of the days gone by in the years (leap years by the
    Gregorian rule), the months (February with the leap day) and the month, and of
    the time of the day. *)
Theorem epoch_is_calendar t : 1970 <= year t < 1000000000 -> 1 <= month t <= 12 -> 1 <= day t <= 31 ->
  0 <= hour t < 24 -> 0 <= minute t < 60 -> 0 <= second t < 60 ->
  linux_epoch_seconds t = 86400 * calendar_days (year t) (month t) (day t) + 3600 * hour t + 60 * minute t + second t.
Proof.
  intros Hy Hm Hd Hh Hmin Hs. unfold linux_epoch_seconds, calendar_days. pose proof (years_spec (Z.to_nat (year t - 1970))) as E. rewrite Z2Nat.id in E by lia. rewrite E.
  pose proof (months_spec (year t) (month t) Hm ltac:(lia)) as Em. cbv zeta in Em |- *. rewrite <- Em.
  assert (forall l a, fold_left (fun d k => d + mdays.[k - 1]) l a = a + fold_left (fun d k => d + mdays.[k - 1]) l 0) as Hf.
  { induction l as [|x l IH]; intros a; cbn [fold_left]; [lia|]. rewrite IH, (IH (0 + _)). lia. }
  rewrite Hf. set (ms := fold_left _ _ 0) in *. assert (0 <= ms <= 366) as Hms.
  { assert (exists k, (k < 12)%nat /\ month t = Z.of_nat (S k)) as (k & Hk & Ek) by (exists (Z.to_nat (month t - 1)); lia). unfold ms. rewrite Ek.
    do 12 (destruct k as [|k]; [vm_compute; split; discriminate|]). lia. }
  replace (year t - 1970 + 1) with (year t - 1969) by lia. replace (year t - 1970 + 69) with (year t - 1901) by lia. replace (year t - 1970 + 369) with (year t - 1601) by lia.
  rewrite !Z.quot_div_nonneg by lia. set (q := (year t - 1969) / 4 - (year t - 1901) / 100 + (year t - 1601) / 400).
  assert (0 <= q <= year t) as Hq by (unfold q; Z.div_mod_to_equations; lia).
  clear E Em. destruct ((2 <? month t) && leap (year t)); rewrite (u64_small (_ + (day t - 1))), u64_small by lia; lia.
Qed.
Lemma epoch_is_calendar_witness : linux_epoch_seconds (Rtc 2024 3 1 0 0 0) = 86400 * calendar_days 2024 3 1 /\ linux_epoch_seconds (Rtc 2024 3 1 0 0 0) = 1709251200.
Proof. split; [rewrite (epoch_is_calendar (Rtc 2024 3 1 0 0 0)); [|vm_compute; intuition discriminate..]; cbn [year month day hour minute second]; lia|vm_compute; reflexivity]. Defined.

(** ** The root directory, with one file *)
Definition demo_dir : kstate unit :=
  match sys_open yes 10 demo_env (demo_with (demo_tree 1000 420)) (Ubuf 0 [47; 0]) 0 with Done (s, _) => s | Fault _ => demo_with demo_root end.
Definition demo_root_node : vnode := match node (tree demo_dir) 1 with Some v => v | None => demo_file end.
Lemma getdents64_lists_witness : exists r buf, linux_getdents64 yes demo_dir 3 (Ubuf 0 (replicate 40 255)) = Done (r, buf) /\
  parse_dents 3 buf 0 r = [Dent 2 (Some VN_FILE) [102]].
Proof.
  assert (Forall listed_ok (sibling_chain (tree demo_dir) (walk_fuel (tree demo_dir)) (child demo_root_node))) as Hok.
  { vm_compute (sibling_chain _ _ _). repeat constructor; vm_compute; (reflexivity || discriminate). }
  destruct (getdents64_lists yes demo_dir 3 (file_fd 1 0 0) demo_root_node (Ubuf 0 (replicate 40 255)))
    as (r & buf & E & _ & _ & Hp & _).
  1-4: vm_compute; reflexivity.
  1: vm_compute; discriminate.
  1: exact Hok.
  exists r, buf. split; [exact E|]. change 3%nat with (walk_fuel (tree demo_dir)). cbn [u_data] in Hp. rewrite Hp. vm_compute. reflexivity.
Defined.
