(* ===== verification/Accounts.v ===== *)
(** * Accounts and privileges (kernel/arch/x86_64/syscall.c)

    The table of administrator accounts with salted PBKDF2-HMAC-SHA256 hashes, the
    check with its lockout, the calls, native and Linux, that change the identity of a
    task, and the change of a password, which is kept in a file of the tree. The clock is read where the
    code reads it: when an attempt comes, and when it has failed. *)
From Stdlib Require Import ZArith Lia Bool String.
From stdpp Require Import base list numbers option gmap.
From S2P Require Import Prelude Hash Vfs Fd Files.
#[local] Set Default Goal Selector "!".
Open Scope Z_scope.
Open Scope carray_scope.

Definition DOAS_MAX_USERS : Z := 8.
Definition DOAS_MAX_FAILS : Z := 5.
(** [MS_TO_TICKS(1000)]. *)
Definition DOAS_LOCKOUT_TICKS : Z := 1000 * TICK_HZ / 1000.
Definition DOAS_PBKDF2_ITERS : Z := 10000.
Definition PASSWD_MAGIC : list Z := chars "YARTPSWD".
Definition PW_MAX : Z := 64.

Record doas_user := DoasUser { account : list Z; salt : list Z; hash : list Z; fails : Z; fail_t0 : Z }.
Definition with_hash (sa h : list Z) (u : doas_user) : doas_user := DoasUser (account u) sa h (fails u) (fail_t0 u).
Definition with_fails (n t0 : Z) (u : doas_user) : doas_user := DoasUser (account u) (salt u) (hash u) n t0.

(** ** The hash *)
Definition hmac_sha256_k (key msg : list Z) : list Z :=
  let k := if 64 <? len key then sha256_final (sha256_update sha256_init key) else key in
  let k := k ++ replicate (64 - length k) 0 in
  let ipad := map (fun b => Z.lxor b 54) k in
  let opad := map (fun b => Z.lxor b 92) k in
  let inner := sha256_final (sha256_update (sha256_update sha256_init ipad) msg) in
  sha256_final (sha256_update (sha256_update sha256_init opad) inner).
Fixpoint pw_iter (n : nat) (pw u t : list Z) : list Z :=
  match n with O => t | S n => let u := hmac_sha256_k pw u in pw_iter n pw u (xor_bytes t u) end.
Definition pw_block (pw salt : list Z) (iters block : Z) : list Z :=
  let u := hmac_sha256_k pw (take 64 salt ++ [u8 (Z.shiftr block 24); u8 (Z.shiftr block 16); u8 (Z.shiftr block 8); u8 block]) in
  pw_iter (Z.to_nat (iters - 1)) pw u u.
Fixpoint pw_out (fuel : nat) (pw salt : list Z) (iters block outlen : Z) : list Z :=
  match fuel with
  | O => []
  | S fuel =>
    if outlen =? 0 then []
    else
      let n := if 32 <? outlen then 32 else outlen in
      take (Z.to_nat n) (pw_block pw salt iters block) ++ pw_out fuel pw salt iters (u32 (block + 1)) (outlen - n)
  end.
Definition pbkdf2_hmac_sha256 (pw salt : list Z) (iters outlen : Z) : list Z := pw_out (S (Z.to_nat outlen)) pw salt iters 1 outlen.

(** The C string at [u->salt]: a salt without a terminator runs into the fields
    behind it, and ends in the count of failures at the latest. *)
Definition salt_text (u : doas_user) : list Z := c_string (salt u ++ hash u ++ map (fun k => u8 (Z.shiftr (fails u) (8 * k))) [0; 1; 2; 3]).
Definition hash_of (pw : list Z) (u : doas_user) : list Z := pbkdf2_hmac_sha256 pw (salt_text u) DOAS_PBKDF2_ITERS 32.
Definition ct_neq (a b : list Z) : Z := fold_left (fun d i => Z.lor d (Z.lxor (a.[i]) (b.[i]))) (seqZ 0 32) 0.

(** ** The check *)
Fixpoint find_user (l : list doas_user) (acc : list Z) : option nat :=
  match l with [] => None | u :: l => if streq (account u) acc then Some O else S <$> find_user l acc end.
Definition locked (u : doas_user) (now : Z) : bool :=
  (DOAS_MAX_FAILS <=? fails u) && (u64 (now - fail_t0 u) <? DOAS_LOCKOUT_TICKS).
(** One account's part: the account afterwards, and whether the password is right.
    [now] is the clock at the start, [later] when the comparison failed. *)
Definition try_password (u : doas_user) (now later : Z) (pw : list Z) : doas_user * bool :=
  if locked u now then (u, false)
  else
    let u := if DOAS_MAX_FAILS <=? fails u then with_fails 0 (fail_t0 u) u else u in
    if negb (ct_neq (hash_of pw u) (hash u) =? 0) then (with_fails (u32 (fails u + 1)) later u, false)
    else (with_fails 0 (fail_t0 u) u, true).
Definition doas_check (l : list doas_user) (acc : list Z) (now later : Z) (pw : list Z) : list doas_user * bool :=
  match find_user l acc with
  | None => (l, false)
  | Some i =>
    match l !! i with
    | Some u => let '(u, ok) := try_password u now later pw in (<[i := u]> l, ok)
    | None => (l, false)
    end
  end.

(** ** Credentials *)
Record cred := Cred {
  c_pid : Z; c_uid : Z; c_euid : Z; c_gid : Z; c_supp : list Z; c_umask : Z; elev_allowed : bool; c_account : list Z;
  c_from_user : bool }.
Definition with_ids (u eu g : Z) (sp : list Z) (t : cred) : cred :=
  Cred (c_pid t) u eu g sp (c_umask t) (elev_allowed t) (c_account t) (c_from_user t).
Definition with_umask (m : Z) (t : cred) : cred :=
  Cred (c_pid t) (c_uid t) (c_euid t) (c_gid t) (c_supp t) m (elev_allowed t) (c_account t) (c_from_user t).

Section Calls.
Context (str_ok : Z -> Z -> bool).
Definition copy_pw (t : cred) (us : ubuf) (cap : Z) : option (list Z) :=
  if c_from_user t && ((USER_STR_MAX <? cap) || negb (str_ok (u_at us) cap)) then None
  else Some (c_string (take (Z.to_nat cap) (u_data us))).

Definition sys_doas (l : list doas_user) (t : cred) (us : ubuf) (now later : Z) : list doas_user * cred * Z :=
  match copy_pw t us PW_MAX with
  | None => (l, t, -1)
  | Some pw =>
    if negb (c_from_user t) then (l, t, -1)
    else if c_euid t =? 0 then (l, t, 0)
    else if negb (elev_allowed t) then (l, t, -1)
    else
      let '(l, ok) := doas_check l (c_account t) now later pw in
      if ok then (l, with_ids (c_uid t) 0 (c_gid t) (c_supp t) t, 0) else (l, t, -1)
  end.
Definition sys_geteuid (t : cred) : Z := if c_from_user t then c_euid t else -1.
Definition sys_auth_verify (l : list doas_user) (t : cred) (us : ubuf) (now later : Z) : list doas_user * Z :=
  match copy_pw t us PW_MAX with
  | None => (l, -1)
  | Some pw =>
    if negb (c_from_user t) then (l, -1)
    else let '(l, ok) := doas_check l (c_account t) now later pw in (l, if ok then 0 else -1)
  end.
Definition sys_drop (t : cred) : cred * Z :=
  if c_from_user t then (with_ids (c_uid t) (c_uid t) (c_gid t) (c_supp t) t, 0) else (t, -1).
Definition sys_setuid (t : cred) (u : Z) : cred * Z :=
  if negb (c_from_user t) || negb (c_euid t =? 0) then (t, -1) else (with_ids u u u (c_supp t) t, 0).
Definition sys_setgid (t : cred) (g : Z) : cred * Z :=
  if negb (c_from_user t) || negb (c_euid t =? 0) then (t, -1) else (with_ids (c_uid t) (c_euid t) g [] t, 0).
Definition sys_umask (t : cred) (m : Z) : cred * Z :=
  if negb (c_from_user t) then (t, -1) else (with_umask (Z.land m 511) t, c_umask t).
(** The identity calls of the Linux interface: [(u32)-1] leaves a field as it is.
    None of them looks at who calls. *)
Definition KEEP : Z := 4294967295.
Definition linux_setreuid (t : cred) (ruid euid : Z) : cred * Z :=
  (with_ids (if ruid =? KEEP then c_uid t else ruid) (if euid =? KEEP then c_euid t else euid) (c_gid t) (c_supp t) t, 0).
Definition linux_setresuid (t : cred) (ruid euid suid : Z) : cred * Z := linux_setreuid t ruid euid.
Definition linux_setregid (t : cred) (rgid egid : Z) : cred * Z :=
  (with_ids (c_uid t) (c_euid t) (if rgid =? KEEP then c_gid t else rgid) (c_supp t) t, 0).
Definition linux_setresgid (t : cred) (rgid egid sgid : Z) : cred * Z := linux_setregid t rgid egid.
Definition word32 (l : list Z) (i : Z) : Z := fold_right (fun x v => x + 256 * v) 0 (slice l (4 * i) 4).
(** [ok] is the answer of [uptr] for the list. *)
Definition linux_setgroups (t : cred) (size : Z) (ok : bool) (l : list Z) : cred * Z :=
  if 8 <? size then (t, -22)
  else ((if (0 <? size) && ok then with_ids (c_uid t) (c_euid t) (c_gid t) (map (word32 l) (seqZ 0 size)) t else t), 0).
Definition sched_current_groups (t : cred) (max : Z) : list Z :=
  take (Z.to_nat max) (c_gid t :: List.filter (fun g => negb (g =? c_gid t)) (c_supp t)).

(** ** The password file *)
Definition hex_digit (k : Z) : Z := (chars "0123456789abcdef").[k].
Definition new_salt (t : cred) (ticks : Z) : list Z :=
  let n := Z.lxor (u32 ticks) (u32 (c_pid t * 2654435761)) in
  chars "yart-s" ++ map (fun i => hex_digit (Z.land (Z.shiftr n (i * 4)) 15)) (seqZ 0 8) ++ [0; 0].
(** The entry with the new password: a fresh salt, the hash, and no failures. *)
Definition renewed (t : cred) (new : list Z) (ticks : Z) (u : doas_user) : doas_user :=
  let u := with_hash (new_salt t ticks) (hash u) u in with_fails 0 0 (with_hash (salt u) (hash_of new u) u).
Definition passwd_file (u : doas_user) : list Z := PASSWD_MAGIC ++ salt u ++ hash u.
Definition passwd_dir : list Z := chars "/home/yart".
Definition passwd_path : list Z := chars "/home/yart/.passwd".
Definition passwd_name : list Z := chars ".passwd".

Context {D : Type} (fuel : nat).
Definition find_path (t : vfs D) (p : list Z) : call Z :=
  match vfs_lookup fuel t p with Some a => Done a | None => Fault Endless end.
(** The file written, if there is one or one can be made. The result of the write is
    not looked at. *)
Definition store_passwd (e : venv) (tr : vfs D) (u : doas_user) : call (vfs D) :=
  let! dir := find_path tr passwd_dir in
  let! pf := find_path tr passwd_path in
  let '(tr, pf) := if (pf =? 0) && negb (dir =? 0) then vfs_create e tr dir passwd_name VN_FILE else (tr, pf) in
  match node tr pf with
  | None => Done tr
  | Some v => match vfs_write e v (passwd_file u) 0 with Overrun => Fault OutOfBounds | Result _ v => Done (put tr pf v) end
  end.

(** The clock is read three times: by the check, and for the salt. *)
Definition sys_passwd (e : venv) (l : list doas_user) (tr : vfs D) (t : cred) (oldp newp : ubuf) (now later ticks : Z)
    : call (list doas_user * vfs D * Z) :=
  match copy_pw t oldp PW_MAX, copy_pw t newp PW_MAX with
  | Some kold, Some knew =>
    if negb (c_from_user t) then Done (l, tr, -1)
    else if len knew <? 4 then Done (l, tr, -2)
    else
      match find_user l (c_account t) with
      | None => Done (l, tr, -1)
      | Some i =>
        let '(l, ok) := doas_check l (c_account t) now later kold in
        if negb ok then Done (l, tr, -3)
        else
          match l !! i with
          | None => Done (l, tr, -1)
          | Some u =>
            let u := renewed t knew ticks u in
            let! tr := store_passwd e tr u in
            Done (<[i := u]> l, tr, 0)
          end
      end
  | _, _ => Done (l, tr, -1)
  end.

(** At boot: the account of the factory, and what the file says. *)
Definition factory_user : doas_user :=
  let u := DoasUser (chars "demo") (chars "yart-salt-1" ++ replicate 5 0) (replicate 32 0) 0 0 in
  with_hash (salt u) (hash_of (chars "yart") u) u.
Definition load_passwd (d : list Z) (u : doas_user) : doas_user :=
  if streq (take 8 d) PASSWD_MAGIC then with_hash (slice d 8 16) (slice d 24 32) u else u.
Definition doas_init (tr : vfs D) : call (list doas_user) :=
  let u := factory_user in
  let! pw := find_path tr passwd_path in
  match node tr pw with
  | None => Done [u]
  | Some v =>
    match vfs_read v 0 56 with
    | None => Fault OutOfBounds
    | Some (rd, d) => Done [if rd =? 56 then load_passwd d u else u]
    end
  end.
End Calls.
