(* ===== verification/AccountsProps.v ===== *)
(** * Properties of accounts and privileges

    The hash is PBKDF2 of RFC 2898 over the HMAC of [Hash]; the lockout bounds the
    rate of guesses; a task becomes root through a password that was checked, or
    by a Linux call that checks nothing; and a changed password is the one that is
    asked for, also by a table read back from the file. *)
From Stdlib Require Import ZArith Lia Bool String.
From stdpp Require Import base list numbers option gmap.
From S2P Require Import Prelude Hash Vfs Fd Files FilesProps Accounts.
#[local] Set Default Goal Selector "!".
Open Scope Z_scope.
Open Scope carray_scope.

#[local] Opaque DOAS_PBKDF2_ITERS.

(** ** The hash *)
Lemma hmac_sha256_k_eq key msg : hmac_sha256_k key msg = hmac_sha256 key msg.
Proof. reflexivity. Qed.
Lemma pw_iter_spec pw sa i n : forall j t, (1 <= j)%nat ->
  pw_iter n pw (pbkdf2_U (hmac_sha256 pw) sa i j) t = fold_left (fun t j => xor_bytes t (pbkdf2_U (hmac_sha256 pw) sa i j)) (seq (S j) n) t.
Proof.
  induction n as [|n IH]; intros j t Hj; [reflexivity|]. cbn [pw_iter seq fold_left]. rewrite hmac_sha256_k_eq.
  replace (hmac_sha256 pw (pbkdf2_U (hmac_sha256 pw) sa i j)) with (pbkdf2_U (hmac_sha256 pw) sa i (S j)); [apply IH; lia|].
  unfold pbkdf2_U. replace (S j - 1)%nat with (S (j - 1)) by lia. reflexivity.
Qed.
Lemma length_pw_T pw sa c i : length (pbkdf2_T (hmac_sha256 pw) sa c i) = 32%nat.
Proof.
  unfold pbkdf2_T. assert (forall j, length (pbkdf2_U (hmac_sha256 pw) sa i j) = 32%nat) as HU.
  { intros j. unfold pbkdf2_U. destruct (j - 1)%nat; apply length_hmac_sha256. }
  generalize (HU 1%nat). generalize (pbkdf2_U (hmac_sha256 pw) sa i 1). generalize (seq 2 (c - 1)) as l.
  induction l as [|j l IH]; intros t Ht; [done|]. cbn [fold_left]. apply IH. by rewrite length_xor_bytes by (by rewrite HU).
Qed.
Lemma pw_block_spec pw sa c i : pw_block pw sa c i = pbkdf2_T (hmac_sha256 pw) (take 64 sa) (Z.to_nat c) i.
Proof.
  unfold pw_block, pbkdf2_T. rewrite hmac_sha256_k_eq, Z2Nat.inj_sub by lia. exact (pw_iter_spec pw _ i (Z.to_nat c - 1) 1 _ (le_n 1)).
Qed.
Lemma pw_out_S fuel pw sa c i n : pw_out (S fuel) pw sa c i n =
  if n =? 0 then [] else let k := if 32 <? n then 32 else n in take (Z.to_nat k) (pw_block pw sa c i) ++ pw_out fuel pw sa c (u32 (i + 1)) (n - k).
Proof. reflexivity. Qed.
(** The 32 bytes stored are the first block of PBKDF2 (RFC 2898, 5.2) with HMAC-SHA256. *)
Lemma pbkdf2_32 pw sa c : pbkdf2_hmac_sha256 pw sa c 32 = pbkdf2_T (hmac_sha256 pw) (take 64 sa) (Z.to_nat c) 1.
Proof.
  unfold pbkdf2_hmac_sha256. change (S (Z.to_nat 32)) with (S (S 31)). rewrite pw_out_S. change (32 =? 0) with false. change (32 <? 32) with false. cbv iota zeta.
  rewrite pw_out_S. change (32 - 32 =? 0) with true. cbv iota. rewrite app_nil_r, pw_block_spec. apply take_ge. rewrite length_pw_T. done.
Qed.
Lemma hash_of_spec pw u : hash_of pw u = pbkdf2_T (hmac_sha256 pw) (take 64 (salt_text u)) (Z.to_nat DOAS_PBKDF2_ITERS) 1.
Proof. unfold hash_of. by rewrite pbkdf2_32. Qed.
Lemma length_hash_of pw u : length (hash_of pw u) = 32%nat.
Proof. rewrite hash_of_spec. apply length_pw_T. Qed.

#[local] Opaque hash_of.
Lemma ct_neq_zero a b : length a = 32%nat -> length b = 32%nat -> ct_neq a b = 0 <-> a = b.
Proof.
  intros La Lb. unfold ct_neq. assert (forall l d, fold_left (fun d i => Z.lor d (Z.lxor (a.[i]) (b.[i]))) l d = 0 <-> d = 0 /\ Forall (fun i => a.[i] = b.[i]) l) as Hf.
  { induction l as [|i l IH]; intros d; cbn [fold_left]; [split; [intros ->; by split|by intros []]|]. rewrite IH, Z.lor_eq_0_iff, Z.lxor_eq_0_iff, Forall_cons. tauto. }
  rewrite Hf. split; [intros [_ H]|intros ->; split; [done|by apply Forall_forall]].
  apply (nth_ext _ _ 0 0); [lia|]. intros n Hn. rewrite Forall_forall in H. specialize (H (Z.of_nat n)). unfold nthZ in H. rewrite Nat2Z.id in H.
  apply H, elem_of_seqZ. lia.
Qed.

(** ** One attempt *)
(** The count the comparison starts from. *)
Definition unlocked (u : doas_user) : doas_user := if DOAS_MAX_FAILS <=? fails u then with_fails 0 (fail_t0 u) u else u.
Definition right (u : doas_user) (now : Z) (pw : list Z) : Prop := locked u now = false /\ hash_of pw (unlocked u) = hash u.
Lemma hash_unlocked u : hash (unlocked u) = hash u.
Proof. unfold unlocked. by case_match. Qed.
Lemma try_password_spec u now later pw : length (hash u) = 32%nat ->
  (snd (try_password u now later pw) = true <-> right u now pw) /\
  fst (try_password u now later pw) =
    if locked u now then u
    else if snd (try_password u now later pw) then with_fails 0 (fail_t0 u) u else with_fails (u32 (fails (unlocked u) + 1)) later u.
Proof.
  intros Hl. unfold try_password, right. fold (unlocked u). destruct (locked u now) eqn:El; [split; [split; [done|by intros []]|done]|].
  pose proof (ct_neq_zero (hash_of pw (unlocked u)) (hash u) (length_hash_of _ _) Hl) as Hc. rewrite hash_unlocked.
  destruct (Z.eqb_spec (ct_neq (hash_of pw (unlocked u)) (hash u)) 0) as [E|E]; cbn [negb fst snd].
  - split; [split; [intros _; split; [reflexivity|apply Hc, E]|reflexivity]|]. unfold unlocked. by destruct (_ <=? _).
  - split; [split; [discriminate|intros [_ H]; destruct E; apply Hc, H]|]. unfold unlocked. by destruct (_ <=? _).
Qed.

(** ** The lockout *)
Record attempt := Attempt { at_start : Z; at_end : Z; guess : list Z }.
(** The attempts the account answers to: all but those that are refused, without a
    trace, whatever the password. All of them are refused here. *)
Inductive guessed : doas_user -> list attempt -> Z -> Prop :=
| gs_nil u : guessed u [] 0
| gs_deaf u x l n : (forall pw, try_password u (at_start x) (at_end x) pw = (u, false)) -> guessed u l n -> guessed u (x :: l) n
| gs_compared u x l n : guessed (fst (try_password u (at_start x) (at_end x) (guess x))) l n -> guessed u (x :: l) (1 + n).
(** None of them right, one after the other, between [t0] and [t1]. *)
Fixpoint all_fail (u : doas_user) (l : list attempt) : Prop :=
  match l with
  | [] => True
  | x :: l => snd (try_password u (at_start x) (at_end x) (guess x)) = false /\
      all_fail (fst (try_password u (at_start x) (at_end x) (guess x))) l
  end.
Fixpoint in_turn (t0 t1 : Z) (l : list attempt) : Prop :=
  match l with [] => True | x :: l => t0 <= at_start x /\ at_start x <= at_end x /\ at_end x < t1 /\ in_turn (at_end x) t1 l end.

(** How many more there can be: from a count below the limit, and from a lock. *)
Lemma guesses_spec l : forall u t0 t1, length (hash u) = 32%nat -> 0 <= fails u -> 0 <= fail_t0 u <= t0 -> t0 <= t1 < 2 ^ 64 ->
  in_turn t0 t1 l -> all_fail u l -> exists n, guessed u l n /\
  n <= if fails u <? DOAS_MAX_FAILS then DOAS_MAX_FAILS - fails u + 5 * ((t1 - t0) / 250) else Z.min (5 + 5 * ((t1 - t0) / 250)) (5 * ((t1 - fail_t0 u) / 250)).
Proof.
  unfold DOAS_MAX_FAILS. induction l as [|[a b pw] l IH]; intros u t0 t1 Hl Hf Hu Ht Hin Hall.
  { exists 0. split; [constructor|]. destruct (Z.ltb_spec (fails u) 5); pose proof (Z.div_pos (t1 - t0) 250); pose proof (Z.div_pos (t1 - fail_t0 u) 250); lia. }
  cbn [in_turn all_fail at_start at_end guess] in *. destruct Hin as (H1 & H2 & H3 & Hin), Hall as [Hno Hall].
  destruct (try_password_spec u a b pw Hl) as [_ Hfst]. rewrite Hno in Hfst.
  assert (locked u a = (5 <=? fails u) && (a - fail_t0 u <? 250)) as El by (unfold locked, DOAS_MAX_FAILS; by rewrite u64_small by lia).
  destruct (locked u a) eqn:Ek.
  - symmetry in El. zbool. rewrite Hfst in Hall. destruct (IH u b t1 Hl Hf ltac:(lia) ltac:(lia) Hin Hall) as (n & Hg & Hn). exists n.
    split; [apply gs_deaf; [|exact Hg]; intros q; cbn [at_start at_end]; unfold try_password; by rewrite Ek|].
    rewrite (proj2 (Z.ltb_ge (fails u) 5)) in * by lia. assert ((t1 - b) / 250 <= (t1 - t0) / 250) by (apply Z.div_le_mono; lia). lia.
  - assert (fst (try_password u a b pw) = with_fails (if 5 <=? fails u then 1 else fails u + 1) b u) as Hw.
    { rewrite Hfst. unfold unlocked, DOAS_MAX_FAILS. destruct (Z.leb_spec 5 (fails u)); [reflexivity|]. by rewrite u32_small by lia. }
    clear Hfst. rewrite Hw in Hall. destruct (IH (with_fails (if 5 <=? fails u then 1 else fails u + 1) b u) b t1 Hl) as (n & Hg & Hn);
      [destruct (5 <=? fails u); cbn; lia|cbn; lia|lia|exact Hin|exact Hall|].
    exists (1 + n). split; [apply gs_compared; cbn [at_start at_end guess]; by rewrite Hw|]. cbn [fails fail_t0 with_fails] in Hn.
    assert ((t1 - b) / 250 <= (t1 - t0) / 250) by (apply Z.div_le_mono; lia). symmetry in El. destruct (Z.leb_spec 5 (fails u)) as [H5|H5]; cbn [andb] in El.
    + zbool. rewrite (proj2 (Z.ltb_ge (fails u) 5)) by lia. change (1 <? 5) with true in Hn. cbv iota in Hn.
      assert ((t1 - b) / 250 <= (t1 - fail_t0 u) / 250 - 1) by (replace ((t1 - fail_t0 u) / 250 - 1) with ((t1 - fail_t0 u + (-1) * 250) / 250) by (rewrite Z.div_add by lia; lia); apply Z.div_le_mono; lia). lia.
    + rewrite (proj2 (Z.ltb_lt (fails u) 5)) by lia. destruct (fails u + 1 <? 5) eqn:E5; zbool; lia.
Qed.

(** [C17] The lockout bounds the rate of guesses. Take any sequence of attempts on an
    account, one after the other within a span of the tick counter, all answered no,
    with any count of failures before and the last failure in the past. All but five
    for every full second (250 ticks) of the span, and five more, are refused
    whatever the password, and leave the account as it is. *)
Theorem lockout_bounds_guesses u l t0 t1 : length (hash u) = 32%nat -> 0 <= fails u -> 0 <= fail_t0 u <= t0 ->
  t0 <= t1 < 2 ^ 64 -> in_turn t0 t1 l -> all_fail u l ->
  exists n, guessed u l n /\ n <= 5 + 5 * ((t1 - t0) / DOAS_LOCKOUT_TICKS).
Proof.
  intros Hl Hf Hu Ht Hin Hall. change DOAS_LOCKOUT_TICKS with 250. destruct (guesses_spec l u t0 t1 Hl Hf Hu Ht Hin Hall) as (n & Hg & Hn). exists n.
  split; [exact Hg|]. unfold DOAS_MAX_FAILS in *. destruct (fails u <? 5) eqn:E; zbool; lia.
Qed.

(** ** Histories of a task *)
Inductive acall :=
| CDoas (us : ubuf) (now later : Z) | CVerify (us : ubuf) (now later : Z)
| CPasswd (e : venv) (oldp newp : ubuf) (now later ticks : Z)
| CDrop | CSetuid (u : Z) | CSetgid (g : Z) | CUmask (m : Z)
| CSetreuid (r eu : Z) | CSetresuid (r eu su : Z) | CSetregid (r eg : Z) | CSetresgid (r eg sg : Z)
| CSetgroups (size : Z) (ok : bool) (l : list Z).
Section Histories.
Context (str_ok : Z -> Z -> bool) {D : Type} (fuel : nat).
Record astate := AState { a_users : list doas_user; a_cred : cred; a_tree : vfs D }.
Implicit Types s : astate.
Definition exec (c : acall) s : call astate :=
  match c with
  | CDoas us now later => let '(l, t, _) := sys_doas str_ok (a_users s) (a_cred s) us now later in Done (AState l t (a_tree s))
  | CVerify us now later => let '(l, _) := sys_auth_verify str_ok (a_users s) (a_cred s) us now later in Done (AState l (a_cred s) (a_tree s))
  | CPasswd e o n now later ticks =>
    let! (l, tr, _) := sys_passwd str_ok fuel e (a_users s) (a_tree s) (a_cred s) o n now later ticks in Done (AState l (a_cred s) tr)
  | CDrop => Done (AState (a_users s) (fst (sys_drop (a_cred s))) (a_tree s))
  | CSetuid u => Done (AState (a_users s) (fst (sys_setuid (a_cred s) u)) (a_tree s))
  | CSetgid g => Done (AState (a_users s) (fst (sys_setgid (a_cred s) g)) (a_tree s))
  | CUmask m => Done (AState (a_users s) (fst (sys_umask (a_cred s) m)) (a_tree s))
  | CSetreuid r eu => Done (AState (a_users s) (fst (linux_setreuid (a_cred s) r eu)) (a_tree s))
  | CSetresuid r eu su => Done (AState (a_users s) (fst (linux_setresuid (a_cred s) r eu su)) (a_tree s))
  | CSetregid r eg => Done (AState (a_users s) (fst (linux_setregid (a_cred s) r eg)) (a_tree s))
  | CSetresgid r eg sg => Done (AState (a_users s) (fst (linux_setresgid (a_cred s) r eg sg)) (a_tree s))
  | CSetgroups size ok l => Done (AState (a_users s) (fst (linux_setgroups (a_cred s) size ok l)) (a_tree s))
  end.
Fixpoint exec_all (l : list acall) s : call astate :=
  match l with [] => Done s | c :: l => let! s := exec c s in exec_all l s end.

Definition hashes_ok s : Prop := Forall (fun u => length (hash u) = 32%nat) (a_users s).
(** The password given is right for the caller's account, and the caller may be root. *)
Definition granted s (us : ubuf) (now : Z) : Prop :=
  elev_allowed (a_cred s) = true /\ exists pw i u, copy_pw str_ok (a_cred s) us PW_MAX = Some pw /\
    find_user (a_users s) (c_account (a_cred s)) = Some i /\ a_users s !! i = Some u /\ right u now pw.

(** A Linux call that names root. *)
Definition names_root (c : acall) : Prop :=
  match c with CSetreuid r eu | CSetresuid r eu _ => r = 0 \/ eu = 0 | _ => False end.
Definition ordinary s : Prop := c_uid (a_cred s) <> 0 /\ c_euid (a_cred s) <> 0.

Lemma setreuid_spec t r eu : c_uid t <> 0 -> c_euid t <> 0 ->
  (c_uid (fst (linux_setreuid t r eu)) <> 0 /\ c_euid (fst (linux_setreuid t r eu)) <> 0) \/ r = 0 \/ eu = 0.
Proof.
  intros Hu He. cbn [fst linux_setreuid with_ids c_uid c_euid]. destruct (r =? KEEP), (eu =? KEEP); try (by left);
    destruct (Z.eq_dec r 0), (Z.eq_dec eu 0); auto.
Qed.

Lemma check_spec l acc now later pw : Forall (fun u => length (hash u) = 32%nat) l ->
  Forall (fun u => length (hash u) = 32%nat) (fst (doas_check l acc now later pw)) /\
  (snd (doas_check l acc now later pw) = true <-> exists i u, find_user l acc = Some i /\ l !! i = Some u /\ right u now pw).
Proof.
  intros Hl. unfold doas_check. destruct (find_user l acc) as [i|]; [|split; [done|split; [discriminate|by intros (i & u & H & _)]]].
  destruct (l !! i) as [u|] eqn:Hu; [|split; [done|split; [discriminate|intros (j & u & [= <-] & H & _); congruence]]].
  assert (length (hash u) = 32%nat) as Hh by (rewrite Forall_lookup in Hl; by apply (Hl i)).
  destruct (try_password_spec u now later pw Hh) as [Hs Hf]. destruct (try_password u now later pw) as [u' ok]. cbn [fst snd] in *. split.
  - apply Forall_insert; [done|]. subst u'. destruct (locked u now); [done|]. by destruct ok.
  - rewrite Hs. split; [intros H; by exists i, u|]. intros (j & w & [= <-] & Hw & H). assert (w = u) as -> by congruence. exact H.
Qed.

Lemma exec_spec c s s' : hashes_ok s -> exec c s = Done s' ->
  hashes_ok s' /\ (c_uid (a_cred s) <> 0 -> c_euid (a_cred s) <> 0 ->
    (c_uid (a_cred s') <> 0 /\ c_euid (a_cred s') <> 0) \/ names_root c \/ exists us now later, c = CDoas us now later /\ granted s us now).
Proof.
  unfold hashes_ok, granted. intros Hh E. destruct s as [l t tr]. destruct c; cbn [exec a_users a_cred a_tree] in *.
  - unfold sys_doas in E. destruct (copy_pw str_ok t us PW_MAX) as [pw|] eqn:Ep; [|injection E as <-; auto].
    destruct (negb (c_from_user t)); [injection E as <-; auto|]. destruct (c_euid t =? 0); [injection E as <-; auto|].
    destruct (elev_allowed t) eqn:Ee; cbn [negb] in E; [|injection E as <-; auto].
    destruct (check_spec l (c_account t) now later pw Hh) as [H1 H2]. destruct (doas_check _ _ _ _ _) as [l' ok]. cbn [fst snd] in *.
    destruct ok; injection E as <-; (split; [exact H1|]); [|auto]. intros _ _. right. right. exists us, now, later. split; [reflexivity|]. split; [reflexivity|].
    destruct (proj1 H2 eq_refl) as (i & u & A & B & C). exists pw, i, u. auto.
  - unfold sys_auth_verify in E. destruct (copy_pw str_ok t us PW_MAX) as [pw|]; [|injection E as <-; auto].
    destruct (negb (c_from_user t)); [injection E as <-; auto|]. destruct (check_spec l (c_account t) now later pw Hh) as [H1 _].
    destruct (doas_check _ _ _ _ _) as [l' ok]. injection E as <-. auto.
  - unfold sys_passwd in E. destruct (copy_pw str_ok t oldp PW_MAX) as [old|]; [|injection E as <-; auto]. destruct (copy_pw str_ok t newp PW_MAX) as [new|]; [|injection E as <-; auto].
    destruct (negb (c_from_user t)); [injection E as <-; auto|]. destruct (len new <? 4); [injection E as <-; auto|].
    destruct (find_user l (c_account t)) as [i|]; [|injection E as <-; auto]. destruct (check_spec l (c_account t) now later old Hh) as [H1 _].
    destruct (doas_check _ _ _ _ _) as [l' ok]. cbn [fst snd] in *. destruct (negb ok); [injection E as <-; auto|]. destruct (l' !! i) as [u|]; [|injection E as <-; auto].
    cbv zeta in E. destruct (store_passwd _ _ _ _) as [tr'|]; cbn [cbind] in E; [|discriminate]. injection E as <-. split; [|auto].
    apply Forall_insert; [exact H1|]. apply length_hash_of.
  - injection E as <-. split; [exact Hh|]. unfold sys_drop. destruct (c_from_user t); auto.
  - injection E as <-. split; [exact Hh|]. unfold sys_setuid. intros Hu He. rewrite (proj2 (Z.eqb_neq (c_euid t) 0) He), orb_true_r. auto.
  - injection E as <-. split; [exact Hh|]. unfold sys_setgid. intros Hu He. rewrite (proj2 (Z.eqb_neq (c_euid t) 0) He), orb_true_r. auto.
  - injection E as <-. split; [exact Hh|]. unfold sys_umask. destruct (c_from_user t); auto.
  - injection E as <-. split; [exact Hh|]. intros Hu He. destruct (setreuid_spec t r eu Hu He); auto.
  - injection E as <-. split; [exact Hh|]. intros Hu He. destruct (setreuid_spec t r eu Hu He); auto.
  - injection E as <-. split; [exact Hh|]. auto.
  - injection E as <-. split; [exact Hh|]. auto.
  - injection E as <-. split; [exact Hh|]. unfold linux_setgroups. destruct (8 <? size), ((0 <? size) && ok); auto.
Qed.

End Histories.

(** ** The file *)
(** Writing to a file leaves every path as it is. *)
Definition same_place (v w : vnode) : Prop :=
  name v = name w /\ type v = type w /\ parent v = parent w /\ child v = child w /\ sibling v = sibling w.
Lemma write_place e v d off r w : vfs_write e v d off = Result r w -> same_place w v.
Proof.
  unfold vfs_write. destruct (negb _); [intros [= <- <-]; by repeat split|]. destruct (ensure_cap _ _ _) as [[v1|]|] eqn:E; [|by intros [= <- <-]|done].
  assert (same_place v1 v) as (? & ? & ? & ? & ?) by (unfold ensure_cap in E; repeat (case_match; try done); injection E as <-; by repeat split).
  repeat (case_match; try done); intros [= <- <-]; repeat split; assumption.
Qed.
Section Paths.
Context {D : Type} (t : vfs D) (a : Z) (v w : vnode).
Hypothesis (Hv : node t a = Some v) (Hs : same_place w v) (Hf : type v <> VN_SYMLINK).
Let t' := put t a w.
Lemma place_fld {A} b (f : vnode -> A) z : f w = f v -> fld t' b f z = fld t b f z.
Proof.
  intros E. unfold fld, t'. rewrite node_put. case_decide as Hb; [|done]. subst b. rewrite Hv. unfold node in Hv. destruct (a =? 0); [done|exact E].
Qed.
Lemma place_fuel : walk_fuel t' = walk_fuel t.
Proof. unfold walk_fuel, t', put. cbn. f_equal. apply map_size_insert_Some. unfold node in Hv. destruct (a =? 0); [done|]. by rewrite Hv. Qed.
Lemma place_find n : forall c nm, find_sibling n t' c nm = find_sibling n t c nm.
Proof.
  induction n as [|n IH]; intros c nm; [done|]. cbn [find_sibling]. unfold t' at 1. rewrite node_put. destruct Hs as (En & _ & _ & _ & Es).
  case_decide as Hc; [|destruct (node t c); [by rewrite IH|done]]. subst c. rewrite Hv. unfold node in Hv. destruct (a =? 0); [done|]. by rewrite En, Es, IH.
Qed.
Lemma place_child p nm : find_child t' p nm = find_child t p nm.
Proof.
  destruct Hs as (_ & Et & _ & Ec & _). unfold find_child, is_dir. rewrite (place_fld p _ false), (place_fld p child 0), place_fuel, place_find by (congruence || by rewrite Et). done.
Qed.
Lemma place_link b : fld t b (fun n => is_vt (type n) VN_SYMLINK) false = true -> link_target t' b = link_target t b.
Proof.
  intros Hb. unfold link_target, fld in *. unfold t'. rewrite node_put. case_decide as E; [|done]. subst b. rewrite Hv in Hb.
  unfold is_vt in Hb. by apply bool_decide_eq_true in Hb.
Qed.
Lemma place_lookup n :
  (forall c p, vfs_lookup_at n t' c p = vfs_lookup_at n t c p) /\ (forall c p, walk n t' c p = walk n t c p) /\
  (forall x d, resolve_link n t' x d = resolve_link n t x d).
Proof.
  destruct Hs as (_ & Et & Ep & _ & _). assert (forall b, fld t' b parent 0 = fld t b parent 0) as Hp by (intros b; apply place_fld; congruence).
  induction n as [|n (IH1 & IH2 & IH3)]; [done|]. splits.
  - intros c p. cbn [vfs_lookup_at]. destruct (trivial_path p); [done|]. apply IH2.
  - intros c p. cbn [walk]. destruct p as [|x p]; [done|]. destruct (take_part part_max (x :: p)) as [pt rest]. cbv zeta.
    destruct (len pt =? 0); [apply IH2|]. destruct (streq pt dot); [apply IH2|]. destruct (streq pt dotdot); [rewrite Hp; apply IH2|].
    rewrite place_child. destruct (find_child t c pt =? 0); [done|]. rewrite IH3. destruct (resolve_link n t (find_child t c pt) 0) as [b|]; [|done].
    destruct (b =? 0); [done|]. apply IH2.
  - intros x d. cbn [resolve_link]. rewrite (place_fld x _ false) by (by rewrite Et). destruct (fld t x (fun n0 => is_vt (type n0) VN_SYMLINK) false) eqn:El; [|by rewrite andb_false_r].
    rewrite place_link by done. destruct (negb (x =? 0) && true && (d <? 8)); [|done]. destruct (link_target t x) as [tg|]; [|done].
    rewrite !Hp. change (root_node t') with (root_node t). cbv zeta. rewrite IH1. destruct (vfs_lookup_at n t _ tg); [apply IH3|done].
Qed.
End Paths.

(** ** A changed password *)
Lemma c_string_cut p r : Forall (fun b => b <> 0) p -> c_string (p ++ 0 :: r) = p.
Proof. induction 1 as [|b l Hb _ IH]; [done|]. cbn. rewrite (proj2 (Z.eqb_neq b 0)) by done. f_equal. exact IH. Qed.
Lemma new_salt_spec t ticks : exists p, new_salt t ticks = p ++ [0; 0] /\ length p = 14%nat /\ Forall (fun b => b <> 0) p.
Proof.
  unfold new_salt. eexists (_ ++ _). split; [by rewrite app_assoc|]. split; [done|]. apply Forall_app. split; [vm_compute; repeat constructor; discriminate|].
  apply Forall_map, Forall_forall. intros i _. set (k := Z.land _ 15). assert (0 <= k < 16) as Hk.
  { unfold k. change 15 with (Z.ones 4). rewrite Z.land_ones by lia. apply Z.mod_pos_bound. lia. }
  assert (exists j, (j < 16)%nat /\ k = Z.of_nat j) as (j & Hj & ->) by (exists (Z.to_nat k); lia).
  do 16 (destruct j as [|j]; [vm_compute; discriminate|]). lia.
Qed.
Lemma salt_text_cut u p r : salt u = p ++ 0 :: r -> Forall (fun b => b <> 0) p -> salt_text u = p.
Proof. intros E Hp. unfold salt_text. rewrite E, <- app_assoc. cbn [app]. by apply c_string_cut. Qed.
Lemma hash_of_text pw u u' : salt_text u = salt_text u' -> hash_of pw u = hash_of pw u'.
Proof. intros E. rewrite !hash_of_spec. by rewrite E. Qed.
Lemma right_fresh u now pw : fails u = 0 -> right u now pw <-> hash_of pw u = hash u.
Proof. intros Hf. unfold right, locked, unlocked, DOAS_MAX_FAILS. rewrite Hf. cbn. tauto. Qed.

Lemma renewed_spec t new ticks u :
  len (passwd_file (renewed t new ticks u)) = 56 /\
  slice (passwd_file (renewed t new ticks u)) 8 16 = salt (renewed t new ticks u) /\ slice (passwd_file (renewed t new ticks u)) 24 32 = hash (renewed t new ticks u) /\
  forall u', salt u' = salt (renewed t new ticks u) -> hash u' = hash (renewed t new ticks u) -> fails u' = 0 ->
    forall now pw, right u' now pw <-> hash_of pw (renewed t new ticks u) = hash_of new (renewed t new ticks u).
Proof.
  destruct (new_salt_spec t ticks) as (p & Es & Hp & Hz). assert (length (new_salt t ticks) = 16%nat) as Ls by (rewrite Es, length_app, Hp; done).
  assert (length (hash_of new (with_hash (new_salt t ticks) (hash u) u)) = 32%nat) as Lh by apply length_hash_of. unfold renewed, passwd_file. cbn [salt hash with_fails with_hash].
  set (h := hash_of new (with_hash (new_salt t ticks) (hash u) u)) in *. split; [|split; [|split]].
  - unfold len. rewrite !length_app, Ls, Lh. reflexivity.
  - rewrite slice_app_r, slice_app_l by (unfold len; rewrite ?Ls; cbn; lia). apply slice_all. unfold len. by rewrite Ls.
  - rewrite slice_app_r, slice_app_r by (unfold len; rewrite ?Ls; cbn; lia). unfold len. rewrite Ls. apply slice_all. unfold len. by rewrite Lh.
  - intros u' S1 S2 S3 now pw. rewrite right_fresh by done. rewrite S2.
    assert (forall x, salt x = new_salt t ticks -> salt_text x = p) as Hx by (intros x Ex; apply (salt_text_cut x p [0]); [by rewrite Ex, Es|done]).
    set (r := with_fails 0 0 _). pose proof (Hx r eq_refl) as Tr. pose proof (Hx (with_hash (new_salt t ticks) (hash u) u) eq_refl) as T0.
    rewrite (hash_of_text pw u' r (eq_trans (Hx u' S1) (eq_sym Tr))). unfold h at 1. rewrite (hash_of_text new _ r (eq_trans T0 (eq_sym Tr))). reflexivity.
Qed.

Lemma renewed_account t new ticks u : account (renewed t new ticks u) = account u.
Proof. reflexivity. Qed.
Lemma renewed_fails t new ticks u : fails (renewed t new ticks u) = 0.
Proof. reflexivity. Qed.
#[local] Opaque renewed.
(** [C8] A changed password is the one that counts, also for a table read back from
    its file. For a caller whose old password is right and whose new one has four bytes
    or more, with /home/yart/.passwd a regular file that exists already, the call
    succeeds; from then on, at any time, exactly the passwords with the new one's hash
    are right; and unless the write of the file failed for want of memory, doas_init on
    the tree the call leaves (not one reloaded from the disk) gives a table that accepts
    exactly the same. *)
Theorem passwd_takes_effect {D} str_ok fuel e l (tr : vfs D) t i u oldp newp old new now later ticks dir pf v :
  c_from_user t = true -> copy_pw str_ok t oldp PW_MAX = Some old -> copy_pw str_ok t newp PW_MAX = Some new -> 4 <= len new ->
  Forall (fun u => length (hash u) = 32%nat) l -> find_user l (c_account t) = Some i -> l !! i = Some u -> right u now old ->
  find_path fuel tr passwd_dir = Done dir -> find_path fuel tr passwd_path = Done pf -> node tr pf = Some v -> file_ok v -> alloc_ok e ->
  exists l' tr' u', sys_passwd str_ok fuel e l tr t oldp newp now later ticks = Done (l', tr', 0) /\ l' !! i = Some u' /\ account u' = account u /\
    (forall now pw, right u' now pw <-> hash_of pw u' = hash_of new u') /\
    (vfs_write e v (passwd_file u') 0 = Result (-1) v \/
     exists u'', doas_init fuel tr' = Done [u''] /\ account u'' = chars "demo" /\ forall now pw, right u'' now pw <-> right u' now pw).
Proof.
  intros Hc Ho Hn H4 Hh Hi Hu Hr Hdir Hpf Hv Ok He. assert ((pf =? 0) = false) as Hz by (unfold node in Hv; destruct (pf =? 0); [discriminate|reflexivity]). assert (length (hash u) = 32%nat) as Hl by (rewrite Forall_lookup in Hh; by apply (Hh i)).
  destruct (try_password_spec u now later old Hl) as [Hs Hf]. rewrite (proj2 Hs Hr) in Hf. unfold sys_passwd. rewrite Ho, Hn, Hc, Hi. cbn [negb].
  rewrite (proj2 (Z.ltb_ge _ _)) by done. unfold doas_check. rewrite Hi, Hu. destruct (try_password u now later old) as [u1 ok] eqn:Et. cbn [fst snd] in *.
  assert (ok = true) as -> by (apply Hs, Hr). cbn [negb]. assert (i < length l)%nat as Hil by (by eapply lookup_lt_Some). rewrite list_lookup_insert_eq by done. cbv zeta.
  assert (account u1 = account u) as Ha by (subst u1; by destruct (locked u now)).
  set (r := renewed t new ticks u1).
  destruct (renewed_spec t new ticks u1) as (Hlen & Hsalt & Hhash & Hright). fold r in Hlen, Hsalt, Hhash, Hright.
  unfold store_passwd. rewrite Hdir, Hpf. cbn [cbind]. rewrite Hz. cbn [andb]. rewrite Hv.
  assert (0 + len (passwd_file r) <= 2 ^ 61) as Hb by (rewrite Hlen; lia).
  assert (<[i := r]> (<[i := u1]> l) !! i = Some r) as H1 by (apply list_lookup_insert_eq; rewrite length_insert; exact Hil).
  assert (account r = account u) as H2 by (unfold r; rewrite renewed_account; exact Ha).
  destruct (write_spec e v (passwd_file r) 0 He Ok (Z.le_refl 0) Hb) as [Ew|(w & Ew & Okw & _ & Hcw)]; rewrite Ew; cbn [cbind].
  - exists (<[i := r]> (<[i := u1]> l)), (put tr pf v), r. split; [reflexivity|]. split; [exact H1|]. split; [exact H2|]. split; [apply Hright; reflexivity || apply renewed_fails|left; exact Ew].
  - exists (<[i := r]> (<[i := u1]> l)), (put tr pf w), r. split; [reflexivity|]. split; [exact H1|]. split; [exact H2|]. split; [apply Hright; reflexivity || apply renewed_fails|right].
    assert (node (put tr pf w) pf = Some w) as Hw by (by eapply node_put_eq). pose proof (write_place _ _ _ _ _ _ Ew) as Hp.
    assert (find_path fuel (put tr pf w) passwd_path = Done pf) as Hfp.
    { rewrite <- Hpf. unfold find_path, vfs_lookup. destruct (place_lookup tr pf v w Hv Hp) with (n := fuel) as (-> & _); [|done]. destruct Ok as (-> & _). done. }
    unfold doas_init. rewrite Hfp. cbn [cbind]. rewrite Hw. rewrite (read_spec w 0 56 Okw) by lia. rewrite Hcw, <- Hlen.
    destruct (written_slice (contents v) 0 (passwd_file r) (Z.le_refl 0)) as (-> & _). rewrite Z.eqb_refl.
    exists (load_passwd (passwd_file r) factory_user). split; [reflexivity|]. split; [reflexivity|]. intros now' pw.
    rewrite (Hright r eq_refl eq_refl (renewed_fails _ _ _ _)). unfold load_passwd. change (streq (take 8 (passwd_file r)) PASSWD_MAGIC) with true. cbv iota.
    apply Hright; [exact Hsalt|exact Hhash|reflexivity].
Qed.

(** ** A task of demo *)
Lemma lockout_bounds_guesses_witness : exists n,
  guessed (DoasUser (chars "demo") (replicate 16 0) (replicate 32 0) 5 100) [Attempt 110 110 (chars "a"); Attempt 120 121 (chars "b")] n /\
  n <= 5 + 5 * ((130 - 105) / DOAS_LOCKOUT_TICKS).
Proof.
  apply lockout_bounds_guesses.
  - reflexivity.
  - vm_compute. discriminate.
  - vm_compute. split; discriminate.
  - vm_compute. split; [discriminate|reflexivity].
  - vm_compute. intuition discriminate.
  - split; [reflexivity|]. split; [reflexivity|exact I].
Defined.

Definition demo_cred : cred := Cred 7 1000 1000 100 [] 18 true (chars "demo") true.
Definition demo_entry : doas_user := renewed demo_cred (chars "yart") 5 (DoasUser (chars "demo") (replicate 16 0) (replicate 32 0) 0 0).
Definition demo_pw : ubuf := Ubuf 0 (chars "yart" ++ [0]).
Lemma renewed_right t new ticks u now : right (renewed t new ticks u) now new.
Proof. destruct (renewed_spec t new ticks u) as (_ & _ & _ & H). apply (H _ eq_refl eq_refl (renewed_fails _ _ _ _)). reflexivity. Qed.
Lemma demo_right now : right demo_entry now (chars "yart").
Proof. apply renewed_right. Qed.
Lemma demo_hash : length (hash demo_entry) = 32%nat.
Proof. apply length_hash_of. Qed.
Lemma demo_found : find_user [demo_entry] (chars "demo") = Some O.
Proof. unfold demo_entry. cbn [find_user]. rewrite renewed_account. reflexivity. Qed.
#[local] Opaque demo_entry.


(** /home/yart/.passwd, empty. *)
Definition demo_home : vfs unit :=
  let '(t, h) := vfs_create demo_env demo_root 1 (chars "home") VN_DIR in
  let '(t, y) := vfs_create demo_env t h (chars "yart") VN_DIR in
  fst (vfs_create demo_env t y passwd_name VN_FILE).
Definition demo_pf : vnode := match node demo_home 4 with Some v => v | None => demo_file end.
Lemma passwd_takes_effect_witness : exists l' tr' u', sys_passwd yes 10 demo_env [demo_entry] demo_home demo_cred demo_pw (Ubuf 0 (chars "sesame" ++ [0])) 50 51 60 = Done (l', tr', 0) /\
  l' !! O = Some u' /\ right u' 0 (chars "sesame").
Proof.
  destruct (passwd_takes_effect yes 10 demo_env [demo_entry] demo_home demo_cred O demo_entry demo_pw (Ubuf 0 (chars "sesame" ++ [0])) (chars "yart") (chars "sesame") 50 51 60 3 4 demo_pf)
    as (l' & tr' & u' & E & H1 & _ & H2 & _).
  1-3: vm_compute; reflexivity.
  1: vm_compute; discriminate.
  1: constructor; [exact demo_hash|constructor].
  1: exact demo_found.
  1: reflexivity.
  1: apply demo_right.
  1-3: vm_compute; reflexivity.
  1: vm_compute; intuition discriminate.
  1: exact demo_alloc_ok.
  exists l', tr', u'. split; [exact E|]. split; [exact H1|]. apply H2. reflexivity.
Defined.
