(* ===== verification/Loader.v ===== *)
(** * The program loader (kernel/arch/x86_64/user.c)

    ELF files into fresh address spaces: validation, the copy of the segments,
    relocations, the process image on the stack, and [user_exec]. The address
    space is that of [Vmm]: the loader writes user memory through the tables in
    CR3, and a write can fault. File data is the buffer of a [Vfs] vnode; the
    random numbers' sources, [vfs_lookup] and [sched_pml4_unref] are arguments. *)
From Stdlib Require Import ZArith Lia Bool String.
From stdpp Require Import base list numbers option.
From S2P Require Import Prelude Pmm Vmm Vfs.
#[local] Set Default Goal Selector "!".
Open Scope Z_scope.
Open Scope carray_scope.

(** ** Outcomes *)
(** A call returns, halts the machine, or leaves what the kernel may touch:
    [KWrite] stores bytes in the kernel's half of the address space, [KRead]
    reads outside a file's buffer. *)
Inductive kres (A : Type) : Type :=
| KOk (a : A)
| KPanic
| KWrite (va : Z) (d : list Z)
| KRead.
Arguments KOk {A} a.
Arguments KPanic {A}.
Arguments KWrite {A} va d.
Arguments KRead {A}.

Definition kbind {A B} (m : kres A) (f : A -> kres B) : kres B :=
  match m with KOk a => f a | KPanic => KPanic | KWrite va d => KWrite va d | KRead => KRead end.
Notation "'let!' p ':=' a 'in' b" := (kbind a (fun p => b))
  (at level 10, p pattern, a at level 200, b at level 200).

Definition of_outcome {A} (x : outcome A) : kres A := match x with Ret a => KOk a | Panic => KPanic end.

Fixpoint kfold {A B} (f : A -> B -> kres A) (l : list B) (a : A) : kres A :=
  match l with
  | [] => KOk a
  | b :: l => let! a := f a b in kfold f l a
  end.

Fixpoint kmap {A B} (f : A -> kres B) (l : list A) : kres (list B) :=
  match l with
  | [] => KOk []
  | a :: l => let! b := f a in let! l := kmap f l in KOk (b :: l)
  end.

(** ** Constants *)
Definition ELF_MAGIC : Z := 1179403647.
Definition EM_X86_64 : Z := 62.
Definition ET_EXEC : Z := 2.
Definition ET_DYN : Z := 3.
Definition PT_LOAD : Z := 1.
Definition PT_INTERP : Z := 3.
Definition SHT_RELA : Z := 4.
Definition R_X86_64_RELATIVE : Z := 8.
Definition PF_X : Z := 1.
Definition PF_W : Z := 2.
Definition sizeof_ehdr : Z := 64.
Definition sizeof_phdr : Z := 56.
Definition sizeof_shdr : Z := 64.
Definition USER_VBASE : Z := 1073741824.
Definition USER_STACK_PAGES : Z := 32.
Definition USER_MMAP_BASE : Z := 1342177280.
Definition SIGRETURN_TRAMP_VA : Z := 1862270976.
Definition SIGRETURN_TRAMP_NR : Z := 51.
Definition CODE_ASLR_SPAN : Z := 268435456.
Definition STACK_ASLR_SPAN : Z := 134217728.
Definition TASK_NAME_LEN : Z := 16.
Definition PAGE_ALIGN_UP (x : Z) : Z := PAGE_ALIGN_DOWN (u64 (x + 4095)).

(** ** Little-endian fields *)
Fixpoint le_val (l : list Z) : Z := match l with [] => 0 | b :: l => b + 256 * le_val l end.
Definition ld (l : list Z) (o n : Z) : Z := le_val (slice l o n).
Definition le64 (v : Z) : list Z := map (fun k => u8 (Z.shiftr v (8 * k))) (seqZ 0 8).

Record ehdr := Ehdr {
  e_magic : Z; e_cls : Z; e_type : Z; e_machine : Z; e_entry : Z; e_phoff : Z; e_shoff : Z;
  e_phentsize : Z; e_phnum : Z; e_shentsize : Z; e_shnum : Z }.
Definition ehdr_of (d : list Z) : ehdr :=
  Ehdr (ld d 0 4) (ld d 4 1) (ld d 16 2) (ld d 18 2) (ld d 24 8) (ld d 32 8) (ld d 40 8)
    (ld d 54 2) (ld d 56 2) (ld d 58 2) (ld d 60 2).

Record phdr := Phdr { p_type : Z; p_flags : Z; p_offset : Z; p_vaddr : Z; p_filesz : Z; p_memsz : Z }.
Definition phdr_of (b : list Z) : phdr := Phdr (ld b 0 4) (ld b 4 4) (ld b 8 8) (ld b 16 8) (ld b 32 8) (ld b 40 8).

Record shdr := Shdr { sh_type : Z; sh_offset : Z; sh_size : Z }.
Definition shdr_of (b : list Z) : shdr := Shdr (ld b 4 4) (ld b 24 8) (ld b 32 8).

(** Bytes of the file's buffer. *)
Definition file_read (d : list Z) (o n : Z) : kres (list Z) :=
  if o + n <=? len d then KOk (slice d o n) else KRead.

(** [!v || v->type != VN_FILE || !v->data || v->size < sizeof(ehdr_t)]: the
    buffer and the size otherwise. *)
Definition elf_file (v : option vnode) : option (list Z * Z) :=
  match v with
  | None => None
  | Some v =>
    if negb (is_vt (type v) VN_FILE) then None
    else match data v with
         | None => None
         | Some d => if size v <? sizeof_ehdr then None else Some (d, size v)
         end
  end.

(** The header, through the pointer to the data. *)
Definition read_ehdr (d : list Z) : kres ehdr := let! _ := file_read d 0 sizeof_ehdr in KOk (ehdr_of d).
(** The program headers, [ph[i]] for every [i]: the loops over them read one after
    the other; here the table is read at once. *)
Definition phdrs (d : list Z) (e : ehdr) : kres (list phdr) :=
  kmap (fun i => let! b := file_read d (e_phoff e + sizeof_phdr * i) sizeof_phdr in KOk (phdr_of b)) (seqZ 0 (e_phnum e)).
Definition ph_end (e : ehdr) : Z := u64 (e_phoff e + e_phnum e * sizeof_phdr).

(** ** Foreign binaries *)
Definition linux_marker (p : phdr) : bool :=
  existsb (Z.eqb (p_type p)) [PT_INTERP; 1685382481; 1685382480; 1685382482; 1685382483; 7; 2].

(** Walk over the program headers as long as [f] says nothing. *)
Fixpoint ph_scan {A} (f : phdr -> kres (option A)) (d : list Z) (at_ : Z) (n : nat) : kres (option A) :=
  match n with
  | O => KOk None
  | S n =>
    let! b := file_read d at_ sizeof_phdr in
    let! r := f (phdr_of b) in
    match r with Some a => KOk (Some a) | None => ph_scan f d (at_ + sizeof_phdr) n end
  end.

Definition elf_is_linux (v : option vnode) : kres bool :=
  match elf_file v with
  | None => KOk false
  | Some (d, fsize) =>
    let! e := read_ehdr d in
    if negb (e_magic e =? ELF_MAGIC) || negb (e_cls e =? 2) || negb (e_machine e =? EM_X86_64) then KOk false
    else if e_type e =? ET_EXEC then KOk true
    else if negb (e_type e =? ET_DYN) then KOk false
    else if fsize <? ph_end e then KOk false
    else
      let! r := ph_scan (fun p => KOk (if linux_marker p then Some tt else None)) d (e_phoff e) (Z.to_nat (e_phnum e)) in
      KOk (match r with Some _ => true | None => false end)
  end.

(** The interpreter's path, for a buffer of [cap] bytes; [None] for -1. *)
Definition find_interp_path (v : option vnode) (cap : Z) : kres (option (list Z)) :=
  match elf_file v with
  | None => KOk None
  | Some (d, fsize) =>
    let! e := read_ehdr d in
    if negb (e_magic e =? ELF_MAGIC) || (fsize <? ph_end e) then KOk None
    else
      let! r := ph_scan (fun p =>
        if negb (p_type p =? PT_INTERP) then KOk None
        else
          let off := p_offset p in let sz := p_filesz p in
          if (fsize <? u64 (off + sz)) || (sz =? 0) || (cap - 1 <? sz) then KOk (Some None)
          else let! b := file_read d off sz in KOk (Some (Some (c_string b)))) d (e_phoff e) (Z.to_nat (e_phnum e)) in
      KOk (match r with Some r => r | None => None end)
  end.

(** ** Address-space randomisation *)
Definition aslr_next (x : Z) : Z :=
  let x := u64 (Z.lxor x (Z.shiftl x 13)) in
  let x := Z.lxor x (Z.shiftr x 7) in
  u64 (Z.lxor x (Z.shiftl x 17)).
Definition aslr_rand (x : Z) : Z := u64 (aslr_next x * 2685821657736338717).
Definition pick_code_base (x : Z) : Z := USER_VBASE + aslr_rand x mod (CODE_ASLR_SPAN / 4096) * PAGE_SIZE.
Definition pick_stack_top (x : Z) : Z := USER_STACK_TOP - aslr_rand x mod (STACK_ASLR_SPAN / 4096) * PAGE_SIZE.

Section Loader.
Context `{SwapDisk} `{!OomKiller}.

(** ** Kernel writes to user memory *)
Definition poke (m : memory) (a b : Z) : memory := fun x => if x =? a then b else m x.

(** A byte through the tables in CR3. A write to a page that is absent,
    read-only or swapped out faults, and is tried again when the fault is
    resolved; swapping in, sharing and writing are at most two faults. A fault
    that is not resolved, in kernel mode, is a panic. *)
Fixpoint store_byte (tries : nat) (s : vmm) (va b : Z) : kres vmm :=
  let fault : kres vmm :=
    match tries with
    | O => KPanic
    | S tries =>
      let! r := of_outcome (vmm_resolve_user_fault s va true) in
      if snd r then store_byte tries (fst r) va b else KPanic
    end in
  match walk_pte s (cur_pml4 s) va with
  | Some a =>
    let e := word s a in
    if has e PTE_PRESENT && has e PTE_RW
    then KOk (with_mem (poke (ram s) (addr_of e + Z.land va 4095) b) s)
    else fault
  | None => fault
  end.

(** Where user addresses end and kernel addresses begin. What is in between is no
    address: the processor faults, and a fault of the kernel itself is a panic. *)
Definition USER_HALF_END : Z := 140737488355328.
Definition KERNEL_HALF : Z := 18446603336221196288.

Fixpoint store_at (s : vmm) (va : Z) (d : list Z) : kres vmm :=
  match d with
  | [] => KOk s
  | b :: d => let! s := store_byte 3 s va b in store_at s (va + 1) d
  end.
Definition store_bytes (s : vmm) (va : Z) (d : list Z) : kres vmm :=
  if KERNEL_HALF <=? va then KWrite va d else if USER_HALF_END <=? va then KPanic else store_at s va d.

(** ** Relocations *)
Definition apply_reloc (bias : Z) (s : vmm) (r : list Z) : kres vmm :=
  let r_offset := ld r 0 8 in let r_info := ld r 8 8 in let r_addend := ld r 16 8 in
  if negb (u32 r_info =? R_X86_64_RELATIVE) then KOk s
  else store_bytes s (u64 (bias + r_offset)) (le64 (u64 (bias + r_addend))).

(** [for (off = 0; off + 24 <= sh->size; off += 24)]. A round reads 24 bytes of
    the buffer, so that its length is fuel enough. *)
Fixpoint rela_loop (fuel : nat) (d : list Z) (bias base n off : Z) (s : vmm) : kres vmm :=
  if n <? off + 24 then KOk s
  else
    let! r := file_read d (base + off) 24 in
    let! s := apply_reloc bias s r in
    match fuel with
    | O => KRead
    | S fuel => rela_loop fuel d bias base n (off + 24) s
    end.

Definition apply_section (d : list Z) (fsize bias : Z) (s : vmm) (sh : shdr) : kres vmm :=
  if negb (sh_type sh =? SHT_RELA) then KOk s
  else if (fsize <? sh_offset sh) || (fsize <? u64 (sh_offset sh + sh_size sh)) then KOk s
  else rela_loop (length d) d bias (sh_offset sh) (sh_size sh) 0 s.

Definition apply_relocations (d : list Z) (fsize bias : Z) (s : vmm) : kres vmm :=
  let! e := read_ehdr d in
  if (e_shoff e =? 0) || (e_shnum e =? 0) || (e_shentsize e <? sizeof_shdr) then KOk s
  else if fsize <? e_shoff e then KOk s
  else if fsize <? u64 (e_shoff e + e_shnum e * e_shentsize e) then KOk s
  else kfold (fun s i =>
         let! b := file_read d (e_shoff e + e_shentsize e * i) sizeof_shdr in
         apply_section d fsize bias s (shdr_of b)) (seqZ 0 (e_shnum e)) s.

(** ** Loading the segments *)
(** The checks on the file header. *)
Definition ehdr_ok (fsize : Z) (e : ehdr) : bool :=
  (e_magic e =? ELF_MAGIC) && (e_cls e =? 2) && (e_machine e =? EM_X86_64) &&
  ((e_type e =? ET_DYN) || (e_type e =? ET_EXEC)) &&
  (sizeof_phdr <=? e_phentsize e) && negb (e_phnum e =? 0) && (e_phnum e <=? 64) &&
  (e_phoff e <=? fsize) && (ph_end e <=? fsize).

(** The checks on one segment. *)
Definition segment_ok (min_va fsize bias : Z) (p : phdr) : bool :=
  let va := u64 (bias + p_vaddr p) in
  (va <=? u64 (va + p_memsz p)) && (min_va <=? va) && (u64 (va + p_memsz p) <=? USER_STACK_TOP) &&
  (p_offset p <=? fsize) && (u64 (p_offset p + p_filesz p) <=? fsize).

Definition is_load (p : phdr) : bool := p_type p =? PT_LOAD.

(** Pass 1: the span of all segments, [None] for one that is refused. *)
Fixpoint check_segments (min_va fsize bias : Z) (l : list phdr) (first last : Z) : option (Z * Z) :=
  match l with
  | [] => Some (first, last)
  | p :: l =>
    if negb (is_load p) then check_segments min_va fsize bias l first last
    else if negb (segment_ok min_va fsize bias p) then None
    else
      let va := u64 (bias + p_vaddr p) in
      let f := PAGE_ALIGN_DOWN va in
      let l' := PAGE_ALIGN_UP (u64 (va + p_memsz p)) in
      check_segments min_va fsize bias l (if f <? first then f else first) (if last <? l' then l' else last)
  end.

(** What a page is to allow: execution, writing, and whether a segment covers it. *)
Record want := Want { want_exec : bool; want_write : bool; covered : bool }.

(** Pass 2, one segment on the page at [a]. *)
Definition copy_segment (d : list Z) (bias a : Z) (sw : vmm * want) (p : phdr) : kres (vmm * want) :=
  let (s, w) := sw in
  if negb (is_load p) then KOk (s, w)
  else
    let sva := u64 (bias + p_vaddr p) in
    if (a + PAGE_SIZE <=? sva) || (u64 (sva + p_memsz p) <=? a) then KOk (s, w)
    else
      let w := Want (want_exec w || has (p_flags p) PF_X) (want_write w || has (p_flags p) PF_W) true in
      let fend := u64 (sva + p_filesz p) in
      if (a + PAGE_SIZE <=? sva) || (fend <=? a) then KOk (s, w)
      else
        let dst := if sva <? a then a else sva in
        let n := u64 ((if a + PAGE_SIZE <? fend then a + PAGE_SIZE else fend) - dst) in
        let! b := file_read d (p_offset p + (dst - sva)) n in
        let! s := store_bytes s dst b in
        KOk (s, w).

Definition page_flags (w : want) : Z :=
  let f := PTE_US in
  let f := if want_write w || negb (covered w) then Z.lor f PTE_RW else f in
  if negb (want_exec w) then Z.lor f PTE_NX else f.

Definition load_page (d : list Z) (phs : list phdr) (bias pml4 : Z) (s : vmm) (a : Z) : kres vmm :=
  let! r := of_outcome (alloc_page s) in
  let! s := of_outcome (vmm_map_in (fst r) pml4 a (snd r) (Z.lor PTE_RW PTE_US)) in
  let! sw := kfold (copy_segment d bias a) phs (s, Want false false false) in
  KOk (vmm_set_flags_in (fst sw) pml4 a (page_flags (snd sw))).

Definition span_pages (first last : Z) : list Z := map (fun k => first + k * PAGE_SIZE) (seqZ 0 ((last - first) / PAGE_SIZE)).

(** The state and regions, the end of the span, and the entry, 0 for failure. *)
Definition load_user_elf_into (v : option vnode) (bias pml4 : Z) (s : vmm) (rs : list region)
    : kres (vmm * list region * Z * Z) :=
  match elf_file v with
  | None => KOk (s, rs, 0, 0)
  | Some (d, fsize) =>
    let! e := read_ehdr d in
    if negb (ehdr_ok fsize e) then KOk (s, rs, 0, 0)
    else
      let! phs := phdrs d e in
      let min_va := if e_type e =? ET_EXEC then 4096 else USER_VBASE in
      match check_segments min_va fsize bias phs (u64 (-1)) 0 with
      | None => KOk (s, rs, 0, 0)
      | Some (first, last) =>
        if (first =? u64 (-1)) || (last <=? first) then KOk (s, rs, 0, 0)
        else
          let! (s, rs, rc) := of_outcome (vmm_reserve_in s pml4 rs first ((last - first) / PAGE_SIZE)
                            (Z.lor (Z.lor PTE_RW PTE_US) PTE_NX) VMM_USER_LAZY) in
          if negb (rc =? 0) then KOk (s, rs, 0, 0)
          else
            let! s := kfold (load_page d phs bias pml4) (span_pages first last) s in
            KOk (s, rs, last, u64 (bias + e_entry e))
      end
  end.

(** ** The sigreturn page *)
Definition tramp_code : list Z :=
  [72; 139; 124; 36; 240; 72; 199; 192; SIGRETURN_TRAMP_NR; 0; 0; 0; 15; 5; 235; 254].

Definition put_bytes (m : memory) (a : Z) (d : list Z) : memory :=
  fun x => if (a <=? x) && (x <? a + len d) then d.[x - a] else m x.

(** A lazy region's page would do; the reservation maps one, which the mapping
    below replaces. *)
Definition user_map_trampoline (s : vmm) (pml4 : Z) (rs : list region) : kres (vmm * list region) :=
  let! (s, rs, rc) := of_outcome (vmm_reserve_in s pml4 rs SIGRETURN_TRAMP_VA 1 PTE_US 0) in
  if negb (rc =? 0) then KOk (s, rs)
  else
    let! (s, p) := of_outcome (alloc_page s) in
    if p =? 0 then KOk (s, rs)
    else
      let s := with_mem (put_bytes (ram s) p tramp_code) s in
      let! s := of_outcome (vmm_map_in s pml4 SIGRETURN_TRAMP_VA p (Z.lor PTE_PRESENT PTE_US)) in
      KOk (s, rs).

(** ** The process image on the stack *)
Definition AT_NULL : Z := 0.
Definition AT_PHDR : Z := 3.
Definition AT_PHENT : Z := 4.
Definition AT_PHNUM : Z := 5.
Definition AT_PAGESZ : Z := 6.
Definition AT_BASE : Z := 7.
Definition AT_FLAGS : Z := 8.
Definition AT_ENTRY : Z := 9.
Definition AT_UID : Z := 11.
Definition AT_EUID : Z := 12.
Definition AT_GID : Z := 13.
Definition AT_EGID : Z := 14.
Definition AT_CLKTCK : Z := 17.
Definition AT_SECURE : Z := 23.
Definition AT_RANDOM : Z := 25.
Definition AT_EXECFN : Z := 31.
Definition AT_SYSINFO_EHDR : Z := 33.

(** Strings come without their terminator. *)
Definition zstr (s : list Z) : list Z := s ++ [0].
Definition strings_len (l : list (list Z)) : Z := len (concat (map zstr l)).

(** The 16 bytes of AT_RANDOM. *)
Fixpoint random_bytes (n : nat) (x : Z) : list Z :=
  match n with
  | O => []
  | S n => u8 x :: random_bytes n (u64 (x * 6364136223846793005 + 1442695040888963407))
  end.
Definition at_random (tsc : Z) : list Z := random_bytes 16 (Z.lxor tsc 11400714819323198485).

(** The addresses of strings that stand one after the other from [p]. *)
Fixpoint string_ptrs (p : Z) (l : list (list Z)) : list Z :=
  match l with
  | [] => []
  | s :: l => p :: string_ptrs (u64 (p + len s + 1)) l
  end.

Definition store_words (s : vmm) (a : Z) (ws : list Z) : kres vmm :=
  kfold (fun s kw => store_bytes s (u64 (a + 8 * fst kw)) (le64 (snd kw))) (zip (seqZ 0 (len ws)) ws) s.
Definition store_strings (s : vmm) (a : Z) (l : list (list Z)) : kres vmm :=
  kfold (fun s pl => store_bytes s (fst pl) (zstr (snd pl))) (zip (string_ptrs a l) l) s.

(** Where each part goes. *)
Record layout := Layout { l_strings : Z; l_auxv : Z; l_envp : Z; l_argv : Z; l_argc : Z }.
Definition stack_layout (top : Z) (argv envp : list (list Z)) (auxv : option (list (Z * Z))) : layout :=
  let blob := match auxv with Some _ => 16 | None => 0 end in
  let strings := u64 (top - 8 - (blob + strings_len argv + strings_len envp)) in
  let auxv_va := match auxv with Some l => u64 (strings - (len l + 1) * 16) | None => strings end in
  let envp_va := u64 (auxv_va - (len envp + 1) * 8) in
  let argv_va := u64 (envp_va - (len argv + 1) * 8) in
  Layout strings auxv_va envp_va argv_va (u64 (argv_va - 8)).

(** The auxiliary vector as it is written. *)
Definition auxv_entry (strings : Z) (kv : Z * Z) : list Z :=
  let (k, v) := kv in
  [k; if k =? AT_RANDOM then strings else if k =? AT_EXECFN then u64 (strings + 16) else v].

(** The user stack pointer, 0 for failure; [tsc] is the time stamp. *)
Definition build_user_stack_into (s : vmm) (pml4 : Z) (rs : list region) (top : Z)
    (argv envp : list (list Z)) (auxv : option (list (Z * Z))) (tsc : Z) : kres (vmm * list region * Z) :=
  let base := u64 (top - USER_STACK_PAGES * PAGE_SIZE) in
  let! (s, rs, rc) := of_outcome (vmm_reserve_in s pml4 rs base USER_STACK_PAGES (Z.lor PTE_RW PTE_NX) 0) in
  if negb (rc =? 0) then KOk (s, rs, 0)
  else
    let l := stack_layout top argv envp auxv in
    let! s := (match auxv with Some _ => store_bytes s (l_strings l) (at_random tsc) | None => KOk s end) in
    let p := match auxv with Some _ => u64 (l_strings l + 16) | None => l_strings l end in
    let! s := store_strings s p argv in
    let ep := u64 (p + strings_len argv) in
    let! s := store_strings s ep envp in
    let! s := store_words s (l_envp l) (string_ptrs ep envp ++ [0]) in
    let! s := store_words s (l_argv l) (string_ptrs p argv ++ [0]) in
    let! s := store_bytes s (l_argc l) (le64 (len argv)) in
    let! s := (match auxv with
         | Some x => store_words s (l_auxv l) (concat (map (auxv_entry (l_strings l)) x) ++ [AT_NULL; 0])
         | None => KOk s
         end) in
    KOk (s, rs, l_argc l).

(** ** Boot and exec *)
(** The time stamps and the tick count the random numbers come from, and the
    address of the vnode. *)
Record entropy := Entropy { seed_tsc : Z; seed_ticks : Z; stack_tsc : Z; vnode_at : Z }.
Definition seed_aslr (en : entropy) (extra : Z) : Z :=
  Z.lxor (Z.lxor (seed_tsc en) (u64 (Z.shiftl (seed_ticks en) 32))) extra.

Definition ascii_bytes (s : string) : list Z := map (fun c => Z.of_nat (Ascii.nat_of_ascii c)) (list_ascii_of_string s).

(** [user_prepare_elf]: the entry, the stack pointer, the tables and the
    regions, [None] for false. *)
Definition user_prepare_elf (en : entropy) (s : vmm) (v : option vnode)
    : kres (vmm * option (Z * Z * Z * list region)) :=
  let! (s, pml4) := of_outcome (vmm_new_pml4 s) in
  if pml4 =? 0 then KOk (s, None)
  else
    let s := vmm_switch_pml4 s pml4 in
    let seed := seed_aslr en (vnode_at en) in
    let bias := pick_code_base seed in
    let top := pick_stack_top (aslr_next seed) in
    let undo s := vmm_free_pml4 (vmm_switch_pml4 s (kernel_pml4 s)) pml4 in
    let! (s, rs, _, entry) := load_user_elf_into v bias pml4 s [] in
    match elf_file v with
    | Some (d, fsize) =>
      if entry =? 0 then KOk (undo s, None)
      else
        let! s := apply_relocations d fsize bias s in
        let! (s, rs) := user_map_trampoline s pml4 rs in
        let! (s, rs, rsp) := build_user_stack_into s pml4 rs top [ascii_bytes "init"] [] None (stack_tsc en) in
        if rsp =? 0 then KOk (undo s, None) else KOk (s, Some (entry, rsp, pml4, rs))
    | None => KOk (undo s, None)
    end.

(** What of a task [user_exec] reads and writes, besides its regions and its
    page count, which are those of the current task in [vmm]. *)
Record proc := Proc {
  t_pid : Z; t_uid : Z; t_euid : Z; t_gid : Z; t_pml4 : Z; t_name : list Z; linux_abi : bool;
  mmap_next : Z; brk_base : Z; brk : Z; sig_handlers : list Z; sig_pending : Z; sig_blocked : Z }.
(** The interrupt frame's registers that exec rewrites. *)
Record frame := Frame { f_rip : Z; f_rsp : Z; f_rax : Z; f_rcx : Z; f_r11 : Z }.

Definition interp_candidates : list (list Z) :=
  map ascii_bytes ["/lib/ld-musl-x86_64.so.1"%string; "/lib/libc.musl-x86_64.so.1"%string; "/lib/libc.so"%string;
                   "/usr/lib/libc.so"%string; "/lib/ld-yart.so"%string].

Fixpoint first_found (lookup : list Z -> option vnode) (l : list (list Z)) : option vnode :=
  match l with
  | [] => None
  | p :: l => match lookup p with Some v => Some v | None => first_found lookup l end
  end.

(** The interpreter behind the main image: the state, its base and its entry,
    both 0 without one. *)
Definition load_interp (lookup : list Z -> option vnode) (v : option vnode) (is_linux : bool) (main_end pml4 : Z)
    (s : vmm) (rs : list region) : kres (vmm * list region * Z * Z) :=
  let! path := (if is_linux then find_interp_path v VFS_MAX_PATH else KOk None) in
  match path with
  | None => KOk (s, rs, 0, 0)
  | Some path =>
    match first_found lookup (path :: interp_candidates) with
    | None => KOk (s, rs, 0, 0)
    | Some i =>
      let base := PAGE_ALIGN_UP (u64 (main_end + PAGE_SIZE)) in
      let base := if base <? USER_VBASE then USER_VBASE else base in
      let! (s, rs, _, entry) := load_user_elf_into (Some i) base pml4 s rs in
      match elf_file (Some i) with
      | Some (d, fsize) =>
        if entry =? 0 then KOk (s, rs, 0, 0)
        else let! s := apply_relocations d fsize base s in KOk (s, rs, base, entry)
      | None => KOk (s, rs, 0, 0)
      end
    end
  end.

(** The address of the program headers: that of PT_PHDR, or a guess from the
    first segment. *)
Definition phdr_va (e : ehdr) (phs : list phdr) (bias : Z) : Z :=
  let a := match find (fun p => p_type p =? 6) phs with Some p => u64 (bias + p_vaddr p) | None => 0 end in
  if a =? 0 then
    let first := match find is_load phs with Some p => p_vaddr p | None => 0 end in
    u64 (bias + first + e_phoff e)
  else a.

Definition linux_auxv (t : proc) (d : list Z) (bias interp_base entry : Z) : kres (list (Z * Z)) :=
  let e := ehdr_of d in
  let! phs := phdrs d e in
  KOk [(AT_SYSINFO_EHDR, 0); (AT_PHDR, phdr_va e phs bias); (AT_PHENT, e_phentsize e); (AT_PHNUM, e_phnum e);
   (AT_PAGESZ, PAGE_SIZE); (AT_BASE, interp_base); (AT_FLAGS, 0); (AT_ENTRY, entry); (AT_UID, t_uid t);
   (AT_EUID, t_euid t); (AT_GID, t_gid t); (AT_EGID, t_gid t); (AT_CLKTCK, 100); (AT_SECURE, 0);
   (AT_RANDOM, 0); (AT_EXECFN, 0)].

(** The new image in the tables [pml4], which are in CR3: the regions, the entry
    and the stack pointer, [None] at [fail]. *)
Definition build_image (lookup : list Z -> option vnode) (en : entropy) (t : proc) (v : option vnode) (d : list Z)
    (fsize : Z) (argv envp : list (list Z)) (pml4 : Z) (s : vmm)
    : kres (vmm * option (list region * Z * Z * bool)) :=
  let seed := seed_aslr en (Z.lxor (vnode_at en) (u64 (Z.shiftl (t_pid t) 32))) in
  let! is_linux := elf_is_linux v in
  let fixed := e_type (ehdr_of d) =? ET_EXEC in
  let bias := if fixed then 0 else pick_code_base seed in
  let top := pick_stack_top (if fixed then seed else aslr_next seed) in
  let! (s, rs, main_end, entry) := load_user_elf_into v bias pml4 s [] in
  if entry =? 0 then KOk (s, None)
  else
    let! s := apply_relocations d fsize bias s in
    let! (s, rs, interp_base, interp_entry) := load_interp lookup v is_linux main_end pml4 s rs in
    let! (s, rs) := user_map_trampoline s pml4 rs in
    let! auxv := (if is_linux : bool then linux_auxv t d bias interp_base entry else KOk []) in
    let entry := if negb (interp_entry =? 0) then interp_entry else entry in
    let! (s, rs, rsp) := build_user_stack_into s pml4 rs top argv envp (Some auxv) (stack_tsc en) in
    if rsp =? 0 then KOk (s, None) else KOk (s, Some (rs, entry, rsp, is_linux)).

(** What exec does to the task once the image stands. *)
Definition exec_task (t : proc) (v : vnode) (pml4 : Z) (is_linux : bool) : proc :=
  Proc (t_pid t) (t_uid t) (t_euid t) (t_gid t) pml4 (take (Z.to_nat (TASK_NAME_LEN - 1)) (name v)) is_linux
    USER_MMAP_BASE USER_MMAP_BASE USER_MMAP_BASE (map (fun _ => 0) (sig_handlers t)) 0 0.

Definition region_total (rs : list region) : Z := fold_left (fun n r => u64 (n + npages r)) rs 0.

(** [last p]: whether the tables [p] lose their last user ([sched_pml4_unref]). *)
Definition user_exec (lookup : list Z -> option vnode) (last : Z -> bool) (en : entropy) (s : vmm) (t : proc)
    (fr : frame) (v : option vnode) (argv envp : list (list Z)) : kres (vmm * proc * frame * bool) :=
  if negb (is_user s) then KOk (s, t, fr, false)
  else
    match v, elf_file v with
    | Some vn, Some (d, fsize) =>
      let! (s, pml4) := of_outcome (vmm_new_pml4 s) in
      if pml4 =? 0 then KOk (s, t, fr, false)
      else
        let old := t_pml4 t in
        let! (s, img) := build_image lookup en t v d fsize argv envp pml4 (vmm_switch_pml4 s pml4) in
        match img with
        | None =>
          let s := vmm_switch_pml4 s (if old =? 0 then kernel_pml4 s else old) in
          KOk (vmm_free_pml4 s pml4, t, fr, false)
        | Some (rs, entry, rsp, is_linux) =>
          let s := if negb (old =? 0) && negb (old =? kernel_pml4 s) && last old then vmm_free_pml4 s old else s in
          let s := with_mem_pages (region_total rs) (with_task_regions rs s) in
          KOk (s, exec_task t vn pml4 is_linux, Frame entry rsp 0 0 0, true)
        end
    | _, _ => KOk (s, t, fr, false)
    end.
End Loader.
