(* ===== verification/LoaderProps.v ===== *)
(** * Properties of the program loader

    The user's view of an address space (a byte and its permissions at each
    address), what each step of the loader does to it, the image a file stands
    for, relocations and the process image as lists of stores, and the start-up
    code of userland/start.c as the reader of that image. Theorems: exec runs the
    program it was given; the segment loader stays inside the file and user
    memory; relocations do not. *)
From Stdlib Require Import ZArith Lia Bool String.
From stdpp Require Import base list numbers option gmap.
From S2P Require Import Prelude Pmm Vmm Paging VmmProps Vfs Loader.
#[local] Set Default Goal Selector "!".
Open Scope Z_scope.
Open Scope carray_scope.

(** * The user's view of an address space *)
Section View.
Context `{D : SwapDisk} `{K : !OomKiller}.
Implicit Types s : vmm.

(** What a page allows: writing, and no execution; and user access. *)
Definition perm (e : Z) : bool * bool * bool := (has e PTE_RW, has e PTE_NX, has e PTE_US).

(** The byte at a user address and the permissions of its page. *)
Definition view s root v : option (Z * (bool * bool * bool)) :=
  match mapped s root v with Some e => Some (ram s (addr_of e + v mod PAGE_SIZE), perm e) | None => None end.

(** User pages are private: each has a RAM frame of its own, in use and no table. *)
Record space s root : Prop := {
  sp_wf : wf s root;
  sp_frame : forall v e, user_va v -> mapped s root v = Some e -> exists i,
    addr_of e = i * PAGE_SIZE /\ 256 <= i < total_pages (pm s) /\ bit_tst (bitmap (pm s)) i = true /\
    ~ is_table s root (i * PAGE_SIZE);
  sp_private : forall v v' e e', user_va v -> user_va v' -> mapped s root v = Some e -> mapped s root v' = Some e' ->
    addr_of e = addr_of e' -> v / PAGE_SIZE = v' / PAGE_SIZE }.

(** Frames in use that the address space does not consist of. *)
Definition foreign s root i : Prop :=
  bit_tst (bitmap (pm s)) i = true /\ ~ is_table s root (i * PAGE_SIZE) /\
  forall v e, user_va v -> mapped s root v = Some e -> addr_of e <> i * PAGE_SIZE.

(** What the loader's steps keep: they take at most [n] frames, and no frame of
    another address space changes. *)
Record step (n : Z) s s' root : Prop := {
  st_space : space s' root;
  st_cpu : s' = with_pm (pm s') s;
  st_total : total_pages (pm s') = total_pages (pm s);
  st_oom : oom_force (pm s') = oom_force (pm s);
  st_used : used_pages (pm s') <= used_pages (pm s) + n;
  st_foreign : forall i, 0 <= i -> foreign s root i -> foreign s' root i /\ (Pmm.refs (pm s')).[i] = (Pmm.refs (pm s)).[i] /\
    forall k, 0 <= k < PAGE_SIZE -> ram s' (i * PAGE_SIZE + k) = ram s (i * PAGE_SIZE + k) }.

Lemma step_refl s root : space s root -> step 0 s s root.
Proof. intros. split; auto; [by destruct s|lia]. Qed.
Lemma step_trans n m s1 s2 s3 root : step n s1 s2 root -> step m s2 s3 root -> step (n + m) s1 s3 root.
Proof.
  intros [? C1 ? ? ? F1] [? C2 ? ? ? F2]. split; auto; try congruence; try lia.
  - rewrite C2, C1. done.
  - intros i Hi H. destruct (F1 i Hi H) as (H2 & R1 & M1). destruct (F2 i Hi H2) as (H3 & R2 & M2).
    splits; [apply H3..|congruence|]. intros k Hk. by rewrite M2, M1.
Qed.
Lemma step_weaken n m s s' root : step n s s' root -> n <= m -> step m s s' root.
Proof. intros [] ?. split; auto. lia. Qed.
Lemma step_cur n s s' root : step n s s' root -> cur_pml4 s' = cur_pml4 s.
Proof. intros []. by rewrite st_cpu0. Qed.

(** The permission bits of a fresh entry are those asked for. *)
Definition flag_bits (f : Z) : Prop := word64 f /\ addr_of f = 0.
Lemma leaf_addr i f : 0 <= i < 1099511627776 -> flag_bits f -> addr_of (leaf_entry (i * PAGE_SIZE) f) = i * PAGE_SIZE.
Proof.
  intros Hi [_ Hf]. unfold leaf_entry. rewrite !addr_of_lor, Hf, addr_of_frame_bits, addr_of_frame by done.
  change (addr_of PTE_PRESENT) with 0. by rewrite !Z.lor_0_r.
Qed.
Lemma has_small_frame i k : 0 <= i < 1099511627776 -> 0 <= k < 12 \/ k = 63 -> has (frame_bits (i * PAGE_SIZE)) (Z.shiftl 1 k) = false.
Proof.
  intros Hi Hk. rewrite has_testbit by lia. unfold frame_bits. rewrite Z.land_spec.
  unfold PAGE_SIZE. change 4096 with (2 ^ 12).
  destruct Hk as [Hk| ->]; [rewrite Z.mul_pow2_bits_low by lia; done|].
  rewrite (testbit_small _ 52) by lia. done.
Qed.
Lemma leaf_perm i f : 0 <= i < 1099511627776 -> perm (leaf_entry (i * PAGE_SIZE) f) = perm f.
Proof.
  intros Hi. unfold perm, leaf_entry. rewrite !has_lor.
  pose proof (has_small_frame i 1 Hi) as H1. pose proof (has_small_frame i 2 Hi) as H2. pose proof (has_small_frame i 63 Hi) as H3.
  change (Z.shiftl 1 1) with PTE_RW in H1. change (Z.shiftl 1 2) with PTE_US in H2. change (Z.shiftl 1 63) with PTE_NX in H3.
  rewrite H1, H2, H3 by lia. change (has PTE_PRESENT PTE_RW) with false. change (has PTE_PRESENT PTE_NX) with false.
  change (has PTE_PRESENT PTE_US) with false. cbn [orb]. by rewrite !orb_false_r.
Qed.

(** ** Writing one byte *)
Lemma mod_page v : Z.land v 4095 = v mod PAGE_SIZE.
Proof. change 4095 with (Z.ones 12). by rewrite Z.land_ones by lia. Qed.
Lemma poke_bytes m a b : byte_mem m -> byte b -> byte_mem (poke m a b).
Proof. intros B Hb x. unfold poke. destruct (_ =? _); [done|apply B]. Qed.

Lemma poke_spec s root v e b : space s root -> user_va v -> mapped s root v = Some e -> byte b ->
  let s' := with_mem (poke (ram s) (addr_of e + v mod PAGE_SIZE) b) s in
  step 0 s s' root /\ (forall v', user_va v' -> mapped s' root v' = mapped s root v') /\
  forall v', user_va v' -> view s' root v' = if v' =? v then Some (b, perm e) else view s root v'.
Proof.
  intros [W F P] Hv Hm Hb s'. destruct (F v e Hv Hm) as (i & Ei & Hi & Hbit & Hnt).
  pose proof (Z.mod_pos_bound v PAGE_SIZE eq_refl) as Hmod.
  destruct (wf_write s root i (poke (ram s) (addr_of e + v mod PAGE_SIZE) b)) as (W' & T & M); auto.
  { apply poke_bytes; [apply W|done]. }
  { intros a Ha. unfold poke. rewrite (proj2 (Z.eqb_neq _ _)); [done|]. unfold PAGE_SIZE in *. lia. }
  fold s' in W', T, M.
  assert (forall t, is_table s' root t <-> is_table s root t) as Ht.
  { intros t. split; intros (q & Hq & E); exists q; [rewrite T in E by done|rewrite T by done]; done. }
  splits; [split|done|].
  - split; [done| |].
    + intros v' e' Hv' Hm'. rewrite M in Hm' by done. destruct (F v' e' Hv' Hm') as (j & ? & ? & ? & ?). exists j. by rewrite Ht.
    + intros v1 v2 e1 e2 H1 H2. rewrite !M by done. by apply P.
  - done.
  - done.
  - done.
  - cbn. lia.
  - intros j Hj (Hfb & Hft & Hfm). split; [split; [done|split; [by rewrite Ht|]]|split; [done|]].
    + intros v' e' Hv'. rewrite M by done. by apply Hfm.
    + intros k Hk. change (ram s') with (poke (ram s) (addr_of e + v mod PAGE_SIZE) b). unfold poke.
      rewrite (proj2 (Z.eqb_neq _ _)); [done|]. specialize (Hfm v e Hv Hm). rewrite Ei in *.
      assert (i <> j) by congruence. unfold PAGE_SIZE in *. lia.
  - intros v' Hv'. unfold view. rewrite M by done. change (ram s') with (poke (ram s) (addr_of e + v mod PAGE_SIZE) b).
    unfold poke. destruct (Z.eqb_spec v' v) as [->|N]; [by rewrite Hm, Z.eqb_refl|].
    destruct (mapped s root v') as [e'|] eqn:Em'; [|done]. rewrite (proj2 (Z.eqb_neq _ _)); [done|]. intros E.
    destruct (F v' e' Hv' Em') as (j & Ej & _). pose proof (Z.mod_pos_bound v' PAGE_SIZE eq_refl).
    assert (i = j) as <- by (unfold PAGE_SIZE in *; lia). pose proof (P v v' e e' Hv Hv' Hm Em' ltac:(congruence)).
    pose proof (Z.div_mod v PAGE_SIZE ltac:(done)). pose proof (Z.div_mod v' PAGE_SIZE ltac:(done)).
    apply N. unfold PAGE_SIZE in *. lia.
Qed.

(** The kernel's stores reach a page the user could write to. *)
Lemma store_byte_spec s v x e n : space s (cur_pml4 s) -> user_va v -> mapped s (cur_pml4 s) v = Some e -> has e PTE_RW = true ->
  store_byte n s v x = KOk (with_mem (poke (ram s) (addr_of e + v mod PAGE_SIZE) x) s).
Proof.
  intros S Hv Hm Hw. pose proof Hm as Hm'. unfold mapped in Hm'.
  assert (exists a, walk_pte s (cur_pml4 s) v = Some a /\ e = word s a /\ has e PTE_PRESENT = true) as (a & Ea & -> & Hp).
  { destruct (walk_pte s (cur_pml4 s) v) as [a|]; [|done]. unfold present in Hm'. exists a.
    destruct (has (word s a) PTE_PRESENT) eqn:E; [|done]. by injection Hm' as <-. }
  destruct n; cbn [store_byte]; rewrite Ea, Hp, Hw; cbn [andb]; by rewrite mod_page.
Qed.

Definition writable s root v : Prop := exists x nx us, view s root v = Some (x, (true, nx, us)).

Lemma store_at_spec d : forall s root va, root = cur_pml4 s -> space s root -> bytes d ->
  0 <= va -> va + len d <= 2 ^ 39 -> (forall v, va <= v < va + len d -> writable s root v) ->
  exists s', store_at s va d = KOk s' /\ step 0 s s' root /\
    (forall v, user_va v -> (perm <$> mapped s' root v) = (perm <$> mapped s root v)) /\
    forall v, user_va v -> view s' root v =
      if (va <=? v) && (v <? va + len d) then (fun x => (d.[v - va], snd x)) <$> view s root v else view s root v.
Proof.
  induction d as [|b d IH]; intros s root va -> S Hd Hva Hl Hw; cbn [store_at].
  { exists s. splits; [done|by apply step_refl|done|]. intros v _. change (len (@nil Z)) with 0.
    destruct (Z.leb_spec va v), (Z.ltb_spec v (va + 0)); try done; lia. }
  apply Forall_cons_1 in Hd as [Hb Hd]. assert (len (b :: d) = len d + 1) as El by (unfold len; cbn [length]; lia).
  pose proof (len_nonneg d). destruct (Hw va ltac:(lia)) as (x & nx & us & Ev). unfold view in Ev.
  destruct (mapped s (cur_pml4 s) va) as [e|] eqn:Em; [|done]. assert (user_va va) as Hva' by (unfold user_va; lia).
  injection Ev as _ Hrw _ _. rewrite (store_byte_spec s va b e) by done. cbn [kbind].
  destruct (poke_spec s (cur_pml4 s) va e b S Hva' Em Hb) as (St & Mp & V).
  set (s1 := with_mem _ s) in *. destruct (IH s1 (cur_pml4 s) (va + 1)) as (s' & E & St' & Pm & V'); auto.
  - apply St.
  - lia.
  - lia.
  - intros v Hv. destruct (Hw v ltac:(lia)) as (y & nx' & us' & Ey). unfold writable. rewrite V by (unfold user_va; lia).
    rewrite (proj2 (Z.eqb_neq _ _)) by lia. eauto.
  - exists s'. splits; [done|apply (step_trans 0 0 _ s1); done| |].
    + intros v Hv. by rewrite Pm, Mp.
    + intros v Hv. rewrite V', V by done. rewrite El.
      destruct (Z.eqb_spec v va) as [->|N].
      * destruct (Z.leb_spec (va + 1) va), (Z.leb_spec va va), (Z.ltb_spec va (va + (len d + 1))); cbn [andb]; try lia.
        unfold view. rewrite Em. cbn [fmap option_fmap option_map snd]. by rewrite Z.sub_diag.
      * destruct (Z.leb_spec (va + 1) v), (Z.leb_spec va v), (Z.ltb_spec v (va + 1 + len d)), (Z.ltb_spec v (va + (len d + 1))); cbn [andb]; try lia; try done.
        f_equal. unfold nthZ. replace (Z.to_nat (v - va)) with (Datatypes.S (Z.to_nat (v - (va + 1)))) by lia. done.
Qed.

Lemma store_bytes_spec s root va d : root = cur_pml4 s -> space s root -> bytes d ->
  0 <= va -> va + len d <= 2 ^ 39 -> (forall v, va <= v < va + len d -> writable s root v) ->
  exists s', store_bytes s va d = KOk s' /\ step 0 s s' root /\
    (forall v, user_va v -> (perm <$> mapped s' root v) = (perm <$> mapped s root v)) /\
    forall v, user_va v -> view s' root v =
      if (va <=? v) && (v <? va + len d) then (fun x => (d.[v - va], snd x)) <$> view s root v else view s root v.
Proof.
  intros. unfold store_bytes. pose proof (len_nonneg d). rewrite (proj2 (Z.leb_gt _ _)), (proj2 (Z.leb_gt _ _)) by (unfold KERNEL_HALF, USER_HALF_END; lia).
  by apply store_at_spec.
Qed.

(** ** Mapping a fresh page *)
Lemma same_page v a : (a / 4096 =? v / 4096) = (v / PAGE_SIZE =? a / PAGE_SIZE).
Proof. unfold PAGE_SIZE. apply Z.eqb_sym. Qed.

(** The frame may have been filled before it is mapped. *)
Lemma map_taken s s1 root f m a flags : space s root -> taken s s1 root f -> user_va a -> flag_bits flags ->
  oom_force (pm s) = false -> used_pages (pm s) + 4 <= total_pages (pm s) -> byte_mem m ->
  (forall x, x < f * PAGE_SIZE \/ (f + 1) * PAGE_SIZE <= x -> m x = ram s1 x) ->
  exists s2, vmm_map_in (with_mem m s1) root a (f * PAGE_SIZE) flags = Ret s2 /\ step 4 s s2 root /\
    forall v, user_va v -> view s2 root v =
      if v / PAGE_SIZE =? a / PAGE_SIZE then Some (m (f * PAGE_SIZE + v mod PAGE_SIZE), perm flags) else view s root v.
Proof.
  intros S T Ha [Hfw Hf] Ho Hu Hby Hout. pose proof (sp_wf _ _ S) as W. pose proof (tk_alloc _ _ _ _ T) as A.
  pose proof (tk_range _ _ _ _ T) as Hfr. pose proof (wf_size _ _ W) as Hsz. pose proof (tk_fresh _ _ _ _ T) as Hft.
  assert (bit_tst (bitmap (pm s1)) f = true) as Hfb.
  { rewrite (al_bits _ _ _ _ A) by lia. rewrite (proj2 (Z.leb_le f f)), (proj2 (Z.ltb_lt f (f + 1))) by lia. done. }
  destruct (wf_write s1 root f m (tk_wf _ _ _ _ T) Hby Hft Hout) as (W1 & T1 & M1).
  set (s1' := with_mem m s1) in *.
  assert (forall t, is_table s1' root t <-> is_table s root t) as Ht1.
  { intros t. split; intros (q & Hq & E); exists q; (split; [done|]).
    - rewrite T1 in E by done. by rewrite <- (tk_tables _ _ _ _ T).
    - rewrite T1 by done. by rewrite (tk_tables _ _ _ _ T). }
  assert (forall v, user_va v -> mapped s1' root v = mapped s root v) as Hm1.
  { intros v Hv. rewrite M1 by done. by rewrite (tk_mapped _ _ _ _ T). }
  destruct (map_spec s1' root a (f * PAGE_SIZE) flags) as (s2 & E2 & St); auto.
  { unfold word64, PAGE_SIZE. lia. }
  { change (oom_force (pm s1) = false). by rewrite (tk_oom _ _ _ _ T). }
  { change (used_pages (pm s1) + 3 <= total_pages (pm s1)). rewrite (al_used _ _ _ _ A), (al_total _ _ _ _ A). lia. }
  destruct St as [W2 M2 _ O2 R2 (P1 & P2 & P3) B2 Mem2].
  change (bitmap (pm s1')) with (bitmap (pm s1)) in *. change (Pmm.refs (pm s1')) with (Pmm.refs (pm s1)) in *.
  change (total_pages (pm s1')) with (total_pages (pm s1)) in *. change (ram s1') with m in *.
  assert (forall i, bit_tst (bitmap (pm s1)) i = true -> ~ is_table s root (i * PAGE_SIZE) -> ~ is_table s2 root (i * PAGE_SIZE)) as Hnt.
  { intros i Hb Hn Ht. destruct (O2 _ Ht) as [?|Hx]; [by apply Hn, Ht1|]. rewrite page_index in Hx. congruence. }
  assert (~ is_table s root (f * PAGE_SIZE)) as Hfn
    by (intros (q & Hq & Hx); apply Hft; exists q; by rewrite (tk_tables _ _ _ _ T)).
  assert (forall v, user_va v -> mapped s2 root v =
    if v / PAGE_SIZE =? a / PAGE_SIZE then Some (leaf_entry (f * PAGE_SIZE) flags) else mapped s root v) as Hmap.
  { intros v Hv. rewrite M2, same_page, present_leaf; [by rewrite Hm1| |done|done]. unfold word64, PAGE_SIZE. lia. }
  assert (addr_of (leaf_entry (f * PAGE_SIZE) flags) = f * PAGE_SIZE) as Haf by (apply leaf_addr; [lia|done]).
  assert (forall v e, user_va v -> mapped s root v = Some e -> exists i, addr_of e = i * PAGE_SIZE /\
    256 <= i < total_pages (pm s) /\ i <> f /\ bit_tst (bitmap (pm s)) i = true /\ bit_tst (bitmap (pm s1)) i = true /\
    ~ is_table s root (i * PAGE_SIZE)) as Hold.
  { intros v e Hv Hm. destruct (sp_frame _ _ S v e Hv Hm) as (i & Ei & Hi & Hb & Hn). exists i. splits; try done; try lia.
    - apply (in_use _ _ Hb _ _ A).
    - apply (taken_used _ _ _ _ i T); [lia|done]. }
  assert (forall i k, 0 <= i -> i <> f -> bit_tst (bitmap (pm s)) i = true -> ~ is_table s root (i * PAGE_SIZE) ->
    0 <= k < PAGE_SIZE -> ram s2 (i * PAGE_SIZE + k) = ram s (i * PAGE_SIZE + k)) as Hram.
  { intros i k Hi Hne Hb Hn Hk. rewrite Mem2; try done.
    - rewrite Hout by (unfold PAGE_SIZE in *; lia). by apply (taken_mem s s1 root f).
    - by apply (taken_used _ _ _ _ i T).
    - intros Ht. by apply Hn, Ht1. }
  exists s2. splits; auto.
  - split.
    + split; [done| |].
      * intros v e Hv. rewrite Hmap by done. destruct (_ =? _).
        -- intros [= <-]. exists f. rewrite Haf, P1, (al_total _ _ _ _ A). splits; auto; try lia. by apply B2; [lia|].
        -- intros Hm. destruct (Hold v e Hv Hm) as (i & ? & ? & _ & _ & Hb & Hn). exists i.
           rewrite P1, (al_total _ _ _ _ A). splits; auto; try lia. by apply B2; [lia|].
      * intros v v' e e' Hv Hv'. rewrite !Hmap by done.
        destruct (Z.eqb_spec (v / PAGE_SIZE) (a / PAGE_SIZE)), (Z.eqb_spec (v' / PAGE_SIZE) (a / PAGE_SIZE)); [congruence| | |by apply S].
        -- intros [= <-] Hm. destruct (Hold v' e' Hv' Hm) as (i & Ei & _ & Hne & _). rewrite Haf, Ei. unfold PAGE_SIZE in *. lia.
        -- intros Hm [= <-]. destruct (Hold v e Hv Hm) as (i & Ei & _ & Hne & _). rewrite Haf, Ei. unfold PAGE_SIZE in *. lia.
    + rewrite R2. unfold s1', with_mem. rewrite (tk_rest _ _ _ _ T). done.
    + rewrite P1. apply (al_total _ _ _ _ A).
    + rewrite P2. apply (tk_oom _ _ _ _ T).
    + change (used_pages (pm s1')) with (used_pages (pm s1)) in P3. rewrite (al_used _ _ _ _ A) in P3. lia.
    + intros i Hi (Hb & Hn & Hm). pose proof (in_use _ _ Hb _ _ A) as Hne.
      destruct (taken_used _ _ _ _ i T Hi Hb) as [Hb1 Hr1]. destruct (B2 i Hi Hb1) as [Hb2 Hr2].
      split; [split; [done|split; [by apply Hnt|]]|split; [congruence|]].
      * intros v e Hv. rewrite Hmap by done. destruct (_ =? _); [intros [= <-]; rewrite Haf; unfold PAGE_SIZE; lia|by apply Hm].
      * intros k Hk. by apply Hram.
  - intros v Hv. unfold view. rewrite Hmap by done. pose proof (Z.mod_pos_bound v PAGE_SIZE eq_refl). destruct (_ =? _).
    + rewrite Haf, leaf_perm by lia. rewrite Mem2; try done; [lia|]. intros Ht. by apply Hfn, Ht1.
    + destruct (mapped s root v) as [e|] eqn:Em; [|done]. destruct (Hold v e Hv Em) as (i & -> & Hi & Hne & Hb & _ & Hn).
      rewrite Hram by (done || lia). done.
Qed.

Lemma with_mem_id s : with_mem (ram s) s = s.
Proof. destruct s as [[] ? ? ? ? ? ? ? ? ? ? ? ? ? ? ? ? ?]. reflexivity. Qed.

Lemma map_page s root a flags : space s root -> user_va a -> flag_bits flags ->
  oom_force (pm s) = false -> used_pages (pm s) + 4 <= total_pages (pm s) ->
  exists s1 p s2, alloc_page s = Ret (s1, p) /\ p <> 0 /\ vmm_map_in s1 root a p flags = Ret s2 /\ step 4 s s2 root /\
    forall v, user_va v -> view s2 root v = if v / PAGE_SIZE =? a / PAGE_SIZE then Some (0, perm flags) else view s root v.
Proof.
  intros S Ha Hf Ho Hu. destruct (take_frame s root (sp_wf _ _ S) Ho ltac:(lia)) as (s1 & f & E & T).
  pose proof (tk_range _ _ _ _ T) as Hfr. pose proof (tk_alloc _ _ _ _ T) as A.
  destruct (map_taken s s1 root f (ram s1) a flags) as (s2 & E2 & St & V); auto; [apply (tk_wf _ _ _ _ T)|].
  rewrite with_mem_id in E2. exists s1, (f * PAGE_SIZE), s2. splits; auto; [unfold PAGE_SIZE; lia|].
  intros v Hv. rewrite V by done. destruct (_ =? _); [|done]. do 2 f_equal.
  pose proof (Z.mod_pos_bound v PAGE_SIZE eq_refl). unfold ram. rewrite (al_mem _ _ _ _ A).
  rewrite (proj2 (Z.leb_le _ _)), (proj2 (Z.ltb_lt _ _)) by (unfold PAGE_SIZE in *; lia). done.
Qed.

(** ** Changing the permissions of a page *)
Lemma set_flags_page s root a e flags : space s root -> user_va a -> mapped s root a = Some e -> flag_bits flags ->
  let s' := vmm_set_flags_in s root a flags in
  step 0 s s' root /\
  forall v, user_va v -> view s' root v =
    if v / PAGE_SIZE =? a / PAGE_SIZE then (fun x => (fst x, perm flags)) <$> view s root v else view s root v.
Proof.
  intros S Ha Hm [Hfw Hf] s'. pose proof (sp_wf _ _ S) as W. destruct (mapped_Some _ _ _ _ Hm) as (pt & Hpt & Hw & He & Hp).
  destruct (sp_frame _ _ S a e Ha Hm) as (i & Ei & Hi & Hb & Hn). pose proof (wf_size _ _ W) as Hsz.
  assert (s' = set_word s (pt + 8 * index_at a 12) (leaf_entry (i * PAGE_SIZE) flags)) as Es.
  { unfold s', vmm_set_flags_in. rewrite Hw, <- He, Hp. cbn [negb]. by rewrite Ei. }
  assert (word64 (i * PAGE_SIZE)) as Hiw by (unfold word64, PAGE_SIZE; lia).
  assert (addr_of (leaf_entry (i * PAGE_SIZE) flags) = i * PAGE_SIZE) as Haf by (apply leaf_addr; [lia|done]).
  destruct (set_leaf s root a pt (leaf_entry (i * PAGE_SIZE) flags) W Ha Hpt) as [W2 T2 M2 R2 (B1 & B2 & B3 & B4 & B5) Mem2];
    [by apply leaf_entry_spec|]. rewrite <- Es in *. clear Es.
  assert (forall t, is_table s' root t <-> is_table s root t) as Ht.
  { intros t. split; intros (q & Hq & E); exists q; [rewrite T2 in E by done|rewrite T2 by done]; done. }
  assert (forall v, user_va v -> mapped s' root v =
    if v / PAGE_SIZE =? a / PAGE_SIZE then Some (leaf_entry (i * PAGE_SIZE) flags) else mapped s root v) as Hmap.
  { intros v Hv. rewrite M2, same_page, present_leaf by done. done. }
  assert (forall v, user_va v -> addr_of <$> mapped s' root v = addr_of <$> mapped s root v) as Haddr.
  { intros v Hv. rewrite Hmap by done. destruct (Z.eqb_spec (v / PAGE_SIZE) (a / PAGE_SIZE)) as [E|]; [|done].
    rewrite (mapped_page s root v a), Hm by (done || exact E). cbn. by rewrite Haf, Ei. }
  assert (forall v e', user_va v -> mapped s' root v = Some e' -> exists e0, mapped s root v = Some e0 /\ addr_of e0 = addr_of e') as Hold.
  { intros v e' Hv E. pose proof (Haddr v Hv) as Hx. rewrite E in Hx. destruct (mapped s root v) as [e0|]; [|done].
    injection Hx as Hx. by exists e0. }
  split.
  - split; try done; [|lia|].
    + split; [done| |].
      * intros v e' Hv Em. destruct (Hold v e' Hv Em) as (e0 & E0 & <-).
        destruct (sp_frame _ _ S v e0 Hv E0) as (j & ? & ? & ? & ?). exists j. by rewrite Ht, B1, B3.
      * intros v v' e1 e2 Hv Hv' E1 E2. destruct (Hold v e1 Hv E1) as (e0 & E0 & <-). destruct (Hold v' e2 Hv' E2) as (e0' & E0' & <-).
        by apply (sp_private _ _ S).
    + intros j Hj (Hjb & Hjn & Hjm). rewrite B2. split; [split; [by rewrite B1|split; [by rewrite Ht|]]|split; [done|]].
      * intros v e' Hv Em. destruct (Hold v e' Hv Em) as (e0 & E0 & <-). by apply (Hjm v).
      * intros k Hk. by apply Mem2.
  - intros v Hv. unfold view. rewrite Hmap by done. pose proof (Z.mod_pos_bound v PAGE_SIZE eq_refl).
    destruct (Z.eqb_spec (v / PAGE_SIZE) (a / PAGE_SIZE)) as [E|N].
    + rewrite (mapped_page s root v a), Hm by (done || exact E). cbn. rewrite Haf, Ei, leaf_perm by lia. by rewrite Mem2.
    + destruct (mapped s root v) as [e0|] eqn:E0; [|done]. destruct (sp_frame _ _ S v e0 Hv E0) as (j & -> & ? & ? & ?). by rewrite Mem2.
Qed.
End View.

(** * The image of a file *)
(** The place of a segment in memory. *)
Definition seg_va (bias : Z) (p : phdr) : Z := u64 (bias + p_vaddr p).

(** The byte at [v]: that of the last segment whose file bytes reach it, else 0. *)
Definition seg_byte (d : list Z) (bias v b : Z) (p : phdr) : Z :=
  if is_load p && (seg_va bias p <=? v) && (v <? seg_va bias p + p_filesz p)
  then d.[p_offset p + (v - seg_va bias p)] else b.
Definition image (d : list Z) (bias : Z) (phs : list phdr) (v : Z) : Z := fold_left (seg_byte d bias v) phs 0.

(** What a page is to allow: the union over the segments in memory there. *)
Definition covers (bias a : Z) (p : phdr) : bool :=
  is_load p && (seg_va bias p <? a + PAGE_SIZE) && (a <? seg_va bias p + p_memsz p).
Definition seg_want (bias a : Z) (w : want) (p : phdr) : want :=
  if covers bias a p then Want (want_exec w || has (p_flags p) PF_X) (want_write w || has (p_flags p) PF_W) true else w.
Definition page_want (bias a : Z) (phs : list phdr) : want := fold_left (seg_want bias a) phs (Want false false false).
Definition allows (f : Z) (phs : list phdr) : bool := existsb (fun p => has (p_flags p) f) phs.
Lemma page_want_filter bias a phs : let here := List.filter (covers bias a) phs in
  page_want bias a phs = Want (allows PF_X here) (allows PF_W here) (match here with [] => false | _ => true end).
Proof.
  cbv zeta. unfold page_want.
  assert (forall w, fold_left (seg_want bias a) phs w = let here := List.filter (covers bias a) phs in
    Want (want_exec w || allows PF_X here) (want_write w || allows PF_W here) (covered w || match here with [] => false | _ => true end)) as G.
  { induction phs as [|p l IH]; intros [x y z]; cbn [fold_left List.filter].
    - by rewrite !orb_false_r.
    - rewrite IH. unfold seg_want. destruct (covers bias a p); cbv zeta; cbn; [|done]. by rewrite !orb_assoc, !orb_true_r. }
  by rewrite G.
Qed.

Definition in_page (a v : Z) : bool := (a <=? v) && (v <? a + PAGE_SIZE).
Lemma in_page_div a v : a mod PAGE_SIZE = 0 -> (v / PAGE_SIZE =? a / PAGE_SIZE) = in_page a v.
Proof.
  intros Ha. unfold in_page. apply Z.mod_divide in Ha as [k ->]; [|done]. rewrite Z.div_mul by done.
  pose proof (Z.div_mod v PAGE_SIZE ltac:(done)). pose proof (Z.mod_pos_bound v PAGE_SIZE eq_refl). unfold PAGE_SIZE in *.
  destruct (Z.eqb_spec (v / 4096) k), (Z.leb_spec (k * 4096) v), (Z.ltb_spec v (k * 4096 + 4096)); cbn; try done; lia.
Qed.
Lemma in_page_spec a v : in_page a v = true <-> a <= v < a + PAGE_SIZE.
Proof. unfold in_page. rewrite andb_true_iff, Z.leb_le, Z.ltb_lt. done. Qed.

(** A loadable segment that is inside user memory and inside the file. *)
Record seg_good (d : list Z) (bias : Z) (p : phdr) : Prop := {
  sg_mem : 0 <= seg_va bias p + p_memsz p <= USER_STACK_TOP;
  sg_va : 0 <= seg_va bias p;
  sg_sizes : 0 <= p_filesz p <= p_memsz p;
  sg_file : 0 <= p_offset p /\ p_offset p + p_filesz p <= len d }.

Lemma flag_bits_lor a b : flag_bits a -> flag_bits b -> flag_bits (Z.lor a b).
Proof. intros [] []. split; [by apply word64_lor|]. rewrite addr_of_lor. by replace (addr_of a) with 0; replace (addr_of b) with 0. Qed.
Lemma flag_bits_all : flag_bits PTE_US /\ flag_bits PTE_RW /\ flag_bits PTE_NX /\ flag_bits PTE_PRESENT.
Proof. repeat split; (done || vm_compute; discriminate || reflexivity). Qed.

Section Load.
Context `{D : SwapDisk} `{K : !OomKiller}.
Implicit Types s : vmm.
Context (d : list Z) (bias : Z).

Definition page_is s root a (f : Z -> Z) (pm : bool * bool * bool) : Prop :=
  forall v, in_page a v = true -> view s root v = Some (f v, pm).

Lemma copy_segment_spec s root a p f w nx us : bytes d -> space s root -> root = cur_pml4 s ->
  0 <= a -> a + PAGE_SIZE <= USER_STACK_TOP -> (is_load p = true -> seg_good d bias p) ->
  page_is s root a f (true, nx, us) ->
  exists s', copy_segment d bias a (s, w) p = KOk (s', seg_want bias a w p) /\ step 0 s s' root /\
    page_is s' root a (fun v => seg_byte d bias v (f v) p) (true, nx, us) /\
    forall v, user_va v -> in_page a v = false -> view s' root v = view s root v.
Proof.
  intros Hd S Hr Ha Htop Hg Hp. unfold copy_segment, seg_want, covers.
  assert (forall g, (forall v, in_page a v = true -> seg_byte d bias v (f v) p = f v) -> g = seg_want bias a w p ->
    exists s', KOk (s, g) = KOk (s', seg_want bias a w p) /\ step 0 s s' root /\
    page_is s' root a (fun v => seg_byte d bias v (f v) p) (true, nx, us) /\
    forall v, user_va v -> in_page a v = false -> view s' root v = view s root v) as Hsame.
  { intros g Hb ->. exists s. splits; [done|by apply step_refl| |done]. intros v Hv. rewrite (Hp v Hv). by rewrite Hb. }
  unfold seg_want, covers, seg_byte in *. destruct (is_load p) eqn:El; cbn [andb negb] in *; [|by apply Hsame].
  destruct (Hg eq_refl) as [M1 M2 M3 M4]. unfold USER_STACK_TOP in *. fold (seg_va bias p). set (va := seg_va bias p) in *.
  rewrite !u64_small by lia.
  destruct (Z.leb_spec (a + PAGE_SIZE) va), (Z.leb_spec (va + p_memsz p) a), (Z.ltb_spec va (a + PAGE_SIZE)), (Z.ltb_spec a (va + p_memsz p));
    cbn [orb andb] in *; try lia.
  1-3: apply Hsame; [|done]; intros v Hv; apply in_page_spec in Hv;
    destruct (Z.leb_spec va v), (Z.ltb_spec v (va + p_filesz p)); cbn; (done || lia).
  destruct (Z.leb_spec (va + p_filesz p) a).
  { apply Hsame; [|done]. intros v Hv. apply in_page_spec in Hv.
    destruct (Z.leb_spec va v), (Z.ltb_spec v (va + p_filesz p)); cbn; (done || lia). }
  set (dst := if va <? a then a else va). set (fin := if a + PAGE_SIZE <? va + p_filesz p then a + PAGE_SIZE else va + p_filesz p).
  assert (dst = Z.max a va) as Ed by (unfold dst; destruct (Z.ltb_spec va a); lia).
  assert (fin = Z.min (a + PAGE_SIZE) (va + p_filesz p)) as Ef by (unfold fin; destruct (Z.ltb_spec (a + PAGE_SIZE) (va + p_filesz p)); lia).
  assert (0 <= fin - dst) as Hn.
  { destruct (Z.le_gt_cases 1 (p_filesz p)); [unfold PAGE_SIZE in *; lia|]. assert (p_filesz p = 0) as E0 by lia. rewrite E0 in *. unfold PAGE_SIZE in *. lia. }
  rewrite (u64_small (fin - dst)) by (unfold PAGE_SIZE in *; lia).
  unfold file_read. rewrite (proj2 (Z.leb_le _ _)) by lia. cbn [kbind].
  set (b := slice d (p_offset p + (dst - va)) (fin - dst)).
  assert (len b = fin - dst) as Lb by (unfold len, b; rewrite length_slice by (unfold len in *; lia); lia).
  destruct (store_bytes_spec s root dst b) as (s' & -> & St & Pm & V); auto; try lia; [by apply bytes_slice| |].
  { intros v Hv. unfold writable. rewrite (Hp v) by (apply in_page_spec; lia). eauto. }
  cbn [kbind]. exists s'. splits; [done|done| |].
  - intros v Hv. apply in_page_spec in Hv as Hv'. rewrite V by (unfold user_va, PAGE_SIZE in *; lia). rewrite (Hp v Hv). rewrite Lb.
    destruct (Z.leb_spec dst v), (Z.ltb_spec v (dst + (fin - dst))), (Z.leb_spec va v), (Z.ltb_spec v (va + p_filesz p)); cbn; try done; try lia.
    do 2 f_equal. unfold b, nthZ. rewrite (nth_lookup (slice d _ _)). unfold slice.
    rewrite lookup_take_lt, lookup_drop by lia. rewrite nth_lookup. do 2 f_equal. lia.
  - intros v Hv Hnp. rewrite V by done. rewrite Lb.
    destruct (Z.leb_spec dst v), (Z.ltb_spec v (dst + (fin - dst))); cbn; try done.
    exfalso. assert (in_page a v = true) by (apply in_page_spec; lia). congruence.
Qed.

Lemma copy_segments_spec phs : forall s root a f w nx us, bytes d -> space s root -> root = cur_pml4 s ->
  0 <= a -> a + PAGE_SIZE <= USER_STACK_TOP -> Forall (fun p => is_load p = true -> seg_good d bias p) phs ->
  page_is s root a f (true, nx, us) ->
  exists s', kfold (copy_segment d bias a) phs (s, w) = KOk (s', fold_left (seg_want bias a) phs w) /\ step 0 s s' root /\
    page_is s' root a (fun v => fold_left (seg_byte d bias v) phs (f v)) (true, nx, us) /\
    forall v, user_va v -> in_page a v = false -> view s' root v = view s root v.
Proof.
  induction phs as [|p phs IH]; intros s root a f w nx us Hd S Hr Ha Ht Hg Hp; cbn [kfold fold_left].
  { exists s. splits; [done|by apply step_refl|done|done]. }
  apply Forall_cons_1 in Hg as [Hg Hgs].
  destruct (copy_segment_spec s root a p f w nx us) as (s1 & -> & St1 & P1 & V1); auto. cbn [kbind].
  destruct (IH s1 root a _ (seg_want bias a w p) nx us Hd (st_space _ _ _ _ St1) ltac:(by rewrite (step_cur _ _ _ _ St1)) Ha Ht Hgs P1)
    as (s2 & E2 & St2 & P2 & V2).
  exists s2. splits; [exact E2|apply (step_trans 0 0 _ s1); done|exact P2|]. intros v Hv Hn. by rewrite V2, V1.
Qed.

Lemma page_flags_bits w : flag_bits (page_flags w).
Proof.
  destruct flag_bits_all as (U & R & N & _). unfold page_flags.
  destruct (want_write w || negb (covered w)), (negb (want_exec w)); repeat apply flag_bits_lor; done.
Qed.

Lemma load_page_spec phs s root a : bytes d -> space s root -> root = cur_pml4 s ->
  0 <= a -> a + PAGE_SIZE <= USER_STACK_TOP -> a mod PAGE_SIZE = 0 -> Forall (fun p => is_load p = true -> seg_good d bias p) phs ->
  oom_force (pm s) = false -> used_pages (pm s) + 4 <= total_pages (pm s) ->
  exists s', load_page d phs bias root s a = KOk s' /\ step 4 s s' root /\
    forall v, user_va v -> view s' root v =
      if in_page a v then Some (image d bias phs v, perm (page_flags (page_want bias a phs))) else view s root v.
Proof.
  intros Hd S Hr Ha Ht Hm Hg Ho Hu. unfold load_page.
  assert (user_va a) as Hua by (unfold user_va, USER_STACK_TOP, PAGE_SIZE in *; lia).
  destruct flag_bits_all as (U & R & _).
  destruct (map_page s root a (Z.lor PTE_RW PTE_US)) as (s1 & p & s2 & -> & _ & E2 & St2 & V2); auto using flag_bits_lor.
  cbn [of_outcome kbind fst snd]. rewrite E2. cbn [of_outcome kbind].
  change (perm (Z.lor PTE_RW PTE_US)) with (true, false, true) in V2.
  assert (forall v, in_page a v = true -> user_va v) as Huv.
  { intros v Hv%in_page_spec. unfold user_va, USER_STACK_TOP, PAGE_SIZE in *. lia. }
  destruct (copy_segments_spec phs s2 root a (fun _ => 0) (Want false false false) false true Hd (st_space _ _ _ _ St2))
    as (s3 & E3 & St3 & P3 & V3); auto.
  { by rewrite (step_cur _ _ _ _ St2). }
  { intros v Hv. rewrite V2, in_page_div, Hv by auto. done. }
  rewrite E3. cbn [kbind fst snd]. fold (page_want bias a phs).
  assert (in_page a a = true) as Haa by (apply in_page_spec; unfold PAGE_SIZE; lia).
  pose proof (P3 a Haa) as Ea. unfold view in Ea. destruct (mapped s3 root a) as [e|] eqn:Em; [|done].
  destruct (set_flags_page s3 root a e (page_flags (page_want bias a phs)) (st_space _ _ _ _ St3) Hua Em (page_flags_bits _)) as (St4 & V4).
  eexists. splits; [reflexivity| |].
  - apply (step_weaken (4 + 0 + 0)); [|lia]. eapply step_trans; [|exact St4]. by eapply step_trans.
  - intros v Hv. rewrite V4, in_page_div by done. destruct (in_page a v) eqn:Ei.
    + rewrite (P3 v Ei). done.
    + rewrite V3, V2, in_page_div, Ei by done. done.
Qed.
End Load.

(** ** Fields and alignment *)
Lemma le_val_range l : bytes l -> 0 <= le_val l < 256 ^ len l.
Proof.
  induction l as [|b l IH]; intros Hl; [done|]. apply Forall_cons_1 in Hl as [Hb Hl]. specialize (IH Hl).
  cbn [le_val]. replace (len (b :: l)) with (1 + len l) by (unfold len; cbn [length]; lia).
  rewrite Z.pow_add_r by (pose proof (len_nonneg l); lia). unfold byte in Hb. change (256 ^ 1) with 256. lia.
Qed.
Lemma ld_range l o n : bytes l -> 0 <= n -> 0 <= ld l o n < 256 ^ n.
Proof.
  intros Hl Hn. pose proof (le_val_range (slice l o n) (bytes_slice _ _ _ Hl)) as H. unfold ld. split; [lia|].
  assert (len (slice l o n) <= n) by (unfold len, slice; rewrite length_take; lia).
  pose proof (Z.pow_le_mono_r 256 (len (slice l o n)) n ltac:(lia) ltac:(lia)). lia.
Qed.
Lemma phdr_range b : bytes b -> let p := phdr_of b in
  word64 (p_offset p) /\ word64 (p_vaddr p) /\ word64 (p_filesz p) /\ word64 (p_memsz p).
Proof. intros Hb. cbn. repeat split; apply (ld_range b _ 8 Hb); lia. Qed.
(** The table the headers are read from, once the checks have passed. *)
Definition ph_table (d : list Z) (e : ehdr) : list phdr :=
  map (fun i => phdr_of (slice d (e_phoff e + sizeof_phdr * i) sizeof_phdr)) (seqZ 0 (e_phnum e)).
Lemma kmap_ok {A B} (f : A -> kres B) g l : (forall a, a ∈ l -> f a = KOk (g a)) -> kmap f l = KOk (map g l).
Proof.
  induction l as [|a l IH]; intros H; [done|]. cbn [kmap map]. rewrite H by left. cbn [kbind].
  rewrite IH; [done|]. intros b Hb. apply H. by right.
Qed.
Lemma elf_file_size v d fsize : elf_file v = Some (d, fsize) -> sizeof_ehdr <= fsize.
Proof.
  unfold elf_file. destruct v as [v|]; [|done]. destruct (negb _); [done|]. destruct (data v); [|done].
  destruct (Z.ltb_spec (size v) sizeof_ehdr); [done|]. by intros [= _ <-].
Qed.
Lemma read_ehdr_ok d : sizeof_ehdr <= len d -> read_ehdr d = KOk (ehdr_of d).
Proof. intros H. unfold read_ehdr, file_read. by rewrite (proj2 (Z.leb_le _ _)) by lia. Qed.
Lemma phdrs_read d fsize : bytes d -> fsize <= len d -> fsize < 2 ^ 63 -> ehdr_ok fsize (ehdr_of d) = true ->
  phdrs d (ehdr_of d) = KOk (ph_table d (ehdr_of d)).
Proof.
  intros Hd Hl Hf He. unfold ehdr_ok in He. rewrite !andb_true_iff in He. destruct He as (((_ & Hn) & Ho) & Hend).
  apply Z.leb_le in Hn, Ho, Hend. assert (0 <= e_phoff (ehdr_of d)) as H0 by (apply (ld_range _ _ 8 Hd); lia).
  assert (0 <= e_phnum (ehdr_of d)) as H1 by (apply (ld_range _ _ 2 Hd); lia).
  unfold ph_end, sizeof_phdr in Hend. rewrite u64_small in Hend by lia.
  apply kmap_ok. intros i Hi%elem_of_seqZ. unfold file_read, sizeof_phdr. by rewrite (proj2 (Z.leb_le _ _)) by lia.
Qed.
Lemma phdrs_range d e p : bytes d -> p ∈ ph_table d e ->
  word64 (p_offset p) /\ word64 (p_vaddr p) /\ word64 (p_filesz p) /\ word64 (p_memsz p).
Proof. intros Hd (i & -> & _)%list_elem_of_fmap. by apply phdr_range, bytes_slice. Qed.

Lemma align_up x : 0 <= x <= USER_STACK_TOP -> PAGE_ALIGN_UP x = (x + 4095) / 4096 * 4096.
Proof. intros Hx. unfold USER_STACK_TOP in Hx. unfold PAGE_ALIGN_UP. rewrite u64_small, align_down by (unfold word64; lia). done. Qed.

(** ** The span of the segments *)
Lemma segment_ok_spec mv fsize bias p : segment_ok mv fsize bias p = true ->
  word64 (p_memsz p) -> 0 <= mv ->
  mv <= seg_va bias p /\ seg_va bias p + p_memsz p <= USER_STACK_TOP /\ p_offset p <= fsize /\ u64 (p_offset p + p_filesz p) <= fsize.
Proof.
  unfold segment_ok. fold (seg_va bias p). rewrite !andb_true_iff, !Z.leb_le. intros ((((H1 & H2) & H3) & H4) & H5) Hm Hmv.
  assert (0 <= seg_va bias p < 2 ^ 64) as Hv by apply u64_range. unfold word64 in Hm. splits; try done.
  unfold u64 in H1, H3. destruct (Z.lt_ge_cases (seg_va bias p + p_memsz p) 18446744073709551616) as [Hlt|Hge].
  - rewrite Z.mod_small in H3 by lia. exact H3.
  - replace (seg_va bias p + p_memsz p) with (seg_va bias p + p_memsz p - 18446744073709551616 + 1 * 18446744073709551616) in H1 by lia.
    rewrite Z.mod_add, Z.mod_small in H1 by lia. lia.
Qed.

Lemma check_segments_spec mv fsize bias l : 0 <= mv -> Forall (fun p => word64 (p_memsz p)) l -> forall f0 l0 f1 l1,
  check_segments mv fsize bias l f0 l0 = Some (f1, l1) ->
  (f0 = u64 (-1) \/ mv <= f0 + 4095 /\ f0 mod PAGE_SIZE = 0) -> l0 mod PAGE_SIZE = 0 -> 0 <= l0 <= USER_STACK_TOP ->
  f1 <= f0 /\ l0 <= l1 <= USER_STACK_TOP /\ (f1 = u64 (-1) \/ mv <= f1 + 4095 /\ f1 mod PAGE_SIZE = 0) /\ l1 mod PAGE_SIZE = 0 /\
  forall p, p ∈ l -> is_load p = true -> segment_ok mv fsize bias p = true /\
    f1 <= seg_va bias p /\ seg_va bias p + p_memsz p <= l1.
Proof.
  intros Hmv. induction l as [|p l IH]; intros Hw f0 l0 f1 l1 Hc H1 H2 H3; cbn [check_segments] in Hc.
  { injection Hc as <- <-. splits; auto; try lia. intros p Hp. by apply not_elem_of_nil in Hp. }
  apply Forall_cons_1 in Hw as [Hwp Hw]. destruct (is_load p) eqn:El; cbn [negb] in Hc.
  2: { destruct (IH Hw _ _ _ _ Hc H1 H2 H3) as (? & ? & ? & ? & Hall). splits; auto; try lia.
       intros q [->|Hq]%elem_of_cons; [congruence|by apply Hall]. }
  destruct (segment_ok mv fsize bias p) eqn:Eok; cbn [negb] in Hc; [|done].
  destruct (segment_ok_spec _ _ _ _ Eok Hwp Hmv) as (S1 & S2 & _). fold (seg_va bias p) in Hc.
  assert (0 <= seg_va bias p < 2 ^ 64) as Hv by apply u64_range. unfold word64 in Hwp. unfold USER_STACK_TOP in *.
  rewrite (u64_small (seg_va bias p + p_memsz p)) in Hc by lia.
  rewrite align_up in Hc by (unfold USER_STACK_TOP; lia). rewrite align_down in Hc by (unfold word64; lia).
  set (f := seg_va bias p / 4096 * 4096) in *. set (e := (seg_va bias p + p_memsz p + 4095) / 4096 * 4096) in *.
  pose proof (Z.div_mod (seg_va bias p) 4096 ltac:(done)). pose proof (Z.mod_pos_bound (seg_va bias p) 4096 eq_refl).
  pose proof (Z.div_mod (seg_va bias p + p_memsz p + 4095) 4096 ltac:(done)). pose proof (Z.mod_pos_bound (seg_va bias p + p_memsz p + 4095) 4096 eq_refl).
  assert (f mod PAGE_SIZE = 0 /\ e mod PAGE_SIZE = 0) as [Hf He] by (unfold f, e, PAGE_SIZE; split; by apply Z.mod_mul).
  apply IH in Hc as (C1 & C2 & C3 & C4 & Hall); [|done|..].
  - splits; auto.
    + destruct (Z.ltb_spec f f0); lia.
    + destruct (Z.ltb_spec l0 e); lia.
    + lia.
    + intros q [->|Hq]%elem_of_cons; [|by apply Hall]. intros _. split; [done|].
      destruct (Z.ltb_spec f f0), (Z.ltb_spec l0 e); lia.
  - destruct (Z.ltb_spec f f0); [right; lia|exact H1].
  - by destruct (Z.ltb_spec l0 e).
  - destruct (Z.ltb_spec l0 e); lia.
Qed.

(** ** Loading a file *)
Definition page_of (v : Z) : Z := v / PAGE_SIZE * PAGE_SIZE.
Lemma page_of_in a v : a mod PAGE_SIZE = 0 -> in_page a v = true -> page_of v = a.
Proof.
  intros Ha Hv. rewrite <- in_page_div, Z.eqb_eq in Hv by done. unfold page_of. rewrite Hv.
  apply Z.mod_divide in Ha as [k ->]; [|done]. by rewrite Z.div_mul.
Qed.

(** What the page of [v] is to allow: writing if a segment there asks for it or
    none is there, execution if a segment there asks for it, access by the user.
    What a loaded address shows. *)
Definition page_perm (bias : Z) (phs : list phdr) (v : Z) : bool * bool * bool :=
  let here := List.filter (covers bias (page_of v)) phs in
  (allows PF_W here || match here with [] => true | _ => false end, negb (allows PF_X here), true).
Lemma page_flags_perm bias a phs v : page_of v = a -> perm (page_flags (page_want bias a phs)) = page_perm bias phs v.
Proof.
  intros <-. rewrite page_want_filter. unfold page_perm. generalize (List.filter (covers bias (page_of v)) phs). intros l.
  destruct (allows PF_W l), (allows PF_X l), l; reflexivity.
Qed.
Definition loaded (d : list Z) (bias : Z) (phs : list phdr) (v : Z) : option (Z * (bool * bool * bool)) :=
  Some (image d bias phs v, page_perm bias phs v).

Section LoadAll.
Context `{D : SwapDisk} `{K : !OomKiller}.
Implicit Types s : vmm.

Lemma load_pages_spec d bias phs n : forall s root a, bytes d -> space s root -> root = cur_pml4 s ->
  0 <= a -> a + Z.of_nat n * PAGE_SIZE <= USER_STACK_TOP -> a mod PAGE_SIZE = 0 ->
  Forall (fun p => is_load p = true -> seg_good d bias p) phs ->
  oom_force (pm s) = false -> used_pages (pm s) + 4 * Z.of_nat n <= total_pages (pm s) ->
  exists s', kfold (load_page d phs bias root) (map (fun k => a + k * PAGE_SIZE) (seqZ 0 (Z.of_nat n))) s = KOk s' /\
    step (4 * Z.of_nat n) s s' root /\
    forall v, user_va v -> view s' root v =
      if (a <=? v) && (v <? a + Z.of_nat n * PAGE_SIZE) then loaded d bias phs v else view s root v.
Proof.
  induction n as [|n IH]; intros s root a Hd S Hr Ha Ht Hm Hg Ho Hu.
  { exists s. splits; [done|by apply step_refl|]. intros v _. destruct (Z.leb_spec a v), (Z.ltb_spec v (a + Z.of_nat 0 * PAGE_SIZE)); cbn; try done; lia. }
  rewrite Nat2Z.inj_succ in *. rewrite seqZ_cons by lia. cbn [map kfold]. replace (a + 0 * PAGE_SIZE) with a by lia.
  destruct (load_page_spec d bias phs s root a) as (s1 & -> & St1 & V1); auto; [unfold PAGE_SIZE in *; lia|lia|]. cbn [kbind].
  assert (map (fun k => a + k * PAGE_SIZE) (seqZ (Z.succ 0) (Z.pred (Z.succ (Z.of_nat n)))) =
          map (fun k => (a + PAGE_SIZE) + k * PAGE_SIZE) (seqZ 0 (Z.of_nat n))) as ->.
  { rewrite Z.pred_succ. change (Z.succ 0) with (1 + 0). rewrite <- (fmap_add_seqZ 1 0 (Z.of_nat n)).
    unfold fmap. rewrite <- list_fmap_compose. apply list_fmap_ext. intros i x _. unfold compose. lia. }
  pose proof St1 as [S1 _ T1 O1 U1 _].
  destruct (IH s1 root (a + PAGE_SIZE)) as (s2 & E2 & St2 & V2); auto.
  - by rewrite (step_cur _ _ _ _ St1).
  - unfold PAGE_SIZE. lia.
  - unfold PAGE_SIZE in *. lia.
  - rewrite <- Z.add_mod_idemp_l, Hm by done. done.
  - congruence.
  - lia.
  - exists s2. splits; [exact E2|apply (step_weaken (4 + 4 * Z.of_nat n)); [by eapply step_trans|lia]|].
    intros v Hv. rewrite V2, V1 by done. unfold loaded.
    destruct (in_page a v) eqn:Ei.
    + rewrite (page_flags_perm _ a _ v (page_of_in a v Hm Ei)). apply in_page_spec in Ei. unfold PAGE_SIZE in *.
      destruct (Z.leb_spec (a + 4096) v), (Z.leb_spec a v), (Z.ltb_spec v (a + Z.succ (Z.of_nat n) * 4096)); cbn; try done; lia.
    + assert (~ (a <= v < a + PAGE_SIZE)) by (rewrite <- in_page_spec; congruence). unfold PAGE_SIZE in *.
      destruct (Z.leb_spec (a + 4096) v), (Z.leb_spec a v), (Z.ltb_spec v (a + Z.succ (Z.of_nat n) * 4096)), (Z.ltb_spec v (a + 4096 + Z.of_nat n * 4096)); cbn; try done; lia.
Qed.

(** What the format asks of a segment beyond what the loader checks: its file
    bytes do not wrap around and are no more than its memory. *)
Definition seg_format (p : phdr) : Prop :=
  is_load p = true -> p_filesz p <= p_memsz p /\ p_offset p + p_filesz p < 18446744073709551616.

Definition min_va (e : ehdr) : Z := if e_type e =? ET_EXEC then 4096 else USER_VBASE.
Definition span_flags : Z := Z.lor (Z.lor PTE_RW PTE_US) PTE_NX.

Lemma reserve_lazy_in s root rs va n flags : reservable rs va n = true ->
  vmm_reserve_in s root rs va n flags VMM_USER_LAZY = Ret (s, rs ++ [Region (PAGE_ALIGN_DOWN va) n (Z.lor flags PTE_US)], 0).
Proof. intros E. unfold vmm_reserve_in. rewrite E. reflexivity. Qed.

Lemma load_elf_spec v d fsize bias s root rs first last :
  elf_file v = Some (d, fsize) -> bytes d -> fsize <= len d -> fsize < 2 ^ 63 ->
  let e := ehdr_of d in let phs := ph_table d e in
  ehdr_ok fsize e = true -> Forall seg_format phs ->
  check_segments (min_va e) fsize bias phs (u64 (-1)) 0 = Some (first, last) -> first < last ->
  reservable rs first ((last - first) / PAGE_SIZE) = true ->
  space s root -> root = cur_pml4 s -> oom_force (pm s) = false ->
  used_pages (pm s) + 4 * ((last - first) / PAGE_SIZE) <= total_pages (pm s) ->
  exists s', load_user_elf_into v bias root s rs =
      KOk (s', rs ++ [Region first ((last - first) / PAGE_SIZE) span_flags], last, u64 (bias + e_entry e)) /\
    step (4 * ((last - first) / PAGE_SIZE)) s s' root /\
    (forall v, user_va v -> view s' root v = if (first <=? v) && (v <? last) then loaded d bias phs v else view s root v) /\
    0 <= first /\ first mod PAGE_SIZE = 0 /\ last mod PAGE_SIZE = 0 /\ last <= USER_STACK_TOP /\
    forall p, p ∈ phs -> is_load p = true -> first <= seg_va bias p /\ seg_va bias p + p_memsz p <= last.
Proof.
  intros Ef Hd Hfs H63 e phs He Hfmt Hc Hlt Hres S Hr Ho Hu. pose proof Hc as Hc'.
  assert (4096 <= min_va e) as Hmv by (unfold min_va, USER_VBASE; destruct (_ =? _); lia).
  assert (forall p, p ∈ phs -> word64 (p_offset p) /\ word64 (p_vaddr p) /\ word64 (p_filesz p) /\ word64 (p_memsz p)) as Hrg
    by (intros p; by apply phdrs_range).
  apply check_segments_spec in Hc as (C1 & C2 & C3 & C4 & Hseg); try done; try lia; [|apply Forall_forall; intros p Hp; by apply Hrg].
  assert (first <> u64 (-1)) as Hne by (unfold USER_STACK_TOP in *; change (u64 (-1)) with 18446744073709551615; lia).
  destruct C3 as [?|[C3 Hfm]]; [done|].
  assert (0 <= first) as Hf0.
  { apply Z.mod_divide in Hfm as [k ->]; [|done]. unfold PAGE_SIZE in *. lia. }
  assert (first = PAGE_ALIGN_DOWN first) as Hal.
  { rewrite align_down by (unfold word64, USER_STACK_TOP in *; lia). apply Z.mod_divide in Hfm as [k ->]; [|done].
    unfold PAGE_SIZE. by rewrite Z.div_mul. }
  assert (last - first = (last - first) / PAGE_SIZE * PAGE_SIZE) as Hn.
  { apply Z.mod_divide in Hfm as [k ->], C4 as [k' ->]; [|done..]. rewrite <- Z.mul_sub_distr_r, Z.div_mul by done. done. }
  unfold load_user_elf_into. rewrite Ef, read_ehdr_ok by (apply elf_file_size in Ef; lia). cbn [kbind]. fold e. rewrite He. cbn [negb].
  pose proof (phdrs_read d fsize Hd Hfs H63 He) as Hph. fold e in Hph. rewrite Hph. cbn [kbind]. fold phs. fold (min_va e). rewrite Hc'.
  rewrite (proj2 (Z.eqb_neq _ _)) by done. rewrite (proj2 (Z.leb_gt _ _)) by lia. cbn [orb].
  rewrite reserve_lazy_in by done. cbn [of_outcome kbind]. change (0 =? 0) with true. cbn [negb].
  unfold span_pages. set (n := (last - first) / PAGE_SIZE) in *.
  assert (0 <= n) as Hn0 by (unfold PAGE_SIZE in *; lia).
  destruct (load_pages_spec d bias phs (Z.to_nat n) s root first) as (s' & E & St & V); auto.
  - rewrite Z2Nat.id by done. lia.
  - apply Forall_forall. intros p Hp Hl. destruct (Hseg p Hp Hl) as (Hok & _). destruct (Hrg p Hp) as (R1 & _ & R3 & R4).
    destruct (segment_ok_spec _ _ _ _ Hok R4 ltac:(lia)) as (Q1 & Q2 & Q3 & Q4).
    pose proof (proj1 (Forall_forall _ _) Hfmt p Hp Hl) as [F1 F2]. unfold word64 in *. rewrite u64_small in Q4 by lia.
    split; lia.
  - rewrite Z2Nat.id by done. done.
  - rewrite Z2Nat.id in E, St, V by done. rewrite E. cbn [kbind]. exists s'. rewrite <- Hal. splits; auto; try lia.
    + intros v0 Hv0. rewrite V by done. replace (first + n * PAGE_SIZE) with last by lia. done.
    + intros p Hp Hl. by apply Hseg.
Qed.
End LoadAll.

(** * Sequences of stores *)


(** What a store of [c], an address and bytes, does to the cell at [v]. *)
Definition put_at (v : Z) (x : option (Z * (bool * bool * bool))) (c : Z * list Z) : option (Z * (bool * bool * bool)) :=
  if (fst c <=? v) && (v <? fst c + len (snd c)) then (fun y => ((snd c).[v - fst c], snd y)) <$> x else x.

Lemma put_at_perm v x c : snd <$> put_at v x c = snd <$> x.
Proof. unfold put_at. destruct (_ && _); [|done]. by destruct x. Qed.
Lemma puts_perm v cs : forall x, snd <$> fold_left (put_at v) cs x = snd <$> x.
Proof. induction cs as [|c cs IH]; intros x; [done|]. cbn. by rewrite IH, put_at_perm. Qed.

(** When every store agrees with [g], a cell some store covers shows [g]. *)
Lemma puts_agree g v cs : forall x p,
  (forall c, c ∈ cs -> fst c <= v < fst c + len (snd c) -> (snd c).[v - fst c] = g v) ->
  snd <$> x = Some p -> (exists c, c ∈ cs /\ fst c <= v < fst c + len (snd c)) \/ x = Some (g v, p) ->
  fold_left (put_at v) cs x = Some (g v, p).
Proof.
  induction cs as [|c cs IH]; intros x p Hg Hp [(c' & Hc' & Hv)|Hx]; cbn; try done.
  - by apply not_elem_of_nil in Hc'.
  - apply IH; [intros c1 ?; by apply Hg, list_elem_of_further|by rewrite put_at_perm|].
    apply elem_of_cons in Hc' as [->|Hc']; [right|left; eauto].
    unfold put_at. rewrite (proj2 (Z.leb_le _ _)), (proj2 (Z.ltb_lt _ _)) by lia. cbn [andb].
    destruct x as [[y q]|]; [|done]. injection Hp as <-. cbn. by rewrite Hg by (done || apply list_elem_of_here).
  - apply IH; [intros c1 ?; by apply Hg, list_elem_of_further|by rewrite put_at_perm|right].
    unfold put_at. destruct (Z.leb_spec (fst c) v), (Z.ltb_spec v (fst c + len (snd c))); cbn [andb]; try done.
    rewrite Hx. cbn. by rewrite Hg by (done || apply list_elem_of_here).
Qed.

(** No store covers the cell. *)
Lemma puts_off v cs x : (forall c, c ∈ cs -> ~ (fst c <= v < fst c + len (snd c))) -> fold_left (put_at v) cs x = x.
Proof.
  revert x. induction cs as [|c cs IH]; intros x Hc; [done|]. cbn. rewrite IH by (intros; by apply Hc, list_elem_of_further).
  pose proof (Hc c (list_elem_of_here _ _)). unfold put_at.
  destruct (Z.leb_spec (fst c) v), (Z.ltb_spec v (fst c + len (snd c))); cbn; (done || lia).
Qed.

Section Chunks.
Context `{D : SwapDisk} `{K : !OomKiller}.
Implicit Types s : vmm.

Definition store_chunks s (cs : list (Z * list Z)) : kres vmm := kfold (fun s c => store_bytes s (fst c) (snd c)) cs s.
Definition chunk_ok s root (c : Z * list Z) : Prop :=
  bytes (snd c) /\ 0 <= fst c /\ fst c + len (snd c) <= 2 ^ 39 /\
  forall v, fst c <= v < fst c + len (snd c) -> writable s root v.

Lemma writable_perm s root v : writable s root v <-> exists nx us, snd <$> view s root v = Some (true, nx, us).
Proof.
  unfold writable. split; [intros (x & nx & us & ->); eauto|]. intros (nx & us & E).
  destruct (view s root v) as [[x q]|]; [|done]. injection E as ->. eauto.
Qed.

Lemma store_chunks_spec cs : forall s root, root = cur_pml4 s -> space s root -> Forall (chunk_ok s root) cs ->
  exists s', store_chunks s cs = KOk s' /\ step 0 s s' root /\
    forall v, user_va v -> view s' root v = fold_left (put_at v) cs (view s root v).
Proof.
  induction cs as [|[a d] cs IH]; intros s root Hr S Hc; unfold store_chunks; cbn [kfold].
  { exists s. splits; [done|by apply step_refl|done]. }
  apply Forall_cons_1 in Hc as [(Hb & Ha & Hl & Hw) Hcs]. cbn [fst snd] in *.
  destruct (store_bytes_spec s root a d) as (s1 & -> & St & _ & V); auto. cbn [kbind].
  assert (forall v, user_va v -> view s1 root v = put_at v (view s root v) (a, d)) as V1 by exact V.
  destruct (IH s1 root) as (s2 & E & St2 & V2); [by rewrite (step_cur _ _ _ _ St)|apply St| |].
  - eapply Forall_impl; [exact Hcs|]. intros c (? & ? & ? & Hcw). unfold chunk_ok; splits; auto. intros v Hv. apply writable_perm.
    rewrite V1, put_at_perm by (unfold user_va; lia). by apply writable_perm, Hcw.
  - exists s2. splits; [exact E|by apply (step_trans 0 0 _ s1)|]. intros v Hv. cbn. by rewrite V2, V1.
Qed.

Lemma kfold_chunks {A} (f : A -> Z * list Z) (g : vmm -> A -> kres vmm) l :
  (forall s x, g s x = store_bytes s (fst (f x)) (snd (f x))) -> forall s, kfold g l s = store_chunks s (map f l).
Proof.
  intros E. induction l as [|x l IH]; intros s; [done|]. unfold store_chunks in *. cbn [kfold map]. rewrite E.
  destruct (store_bytes s _ _); cbn; auto.
Qed.
Lemma store_chunks_app cs cs' s : store_chunks s (cs ++ cs') = kbind (store_chunks s cs) (fun s => store_chunks s cs').
Proof.
  unfold store_chunks. revert s. induction cs as [|c cs IH]; intros s; [done|]. cbn [app kfold].
  destruct (store_bytes s _ _); cbn; auto.
Qed.
Lemma store_chunks_one s a d : store_chunks s [(a, d)] = store_bytes s a d.
Proof. unfold store_chunks. cbn. by destruct (store_bytes s a d). Qed.
End Chunks.

Definition word_chunks (a : Z) (ws : list Z) : list (Z * list Z) :=
  map (fun kw => (u64 (a + 8 * fst kw), le64 (snd kw))) (zip (seqZ 0 (len ws)) ws).
Definition string_chunks (a : Z) (l : list (list Z)) : list (Z * list Z) :=
  map (fun pl => (fst pl, zstr (snd pl))) (zip (string_ptrs a l) l).

(** * Relocations *)
Definition relative (r : list Z) : Prop := u32 (ld r 8 8) = R_X86_64_RELATIVE.
#[local] Instance relative_dec r : Decision (relative r) := decide (_ = _).

(** The section headers the loader reads, and the entries of one. *)
Definition sections (d : list Z) (fsize : Z) : list shdr :=
  let e := ehdr_of d in
  if (e_shoff e =? 0) || (e_shnum e =? 0) || (e_shentsize e <? sizeof_shdr) || (fsize <? e_shoff e)
     || (fsize <? u64 (e_shoff e + e_shnum e * e_shentsize e)) then []
  else map (fun i => shdr_of (slice d (e_shoff e + e_shentsize e * i) sizeof_shdr)) (seqZ 0 (e_shnum e)).
Definition entries_at (d : list Z) (a n : Z) : list (list Z) := map (fun k => slice d (a + 24 * k) 24) (seqZ 0 (n / 24)).
Definition section_relocs (d : list Z) (sh : shdr) : list (list Z) :=
  if sh_type sh =? SHT_RELA then filter relative (entries_at d (sh_offset sh) (sh_size sh)) else [].

(** All relocations that apply, in file order, and the store each one is. *)
Definition relocs (d : list Z) (fsize : Z) : list (list Z) := concat (map (section_relocs d) (sections d fsize)).
Definition reloc_chunk (bias : Z) (r : list Z) : Z * list Z := (u64 (bias + ld r 0 8), le64 (u64 (bias + ld r 16 8))).

Section Reloc.
Context `{D : SwapDisk} `{K : !OomKiller}.
Implicit Types s : vmm.
Context (d : list Z) (bias : Z).

Lemma entries_cons a n : 24 <= n -> entries_at d a n = slice d a 24 :: entries_at d (a + 24) (n - 24).
Proof.
  intros Hn. unfold entries_at. replace n with (n - 24 + 1 * 24) at 1 by lia. rewrite Z.div_add by done.
  assert (0 <= (n - 24) / 24) by (apply Z.div_pos; lia). rewrite seqZ_cons by lia. cbn [map].
  replace (a + 24 * 0) with a by lia. f_equal. replace (Z.pred ((n - 24) / 24 + 1)) with ((n - 24) / 24) by lia.
  change (Z.succ 0) with (1 + 0). rewrite <- (fmap_add_seqZ 1 0). unfold fmap. rewrite <- list_fmap_compose.
  apply list_fmap_ext. intros i x _. unfold compose. f_equal. lia.
Qed.
Lemma entries_short a n : 0 <= n < 24 -> entries_at d a n = [].
Proof. intros Hn. unfold entries_at. by rewrite Z.div_small. Qed.

Lemma apply_reloc_chunk s r :
  apply_reloc bias s r = store_chunks s (map (reloc_chunk bias) (filter relative [r])).
Proof.
  unfold apply_reloc. rewrite filter_cons, filter_nil. unfold relative at 1 2. destruct (decide _) as [E|N].
  - rewrite E. cbn [Z.eqb negb map]. change (negb (R_X86_64_RELATIVE =? R_X86_64_RELATIVE)) with false. cbv iota.
    unfold reloc_chunk. by rewrite store_chunks_one.
  - by rewrite (proj2 (Z.eqb_neq _ _)) by done.
Qed.

Lemma rela_loop_chunks base n fuel : forall off s, 0 <= base -> base + n <= len d -> 0 <= off -> 0 <= n - off ->
  n - off <= 24 * Z.of_nat fuel ->
  rela_loop fuel d bias base n off s = store_chunks s (map (reloc_chunk bias) (filter relative (entries_at d (base + off) (n - off)))).
Proof.
  induction fuel as [|fuel IH]; intros off s Hb Hl Ho Hn Hf; cbn [rela_loop]; destruct (Z.ltb_spec n (off + 24)).
  - by rewrite entries_short by lia.
  - lia.
  - by rewrite entries_short by lia.
  - unfold file_read. rewrite (proj2 (Z.leb_le _ _)) by lia. cbn [kbind].
    rewrite entries_cons by lia. replace (base + off + 24) with (base + (off + 24)) by lia.
    replace (n - off - 24) with (n - (off + 24)) by lia.
    match goal with |- _ = store_chunks s (map _ (filter relative (?r :: ?l))) => change (r :: l) with ([r] ++ l) end.
    rewrite filter_app, map_app, store_chunks_app, apply_reloc_chunk.
    destruct (store_chunks s _); cbn [kbind]; [|done..]. apply IH; lia.
Qed.

Lemma apply_relocations_chunks fsize s : bytes d -> sizeof_ehdr <= fsize <= len d -> fsize < 2 ^ 63 ->
  (forall sh, sh ∈ sections d fsize -> sh_type sh = SHT_RELA -> sh_offset sh + sh_size sh <= fsize) ->
  apply_relocations d fsize bias s = store_chunks s (map (reloc_chunk bias) (relocs d fsize)).
Proof.
  intros Hd Hfs H63 Hsec. unfold apply_relocations, relocs. rewrite read_ehdr_ok by lia. cbn [kbind]. unfold sections in *.
  destruct (_ || _ || (e_shentsize _ <? _)) eqn:E1; [done|]. cbn [orb] in *.
  destruct (fsize <? e_shoff _) eqn:E2; [done|]. cbn [orb] in *.
  destruct (fsize <? u64 _) eqn:E3; [done|].
  assert (forall i, i ∈ seqZ 0 (e_shnum (ehdr_of d)) -> e_shoff (ehdr_of d) + e_shentsize (ehdr_of d) * i + sizeof_shdr <= len d) as Hin.
  { intros i Hi%elem_of_seqZ. apply orb_false_iff in E1 as [_ E1]. apply Z.ltb_ge in E1, E2, E3.
    assert (0 <= e_shoff (ehdr_of d) < 2 ^ 64 /\ 0 <= e_shentsize (ehdr_of d) < 2 ^ 16 /\ 0 <= e_shnum (ehdr_of d) < 2 ^ 16) as (B1 & B2 & B3)
      by (splits; try (apply (ld_range _ _ 8 Hd); lia); apply (ld_range _ _ 2 Hd); lia).
    rewrite u64_small in E3 by nia. unfold sizeof_shdr in *. nia. }
  clear E1 E2 E3. revert Hin Hsec. generalize (seqZ 0 (e_shnum (ehdr_of d))). intros l. revert s.
  set (hdr := fun i => shdr_of (slice d _ sizeof_shdr)). induction l as [|i l IH]; intros s Hin Hsec; [done|]. cbn [map concat kfold] in *.
  unfold file_read at 1. rewrite (proj2 (Z.leb_le _ _)) by (apply Hin; left). cbn [kbind]. fold (hdr i).
  rewrite map_app, store_chunks_app. assert (apply_section d fsize bias s (hdr i) = store_chunks s (map (reloc_chunk bias) (section_relocs d (hdr i)))) as ->.
  - unfold apply_section, section_relocs. destruct (Z.eqb_spec (sh_type (hdr i)) SHT_RELA) as [Et|]; cbn [negb]; [|done].
    pose proof (Hsec (hdr i) (list_elem_of_here _ _) Et).
    assert (bytes (slice d (e_shoff (ehdr_of d) + e_shentsize (ehdr_of d) * i) sizeof_shdr)) as Hb by by apply bytes_slice.
    assert (0 <= sh_offset (hdr i) /\ 0 <= sh_size (hdr i)) as [H1 H2] by (split; by apply (ld_range _ _ 8)).
    rewrite (u64_small (_ + _)) by lia. rewrite (proj2 (Z.ltb_ge fsize (sh_offset (hdr i)))) by lia.
    rewrite (proj2 (Z.ltb_ge fsize (sh_offset (hdr i) + _))) by lia. cbn [orb].
    rewrite rela_loop_chunks by (unfold len in *; lia). by rewrite Z.add_0_r, Z.sub_0_r.
  - destruct (store_chunks s _); cbn [kbind]; [|done..]. apply IH; [intros j Hj; apply Hin; by right|]. intros sh Hsh. by apply Hsec, list_elem_of_further.
Qed.
End Reloc.

(** * Eager regions *)
Section Eager.
Context `{D : SwapDisk} `{K : !OomKiller}.
Implicit Types s : vmm.

Lemma map_fresh_pages n : forall s root a flags, space s root -> flag_bits flags ->
  0 <= a -> a + Z.of_nat n * PAGE_SIZE <= USER_STACK_TOP -> a mod PAGE_SIZE = 0 ->
  oom_force (pm s) = false -> used_pages (pm s) + 4 * Z.of_nat n <= total_pages (pm s) ->
  exists s', fold_left (map_fresh root flags) (page_addrs n a) (Ret s) = Ret s' /\ step (4 * Z.of_nat n) s s' root /\
    forall v, user_va v -> view s' root v =
      if (a <=? v) && (v <? a + Z.of_nat n * PAGE_SIZE) then Some (0, perm flags) else view s root v.
Proof.
  induction n as [|n IH]; intros s root a flags S Hf Ha Ht Hm Ho Hu.
  { exists s. splits; [done|by apply step_refl|]. intros v _. destruct (Z.leb_spec a v), (Z.ltb_spec v (a + Z.of_nat 0 * PAGE_SIZE)); cbn; try done; lia. }
  rewrite Nat2Z.inj_succ in *. cbn [page_addrs fold_left].
  assert (user_va a) as Hua by (unfold user_va, USER_STACK_TOP, PAGE_SIZE in *; lia).
  destruct (map_page s root a flags) as (s1 & p & s2 & E1 & _ & E2 & St & V); auto; [lia|].
  assert (map_fresh root flags (Ret s) a = Ret s2) as -> by (unfold map_fresh; cbn [obind]; rewrite E1; cbn [obind]; exact E2).
  pose proof St as [S2 _ T2 O2 U2 _].
  destruct (IH s2 root (a + PAGE_SIZE) flags) as (s3 & E3 & St3 & V3); auto.
  - unfold PAGE_SIZE. lia.
  - unfold PAGE_SIZE in *. lia.
  - rewrite <- Z.add_mod_idemp_l, Hm by done. done.
  - congruence.
  - lia.
  - exists s3. splits; [exact E3|apply (step_weaken (4 + 4 * Z.of_nat n)); [by eapply step_trans|lia]|].
    intros v Hv. rewrite V3, V, in_page_div by done. unfold in_page, PAGE_SIZE in *.
    destruct (Z.leb_spec (a + 4096) v), (Z.leb_spec a v), (Z.ltb_spec v (a + Z.succ (Z.of_nat n) * 4096)),
      (Z.ltb_spec v (a + 4096 + Z.of_nat n * 4096)), (Z.ltb_spec v (a + 4096)); cbn; try done; lia.
Qed.

Lemma reserve_eager s root rs a n flags : space s root -> flag_bits (Z.lor flags PTE_US) -> reservable rs a n = true ->
  0 <= a -> 0 <= n -> a + n * PAGE_SIZE <= USER_STACK_TOP -> a mod PAGE_SIZE = 0 ->
  oom_force (pm s) = false -> used_pages (pm s) + 4 * n <= total_pages (pm s) ->
  exists s', vmm_reserve_in s root rs a n flags 0 = Ret (s', rs ++ [Region a n (Z.lor flags PTE_US)], 0) /\
    step (4 * n) s s' root /\
    forall v, user_va v -> view s' root v =
      if (a <=? v) && (v <? a + n * PAGE_SIZE) then Some (0, perm (Z.lor flags PTE_US)) else view s root v.
Proof.
  intros S Hf Hr Ha Hn Ht Hm Ho Hu. unfold vmm_reserve_in. rewrite Hr. cbn [negb].
  assert (PAGE_ALIGN_DOWN a = a) as ->.
  { rewrite align_down by (unfold word64, USER_STACK_TOP, PAGE_SIZE in *; lia).
    apply Z.mod_divide in Hm as [k ->]; [|done]. unfold PAGE_SIZE. by rewrite Z.div_mul. }
  change (has 0 VMM_USER_LAZY) with false. cbv iota. unfold each_region_page. rewrite each_page_fold.
  assert (region_pages (Region a n (Z.lor flags PTE_US)) = Z.to_nat n) as ->.
  { unfold region_pages, r_end. cbn [start npages]. unfold USER_STACK_TOP, PAGE_SIZE in *.
    rewrite (u64_small (n * 4096)), u64_small by lia. f_equal. replace (a + n * 4096 - a) with (n * 4096) by lia. by rewrite Z.div_mul. }
  cbn [start]. destruct (map_fresh_pages (Z.to_nat n) s root a (Z.lor flags PTE_US)) as (s' & -> & St & V); auto;
    rewrite ?Z2Nat.id in * by done; try done. cbn [obind]. by exists s'.
Qed.

(** The trampoline, when its page is free; otherwise nothing happens. *)
Lemma trampoline_spec s root rs : space s root -> root = cur_pml4 s -> oom_force (pm s) = false ->
  used_pages (pm s) + 8 <= total_pages (pm s) ->
  exists s' rs', user_map_trampoline s root rs = KOk (s', rs') /\ step 8 s s' root /\
    rs' = (if reservable rs SIGRETURN_TRAMP_VA 1 then rs ++ [Region SIGRETURN_TRAMP_VA 1 (Z.lor PTE_US PTE_US)] else rs) /\
    forall v, user_va v -> view s' root v =
      if reservable rs SIGRETURN_TRAMP_VA 1 && in_page SIGRETURN_TRAMP_VA v
      then Some ((tramp_code ++ replicate 4080 0).[v - SIGRETURN_TRAMP_VA], (false, false, true)) else view s root v.
Proof.
  intros S Hr Ho Hu. unfold user_map_trampoline. destruct (reservable rs SIGRETURN_TRAMP_VA 1) eqn:Er; cbn [andb].
  2: { unfold vmm_reserve_in. rewrite Er. cbn. exists s, rs. splits; auto. apply (step_weaken 0); [by apply step_refl|lia]. }
  destruct flag_bits_all as (FU & _ & _ & FP).
  destruct (reserve_eager s root rs SIGRETURN_TRAMP_VA 1 PTE_US S (flag_bits_lor _ _ FU FU) Er) as (s1 & -> & St1 & V1);
    [by vm_compute|done|by vm_compute|done|done|lia|].
  cbn [of_outcome kbind Z.eqb negb]. pose proof St1 as [S1 _ T1 O1 U1 _].
  destruct (take_frame s1 root (sp_wf _ _ S1)) as (s2 & f & E & T); [congruence|lia|]. rewrite E. cbn [of_outcome kbind].
  pose proof (tk_range _ _ _ _ T). rewrite (proj2 (Z.eqb_neq (f * PAGE_SIZE) 0)) by (unfold PAGE_SIZE; lia).
  assert (len tramp_code = 16) as Lt by done.
  destruct (map_taken s1 s2 root f (put_bytes (ram s2) (f * PAGE_SIZE) tramp_code) SIGRETURN_TRAMP_VA (Z.lor PTE_PRESENT PTE_US))
    as (s3 & E3 & St3 & V3); auto using flag_bits_lor; try congruence; try lia.
  { split; vm_compute; congruence. }
  { intros x. unfold put_bytes. destruct (_ && _); [|apply (wf_bytes _ _ (tk_wf _ _ _ _ T))].
    apply nthZ_byte. unfold tramp_code. check_bytes. }
  { intros x Hx. unfold put_bytes. rewrite Lt. unfold PAGE_SIZE in *.
    destruct (Z.leb_spec (f * 4096) x), (Z.ltb_spec x (f * 4096 + 16)); cbn; (done || lia). }
  rewrite E3. cbn [of_outcome kbind]. exists s3, (rs ++ [Region SIGRETURN_TRAMP_VA 1 (Z.lor PTE_US PTE_US)]).
  splits; auto; [change 8 with (4 * 1 + 4); by eapply step_trans|].
  intros v Hv. rewrite V3, V1, in_page_div by done. destruct (in_page SIGRETURN_TRAMP_VA v) eqn:Ei.
  - change (perm (Z.lor PTE_PRESENT PTE_US)) with (false, false, true). do 2 f_equal. apply in_page_spec in Ei.
    assert (v mod PAGE_SIZE = v - SIGRETURN_TRAMP_VA) as ->.
    { symmetry. apply (Z.mod_unique v PAGE_SIZE (SIGRETURN_TRAMP_VA / PAGE_SIZE)); [left; unfold PAGE_SIZE in *; lia|].
      change (PAGE_SIZE * (SIGRETURN_TRAMP_VA / PAGE_SIZE)) with SIGRETURN_TRAMP_VA. lia. }
    unfold put_bytes. rewrite Lt. set (k := v - SIGRETURN_TRAMP_VA) in *.
    destruct (Z.leb_spec (f * PAGE_SIZE) (f * PAGE_SIZE + k)); [|lia].
    destruct (Z.ltb_spec (f * PAGE_SIZE + k) (f * PAGE_SIZE + 16)); cbn [andb].
    + rewrite nthZ_app_l by lia. f_equal. lia.
    + rewrite nthZ_app_r by lia. rewrite nthZ_replicate by (rewrite Lt; unfold PAGE_SIZE in *; lia).
      pose proof (tk_alloc _ _ _ _ T) as A. unfold ram. rewrite (al_mem _ _ _ _ A).
      rewrite (proj2 (Z.leb_le _ _)), (proj2 (Z.ltb_lt _ _)) by (unfold PAGE_SIZE in *; lia). done.
  - unfold in_page in Ei. unfold PAGE_SIZE in *. replace (SIGRETURN_TRAMP_VA + 1 * 4096) with (SIGRETURN_TRAMP_VA + 4096) by lia. by rewrite Ei.
Qed.
End Eager.

(** * The stack *)
(** Consecutive stores from [a] whose bytes together are [d]. *)
Fixpoint tiles (a : Z) (cs : list (Z * list Z)) (d : list Z) : Prop :=
  match cs with
  | [] => d = []
  | c :: cs => fst c = a /\ exists d', d = snd c ++ d' /\ tiles (a + len (snd c)) cs d'
  end.

Lemma tiles_agree cs : forall a d c v, tiles a cs d -> c ∈ cs -> fst c <= v < fst c + len (snd c) ->
  a <= v < a + len d /\ (snd c).[v - fst c] = d.[v - a].
Proof.
  induction cs as [|[x b] cs IH]; intros a d c v Ht Hc Hv; [by apply not_elem_of_nil in Hc|].
  destruct Ht as (Hx & d' & -> & Ht). cbn [fst snd] in *. subst x. rewrite len_app. pose proof (len_nonneg b). pose proof (len_nonneg d').
  apply elem_of_cons in Hc as [->|Hc]; cbn [fst snd] in *.
  - split; [lia|]. by rewrite nthZ_app_l by lia.
  - destruct (IH _ _ _ _ Ht Hc Hv) as [H1 H2]. split; [lia|]. rewrite H2, nthZ_app_r by lia. f_equal. lia.
Qed.
Lemma tiles_cover cs : forall a d v, tiles a cs d -> a <= v < a + len d -> exists c, c ∈ cs /\ fst c <= v < fst c + len (snd c).
Proof.
  induction cs as [|[x b] cs IH]; intros a d v Ht Hv.
  - cbn in Ht. subst d. change (len (@nil Z)) with 0 in Hv. lia.
  - destruct Ht as (Hx & d' & -> & Ht). cbn [fst snd] in *. subst x. rewrite len_app in Hv.
    destruct (Z.lt_ge_cases v (a + len b)).
    + exists (a, b). split; [apply list_elem_of_here|cbn; lia].
    + destruct (IH _ _ v Ht) as (c & Hc & ?); [lia|]. exists c. split; [by apply list_elem_of_further|done].
Qed.

Definition words (ws : list Z) : list Z := concat (map le64 ws).
Lemma len_le64 w : len (le64 w) = 8.
Proof. reflexivity. Qed.
Lemma len_words ws : len (words ws) = 8 * len ws.
Proof.
  induction ws as [|w ws IH]; [done|]. unfold words in *. cbn [map concat]. rewrite len_app, IH, len_le64. unfold len. cbn [length]. lia.
Qed.
Lemma len_zstr s : len (zstr s) = len s + 1.
Proof. unfold zstr. by rewrite len_app. Qed.

Lemma word_tiles ws : forall a k, 0 <= a -> 0 <= k -> a + 8 * (k + len ws) < 18446744073709551616 ->
  tiles (a + 8 * k) (map (fun kw => (u64 (a + 8 * fst kw), le64 (snd kw))) (zip (seqZ k (len ws)) ws)) (words ws).
Proof.
  induction ws as [|w ws IH]; intros a k Ha Hk Hl; [done|]. replace (len (w :: ws)) with (1 + len ws) in * by (unfold len; cbn [length]; lia).
  pose proof (len_nonneg ws). rewrite seqZ_cons by lia. cbn [zip zip_with map tiles fst snd]. rewrite u64_small by lia. split; [done|].
  exists (words ws). split; [done|]. rewrite len_le64. replace (Z.pred (1 + len ws)) with (len ws) by lia.
  replace (a + 8 * k + 8) with (a + 8 * Z.succ k) by lia. apply IH; lia.
Qed.
Lemma word_chunks_tiles a ws : 0 <= a -> a + 8 * len ws < 18446744073709551616 -> tiles a (word_chunks a ws) (words ws).
Proof. intros Ha Hl. pose proof (word_tiles ws a 0 Ha). replace (a + 8 * 0) with a in H by lia. apply H; lia. Qed.

Lemma string_chunks_tiles l : forall a, 0 <= a -> a + strings_len l < 18446744073709551616 ->
  tiles a (string_chunks a l) (concat (map zstr l)).
Proof.
  unfold strings_len, string_chunks. induction l as [|s l IH]; intros a Ha Hl; [done|].
  cbn [string_ptrs zip zip_with map concat tiles fst snd] in *. rewrite len_app, len_zstr in Hl. pose proof (len_nonneg s).
  pose proof (len_nonneg (concat (map zstr l))). split; [done|]. exists (concat (map zstr l)). split; [done|].
  rewrite len_zstr, u64_small by lia. replace (a + (len s + 1)) with (a + len s + 1) by lia. apply IH; lia.
Qed.
Lemma tiles_one a d : tiles a [(a, d)] d.
Proof. split; [done|]. exists []. split; [by rewrite app_nil_r|done]. Qed.

(** A part of an image at its place. *)
Lemma part_agree A pre d post a cs c v : tiles a cs d -> a = A + len pre -> c ∈ cs -> fst c <= v < fst c + len (snd c) ->
  (snd c).[v - fst c] = (pre ++ d ++ post).[v - A].
Proof.
  intros Ht -> Hc Hv. destruct (tiles_agree _ _ _ _ _ Ht Hc Hv) as [H1 ->]. pose proof (len_nonneg pre).
  rewrite nthZ_app_r by lia. rewrite nthZ_app_l by lia. f_equal. lia.
Qed.

(** ** What the start-up code reads (userland/start.c) *)
(** [_start]: argc at the stack pointer, argv behind it, envp behind argv. *)
Section Crt0.
Context (rd : Z -> option Z).
Fixpoint read_bytes (n : nat) (a : Z) : option (list Z) :=
  match n with
  | O => Some []
  | S n => match rd a, read_bytes n (a + 1) with Some b, Some l => Some (b :: l) | _, _ => None end
  end.
Definition read64 (a : Z) : option Z := le_val <$> read_bytes 8 a.
Fixpoint read_cstr (fuel : nat) (a : Z) : option (list Z) :=
  match fuel with
  | O => None
  | S fuel =>
    match rd a with
    | Some b => if b =? 0 then Some [] else match read_cstr fuel (a + 1) with Some l => Some (b :: l) | None => None end
    | None => None
    end
  end.
Fixpoint read_vector (fuel : nat) (a : Z) : option (list (list Z)) :=
  match fuel with
  | O => None
  | S fuel =>
    match read64 a with
    | Some p =>
      if p =? 0 then Some []
      else match read_cstr fuel p, read_vector fuel (a + 8) with Some s, Some l => Some (s :: l) | _, _ => None end
    | None => None
    end
  end.
Definition crt0 (fuel : nat) (rsp : Z) : option (Z * list (list Z) * list (list Z)) :=
  match read64 rsp with
  | Some argc =>
    match read_vector fuel (rsp + 8), read_vector fuel (rsp + 16 + 8 * argc) with
    | Some argv, Some envp => Some (argc, argv, envp)
    | _, _ => None
    end
  | None => None
  end.

Definition holds (a : Z) (d : list Z) : Prop := forall k, 0 <= k < len d -> rd (a + k) = Some (d.[k]).
Lemma holds_app a x y : holds a (x ++ y) <-> holds a x /\ holds (a + len x) y.
Proof.
  unfold holds. rewrite len_app. pose proof (len_nonneg x). pose proof (len_nonneg y). split.
  - intros Hh. split; intros k Hk.
    + rewrite Hh by lia. by rewrite nthZ_app_l by lia.
    + replace (a + len x + k) with (a + (len x + k)) by lia. rewrite Hh, nthZ_app_r by lia. do 2 f_equal. lia.
  - intros [Hx Hy] k Hk. destruct (Z.lt_ge_cases k (len x)).
    + rewrite Hx, nthZ_app_l by lia. done.
    + replace (a + k) with (a + len x + (k - len x)) by lia. rewrite Hy, nthZ_app_r by lia. done.
Qed.
Lemma holds_cons a b d : holds a (b :: d) <-> rd a = Some b /\ holds (a + 1) d.
Proof.
  change (b :: d) with ([b] ++ d). rewrite holds_app. change (len [b]) with 1. split; intros [H1 H2]; (split; [|done]).
  - specialize (H1 0). rewrite Z.add_0_r in H1. apply H1. done.
  - intros k Hk. change (len [b]) with 1 in Hk. assert (k = 0) as -> by lia. by rewrite Z.add_0_r.
Qed.
Lemma read_bytes_holds d : forall a, holds a d -> read_bytes (length d) a = Some d.
Proof. induction d as [|b d IH]; intros a Hd; [done|]. apply holds_cons in Hd as [Hb Hd]. cbn [length read_bytes]. by rewrite Hb, (IH _ Hd). Qed.

Lemma le64_val w : word64 w -> le_val (le64 w) = w.
Proof.
  intros Hw. unfold word64 in Hw. unfold le64. change (seqZ 0 8) with [0; 1; 2; 3; 4; 5; 6; 7]. cbn [map le_val].
  assert (forall k, 0 <= k -> Z.shiftr w (8 * (k + 1)) = Z.shiftr w (8 * k) / 256) as Hk.
  { intros k Hk. replace (8 * (k + 1)) with (8 * k + 8) by lia. rewrite <- Z.shiftr_shiftr by lia. by rewrite (Z.shiftr_div_pow2 _ 8). }
  pose proof (Hk 0 ltac:(lia)) as E1. pose proof (Hk 1 ltac:(lia)) as E2. pose proof (Hk 2 ltac:(lia)) as E3. pose proof (Hk 3 ltac:(lia)) as E4.
  pose proof (Hk 4 ltac:(lia)) as E5. pose proof (Hk 5 ltac:(lia)) as E6. pose proof (Hk 6 ltac:(lia)) as E7.
  change (0 + 1) with 1 in *. change (1 + 1) with 2 in *. change (2 + 1) with 3 in *. change (3 + 1) with 4 in *.
  change (4 + 1) with 5 in *. change (5 + 1) with 6 in *. change (6 + 1) with 7 in *. change (8 * 0) with 0 in *. rewrite Z.shiftr_0_r in *.
  unfold u8. clear Hk. repeat match goal with H : ?x = ?y / 256 |- _ => pose proof (Z.div_mod y 256 ltac:(done)); pose proof (Z.mod_pos_bound y 256 eq_refl); rewrite <- H in *; clear H end.
  rewrite (Z.mod_small (Z.shiftr w (8 * 7)) 256) by lia. lia.
Qed.
Lemma read64_holds a w : word64 w -> holds a (le64 w) -> read64 a = Some w.
Proof. intros Hw Hh. unfold read64. pose proof (read_bytes_holds (le64 w) a Hh) as E. change (length (le64 w)) with 8%nat in E. rewrite E. cbn [fmap option_fmap option_map]. by rewrite le64_val. Qed.

Lemma read_cstr_holds s : forall a fuel, Forall (fun b => b <> 0) s -> holds a (zstr s) -> (length s < fuel)%nat -> read_cstr fuel a = Some s.
Proof.
  induction s as [|b s IH]; intros a [|fuel] Hz Hh Hf; cbn [length] in Hf; try lia.
  - apply holds_cons in Hh as [Hb _]. cbn. by rewrite Hb.
  - apply Forall_cons_1 in Hz as [Hb Hz]. apply holds_cons in Hh as [Eb Hh]. cbn [read_cstr]. rewrite Eb.
    rewrite (proj2 (Z.eqb_neq b 0)) by done. rewrite (IH (a + 1)); [done|done|exact Hh|lia].
Qed.

Lemma read_vector_holds l : forall a p fuel, Forall (Forall (fun b => b <> 0)) l -> 0 < p -> p + strings_len l < 18446744073709551616 ->
  holds a (words (string_ptrs p l ++ [0])) -> holds p (concat (map zstr l)) ->
  (length l + Z.to_nat (strings_len l) < fuel)%nat -> read_vector fuel a = Some l.
Proof.
  unfold strings_len. induction l as [|s l IH]; intros a p [|fuel] Hz Hp Hl Ha Hs Hf; cbn [length] in Hf; try lia.
  - cbn [string_ptrs app] in Ha. unfold words in Ha. cbn [map concat] in Ha. rewrite app_nil_r in Ha.
    cbn [read_vector]. rewrite (read64_holds a 0); [done|unfold word64; lia|done].
  - apply Forall_cons_1 in Hz as [Hz Hzl]. cbn [string_ptrs map concat] in *. unfold words in Ha. cbn [app map concat] in Ha.
    apply holds_app in Ha as [Ha1 Ha2]. apply holds_app in Hs as [Hs1 Hs2]. rewrite len_app, len_zstr in Hl, Hf.
    pose proof (len_nonneg s). pose proof (len_nonneg (concat (map zstr l))). rewrite len_zstr in Hs2.
    assert (u64 (p + len s + 1) = p + (len s + 1)) as Eu by (rewrite u64_small; lia). rewrite Eu in Ha2.
    cbn [read_vector]. rewrite (read64_holds a p); [|unfold word64; lia|done]. rewrite (proj2 (Z.eqb_neq p 0)) by lia.
    rewrite (read_cstr_holds s p fuel); [|done|done|unfold len in *; lia].
    rewrite (IH (a + 8) (p + (len s + 1)) fuel); [done|done|lia|lia|exact Ha2|exact Hs2|lia].
Qed.
End Crt0.

(** ** The image the kernel writes *)
Definition aux_words (strings : Z) (auxv : option (list (Z * Z))) : list Z :=
  match auxv with Some x => concat (map (auxv_entry strings) x) ++ [AT_NULL; 0] | None => [] end.
Definition aux_blob (auxv : option (list (Z * Z))) (tsc : Z) : list Z :=
  match auxv with Some _ => at_random tsc | None => [] end.
Definition blob_len (auxv : option (list (Z * Z))) : Z := match auxv with Some _ => 16 | None => 0 end.
Definition aux_len (auxv : option (list (Z * Z))) : Z := match auxv with Some x => (len x + 1) * 16 | None => 0 end.

(** Room on the stack, the eight bytes at the top included. *)
Definition stack_size (argv envp : list (list Z)) (auxv : option (list (Z * Z))) : Z :=
  8 + 8 * (len argv + 1) + 8 * (len envp + 1) + aux_len auxv + blob_len auxv + strings_len argv + strings_len envp + 8.

Definition stack_image (l : layout) (argv envp : list (list Z)) (auxv : option (list (Z * Z))) (tsc : Z) : list Z :=
  let p := l_strings l + blob_len auxv in
  le64 (len argv) ++ words (string_ptrs p argv ++ [0]) ++ words (string_ptrs (p + strings_len argv) envp ++ [0])
  ++ words (aux_words (l_strings l) auxv) ++ aux_blob auxv tsc ++ concat (map zstr argv) ++ concat (map zstr envp).

Definition stack_chunks (l : layout) (argv envp : list (list Z)) (auxv : option (list (Z * Z))) (tsc : Z) : list (Z * list Z) :=
  let p := l_strings l + blob_len auxv in
  (match auxv with Some _ => [(l_strings l, at_random tsc)] | None => [] end)
  ++ string_chunks p argv ++ string_chunks (p + strings_len argv) envp
  ++ word_chunks (l_envp l) (string_ptrs (p + strings_len argv) envp ++ [0])
  ++ word_chunks (l_argv l) (string_ptrs p argv ++ [0]) ++ [(l_argc l, le64 (len argv))]
  ++ word_chunks (l_auxv l) (aux_words (l_strings l) auxv).

Lemma len_string_ptrs l : forall p, len (string_ptrs p l) = len l.
Proof.
  unfold len. induction l as [|s l IH]; intros p; [done|]. cbn [string_ptrs length]. rewrite !Nat2Z.inj_succ. by rewrite IH.
Qed.
Lemma len_aux_words a auxv : 8 * len (aux_words a auxv) = aux_len auxv.
Proof.
  destruct auxv as [x|]; [|done]. cbn [aux_words aux_len]. rewrite len_app.
  assert (len (concat (map (auxv_entry a) x)) = 2 * len x) as ->; [|change (len [AT_NULL; 0]) with 2; lia].
  induction x as [|[k v] x IH]; [done|]. cbn [map concat]. rewrite len_app, IH. unfold len. cbn [auxv_entry length]. lia.
Qed.
Lemma len_blob auxv tsc : len (aux_blob auxv tsc) = blob_len auxv.
Proof. by destruct auxv. Qed.

Lemma bytes_random n : forall x, bytes (random_bytes n x).
Proof. induction n as [|n IH]; intros x; [constructor|]. constructor; [apply byte_u8|apply IH]. Qed.
Lemma bytes_le64 w : bytes (le64 w).
Proof. apply Forall_forall. intros x (k & -> & _)%list_elem_of_fmap. apply byte_u8. Qed.
Lemma bytes_zstr s : bytes s -> bytes (zstr s).
Proof. intros Hs. apply bytes_app; [done|]. by repeat constructor. Qed.

(** Removes the wrap-arounds of a sum from the inside out. *)
Ltac unwrap := repeat match goal with |- context [u64 ?x] => lazymatch x with context [u64 _] => fail | _ => rewrite (u64_small x) by lia end end.

(** The places, when everything fits. *)
Lemma layout_fits top argv envp auxv : 131072 <= top <= USER_STACK_TOP -> stack_size argv envp auxv <= 131072 ->
  let l := stack_layout top argv envp auxv in
  l_argc l = top - stack_size argv envp auxv /\ l_argv l = l_argc l + 8 /\ l_envp l = l_argv l + 8 * (len argv + 1) /\
  l_auxv l = l_envp l + 8 * (len envp + 1) /\ l_strings l = l_auxv l + aux_len auxv /\
  top - 8 = l_strings l + blob_len auxv + strings_len argv + strings_len envp.
Proof.
  unfold USER_STACK_TOP. intros Ht Hf. unfold stack_size in *. cbn [stack_layout l_argc l_argv l_envp l_auxv l_strings].
  pose proof (len_nonneg (concat (map zstr argv))). pose proof (len_nonneg (concat (map zstr envp))). unfold strings_len in *.
  assert (0 <= len argv /\ 0 <= len envp) as [? ?] by (unfold len; lia).
  destruct auxv as [x|]; cbn [aux_len blob_len] in *; [assert (0 <= len x) by (unfold len; lia)|]; unwrap; lia.
Qed.

Ltac find_elem := first [apply list_elem_of_here | apply list_elem_of_further; find_elem].

Section Stack.
Context `{D : SwapDisk} `{K : !OomKiller}.
Implicit Types s : vmm.
Context (top : Z) (argv envp : list (list Z)) (auxv : option (list (Z * Z))) (tsc : Z).
Context (Htop : 131072 <= top <= USER_STACK_TOP) (Hfit : stack_size argv envp auxv <= 131072).
Context (Hargv : Forall bytes argv) (Henvp : Forall bytes envp).
Let l := stack_layout top argv envp auxv.
Let img := stack_image l argv envp auxv tsc.
Let cs := stack_chunks l argv envp auxv tsc.

Lemma len_image : len img = stack_size argv envp auxv - 8.
Proof.
  unfold img, stack_image, stack_size. rewrite !len_app, !len_words, !len_app, len_blob, !len_string_ptrs, len_aux_words, len_le64.
  unfold strings_len. change (len [0]) with 1. lia.
Qed.

(** Every store is a part of the image at its place, and every place is stored to. *)
Lemma stack_parts : exists parts : list (list Z * list Z * list Z * Z * list (Z * list Z)),
  Forall (fun '(pre, d, post, a, c) => img = pre ++ d ++ post /\ a = l_argc l + len pre /\ tiles a c d) parts /\
  (forall c, c ∈ cs <-> exists x, x ∈ parts /\ c ∈ snd x) /\
  forall v, l_argc l <= v < l_argc l + len img -> exists pre d post a c, (pre, d, post, a, c) ∈ parts /\ a <= v < a + len d.
Proof.
  destruct (layout_fits top argv envp auxv Htop Hfit) as (L1 & L2 & L3 & L4 & L5 & L6). fold l in L1, L2, L3, L4, L5, L6.
  unfold USER_STACK_TOP in Htop. pose proof len_image as Li. unfold stack_size in *.
  pose proof (len_nonneg (concat (map zstr argv))) as N1. pose proof (len_nonneg (concat (map zstr envp))) as N2.
  fold (strings_len argv) in N1. fold (strings_len envp) in N2.
  assert (0 <= len argv /\ 0 <= len envp) as [N3 N4] by (unfold len; lia).
  assert (0 <= aux_len auxv /\ 0 <= blob_len auxv) as [N5 N6].
  { destruct auxv as [x|]; cbn; [|lia]. assert (0 <= len x) by (unfold len; lia). lia. }
  set (p := l_strings l + blob_len auxv) in *.
  set (d1 := le64 (len argv)). set (d2 := words (string_ptrs p argv ++ [0])). set (d3 := words (string_ptrs (p + strings_len argv) envp ++ [0])).
  set (d4 := words (aux_words (l_strings l) auxv)). set (d5 := aux_blob auxv tsc). set (d6 := concat (map zstr argv)). set (d7 := concat (map zstr envp)).
  assert (img = d1 ++ d2 ++ d3 ++ d4 ++ d5 ++ d6 ++ d7) as Eimg by reflexivity.
  assert (len d1 = 8) as Z1 by reflexivity.
  assert (len d2 = 8 * (len argv + 1)) as Z2 by (unfold d2; rewrite len_words, len_app, len_string_ptrs; change (len [0]) with 1; lia).
  assert (len d3 = 8 * (len envp + 1)) as Z3 by (unfold d3; rewrite len_words, len_app, len_string_ptrs; change (len [0]) with 1; lia).
  assert (len d4 = aux_len auxv) as Z4 by (unfold d4; rewrite len_words; apply len_aux_words).
  assert (len d5 = blob_len auxv) as Z5 by apply len_blob.
  assert (len d6 = strings_len argv /\ len d7 = strings_len envp) as [Z6 Z7] by done.
  exists [([], d1, d2 ++ d3 ++ d4 ++ d5 ++ d6 ++ d7, l_argc l, [(l_argc l, le64 (len argv))]);
          (d1, d2, d3 ++ d4 ++ d5 ++ d6 ++ d7, l_argv l, word_chunks (l_argv l) (string_ptrs p argv ++ [0]));
          (d1 ++ d2, d3, d4 ++ d5 ++ d6 ++ d7, l_envp l, word_chunks (l_envp l) (string_ptrs (p + strings_len argv) envp ++ [0]));
          (d1 ++ d2 ++ d3, d4, d5 ++ d6 ++ d7, l_auxv l, word_chunks (l_auxv l) (aux_words (l_strings l) auxv));
          (d1 ++ d2 ++ d3 ++ d4, d5, d6 ++ d7, l_strings l, match auxv with Some _ => [(l_strings l, at_random tsc)] | None => [] end);
          (d1 ++ d2 ++ d3 ++ d4 ++ d5, d6, d7, p, string_chunks p argv);
          (d1 ++ d2 ++ d3 ++ d4 ++ d5 ++ d6, d7, [], p + strings_len argv, string_chunks (p + strings_len argv) envp)].
  splits.
  - repeat apply Forall_cons_2; [..|apply Forall_nil_2]; (split; [rewrite Eimg, ?app_nil_r, <- ?app_assoc; done|split; [rewrite ?len_app; change (len (@nil Z)) with 0; lia|]]).
    + apply tiles_one.
    + apply word_chunks_tiles; [lia|]. rewrite len_app, len_string_ptrs. change (len [0]) with 1. lia.
    + apply word_chunks_tiles; [lia|]. rewrite len_app, len_string_ptrs. change (len [0]) with 1. lia.
    + apply word_chunks_tiles; [lia|]. pose proof (len_aux_words (l_strings l) auxv). lia.
    + unfold d5. destruct auxv; [apply tiles_one|done].
    + apply string_chunks_tiles; lia.
    + apply string_chunks_tiles; lia.
  - intros c. unfold cs, stack_chunks. fold p. rewrite !elem_of_app. split.
    + intros [Hc|[Hc|[Hc|[Hc|[Hc|[Hc|Hc]]]]]]; eexists (_, _, _, _, _); (split; [|exact Hc]); find_elem.
    + intros (x & Hx & Hc). repeat (apply elem_of_cons in Hx as [->|Hx]; [cbn [snd] in Hc; tauto|]). by apply not_elem_of_nil in Hx.
  - intros v Hv. rewrite Li in Hv.
    destruct (Z.lt_ge_cases v (l_argv l)); [exists [], d1; do 3 eexists; split; [find_elem|lia]|].
    destruct (Z.lt_ge_cases v (l_envp l)); [exists d1, d2; do 3 eexists; split; [find_elem|lia]|].
    destruct (Z.lt_ge_cases v (l_auxv l)); [exists (d1 ++ d2), d3; do 3 eexists; split; [find_elem|lia]|].
    destruct (Z.lt_ge_cases v (l_strings l)); [exists (d1 ++ d2 ++ d3), d4; do 3 eexists; split; [find_elem|lia]|].
    destruct (Z.lt_ge_cases v p); [exists (d1 ++ d2 ++ d3 ++ d4), d5; do 3 eexists; split; [find_elem|lia]|].
    destruct (Z.lt_ge_cases v (p + strings_len argv)); [exists (d1 ++ d2 ++ d3 ++ d4 ++ d5), d6; do 3 eexists; split; [find_elem|lia]|].
    exists (d1 ++ d2 ++ d3 ++ d4 ++ d5 ++ d6), d7. do 3 eexists. split; [find_elem|lia].
Qed.

Lemma word_chunks_bytes a ws c : c ∈ word_chunks a ws -> bytes (snd c).
Proof. intros (x & -> & _)%list_elem_of_fmap. apply bytes_le64. Qed.
Lemma string_chunks_bytes a ss c : Forall bytes ss -> c ∈ string_chunks a ss -> bytes (snd c).
Proof.
  intros Hs (x & -> & Hx)%list_elem_of_fmap. destruct x as [q s]. apply elem_of_zip_r in Hx.
  cbn [snd]. apply bytes_zstr. by apply (proj1 (Forall_forall _ _) Hs).
Qed.
Lemma stack_chunks_bytes c : c ∈ cs -> bytes (snd c).
Proof.
  unfold cs, stack_chunks. rewrite !elem_of_app. intros [H|[H|[H|[H|[H|[H|H]]]]]].
  - destruct auxv; [apply list_elem_of_singleton in H as ->; apply bytes_random|by apply not_elem_of_nil in H].
  - by apply string_chunks_bytes in H.
  - by apply string_chunks_bytes in H.
  - by apply word_chunks_bytes in H.
  - by apply word_chunks_bytes in H.
  - apply list_elem_of_singleton in H as ->. apply bytes_le64.
  - by apply word_chunks_bytes in H.
Qed.

Lemma word_chunks_pos a ws c : c ∈ word_chunks a ws -> 0 < len (snd c).
Proof. by intros (x & -> & _)%list_elem_of_fmap. Qed.
Lemma string_chunks_pos a ss c : c ∈ string_chunks a ss -> 0 < len (snd c).
Proof. intros (x & -> & _)%list_elem_of_fmap. cbn [snd]. rewrite len_zstr. pose proof (len_nonneg (snd x)). lia. Qed.
Lemma stack_chunks_pos c : c ∈ cs -> 0 < len (snd c).
Proof.
  unfold cs, stack_chunks. rewrite !elem_of_app. intros [H|[H|[H|[H|[H|[H|H]]]]]].
  - destruct auxv; [by apply list_elem_of_singleton in H as ->|by apply not_elem_of_nil in H].
  - by apply string_chunks_pos in H.
  - by apply string_chunks_pos in H.
  - by apply word_chunks_pos in H.
  - by apply word_chunks_pos in H.
  - by apply list_elem_of_singleton in H as ->.
  - by apply word_chunks_pos in H.
Qed.

(** Where a store falls and what it shows. *)
Lemma stack_chunk_spec c v : c ∈ cs -> fst c <= v < fst c + len (snd c) ->
  l_argc l <= v < l_argc l + len img /\ (snd c).[v - fst c] = img.[v - l_argc l].
Proof.
  intros Hc Hv. destruct stack_parts as (parts & Hall & Hcs & _). apply Hcs in Hc as ([[[[pre d] post] a] tc] & Hx & Hc).
  cbn [snd] in Hc. pose proof (proj1 (Forall_forall _ _) Hall _ Hx) as (E & Ha & Ht). cbn beta iota in E, Ha, Ht.
  destruct (tiles_agree _ _ _ _ _ Ht Hc Hv) as [Hr _]. pose proof (len_nonneg pre). pose proof (len_nonneg post).
  split; [rewrite E, !len_app; lia|]. rewrite E. by apply (part_agree _ _ _ _ a tc).
Qed.
Lemma stack_covered v : l_argc l <= v < l_argc l + len img -> exists c, c ∈ cs /\ fst c <= v < fst c + len (snd c).
Proof.
  intros Hv. destruct stack_parts as (parts & Hall & Hcs & Hcov). destruct (Hcov v Hv) as (pre & d & post & a & tc & Hx & Hr).
  pose proof (proj1 (Forall_forall _ _) Hall _ Hx) as (_ & _ & Ht). cbn beta iota in Ht.
  destruct (tiles_cover _ _ _ _ Ht Hr) as (c & Hc & ?). exists c. split; [|done]. apply Hcs. by exists (pre, d, post, a, tc).
Qed.

(** The stores of [build_user_stack_into] after the reservation. *)
Lemma stack_stores {A} s (k : vmm -> kres A) :
  (let! s := (match auxv with Some _ => store_bytes s (l_strings l) (at_random tsc) | None => KOk s end) in
   let p := match auxv with Some _ => u64 (l_strings l + 16) | None => l_strings l end in
   let! s := store_strings s p argv in
   let ep := u64 (p + strings_len argv) in
   let! s := store_strings s ep envp in
   let! s := store_words s (l_envp l) (string_ptrs ep envp ++ [0]) in
   let! s := store_words s (l_argv l) (string_ptrs p argv ++ [0]) in
   let! s := store_bytes s (l_argc l) (le64 (len argv)) in
   let! s := (match auxv with
              | Some x => store_words s (l_auxv l) (concat (map (auxv_entry (l_strings l)) x) ++ [AT_NULL; 0])
              | None => KOk s
              end) in k s) = kbind (store_chunks s cs) k.
Proof.
  destruct (layout_fits top argv envp auxv Htop Hfit) as (A1 & A2 & A3 & A4 & A5 & A6). fold l in A1, A2, A3, A4, A5, A6.
  pose proof (len_nonneg (concat (map zstr argv))). pose proof (len_nonneg (concat (map zstr envp))). fold (strings_len argv) (strings_len envp) in *.
  assert (0 <= len argv /\ 0 <= len envp) as [? ?] by (unfold len; lia). unfold USER_STACK_TOP, stack_size in *.
  assert (forall s a ws, store_words s a ws = store_chunks s (word_chunks a ws)) as Ew
    by (intros; unfold store_words, word_chunks; by apply (kfold_chunks (fun kw => (u64 (a + 8 * fst kw), le64 (snd kw))))).
  assert (forall s a ss, store_strings s a ss = store_chunks s (string_chunks a ss)) as Es
    by (intros; unfold store_strings, string_chunks; by apply (kfold_chunks (fun pl => (fst pl, zstr (snd pl))))).
  set (p := match auxv with Some _ => u64 (l_strings l + 16) | None => l_strings l end).
  assert (0 <= aux_len auxv /\ 0 <= blob_len auxv /\ p = l_strings l + blob_len auxv) as (? & ? & Ep).
  { unfold p. destruct auxv as [x|]; cbn [blob_len aux_len] in *; [|lia]. assert (0 <= len x) by (unfold len; lia). rewrite u64_small; lia. }
  cbv zeta. rewrite Ep. rewrite (u64_small (_ + strings_len argv)) by lia. unfold cs, stack_chunks.
  rewrite !store_chunks_app.
  assert (match auxv with Some _ => store_bytes s (l_strings l) (at_random tsc) | None => KOk s end =
          store_chunks s (match auxv with Some _ => [(l_strings l, at_random tsc)] | None => [] end)) as ->
    by (destruct auxv; [by rewrite store_chunks_one|done]).
  destruct (store_chunks s _) as [s1| | |]; cbn [kbind]; [|done..]. rewrite !store_chunks_app, Es.
  destruct (store_chunks s1 _) as [s2| | |]; cbn [kbind]; [|done..]. rewrite !store_chunks_app, Es.
  destruct (store_chunks s2 _) as [s3| | |]; cbn [kbind]; [|done..]. rewrite !store_chunks_app, Ew.
  destruct (store_chunks s3 _) as [s4| | |]; cbn [kbind]; [|done..]. rewrite !store_chunks_app, Ew.
  destruct (store_chunks s4 _) as [s5| | |]; cbn [kbind]; [|done..]. rewrite !store_chunks_app, store_chunks_one.
  destruct (store_bytes s5 _ _) as [s6| | |]; cbn [kbind]; [|done..].
  destruct auxv as [x|]; cbn [aux_words]; [by rewrite Ew|done].
Qed.

Definition stack_perm : bool * bool * bool := (true, true, true).

Lemma build_stack_spec s root rs : space s root -> root = cur_pml4 s -> top mod PAGE_SIZE = 0 ->
  reservable rs (top - 131072) USER_STACK_PAGES = true -> oom_force (pm s) = false ->
  used_pages (pm s) + 128 <= total_pages (pm s) ->
  exists s', build_user_stack_into s root rs top argv envp auxv tsc =
      KOk (s', rs ++ [Region (top - 131072) USER_STACK_PAGES (Z.lor (Z.lor PTE_RW PTE_NX) PTE_US)], l_argc l) /\
    step 128 s s' root /\
    forall v, user_va v -> view s' root v =
      if (l_argc l <=? v) && (v <? top - 8) then Some (img.[v - l_argc l], stack_perm)
      else if (top - 131072 <=? v) && (v <? top) then Some (0, stack_perm) else view s root v.
Proof.
  intros S Hr Hm Hres Ho Hu. destruct (layout_fits top argv envp auxv Htop Hfit) as (L1 & _ & _ & _ & _ & L6).
  fold l in L1, L6. pose proof len_image as Li. unfold USER_STACK_TOP in Htop.
  assert (0 <= stack_size argv envp auxv - 16) as Hsz.
  { unfold stack_size. pose proof (len_nonneg (concat (map zstr argv))). pose proof (len_nonneg (concat (map zstr envp))).
    unfold strings_len. assert (0 <= len argv /\ 0 <= len envp) as [? ?] by (unfold len; lia).
    destruct auxv as [x|]; cbn; [assert (0 <= len x) by (unfold len; lia)|]; lia. }
  unfold build_user_stack_into. change (USER_STACK_PAGES * PAGE_SIZE) with 131072. rewrite (u64_small (top - 131072)) by lia.
  destruct flag_bits_all as (FU & FR & FN & _).
  destruct (reserve_eager s root rs (top - 131072) USER_STACK_PAGES (Z.lor PTE_RW PTE_NX)) as (s1 & -> & St1 & V1);
    auto using flag_bits_lor; try (unfold USER_STACK_PAGES, USER_STACK_TOP, PAGE_SIZE; lia).
  { rewrite Zminus_mod, Hm. done. }
  cbn [of_outcome kbind Z.eqb negb]. fold l.
  assert (forall v, user_va v -> view s1 root v = if (top - 131072 <=? v) && (v <? top) then Some (0, stack_perm) else view s root v) as V1'.
  { intros v Hv. rewrite V1 by done. replace (top - 131072 + USER_STACK_PAGES * PAGE_SIZE) with top by (unfold USER_STACK_PAGES, PAGE_SIZE; lia). done. }
  destruct (store_chunks_spec cs s1 root) as (s2 & E & St2 & V2); [by rewrite (step_cur _ _ _ _ St1)|apply St1| |].
  { apply Forall_forall. intros c Hc. assert (forall v, fst c <= v < fst c + len (snd c) -> l_argc l <= v < top - 8) as Hin.
    { intros v Hv. destruct (stack_chunk_spec c v Hc Hv) as [? _]. lia. }
    pose proof (stack_chunks_pos c Hc) as Hpos.
    pose proof (Hin (fst c) ltac:(lia)). pose proof (Hin (fst c + len (snd c) - 1) ltac:(lia)).
    split; [by apply stack_chunks_bytes|]. splits; [lia|lia|]. intros v Hv. specialize (Hin v Hv). apply writable_perm.
    rewrite V1' by (unfold user_va; lia). rewrite (proj2 (Z.leb_le _ _)), (proj2 (Z.ltb_lt _ _)) by lia. by do 2 eexists. }
  exists s2. splits.
  - by rewrite stack_stores, E.
  - apply (step_weaken (4 * USER_STACK_PAGES + 0)); [by eapply step_trans|done].
  - intros v Hv. rewrite V2, V1' by done. destruct (Z.leb_spec (l_argc l) v) as [H1|H1], (Z.ltb_spec v (top - 8)) as [H2|H2]; cbn [andb].
    1: { rewrite (proj2 (Z.leb_le _ _)), (proj2 (Z.ltb_lt _ _)) by lia. cbn [andb].
      apply (puts_agree (fun v => img.[v - l_argc l])); [|done|left; apply stack_covered; lia].
      intros c Hc Hin. by apply stack_chunk_spec. }
    all: apply puts_off; intros c Hc Hin; destruct (stack_chunk_spec c v Hc Hin); lia.
Qed.

(** The start-up code finds the arguments. *)
Lemma crt0_reads rd fuel : (forall v, l_argc l <= v < top - 8 -> rd v = Some (img.[v - l_argc l])) ->
  Forall (Forall (fun b => b <> 0)) argv -> Forall (Forall (fun b => b <> 0)) envp ->
  stack_size argv envp auxv <= Z.of_nat fuel ->
  crt0 rd fuel (l_argc l) = Some (len argv, argv, envp).
Proof.
  intros Hrd Ha He Hf. destruct (layout_fits top argv envp auxv Htop Hfit) as (A1 & A2 & A3 & A4 & A5 & A6).
  fold l in A1, A2, A3, A4, A5, A6. pose proof len_image as Li.
  pose proof (len_nonneg (concat (map zstr argv))). pose proof (len_nonneg (concat (map zstr envp))). fold (strings_len argv) (strings_len envp) in *.
  assert (0 <= len argv /\ 0 <= len envp) as [? ?] by (unfold len; lia). unfold USER_STACK_TOP, stack_size in *.
  assert (0 <= aux_len auxv /\ 0 <= blob_len auxv) as [? ?]
    by (destruct auxv as [x|]; cbn; [assert (0 <= len x) by (unfold len; lia)|]; lia).
  assert (holds rd (l_argc l) img) as Hh.
  { intros k Hk. rewrite Hrd by lia. do 2 f_equal. lia. }
  unfold img, stack_image in Hh. repeat setoid_rewrite holds_app in Hh. rewrite len_le64, !len_words, !len_app, !len_string_ptrs, len_blob, len_aux_words in Hh.
  change (len [0]) with 1 in Hh. set (p := l_strings l + blob_len auxv) in *.
  destruct Hh as (H1' & H2' & H3' & _ & _ & H6' & H7').
  replace (l_argc l + 8 + 8 * (len argv + 1) + 8 * (len envp + 1) + aux_len auxv + blob_len auxv) with p in * by lia.
  fold (strings_len argv) in H7'.
  unfold crt0. rewrite (read64_holds rd _ (len argv)); [|unfold word64; lia|done].
  rewrite (read_vector_holds rd argv (l_argc l + 8) p fuel); try done; [|lia|lia|unfold len in *; lia].
  replace (l_argc l + 16 + 8 * len argv) with (l_argc l + 8 + 8 * (len argv + 1)) by lia.
  rewrite (read_vector_holds rd envp _ (p + strings_len argv) fuel); try done; [lia|lia|unfold len in *; lia].
Qed.
End Stack.

(** * Executing a program *)
Lemma aslr_top x : let top := pick_stack_top x in
  2013265920 < top <= USER_STACK_TOP /\ top mod PAGE_SIZE = 0.
Proof.
  unfold pick_stack_top. change (STACK_ASLR_SPAN / 4096) with 32768. pose proof (Z.mod_pos_bound (aslr_rand x) 32768 eq_refl).
  unfold USER_STACK_TOP, PAGE_SIZE. split; [lia|]. replace 2147483648 with (524288 * 4096) by lia.
  rewrite <- Z.mul_sub_distr_r. by apply Z.mod_mul.
Qed.

Lemma reservable_ok rs a n : a mod PAGE_SIZE = 0 -> 4096 <= a -> 0 < n -> a + n * PAGE_SIZE <= USER_STACK_TOP ->
  (forall r, r ∈ rs -> r_end r <= a \/ a + n * PAGE_SIZE <= start r) -> len rs < MAX_USER_REGIONS -> reservable rs a n = true.
Proof.
  intros Ha Hf Hn Ht Hrs Hl. unfold USER_STACK_TOP, PAGE_SIZE in *. unfold reservable.
  assert (PAGE_ALIGN_DOWN a = a) as ->.
  { rewrite align_down by (unfold word64; lia). apply Z.mod_divide in Ha as [k ->]; [|done]. by rewrite Z.div_mul. }
  unfold PAGE_SIZE. rewrite (u64_small (n * 4096)), u64_small by lia. unfold USER_VFLOOR, USER_STACK_TOP.
  rewrite (proj2 (Z.eqb_neq n 0)), (proj2 (Z.ltb_ge _ a)), (proj2 (Z.ltb_ge a _)), (proj2 (Z.ltb_ge _ (a + _))), (proj2 (Z.leb_gt _ (len rs))) by lia.
  cbn [negb orb andb]. rewrite andb_true_r. apply negb_true_iff. apply not_true_is_false. intros Hx.
  apply existsb_exists in Hx as (r & Hr%list_elem_of_In & Ho). unfold overlaps in Ho. apply andb_true_iff in Ho as [H1 H2].
  apply Z.ltb_lt in H1, H2. destruct (Hrs r Hr); lia.
Qed.

(** A program the loader takes, at a load base: well-formed segments from
    [first] to [last], and relocations of writable words inside them. *)
Record program (d : list Z) (fsize bias first last : Z) : Prop := {
  pg_bytes : bytes d;
  pg_size : sizeof_ehdr <= fsize <= len d /\ fsize < 2 ^ 63;
  pg_header : ehdr_ok fsize (ehdr_of d) = true;
  pg_format : Forall seg_format (ph_table d (ehdr_of d));
  pg_span : check_segments (min_va (ehdr_of d)) fsize bias (ph_table d (ehdr_of d)) (u64 (-1)) 0 = Some (first, last);
  pg_some : first < last <= SIGRETURN_TRAMP_VA;
  pg_sections : forall sh, sh ∈ sections d fsize -> sh_type sh = SHT_RELA -> sh_offset sh + sh_size sh <= fsize;
  pg_entry : u64 (bias + e_entry (ehdr_of d)) <> 0 }.
Definition relocs_inside (d : list Z) (fsize bias first last : Z) : Prop :=
  forall r, r ∈ relocs d fsize -> let a := u64 (bias + ld r 0 8) in
    first <= a /\ a + 8 <= last /\ forall v, a <= v < a + 8 -> fst (fst (page_perm bias (ph_table d (ehdr_of d)) v)) = true.

(** The program in memory, relocated. *)
Definition program_view (d : list Z) (fsize bias v : Z) : option (Z * (bool * bool * bool)) :=
  fold_left (put_at v) (map (reloc_chunk bias) (relocs d fsize)) (loaded d bias (ph_table d (ehdr_of d)) v).

Section Exec.
Context `{D : SwapDisk} `{K : !OomKiller}.
Implicit Types s : vmm.

Lemma program_span d fsize bias first last : program d fsize bias first last ->
  4096 <= first /\ first mod PAGE_SIZE = 0 /\ last mod PAGE_SIZE = 0 /\
  first + (last - first) / PAGE_SIZE * PAGE_SIZE = last /\ 0 < (last - first) / PAGE_SIZE.
Proof.
  intros [Hd [Hs1 Hs2] _ _ Hc Hlt _ _].
  assert (4096 <= min_va (ehdr_of d)) as Hmv by (unfold min_va, USER_VBASE; destruct (_ =? _); lia).
  apply check_segments_spec in Hc as (C1 & C2 & C3 & C4 & _); try done; try lia;
    [|apply Forall_forall; intros p Hp; apply (phdrs_range _ _ _ Hd) in Hp; tauto].
  unfold SIGRETURN_TRAMP_VA, USER_STACK_TOP in *. destruct C3 as [->|[C3 Hfm]]; [change (u64 (-1)) with 18446744073709551615 in Hlt; lia|].
  apply Z.mod_divide in Hfm as [k ->], C4 as [k' ->]; [|done..]. rewrite <- Z.mul_sub_distr_r, Z.div_mul by done.
  unfold PAGE_SIZE in *. splits; try lia; by apply Z.mod_mul.
Qed.

(** Loading and relocating. *)
Lemma load_program v d fsize bias first last s root : elf_file v = Some (d, fsize) -> program d fsize bias first last ->
  space s root -> root = cur_pml4 s -> oom_force (pm s) = false ->
  used_pages (pm s) + 4 * ((last - first) / PAGE_SIZE) <= total_pages (pm s) ->
  exists s', load_user_elf_into v bias root s [] =
      KOk (s', [Region first ((last - first) / PAGE_SIZE) span_flags], last, u64 (bias + e_entry (ehdr_of d))) /\
    step (4 * ((last - first) / PAGE_SIZE)) s s' root /\
    (forall v, user_va v -> view s' root v = if (first <=? v) && (v <? last) then loaded d bias (ph_table d (ehdr_of d)) v else view s root v) /\
    forall p, p ∈ ph_table d (ehdr_of d) -> is_load p = true -> first <= seg_va bias p /\ seg_va bias p + p_memsz p <= last.
Proof.
  intros Ef Hp S Hr Ho Hu. destruct (program_span _ _ _ _ _ Hp) as (P1 & P2 & P3 & P4 & P5).
  destruct Hp as [Hd [[Hs0 Hs1] Hs2] Hh Hf Hc Hlt _ _].
  destruct (load_elf_spec v d fsize bias s root [] first last) as (s' & E & St & V & _ & _ & _ & _ & Hseg); auto; [lia|..].
  - apply reservable_ok; auto; [rewrite P4; unfold SIGRETURN_TRAMP_VA, USER_STACK_TOP in *; lia| |done].
    intros r Hr'. by apply not_elem_of_nil in Hr'.
  - exists s'. splits; auto.
Qed.

Lemma relocate_program d fsize bias first last s root : program d fsize bias first last -> relocs_inside d fsize bias first last ->
  space s root -> root = cur_pml4 s ->
  (forall v, first <= v < last -> view s root v = loaded d bias (ph_table d (ehdr_of d)) v) ->
  exists s', apply_relocations d fsize bias s = KOk s' /\ step 0 s s' root /\
    forall v, user_va v -> view s' root v = if (first <=? v) && (v <? last) then program_view d fsize bias v else view s root v.
Proof.
  intros Hp Hin S Hr Hv. destruct (program_span _ _ _ _ _ Hp) as (P1 & _). pose proof Hp as [Hd [Hs1 Hs2] _ _ _ Hlt Hsec _].
  unfold SIGRETURN_TRAMP_VA in Hlt. rewrite apply_relocations_chunks by auto.
  destruct (store_chunks_spec (map (reloc_chunk bias) (relocs d fsize)) s root) as (s' & E & St & V); auto.
  { apply Forall_forall. intros c (r & -> & Hr')%list_elem_of_fmap. destruct (Hin r Hr') as (H1 & H2 & H3). cbn [fst snd reloc_chunk].
    split; [apply bytes_le64|]. cbn [fst snd reloc_chunk]. rewrite len_le64. splits; [lia|lia|]. intros v Hv'. apply writable_perm.
    rewrite Hv by lia. specialize (H3 v Hv'). cbn. destruct (page_perm bias _ v) as [[w nx] us]. cbn in H3. subst w. by do 2 eexists. }
  exists s'. splits; auto. intros v Huv. rewrite V by done.
  destruct (Z.leb_spec first v), (Z.ltb_spec v last); cbn [andb]; [rewrite Hv by lia; done|..];
    apply puts_off; intros c (r & -> & Hr')%list_elem_of_fmap; destruct (Hin r Hr') as (H1 & H2 & _); cbn [fst snd reloc_chunk]; rewrite len_le64; lia.
Qed.

(** The regions of a program: its span, the sigreturn page, the stack. *)
Definition program_regions (first last top : Z) : list region :=
  [Region first ((last - first) / PAGE_SIZE) span_flags; Region SIGRETURN_TRAMP_VA 1 PTE_US;
   Region (top - 131072) 32 (Z.lor (Z.lor PTE_RW PTE_NX) PTE_US)].

(** What [build_image] does with a program of YartOS itself. *)
Lemma build_image_spec lookup en t v d fsize argv envp pml4 s first last :
  let seed := seed_aslr en (Z.lxor (vnode_at en) (u64 (Z.shiftl (t_pid t) 32))) in
  let bias := pick_code_base seed in
  elf_file v = Some (d, fsize) -> elf_is_linux v = KOk false -> e_type (ehdr_of d) = ET_DYN ->
  program d fsize bias first last -> relocs_inside d fsize bias first last ->
  space s pml4 -> pml4 = cur_pml4 s -> oom_force (pm s) = false ->
  used_pages (pm s) + 4 * ((last - first) / PAGE_SIZE) + 136 <= total_pages (pm s) ->
  Forall bytes argv -> Forall bytes envp ->
  Forall (Forall (fun b => b <> 0)) argv -> Forall (Forall (fun b => b <> 0)) envp ->
  stack_size argv envp (Some []) <= 131072 ->
  exists s' rsp, build_image lookup en t v d fsize argv envp pml4 s =
      KOk (s', Some (program_regions first last (pick_stack_top (aslr_next seed)), u64 (bias + e_entry (ehdr_of d)), rsp, false)) /\
    step (4 * ((last - first) / PAGE_SIZE) + 136) s s' pml4 /\
    (forall v, first <= v < last -> view s' pml4 v = program_view d fsize bias v) /\
    crt0 (fun v => fst <$> view s' pml4 v) (Z.to_nat 131072) rsp = Some (len argv, argv, envp).
Proof.
  intros seed bias Ef El Et Hp Hin S Hr Ho Hu Hb1 Hb2 Hz1 Hz2 Hfit.
  destruct (program_span _ _ _ _ _ Hp) as (P1 & P2 & P3 & P4 & P5). pose proof (pg_some _ _ _ _ _ Hp) as Hlt.
  unfold build_image. fold seed. rewrite El. cbn [kbind]. rewrite Et. change (ET_DYN =? ET_EXEC) with false. cbv iota. fold bias.
  destruct (load_program v d fsize bias first last s pml4) as (s1 & -> & St1 & V1 & _); auto; [lia|]. cbn [kbind].
  rewrite (proj2 (Z.eqb_neq _ 0)) by apply (pg_entry _ _ _ _ _ Hp).
  pose proof St1 as [S1 _ T1 O1 U1 _]. unfold SIGRETURN_TRAMP_VA in Hlt.
  destruct (relocate_program d fsize bias first last s1 pml4) as (s2 & -> & St2 & V2); auto.
  { by rewrite (step_cur _ _ _ _ St1). }
  { intros x Hx. rewrite V1 by (unfold user_va; lia). by rewrite (proj2 (Z.leb_le _ _)), (proj2 (Z.ltb_lt _ _)) by lia. }
  cbn [kbind]. unfold load_interp. cbn [kbind]. pose proof St2 as [S2 _ T2 O2 U2 _].
  assert (cur_pml4 s2 = pml4) as C2 by (rewrite (step_cur _ _ _ _ St2), (step_cur _ _ _ _ St1); done).
  set (r1 := Region first _ _). assert (r_end r1 = last) as Er1.
  { unfold r_end, r1. cbn [start npages]. unfold PAGE_SIZE in *. rewrite (u64_small (_ * 4096)), u64_small by lia. lia. }
  destruct (trampoline_spec s2 pml4 [r1]) as (s3 & rs3 & -> & St3 & Ers & V3); auto; [congruence|lia|]. cbn [kbind].
  assert (reservable [r1] SIGRETURN_TRAMP_VA 1 = true) as Hrt.
  { apply reservable_ok; try done. intros r ->%list_elem_of_singleton. left. rewrite Er1. unfold SIGRETURN_TRAMP_VA. lia. }
  rewrite Hrt in Ers, V3.
  cbn [andb] in V3. pose proof St3 as [S3 _ T3 O3 U3 _].
  assert (cur_pml4 s3 = pml4) as C3 by (rewrite (step_cur _ _ _ _ St3); done).
  pose proof (aslr_top (aslr_next seed)) as Htop. cbn zeta in Htop. set (top := pick_stack_top (aslr_next seed)) in *.
  destruct Htop as [Htop Htm]. unfold USER_STACK_TOP in Htop.
  destruct (build_stack_spec top argv envp (Some []) (stack_tsc en)) with (s := s3) (root := pml4) (rs := rs3)
    as (s4 & -> & St4 & V4); auto; try congruence.
  { unfold USER_STACK_TOP. lia. }
  { apply reservable_ok.
    - rewrite Zminus_mod, Htm. done.
    - lia.
    - done.
    - unfold USER_STACK_PAGES, USER_STACK_TOP, PAGE_SIZE. lia.
    - intros x Hx. left. rewrite Ers in Hx. apply elem_of_app in Hx as [->%list_elem_of_singleton| ->%list_elem_of_singleton].
      + rewrite Er1. lia.
      + change (r_end (Region SIGRETURN_TRAMP_VA 1 (Z.lor PTE_US PTE_US))) with 1862275072. lia.
    - rewrite Ers. done. }
  { lia. }
  cbn [kbind]. destruct (layout_fits top argv envp (Some [])) as (L1 & _); [unfold USER_STACK_TOP; lia|done|].
  set (l := stack_layout top argv envp (Some [])) in *.
  assert (0 < l_argc l) as Hpos by lia. rewrite (proj2 (Z.eqb_neq (l_argc l) 0)) by lia.
  exists s4, (l_argc l). splits.
  - by rewrite Ers.
  - apply (step_weaken (4 * ((last - first) / PAGE_SIZE) + 0 + 8 + 128)); [|lia].
    eapply step_trans; [|exact St4]. eapply step_trans; [|exact St3]. by eapply step_trans.
  - intros x Hx. rewrite V4 by (unfold user_va; lia).
    rewrite (proj2 (Z.leb_gt (l_argc l) x)), (proj2 (Z.leb_gt (top - 131072) x)) by lia. cbn [andb].
    rewrite V3 by (unfold user_va; lia). replace (in_page SIGRETURN_TRAMP_VA x) with false
      by (symmetry; unfold in_page; rewrite (proj2 (Z.leb_gt _ _)) by (unfold SIGRETURN_TRAMP_VA; lia); done).
    rewrite V2 by (unfold user_va; lia). by rewrite (proj2 (Z.leb_le _ _)), (proj2 (Z.ltb_lt _ _)) by lia.
  - apply (crt0_reads top argv envp (Some []) (stack_tsc en)); auto; try (unfold USER_STACK_TOP; lia).
    intros x Hx. rewrite V4 by (unfold user_va, l in *; lia). fold l in Hx. fold l.
    rewrite (proj2 (Z.leb_le (l_argc l) x)), (proj2 (Z.ltb_lt x (top - 8))) by lia. done.
Qed.
End Exec.

(** ** Fresh tables *)
Section Fresh.
Context `{D : SwapDisk} `{K : !OomKiller}.
Implicit Types s : vmm.

(** A machine with a free frame. *)
Record machine_ok s (n : Z) : Prop := {
  mo_pmm : pmm_inv (pm s);
  mo_size : total_pages (pm s) <= 1099511627776;
  mo_bytes : byte_mem (ram s);
  mo_oom : oom_force (pm s) = false;
  mo_room : used_pages (pm s) + n <= total_pages (pm s) }.

Lemma set_entries s np l : Forall (fun i => 256 <= i < 512) l -> np mod PAGE_SIZE = 0 ->
  pmm_inv (pm s) -> byte_mem (ram s) ->
  exists s', fold_left (fun s i => set_entry s np i (entry s (kernel_pml4 s) i)) l s = s' /\
  pmm_inv (pm s') /\ byte_mem (ram s') /\ entry s' np 0 = entry s np 0 /\ s' = with_pm (pm s') s /\
  bitmap (pm s') = bitmap (pm s) /\ total_pages (pm s') = total_pages (pm s) /\ used_pages (pm s') = used_pages (pm s) /\
  oom_force (pm s') = oom_force (pm s).
Proof.
  intros Hl Hn. revert s. induction l as [|i l IH]; intros s Hi Hb; cbn [fold_left]; [exists s; splits; auto; by destruct s|].
  apply Forall_cons_1 in Hl as [Hil Hl]. destruct (IH Hl (set_entry s np i (entry s (kernel_pml4 s) i))) as (s' & Es & A & B & C & E & F & G & H & I).
  - by apply set_word_inv.
  - by apply byte_mem_st64.
  - exists s'. splits; auto. rewrite C. apply entry_set_ne; auto; [lia|lia|]. intros E'. injection E'. lia.
Qed.

Lemma new_pml4_spec s : machine_ok s 1 -> exists s' np, vmm_new_pml4 s = Ret (s', np) /\ np <> 0 /\ space s' np /\
  s' = with_pm (pm s') s /\ oom_force (pm s') = false /\ total_pages (pm s') = total_pages (pm s) /\
  used_pages (pm s') <= used_pages (pm s) + 1 /\ (forall v, user_va v -> view s' np v = None).
Proof.
  intros [I Hs B Ho Hu]. destruct (alloc_page_free s) as (p & f & E & Hf & A & Hinv & Ho'); auto; [lia|].
  unfold vmm_new_pml4. rewrite E. cbn [obind].
  assert (byte_mem (mem p)) as Bp.
  { intros a. rewrite (al_mem _ _ _ _ A). destruct (_ && _); [done|apply B]. }
  set (np := f * PAGE_SIZE). set (s1 := with_mem (mem_set (ram (with_pm p s)) np PAGE_SIZE 0) (with_pm p s)).
  assert (entry s1 np 0 = 0) as E0.
  { assert (forall k, 0 <= k < 8 -> ram s1 (np + 8 * 0 + k) = 0) as Hk.
    { intros k Hk. change (ram s1) with (mem_set (mem p) np PAGE_SIZE 0). unfold mem_set, PAGE_SIZE.
      destruct (Z.leb_spec np (np + 8 * 0 + k)), (Z.ltb_spec (np + 8 * 0 + k) (np + 4096)); (done || lia). }
    unfold entry, word, ld64. rewrite <- (Z.add_0_r (np + 8 * 0)) at 1. rewrite !Hk by lia. done. }
  destruct (set_entries s1 np (seqZ 256 256)) as (s2 & -> & A1 & A2 & A3 & A4 & A5 & A6 & A7 & A8).
  { apply Forall_forall. intros i Hi. apply elem_of_seqZ in Hi. lia. }
  { by apply Z.mod_mul. }
  { destruct Hinv. by split. }
  { by apply byte_mem_set. }
  change (bitmap (pm s1)) with (bitmap p) in *. change (total_pages (pm s1)) with (total_pages p) in *.
  change (used_pages (pm s1)) with (used_pages p) in *. change (oom_force (pm s1)) with (oom_force p) in *.
  assert (bit_tst (bitmap p) f = true) as Hb.
  { rewrite (al_bits _ _ _ _ A) by lia. rewrite (proj2 (Z.leb_le f f)), (proj2 (Z.ltb_lt f (f + 1))) by lia. done. }
  assert (has (entry s2 np 0) PTE_PRESENT = false) as Hz by (rewrite A3, E0; done).
  assert (forall v, user_va v -> mapped s2 np v = None) as Hm.
  { intros v Hv. rewrite mapped_leaf. unfold leaf. destruct (tree _ _ _) as [t|] eqn:Et; [|reflexivity].
    destruct (empty_tables s2 np Hz _ _ (upath_indices v Hv) Et) as [Ei _]. discriminate Ei. }
  exists s2, np. splits; auto; try congruence.
  - unfold np, PAGE_SIZE. lia.
  - split; [|intros v e Hv Hx; rewrite Hm in Hx by done; done|intros v v' e e' Hv _ Hx; rewrite Hm in Hx by done; done].
    apply wf_empty; auto; [rewrite A6, (al_total _ _ _ _ A); done|]. exists f. rewrite A5, A6, (al_total _ _ _ _ A). done.
  - rewrite A6. apply (al_total _ _ _ _ A).
  - rewrite A7, (al_used _ _ _ _ A). lia.
  - intros v Hv. unfold view. by rewrite Hm.
Qed.
End Fresh.

(** ** Confinement *)
(** A call that touches neither the kernel's half nor anything outside a buffer. *)
Definition confined {A} (m : kres A) : Prop := match m with KOk _ | KPanic => True | KWrite _ _ | KRead => False end.
Lemma confined_bind {A B} (m : kres A) (f : A -> kres B) : confined m -> (forall a, confined (f a)) -> confined (kbind m f).
Proof. destruct m; cbn; auto. Qed.
Lemma confined_fold {A B} (f : A -> B -> kres A) l : (forall a b, b ∈ l -> confined (f a b)) -> forall a, confined (kfold f l a).
Proof.
  induction l as [|b l IH]; intros Hf a; [done|]. cbn [kfold]. apply confined_bind; [apply Hf; left|].
  apply IH. intros a' b' Hb. apply Hf. by right.
Qed.
Lemma confined_outcome {A} (x : outcome A) : confined (of_outcome x).
Proof. by destruct x. Qed.
Lemma confined_read d o n : o + n <= len d -> confined (file_read d o n).
Proof. intros H. unfold file_read. by rewrite (proj2 (Z.leb_le _ _)). Qed.

Section Confined.
Context `{D : SwapDisk} `{K : !OomKiller}.
Implicit Types s : vmm.

Lemma confined_byte n : forall s va b, confined (store_byte n s va b).
Proof.
  induction n as [|n IH]; intros s va b; cbn [store_byte].
  - destruct (walk_pte _ _ _); [by destruct (_ && _)|done].
  - assert (confined (kbind (of_outcome (vmm_resolve_user_fault s va true)) (fun r => if snd r then store_byte n (fst r) va b else KPanic))) as Hf.
    { apply confined_bind; [apply confined_outcome|]. intros [s' []]; [apply IH|done]. }
    destruct (walk_pte _ _ _); [|done]. by destruct (_ && _).
Qed.

Lemma confined_store s va d : va < KERNEL_HALF -> confined (store_bytes s va d).
Proof.
  intros Hv. unfold store_bytes. rewrite (proj2 (Z.leb_gt _ _)) by done. destruct (USER_HALF_END <=? va); [done|]. clear Hv. revert s va.
  induction d as [|b d IH]; intros s va; [done|]. apply confined_bind; [apply confined_byte|]. intros s'. apply IH.
Qed.

Lemma confined_segment d fsize bias mv a sw p : fsize <= len d -> fsize < 2 ^ 63 -> 0 <= mv ->
  word64 (p_memsz p) -> 0 <= p_offset p -> 0 <= p_filesz p -> p_offset p + p_filesz p < 2 ^ 64 -> 0 <= a < USER_STACK_TOP ->
  (is_load p = true -> segment_ok mv fsize bias p = true) -> confined (copy_segment d bias a sw p).
Proof.
  intros Hf Hb Hmv Hm Ho Hz Hw Ha Hok. destruct sw as [s w]. unfold copy_segment. destruct (is_load p) eqn:El; cbn [negb]; [|done].
  destruct (segment_ok_spec _ _ _ _ (Hok eq_refl) Hm Hmv) as (S1 & S2 & S3 & S4). fold (seg_va bias p).
  rewrite u64_small in S4 by lia. unfold word64 in Hm. unfold USER_STACK_TOP, PAGE_SIZE in *.
  rewrite !u64_small by lia. destruct (_ || _); [done|].
  destruct (Z.leb_spec (a + 4096) (seg_va bias p)), (Z.leb_spec (seg_va bias p + p_filesz p) a); cbn [orb]; try done.
  rewrite u64_small by (repeat case_match; lia). apply confined_bind; [apply confined_read; repeat case_match; lia|].
  intros b. apply confined_bind; [|done]. apply confined_store. unfold KERNEL_HALF. repeat case_match; lia.
Qed.
End Confined.

(** ** The theorems *)
Section Theorems.
Context `{D : SwapDisk} `{K : !OomKiller}.

(** The state user_exec leaves when the image stands in [s]. *)
Definition exec_commit (last : Z -> bool) (old : Z) (s : vmm) (rs : list region) : vmm :=
  let s := if negb (old =? 0) && negb (old =? kernel_pml4 s) && last old then vmm_free_pml4 s old else s in
  with_mem_pages (region_total rs) (with_task_regions rs s).

(** exec up to the new image, and what it does with one. *)
Lemma exec_enters lookup shared en s t fr vn d fsize argv envp n : is_user s = true -> elf_file (Some vn) = Some (d, fsize) ->
  0 <= n -> machine_ok s (n + 1) ->
  exists s0 np k, user_exec lookup shared en s t fr (Some vn) argv envp = kbind (build_image lookup en t (Some vn) d fsize argv envp np s0) k /\
    (forall s1 rs entry rsp il, k (s1, Some (rs, entry, rsp, il)) =
       KOk (exec_commit shared (t_pml4 t) s1 rs, exec_task t vn np il, Frame entry rsp 0 0 0, true)) /\
    space s0 np /\ np = cur_pml4 s0 /\ oom_force (pm s0) = false /\ used_pages (pm s0) + n <= total_pages (pm s0).
Proof.
  intros Hu Ef Hn Hm. pose proof Hm as [M1 M2 M3 M4 M5].
  destruct (new_pml4_spec s) as (s0 & np & E0 & Hnp & S0 & R0 & O0 & T0 & U0 & _); [split; auto; lia|].
  exists (with_cur np s0), np. eexists. splits.
  - unfold user_exec. rewrite Hu. cbn [negb]. rewrite Ef, E0. cbn [of_outcome kbind]. rewrite (proj2 (Z.eqb_neq np 0)) by done.
    unfold vmm_switch_pml4 at 1. rewrite (proj2 (Z.eqb_neq np 0)) by done. reflexivity.
  - intros. reflexivity.
  - destruct S0 as [[] F P]; split; [split; done|done|done].
  - done.
  - done.
  - change (used_pages (pm (with_cur np s0))) with (used_pages (pm s0)). change (total_pages (pm (with_cur np s0))) with (total_pages (pm s0)). lia.
Qed.

(** A relocation is a store wherever the file says. *)
Lemma relocation_escapes d fsize bias r rest s : bytes d -> sizeof_ehdr <= fsize <= len d -> fsize < 2 ^ 63 ->
  (forall sh, sh ∈ sections d fsize -> sh_type sh = SHT_RELA -> sh_offset sh + sh_size sh <= fsize) ->
  relocs d fsize = r :: rest -> KERNEL_HALF <= u64 (bias + ld r 0 8) ->
  apply_relocations d fsize bias s = KWrite (u64 (bias + ld r 0 8)) (le64 (u64 (bias + ld r 16 8))).
Proof.
  intros Hd Hf H63 Hs Hr Hk. rewrite apply_relocations_chunks, Hr by done. unfold store_chunks. cbn [map kfold].
  unfold store_bytes, reloc_chunk. cbn [fst snd]. by rewrite (proj2 (Z.leb_le _ _)).
Qed.

(** The address and the bytes are the file's own when it is loaded at 0. *)
Lemma reloc_fields d fsize r : bytes d -> r ∈ relocs d fsize -> word64 (ld r 0 8) /\ word64 (ld r 16 8).
Proof.
  intros Hd Hr. assert (bytes r) as Hb; [|split; by apply (ld_range _ _ 8)].
  apply list_elem_of_In, in_concat in Hr as (l & Hl & Hr). apply in_map_iff in Hl as (sh & <- & _).
  apply list_elem_of_In in Hr. unfold section_relocs in Hr. destruct (_ =? _); [|by apply not_elem_of_nil in Hr].
  apply list_elem_of_filter in Hr as [_ (k & -> & _)%list_elem_of_fmap]. by apply bytes_slice.
Qed.

(** [C6] exec runs the program it was given. For a program of YartOS itself
    whose segments are well-formed and end below the sigreturn page, whose relocations
    lie in its writable pages, arguments that fit the stack, and a machine with four
    free frames for every page of the span and 137 more, [user_exec] succeeds. In the
    new tables every address of the segments' span shows the file's byte, or zero beyond
    the file, with the relocations applied and the permissions of the segments there
    (this is the memory before the old tables are freed, which ends the call if no thread
    shares them). The regions are the span, the sigreturn page and the stack, and the
    page count is theirs; every handler, the pending and the blocked signals are reset,
    heap and mappings start anew, and the task keeps its number and identities. The
    frame continues at the entry point with a stack from which the start-up code reads
    back exactly the arguments and the environment. *)
Theorem exec_runs_program lookup unused en s t fr vn d fsize argv envp first last :
  let seed := seed_aslr en (Z.lxor (vnode_at en) (u64 (Z.shiftl (t_pid t) 32))) in
  let bias := pick_code_base seed in
  is_user s = true -> elf_file (Some vn) = Some (d, fsize) -> elf_is_linux (Some vn) = KOk false ->
  e_type (ehdr_of d) = ET_DYN -> program d fsize bias first last -> relocs_inside d fsize bias first last ->
  machine_ok s (4 * ((last - first) / PAGE_SIZE) + 137) ->
  Forall bytes argv -> Forall bytes envp ->
  Forall (Forall (fun b => b <> 0)) argv -> Forall (Forall (fun b => b <> 0)) envp ->
  stack_size argv envp (Some []) <= USER_STACK_PAGES * PAGE_SIZE ->
  exists s1 s2 pml4 rsp,
    user_exec lookup unused en s t fr (Some vn) argv envp =
      KOk (s2, Proc (t_pid t) (t_uid t) (t_euid t) (t_gid t) pml4 (take 15 (name vn)) false
                 1342177280 1342177280 1342177280 (replicate (length (sig_handlers t)) 0) 0 0,
           Frame (u64 (bias + e_entry (ehdr_of d))) rsp 0 0 0, true) /\
    s2 = with_mem_pages ((last - first) / PAGE_SIZE + 33)
           (with_task_regions (program_regions first last (pick_stack_top (aslr_next seed)))
             (if negb (t_pml4 t =? 0) && negb (t_pml4 t =? kernel_pml4 s1) && unused (t_pml4 t) then vmm_free_pml4 s1 (t_pml4 t) else s1)) /\
    cur_pml4 s1 = pml4 /\ space s1 pml4 /\
    (forall v, first <= v < last -> view s1 pml4 v = program_view d fsize bias v) /\
    crt0 (fun v => fst <$> view s1 pml4 v) (Z.to_nat 131072) rsp = Some (len argv, argv, envp).
Proof.
  intros seed bias Hu Ef El Et Hp Hin Hm Hb1 Hb2 Hz1 Hz2 Hfit. destruct (program_span _ _ _ _ _ Hp) as (P1 & _ & _ & P4 & P5).
  destruct (exec_enters lookup unused en s t fr vn d fsize argv envp (4 * ((last - first) / PAGE_SIZE) + 136))
    as (s0 & np & k & -> & Hk & S0 & C0 & O0 & U0); auto; [lia|by rewrite <- Z.add_assoc|].
  destruct (build_image_spec lookup en t (Some vn) d fsize argv envp np s0 first last) as (s1 & rsp & -> & St & V & C); auto; [lia|].
  cbn [kbind]. exists s1, (exec_commit unused (t_pml4 t) s1 (program_regions first last (pick_stack_top (aslr_next seed)))), np, rsp. splits; auto.
  - rewrite Hk. replace (replicate (length (sig_handlers t)) 0) with (map (fun _ => 0) (sig_handlers t)) by (induction (sig_handlers t); cbn; congruence). reflexivity.
  - unfold exec_commit. f_equal. unfold region_total, program_regions. cbn [fold_left npages].
    pose proof (pg_some _ _ _ _ _ Hp) as Hl. unfold SIGRETURN_TRAMP_VA in *.
    set (j := (last - first) / PAGE_SIZE) in *. unfold PAGE_SIZE in *. rewrite (u64_small (0 + j)), (u64_small (_ + 1)), u64_small by lia. lia.
  - by rewrite (step_cur _ _ _ _ St).
  - apply St.
Qed.

(** [C22] Whoever can exec a file can write the kernel's memory. Relocations are
    not checked against the segments: a fixed-address ELF that loads, and
    whose first relocation names a slot in the kernel's half, makes [user_exec]
    store the eight bytes of its choice at the address of its choice, with
    every check on user addresses off. *)
Theorem exec_writes_kernel lookup shared en s t fr vn d fsize argv envp first last r rest :
  is_user s = true -> elf_file (Some vn) = Some (d, fsize) ->
  e_type (ehdr_of d) = ET_EXEC -> program d fsize 0 first last ->
  machine_ok s (4 * ((last - first) / PAGE_SIZE) + 1) ->
  relocs d fsize = r :: rest -> KERNEL_HALF <= ld r 0 8 ->
  user_exec lookup shared en s t fr (Some vn) argv envp = KWrite (ld r 0 8) (le64 (ld r 16 8)).
Proof.
  intros Hu Ef Et Hp Hm Hr Hk. destruct (program_span _ _ _ _ _ Hp) as (_ & _ & _ & _ & P5).
  pose proof Hp as [Hd [Hs1 Hs2] Hh _ _ _ Hsec Hent].
  destruct (exec_enters lookup shared en s t fr vn d fsize argv envp (4 * ((last - first) / PAGE_SIZE)))
    as (s0 & np & k & -> & _ & S0 & C0 & O0 & U0); auto; [lia|].
  destruct (reloc_fields d fsize r) as [W1 W2]; auto; [rewrite Hr; left|]. unfold word64 in *.
  assert (elf_is_linux (Some vn) = KOk true) as El.
  { unfold elf_is_linux. rewrite Ef, read_ehdr_ok by lia. cbn [kbind]. unfold ehdr_ok in Hh. rewrite !andb_true_iff in Hh. destruct Hh as ((((((((-> & ->) & ->) & _) & _) & _) & _) & _) & _).
    cbn [negb orb]. by rewrite Et. }
  unfold build_image. rewrite El. cbn [kbind]. rewrite Et. cbv iota. change (ET_EXEC =? ET_EXEC) with true. cbv iota.
  destruct (load_program (Some vn) d fsize 0 first last s0 np) as (s1 & -> & _); auto. cbn [kbind].
  rewrite (proj2 (Z.eqb_neq _ 0)) by done.
  rewrite (relocation_escapes d fsize 0 r rest) by (auto; rewrite Z.add_0_l, u64_small by lia; done).
  rewrite !Z.add_0_l, !u64_small by lia. reflexivity.
Qed.

(** [C7] The loader stays inside the file and inside user memory, whatever the
    file: for any bytes (as many as the file's size says, below 2^63), any load base
    and any state of memory, loading neither stores to the kernel's half of the address
    space nor reads outside the file's buffer, be it the header, the program headers or
    the segments, provided no segment's offset and file size wrap around. *)
Theorem load_confined v d fsize bias pml4 s rs :
  elf_file v = Some (d, fsize) -> bytes d -> fsize <= len d -> fsize < 2 ^ 63 ->
  Forall (fun p => is_load p = true -> p_offset p + p_filesz p < 2 ^ 64) (ph_table d (ehdr_of d)) ->
  confined (load_user_elf_into v bias pml4 s rs).
Proof.
  intros Ef Bd Hf Hlt Hall. unfold load_user_elf_into. rewrite Ef, read_ehdr_ok by (apply elf_file_size in Ef; lia). cbn [kbind].
  destruct (ehdr_ok fsize (ehdr_of d)) eqn:He; cbn [negb]; [|done]. rewrite (phdrs_read d fsize) by done. cbn [kbind].
  fold (min_va (ehdr_of d)). destruct (check_segments _ _ _ _ _ _) as [[first last]|] eqn:Ec; [|done].
  destruct (_ || _) eqn:Eb; [done|]. apply orb_false_iff in Eb as [Eb1 Eb2]. apply Z.eqb_neq in Eb1. apply Z.leb_gt in Eb2.
  assert (0 <= min_va (ehdr_of d)) as Hmv by (unfold min_va; destruct (_ =? _); done).
  assert (Forall (fun p => word64 (p_memsz p)) (ph_table d (ehdr_of d))) as Hw
    by (apply Forall_forall; intros p Hp; by apply (phdrs_range d (ehdr_of d) p)).
  destruct (check_segments_spec _ _ _ _ Hmv Hw _ _ _ _ Ec) as (C1 & C2 & C3 & C4 & C5); [by left|done|done|].
  destruct C3 as [C3|[C3 C6]]; [congruence|].
  apply confined_bind; [apply confined_outcome|]. intros [[s1 rs1] rc]. destruct (negb _); [done|].
  apply confined_bind; [|done]. apply confined_fold. intros s2 a Ha. unfold load_page.
  apply confined_bind; [apply confined_outcome|]. intros r. apply confined_bind; [apply confined_outcome|]. intros s3.
  apply confined_bind; [|done]. apply confined_fold. intros sw p Hp.
  destruct (phdrs_range d (ehdr_of d) p) as (R1 & R2 & R3 & R4); auto. rewrite Forall_forall in Hall. specialize (Hall p Hp).
  destruct (is_load p) eqn:El; [|by unfold copy_segment; destruct sw; rewrite El].
  destruct (C5 p Hp El) as (C7 & C8 & C9). unfold word64 in *.
  apply (confined_segment d fsize bias (min_va (ehdr_of d))); auto; try lia.
  apply list_elem_of_fmap in Ha as (k & -> & Hk%elem_of_seqZ).
  unfold USER_STACK_TOP, PAGE_SIZE in *. Z.div_mod_to_equations; lia.
Qed.
End Theorems.

(** ** Witnesses *)
#[local] Existing Instance no_disk.
#[local] Existing Instance no_kill.
#[local] Opaque demo_frames big_pmm.

(** The machine of [VmmProps] before it gives frames away. *)
Definition boot_vmm : vmm := with_pm big_pmm demo_vmm.
Lemma boot_ok n : n <= 1000 -> machine_ok boot_vmm n.
Proof.
  intros Hn. change boot_vmm with (with_pm big_pmm demo_vmm). split; cbn [pm with_pm].
  - apply big_pmm_inv.
  - rewrite big_pmm_total. lia.
  - intros a. apply big_pmm_byte.
  - apply (pmm_init_mem _ _ _ big_pmm_init).
  - assert (used_pages big_pmm <= 257) by (vm_compute; discriminate). rewrite big_pmm_total. lia.
Qed.

Definition le_bytes (n v : Z) : list Z := map (fun k => u8 (Z.shiftr v (8 * k))) (seqZ 0 n).
(** An ELF file of one segment, which is the whole file at [va] and two pages
    long in memory, with one relocation of the word at 120 of the file. *)
Definition demo_elf (type va slot addend : Z) : list Z :=
  le_bytes 4 ELF_MAGIC ++ [2; 1; 1; 0; 0; 0; 0; 0; 0; 0; 0; 0] ++
  le_bytes 2 type ++ le_bytes 2 EM_X86_64 ++ le_bytes 4 1 ++ le_bytes 8 (va + 128) ++ le_bytes 8 64 ++ le_bytes 8 152 ++
  le_bytes 4 0 ++ le_bytes 2 64 ++ le_bytes 2 56 ++ le_bytes 2 1 ++ le_bytes 2 64 ++ le_bytes 2 1 ++ le_bytes 2 0 ++
  le_bytes 4 PT_LOAD ++ le_bytes 4 (PF_X + PF_W) ++ le_bytes 8 0 ++ le_bytes 8 va ++ le_bytes 8 va ++ le_bytes 8 216 ++ le_bytes 8 5000 ++ le_bytes 8 4096 ++
  le_bytes 8 7 ++
  le_bytes 8 slot ++ le_bytes 8 R_X86_64_RELATIVE ++ le_bytes 8 addend ++
  le_bytes 4 0 ++ le_bytes 4 SHT_RELA ++ le_bytes 8 0 ++ le_bytes 8 0 ++ le_bytes 8 128 ++ le_bytes 8 24 ++ replicate 24 0.
Definition demo_file (d : list Z) : vnode := Vnode (ascii_bytes "demo") VN_FILE 0 (len d) (len d) (Some d) 0 1 0 0 493 [] false 0 0 0 0 0.
Definition demo_entropy : entropy := Entropy 12345 7 99 18446603336221196288.
Definition demo_proc : proc := Proc 3 0 0 0 0 (ascii_bytes "sh") false 0 0 0 (replicate 32 5) 1 2.
Definition demo_bias : Z := pick_code_base (seed_aslr demo_entropy (Z.lxor (vnode_at demo_entropy) (u64 (Z.shiftl 3 32)))).
Definition demo_dyn : list Z := demo_elf ET_DYN 0 120 128.
Definition demo_exec : list Z := demo_elf ET_EXEC 4194304 18446744071563182080 3735928559.

(** The facts that evaluate. *)
Lemma bytes_forallb l : forallb (fun b => (0 <=? b) && (b <? 256)) l = true -> bytes l.
Proof. intros H. apply Forall_forall. intros b Hb. rewrite forallb_forall in H. apply list_elem_of_In, H in Hb. unfold byte. lia. Qed.

Lemma demo_program d bias first last : forallb (fun b => (0 <=? b) && (b <? 256)) d = true -> len d = 216 ->
  ehdr_ok 216 (ehdr_of d) = true -> (exists va, ph_table d (ehdr_of d) = [Phdr PT_LOAD (PF_X + PF_W) 0 va 216 5000]) ->
  check_segments (min_va (ehdr_of d)) 216 bias (ph_table d (ehdr_of d)) (u64 (-1)) 0 = Some (first, last) ->
  (first <? last) && (last <=? SIGRETURN_TRAMP_VA) = true -> sections d 216 = [Shdr SHT_RELA 128 24] ->
  negb (u64 (bias + e_entry (ehdr_of d)) =? 0) = true -> program d 216 bias first last.
Proof.
  intros Hb Hl He [va Hp] Hc Hlt Hs Hn. split; auto.
  - by apply bytes_forallb.
  - rewrite Hl. done.
  - rewrite Hp. constructor; [|constructor]. intros _. cbn. lia.
  - lia.
  - rewrite Hs. intros sh ->%list_elem_of_singleton _. cbn. lia.
  - apply negb_true_iff, Z.eqb_neq in Hn. done.
Qed.

Lemma demo_dyn_program : program demo_dyn 216 demo_bias demo_bias (demo_bias + 8192) /\ relocs_inside demo_dyn 216 demo_bias demo_bias (demo_bias + 8192).
Proof.
  split; [apply demo_program; try (vm_compute; reflexivity); eexists; vm_compute; reflexivity|].
  assert (relocs demo_dyn 216 = [slice demo_dyn 128 24]) as E by (vm_compute; reflexivity).
  intros r Hr. rewrite E in Hr. apply list_elem_of_singleton in Hr as ->. cbv zeta.
  assert (u64 (demo_bias + ld (slice demo_dyn 128 24) 0 8) = demo_bias + 120) as -> by (vm_compute; reflexivity).
  splits; [lia|lia|]. intros v Hv.
  assert (forallb (fun k => fst (fst (page_perm demo_bias (ph_table demo_dyn (ehdr_of demo_dyn)) (demo_bias + 120 + k)))) (seqZ 0 8) = true) as F
    by (vm_compute; reflexivity).
  rewrite forallb_forall in F. replace v with (demo_bias + 120 + (v - demo_bias - 120)) by lia. apply F, list_elem_of_In, elem_of_seqZ. lia.
Qed.
Lemma demo_exec_program : program demo_exec 216 0 4194304 4202496 /\ relocs demo_exec 216 = [slice demo_exec 128 24].
Proof. split; [apply demo_program; try (vm_compute; reflexivity); eexists; vm_compute; reflexivity|vm_compute; reflexivity]. Qed.

(** The relocated word holds the address of the entry; the byte behind the file is zero. *)
Lemma exec_runs_program_witness : exists s1 s2 t' rsp,
  user_exec (fun _ => None) (fun _ => false) demo_entropy boot_vmm demo_proc (Frame 1 2 3 4 5) (Some (demo_file demo_dyn))
    [ascii_bytes "demo"; ascii_bytes "-v"] [ascii_bytes "A=b"] = KOk (s2, t', Frame (demo_bias + 128) rsp 0 0 0, true) /\
  sig_handlers t' = replicate 32 0 /\ mem_pages s2 = 35 /\
  view s1 (t_pml4 t') (demo_bias + 120) = Some (128, (true, false, true)) /\
  view s1 (t_pml4 t') (demo_bias + 216) = Some (0, (true, false, true)) /\
  crt0 (fun v => fst <$> view s1 (t_pml4 t') v) (Z.to_nat 131072) rsp =
    Some (2, [ascii_bytes "demo"; ascii_bytes "-v"], [ascii_bytes "A=b"]).
Proof.
  destruct demo_dyn_program as [P R].
  destruct (exec_runs_program (fun _ => None) (fun _ => false) demo_entropy boot_vmm demo_proc (Frame 1 2 3 4 5) (demo_file demo_dyn)
    demo_dyn 216 [ascii_bytes "demo"; ascii_bytes "-v"] [ascii_bytes "A=b"] demo_bias (demo_bias + 8192))
    as (s1 & s2 & pml4 & rsp & E & E2 & C & S & V & A).
  - reflexivity.
  - vm_compute. reflexivity.
  - vm_compute. reflexivity.
  - vm_compute. reflexivity.
  - exact P.
  - exact R.
  - apply boot_ok. vm_compute. discriminate.
  - repeat (constructor; [apply bytes_forallb; vm_compute; reflexivity|]); constructor.
  - repeat (constructor; [apply bytes_forallb; vm_compute; reflexivity|]); constructor.
  - repeat (constructor; [apply Forall_forall; intros b Hb; apply list_elem_of_In in Hb; vm_compute in Hb; intuition lia|]); constructor.
  - repeat (constructor; [apply Forall_forall; intros b Hb; apply list_elem_of_In in Hb; vm_compute in Hb; intuition lia|]); constructor.
  - vm_compute. discriminate.
  - exists s1, s2. do 2 eexists. split; [exact E|]. split; [reflexivity|]. split; [rewrite E2; cbn [mem_pages with_mem_pages]; replace (demo_bias + 8192 - demo_bias) with 8192 by lia; reflexivity|].
    split; [|split; [|exact A]]; (cbn [t_pml4]; rewrite V by lia; vm_compute; reflexivity).
Defined.

Lemma load_confined_witness : confined (load_user_elf_into (Some (demo_file demo_dyn)) USER_VBASE 0 boot_vmm []).
Proof.
  apply (load_confined _ demo_dyn 216).
  - vm_compute. reflexivity.
  - apply bytes_forallb. vm_compute. reflexivity.
  - vm_compute. discriminate.
  - reflexivity.
  - apply Forall_forall. intros p Hp. apply list_elem_of_In in Hp. vm_compute in Hp. intros _. destruct Hp as [<-|[]]. reflexivity.
Defined.

Lemma exec_writes_kernel_witness :
  user_exec (fun _ => None) (fun _ => false) demo_entropy boot_vmm demo_proc (Frame 1 2 3 4 5) (Some (demo_file demo_exec)) [] [] =
  KWrite 18446744071563182080 (le64 3735928559).
Proof.
  destruct demo_exec_program as [P R].
  rewrite (exec_writes_kernel (fun _ => None) (fun _ => false) demo_entropy boot_vmm demo_proc (Frame 1 2 3 4 5) (demo_file demo_exec)
    demo_exec 216 [] [] 4194304 4202496 (slice demo_exec 128 24) []).
  - vm_compute. reflexivity.
  - reflexivity.
  - vm_compute. reflexivity.
  - vm_compute. reflexivity.
  - exact P.
  - apply boot_ok. vm_compute. discriminate.
  - exact R.
  - vm_compute. discriminate.
Defined.
