(* ===== verification/Bignum.v ===== *)
(** * Big-number arithmetic for RSA (kernel/lib/bignum.c)

    2048-bit numbers as arrays of 64 limbs of 32 bits, least significant first:
    Montgomery multiplication (CIOS), modular exponentiation, binary long
    division, and the RSA operations built on them. [eval] is the number an
    array of limbs stands for; it is used by the theorems only. *)
From Stdlib Require Import ZArith Lia Bool Znumtheory.
From stdpp Require Import base list numbers option.
From S2P Require Import Prelude.
#[local] Set Default Goal Selector "!".
Open Scope Z_scope.

Definition BN_LIMBS : Z := 64.
Definition bn : Type := list Z.

Definition bn_zero : bn := replicate 64 0.
Definition bn_one : bn := bn_zero.[0 <- 1].

(** From limb [k - 1] down. *)
Fixpoint cmp_from (k : nat) (a b : bn) : Z :=
  match k with
  | O => 0
  | S i => if b.[Z.of_nat i] <? a.[Z.of_nat i] then 1
           else if a.[Z.of_nat i] <? b.[Z.of_nat i] then -1 else cmp_from i a b
  end.
Definition bn_cmp (a b : bn) : Z := cmp_from 64 a b.

(** Limb-wise subtraction: the limbs and the final borrow. *)
Fixpoint sub_limbs (a b : list Z) (borrow : Z) : list Z * Z :=
  match a, b with
  | x :: a', y :: b' =>
    let d := u64 (x - y - borrow) in
    let '(r, c) := sub_limbs a' b' (Z.land (Z.shiftr d 32) 1) in (u32 d :: r, c)
  | _, _ => ([], borrow)
  end.
Definition bn_sub (a b : bn) : bn := fst (sub_limbs a b 0).

Fixpoint dbl_limbs (a : list Z) (carry : Z) : list Z * Z :=
  match a with
  | x :: a' =>
    let d := Z.lor (u64 (Z.shiftl x 1)) carry in
    let '(r, c) := dbl_limbs a' (Z.shiftr d 32) in (u32 d :: r, c)
  | [] => ([], carry)
  end.
Definition bn_dbl_mod (a n : bn) : bn :=
  let '(r, carry) := dbl_limbs a 0 in
  if negb (carry =? 0) || (0 <=? bn_cmp r n) then bn_sub r n else r.

(** [t[j] + ai * b[j] + carry] along two rows of limbs: the row and the carry. *)
Fixpoint mac_row (t b : list Z) (ai carry : Z) : list Z * Z :=
  match t, b with
  | x :: t', y :: b' =>
    let v := u64 (x + ai * y + carry) in
    let '(r, c) := mac_row t' b' ai (Z.shiftr v 32) in (u32 v :: r, c)
  | _, _ => ([], carry)
  end.

(** One round of the Montgomery product over the 66 words [t]. *)
Definition mont_round (b n : bn) (n0inv : Z) (t : list Z) (ai : Z) : list Z :=
  let '(lo, carry) := mac_row (take 64 t) b ai 0 in
  let x := u64 (t.[BN_LIMBS] + carry) in
  let t := lo ++ [u32 x; Z.shiftr x 32] in
  let m := u32 (t.[0] * n0inv) in
  let '(lo, c2) := mac_row (take 64 t) n m 0 in
  let z := u64 (t.[BN_LIMBS] + c2) in
  let t := lo ++ [u32 z; u32 (t.[BN_LIMBS + 1] + u32 (Z.shiftr z 32))] in
  drop 1 t ++ [t.[BN_LIMBS + 1]].

(** [while (hv)]: [None] when [fuel] subtractions do not clear the carry word. *)
Fixpoint drop_carry (fuel : nat) (t n : bn) (hv : Z) : option bn :=
  if hv =? 0 then Some t
  else match fuel with
       | O => None
       | S k => let '(t, borrow) := sub_limbs t n 0 in drop_carry k t n (u64 (hv - borrow))
       end.

Definition bn_mont_mul (a b n : bn) (n0inv : Z) : option bn :=
  let t := fold_left (mont_round b n n0inv) a (replicate 66 0) in
  r ← drop_carry 2 (take 64 t) n (t.[BN_LIMBS]);
  Some (if 0 <=? bn_cmp r n then bn_sub r n else r).

Definition bn_n0inv (n : bn) : Z :=
  let n0 := n.[0] in
  u32 (- Nat.iter 5 (fun x => u32 (x * u32 (2 - u32 (n0 * x)))) 1).

(** [R] and [R2] by repeated doubling. *)
Definition bn_mont_consts (n : bn) : bn * bn :=
  let R := Nat.iter 2048 (fun r => bn_dbl_mod r n) bn_one in
  (R, Nat.iter 2048 (fun r => bn_dbl_mod r n) R).

(** The exponent's bits, most significant first. *)
Definition exp_bits (e : bn) : list bool :=
  flat_map (fun i => map (fun b => negb (Z.land (Z.shiftr (e.[i]) b) 1 =? 0)) (rev (seqZ 0 32)))
    (rev (seqZ 0 BN_LIMBS)).

Definition modpow_bit (n : bn) (n0inv : Z) (base_m : bn) (st : option (bool * bn)) (bit : bool)
  : option (bool * bn) :=
  '(started, acc) ← st;
  if (started : bool) then
    acc ← bn_mont_mul acc acc n n0inv;
    if bit then acc ← bn_mont_mul acc base_m n n0inv; Some (true, acc) else Some (true, acc)
  else if bit then Some (true, base_m) else Some (false, acc).

Definition bn_modpow (base exp n : bn) : option bn :=
  let n0inv := bn_n0inv n in
  let '(R, R2) := bn_mont_consts n in
  base_m ← bn_mont_mul base R2 n n0inv;
  acc ← bn_mont_mul R R n n0inv;
  '(_, acc) ← fold_left (modpow_bit n n0inv base_m) (exp_bits exp) (Some (false, acc));
  bn_mont_mul acc bn_one n n0inv.

(** ** Bytes, most significant first *)
Definition load_byte (n : Z) (l : list Z) (d : bn) (i : Z) : bn :=
  let k := n - 1 - i in
  d.[k / 4 <- Z.lor (d.[k / 4]) (u32 (Z.shiftl (l.[i]) (k mod 4 * 8)))].
Definition load_be (l : list Z) : bn :=
  fold_left (load_byte (len l) l) (seqZ 0 (len l)) bn_zero.

Definition bn_rsa_public (inp exp n : list Z) : option (list Z) :=
  let nlen := len n in
  if 256 <? nlen then None
  else
    r ← bn_modpow (load_be inp) (load_be exp) (load_be n);
    Some (map (fun i => u8 (Z.shiftr (r.[(nlen - 1 - i) / 4]) ((3 - Z.land i 3) * 8))) (seqZ 0 nlen)).

(** ** Long division *)
Fixpoint limb_bitlen (k : nat) (x : Z) : Z :=
  match k with
  | O => 0
  | S b => if negb (Z.land x (Z.shiftl 1 (Z.of_nat b)) =? 0) then Z.of_nat b + 1 else limb_bitlen b x
  end.
Fixpoint bitlen_from (k : nat) (a : bn) : Z :=
  match k with
  | O => 0
  | S i => if a.[Z.of_nat i] =? 0 then bitlen_from i a
           else Z.of_nat i * 32 + limb_bitlen 32 (a.[Z.of_nat i])
  end.
Definition bn_bitlen (a : bn) : Z := bitlen_from 64 a.

Fixpoint shl1_limbs (a : list Z) (carry : Z) : list Z :=
  match a with
  | x :: a' => Z.lor (u32 (Z.shiftl x 1)) carry :: shl1_limbs a' (Z.shiftr x 31)
  | [] => []
  end.
Definition bn_shl1 (a : bn) : bn := shl1_limbs a 0.

(** From the top limb down: the limbs and the bit carried out of them. *)
Fixpoint shr1_limbs (a : list Z) : list Z * Z :=
  match a with
  | x :: a' => let '(r, carry) := shr1_limbs a' in
               (Z.lor (Z.shiftr x 1) carry :: r, u32 (Z.shiftl x 31))
  | [] => ([], 0)
  end.

Definition mod_step (st : bn * bn) : bn * bn :=
  let '(rem, t) := st in
  (if 0 <=? bn_cmp rem t then bn_sub rem t else rem, fst (shr1_limbs t)).
Definition bn_mod (a m : bn) : bn :=
  if bn_cmp a m <? 0 then a
  else
    let shift := Z.to_nat (bn_bitlen a - bn_bitlen m) in
    fst (Nat.iter (S shift) mod_step (a, Nat.iter shift bn_shl1 m)).

(** ** Wide products and the private operation *)
Definition wide_row (a b : bn) (w : list Z) (i : Z) : list Z :=
  let ai := a.[i] in
  if ai =? 0 then w
  else
    let '(row, carry) := mac_row (slice w i 64) b ai 0 in
    let w := blit w i row in
    let x := u64 (w.[i + BN_LIMBS] + carry) in
    let w := w.[i + BN_LIMBS <- u32 x] in
    w.[i + BN_LIMBS + 1 <- u32 (w.[i + BN_LIMBS + 1] + u32 (Z.shiftr x 32))].
Definition bn_mul_wide (a b : bn) : list Z :=
  fold_left (wide_row a b) (seqZ 0 BN_LIMBS) (replicate 128 0).

Definition bn_wide_cmp_n (w : list Z) (n : bn) : Z :=
  if existsb (fun x => negb (x =? 0)) (drop 64 w) then 1 else cmp_from 64 w n.

Fixpoint borrow_limbs (a : list Z) (borrow : Z) : list Z :=
  match a with
  | x :: a' => if borrow =? 0 then a
               else let d := u64 (x - borrow) in u32 d :: borrow_limbs a' (Z.shiftr d 63)
  | [] => []
  end.
Definition bn_wide_sub_n (w : list Z) (n : bn) : list Z :=
  let '(lo, borrow) := sub_limbs (take 64 w) n 0 in lo ++ borrow_limbs (drop 64 w) borrow.

(** Adds [carry] at limb [k] and ripples it up. *)
Fixpoint ripple (fuel : nat) (w : list Z) (k carry : Z) : list Z :=
  match fuel with
  | O => w
  | S f =>
    if (carry =? 0) || (128 <=? k) then w
    else let y := u64 (w.[k] + carry) in ripple f (w.[k <- u32 y]) (k + 1) (Z.shiftr y 32)
  end.
Definition add_limb (m2 : bn) (w : list Z) (i : Z) : list Z :=
  let x := u64 (w.[i] + m2.[i]) in
  ripple 128 (w.[i <- u32 x]) (i + 1) (Z.shiftr x 32).

Definition bn_mod_mul (a b n : bn) : option bn :=
  let '(_, R2) := bn_mont_consts n in
  let n0inv := bn_n0inv n in
  a_m ← bn_mont_mul a R2 n n0inv;
  b_m ← bn_mont_mul b R2 n n0inv;
  t ← bn_mont_mul a_m b_m n n0inv;
  bn_mont_mul t bn_one n n0inv.

Definition bn_rsa_private_crt (inp p q dp dq qinv n : list Z) : option (list Z) :=
  let nlen := len inp in
  if (256 <? nlen) || (128 <? len p) || (128 <? len q) then None
  else
    let bp := load_be p in
    let bq := load_be q in
    let c := load_be inp in
    m1 ← bn_modpow (bn_mod c bp) (load_be dp) bp;
    m2 ← bn_modpow (bn_mod c bq) (load_be dq) bq;
    let diff := if 0 <=? bn_cmp m1 m2 then bn_sub m1 m2 else bn_sub bp (bn_sub m2 m1) in
    h ← bn_mod_mul (load_be qinv) diff bp;
    let w := fold_left (add_limb m2) (seqZ 0 BN_LIMBS) (bn_mul_wide h bq) in
    let w := if 0 <=? bn_wide_cmp_n w (load_be n) then bn_wide_sub_n w (load_be n) else w in
    Some (map (fun i => u8 (Z.shiftr (w.[(nlen - 1 - i) / 4]) ((nlen - 1 - i) mod 4 * 8)))
            (seqZ 0 nlen)).

(** * The number an array of limbs stands for *)
Definition eval (l : list Z) : Z := foldr (fun x v => x + 4294967296 * v) 0 l.
Definition limb (x : Z) : Prop := 0 <= x < 4294967296.
Definition limbs (l : list Z) : Prop := Forall limb l.
Definition base_pow (n : nat) : Z := 4294967296 ^ Z.of_nat n.
Definition bn_ok (a : bn) : Prop := length a = 64%nat /\ limbs a.

Lemma base_pow_0 : base_pow 0 = 1.
Proof. reflexivity. Qed.
Lemma base_pow_S n : base_pow (S n) = 4294967296 * base_pow n.
Proof. unfold base_pow. rewrite Nat2Z.inj_succ, Z.pow_succ_r by lia. done. Qed.
Lemma base_pow_pos n : 0 < base_pow n.
Proof. unfold base_pow. apply Z.pow_pos_nonneg; lia. Qed.
Lemma base_pow_add n m : base_pow (n + m) = base_pow n * base_pow m.
Proof. unfold base_pow. rewrite Nat2Z.inj_add, Z.pow_add_r by lia. done. Qed.

Lemma eval_cons x l : eval (x :: l) = x + 4294967296 * eval l.
Proof. reflexivity. Qed.

Lemma eval_app a b : eval (a ++ b) = eval a + base_pow (length a) * eval b.
Proof.
  induction a as [|x a IH]; [cbn [app length]; rewrite base_pow_0; change (eval []) with 0; lia|].
  cbn [app length]. rewrite !eval_cons, IH, base_pow_S. ring.
Qed.

Lemma eval_bounds l : limbs l -> 0 <= eval l < base_pow (length l).
Proof.
  induction 1 as [|x l Hx _ IH]; [cbn [app length]; rewrite base_pow_0; change (eval []) with 0; lia|]. cbn [length]. rewrite eval_cons, base_pow_S.
  unfold limb in Hx. lia.
Qed.

Lemma limb_u32 x : limb (u32 x).
Proof. apply u32_range. Qed.
#[local] Hint Resolve limb_u32 : bytes.

Lemma u32_split v : 0 <= v -> u32 v + 4294967296 * Z.shiftr v 32 = v.
Proof.
  intros Hv. unfold u32. rewrite Z.shiftr_div_pow2 by lia. change (2 ^ 32) with 4294967296.
  pose proof (Z.div_mod v 4294967296 ltac:(lia)). lia.
Qed.

Lemma shiftr_32_range v b : 0 <= v < 4294967296 * b -> 0 <= Z.shiftr v 32 < b.
Proof.
  intros Hv. rewrite Z.shiftr_div_pow2 by lia. change (2 ^ 32) with 4294967296.
  split; [apply Z.div_pos; lia|apply Z.div_lt_upper_bound; lia].
Qed.

Lemma nthZ_limb l i : limbs l -> limb (l.[i]).
Proof.
  intros Hl. unfold nthZ. rewrite nth_lookup. destruct (l !! Z.to_nat i) as [x|] eqn:E; cbn.
  - by eapply Forall_lookup_1 in E.
  - unfold limb. lia.
Qed.

Lemma limbs_app a b : limbs a -> limbs b -> limbs (a ++ b).
Proof. intros. by apply Forall_app. Qed.

(** ** Rows *)
Lemma mac_row_spec t : forall b ai carry, length t = length b -> limbs t -> limbs b ->
  limb ai -> limb carry ->
  let '(r, c) := mac_row t b ai carry in
  length r = length t /\ limbs r /\ limb c /\
  eval r + base_pow (length t) * c = eval t + ai * eval b + carry.
Proof.
  induction t as [|x t IH]; intros [|y b] ai carry Hl Ht Hb Ha Hc; try done.
  - cbn [mac_row length]. rewrite base_pow_0. change (eval []) with 0. splits; try done; lia.
  - apply Forall_cons_1 in Ht as [Hx Ht]. apply Forall_cons_1 in Hb as [Hy Hb].
    cbn [mac_row]. assert (Hv : 0 <= x + ai * y + carry < 18446744073709551616)
      by (unfold limb in *; nia).
    rewrite u64_small by lia. set (v := x + ai * y + carry) in *.
    pose proof (shiftr_32_range v 4294967296 ltac:(lia)) as Hs.
    specialize (IH b ai (Z.shiftr v 32) ltac:(simpl in Hl; lia) Ht Hb Ha Hs).
    destruct (mac_row t b ai (Z.shiftr v 32)) as [r c]. destruct IH as (I1 & I2 & I3 & I4).
    splits; [simpl; lia| |done|].
    + constructor; [apply limb_u32|done].
    + cbn [length]. rewrite !eval_cons, base_pow_S. pose proof (u32_split v ltac:(lia)). nia.
Qed.

Lemma sub_limb x y b : limb x -> limb y -> 0 <= b <= 1 ->
  let d := u64 (x - y - b) in
  0 <= Z.land (Z.shiftr d 32) 1 <= 1 /\ u32 d = x - y - b + 4294967296 * Z.land (Z.shiftr d 32) 1.
Proof.
  unfold limb. intros Hx Hy Hb. cbv zeta. set (d := u64 (x - y - b)).
  assert (Hl : Z.land (Z.shiftr d 32) 1 = (d / 4294967296) mod 2).
  { change (Z.land (Z.shiftr d 32) 1) with (Z.land (Z.shiftr d 32) (Z.ones 1)).
    rewrite Z.land_ones, Z.shiftr_div_pow2 by lia. done. }
  rewrite Hl. unfold u32.
  destruct (Z.lt_ge_cases (x - y - b) 0).
  - assert (Ed : d = x - y - b + 18446744073709551616).
    { unfold d, u64. symmetry. apply (Z.mod_unique _ _ (-1)); lia. }
    assert (Eq : d / 4294967296 = 4294967295).
    { rewrite Ed. symmetry. apply (Z.div_unique _ _ _ (x - y - b + 4294967296)); lia. }
    rewrite Eq. change (4294967295 mod 2) with 1. split; [lia|].
    symmetry. apply (Z.mod_unique _ _ 4294967295); lia.
  - assert (Ed : d = x - y - b) by (apply u64_small; lia).
    rewrite !Ed, Z.div_small by lia. change (0 mod 2) with 0. rewrite Z.mod_small by lia. lia.
Qed.

Lemma sub_limbs_spec a : forall b borrow, length a = length b -> limbs a -> limbs b ->
  0 <= borrow <= 1 ->
  let '(r, c) := sub_limbs a b borrow in
  length r = length a /\ limbs r /\ 0 <= c <= 1 /\
  eval r = eval a - eval b - borrow + base_pow (length a) * c.
Proof.
  induction a as [|x a IH]; intros [|y b] w Hl Ha Hb Hw; try done.
  - cbn [sub_limbs length]. rewrite base_pow_0. change (eval []) with 0. splits; try lia; done.
  - apply Forall_cons_1 in Ha as [Hx Ha]. apply Forall_cons_1 in Hb as [Hy Hb].
    cbn [sub_limbs]. destruct (sub_limb x y w Hx Hy Hw) as [Hc Hd].
    set (d := u64 (x - y - w)) in *. set (c := Z.land (Z.shiftr d 32) 1) in *.
    specialize (IH b c ltac:(simpl in Hl; lia) Ha Hb Hc).
    destruct (sub_limbs a b c) as [r c']. destruct IH as (I1 & I2 & I3 & I4).
    splits; [simpl; lia| |lia|lia|].
    + constructor; [apply limb_u32|done].
    + cbn [length]. rewrite !eval_cons, base_pow_S, Hd, I4. ring.
Qed.

Lemma bn_sub_spec a b : bn_ok a -> bn_ok b -> eval b <= eval a ->
  bn_ok (bn_sub a b) /\ eval (bn_sub a b) = eval a - eval b.
Proof.
  intros [La Ha] [Lb Hb] Hle. unfold bn_sub.
  pose proof (sub_limbs_spec a b 0 ltac:(lia) Ha Hb ltac:(lia)) as H.
  destruct (sub_limbs a b 0) as [r c]. destruct H as (H1 & H2 & H3 & H4). cbn [fst].
  pose proof (eval_bounds r H2). pose proof (eval_bounds b Hb). pose proof (base_pow_pos (length a)).
  pose proof (eval_bounds a Ha). rewrite H1 in *.
  assert (c = 0 \/ c = 1) as [->| ->] by lia; split; [split; [lia|done]|lia|split; [lia|done]|lia].
Qed.

(** Comparing from the top limb. *)
Lemma cmp_from_spec k : forall a b, (k <= length a)%nat -> (k <= length b)%nat -> limbs a -> limbs b ->
  let x := eval (take k a) in let y := eval (take k b) in
  (cmp_from k a b = 1 /\ y < x) \/ (cmp_from k a b = 0 /\ x = y) \/ (cmp_from k a b = -1 /\ x < y).
Proof.
  induction k as [|k IH]; intros a b La Lb Ha Hb; cbn [cmp_from]; [right; left; done|].
  assert (Hs : forall l, (S k <= length l)%nat -> take (S k) l = take k l ++ [l.[Z.of_nat k]]).
  { intros l Hl. destruct (lookup_lt_is_Some_2 l k ltac:(lia)) as [x Hx].
    rewrite (take_S_r _ _ x Hx). unfold nthZ. rewrite Nat2Z.id, nth_lookup, Hx. done. }
  rewrite !Hs, !eval_app, !length_take, !Nat.min_l by lia.
  specialize (IH a b ltac:(lia) ltac:(lia) Ha Hb).
  pose proof (nthZ_limb a (Z.of_nat k) Ha). pose proof (nthZ_limb b (Z.of_nat k) Hb).
  pose proof (eval_bounds (take k a) (Forall_take _ _ _ Ha)) as Ba.
  pose proof (eval_bounds (take k b) (Forall_take _ _ _ Hb)) as Bb.
  rewrite length_take, Nat.min_l in Ba, Bb by lia. pose proof (base_pow_pos k).
  cbn [eval foldr]. unfold limb in *. fold (eval (take k a)). fold (eval (take k b)).
  destruct (b.[Z.of_nat k] <? a.[Z.of_nat k]) eqn:E1; zbool; [left; split; [done|nia]|].
  destruct (a.[Z.of_nat k] <? b.[Z.of_nat k]) eqn:E2; zbool; [right; right; split; [done|nia]|].
  assert (a.[Z.of_nat k] = b.[Z.of_nat k]) as -> by lia.
  destruct IH as [[-> ?]|[[-> ?]|[-> ?]]]; [left|right; left|right; right]; split; (done || lia).
Qed.

Lemma bn_cmp_spec a b : bn_ok a -> bn_ok b ->
  (0 <=? bn_cmp a b) = (eval b <=? eval a) /\ (bn_cmp a b <? 0) = (eval a <? eval b).
Proof.
  intros [La Ha] [Lb Hb]. pose proof (cmp_from_spec 64 a b ltac:(lia) ltac:(lia) Ha Hb) as H.
  unfold bn_cmp. cbv zeta in H. rewrite !take_ge in H by lia.
  destruct H as [[-> ?]|[[-> ?]|[-> ?]]]; cbn;
    destruct (Z.leb_spec (eval b) (eval a)); destruct (Z.ltb_spec (eval a) (eval b)); split; (done || lia).
Qed.

(** [if (bn_cmp(r, n) >= 0) bn_sub(r, r, n);] *)
Lemma cond_sub_spec r n : bn_ok r -> bn_ok n ->
  let s := if 0 <=? bn_cmp r n then bn_sub r n else r in
  bn_ok s /\ eval s = if eval n <=? eval r then eval r - eval n else eval r.
Proof.
  intros Hr Hn. destruct (bn_cmp_spec r n Hr Hn) as [-> _]. cbv zeta. case_ifZ; [|done].
  apply bn_sub_spec; [done..|lia].
Qed.

(** * Montgomery multiplication *)
Lemma tail2 lo p q : length lo = 64%nat ->
  (lo ++ [p; q]).[64] = p /\ (lo ++ [p; q]).[65] = q /\ take 64 (lo ++ [p; q]) = lo.
Proof.
  intros Hl. unfold nthZ. rewrite !app_nth2 by lia. rewrite Hl. splits; try done.
  apply take_app_length'. lia.
Qed.

Lemma eval_mod_head l : limbs l -> (0 < length l)%nat -> eval l mod 4294967296 = l.[0].
Proof.
  intros Hl Hn. destruct l as [|x l]; [simpl in Hn; lia|]. apply Forall_cons_1 in Hl as [Hx _].
  rewrite eval_cons. change ((x :: l).[0]) with x. rewrite Z.mul_comm, Z.mod_add by lia.
  by apply Z.mod_small.
Qed.

(** The carry words of a row of products. *)
Lemma carry_pair x0 c : limb x0 -> limb c ->
  let x := u64 (x0 + c) in
  limb (u32 x) /\ 0 <= Z.shiftr x 32 <= 1 /\ u32 x + 4294967296 * Z.shiftr x 32 = x0 + c.
Proof.
  unfold limb. intros Hx Hc. cbv zeta. rewrite u64_small by lia.
  pose proof (shiftr_32_range (x0 + c) 2 ltac:(lia)). pose proof (u32_range (x0 + c)).
  pose proof (u32_split (x0 + c) ltac:(lia)). lia.
Qed.

Lemma eval_two p q : eval [p; q] = p + 4294967296 * q.
Proof. cbn. lia. Qed.

Lemma eval_take_S t : length t = 66%nat -> eval (take 65 t) = eval (take 64 t) + base_pow 64 * t.[64].
Proof.
  intros Hl. destruct (lookup_lt_is_Some_2 t 64 ltac:(lia)) as [x Hx].
  rewrite (take_S_r _ 64 x Hx), eval_app, length_take, Nat.min_l by lia.
  unfold nthZ. change (Z.to_nat 64) with 64%nat. rewrite nth_lookup, Hx. cbn. lia.
Qed.

(** The quotient digit clears the low limb. *)
Lemma mont_digit lo0 n n0inv : (n * n0inv + 1) mod 4294967296 = 0 ->
  (lo0 + u32 (lo0 * n0inv) * n) mod 4294967296 = 0.
Proof.
  intros Hn. apply Z.mod_divide in Hn as [q Hq]; [|lia]. apply Z.mod_divide; [lia|].
  unfold u32. pose proof (Z.div_mod (lo0 * n0inv) 4294967296 ltac:(lia)) as Hd.
  exists (lo0 * q - (lo0 * n0inv) / 4294967296 * n). nia.
Qed.

Lemma drop_carry_0 k t n : drop_carry k t n 0 = Some t.
Proof. by destruct k. Qed.
Lemma drop_carry_1 k t n :
  drop_carry (S k) t n 1 = let '(r, c) := sub_limbs t n 0 in drop_carry k r n (u64 (1 - c)).
Proof. reflexivity. Qed.

Section Montgomery.
Context (b n : bn) (n0inv : Z).
Hypothesis Hb : bn_ok b.
Hypothesis Hn : bn_ok n.
Hypothesis Hinv : (eval n * n0inv + 1) mod 4294967296 = 0.

Definition mont_inv (t : list Z) : Prop :=
  length t = 66%nat /\ limbs t /\ eval (take 65 t) < eval n + eval b.

Lemma mont_round_spec t ai : 0 < eval n -> limb ai -> mont_inv t ->
  mont_inv (mont_round b n n0inv t ai) /\
  exists m, 4294967296 * eval (take 65 (mont_round b n n0inv t ai))
            = eval (take 65 t) + ai * eval b + m * eval n.
Proof.
  intros Hn0 Ha (Lt & Ht & Hlt). destruct Hb as [Lb Hbl]. destruct Hn as [Ln Hnl].
  unfold mont_round. change BN_LIMBS with 64. change (64 + 1) with 65.
  pose proof (mac_row_spec (take 64 t) b ai 0) as H1. rewrite length_take, Nat.min_l in H1 by lia.
  specialize (H1 ltac:(lia) (Forall_take _ _ _ Ht) Hbl Ha ltac:(unfold limb; lia)).
  destruct (mac_row (take 64 t) b ai 0) as [lo carry]. destruct H1 as (L1 & B1 & C1 & V1).
  destruct (carry_pair (t.[64]) carry (nthZ_limb t 64 Ht) C1) as (X0 & X1 & X).
  cbv zeta in X0, X1, X. set (x := u64 (t.[64] + carry)) in *.
  destruct (tail2 lo (u32 x) (Z.shiftr x 32) L1) as (T64 & T65 & Tk).
  assert (T0 : (lo ++ [u32 x; Z.shiftr x 32]).[0] = lo.[0]) by (destruct lo; done).
  rewrite T0, T64, T65, Tk. set (m := u32 (lo.[0] * n0inv)).
  pose proof (mac_row_spec lo n m 0 ltac:(lia) B1 Hnl (limb_u32 _) ltac:(unfold limb; lia)) as H2.
  destruct (mac_row lo n m 0) as [lo2 c2]. rewrite L1 in H2. destruct H2 as (L2 & B2 & C2 & V2).
  destruct (carry_pair (u32 x) c2 X0 C2) as (Z0 & Z1 & ZZ). cbv zeta in Z0, Z1, ZZ.
  set (z := u64 (u32 x + c2)) in *.
  rewrite (u32_small (Z.shiftr z 32)), (u32_small (Z.shiftr x 32 + Z.shiftr z 32)) by lia.
  set (q := Z.shiftr x 32 + Z.shiftr z 32) in *.
  destruct (tail2 lo2 (u32 z) q L2) as (_ & U65 & _). rewrite U65.
  assert (L3 : length (lo2 ++ [u32 z; q]) = 66%nat) by (rewrite length_app; simpl; lia).
  assert (B3 : limbs (lo2 ++ [u32 z; q])).
  { apply limbs_app; [done|]. apply Forall_cons_2; [done|]. apply Forall_cons_2; [unfold limb, q; lia|].
    apply Forall_nil_2. }
  assert (S2 : eval (lo2 ++ [u32 z; q]) = eval (take 65 t) + ai * eval b + m * eval n).
  { rewrite eval_app, eval_two, L2, (eval_take_S t Lt). unfold q. nia. }
  assert (Hm : eval (lo2 ++ [u32 z; q]) mod 4294967296 = 0).
  { rewrite S2, (eval_take_S t Lt).
    replace (eval (take 64 t) + base_pow 64 * t.[64] + ai * eval b + m * eval n)
      with ((eval lo + m * eval n) + base_pow 63 * (carry + t.[64]) * 4294967296)
      by (rewrite (base_pow_S 63) in *; nia).
    rewrite Z.mod_add by lia. rewrite Z.add_mod, (eval_mod_head lo B1) by lia.
    rewrite <- (Z.mod_small (lo.[0]) 4294967296) by (apply (nthZ_limb lo 0 B1)).
    rewrite <- Z.add_mod by lia. by apply mont_digit. }
  rewrite eval_mod_head in Hm by (done || lia).
  destruct (lo2 ++ [u32 z; q]) as [|h t2] eqn:Et; [done|]. change ((h :: t2).[0]) with h in Hm. subst h.
  apply Forall_cons_1 in B3 as [_ B3]. simpl in L3.
  change (drop 1 (0 :: t2)) with (drop 0 t2). rewrite drop_0.
  assert (Tt : take 65 (t2 ++ [q]) = t2) by (apply take_app_length'; lia).
  rewrite eval_cons in S2. unfold mont_inv. rewrite Tt. splits.
  - rewrite length_app. simpl. lia.
  - apply limbs_app; [done|]. apply Forall_cons_2; [unfold limb, q; lia|apply Forall_nil_2].
  - pose proof (u32_range (lo.[0] * n0inv)). fold m in H. pose proof (eval_bounds b Hbl).
    unfold limb in Ha. nia.
  - exists m. lia.
Qed.

Lemma mont_fold_spec al : forall t, 0 < eval n -> limbs al -> mont_inv t ->
  let t' := fold_left (mont_round b n n0inv) al t in
  mont_inv t' /\ exists m, base_pow (length al) * eval (take 65 t')
    = eval (take 65 t) + eval al * eval b + m * eval n.
Proof.
  induction al as [|ai al IH]; intros t Hn0 Hal Hti; cbn [fold_left length].
  - split; [done|]. exists 0. rewrite base_pow_0. change (eval []) with 0. lia.
  - apply Forall_cons_1 in Hal as [Ha Hal].
    destruct (mont_round_spec t ai Hn0 Ha Hti) as (Hr & m1 & E1).
    destruct (IH _ Hn0 Hal Hr) as (Hr' & m2 & E2). split; [exact Hr'|].
    exists (m1 + 4294967296 * m2). rewrite base_pow_S, eval_cons.
    rewrite <- Z.mul_assoc, E2. rewrite !Z.mul_add_distr_l, E1. ring.
Qed.

(** The product is reduced, and [R] times it is the product of the operands
    modulo [n]; the carry word is cleared by at most one subtraction. *)
Lemma bn_mont_mul_spec a : bn_ok a -> eval b < eval n ->
  exists r m, bn_mont_mul a b n n0inv = Some r /\ bn_ok r /\ eval r < eval n /\
    base_pow 64 * eval r = eval a * eval b + m * eval n.
Proof.
  intros [La Ha] Hlt. pose proof (eval_bounds b (proj2 Hb)). pose proof Hn as [Ln Hnl].
  pose proof (eval_bounds n Hnl) as Bn. rewrite Ln in Bn.
  assert (H0 : mont_inv (replicate 66 0)).
  { split; [done|]. split; [apply Forall_replicate; unfold limb; lia|].
    change (eval (take 65 (replicate 66 0))) with 0. lia. }
  destruct (mont_fold_spec a _ ltac:(lia) Ha H0) as ((Lt & Ht & Hb2) & m & E). cbv zeta in E.
  change (eval (take 65 (replicate 66 0))) with 0 in E. rewrite La in E.
  unfold bn_mont_mul. change BN_LIMBS with 64.
  set (t := fold_left (mont_round b n n0inv) a (replicate 66 0)) in *. clearbody t.
  rewrite (eval_take_S t Lt) in *.
  assert (Htk : bn_ok (take 64 t)).
  { split; [rewrite length_take; lia|by apply Forall_take]. }
  pose proof (eval_bounds _ (proj2 Htk)) as Bt. rewrite (proj1 Htk) in Bt.
  pose proof (nthZ_limb t 64 Ht) as Hv. unfold limb in Hv. pose proof (base_pow_pos 64).
  assert (Hfin : forall r k, bn_ok r -> eval r = eval (take 64 t) + base_pow 64 * t.[64] - k * eval n ->
    eval r < 2 * eval n ->
    exists r' m', Some (if 0 <=? bn_cmp r n then bn_sub r n else r) = Some r' /\ bn_ok r' /\
      eval r' < eval n /\ base_pow 64 * eval r' = eval a * eval b + m' * eval n).
  { intros r k Hr Er Hr2. destruct (cond_sub_spec r n Hr Hn) as [Hs Es].
    exists (if 0 <=? bn_cmp r n then bn_sub r n else r).
    exists (m - base_pow 64 * (k + if eval n <=? eval r then 1 else 0)).
    split; [done|]. split; [exact Hs|]. rewrite Es. case_ifZ; (split; [lia|rewrite Er; lia]). }
  assert (t.[64] = 0 \/ t.[64] = 1) as [E0|E0] by nia; rewrite E0 in *.
  - rewrite drop_carry_0. cbn [mbind option_bind]. apply (Hfin _ 0); [done|lia|lia].
  - rewrite drop_carry_1.
    pose proof (sub_limbs_spec (take 64 t) n 0 ltac:(rewrite (proj1 Htk); lia) (proj2 Htk) Hnl ltac:(lia)) as Hs.
    destruct (sub_limbs (take 64 t) n 0) as [r c]. rewrite (proj1 Htk) in Hs.
    destruct Hs as (L1 & B1 & C1 & V1). pose proof (eval_bounds r B1) as Br. rewrite L1 in Br.
    assert (c = 1) as -> by nia. change (u64 (1 - 1)) with 0.
    rewrite drop_carry_0. cbn [mbind option_bind]. apply (Hfin _ 1); [split; [lia|done]|lia|lia].
Qed.
End Montgomery.

(** * The Montgomery constants *)
Lemma newton_step n x k : (n * x - 1) mod 2 ^ k = 0 -> 0 <= k -> 2 * k <= 32 ->
  (n * u32 (x * u32 (2 - u32 (n * x))) - 1) mod 2 ^ (2 * k) = 0.
Proof.
  intros Hx Hk H32. pose proof (Z.pow_pos_nonneg 2 k ltac:(lia) Hk) as Hp.
  apply Z.mod_divide in Hx as [q Hq]; [|lia].
  assert (Hd : (2 ^ (2 * k) | 4294967296)).
  { change 4294967296 with (2 ^ 32). exists (2 ^ (32 - 2 * k)). rewrite <- Z.pow_add_r by lia. f_equal. lia. }
  destruct Hd as [w Hw]. unfold u32.
  set (a := n * x) in *. set (b := 2 - a mod 4294967296).
  rewrite (Z.mod_eq (x * (b mod 4294967296))), (Z.mod_eq b) by lia.
  unfold b. rewrite (Z.mod_eq a) by lia.
  set (c1 := a / 4294967296). set (c2 := (2 - (a - 4294967296 * c1)) / 4294967296).
  set (c3 := _ / _) at 1. clearbody c1 c2 c3.
  apply Z.mod_divide; [lia|]. rewrite Hw.
  exists (- q * q + w * (a * (c1 - c2) - n * c3)).
  replace (2 ^ (2 * k)) with (2 ^ k * 2 ^ k) in * by (rewrite <- Z.pow_add_r by lia; f_equal; lia).
  replace (n * (x * (2 - (a - w * (2 ^ k * 2 ^ k) * c1) - w * (2 ^ k * 2 ^ k) * c2) - w * (2 ^ k * 2 ^ k) * c3) - 1)
    with (a * (2 - (a - w * (2 ^ k * 2 ^ k) * c1) - w * (2 ^ k * 2 ^ k) * c2) - n * (w * (2 ^ k * 2 ^ k) * c3) - 1)
    by (unfold a; ring).
  replace a with (q * 2 ^ k + 1) at 1 2 by lia. replace a with (q * 2 ^ k + 1) by lia. ring.
Qed.

Lemma bn_n0inv_spec n : bn_ok n -> Z.odd (eval n) = true ->
  (eval n * bn_n0inv n + 1) mod 4294967296 = 0.
Proof.
  intros [Ln Hn] Hodd. unfold bn_n0inv.
  assert (Hn0 : n.[0] = eval n mod 4294967296) by (rewrite eval_mod_head; [done|done|lia]).
  set (n0 := n.[0]) in *.
  assert (Ho : (n0 * 1 - 1) mod 2 ^ 1 = 0).
  { rewrite Hn0, Z.mul_1_r. apply Z.mod_divide; [lia|].
    apply Z.odd_spec in Hodd as [k Hk]. rewrite Z.mod_eq by lia.
    exists (k - 2147483648 * (eval n / 4294967296)). change (2 ^ 1) with 2. lia. }
  set (f := fun x => u32 (x * u32 (2 - u32 (n0 * x)))).
  pose proof (newton_step n0 1 1 Ho ltac:(lia) ltac:(lia)) as H1.
  pose proof (newton_step n0 _ 2 H1 ltac:(lia) ltac:(lia)) as H2.
  pose proof (newton_step n0 _ 4 H2 ltac:(lia) ltac:(lia)) as H3.
  pose proof (newton_step n0 _ 8 H3 ltac:(lia) ltac:(lia)) as H4.
  pose proof (newton_step n0 _ 16 H4 ltac:(lia) ltac:(lia)) as H5.
  change (2 ^ (2 * 16)) with 4294967296 in H5.
  change (Nat.iter 5 f 1) with (f (f (f (f (f 1))))). unfold f.
  set (x := u32 (_ * _)) in H5. fold x. clearbody x.
  apply Z.mod_divide in H5 as [q Hq]; [|lia]. apply Z.mod_divide; [lia|].
  unfold u32. rewrite (Z.mod_eq (- x)) by lia.
  exists (- q - (eval n) * (- x / 4294967296) - (eval n / 4294967296) * x).
  pose proof (Z.div_mod (eval n) 4294967296 ltac:(lia)) as Hd. rewrite <- Hn0 in Hd.
  set (e := eval n / 4294967296) in *. set (y := - x / 4294967296) in *. clearbody e y. nia.
Qed.

Lemma lor_double x c : 0 <= x -> 0 <= c <= 1 -> Z.lor (2 * x) c = 2 * x + c.
Proof.
  intros Hx Hc. assert (c = 0 \/ c = 1) as [->| ->] by lia; [rewrite Z.lor_0_r; lia|].
  destruct x; [done|reflexivity|lia].
Qed.

Lemma dbl_limbs_spec a : forall carry, limbs a -> 0 <= carry <= 1 ->
  let '(r, c) := dbl_limbs a carry in
  length r = length a /\ limbs r /\ 0 <= c <= 1 /\
  eval r + base_pow (length a) * c = 2 * eval a + carry.
Proof.
  induction a as [|x a IH]; intros carry Ha Hc; cbn [dbl_limbs length].
  - rewrite base_pow_0. change (eval []) with 0. splits; try done; lia.
  - apply Forall_cons_1 in Ha as [Hx Ha]. unfold limb in Hx.
    rewrite Z.shiftl_mul_pow2 by lia. change (2 ^ 1) with 2. rewrite (Z.mul_comm x 2).
    rewrite u64_small, lor_double by lia.
    pose proof (shiftr_32_range (2 * x + carry) 2 ltac:(lia)) as Hs.
    specialize (IH (Z.shiftr (2 * x + carry) 32) Ha ltac:(lia)).
    destruct (dbl_limbs a _) as [r c]. destruct IH as (I1 & I2 & I3 & I4).
    splits; [simpl; lia| |lia|lia|].
    + constructor; [apply limb_u32|done].
    + cbn [length]. rewrite !eval_cons, base_pow_S. pose proof (u32_split (2 * x + carry) ltac:(lia)). nia.
Qed.

Lemma bn_dbl_mod_spec a n : bn_ok a -> bn_ok n -> eval a < eval n ->
  bn_ok (bn_dbl_mod a n) /\ eval (bn_dbl_mod a n) = (2 * eval a) mod eval n.
Proof.
  intros [La Ha] Hn Hlt. unfold bn_dbl_mod.
  pose proof (dbl_limbs_spec a 0 Ha ltac:(lia)) as H. destruct (dbl_limbs a 0) as [r c].
  rewrite La in H. destruct H as (L1 & B1 & C1 & V1).
  assert (Hr : bn_ok r) by (split; [lia|done]).
  pose proof (eval_bounds a Ha). pose proof (eval_bounds r B1) as Br. rewrite L1 in Br.
  pose proof (eval_bounds n (proj2 Hn)) as Bn. rewrite (proj1 Hn) in Bn. pose proof (base_pow_pos 64).
  destruct (bn_cmp_spec r n Hr Hn) as [-> _].
  destruct (Z.eqb_spec c 0) as [->|]; cbn [negb orb].
  - case_ifZ.
    + destruct (bn_sub_spec r n Hr Hn ltac:(lia)) as [Hs ->]. split; [done|].
      apply (Z.mod_unique _ _ 1); lia.
    + split; [done|]. rewrite Z.mod_small; lia.
  - assert (c = 1) as -> by lia. unfold bn_sub.
    pose proof (sub_limbs_spec r n 0 ltac:(rewrite (proj1 Hn); lia) B1 (proj2 Hn) ltac:(lia)) as Hs.
    destruct (sub_limbs r n 0) as [s d]. rewrite L1 in Hs. destruct Hs as (L2 & B2 & C2 & V2).
    pose proof (eval_bounds s B2) as Bs. rewrite L2 in Bs. cbn [fst].
    split; [split; [lia|done]|]. assert (d = 1) as -> by nia. apply (Z.mod_unique _ _ 1); lia.
Qed.

Lemma bn_dbl_iter n k : forall a, bn_ok a -> bn_ok n -> 0 <= eval a < eval n ->
  let r := Nat.iter k (fun r => bn_dbl_mod r n) a in
  bn_ok r /\ eval r = (2 ^ Z.of_nat k * eval a) mod eval n.
Proof.
  induction k as [|k IH]; intros a Ha Hn Hlt; cbv zeta; [change (Nat.iter 0 _ a) with a|change (Nat.iter (S k) ?f a) with (f (Nat.iter k f a)); cbv beta].
  - split; [done|]. change (2 ^ Z.of_nat 0) with 1. rewrite Z.mod_small; lia.
  - destruct (IH a Ha Hn Hlt) as [Hr Er]. cbv zeta in *.
    set (r := Nat.iter k _ a) in *. pose proof (Z.mod_pos_bound (2 ^ Z.of_nat k * eval a) (eval n) ltac:(lia)).
    destruct (bn_dbl_mod_spec r n Hr Hn ltac:(lia)) as [Hs ->]. split; [done|].
    rewrite Er, Z.mul_mod_idemp_r by lia. f_equal. rewrite Nat2Z.inj_succ, Z.pow_succ_r by lia. lia.
Qed.

Lemma bn_one_ok : bn_ok bn_one /\ eval bn_one = 1.
Proof.
  split; [|reflexivity]. split; [reflexivity|]. apply Forall_insert; [|unfold limb; lia].
  apply Forall_replicate. unfold limb. lia.
Qed.

Lemma base_pow_64 : base_pow 64 = 2 ^ Z.of_nat 2048.
Proof. vm_compute. reflexivity. Qed.

Lemma bn_mont_consts_spec n : bn_ok n -> 1 < eval n ->
  let '(R, R2) := bn_mont_consts n in
  bn_ok R /\ eval R = base_pow 64 mod eval n /\
  bn_ok R2 /\ eval R2 = (base_pow 64 * base_pow 64) mod eval n.
Proof.
  intros Hn H1. unfold bn_mont_consts. destruct bn_one_ok as [Ho Eo].
  destruct (bn_dbl_iter n 2048 bn_one Ho Hn ltac:(lia)) as [HR ER]. cbv zeta in HR, ER.
  set (R := Nat.iter 2048 _ bn_one) in *. rewrite Eo, Z.mul_1_r, <- base_pow_64 in ER.
  pose proof (Z.mod_pos_bound (base_pow 64) (eval n) ltac:(lia)) as Hb.
  destruct (bn_dbl_iter n 2048 R HR Hn ltac:(lia)) as [H2 E2]. cbv zeta in H2, E2.
  rewrite ER, <- base_pow_64, Z.mul_mod_idemp_r in E2 by lia. done.
Qed.

(** * Modular exponentiation *)
(** Congruence, as a setoid. *)
Definition cong (n a b : Z) : Prop := (n | a - b).

#[export] Instance cong_equiv n : Equivalence (cong n).
Proof.
  unfold cong. split.
  - intros x. rewrite Z.sub_diag. apply Z.divide_0_r.
  - intros x y H. replace (y - x) with (- (x - y)) by lia. by apply Z.divide_opp_r.
  - intros x y z H H'. replace (x - z) with ((x - y) + (y - z)) by lia. by apply Z.divide_add_r.
Qed.

#[export] Instance cong_add n : Proper (cong n ==> cong n ==> cong n) Z.add.
Proof.
  intros a b H c d H'. unfold cong in *. replace (a + c - (b + d)) with ((a - b) + (c - d)) by lia.
  by apply Z.divide_add_r.
Qed.

#[export] Instance cong_mul n : Proper (cong n ==> cong n ==> cong n) Z.mul.
Proof.
  intros a b H c d H'. unfold cong in *.
  replace (a * c - b * d) with ((a - b) * c + b * (c - d)) by ring.
  apply Z.divide_add_r; [by apply Z.divide_mul_l|by apply Z.divide_mul_r].
Qed.

Lemma cong_multiple n a b m : a = b + m * n -> cong n a b.
Proof. intros ->. exists m. lia. Qed.

Lemma cong_mod_eq n a b : n <> 0 -> cong n a b -> a mod n = b mod n.
Proof.
  intros Hn [k Hk]. replace a with (b + k * n) by lia. by rewrite Z.mod_add.
Qed.

Lemma cong_of_mod n a : n <> 0 -> cong n (a mod n) a.
Proof. intros Hn. apply (cong_multiple _ _ _ (- (a / n))). rewrite Z.mod_eq by done. lia. Qed.

Lemma cong_pow n a b (k : nat) : cong n a b -> cong n (a ^ Z.of_nat k) (b ^ Z.of_nat k).
Proof.
  intros H. induction k as [|k IH]; [done|].
  rewrite Nat2Z.inj_succ, !Z.pow_succ_r by lia. rewrite IH, H. reflexivity.
Qed.

(** [R] is invertible modulo an odd number. *)
Lemma odd_inverse n : Z.odd n = true -> exists v, cong n (base_pow 64 * v) 1.
Proof.
  intros Hodd. apply Z.odd_spec in Hodd as [k Hk].
  exists ((k + 1) ^ Z.of_nat 2048). rewrite base_pow_64, <- Z.pow_mul_l.
  rewrite <- (Z.pow_1_l (Z.of_nat 2048)) by lia. apply cong_pow.
  apply (cong_multiple _ _ _ 1). lia.
Qed.

Section Modpow.
Context (n : bn) (v : Z).
Hypothesis Hn : bn_ok n.
Hypothesis H1 : 1 < eval n.
Hypothesis Hodd : Z.odd (eval n) = true.
Hypothesis Hv : cong (eval n) (base_pow 64 * v) 1.

Definition reduced (a : bn) : Prop := bn_ok a /\ eval a < eval n.

Lemma mont_mod a b : bn_ok a -> reduced b ->
  exists r, bn_mont_mul a b n (bn_n0inv n) = Some r /\ reduced r /\
    cong (eval n) (eval r) (eval a * eval b * v).
Proof.
  intros Ha [Hb Hlt].
  destruct (bn_mont_mul_spec b n (bn_n0inv n) Hb Hn (bn_n0inv_spec n Hn Hodd) a Ha Hlt)
    as (r & m & E & Hr & Hr2 & Er).
  exists r. split; [done|]. split; [done|].
  assert (He : cong (eval n) (base_pow 64 * eval r) (eval a * eval b))
    by (apply (cong_multiple _ _ _ m); lia).
  assert (Hr1 : cong (eval n) (base_pow 64 * v * eval r) (eval r)).
  { rewrite Hv. by rewrite Z.mul_1_l. }
  rewrite <- Hr1. replace (base_pow 64 * v * eval r) with (base_pow 64 * eval r * v) by ring.
  by rewrite He.
Qed.

Lemma reduced_eq a x : reduced a -> cong (eval n) (eval a) x -> eval a = x mod eval n.
Proof.
  intros [Ha Hlt] He. rewrite <- (cong_mod_eq (eval n) _ _ ltac:(lia) He). rewrite Z.mod_small; [done|].
  pose proof (eval_bounds a (proj2 Ha)). lia.
Qed.

Definition bits_value (l : list bool) (x : Z) : Z :=
  fold_left (fun x (b : bool) => 2 * x + if b then 1 else 0) l x.

(** The accumulator holds [base^x * R]; nothing is started while [x] is 0. *)
Lemma modpow_fold base_m base l : forall acc x started, reduced acc -> reduced base_m ->
  cong (eval n) (eval base_m) (base * base_pow 64) -> 0 <= x ->
  cong (eval n) (eval acc) (base ^ x * base_pow 64) -> (started = false -> x = 0) ->
  exists s acc', fold_left (modpow_bit n (bn_n0inv n) base_m) l (Some (started, acc)) = Some (s, acc') /\
    reduced acc' /\ 0 <= bits_value l x /\
    cong (eval n) (eval acc') (base ^ bits_value l x * base_pow 64).
Proof.
  induction l as [|b l IH]; intros acc x started Hacc Hbm Ebm Hx Eacc Hs; cbn [fold_left bits_value].
  - exists started, acc. done.
  - unfold bits_value in *. cbn [fold_left]. unfold modpow_bit at 2. cbn [mbind option_bind].
    destruct started.
    + destruct (mont_mod acc acc (proj1 Hacc) Hacc) as (sq & -> & Hsq & Esq). cbn [mbind option_bind].
      assert (Esq2 : cong (eval n) (eval sq) (base ^ (2 * x) * base_pow 64)).
      { rewrite Esq, Eacc. replace (2 * x) with (x + x) by lia. rewrite Z.pow_add_r by lia.
        replace (base ^ x * base_pow 64 * (base ^ x * base_pow 64) * v)
          with (base ^ x * base ^ x * base_pow 64 * (base_pow 64 * v)) by ring.
        rewrite Hv. by rewrite Z.mul_1_r. }
      destruct b.
      * destruct (mont_mod sq base_m (proj1 Hsq) Hbm) as (m2 & -> & Hm2 & Em2). cbn [mbind option_bind].
        apply IH; [done|done|done|lia| |done].
        rewrite Em2, Esq2, Ebm, Z.pow_add_r, Z.pow_1_r by lia.
        replace (base ^ (2 * x) * base_pow 64 * (base * base_pow 64) * v)
          with (base ^ (2 * x) * base * base_pow 64 * (base_pow 64 * v)) by ring.
        rewrite Hv. by rewrite Z.mul_1_r.
      * rewrite Z.add_0_r. apply IH; [done|done|done|lia|done|done].
    + rewrite (Hs eq_refl) in *. destruct b.
      * apply IH; [done|done|done|lia| |done]. by rewrite Z.pow_1_r.
      * apply IH; [done|done|done|lia|done|done].
Qed.
End Modpow.

Lemma low_bit w b : 0 <= b -> negb (Z.land (Z.shiftr w b) 1 =? 0) = Z.testbit w b.
Proof.
  intros Hb. change (Z.land (Z.shiftr w b) 1) with (Z.land (Z.shiftr w b) (Z.ones 1)).
  rewrite Z.land_ones by lia. change (2 ^ 1) with 2. rewrite Zmod_odd, <- Z.bit0_odd, Z.shiftr_spec by lia.
  replace (0 + b) with b by lia. by destruct (Z.testbit w b).
Qed.

Lemma bits_value_app l1 l2 x : bits_value (l1 ++ l2) x = bits_value l2 (bits_value l1 x).
Proof. apply fold_left_app. Qed.

Lemma rev_seqZ_S k : rev (seqZ 0 (Z.of_nat (S k))) = Z.of_nat k :: rev (seqZ 0 (Z.of_nat k)).
Proof.
  rewrite seqZ_S, rev_app_distr. replace (0 + Z.of_nat k) with (Z.of_nat k) by lia.
  done.
Qed.

Lemma mod_pow2_S w k : 0 <= k -> w mod 2 ^ (k + 1) = 2 ^ k * (if Z.testbit w k then 1 else 0) + w mod 2 ^ k.
Proof.
  intros Hk. rewrite Z.pow_add_r, Z.rem_mul_r by lia. rewrite Z.testbit_eqb by lia.
  change (2 ^ 1) with 2. pose proof (Z.mod_pos_bound (w / 2 ^ k) 2 ltac:(lia)).
  case_ifZ; [lia|]. assert ((w / 2 ^ k) mod 2 = 0) by lia. lia.
Qed.

Lemma limb_bits w k : forall x,
  bits_value (map (fun b => negb (Z.land (Z.shiftr w b) 1 =? 0)) (rev (seqZ 0 (Z.of_nat k)))) x
  = 2 ^ Z.of_nat k * x + w mod 2 ^ Z.of_nat k.
Proof.
  induction k as [|k IH]; intros x.
  - change (2 ^ Z.of_nat 0) with 1. rewrite Z.mod_1_r. change (seqZ 0 (Z.of_nat 0)) with (@nil Z).
    unfold bits_value. cbn [rev map fold_left]. lia.
  - rewrite rev_seqZ_S. cbn [map]. unfold bits_value in *. cbn [fold_left]. rewrite IH.
    rewrite low_bit by lia. replace (Z.of_nat (S k)) with (Z.of_nat k + 1) by lia.
    rewrite (mod_pow2_S w), Z.pow_add_r by lia. change (2 ^ 1) with 2. lia.
Qed.

Lemma exp_bits_value e : bn_ok e -> bits_value (exp_bits e) 0 = eval e.
Proof.
  intros [Le He]. unfold exp_bits. change BN_LIMBS with (Z.of_nat 64).
  assert (H : forall m x, (m <= 64)%nat ->
    bits_value (flat_map (fun i => map (fun b => negb (Z.land (Z.shiftr (e.[i]) b) 1 =? 0)) (rev (seqZ 0 32)))
      (rev (seqZ 0 (Z.of_nat m)))) x = base_pow m * x + eval (take m e)).
  { induction m as [|m IH]; intros x Hm.
    - rewrite base_pow_0. change (eval (take 0 e)) with 0. change (seqZ 0 (Z.of_nat 0)) with (@nil Z).
      unfold bits_value. cbn [rev flat_map fold_left]. lia.
    - rewrite rev_seqZ_S. cbn [flat_map]. rewrite bits_value_app. change 32 with (Z.of_nat 32).
      rewrite limb_bits, IH by lia. change (2 ^ Z.of_nat 32) with 4294967296.
      destruct (lookup_lt_is_Some_2 e m ltac:(lia)) as [y Hy].
      rewrite (take_S_r _ _ y Hy), eval_app, length_take, Nat.min_l by lia.
      assert (Ey : e.[Z.of_nat m] = y) by (unfold nthZ; rewrite Nat2Z.id, nth_lookup, Hy; done).
      pose proof (nthZ_limb e (Z.of_nat m) He) as Hl. rewrite Ey in *. unfold limb in Hl.
      rewrite (Z.mod_small y) by lia. rewrite base_pow_S. change (eval [y]) with (y + 4294967296 * 0). ring. }
  rewrite (H 64%nat) by lia. rewrite take_ge by lia. lia.
Qed.

(** Exponentiation returns the reduced power, for an odd modulus above 1. *)
Lemma bn_modpow_eval base exp n : bn_ok base -> bn_ok exp -> bn_ok n ->
  1 < eval n -> Z.odd (eval n) = true ->
  exists r, bn_modpow base exp n = Some r /\ bn_ok r /\ eval r = (eval base ^ eval exp) mod eval n.
Proof.
  intros Hb He Hn H1 Hodd. destruct (odd_inverse (eval n) Hodd) as [v Hv].
  unfold bn_modpow. pose proof (bn_mont_consts_spec n Hn H1) as Hc.
  destruct (bn_mont_consts n) as [R R2]. destruct Hc as (HR & ER & HR2 & ER2).
  assert (Hmod : forall x, 0 <= x mod eval n < eval n) by (intros; apply Z.mod_pos_bound; lia).
  assert (HRr : reduced n R) by (split; [done|rewrite ER; apply Hmod]).
  assert (HR2r : reduced n R2) by (split; [done|rewrite ER2; apply Hmod]).
  assert (CR : cong (eval n) (eval R) (base_pow 64)) by (rewrite ER; apply cong_of_mod; lia).
  assert (CR2 : cong (eval n) (eval R2) (base_pow 64 * base_pow 64)) by (rewrite ER2; apply cong_of_mod; lia).
  destruct (mont_mod n v Hn Hodd Hv base R2 Hb HR2r) as (bm & -> & Hbm & Ebm). cbn [mbind option_bind].
  destruct (mont_mod n v Hn Hodd Hv R R HR HRr) as (a0 & -> & Ha0 & Ea0). cbn [mbind option_bind].
  assert (Eb : cong (eval n) (eval bm) (eval base * base_pow 64)).
  { rewrite Ebm, CR2. replace (eval base * (base_pow 64 * base_pow 64) * v)
      with (eval base * base_pow 64 * (base_pow 64 * v)) by ring. rewrite Hv. by rewrite Z.mul_1_r. }
  assert (Ea : cong (eval n) (eval a0) (eval base ^ 0 * base_pow 64)).
  { rewrite Ea0, CR, Z.pow_0_r, Z.mul_1_l.
    replace (base_pow 64 * base_pow 64 * v) with (base_pow 64 * (base_pow 64 * v)) by ring.
    rewrite Hv. by rewrite Z.mul_1_r. }
  destruct (modpow_fold n v Hn Hodd Hv bm (eval base) (exp_bits exp) a0 0 false Ha0 Hbm Eb ltac:(lia) Ea
    ltac:(done)) as (s & acc & -> & Hacc & _ & Eacc). cbn [mbind option_bind].
  rewrite (exp_bits_value exp He) in Eacc. destruct bn_one_ok as [Ho Eo].
  destruct (mont_mod n v Hn Hodd Hv acc bn_one (proj1 Hacc)) as (r & -> & Hr & Er).
  { split; [done|lia]. }
  exists r. split; [done|]. split; [apply Hr|]. apply (reduced_eq n H1); [done|].
  rewrite Er, Eo, Eacc, Z.mul_1_r.
  replace (eval base ^ eval exp * base_pow 64 * v) with (eval base ^ eval exp * (base_pow 64 * v)) by ring.
  rewrite Hv. by rewrite Z.mul_1_r.
Qed.

(** * Byte strings *)
Definition be_value (l : list Z) : Z := fold_left (fun v b => 256 * v + b) l 0.
(** The [n] bytes of a number, most significant first. *)
Definition be_bytes (n : Z) (v : Z) : list Z := map (fun i => (v / 256 ^ (n - 1 - i)) mod 256) (seqZ 0 n).

Lemma lor_disjoint a c m : 0 <= m -> (2 ^ m | a) -> 0 <= c < 2 ^ m -> Z.lor a c = a + c.
Proof.
  intros Hm [q Hq] Hc.
  assert (Hl : Z.land a c = 0).
  { apply Z.bits_inj'. intros i Hi. rewrite Z.land_spec, Z.bits_0, Hq.
    destruct (Z.lt_ge_cases i m).
    - by rewrite Z.mul_pow2_bits_low by lia.
    - rewrite (testbit_small c m) by lia. apply andb_false_r. }
  by rewrite Z.add_nocarry_lxor, Z.lxor_lor.
Qed.

Lemma eval_split d j : 0 <= j < len d ->
  eval d = eval (take (Z.to_nat j) d)
    + base_pow (Z.to_nat j) * (d.[j] + 4294967296 * eval (drop (S (Z.to_nat j)) d)).
Proof.
  intros Hj. unfold len in Hj. destruct (lookup_lt_is_Some_2 d (Z.to_nat j) ltac:(lia)) as [x Hx].
  rewrite <- (take_drop_middle d _ x Hx) at 1. rewrite eval_app, eval_cons, length_take, Nat.min_l by lia.
  unfold nthZ. by rewrite nth_lookup, Hx.
Qed.

Lemma eval_updZ d j x : 0 <= j < len d ->
  eval (d.[j <- x]) = eval d + base_pow (Z.to_nat j) * (x - d.[j]).
Proof.
  intros Hj. pose proof Hj as Hj'. unfold len in Hj'. rewrite (eval_split d j Hj).
  rewrite (eval_split (d.[j <- x]) j) by (rewrite len_updZ; lia).
  rewrite nthZ_updZ_eq by done. unfold updZ. rewrite take_insert_ge, drop_insert_lt by lia. ring.
Qed.

Lemma pow256_limb k : 0 <= k -> 256 ^ k = base_pow (Z.to_nat (k / 4)) * 2 ^ (k mod 4 * 8).
Proof.
  intros Hk. unfold base_pow. change 256 with (2 ^ 8). change 4294967296 with (2 ^ 32).
  pose proof (Z.div_mod k 4 ltac:(lia)). pose proof (Z.mod_pos_bound k 4 ltac:(lia)).
  pose proof (Z.div_pos k 4 ltac:(lia) ltac:(lia)).
  rewrite Z2Nat.id, <- !Z.pow_mul_r, <- Z.pow_add_r by lia. f_equal. lia.
Qed.

Lemma limb_divides d k : bn_ok d -> 0 <= k < 256 -> (256 ^ (k + 1) | eval d) ->
  (2 ^ (k mod 4 * 8 + 8) | d.[k / 4]).
Proof.
  intros [Ld Hd] Hk [q Hq]. pose proof (Z.mod_pos_bound k 4 ltac:(lia)) as Hm.
  assert (Hj : 0 <= k / 4 < 64) by (split; [apply Z.div_pos; lia|apply Z.div_lt_upper_bound; lia]).
  rewrite (eval_split d (k / 4)) in Hq by (unfold len; lia).
  rewrite Z.pow_add_r, pow256_limb in Hq by lia. change (256 ^ 1) with (2 ^ 8) in Hq.
  set (j := Z.to_nat (k / 4)) in *. set (s := k mod 4 * 8) in *.
  pose proof (eval_bounds (take j d) (Forall_take _ _ _ Hd)) as Hb.
  rewrite length_take, Nat.min_l in Hb by lia. set (lo := eval (take j d)) in *.
  set (hi := eval (drop (S j) d)) in *. pose proof (base_pow_pos j) as Hp. set (P := base_pow j) in *.
  assert (Hlo : lo = P * (q * (2 ^ s * 2 ^ 8) - (d.[k / 4] + 4294967296 * hi))) by lia.
  set (z := q * (2 ^ s * 2 ^ 8) - (d.[k / 4] + 4294967296 * hi)) in *.
  assert (Hz : z = 0) by (clearbody z lo P; nia).
  assert (Heq : d.[k / 4] = q * (2 ^ s * 2 ^ 8) - 4294967296 * hi) by (unfold z in Hz; lia).
  rewrite Heq, Z.pow_add_r by lia. apply Z.divide_sub_r.
  - apply Z.divide_mul_r, Z.divide_refl.
  - apply Z.divide_mul_l. rewrite <- Z.pow_add_r by lia. change 4294967296 with (2 ^ 32).
    exists (2 ^ (32 - (s + 8))). rewrite <- Z.pow_add_r by lia. f_equal. lia.
Qed.

Lemma load_byte_spec n l d i : bn_ok d -> bytes l -> 0 <= i < n -> n <= 256 ->
  (256 ^ (n - i) | eval d) ->
  bn_ok (load_byte n l d i) /\ eval (load_byte n l d i) = eval d + 256 ^ (n - 1 - i) * l.[i].
Proof.
  intros Hd Hl Hi Hn Hdiv. unfold load_byte. set (k := n - 1 - i).
  pose proof (nthZ_byte l i Hl) as Hb. unfold byte in Hb.
  pose proof (Z.mod_pos_bound k 4 ltac:(lia)) as Hm.
  assert (Hj : 0 <= k / 4 < 64) by (split; [apply Z.div_pos; lia|apply Z.div_lt_upper_bound; lia]).
  pose proof (limb_divides d k Hd ltac:(lia) ltac:(replace (k + 1) with (n - i) by lia; done)) as Hdl.
  assert (Hs : 0 <= l.[i] * 2 ^ (k mod 4 * 8) < 2 ^ (k mod 4 * 8 + 8)).
  { rewrite Z.pow_add_r by lia. change (2 ^ 8) with 256.
    pose proof (Z.pow_pos_nonneg 2 (k mod 4 * 8) ltac:(lia) ltac:(lia)). nia. }
  assert (H32 : 2 ^ (k mod 4 * 8 + 8) <= 4294967296).
  { change 4294967296 with (2 ^ 32). apply Z.pow_le_mono_r; lia. }
  rewrite Z.shiftl_mul_pow2, u32_small by lia.
  destruct Hd as [Ld Hdl']. split.
  - split; [by rewrite length_updZ|]. apply Forall_insert; [done|].
    change limb with (fun x => 0 <= x < 2 ^ 32). apply lor_range; [lia| |lia].
    apply (nthZ_limb d (k / 4) Hdl').
  - rewrite eval_updZ by (unfold len; lia).
    rewrite (lor_disjoint _ _ (k mod 4 * 8 + 8)) by (done || lia).
    rewrite (pow256_limb k) by lia. ring.
Qed.

Lemma be_value_app l b : be_value (l ++ [b]) = 256 * be_value l + b.
Proof. unfold be_value. by rewrite fold_left_app. Qed.

Lemma load_be_spec l : bytes l -> len l <= 256 -> bn_ok (load_be l) /\ eval (load_be l) = be_value l.
Proof.
  intros Hl Hn.
  assert (H : forall m, (m <= length l)%nat ->
    let d := fold_left (load_byte (len l) l) (seqZ 0 (Z.of_nat m)) bn_zero in
    bn_ok d /\ eval d = 256 ^ (len l - Z.of_nat m) * be_value (take m l)).
  { induction m as [|m IH]; intros Hm; cbv zeta.
    - change (seqZ 0 (Z.of_nat 0)) with (@nil Z). cbn [fold_left]. rewrite take_0.
      change (be_value []) with 0. split; [|change (eval bn_zero) with 0; lia].
      split; [reflexivity|]. apply Forall_replicate. unfold limb. lia.
    - rewrite seqZ_S, fold_left_app. cbn [fold_left]. rewrite Z.add_0_l.
      destruct (IH ltac:(lia)) as [Hd Ed]. cbv zeta in Hd, Ed.
      set (d := fold_left _ _ _) in *. unfold len in *.
      destruct (load_byte_spec (Z.of_nat (length l)) l d (Z.of_nat m)) as [Hd2 Ed2]; [done|done|lia|lia| |].
      { rewrite Ed. apply Z.divide_mul_l, Z.divide_refl. }
      split; [done|]. rewrite Ed2, Ed.
      destruct (lookup_lt_is_Some_2 l m ltac:(lia)) as [x Hx].
      rewrite (take_S_r _ _ x Hx), be_value_app.
      replace (l.[Z.of_nat m]) with x by (unfold nthZ; rewrite Nat2Z.id, nth_lookup, Hx; done).
      replace (Z.of_nat (length l) - Z.of_nat m) with (Z.of_nat (length l) - 1 - Z.of_nat m + 1) by lia.
      replace (Z.of_nat (length l) - Z.of_nat (S m)) with (Z.of_nat (length l) - 1 - Z.of_nat m) by lia.
      rewrite Z.pow_add_r by lia. change (256 ^ 1) with 256. ring. }
  destruct (H (length l) ltac:(lia)) as [Hd Ed]. unfold load_be. split; [exact Hd|].
  cbv zeta in Ed. unfold len in *. rewrite Ed, take_ge, Z.sub_diag by lia. lia.
Qed.

(** Byte [k] of a number is in limb [k / 4]. *)
Lemma eval_byte w k : limbs w -> 0 <= k -> k / 4 < len w ->
  u8 (Z.shiftr (w.[k / 4]) (k mod 4 * 8)) = (eval w / 256 ^ k) mod 256.
Proof.
  intros Hw Hk Hj. pose proof (Z.mod_pos_bound k 4 ltac:(lia)) as Hm.
  pose proof (Z.div_pos k 4 ltac:(lia) ltac:(lia)).
  rewrite (eval_split w (k / 4)), pow256_limb by lia. unfold u8. unfold len in Hj.
  pose proof (eval_bounds (take (Z.to_nat (k / 4)) w) (Forall_take _ _ _ Hw)) as Hb.
  rewrite length_take, Nat.min_l in Hb by lia. pose proof (base_pow_pos (Z.to_nat (k / 4))).
  pose proof (Z.pow_pos_nonneg 2 (k mod 4 * 8) ltac:(lia) ltac:(lia)) as Hp.
  rewrite <- Z.div_div by lia. rewrite (Z.mul_comm (base_pow _)), Z.div_add by lia.
  rewrite (Z.div_small (eval (take _ _))), Z.add_0_l by lia.
  rewrite Z.shiftr_div_pow2 by lia.
  replace (w.[k / 4] + 4294967296 * eval (drop (S (Z.to_nat (k / 4))) w))
    with (w.[k / 4] + (eval (drop (S (Z.to_nat (k / 4))) w) * 2 ^ (32 - k mod 4 * 8 - 8) * 256) * 2 ^ (k mod 4 * 8)).
  - rewrite Z.div_add by lia. by rewrite Z.mod_add by lia.
  - f_equal. change 256 with (2 ^ 8). rewrite <- !Z.mul_assoc, <- !Z.pow_add_r by lia.
    replace (32 - k mod 4 * 8 - 8 + (8 + k mod 4 * 8)) with 32 by lia. change (2 ^ 32) with 4294967296. ring.
Qed.

Lemma be_bytes_limbs w n f : limbs w -> n <= 4 * len w ->
  (forall i, 0 <= i < n -> f i = (n - 1 - i) mod 4 * 8) ->
  map (fun i => u8 (Z.shiftr (w.[(n - 1 - i) / 4]) (f i))) (seqZ 0 n) = be_bytes n (eval w).
Proof.
  intros Hw Hn Hf. apply map_ext_in. intros i Hi. apply list_elem_of_In, elem_of_seqZ in Hi.
  rewrite Hf by lia. apply eval_byte; [done|lia|]. apply Z.div_lt_upper_bound; lia.
Qed.

Lemma bn_rsa_public_eval inp exp n :
  bytes inp -> bytes exp -> bytes n -> len inp = len n -> len n mod 4 = 0 -> len n <= 256 ->
  len exp <= 256 -> 1 < be_value n -> Z.odd (be_value n) = true ->
  bn_rsa_public inp exp n = Some (be_bytes (len n) (be_value inp ^ be_value exp mod be_value n)).
Proof.
  intros Hi He Hn Hl H4 Hn256 He256 H1 Hodd. unfold bn_rsa_public.
  rewrite (proj2 (Z.ltb_ge 256 (len n))) by lia.
  destruct (load_be_spec inp Hi ltac:(lia)) as [Oi Ei]. destruct (load_be_spec exp He He256) as [Oe Ee].
  destruct (load_be_spec n Hn Hn256) as [On En].
  destruct (bn_modpow_eval (load_be inp) (load_be exp) (load_be n) Oi Oe On) as (r & -> & [Lr Hr] & Er);
    [by rewrite En..|].
  cbn [mbind option_bind]. rewrite Ei, Ee, En in Er. apply f_equal. rewrite <- Er.
  apply be_bytes_limbs; [done|unfold len in *; lia|]. intros i Hir.
  change 3 with (Z.ones 2) at 2. rewrite Z.land_ones by lia. change (2 ^ 2) with 4. f_equal.
  apply Z.mod_divide in H4 as [q Hq]; [|lia]. rewrite Hq.
  pose proof (Z.div_mod i 4 ltac:(lia)). pose proof (Z.mod_pos_bound i 4 ltac:(lia)).
  apply (Z.mod_unique _ _ (q - 1 - i / 4)); lia.
Qed.

(** [C28] The RSA public operation: for an odd modulus above 1 whose length is a
    multiple of four, and an exponent that fits, [bn_rsa_public] returns the
    big-endian bytes of [in ^ e mod n]. (The Montgomery product, the constants,
    the square-and-multiply loop and the byte conversions are all those of the
    code, at their machine widths.) *)
Theorem rsa_public_spec inp exp n :
  bytes inp -> bytes exp -> bytes n -> len inp = len n -> len n mod 4 = 0 -> len n <= 256 ->
  len exp <= 256 -> 1 < be_value n -> Z.odd (be_value n) = true ->
  bn_rsa_public inp exp n = Some (be_bytes (len n) (be_value inp ^ be_value exp mod be_value n)).
Proof. apply bn_rsa_public_eval. Qed.

Lemma rsa_public_spec_witness :
  bn_rsa_public [0; 0; 0; 65] [17] [0; 0; 12; 161]
  = Some (be_bytes 4 (be_value [0; 0; 0; 65] ^ be_value [17] mod be_value [0; 0; 12; 161])) /\
  be_bytes 4 (be_value [0; 0; 0; 65] ^ be_value [17] mod be_value [0; 0; 12; 161]) = [0; 0; 10; 230].
Proof.
  split; [|vm_compute; reflexivity].
  refine (rsa_public_spec [0; 0; 0; 65] [17] [0; 0; 12; 161] _ _ _ _ _ _ _ _ _);
    first [check_bytes|vm_compute; reflexivity|vm_compute; discriminate].
Defined.

(** * Long division *)
Lemma top_bit x b : 0 <= b -> 0 <= x < 2 ^ (b + 1) ->
  if Z.testbit x b then 2 ^ b <= x else x < 2 ^ b.
Proof.
  intros Hb Hx. pose proof (mod_pow2_S x b Hb) as H. rewrite (Z.mod_small x) in H by lia.
  pose proof (Z.mod_pos_bound x (2 ^ b) (Z.pow_pos_nonneg 2 b ltac:(lia) Hb)).
  destruct (Z.testbit x b); lia.
Qed.

Lemma limb_bitlen_spec k x : 0 < x < 2 ^ Z.of_nat k ->
  0 < limb_bitlen k x <= Z.of_nat k /\ 2 ^ (limb_bitlen k x - 1) <= x < 2 ^ limb_bitlen k x.
Proof.
  induction k as [|k IH]; intros Hx; [change (2 ^ Z.of_nat 0) with 1 in Hx; lia|].
  cbn [limb_bitlen]. rewrite land_bit by lia.
  replace (Z.of_nat (S k)) with (Z.of_nat k + 1) in * by lia.
  pose proof (top_bit x (Z.of_nat k) ltac:(lia) ltac:(lia)) as Ht.
  destruct (Z.testbit x (Z.of_nat k)).
  - replace (Z.of_nat k + 1 - 1) with (Z.of_nat k) by lia. lia.
  - destruct IH; [lia|]. lia.
Qed.

Lemma base_pow_2 n : base_pow n = 2 ^ (32 * Z.of_nat n).
Proof. unfold base_pow. change 4294967296 with (2 ^ 32). rewrite <- Z.pow_mul_r by lia. done. Qed.

Lemma bitlen_from_spec k : forall a, (k <= length a)%nat -> limbs a -> 0 < eval (take k a) ->
  0 < bitlen_from k a <= 32 * Z.of_nat k /\
  2 ^ (bitlen_from k a - 1) <= eval (take k a) < 2 ^ bitlen_from k a.
Proof.
  induction k as [|k IH]; intros a La Ha He; [rewrite take_0 in He; change (eval []) with 0 in He; lia|].
  cbn [bitlen_from]. destruct (lookup_lt_is_Some_2 a k ltac:(lia)) as [x Hx].
  assert (Ex : a.[Z.of_nat k] = x) by (unfold nthZ; rewrite Nat2Z.id, nth_lookup, Hx; done).
  pose proof (nthZ_limb a (Z.of_nat k) Ha) as Hl. rewrite Ex in *. unfold limb in Hl.
  rewrite (take_S_r _ _ x Hx), eval_app, length_take, Nat.min_l in * by lia.
  change (eval [x]) with (x + 4294967296 * 0) in *.
  pose proof (eval_bounds (take k a) (Forall_take _ _ _ Ha)) as Hb. rewrite length_take, Nat.min_l in Hb by lia.
  destruct (Z.eqb_spec x 0) as [->|Hx0].
  - destruct (IH a ltac:(lia) Ha ltac:(lia)). lia.
  - destruct (limb_bitlen_spec 32 x) as [Hr Hp]; [change (2 ^ Z.of_nat 32) with 4294967296; lia|].
    change (Z.of_nat 32) with 32 in Hr. split; [lia|].
    rewrite base_pow_2 in *.
    replace (Z.of_nat k * 32 + limb_bitlen 32 x - 1) with (32 * Z.of_nat k + (limb_bitlen 32 x - 1)) by lia.
    replace (Z.of_nat k * 32 + limb_bitlen 32 x) with (32 * Z.of_nat k + limb_bitlen 32 x) by lia.
    rewrite !Z.pow_add_r by lia.
    set (P := 2 ^ (32 * Z.of_nat k)) in *. set (L := 2 ^ (limb_bitlen 32 x - 1)) in *.
    set (U := 2 ^ limb_bitlen 32 x) in *. clearbody P L U. nia.
Qed.

Lemma bn_bitlen_spec a : bn_ok a -> 0 < eval a ->
  0 < bn_bitlen a <= 2048 /\ 2 ^ (bn_bitlen a - 1) <= eval a < 2 ^ bn_bitlen a.
Proof.
  intros [La Ha] He. pose proof (bitlen_from_spec 64 a ltac:(lia) Ha) as H.
  rewrite take_ge in H by lia. apply H. done.
Qed.

Lemma shl1_limbs_spec a : forall c, limbs a -> 0 <= c <= 1 ->
  length (shl1_limbs a c) = length a /\ limbs (shl1_limbs a c) /\
  exists o, 0 <= o <= 1 /\ eval (shl1_limbs a c) + base_pow (length a) * o = 2 * eval a + c.
Proof.
  induction a as [|x a IH]; intros c Ha Hc; cbn [shl1_limbs length].
  - split; [done|]. split; [done|]. exists c. rewrite base_pow_0. change (eval []) with 0. lia.
  - apply Forall_cons_1 in Ha as [Hx Ha]. unfold limb in Hx.
    rewrite Z.shiftl_mul_pow2, Z.shiftr_div_pow2 by lia. change (2 ^ 1) with 2. change (2 ^ 31) with 2147483648.
    pose proof (Z.div_mod x 2147483648 ltac:(lia)) as Hd.
    pose proof (Z.mod_pos_bound x 2147483648 ltac:(lia)) as Hm.
    destruct (IH (x / 2147483648) Ha) as (L & B & o & Ho & E).
    { split; [apply Z.div_pos; lia|]. assert (x / 2147483648 < 2) by (apply Z.div_lt_upper_bound; lia). lia. }
    assert (Eu : u32 (x * 2) = 2 * (x mod 2147483648)).
    { unfold u32. symmetry. apply (Z.mod_unique _ _ (x / 2147483648)); lia. }
    rewrite Eu, lor_double by lia. split; [simpl; lia|]. split.
    + constructor; [unfold limb; lia|done].
    + exists o. split; [done|]. rewrite !eval_cons, base_pow_S. lia.
Qed.

Lemma bn_shl1_spec a : bn_ok a -> 2 * eval a < base_pow 64 ->
  bn_ok (bn_shl1 a) /\ eval (bn_shl1 a) = 2 * eval a.
Proof.
  intros [La Ha] Hlt. destruct (shl1_limbs_spec a 0 Ha ltac:(lia)) as (L & B & o & Ho & E).
  unfold bn_shl1. rewrite La in *. split; [done|]. pose proof (eval_bounds _ B) as Hb. rewrite L in Hb.
  pose proof (base_pow_pos 64). assert (o = 0) as -> by nia. lia.
Qed.

Lemma shl1_iter m k : bn_ok m -> 2 ^ Z.of_nat k * eval m < base_pow 64 ->
  bn_ok (Nat.iter k bn_shl1 m) /\ eval (Nat.iter k bn_shl1 m) = 2 ^ Z.of_nat k * eval m.
Proof.
  intros Hm. induction k as [|k IH]; intros Hlt; [change (2 ^ Z.of_nat 0) with 1; rewrite Z.mul_1_l; done|].
  rewrite Nat2Z.inj_succ, Z.pow_succ_r in * by lia. pose proof (eval_bounds m (proj2 Hm)).
  pose proof (Z.pow_pos_nonneg 2 (Z.of_nat k) ltac:(lia) ltac:(lia)).
  destruct IH as [Hr Er]; [nia|].
  set (r := Nat.iter k bn_shl1 m) in *. change (Nat.iter (S k) bn_shl1 m) with (bn_shl1 r).
  destruct (bn_shl1_spec r Hr ltac:(rewrite Er; lia)) as [Hs Es]. split; [done|]. rewrite Es, Er. lia.
Qed.

Lemma shr1_limbs_spec a : limbs a ->
  let '(r, c) := shr1_limbs a in
  length r = length a /\ limbs r /\ c = 2147483648 * (eval a mod 2) /\ eval r = eval a / 2.
Proof.
  induction 1 as [|x a Hx Ha IH]; cbn [shr1_limbs]; [splits; (done || constructor)|].
  destruct (shr1_limbs a) as [r c]. destruct IH as (L & B & -> & Er). unfold limb in Hx.
  pose proof (Z.div_mod x 2 ltac:(lia)) as Hdx. pose proof (Z.mod_pos_bound x 2 ltac:(lia)) as Hmx.
  pose proof (Z.div_mod (eval a) 2 ltac:(lia)) as Hda. pose proof (Z.mod_pos_bound (eval a) 2 ltac:(lia)) as Hma.
  assert (El : Z.lor (Z.shiftr x 1) (2147483648 * (eval a mod 2)) = x / 2 + 2147483648 * (eval a mod 2)).
  { rewrite Z.shiftr_div_pow2, Z.lor_comm, Z.add_comm by lia. change (2 ^ 1) with 2.
    apply (lor_disjoint _ _ 31); [lia| |change (2 ^ 31) with 2147483648; lia].
    exists (eval a mod 2). change (2 ^ 31) with 2147483648. lia. }
  rewrite El, !eval_cons. splits.
  - simpl. lia.
  - constructor; [unfold limb; lia|done].
  - rewrite Z.shiftl_mul_pow2 by lia. change (2 ^ 31) with 2147483648. unfold u32.
    assert ((x + 4294967296 * eval a) mod 2 = x mod 2) as ->.
    { replace (x + 4294967296 * eval a) with (x + 2147483648 * eval a * 2) by lia. by rewrite Z.mod_add. }
    symmetry. apply (Z.mod_unique _ _ (x / 2)); lia.
  - rewrite Er. apply (Z.div_unique _ _ _ (x mod 2)); lia.
Qed.

Lemma mod_step_spec rem t m : bn_ok rem -> bn_ok t -> eval rem < 2 * eval t -> cong m (eval t) 0 ->
  let '(rem', t') := mod_step (rem, t) in
  bn_ok rem' /\ bn_ok t' /\ eval rem' < eval t /\ eval t' = eval t / 2 /\ cong m (eval rem') (eval rem).
Proof.
  intros Hr Ht Hlt Hc. unfold mod_step. destruct (cond_sub_spec rem t Hr Ht) as [Hs Es]. cbv zeta in Hs, Es.
  pose proof (shr1_limbs_spec t (proj2 Ht)) as Hsh. destruct (shr1_limbs t) as [r c]. cbn [fst].
  destruct Hsh as (L & B & _ & E). rewrite (proj1 Ht) in L. split; [exact Hs|]. split; [done|]. split; [|split].
  - rewrite Es. case_ifZ; lia.
  - exact E.
  - rewrite Es. case_ifZ; [|done]. unfold Z.sub. destruct Hc as [q Hq].
    exists (- q). lia.
Qed.

Lemma bn_mod_spec a m : bn_ok a -> bn_ok m -> 0 < eval m ->
  bn_ok (bn_mod a m) /\ eval (bn_mod a m) = eval a mod eval m.
Proof.
  intros Ha Hm Hpos. unfold bn_mod. destruct (bn_cmp_spec a m Ha Hm) as [_ ->].
  pose proof (eval_bounds a (proj2 Ha)) as Ba.
  case_ifZ; [split; [done|]; rewrite Z.mod_small; lia|].
  destruct (bn_bitlen_spec a Ha ltac:(lia)) as [La Pa]. destruct (bn_bitlen_spec m Hm Hpos) as [Lm Pm].
  set (la := bn_bitlen a) in *. set (lm := bn_bitlen m) in *. clearbody la lm.
  assert (Hle : lm <= la).
  { destruct (Z.le_gt_cases lm la); [done|]. pose proof (Z.pow_le_mono_r 2 la (lm - 1)). lia. }
  set (s := Z.to_nat (la - lm)).
  assert (Hup : 2 ^ Z.of_nat s * eval m < 2 ^ la).
  { replace la with (Z.of_nat s + lm) by lia. rewrite Z.pow_add_r by lia.
    apply Z.mul_lt_mono_pos_l; [apply Z.pow_pos_nonneg; lia|lia]. }
  assert (Hlo : eval a < 2 * (2 ^ Z.of_nat s * eval m)).
  { apply Z.lt_le_trans with (2 ^ la); [lia|]. replace la with (1 + (Z.of_nat s + (lm - 1))) by lia.
    rewrite (Z.pow_add_r 2 1), (Z.pow_add_r 2 (Z.of_nat s)) by lia. change (2 ^ 1) with 2.
    pose proof (Z.pow_pos_nonneg 2 (Z.of_nat s) ltac:(lia) ltac:(lia)). nia. }
  assert (Hb : 2 ^ la <= base_pow 64) by (rewrite base_pow_2; apply Z.pow_le_mono_r; lia).
  destruct (shl1_iter m s Hm ltac:(lia)) as [Ht Et]. set (t := Nat.iter s bn_shl1 m) in *. clearbody t.
  assert (H : forall k, (k <= s)%nat -> let '(r, t') := Nat.iter k mod_step (a, t) in
    bn_ok r /\ bn_ok t' /\ eval t' = 2 ^ Z.of_nat (s - k) * eval m /\ eval r < 2 * eval t' /\
    cong (eval m) (eval r) (eval a)).
  { induction k as [|k IH]; intros Hk.
    - change (Nat.iter 0 mod_step (a, t)) with (a, t). cbv beta iota. rewrite Nat.sub_0_r, Et. splits; (done || lia).
    - change (Nat.iter (S k) mod_step (a, t)) with (mod_step (Nat.iter k mod_step (a, t))).
      specialize (IH ltac:(lia)). destruct (Nat.iter k mod_step (a, t)) as [r t'].
      destruct IH as (Hr & Ht' & Et' & Hlt & Hc).
      pose proof (mod_step_spec r t' (eval m) Hr Ht' Hlt) as Hs.
      destruct (mod_step (r, t')) as [r2 t2]. destruct Hs as (R2 & T2 & L2 & E2 & C2).
      { rewrite Et'. exists (2 ^ Z.of_nat (s - k)). lia. }
      replace (s - k)%nat with (S (s - S k)) in Et' by lia.
      rewrite Nat2Z.inj_succ, Z.pow_succ_r in Et' by lia.
      assert (E3 : eval t2 = 2 ^ Z.of_nat (s - S k) * eval m).
      { rewrite E2, Et', <- Z.mul_assoc, Z.mul_comm, Z.div_mul by lia. done. }
      splits; [done|done|done|lia|by rewrite C2]. }
  specialize (H s ltac:(lia)). change (Nat.iter (S s) mod_step (a, t)) with (mod_step (Nat.iter s mod_step (a, t))).
  destruct (Nat.iter s mod_step (a, t)) as [r t']. destruct H as (Hr & Ht' & Et' & Hlt & Hc).
  pose proof (mod_step_spec r t' (eval m) Hr Ht' Hlt) as Hs.
  destruct (mod_step (r, t')) as [r2 t2]. destruct Hs as (R2 & T2 & L2 & E2 & C2).
  { rewrite Et'. exists (2 ^ Z.of_nat (s - s)). lia. }
  rewrite Nat.sub_diag in Et'. change (2 ^ Z.of_nat 0) with 1 in Et'. cbn [fst]. split; [done|].
  rewrite <- (cong_mod_eq (eval m) (eval r2) (eval a)); [|lia|by rewrite C2].
  rewrite Z.mod_small; [done|]. pose proof (eval_bounds r2 (proj2 R2)). lia.
Qed.

(** * Wide products *)
Lemma eval_zero l : limbs l -> eval l = 0 -> Forall (fun x => x = 0) l.
Proof.
  induction 1 as [|x l Hx Hl IH]; intros He; [constructor|]. rewrite eval_cons in He.
  pose proof (eval_bounds l Hl). unfold limb in Hx. constructor; [lia|]. apply IH. lia.
Qed.

(** A number below [B^k] has no limb from [k] up. *)
Lemma high_limbs_zero w k : limbs w -> (k <= length w)%nat -> eval w < base_pow k ->
  Forall (fun x => x = 0) (drop k w) /\ eval (take k w) = eval w.
Proof.
  intros Hw Hk Hlt. rewrite <- (take_drop k w) in Hlt at 1. rewrite eval_app, length_take, Nat.min_l in Hlt by lia.
  pose proof (eval_bounds (take k w) (Forall_take _ _ _ Hw)).
  pose proof (eval_bounds (drop k w) (Forall_drop _ _ _ Hw)). pose proof (base_pow_pos k).
  assert (E : eval (drop k w) = 0) by nia. split; [by apply eval_zero; [apply Forall_drop|]|].
  rewrite <- (take_drop k w) at 2. rewrite eval_app, E. lia.
Qed.

Lemma high_limb_zero w k i : limbs w -> (k <= length w)%nat -> eval w < base_pow k -> Z.of_nat k <= i ->
  w.[i] = 0.
Proof.
  intros Hw Hk Hlt Hi. destruct (high_limbs_zero w k Hw Hk Hlt) as [Hz _]. unfold nthZ.
  rewrite nth_lookup. destruct (w !! Z.to_nat i) as [x|] eqn:E; [|done]. cbn.
  replace (Z.to_nat i) with (k + (Z.to_nat i - k))%nat in E by lia. rewrite <- lookup_drop in E.
  by eapply Forall_lookup_1 in E; [|exact Hz].
Qed.

Lemma eval_blit w i row : 0 <= i -> i + len row <= len w ->
  eval (blit w i row) = eval w + base_pow (Z.to_nat i) * (eval row - eval (slice w i (len row))).
Proof.
  intros Hi Hl. unfold len in *.
  rewrite <- (take_drop (Z.to_nat i) w) at 2.
  rewrite <- (take_drop (length row) (drop (Z.to_nat i) w)) at 1.
  unfold blit, slice. rewrite !eval_app, !length_take, !length_drop, !drop_drop.
  rewrite Nat2Z.id, !Nat.min_l by lia. ring.
Qed.

Lemma limbs_blit w i row : limbs w -> limbs row -> limbs (blit w i row).
Proof. intros. unfold blit. apply limbs_app; [by apply Forall_take|apply limbs_app; [done|by apply Forall_drop]]. Qed.

Lemma updZ_same w i : w.[i <- w.[i]] = w.
Proof.
  unfold updZ, nthZ. rewrite nth_lookup. destruct (w !! Z.to_nat i) as [x|] eqn:E; cbn.
  - by apply list_insert_id.
  - apply list_insert_ge. by apply lookup_ge_None_1.
Qed.

Lemma wide_row_spec a b w i : bn_ok a -> bn_ok b -> limbs w -> length w = 128%nat -> 0 <= i < 64 ->
  eval w = eval (take (Z.to_nat i) a) * eval b ->
  let w' := wide_row a b w i in
  limbs w' /\ length w' = 128%nat /\ eval w' = eval (take (S (Z.to_nat i)) a) * eval b.
Proof.
  intros [La Ha] [Lb Hb] Hw Lw Hi Ew. cbv zeta.
  destruct (lookup_lt_is_Some_2 a (Z.to_nat i) ltac:(lia)) as [x Hx].
  rewrite (take_S_r _ _ x Hx), eval_app, length_take, Nat.min_l by lia.
  change (eval [x]) with (x + 4294967296 * 0).
  unfold wide_row. replace (a.[i]) with x by (unfold nthZ; rewrite nth_lookup, Hx; done).
  assert (Hxl : limb x) by (by eapply Forall_lookup_1 in Hx).
  case_ifZ; [split; [done|]; split; [done|]; lia|].
  pose proof (eval_bounds (take (Z.to_nat i) a) (Forall_take _ _ _ Ha)) as Bt.
  rewrite length_take, Nat.min_l in Bt by lia. pose proof (eval_bounds b Hb) as Bb. rewrite Lb in Bb.
  assert (Hlt : eval w < base_pow (Z.to_nat i + 64)) by (rewrite base_pow_add, Ew; nia).
  pose proof (high_limb_zero w (Z.to_nat i + 64) (i + 64) Hw ltac:(lia) Hlt ltac:(lia)) as Z64.
  pose proof (high_limb_zero w (Z.to_nat i + 64) (i + 64 + 1) Hw ltac:(lia) Hlt ltac:(lia)) as Z65.
  assert (Ls : length (slice w i 64) = 64%nat) by (rewrite length_slice; unfold len; lia).
  pose proof (mac_row_spec (slice w i 64) b x 0 ltac:(lia)
    ltac:(unfold slice; apply Forall_take, Forall_drop; done) Hb Hxl ltac:(unfold limb; lia)) as Hm.
  destruct (mac_row (slice w i 64) b x 0) as [row c]. rewrite Ls in Hm. destruct Hm as (Lr & Br & Bc & Er).
  change BN_LIMBS with 64.
  assert (Lbl : length (blit w i row) = 128%nat) by (rewrite length_blit; unfold len; lia).
  assert (Hrd : forall k, i + 64 <= k -> (blit w i row).[k] = w.[k]).
  { intros k Hk. unfold blit, nthZ. rewrite !nth_lookup.
    rewrite lookup_app_r by (rewrite length_take; lia). rewrite lookup_app_r by (rewrite length_take; lia).
    rewrite lookup_drop, length_take. do 2 f_equal. lia. }
  rewrite (Hrd (i + 64)), Z64 by lia. rewrite Z.add_0_l.
  unfold limb in Bc. rewrite (u64_small c), (u32_small c) by lia.
  replace (Z.shiftr c 32) with 0 by (rewrite Z.shiftr_div_pow2, Z.div_small by lia; done).
  change (u32 0) with 0. rewrite Z.add_0_r.
  rewrite nthZ_updZ_ne by lia. rewrite (Hrd (i + 64 + 1)), Z65 by lia. change (u32 0) with 0.
  assert (Esame : ((blit w i row).[i + 64 <- c]).[i + 64 + 1 <- 0] = (blit w i row).[i + 64 <- c]).
  { rewrite <- (updZ_same ((blit w i row).[i + 64 <- c]) (i + 64 + 1)) at 2. f_equal.
    rewrite nthZ_updZ_ne by lia. rewrite Hrd by lia. done. }
  rewrite Esame. split; [apply Forall_insert; [by apply limbs_blit|unfold limb; lia]|].
  split; [by rewrite length_updZ|].
  rewrite eval_updZ by (unfold len; lia). rewrite (Hrd (i + 64)), Z64 by lia.
  rewrite eval_blit by (unfold len; lia).
  replace (len row) with 64 by (unfold len; lia).
  replace (Z.to_nat (i + 64)) with (Z.to_nat i + 64)%nat by lia. rewrite base_pow_add.
  set (P := base_pow (Z.to_nat i)) in *. set (Q := base_pow 64) in *.
  replace (eval row) with (eval (slice w i 64) + x * eval b + 0 - Q * c) by lia. rewrite Ew. ring.
Qed.

Lemma bn_mul_wide_spec a b : bn_ok a -> bn_ok b ->
  limbs (bn_mul_wide a b) /\ length (bn_mul_wide a b) = 128%nat /\ eval (bn_mul_wide a b) = eval a * eval b.
Proof.
  intros Ha Hb. unfold bn_mul_wide. change BN_LIMBS with (Z.of_nat 64).
  assert (H : forall m, (m <= 64)%nat ->
    let w := fold_left (wide_row a b) (seqZ 0 (Z.of_nat m)) (replicate 128 0) in
    limbs w /\ length w = 128%nat /\ eval w = eval (take m a) * eval b).
  { induction m as [|m IH]; intros Hm; cbv zeta.
    - change (seqZ 0 (Z.of_nat 0)) with (@nil Z). cbn [fold_left]. rewrite take_0.
      change (eval []) with 0. change (eval (replicate 128 0)) with 0.
      split; [apply Forall_replicate; unfold limb; lia|]. split; [done|lia].
    - rewrite seqZ_S, fold_left_app. rewrite fold_left_cons. rewrite Z.add_0_l.
      destruct (IH ltac:(lia)) as (H1 & H2 & H3).
      pose proof (wide_row_spec a b _ (Z.of_nat m) Ha Hb H1 H2 ltac:(lia)) as Hr.
      rewrite Nat2Z.id in Hr. apply Hr. exact H3. }
  specialize (H 64%nat ltac:(lia)). cbv zeta in H. rewrite take_ge in H by (destruct Ha; lia). exact H.
Qed.

Lemma ripple_spec f : forall w k c, limbs w -> length w = 128%nat -> 0 <= k <= 128 ->
  128 <= k + Z.of_nat f -> 0 <= c <= 1 -> eval w + base_pow (Z.to_nat k) * c < base_pow 128 ->
  limbs (ripple f w k c) /\ length (ripple f w k c) = 128%nat /\
  eval (ripple f w k c) = eval w + base_pow (Z.to_nat k) * c.
Proof.
  induction f as [|f IH]; intros w k c Hw Lw Hk Hf Hc Hlt; pose proof (eval_bounds w Hw) as Bw; cbn [ripple].
  - assert (k = 128) as -> by lia. change (Z.to_nat 128) with 128%nat in *.
    pose proof (base_pow_pos 128). assert (c = 0) as -> by nia. split; [done|]. split; [done|lia].
  - destruct ((c =? 0) || (128 <=? k)) eqn:E.
    + split; [done|]. split; [done|]. apply orb_true_iff in E as [E|E]; zbool; [subst; lia|].
      assert (k = 128) as -> by lia. change (Z.to_nat 128) with 128%nat in *.
      pose proof (base_pow_pos 128). assert (c = 0) as -> by nia. lia.
    + zbool. assert (c = 1) as -> by lia. pose proof (nthZ_limb w k Hw) as Hl.
      destruct (carry_pair (w.[k]) 1 Hl ltac:(unfold limb; lia)) as (U & HS & E). cbv zeta in *.
      set (y := u64 (w.[k] + 1)) in *.
      assert (E2 : eval (w.[k <- u32 y]) + base_pow (Z.to_nat (k + 1)) * Z.shiftr y 32
        = eval w + base_pow (Z.to_nat k) * 1).
      { rewrite eval_updZ by (unfold len; lia). replace (Z.to_nat (k + 1)) with (S (Z.to_nat k)) by lia.
        rewrite base_pow_S. replace (u32 y) with (w.[k] + 1 - 4294967296 * Z.shiftr y 32) by lia. ring. }
      rewrite <- E2 in *. apply IH; [by apply Forall_insert|by rewrite length_updZ|lia|lia|lia|lia].
Qed.

Lemma add_limb_spec m2 w i : bn_ok m2 -> limbs w -> length w = 128%nat -> 0 <= i < 64 ->
  eval w + base_pow (Z.to_nat i) * m2.[i] < base_pow 128 ->
  limbs (add_limb m2 w i) /\ length (add_limb m2 w i) = 128%nat /\
  eval (add_limb m2 w i) = eval w + base_pow (Z.to_nat i) * m2.[i].
Proof.
  intros [Lm Hm] Hw Lw Hi Hlt. unfold add_limb.
  destruct (carry_pair (w.[i]) (m2.[i]) (nthZ_limb w i Hw) (nthZ_limb m2 i Hm)) as (U & HS & E). cbv zeta in *.
  set (x := u64 (w.[i] + m2.[i])) in *.
  assert (E2 : eval (w.[i <- u32 x]) + base_pow (Z.to_nat (i + 1)) * Z.shiftr x 32
    = eval w + base_pow (Z.to_nat i) * m2.[i]).
  { rewrite eval_updZ by (unfold len; lia). replace (Z.to_nat (i + 1)) with (S (Z.to_nat i)) by lia.
    rewrite base_pow_S. replace (u32 x) with (w.[i] + m2.[i] - 4294967296 * Z.shiftr x 32) by lia. ring. }
  rewrite <- E2 in *. apply ripple_spec; [by apply Forall_insert|by rewrite length_updZ|lia|lia|lia|lia].
Qed.

Lemma add_limbs_spec m2 w : bn_ok m2 -> limbs w -> length w = 128%nat -> eval w + eval m2 < base_pow 128 ->
  let w' := fold_left (add_limb m2) (seqZ 0 BN_LIMBS) w in
  limbs w' /\ length w' = 128%nat /\ eval w' = eval w + eval m2.
Proof.
  intros Hm Hw Lw Hlt. pose proof Hm as [Lm Hml]. change BN_LIMBS with (Z.of_nat 64).
  assert (H : forall k, (k <= 64)%nat ->
    let w' := fold_left (add_limb m2) (seqZ 0 (Z.of_nat k)) w in
    limbs w' /\ length w' = 128%nat /\ eval w' = eval w + eval (take k m2)).
  { induction k as [|k IH]; intros Hk; cbv zeta.
    - change (seqZ 0 (Z.of_nat 0)) with (@nil Z). cbn [fold_left]. rewrite take_0. change (eval []) with 0.
      split; [done|]. split; [done|lia].
    - rewrite seqZ_S, fold_left_app, fold_left_cons, Z.add_0_l. destruct (IH ltac:(lia)) as (H1 & H2 & H3).
      cbv zeta in *. set (w1 := fold_left _ _ w) in *.
      destruct (lookup_lt_is_Some_2 m2 k ltac:(lia)) as [x Hx].
      assert (Ex : m2.[Z.of_nat k] = x) by (unfold nthZ; rewrite Nat2Z.id, nth_lookup, Hx; done).
      assert (Et : eval (take (S k) m2) = eval (take k m2) + base_pow k * x).
      { rewrite (take_S_r _ _ x Hx), eval_app, length_take, Nat.min_l by lia.
        change (eval [x]) with (x + 4294967296 * 0). lia. }
      assert (Hle : eval (take (S k) m2) <= eval m2).
      { rewrite <- (take_drop (S k) m2) at 2. rewrite eval_app.
        pose proof (eval_bounds (drop (S k) m2) (Forall_drop _ _ _ Hml)).
        pose proof (base_pow_pos (length (take (S k) m2))). nia. }
      destruct (add_limb_spec m2 w1 (Z.of_nat k) Hm H1 H2 ltac:(lia)) as (A1 & A2 & A3).
      { rewrite Nat2Z.id, Ex. lia. }
      rewrite Nat2Z.id, Ex in A3. split; [exact A1|]. split; [exact A2|]. cbn [fold_left]. lia. }
  specialize (H 64%nat ltac:(lia)). cbv zeta in H. rewrite take_ge in H by lia. exact H.
Qed.

Lemma wide_cmp_less w n : limbs w -> length w = 128%nat -> bn_ok n -> eval w < eval n ->
  (0 <=? bn_wide_cmp_n w n) = false.
Proof.
  intros Hw Lw [Ln Hn] Hlt. pose proof (eval_bounds n Hn) as Bn. rewrite Ln in Bn.
  destruct (high_limbs_zero w 64 Hw ltac:(lia) ltac:(lia)) as [Hz Et]. unfold bn_wide_cmp_n.
  assert (E : existsb (fun x => negb (x =? 0)) (drop 64 w) = false).
  { induction Hz as [|x l -> _ IH]; [done|]. cbn. exact IH. }
  rewrite E. pose proof (cmp_from_spec 64 w n ltac:(lia) ltac:(lia) Hw Hn) as H. cbv zeta in H.
  rewrite Et, (take_ge n) in H by lia. destruct H as [[? ?]|[[? ?]|[-> ?]]]; (lia || done).
Qed.

(** * The private operation *)
Lemma bn_mod_mul_spec a b n : bn_ok a -> bn_ok b -> bn_ok n -> 1 < eval n -> Z.odd (eval n) = true ->
  exists r, bn_mod_mul a b n = Some r /\ bn_ok r /\ eval r = (eval a * eval b) mod eval n.
Proof.
  intros Ha Hb Hn H1 Hodd. destruct (odd_inverse (eval n) Hodd) as [v Hv].
  unfold bn_mod_mul. pose proof (bn_mont_consts_spec n Hn H1) as Hc.
  destruct (bn_mont_consts n) as [R R2]. destruct Hc as (_ & _ & HR2 & ER2).
  assert (HR2r : reduced n R2) by (split; [done|rewrite ER2; apply Z.mod_pos_bound; lia]).
  assert (CR2 : cong (eval n) (eval R2) (base_pow 64 * base_pow 64)) by (rewrite ER2; apply cong_of_mod; lia).
  assert (Hto : forall x r, cong (eval n) (eval r) (x * eval R2 * v) -> cong (eval n) (eval r) (x * base_pow 64)).
  { intros x r ->. rewrite CR2. replace (x * (base_pow 64 * base_pow 64) * v)
      with (x * base_pow 64 * (base_pow 64 * v)) by ring. rewrite Hv. by rewrite Z.mul_1_r. }
  destruct (mont_mod n v Hn Hodd Hv a R2 Ha HR2r) as (am & -> & Ham & Eam). cbn [mbind option_bind].
  destruct (mont_mod n v Hn Hodd Hv b R2 Hb HR2r) as (bm & -> & Hbm & Ebm). cbn [mbind option_bind].
  destruct (mont_mod n v Hn Hodd Hv am bm (proj1 Ham) Hbm) as (t & -> & Ht & Et). cbn [mbind option_bind].
  destruct bn_one_ok as [Ho Eo].
  destruct (mont_mod n v Hn Hodd Hv t bn_one (proj1 Ht)) as (r & -> & Hr & Er); [split; [done|lia]|].
  exists r. split; [done|]. split; [apply Hr|]. apply (reduced_eq n H1); [done|].
  rewrite Er, Eo, Et, (Hto _ _ Eam), (Hto _ _ Ebm).
  replace (eval a * base_pow 64 * (eval b * base_pow 64) * v * 1 * v)
    with (eval a * eval b * (base_pow 64 * v) * (base_pow 64 * v)) by ring.
  rewrite Hv. replace (eval a * eval b * 1 * 1) with (eval a * eval b) by ring. done.
Qed.

(** Garner's recombination. *)
Lemma garner P Q qinv d m1 m2 : 0 < Q -> 0 < P -> 0 <= m2 < Q -> (qinv * Q) mod P = 1 mod P ->
  cong P d (m1 - m2) ->
  let m := m2 + (qinv * d) mod P * Q in
  0 <= m < P * Q /\ cong P m m1 /\ cong Q m m2.
Proof.
  intros HQ HP Hm2 Hinv Hd m. pose proof (Z.mod_pos_bound (qinv * d) P ltac:(lia)) as Hh.
  assert (Ci : cong P (qinv * Q) 1).
  { transitivity ((qinv * Q) mod P); [symmetry; apply cong_of_mod; lia|]. rewrite Hinv. apply cong_of_mod. lia. }
  splits; [unfold m; nia|unfold m; nia| |].
  - unfold m. rewrite (cong_of_mod P (qinv * d)) by lia.
    replace (qinv * d * Q) with (qinv * Q * d) by ring. rewrite Ci, Hd. 
    replace (m2 + 1 * (m1 - m2)) with m1 by ring. done.
  - apply (cong_multiple _ _ _ ((qinv * d) mod P)). unfold m. ring.
Qed.

Lemma bn_diff_spec P m1 m2 : bn_ok P -> bn_ok m1 -> bn_ok m2 -> eval m2 <= eval P ->
  let d := if 0 <=? bn_cmp m1 m2 then bn_sub m1 m2 else bn_sub P (bn_sub m2 m1) in
  bn_ok d /\ cong (eval P) (eval d) (eval m1 - eval m2).
Proof.
  intros HP H1 H2 Hle. destruct (bn_cmp_spec m1 m2 H1 H2) as [-> _]. cbv zeta. case_ifZ.
  - destruct (bn_sub_spec m1 m2 H1 H2 ltac:(lia)) as [Hs ->]. done.
  - destruct (bn_sub_spec m2 m1 H2 H1 ltac:(lia)) as [Hs Es].
    pose proof (eval_bounds m1 (proj2 H1)).
    destruct (bn_sub_spec P _ HP Hs ltac:(lia)) as [Hs2 Es2]. split; [done|].
    rewrite Es2, Es. apply (cong_multiple _ _ _ 1). lia.
Qed.

Lemma bn_rsa_private_crt_eval inp p q dp dq qinv n :
  bytes inp -> bytes p -> bytes q -> bytes dp -> bytes dq -> bytes qinv -> bytes n ->
  len inp <= 256 -> len n = len inp -> len p <= 128 -> len q <= 128 ->
  len dp = len p -> len qinv = len p -> len dq = len q ->
  1 < be_value q < be_value p -> Z.odd (be_value p) = true -> Z.odd (be_value q) = true ->
  be_value n = be_value p * be_value q -> (be_value qinv * be_value q) mod be_value p = 1 ->
  exists m, bn_rsa_private_crt inp p q dp dq qinv n = Some (be_bytes (len inp) m) /\
    0 <= m < be_value n /\
    m mod be_value p = be_value inp ^ be_value dp mod be_value p /\
    m mod be_value q = be_value inp ^ be_value dq mod be_value q.
Proof.
  intros Bi Bp Bq Bdp Bdq Bqi Bn Li Ln Lp Lq Ldp Lqi Ldq Hqp Op Oq En Hinv.
  unfold bn_rsa_private_crt.
  rewrite (proj2 (Z.ltb_ge 256 _)), (proj2 (Z.ltb_ge 128 (len p))), (proj2 (Z.ltb_ge 128 (len q))) by lia.
  cbn [orb].
  destruct (load_be_spec inp Bi Li) as [Oi Ei]. destruct (load_be_spec p Bp ltac:(lia)) as [Okp Ep].
  destruct (load_be_spec q Bq ltac:(lia)) as [Okq Eq]. destruct (load_be_spec dp Bdp ltac:(lia)) as [Okdp Edp].
  destruct (load_be_spec dq Bdq ltac:(lia)) as [Okdq Edq]. destruct (load_be_spec qinv Bqi ltac:(lia)) as [Okqi Eqi].
  destruct (load_be_spec n Bn ltac:(lia)) as [Okn Enn].
  destruct (bn_mod_spec _ _ Oi Okp ltac:(lia)) as [Ocp Ecp]. destruct (bn_mod_spec _ _ Oi Okq ltac:(lia)) as [Ocq Ecq].
  destruct (bn_modpow_eval _ _ _ Ocp Okdp Okp ltac:(lia) ltac:(by rewrite Ep)) as (m1 & -> & O1 & E1).
  cbn [mbind option_bind].
  destruct (bn_modpow_eval _ _ _ Ocq Okdq Okq ltac:(lia) ltac:(by rewrite Eq)) as (m2 & -> & O2 & E2).
  cbn [mbind option_bind]. rewrite Ecp, Edp, Ep, Ei in E1. rewrite Ecq, Edq, Eq, Ei in E2.
  rewrite Z.mod_pow_l in E1, E2.
  pose proof (Z.mod_pos_bound (be_value inp ^ be_value dq) (be_value q) ltac:(lia)) as Hm2.
  destruct (bn_diff_spec (load_be p) m1 m2 Okp O1 O2 ltac:(lia)) as [Od Ed]. cbv zeta in Od, Ed.
  set (d := if 0 <=? bn_cmp m1 m2 then bn_sub m1 m2 else _) in *. clearbody d.
  destruct (bn_mod_mul_spec _ d _ Okqi Od Okp ltac:(lia) ltac:(by rewrite Ep)) as (h & -> & Oh & Eh).
  cbn [mbind option_bind]. rewrite Eqi, Ep in Eh. rewrite Ep in Ed.
  destruct (garner (be_value p) (be_value q) (be_value qinv) (eval d) (eval m1) (eval m2)) as (Hm & Cp & Cq);
    [lia|lia|lia|by rewrite Hinv, Z.mod_1_l by lia|done|].
  cbv zeta in Hm, Cp, Cq. rewrite <- Eh in Hm, Cp, Cq.
  destruct (bn_mul_wide_spec h (load_be q) Oh Okq) as (W1 & W2 & W3). rewrite Eq in W3.
  pose proof (eval_bounds _ (proj2 Okn)) as Bnn. rewrite (proj1 Okn), Enn in Bnn.
  assert (Hlt : eval (bn_mul_wide h (load_be q)) + eval m2 < be_value n) by lia.
  assert (H128 : base_pow 64 < base_pow 128) by (unfold base_pow; apply Z.pow_lt_mono_r; lia).
  destruct (add_limbs_spec m2 _ O2 W1 W2 ltac:(lia)) as (A1 & A2 & A3). cbv zeta in A1, A2, A3.
  set (w := fold_left (add_limb m2) _ _) in *. clearbody w.
  rewrite (wide_cmp_less w _ A1 A2 Okn) by lia.
  exists (eval w). split; [|split; [|split]].
  - apply f_equal, be_bytes_limbs; [done|unfold len in *; lia|done].
  - lia.
  - rewrite A3, W3. replace (eval h * be_value q + eval m2) with (eval m2 + eval h * be_value q) by lia.
    rewrite (cong_mod_eq (be_value p) _ (eval m1)), E1, Z.mod_mod by (done || lia). done.
  - rewrite A3, W3. replace (eval h * be_value q + eval m2) with (eval m2 + eval h * be_value q) by lia.
    rewrite (cong_mod_eq (be_value q) _ (eval m2)), E2, Z.mod_mod by (done || lia). done.
Qed.

(** The RSA private operation by CRT: for odd [p > q > 1] with
    [n = p * q] and [qinv * q = 1 mod p], [bn_rsa_private_crt] returns the bytes
    of the number below [n] that is [c ^ dp] modulo [p] and [c ^ dq] modulo
    [q]. *)
Theorem rsa_private_crt_spec inp p q dp dq qinv n :
  bytes inp -> bytes p -> bytes q -> bytes dp -> bytes dq -> bytes qinv -> bytes n ->
  len inp <= 256 -> len n = len inp -> len p <= 128 -> len q <= 128 ->
  len dp = len p -> len qinv = len p -> len dq = len q ->
  1 < be_value q < be_value p -> Z.odd (be_value p) = true -> Z.odd (be_value q) = true ->
  be_value n = be_value p * be_value q -> (be_value qinv * be_value q) mod be_value p = 1 ->
  exists m, bn_rsa_private_crt inp p q dp dq qinv n = Some (be_bytes (len inp) m) /\
    0 <= m < be_value n /\
    m mod be_value p = be_value inp ^ be_value dp mod be_value p /\
    m mod be_value q = be_value inp ^ be_value dq mod be_value q.
Proof. apply bn_rsa_private_crt_eval. Qed.

(** p = 61, q = 53, d = 2753: the ciphertext 2790 decrypts to 65. *)
Lemma rsa_private_crt_spec_witness :
  exists m, bn_rsa_private_crt [0; 0; 10; 230] [61] [53] [53] [49] [38] [0; 0; 12; 161]
      = Some (be_bytes (len [0; 0; 10; 230]) m) /\
    0 <= m < be_value [0; 0; 12; 161] /\
    m mod be_value [61] = be_value [0; 0; 10; 230] ^ be_value [53] mod be_value [61] /\
    m mod be_value [53] = be_value [0; 0; 10; 230] ^ be_value [49] mod be_value [53].
Proof.
  refine (rsa_private_crt_spec [0; 0; 10; 230] [61] [53] [53] [49] [38] [0; 0; 12; 161]
    _ _ _ _ _ _ _ _ _ _ _ _ _ _ _ _ _ _ _);
    first [check_bytes|vm_compute; reflexivity|vm_compute; discriminate|vm_compute; split; reflexivity].
Defined.
