(* ===== verification/X509.v ===== *)
(** * The certificate parser (kernel/lib/x509.c)

    The DER reader and the two functions that take the RSA key out of a
    certificate. A buffer is the list of its bytes, a pointer an offset in it;
    [u32] arithmetic wraps. A read outside the buffer, or a copy beyond the
    caller's array, is [Oob]; a scan that never ends is [Starved] for every
    fuel. The specification is an encoder of certificates. *)
From Stdlib Require Import ZArith Lia Bool.
From stdpp Require Import base list numbers option.
From S2P Require Import Prelude Bignum Nic.
#[local] Set Default Goal Selector "!".
Open Scope Z_scope.
Open Scope carray_scope.

Record der_t := Der { der_tag : Z; der_v : Z; der_len : Z }.

(** What follows the length field of the object at [p]. *)
Definition der_body (t p l hdr n : Z) : option der_t :=
  if n <? u32 (hdr + l) then None else Some (Der t (p + hdr) l).

Definition der_read (m : list Z) (p n : Z) : res (option der_t) :=
  if n <? 2 then Ok None
  else
    let* t := rd_byte m p in
    let* l := rd_byte m (p + 1) in
    if negb (Z.land l 128 =? 0) then
      let nbytes := Z.land l 127 in
      if (nbytes =? 0) || (4 <? nbytes) || (n <? 2 + nbytes) then Ok None
      else
        let* b := rd_bytes m (p + 2) nbytes in
        Ok (der_body t p (fold_left (fun l x => Z.lor (u32 (Z.shiftl l 8)) x) b 0) (2 + nbytes) n)
    else Ok (der_body t p l 2 n).

(** The test on one child of the tbs sequence: [SEQUENCE { SEQUENCE { OID .. },
    BIT STRING }]. *)
Definition spki_candidate (m : list Z) (e : der_t) : res (option (Z * Z)) :=
  if negb (der_tag e =? 48) then Ok None
  else
    let* a := der_read m (der_v e) (der_len e) in
    match a with
    | Some a =>
      if negb (der_tag a =? 48) then Ok None
      else
        let* oid := der_read m (der_v a) (der_len a) in
        match oid with
        | Some oid =>
          if negb (der_tag oid =? 6) then Ok None
          else
            let ql := u32 (der_len e - u32 (der_v a + der_len a - der_v e)) in
            let* b := der_read m (der_v a + der_len a) ql in
            match b with
            | Some b => if der_tag b =? 3 then Ok (Some (der_v b, der_len b)) else Ok None
            | None => Ok None
            end
        | None => Ok None
        end
    | None => Ok None
    end.

Fixpoint spki_scan (fuel : nat) (m : list Z) (p left : Z) : res (option (Z * Z)) :=
  if left <? 2 then Ok None
  else
    match fuel with
    | O => Starved
    | S fuel =>
      let* e := der_read m p left in
      match e with
      | None => Ok None
      | Some e =>
        let* hit := spki_candidate m e in
        match hit with
        | Some r => Ok (Some r)
        | None =>
          let consumed := u32 (der_v e + der_len e - p) in
          spki_scan fuel m (p + consumed) (u32 (left - consumed))
        end
      end
    end.

(** The bit string's place and length, [None] for -1. *)
Definition x509_get_spki_bitstring (fuel : nat) (m : list Z) (cert certlen : Z) : res (option (Z * Z)) :=
  let* top := der_read m cert certlen in
  match top with
  | Some top =>
    if negb (der_tag top =? 48) then Ok None
    else
      let* tbs := der_read m (der_v top) (der_len top) in
      match tbs with
      | Some tbs => if negb (der_tag tbs =? 48) then Ok None else spki_scan fuel m (der_v tbs) (der_len tbs)
      | None => Ok None
      end
  | None => Ok None
  end.

(** An INTEGER without its leading zero: where it starts and its length. *)
Definition der_int (m : list Z) (d : der_t) : res (Z * Z) :=
  if 1 <? der_len d then
    let* b := rd_byte m (der_v d) in
    Ok (if b =? 0 then (der_v d + 1, der_len d - 1) else (der_v d, der_len d))
  else Ok (der_v d, der_len d).

(** [memcpy] into an array of [cap] bytes. *)
Definition copy_out (m : list Z) (p n cap : Z) : res (list Z) :=
  if cap <? n then Oob else rd_bytes m p n.

(** The modulus and the exponent, for arrays of [modcap] and [expcap] bytes. *)
Definition x509_rsa_key (m : list Z) (spki bitstrlen modcap expcap : Z) : res (option (list Z * list Z)) :=
  if bitstrlen <? 1 then Ok None
  else
    let* seq := der_read m (spki + 1) (bitstrlen - 1) in
    match seq with
    | Some seq =>
      if negb (der_tag seq =? 48) then Ok None
      else
        let* d := der_read m (der_v seq) (der_len seq) in
        match d with
        | Some d =>
          if negb (der_tag d =? 2) then Ok None
          else if (der_len d =? 0) || (257 <? der_len d) then Ok None
          else
            let* (mv, mlen) := der_int m d in
            let* modulus := copy_out m mv mlen modcap in
            let ql := u32 (der_len seq - u32 (der_v d + der_len d - der_v seq)) in
            let* e := der_read m (der_v d + der_len d) ql in
            match e with
            | Some e =>
              if negb (der_tag e =? 2) then Ok None
              else
                let* (ev, elen) := der_int m e in
                let* exponent := copy_out m ev (if 8 <? elen then 8 else elen) expcap in
                Ok (Some (modulus, exponent))
            | None => Ok None
            end
        | None => Ok None
        end
    | None => Ok None
    end.

(** * Reading what an encoder wrote *)
(** The bytes [l] stand at offset [p] of the buffer. *)
Definition at_ (m : list Z) (p : Z) (l : list Z) : Prop := exists a b, m = a ++ l ++ b /\ p = len a.

Lemma at_app m p x y : at_ m p (x ++ y) -> at_ m p x /\ at_ m (p + len x) y.
Proof.
  intros (a & b & -> & ->). split.
  - exists a, (y ++ b). by rewrite <- app_assoc.
  - exists (a ++ x), b. rewrite len_app. split; [|done]. by rewrite <- !app_assoc.
Qed.

Lemma at_cons m p x l : at_ m p (x :: l) -> rd_byte m p = Ok x /\ at_ m (p + 1) l.
Proof.
  intros H. split; [|exact (proj2 (at_app m p [x] l H))]. destruct H as (a & b & -> & ->).
  pose proof (len_nonneg a). pose proof (len_nonneg (l ++ b)).
  rewrite rd_byte_ok by (rewrite len_app; unfold len in *; cbn; lia).
  rewrite nthZ_app_r, Z.sub_diag by lia. done.
Qed.

Lemma at_rd m p l : at_ m p l -> rd_bytes m p (len l) = Ok l.
Proof.
  intros (a & b & -> & ->). pose proof (len_nonneg a). pose proof (len_nonneg l). pose proof (len_nonneg b).
  rewrite rd_bytes_ok by (rewrite ?len_app; lia).
  rewrite slice_app_r, Z.sub_diag, slice_app_l by lia. by rewrite slice_all.
Qed.

Lemma at_bytes m p l : at_ m p l -> bytes m -> bytes l.
Proof.
  intros (a & b & -> & _) (_ & (H & _)%Forall_app)%Forall_app. exact H.
Qed.

Lemma at_take m p l k : at_ m p l -> at_ m p (take k l).
Proof. intros H. rewrite <- (take_drop k l) in H. exact (proj1 (at_app _ _ _ _ H)). Qed.

(** ** Lengths *)
Definition der_length (l : Z) : list Z :=
  if l <? 128 then [l]
  else if l <? 256 then 129 :: be_bytes 1 l
  else if l <? 65536 then 130 :: be_bytes 2 l
  else if l <? 16777216 then 131 :: be_bytes 3 l
  else 132 :: be_bytes 4 l.

(** An object: its tag, the length of its contents, the contents. *)
Definition der_enc (t : Z) (b : list Z) : list Z := t :: der_length (len b) ++ b.
Definition hdr_of (b : list Z) : Z := 1 + len (der_length (len b)).

Lemma be_bytes_len n x : 0 <= n -> len (be_bytes n x) = n.
Proof. intros. unfold be_bytes, len. rewrite length_map, length_seqZ. lia. Qed.

Lemma be_bytes_ok n x : bytes (be_bytes n x).
Proof.
  unfold be_bytes. apply List.Forall_forall. intros y Hy. apply in_map_iff in Hy as (i & <- & _).
  unfold byte. apply Z.mod_pos_bound. lia.
Qed.

Lemma be_bytes_S n x : 0 <= n -> be_bytes (n + 1) x = be_bytes n (x / 256) ++ [x mod 256].
Proof.
  intros Hn. unfold be_bytes. rewrite seqZ_app by lia. rewrite map_app. f_equal.
  - apply map_ext_in. intros i Hi%list_elem_of_In. apply elem_of_seqZ in Hi.
    rewrite Z.div_div by lia. f_equal. f_equal.
    replace (n + 1 - 1 - i) with (1 + (n - 1 - i)) by lia. by rewrite Z.pow_add_r by lia.
  - replace (seqZ (0 + n) 1) with [n] by (unfold seqZ; cbn; f_equal; lia). cbn [map]. replace (n + 1 - 1 - n) with 0 by lia. by rewrite Z.pow_0_r, Z.div_1_r.
Qed.

Lemma be_value_be_bytes n : 0 <= n -> forall x, 0 <= x < 256 ^ n -> be_value (be_bytes n x) = x.
Proof.
  revert n. apply (natlike_ind (fun n => forall x, 0 <= x < 256 ^ n -> be_value (be_bytes n x) = x)).
  - intros x Hx. rewrite Z.pow_0_r in Hx. change (be_bytes 0 x) with (@nil Z). unfold be_value. cbn. lia.
  - intros n Hn IH x Hx. unfold Z.succ in *. rewrite Z.pow_add_r in Hx by lia.
    change (256 ^ 1) with 256 in Hx. pose proof (Z.div_mod x 256). pose proof (Z.mod_pos_bound x 256).
    rewrite be_bytes_S, be_value_app, IH by lia. lia.
Qed.

(** The loop that collects the length's bytes. *)
Lemma length_loop l : bytes l -> len l <= 4 ->
  fold_left (fun l x => Z.lor (u32 (Z.shiftl l 8)) x) l 0 = be_value l /\ 0 <= be_value l < 256 ^ len l.
Proof.
  induction l as [|x l IH] using rev_ind; [done|]. intros (Hl & Hx)%Forall_app Hlen.
  apply Forall_cons_1 in Hx as [Hx _]. rewrite len_app in *. change (len [x]) with 1 in *.
  pose proof (len_nonneg l). destruct (IH Hl ltac:(lia)) as [E B].
  rewrite be_value_app, fold_left_app, E. cbn [fold_left]. rewrite Z.pow_add_r by lia.
  assert (256 ^ len l <= 256 ^ 3) by (apply Z.pow_le_mono_r; lia). unfold byte in Hx.
  rewrite Z.shiftl_mul_pow2 by lia. change (2 ^ 8) with 256. change (256 ^ 3) with 16777216 in *.
  rewrite u32_small by lia. rewrite (lor_disjoint _ x 8) by (try apply Z.divide_factor_r; lia). lia.
Qed.

Lemma short_form l : 0 <= l < 128 -> Z.land l 128 = 0.
Proof.
  intros H. apply Z.eqb_eq.
  pose proof (all_bytes (fun a => implb (a <? 128) (Z.land a 128 =? 0)) eq_refl l ltac:(unfold byte; lia)) as E.
  cbn beta in E. by rewrite (proj2 (Z.ltb_lt l 128)) in E by lia.
Qed.

(** [der_read] finds an encoded object, wherever it stands, if it fits. *)
Lemma der_read_enc m p t b n : at_ m p (der_enc t b) -> len (der_enc t b) <= n < 4294967296 ->
  der_read m p n = Ok (Some (Der t (p + hdr_of b) (len b))) /\ at_ m (p + hdr_of b) b.
Proof.
  intros H Hn. unfold der_enc in *. destruct (at_cons _ _ _ _ H) as [Ht Hl].
  destruct (at_app _ _ _ _ Hl) as [Hlen Hb].
  assert (at_ m (p + hdr_of b) b) as Hb' by (unfold hdr_of; by rewrite Z.add_assoc). split; [|exact Hb'].
  change (t :: der_length (len b) ++ b) with ([t] ++ der_length (len b) ++ b) in Hn.
  rewrite !len_app in Hn. change (len [t]) with 1 in Hn.
  pose proof (len_nonneg b) as Hb0. clear Hb Hl H.
  assert (forall k, 1 <= k <= 4 -> len b < 256 ^ k -> Z.land (128 + k) 128 <> 0 -> Z.land (128 + k) 127 = k ->
    der_length (len b) = (128 + k) :: be_bytes k (len b) ->
    der_read m p n = Ok (Some (Der t (p + hdr_of b) (len b)))) as Hlong.
  { intros k Hk Hs H1 H2 E. unfold hdr_of in *. rewrite E in *. destruct (at_cons _ _ _ _ Hlen) as [Hk1 Hk2].
    change (len ((128 + k) :: be_bytes k (len b))) with (len ([128 + k] ++ be_bytes k (len b))) in *.
    rewrite len_app, be_bytes_len in * by lia. change (len [128 + k]) with 1 in *.
    unfold der_read. rewrite (proj2 (Z.ltb_ge n 2)) by lia. rewrite Ht, Hk1. cbn [rbind].
    rewrite (proj2 (Z.eqb_neq _ 0) H1), H2. cbn [negb].
    rewrite (proj2 (Z.eqb_neq k 0)), (proj2 (Z.ltb_ge 4 k)), (proj2 (Z.ltb_ge n (2 + k))) by lia. cbn [orb].
    apply at_rd in Hk2. rewrite be_bytes_len in Hk2 by lia. replace (p + 2) with (p + 1 + 1) by lia. rewrite Hk2.
    cbn [rbind]. rewrite (proj1 (length_loop (be_bytes k (len b)) (be_bytes_ok _ _) ltac:(rewrite be_bytes_len; lia))).
    rewrite be_value_be_bytes by lia. unfold der_body. rewrite u32_small by lia.
    rewrite (proj2 (Z.ltb_ge n _)) by lia. do 3 f_equal. lia. }
  unfold der_length in Hlong. destruct (Z.ltb_spec (len b) 128).
  - clear Hlong. unfold hdr_of, der_length in *. rewrite (proj2 (Z.ltb_lt (len b) 128)) in * by lia.
    change (len [len b]) with 1 in *. destruct (at_cons _ _ _ _ Hlen) as [Hl1 _].
    unfold der_read. rewrite (proj2 (Z.ltb_ge n 2)) by lia. rewrite Ht, Hl1. cbn [rbind].
    rewrite short_form by lia. cbn [negb Z.eqb]. unfold der_body. rewrite u32_small by lia.
    by rewrite (proj2 (Z.ltb_ge n (2 + len b))) by lia.
  - destruct (Z.ltb_spec (len b) 256); [by apply (Hlong 1)|].
    destruct (Z.ltb_spec (len b) 65536); [by apply (Hlong 2)|].
    destruct (Z.ltb_spec (len b) 16777216); [by apply (Hlong 3)|].
    apply (Hlong 4); try done. change (256 ^ 4) with 4294967296.
    pose proof (len_nonneg (der_length (len b))). lia.
Qed.

(** ** Certificates *)
(** A non-negative INTEGER: a zero comes first when the top bit is set. *)
Definition der_uint (n : list Z) : list Z := if 128 <=? n.[0] then 0 :: n else n.
Definition rsa_public_key (n e : list Z) : list Z :=
  der_enc 48 (der_enc 2 (der_uint n) ++ der_enc 2 (der_uint e)).
Definition spki (oid params : list Z) (unused : Z) (n e : list Z) : list Z :=
  der_enc 48 (der_enc 48 (der_enc 6 oid ++ params) ++ der_enc 3 (unused :: rsa_public_key n e)).
Definition field_enc (f : Z * list Z) : list Z := der_enc (fst f) (snd f).
Definition certificate (fields : list (Z * list Z)) (key rest sig : list Z) : list Z :=
  der_enc 48 (der_enc 48 (concat (field_enc <$> fields) ++ key ++ rest) ++ sig).

(** The fields before the key: version, serial number, algorithm, names and
    validity. None of them is a sequence that starts with a sequence. *)
Definition plain_field (f : Z * list Z) : Prop :=
  fst f <> 48 \/ snd f = [] \/ exists t b r, snd f = der_enc t b ++ r /\ t <> 48.

(** A number without leading zeros, of at most [k] bytes. *)
Definition uint_bytes (k : Z) (n : list Z) : Prop := 1 <= len n <= k /\ 0 < n.[0].

Lemma len_cons (x : Z) l : len (x :: l) = 1 + len l.
Proof. unfold len. cbn [length]. lia. Qed.

Lemma len_der_enc t b : len (der_enc t b) = hdr_of b + len b.
Proof. unfold der_enc, hdr_of. rewrite len_cons, len_app. lia. Qed.

Lemma der_int_uint m d n k : at_ m (der_v d) (der_uint n) -> der_len d = len (der_uint n) -> uint_bytes k n ->
  exists p, der_int m d = Ok (p, len n) /\ at_ m p n.
Proof.
  intros H Hd [Hn H0]. unfold der_int. rewrite Hd. unfold der_uint in *. destruct (Z.leb_spec 128 (n.[0])).
  - apply at_cons in H as [Hz Hr]. rewrite len_cons, (proj2 (Z.ltb_lt 1 _)), Hz by lia. cbn [rbind].
    rewrite ?Hd, ?len_cons. exists (der_v d + 1). split; [|done]. cbn. do 2 f_equal. lia.
  - case_ifZ; [|eauto]. destruct n as [|x n]; [by cbn in Hn|].
    pose proof (at_cons _ _ _ _ H) as [-> _]. cbn [rbind]. change ((x :: n).[0]) with x in *.
    rewrite (proj2 (Z.eqb_neq x 0)) by lia. eauto.
Qed.

Lemma len_der_uint n k : uint_bytes k n -> 0 < len (der_uint n) <= k + 1.
Proof. intros [??]. unfold der_uint. destruct (_ <=? _); rewrite ?len_cons; lia. Qed.

Lemma hdr_pos b : 1 <= hdr_of b.
Proof. unfold hdr_of. pose proof (len_nonneg (der_length (len b))). lia. Qed.

(** An object and what follows it: the reader's result, and the length the code
    computes for the rest. *)
Lemma der_read_next m p t b r : at_ m p (der_enc t b ++ r) -> len (der_enc t b ++ r) < 4294967296 ->
  exists w, w = p + hdr_of b /\
    der_read m p (len (der_enc t b ++ r)) = Ok (Some (Der t w (len b))) /\
    at_ m w b /\ at_ m (w + len b) r /\
    u32 (w + len b - p) = len (der_enc t b) /\
    u32 (len (der_enc t b ++ r) - len (der_enc t b)) = len r.
Proof.
  intros H Hl. rewrite len_app in *. destruct (at_app _ _ _ _ H) as [H1 H2].
  pose proof (len_nonneg r). pose proof (len_nonneg b). pose proof (hdr_pos b).
  destruct (der_read_enc m p t b (len (der_enc t b) + len r) H1 ltac:(lia)) as [E Hb].
  rewrite len_der_enc in *. exists (p + hdr_of b). split; [done|]. split; [exact E|]. split; [exact Hb|].
  split; [by rewrite <- Z.add_assoc|]. split; rewrite u32_small; lia.
Qed.

Lemma x509_rsa_key_enc m p unused n e modcap expcap :
  at_ m p (unused :: rsa_public_key n e) -> len (rsa_public_key n e) < 4294967296 ->
  uint_bytes 256 n -> uint_bytes 8 e -> 256 <= modcap -> 8 <= expcap ->
  x509_rsa_key m p (len (unused :: rsa_public_key n e)) modcap expcap = Ok (Some (n, e)).
Proof.
  intros H Hl Hn He Hm Hx. unfold x509_rsa_key. rewrite len_cons. pose proof (len_nonneg (rsa_public_key n e)).
  rewrite (proj2 (Z.ltb_ge _ 1)) by lia. apply at_cons in H as [_ H].
  replace (1 + len (rsa_public_key n e) - 1) with (len (rsa_public_key n e)) by lia.
  unfold rsa_public_key in *. rewrite <- (app_nil_r (der_enc 48 _)) in *.
  destruct (der_read_next _ _ _ _ _ H Hl) as (q & _ & -> & Hb & _). cbn [rbind der_tag der_v der_len].
  assert (len (der_enc 2 (der_uint n) ++ der_enc 2 (der_uint e)) < 4294967296) as Hl'
    by (rewrite app_nil_r, len_der_enc in Hl; pose proof (hdr_pos (der_enc 2 (der_uint n) ++ der_enc 2 (der_uint e))); lia).
  clear H Hl. change (negb (48 =? 48)) with false. cbv iota.
  destruct (der_read_next _ _ _ _ _ Hb Hl') as (w & _ & -> & Hn' & He' & C & L). cbn [rbind der_tag der_v der_len].
  change (negb (2 =? 2)) with false. cbv iota.
  pose proof (len_der_uint n 256 Hn). pose proof (len_der_uint e 8 He).
  rewrite (proj2 (Z.eqb_neq _ 0)), (proj2 (Z.ltb_ge 257 _)) by lia. cbn [orb].
  destruct (der_int_uint m (Der 2 w (len (der_uint n))) n 256 Hn' eq_refl Hn) as (pn & -> & An).
  cbn [rbind]. unfold copy_out at 1. destruct Hn as [Hn _]. rewrite (proj2 (Z.ltb_ge modcap _)) by lia.
  rewrite (at_rd _ _ _ An). cbn [rbind]. rewrite C, L.
  rewrite len_app in Hl'. pose proof (len_nonneg (der_enc 2 (der_uint n))).
  destruct (der_read_enc m _ 2 (der_uint e) (len (der_enc 2 (der_uint e))) He' ltac:(lia)) as [-> Ae'].
  cbn [rbind der_tag der_v der_len]. change (negb (2 =? 2)) with false. cbv iota.
  destruct (der_int_uint m (Der 2 _ (len (der_uint e))) e 8 Ae' eq_refl He) as (pe & -> & Ae).
  cbn [rbind]. destruct He as [He _]. rewrite (proj2 (Z.ltb_ge 8 (len e))) by lia.
  unfold copy_out. rewrite (proj2 (Z.ltb_ge expcap _)) by lia. by rewrite (at_rd _ _ _ Ae).
Qed.

Lemma plain_candidate m t w b : plain_field (t, b) -> at_ m w b -> len b < 4294967296 ->
  spki_candidate m (Der t w (len b)) = Ok None.
Proof.
  intros Hp Hb Hl. unfold spki_candidate. cbn [der_tag der_v der_len].
  destruct (Z.eqb_spec t 48) as [->|]; [cbn [negb]|done].
  destruct Hp as [?|Hp]; [done|]. cbn [snd] in Hp. destruct Hp as [->|(t' & b' & r & -> & Ht)]; [done|].
  destruct (der_read_next _ _ _ _ _ Hb Hl) as (q & _ & -> & _). cbn [rbind der_tag].
  by rewrite (proj2 (Z.eqb_neq t' 48)).
Qed.

Lemma spki_candidate_enc m w oid params unused n e :
  let body := der_enc 48 (der_enc 6 oid ++ params) ++ der_enc 3 (unused :: rsa_public_key n e) in
  at_ m w body -> len body < 4294967296 ->
  exists b, spki_candidate m (Der 48 w (len body)) = Ok (Some (b, len (unused :: rsa_public_key n e))) /\
    at_ m b (unused :: rsa_public_key n e).
Proof.
  intros body H Hl. unfold spki_candidate. cbn [der_tag der_v der_len]. change (negb (48 =? 48)) with false. cbv iota.
  unfold body in *. destruct (der_read_next _ _ _ _ _ H Hl) as (q & _ & -> & Ha & Hb & C & L).
  cbn [rbind der_tag der_v der_len]. rewrite C, L. change (negb (48 =? 48)) with false. cbv iota.
  pose proof (len_nonneg (der_enc 48 (der_enc 6 oid ++ params))). rewrite len_app in Hl.
  pose proof (len_nonneg (der_enc 3 (unused :: rsa_public_key n e))).
  rewrite len_der_enc in Hl. pose proof (hdr_pos (der_enc 6 oid ++ params)).
  destruct (der_read_next _ _ _ _ _ Ha ltac:(lia)) as (q' & _ & -> & _). cbn [rbind der_tag].
  change (negb (6 =? 6)) with false. cbv iota.
  pose proof (len_nonneg (der_enc 6 oid ++ params)).
  destruct (der_read_enc m _ _ _ (len (der_enc 3 (unused :: rsa_public_key n e))) Hb ltac:(lia)) as [-> Hk].
  cbn [rbind der_tag der_v der_len]. eauto.
Qed.

Lemma len_der_enc_2 t b r : 2 <= len (der_enc t b ++ r).
Proof.
  unfold der_enc. rewrite !len_app, len_cons, len_app. pose proof (len_nonneg b). pose proof (len_nonneg r).
  unfold der_length. repeat case_ifZ; rewrite ?len_cons, ?be_bytes_len by lia; change (len []) with 0; lia.
Qed.

Lemma spki_scan_enc oid params unused n e rest fields : forall fuel m p,
  let l := concat (field_enc <$> fields) ++ spki oid params unused n e ++ rest in
  Forall plain_field fields -> (length fields < fuel)%nat -> at_ m p l -> len l < 4294967296 ->
  exists b, spki_scan fuel m p (len l) = Ok (Some (b, len (unused :: rsa_public_key n e))) /\
    at_ m b (unused :: rsa_public_key n e).
Proof.
  induction fields as [|[t b] fields IH]; intros fuel m p l Hf Hfuel H Hl;
    (destruct fuel as [|fuel]; [cbn in Hfuel; lia|]); unfold l in *; clear l; cbn [spki_scan fmap list_fmap concat] in *.
  - rewrite app_nil_l in *. unfold spki in *. rewrite (proj2 (Z.ltb_ge _ 2)) by apply len_der_enc_2.
    destruct (der_read_next _ _ _ _ _ H Hl) as (w & _ & -> & Hb & _). cbn [rbind].
    rewrite len_app, len_der_enc in Hl. match type of Hl with context [hdr_of ?x] => pose proof (hdr_pos x) end.
    pose proof (len_nonneg rest).
    destruct (spki_candidate_enc m w oid params unused n e Hb ltac:(lia)) as (k & -> & Hk). cbn [rbind]. eauto.
  - apply Forall_cons_1 in Hf as [Hp Hf]. rewrite <- app_assoc in *. change (field_enc (t, b)) with (der_enc t b) in *.
    rewrite (proj2 (Z.ltb_ge _ 2)) by apply len_der_enc_2.
    destruct (der_read_next _ _ _ _ _ H Hl) as (w & Ew & -> & Hb & Hr & C & L). cbn [rbind der_v der_len].
    rewrite len_app in Hl. rewrite len_der_enc in Hl. pose proof (hdr_pos b).
    match type of Hl with context [_ + len ?x < _] => pose proof (len_nonneg x) end. pose proof (len_nonneg b).
    rewrite (plain_candidate m t w b Hp Hb) by lia. cbn [rbind]. rewrite C, L.
    replace (p + len (der_enc t b)) with (w + len b) by (rewrite len_der_enc; lia).
    apply IH; [done|cbn in Hfuel; lia|exact Hr|lia].
Qed.


Lemma x509_finds_key fuel m p fields oid params unused n e rest sig :
  let cert := certificate fields (spki oid params unused n e) rest sig in
  at_ m p cert -> len cert < 4294967296 -> (length fields < fuel)%nat ->
  Forall plain_field fields -> uint_bytes 256 n -> uint_bytes 8 e ->
  exists bits bitslen,
    x509_get_spki_bitstring fuel m p (len cert) = Ok (Some (bits, bitslen)) /\
    x509_rsa_key m bits bitslen 256 8 = Ok (Some (n, e)).
Proof.
  intros cert H Hl Hfuel Hf Hn He. unfold cert, certificate in *. clear cert.
  rewrite <- (app_nil_r (der_enc 48 (_ ++ sig))) in *. unfold x509_get_spki_bitstring.
  set (fs := concat (field_enc <$> fields) ++ spki oid params unused n e ++ rest) in *.
  destruct (der_read_next _ _ _ _ _ H Hl) as (w & _ & -> & Hb & _). cbn [rbind der_tag der_v der_len].
  rewrite app_nil_r, len_der_enc in Hl. pose proof (hdr_pos (der_enc 48 fs ++ sig)).
  change (negb (48 =? 48)) with false. cbv iota.
  destruct (der_read_next _ _ _ _ _ Hb ltac:(lia)) as (q & _ & -> & Hs & _). cbn [rbind der_tag der_v der_len].
  change (negb (48 =? 48)) with false. cbv iota.
  rewrite len_app, len_der_enc in Hl. pose proof (hdr_pos fs). pose proof (len_nonneg sig). pose proof (len_nonneg fs).
  destruct (spki_scan_enc oid params unused n e rest fields fuel m q Hf Hfuel Hs ltac:(unfold fs in *; lia)) as (b & E & Hk).
  unfold fs in *. rewrite E. do 2 eexists. split; [done|].
  apply x509_rsa_key_enc; try done.
  clear - Hl. unfold spki in *. rewrite !len_app, len_der_enc, len_app, (len_der_enc 3), len_cons in Hl.
  pose proof (len_nonneg (concat (field_enc <$> fields))). pose proof (len_nonneg rest). pose proof (len_nonneg sig).
  repeat match type of Hl with
    | context [hdr_of ?x] => pose proof (hdr_pos x); generalize dependent (hdr_of x); intros
    | context [len (der_enc ?t ?x)] => pose proof (len_nonneg (der_enc t x)); generalize dependent (len (der_enc t x)); intros
    end; lia.
Qed.

(** [C30] The parser undoes the encoder: for a certificate at any place of a
    buffer, with any fields before the key (none of them a sequence that starts
    with a sequence), any algorithm, extensions and signature,
    [x509_get_spki_bitstring] finds the key's bit string and [x509_rsa_key]
    returns the modulus and the exponent that were encoded, without a leading
    zero, for a modulus of up to 256 bytes and an exponent of up to eight. *)
Theorem x509_roundtrip fuel m p fields oid params unused n e rest sig :
  let cert := certificate fields (spki oid params unused n e) rest sig in
  at_ m p cert -> len cert < 4294967296 -> (length fields < fuel)%nat ->
  Forall plain_field fields -> uint_bytes 256 n -> uint_bytes 8 e ->
  exists bits bitslen,
    x509_get_spki_bitstring fuel m p (len cert) = Ok (Some (bits, bitslen)) /\
    x509_rsa_key m bits bitslen 256 8 = Ok (Some (n, e)).
Proof. apply x509_finds_key. Qed.

(** ** Safety *)
(** No length field announces within six bytes of [2^32]. *)
Definition no_huge (m : list Z) : Prop :=
  forall a b x, m = a ++ [132; 255; 255; 255; x] ++ b -> x < 250.

(** The object lies in the [n] bytes at [p]. *)
Definition within (p n : Z) (d : der_t) : Prop :=
  p + 2 <= der_v d /\ 0 <= der_len d < 4294967296 /\ der_v d + der_len d <= p + n.

(** The parser's buffer, and the window it may read. *)
Definition window (m : list Z) (p n : Z) : Prop :=
  bytes m /\ no_huge m /\ 0 <= p /\ 0 <= n < 4294967296 /\ p + n <= len m.

Lemma slice_mid (m : list Z) o n : 0 <= o -> 0 <= n -> o + n <= len m ->
  exists a b, m = a ++ slice m o n ++ b.
Proof.
  intros. exists (take (Z.to_nat o) m), (drop (Z.to_nat n) (drop (Z.to_nat o) m)).
  unfold slice. by rewrite !take_drop.
Qed.

(** A four-byte length is below the six bytes that would wrap. *)
Lemma no_huge_length m o : bytes m -> no_huge m -> 0 <= o -> o + 5 <= len m -> m.[o] = 132 ->
  be_value (slice m (o + 1) 4) < 4294967290.
Proof.
  intros Hm Hh Ho Hl E. destruct (slice_mid m o 5 Ho ltac:(lia) Hl) as (a & b & Eab).
  assert (slice m o 5 = 132 :: slice m (o + 1) 4) as Es.
  { unfold slice. replace (Z.to_nat (o + 1)) with (S (Z.to_nat o)) by lia. change (Z.to_nat 5) with (S (Z.to_nat 4)).
    destruct (lookup_lt_is_Some_2 m (Z.to_nat o) ltac:(unfold len in Hl; lia)) as [y Hy].
    unfold nthZ in E. rewrite nth_lookup, Hy in E. cbn in E. subst y. by rewrite (drop_S m 132). }
  assert (length (slice m (o + 1) 4) = 4%nat) as L4 by (by rewrite length_slice by lia).
  pose proof (bytes_slice m (o + 1) 4 Hm) as B4. rewrite Es in Eab. clear Es.
  destruct (slice m (o + 1) 4) as [|x0 [|x1 [|x2 [|x3 [|]]]]]; try discriminate L4.
  apply Forall_cons_1 in B4 as [B0 B4]. apply Forall_cons_1 in B4 as [B1 B4].
  apply Forall_cons_1 in B4 as [B2 B4]. apply Forall_cons_1 in B4 as [B3 _]. unfold byte in *.
  unfold be_value. cbn [fold_left].
  destruct (Z.eq_dec x0 255) as [->|]; [|lia]. destruct (Z.eq_dec x1 255) as [->|]; [|lia].
  destruct (Z.eq_dec x2 255) as [->|]; [|lia]. specialize (Hh a b x3 Eab). lia.
Qed.

Lemma length_byte b : byte b -> 0 <= Z.land b 127 < 128 /\
  (Z.land b 128 = 0 -> b < 128) /\ (Z.land b 128 <> 0 -> b = 128 + Z.land b 127).
Proof.
  intros H.
  pose proof (all_bytes (fun a => (0 <=? Z.land a 127) && (Z.land a 127 <? 128) &&
    (if Z.land a 128 =? 0 then a <? 128 else a =? 128 + Z.land a 127)) eq_refl b H) as E.
  cbn beta in E. destruct (Z.eqb_spec (Z.land b 128) 0); zbool; lia.
Qed.

Lemma der_read_safe m p n : window m p n ->
  exists r, der_read m p n = Ok r /\ forall d, r = Some d -> within p n d.
Proof.
  intros (Hm & Hh & Hp & Hn & Hl). unfold der_read. case_ifZ; [eauto with congruence|].
  rewrite !rd_byte_ok by lia. cbn [rbind]. pose proof (nthZ_byte m (p + 1) Hm) as B1.
  destruct (length_byte _ B1) as (R & S & L). unfold byte in B1.
  assert (forall l hdr, 0 <= l -> 2 <= hdr -> hdr + l < 4294967296 ->
    forall d, der_body (m.[p]) p l hdr n = Some d -> within p n d) as Hbody.
  { intros l hdr Hl0 Hh0 Hw d. unfold der_body. rewrite u32_small by lia. case_ifZ; [done|].
    intros [= <-]. unfold within. cbn. lia. }
  destruct (Z.eqb_spec (Z.land (m.[p + 1]) 128) 0) as [F|F]; cbn [negb].
  { eexists. split; [done|]. apply Hbody; specialize (S F); lia. }
  case_ifZ; [eauto with congruence|]. set (k := Z.land _ 127) in *.
  rewrite rd_bytes_ok by lia. cbn [rbind]. eexists. split; [done|].
  assert (len (slice m (p + 2) k) = k) as Lk by (unfold len; rewrite length_slice by lia; lia).
  destruct (length_loop (slice m (p + 2) k) (bytes_slice _ _ _ Hm) ltac:(lia)) as [-> Hv]. rewrite Lk in Hv.
  apply Hbody; [lia|lia|]. destruct (Z.eq_dec k 4) as [E4|].
  - pose proof (no_huge_length m (p + 1) Hm Hh ltac:(lia) ltac:(lia) ltac:(specialize (L F); lia)) as Hnb.
    rewrite E4. replace (p + 2) with (p + 1 + 1) by lia. lia.
  - assert (256 ^ k <= 256 ^ 3) by (apply Z.pow_le_mono_r; lia). change (256 ^ 3) with 16777216 in *. lia.
Qed.

Lemma within_window m p n d : window m p n -> within p n d -> window m (der_v d) (der_len d).
Proof. intros (? & ? & ? & ? & ?) (? & ? & ?). unfold window. splits; (done || lia). Qed.

(** What follows an object, up to the end of the window. *)
Lemma rest_window m p n d : window m p n -> within p n d ->
  let c := u32 (der_v d + der_len d - p) in
  c = der_v d + der_len d - p /\ 2 <= c /\ u32 (n - c) = n - c /\ window m (der_v d + der_len d) (n - c).
Proof.
  intros (? & ? & ? & ? & ?) (? & ? & ?) c. subst c. rewrite (u32_small (der_v d + der_len d - p)) by lia.
  rewrite u32_small by lia. unfold window. splits; (done || lia).
Qed.

(** One read, whose result or failure the rest handles. *)
Lemma read_bind {A} (P : res (option A) -> Prop) m p n f : window m p n -> P (Ok None) ->
  (forall d, within p n d -> P (f d)) ->
  P (rbind (der_read m p n) (fun r => match r with Some d => f d | None => Ok None end)).
Proof.
  intros Hw H0 Hf. destruct (der_read_safe m p n Hw) as ([d|] & -> & Hd); cbn [rbind]; [|done].
  apply Hf, Hd. done.
Qed.

(** A result, and a found region inside the window. *)
Definition found (m : list Z) (r : res (option (Z * Z))) : Prop :=
  match r with Ok (Some (b, l)) => window m b l | Ok None => True | _ => False end.

Lemma spki_candidate_safe m p n e : window m p n -> within p n e -> found m (spki_candidate m e).
Proof.
  intros Hw He. pose proof (within_window _ _ _ _ Hw He) as We. unfold spki_candidate.
  case_ifZ; [done|]. apply (read_bind (found m) _ _ _ _ We); [done|]. intros a Ha. case_ifZ; [done|].
  apply (read_bind (found m) _ _ _ _ (within_window _ _ _ _ We Ha)); [done|]. intros oid Ho. case_ifZ; [done|].
  destruct (rest_window m _ _ a We Ha) as (-> & _ & -> & Wr). cbv zeta.
  apply (read_bind (found m) _ _ _ _ Wr); [done|]. intros b Hb. case_ifZ; [|done].
  exact (within_window _ _ _ _ Wr Hb).
Qed.

Lemma spki_scan_safe m fuel : forall p n, window m p n -> n < 2 * Z.of_nat fuel + 2 -> found m (spki_scan fuel m p n).
Proof.
  induction fuel as [|fuel IH]; intros p n Hw Hf; cbn [spki_scan]; (case_ifZ; [done|]); [lia|].
  apply (read_bind (found m) _ _ _ _ Hw); [done|]. intros e He.
  pose proof (spki_candidate_safe m p n e Hw He) as Hc. unfold found in Hc.
  destruct (spki_candidate m e) as [[[b l]|]| |]; try done. cbn [rbind].
  destruct (rest_window m p n e Hw He) as (-> & H2 & -> & Wr). cbv zeta in *.
  replace (p + (der_v e + der_len e - p)) with (der_v e + der_len e) by lia. apply IH; [exact Wr|lia].
Qed.

Lemma x509_get_safe m p n fuel : window m p n -> n <= 2 * Z.of_nat fuel ->
  found m (x509_get_spki_bitstring fuel m p n).
Proof.
  intros Hw Hf. unfold x509_get_spki_bitstring. apply (read_bind (found m) _ _ _ _ Hw); [done|].
  intros t Ht. case_ifZ; [done|]. pose proof (within_window _ _ _ _ Hw Ht) as Wt.
  apply (read_bind (found m) _ _ _ _ Wt); [done|]. intros s Hs. case_ifZ; [done|].
  apply spki_scan_safe; [exact (within_window _ _ _ _ Wt Hs)|]. destruct Ht as (? & ? & ?), Hs as (? & ? & ?). lia.
Qed.

Lemma der_int_safe m d : window m (der_v d) (der_len d) ->
  exists p n, der_int m d = Ok (p, n) /\ 0 <= p /\ 0 <= n <= der_len d /\ p + n <= len m /\ (n = der_len d \/ m.[der_v d] = 0 /\ n = der_len d - 1).
Proof.
  intros (? & ? & ? & ? & ?). unfold der_int. case_ifZ.
  - rewrite rd_byte_ok by lia. cbn [rbind]. case_ifZ; do 2 eexists; (split; [done|]); lia.
  - do 2 eexists. split; [done|]. lia.
Qed.

Lemma copy_out_safe m p n cap : 0 <= p -> 0 <= n <= cap -> p + n <= len m ->
  copy_out m p n cap = Ok (slice m p n).
Proof. intros. unfold copy_out. rewrite (proj2 (Z.ltb_ge cap n)) by lia. apply rd_bytes_ok; lia. Qed.

Definition answers {A} (r : res A) : Prop := exists x, r = Ok x.

Lemma x509_rsa_key_safe m p n modcap expcap : window m p n -> 257 <= modcap -> 8 <= expcap ->
  answers (x509_rsa_key m p n modcap expcap).
Proof.
  intros Hw Hm Hx. unfold x509_rsa_key. case_ifZ; [by eexists|].
  assert (window m (p + 1) (n - 1)) as Wk by (destruct Hw as (? & ? & ? & ? & ?); unfold window; splits; (done || lia)).
  apply (read_bind answers _ _ _ _ Wk); [by eexists|]. intros s Hs. case_ifZ; [by eexists|].
  pose proof (within_window _ _ _ _ Wk Hs) as Ws.
  apply (read_bind answers _ _ _ _ Ws); [by eexists|]. intros d Hd. case_ifZ; [by eexists|].
  case_ifZ; [by eexists|]. zbool.
  destruct (der_int_safe m d (within_window _ _ _ _ Ws Hd)) as (mv & ml & -> & ? & ? & ? & _). cbn [rbind].
  rewrite copy_out_safe by lia. cbn [rbind].
  destruct (rest_window m _ _ d Ws Hd) as (-> & _ & -> & Wr). cbv zeta.
  apply (read_bind answers _ _ _ _ Wr); [by eexists|]. intros e He. case_ifZ; [by eexists|].
  destruct (der_int_safe m e (within_window _ _ _ _ Wr He)) as (ev & el & -> & ? & ? & ? & _). cbn [rbind].
  rewrite copy_out_safe by (repeat case_ifZ; lia). by eexists.
Qed.

(** [C31] The parser is safe on any bytes, unless a length field wraps: when the
    buffer nowhere holds a four-byte length of [2^32 - 6] or more, then for every
    window inside it [x509_get_spki_bitstring] ends within half as many turns as
    there are bytes, and it and [x509_rsa_key], given an array of 257 bytes, never
    read outside the window nor write outside the arrays. *)
Theorem x509_safe m cert certlen fuel :
  bytes m -> no_huge m -> 0 <= cert -> 0 <= certlen < 4294967296 -> cert + certlen <= len m ->
  certlen <= 2 * Z.of_nat fuel ->
  exists r, x509_get_spki_bitstring fuel m cert certlen = Ok r /\
    forall bits bitslen, r = Some (bits, bitslen) ->
      0 <= bits /\ bits + bitslen <= len m /\
      exists k, x509_rsa_key m bits bitslen 257 8 = Ok k.
Proof.
  intros Hm Hh Hc Hn Hl Hf. pose proof (x509_get_safe m cert certlen fuel ltac:(unfold window; splits; (done || lia)) Hf) as H.
  unfold found in H. destruct (x509_get_spki_bitstring fuel m cert certlen) as [r| |]; [|done..].
  exists r. split; [done|]. intros b l ->. split; [apply H|split; [apply H|]].
  apply x509_rsa_key_safe; [exact H|lia..].
Qed.

(** ** The lengths that wrap *)
(** A child whose length is [2^32 - 6]. *)
Definition wrapping (t : Z) : list Z := [t; 132; 255; 255; 255; 250].

Lemma der_read_wrapping m p t n : at_ m p (wrapping t) -> 6 <= n ->
  der_read m p n = Ok (Some (Der t (p + 6) 4294967290)).
Proof.
  intros H Hn. unfold wrapping in H. destruct (at_cons _ _ _ _ H) as [Ht H1]. destruct (at_cons _ _ _ _ H1) as [Hk H2].
  unfold der_read. rewrite (proj2 (Z.ltb_ge n 2)) by lia. rewrite Ht, Hk. cbn [rbind].
  change (negb (Z.land 132 128 =? 0)) with true. cbv iota. change (Z.land 132 127) with 4.
  rewrite (proj2 (Z.ltb_ge n (2 + 4))) by lia. cbn [orb Z.eqb Z.ltb Z.compare].
  apply at_rd in H2. change (len [255; 255; 255; 250]) with 4 in H2. replace (p + 1 + 1) with (p + 2) in H2 by lia.
  change (4 <? 4) with false. change ((4 =? 0) || false || false) with false. cbv iota.
  rewrite H2. cbn [rbind]. unfold der_body.
  change (fold_left (fun l x => Z.lor (u32 (Z.shiftl l 8)) x) [255; 255; 255; 250] 0) with 4294967290.
  change (u32 (2 + 4 + 4294967290)) with 0. by rewrite (proj2 (Z.ltb_ge n 0)) by lia.
Qed.

(** A certificate can hang the kernel. A child of the tbs sequence whose
    length field is [2^32 - 6] passes the bound check, because header and length
    wrap to zero; the scan then advances by zero bytes, so that it never ends:
    whatever surrounds the child, no fuel is enough. *)
Theorem x509_wrapped_length_loops fuel m p fields t rest sig :
  let cert := certificate fields (wrapping t) rest sig in
  at_ m p cert -> len cert < 4294967296 -> Forall plain_field fields -> t <> 48 ->
  x509_get_spki_bitstring fuel m p (len cert) = Starved.
Proof.
  intros cert H Hl Hf Ht. unfold cert, certificate in *. clear cert.
  rewrite <- (app_nil_r (der_enc 48 (_ ++ sig))) in *. unfold x509_get_spki_bitstring.
  set (fs := concat (field_enc <$> fields) ++ wrapping t ++ rest) in *.
  destruct (der_read_next _ _ _ _ _ H Hl) as (w & _ & -> & Hb & _). cbn [rbind der_tag der_v der_len].
  rewrite app_nil_r, len_der_enc in Hl. pose proof (hdr_pos (der_enc 48 fs ++ sig)).
  change (negb (48 =? 48)) with false. cbv iota.
  destruct (der_read_next _ _ _ _ _ Hb ltac:(lia)) as (q & _ & -> & Hs & _). cbn [rbind der_tag der_v der_len].
  change (negb (48 =? 48)) with false. cbv iota.
  rewrite len_app, len_der_enc in Hl. pose proof (hdr_pos fs). pose proof (len_nonneg sig).
  assert (len fs < 4294967296) as Hfs by lia. clear - Hs Hf Ht Hfs. unfold fs in *. clear fs.
  revert q fuel Hs. induction fields as [|[t' b] fields IH]; intros q fuel Hs.
  - cbn [fmap list_fmap concat] in *. rewrite app_nil_l in *. destruct (at_app _ _ _ _ Hs) as [Hw _].
    assert (6 <= len (wrapping t ++ rest)) as H6
      by (rewrite len_app; change (len (wrapping t)) with 6; pose proof (len_nonneg rest); lia).
    generalize dependent (len (wrapping t ++ rest)). intros n Hn H6.
    induction fuel as [|fuel IH]; cbn [spki_scan]; rewrite (proj2 (Z.ltb_ge n 2)) by lia; [done|].
    rewrite (der_read_wrapping m q t n Hw H6). cbn [rbind]. unfold spki_candidate. cbn [der_tag der_v der_len].
    rewrite (proj2 (Z.eqb_neq t 48)) by done. cbn [negb rbind].
    replace (q + 6 + 4294967290 - q) with 4294967296 by lia. change (u32 4294967296) with 0.
    rewrite Z.add_0_r, Z.sub_0_r, u32_small by lia. exact IH.
  - rewrite fmap_cons in *. cbn [concat] in *. rewrite <- app_assoc in *.
    change (field_enc (t', b)) with (der_enc t' b) in *. apply Forall_cons_1 in Hf as [Hp Hf].
    destruct fuel as [|fuel]; cbn [spki_scan]; rewrite (proj2 (Z.ltb_ge _ 2)) by apply len_der_enc_2; [done|].
    destruct (der_read_next _ _ _ _ _ Hs Hfs) as (w & Ew & -> & Hb & Hr & C & L). cbn [rbind der_v der_len].
    rewrite len_app in Hfs. rewrite len_der_enc in Hfs. pose proof (hdr_pos b). pose proof (len_nonneg b).
    match type of Hfs with context [_ + len ?x < _] => pose proof (len_nonneg x) end.
    rewrite (plain_candidate m t' w b Hp Hb) by lia. cbn [rbind]. rewrite C, L.
    replace (q + len (der_enc t' b)) with (w + len b) by (rewrite len_der_enc; lia).
    apply IH; (done || lia).
Qed.

(** A key whose modulus fills 257 bytes without a leading zero is copied
    whole: the bound allows for the zero without asking for it. With the array
    of 256 bytes of [tls_connect] the copy writes beyond its end. *)
Theorem x509_modulus_overrun m p unused n e expcap :
  at_ m p (unused :: rsa_public_key n e) -> len (rsa_public_key n e) < 4294967296 ->
  len n = 257 -> 0 < n.[0] < 128 ->
  x509_rsa_key m p (len (unused :: rsa_public_key n e)) 256 expcap = Oob.
Proof.
  intros H Hl Hn H0. unfold x509_rsa_key. rewrite len_cons. pose proof (len_nonneg (rsa_public_key n e)).
  rewrite (proj2 (Z.ltb_ge _ 1)) by lia. apply at_cons in H as [_ H].
  replace (1 + len (rsa_public_key n e) - 1) with (len (rsa_public_key n e)) by lia.
  unfold rsa_public_key in *. rewrite <- (app_nil_r (der_enc 48 _)) in *.
  destruct (der_read_next _ _ _ _ _ H Hl) as (q & _ & -> & Hb & _). cbn [rbind der_tag der_v der_len].
  rewrite app_nil_r, len_der_enc in Hl. pose proof (hdr_pos (der_enc 2 (der_uint n) ++ der_enc 2 (der_uint e))).
  change (negb (48 =? 48)) with false. cbv iota.
  destruct (der_read_next _ _ _ _ _ Hb ltac:(lia)) as (w & _ & -> & Hn' & _). cbn [rbind der_tag der_v der_len].
  change (negb (2 =? 2)) with false. cbv iota.
  unfold der_uint in *. rewrite (proj2 (Z.leb_gt 128 (n.[0]))) in * by lia. rewrite Hn in *.
  change ((257 =? 0) || (257 <? 257)) with false. cbv iota. unfold der_int. cbn [der_len der_v].
  change (1 <? 257) with true. cbv iota. destruct n as [|x n]; [done|].
  destruct (at_cons _ _ _ _ Hn') as [-> _]. cbn [rbind]. change ((x :: n).[0]) with x in H0.
  rewrite (proj2 (Z.eqb_neq x 0)) by lia. reflexivity.
Qed.

(** ** Witnesses *)
(** A certificate with a serial number and an algorithm before the key. *)
Definition demo_fields : list (Z * list Z) := [(2, [1]); (48, der_enc 6 [42; 3] ++ [5; 0])].
Definition demo_n : list Z := 200 :: replicate 129 7.
Definition demo_cert : list Z :=
  certificate demo_fields (spki [42; 1] [5; 0] 0 demo_n [1; 0; 1]) [163; 0] [48; 0].

Lemma demo_fields_plain : Forall plain_field demo_fields.
Proof.
  apply Forall_cons_2; [left; discriminate|]. apply Forall_cons_2; [|apply Forall_nil_2].
  right; right. exists 6, [42; 3], [5; 0]. split; [reflexivity|discriminate].
Qed.

Lemma at_here pre l post : at_ (pre ++ l ++ post) (len pre) l.
Proof. by exists pre, post. Qed.

Lemma x509_roundtrip_witness :
  exists bits bitslen,
    x509_get_spki_bitstring 3 ([9] ++ demo_cert ++ []) (len [9]) (len demo_cert) = Ok (Some (bits, bitslen)) /\
    x509_rsa_key ([9] ++ demo_cert ++ []) bits bitslen 256 8 = Ok (Some (demo_n, [1; 0; 1])).
Proof.
  refine (x509_roundtrip 3 _ _ demo_fields [42; 1] [5; 0] 0 demo_n [1; 0; 1] [163; 0] [48; 0] (at_here [9] demo_cert []) _ _ demo_fields_plain _ _).
  - vm_compute. reflexivity.
  - cbn. lia.
  - split; vm_compute; [split; discriminate|reflexivity].
  - split; vm_compute; [split; discriminate|reflexivity].
Defined.

Definition no_huge_check (m : list Z) : bool := forallb (fun x => negb (x =? 132)) m.

Lemma no_huge_ok m : no_huge_check m = true -> no_huge m.
Proof.
  intros H a b x ->. unfold no_huge_check in H. rewrite forallb_app in H. apply andb_true_iff in H as [_ H]. discriminate.
Qed.

Lemma x509_safe_witness :
  exists r, x509_get_spki_bitstring 200 demo_cert 0 (len demo_cert) = Ok r /\
    forall bits bitslen, r = Some (bits, bitslen) ->
      0 <= bits /\ bits + bitslen <= len demo_cert /\
      exists k, x509_rsa_key demo_cert bits bitslen 257 8 = Ok k.
Proof.
  refine (x509_safe demo_cert 0 (len demo_cert) 200 _ _ _ _ _ _).
  - check_bytes.
  - apply no_huge_ok. vm_compute. reflexivity.
  - lia.
  - split; [apply len_nonneg|vm_compute; reflexivity].
  - lia.
  - vm_compute. discriminate.
Defined.

Lemma x509_wrapped_length_loops_witness :
  x509_get_spki_bitstring 1000 ([] ++ certificate demo_fields (wrapping 4) [] [] ++ []) (len (@nil Z))
    (len (certificate demo_fields (wrapping 4) [] [])) = Starved.
Proof.
  refine (x509_wrapped_length_loops 1000 _ _ demo_fields 4 [] [] (at_here [] _ []) _ demo_fields_plain _);
    [vm_compute; reflexivity|discriminate].
Defined.

Definition demo_wide : list Z := 1 :: replicate 256 7.
Lemma x509_modulus_overrun_witness :
  x509_rsa_key ([] ++ (0 :: rsa_public_key demo_wide [3]) ++ []) (len (@nil Z))
    (len (0 :: rsa_public_key demo_wide [3])) 256 8 = Oob.
Proof.
  refine (x509_modulus_overrun _ _ 0 demo_wide [3] 8 (at_here [] _ []) _ _ _);
    [vm_compute; reflexivity|reflexivity|vm_compute; split; reflexivity].
Defined.
