(* ===== verification/Stream.v ===== *)
(** * Byte streams (kernel/net/tcp.c above kernel/net/net.c)

    The interface between TCP and the code above it: a class of the operations
    that code calls, and a class of what it relies on. Two implementations: the
    network stack itself, where the waiting calls [net_tcp_connect] and
    [net_tcp_close] are put together from their halves in [Tcp], with
    [net_service] between them; and a pipe, whose arrivals are a script. *)
From Stdlib Require Import ZArith Lia Bool.
From stdpp Require Import base list numbers option.
From S2P Require Import Prelude Tcp Nic Ipv6 Net NetProps.
#[local] Set Default Goal Selector "!".
Open Scope Z_scope.

(** ** The interface *)
(** [W] is what a call can change: the stack, the clock, what is still to arrive. *)
Class Transport (W : Type) := {
  tr_own_ip : W -> Z;
  tr_ticks : W -> Z;
  tr_tsc : W -> Z;
  tr_connect : W -> Z -> Z -> res (W * Z);
  tr_send : W -> Z -> list Z -> res (W * Z);
  tr_recv : W -> Z -> Z -> res (W * Z * list Z);
  tr_close : W -> Z -> res W;
  tr_listen : W -> Z -> W * Z;
  tr_accept : W -> Z -> res Z;
  tr_service : W -> res W }.

(** What one [net_tcp_send] takes at most, with everything unacknowledged. *)
Definition SEND_ROOM : Z := 1400.

(** On an open connection: a receive takes what has arrived, up to its capacity,
    and takes nothing when nothing has; on any connection it takes no more than that;
    a send with room goes to the end of what
    was sent. None of them moves the clock. *)
Class Stream (W : Type) `{Transport W} := {
  opened : W -> Z -> Prop;
  inbox : W -> Z -> list Z;
  outbox : W -> Z -> list Z;
  recv_law w c n : opened w c -> 0 < n -> exists w' r,
    tr_recv w c n = Ok (w', r, take (Z.to_nat n) (inbox w c)) /\
    (inbox w c = [] -> r <= 0) /\ (inbox w c <> [] -> r = Z.min n (len (inbox w c))) /\
    opened w' c /\ inbox w' c = drop (Z.to_nat n) (inbox w c) /\ outbox w' c = outbox w c /\
    tr_ticks w' = tr_ticks w /\ tr_tsc w' = tr_tsc w;
  recv_bound w c n w' r d : tr_recv w c n = Ok (w', r, d) -> 0 <= n -> len d <= n;
  send_law w c d : opened w c -> 0 < len d -> len (outbox w c) + len d <= SEND_ROOM -> exists w',
    tr_send w c d = Ok (w', len d) /\
    opened w' c /\ inbox w' c = inbox w c /\ outbox w' c = outbox w c ++ d /\
    tr_ticks w' = tr_ticks w /\ tr_tsc w' = tr_tsc w;
  send_refused w c d : opened w c -> SEND_ROOM < len d -> exists w',
    tr_send w c d = Ok (w', -1) /\
    opened w' c /\ inbox w' c = inbox w c /\ outbox w' c = outbox w c /\
    tr_ticks w' = tr_ticks w /\ tr_tsc w' = tr_tsc w }.

(** ** The stack *)
(** The rounds of an address resolution, and those of the waiting loops after it. *)
Record stack := Stack { k_net : net; k_env : nenv; k_resolve : list round; k_rounds : list round }.
Definition with_net (w : stack) (s : net) : stack := Stack s (k_env w) (k_resolve w) (k_rounds w).

Definition TCP_CONNECT_TIMEOUT : Z := MS_TO_TICKS 4000.
Definition TCP_CLOSE_TIMEOUT : Z := MS_TO_TICKS 1000.

(** One turn of [net_service]: it takes the next round, and its clock. *)
Definition service (w : stack) : res stack :=
  match k_rounds w with
  | [] => Starved
  | r :: rs => let* s := net_service r (k_net w) in Ok (Stack s (r_end r) (k_resolve w) rs)
  end.

(** [while (pit_ticks() - t0 < timeout) { net_service(); if (done) break; }] *)
Fixpoint service_until (fuel : nat) (done : tcp -> bool) (t0 timeout : Z) (w : stack) : res stack :=
  if u64 (ticks (k_env w) - t0) <? timeout then
    match fuel with
    | O => Starved
    | S fuel =>
      let* w := service w in
      if done (tcb (k_net w)) then Ok w else service_until fuel done t0 timeout w
    end
  else Ok w.

Definition wait_for (done : tcp -> bool) (timeout : Z) (w : stack) : res stack :=
  service_until (S (length (k_rounds w))) done (ticks (k_env w)) timeout w.

Definition net_tcp_connect (w : stack) (ip port : Z) : res (stack * Z) :=
  let s := k_net w in
  if (own s =? 0) && negb (is_loopback ip) then Ok (w, -1)
  else
    let* (s, rc, e) := net_arp_resolve (k_resolve w) (k_env w) s ip in
    let w := Stack s e [] (k_rounds w) in
    let* (s, slot) := tcp_call e s (fun te t => net_tcp_connect_begin te (rc =? 0) t ip port) in
    if slot <? 0 then Ok (with_net w s, -1)
    else
      let* w := wait_for (fun t => connect_done t slot) TCP_CONNECT_TIMEOUT (with_net w s) in
      let (t, r) := net_tcp_connect_end (tcb (k_net w)) slot in
      Ok (with_net w (set_tcb t (k_net w)), r).

Definition net_tcp_close (w : stack) (id : Z) : res (stack * Z) :=
  let* (s, r) := tcp_call (k_env w) (k_net w)
    (fun te t => match net_tcp_close_begin te t id with Some (t, rc, b) => Some (t, (rc, b)) | None => None end) in
  let w := with_net w s in
  if snd r then
    let* w := wait_for (fun t => close_done t id) TCP_CLOSE_TIMEOUT w in
    let (t, rc) := net_tcp_close_end (tcb (k_net w)) id in
    Ok (with_net w (set_tcb t (k_net w)), rc)
  else Ok (w, fst r).

#[export] Instance stack_transport : Transport stack := {
  tr_own_ip w := own (k_net w);
  tr_ticks w := ticks (k_env w);
  tr_tsc w := tsc (k_env w);
  tr_connect := net_tcp_connect;
  tr_send w id d :=
    let* (s, n) := tcp_call (k_env w) (k_net w) (fun te t => net_tcp_send te t id d) in Ok (with_net w s, n);
  tr_recv w id cap :=
    let* (s, r) := tcp_call (k_env w) (k_net w)
      (fun te t => match net_tcp_recv te t id cap with Some (t, n, d) => Some (t, (n, d)) | None => None end) in
    Ok (with_net w s, fst r, snd r);
  tr_close w id := let* r := net_tcp_close w id in Ok (fst r);
  tr_listen w port :=
    let (t, i) := net_tcp_listen (tcb (k_net w)) port in (with_net w (set_tcb t (k_net w)), i);
  tr_accept w l := of_option (net_tcp_accept (tcb (k_net w)) l);
  tr_service := service }.

(** *** The stack is a stream *)
(** A segment of at most 1484 bytes is sent or dropped; the table stays. *)
Lemma net_ip_send_tcb e s src dst p : len p <= 1484 ->
  exists s' rc, net_ip_send e s src dst 6 p = Ok (s', rc) /\ tcb s' = tcb s.
Proof.
  intros Hp. unfold net_ip_send. cbv zeta.
  destruct (fw_blocks _ _ _ _ _); [by do 2 eexists|]. destruct (is_loopback dst).
  - rewrite (proj2 (Z.ltb_ge 1528 _)) by lia. destruct (_ <=? _); by do 2 eexists.
  - rewrite (proj2 (Z.ltb_ge 1518 _)) by lia. destruct (_ =? IP_BROADCAST); [by do 2 eexists|].
    destruct (_ =? 0); [by do 2 eexists|]. destruct (arp_lookup _ _ _); by do 2 eexists.
Qed.

Lemma send_packets_tcb e ps : forall s, Forall (fun p => len (p_seg p) <= 1484) ps ->
  exists s', send_packets e s ps = Ok s' /\ tcb s' = tcb s.
Proof.
  induction ps as [|p ps IH]; intros s Hp; cbn [send_packets]; [by eexists|].
  apply Forall_cons_1 in Hp as [Hp Hps]. destruct (net_ip_send_tcb e s (p_src p) (p_dst p) (p_seg p) Hp) as (s1 & rc & -> & E).
  cbn [rbind fst]. destruct (IH s1 Hps) as (s2 & -> & E2). eexists. split; [done|congruence].
Qed.

(** A call whose packets are small leaves exactly the table it computed. *)
Lemma tcp_call_ok {A} e s (f : env -> tcp -> option (tcp * A)) t a :
  f (tcp_env e s) (quiet (tcb s)) = Some (t, a) -> Forall (fun p => len (p_seg p) <= 1484) (wire t) ->
  exists s', tcp_call e s f = Ok (s', a) /\ tcb s' = quiet t.
Proof.
  intros E Hw. unfold tcp_call. rewrite E. cbn [rbind of_option fst snd]. unfold tcp_flush.
  destruct (send_packets_tcb e (wire t) (set_tcb (quiet t) s) Hw) as (s' & -> & Es). cbn [rbind]. by eexists.
Qed.

Lemma send_seg_small e c flags seq ack d : hdr_len flags + len d <= 1440 ->
  exists o, tcp_send_seg e c flags seq ack d = Some o /\ Forall (fun p => len (p_seg p) <= 1484) o.
Proof.
  intros Hd. destruct ((own_ip e =? 0) && negb (tcp_is_loopback c)) eqn:G.
  - unfold tcp_send_seg. rewrite G. by eexists.
  - assert (can_send e c) as Hs by (unfold can_send; apply andb_false_iff in G as [G|G]; [left|right]; zbool; [lia|by destruct (tcp_is_loopback c)]).
    rewrite (send_seg_value e c) by done. eexists. split; [done|]. apply Forall_cons_2; [|apply Forall_nil_2].
    cbn [p_seg]. unfold len in *. rewrite !length_app, length_hdr_front. pose proof (length_hdr_back flags).
    match goal with |- context [be16_bytes ?x] => change (length (be16_bytes x)) with 2%nat end. lia.
Qed.

(** An established connection of the table. *)
Definition stack_opened (w : stack) (c : Z) : Prop :=
  0 <= c < 8 /\ length (Tcp.g_tcp (tcb (k_net w))) = 8%nat /\
  used (conn_at (tcb (k_net w)) c) = true /\ st (conn_at (tcb (k_net w)) c) = TCP_ESTABLISHED.
Definition stack_inbox (w : stack) (c : Z) : list Z := rx (conn_at (tcb (k_net w)) c).
Definition stack_outbox (w : stack) (c : Z) : list Z := snd_buf (conn_at (tcb (k_net w)) c).

Lemma conn_at_put_same t c x o : 0 <= c < 8 -> length (Tcp.g_tcp t) = 8%nat -> conn_at (put_conn t c x o) c = x.
Proof.
  intros Hc Hl. unfold conn_at, put_conn. cbn [Tcp.g_tcp]. rewrite nth_lookup, list_lookup_insert_eq by lia. done.
Qed.

(** What a call that replaces one connection leaves. *)
Lemma opened_put w t' id c' o : stack_opened w id -> tcb (k_net w) = t' -> st c' = TCP_ESTABLISHED -> used c' = true ->
  forall w', tcb (k_net w') = quiet (put_conn (quiet t') id c' o) ->
  stack_opened w' id /\ conn_at (tcb (k_net w')) id = c'.
Proof.
  intros (Hi & Hl & Hu & Hs) <- Hc Hu' w' E. unfold stack_opened. rewrite E.
  change (conn_at (quiet ?t) id) with (conn_at t id).
  rewrite conn_at_put_same by done. splits; try done; try lia.
  unfold quiet, put_conn. cbn [Tcp.g_tcp]. by rewrite length_insert.
Qed.

Lemma stack_send_law w id d : stack_opened w id -> 0 < len d -> len (stack_outbox w id) + len d <= SEND_ROOM ->
  exists w', tr_send w id d = Ok (w', len d) /\
    stack_opened w' id /\ stack_inbox w' id = stack_inbox w id /\ stack_outbox w' id = stack_outbox w id ++ d /\
    tr_ticks w' = tr_ticks w /\ tr_tsc w' = tr_tsc w.
Proof.
  intros Ho Hd Hr. pose proof Ho as (Hi & Hl & Hu & Hs). unfold stack_outbox, SEND_ROOM in Hr.
  set (c := conn_at (tcb (k_net w)) id) in *. set (e := tcp_env (k_env w) (k_net w)).
  set (c1 := with_snd c (snd_una c) (snd_buf c ++ d)).
  destruct (send_seg_small e c1 (Z.lor TF_ACK TF_PSH) (snd_una c) (rcv_nxt c) (snd_buf c1)) as (o & Eo & Ho').
  { change (hdr_len _) with 20. cbn [snd_buf c1 with_snd]. rewrite len_app. lia. }
  assert (net_tcp_send e (quiet (tcb (k_net w))) id d
    = Some (put_conn (quiet (tcb (k_net w))) id (with_timer c1 (Tcp.pit_ticks e) 0) o, len d)) as E.
  { unfold net_tcp_send, TCP_MAX_CONN, TCP_MAX_DATA, TCP_SNDBUF. pose proof (len_nonneg (snd_buf c)).
    rewrite (proj2 (Z.ltb_ge id 0)), (proj2 (Z.leb_gt 8 id)) by lia.
    rewrite (proj2 (Z.leb_gt (len d) 0)), (proj2 (Z.ltb_ge 1400 (len d))) by lia. cbn [orb].
    change (conn_at (quiet (tcb (k_net w))) id) with c. rewrite Hu. unfold is_st. rewrite Hs.
    rewrite bool_decide_eq_true_2 by done. cbn [negb orb]. unfold snd_len.
    rewrite (proj2 (Z.ltb_ge 8192 _)) by lia. fold c1.
    change (snd_una c1) with (snd_una c). change (rcv_nxt c1) with (rcv_nxt c). by rewrite Eo. }
  destruct (tcp_call_ok (k_env w) (k_net w) (fun te t => net_tcp_send te t id d) _ _ E) as (s' & Ec & Et).
  { cbn [wire put_conn quiet]. done. }
  cbn [tr_send stack_transport]. rewrite Ec. cbn [rbind]. eexists. split; [done|].
  destruct (opened_put w _ id (with_timer c1 (Tcp.pit_ticks e) 0) o Ho eq_refl Hs Hu (with_net w s') Et) as [Ho2 Ec2].
  split; [exact Ho2|]. unfold stack_inbox, stack_outbox. rewrite Ec2. splits; reflexivity.
Qed.

Lemma stack_send_refused w id d : stack_opened w id -> SEND_ROOM < len d -> exists w',
  tr_send w id d = Ok (w', -1) /\
  stack_opened w' id /\ stack_inbox w' id = stack_inbox w id /\ stack_outbox w' id = stack_outbox w id /\
  tr_ticks w' = tr_ticks w /\ tr_tsc w' = tr_tsc w.
Proof.
  intros Ho Hd. pose proof Ho as (Hi & _). unfold SEND_ROOM in Hd.
  destruct (tcp_call_ok (k_env w) (k_net w) (fun te t => net_tcp_send te t id d) (quiet (tcb (k_net w))) (-1)) as (s' & Ec & Et).
  - unfold net_tcp_send, TCP_MAX_CONN, TCP_MAX_DATA.
    rewrite (proj2 (Z.ltb_ge id 0)), (proj2 (Z.leb_gt 8 id)), (proj2 (Z.ltb_lt 1400 (len d))) by lia.
    by rewrite orb_true_r.
  - apply Forall_nil_2.
  - exists (with_net w s'). cbn [tr_send stack_transport]. rewrite Ec. cbn [rbind]. split; [done|].
    unfold stack_opened, stack_inbox, stack_outbox in *. cbn [k_net with_net]. rewrite Et. splits; apply Ho || done.
Qed.

Lemma stack_recv_law w id n : stack_opened w id -> 0 < n -> exists w' r,
  tr_recv w id n = Ok (w', r, take (Z.to_nat n) (stack_inbox w id)) /\
  (stack_inbox w id = [] -> r <= 0) /\ (stack_inbox w id <> [] -> r = Z.min n (len (stack_inbox w id))) /\
  stack_opened w' id /\ stack_inbox w' id = drop (Z.to_nat n) (stack_inbox w id) /\
  stack_outbox w' id = stack_outbox w id /\ tr_ticks w' = tr_ticks w /\ tr_tsc w' = tr_tsc w.
Proof.
  intros Ho Hn. pose proof Ho as (Hi & Hl & Hu & Hs). unfold stack_inbox.
  set (c := conn_at (tcb (k_net w)) id) in *. set (e := tcp_env (k_env w) (k_net w)).
  set (n' := if n <? Tcp.rx_len c then n else Tcp.rx_len c).
  assert (n' = Z.min n (len (rx c))) as En' by (unfold n', Tcp.rx_len; case_ifZ; lia).
  assert (take (Z.to_nat n') (rx c) = take (Z.to_nat n) (rx c) /\ drop (Z.to_nat n') (rx c) = drop (Z.to_nat n) (rx c)) as [Etk Edr].
  { rewrite En'. unfold len. destruct (Z.le_gt_cases n (Z.of_nat (length (rx c)))); [by rewrite Z.min_l|].
    rewrite Z.min_r, Nat2Z.id by lia. rewrite !take_ge, !drop_ge by lia. done. }
  set (c1 := with_rcv c (rcv_nxt c) (drop (Z.to_nat n') (rx c))).
  assert (exists o, (if (0 <? n') && is_st (st c1) TCP_ESTABLISHED && used c1 then send_ack e c1 else Some []) = Some o /\
    Forall (fun p => len (p_seg p) <= 1484) o) as (o & Eo & Ho').
  { destruct (_ && _ && _); [|by eexists]. apply send_seg_small. change (hdr_len _) with 20. change (len _) with 0. lia. }
  assert (net_tcp_recv e (quiet (tcb (k_net w))) id n =
    Some (put_conn (quiet (tcb (k_net w))) id c1 o, (if n' =? 0 then -1 else n'), take (Z.to_nat n) (rx c))) as E.
  { unfold net_tcp_recv, TCP_MAX_CONN.
    rewrite (proj2 (Z.ltb_ge id 0)), (proj2 (Z.leb_gt 8 id)), (proj2 (Z.leb_gt n 0)) by lia. cbn [orb].
    change (conn_at (quiet (tcb (k_net w))) id) with c. rewrite Hu. fold n'. fold c1. rewrite Eo, Etk.
    change (st c1) with (st c). rewrite Hs. cbn [negb orb andb is_st bool_decide decide].
    rewrite andb_false_r, andb_true_r. change (is_st TCP_ESTABLISHED TCP_CLOSED) with false.
    change (is_st TCP_ESTABLISHED TCP_LISTEN) with false. change (is_st TCP_ESTABLISHED TCP_SYN_SENT) with false.
    cbn [orb]. by destruct (n' =? 0). }
  destruct (tcp_call_ok (k_env w) (k_net w)
    (fun te t => match net_tcp_recv te t id n with Some (t, n, d) => Some (t, (n, d)) | None => None end)
    (put_conn (quiet (tcb (k_net w))) id c1 o) (if n' =? 0 then -1 else n', take (Z.to_nat n) (rx c))) as (s' & Ec & Et).
  { fold e. by rewrite E. }
  { done. }
  cbn [tr_recv stack_transport]. rewrite Ec. cbn [rbind fst snd]. do 2 eexists. split; [done|].
  destruct (opened_put w _ id c1 o Ho eq_refl Hs Hu (with_net w s') Et) as [Ho2 Ec2].
  split; [intros Er; rewrite Er in En'; change (len []) with 0 in En'; rewrite En'; case_ifZ; lia|].
  split. { intros Er. assert (0 < len (rx c)) by (destruct (rx c); [done|unfold len; cbn; lia]). rewrite <- En'. case_ifZ; lia. }
  split; [exact Ho2|]. unfold stack_outbox. rewrite Ec2. cbn [rx snd_buf c1 with_rcv]. rewrite Edr. done.
Qed.

Lemma net_tcp_recv_bound e t id n t' r d : net_tcp_recv e t id n = Some (t', r, d) -> 0 <= n -> len d <= n.
Proof.
  intros G Hn. unfold net_tcp_recv in G. assert (len (@nil Z) <= n) by (unfold len; cbn; lia).
  set (c := conn_at t id) in *.
  assert (len (take (Z.to_nat (if n <? Tcp.rx_len c then n else Tcp.rx_len c)) (rx c)) <= n) as Hl.
  { unfold len at 1. rewrite length_take. unfold Tcp.rx_len, len. case_ifZ; lia. }
  destruct (_ || _); [by injection G as <- <- <-|]. destruct (_ || _); [by injection G as <- <- <-|].
  destruct (_ || _); [by injection G as <- <- <-|].
  destruct (if (0 <? _) && _ && _ then _ else _) in G; [|discriminate].
  destruct (_ && _); [by injection G as <- <- <-|]. destruct (_ && _); by injection G as <- <- <-.
Qed.

Lemma stack_recv_bound w id n w' r d : tr_recv w id n = Ok (w', r, d) -> 0 <= n -> len d <= n.
Proof.
  cbn [tr_recv stack_transport]. unfold tcp_call. intros E Hn.
  destruct (net_tcp_recv (tcp_env (k_env w) (k_net w)) (quiet (tcb (k_net w))) id n) as [[[t n1] d1]|] eqn:G; [|discriminate].
  cbn [of_option rbind fst snd] in E. destruct (tcp_flush _ _ _); [|discriminate..]. cbn [rbind fst snd] in E.
  injection E as _ _ <-. by eapply net_tcp_recv_bound.
Qed.

#[export] Instance stack_stream : Stream stack := {
  opened := stack_opened; inbox := stack_inbox; outbox := stack_outbox;
  recv_law := stack_recv_law; recv_bound := stack_recv_bound; send_law := stack_send_law; send_refused := stack_send_refused }.

(** ** A pipe *)
(** One connection, number 0. [p_script] holds what each turn of [net_service]
    brings; a turn takes one tick. *)
Record pipe := Pipe { p_in : list Z; p_out : list Z; p_now : Z; p_tsc : Z; p_script : list (list Z) }.

#[export] Instance pipe_transport : Transport pipe := {
  tr_own_ip _ := 167772687;
  tr_ticks := p_now;
  tr_tsc := p_tsc;
  tr_connect w _ _ := Ok (w, 0);
  tr_send w _ d := Ok (if SEND_ROOM <? len d then (w, -1)
    else (Pipe (p_in w) (p_out w ++ d) (p_now w) (p_tsc w) (p_script w), len d));
  tr_recv w _ n := Ok (Pipe (drop (Z.to_nat n) (p_in w)) (p_out w) (p_now w) (p_tsc w) (p_script w),
    Z.min n (len (p_in w)), take (Z.to_nat n) (p_in w));
  tr_close w _ := Ok w;
  tr_listen w _ := (w, 0);
  tr_accept _ _ := Ok 0;
  tr_service w := match p_script w with
    | [] => Starved
    | d :: s => Ok (Pipe (p_in w ++ d) (p_out w) (p_now w + 1) (p_tsc w) s)
    end }.

#[export] Instance pipe_stream : Stream pipe.
Proof.
  refine (Build_Stream pipe _ (fun _ c => c = 0) (fun w _ => p_in w) (fun w _ => p_out w) _ _ _ _).
  - intros w c n Ho Hn. do 2 eexists. split; [done|]. cbn. splits; try done.
    intros ->. change (len []) with 0. lia.
  - intros w c n w' r d E Hn. cbn in E. injection E as <- <- <-. unfold len. rewrite length_take. lia.
  - intros w c d Ho Hd Hr. cbn in *. pose proof (len_nonneg (p_out w)). unfold SEND_ROOM in *.
    rewrite (proj2 (Z.ltb_ge 1400 (len d))) by lia. eexists. split; [done|]. cbn. done.
  - intros w c d Ho Hd. cbn. rewrite (proj2 (Z.ltb_lt _ _)) by done. by exists w.
Defined.
