(* ===== verification/Tls.v ===== *)
(** * TLS 1.2 (kernel/net/tls.c)

    The record layer, the handshake of both roles and the calls above them,
    over the stream interface of [Stream]. The static buffers whose old contents
    a later call can see are part of the state; the server's key, its
    certificate and what uninitialised locals hold are parameters. The
    handshakes are written in a monad of the state, failure ([goto fail]) and
    [res]. Every waiting loop has the same fuel. *)
From Stdlib Require Import ZArith Lia Bool String Ascii.
From stdpp Require Import base list numbers option.
From S2P Require Import Prelude Aes Hash Bignum Tcp Nic Ipv6 X509 Stream.
#[local] Set Default Goal Selector "!".
Open Scope Z_scope.
Open Scope carray_scope.

Definition TLS_RT_CHANGE_CIPHER_SPEC : Z := 20.
Definition TLS_RT_ALERT : Z := 21.
Definition TLS_RT_HANDSHAKE : Z := 22.
Definition TLS_RT_APPLICATION_DATA : Z := 23.
Definition TLS_HS_CLIENT_HELLO : Z := 1.
Definition TLS_HS_SERVER_HELLO : Z := 2.
Definition TLS_HS_CERTIFICATE : Z := 11.
Definition TLS_HS_SERVER_HELLO_DONE : Z := 14.
Definition TLS_HS_CLIENT_KEY_EXCHANGE : Z := 16.
Definition TLS_HS_FINISHED : Z := 20.
Definition TLS_CIPHER_RSA_AES128_SHA256 : Z := 60.
Definition TLS_APPBUF : Z := 4096.
Definition TLS_BUF : Z := 20000.

(** [rx] is the valid prefix of the array, so [rx_len] is its length. The IVs
    of the key block are stored and never used. *)
Record tls_conn := TlsConn {
  active : bool; server : bool; conn : Z; cseq : Z; sseq : Z; enc_send : bool; enc_recv : bool;
  c_mac : list Z; s_mac : list Z; rk_c : list Z; rk_s : list Z; master : list Z;
  hs : sha256_ctx; hs_has : bool; app_rx : list Z; peer_closed : bool }.

Definition zero_ctx : sha256_ctx := Sha256Ctx (replicate 8 0) 0 [].
Definition no_tls : tls_conn :=
  TlsConn false false 0 0 0 false false [] [] [] [] [] zero_ctx false [] false.

(** [memset], then the first assignments of a handshake. *)
Definition new_tls (srv : bool) (c : Z) (h : sha256_ctx) (has : bool) : tls_conn :=
  TlsConn true srv c 0 0 false false [] [] [] [] [] h has [] false.
Definition set_seqs (c s : Z) (t : tls_conn) : tls_conn :=
  TlsConn (active t) (server t) (conn t) c s (enc_send t) (enc_recv t) (c_mac t) (s_mac t) (rk_c t) (rk_s t)
    (master t) (hs t) (hs_has t) (app_rx t) (peer_closed t).
Definition set_enc (s r : bool) (t : tls_conn) : tls_conn :=
  TlsConn (active t) (server t) (conn t) (cseq t) (sseq t) s r (c_mac t) (s_mac t) (rk_c t) (rk_s t)
    (master t) (hs t) (hs_has t) (app_rx t) (peer_closed t).
Definition set_keys (cm sm kc ks ms : list Z) (t : tls_conn) : tls_conn :=
  TlsConn (active t) (server t) (conn t) (cseq t) (sseq t) (enc_send t) (enc_recv t) cm sm kc ks ms
    (hs t) (hs_has t) (app_rx t) (peer_closed t).
Definition set_hs (h : sha256_ctx) (has : bool) (t : tls_conn) : tls_conn :=
  TlsConn (active t) (server t) (conn t) (cseq t) (sseq t) (enc_send t) (enc_recv t) (c_mac t) (s_mac t)
    (rk_c t) (rk_s t) (master t) h has (app_rx t) (peer_closed t).
Definition set_rx (r : list Z) (t : tls_conn) : tls_conn :=
  TlsConn (active t) (server t) (conn t) (cseq t) (sseq t) (enc_send t) (enc_recv t) (c_mac t) (s_mac t)
    (rk_c t) (rk_s t) (master t) (hs t) (hs_has t) r (peer_closed t).
Definition set_closed (t : tls_conn) : tls_conn :=
  TlsConn (active t) (server t) (conn t) (cseq t) (sseq t) (enc_send t) (enc_recv t) (c_mac t) (s_mac t)
    (rk_c t) (rk_s t) (master t) (hs t) (hs_has t) (app_rx t) true.

(** The key of each direction: what this side writes with, and reads with. *)
Definition w_mac (t : tls_conn) : list Z := if server t then s_mac t else c_mac t.
Definition w_rk (t : tls_conn) : list Z := if server t then rk_s t else rk_c t.
Definition r_mac (t : tls_conn) : list Z := if server t then c_mac t else s_mac t.
Definition r_rk (t : tls_conn) : list Z := if server t then rk_c t else rk_s t.

(** ** The PRF *)
Definition label (s : string) : list Z := map (fun c => Z.of_nat (nat_of_ascii c)) (list_ascii_of_string s).

Fixpoint prf_loop (fuel : nat) (secret buf a : list Z) (outlen : Z) : list Z :=
  if outlen <=? 0 then []
  else
    match fuel with
    | O => []
    | S fuel =>
      let h := hmac_sha256 secret (a ++ buf) in
      let n := if 32 <? outlen then 32 else outlen in
      take (Z.to_nat n) h ++ prf_loop fuel secret buf (hmac_sha256 secret a) (outlen - n)
    end.

(** The label and the seed are put in an array of 128 bytes. *)
Definition tls_prf (secret lab seed : list Z) (outlen : Z) : res (list Z) :=
  let buf := lab ++ seed in
  if 128 <? len buf then Oob
  else Ok (prf_loop (Z.to_nat outlen) secret buf (hmac_sha256 secret buf) outlen).

(** ** Records *)
Definition seq_bytes (s : Z) : list Z := map (fun i => u8 (Z.shiftr s (56 - i * 8))) (seqZ 0 8).

(** The input of a record's MAC. *)
Definition mac_input (s type maj min : Z) (data : list Z) : list Z :=
  seq_bytes s ++ [type; maj; min] ++ be16_bytes (len data) ++ data.

Definition record_header (type n : Z) : list Z := [type; 3; 3] ++ be16_bytes n.

(** A byte of the time stamp counter, mixed with [m * i]. *)
Definition tsc_byte (tsc m i : Z) : Z := u8 (Z.lxor (Z.shiftr tsc (i mod 8 * 8)) (i * m)).

(** The record [tls_send_encrypted] writes: explicit IV, then the data, its MAC
    and the padding, encrypted. *)
Definition seal_inner (t : tls_conn) (type : Z) (data : list Z) : list Z :=
  let mac := hmac_sha256 (w_mac t) (mac_input (cseq t) type 3 3 data) in
  let pad := 16 - (len data + 32) mod 16 in
  data ++ mac ++ replicate (Z.to_nat pad) (u8 (pad - 1)).

Definition seal_record (tsc : Z) (t : tls_conn) (type : Z) (data : list Z) : list Z :=
  let inner := seal_inner t type data in
  let iv := map (tsc_byte tsc 131) (seqZ 0 16) in
  let frag := iv ++ fst (aes128_cbc_encrypt (w_rk t) iv (Z.to_nat (len inner / 16)) inner) in
  record_header type (len frag) ++ frag.

Section Tls.
Context {W : Type} `{Transport W} (fuel : nat).

(** [while (off < n) { net_tcp_send .. }] *)
Fixpoint send_all (k : nat) (w : W) (c : Z) (data : list Z) : res (W * Z) :=
  match data with
  | [] => Ok (w, 0)
  | _ =>
    match k with
    | O => Starved
    | S k =>
      let* (w, n) := tr_send w c data in
      if n <=? 0 then Ok (w, -1) else send_all k w c (drop (Z.to_nat n) data)
    end
  end.

Definition tls_send_record (w : W) (t : tls_conn) (type : Z) (data : list Z) : res (W * Z) :=
  if 19995 <? len data then Ok (w, -1)
  else
    let buf := record_header type (len data) ++ data in
    send_all (length buf) w (conn t) buf.

(** The array [inner] has 20000 bytes. *)
Definition tls_send_encrypted (w : W) (t : tls_conn) (type : Z) (data : list Z) : res (W * tls_conn * Z) :=
  if TLS_BUF <? len (seal_inner t type data) then Oob
  else
    let out := seal_record (tr_tsc w) t type data in
    let* (w, r) := send_all (length out) w (conn t) out in
    if r =? 0 then Ok (w, set_seqs (u64 (cseq t + 1)) (sseq t) t, 0) else Ok (w, t, -1).

(** [n] bytes, with what is in [got] already: the bytes, and whether all came
    before the deadline. *)
Fixpoint recv_exact (k : nat) (w : W) (c deadline n : Z) (got : list Z) : res (W * list Z * bool) :=
  if n <=? len got then Ok (w, got, true)
  else
    match k with
    | O => Starved
    | S k =>
      let* (w, r, d) := tr_recv w c (n - len got) in
      if 0 <? r then recv_exact k w c deadline n (got ++ d)
      else if deadline <? tr_ticks w then Ok (w, got, false)
      else let* w := tr_service w in recv_exact k w c deadline n got
    end.

(** The pad lengths tried, up to the first whose MAC agrees: the length of the
    data. [ct] is the length of the decrypted bytes at the start of the buffer. *)
Definition mac_agrees (t : tls_conn) (hdr payload : list Z) (ct pad : Z) : bool :=
  let datalen := u16 (ct - pad - 32) in
  (pad + 32 <=? ct) &&
  (memcmp (hmac_sha256 (r_mac t)
             (mac_input (sseq t) (hdr.[0]) (hdr.[1]) (hdr.[2]) (slice payload 0 datalen)))
     (slice payload datalen 32) =? 0).

Definition find_pad (t : tls_conn) (hdr payload : list Z) (ct : Z) : option Z :=
  match find (mac_agrees t hdr payload ct) (seqZ 1 16) with
  | Some pad => Some (u16 (ct - pad - 32))
  | None => None
  end.

(** Decryption in place. [aes128_cbc_decrypt] works on whole blocks, so the last
    one can take in old bytes behind the record. *)
Definition decrypt_payload (t : tls_conn) (payload : list Z) (rlen : Z) : list Z :=
  let ct := rlen - 16 in
  let blocks := (ct + 15) / 16 in
  let dec := aes128_cbc_decrypt (r_rk t) (take 16 payload) (Z.to_nat blocks) (slice payload 16 (16 * blocks)) in
  let payload := blit payload 16 dec in
  blit payload 0 (slice payload 16 ct).

(** The payload buffer after the call; the type and the length, [None] for -1. *)
Definition tls_read_record (w : W) (t : tls_conn) (payload : list Z) (deadline : Z)
    : res (W * tls_conn * list Z * option (Z * Z)) :=
  let* (w, hdr, ok) := recv_exact fuel w (conn t) deadline 5 [] in
  if negb ok || forallb (Z.eqb 0) hdr then Ok (w, t, payload, None)
  else
    let rlen := rd16 hdr 3 in
    if TLS_BUF <? rlen then Ok (w, t, payload, None)
    else
      let* (w, got, ok) := recv_exact fuel w (conn t) deadline rlen [] in
      let payload := blit payload 0 got in
      if negb ok then Ok (w, t, payload, None)
      else
        let t' := set_seqs (cseq t) (u64 (sseq t + 1)) t in
        if enc_recv t && negb (hdr.[0] =? TLS_RT_CHANGE_CIPHER_SPEC) then
          if rlen <? 64 then Ok (w, t, payload, None)
          else
            let payload := decrypt_payload t payload rlen in
            match find_pad t hdr payload (rlen - 16) with
            | None => Ok (w, t, payload, None)
            | Some n => Ok (w, t', payload, Some (hdr.[0], n))
            end
        else Ok (w, t', payload, Some (hdr.[0], rlen)).

(** ** Handshake messages *)
(** Three bytes, most significant first. *)
Definition rd24 (l : list Z) (o : Z) : Z :=
  Z.lor (Z.lor (Z.shiftl (l.[o]) 16) (Z.shiftl (l.[o + 1]) 8)) (l.[o + 2]).

Inductive drained := Found (body : list Z) | More | Bad.

(** [while (hslen >= 4)]: complete messages leave the front of the buffer, up to
    the first of the wanted type, which is copied to an array of [cap] bytes. *)
Fixpoint hs_drain (k : nat) (want cap : Z) (feed : bool) (t : tls_conn) (buf : list Z)
    : res (tls_conn * list Z * drained) :=
  if len buf <? 4 then Ok (t, buf, More)
  else
    let mlen := rd24 buf 1 in
    if len buf <? 4 + mlen then Ok (t, buf, More)
    else
      match k with
      | O => Starved
      | S k =>
        let t := if feed && hs_has t
                 then set_hs (sha256_update (hs t) (take (Z.to_nat (4 + mlen)) buf)) (hs_has t) t else t in
        let rest := drop (Z.to_nat (4 + mlen)) buf in
        if buf.[0] =? want then
          if TLS_BUF <? mlen then Ok (t, buf, Bad)
          else if cap <? mlen then Oob
          else Ok (t, rest, Found (slice buf 4 mlen))
        else hs_drain k want cap feed t rest
      end.

(** What a handshake can change: the outside, the connection, the reassembly
    buffer (its valid prefix), and the static [rbuf] and [certmsg]. *)
Record hstate := Hstate { h_w : W; h_t : tls_conn; g_hsbuf : list Z; rbuf : list Z; certmsg : list Z }.

(** One record of the reassembly loop: [false] for -1. *)
Definition hs_record (s : hstate) (deadline : Z) : res (hstate * bool) :=
  let* (w, t, pay, r) := tls_read_record (h_w s) (h_t s) (rbuf s) deadline in
  let s' t buf := Hstate w t buf pay (certmsg s) in
  match r with
  | None => Ok (s' t (g_hsbuf s), false)
  | Some (rtype, rlen) =>
    let data := take (Z.to_nat rlen) pay in
    if rtype =? TLS_RT_ALERT then Ok (s' t (g_hsbuf s), false)
    else if rtype =? TLS_RT_CHANGE_CIPHER_SPEC then
      Ok (s' (set_seqs (cseq t) 0 (set_enc (enc_send t) true t)) (g_hsbuf s), true)
    else if rtype =? TLS_RT_APPLICATION_DATA then
      Ok (s' (if len (app_rx t) + rlen <=? TLS_APPBUF then set_rx (app_rx t ++ data) t else t) (g_hsbuf s), true)
    else if negb (rtype =? TLS_RT_HANDSHAKE) then Ok (s' t (g_hsbuf s), true)
    else if TLS_BUF <? len (g_hsbuf s) + rlen then Ok (s' t (g_hsbuf s), false)
    else Ok (s' t (g_hsbuf s ++ data), true)
  end.

Fixpoint read_handshake (k : nat) (want cap deadline : Z) (feed : bool) (s : hstate) : res (hstate * option (list Z)) :=
  let* (t, buf, d) := hs_drain (length (g_hsbuf s)) want cap feed (h_t s) (g_hsbuf s) in
  let s := Hstate (h_w s) t buf (rbuf s) (certmsg s) in
  match d with
  | Found body => Ok (s, Some body)
  | Bad => Ok (s, None)
  | More =>
    match k with
    | O => Starved
    | S k =>
      let* (s, go) := hs_record s deadline in
      if go then read_handshake k want cap deadline feed s else Ok (s, None)
    end
  end.

(** ** The monad of the handshakes *)
Definition M (A : Type) : Type := hstate -> res (hstate * option A).
Definition ret {A} (a : A) : M A := fun s => Ok (s, Some a).
Definition fail {A} : M A := fun s => Ok (s, None).
Definition bind {A B} (m : M A) (f : A -> M B) : M B := fun s =>
  let* (s, a) := m s in match a with Some a => f a s | None => Ok (s, None) end.
Notation "x <~ m ; k" := (bind m (fun x => k)) (at level 100, m at next level, right associativity).
Notation "m ;; k" := (bind m (fun _ => k)) (at level 100, right associativity).

Definition lift {A} (x : res A) : M A := fun s => let* a := x in Ok (s, Some a).
Definition fail_if (b : bool) : M unit := if b then fail else ret tt.
Definition get_t : M tls_conn := fun s => Ok (s, Some (h_t s)).
Definition get_tsc : M Z := fun s => Ok (s, Some (tr_tsc (h_w s))).
Definition get_ticks : M Z := fun s => Ok (s, Some (tr_ticks (h_w s))).
Definition update_t (f : tls_conn -> tls_conn) : M unit := fun s =>
  Ok (Hstate (h_w s) (f (h_t s)) (g_hsbuf s) (rbuf s) (certmsg s), Some tt).
Definition feed_hash (m : list Z) : M unit := update_t (fun t => set_hs (sha256_update (hs t) m) (hs_has t) t).

(** The handshakes ignore whether a record went out. *)
Definition send_record (type : Z) (data : list Z) : M unit := fun s =>
  let* r := tls_send_record (h_w s) (h_t s) type data in
  Ok (Hstate (fst r) (h_t s) (g_hsbuf s) (rbuf s) (certmsg s), Some tt).
Definition send_encrypted (type : Z) (data : list Z) : M unit := fun s =>
  let* (w, t, _) := tls_send_encrypted (h_w s) (h_t s) type data in
  Ok (Hstate w t (g_hsbuf s) (rbuf s) (certmsg s), Some tt).

Definition tls_read_handshake (want cap deadline : Z) (feed : bool) : M (list Z) :=
  read_handshake fuel want cap deadline feed.
(** The certificate's body goes to the static array. *)
Definition store_cert (body : list Z) : M (list Z) := fun s =>
  let c := blit (certmsg s) 0 body in
  Ok (Hstate (h_w s) (h_t s) (g_hsbuf s) (rbuf s) c, Some c).

(** A handshake message. *)
Definition hs_message (type : Z) (body : list Z) : list Z :=
  [type; u8 (Z.shiftr (len body) 16); u8 (Z.shiftr (len body) 8); u8 (len body)] ++ body.

(** ** Keys *)
(** The master secret and the key block, from the premaster and the randoms. *)
Definition derive (premaster crand srand : list Z) : res (list Z * list Z) :=
  let* ms := tls_prf premaster (label "master secret") (crand ++ srand) 48 in
  let* kb := tls_prf ms (label "key expansion") (srand ++ crand) 128 in
  Ok (ms, kb).

Definition install_keys (premaster crand srand : list Z) : M unit :=
  r <~ lift (derive premaster crand srand);
  let (ms, kb) := r in
  update_t (set_keys (slice kb 0 32) (slice kb 32 32) (aes128_keyexpand (slice kb 64 16))
              (aes128_keyexpand (slice kb 80 16)) ms).

Definition verify_data (ms : list Z) (lab : string) (hash : list Z) : M (list Z) :=
  lift (tls_prf ms (label lab) hash 12).

(** Our ChangeCipherSpec: what is sent from here on is encrypted. *)
Definition change_cipher_spec : M unit :=
  send_record TLS_RT_CHANGE_CIPHER_SPEC [1];;
  update_t (fun t => set_enc true (enc_recv t) (set_seqs 0 (sseq t) t)).

(** ** The client *)
Definition client_random (tsc g_tls_at : Z) : list Z :=
  map (fun i => u8 (Z.lxor (tsc_byte tsc 97 i) (u8 g_tls_at))) (seqZ 0 32).

(** The [signature_algorithms] extension, behind the length of all. *)
Definition hello_extensions : list Z :=
  let sigs := concat (map be16_bytes [1025; 1281; 1537; 513]) in
  let list := [0; u8 (len sigs)] ++ sigs in
  let ext := [0; 13] ++ be16_bytes (len list) ++ list in
  be16_bytes (len ext) ++ ext.

Definition client_hello (random : list Z) : list Z :=
  [3; 3] ++ random ++ [0] ++ [0; 2; 0; TLS_CIPHER_RSA_AES128_SHA256] ++ [1; 0] ++ hello_extensions.

(** The server's random, when the cipher is ours. *)
Definition parse_server_hello (sh : list Z) : option (list Z) :=
  if len sh <? 38 then None
  else
    let cipher_at := 35 + sh.[34] in
    if len sh <? cipher_at + 2 then None
    else if negb (rd16 sh cipher_at =? TLS_CIPHER_RSA_AES128_SHA256) then None
    else Some (slice sh 2 32).

(** The first certificate of the list: its length, at offset 6. *)
Definition parse_certificate (msg : list Z) (certlen : Z) : option Z :=
  if certlen <? 7 then None
  else
    let clen := rd24 msg 0 in
    if (clen <? 3) || (certlen <? 3 + clen) then None
    else
      let dlen := rd24 msg 3 in
      if 3 + clen <? 6 + dlen then None else Some dlen.

Definition of_opt {A} (x : option A) : M A := match x with Some a => ret a | None => fail end.

Definition server_rsa_key (msg : list Z) (certlen : Z) : M (list Z * list Z) :=
  dlen <~ of_opt (parse_certificate msg certlen);
  b <~ lift (x509_get_spki_bitstring fuel msg 6 dlen);
  b <~ of_opt b;
  k <~ lift (x509_rsa_key msg (fst b) (snd b) 256 8);
  of_opt k.

Definition client_premaster (tsc : Z) : list Z :=
  [3; 3] ++ map (fun i => u8 (Z.lxor (tsc_byte tsc 211 i) 90)) (seqZ 2 46).

Definition xorshift (x : Z) : Z :=
  let x := u64 (Z.lxor x (Z.shiftl x 13)) in
  let x := Z.lxor x (Z.shiftr x 7) in
  u64 (Z.lxor x (Z.shiftl x 17)).

(** [do { .. } while (r == 0)] *)
Fixpoint nonzero_byte (k : nat) (x : Z) : res (Z * Z) :=
  match k with
  | O => Starved
  | S k => let x := xorshift x in if u8 x =? 0 then nonzero_byte k x else Ok (x, u8 x)
  end.

Fixpoint pkcs_padding (n : nat) (x : Z) : res (list Z) :=
  match n with
  | O => Ok []
  | S n =>
    let* (x, r) := nonzero_byte fuel x in
    let* l := pkcs_padding n x in Ok (r :: l)
  end.

(** PKCS#1 v1.5, block type 2, for a modulus of [modlen] bytes. *)
Definition encryption_block (ps premaster : list Z) : list Z := [0; 2] ++ ps ++ [0] ++ premaster.

(** [None] of the RSA operations stands for a loop that does not end. *)
Definition of_rsa {A} (x : option A) : res A := match x with Some a => Ok a | None => Starved end.

Definition client_key_exchange (enc : list Z) : list Z :=
  let n := len enc in
  [TLS_HS_CLIENT_KEY_EXCHANGE; 0] ++ be16_bytes (2 + n) ++ be16_bytes n ++ enc.

(** [tls_connect] from the ClientHello on; [g_tls_at] is the address of [g_tls]. *)
Definition client_handshake (g_tls_at deadline : Z) : M unit :=
  tsc <~ get_tsc;
  let crand := client_random tsc g_tls_at in
  let hello := hs_message TLS_HS_CLIENT_HELLO (client_hello crand) in
  update_t (set_hs (sha256_update sha256_init hello) true);;
  send_record TLS_RT_HANDSHAKE hello;;
  sh <~ tls_read_handshake TLS_HS_SERVER_HELLO 512 deadline true;
  srand <~ of_opt (parse_server_hello sh);
  cert <~ tls_read_handshake TLS_HS_CERTIFICATE TLS_BUF deadline true;
  msg <~ store_cert cert;
  key <~ server_rsa_key msg (len cert);
  tls_read_handshake TLS_HS_SERVER_HELLO_DONE 8 deadline true;;
  let (modulus, exponent) := key in
  let premaster := client_premaster tsc in
  let ps := len modulus - 3 - 48 in
  fail_if (ps <? 8);;
  pad <~ lift (pkcs_padding (Z.to_nat ps) tsc);
  enc <~ lift (of_rsa (bn_rsa_public (encryption_block pad premaster) exponent modulus));
  let cke := client_key_exchange enc in
  feed_hash cke;;
  send_record TLS_RT_HANDSHAKE cke;;
  install_keys premaster crand srand;;
  change_cipher_spec;;
  t <~ get_t;
  let hpre := sha256_final (hs t) in
  vd <~ verify_data (master t) "client finished" hpre;
  send_encrypted TLS_RT_HANDSHAKE (hs_message TLS_HS_FINISHED vd);;
  svd <~ tls_read_handshake TLS_HS_FINISHED 64 deadline false;
  fail_if (len svd <? 4);;
  expect <~ verify_data (master t) "server finished" hpre;
  (* [if (memcmp(svd, expect, 12) != 0) { }] *)
  ret tt.

(** ** The server *)
(** [tls_server_key.c]: the key, and the certificate. *)
Record server_key := ServerKey {
  g_key_n : list Z; g_key_p : list Z; g_key_q : list Z; g_key_dp : list Z; g_key_dq : list Z;
  g_key_qinv : list Z; g_cert_der : list Z }.

(** The cipher list: whether a pair of bytes of it is our suite. *)
Definition offers_cipher (ch : list Z) : option bool :=
  if len ch <? 36 then None
  else
    let ciphers_at := 35 + ch.[34] in
    if len ch <? ciphers_at + 2 then None
    else
      let clen := rd16 ch ciphers_at in
      Some (existsb (fun k =>
        let i := 2 * k in
        (i + 1 <? clen) && (ciphers_at + 2 + i + 2 <=? len ch) &&
        (ch.[ciphers_at + 2 + i] =? 0) && (ch.[ciphers_at + 2 + i + 1] =? TLS_CIPHER_RSA_AES128_SHA256))
        (seqZ 0 (len ch))).

Definition server_random (tsc : Z) : list Z :=
  map (fun i => u8 (Z.lxor (tsc_byte tsc 131 i) 165)) (seqZ 0 32).

Definition server_hello (random : list Z) : list Z :=
  [3; 3] ++ random ++ [0] ++ [0; TLS_CIPHER_RSA_AES128_SHA256] ++ [0] ++ [0; 5; 255; 1; 0; 1; 0].

Definition be24_bytes (n : Z) : list Z := [u8 (Z.shiftr n 16); u8 (Z.shiftr n 8); u8 n].
Definition certificate_body (der : list Z) : list Z := be24_bytes (3 + len der) ++ be24_bytes (len der) ++ der.

Definition feed_and_send (msgs : list (list Z)) : M unit :=
  fold_right (fun m k => feed_hash m;; k) (ret tt) msgs;;
  fold_right (fun m k => send_record TLS_RT_HANDSHAKE m;; k) (ret tt) msgs.

(** [while (sep < nlen && eb[sep] != 0) sep++] from 2. *)
Fixpoint find_zero (l : list Z) (i : Z) : Z :=
  match l with
  | [] => i
  | x :: l => if x =? 0 then i else find_zero l (i + 1)
  end.

(** The premaster in the decrypted block, of 256 bytes. *)
Definition unwrap_premaster (nlen : Z) (eb : list Z) : res (option (list Z)) :=
  if negb (eb.[0] =? 0) || negb (eb.[1] =? 2) then Ok None
  else
    let sep := find_zero (slice eb 2 (nlen - 2)) 2 in
    if (sep <? 10) || (nlen <? sep + 48) then Ok None
    else
      let* premaster := rd_bytes eb (sep + 1) 48 in
      if negb (premaster.[0] =? 3) || negb (premaster.[1] =? 3) then Ok None else Ok (Some premaster).

(** [stack] is what the 256 bytes of [eb] held before. *)
Definition decrypt_premaster (key : server_key) (stack cke : list Z) : M (list Z) :=
  let nlen := len (g_key_n key) in
  fail_if (len cke <? 2 + 128);;
  let elen := rd16 cke 0 in
  fail_if ((len cke <? 2 + elen) || negb (elen =? nlen));;
  out <~ lift (of_rsa (bn_rsa_private_crt (slice cke 2 nlen) (g_key_p key) (g_key_q key) (g_key_dp key)
                 (g_key_dq key) (g_key_qinv key) (g_key_n key)));
  p <~ lift (unwrap_premaster nlen (blit stack 0 out));
  of_opt p.

(** A read that may fail. *)
Definition try {A} (m : M A) : M (option A) := fun s => let* (s, a) := m s in Ok (s, Some a).

(** [stack] is also what the 64 bytes of [cfin] held before. *)
Definition server_handshake (key : server_key) (stack : list Z) (deadline : Z) : M unit :=
  ch <~ tls_read_handshake TLS_HS_CLIENT_HELLO 4096 deadline true;
  offered <~ of_opt (offers_cipher ch);
  fail_if (negb offered);;
  let crand := slice ch 2 32 in
  tsc <~ get_tsc;
  let srand := server_random tsc in
  lift (if 4096 <? len (g_cert_der key) then Oob else Ok tt);;
  feed_and_send [hs_message TLS_HS_SERVER_HELLO (server_hello srand);
                 hs_message TLS_HS_CERTIFICATE (certificate_body (g_cert_der key));
                 hs_message TLS_HS_SERVER_HELLO_DONE []];;
  cke <~ tls_read_handshake TLS_HS_CLIENT_KEY_EXCHANGE 512 deadline true;
  premaster <~ decrypt_premaster key stack cke;
  install_keys premaster crand srand;;
  t <~ get_t;
  let hpre := sha256_final (hs t) in
  now <~ get_ticks;
  early <~ try (tls_read_handshake TLS_HS_FINISHED 64 (u64 (now + MS_TO_TICKS 300)) true);
  change_cipher_spec;;
  t2 <~ get_t;
  svd <~ verify_data (master t) "server finished" (match early with Some _ => sha256_final (hs t2) | None => hpre end);
  send_encrypted TLS_RT_HANDSHAKE (hs_message TLS_HS_FINISHED svd);;
  cfin <~ (match early with
           | Some c => ret c
           | None => tls_read_handshake TLS_HS_FINISHED 64 deadline false
           end);
  fail_if (len cfin <? 4);;
  expect <~ verify_data (master t) "client finished" hpre;
  fail_if (negb (memcmp (take 12 (cfin ++ drop (length cfin) stack)) expect =? 0)).

(** ** The calls *)
(** All connections, and the static buffers. *)
Record tls := Tls { g_tls : list tls_conn; hsbuf : list Z; hs_rbuf : list Z; app_rbuf : list Z; certs : list Z }.

Definition tls_at (s : tls) (h : Z) : tls_conn := nth (Z.to_nat h) (g_tls s) no_tls.
Definition put_tls (s : tls) (h : Z) (t : tls_conn) : tls :=
  Tls (<[Z.to_nat h := t]> (g_tls s)) (hsbuf s) (hs_rbuf s) (app_rbuf s) (certs s).

(** A handshake on connection [c] from a fresh entry and an empty reassembly
    buffer: the connection, or, at [fail], its closing and -1. *)
Definition run_handshake (m : Z -> M unit) (w : W) (s : tls) (c : Z) (t0 : tls_conn) : res (W * tls * Z) :=
  let deadline := u64 (tr_ticks w + MS_TO_TICKS 20000) in
  let* (h, r) := m deadline (Hstate w t0 [] (hs_rbuf s) (certs s)) in
  let s t := put_tls (Tls (g_tls s) (g_hsbuf h) (rbuf h) (app_rbuf s) (certmsg h)) c t in
  match r with
  | Some _ => Ok (h_w h, s (h_t h), c)
  | None => let* w := tr_close (h_w h) c in Ok (w, s no_tls, -1)
  end.

Definition tls_connect (g_tls_at : Z) (w : W) (s : tls) (ip port : Z) : res (W * tls * Z) :=
  if tr_own_ip w =? 0 then Ok (w, s, -1)
  else
    let* (w, c) := tr_connect w ip port in
    if c <? 0 then Ok (w, s, -1)
    else run_handshake (client_handshake g_tls_at) w s c (new_tls false c zero_ctx false).

Definition tls_server_handshake (key : server_key) (stack : list Z) (w : W) (s : tls) (c : Z) : res (W * tls * Z) :=
  run_handshake (server_handshake key stack) w s c (new_tls true c sha256_init true).

Definition tls_server_accept (key : server_key) (stack : list Z) (w : W) (s : tls) (listener : Z) : res (W * tls * Z) :=
  let* c := tr_accept w listener in
  if c =? -2 then Ok (w, s, -2)
  else if c <? 0 then Ok (w, s, -1)
  else tls_server_handshake key stack w s c.

Definition tls_server_listen (w : W) (port : Z) : W * Z := tr_listen w port.

Definition valid_handle (s : tls) (h : Z) : bool := (0 <=? h) && (h <? 8) && active (tls_at s h).

(** Records of at most 16000 bytes. *)
Fixpoint send_chunks (k : nat) (w : W) (t : tls_conn) (data : list Z) : res (W * tls_conn * Z) :=
  match data with
  | [] => Ok (w, t, 0)
  | _ =>
    match k with
    | O => Starved
    | S k =>
      let n := if 16000 <? len data then 16000 else len data in
      let* (w, t, r) := tls_send_encrypted w t TLS_RT_APPLICATION_DATA (take (Z.to_nat n) data) in
      if negb (r =? 0) then Ok (w, t, -1) else send_chunks k w t (drop (Z.to_nat n) data)
    end
  end.

Definition tls_send (w : W) (s : tls) (h : Z) (buf : list Z) : res (W * tls * Z) :=
  if negb (valid_handle s h) || negb (enc_send (tls_at s h)) then Ok (w, s, -1)
  else
    let* (w, t, r) := send_chunks (length buf) w (tls_at s h) buf in
    Ok (w, put_tls s h t, if r =? 0 then len buf else -1).

(** One record of application data; its result is ignored. *)
Definition tls_read_appdata (w : W) (t : tls_conn) (pay : list Z) (deadline : Z) : res (W * tls_conn * list Z) :=
  let* (w, t, pay, r) := tls_read_record w t pay deadline in
  match r with
  | None => Ok (w, t, pay)
  | Some (rtype, rlen) =>
    if rtype =? TLS_RT_ALERT then
      Ok (w, if (2 <=? rlen) && (pay.[0] =? 1) && (pay.[1] =? 0) then set_closed t else t, pay)
    else if rtype =? TLS_RT_APPLICATION_DATA then
      let n := if TLS_APPBUF <? len (app_rx t) + rlen then TLS_APPBUF - len (app_rx t) else rlen in
      Ok (w, set_rx (app_rx t ++ take (Z.to_nat n) pay) t, pay)
    else Ok (w, t, pay)
  end.

Fixpoint recv_loop (k : nat) (w : W) (t : tls_conn) (pay : list Z) (deadline : Z) : res (W * tls_conn * list Z) :=
  if (tr_ticks w <? deadline) && (len (app_rx t) =? 0) && negb (peer_closed t) then
    match k with
    | O => Starved
    | S k =>
      let* (w, t, pay) := tls_read_appdata w t pay deadline in
      recv_loop k w t pay deadline
    end
  else Ok (w, t, pay).

(** The bytes handed out, from the front of [rx]. *)
Definition take_rx (t : tls_conn) (cap : Z) : tls_conn * list Z :=
  let n := if cap <? len (app_rx t) then cap else len (app_rx t) in
  (set_rx (drop (Z.to_nat n) (app_rx t)) t, take (Z.to_nat n) (app_rx t)).

Definition tls_recv (w : W) (s : tls) (h cap : Z) : res (W * tls * Z * list Z) :=
  if negb (valid_handle s h) then Ok (w, s, -1, [])
  else
    let t := tls_at s h in
    if 0 <? len (app_rx t) then
      let (t, d) := take_rx t cap in Ok (w, put_tls s h t, len d, d)
    else
      let* (w, t, pay) := recv_loop fuel w t (app_rbuf s) (u64 (tr_ticks w + MS_TO_TICKS 1000)) in
      let s := Tls (g_tls s) (hsbuf s) (hs_rbuf s) pay (certs s) in
      let (t, d) := take_rx t cap in Ok (w, put_tls s h t, len d, d).

Definition tls_close (w : W) (s : tls) (h : Z) : res (W * tls * Z) :=
  if negb (valid_handle s h) then Ok (w, s, -1)
  else
    let t := tls_at s h in
    let* w := (if enc_send t
               then let* (w, _, _) := tls_send_encrypted w t TLS_RT_ALERT [1; 0] in Ok w
               else let* (w, _) := tls_send_record w t TLS_RT_ALERT [1; 0] in Ok w) in
    let* w := tr_close w (conn t) in
    Ok (w, put_tls s h no_tls, 0).

(** [tls_init], on static storage. *)
Definition tls_init (s : tls) : tls := Tls (replicate 8 no_tls) (hsbuf s) (hs_rbuf s) (app_rbuf s) (certs s).
Definition blank : list Z := replicate (Z.to_nat TLS_BUF) 0.
Definition tls_boot : tls := Tls (replicate 8 no_tls) [] blank blank blank.
End Tls.
