(* ===== verification/TlsProps.v ===== *)
(** * Properties of TLS

    The PRF is RFC 5246's; records are opened as they were sealed, in order, and
    only when their MAC agrees; the handshake reader does not depend on how
    messages are cut into records; both sides derive the same keys. And what the
    code lets through: a plaintext session, keys that the ClientHello reveals, a
    long ServerHello, data that does not fit one segment. *)
From Stdlib Require Import ZArith Lia Bool String.
From stdpp Require Import base list numbers option.
From S2P Require Import Prelude Cipher Aes Hash Bignum Tcp Nic Ipv6 NetProps X509 Stream Tls.
#[local] Set Default Goal Selector "!".
Open Scope Z_scope.
Open Scope carray_scope.

#[local] Opaque sha1_block sha256_transform md_feed md_hash aes128_encrypt_block aes128_decrypt_block.

(** * The PRF *)
(** RFC 5246, 5: [A(0) = seed], [A(i) = HMAC(secret, A(i-1))], and
    [P_hash = HMAC(secret, A(1) + seed) + HMAC(secret, A(2) + seed) + ...]. *)
Definition prf_A (secret seed : list Z) (i : nat) : list Z := Nat.iter i (rfc2104 sha256 secret) seed.
Definition p_hash (secret seed : list Z) (blocks : nat) : list Z :=
  concat (map (fun i => rfc2104 sha256 secret (prf_A secret seed i ++ seed)) (seq 1 blocks)).

Lemma prf_A_length secret seed i : length (prf_A secret seed (S i)) = 32%nat.
Proof. apply length_sha256. Qed.

Lemma hmac_short secret text : 8 * len secret < 2 ^ 64 -> len text <= 1000 ->
  hmac_sha256 secret text = rfc2104 sha256 secret text.
Proof. intros Hs Ht. apply hmac_sha256_spec; lia. Qed.

Lemma tls_prf_loop_spec secret seed : 8 * len secret < 2 ^ 64 -> len seed <= 128 ->
  forall blocks fuel i outlen, 0 <= outlen <= 32 * Z.of_nat blocks -> outlen <= Z.of_nat fuel ->
  prf_loop fuel secret seed (prf_A secret seed (S i)) outlen =
  take (Z.to_nat outlen)
    (concat (map (fun i => rfc2104 sha256 secret (prf_A secret seed i ++ seed)) (seq (S i) blocks))).
Proof.
  intros Hs Hl. induction blocks as [|blocks IH]; intros fuel i outlen Ho Hf.
  - assert (outlen = 0) as -> by lia. by destruct fuel.
  - destruct fuel as [|fuel]; cbn [prf_loop].
    { assert (outlen = 0) as -> by lia. done. }
    case_ifZ. { assert (outlen = 0) as -> by lia. done. }
    assert (len (prf_A secret seed (S i)) = 32) as HA by (unfold len; by rewrite prf_A_length).
    rewrite !hmac_short by (rewrite ?len_app; lia).
    change (rfc2104 sha256 secret (prf_A secret seed (S i))) with (prf_A secret seed (S (S i))).
    cbn [seq map concat]. set (h := rfc2104 sha256 secret (prf_A secret seed (S i) ++ seed)).
    assert (length h = 32%nat) as Lh by apply length_sha256.
    rewrite IH by (case_ifZ; lia). case_ifZ.
    + rewrite (take_ge h) by (rewrite Lh; lia). rewrite take_app_ge by lia. do 2 f_equal. lia.
    + rewrite Z.sub_diag. rewrite take_0, app_nil_r. rewrite take_app_le by lia. done.
Qed.

(** The PRF of the code is P_SHA256 of RFC 5246: for a label and a seed that
    fit its array, [tls_prf] returns the first [outlen] bytes of
    [HMAC(secret, A(1) + label + seed) + HMAC(secret, A(2) + label + seed) + ...],
    with RFC 2104's HMAC over FIPS 180-4's hash; a longer label and seed overrun
    the array. *)
Theorem tls_prf_rfc5246 secret lab seed outlen blocks :
  8 * len secret < 2 ^ 64 -> 0 <= outlen <= 32 * Z.of_nat blocks ->
  tls_prf secret lab seed outlen =
  if len (lab ++ seed) <=? 128 then Ok (take (Z.to_nat outlen) (p_hash secret (lab ++ seed) blocks)) else Oob.
Proof.
  intros Hs Ho. unfold tls_prf. destruct (Z.leb_spec (len (lab ++ seed)) 128).
  - rewrite (proj2 (Z.ltb_ge 128 _)) by lia. f_equal. rewrite hmac_short by lia.
    apply (tls_prf_loop_spec secret (lab ++ seed) Hs ltac:(lia) blocks _ 0); lia.
  - by rewrite (proj2 (Z.ltb_lt 128 _)) by lia.
Qed.

Lemma tls_prf_rfc5246_witness :
  tls_prf [1; 2; 3] (label "key expansion") [4; 5] 40
  = (if len (label "key expansion" ++ [4; 5]) <=? 128
     then Ok (take (Z.to_nat 40) (p_hash [1; 2; 3] (label "key expansion" ++ [4; 5]) 2)) else Oob).
Proof. refine (tls_prf_rfc5246 [1; 2; 3] (label "key expansion") [4; 5] 40 2 _ _); [vm_compute; reflexivity|lia]. Defined.

Lemma tls_prf_ok secret lab seed n : len (lab ++ seed) <= 128 -> 0 <= n ->
  exists out, tls_prf secret lab seed n = Ok out /\ len out = n /\ bytes out.
Proof.
  intros Hl Hn. unfold tls_prf. rewrite (proj2 (Z.ltb_ge 128 _)) by lia. eexists. split; [done|].
  set (buf := lab ++ seed). clearbody buf. generalize (hmac_sha256 secret buf) as a.
  assert (forall k m a, 0 <= m <= Z.of_nat k -> len (prf_loop k secret buf a m) = m /\ bytes (prf_loop k secret buf a m)) as Hk.
  { induction k as [|k IH]; intros m a Hm; cbn [prf_loop]; (case_ifZ; [split; [unfold len; cbn; lia|apply Forall_nil_2]|]); [lia|].
    destruct (IH (m - (if 32 <? m then 32 else m)) (hmac_sha256 secret a) ltac:(case_ifZ; lia)) as [IH1 IH2].
    split.
    - rewrite len_app, IH1. unfold len. rewrite length_take, length_hmac_sha256. case_ifZ; lia.
    - apply bytes_app; [apply bytes_take|exact IH2]. apply bytes_hmac_sha256. }
  intros a. apply Hk. lia.
Qed.

(** * Records *)
Section Records.
Context {W : Type} `{Stream W}.

(** What arrived in time is read in one step. *)
Lemma recv_exact_ready k w c dl n : opened w c -> 0 <= n -> n <= len (inbox w c) -> (0 < k)%nat ->
  exists w', recv_exact k w c dl n [] = Ok (w', take (Z.to_nat n) (inbox w c), true) /\
    opened w' c /\ inbox w' c = drop (Z.to_nat n) (inbox w c) /\ outbox w' c = outbox w c /\
    tr_ticks w' = tr_ticks w /\ tr_tsc w' = tr_tsc w.
Proof.
  intros Ho Hn Hl Hk. destruct k as [|k]; [lia|]. destruct (Z.eq_dec n 0) as [->|].
  { exists w. cbn [recv_exact]. change (0 <=? len []) with true. cbv iota.
    change (Z.to_nat 0) with 0%nat. rewrite take_0, drop_0. done. }
  cbn [recv_exact]. change (len (@nil Z)) with 0. rewrite (proj2 (Z.leb_gt n 0)), Z.sub_0_r by lia.
  destruct (recv_law w c n Ho ltac:(lia)) as (w' & r & -> & _ & Hr & R). cbn [rbind].
  assert (inbox w c <> []) as Hne by (intros E; rewrite E in Hl; change (len []) with 0 in Hl; lia).
  rewrite (Hr Hne), Z.min_l, (proj2 (Z.ltb_lt 0 n)) by lia. rewrite app_nil_l.
  exists w'. split; [|exact R].
  assert ((n <=? len (take (Z.to_nat n) (inbox w c))) = true) as E
    by (apply Z.leb_le; unfold len in *; rewrite length_take; lia).
  destruct k; cbn [recv_exact]; by rewrite E.
Qed.

(** A send that has room goes out in one step. *)
Lemma send_all_fits k w c d : opened w c -> len (outbox w c) + len d <= SEND_ROOM -> (len d <= Z.of_nat k) ->
  exists w', send_all k w c d = Ok (w', 0) /\ opened w' c /\ inbox w' c = inbox w c /\
    outbox w' c = outbox w c ++ d /\ tr_ticks w' = tr_ticks w /\ tr_tsc w' = tr_tsc w.
Proof.
  intros Ho Hr Hk. destruct d as [|x d]; [exists w; destruct k; rewrite app_nil_r; done|].
  assert (0 < len (x :: d)) as Hd by (rewrite len_cons; pose proof (len_nonneg d); lia).
  destruct k as [|k]; [lia|]. cbn [send_all].
  destruct (send_law w c (x :: d) Ho Hd Hr) as (w' & -> & R). cbn [rbind].
  rewrite (proj2 (Z.leb_gt (len (x :: d)) 0)) by lia. rewrite drop_ge by (unfold len; lia). exists w'. split; [by destruct k|exact R].
Qed.

Lemma send_all_long w c d k : opened w c -> SEND_ROOM < len d -> (0 < k)%nat ->
  exists w', send_all k w c d = Ok (w', -1) /\ opened w' c /\ inbox w' c = inbox w c /\
    outbox w' c = outbox w c /\ tr_ticks w' = tr_ticks w /\ tr_tsc w' = tr_tsc w.
Proof.
  intros Ho Hr Hk. destruct d as [|x d]; [unfold SEND_ROOM, len in Hr; cbn in Hr; lia|].
  destruct k as [|k]; [lia|]. cbn [send_all].
  destruct (send_refused w c (x :: d) Ho Hr) as (w' & -> & R). cbn [rbind]. by exists w'.
Qed.

Lemma send_record_fits w t type d : opened w (conn t) -> len (outbox w (conn t)) + 5 + len d <= SEND_ROOM ->
  exists w', tls_send_record w t type d = Ok (w', 0) /\ opened w' (conn t) /\ inbox w' (conn t) = inbox w (conn t) /\
    outbox w' (conn t) = outbox w (conn t) ++ record_header type (len d) ++ d /\
    tr_ticks w' = tr_ticks w /\ tr_tsc w' = tr_tsc w.
Proof.
  intros Ho Hr. unfold tls_send_record. pose proof (len_nonneg (outbox w (conn t))). unfold SEND_ROOM in Hr.
  rewrite (proj2 (Z.ltb_ge 19995 _)) by lia.
  apply send_all_fits; [done|rewrite len_app; change (len (record_header type (len d))) with 5; unfold SEND_ROOM; lia|unfold len; lia].
Qed.

(** ** One record in the inbox *)
Definition record_bytes (type : Z) (body : list Z) : list Z := record_header type (len body) ++ body.

Lemma read_header k w c dl type body rest : opened w c -> (0 < k)%nat -> inbox w c = record_bytes type body ++ rest ->
  exists w', recv_exact k w c dl 5 [] = Ok (w', record_header type (len body), true) /\
    opened w' c /\ inbox w' c = body ++ rest /\ outbox w' c = outbox w c /\ tr_ticks w' = tr_ticks w /\ tr_tsc w' = tr_tsc w.
Proof.
  intros Ho Hk Hi. unfold record_bytes in Hi. rewrite <- app_assoc in Hi.
  destruct (recv_exact_ready k w c dl 5 Ho ltac:(lia)) as (w' & E & R); [|done|].
  { rewrite Hi, len_app. change (len (record_header type (len body))) with 5. pose proof (len_nonneg (body ++ rest)). lia. }
  rewrite Hi in E, R. exists w'. split; [exact E|exact R].
Qed.

Lemma read_body k w c dl body rest : opened w c -> (0 < k)%nat -> inbox w c = body ++ rest ->
  exists w', recv_exact k w c dl (len body) [] = Ok (w', body, true) /\
    opened w' c /\ inbox w' c = rest /\ outbox w' c = outbox w c /\ tr_ticks w' = tr_ticks w /\ tr_tsc w' = tr_tsc w.
Proof.
  intros Ho Hk Hi. pose proof (len_nonneg body). pose proof (len_nonneg rest).
  destruct (recv_exact_ready k w c dl (len body) Ho ltac:(lia)) as (w' & E & R); [rewrite Hi, len_app; lia|done|].
  rewrite Hi in E, R. unfold len in E, R. rewrite Nat2Z.id, take_app_length in E. rewrite Nat2Z.id, drop_app_length in R.
  exists w'. split; [exact E|exact R].
Qed.

Lemma rd16_header type n : 0 <= n < 65536 -> rd16 (record_header type n) 3 = n.
Proof. intros. exact (rd16_at [type; 3; 3] n [] ltac:(lia)). Qed.

Lemma record_header_nonzero type n : forallb (Z.eqb 0) (record_header type n) = false.
Proof. unfold record_header. cbn. by rewrite andb_false_r. Qed.

(** Without a receive cipher the payload is what came. *)
Lemma read_plain fuel w t pay dl type body rest : opened w (conn t) -> (0 < fuel)%nat -> len body <= TLS_BUF ->
  (enc_recv t = false \/ type = 20) -> inbox w (conn t) = record_bytes type body ++ rest ->
  exists w', tls_read_record fuel w t pay dl
      = Ok (w', set_seqs (cseq t) (u64 (sseq t + 1)) t, blit pay 0 body, Some (type, len body)) /\
    opened w' (conn t) /\ inbox w' (conn t) = rest /\ outbox w' (conn t) = outbox w (conn t) /\
    tr_ticks w' = tr_ticks w /\ tr_tsc w' = tr_tsc w.
Proof.
  intros Ho Hf Hb He Hi. unfold TLS_BUF in Hb. unfold tls_read_record. pose proof (len_nonneg body).
  destruct (read_header fuel w _ dl type body rest Ho Hf Hi) as (w1 & -> & Ho1 & Hi1 & R1). cbn [rbind negb].
  rewrite record_header_nonzero. cbn [orb]. rewrite rd16_header by lia. rewrite (proj2 (Z.ltb_ge TLS_BUF _)) by (unfold TLS_BUF; lia).
  destruct (read_body fuel w1 _ dl body rest Ho1 Hf Hi1) as (w2 & -> & Ho2 & Hi2 & R2). cbn [rbind negb].
  change (nthZ (record_header type (len body)) 0) with type.
  assert (enc_recv t && negb (type =? TLS_RT_CHANGE_CIPHER_SPEC) = false) as ->
    by (destruct He as [-> | ->]; [done|by rewrite andb_false_r]).
  exists w2. split; [done|]. splits; try done; destruct R1 as (? & ? & ?), R2 as (? & ? & ?); congruence.
Qed.

(** ** Sealing and opening *)
(** The peer's end: the same keys, the other role. *)
Definition peers (a b : tls_conn) : Prop :=
  server b = negb (server a) /\ c_mac a = c_mac b /\ s_mac a = s_mac b /\ rk_c a = rk_c b /\ rk_s a = rk_s b.

Lemma peers_keys a b : peers a b -> w_mac a = r_mac b /\ w_rk a = r_rk b.
Proof.
  intros (Hs & ? & ? & ? & ?). unfold w_mac, r_mac, w_rk, r_rk. rewrite Hs. by destruct (server a).
Qed.

Definition pad_of (data : list Z) : Z := 16 - (len data + 32) mod 16.
Lemma pad_range data : 1 <= pad_of data <= 16.
Proof. unfold pad_of. pose proof (Z.mod_pos_bound (len data + 32) 16). lia. Qed.

(** No shorter padding agrees by chance with the MAC of longer data. *)
Definition unambiguous (t : tls_conn) (type : Z) (data : list Z) : Prop :=
  forall k, 1 <= k < pad_of data ->
  let n := len data + pad_of data - k in
  hmac_sha256 (w_mac t) (mac_input (cseq t) type 3 3 (slice (seal_inner t type data) 0 n))
  <> slice (seal_inner t type data) n 32.

Lemma seal_inner_spec t type data : bytes data ->
  len (seal_inner t type data) = len data + 32 + pad_of data /\ bytes (seal_inner t type data) /\
  len (seal_inner t type data) mod 16 = 0 /\
  slice (seal_inner t type data) 0 (len data) = data /\
  slice (seal_inner t type data) (len data) 32 = hmac_sha256 (w_mac t) (mac_input (cseq t) type 3 3 data).
Proof.
  intros Hb. unfold seal_inner. fold (pad_of data). set (mac := hmac_sha256 _ _).
  assert (len mac = 32) as Lm by apply len_hmac_sha256.
  set (padding := replicate _ _). pose proof (pad_range data) as Hp.
  assert (len padding = pad_of data) as Lp by (unfold padding, len; rewrite length_replicate; lia).
  pose proof (len_nonneg data). rewrite !len_app, Lm, Lp. splits.
  - lia.
  - apply bytes_app; [done|]. apply bytes_app; [apply bytes_hmac_sha256|]. apply bytes_replicate, byte_u8.
  - unfold pad_of. pose proof (Z.div_mod (len data + 32) 16). symmetry.
    apply (Z.mod_unique _ _ ((len data + 32) / 16 + 1)); lia.
  - rewrite slice_app_l by lia. by apply slice_all.
  - rewrite slice_app_r, Z.sub_diag, slice_app_l by lia. by apply slice_all.
Qed.

Lemma find_first (f : Z -> bool) pad : 1 <= pad <= 16 -> f pad = true -> (forall k, 1 <= k < pad -> f k = false) ->
  find f (seqZ 1 16) = Some pad.
Proof.
  intros Hp Ht Hf.
  assert (forall n i, 1 <= i -> i <= pad < i + Z.of_nat n -> find f (seqZ i (Z.of_nat n)) = Some pad) as G.
  { induction n as [|n IH]; intros i Hi Hr; [lia|]. rewrite seqZ_cons by lia. cbn [find].
    destruct (Z.eq_dec i pad) as [->|]; [by rewrite Ht|]. rewrite Hf by lia.
    replace (Z.pred (Z.of_nat (S n))) with (Z.of_nat n) by lia. apply IH; lia. }
  apply (G 16%nat 1); lia.
Qed.

Lemma slice_prefix (pay inner : list Z) o n rest : pay = inner ++ rest -> 0 <= o -> 0 <= n -> o + n <= len inner ->
  slice pay o n = slice inner o n.
Proof. intros ->. apply slice_app_l. Qed.

(** The candidates end at the real padding. *)
Lemma find_pad_sealed t t' type data pay rest : peers t t' -> cseq t = sseq t' -> bytes data -> len data <= 16000 ->
  unambiguous t type data -> pay = seal_inner t type data ++ rest ->
  find_pad t' (record_header type (len pay)) pay (len (seal_inner t type data)) = Some (len data).
Proof.
  intros Hk Hq Hb Hl Hu Hp. destruct (peers_keys t t' Hk) as [Hm _].
  destruct (seal_inner_spec t type data Hb) as (Li & _ & _ & S1 & S2). pose proof (len_nonneg data). pose proof (pad_range data).
  assert (forall k, 1 <= k <= pad_of data -> mac_agrees t' (record_header type (len pay)) pay (len (seal_inner t type data)) k =
    (memcmp (hmac_sha256 (w_mac t) (mac_input (cseq t) type 3 3 (slice (seal_inner t type data) 0 (len data + pad_of data - k))))
       (slice (seal_inner t type data) (len data + pad_of data - k) 32) =? 0)) as E.
  { intros k Hk'. unfold mac_agrees. rewrite Li. rewrite (proj2 (Z.leb_le (k + 32) _)) by lia. cbn [andb].
    replace (len data + 32 + pad_of data - k - 32) with (len data + pad_of data - k) by lia. rewrite u16_small by lia.
    rewrite <- Hm, <- Hq. change ((record_header type (len pay)).[0]) with type.
    change ((record_header type (len pay)).[1]) with 3. change ((record_header type (len pay)).[2]) with 3.
    by rewrite !(slice_prefix pay (seal_inner t type data) _ _ rest Hp) by lia. }
  unfold find_pad. rewrite (find_first _ (pad_of data)); [|lia| |].
  - f_equal. rewrite Li, u16_small by lia. lia.
  - rewrite E by lia. replace (len data + pad_of data - pad_of data) with (len data) by lia. rewrite S1, S2, memcmp_refl. done.
  - intros k Hk'. rewrite E by lia. apply Z.eqb_neq. intros G. apply memcmp_eq in G; [exact (Hu k Hk' G)|].
    rewrite length_hmac_sha256, length_slice by lia. done.
Qed.

Lemma tsc_iv tsc : block16 (map (tsc_byte tsc 131) (seqZ 0 16)).
Proof.
  split; [by rewrite length_map, length_seqZ|]. apply List.Forall_forall. intros x Hx.
  apply in_map_iff in Hx as (i & <- & _). apply byte_u8.
Qed.

(** A sealed record: IV and ciphertext. *)
Lemma seal_record_spec tsc t type data : bytes data -> (exists key, block16 key /\ w_rk t = aes128_keyexpand key) ->
  exists iv ct, seal_record tsc t type data = record_bytes type (iv ++ ct) /\
    length iv = 16%nat /\ len ct = len (seal_inner t type data) /\
    aes128_cbc_decrypt (w_rk t) iv (Z.to_nat (len ct / 16)) ct = seal_inner t type data.
Proof.
  intros Hb (key & Hk & Er). destruct (seal_inner_spec t type data Hb) as (_ & Bi & Mi & _).
  set (inner := seal_inner t type data) in *. unfold seal_record. fold inner. rewrite Er.
  set (iv := map _ _). pose proof (tsc_iv tsc) as Hiv. fold iv in Hiv.
  assert (length inner = (16 * Z.to_nat (len inner / 16))%nat) as L
    by (pose proof (Z.div_mod (len inner) 16); pose proof (len_nonneg inner); pose proof (Z.div_pos (len inner) 16); unfold len in *; lia).
  destruct (aes128_cbc_roundtrip key iv _ inner Hk Hiv L Bi) as [Lc Dc]. cbv zeta in Lc, Dc.
  exists iv, (fst (aes128_cbc_encrypt (aes128_keyexpand key) iv (Z.to_nat (len inner / 16)) inner)).
  split; [done|]. split; [apply Hiv|].
  assert (len (fst (aes128_cbc_encrypt (aes128_keyexpand key) iv (Z.to_nat (len inner / 16)) inner)) = len inner) as Ll
    by (unfold len in *; lia).
  split; [exact Ll|]. by rewrite Ll.
Qed.

Lemma decrypt_payload_sealed t' pay iv ct inner : length pay = Z.to_nat TLS_BUF -> length iv = 16%nat ->
  len ct mod 16 = 0 -> 16 + len ct <= TLS_BUF -> length inner = length ct ->
  aes128_cbc_decrypt (r_rk t') iv (Z.to_nat (len ct / 16)) ct = inner ->
  exists rest, decrypt_payload t' (blit pay 0 (iv ++ ct)) (len (iv ++ ct)) = inner ++ rest /\
    length (inner ++ rest) = length pay.
Proof.
  intros Lp Liv Hm Hl Li Hd. unfold decrypt_payload, TLS_BUF in *.
  assert (len iv = 16) as Lv by (unfold len; lia). rewrite len_app, Lv. pose proof (len_nonneg ct).
  replace (16 + len ct - 16) with (len ct) by lia.
  assert ((len ct + 15) / 16 = len ct / 16) as ->.
  { pose proof (Z.div_mod (len ct) 16). symmetry. apply (Z.div_unique _ _ _ 15); lia. }
  assert (16 * (len ct / 16) = len ct) as E16 by (pose proof (Z.div_mod (len ct) 16); lia). rewrite E16.
  assert (len pay = 20000) as Lpay by (unfold len; lia).
  set (p := blit pay 0 (iv ++ ct)).
  assert (p = (iv ++ ct) ++ drop (length (iv ++ ct)) pay) as Ep by (unfold p, blit; cbn [Z.to_nat take]; done).
  assert (len p = 20000) as Lpp by (unfold p, len; rewrite length_blit; [lia|lia|rewrite len_app; lia]).
  assert (take 16 p = iv) as -> by (rewrite Ep, <- app_assoc; by rewrite take_app_length').
  assert (slice p 16 (len ct) = ct) as ->.
  { rewrite Ep, <- app_assoc, slice_app_r, Lv, Z.sub_diag, slice_app_l by lia. by apply slice_all. }
  rewrite Hd. assert (len inner = len ct) as Lin by (unfold len; lia).
  rewrite <- Lin, slice_blit_same by lia.
  exists (drop (length inner) (blit p 16 inner)). split; [by unfold blit at 1|].
  rewrite length_app, length_drop, length_blit by lia. unfold len in *. lia.
Qed.

(** A sealed record is opened by the peer. *)
Lemma read_sealed fuel tsc w t t' pay dl type data rest : opened w (conn t') -> (0 < fuel)%nat -> peers t t' ->
  (exists key, block16 key /\ w_rk t = aes128_keyexpand key) -> cseq t = sseq t' -> enc_recv t' = true ->
  bytes data -> len data <= 16000 -> unambiguous t type data -> type <> 20 -> length pay = Z.to_nat TLS_BUF ->
  inbox w (conn t') = seal_record tsc t type data ++ rest ->
  exists w' pay', tls_read_record fuel w t' pay dl
      = Ok (w', set_seqs (cseq t') (u64 (sseq t' + 1)) t', data ++ pay', Some (type, len data)) /\
    length (data ++ pay') = length pay /\
    opened w' (conn t') /\ inbox w' (conn t') = rest /\ outbox w' (conn t') = outbox w (conn t') /\
    tr_ticks w' = tr_ticks w /\ tr_tsc w' = tr_tsc w.
Proof.
  intros Ho Hf Hp Hkey Hq He Hb Hl Hu Ht Lp Hi.
  destruct (seal_record_spec tsc t type data Hb Hkey) as (iv & ct & Es & Liv & Lct & Hd). rewrite Es in Hi.
  destruct (seal_inner_spec t type data Hb) as (Li & _ & Mi & S1 & _). pose proof (len_nonneg data). pose proof (pad_range data).
  assert (len iv = 16) as Lv by (unfold len; lia).
  unfold tls_read_record. set (body := iv ++ ct) in *.
  assert (len body = 16 + len (seal_inner t type data)) as Lb by (unfold body; rewrite len_app; lia).
  destruct (read_header fuel w _ dl type body rest Ho Hf Hi) as (w1 & -> & Ho1 & Hi1 & R1). cbn [rbind negb].
  rewrite record_header_nonzero. cbn [orb]. rewrite rd16_header by lia.
  rewrite (proj2 (Z.ltb_ge TLS_BUF _)) by (unfold TLS_BUF; lia).
  destruct (read_body fuel w1 _ dl body rest Ho1 Hf Hi1) as (w2 & -> & Ho2 & Hi2 & R2). cbn [rbind negb].
  change (nthZ (record_header type (len body)) 0) with type. rewrite He.
  rewrite (proj2 (Z.eqb_neq type TLS_RT_CHANGE_CIPHER_SPEC)) by done. cbn [andb negb].
  assert (48 <= len (seal_inner t type data)) by (pose proof (Z.div_mod (len (seal_inner t type data)) 16); lia).
  rewrite (proj2 (Z.ltb_ge (len body) 64)) by lia. destruct (peers_keys t t' Hp) as [_ Hrk]. rewrite Hrk in Hd.
  destruct (decrypt_payload_sealed t' pay iv ct (seal_inner t type data) Lp Liv ltac:(rewrite Lct; done)
    ltac:(unfold TLS_BUF; lia) ltac:(unfold len in *; lia) Hd) as (r & Edp & Lr).
  fold body in Edp. rewrite Edp. replace (len body - 16) with (len (seal_inner t type data)) by lia.
  set (pay1 := seal_inner t type data ++ r) in *.
  pose proof (find_pad_sealed t t' type data pay1 r Hp Hq Hb Hl Hu eq_refl) as Hfp.
  assert (find_pad t' (record_header type (len body)) pay1 (len (seal_inner t type data)) = Some (len data)) as ->
    by (rewrite <- Hfp; reflexivity).
  exists w2, (drop (length data) pay1).
  assert (data ++ drop (length data) pay1 = pay1) as Ed.
  { transitivity (take (length data) pay1 ++ drop (length data) pay1); [|apply take_drop]. f_equal.
    unfold slice in S1. change (Z.to_nat 0) with 0%nat in S1. rewrite drop_0 in S1. unfold len in S1. rewrite Nat2Z.id in S1.
    unfold pay1. rewrite take_app_le by (unfold len in Li; lia). done. }
  rewrite Ed. split; [done|]. split; [exact Lr|]. splits; try done; destruct R1 as (? & ? & ?), R2 as (? & ? & ?); congruence.
Qed.
End Records.

(** * Application data *)
(** [t] writes under a key that was expanded. *)
Definition keyed (t : tls_conn) : Prop := exists key, block16 key /\ w_rk t = aes128_keyexpand key.

(** What a sender's calls put on the wire: the counter at each, the message. *)
Definition next_record (t : tls_conn) : tls_conn := set_seqs (u64 (cseq t + 1)) (sseq t) t.
Fixpoint sealed (t : tls_conn) (ms : list (Z * list Z)) : list Z :=
  match ms with
  | [] => []
  | (tsc, m) :: ms => seal_record tsc t TLS_RT_APPLICATION_DATA m ++ sealed (next_record t) ms
  end.
Fixpoint readable (t : tls_conn) (ms : list (Z * list Z)) : Prop :=
  match ms with
  | [] => True
  | (_, m) :: ms =>
    bytes m /\ 1 <= len m <= TLS_APPBUF /\ unambiguous t TLS_RT_APPLICATION_DATA m /\ readable (next_record t) ms
  end.

Lemma tls_at_put s h t : 0 <= h < 8 -> length (g_tls s) = 8%nat -> tls_at (put_tls s h t) h = t.
Proof. intros. unfold tls_at, put_tls. cbn [g_tls]. rewrite nth_lookup, list_lookup_insert_eq by lia. done. Qed.

Lemma length_put s h t : length (g_tls (put_tls s h t)) = length (g_tls s).
Proof. unfold put_tls. cbn [g_tls]. apply length_insert. Qed.

Section AppData.
Context {W : Type} `{Stream W}.

Lemma seal_record_len tsc t type data : bytes data -> keyed t ->
  len (seal_record tsc t type data) = 21 + len (seal_inner t type data).
Proof.
  intros Hb Hk. destruct (seal_record_spec tsc t type data Hb Hk) as (iv & ct & -> & Liv & <- & _).
  unfold record_bytes. rewrite len_app. change (len (record_header type (len (iv ++ ct)))) with 5.
  rewrite len_app. unfold len. lia.
Qed.

Lemma send_chunks_step w t buf : buf <> [] -> send_chunks (length buf) w t buf =
  let n := if 16000 <? len buf then 16000 else len buf in
  let* (w, t, r) := tls_send_encrypted w t TLS_RT_APPLICATION_DATA (take (Z.to_nat n) buf) in
  if negb (r =? 0) then Ok (w, t, -1) else send_chunks (pred (length buf)) w t (drop (Z.to_nat n) buf).
Proof. by destruct buf. Qed.

(** [tls_send] on an established session. A message whose record has room in
    the segment goes out as exactly one sealed record behind what was sent, and
    the sequence number advances by one. A message of 1344 bytes or more, up to
    any size, is refused with -1, nothing being sent: its first record does not
    fit one [net_tcp_send], which takes 1400 bytes at most. *)
Theorem tls_send_spec w s h buf :
  let t := tls_at s h in
  valid_handle s h = true -> enc_send t = true -> opened w (conn t) -> keyed t -> bytes buf -> 1 <= len buf ->
  (len buf <= 16000 -> len (outbox w (conn t)) + len (seal_record (tr_tsc w) t TLS_RT_APPLICATION_DATA buf) <= SEND_ROOM ->
   exists w', tls_send w s h buf = Ok (w', put_tls s h (next_record t), len buf) /\
     outbox w' (conn t) = outbox w (conn t) ++ seal_record (tr_tsc w) t TLS_RT_APPLICATION_DATA buf /\
     inbox w' (conn t) = inbox w (conn t) /\ opened w' (conn t)) /\
  (1344 <= len buf ->
   exists w', tls_send w s h buf = Ok (w', put_tls s h t, -1) /\
     outbox w' (conn t) = outbox w (conn t) /\ inbox w' (conn t) = inbox w (conn t) /\ opened w' (conn t)).
Proof.
  intros t Hv He Ho Hk Hb Hn. unfold tls_send. fold t. rewrite Hv, He. cbn [negb orb].
  rewrite send_chunks_step by (intros ->; unfold len in Hn; cbn in Hn; lia). set (n := if 16000 <? len buf then 16000 else len buf).
  pose proof (pad_range (take (Z.to_nat n) buf)).
  destruct (seal_inner_spec t TLS_RT_APPLICATION_DATA (take (Z.to_nat n) buf) (bytes_take _ _ Hb)) as (Li & _ & Mi & _).
  assert (len (take (Z.to_nat n) buf) = n) as Ln by (unfold n, len in *; rewrite length_take; case_ifZ; lia).
  pose proof (seal_record_len (tr_tsc w) t TLS_RT_APPLICATION_DATA (take (Z.to_nat n) buf) (bytes_take _ _ Hb) Hk) as Lr.
  unfold tls_send_encrypted. rewrite (proj2 (Z.ltb_ge TLS_BUF _)) by (unfold TLS_BUF, n in *; case_ifZ; lia). split.
  - intros Hs Hr. assert (n = len buf) as En by (unfold n; by rewrite (proj2 (Z.ltb_ge 16000 _)) by lia).
    assert (take (Z.to_nat n) buf = buf) as Et by (rewrite En; apply take_ge; unfold len; lia). rewrite Et in *.
    destruct (send_all_fits (length (seal_record (tr_tsc w) t TLS_RT_APPLICATION_DATA buf)) w (conn t)
      (seal_record (tr_tsc w) t TLS_RT_APPLICATION_DATA buf) Ho Hr (Z.le_refl _))
      as (w' & -> & Ho' & Hi' & Hout & _). cbn [rbind Z.eqb negb].
    rewrite (drop_ge buf) by (rewrite En; unfold len; lia).
    exists w'. split; [by destruct (pred (length buf))|done].
  - intros Hl. destruct (send_all_long w (conn t) (seal_record (tr_tsc w) t TLS_RT_APPLICATION_DATA (take (Z.to_nat n) buf))
      (length (seal_record (tr_tsc w) t TLS_RT_APPLICATION_DATA (take (Z.to_nat n) buf))) Ho) as (w' & -> & Ho' & Hi' & Hout & _).
    + unfold SEND_ROOM. pose proof (Z.div_mod (len (seal_inner t TLS_RT_APPLICATION_DATA (take (Z.to_nat n) buf))) 16).
      assert (1344 <= n) by (unfold n; case_ifZ; lia). lia.
    + pose proof (len_nonneg (seal_inner t TLS_RT_APPLICATION_DATA (take (Z.to_nat n) buf))). unfold len in *. lia.
    + cbn [rbind Z.eqb negb]. exists w'. done.
Qed.

Context (fuel : nat).

Lemma recv_exact_len k : forall w c dl n got w' out ok, recv_exact k w c dl n got = Ok (w', out, ok) ->
  len got <= n -> len out <= n.
Proof.
  induction k as [|k IH]; intros w c dl n got w' out ok E Hg; cbn [recv_exact] in E;
    (destruct (n <=? len got); [by injection E as <- <- <-|]); [discriminate|].
  destruct (tr_recv w c (n - len got)) as [[[w1 r] d]| |] eqn:G; [|discriminate..]. cbn [rbind] in E.
  destruct (0 <? r).
  - apply IH in E; [done|]. apply recv_bound in G; [|lia]. rewrite len_app. lia.
  - destruct (dl <? _); [by injection E as <- <- <-|].
    destruct (tr_service w1) as [w2| |]; [|discriminate..]. cbn [rbind] in E. by apply IH in E.
Qed.

Lemma recv_exact_full k : forall w c dl n got w' out, recv_exact k w c dl n got = Ok (w', out, true) -> n <= len out.
Proof.
  induction k as [|k IH]; intros w c dl n got w' out E; cbn [recv_exact] in E;
    (destruct (Z.leb_spec n (len got)); [by injection E as <- <-|]); [discriminate|].
  destruct (tr_recv w c (n - len got)) as [[[w1 r] d]| |]; [|discriminate..]. cbn [rbind] in E.
  destruct (0 <? r); [by apply IH in E|]. destruct (dl <? _); [discriminate|].
  destruct (tr_service w1) as [w2| |]; [|discriminate..]. cbn [rbind] in E. by apply IH in E.
Qed.
Lemma header_split k w c dl w' out : recv_exact k w c dl 5 [] = Ok (w', out, true) ->
  exists type maj min l, out = type :: maj :: min :: l.
Proof.
  intros E%recv_exact_full. unfold len in E. destruct out as [|a [|b [|x l]]]; cbn in E; try lia. by exists a, b, x, l.
Qed.

Lemma cbc_decrypt_le rk n : forall prev data, (length prev <= 16)%nat ->
  (length (aes128_cbc_decrypt rk prev n data) <= 16 * n)%nat.
Proof.
  induction n as [|n IH]; intros prev data Hp; cbn [aes128_cbc_decrypt length]; [lia|].
  specialize (IH (take 16 data) (drop 16 data) ltac:(rewrite length_take; lia)).
  rewrite length_app. unfold xor_bytes. rewrite length_zip_with. lia.
Qed.

Lemma decrypt_payload_len t pay rlen : len pay = TLS_BUF -> 64 <= rlen <= TLS_BUF ->
  len (decrypt_payload t pay rlen) = TLS_BUF.
Proof.
  intros Hp Hr. unfold decrypt_payload, TLS_BUF in *. set (blocks := (rlen - 16 + 15) / 16).
  assert (0 <= blocks /\ 16 * blocks <= rlen - 16 + 15) as [Hb0 Hb1]
    by (unfold blocks; split; [apply Z.div_pos; lia|apply Z.mul_div_le; lia]).
  assert (16 + 16 * blocks <= 20000) as Hb.
  { destruct (Z.le_gt_cases blocks 1249); [lia|]. exfalso. lia. }
  set (dec := aes128_cbc_decrypt _ _ _ _).
  assert (len dec <= 16 * blocks) as Hd.
  { unfold dec, len. pose proof (cbc_decrypt_le (r_rk t) (Z.to_nat blocks) (take 16 pay) (slice pay 16 (16 * blocks)) ltac:(rewrite length_take; lia)). lia. }
  pose proof (len_nonneg dec).
  assert (len (blit pay 16 dec) = 20000) as L1 by (unfold len; rewrite length_blit by lia; unfold len in Hp; lia).
  unfold len. rewrite length_blit; [unfold len in L1; lia|lia|].
  unfold len. rewrite length_slice by lia. unfold len in L1. lia.
Qed.

(** The text RFC 5246 authenticates, written with arithmetic alone: the sequence
    number in eight bytes, the type, the version, the length in two, the data. *)
Fixpoint big_endian (n : nat) (x : Z) : list Z :=
  match n with
  | O => []
  | S n => x / 256 ^ Z.of_nat n mod 256 :: big_endian n x
  end.
Definition authenticated (seq type maj min : Z) (data : list Z) : list Z :=
  big_endian 8 seq ++ [type; maj; min] ++ big_endian 2 (len data) ++ data.

Lemma mac_input_authenticated s type maj min data : mac_input s type maj min data = authenticated s type maj min data.
Proof.
  unfold mac_input, authenticated. f_equal.
  - unfold seq_bytes. change (seqZ 0 8) with [0; 1; 2; 3; 4; 5; 6; 7]. cbn [map big_endian]. unfold u8.
    rewrite !Z.shiftr_div_pow2 by lia. reflexivity.
  - do 2 f_equal. unfold be16_bytes, u8. rewrite Z.shiftr_div_pow2 by lia. cbn [big_endian].
    by rewrite Z.div_1_r.
Qed.

(** [C13] Nothing unauthenticated is accepted once the receive cipher is active. A
    record is read with success only when its header came from the connection, and the
    type returned is the header's. It is then a ChangeCipherSpec, or the data returned is
    followed in the buffer by the HMAC, under the receive key, of the text of RFC 5246
    ([authenticated]): the receiver's current sequence number, the type and the version
    of that header, the length of the data, and the data. The sequence number then
    advances. When the header's five bytes had already arrived, they are the first five
    of what was to be read. *)
Theorem record_authentic w t pay dl w' t' pay' type n :
  enc_recv t = true -> len pay = TLS_BUF ->
  tls_read_record fuel w t pay dl = Ok (w', t', pay', Some (type, n)) ->
  t' = set_seqs (cseq t) (u64 (sseq t + 1)) t /\
  exists w1 maj min l, recv_exact fuel w (conn t) dl 5 [] = Ok (w1, type :: maj :: min :: l, true) /\
    (opened w (conn t) -> 5 <= len (inbox w (conn t)) -> take 5 (inbox w (conn t)) = type :: maj :: min :: l) /\
    (type = TLS_RT_CHANGE_CIPHER_SPEC \/
     0 <= n /\ n + 32 < TLS_BUF /\ len (slice pay' 0 n) = n /\
     hmac_sha256 (r_mac t) (authenticated (sseq t) type maj min (slice pay' 0 n)) = slice pay' n 32).
Proof.
  intros He Hp E. unfold tls_read_record in E.
  destruct (recv_exact fuel w (conn t) dl 5 []) as [[[w1 hdr] ok]| |] eqn:R; [|discriminate..]. cbn [rbind] in E.
  destruct ok; [|discriminate]. destruct (_ || _) eqn:Z0; [discriminate|].
  destruct (header_split _ _ _ _ _ _ R) as (ty & maj & min & l & ->).
  destruct (Z.ltb_spec TLS_BUF (rd16 (ty :: maj :: min :: l) 3)) as [|Hr]; [discriminate|].
  destruct (recv_exact fuel w1 (conn t) dl _ []) as [[[w2 got] ok2]| |] eqn:G; [|discriminate..]. cbn [rbind] in E.
  destruct (negb ok2); [discriminate|]. rewrite He in E. cbn [andb] in E.
  apply recv_exact_len in G; [|change (len []) with 0; unfold rd16; apply u16_range].
  assert (len (blit pay 0 got) = TLS_BUF) as Lb by (unfold len; rewrite length_blit by lia; exact Hp).
  assert (opened w (conn t) -> 5 <= len (inbox w (conn t)) -> take 5 (inbox w (conn t)) = ty :: maj :: min :: l) as Hin.
  { intros Ho Hl. destruct fuel as [|f]; [discriminate|].
    destruct (recv_exact_ready (S f) w (conn t) dl 5 Ho) as (w3 & E3 & _); [lia..|]. rewrite E3 in R. by injection R. }
  change ((ty :: maj :: min :: l).[0]) with ty in *.
  destruct (Z.eqb_spec ty TLS_RT_CHANGE_CIPHER_SPEC) as [E20|]; cbn [negb] in E.
  { injection E as <- <- <- <- <-. split; [done|]. exists w1, maj, min, l. splits; try done. by left. }
  destruct (Z.ltb_spec (rd16 (ty :: maj :: min :: l) 3) 64); [discriminate|].
  pose proof (decrypt_payload_len t _ (rd16 (ty :: maj :: min :: l) 3) Lb ltac:(lia)) as Ld.
  set (p := decrypt_payload t _ _) in *. clearbody p. unfold find_pad in E.
  destruct (find _ _) as [pad|] eqn:F; [|discriminate]. injection E as <- <- <- <- <-. split; [done|].
  exists w1, maj, min, l. split; [done|]. split; [done|]. right.
  apply find_some in F as [Fi Fm]. apply list_elem_of_In, elem_of_seqZ in Fi.
  unfold mac_agrees in Fm. apply andb_true_iff in Fm as [F1 F2]. apply Z.leb_le in F1. apply Z.eqb_eq in F2.
  unfold TLS_BUF in *. rewrite (u16_small (rd16 (ty :: maj :: min :: l) 3 - 16 - pad - 32)) in * by lia.
  rewrite mac_input_authenticated in F2.
  split; [lia|]. split; [lia|]. split; [unfold len; rewrite length_slice by lia; lia|].
  apply memcmp_eq in F2; [done|]. rewrite length_hmac_sha256, length_slice by lia. done.
Qed.

(** A session whose receiver has nothing in hand. *)
Definition receiving (s : tls) (h : Z) (t : tls_conn) : Prop :=
  0 <= h < 8 /\ length (g_tls s) = 8%nat /\ length (app_rbuf s) = Z.to_nat TLS_BUF /\
  tls_at s h = t /\ active t = true /\ app_rx t = [] /\ peer_closed t = false.

Lemma receiving_valid s h t : receiving s h t -> valid_handle s h = true.
Proof.
  intros (Hh & _ & _ & Et & Ha & _). unfold valid_handle. rewrite Et, Ha.
  by rewrite (proj2 (Z.leb_le 0 h)), (proj2 (Z.ltb_lt h 8)) by lia.
Qed.

(** A session whose receiver has [p] of a message in hand. *)
Definition holding (s : tls) (h : Z) (t : tls_conn) (p : list Z) : Prop :=
  0 <= h < 8 /\ length (g_tls s) = 8%nat /\ length (app_rbuf s) = Z.to_nat TLS_BUF /\
  tls_at s h = set_rx p t /\ active t = true /\ app_rx t = [] /\ peer_closed t = false.
Lemma set_rx_same t : app_rx t = [] -> set_rx [] t = t.
Proof. destruct t. cbn. by intros ->. Qed.
Lemma receiving_holding s h t : receiving s h t <-> holding s h t [].
Proof.
  unfold receiving, holding. split; intros (H1 & H2 & H3 & H4 & H5 & H6 & H7); rewrite ?set_rx_same in * by done; splits; done || lia.
Qed.
Lemma holding_valid s h t p : holding s h t p -> valid_handle s h = true.
Proof.
  intros (Hh & _ & _ & Et & Ha & _). unfold valid_handle. rewrite Et. cbn [active set_rx]. rewrite Ha.
  by rewrite (proj2 (Z.leb_le 0 h)), (proj2 (Z.ltb_lt h 8)) by lia.
Qed.

Lemma take_rx_spec t p cap : 1 <= cap ->
  take_rx (set_rx p t) cap = (set_rx (drop (Z.to_nat cap) p) t, take (Z.to_nat cap) p).
Proof.
  intros Hc. unfold take_rx. change (app_rx (set_rx p t)) with p. change (set_rx ?q (set_rx p t)) with (set_rx q t).
  destruct (Z.ltb_spec cap (len p)); [done|].
  unfold len in *. rewrite !(take_ge p), !(drop_ge p) by lia. done.
Qed.
(** What is in hand is handed out first. *)
Lemma tls_recv_pending w s h cap t p : holding s h t p -> p <> [] -> 1 <= cap ->
  exists s', tls_recv fuel w s h cap = Ok (w, s', len (take (Z.to_nat cap) p), take (Z.to_nat cap) p) /\
    holding s' h t (drop (Z.to_nat cap) p) /\ app_rbuf s' = app_rbuf s.
Proof.
  intros Hr Hp Hc. pose proof Hr as (Hh & Hl & Hpay & Ht & Hact & Hrx & Hcl). unfold tls_recv.
  rewrite (holding_valid s h t p Hr), Ht. cbn [negb]. change (app_rx (set_rx p t)) with p.
  rewrite (proj2 (Z.ltb_lt 0 _)) by (destruct p; [done|unfold len; cbn [length]; lia]). rewrite take_rx_spec by done.
  eexists. split; [done|]. split; [|done]. unfold holding. rewrite tls_at_put, length_put by done. splits; done || lia.
Qed.
Context (Hfuel : (0 < fuel)%nat).
(** With nothing in hand, the record of application data in the inbox is next. *)
Lemma tls_recv_next w s h cap t t' pay' m w' : holding s h t [] ->
  0 <= tr_ticks w < 2 ^ 63 -> 1 <= cap -> 1 <= len m <= TLS_APPBUF ->
  tls_read_record fuel w t (app_rbuf s) (u64 (tr_ticks w + MS_TO_TICKS 1000))
    = Ok (w', t', m ++ pay', Some (TLS_RT_APPLICATION_DATA, len m)) ->
  length (m ++ pay') = length (app_rbuf s) ->
  t' = set_seqs (cseq t) (u64 (sseq t + 1)) t ->
  exists s', tls_recv fuel w s h cap = Ok (w', s', len (take (Z.to_nat cap) m), take (Z.to_nat cap) m) /\
    holding s' h t' (drop (Z.to_nat cap) m).
Proof.
  intros Hr Hticks Hcap Hm E Lp ->. pose proof Hr as (Hh & Hl & Hpay & Ht & Hact & Hrx & Hcl). rewrite set_rx_same in Ht by done.
  set (t' := set_seqs (cseq t) (u64 (sseq t + 1)) t) in *.
  unfold tls_recv. rewrite (holding_valid s h t [] Hr), Ht, Hrx. cbn [negb]. change (0 <? len []) with false. cbv iota.
  destruct fuel as [|f] eqn:Ef; [lia|].
  assert (recv_loop (S f) (S f) w t (app_rbuf s) (u64 (tr_ticks w + MS_TO_TICKS 1000))
    = Ok (w', set_rx m t', m ++ pay')) as ->.
  { cbn [recv_loop]. rewrite Hrx, Hcl. change (len []) with 0. change (MS_TO_TICKS 1000) with 250 in *.
    rewrite u64_small in * by lia. rewrite (proj2 (Z.ltb_lt (tr_ticks w) _)) by lia. cbn [Z.eqb negb andb].
    unfold tls_read_appdata. rewrite E. cbn [rbind].
    change (TLS_RT_APPLICATION_DATA =? TLS_RT_ALERT) with false. change (TLS_RT_APPLICATION_DATA =? TLS_RT_APPLICATION_DATA) with true.
    cbv iota. change (app_rx t') with (app_rx t). rewrite Hrx, app_nil_l. change (len []) with 0. rewrite Z.add_0_l.
    rewrite (proj2 (Z.ltb_ge TLS_APPBUF _)) by lia. cbn [rbind].
    assert (take (Z.to_nat (len m)) (m ++ pay') = m) as -> by (unfold len; by rewrite Nat2Z.id, take_app_length).
    destruct f; cbn [recv_loop]; change (app_rx (set_rx m t')) with m; rewrite (proj2 (Z.eqb_neq (len m) 0)) by lia;
      by rewrite andb_false_r. }
  cbn [rbind]. rewrite take_rx_spec by done.
  eexists. split; [done|]. unfold holding. rewrite tls_at_put, length_put by done. cbn [app_rbuf put_tls g_tls].
  splits; (done || lia || (rewrite Lp; done)).
Qed.
(** A record of application data in the inbox is what a call with room returns. *)
Lemma tls_recv_record w s h cap t t' pay' m w' : receiving s h t ->
  0 <= tr_ticks w < 2 ^ 63 -> 1 <= len m <= cap -> len m <= TLS_APPBUF ->
  tls_read_record fuel w t (app_rbuf s) (u64 (tr_ticks w + MS_TO_TICKS 1000))
    = Ok (w', t', m ++ pay', Some (TLS_RT_APPLICATION_DATA, len m)) ->
  length (m ++ pay') = length (app_rbuf s) ->
  t' = set_seqs (cseq t) (u64 (sseq t + 1)) t ->
  exists s', tls_recv fuel w s h cap = Ok (w', s', len m, m) /\ receiving s' h t'.
Proof.
  intros Hr%receiving_holding Ht Hm Ha E Lp Et. destruct (tls_recv_next w s h cap t t' pay' m w' Hr Ht) as (s' & E1 & H1); try done; try lia.
  rewrite take_ge, drop_ge in * by (unfold len in *; lia). exists s'. split; [done|]. by apply receiving_holding.
Qed.

(** A call of [tls_recv] for every capacity. *)
Fixpoint recv_each (caps : list Z) (w : W) (s : tls) (h : Z) : res (W * tls * list (list Z)) :=
  match caps with
  | [] => Ok (w, s, [])
  | cap :: caps =>
    let* (w, s, _, d) := tls_recv fuel w s h cap in
    let* (w, s, ds) := recv_each caps w s h in Ok (w, s, d :: ds)
  end.
(** The specification: every call gets as much as it has room for of what is left of
    a message, or of the next one; [None] when there is none. The results, what is
    left in hand, and the messages not begun. *)
Fixpoint handed (caps : list Z) (p : list Z) (ms : list (Z * list Z)) : option (list (list Z) * list Z * list (Z * list Z)) :=
  match caps with
  | [] => Some ([], p, ms)
  | cap :: caps =>
    let give p ms := match handed caps (drop (Z.to_nat cap) p) ms with
                     | Some (out, q, ms) => Some (take (Z.to_nat cap) p :: out, q, ms)
                     | None => None
                     end in
    match p, ms with
    | _ :: _, _ => give p ms
    | [], m :: ms => give (snd m) ms
    | [], [] => None
    end
  end.

Lemma recv_each_spec caps : forall w s h t t' p ms,
  holding s h t' p -> opened w (conn t') -> peers t t' -> keyed t -> cseq t = sseq t' -> enc_recv t' = true ->
  0 <= tr_ticks w < 2 ^ 63 -> Forall (fun c => 1 <= c) caps -> readable t ms ->
  forall rest out q left, inbox w (conn t') = sealed t ms ++ rest -> handed caps p ms = Some (out, q, left) ->
  exists w' s' used, recv_each caps w s h = Ok (w', s', out) /\ app_rx (tls_at s' h) = q /\ ms = used ++ left /\
    inbox w' (conn t') = sealed (Nat.iter (length used) next_record t) left ++ rest /\
    concat out ++ q ++ concat (map snd left) = p ++ concat (map snd ms).
Proof.
  induction caps as [|cap caps IH]; intros w s h t t' p ms Hr Ho Hp Hk Hq He Ht Hc Hm rest out q left Hi Hd; cbn [handed recv_each] in *.
  { injection Hd as <- <- <-. exists w, s, []. splits; try done. destruct Hr as (_ & _ & _ & -> & _). done. }
  apply Forall_cons_1 in Hc as [Hcap Hc]. destruct p as [|x p].
  - destruct ms as [|[tsc m] ms]; [done|]. cbn [snd] in Hd. destruct (handed caps (drop _ m) ms) as [[[out1 q1] left1]|] eqn:Eh; [|done]. injection Hd as <- <- <-.
    cbn [sealed readable] in Hi, Hm. destruct Hm as (Hb & Hl & Hu & Hm). rewrite <- app_assoc in Hi.
    pose proof Hr as (_ & _ & Hpay & _).
    destruct (read_sealed fuel tsc w t t' (app_rbuf s) (u64 (tr_ticks w + MS_TO_TICKS 1000)) _ m _ Ho Hfuel Hp Hk Hq He Hb
      ltac:(unfold TLS_APPBUF in *; lia) Hu ltac:(done) Hpay Hi) as (w1 & pay' & E & Lp & Ho1 & Hi1 & _ & Ht1 & _).
    destruct (tls_recv_next w s h cap t' _ pay' m w1 Hr Ht Hcap Hl E Lp eq_refl) as (s1 & E1 & Hr1).
    rewrite E1. cbn [rbind].
    destruct (IH w1 s1 h (next_record t) (set_seqs (cseq t') (u64 (sseq t' + 1)) t') (drop (Z.to_nat cap) m) ms Hr1 Ho1 Hp Hk
      ltac:(cbn; by rewrite Hq) He ltac:(by rewrite Ht1) Hc Hm rest out1 q1 left1 Hi1 Eh) as (w2 & s2 & used & -> & Hq2 & -> & Hi2 & Hcat).
    cbn [rbind]. exists w2, s2, ((tsc, m) :: used). splits; try done.
    + cbn [length]. rewrite Nat.iter_succ_r. exact Hi2.
    + cbn [concat map snd app]. by rewrite <- app_assoc, Hcat, app_assoc, take_drop.
  - destruct (handed caps _ ms) as [[[out1 q1] left1]|] eqn:Eh; [|done]. injection Hd as <- <- <-.
    destruct (tls_recv_pending w s h cap t' (x :: p) Hr ltac:(done) Hcap) as (s1 & E1 & Hr1 & _). rewrite E1. cbn [rbind].
    destruct (IH w s1 h t t' _ ms Hr1 Ho Hp Hk Hq He Ht Hc Hm rest out1 q1 left1 Hi Eh) as (w2 & s2 & used & -> & Hq2 & -> & Hi2 & Hcat).
    cbn [rbind]. exists w2, s2, used. splits; try done.
    cbn [concat]. by rewrite <- app_assoc, Hcat, app_assoc, take_drop.
Qed.

(** [C11] Application data arrives whole and in order, whatever room the caller has.
    The peer's records of any messages, of one to 4096 bytes, stand in the inbox, sealed
    one after the other under the same keys and from the receiver's sequence number on;
    and no shorter padding of a record agrees with a MAC by chance, since the reader
    tries them first. Then calls of [tls_recv] with any capacities of a byte or more, as
    long as there is something to receive, return what [handed] says: as much as fits of
    the rest of the message begun, or of the next one. Nothing is lost, repeated or
    reordered: the results, what is left in hand and the messages not begun are, one
    after the other, all the messages; and those not begun still stand in the inbox. *)
Theorem tls_recv_in_order caps ms w s h t t' rest out q left :
  receiving s h t' -> opened w (conn t') -> peers t t' -> keyed t -> cseq t = sseq t' -> enc_recv t' = true ->
  0 <= tr_ticks w < 2 ^ 63 -> Forall (fun c => 1 <= c) caps -> readable t ms ->
  inbox w (conn t') = sealed t ms ++ rest -> handed caps [] ms = Some (out, q, left) ->
  exists w' s' used, recv_each caps w s h = Ok (w', s', out) /\ app_rx (tls_at s' h) = q /\ ms = used ++ left /\
    inbox w' (conn t') = sealed (Nat.iter (length used) next_record t) left ++ rest /\
    concat out ++ q ++ concat (map snd left) = concat (map snd ms).
Proof.
  intros Hr%receiving_holding Ho Hp Hk Hq He Ht Hc Hm Hi Hd.
  exact (recv_each_spec caps w s h t t' [] ms Hr Ho Hp Hk Hq He Ht Hc Hm rest out q left Hi Hd).
Qed.

End AppData.

(** * Reassembly of handshake messages *)
Definition message : Type := Z * list Z.
Definition msg_bytes (m : message) : list Z := hs_message (fst m) (snd m).

Lemma rd24_join x a l : 0 <= x < 16777216 ->
  rd24 (a :: u8 (Z.shiftr x 16) :: u8 (Z.shiftr x 8) :: u8 x :: l) 1 = x.
Proof.
  intros Hx. unfold rd24, nthZ. cbn. pose proof (be32_join x ltac:(lia)) as E.
  assert (Z.shiftr x 24 = 0) as E0 by (rewrite Z.shiftr_div_pow2 by lia; apply Z.div_small; change (2 ^ 24) with 16777216; lia).
  rewrite E0 in E. exact E.
Qed.

Lemma len_hs_message ty b : len (hs_message ty b) = 4 + len b.
Proof. unfold hs_message. rewrite len_app. reflexivity. Qed.

(** The start of a stream that begins with a message: not yet all of it, or the
    message and what follows. *)
Lemma split_message buf more ty b rest : buf ++ more = hs_message ty b ++ rest -> len b < 16777216 ->
  (more <> [] /\ (len buf < 4 \/ (rd24 buf 1 = len b /\ 4 <= len buf < 4 + len b))) \/
  exists r, buf = hs_message ty b ++ r /\ r ++ more = rest.
Proof.
  intros E Hb. pose proof (len_nonneg b). pose proof (f_equal len E) as L. rewrite !len_app, len_hs_message in L.
  pose proof (len_nonneg rest). destruct (Z.lt_ge_cases (len buf) (4 + len b)) as [Hs|Hs].
  - left. split; [intros ->; change (len []) with 0 in L; lia|].
    destruct (Z.lt_ge_cases (len buf) 4); [by left|right]. split; [|lia].
    destruct buf as [|x0 [|x1 [|x2 [|x3 buf]]]]; try (unfold len in *; cbn in *; lia).
    unfold hs_message in E. cbn in E. injection E as -> -> -> -> _. by apply rd24_join.
  - right. exists (drop (length (hs_message ty b)) buf).
    assert (length (hs_message ty b) <= length buf)%nat as Hl by (pose proof (len_hs_message ty b); unfold len in *; lia).
    split.
    + rewrite <- (take_drop (length (hs_message ty b)) buf) at 1. f_equal.
      rewrite <- (take_app_le buf more) by done. rewrite E. by rewrite take_app_length.
    + rewrite <- drop_app_le by done. rewrite E. by rewrite drop_app_length.
Qed.

(** The connection in the course of a handshake read: the sequence number and
    the running hash move. *)
Definition moved (t : tls_conn) (sq : Z) (h : sha256_ctx) : tls_conn := set_seqs (cseq t) sq (set_hs h (hs_has t) t).
Definition hash_if (feed : bool) (t : tls_conn) (ms : list message) (h : sha256_ctx) : sha256_ctx :=
  if feed && hs_has t then fold_left sha256_update (msg_bytes <$> ms) h else h.

Lemma hash_if_app feed t a b h : hash_if feed t (a ++ b) h = hash_if feed t b (hash_if feed t a h).
Proof. unfold hash_if. destruct (_ && _); [|done]. by rewrite fmap_app, fold_left_app. Qed.

Definition small (m : message) : Prop := len (snd m) < 16777216.

(** One complete message at the front. *)
Lemma drain_message k want cap feed t sq h ty b r : len b < 16777216 ->
  hs_drain (S k) want cap feed (moved t sq h) (hs_message ty b ++ r) =
  let t' := moved t sq (hash_if feed t [(ty, b)] h) in
  if ty =? want then
    if TLS_BUF <? len b then Ok (t', hs_message ty b ++ r, Bad)
    else if cap <? len b then Oob else Ok (t', r, Found b)
  else hs_drain k want cap feed t' r.
Proof.
  intros Hb. pose proof (len_nonneg b). pose proof (len_nonneg r). cbn [hs_drain].
  rewrite len_app, len_hs_message.
  rewrite (proj2 (Z.ltb_ge _ 4)) by lia.
  assert (rd24 (hs_message ty b ++ r) 1 = len b) as -> by (apply rd24_join; lia).
  rewrite (proj2 (Z.ltb_ge _ (4 + len b))) by lia.
  assert (Z.to_nat (4 + len b) = length (hs_message ty b)) as ->
    by (pose proof (len_hs_message ty b); unfold len in *; lia).
  rewrite take_app_length, drop_app_length.
  assert (slice (hs_message ty b ++ r) 4 (len b) = b) as ->.
  { unfold hs_message. rewrite <- app_assoc, slice_app_r by (unfold len; cbn; lia).
    change (4 - len _) with 0. rewrite slice_app_l by lia. by apply slice_all. }
  change ((hs_message ty b ++ r).[0]) with ty.
  assert ((if feed && hs_has (moved t sq h)
     then set_hs (sha256_update (hs (moved t sq h)) (hs_message ty b)) (hs_has (moved t sq h)) (moved t sq h)
     else moved t sq h) = moved t sq (hash_if feed t [(ty, b)] h)) as ->.
  { unfold hash_if. change (hs_has (moved t sq h)) with (hs_has t). by destruct (feed && hs_has t). }
  done.
Qed.

Lemma hs_drain_spec want cap feed t sq b : forall ms tail buf more k h,
  Forall (fun m => fst m <> want /\ small m) ms -> len b <= TLS_BUF ->
  buf ++ more = concat (msg_bytes <$> ms) ++ hs_message want b ++ tail -> (length buf <= k)%nat ->
  (exists r, r ++ more = tail /\
     hs_drain k want cap feed (moved t sq h) buf =
     if cap <? len b then Oob else Ok (moved t sq (hash_if feed t (ms ++ [(want, b)]) h), r, Found b)) \/
  (exists ms1 ms2 buf', ms = ms1 ++ ms2 /\ more <> [] /\
     buf' ++ more = concat (msg_bytes <$> ms2) ++ hs_message want b ++ tail /\
     hs_drain k want cap feed (moved t sq h) buf = Ok (moved t sq (hash_if feed t ms1 h), buf', More)).
Proof.
  unfold TLS_BUF. induction ms as [|[ty mb] ms IH]; intros tail buf more k h Hms Hb E Hk.
  - cbn [fmap list_fmap concat] in E. rewrite app_nil_l in E.
    destruct (split_message buf more want b tail E ltac:(lia)) as [(Hm & Hs)|(r & -> & Er)].
    + right. exists [], [], buf. split; [done|]. split; [done|]. split; [done|].
      destruct k; cbn [hs_drain]; destruct Hs as [Hs|[Hr Hs]];
        rewrite ?(proj2 (Z.ltb_lt (len buf) 4)) by lia; rewrite ?Hr, ?(proj2 (Z.ltb_ge (len buf) 4)), ?(proj2 (Z.ltb_lt (len buf) (4 + len b))) by lia;
        unfold hash_if; by destruct (_ && _).
    + left. exists r. split; [done|]. destruct k as [|k]; [cbn in Hk; lia|]. rewrite drain_message by lia.
      cbv zeta. rewrite Z.eqb_refl, (proj2 (Z.ltb_ge TLS_BUF _)) by (unfold TLS_BUF; lia). done.
  - apply Forall_cons_1 in Hms as [[Hty Hsm] Hms]. unfold small in Hsm. cbn [fst snd] in *.
    rewrite fmap_cons in E. cbn [concat] in E. rewrite <- app_assoc in E. change (msg_bytes (ty, mb)) with (hs_message ty mb) in E.
    destruct (split_message buf more ty mb _ E Hsm) as [(Hm & Hs)|(r & -> & Er)].
    + right. exists [], ((ty, mb) :: ms), buf. split; [done|]. split; [done|].
      split; [rewrite fmap_cons; cbn [concat]; rewrite <- app_assoc; exact E|].
      destruct k; cbn [hs_drain]; destruct Hs as [Hs|[Hr Hs]];
        rewrite ?(proj2 (Z.ltb_lt (len buf) 4)) by lia; rewrite ?Hr, ?(proj2 (Z.ltb_ge (len buf) 4)), ?(proj2 (Z.ltb_lt (len buf) (4 + len mb))) by lia;
        unfold hash_if; by destruct (_ && _).
    + destruct k as [|k]; [cbn in Hk; lia|]. rewrite length_app in Hk.
      assert (4 <= length (hs_message ty mb))%nat by (unfold hs_message; cbn; lia).
      rewrite drain_message by lia. cbv zeta. rewrite (proj2 (Z.eqb_neq ty want)) by done.
      destruct (IH tail r more k (hash_if feed t [(ty, mb)] h) Hms Hb Er ltac:(lia))
        as [(r' & Er' & Ed)|(ms1 & ms2 & buf' & -> & Hne & Er' & Ed)].
      * left. exists r'. split; [done|]. rewrite Ed. change ((ty, mb) :: ms ++ [(want, b)]) with ([(ty, mb)] ++ (ms ++ [(want, b)])).
        change (((ty, mb) :: ms) ++ [(want, b)]) with ([(ty, mb)] ++ (ms ++ [(want, b)])). by rewrite (hash_if_app _ _ [(ty, mb)]).
      * right. exists ((ty, mb) :: ms1), ms2, buf'. split; [done|]. split; [done|]. split; [done|].
        rewrite Ed. change ((ty, mb) :: ms1) with ([(ty, mb)] ++ ms1). by rewrite (hash_if_app _ _ [(ty, mb)]).
Qed.

Section Reassembly.
Context {W : Type} `{Stream W} (fuel : nat) (Hfuel : (0 < fuel)%nat).

(** A handshake record in the inbox joins the buffer. *)
Lemma hs_record_plain (s : hstate) dl f rest : opened (h_w s) (conn (h_t s)) -> enc_recv (h_t s) = false ->
  len (g_hsbuf s) + len f <= TLS_BUF -> inbox (h_w s) (conn (h_t s)) = record_bytes TLS_RT_HANDSHAKE f ++ rest ->
  exists w' pay', hs_record fuel s dl =
      Ok (Hstate w' (set_seqs (cseq (h_t s)) (u64 (sseq (h_t s) + 1)) (h_t s)) (g_hsbuf s ++ f) pay' (certmsg s), true) /\
    opened w' (conn (h_t s)) /\ inbox w' (conn (h_t s)) = rest /\ outbox w' (conn (h_t s)) = outbox (h_w s) (conn (h_t s)) /\
    tr_ticks w' = tr_ticks (h_w s) /\ tr_tsc w' = tr_tsc (h_w s).
Proof.
  intros Ho He Hl Hi. unfold TLS_BUF in *. pose proof (len_nonneg (g_hsbuf s)).
  destruct (read_plain fuel (h_w s) (h_t s) (rbuf s) dl TLS_RT_HANDSHAKE f rest Ho Hfuel ltac:(unfold TLS_BUF; lia) (or_introl He) Hi)
    as (w' & E & R).
  unfold hs_record. rewrite E. cbn [rbind]. exists w', (blit (rbuf s) 0 f).
  change (TLS_RT_HANDSHAKE =? TLS_RT_ALERT) with false. change (TLS_RT_HANDSHAKE =? TLS_RT_CHANGE_CIPHER_SPEC) with false.
  change (TLS_RT_HANDSHAKE =? TLS_RT_APPLICATION_DATA) with false. change (negb (TLS_RT_HANDSHAKE =? TLS_RT_HANDSHAKE)) with false.
  cbv iota. rewrite (proj2 (Z.ltb_ge TLS_BUF _)) by (unfold TLS_BUF; lia). split; [|exact R].
  do 4 f_equal. unfold blit. change (Z.to_nat 0) with 0%nat. rewrite take_0, app_nil_l. unfold len.
  by rewrite Nat2Z.id, take_app_length.
Qed.

Lemma read_handshake_spec want cap dl feed b tail rest : forall frags ms k (s : hstate) sq h t,
  h_t s = moved t sq h -> opened (h_w s) (conn t) -> enc_recv t = false ->
  Forall (fun m => fst m <> want /\ small m) ms -> len b <= TLS_BUF -> len (g_hsbuf s ++ concat frags) <= TLS_BUF ->
  g_hsbuf s ++ concat frags = concat (msg_bytes <$> ms) ++ hs_message want b ++ tail -> (length frags <= k)%nat ->
  inbox (h_w s) (conn t) = concat (record_bytes TLS_RT_HANDSHAKE <$> frags) ++ rest ->
  if cap <? len b then read_handshake fuel k want cap dl feed s = Oob
  else exists s' sq' used unread, read_handshake fuel k want cap dl feed s = Ok (s', Some b) /\
    frags = used ++ unread /\ g_hsbuf s' ++ concat unread = tail /\
    h_t s' = moved t sq' (hash_if feed t (ms ++ [(want, b)]) h) /\ certmsg s' = certmsg s /\
    opened (h_w s') (conn t) /\ inbox (h_w s') (conn t) = concat (record_bytes TLS_RT_HANDSHAKE <$> unread) ++ rest /\
    outbox (h_w s') (conn t) = outbox (h_w s) (conn t) /\ tr_ticks (h_w s') = tr_ticks (h_w s) /\ tr_tsc (h_w s') = tr_tsc (h_w s).
Proof.
  induction frags as [|f frags IH]; intros ms k s sq h t Ht Ho He Hms Hb Hl E Hk Hi;
    destruct (hs_drain_spec want cap feed t sq b ms tail (g_hsbuf s) _ (length (g_hsbuf s)) h Hms Hb E (le_n _))
      as [(r & Er & Ed)|(ms1 & ms2 & buf' & -> & Hne & Er & Ed)].
  1, 3: assert (read_handshake fuel k want cap dl feed s =
      if cap <? len b then Oob
      else Ok (Hstate (h_w s) (moved t sq (hash_if feed t (ms ++ [(want, b)]) h)) r (rbuf s) (certmsg s), Some b)) as ->
      by (destruct k; cbn [read_handshake]; rewrite Ht, Ed; by destruct (cap <? len b));
    destruct (cap <? len b); [done|]; eexists _, sq, [], _; split; [done|]; split; [done|]; splits; done.
  - done.
  - destruct k as [|k]; [cbn in Hk; lia|].
    rewrite fmap_cons in Hi. cbn [concat] in Hi, E, Hl. rewrite <- app_assoc in Hi.
    assert (len (buf' ++ f) + len (concat frags) <= TLS_BUF) as Hl2.
    { pose proof (f_equal len E) as L1. pose proof (f_equal len Er) as L2. rewrite fmap_app, concat_app in L1.
      cbn [concat] in L2. rewrite !len_app in *. pose proof (len_nonneg (concat (msg_bytes <$> ms1))). lia. }
    rewrite len_app in Hl2. pose proof (len_nonneg (concat frags)).
    destruct (hs_record_plain (Hstate (h_w s) (moved t sq (hash_if feed t ms1 h)) buf' (rbuf s) (certmsg s)) dl f _
      Ho He ltac:(cbn [g_hsbuf]; lia) Hi) as (w' & pay' & E1 & Ho1 & Hi1 & Hout & Htk & Hts).
    cbn [h_w h_t g_hsbuf certmsg rbuf] in *. change (conn (moved t sq (hash_if feed t ms1 h))) with (conn t) in *.
    assert (read_handshake fuel (S k) want cap dl feed s = read_handshake fuel k want cap dl feed
      (Hstate w' (moved t (u64 (sq + 1)) (hash_if feed t ms1 h)) (buf' ++ f) pay' (certmsg s))) as ->
      by (cbn [read_handshake]; rewrite Ht, Ed; cbn [rbind]; rewrite E1; done).
    specialize (IH ms2 k (Hstate w' (moved t (u64 (sq + 1)) (hash_if feed t ms1 h)) (buf' ++ f) pay' (certmsg s))
      (u64 (sq + 1)) (hash_if feed t ms1 h) t eq_refl Ho1 He). cbn [h_w h_t g_hsbuf certmsg rbuf] in IH.
    apply Forall_app in Hms as [_ Hms2].
    specialize (IH Hms2 Hb ltac:(rewrite !len_app in *; lia) ltac:(rewrite <- app_assoc; exact Er) ltac:(cbn in Hk; lia) Hi1).
    destruct (cap <? len b); [exact IH|].
    destruct IH as (s' & sq' & used & unread & -> & -> & Ht' & Hh & Hc & Ho' & Hi' & Hout' & Htk' & Hts').
    exists s', sq', (f :: used), unread. rewrite <- app_assoc, hash_if_app. splits; (done || congruence).
Qed.

(** [C12] Before the receive cipher is on, the handshake reader does not depend on how
    the peer cuts its messages into records. Let the bytes buffered followed by the
    contents of the plaintext handshake records in the inbox be at most 20000, the size
    of the buffer, and be any number of messages of other types, the wanted message, and
    more. Then the wanted body is returned; every message up to it, itself included, went
    into the running hash in order; what follows it is kept, some in the buffer, the rest
    unread. When such a body is longer than the caller's array, it is written beyond the
    array's end instead. Records read under the cipher and more than 20000 bytes at a
    time, where the reader fails with -1, are outside this statement. *)
Theorem handshake_reassembly want cap dl feed ms b tail frags rest (s : hstate) :
  opened (h_w s) (conn (h_t s)) -> enc_recv (h_t s) = false ->
  Forall (fun m => fst m <> want /\ small m) ms -> len b <= TLS_BUF -> len (g_hsbuf s ++ concat frags) <= TLS_BUF ->
  g_hsbuf s ++ concat frags = concat (msg_bytes <$> ms) ++ hs_message want b ++ tail -> (length frags <= fuel)%nat ->
  inbox (h_w s) (conn (h_t s)) = concat (record_bytes TLS_RT_HANDSHAKE <$> frags) ++ rest ->
  (cap < len b -> tls_read_handshake fuel want cap dl feed s = Oob) /\
  (len b <= cap -> exists s' used unread, tls_read_handshake fuel want cap dl feed s = Ok (s', Some b) /\
    frags = used ++ unread /\ g_hsbuf s' ++ concat unread = tail /\
    inbox (h_w s') (conn (h_t s)) = concat (record_bytes TLS_RT_HANDSHAKE <$> unread) ++ rest /\
    hs (h_t s') = hash_if feed (h_t s) (ms ++ [(want, b)]) (hs (h_t s))).
Proof.
  intros Ho He Hms Hb Hl E Hk Hi.
  assert (h_t s = moved (h_t s) (sseq (h_t s)) (hs (h_t s))) as Ht by by destruct (h_t s).
  pose proof (read_handshake_spec want cap dl feed b tail rest frags ms fuel s (sseq (h_t s)) (hs (h_t s)) (h_t s)
    Ht Ho He Hms Hb Hl E Hk Hi) as R. split; intros Hc.
  - by rewrite (proj2 (Z.ltb_lt cap _)) in R.
  - rewrite (proj2 (Z.ltb_ge cap _)) in R by lia.
    destruct R as (s' & sq' & used & unread & R1 & R2 & R3 & R4 & _ & _ & R7 & _). exists s', used, unread.
    rewrite R4. splits; done.
Qed.
End Reassembly.

(** * Keys *)
Lemma u8_lxor a b : u8 (Z.lxor a b) = Z.lxor (u8 a) (u8 b).
Proof.
  unfold u8. change 256 with (2 ^ 8). apply Z.bits_inj'. intros i Hi.
  rewrite Z.lxor_spec. destruct (Z.lt_ge_cases i 8).
  - by rewrite !Z.mod_pow2_bits_low, Z.lxor_spec by lia.
  - by rewrite !Z.mod_pow2_bits_high by lia.
Qed.

Lemma nthZ_map (f : Z -> Z) n i : 0 <= i < n -> (map f (seqZ 0 n)).[i] = f i.
Proof.
  intros Hi. unfold nthZ. rewrite nth_lookup, list_lookup_fmap, lookup_seqZ_lt by lia. cbn. f_equal. lia.
Qed.

(** ** What a listener knows *)
(** The premaster, from the random of the ClientHello and one byte of the address
    of [g_tls], which is the same in every session of a kernel. *)
Definition guessed_premaster (crand : list Z) (at_byte : Z) : list Z :=
  [3; 3] ++ map (fun i =>
    let j := i mod 8 in
    u8 (Z.lxor (Z.lxor (Z.lxor (Z.lxor (crand.[j]) at_byte) (j * 97)) (i * 211)) 90)) (seqZ 2 46).

Definition listener_keys (crand srand : list Z) (at_byte : Z) : res (list Z * list Z) :=
  derive (guessed_premaster crand at_byte) crand srand.

Lemma guess_right tsc at_ : guessed_premaster (client_random tsc at_) (u8 at_) = client_premaster tsc.
Proof.
  unfold guessed_premaster, client_premaster. f_equal. apply map_ext. intros i. cbv zeta.
  pose proof (Z.mod_pos_bound i 8 ltac:(lia)) as Hj. set (j := i mod 8) in *.
  unfold client_random. rewrite nthZ_map by lia. unfold tsc_byte. fold j.
  assert (j mod 8 = j) as -> by (apply Z.mod_small; lia). clearbody j.
  rewrite !u8_lxor. rewrite !(u8_byte (u8 _)) by apply byte_u8. change (u8 90) with 90.
  apply Z.bits_inj'. intros n _. rewrite !Z.lxor_spec.
  set (x := Z.testbit (u8 (Z.shiftr tsc (j * 8))) n). set (y := Z.testbit (u8 (j * 97)) n).
  set (a := Z.testbit (u8 at_) n). set (z := Z.testbit (u8 (i * 211)) n). set (b := Z.testbit 90 n).
  clearbody x y a z b. by destruct x, y, a, z, b.
Qed.

(** The session keys are no secret. The ClientHello's random and the
    premaster are the same time stamp under different masks, so that whoever
    sees the two randoms of the handshake computes the master secret and the key
    block, given one byte of an address that is fixed when the kernel is built. *)
Theorem keys_from_hello tsc g_tls_at srand :
  derive (client_premaster tsc) (client_random tsc g_tls_at) srand
  = listener_keys (client_random tsc g_tls_at) srand (u8 g_tls_at).
Proof. unfold listener_keys. by rewrite guess_right. Qed.

(** ** Byte strings as numbers *)
Lemma be_value_bound l : bytes l -> 0 <= be_value l < 256 ^ len l.
Proof.
  induction l as [|x l IH] using rev_ind; [intros _; change (256 ^ len []) with 1; change (be_value []) with 0; lia|]. intros (Hl & Hx)%Forall_app.
  apply Forall_cons_1 in Hx as [Hx _]. unfold byte in Hx. specialize (IH Hl).
  rewrite be_value_app, len_app. change (len [x]) with 1. pose proof (len_nonneg l). rewrite Z.pow_add_r by lia.
  change (256 ^ 1) with 256. lia.
Qed.

Lemma be_bytes_be_value l : bytes l -> be_bytes (len l) (be_value l) = l.
Proof.
  induction l as [|x l IH] using rev_ind; [done|]. intros (Hl & Hx)%Forall_app.
  apply Forall_cons_1 in Hx as [Hx _]. unfold byte in Hx.
  rewrite len_app, be_value_app. change (len [x]) with 1. pose proof (len_nonneg l). rewrite be_bytes_S by lia.
  assert ((256 * be_value l + x) / 256 = be_value l) as -> by (symmetry; apply (Z.div_unique _ _ _ x); lia).
  assert ((256 * be_value l + x) mod 256 = x) as -> by (symmetry; apply (Z.mod_unique _ _ (be_value l)); lia).
  by rewrite IH.
Qed.

Lemma be_value_zero l : be_value (0 :: l) = be_value l.
Proof. done. Qed.

(** ** The RSA key *)
(** The server's key with the exponent of its certificate: CRT parameters that
    fit, and exponents that undo each other modulo both primes. *)
Record key_ok (key : server_key) (e : list Z) : Prop := {
  ko_bytes : bytes (g_key_n key) /\ bytes (g_key_p key) /\ bytes (g_key_q key) /\ bytes (g_key_dp key) /\
    bytes (g_key_dq key) /\ bytes (g_key_qinv key) /\ bytes e;
  ko_len : 128 <= len (g_key_n key) <= 256 /\ len (g_key_n key) mod 4 = 0 /\ len (g_key_p key) <= 128 /\
    len (g_key_q key) <= 128 /\ len (g_key_dp key) = len (g_key_p key) /\
    len (g_key_qinv key) = len (g_key_p key) /\ len (g_key_dq key) = len (g_key_q key) /\ len e <= 8;
  ko_full : 256 ^ (len (g_key_n key) - 1) <= be_value (g_key_n key);
  ko_order : 1 < be_value (g_key_q key) < be_value (g_key_p key);
  ko_odd : Z.odd (be_value (g_key_p key)) = true /\ Z.odd (be_value (g_key_q key)) = true;
  ko_n : be_value (g_key_n key) = be_value (g_key_p key) * be_value (g_key_q key);
  ko_qinv : (be_value (g_key_qinv key) * be_value (g_key_q key)) mod be_value (g_key_p key) = 1;
  ko_exp : forall x, 0 <= x ->
    (x ^ (be_value e * be_value (g_key_dp key))) mod be_value (g_key_p key) = x mod be_value (g_key_p key) /\
    (x ^ (be_value e * be_value (g_key_dq key))) mod be_value (g_key_q key) = x mod be_value (g_key_q key) }.

(** A number is known from its residues modulo coprime factors. *)
Lemma crt_unique p q qinv x y : 1 < p -> 1 < q -> (qinv * q) mod p = 1 -> 0 <= x < p * q -> 0 <= y < p * q ->
  x mod p = y mod p -> x mod q = y mod q -> x = y.
Proof.
  intros Hp Hq Hi Hx Hy Ep Eq.
  assert (p | x - y) as [a Ha].
  { apply Z.mod_divide; [lia|]. rewrite Zminus_mod, Ep, Z.sub_diag. by apply Zmod_0_l. }
  assert (q | x - y) as [b Hb].
  { apply Z.mod_divide; [lia|]. rewrite Zminus_mod, Eq, Z.sub_diag. by apply Zmod_0_l. }
  pose proof (Z.div_mod (qinv * q) p ltac:(lia)) as Hk. rewrite Hi in Hk. set (k := qinv * q / p) in *.
  assert (x - y = (qinv * a - b * k) * (p * q)) as E.
  { transitivity (b * (qinv * q - p * k) * q); [rewrite Hk, Hb; ring|].
    transitivity (qinv * (b * q) * q - b * k * p * q); [ring|]. rewrite <- Hb, Ha. ring. }
  set (c := qinv * a - b * k) in *. clearbody c. assert (c = 0) by nia. lia.
Qed.

Lemma mod_mod_factor x p q : 0 < p -> 0 < q -> (x mod (p * q)) mod p = x mod p.
Proof.
  intros. rewrite (Z.div_mod x (p * q)) at 2 by lia.
  replace (p * q * (x / (p * q)) + x mod (p * q)) with (x mod (p * q) + (q * (x / (p * q))) * p) by lia.
  by rewrite Z_mod_plus_full.
Qed.

(** The private operation undoes the public one. *)
Lemma rsa_round_trip key e m : key_ok key e -> bytes m -> len m = len (g_key_n key) -> be_value m < be_value (g_key_n key) ->
  exists c, bn_rsa_public m e (g_key_n key) = Some c /\ len c = len (g_key_n key) /\ bytes c /\
    bn_rsa_private_crt c (g_key_p key) (g_key_q key) (g_key_dp key) (g_key_dq key) (g_key_qinv key) (g_key_n key) = Some m.
Proof.
  intros [(Bn & Bp & Bq & Bdp & Bdq & Bqi & Be) (L1 & L2 & L3 & L4 & L5 & L6 & L7 & L8) Hfull Hord [Op Oq] En Hi Hexp] Bm Lm Hm.
  set (n := g_key_n key) in *. set (N := be_value n) in *. set (p := be_value (g_key_p key)) in *. set (q := be_value (g_key_q key)) in *.
  pose proof (be_value_bound m Bm) as Rm. pose proof (be_value_bound n Bn) as Rn. fold N in Rn.
  assert (1 < N) as HN by (rewrite En; nia).
  set (C := be_value m ^ be_value e mod N).
  assert (0 <= C < N) as HC by (apply Z.mod_pos_bound; lia).
  exists (be_bytes (len n) C). split.
  { apply bn_rsa_public_eval; try done; try lia. fold N. rewrite En. by rewrite Z.odd_mul, Op, Oq. }
  rewrite be_bytes_len by lia. split; [done|]. split; [apply be_bytes_ok|].
  destruct (bn_rsa_private_crt_eval (be_bytes (len n) C) (g_key_p key) (g_key_q key) (g_key_dp key) (g_key_dq key)
    (g_key_qinv key) n) as (x & -> & Hx & Xp & Xq); try done; try (rewrite ?be_bytes_len by lia; lia); [apply be_bytes_ok|].
  rewrite be_bytes_len by lia. rewrite be_value_be_bytes in Xp, Xq by lia. fold p in Xp. fold q in Xq. fold N in Hx.
  f_equal. rewrite <- Lm. transitivity (be_bytes (len m) (be_value m)); [|by apply be_bytes_be_value]. f_equal.
  pose proof (be_value_bound e Be). pose proof (be_value_bound (g_key_dp key) Bdp). pose proof (be_value_bound (g_key_dq key) Bdq).
  destruct (Hexp (be_value m) ltac:(lia)) as [Hxp Hxq].
  apply (crt_unique p q (be_value (g_key_qinv key))); try lia.
  - rewrite Xp, <- Z.mod_pow_l. unfold C. rewrite En, mod_mod_factor by lia. rewrite Z.mod_pow_l, <- Z.pow_mul_r by lia.
    exact Hxp.
  - rewrite Xq, <- Z.mod_pow_l. unfold C. rewrite En, (Z.mul_comm p q), mod_mod_factor by lia.
    rewrite Z.mod_pow_l, <- Z.pow_mul_r by lia. exact Hxq.
Qed.

(** ** The premaster crosses *)
Lemma nonzero_byte_range k : forall x y r, nonzero_byte k x = Ok (y, r) -> 0 < r < 256.
Proof.
  induction k as [|k IH]; intros x y r E; cbn [nonzero_byte] in E; [discriminate|].
  destruct (Z.eqb_spec (u8 (xorshift x)) 0); [by apply IH in E|]. injection E as <- <-.
  pose proof (byte_u8 (xorshift x)) as B. unfold byte in B. lia.
Qed.

Lemma pkcs_padding_spec fuel n : forall x l, pkcs_padding fuel n x = Ok l ->
  length l = n /\ Forall (fun b => 0 < b < 256) l.
Proof.
  induction n as [|n IH]; intros x l E; cbn [pkcs_padding] in E; [injection E as <-; by split|].
  destruct (nonzero_byte fuel x) as [[y r]| |] eqn:Er; [|discriminate..]. cbn [rbind] in E.
  destruct (pkcs_padding fuel n y) as [l'| |] eqn:El; [|discriminate..]. injection E as <-.
  apply IH in El as [Hl Hf]. split; [cbn; by rewrite Hl|]. apply Forall_cons_2; [by eapply nonzero_byte_range|done].
Qed.

Lemma premaster_spec tsc : len (client_premaster tsc) = 48 /\ bytes (client_premaster tsc) /\
  (client_premaster tsc).[0] = 3 /\ (client_premaster tsc).[1] = 3.
Proof.
  unfold client_premaster. splits; try reflexivity.
  apply bytes_app; [check_bytes|]. apply List.Forall_forall. intros x Hx. apply in_map_iff in Hx as (i & <- & _). apply byte_u8.
Qed.

Lemma find_zero_padding l rest i : Forall (fun b => 0 < b < 256) l -> find_zero (l ++ 0 :: rest) i = i + len l.
Proof.
  revert i. induction l as [|x l IH]; intros i Hl; [unfold len; cbn; lia|].
  apply Forall_cons_1 in Hl as [Hx Hl]. cbn [find_zero app]. rewrite (proj2 (Z.eqb_neq x 0)) by lia.
  rewrite IH, len_cons by done. lia.
Qed.

(** The block the client builds, in the server's array. *)
Lemma unwrap_wrapped pad pm stack : Forall (fun b => 0 < b < 256) pad -> 8 <= len pad -> len pm = 48 ->
  pm.[0] = 3 -> pm.[1] = 3 -> len (encryption_block pad pm) <= len stack ->
  unwrap_premaster (len (encryption_block pad pm)) (blit stack 0 (encryption_block pad pm)) = Ok (Some pm).
Proof.
  intros Hp Hl Hm H0 H1 Hs. unfold encryption_block in *. rewrite !len_app in *.
  change (len [0; 2]) with 2 in *. change (len [0]) with 1 in *. unfold unwrap_premaster.
  set (eb := blit stack 0 _).
  assert (exists r, eb = [0; 2] ++ pad ++ [0] ++ pm ++ r) as [r Er].
  { exists (drop (length ([0; 2] ++ pad ++ [0] ++ pm)) stack). unfold eb, blit. change (Z.to_nat 0) with 0%nat.
    rewrite take_0, app_nil_l. by rewrite <- !app_assoc. }
  rewrite Er. change (([0; 2] ++ pad ++ [0] ++ pm ++ r).[0]) with 0. change (([0; 2] ++ pad ++ [0] ++ pm ++ r).[1]) with 2.
  cbn [Z.eqb negb orb]. change (negb (2 =? 2)) with false. cbv iota.
  assert (slice ([0; 2] ++ pad ++ [0] ++ pm ++ r) 2 (2 + (len pad + (1 + len pm)) - 2) = pad ++ 0 :: pm) as ->.
  { rewrite slice_app_r by (unfold len; cbn; lia). change (2 - len [0; 2]) with 0.
    replace (pad ++ [0] ++ pm ++ r) with ((pad ++ 0 :: pm) ++ r) by (by rewrite <- app_assoc).
    rewrite slice_app_l by (rewrite ?len_app, ?len_cons; lia). apply slice_all. rewrite len_app, len_cons. lia. }
  rewrite find_zero_padding by done.
  rewrite (proj2 (Z.ltb_ge _ 10)), (proj2 (Z.ltb_ge _ (2 + len pad + 48))) by lia. cbn [orb].
  assert (rd_bytes ([0; 2] ++ pad ++ [0] ++ pm ++ r) (2 + len pad + 1) 48 = Ok pm) as ->.
  { pose proof (len_nonneg r). rewrite rd_bytes_ok; [|lia|lia|rewrite !len_app; change (len [0; 2]) with 2; change (len [0]) with 1; lia].
    f_equal. rewrite slice_app_r by (change (len [0; 2]) with 2; lia). rewrite slice_app_r by (change (len [0; 2]) with 2; lia).
    rewrite slice_app_r by (change (len [0; 2]) with 2; change (len [0]) with 1; lia).
    change (len [0; 2]) with 2. change (len [0]) with 1. replace (2 + len pad + 1 - 2 - len pad - 1) with 0 by lia.
    rewrite slice_app_l by lia. by apply slice_all. }
  cbn [rbind]. rewrite H0, H1. done.
Qed.

Lemma client_key_exchange_message enc : len enc < 65000 ->
  client_key_exchange enc = hs_message TLS_HS_CLIENT_KEY_EXCHANGE (be16_bytes (len enc) ++ enc).
Proof.
  intros Hl. pose proof (len_nonneg enc). unfold client_key_exchange, hs_message. rewrite len_app. change (len (be16_bytes (len enc))) with 2.
  assert (u8 (Z.shiftr (2 + len enc) 16) = 0) as ->.
  { rewrite Z.shiftr_div_pow2 by lia. rewrite Z.div_small by (change (2 ^ 16) with 65536; lia). reflexivity. }
  reflexivity.
Qed.

Section KeyExchange.
Context {W : Type} `{Transport W}.

Lemma bind_ok_step {A B} (m : M A) (f : A -> M B) (s s' : @hstate W) a : m s = Ok (s', Some a) -> bind m f s = f a s'.
Proof. unfold bind. by intros ->. Qed.

(** [C23] The key exchange hands the premaster over: for a key whose exponents
    undo each other, the client's encryption of its PKCS#1 block succeeds, and
    from the ClientKeyExchange built of it the server's decryption by CRT, its
    checks of the block and its search for the end of the padding give back the
    client's premaster, whatever the server's array held. *)
Theorem premaster_agreement fuel key e tsc pad stack (s : @hstate W) :
  key_ok key e -> len stack = 256 ->
  pkcs_padding fuel (Z.to_nat (len (g_key_n key) - 51)) tsc = Ok pad ->
  exists enc body,
    bn_rsa_public (encryption_block pad (client_premaster tsc)) e (g_key_n key) = Some enc /\
    client_key_exchange enc = hs_message TLS_HS_CLIENT_KEY_EXCHANGE body /\
    decrypt_premaster key stack body s = Ok (s, Some (client_premaster tsc)).
Proof.
  intros Hk Hst Hp. apply pkcs_padding_spec in Hp as [Lp Fp]. destruct (premaster_spec tsc) as (Lm & Bm & M0 & M1).
  pose proof (ko_len key e Hk) as (L1 & _). pose proof (ko_full key e Hk) as Hfull.
  set (pm := client_premaster tsc) in *. set (n := g_key_n key) in *. set (eb := encryption_block pad pm).
  assert (len pad = len n - 51) as Lpad by (unfold len in *; lia).
  assert (len eb = len n) as Leb.
  { unfold eb, encryption_block. rewrite !len_app. change (len [0; 2]) with 2. change (len [0]) with 1. lia. }
  assert (bytes ([2] ++ pad ++ [0] ++ pm)) as Btail.
  { apply bytes_app; [check_bytes|]. apply bytes_app; [|apply bytes_app; [check_bytes|done]].
    eapply Forall_impl; [|exact Fp]. intros x Hx. cbn beta in Hx. unfold byte. lia. }
  assert (bytes eb) as Beb by (apply Forall_cons_2; [unfold byte; lia|exact Btail]).
  assert (be_value eb < be_value n) as Hlt.
  { change (be_value eb) with (be_value ([2] ++ pad ++ [0] ++ pm)). pose proof (be_value_bound _ Btail) as B.
    assert (len ([2] ++ pad ++ [0] ++ pm) = len n - 1) as Lt by (rewrite <- Leb; change eb with (0 :: [2] ++ pad ++ [0] ++ pm); rewrite len_cons; lia).
    rewrite Lt in B. lia. }
  destruct (rsa_round_trip key e eb Hk Beb Leb Hlt) as (enc & E & Lenc & Benc & D).
  exists enc, (be16_bytes (len enc) ++ enc). split; [exact E|]. fold n in Lenc.
  split; [apply client_key_exchange_message; lia|].
  unfold decrypt_premaster. fold n. set (cke := be16_bytes (len enc) ++ enc).
  assert (len cke = 2 + len n) as Lc by (unfold cke; rewrite len_app; change (len (be16_bytes (len enc))) with 2; lia).
  assert (rd16 cke 0 = len n) as Er by (unfold cke; rewrite <- Lenc; apply (rd16_at [] (len enc) enc); lia).
  assert (slice cke 2 (len n) = enc) as Es.
  { unfold cke. rewrite slice_app_r by (change (len (be16_bytes (len enc))) with 2; lia).
    change (2 - len (be16_bytes (len enc))) with 0. apply slice_all. done. }
  rewrite Er, Es. rewrite (proj2 (Z.ltb_ge (len cke) (2 + 128))), (proj2 (Z.ltb_ge (len cke) (2 + len n))), Z.eqb_refl by lia.
  cbn [orb negb]. unfold fail_if at 1 2. erewrite bind_ok_step by reflexivity. erewrite bind_ok_step by reflexivity.
  fold n in D. rewrite D. erewrite bind_ok_step by reflexivity.
  rewrite <- Leb. unfold eb at 1 2. rewrite unwrap_wrapped; [|done|lia|done|done|done|fold eb; lia].
  reflexivity.
Qed.

Lemma derive_ok pm cr sr : len cr = 32 -> len sr = 32 ->
  exists ms kb, derive pm cr sr = Ok (ms, kb) /\ len ms = 48 /\ len kb = 128 /\ bytes kb.
Proof.
  intros Hc Hs. unfold derive.
  destruct (tls_prf_ok pm (label "master secret") (cr ++ sr) 48) as (ms & -> & Lm & _); [rewrite !len_app, Hc, Hs; vm_compute; discriminate|lia|].
  cbn [rbind].
  destruct (tls_prf_ok ms (label "key expansion") (sr ++ cr) 128) as (kb & -> & Lk & Bk); [rewrite !len_app, Hc, Hs; vm_compute; discriminate|lia|].
  by exists ms, kb.
Qed.

Lemma install_keys_spec pm cr sr (s : @hstate W) : len cr = 32 -> len sr = 32 ->
  exists ms kb t', derive pm cr sr = Ok (ms, kb) /\
    install_keys pm cr sr s = Ok (Hstate (h_w s) t' (g_hsbuf s) (rbuf s) (certmsg s), Some tt) /\
    t' = set_keys (slice kb 0 32) (slice kb 32 32) (aes128_keyexpand (slice kb 64 16)) (aes128_keyexpand (slice kb 80 16)) ms (h_t s) /\
    keyed t'.
Proof.
  intros Hc Hs. destruct (derive_ok pm cr sr Hc Hs) as (ms & kb & E & _ & Lk & Bk). exists ms, kb.
  eexists. split; [exact E|]. unfold install_keys. rewrite E. split; [reflexivity|]. split; [reflexivity|].
  assert (forall o, 0 <= o -> o + 16 <= 128 -> block16 (slice kb o 16)) as Hb.
  { intros o Ho Ho2. split; [by rewrite length_slice by lia|by apply bytes_slice]. }
  unfold keyed, w_rk. cbn. destruct (server (h_t s)); eexists; (split; [|reflexivity]); apply Hb; lia.
Qed.

(** Both sides derive the same keys: after [install_keys] with the same
    premaster and randoms, a client and a server are each other's peers, each
    writing with what the other reads with, under expanded AES keys; the master
    secrets agree. With [premaster_agreement] this is what the reading of records
    relies on. *)
Theorem keys_agree pm cr sr (a b : @hstate W) :
  len cr = 32 -> len sr = 32 -> server (h_t a) = false -> server (h_t b) = true ->
  exists a' b', install_keys pm cr sr a = Ok (a', Some tt) /\ install_keys pm cr sr b = Ok (b', Some tt) /\
    peers (h_t a') (h_t b') /\ peers (h_t b') (h_t a') /\ keyed (h_t a') /\ keyed (h_t b') /\
    master (h_t a') = master (h_t b').
Proof.
  intros Hc Hs Ha Hb. destruct (install_keys_spec pm cr sr a Hc Hs) as (ms & kb & ta & E & Ea & Ta & Ka).
  destruct (install_keys_spec pm cr sr b Hc Hs) as (ms2 & kb2 & tb & E2 & Eb & Tb & Kb).
  rewrite E in E2. injection E2 as <- <-. do 2 eexists. split; [exact Ea|]. split; [exact Eb|]. cbn [h_t].
  unfold peers. subst ta tb. cbn. rewrite Ha, Hb. splits; (done || exact Ka || exact Kb).
Qed.
End KeyExchange.

(** * What the client accepts *)
Lemma keyed_moved t sq h : keyed t -> keyed (moved t sq h).
Proof. done. Qed.

(** The certificate message, in the static array. *)
Lemma be24_join n : 0 <= n < 16777216 -> Z.lor (Z.lor (Z.shiftl (u8 (Z.shiftr n 16)) 16) (Z.shiftl (u8 (Z.shiftr n 8)) 8)) (u8 n) = n.
Proof. intros Hn. exact (rd24_join n 0 [] Hn). Qed.

Lemma parse_certificate_body der buf : len der + 6 <= len buf -> len der < 16000000 ->
  let msg := blit buf 0 (certificate_body der) in
  (1 <= len der -> parse_certificate msg (len (certificate_body der)) = Some (len der)) /\ at_ msg 6 der.
Proof.
  intros Hl Hs msg. pose proof (len_nonneg der).
  assert (exists r, msg = be24_bytes (3 + len der) ++ be24_bytes (len der) ++ der ++ r) as [r Er].
  { exists (drop (length (certificate_body der)) buf). unfold msg, blit. change (Z.to_nat 0) with 0%nat.
    rewrite take_0, app_nil_l. unfold certificate_body. by rewrite <- !app_assoc. }
  assert (len (certificate_body der) = 6 + len der) as Lc by (unfold certificate_body; rewrite !len_app; change (len (be24_bytes _)) with 3; change (len (be24_bytes (len der))) with 3; lia).
  split.
  - intros H1. unfold parse_certificate. rewrite Lc, Er. rewrite (proj2 (Z.ltb_ge _ 7)) by lia.
    assert (rd24 (be24_bytes (3 + len der) ++ be24_bytes (len der) ++ der ++ r) 0 = 3 + len der) as -> by (apply be24_join; lia).
    assert (rd24 (be24_bytes (3 + len der) ++ be24_bytes (len der) ++ der ++ r) 3 = len der) as -> by (apply be24_join; lia).
    rewrite (proj2 (Z.ltb_ge (3 + len der) 3)), (proj2 (Z.ltb_ge _ (3 + (3 + len der)))) by lia. cbn [orb].
    by rewrite (proj2 (Z.ltb_ge _ (6 + len der))) by lia.
  - exists (be24_bytes (3 + len der) ++ be24_bytes (len der)), r. rewrite Er. split; [by rewrite <- !app_assoc|reflexivity].
Qed.
Section Client.
Context {W : Type} `{Stream W} (fuel : nat) (Hfuel : (0 < fuel)%nat).

(** In the course of a client's handshake: what is buffered, followed by the
    handshake records still in the inbox, makes up [S]; [rest] is behind them; at
    most [sent] bytes went out. *)
Definition client_at (c now : Z) (S rest : list Z) (sent : Z) (s : hstate) : Prop :=
  opened (h_w s) c /\ len (outbox (h_w s) c) <= sent /\ tr_ticks (h_w s) = now /\
  conn (h_t s) = c /\ enc_recv (h_t s) = false /\ active (h_t s) = true /\ app_rx (h_t s) = [] /\ peer_closed (h_t s) = false /\
  length (certmsg s) = Z.to_nat TLS_BUF /\ len S <= TLS_BUF /\
  exists frags, (length frags <= fuel)%nat /\ Forall (fun f => f <> []) frags /\ g_hsbuf s ++ concat frags = S /\
    inbox (h_w s) c = concat (record_bytes TLS_RT_HANDSHAKE <$> frags) ++ rest.

Lemma client_update c now S rest sent s f : client_at c now S rest sent s ->
  conn (f (h_t s)) = conn (h_t s) -> enc_recv (f (h_t s)) = enc_recv (h_t s) -> active (f (h_t s)) = active (h_t s) ->
  app_rx (f (h_t s)) = app_rx (h_t s) -> peer_closed (f (h_t s)) = peer_closed (h_t s) ->
  exists s', update_t f s = Ok (s', Some tt) /\ client_at c now S rest sent s' /\ h_t s' = f (h_t s).
Proof.
  intros (H1 & H2 & H3 & H4 & H5 & H6 & H7 & H8 & H9 & H10 & H11) E1 E2 E3 E4 E5. eexists. split; [reflexivity|].
  split; [|done]. unfold client_at. cbn. splits; (done || congruence).
Qed.

Lemma client_sends c now S rest sent s type d : client_at c now S rest sent s -> sent + 5 + len d <= SEND_ROOM ->
  exists s', send_record type d s = Ok (s', Some tt) /\ client_at c now S rest (sent + 5 + len d) s' /\ h_t s' = h_t s.
Proof.
  intros (H1 & H2 & H3 & H4 & H5 & H6 & H7 & H8 & H9 & H10 & H11) Hr. subst c.
  destruct (send_record_fits (h_w s) (h_t s) type d H1 ltac:(lia)) as (w' & E & Ho & Hi & Hout & Ht & _).
  unfold send_record. rewrite E. cbn [rbind fst]. eexists. split; [reflexivity|]. split; [|done].
  unfold client_at. cbn. rewrite Ht, Hi, Hout, !len_app. change (len (record_header type (len d))) with 5.
  splits; (done || lia).
Qed.

Lemma client_sends_encrypted c now S rest sent s type d : client_at c now S rest sent s -> keyed (h_t s) -> bytes d ->
  len d <= 1000 -> sent + 70 + len d <= SEND_ROOM ->
  exists s', send_encrypted type d s = Ok (s', Some tt) /\ client_at c now S rest (sent + 70 + len d) s' /\ h_t s' = next_record (h_t s).
Proof.
  intros (H1 & H2 & H3 & H4 & H5 & H6 & H7 & H8 & H9 & H10 & H11) Hk Hb Hd Hr. subst c.
  pose proof (seal_record_len (tr_tsc (h_w s)) (h_t s) type d Hb Hk) as Ls.
  destruct (seal_inner_spec (h_t s) type d Hb) as (Li & _). pose proof (pad_range d). pose proof (len_nonneg d).
  destruct (send_all_fits (length (seal_record (tr_tsc (h_w s)) (h_t s) type d)) (h_w s) (conn (h_t s)) _ H1
    ltac:(rewrite Ls; lia) (Z.le_refl _)) as (w' & E & Ho & Hi & Hout & Ht & _).
  unfold send_encrypted, tls_send_encrypted. rewrite (proj2 (Z.ltb_ge TLS_BUF _)) by (unfold TLS_BUF; lia).
  rewrite E. cbn [rbind Z.eqb]. eexists. split; [reflexivity|]. split; [|done].
  unfold client_at. cbn. rewrite Ht, Hi, Hout, len_app, Ls. splits; (done || lia).
Qed.

Lemma client_reads c now S rest sent s want cap dl feed b :
  client_at c now (hs_message want b ++ S) rest sent s ->
  (cap < len b -> tls_read_handshake fuel want cap dl feed s = Oob) /\
  (len b <= cap -> exists s', tls_read_handshake fuel want cap dl feed s = Ok (s', Some b) /\
    client_at c now S rest sent s' /\ exists sq h, h_t s' = moved (h_t s) sq h).
Proof.
  intros (H1 & H2 & H3 & H4 & H5 & H6 & H7 & H8 & H9 & H10 & frags & F1 & F2 & F3 & F4). subst c.
  rewrite len_app, len_hs_message in H10. pose proof (len_nonneg S). pose proof (len_nonneg b). unfold TLS_BUF in H10.
  assert (h_t s = moved (h_t s) (sseq (h_t s)) (hs (h_t s))) as Ht by by destruct (h_t s).
  pose proof (read_handshake_spec fuel Hfuel want cap dl feed b S rest frags [] fuel s (sseq (h_t s)) (hs (h_t s)) (h_t s)
    Ht H1 H5 ltac:(apply Forall_nil_2) ltac:(unfold TLS_BUF; lia)
    ltac:(rewrite F3, len_app, len_hs_message; unfold TLS_BUF; lia) F3 F1 F4) as R.
  split; intros Hc; [by rewrite (proj2 (Z.ltb_lt cap _)) in R|]. rewrite (proj2 (Z.ltb_ge cap _)) in R by lia.
  destruct R as (s' & sq' & used & unread & R1 & -> & R3 & R4 & R5 & R6 & R7 & R8 & R9 & R10).
  exists s'. split; [exact R1|]. rewrite R4. split; [|by do 2 eexists]. unfold client_at. rewrite R4, R5, R8, R9.
  splits; try done; [unfold TLS_BUF; lia|]. exists unread. rewrite length_app in F1. apply Forall_app in F2 as [_ F2].
  splits; (done || lia).
Qed.


Lemma client_stores c now S rest sent s body : client_at c now S rest sent s -> len body <= TLS_BUF ->
  exists s', store_cert body s = Ok (s', Some (blit (certmsg s) 0 body)) /\ client_at c now S rest sent s' /\ h_t s' = h_t s.
Proof.
  intros (H1 & H2 & H3 & H4 & H5 & H6 & H7 & H8 & H9 & H10 & H11) Hb. eexists. split; [reflexivity|]. split; [|done].
  unfold client_at. cbn [h_w h_t g_hsbuf certmsg]. splits; try done.
  rewrite length_blit; [done|lia|]. unfold TLS_BUF, len in *. lia.
Qed.

Lemma client_ccs c now S rest sent s : client_at c now S rest sent s -> sent + 6 <= SEND_ROOM ->
  exists s', change_cipher_spec s = Ok (s', Some tt) /\ client_at c now S rest (sent + 6) s' /\
    h_t s' = set_enc true (enc_recv (h_t s)) (set_seqs 0 (sseq (h_t s)) (h_t s)).
Proof.
  intros C Hr. unfold change_cipher_spec.
  destruct (client_sends c now S rest sent s TLS_RT_CHANGE_CIPHER_SPEC [1] C ltac:(change (len [1]) with 1; lia)) as (s1 & E1 & C1 & T1).
  erewrite bind_ok_step by exact E1. cbv beta.
  destruct (client_update c now S rest _ s1 (fun t => set_enc true (enc_recv t) (set_seqs 0 (sseq t) t)) C1 eq_refl eq_refl eq_refl eq_refl eq_refl)
    as (s2 & E2 & C2 & T2).
  exists s2. split; [exact E2|]. split; [|by rewrite T2, T1].
  change (len [1]) with 1 in C2. replace (sent + 6) with (sent + 5 + 1) by lia. exact C2.
Qed.

Lemma len_sha256_final h : len (sha256_final h) = 32.
Proof. unfold len, sha256_final. by rewrite length_concat_words, length_seqZ. Qed.

(** The server's first flight with a Finished behind it. *)
Definition flight (sh der done fin : list Z) : list Z :=
  hs_message TLS_HS_SERVER_HELLO sh ++ hs_message TLS_HS_CERTIFICATE (certificate_body der) ++
  hs_message TLS_HS_SERVER_HELLO_DONE done ++ hs_message TLS_HS_FINISHED fin.

(** A key the client can encrypt with. *)
Definition usable_key (n e : list Z) : Prop :=
  bytes n /\ bytes e /\ uint_bytes 256 n /\ uint_bytes 8 e /\ 59 <= len n /\ len n mod 4 = 0 /\
  1 < be_value n /\ Z.odd (be_value n) = true.

Lemma server_rsa_key_found msg fields oid params unused n e rest sig certlen (s : @hstate W) :
  let der := certificate fields (spki oid params unused n e) rest sig in
  parse_certificate msg certlen = Some (len der) -> at_ msg 6 der -> len der < 4294967296 ->
  (length fields < fuel)%nat -> Forall plain_field fields -> uint_bytes 256 n -> uint_bytes 8 e ->
  server_rsa_key fuel msg certlen s = Ok (s, Some (n, e)).
Proof.
  intros der Hp Ha Hl Hf Hpl Hn He. unfold server_rsa_key. rewrite Hp. erewrite bind_ok_step by reflexivity.
  destruct (x509_finds_key fuel msg 6 fields oid params unused n e rest sig Ha Hl Hf Hpl Hn He) as (b & bl & E1 & E2).
  fold der in E1. rewrite E1. erewrite bind_ok_step by reflexivity. erewrite bind_ok_step by reflexivity.
  cbn [fst snd]. rewrite E2. erewrite bind_ok_step by reflexivity. reflexivity.
Qed.

Lemma encryption_succeeds pad tsc n e : usable_key n e -> pkcs_padding fuel (Z.to_nat (len n - 51)) tsc = Ok pad ->
  exists enc, bn_rsa_public (encryption_block pad (client_premaster tsc)) e n = Some enc /\ len enc = len n.
Proof.
  intros (Bn & Be & [Ln _] & [Le _] & L59 & L4 & H1 & Ho) Hp. apply pkcs_padding_spec in Hp as [Lp Fp].
  destruct (premaster_spec tsc) as (Lm & Bm & _). eexists. split; [apply bn_rsa_public_eval|rewrite be_bytes_len; lia]; try done; try lia.
  - unfold encryption_block. apply bytes_app; [check_bytes|]. apply bytes_app; [|apply bytes_app; [check_bytes|done]].
    eapply Forall_impl; [|exact Fp]. intros x Hx. cbn beta in Hx. unfold byte. lia.
  - unfold encryption_block. rewrite !len_app, Lm. change (len [0; 2]) with 2. change (len [0]) with 1. unfold len in *. lia.
Qed.

Ltac step E := erewrite bind_ok_step by exact E; cbv beta.

Lemma client_accepts g_tls_at dl c now rest s fields oid params unused n e crest sig sh srand done fin pad :
  let der := certificate fields (spki oid params unused n e) crest sig in
  client_at c now (flight sh der done fin) rest 0 s ->
  parse_server_hello sh = Some srand -> len sh <= 512 ->
  (length fields < fuel)%nat -> Forall plain_field fields -> usable_key n e ->
  pkcs_padding fuel (Z.to_nat (len n - 51)) (tr_tsc (h_w s)) = Ok pad ->
  len done <= 8 -> 4 <= len fin <= 64 ->
  exists s', client_handshake fuel g_tls_at dl s = Ok (s', Some tt) /\ client_at c now [] rest 1000 s'.
Proof.
  intros der Hc Hsh Lsh Hf Hpl Hkey Hpad Ld Lf. unfold client_handshake.
  erewrite bind_ok_step by reflexivity. set (tsc := tr_tsc (h_w s)) in *.
  set (crand := client_random tsc g_tls_at). cbv zeta.
  set (hello := hs_message TLS_HS_CLIENT_HELLO (client_hello crand)).
  assert (len crand = 32) as Lc by reflexivity. assert (len hello = 61) as Lh by reflexivity.
  assert (len srand = 32) as Ls.
  { unfold parse_server_hello in Hsh. destruct (Z.ltb_spec (len sh) 38); [discriminate|]. destruct (_ <? _); [discriminate|].
    destruct (negb _); [discriminate|]. injection Hsh as <-. unfold len. by rewrite length_slice by lia. }
  clearbody hello crand.
  destruct (client_update c now _ rest 0 s (set_hs (sha256_update sha256_init hello) true) Hc eq_refl eq_refl eq_refl eq_refl eq_refl)
    as (s1 & E1 & C1 & _). step E1.
  destruct (client_sends c now _ rest 0 s1 TLS_RT_HANDSHAKE hello C1 ltac:(unfold SEND_ROOM; lia)) as (s2 & E2 & C2 & _). step E2.
  destruct (client_reads c now _ rest _ s2 TLS_HS_SERVER_HELLO 512 dl true sh C2) as [_ R3].
  destruct (R3 Lsh) as (s3 & E3 & C3 & _). clear R3. step E3.
  rewrite Hsh. erewrite bind_ok_step by reflexivity.
  assert (len (certificate_body der) <= TLS_BUF) as Lcert.
  { destruct C3 as (_ & _ & _ & _ & _ & _ & _ & _ & _ & L & _). rewrite len_app, len_hs_message in L.
    match type of L with context [_ + len ?x <= _] => pose proof (len_nonneg x) end. lia. }
  destruct (client_reads c now _ rest _ s3 TLS_HS_CERTIFICATE TLS_BUF dl true (certificate_body der) C3) as [_ R4].
  destruct (R4 Lcert) as (s4 & E4 & C4 & _). clear R4. step E4.
  destruct (client_stores c now _ rest _ s4 (certificate_body der) C4 Lcert) as (s5 & E5 & C5 & _). step E5.
  assert (len (certificate_body der) = 6 + len der) as Lb by (unfold certificate_body; rewrite !len_app; change (len (be24_bytes (3 + len der))) with 3; change (len (be24_bytes (len der))) with 3; lia).
  assert (1 <= len der) as L1 by (unfold der, certificate, der_enc; rewrite len_cons; match goal with |- context [1 + len ?x] => pose proof (len_nonneg x) end; lia).
  assert (len (certmsg s4) = 20000) as Lcm by (destruct C4 as (_ & _ & _ & _ & _ & _ & _ & _ & L & _); unfold len; rewrite L; reflexivity).
  unfold TLS_BUF in Lcert.
  destruct (parse_certificate_body der (certmsg s4) ltac:(lia) ltac:(lia)) as [P1 P2]. specialize (P1 L1). cbv zeta in P1, P2.
  pose proof Hkey as (Bn & Be & Un & Ue & L59 & _).
  pose proof (server_rsa_key_found _ fields oid params unused n e crest sig _ s5 P1 P2 ltac:(fold der; lia) Hf Hpl Un Ue) as E6. step E6.
  destruct (client_reads c now _ rest _ s5 TLS_HS_SERVER_HELLO_DONE 8 dl true done C5) as [_ R7].
  destruct (R7 Ld) as (s7 & E7 & C7 & _). clear R7. step E7. cbv zeta.
  replace (len n - 3 - 48) with (len n - 51) by lia. rewrite (proj2 (Z.ltb_ge _ 8)) by lia. cbn [fail_if].
  erewrite bind_ok_step by reflexivity. rewrite Hpad. erewrite bind_ok_step by reflexivity.
  destruct (encryption_succeeds pad tsc n e Hkey Hpad) as (enc & Eenc & Lenc). rewrite Eenc.
  erewrite bind_ok_step by reflexivity. set (cke := client_key_exchange enc).
  assert (len cke <= 262) as Lk.
  { destruct Un as [Un _]. unfold cke. rewrite client_key_exchange_message, len_hs_message, len_app by lia.
    change (len (be16_bytes (len enc))) with 2. lia. }
  clearbody cke. pose proof (len_nonneg cke).
  destruct (client_update c now _ rest _ s7 (fun t => set_hs (sha256_update (hs t) cke) (hs_has t) t) C7 eq_refl eq_refl eq_refl eq_refl eq_refl)
    as (s8 & E8 & C8 & _). step E8.
  destruct (client_sends c now _ rest _ s8 TLS_RT_HANDSHAKE cke C8 ltac:(unfold SEND_ROOM; lia)) as (s9 & E9 & C9 & _). step E9.
  destruct (install_keys_spec (client_premaster tsc) crand srand s9 Lc Ls) as (ms & kb & t10 & _ & E10 & T10 & K10). step E10.
  match type of T10 with t10 = set_keys ?a ?b ?c' ?d ?e' _ =>
    destruct (client_update c now _ rest _ s9 (set_keys a b c' d e') C9 eq_refl eq_refl eq_refl eq_refl eq_refl) as (s10 & Eu & C10 & Ht10) end.
  injection Eu as Es10. rewrite <- T10 in Es10, Ht10. subst s10. rewrite <- Ht10 in K10.
  set (s10 := Hstate (h_w s9) t10 (g_hsbuf s9) (rbuf s9) (certmsg s9)) in *. clearbody s10. clear E10 T10 Ht10.
  destruct (client_ccs c now _ rest _ s10 C10 ltac:(unfold SEND_ROOM; lia)) as (s11 & E11 & C11 & T11). step E11.
  assert (keyed (h_t s11)) as K11 by (rewrite T11; exact K10).
  unfold get_t. erewrite bind_ok_step by reflexivity.
  destruct (tls_prf_ok (master (h_t s11)) (label "client finished") (sha256_final (hs (h_t s11))) 12) as (vd & Evd & Lvd & Bvd);
    [rewrite len_app, len_sha256_final; vm_compute; discriminate|lia|].
  unfold verify_data at 1. rewrite Evd. erewrite bind_ok_step by reflexivity.
  assert (bytes (hs_message TLS_HS_FINISHED vd)) as Bm by (apply bytes_app; [repeat (apply Forall_cons_2; [first [apply byte_u8|unfold byte; vm_compute; split; congruence]|]); apply Forall_nil_2|exact Bvd]).
  assert (len (hs_message TLS_HS_FINISHED vd) = 16) as Lm by (rewrite len_hs_message; lia).
  destruct (client_sends_encrypted c now _ rest _ s11 TLS_RT_HANDSHAKE _ C11 K11 Bm ltac:(lia) ltac:(unfold SEND_ROOM; lia))
    as (s12 & E12 & C12 & _). step E12.
  unfold flight in C12.
  assert (client_at c now (hs_message TLS_HS_FINISHED fin ++ []) rest 1000 s12) as C12'.
  { rewrite app_nil_r. destruct C12 as (D1 & D2 & D3 & D4). split; [exact D1|]. split; [lia|]. split; [exact D3|exact D4]. }
  destruct (client_reads c now [] rest 1000 s12 TLS_HS_FINISHED 64 dl false fin C12') as [_ R13].
  destruct (R13 ltac:(lia)) as (s13 & E13 & C13 & _). step E13.
  rewrite (proj2 (Z.ltb_ge (len fin) 4)) by lia. cbn [fail_if]. erewrite bind_ok_step by reflexivity.
  destruct (tls_prf_ok (master (h_t s11)) (label "server finished") (sha256_final (hs (h_t s11))) 12) as (ex & Eex & _);
    [rewrite len_app, len_sha256_final; vm_compute; discriminate|lia|].
  unfold verify_data. rewrite Eex. erewrite bind_ok_step by reflexivity.
  exists s13. split; [reflexivity|exact C13].
Qed.

(** The records of a flight, cut anywhere, then other bytes. *)
Definition cut_flight (frags : list (list Z)) (S : list Z) : Prop :=
  (length frags <= fuel)%nat /\ Forall (fun f => f <> []) frags /\ concat frags = S /\ len S <= TLS_BUF.

Lemma client_start w0 c frags S rest s : opened w0 c -> outbox w0 c = [] -> cut_flight frags S ->
  inbox w0 c = concat (record_bytes TLS_RT_HANDSHAKE <$> frags) ++ rest -> length (certs s) = Z.to_nat TLS_BUF ->
  client_at c (tr_ticks w0) S rest 0 (Hstate w0 (new_tls false c zero_ctx false) [] (hs_rbuf s) (certs s)).
Proof.
  intros Ho Hout (F1 & F2 & F3 & F4) Hi Hl. unfold client_at. cbn [h_w h_t g_hsbuf certmsg]. rewrite Hout.
  splits; try done. exists frags. splits; done.
Qed.

(** [C29] A session that no key protects. Whoever can answer the client's SYN, with
    any certificate whose RSA key can be used, completes the handshake and is
    then believed: a first flight and a Finished of any contents, all in
    plaintext and cut into records anywhere, make [tls_connect] succeed, since
    the client neither compares the Finished with what it expects nor insists on
    a ChangeCipherSpec before it; and a plaintext record of application data
    behind them is what [tls_recv] returns. *)
Theorem plaintext_session g_tls_at w s ip port w0 c cap fields oid params unused n e crest sig sh srand done fin pad frags d rest :
  let der := certificate fields (spki oid params unused n e) crest sig in
  tr_own_ip w <> 0 -> tr_connect w ip port = Ok (w0, c) -> 0 <= c < 8 -> opened w0 c -> outbox w0 c = [] ->
  length (g_tls s) = 8%nat -> length (app_rbuf s) = Z.to_nat TLS_BUF -> length (certs s) = Z.to_nat TLS_BUF ->
  0 <= tr_ticks w0 < 2 ^ 63 ->
  parse_server_hello sh = Some srand -> len sh <= 512 -> (length fields < fuel)%nat -> Forall plain_field fields ->
  usable_key n e -> pkcs_padding fuel (Z.to_nat (len n - 51)) (tr_tsc w0) = Ok pad -> len done <= 8 -> 4 <= len fin <= 64 ->
  cut_flight frags (flight sh der done fin) -> 1 <= len d <= TLS_APPBUF -> TLS_APPBUF <= cap ->
  inbox w0 c = concat (record_bytes TLS_RT_HANDSHAKE <$> frags) ++ record_bytes TLS_RT_APPLICATION_DATA d ++ rest ->
  exists w1 s1 w2 s2, tls_connect fuel g_tls_at w s ip port = Ok (w1, s1, c) /\
    tls_recv fuel w1 s1 c cap = Ok (w2, s2, len d, d).
Proof.
  intros der Hip Hcon Hc Ho Hout Lg Lp Lcm Htk Hsh Lsh Hf Hpl Hkey Hpad Ld Lf Hcut Hd Hcap Hi.
  pose proof (client_start w0 c frags _ _ s Ho Hout Hcut Hi Lcm) as C0.
  destruct (client_accepts g_tls_at (u64 (tr_ticks w0 + MS_TO_TICKS 20000)) c _ _ _ fields oid params unused n e crest sig sh srand done fin pad
    C0 Hsh Lsh Hf Hpl Hkey Hpad Ld Lf) as (s' & E & C1).
  unfold tls_connect. rewrite (proj2 (Z.eqb_neq _ 0)) by done. rewrite Hcon. cbn [rbind].
  rewrite (proj2 (Z.ltb_ge c 0)) by lia. unfold run_handshake. rewrite E. cbn [rbind].
  destruct C1 as (Ho1 & _ & Ht1 & Hc1 & He1 & Ha1 & Hr1 & Hp1 & Hl1 & _ & fr & _ & F2 & F3 & Hi1).
  apply app_eq_nil in F3 as [_ F3]. assert (fr = []) as ->.
  { destruct fr as [|f fr]; [done|]. apply Forall_cons_1 in F2 as [F2 _]. cbn in F3. by apply app_eq_nil in F3 as [? _]. }
  cbn [fmap list_fmap concat] in Hi1. rewrite app_nil_l in Hi1.
  set (s1 := put_tls (Tls (g_tls s) (g_hsbuf s') (rbuf s') (app_rbuf s) (certmsg s')) c (h_t s')).
  exists (h_w s'), s1.
  assert (receiving s1 c (h_t s')) as R.
  { unfold receiving, s1. rewrite length_put, tls_at_put by done. splits; (done || lia). }
  rewrite <- Hc1 in Ho1, Hi1. unfold TLS_APPBUF in *.
  destruct (read_plain fuel (h_w s') (h_t s') (app_rbuf s1) (u64 (tr_ticks (h_w s') + MS_TO_TICKS 1000)) TLS_RT_APPLICATION_DATA d rest
    Ho1 Hfuel ltac:(unfold TLS_BUF; lia) (or_introl He1) Hi1) as (w2 & E2 & _).
  destruct (tls_recv_record fuel Hfuel (h_w s') s1 c cap (h_t s') _ (drop (length d) (app_rbuf s1)) d w2 R ltac:(by rewrite Ht1) ltac:(lia)
    ltac:(unfold TLS_APPBUF; lia) E2) as (s2 & E3 & _); [|done|].
  - rewrite length_app, length_drop. change (app_rbuf s1) with (app_rbuf s). rewrite Lp. unfold TLS_BUF. unfold len in Hd. lia.
  - exists w2, s2. split; [done|exact E3].
Qed.

(** A ServerHello can overrun the client's stack: [tls_read_handshake] copies
    a message of up to 20000 bytes to an array whose size it is not told, and the
    512 bytes of [tls_connect] are not enough for a ServerHello of more than
    that, which any server can send. *)
Theorem server_hello_overrun g_tls_at w s ip port w0 c sh tail frags rest :
  tr_own_ip w <> 0 -> tr_connect w ip port = Ok (w0, c) -> 0 <= c -> opened w0 c -> outbox w0 c = [] ->
  length (certs s) = Z.to_nat TLS_BUF -> 512 < len sh ->
  cut_flight frags (hs_message TLS_HS_SERVER_HELLO sh ++ tail) ->
  inbox w0 c = concat (record_bytes TLS_RT_HANDSHAKE <$> frags) ++ rest ->
  tls_connect fuel g_tls_at w s ip port = Oob.
Proof.
  intros Hip Hcon Hc Ho Hout Lcm Lsh Hcut Hi. pose proof (client_start w0 c frags _ _ s Ho Hout Hcut Hi Lcm) as C0.
  unfold tls_connect. rewrite (proj2 (Z.eqb_neq _ 0)) by done. rewrite Hcon. cbn [rbind].
  rewrite (proj2 (Z.ltb_ge c 0)) by lia. unfold run_handshake, client_handshake.
  unfold get_tsc at 1. erewrite bind_ok_step by reflexivity. cbv zeta.
  set (hello := hs_message TLS_HS_CLIENT_HELLO (client_hello _)). assert (len hello = 61) as Lh by reflexivity. clearbody hello.
  destruct (client_update c _ _ rest 0 _ (set_hs (sha256_update sha256_init hello) true) C0 eq_refl eq_refl eq_refl eq_refl eq_refl)
    as (s1 & E1 & C1 & _). step E1.
  destruct (client_sends c _ _ rest 0 s1 TLS_RT_HANDSHAKE hello C1 ltac:(unfold SEND_ROOM; lia)) as (s2 & E2 & C2 & _). step E2.
  destruct (client_reads c _ _ rest _ s2 TLS_HS_SERVER_HELLO 512 (u64 (tr_ticks w0 + MS_TO_TICKS 20000)) true sh C2) as [R3 _].
  unfold bind at 1. by rewrite (R3 Lsh).
Qed.
End Client.

(** * Witnesses: two ends with the FIPS-197 key, over a pipe *)
#[local] Opaque aes128_keyexpand.
Definition demo_end (srv : bool) : tls_conn :=
  set_enc true true (set_keys (replicate 32 1) (replicate 32 2) (aes128_keyexpand fips_key) (aes128_keyexpand fips_key) []
    (new_tls srv 0 sha256_init true)).
Definition demo_tls (t : tls_conn) : tls := Tls (t :: replicate 7 no_tls) [] blank blank blank.
Definition demo_pipe (l : list Z) : pipe := Pipe l [] 0 123456789 [].
Definition demo_msg (x : Z) : list Z := replicate 15 x.

Lemma demo_keyed srv : keyed (demo_end srv).
Proof. exists fips_key. split; [apply block16_check; vm_compute; reflexivity|by destruct srv]. Qed.

Lemma demo_receiving t : active t = true -> app_rx t = [] -> peer_closed t = false -> receiving (demo_tls t) 0 t.
Proof. intros. unfold receiving. splits; first [exact (length_replicate (Z.to_nat TLS_BUF) 0)|lia|done]. Qed.

Lemma tls_send_spec_witness :
  exists w', tls_send (demo_pipe []) (demo_tls (demo_end false)) 0 (demo_msg 7)
      = Ok (w', put_tls (demo_tls (demo_end false)) 0 (next_record (demo_end false)), len (demo_msg 7)) /\
    p_out w' = [] ++ seal_record 123456789 (demo_end false) TLS_RT_APPLICATION_DATA (demo_msg 7) /\
    p_in w' = [] /\ 0 = 0.
Proof.
  refine (proj1 (tls_send_spec (demo_pipe []) (demo_tls (demo_end false)) 0 (demo_msg 7) _ _ _ _ _ _) _ _).
  - reflexivity.
  - reflexivity.
  - reflexivity.
  - apply demo_keyed.
  - check_bytes.
  - vm_compute. discriminate.
  - vm_compute. discriminate.
  - rewrite seal_record_len; [vm_compute; discriminate|check_bytes|apply demo_keyed].
Defined.

Definition demo_ms : list (Z * list Z) := [(5, demo_msg 72); (6, demo_msg 105)].
Lemma demo_unambiguous t x : unambiguous t TLS_RT_APPLICATION_DATA (demo_msg x).
Proof. intros k Hk. change (pad_of (demo_msg x)) with 1 in Hk. lia. Qed.

Lemma tls_recv_in_order_witness : exists w' s' used,
  recv_each 1 [10; 10; 512] (demo_pipe (sealed (demo_end false) demo_ms ++ [9])) (demo_tls (demo_end true)) 0
      = Ok (w', s', [replicate 10 72; replicate 5 72; demo_msg 105]) /\ app_rx (tls_at s' 0) = [] /\ demo_ms = used ++ [] /\
    p_in w' = sealed (Nat.iter (length used) next_record (demo_end false)) [] ++ [9] /\
    concat [replicate 10 72; replicate 5 72; demo_msg 105] ++ [] ++ concat (map snd ([] : list (Z * list Z))) = concat (map snd demo_ms).
Proof.
  refine (tls_recv_in_order 1 (le_n 1) [10; 10; 512] demo_ms (demo_pipe (sealed (demo_end false) demo_ms ++ [9])) (demo_tls (demo_end true)) 0 (demo_end false) (demo_end true)
    [9] _ [] [] (demo_receiving (demo_end true) eq_refl eq_refl eq_refl) eq_refl _ (demo_keyed false) eq_refl eq_refl _ _ _ eq_refl eq_refl).
  - unfold peers. splits; reflexivity.
  - cbn. lia.
  - repeat constructor; lia.
  - cbn [readable demo_ms]. splits; try (check_bytes || apply demo_unambiguous || done); vm_compute; discriminate.
Defined.

Lemma record_authentic_witness :
  exists w' t' pay', tls_read_record 1 (demo_pipe (seal_record 5 (demo_end false) 23 (demo_msg 72) ++ [])) (demo_end true) blank 0
      = Ok (w', t', pay', Some (23, 15)) /\
    t' = set_seqs 0 1 (demo_end true).
Proof.
  destruct (@read_sealed pipe _ pipe_stream 1 5 (demo_pipe (seal_record 5 (demo_end false) 23 (demo_msg 72) ++ [])) (demo_end false) (demo_end true)
    blank 0 23 (demo_msg 72) [] eq_refl (le_n 1) (conj eq_refl (conj eq_refl (conj eq_refl (conj eq_refl eq_refl))))
    (demo_keyed false) eq_refl eq_refl ltac:(check_bytes) ltac:(vm_compute; discriminate) (demo_unambiguous _ _) ltac:(discriminate)
    (length_replicate _ _) eq_refl) as (w' & pay' & E & _).
  exists w', (set_seqs 0 1 (demo_end true)), (demo_msg 72 ++ pay'). split; [exact E|].
  refine (proj1 (record_authentic 1 _ (demo_end true) blank 0 w' (set_seqs 0 1 (demo_end true)) (demo_msg 72 ++ pay') 23 15 eq_refl _ E)).
  unfold blank, len. by rewrite length_replicate.
Defined.

Definition demo_hs (frags : list (list Z)) : @hstate pipe :=
  Hstate (demo_pipe (concat (record_bytes TLS_RT_HANDSHAKE <$> frags) ++ [7])) (new_tls false 0 sha256_init true) [4; 0] blank blank.

(** A message of type 4, then the one wanted, cut in the middle of both. *)
Lemma handshake_reassembly_witness :
  exists s' used unread, tls_read_handshake 3 14 8 0 true (demo_hs [[0; 1; 9; 14]; [0; 0; 2; 5]; [6]]) = Ok (s', Some [5; 6]) /\
    [[0; 1; 9; 14]; [0; 0; 2; 5]; [6]] = used ++ unread /\ g_hsbuf s' ++ concat unread = [] /\
    p_in (h_w s') = concat (record_bytes TLS_RT_HANDSHAKE <$> unread) ++ [7] /\
    hs (h_t s') = hash_if true (new_tls false 0 sha256_init true) ([(4, [9])] ++ [(14, [5; 6])]) sha256_init.
Proof.
  refine (proj2 (handshake_reassembly 3 _ 14 8 0 true [(4, [9])] [5; 6] [] [[0; 1; 9; 14]; [0; 0; 2; 5]; [6]] [7]
    (demo_hs [[0; 1; 9; 14]; [0; 0; 2; 5]; [6]]) _ _ _ _ _ _ _ _) _).
  - lia.
  - reflexivity.
  - reflexivity.
  - apply Forall_cons_2; [split; [discriminate|vm_compute; reflexivity]|apply Forall_nil_2].
  - vm_compute. discriminate.
  - vm_compute. discriminate.
  - reflexivity.
  - cbn. lia.
  - reflexivity.
  - vm_compute. discriminate.
Defined.

(** p = 2^1016 + 1 and q = 3, with exponents one: for the witness a key only has
    to satisfy the arithmetic of [key_ok]. *)
Definition demo_key : server_key :=
  ServerKey ([3] ++ replicate 126 0 ++ [3]) ([1] ++ replicate 126 0 ++ [1]) [3] (replicate 127 0 ++ [1]) [1]
    ([0] ++ replicate 126 85 ++ [86]) [].

Lemma demo_key_ok : key_ok demo_key [1].
Proof.
  split.
  - splits; check_bytes.
  - splits; vm_compute; (reflexivity || discriminate).
  - vm_compute. discriminate.
  - vm_compute. split; reflexivity.
  - vm_compute. split; reflexivity.
  - vm_compute. reflexivity.
  - vm_compute. reflexivity.
  - intros x Hx. assert (be_value [1] * be_value (g_key_dp demo_key) = 1) as -> by (vm_compute; reflexivity).
    assert (be_value [1] * be_value (g_key_dq demo_key) = 1) as -> by (vm_compute; reflexivity). by rewrite Z.pow_1_r.
Qed.

Definition demo_pad (n : nat) : list Z := match pkcs_padding 9 n 123456789 with Ok l => l | _ => [] end.

Lemma premaster_agreement_witness :
  exists enc body,
    bn_rsa_public (encryption_block (demo_pad 77) (client_premaster 123456789)) [1] (g_key_n demo_key) = Some enc /\
    client_key_exchange enc = hs_message TLS_HS_CLIENT_KEY_EXCHANGE body /\
    decrypt_premaster demo_key (replicate 256 0) body (demo_hs []) = Ok (demo_hs [], Some (client_premaster 123456789)).
Proof.
  refine (premaster_agreement 9 demo_key [1] 123456789 (demo_pad 77) (replicate 256 0) (demo_hs []) demo_key_ok eq_refl _).
  vm_compute. reflexivity.
Defined.

Lemma keys_agree_witness :
  exists a' b', install_keys (client_premaster 5) (client_random 5 16) (server_random 6)
      (Hstate (demo_pipe []) (new_tls false 0 zero_ctx false) [] blank blank) = Ok (a', Some tt) /\
    install_keys (client_premaster 5) (client_random 5 16) (server_random 6)
      (Hstate (demo_pipe []) (new_tls true 0 zero_ctx false) [] blank blank) = Ok (b', Some tt) /\
    peers (h_t a') (h_t b') /\ peers (h_t b') (h_t a') /\ keyed (h_t a') /\ keyed (h_t b') /\
    master (h_t a') = master (h_t b').
Proof. exact (keys_agree (client_premaster 5) (client_random 5 16) (server_random 6)
  (Hstate (demo_pipe []) (new_tls false 0 zero_ctx false) [] blank blank)
  (Hstate (demo_pipe []) (new_tls true 0 zero_ctx false) [] blank blank) eq_refl eq_refl eq_refl eq_refl). Defined.

(** A certificate with a 480-bit modulus; the Finished is four zeros. *)
Definition rogue_n : list Z := 200 :: replicate 59 7.
Definition rogue_der : list Z := certificate [] (spki [42; 1] [5; 0] 0 rogue_n [3]) [] [].
Definition rogue_sh : list Z := [3; 3] ++ replicate 32 7 ++ [0; 0; 60; 0].
Definition rogue_flight : list Z := flight rogue_sh rogue_der [] [0; 0; 0; 0].
Definition rogue_pipe : pipe := demo_pipe (concat (record_bytes TLS_RT_HANDSHAKE <$> [rogue_flight])
  ++ record_bytes TLS_RT_APPLICATION_DATA [104; 105] ++ []).

Lemma rogue_key : usable_key rogue_n [3].
Proof.
  unfold usable_key, uint_bytes. splits; try check_bytes; vm_compute; (reflexivity || discriminate).
Qed.

Lemma one_fragment S : S <> [] -> len S <= TLS_BUF -> cut_flight 1 [S] S.
Proof.
  intros Hn Hl. split; [cbn; lia|]. split; [apply Forall_cons_2; [done|apply Forall_nil_2]|].
  split; [cbn; apply app_nil_r|done].
Qed.

Lemma plaintext_session_witness :
  exists w1 s1 w2 s2, tls_connect 9 16 rogue_pipe tls_boot 167772674 443 = Ok (w1, s1, 0) /\
    tls_recv 9 w1 s1 0 4096 = Ok (w2, s2, len [104; 105], [104; 105]).
Proof.
  refine (plaintext_session 9 _ 16 rogue_pipe tls_boot 167772674 443 rogue_pipe 0 4096 [] [42; 1] [5; 0] 0 rogue_n [3] [] []
    rogue_sh (replicate 32 7) [] [0; 0; 0; 0] (demo_pad 9) [rogue_flight] [104; 105] []
    _ eq_refl _ eq_refl eq_refl eq_refl (length_replicate _ _) (length_replicate _ _) _ eq_refl _ _ _ rogue_key _ _ _ _ _ _ eq_refl).
  - lia.
  - discriminate.
  - lia.
  - cbn. lia.
  - vm_compute. discriminate.
  - cbn. lia.
  - apply Forall_nil_2.
  - vm_compute. reflexivity.
  - vm_compute. discriminate.
  - vm_compute. split; discriminate.
  - destruct (one_fragment rogue_flight) as (_ & F2 & F3 & F4); [discriminate|vm_compute; discriminate|].
    split; [cbn; lia|]. split; [exact F2|]. split; [exact F3|exact F4].
  - vm_compute. split; discriminate.
  - vm_compute. discriminate.
Defined.

Definition long_hello : list Z := replicate 600 7.
Lemma server_hello_overrun_witness :
  tls_connect 1 16 (demo_pipe (concat (record_bytes TLS_RT_HANDSHAKE <$> [hs_message TLS_HS_SERVER_HELLO long_hello ++ []]) ++ []))
    tls_boot 167772674 443 = Oob.
Proof.
  refine (server_hello_overrun 1 (le_n 1) 16 (demo_pipe (concat (record_bytes TLS_RT_HANDSHAKE <$> [hs_message TLS_HS_SERVER_HELLO long_hello ++ []]) ++ [])) tls_boot 167772674 443
    (demo_pipe (concat (record_bytes TLS_RT_HANDSHAKE <$> [hs_message TLS_HS_SERVER_HELLO long_hello ++ []]) ++ [])) 0 long_hello [] [hs_message TLS_HS_SERVER_HELLO long_hello ++ []] []
    _ eq_refl _ eq_refl eq_refl (length_replicate _ _) _ _ eq_refl).
  - discriminate.
  - lia.
  - vm_compute. reflexivity.
  - apply one_fragment; [discriminate|vm_compute; discriminate].
Defined.
