(* ===== verification/Heap.v ===== *)
(** * The kernel heap (kernel/mm/heap.c)

    Size-class free lists over block headers. Addresses are numbers; the headers
    the allocator has written are a finite map from addresses to blocks, in
    which a header stays after its block is merged away, as it does in memory.
    The words the allocator writes into payloads (canaries, back pointers) are a
    second map. Pages come from the model of the physical allocator (file
    Pmm). *)
From Stdlib Require Import ZArith Lia Bool.
From stdpp Require Import base list numbers option gmap sets.
From S2P Require Import Prelude Pmm.
#[local] Set Default Goal Selector "!".
Open Scope Z_scope.

Definition HEAP_MAGIC : Z := 1497453140.
Definition HEAP_CANARY : Z := 3237998080.
Definition CANARY_BYTES : Z := 16.
Definition sizeof_block : Z := 48.
Definition classes : list Z :=
  [16; 32; 48; 64; 96; 128; 192; 256; 384; 512; 768; 1024; 1536; 2048; 3072; 4096; 6144; 8192; 12288; 16384].
Definition NUM_CLASSES : Z := 20.
Definition HUGE_CLASS : Z := NUM_CLASSES.
Definition NUM_BUCKETS : Z := NUM_CLASSES + 1.

Record block := Block { magic : Z; size : Z; req : Z; free : bool; next : Z; prev : Z }.
Record heap_stats := Stats {
  total_alloc_bytes : Z; total_free_bytes : Z; cur_bytes : Z; peak_bytes : Z; alloc_count : Z;
  free_count : Z; grow_count : Z; per_class_active : list Z }.
Record heap := Heap {
  hdrs : gmap Z block; words : gmap Z Z; head : Z; buckets : list Z; heap_pages_total : Z;
  g_stats : heap_stats; g_heap_bad_frees : Z; g_heap_bad_canaries : Z; pages : pmm }.

Definition no_block : block := Block 0 0 0 false 0 0.
Definition blk (h : heap) (a : Z) : block := default no_block (hdrs h !! a).

Definition set_hdrs (h : heap) (m : gmap Z block) : heap :=
  Heap m (words h) (head h) (buckets h) (heap_pages_total h) (g_stats h) (g_heap_bad_frees h)
    (g_heap_bad_canaries h) (pages h).
Definition upd (h : heap) (a : Z) (f : block -> block) : heap := set_hdrs h (<[a := f (blk h a)]> (hdrs h)).
Definition set_words (h : heap) (w : gmap Z Z) : heap :=
  Heap (hdrs h) w (head h) (buckets h) (heap_pages_total h) (g_stats h) (g_heap_bad_frees h)
    (g_heap_bad_canaries h) (pages h).
Definition set_head (h : heap) (a : Z) : heap :=
  Heap (hdrs h) (words h) a (buckets h) (heap_pages_total h) (g_stats h) (g_heap_bad_frees h)
    (g_heap_bad_canaries h) (pages h).
Definition set_bucket (h : heap) (i a : Z) : heap :=
  Heap (hdrs h) (words h) (head h) ((buckets h).[i <- a]) (heap_pages_total h) (g_stats h)
    (g_heap_bad_frees h) (g_heap_bad_canaries h) (pages h).
Definition set_stats (h : heap) (s : heap_stats) : heap :=
  Heap (hdrs h) (words h) (head h) (buckets h) (heap_pages_total h) s (g_heap_bad_frees h)
    (g_heap_bad_canaries h) (pages h).
Definition bad_free (h : heap) : heap :=
  Heap (hdrs h) (words h) (head h) (buckets h) (heap_pages_total h) (g_stats h)
    (u64 (g_heap_bad_frees h + 1)) (g_heap_bad_canaries h) (pages h).
Definition bad_canary (h : heap) : heap :=
  Heap (hdrs h) (words h) (head h) (buckets h) (heap_pages_total h) (g_stats h) (g_heap_bad_frees h)
    (u64 (g_heap_bad_canaries h + 1)) (pages h).
Definition set_pages (h : heap) (total : Z) (p : pmm) : heap :=
  Heap (hdrs h) (words h) (head h) (buckets h) total (g_stats h) (g_heap_bad_frees h)
    (g_heap_bad_canaries h) p.

Definition set_size (v : Z) (b : block) : block := Block (magic b) v (req b) (free b) (next b) (prev b).
Definition set_req (v : Z) (b : block) : block := Block (magic b) (size b) v (free b) (next b) (prev b).
Definition set_free (v : bool) (b : block) : block := Block (magic b) (size b) (req b) v (next b) (prev b).
Definition set_next (v : Z) (b : block) : block := Block (magic b) (size b) (req b) (free b) v (prev b).
Definition set_prev (v : Z) (b : block) : block := Block (magic b) (size b) (req b) (free b) (next b) v.

(** The free-list link is kept in [req]. *)
Definition bfree_next (h : heap) (b : Z) : Z := req (blk h b).
Definition bfree_set_next (h : heap) (b n : Z) : heap := upd h b (set_req n).

Fixpoint class_scan (cs : list Z) (i n : Z) : Z :=
  match cs with
  | [] => HUGE_CLASS
  | c :: r => if n <=? c then i else class_scan r (i + 1) n
  end.
Definition class_for (n : Z) : Z := class_scan classes 0 n.

Definition payload (b : Z) : Z := b + sizeof_block.
Definition canary_of (h : heap) (b : Z) : Z := payload b + req (blk h b).

Definition bucket_push (h : heap) (b ci : Z) : heap :=
  set_bucket (bfree_set_next h b ((buckets h).[ci])) ci b.
Definition bucket_pop (h : heap) (ci : Z) : heap * Z :=
  let b := (buckets h).[ci] in
  if b =? 0 then (h, 0) else (set_bucket h ci (bfree_next h b), b).

(** Bound on a walk along a free list: every list fits the headers. *)
Definition walk_fuel (h : heap) : nat := S (Datatypes.length (map_to_list (hdrs h))).

(** The block before [b] on the list from [t], 0 if none. *)
Fixpoint find_pred (fuel : nat) (h : heap) (t b : Z) : Z :=
  match fuel with
  | O => 0
  | S k => if t =? 0 then 0 else if bfree_next h t =? b then t else find_pred k h (bfree_next h t) b
  end.
Fixpoint remove_from (n : nat) (h : heap) (i b : Z) : heap :=
  match n with
  | O => h
  | S k =>
    if (buckets h).[i] =? b then set_bucket h i (bfree_next h b)
    else
      let t := find_pred (walk_fuel h) h ((buckets h).[i]) b in
      if t =? 0 then remove_from k h (i + 1) b
      else bfree_set_next h t (bfree_next h b)
  end.
Definition bucket_remove (h : heap) (b : Z) : heap := remove_from (Z.to_nat NUM_BUCKETS) h 0 b.

Definition split (h : heap) (b want : Z) : heap * Z :=
  let v := blk h b in
  if size v <? u64 (want + sizeof_block + CANARY_BYTES + 32) then (h, 0)
  else
    let n := b + sizeof_block + want + CANARY_BYTES in
    let h := upd h n (fun _ => Block HEAP_MAGIC (u64 (size v - want - sizeof_block - CANARY_BYTES)) 0 true
                                 (next v) b) in
    let h := if next v =? 0 then h else upd h (next v) (set_prev n) in
    let h := upd h b (set_next n) in
    (upd h b (set_size want), n).

(** The first block of the huge list with room, unlinked. *)
Fixpoint scan_huge (fuel : nat) (h : heap) (pr b n : Z) : heap * Z :=
  match fuel with
  | O => (h, 0)
  | S k =>
    if b =? 0 then (h, 0)
    else
      let nx := bfree_next h b in
      if n <=? size (blk h b)
      then (if pr =? 0 then set_bucket h HUGE_CLASS nx else bfree_set_next h pr nx, b)
      else scan_huge k h b nx n
  end.

(** The small buckets from [i]. *)
Fixpoint scan_small (k : nat) (h : heap) (i n : Z) : heap * Z :=
  match k with
  | O => (h, 0)
  | S m =>
    if (buckets h).[i] =? 0 then scan_small m h (i + 1) n
    else
      let '(h, b) := bucket_pop h i in
      if n <=? size (blk h b) then (h, b)
      else scan_small m (bucket_push h b (class_for (size (blk h b)))) (i + 1) n
  end.

Definition alloc_from_class (h : heap) (n : Z) : heap * Z :=
  let ci := class_for n in
  let '(h, b) := if ci <? NUM_CLASSES then scan_small (Z.to_nat (NUM_CLASSES - ci)) h ci n else (h, 0) in
  if b =? 0 then scan_huge (walk_fuel h) h 0 ((buckets h).[HUGE_CLASS]) n else (h, b).

Definition count_alloc (s : heap_stats) (ci n : Z) : heap_stats :=
  let cur := u64 (cur_bytes s + n) in
  Stats (u64 (total_alloc_bytes s + n)) (total_free_bytes s) cur
    (if peak_bytes s <? cur then cur else peak_bytes s) (u64 (alloc_count s + 1)) (free_count s)
    (grow_count s) ((per_class_active s).[ci <- u64 ((per_class_active s).[ci] + 1)]).
Definition count_free (s : heap_stats) (ci n : Z) : heap_stats :=
  let act := (per_class_active s).[ci] in
  Stats (total_alloc_bytes s) (u64 (total_free_bytes s + n))
    (cur_bytes s - (if n <? cur_bytes s then n else cur_bytes s)) (peak_bytes s)
    (alloc_count s) (u64 (free_count s + 1)) (grow_count s)
    (if (ci <? NUM_BUCKETS) && negb (act =? 0) then (per_class_active s).[ci <- act - 1]
     else per_class_active s).
Definition count_grow (s : heap_stats) : heap_stats :=
  Stats (total_alloc_bytes s) (total_free_bytes s) (cur_bytes s) (peak_bytes s) (alloc_count s)
    (free_count s) (u64 (grow_count s + 1)) (per_class_active s).

(** The last block of the address-ordered list. *)
Fixpoint list_tail (fuel : nat) (h : heap) (t : Z) : Z :=
  match fuel with
  | O => t
  | S k => if next (blk h t) =? 0 then t else list_tail k h (next (blk h t))
  end.

Section Heap.
Context `{Reclaimer} (hhdm : Z).

Definition phys_to_virt (p : Z) : Z := p + hhdm.

Definition grow (h : heap) (need_payload : Z) : outcome (heap * Z) :=
  let need := u64 (sizeof_block + need_payload) in
  let n := u64 (PAGE_ALIGN_UP need) / PAGE_SIZE in
  let n := if n <? 8 then 8 else n in
  obind (pmm_alloc_pages (pages h) n) (fun '(pm, p) =>
  let b := phys_to_virt p in
  let h := upd h b (fun _ => Block HEAP_MAGIC (u64 (n * PAGE_SIZE - sizeof_block - CANARY_BYTES)) 0 true 0 0) in
  let h := if head h =? 0 then set_head h b
           else let t := list_tail (walk_fuel h) h (head h) in
                upd (upd h t (set_next b)) b (set_prev t) in
  let h := set_pages h (u64 (heap_pages_total h + n)) pm in
  Ret (set_stats h (count_grow (g_stats h)), b)).

Definition heap_init (pm : pmm) : outcome heap :=
  let h := Heap ∅ ∅ 0 (replicate 21 0) 0 (Stats 0 0 0 0 0 0 0 (replicate 21 0)) 0 0 pm in
  obind (grow h (1048576)) (fun '(h, b) => Ret (bucket_push h b (class_for (size (blk h b))))).

(** The part of [kmalloc] that follows the choice of the block. *)
Definition take_block (h : heap) (b n ci : Z) : heap * Z :=
  let '(h, rem) := split h b n in
  let h := if rem =? 0 then h else bucket_push h rem (class_for (size (blk h rem))) in
  let h := upd h b (set_free false) in
  let h := upd h b (set_req n) in
  let h := set_words h (<[canary_of h b := HEAP_CANARY]> (words h)) in
  (set_stats h (count_alloc (g_stats h) ci n), payload b).

Definition kmalloc (h : heap) (n : Z) : outcome (heap * Z) :=
  if n =? 0 then Ret (h, 0)
  else
    let n := Z.land (u64 (n + 15)) (u64 (Z.lnot 15)) in
    let ci := class_for n in
    let '(h, b) := alloc_from_class h n in
    if b =? 0 then obind (grow h n) (fun '(h, b) => Ret (take_block h b n ci))
    else Ret (take_block h b n ci).

(** Merging with the next block, then with the previous one: the block that
    holds the result. *)
Definition merge_next (h : heap) (b : Z) : heap :=
  let nx := next (blk h b) in
  if negb (nx =? 0) && free (blk h nx) then
    let h := bucket_remove h nx in
    let h := upd h b (set_size (u64 (size (blk h b) + sizeof_block + CANARY_BYTES + size (blk h nx)))) in
    let h := upd h b (set_next (next (blk h nx))) in
    let n2 := next (blk h b) in
    if n2 =? 0 then h else upd h n2 (set_prev b)
  else h.
Definition merge_prev (h : heap) (b : Z) : heap * Z :=
  let pv := prev (blk h b) in
  if negb (pv =? 0) && free (blk h pv) then
    let h := bucket_remove h pv in
    let h := upd h pv (set_size (u64 (size (blk h pv) + sizeof_block + CANARY_BYTES + size (blk h b)))) in
    let h := upd h pv (set_next (next (blk h b))) in
    let n2 := next (blk h b) in
    (if n2 =? 0 then h else upd h n2 (set_prev pv), pv)
  else (h, b).

Definition kfree (h : heap) (p : Z) : heap :=
  if p =? 0 then h
  else
    let b := p - sizeof_block in
    let v := blk h b in
    if negb (magic v =? HEAP_MAGIC) then bad_free h
    else if free v then bad_free h
    else
      let h := if default 0 (words h !! canary_of h b) =? HEAP_CANARY then h else bad_canary h in
      let h := set_stats h (count_free (g_stats h) (class_for (req v)) (req v)) in
      let h := merge_next h b in
      let '(h, b) := merge_prev h b in
      let h := upd h b (set_free true) in
      let h := upd h b (set_req 0) in
      bucket_push h b (class_for (size (blk h b))).

(** [while (align < want) align <<= 1;] *)
Fixpoint pow2_up (k : nat) (a want : Z) : Z :=
  match k with
  | O => a
  | S m => if a <? want then pow2_up m (u64 (Z.shiftl a 1)) want else a
  end.
Definition kmalloc_aligned (h : heap) (n align : Z) : outcome (heap * Z) :=
  if align <=? 16 then kmalloc h n
  else
    let align := if Z.land align (align - 1) =? 0 then align else pow2_up 64 1 align in
    obind (kmalloc h (u64 (n + align + 16))) (fun '(h, raw) =>
    if raw =? 0 then Ret (h, 0)
    else
      let ret := Z.land (u64 (raw + 8 + align - 1)) (u64 (Z.lnot (align - 1))) in
      Ret (set_words h (<[ret - 8 := raw]> (words h)), ret)).
Definition kfree_aligned (h : heap) (p : Z) : heap :=
  if p =? 0 then h else kfree h (default 0 (words h !! (p - 8))).
End Heap.

(** * Segments: the address-ordered list *)
(** [L] are consecutive blocks, linked both ways and tiling the memory up to
    [fin]; [nx] is the forward link of the last. *)
Fixpoint seg (f : Z -> block) (pv : Z) (L : list Z) (nx fin : Z) : Prop :=
  match L with
  | [] => True
  | a :: r =>
    4096 <= a /\ (16 | a) /\ magic (f a) = HEAP_MAGIC /\ 0 <= size (f a) /\ prev (f a) = pv /\
    next (f a) = hd nx r /\ a + 64 + size (f a) = hd fin r /\ seg f a r nx fin
  end.

(** Free lists, linked through [req]. *)
Definition fl (f : Z -> block) : Z -> list Z -> Prop := chain (fun a => req (f a)).

Fixpoint last_of (x : Z) (l : list Z) : Z := match l with [] => x | a :: r => last_of a r end.

Lemma seg_app f l1 l2 : forall pv nx fin,
  seg f pv (l1 ++ l2) nx fin <->
  seg f pv l1 (hd nx l2) (hd fin l2) /\ seg f (last_of pv l1) l2 nx fin.
Proof.
  induction l1 as [|a l1 IH]; intros pv nx fin; cbn [app seg last_of]; [tauto|].
  rewrite IH. assert (hd nx (l1 ++ l2) = hd (hd nx l2) l1 /\ hd fin (l1 ++ l2) = hd (hd fin l2) l1) as [-> ->]
    by (destruct l1; done). tauto.
Qed.

(** Membership in a list built by [::] and [++]. *)
Ltac mem := rewrite ?elem_of_cons, ?elem_of_app; tauto.

(** [seg] looks at the links and sizes of its blocks only. *)
Definition same_links (v v' : block) : Prop :=
  magic v' = magic v /\ size v' = size v /\ next v' = next v /\ prev v' = prev v.

Lemma seg_frame f f' L : forall pv nx fin, (forall a, a ∈ L -> same_links (f a) (f' a)) ->
  seg f pv L nx fin -> seg f' pv L nx fin.
Proof.
  induction L as [|a L IH]; intros pv nx fin Hf Hs; [done|]. cbn [seg] in *.
  destruct (Hf a ltac:(mem)) as (-> & -> & -> & ->).
  destruct Hs as (H1 & H2 & H3 & H4 & H5 & H6 & H7 & H8). splits; try done.
  apply IH; [intros; apply Hf; mem|done].
Qed.

Lemma fl_frame f f' l x : (forall a, a ∈ l -> req (f' a) = req (f a)) -> fl f x l -> fl f' x l.
Proof. apply chain_frame. Qed.

Lemma seg_bounds f L : forall pv nx fin, seg f pv L nx fin ->
  forall a, a ∈ L -> hd fin L <= a /\ a + 64 + size (f a) <= fin /\ 4096 <= a /\ 0 <= size (f a).
Proof.
  induction L as [|b L IH]; intros pv nx fin Hs a Ha; [by apply not_elem_of_nil in Ha|].
  cbn [seg hd] in *. destruct Hs as (H1 & H2 & H3 & H4 & H5 & H6 & H7 & H8).
  assert (Hle : hd fin L <= fin).
  { destruct L as [|c L]; [done|]. specialize (IH _ _ _ H8 c ltac:(mem)). cbn [hd] in *. lia. }
  apply elem_of_cons in Ha as [->|Ha]; [lia|]. specialize (IH _ _ _ H8 a Ha). lia.
Qed.

(** Blocks do not overlap. *)
Lemma seg_disjoint f L : forall pv nx fin, seg f pv L nx fin ->
  forall a b, a ∈ L -> b ∈ L -> a <> b -> a + 64 + size (f a) <= b \/ b + 64 + size (f b) <= a.
Proof.
  induction L as [|c L IH]; intros pv nx fin Hs a b Ha Hb Hne; [by apply not_elem_of_nil in Ha|].
  cbn [seg] in *. destruct Hs as (H1 & H2 & H3 & H4 & H5 & H6 & H7 & H8).
  apply elem_of_cons in Ha as [->|Ha]; apply elem_of_cons in Hb as [->|Hb]; [done| | |by eapply IH].
  - left. pose proof (seg_bounds _ _ _ _ _ H8 b Hb). lia.
  - right. pose proof (seg_bounds _ _ _ _ _ H8 a Ha). lia.
Qed.

Lemma seg_NoDup f L : forall pv nx fin, seg f pv L nx fin -> NoDup L.
Proof.
  induction L as [|c L IH]; intros pv nx fin Hs; [constructor|].
  cbn [seg] in *. destruct Hs as (H1 & H2 & H3 & H4 & H5 & H6 & H7 & H8).
  constructor; [|by eapply IH]. intros Hc. pose proof (seg_bounds _ _ _ _ _ H8 c Hc). lia.
Qed.

Lemma seg_magic f L pv nx fin a : seg f pv L nx fin -> a ∈ L -> magic (f a) = HEAP_MAGIC /\ (16 | a).
Proof.
  revert pv. induction L as [|c L IH]; intros pv Hs Ha; [by apply not_elem_of_nil in Ha|].
  cbn [seg] in *. destruct Hs as (H1 & H2 & H3 & H4 & H5 & H6 & H7 & H8).
  apply elem_of_cons in Ha as [->|Ha]; [done|by eapply IH].
Qed.

(** The neighbours of a block. *)
Lemma seg_neighbours f l1 b l2 pv nx fin : seg f pv (l1 ++ b :: l2) nx fin ->
  next (f b) = hd nx l2 /\ prev (f b) = last_of pv l1 /\ b + 64 + size (f b) = hd fin l2.
Proof. intros Hs. apply seg_app in Hs as [_ Hs]. cbn [seg] in Hs. tauto. Qed.

Lemma last_of_app x l a : last_of x (l ++ [a]) = a.
Proof. revert x. induction l as [|b l IH]; intros x; [done|apply IH]. Qed.

(** Changing the backward link of the first block. *)
Lemma seg_relink f f' L pv pv' nx fin : seg f pv L nx fin -> NoDup L ->
  (forall a, a ∈ L -> magic (f' a) = magic (f a) /\ size (f' a) = size (f a) /\ next (f' a) = next (f a)) ->
  (forall a, a ∈ tail L -> prev (f' a) = prev (f a)) -> (L <> [] -> prev (f' (hd 0 L)) = pv') ->
  seg f' pv' L nx fin.
Proof.
  destruct L as [|a L]; [done|]. cbn [seg tail hd]. intros (H1 & H2 & H3 & H4 & H5 & H6 & H7 & H8) Hd Hf Hp Hh.
  destruct (Hf a ltac:(mem)) as (-> & -> & ->). splits; try done; [by apply Hh|].
  eapply seg_frame; [|exact H8]. intros c Hc. destruct (Hf c ltac:(mem)) as (? & ? & ?).
  split; [done|]. split; [done|]. split; [done|]. by apply Hp.
Qed.

(** Two neighbours become one block. *)
Lemma seg_merge f f' l1 b c l2 fin : seg f 0 (l1 ++ b :: c :: l2) 0 fin ->
  (forall a, a ∈ l1 -> same_links (f a) (f' a)) ->
  magic (f' b) = magic (f b) -> prev (f' b) = prev (f b) -> next (f' b) = next (f c) ->
  size (f' b) = size (f b) + 64 + size (f c) ->
  (forall a, a ∈ l2 -> magic (f' a) = magic (f a) /\ size (f' a) = size (f a) /\ next (f' a) = next (f a)) ->
  (forall a, a ∈ tail l2 -> prev (f' a) = prev (f a)) -> (l2 <> [] -> prev (f' (hd 0 l2)) = b) ->
  seg f' 0 (l1 ++ b :: l2) 0 fin.
Proof.
  intros Hs Hl1 Hm Hp Hn Hsz Hl2 Hpt Hph. pose proof (seg_NoDup _ _ _ _ _ Hs) as Hnd.
  apply seg_app in Hs as [Hs1 Hs2]. cbn [seg hd] in *.
  destruct Hs2 as (B1 & B2 & B3 & B4 & B5 & B6 & B7 & C1 & C2 & C3 & C4 & C5 & C6 & C7 & C8).
  apply seg_app. cbn [seg hd]. rewrite Hm, Hp, Hn, Hsz. splits; try done; try lia.
  - by eapply seg_frame.
  - eapply seg_relink; [exact C8| |done..].
    apply NoDup_app in Hnd as (_ & _ & Hnd). apply NoDup_cons in Hnd as [_ Hnd]. by apply NoDup_cons in Hnd as [_ Hnd].
Qed.

(** One block becomes two. *)
Lemma seg_split f f' l1 b n l2 want fin : seg f 0 (l1 ++ b :: l2) 0 fin ->
  n = b + 64 + want -> 0 <= want -> want + 64 <= size (f b) -> (16 | want) ->
  (forall a, a ∈ l1 -> same_links (f a) (f' a)) ->
  magic (f' b) = magic (f b) -> prev (f' b) = prev (f b) -> next (f' b) = n -> size (f' b) = want ->
  magic (f' n) = HEAP_MAGIC -> prev (f' n) = b -> next (f' n) = next (f b) ->
  size (f' n) = size (f b) - want - 64 ->
  (forall a, a ∈ l2 -> magic (f' a) = magic (f a) /\ size (f' a) = size (f a) /\ next (f' a) = next (f a)) ->
  (forall a, a ∈ tail l2 -> prev (f' a) = prev (f a)) -> (l2 <> [] -> prev (f' (hd 0 l2)) = n) ->
  seg f' 0 (l1 ++ b :: n :: l2) 0 fin.
Proof.
  intros Hs En Hw Hsz H16 Hl1 Bm Bp Bn Bs Nm Np Nn Ns Hl2 Hpt Hph. pose proof (seg_NoDup _ _ _ _ _ Hs) as Hnd.
  apply seg_app in Hs as [Hs1 Hs2]. cbn [seg hd] in *.
  destruct Hs2 as (B1 & B2 & B3 & B4 & B5 & B6 & B7 & B8).
  apply seg_app. cbn [seg hd]. rewrite Bm, Bp, Bn, Bs, Nm, Np, Nn, Ns.
  assert (Hn16 : (16 | n)).
  { rewrite En. apply Z.divide_add_r; [apply Z.divide_add_r; [done|by exists 4]|done]. }
  splits; try done; try lia.
  - by eapply seg_frame.
  - eapply seg_relink; [exact B8| |done..].
    apply NoDup_app in Hnd as (_ & _ & Hnd). by apply NoDup_cons in Hnd as [_ Hnd].
Qed.

(** * The invariant *)
Lemma blk_upd h a g x : blk (upd h a g) x = if decide (x = a) then g (blk h a) else blk h x.
Proof.
  unfold upd. change (blk (set_hdrs h ?m) x) with (default no_block (m !! x)).
  case_decide as E; [subst; by rewrite lookup_insert_eq|by rewrite lookup_insert_ne].
Qed.

Lemma class_range n : 0 <= class_for n < NUM_BUCKETS.
Proof.
  change NUM_BUCKETS with 21. unfold class_for, classes.
  assert (H : forall cs i, 0 <= i -> i + Z.of_nat (length cs) <= 20 -> 0 <= class_scan cs i n < 21).
  { induction cs as [|c cs IH]; intros i Hi Hl; cbn [class_scan]; [change HUGE_CLASS with 20; lia|].
    cbn [length] in Hl. case_ifZ; [lia|apply IH; lia]. }
  apply H; cbn; lia.
Qed.

Record ok (h : heap) (L : list Z) (bs : Z -> list Z) (fin : Z) (X : list Z) : Prop := {
  ok_seg : seg (blk h) 0 L 0 fin;
  ok_fin : fin <= 18446744073709551616;
  ok_head : head h = hd 0 L;
  ok_len : length (buckets h) = 21%nat;
  ok_fl i : 0 <= i < 21 -> fl (blk h) ((buckets h).[i]) (bs i);
  ok_nd i : 0 <= i < 21 -> NoDup (bs i);
  ok_in i a : 0 <= i < 21 ->
    (a ∈ bs i) <-> ((a ∈ L) /\ free (blk h a) = true /\ (a ∉ X) /\ class_for (size (blk h a)) = i) }.

(** What operations on the free lists leave alone: everything but the links. *)
Record links_only (h h' : heap) : Prop := {
  lo_blk a : same_links (blk h a) (blk h' a) /\ free (blk h' a) = free (blk h a) /\
    (free (blk h a) = false -> req (blk h' a) = req (blk h a));
  lo_head : head h' = head h; lo_words : words h' = words h; lo_stats : g_stats h' = g_stats h;
  lo_bad : g_heap_bad_frees h' = g_heap_bad_frees h;
  lo_canary : g_heap_bad_canaries h' = g_heap_bad_canaries h; lo_pages : pages h' = pages h }.

Lemma links_only_refl h : links_only h h.
Proof. by split. Qed.

Lemma links_only_trans h h' h'' : links_only h h' -> links_only h' h'' -> links_only h h''.
Proof.
  intros [A1 A2 A3 A4 A5 A6 A7] [B1 B2 B3 B4 B5 B6 B7]. split; try congruence. intros a.
  destruct (A1 a) as ((? & ? & ? & ?) & ? & ?). destruct (B1 a) as ((? & ? & ? & ?) & ? & Hr).
  unfold same_links. splits; try congruence. intros Hf. rewrite Hr by congruence. auto.
Qed.

Lemma links_only_req h a v : free (blk h a) = true -> links_only h (upd h a (set_req v)).
Proof.
  intros Hf. split; try done. intros x. rewrite blk_upd. case_decide as E; [subst|done].
  split; [done|]. split; [done|]. cbn. congruence.
Qed.

Lemma links_only_bucket h i a : links_only h (set_bucket h i a).
Proof. by split. Qed.

Lemma nthZ_bucket h i a j : length (buckets h) = 21%nat -> 0 <= i < 21 -> 0 <= j < 21 ->
  (buckets (set_bucket h i a)).[j] = if i =? j then a else (buckets h).[j].
Proof.
  intros Hl Hi Hj. cbn. destruct (Z.eqb_spec i j) as [->|].
  - apply nthZ_updZ_eq. unfold len. lia.
  - apply nthZ_updZ_ne; lia.
Qed.

(** A free list fits the walk's fuel. *)
Lemma list_fits h l : NoDup l -> (forall a, a ∈ l -> magic (blk h a) = HEAP_MAGIC) ->
  (length l < walk_fuel h)%nat.
Proof.
  intros Hnd Hm. apply keys_fit; [exact Hnd|]. intros a Ha. apply Hm in Ha. unfold blk in Ha.
  destruct (hdrs h !! a) as [v|]; [by eexists|done].
Qed.

(** Replacing a bucket's list. *)
Definition set_list (bs : Z -> list Z) (i : Z) (l : list Z) : Z -> list Z :=
  fun j => if i =? j then l else bs j.

Section Ok.
Context (h : heap) (L : list Z) (bs : Z -> list Z) (fin : Z).

Lemma ok_magic X a : ok h L bs fin X -> a ∈ L -> magic (blk h a) = HEAP_MAGIC.
Proof. intros Hok Ha. by destruct (seg_magic _ _ _ _ _ _ (ok_seg _ _ _ _ _ Hok) Ha). Qed.

Lemma ok_fits X i : ok h L bs fin X -> 0 <= i < 21 -> (length (bs i) < walk_fuel h)%nat.
Proof.
  intros Hok Hi. apply list_fits; [by apply (ok_nd _ _ _ _ _ Hok)|]. intros a Ha.
  apply (ok_in _ _ _ _ _ Hok) in Ha as (Ha & _); [|done]. by eapply ok_magic.
Qed.

Lemma ok_nonzero X a : ok h L bs fin X -> a ∈ L -> a <> 0.
Proof. intros Hok Ha. pose proof (seg_bounds _ _ _ _ _ (ok_seg _ _ _ _ _ Hok) a Ha). lia. Qed.

(** An operation that only changes bucket [i] and the links of its list. *)
Lemma ok_set_list X X' h' i l : ok h L bs fin X -> links_only h h' -> 0 <= i < 21 ->
  length (buckets h') = 21%nat ->
  (forall j, 0 <= j < 21 -> j <> i -> (buckets h').[j] = (buckets h).[j]) ->
  (forall j a, 0 <= j < 21 -> j <> i -> a ∈ bs j -> req (blk h' a) = req (blk h a)) ->
  fl (blk h') ((buckets h').[i]) l -> NoDup l ->
  (forall a, (a ∈ l) <-> ((a ∈ L) /\ free (blk h a) = true /\ (a ∉ X') /\ class_for (size (blk h a)) = i)) ->
  (forall a, class_for (size (blk h a)) <> i -> ((a ∉ X) <-> (a ∉ X'))) ->
  ok h' L (set_list bs i l) fin X'.
Proof.
  intros Hok Hlo Hi Hlen Hb Hr Hfl Hnd Hin HX. unfold set_list. split.
  - eapply seg_frame; [|apply (ok_seg _ _ _ _ _ Hok)]. intros a _. by destruct (lo_blk _ _ Hlo a).
  - apply (ok_fin _ _ _ _ _ Hok).
  - rewrite (lo_head _ _ Hlo). apply (ok_head _ _ _ _ _ Hok).
  - done.
  - intros j Hj. destruct (Z.eqb_spec i j) as [<-|Hne]; [done|]. rewrite Hb by lia.
    eapply fl_frame; [|by apply (ok_fl _ _ _ _ _ Hok)]. intros a Ha. apply (Hr j); (done || lia).
  - intros j Hj. destruct (Z.eqb_spec i j); [done|by apply (ok_nd _ _ _ _ _ Hok)].
  - intros j a Hj. destruct (lo_blk _ _ Hlo a) as ((_ & -> & _) & -> & _).
    destruct (Z.eqb_spec i j) as [<-|Hne]; [apply Hin|].
    rewrite (ok_in _ _ _ _ _ Hok j a Hj). split; intros (? & ? & ? & <-); splits; try done; apply (HX a); (done || lia).
Qed.

Lemma pop_ok X i b r : ok h L bs fin X -> 0 <= i < 21 -> bs i = b :: r ->
  exists h1, bucket_pop h i = (h1, b) /\ links_only h h1 /\ ok h1 L (set_list bs i r) fin (b :: X).
Proof.
  intros Hok Hi Hbs. unfold bucket_pop. pose proof (ok_fl _ _ _ _ _ Hok i Hi) as Hfl.
  rewrite Hbs in Hfl. cbn [fl chain] in Hfl. destruct Hfl as (-> & Hb0 & Hfl).
  rewrite (proj2 (Z.eqb_neq _ _) Hb0). eexists. split; [done|]. split; [apply links_only_bucket|].
  pose proof (ok_len _ _ _ _ _ Hok) as Hlen. pose proof (ok_nd _ _ _ _ _ Hok i Hi) as Hnd.
  rewrite Hbs in Hnd. apply NoDup_cons in Hnd as [Hbr Hnd].
  pose proof (proj1 (ok_in _ _ _ _ _ Hok i b Hi) ltac:(rewrite Hbs; by apply elem_of_cons; left)) as (_ & _ & _ & Hbc).
  apply (ok_set_list X).
  - done.
  - apply links_only_bucket.
  - done.
  - cbn. by rewrite length_updZ.
  - intros j Hj Hne. rewrite nthZ_bucket by done. by rewrite (proj2 (Z.eqb_neq i j)) by lia.
  - done.
  - rewrite nthZ_bucket by done. by rewrite Z.eqb_refl.
  - done.
  - intros a. pose proof (ok_in _ _ _ _ _ Hok i a Hi) as Ha. rewrite Hbs in Ha. split.
    + intros Har. destruct (proj1 Ha ltac:(by apply elem_of_cons; right)) as (? & ? & ? & ?). splits; try done.
      rewrite elem_of_cons. intros [->|]; done.
    + intros (? & ? & [Hab Hx]%not_elem_of_cons & ?).
      pose proof (proj2 Ha (conj H (conj H0 (conj Hx H1)))) as [|]%elem_of_cons; done.
  - intros a Ha. rewrite not_elem_of_cons. split; [|by intros [_ ?]].
    intros HaX. split; [by intros ->|exact HaX].
Qed.

Lemma push_ok b X : ok h L bs fin (b :: X) -> b ∈ L -> b ∉ X -> free (blk h b) = true ->
  let h1 := bucket_push h b (class_for (size (blk h b))) in
  links_only h h1 /\ exists bs', ok h1 L bs' fin X.
Proof.
  intros Hok Hb HbX Hf h1. pose proof (class_range (size (blk h b))) as Hi. change NUM_BUCKETS with 21 in Hi.
  set (i := class_for (size (blk h b))) in *.
  assert (Hlo : links_only h h1).
  { eapply links_only_trans; [by apply links_only_req|apply links_only_bucket]. }
  split; [done|]. exists (set_list bs i (b :: bs i)).
  pose proof (ok_len _ _ _ _ _ Hok) as Hlen.
  assert (Hbi : forall j, 0 <= j < 21 -> b ∉ bs j).
  { intros j Hj Hin. apply (ok_in _ _ _ _ _ Hok) in Hin as (_ & _ & Hx & _); [|done]. apply Hx. by apply elem_of_cons; left. }
  assert (Hreq : forall j a, 0 <= j < 21 -> a ∈ bs j -> req (blk h1 a) = req (blk h a)).
  { intros j a Hj Ha. unfold h1, bucket_push.
    change (blk (set_bucket ?k _ _) a) with (blk k a). unfold bfree_set_next. rewrite blk_upd.
    case_decide; [|done]. subst a. by destruct (Hbi j Hj). }
  apply (ok_set_list (b :: X)).
  - done.
  - done.
  - done.
  - unfold h1, bucket_push. cbn. by rewrite length_updZ.
  - intros j Hj Hne. unfold h1, bucket_push. rewrite nthZ_bucket by done. by rewrite (proj2 (Z.eqb_neq i j)) by lia.
  - intros j a Hj _ Ha. by apply (Hreq j).
  - unfold h1 at 2, bucket_push. rewrite nthZ_bucket by done. rewrite Z.eqb_refl. cbn [fl chain].
    split; [done|]. split; [by eapply ok_nonzero|].
    replace (req (blk h1 b)) with ((buckets h).[i]).
    + eapply fl_frame; [|by apply (ok_fl _ _ _ _ _ Hok)]. intros a Ha. by apply (Hreq i).
    + unfold h1, bucket_push. change (blk (set_bucket ?k _ _) b) with (blk k b). unfold bfree_set_next.
      rewrite blk_upd. by rewrite decide_True.
  - constructor; [by apply Hbi|by apply (ok_nd _ _ _ _ _ Hok)].
  - intros a. rewrite elem_of_cons, (ok_in _ _ _ _ _ Hok i a Hi), elem_of_cons. clear Hreq. split.
    + intros [->|(Q1 & Q2 & Q3 & Q4)]; [exact (conj Hb (conj Hf (conj HbX eq_refl)))|].
      exact (conj Q1 (conj Q2 (conj (fun HX => Q3 (or_intror HX)) Q4))).
    + intros (Q1 & Q2 & Q3 & Q4). destruct (decide (a = b)) as [Heq|Hne]; [left; exact Heq|right].
      exact (conj Q1 (conj Q2 (conj (fun HX => match HX with or_introl e => Hne e | or_intror n => Q3 n end) Q4))).
  - intros a Ha. rewrite not_elem_of_cons. split; [by intros [_ ?]|].
    intros HaX. split; [by intros ->|exact HaX].
Qed.
End Ok.

(** ** Unlinking a block *)
Lemma fl_nonzero f l x : fl f x l -> 0 ∉ l.
Proof. apply chain_nonzero. Qed.

Lemma fl_head f x l : fl f x l -> x = hd 0 l.
Proof. apply chain_head. Qed.

Lemma find_pred_none h l : forall x fuel b, fl (blk h) x l -> b ∉ tail l -> b <> 0 ->
  find_pred fuel h x b = 0.
Proof.
  induction l as [|a l IH]; intros x fuel b Hl Hb Hb0; (destruct fuel as [|k]; [done|]); cbn [find_pred fl chain] in *.
  - by subst x.
  - destruct Hl as (-> & Ha & Hl). rewrite (proj2 (Z.eqb_neq a 0) Ha). unfold bfree_next.
    rewrite (proj2 (Z.eqb_neq _ b)).
    + apply IH; [done| |done]. intros Hin. apply Hb. cbn [tail]. destruct l; [done|]. by apply elem_of_cons; right.
    + rewrite (fl_head _ _ _ Hl). intros <-. destruct l as [|c l]; [done|]. apply Hb. cbn. by apply elem_of_cons; left.
Qed.

Lemma find_pred_some h l1 t b l2 : forall x fuel, fl (blk h) x (l1 ++ t :: b :: l2) ->
  NoDup (l1 ++ t :: b :: l2) -> (length (l1 ++ t :: b :: l2) < fuel)%nat -> find_pred fuel h x b = t.
Proof.
  induction l1 as [|a l1 IH]; intros x fuel Hl Hnd Hf; (destruct fuel as [|k]; [lia|]);
    cbn [app find_pred fl chain] in *; destruct Hl as (-> & Ha & Hl).
  - rewrite (proj2 (Z.eqb_neq t 0) Ha). destruct Hl as (E & _). unfold bfree_next. rewrite E.
    by rewrite Z.eqb_refl.
  - rewrite (proj2 (Z.eqb_neq a 0) Ha). apply NoDup_cons in Hnd as [_ Hnd]. unfold bfree_next.
    rewrite (proj2 (Z.eqb_neq _ b)); [apply IH; [done|done|cbn [length] in Hf; lia]|].
    rewrite (fl_head _ _ _ Hl). intros E. destruct l1 as [|c l1]; cbn [app hd] in E; subst.
    + apply NoDup_cons in Hnd as [Hb _]. apply Hb. by apply elem_of_cons; left.
    + apply NoDup_cons in Hnd as [Hb _]. apply Hb. apply elem_of_app. right.
      apply elem_of_cons. right. by apply elem_of_cons; left.
Qed.

Section Unlink.
Context (h : heap) (L : list Z) (bs : Z -> list Z) (fin : Z) (X : list Z).
Hypothesis Hok : ok h L bs fin X.

(** Dropping [b] from the list of its bucket, in the membership clause. *)
Lemma drop_member i (l : list Z) b (l' : list Z) : 0 <= i < 21 -> bs i = l -> NoDup l -> b ∈ l ->
  (forall a, (a ∈ l') <-> ((a ∈ l) /\ a <> b)) ->
  forall a, (a ∈ l') <-> ((a ∈ L) /\ free (blk h a) = true /\ (a ∉ b :: X) /\ class_for (size (blk h a)) = i).
Proof.
  intros Hi Hl Hnd Hb Hin a. rewrite Hin, not_elem_of_cons. subst l. rewrite (ok_in _ _ _ _ _ Hok i a Hi).
  split; [intros ((? & ? & ? & ?) & ?)|intros (? & ? & (? & ?) & ?)]; splits; assumption.
Qed.

Lemma drop_other b i : 0 <= i < 21 -> b ∈ bs i ->
  forall a, class_for (size (blk h a)) <> i -> ((a ∉ X) <-> (a ∉ b :: X)).
Proof.
  intros Hi Hb a Ha. apply (ok_in _ _ _ _ _ Hok) in Hb as (_ & _ & _ & Hc); [|done].
  rewrite not_elem_of_cons. split; [|by intros [_ ?]]. intros HaX. split; [by intros ->|exact HaX].
Qed.

(** Unlinking after [t]. *)
Lemma unlink_ok i l1 t b l2 : 0 <= i < 21 -> bs i = l1 ++ t :: b :: l2 ->
  let h1 := bfree_set_next h t (bfree_next h b) in
  links_only h h1 /\ ok h1 L (set_list bs i (l1 ++ t :: l2)) fin (b :: X).
Proof.
  intros Hi Hbs h1. pose proof (ok_nd _ _ _ _ _ Hok i Hi) as Hnd. rewrite Hbs in Hnd.
  pose proof (ok_fl _ _ _ _ _ Hok i Hi) as Hfl. rewrite Hbs in Hfl.
  assert (Htin : t ∈ bs i) by (rewrite Hbs; apply elem_of_app; right; by apply elem_of_cons; left).
  assert (Hbin : b ∈ bs i).
  { rewrite Hbs. apply elem_of_app. right. apply elem_of_cons. right. by apply elem_of_cons; left. }
  assert (Hlo : links_only h h1).
  { apply links_only_req. by apply (ok_in _ _ _ _ _ Hok) in Htin as (_ & ? & _). }
  split; [exact Hlo|].
  assert (Hsub : NoDup (l1 ++ t :: l2)).
  { apply NoDup_app in Hnd as (N1 & N2 & N3). apply NoDup_cons in N3 as [N3 N4].
    apply NoDup_cons in N4 as [N4 N5]. apply NoDup_app. split; [exact N1|]. split.
    - intros a Ha Hin. apply (N2 a Ha). apply elem_of_cons in Hin as [->|Hin]; [by apply elem_of_cons; left|].
      apply elem_of_cons. right. by apply elem_of_cons; right.
    - apply NoDup_cons. split; [|exact N5]. intros Hin. apply N3. by apply elem_of_cons; right. }
  assert (Hreq : forall a, a <> t -> req (blk h1 a) = req (blk h a)).
  { intros a Hat. unfold h1, bfree_set_next. rewrite blk_upd. by rewrite decide_False. }
  assert (Hmem : forall a, (a ∈ l1 ++ t :: l2) <-> ((a ∈ l1 ++ t :: b :: l2) /\ a <> b)).
  { intros a. rewrite !elem_of_app, !elem_of_cons. split.
    - intros Ha. assert (Hab : a <> b).
      { intros ->. apply NoDup_app in Hnd as (N1 & N2 & N3). apply NoDup_cons in N3 as [N3 N4].
        apply NoDup_cons in N4 as [N4 _]. destruct Ha as [Ha|[Ha|Ha]].
        - apply (N2 b Ha). apply elem_of_cons. right. by apply elem_of_cons; left.
        - apply N3. subst. by apply elem_of_cons; left.
        - by apply N4. }
      split; [|exact Hab]. destruct Ha as [?|[?|?]]; [by left|right; by left|right; right; by right].
    - intros ([?|[?|[?|?]]] & ?); [by left|right; by left|done|right; by right]. }
  apply (ok_set_list h L bs fin X).
  - exact Hok.
  - exact Hlo.
  - exact Hi.
  - apply (ok_len _ _ _ _ _ Hok).
  - done.
  - intros j a Hj Hne Ha. apply Hreq. intros ->. apply Hne.
    apply (ok_in _ _ _ _ _ Hok) in Ha as (_ & _ & _ & <-); [|exact Hj].
    by apply (ok_in _ _ _ _ _ Hok) in Htin as (_ & _ & _ & <-).
  - apply (chain_unlink (fun a => req (blk h a)) (fun a => req (blk h1 a)) l1 t b l2); [exact Hfl| |].
    + unfold h1, bfree_set_next. rewrite blk_upd. by rewrite decide_True.
    + intros a Ha. apply Hreq. intros ->. apply NoDup_app in Hsub as (_ & N2 & N3).
      apply NoDup_cons in N3 as [N3 _]. apply elem_of_app in Ha as [Ha|Ha]; [|by apply N3].
      apply (N2 t Ha). by apply elem_of_cons; left.
  - exact Hsub.
  - apply (drop_member i (l1 ++ t :: b :: l2) b); [exact Hi|exact Hbs|exact Hnd|by rewrite <- Hbs|exact Hmem].
  - apply drop_other; assumption.
Qed.

Lemma elem_split (b : Z) l : b ∈ l -> l = b :: tail l \/ exists l1 t l2, l = l1 ++ t :: b :: l2.
Proof.
  intros Hb. apply list_elem_of_split in Hb as (l1 & l2 & ->).
  destruct (decide (l1 = [])) as [->|Hne]; [by left|right].
  destruct (exists_last Hne) as (l0 & t & ->). exists l0, t, l2. by rewrite <- app_assoc.
Qed.

Lemma remove_from_ok b i0 n : forall i, b ∈ bs i0 -> 0 <= i <= i0 -> i0 < 21 -> i0 < i + Z.of_nat n ->
  let h1 := remove_from n h i b in
  links_only h h1 /\ exists bs', ok h1 L bs' fin (b :: X).
Proof.
  induction n as [|n IH]; intros i Hb Hi Hi0 Hn; [lia|]. cbv zeta. cbn [remove_from].
  assert (Hb0 : b <> 0).
  { apply (ok_in _ _ _ _ _ Hok) in Hb as (Hb & _); [|lia]. by eapply ok_nonzero. }
  destruct (Z.eq_dec i i0) as [->|Hne].
  - pose proof (ok_fl _ _ _ _ _ Hok i0 ltac:(lia)) as Hfl.
    destruct (elem_split b (bs i0) Hb) as [E|(l1 & t & l2 & E)].
    + rewrite E in Hfl. cbn [fl chain] in Hfl. destruct Hfl as (Ehd & _). rewrite Ehd, Z.eqb_refl.
      destruct (pop_ok h L bs fin X i0 b (tail (bs i0)) Hok ltac:(lia) E) as (h1 & Ep & Hlo & Ho).
      unfold bucket_pop in Ep. rewrite Ehd, (proj2 (Z.eqb_neq b 0) Hb0) in Ep. injection Ep as <-.
      split; [exact Hlo|eexists; exact Ho].
    + assert (Hx : (buckets h).[i0] <> b).
      { intros Ex. rewrite E in Hfl. pose proof (ok_nd _ _ _ _ _ Hok i0 ltac:(lia)) as Hnd. rewrite E in Hnd.
        apply fl_head in Hfl. rewrite Ex in Hfl. destruct l1 as [|c l1]; cbn [app hd] in *; subst.
        - apply NoDup_cons in Hnd as [Hnd _]. apply Hnd. by apply elem_of_cons; left.
        - apply NoDup_cons in Hnd as [Hnd _]. apply Hnd. apply elem_of_app. right. apply elem_of_cons. right.
          by apply elem_of_cons; left. }
      rewrite (proj2 (Z.eqb_neq _ b) Hx).
      pose proof (ok_fits h L bs fin X i0 Hok ltac:(lia)) as Hfit.
      pose proof (ok_nd _ _ _ _ _ Hok i0 ltac:(lia)) as Hnd. rewrite E in Hfl, Hfit, Hnd.
      rewrite (find_pred_some h l1 t b l2 _ _ Hfl Hnd Hfit).
      assert (Ht0 : t <> 0).
      { intros ->. apply (fl_nonzero _ _ _ Hfl). apply elem_of_app. right. by apply elem_of_cons; left. }
      rewrite (proj2 (Z.eqb_neq t 0) Ht0).
      destruct (unlink_ok i0 l1 t b l2 ltac:(lia) E) as [Hlo Ho]. split; [exact Hlo|eexists; exact Ho].
  - pose proof (ok_fl _ _ _ _ _ Hok i ltac:(lia)) as Hfl.
    assert (Hnin : b ∉ bs i).
    { intros Hin. apply Hne. apply (ok_in _ _ _ _ _ Hok) in Hin as (_ & _ & _ & <-); [|lia].
      by apply (ok_in _ _ _ _ _ Hok) in Hb as (_ & _ & _ & <-); [|lia]. }
    rewrite (proj2 (Z.eqb_neq _ b)).
    + rewrite (find_pred_none h (bs i)); [|exact Hfl| |exact Hb0].
      * rewrite Z.eqb_refl. apply IH; [exact Hb|lia|lia|lia].
      * intros Hin. apply Hnin. destruct (bs i); [done|]. by apply elem_of_cons; right.
    + rewrite (fl_head _ _ _ Hfl). intros <-. apply Hnin. destruct (bs i); [done|].
      by apply elem_of_cons; left.
Qed.

Lemma bucket_remove_ok b : b ∈ L -> free (blk h b) = true -> b ∉ X ->
  let h1 := bucket_remove h b in
  links_only h h1 /\ exists bs', ok h1 L bs' fin (b :: X).
Proof.
  intros Hb Hf HX. pose proof (class_range (size (blk h b))) as Hr. change NUM_BUCKETS with 21 in Hr.
  apply (remove_from_ok b (class_for (size (blk h b)))); [|lia|lia|change (Z.of_nat (Z.to_nat NUM_BUCKETS)) with 21; lia].
  apply (ok_in _ _ _ _ _ Hok); [exact Hr|]. exact (conj Hb (conj Hf (conj HX eq_refl))).
Qed.
End Unlink.

(** ** Choosing a block *)
(** What a search of the free lists gives: nothing, or a held free block with
    room. *)
Definition found (h : heap) (L : list Z) (fin n : Z) (r : heap * Z) : Prop :=
  links_only h (fst r) /\
  if snd r =? 0 then exists bs', ok (fst r) L bs' fin []
  else (snd r ∈ L) /\ free (blk (fst r) (snd r)) = true /\ n <= size (blk (fst r) (snd r)) /\
       exists bs', ok (fst r) L bs' fin [snd r].

Lemma found_trans h h1 L fin n r : links_only h h1 -> found h1 L fin n r -> found h L fin n r.
Proof. intros Hlo [H1 H2]. split; [by eapply links_only_trans|exact H2]. Qed.

Lemma last_of_cons_app (x : Z) l a : last_of x (l ++ [a]) = a.
Proof. apply last_of_app. Qed.

Lemma scan_huge_ok h L bs fin n : ok h L bs fin [] -> forall l2 l1 fuel,
  bs 20 = l1 ++ l2 -> (length l2 < fuel)%nat ->
  found h L fin n (scan_huge fuel h (last_of 0 l1) (hd 0 l2) n).
Proof.
  intros Hok. induction l2 as [|b l2 IH]; intros l1 fuel Hbs Hf; (destruct fuel as [|k]; [cbn [length] in Hf; lia|]);
    cbn [scan_huge hd].
  - rewrite Z.eqb_refl. split; [apply links_only_refl|]. cbn [fst snd]. by exists bs.
  - assert (Hb : b ∈ bs 20) by (rewrite Hbs; apply elem_of_app; right; by apply elem_of_cons; left).
    pose proof (proj1 (ok_in _ _ _ _ _ Hok 20 b ltac:(lia)) Hb) as (HbL & Hbf & _ & _).
    pose proof (ok_nonzero _ _ _ _ _ b Hok HbL) as Hb0. rewrite (proj2 (Z.eqb_neq b 0) Hb0).
    pose proof (ok_fl _ _ _ _ _ Hok 20 ltac:(lia)) as Hfl. rewrite Hbs in Hfl.
    destruct (n <=? size (blk h b)) eqn:Esz; zbool.
    + assert (Hfin : forall h1, links_only h h1 -> (exists bs', ok h1 L bs' fin [b]) -> found h L fin n (h1, b)).
      { intros h1 Hlo Hex. split; [exact Hlo|]. cbn [fst snd]. rewrite (proj2 (Z.eqb_neq b 0) Hb0).
        destruct (lo_blk _ _ Hlo b) as ((_ & Es & _) & Ef & _). rewrite Es, Ef. exact (conj HbL (conj Hbf (conj Esz Hex))). }
      destruct (decide (l1 = [])) as [->|Hne].
      * cbn [last_of]. rewrite Z.eqb_refl. apply Hfin.
        -- apply links_only_bucket.
        -- destruct (pop_ok h L bs fin [] 20 b l2 Hok ltac:(lia) Hbs) as (h1 & Ep & Hlo & Ho).
           unfold bucket_pop in Ep. cbn [app fl chain] in Hfl. destruct Hfl as (Ehd & _).
           rewrite Ehd, (proj2 (Z.eqb_neq b 0) Hb0) in Ep. injection Ep as <-. eexists. exact Ho.
      * destruct (exists_last Hne) as (l0 & t & ->). rewrite last_of_app.
        assert (Ht0 : t <> 0).
        { intros ->. apply (fl_nonzero _ _ _ Hfl). apply elem_of_app. left. apply elem_of_app. right.
          by apply elem_of_cons; left. }
        rewrite (proj2 (Z.eqb_neq t 0) Ht0). rewrite <- app_assoc in Hbs.
        destruct (unlink_ok h L bs fin [] Hok 20 l0 t b l2 ltac:(lia) Hbs) as [Hlo Ho].
        apply Hfin; [exact Hlo|eexists; exact Ho].
    + replace (bfree_next h b) with (hd 0 l2).
      * replace b with (last_of 0 (l1 ++ [b])) at 1 by apply last_of_app.
        apply IH; [by rewrite <- app_assoc|cbn [length] in Hf; lia].
      * symmetry. exact (chain_next _ _ _ _ _ Hfl).
Qed.

Lemma scan_small_ok k L fin n : forall h bs i, ok h L bs fin [] -> 0 <= i -> i + Z.of_nat k <= 21 ->
  found h L fin n (scan_small k h i n).
Proof.
  induction k as [|k IH]; intros h bs i Hok Hi Hk; cbn [scan_small].
  - split; [apply links_only_refl|]. cbn [fst snd]. by exists bs.
  - pose proof (ok_fl _ _ _ _ _ Hok i ltac:(lia)) as Hfl.
    destruct (bs i) as [|b r] eqn:Ebs; cbn [fl chain] in Hfl.
    + rewrite Hfl, Z.eqb_refl. apply (IH h bs); [exact Hok|lia|lia].
    + destruct Hfl as (Ehd & Hb0 & _). rewrite Ehd, (proj2 (Z.eqb_neq b 0) Hb0).
      destruct (pop_ok h L bs fin [] i b r Hok ltac:(lia) Ebs) as (h1 & Ep & Hlo & Ho). rewrite Ep.
      pose proof (proj1 (ok_in _ _ _ _ _ Hok i b ltac:(lia)) ltac:(rewrite Ebs; by apply elem_of_cons; left))
        as (HbL & Hbf & _ & _).
      destruct (lo_blk _ _ Hlo b) as (_ & Ef & _). rewrite Hbf in Ef.
      destruct (n <=? size (blk h1 b)) eqn:Esz; zbool.
      * split; [exact Hlo|]. cbn [fst snd]. rewrite (proj2 (Z.eqb_neq b 0) Hb0).
        exact (conj HbL (conj Ef (conj Esz (ex_intro _ _ Ho)))).
      * destruct (push_ok h1 L _ fin b [] Ho HbL ltac:(apply not_elem_of_nil) Ef) as (Hlo2 & bs' & Ho2).
        eapply found_trans; [eapply links_only_trans; [exact Hlo|exact Hlo2]|].
        apply (IH _ bs'); [exact Ho2|lia|lia].
Qed.

Lemma alloc_from_class_ok h L bs fin n : ok h L bs fin [] -> found h L fin n (alloc_from_class h n).
Proof.
  intros Hok. unfold alloc_from_class. pose proof (class_range n) as Hr.
  change NUM_BUCKETS with 21 in Hr. change NUM_CLASSES with 20.
  set (r := if class_for n <? 20 then _ else _).
  assert (Hr1 : found h L fin n r).
  { unfold r. case_ifZ; [apply (scan_small_ok _ _ _ _ _ bs); [exact Hok|lia|lia]|].
    split; [apply links_only_refl|]. cbn [fst snd]. by exists bs. }
  clearbody r. destruct r as [h1 b]. destruct Hr1 as [Hlo Hres]. cbn [fst snd] in *.
  destruct (b =? 0) eqn:Eb.
  - destruct Hres as (bs1 & Ho). eapply found_trans; [exact Hlo|].
    pose proof (ok_fl _ _ _ _ _ Ho 20 ltac:(lia)) as Hfl. change HUGE_CLASS with 20.
    rewrite (fl_head _ _ _ Hfl). apply (scan_huge_ok h1 L bs1 fin n Ho (bs1 20) []); [done|].
    by apply (ok_fits h1 L bs1 fin []); [|lia].
  - split; [exact Hlo|]. cbn [fst snd]. by rewrite Eb.
Qed.

(** * Allocation and release *)
(** The allocated blocks: their capacity and the size asked for. *)
Definition live (h : heap) (L : list Z) (a : Z) : option (Z * Z) :=
  if decide (a ∈ L) then if free (blk h a) then None else Some (size (blk h a), req (blk h a)) else None.

Lemma live_links_only h h' L a : links_only h h' -> live h' L a = live h L a.
Proof.
  intros Hlo. unfold live. destruct (lo_blk _ _ Hlo a) as ((_ & -> & _) & -> & Hr).
  destruct (free (blk h a)); [done|]. by rewrite Hr.
Qed.

(** Moving the invariant to another list of blocks with the same free lists. *)
Lemma ok_change h h' (L L' : list Z) bs fin (X X' : list Z) : ok h L bs fin X -> buckets h' = buckets h ->
  seg (blk h') 0 L' 0 fin -> head h' = hd 0 L' ->
  (forall i a, 0 <= i < 21 -> a ∈ bs i -> req (blk h' a) = req (blk h a)) ->
  (forall a i, ((a ∈ L) /\ free (blk h a) = true /\ (a ∉ X) /\ class_for (size (blk h a)) = i) <->
             ((a ∈ L') /\ free (blk h' a) = true /\ (a ∉ X') /\ class_for (size (blk h' a)) = i)) ->
  ok h' L' bs fin X'.
Proof.
  intros Hok Hb Hs Hh Hr Hin. split.
  - exact Hs.
  - apply (ok_fin _ _ _ _ _ Hok).
  - exact Hh.
  - rewrite Hb. apply (ok_len _ _ _ _ _ Hok).
  - intros i Hi. rewrite Hb. eapply fl_frame; [|by apply (ok_fl _ _ _ _ _ Hok)]. intros a Ha. by apply (Hr i).
  - apply (ok_nd _ _ _ _ _ Hok).
  - intros i a Hi. rewrite (ok_in _ _ _ _ _ Hok i a Hi). apply Hin.
Qed.

(** Changing the flag and the link field of one block that is on no list. *)
Lemma ok_flag h h' L bs fin (X X' : list Z) b fr rq : ok h L bs fin X -> b ∈ L ->
  buckets h' = buckets h -> head h' = head h ->
  (forall x, blk h' x = if decide (x = b) then set_req rq (set_free fr (blk h b)) else blk h x) ->
  (forall i, 0 <= i < 21 -> b ∉ bs i) ->
  (forall a, a <> b -> ((a ∉ X) <-> (a ∉ X'))) -> (fr = true -> b ∈ X') ->
  ok h' L bs fin X'.
Proof.
  intros Hok HbL Hbk Hh Hf Hb HX Hfr. apply (ok_change h h' L L bs fin X X'); [exact Hok|exact Hbk| | | |].
  - eapply seg_frame; [|apply (ok_seg _ _ _ _ _ Hok)]. intros a _. rewrite Hf. by case_decide; [subst|].
  - rewrite Hh. apply (ok_head _ _ _ _ _ Hok).
  - intros i a Hi Ha. rewrite Hf. case_decide; [|done]. subst a. by destruct (Hb i Hi).
  - intros a i. rewrite Hf. case_decide as E.
    + subst a. cbn [set_req set_free free size]. split.
      * intros (Q1 & Q2 & Q3 & Q4). destruct (Hb i).
        -- rewrite <- Q4. apply class_range.
        -- apply (ok_in _ _ _ _ _ Hok); [rewrite <- Q4; apply class_range|]. exact (conj Q1 (conj Q2 (conj Q3 Q4))).
      * intros (Q1 & Q2 & Q3 & Q4). destruct (Q3 (Hfr Q2)).
    + rewrite (HX a E). reflexivity.
Qed.

Lemma not_in_lists h L bs fin X b : ok h L bs fin X -> (b ∈ X \/ free (blk h b) = false) ->
  forall i, 0 <= i < 21 -> b ∉ bs i.
Proof.
  intros Hok Hb i Hi Hin. apply (ok_in _ _ _ _ _ Hok) in Hin as (_ & Hf & HX & _); [|exact Hi].
  destruct Hb as [Hb|Hb]; [exact (HX Hb)|congruence].
Qed.

Lemma set_flag_blk h b fr rq x :
  blk (upd (upd h b (set_free fr)) b (set_req rq)) x
  = if decide (x = b) then set_req rq (set_free fr (blk h b)) else blk h x.
Proof. rewrite !blk_upd. case_decide; [|done]. by rewrite decide_True. Qed.

(** ** Splitting *)
Lemma split_blk h b want : let v := blk h b in let n := b + sizeof_block + want + CANARY_BYTES in
  n <> b -> n <> next v -> next v <> b -> forall x,
  blk (upd (upd (let h := upd h n (fun _ => Block HEAP_MAGIC
                   (u64 (size v - want - sizeof_block - CANARY_BYTES)) 0 true (next v) b) in
                 if next v =? 0 then h else upd h (next v) (set_prev n)) b (set_next n)) b (set_size want)) x
  = if decide (x = b) then set_size want (set_next n v)
    else if decide (x = n) then Block HEAP_MAGIC (u64 (size v - want - sizeof_block - CANARY_BYTES)) 0 true (next v) b
    else if decide (x = next v /\ next v <> 0) then set_prev n (blk h x) else blk h x.
Proof.
  cbv zeta. set (n := b + sizeof_block + want + CANARY_BYTES). set (v := blk h b). intros H1 H2 H3 x.
  assert (Hin : forall y, blk (if next v =? 0
      then upd h n (fun _ => Block HEAP_MAGIC (u64 (size v - want - sizeof_block - CANARY_BYTES)) 0 true (next v) b)
      else upd (upd h n (fun _ => Block HEAP_MAGIC (u64 (size v - want - sizeof_block - CANARY_BYTES)) 0 true (next v) b))
             (next v) (set_prev n)) y
    = if decide (y = n) then Block HEAP_MAGIC (u64 (size v - want - sizeof_block - CANARY_BYTES)) 0 true (next v) b
      else if decide (y = next v /\ next v <> 0) then set_prev n (blk h y) else blk h y).
  { intros y. destruct (Z.eqb_spec (next v) 0) as [E|E].
    - rewrite blk_upd. case_decide; [done|]. rewrite decide_False by (intros [? ?]; congruence). done.
    - rewrite blk_upd. destruct (decide (y = next v)) as [Ey|Ey].
      + rewrite (decide_False (P := y = n)) by congruence. rewrite decide_True by done. subst y.
        rewrite blk_upd. by rewrite decide_False by congruence.
      + rewrite blk_upd. case_decide; [done|]. rewrite decide_False by (intros [? ?]; congruence). done. }
  rewrite blk_upd. destruct (decide (x = b)) as [Ex|Ex].
  - rewrite blk_upd, (decide_True (P := b = b)) by done. rewrite Hin. rewrite (decide_False (P := b = n)) by congruence.
    rewrite (decide_False (P := b = next v /\ _)) by (intros [? ?]; congruence). done.
  - rewrite blk_upd, (decide_False (P := x = b)) by done. apply Hin.
Qed.

Lemma split_ok h L bs fin b want : ok h L bs fin [b] -> b ∈ L -> free (blk h b) = true ->
  0 < want <= size (blk h b) -> (16 | want) ->
  let '(h1, rem) := split h b want in
  buckets h1 = buckets h /\ words h1 = words h /\ g_stats h1 = g_stats h /\
  g_heap_bad_frees h1 = g_heap_bad_frees h /\
  ((rem = 0 /\ h1 = h) \/
   (exists l1 l2, L = l1 ++ b :: l2 /\ rem <> b /\ (rem ∉ L) /\ free (blk h1 rem) = true /\
      free (blk h1 b) = true /\ size (blk h1 b) = want /\
      (forall x, x ∈ L -> x <> b -> size (blk h1 x) = size (blk h x) /\ free (blk h1 x) = free (blk h x) /\
                          req (blk h1 x) = req (blk h x)) /\
      rem <> 0 /\ ok h1 (l1 ++ b :: rem :: l2) bs fin [rem; b])).
Proof.
  intros Hok HbL Hbf Hw H16. pose proof (seg_bounds _ _ _ _ _ (ok_seg _ _ _ _ _ Hok) b HbL) as (_ & Hbd & Hb4 & _).
  pose proof (ok_fin _ _ _ _ _ Hok) as Hfin.
  apply list_elem_of_split in HbL as HL. destruct HL as (l1 & l2 & EL).
  pose proof (ok_seg _ _ _ _ _ Hok) as Hseg. rewrite EL in Hseg.
  destruct (seg_neighbours _ _ _ _ _ _ _ Hseg) as (Enx & Epv & Eend).
  pose proof (seg_NoDup _ _ _ _ _ Hseg) as Hnd.
  unfold split. change sizeof_block with 48. change CANARY_BYTES with 16.
  set (v := blk h b) in *. set (n := b + 48 + want + 16).
  rewrite (u64_small (want + 48 + 16 + 32)) by lia.
  destruct (size v <? want + 48 + 16 + 32) eqn:Esz; zbool; [splits; try done; by left|].
  assert (Hl2 : forall a, a ∈ l2 -> b + 64 + size v <= a).
  { intros a Ha. destruct l2 as [|c l2]; [by apply not_elem_of_nil in Ha|]. cbn [hd] in Eend.
    apply seg_app in Hseg as [_ Hseg]. cbn [seg] in Hseg.
    destruct Hseg as (_ & _ & _ & _ & _ & _ & _ & Hc).
    pose proof (seg_bounds _ (c :: l2) _ _ _ Hc a Ha). cbn [hd] in *. lia. }
  assert (Hnx : next v = 0 \/ (b + 64 + size v <= next v)).
  { rewrite Enx. destruct l2 as [|c l2]; [by left|right]. apply Hl2. by apply elem_of_cons; left. }
  assert (HnL : n ∉ L).
  { intros Hin. assert (Hnb : n <> b) by (unfold n; lia).
    pose proof (seg_disjoint _ _ _ _ _ (ok_seg _ _ _ _ _ Hok) n b Hin HbL Hnb) as Hd.
    pose proof (seg_bounds _ _ _ _ _ (ok_seg _ _ _ _ _ Hok) n Hin). fold v in Hd. unfold n in *. lia. }
  pose proof (split_blk h b want) as Hf. cbv zeta in Hf. change sizeof_block with 48 in Hf.
  change CANARY_BYTES with 16 in Hf. fold v n in Hf.
  specialize (Hf ltac:(unfold n; lia) ltac:(unfold n; lia) ltac:(lia)).
  rewrite (u64_small (size v - want - 48 - 16)) in * by lia.
  set (h1 := upd (upd _ b (set_next n)) b (set_size want)) in *.
  assert (Hrest : buckets h1 = buckets h /\ words h1 = words h /\ g_stats h1 = g_stats h /\
    g_heap_bad_frees h1 = g_heap_bad_frees h /\ head h1 = head h) by (unfold h1; by case_ifZ).
  clearbody h1. destruct Hrest as (R1 & R2 & R3 & R4 & R5). splits; try done. right. exists l1, l2.
  assert (Hn0 : n <> 0) by (unfold n; lia).
  assert (Hother : forall x, x ∈ L -> x <> b -> size (blk h1 x) = size (blk h x) /\ free (blk h1 x) = free (blk h x) /\
      req (blk h1 x) = req (blk h x) /\ magic (blk h1 x) = magic (blk h x) /\ next (blk h1 x) = next (blk h x)).
  { intros x Hx Hxb. rewrite Hf, decide_False by done. rewrite decide_False by (intros ->; exact (HnL Hx)).
    destruct (decide (x = next v /\ next v <> 0)); splits; reflexivity. }
  assert (Hfb : blk h1 b = set_size want (set_next n v)) by (rewrite Hf; by rewrite decide_True).
  assert (Hfn : blk h1 n = Block HEAP_MAGIC (size v - want - 48 - 16) 0 true (next v) b).
  { rewrite Hf, decide_False by (unfold n; lia). by rewrite decide_True. }
  splits; try done.
  - unfold n. lia.
  - by rewrite Hfn.
  - by rewrite Hfb.
  - by rewrite Hfb.
  - intros x Hx Hxb. destruct (Hother x Hx Hxb) as (? & ? & ? & _). done.
  - assert (Hl1 : forall x, x ∈ l1 -> x ∈ L /\ x <> b).
    { intros x Hx. split; [rewrite EL; apply elem_of_app; by left|]. intros ->.
      apply NoDup_app in Hnd as (_ & N2 & _). apply (N2 b Hx). by apply elem_of_cons; left. }
    assert (Hl2' : forall x, x ∈ l2 -> x ∈ L /\ x <> b).
    { intros x Hx. split; [rewrite EL; apply elem_of_app; right; by apply elem_of_cons; right|].
      pose proof (Hl2 x Hx). lia. }
    assert (Hprev : forall x, x ∈ L -> x <> b -> x <> next v -> prev (blk h1 x) = prev (blk h x)).
    { intros x Hx Hxb Hxn. rewrite Hf, decide_False by done. rewrite decide_False by (intros ->; exact (HnL Hx)).
      by rewrite decide_False by (intros [Q _]; exact (Hxn Q)). }
    apply (ok_change h h1 L _ bs fin [b] [n; b]); [exact Hok|exact R1| | | |].
    + assert (Hl1s : forall x, x ∈ l1 -> same_links (blk h x) (blk h1 x)).
      { intros x Hx. destruct (Hl1 x Hx) as [HxL Hxb]. destruct (Hother x HxL Hxb) as (A1 & _ & _ & A4 & A5).
        split; [exact A4|]. split; [exact A1|]. split; [exact A5|]. apply Hprev; [done..|].
        intros ->. destruct Hnx as [E0|E0].
        - exact (ok_nonzero _ _ _ _ _ _ Hok HxL E0).
        - rewrite Enx in Hx. destruct l2 as [|c l2]; [cbn [hd] in Enx; fold v in Enx, E0; lia|]. cbn [hd] in Hx.
          apply NoDup_app in Hnd as (_ & N2 & _). apply (N2 c Hx). apply elem_of_cons. right. by apply elem_of_cons; left. }
      apply (seg_split (blk h) (blk h1) l1 b n l2 want fin Hseg); rewrite ?Hfb, ?Hfn; try done;
        try (unfold n; fold v; cbn [size]; lia).
      * intros x Hx. destruct (Hl2' x Hx) as [HxL Hxb]. destruct (Hother x HxL Hxb) as (A1 & _ & _ & A4 & A5). done.
      * intros x Hx. destruct l2 as [|c l2]; [by apply not_elem_of_nil in Hx|]. cbn [tail] in Hx.
        destruct (Hl2' x ltac:(by apply elem_of_cons; right)) as [HxL Hxb]. apply Hprev; [done..|].
        rewrite Enx. cbn [hd]. intros ->. apply NoDup_app in Hnd as (_ & _ & N3).
        apply NoDup_cons in N3 as [_ N3]. by apply NoDup_cons in N3 as [N3 _].
      * intros Hne. destruct l2 as [|c l2]; [done|]. cbn [hd] in *.
        destruct (Hl2' c ltac:(by apply elem_of_cons; left)) as [HcL Hcb].
        rewrite Hf, decide_False by done. rewrite decide_False by (intros ->; exact (HnL HcL)).
        rewrite Enx. rewrite decide_True; [done|]. split; [done|]. rewrite <- Enx.
        pose proof (ok_nonzero _ _ _ _ _ _ Hok HcL). congruence.
    + rewrite R5, (ok_head _ _ _ _ _ Hok), EL. by destruct l1.
    + intros i a Hi Ha. assert (HaL : a ∈ L /\ a <> b).
      { pose proof (proj1 (ok_in _ _ _ _ _ Hok i a Hi) Ha) as (Q1 & _ & Q3 & _). split; [exact Q1|].
        intros ->. apply Q3. by apply elem_of_cons; left. }
      destruct HaL as [Q1 Q2]. apply (Hother a Q1 Q2).
    + intros a i. assert (HaL' : (a ∈ l1 ++ b :: n :: l2) <-> ((a ∈ L) \/ a = n)).
      { rewrite EL, !elem_of_app, !elem_of_cons. clear. split.
        - intros [?|[?|[?|?]]]; auto.
        - intros [[?|[?|?]]|?]; auto. }
      rewrite HaL', !not_elem_of_cons. split.
      * intros (Q1 & Q2 & (Q3 & Q4) & Q5). destruct (Hother a Q1 Q3) as (-> & -> & _).
        split; [by left|]. split; [exact Q2|]. split; [|exact Q5]. split; [congruence|by split].
      * intros (Q1 & Q2 & (Q3 & Q4 & Q6) & Q5). destruct Q1 as [Q1|Q1]; [|done].
        destruct (Hother a Q1 Q4) as (E1 & E2 & _). rewrite E1 in Q5. rewrite E2 in Q2.
        split; [exact Q1|]. split; [exact Q2|]. split; [by split|exact Q5].
Qed.

(** ** Taking a block *)
Lemma live_None h L a : (a ∉ L) \/ free (blk h a) = true -> live h L a = None.
Proof. intros [Ha|Ha]; unfold live; [by rewrite decide_False|rewrite Ha; by case_decide]. Qed.

Lemma live_eq h h' L L' a : ((a ∈ L) <-> (a ∈ L')) -> size (blk h' a) = size (blk h a) ->
  free (blk h' a) = free (blk h a) -> req (blk h' a) = req (blk h a) -> live h' L' a = live h L a.
Proof.
  intros HL E1 E2 E3. unfold live. rewrite E1, E2, E3.
  destruct (decide (a ∈ L)) as [Q|Q]; destruct (decide (a ∈ L')) as [Q'|Q']; [done| | |done].
  - destruct (Q' (proj1 HL Q)).
  - destruct (Q (proj2 HL Q')).
Qed.

(** The last steps of an allocation: marking [b]. *)
Definition mark_block (h : heap) (b n ci : Z) : heap :=
  let h := upd h b (set_free false) in
  let h := upd h b (set_req n) in
  let h := set_words h (<[canary_of h b := HEAP_CANARY]> (words h)) in
  set_stats h (count_alloc (g_stats h) ci n).

(** What taking [b] for [n] bytes gives, from blocks [L]. *)
Definition taken (h : heap) (L : list Z) (fin b n : Z) (h' : heap) : Prop :=
  exists L' bs' sz, ok h' L' bs' fin [] /\ live h' L' b = Some (sz, n) /\ n <= sz < n + 96 /\
    (forall a, a <> b -> live h' L' a = live h L a) /\
    words h' = <[payload b + n := HEAP_CANARY]> (words h) /\ g_heap_bad_frees h' = g_heap_bad_frees h.

Lemma mark_block_ok h L bs fin b n ci : ok h L bs fin [b] -> b ∈ L -> n <= size (blk h b) < n + 96 ->
  taken h L fin b n (mark_block h b n ci).
Proof.
  intros Hok HbL Hn. set (h' := mark_block h b n ci).
  assert (Hf : forall x, blk h' x = if decide (x = b) then set_req n (set_free false (blk h b)) else blk h x).
  { intros x. unfold h', mark_block. change (blk (set_stats (set_words ?k _) _) x) with (blk k x). apply set_flag_blk. }
  assert (Hb : blk h' b = set_req n (set_free false (blk h b))) by (rewrite Hf; by rewrite decide_True).
  exists L, bs, (size (blk h b)). splits; try lia.
  - apply (ok_flag h h' L bs fin [b] [] b false n); [exact Hok|exact HbL|done|done|exact Hf| | |done].
    + apply (not_in_lists h L bs fin [b] b Hok). left. by apply elem_of_cons; left.
    + intros a Ha. rewrite not_elem_of_cons. split; [intros _; apply not_elem_of_nil|intros _; by split; [|apply not_elem_of_nil]].
  - unfold live. rewrite decide_True by exact HbL. by rewrite Hb.
  - intros a Ha. apply live_eq; [done|..]; rewrite Hf; by rewrite decide_False.
  - unfold h', mark_block. change (words (set_stats (set_words ?k ?w) _)) with w. unfold canary_of.
    rewrite blk_upd, decide_True by done. reflexivity.
  - reflexivity.
Qed.

Lemma take_block_eq h b n ci : take_block h b n ci =
  let '(h1, rem) := split h b n in
  (mark_block (if rem =? 0 then h1 else bucket_push h1 rem (class_for (size (blk h1 rem)))) b n ci, payload b).
Proof. unfold take_block, mark_block. by destruct (split h b n). Qed.

Lemma u64_le x : 0 <= x -> u64 x <= x.
Proof. intros Hx. unfold u64. apply Z.mod_le; lia. Qed.

Lemma split_zero h b n : snd (split h b n) = 0 -> b + 64 + n <> 0 -> size (blk h b) < u64 (n + 96).
Proof.
  unfold split. change sizeof_block with 48. change CANARY_BYTES with 16.
  replace (n + 48 + 16 + 32) with (n + 96) by lia. case_ifZ; [done|]. cbn [snd]. lia.
Qed.

Lemma mem_insert (a b r : Z) l1 l2 : a <> r -> (a ∈ l1 ++ b :: l2) <-> (a ∈ l1 ++ b :: r :: l2).
Proof.
  intros Ha. rewrite !elem_of_app, !elem_of_cons. split.
  - intros [?|[?|?]]; [by left|right; by left|right; right; by right].
  - intros [?|[?|[?|?]]]; [by left|right; by left|done|right; by right].
Qed.

Lemma take_block_ok h L bs fin b n ci : ok h L bs fin [b] -> b ∈ L -> free (blk h b) = true ->
  0 < n <= size (blk h b) -> (16 | n) ->
  snd (take_block h b n ci) = payload b /\ taken h L fin b n (fst (take_block h b n ci)).
Proof.
  intros Hok HbL Hbf Hn H16. pose proof (split_ok h L bs fin b n Hok HbL Hbf Hn H16) as Hsp.
  pose proof (seg_bounds _ _ _ _ _ (ok_seg _ _ _ _ _ Hok) b HbL) as (_ & Hbd & Hb4 & _).
  pose proof (ok_fin _ _ _ _ _ Hok) as Hfin.
  pose proof (split_zero h b n) as Hz. rewrite take_block_eq.
  destruct (split h b n) as [h1 rem]. cbn [fst snd] in *. split; [done|].
  destruct Hsp as (R1 & R2 & R3 & R4 & [[-> ->]|(l1 & l2 & EL & Hrb & HrL & Hrf & Hbf1 & Hsz & Hoth & Hr0 & Ho)]).
  - rewrite Z.eqb_refl. apply (mark_block_ok h L bs fin b n ci Hok HbL).
    specialize (Hz eq_refl ltac:(lia)). pose proof (u64_le (n + 96)). lia.
  - rewrite (proj2 (Z.eqb_neq rem 0) Hr0).
    assert (HrL' : rem ∈ l1 ++ b :: rem :: l2).
    { apply elem_of_app. right. apply elem_of_cons. right. by apply elem_of_cons; left. }
    assert (HrX : rem ∉ [b]) by (rewrite not_elem_of_cons; by split; [|apply not_elem_of_nil]).
    destruct (push_ok h1 _ bs fin rem [b] Ho HrL' HrX Hrf) as (Hlo & bs2 & Ho2).
    set (h2 := bucket_push h1 rem (class_for (size (blk h1 rem)))) in *.
    assert (Hlive : forall a, a <> b -> live h2 (l1 ++ b :: rem :: l2) a = live h L a).
    { intros a Ha. rewrite (live_links_only h1 h2) by exact Hlo. destruct (decide (a = rem)) as [->|Hne].
      - rewrite !live_None; [done|by left|by right].
      - destruct (decide (a ∈ L)) as [Q|Q].
        + destruct (Hoth a Q Ha) as (E1 & E2 & E3). apply live_eq; [|exact E1|exact E2|exact E3].
          rewrite EL. by apply mem_insert.
        + rewrite !live_None; [done|by left|left]. intros Hin. apply Q. rewrite EL.
          by apply (mem_insert a b rem l1 l2). }
    assert (HbL' : b ∈ l1 ++ b :: rem :: l2) by (apply elem_of_app; right; by apply elem_of_cons; left).
    assert (Esz : size (blk h2 b) = n).
    { destruct (lo_blk _ _ Hlo b) as ((_ & -> & _) & _). exact Hsz. }
    destruct (mark_block_ok h2 _ bs2 fin b n ci Ho2 HbL' ltac:(lia)) as (L' & bs' & sz & Q1 & Q2 & Q3 & Q4 & Q5 & Q6).
    exists L', bs', sz. split; [exact Q1|]. split; [exact Q2|]. split; [exact Q3|]. split; [|split].
    + intros a Ha. rewrite Q4 by exact Ha. by apply Hlive.
    + rewrite Q5, (lo_words _ _ Hlo), R2. done.
    + rewrite Q6, (lo_bad _ _ Hlo), R4. done.
Qed.

(** ** A free block of a larger class is found *)
Lemma class_scan_mono cs : forall i n m, m <= n -> 0 <= i -> i + Z.of_nat (length cs) <= 20 ->
  class_scan cs i m <= class_scan cs i n.
Proof.
  assert (Hge : forall cs i n, i + Z.of_nat (length cs) <= 20 -> i <= class_scan cs i n).
  { clear cs. induction cs as [|c cs' IH]; intros i n Hl; cbn [class_scan length] in *; [change HUGE_CLASS with 20; lia|].
    case_ifZ; [lia|]. specialize (IH (i + 1) n ltac:(lia)). lia. }
  induction cs as [|c cs IH]; intros i n m Hm Hi Hl; cbn [class_scan length] in *; [lia|].
  case_ifZ; case_ifZ; try lia; [|apply IH; lia].
  specialize (Hge cs (i + 1) n ltac:(lia)). lia.
Qed.

Lemma class_mono m n : m <= n -> class_for m <= class_for n.
Proof. intros Hm. apply class_scan_mono; [done|lia|by vm_compute]. Qed.

Lemma class_lt n m : class_for n < class_for m -> n < m.
Proof.
  intros Hc. destruct (Z.lt_ge_cases n m) as [|Hm]; [done|]. apply class_mono in Hm. lia.
Qed.

Lemma scan_huge_finds h L bs fin n X : ok h L bs fin X -> forall l2 l1 pr fuel,
  bs 20 = l1 ++ l2 -> (length l2 < fuel)%nat ->
  snd (scan_huge fuel h pr (hd 0 l2) n) = 0 -> forall a, a ∈ l2 -> size (blk h a) < n.
Proof.
  intros Hok. induction l2 as [|b l2 IH]; intros l1 pr fuel Hbs Hf Hz a Ha; [by apply not_elem_of_nil in Ha|].
  destruct fuel as [|k]; [cbn [length] in Hf; lia|]. cbn [scan_huge hd] in Hz.
  assert (Hb : b ∈ bs 20) by (rewrite Hbs; apply elem_of_app; right; by apply elem_of_cons; left).
  pose proof (proj1 (ok_in _ _ _ _ _ Hok 20 b ltac:(lia)) Hb) as (HbL & _).
  pose proof (ok_nonzero _ _ _ _ _ b Hok HbL) as Hb0. rewrite (proj2 (Z.eqb_neq b 0) Hb0) in Hz.
  destruct (n <=? size (blk h b)) eqn:Esz; zbool; [cbn [snd] in Hz; lia|].
  replace (bfree_next h b) with (hd 0 l2) in Hz.
  - apply elem_of_cons in Ha as [->|Ha]; [lia|].
    apply (IH (l1 ++ [b]) b k); [by rewrite <- app_assoc|cbn [length] in Hf; lia|exact Hz|exact Ha].
  - pose proof (ok_fl _ _ _ _ _ Hok 20 ltac:(lia)) as Hfl. rewrite Hbs in Hfl.
    symmetry. exact (chain_next _ _ _ _ _ Hfl).
Qed.

Lemma scan_small_finds k L fin n a : forall h bs i, ok h L bs fin [] -> 0 <= i -> i + Z.of_nat k <= 21 ->
  a ∈ L -> free (blk h a) = true -> class_for n < class_for (size (blk h a)) -> i <= class_for (size (blk h a)) < i + Z.of_nat k ->
  snd (scan_small k h i n) <> 0.
Proof.
  induction k as [|k IH]; intros h bs i Hok Hi Hk HaL Haf Hc Hr; [lia|]. cbn [scan_small].
  pose proof (ok_fl _ _ _ _ _ Hok i ltac:(lia)) as Hfl.
  destruct (bs i) as [|b r] eqn:Ebs; cbn [fl chain] in Hfl.
  - rewrite Hfl, Z.eqb_refl. apply (IH h bs); try assumption; [lia|lia|].
    destruct (Z.eq_dec i (class_for (size (blk h a)))) as [Ei|]; [|lia].
    assert (Hin : a ∈ bs i) by (apply (ok_in _ _ _ _ _ Hok); [lia|]; split; [done|]; split; [done|]; split; [apply not_elem_of_nil|done]).
    rewrite Ebs in Hin. by apply not_elem_of_nil in Hin.
  - destruct Hfl as (Ehd & Hb0 & _). rewrite Ehd, (proj2 (Z.eqb_neq b 0) Hb0).
    destruct (pop_ok h L bs fin [] i b r Hok ltac:(lia) Ebs) as (h1 & Ep & Hlo & Ho). rewrite Ep.
    pose proof (proj1 (ok_in _ _ _ _ _ Hok i b ltac:(lia)) ltac:(rewrite Ebs; by apply elem_of_cons; left))
      as (HbL & Hbf & _ & Hbc).
    destruct (lo_blk _ _ Hlo b) as ((_ & Es & _) & Ef & _). rewrite Hbf in Ef.
    destruct (n <=? size (blk h1 b)) eqn:Esz; zbool; [exact Hb0|].
    destruct (push_ok h1 L _ fin b [] Ho HbL ltac:(apply not_elem_of_nil) Ef) as (Hlo2 & bs' & Ho2).
    set (h2 := bucket_push h1 b (class_for (size (blk h1 b)))) in *.
    destruct (lo_blk _ _ (links_only_trans _ _ _ Hlo Hlo2) a) as ((_ & Ea & _) & Eaf & _).
    apply (IH h2 bs'); rewrite ?Ea, ?Eaf; try assumption; [lia|lia|].
    destruct (Z.eq_dec i (class_for (size (blk h a)))) as [Ei|]; [|lia].
    rewrite <- Ei, <- Hbc in Hc. apply class_lt in Hc. lia.
Qed.

Lemma alloc_from_class_finds h L bs fin n a : ok h L bs fin [] -> a ∈ L -> free (blk h a) = true ->
  n <= size (blk h a) -> class_for n < class_for (size (blk h a)) \/ class_for n = HUGE_CLASS ->
  snd (alloc_from_class h n) <> 0.
Proof.
  intros Hok HaL Haf Hn Hc. unfold alloc_from_class. change NUM_CLASSES with 20. change HUGE_CLASS with 20 in *.
  pose proof (class_range n) as Hr1. pose proof (class_range (size (blk h a))) as Hr2. change NUM_BUCKETS with 21 in *.
  set (r := if class_for n <? 20 then _ else _).
  assert (Hr : links_only h (fst r) /\ (if snd r =? 0 then exists bs', ok (fst r) L bs' fin [] else True) /\
    (class_for n < class_for (size (blk h a)) < 20 -> snd r <> 0)).
  { unfold r. case_ifZ.
    - destruct (scan_small_ok (Z.to_nat (20 - class_for n)) L fin n h bs (class_for n) Hok ltac:(lia) ltac:(lia)) as [Q1 Q2].
      split; [exact Q1|]. split; [by destruct (snd (scan_small (Z.to_nat (20 - class_for n)) h (class_for n) n) =? 0)|].
      intros Q3. apply (scan_small_finds _ L fin n a h bs (class_for n) Hok); try assumption; lia.
    - split; [apply links_only_refl|]. split; [by exists bs|]. lia. }
  clearbody r. destruct r as [h1 b]. cbn [fst snd] in *. destruct Hr as (Hlo & Hex & Hsm).
  destruct (b =? 0) eqn:Eb; zbool; [|exact Eb]. destruct Hex as (bs1 & Ho).
  pose proof (class_mono _ _ Hn) as Hm.
  destruct (Z.eq_dec (class_for (size (blk h a))) 20) as [E20|]; [|exfalso; apply Hsm; lia].
  destruct (lo_blk _ _ Hlo a) as ((_ & Es & _) & Ef & _).
  intros Hz.
  rewrite (fl_head _ _ _ (ok_fl _ _ _ _ _ Ho 20 ltac:(lia))) in Hz.
  assert (Hin : a ∈ bs1 20).
  { apply (ok_in _ _ _ _ _ Ho); [lia|]. rewrite Es, Ef. split; [done|]. split; [done|]. split; [apply not_elem_of_nil|done]. }
  pose proof (scan_huge_finds h1 L bs1 fin n [] Ho (bs1 20) [] 0 _ eq_refl
    (ok_fits h1 L bs1 fin [] 20 Ho ltac:(lia)) Hz a Hin). lia.
Qed.

(** ** Coalescing *)
Lemma mem_drop (a b c : Z) l1 l2 : (a ∈ l1 ++ b :: c :: l2) <-> ((a ∈ l1 ++ b :: l2) \/ a = c).
Proof.
  rewrite !elem_of_app, !elem_of_cons. split.
  - intros [?|[?|[?|?]]]; [left; by left|left; right; by left|by right|left; right; by right].
  - intros [[?|[?|?]]|?]; [by left|right; by left|right; right; by right|right; right; by left].
Qed.

(** The stores that join [c] to the block [b] before it. *)
Definition join (h : heap) (b c : Z) : heap :=
  let h := upd h b (set_size (u64 (size (blk h b) + sizeof_block + CANARY_BYTES + size (blk h c)))) in
  let h := upd h b (set_next (next (blk h c))) in
  let n2 := next (blk h c) in
  if n2 =? 0 then h else upd h n2 (set_prev b).

Lemma join_blk h b c : b <> c -> next (blk h c) <> b -> forall x,
  blk (join h b c) x
  = if decide (x = b)
    then set_next (next (blk h c)) (set_size (u64 (size (blk h b) + 64 + size (blk h c))) (blk h b))
    else if decide (x = next (blk h c) /\ next (blk h c) <> 0) then set_prev b (blk h x) else blk h x.
Proof.
  intros Hbc Hnb x. unfold join. change sizeof_block with 48. change CANARY_BYTES with 16.
  replace (size (blk h b) + 48 + 16 + size (blk h c)) with (size (blk h b) + 64 + size (blk h c)) by lia.
  set (h1 := upd h b (set_size _)).
  assert (Ec1 : blk h1 c = blk h c) by (unfold h1; rewrite blk_upd; by rewrite decide_False by congruence).
  rewrite Ec1. set (h2 := upd h1 b _).
  assert (Ec2 : blk h2 c = blk h c) by (unfold h2; rewrite blk_upd, Ec1; by rewrite decide_False by congruence).
  assert (E2 : forall y, blk h2 y = if decide (y = b)
    then set_next (next (blk h c)) (set_size (u64 (size (blk h b) + 64 + size (blk h c))) (blk h b)) else blk h y).
  { intros y. unfold h2. rewrite blk_upd. destruct (decide (y = b)) as [->|Hy].
    - unfold h1. rewrite blk_upd. by rewrite decide_True.
    - unfold h1. rewrite blk_upd. by rewrite decide_False. }
  rewrite Ec2. destruct (Z.eqb_spec (next (blk h c)) 0) as [E|E].
  - rewrite E2. destruct (decide (x = b)); [done|]. rewrite decide_False by (intros [? ?]; congruence). done.
  - rewrite blk_upd. destruct (decide (x = next (blk h c))) as [Ex|Ex].
    + rewrite (decide_False (P := x = b)) by congruence. rewrite decide_True by done. rewrite E2, decide_False by congruence.
      by rewrite Ex.
    + rewrite E2. destruct (decide (x = b)); [done|]. rewrite decide_False by (intros [? ?]; congruence). done.
Qed.

Lemma join_rest h b c : let h' := join h b c in
  buckets h' = buckets h /\ words h' = words h /\ head h' = head h /\
  g_heap_bad_frees h' = g_heap_bad_frees h /\ g_heap_bad_canaries h' = g_heap_bad_canaries h.
Proof. cbv zeta. unfold join. by case_ifZ. Qed.

Lemma join_ok h bs fin l1 b c l2 X X' : ok h (l1 ++ b :: c :: l2) bs fin X ->
  (free (blk h b) = true -> (b ∈ X) /\ (b ∈ X')) -> (c ∈ X) \/ free (blk h c) = false ->
  (forall a, a <> b -> a <> c -> ((a ∉ X) <-> (a ∉ X'))) ->
  ok (join h b c) (l1 ++ b :: l2) bs fin X' /\
  (forall a, free (blk (join h b c) a) = free (blk h a) /\ req (blk (join h b c) a) = req (blk h a)) /\
  (forall a, a <> b -> size (blk (join h b c) a) = size (blk h a)).
Proof.
  intros Hok Hb Hc HX. pose proof (ok_seg _ _ _ _ _ Hok) as Hseg. pose proof (ok_fin _ _ _ _ _ Hok) as Hfin.
  pose proof (seg_NoDup _ _ _ _ _ Hseg) as Hnd. set (L := l1 ++ b :: c :: l2) in *.
  assert (HbL : b ∈ L) by (apply elem_of_app; right; by apply elem_of_cons; left).
  assert (HcL : c ∈ L) by (apply elem_of_app; right; apply elem_of_cons; right; by apply elem_of_cons; left).
  pose proof (proj1 (seg_app _ l1 (b :: c :: l2) 0 0 fin) Hseg) as [_ Hsb]. cbn [seg hd] in Hsb.
  destruct Hsb as (_ & _ & _ & B4 & _ & B6 & B7 & C1 & _ & _ & C4 & _ & C6 & C7 & C8).
  pose proof (proj1 (NoDup_app l1 (b :: c :: l2)) Hnd) as (_ & N2 & N3).
  pose proof (proj1 (NoDup_cons b (c :: l2)) N3) as [N4 N5]. pose proof (proj1 (NoDup_cons c l2) N5) as [N6 N7].
  assert (Hbc : b <> c) by (intros ->; apply N4; by apply elem_of_cons; left).
  assert (Hl2 : forall x, x ∈ l2 -> x ∈ L /\ x <> b /\ x <> c).
  { intros x Hx. splits.
    - apply elem_of_app. right. apply elem_of_cons. right. by apply elem_of_cons; right.
    - intros ->. apply N4. by apply elem_of_cons; right.
    - by intros ->. }
  assert (Hn2 : next (blk h c) <> b).
  { rewrite C6. destruct l2 as [|d l2]; cbn [hd].
    - intros <-. exact (ok_nonzero _ _ _ _ _ _ Hok HbL eq_refl).
    - apply (Hl2 d). by apply elem_of_cons; left. }
  pose proof (join_blk h b c Hbc Hn2) as Hf.
  assert (Hsum : 0 <= size (blk h b) + 64 + size (blk h c) < 18446744073709551616).
  { pose proof (seg_bounds _ _ _ _ _ Hseg b HbL). pose proof (seg_bounds _ _ _ _ _ Hseg c HcL). lia. }
  rewrite (u64_small _ Hsum) in Hf. destruct (join_rest h b c) as (R1 & _ & R3 & _).
  set (h' := join h b c) in *. clearbody h'.
  assert (Hfr : forall a, free (blk h' a) = free (blk h a) /\ req (blk h' a) = req (blk h a)).
  { intros a. rewrite Hf. destruct (decide (a = b)) as [->|]; [done|].
    by destruct (decide (a = next (blk h c) /\ next (blk h c) <> 0)). }
  assert (Hsz : forall a, a <> b -> size (blk h' a) = size (blk h a) /\ magic (blk h' a) = magic (blk h a) /\
                          next (blk h' a) = next (blk h a)).
  { intros a Ha. rewrite Hf, decide_False by exact Ha.
    by destruct (decide (a = next (blk h c) /\ next (blk h c) <> 0)). }
  assert (Hpv : forall a, a <> b -> a <> next (blk h c) -> prev (blk h' a) = prev (blk h a)).
  { intros a Ha Hn. rewrite Hf, decide_False by exact Ha. by rewrite decide_False by (intros [Q _]; exact (Hn Q)). }
  assert (Hfb : blk h' b = set_next (next (blk h c)) (set_size (size (blk h b) + 64 + size (blk h c)) (blk h b))).
  { rewrite Hf. by rewrite decide_True. }
  split; [|split; [exact Hfr|intros a Ha; apply (Hsz a Ha)]].
  apply (ok_change h h' L _ bs fin X X'); [exact Hok|exact R1| | | |].
  - apply (seg_merge (blk h) (blk h') l1 b c l2 fin Hseg); rewrite ?Hfb; try reflexivity.
    + intros a Ha. assert (Hab : a <> b) by (intros ->; apply (N2 b Ha); by apply elem_of_cons; left).
      destruct (Hsz a Hab) as (Q1 & Q2 & Q3). split; [exact Q2|]. split; [exact Q1|]. split; [exact Q3|].
      apply Hpv; [exact Hab|]. rewrite C6. destruct l2 as [|d l2]; cbn [hd].
      * apply (ok_nonzero _ _ _ _ _ _ Hok). apply elem_of_app. by left.
      * intros ->. apply (N2 d Ha). apply elem_of_cons. right. apply elem_of_cons. right. by apply elem_of_cons; left.
    + intros a Ha. destruct (Hl2 a Ha) as (_ & Q & _). destruct (Hsz a Q) as (Q1 & Q2 & Q3).
      split; [exact Q2|]. split; [exact Q1|exact Q3].
    + intros a Ha. destruct l2 as [|d l2]; [by apply not_elem_of_nil in Ha|]. cbn [tail] in Ha.
      apply Hpv; [apply (Hl2 a); by apply elem_of_cons; right|]. rewrite C6. cbn [hd]. intros ->.
      by apply NoDup_cons in N7 as [N7 _].
    + intros Hne. destruct l2 as [|d l2]; [done|]. cbn [hd].
      destruct (Hl2 d ltac:(by apply elem_of_cons; left)) as (QL & Q & _).
      rewrite Hf, decide_False by exact Q. rewrite C6. cbn [hd].
      rewrite decide_True by (split; [reflexivity|by apply (ok_nonzero _ _ _ _ _ _ Hok)]). reflexivity.
  - rewrite R3, (ok_head _ _ _ _ _ Hok). by destruct l1.
  - intros i a _ _. apply Hfr.
  - intros a i. destruct (Hfr a) as [-> _]. pose proof (mem_drop a b c l1 l2) as Hm. fold L in Hm. rewrite Hm.
    destruct (decide (a = b)) as [->|Hab].
    + split; intros (_ & Q2 & Q3 & _); destruct (Hb Q2) as [HbX HbX']; [destruct (Q3 HbX)|destruct (Q3 HbX')].
    + destruct (Hsz a Hab) as (-> & _). destruct (decide (a = c)) as [->|Hac].
      * split.
        -- intros (_ & Q2 & Q3 & _). destruct Hc as [Hc|Hc]; [destruct (Q3 Hc)|congruence].
        -- intros (Q1 & _). exfalso. clear -Q1 N2 N4 N6. apply elem_of_app in Q1 as [Q1|Q1].
           ++ apply (N2 c Q1). apply elem_of_cons. right. by apply elem_of_cons; left.
           ++ apply elem_of_cons in Q1 as [->|Q1]; [|exact (N6 Q1)]. apply N4. by apply elem_of_cons; left.
      * rewrite (HX a Hab Hac). split.
        -- intros ([Q1|Q1] & Q2); [exact (conj Q1 Q2)|destruct (Hac Q1)].
        -- intros (Q1 & Q2). exact (conj (or_introl Q1) Q2).
Qed.

Lemma next_set h b f v : next (blk (upd (upd h b f) b (set_next v)) b) = v.
Proof. rewrite blk_upd. by rewrite decide_True. Qed.

Lemma merge_next_eq h b : let nx := next (blk h b) in nx <> b ->
  merge_next h b = if negb (nx =? 0) && free (blk h nx) then join (bucket_remove h nx) b nx else h.
Proof.
  cbv zeta. intros Hne. unfold merge_next, join. destruct (_ && _); [|done]. rewrite next_set.
  assert (E : forall k f v, blk (upd (upd k b f) b v) (next (blk h b)) = blk k (next (blk h b))).
  { intros k f v. rewrite !blk_upd. by rewrite !decide_False. }
  rewrite E. rewrite (blk_upd _ b _ (next (blk h b))), decide_False by done. reflexivity.
Qed.

Lemma merge_prev_eq h b : let pv := prev (blk h b) in
  merge_prev h b = if negb (pv =? 0) && free (blk h pv) then (join (bucket_remove h pv) pv b, pv) else (h, b).
Proof. reflexivity. Qed.

(** What the two merges keep: the invariant over some blocks, and every other
    live block. *)
Definition kept (h : heap) (L : list Z) (b : Z) (h' : heap) (L' : list Z) : Prop :=
  (forall a, a <> b -> live h' L' a = live h L a) /\ words h' = words h /\
  g_heap_bad_frees h' = g_heap_bad_frees h /\ g_heap_bad_canaries h' = g_heap_bad_canaries h.

Lemma kept_trans h L b h' L' h'' L'' : kept h L b h' L' -> kept h' L' b h'' L'' -> kept h L b h'' L''.
Proof.
  intros (A1 & A2 & A3 & A4) (B1 & B2 & B3 & B4). unfold kept. splits; try congruence.
  intros a Ha. by rewrite B1, A1.
Qed.

Lemma kept_refl h L b : kept h L b h L.
Proof. by unfold kept. Qed.

Lemma kept_join h h1 b c l1 l2 d : let L := l1 ++ b :: c :: l2 in links_only h h1 ->
  (d = b \/ (free (blk h b) = true)) -> (d = c \/ free (blk h c) = true) -> NoDup (l1 ++ b :: c :: l2) ->
  (forall a, free (blk (join h1 b c) a) = free (blk h1 a) /\ req (blk (join h1 b c) a) = req (blk h1 a)) ->
  (forall a, a <> b -> size (blk (join h1 b c) a) = size (blk h1 a)) ->
  kept h L d (join h1 b c) (l1 ++ b :: l2).
Proof.
  intros L Hlo Hb Hc Hnd Hfr Hsz. destruct (join_rest h1 b c) as (_ & R2 & _ & R4 & R5). unfold kept.
  splits; [|by rewrite R2, (lo_words _ _ Hlo)|by rewrite R4, (lo_bad _ _ Hlo)|by rewrite R5, (lo_canary _ _ Hlo)].
  intros a Ha. rewrite <- (live_links_only h h1 L a Hlo). destruct (Hfr a) as [Q1 Q2].
  destruct (lo_blk _ _ Hlo a) as (_ & Ef & _).
  destruct (decide (a = b)) as [->|Hab].
  - destruct Hb as [->|Hb]; [done|]. rewrite !live_None; [done|right; congruence|right; congruence].
  - destruct (decide (a = c)) as [->|Hac].
    + destruct Hc as [->|Hc]; [done|]. rewrite !live_None; [done|right; congruence|right; congruence].
    + apply live_eq; [|by apply Hsz|exact Q1|exact Q2]. unfold L. rewrite mem_drop. split; [intros [?|?]; done|by left].
Qed.

Lemma merge_next_ok h L bs fin b : ok h L bs fin [] -> b ∈ L -> free (blk h b) = false ->
  exists L' bs', ok (merge_next h b) L' bs' fin [] /\ b ∈ L' /\ free (blk (merge_next h b) b) = false /\
    kept h L b (merge_next h b) L'.
Proof.
  intros Hok HbL Hbf. apply list_elem_of_split in HbL as HL. destruct HL as (l1 & l2 & EL).
  pose proof (ok_seg _ _ _ _ _ Hok) as Hseg. rewrite EL in Hseg.
  destruct (seg_neighbours _ _ _ _ _ _ _ Hseg) as (Enx & _ & _). pose proof (seg_NoDup _ _ _ _ _ Hseg) as Hnd.
  assert (Hne : next (blk h b) <> b).
  { rewrite Enx. destruct l2 as [|c l2]; cbn [hd].
    - intros <-. by apply (ok_nonzero _ _ _ _ _ _ Hok HbL).
    - intros ->. apply NoDup_app in Hnd as (_ & _ & Hnd). apply NoDup_cons in Hnd as [Hnd _]. apply Hnd.
      by apply elem_of_cons; left. }
  rewrite (merge_next_eq h b Hne). destruct (negb _ && _) eqn:Ec; [|exists L, bs; splits; (done || apply kept_refl)].
  apply andb_true_iff in Ec as [E0 Ef]. zbool. destruct l2 as [|c l2]; [cbn [hd] in Enx; lia|].
  cbn [hd] in Enx. rewrite Enx in *. assert (HcL : c ∈ L).
  { rewrite EL. apply elem_of_app. right. apply elem_of_cons. right. by apply elem_of_cons; left. }
  destruct (bucket_remove_ok h L bs fin [] Hok c HcL Ef ltac:(apply not_elem_of_nil)) as (Hlo & bs1 & Ho).
  set (h1 := bucket_remove h c) in *. rewrite EL in Ho.
  destruct (lo_blk _ _ Hlo b) as (_ & Efb & _). rewrite Hbf in Efb.
  destruct (join_ok h1 bs1 fin l1 b c l2 [c] [] Ho) as (Ho2 & Hfr & Hsz).
  { congruence. }
  { left. by apply elem_of_cons; left. }
  { intros a _ Ha. rewrite not_elem_of_cons. split; [by intros [_ ?]|by split]. }
  exists (l1 ++ b :: l2), bs1. split; [exact Ho2|]. split; [apply elem_of_app; right; by apply elem_of_cons; left|].
  split; [destruct (Hfr b) as [-> _]; exact Efb|]. rewrite EL. apply kept_join; try assumption; [by left|by right].
Qed.

Lemma merge_prev_ok h L bs fin b : ok h L bs fin [] -> b ∈ L -> free (blk h b) = false ->
  let '(h', m) := merge_prev h b in
  exists L' bs' X, ok h' L' bs' fin X /\ m ∈ L' /\ (forall i, 0 <= i < 21 -> m ∉ bs' i) /\
    (forall a, a <> m -> ((a ∉ X) <-> (a ∉ [m]))) /\ kept h L b h' L' /\
    (m = b \/ ((b ∉ L') /\ free (blk h m) = true)).
Proof.
  intros Hok HbL Hbf. apply list_elem_of_split in HbL as HL. destruct HL as (l0 & l2 & EL).
  pose proof (ok_seg _ _ _ _ _ Hok) as Hseg. rewrite EL in Hseg.
  destruct (seg_neighbours _ _ _ _ _ _ _ Hseg) as (_ & Epv & _). pose proof (seg_NoDup _ _ _ _ _ Hseg) as Hnd.
  rewrite merge_prev_eq. destruct (negb _ && _) eqn:Ec.
  - apply andb_true_iff in Ec as [E0 Ef]. zbool.
    destruct (decide (l0 = [])) as [->|Hne]; [cbn [last_of] in Epv; lia|].
    destruct (exists_last Hne) as (l1 & p & ->). rewrite last_of_app in Epv. rewrite Epv in *.
    rewrite <- app_assoc in *. cbn [app] in *.
    assert (HpL : p ∈ L) by (rewrite EL; apply elem_of_app; right; by apply elem_of_cons; left).
    destruct (bucket_remove_ok h L bs fin [] Hok p HpL Ef ltac:(apply not_elem_of_nil)) as (Hlo & bs1 & Ho).
    set (h1 := bucket_remove h p) in *. rewrite EL in Ho.
    destruct (lo_blk _ _ Hlo b) as (_ & Efb & _). rewrite Hbf in Efb.
    destruct (join_ok h1 bs1 fin l1 p b l2 [p] [p] Ho) as (Ho2 & Hfr & Hsz).
    { intros _. split; by apply elem_of_cons; left. }
    { by right. }
    { done. }
    exists (l1 ++ p :: l2), bs1, [p]. splits; try done.
    + apply elem_of_app. right. by apply elem_of_cons; left.
    + apply (not_in_lists _ _ _ _ _ p Ho2). left. by apply elem_of_cons; left.
    + rewrite EL. apply kept_join; try assumption; [by right|by left].
    + right. split; [|exact Ef]. pose proof (mem_drop b p b l1 l2) as Hm. intros Hin.
      apply NoDup_app in Hnd as (_ & N2 & N3). apply NoDup_cons in N3 as [N3 N4]. apply NoDup_cons in N4 as [N4 _].
      apply elem_of_app in Hin as [Hin|Hin].
      * apply (N2 b Hin). apply elem_of_cons. right. by apply elem_of_cons; left.
      * apply elem_of_cons in Hin as [->|Hin]; [|exact (N4 Hin)]. apply N3. by apply elem_of_cons; left.
  - exists L, bs, []. splits; try done.
    + apply (not_in_lists _ _ _ _ _ b Hok). by right.
    + intros a Ha. rewrite not_elem_of_cons. split; [intros ?; by split|by intros [_ ?]].
    + by left.
Qed.

(** * The allocator *)
Definition up16 (n : Z) : Z := (n + 15) / 16 * 16.

Lemma round16 n : 0 <= n -> n + 15 < 18446744073709551616 -> Z.land (u64 (n + 15)) (u64 (Z.lnot 15)) = up16 n.
Proof.
  intros Hn Hb. rewrite u64_small by lia. unfold up16.
  replace ((n + 15) / 16 * 16) with (Z.ldiff (n + 15) (Z.ones 4))
    by (rewrite Z.ldiff_ones_r, Z.shiftr_div_pow2, Z.shiftl_mul_pow2 by lia; reflexivity).
  change (Z.ones 4) with 15. change (u64 (Z.lnot 15)) with (Z.land (Z.lnot 15) (Z.ones 64)).
  rewrite (Z.land_comm (Z.lnot 15)), Z.land_assoc, Z.land_ones by lia. rewrite Z.mod_small by lia.
  by rewrite Z.ldiff_land.
Qed.

Lemma up16_bounds n : n <= up16 n < n + 16 /\ (16 | up16 n).
Proof.
  unfold up16. split; [|by exists ((n + 15) / 16)].
  pose proof (Z.div_mod (n + 15) 16). pose proof (Z.mod_pos_bound (n + 15) 16). lia.
Qed.

(** What a successful [kmalloc] of [n] bytes does to the blocks handed out:
    one more block [b], apart from every other. *)
Definition acquired (h : heap) (L : list Z) (h' : heap) (L' : list Z) (b n : Z) : Prop :=
  exists sz, live h L b = None /\ live h' L' b = Some (sz, n) /\ n <= sz < n + 96 /\ (16 | payload b) /\ payload b <> 0 /\
    (forall a, a <> b -> live h' L' a = live h L a) /\
    (forall a sa na, a <> b -> live h L a = Some (sa, na) -> a + 64 + sa <= b \/ b + 64 + sz <= a) /\
    words h' !! (payload b + n) = Some HEAP_CANARY.

Lemma live_in h L a v : live h L a = Some v -> a ∈ L /\ free (blk h a) = false /\ v = (size (blk h a), req (blk h a)).
Proof.
  unfold live. destruct (decide (a ∈ L)); [|done]. destruct (free (blk h a)); [done|]. by intros [= <-].
Qed.

Lemma taken_acquired h L fin b n h' : b ∈ L -> free (blk h b) = true -> taken h L fin b n h' ->
  exists L' bs', ok h' L' bs' fin [] /\ acquired h L h' L' b n.
Proof.
  intros HbL Hbf (L' & bs' & sz & Ho & Hb & Hsz & Hoth & Hw & _). exists L', bs'. split; [exact Ho|]. exists sz.
  destruct (live_in _ _ _ _ Hb) as (HbL' & _ & [= Esz _]). pose proof (ok_seg _ _ _ _ _ Ho) as Hseg.
  destruct (seg_magic _ _ _ _ _ _ Hseg HbL') as [_ H16]. pose proof (seg_bounds _ _ _ _ _ Hseg b HbL') as Hbd.
  split; [apply live_None; by right|]. split; [exact Hb|]. split; [exact Hsz|]. unfold payload. change sizeof_block with 48.
  split; [apply Z.divide_add_r; [exact H16|by exists 3]|]. split; [lia|]. split; [exact Hoth|]. split.
  - intros a sa na Ha Hl. rewrite <- (Hoth a Ha) in Hl. destruct (live_in _ _ _ _ Hl) as (HaL & _ & [= -> _]).
    rewrite Esz. by apply (seg_disjoint _ _ _ _ _ Hseg).
  - rewrite Hw. unfold payload. change sizeof_block with 48. by rewrite lookup_insert_eq.
Qed.

Lemma taken_links h h1 L fin b n h' : links_only h h1 -> taken h1 L fin b n h' -> taken h L fin b n h'.
Proof.
  intros Hlo (L' & bs' & sz & H1 & H2 & H3 & H4 & H5 & H6). exists L', bs', sz. splits; try assumption; try lia.
  - intros a Ha. rewrite H4 by exact Ha. by apply live_links_only.
  - by rewrite H5, (lo_words _ _ Hlo).
  - by rewrite H6, (lo_bad _ _ Hlo).
Qed.

(** The page frames the heap holds, and their number. *)
Definition page_state (h : heap) : pmm * Z := (pages h, heap_pages_total h).

Lemma scan_small_pages n : forall k h i, page_state (fst (scan_small k h i n)) = page_state h.
Proof.
  induction k as [|k IH]; intros h i; [done|]. cbn [scan_small]. destruct (_ =? 0) eqn:E; [apply IH|].
  unfold bucket_pop. rewrite E. cbv iota beta. destruct (n <=? _); [done|]. by rewrite IH.
Qed.
Lemma scan_huge_pages n : forall k h pr b, page_state (fst (scan_huge k h pr b n)) = page_state h.
Proof.
  induction k as [|k IH]; intros h pr b; [done|]. cbn [scan_huge]. destruct (b =? 0); [done|].
  destruct (n <=? _); [by destruct (pr =? 0)|apply IH].
Qed.
Lemma alloc_from_class_pages h n : page_state (fst (alloc_from_class h n)) = page_state h.
Proof.
  unfold alloc_from_class. destruct (class_for n <? NUM_CLASSES).
  - pose proof (scan_small_pages n (Z.to_nat (NUM_CLASSES - class_for n)) h (class_for n)) as E.
    destruct (scan_small _ _ _ _) as [h1 b]. cbn [fst] in E. destruct (b =? 0); [by rewrite scan_huge_pages|exact E].
  - cbn [Z.eqb]. apply scan_huge_pages.
Qed.
Lemma take_block_pages h b n ci : page_state (fst (take_block h b n ci)) = page_state h.
Proof.
  unfold take_block, split. destruct (_ <? _); [done|]. cbv zeta. destruct (next (blk h b) =? 0); by destruct (_ =? 0).
Qed.

(** [C14] [kmalloc] refines the abstract allocator. When the free lists hold a block
    of a larger class than the request (or a huge block with room), the call
    returns a 16-byte aligned block that no allocation holds, with its canary
    planted; every other allocation keeps its place and size, the heap keeps its
    invariant, and no page is asked for: the page allocator's state and the heap's count
    of pages are what they were. *)
Theorem kmalloc_refines `{Reclaimer} hhdm h L bs fin n a : ok h L bs fin [] -> 0 < n ->
  n + 15 < 18446744073709551616 -> a ∈ L -> free (blk h a) = true -> up16 n <= size (blk h a) ->
  class_for (up16 n) < class_for (size (blk h a)) \/ class_for (up16 n) = HUGE_CLASS ->
  exists h' L' bs' b, kmalloc hhdm h n = Ret (h', payload b) /\ ok h' L' bs' fin [] /\
    acquired h L h' L' b (up16 n) /\ pages h' = pages h /\ heap_pages_total h' = heap_pages_total h.
Proof.
  intros Hok Hn Hb HaL Haf Hsz Hc. destruct (up16_bounds n) as [Hu H16].
  pose proof (alloc_from_class_finds h L bs fin (up16 n) a Hok HaL Haf Hsz Hc) as Hne.
  pose proof (alloc_from_class_ok h L bs fin (up16 n) Hok) as [Hlo Hf].
  pose proof (alloc_from_class_pages h (up16 n)) as Hp.
  unfold kmalloc. rewrite (proj2 (Z.eqb_neq n 0)) by lia. rewrite round16 by lia. cbv zeta.
  destruct (alloc_from_class h (up16 n)) as [h1 b]. cbn [fst snd] in *. rewrite (proj2 (Z.eqb_neq b 0) Hne) in *.
  destruct Hf as (HbL & Hbf & Hbs & bs1 & Ho).
  destruct (take_block_ok h1 L bs1 fin b (up16 n) (class_for (up16 n)) Ho HbL Hbf ltac:(lia) H16) as [Ep Ht].
  destruct (lo_blk _ _ Hlo b) as (_ & Ef & _). rewrite Ef in Hbf.
  destruct (taken_acquired h L fin b (up16 n) _ HbL Hbf (taken_links _ _ _ _ _ _ _ Hlo Ht)) as (L' & bs' & Q1 & Q2).
  pose proof (take_block_pages h1 b (up16 n) (class_for (up16 n))) as Hp2. rewrite Hp in Hp2. injection Hp2 as Hp2 Hp3.
  exists (fst (take_block h1 b (up16 n) (class_for (up16 n)))), L', bs', b. split; [|splits; assumption].
  rewrite <- Ep. by destruct (take_block h1 b (up16 n) (class_for (up16 n))).
Qed.

(** The bookkeeping at the start of a free. *)
Definition free_prologue (h : heap) (b : Z) : heap :=
  let v := blk h b in
  let h := if default 0 (words h !! canary_of h b) =? HEAP_CANARY then h else bad_canary h in
  set_stats h (count_free (g_stats h) (class_for (req v)) (req v)).

Lemma kfree_eq h b : magic (blk h b) = HEAP_MAGIC -> free (blk h b) = false -> payload b <> 0 ->
  kfree h (payload b) =
  let '(h1, m) := merge_prev (merge_next (free_prologue h b) b) b in
  let h2 := upd (upd h1 m (set_free true)) m (set_req 0) in
  bucket_push h2 m (class_for (size (blk h2 m))).
Proof.
  intros Hm Hf Hp. unfold kfree. rewrite (proj2 (Z.eqb_neq _ 0) Hp). cbv zeta.
  replace (payload b - sizeof_block) with b by (unfold payload; lia). rewrite Hm, Z.eqb_refl, Hf. reflexivity.
Qed.

Lemma ok_prologue h L bs fin b : ok h L bs fin [] ->
  ok (free_prologue h b) L bs fin [] /\ (forall x, blk (free_prologue h b) x = blk h x) /\
  words (free_prologue h b) = words h /\ g_heap_bad_frees (free_prologue h b) = g_heap_bad_frees h /\
  g_heap_bad_canaries (free_prologue h b) =
    if default 0 (words h !! canary_of h b) =? HEAP_CANARY then g_heap_bad_canaries h
    else u64 (g_heap_bad_canaries h + 1).
Proof.
  intros [O1 O2 O3 O4 O5 O6 O7]. unfold free_prologue. cbv zeta. destruct (_ =? HEAP_CANARY); splits; try done; by split.
Qed.

(** [C15] [kfree] refines the abstract allocator. Freeing the payload of an
    allocated block takes that block, and no other, off the allocated ones
    whatever it is merged with; the heap keeps its invariant, the bad-free
    count stands, and the canary count moves exactly when the word after the
    requested bytes is not the canary. *)
Theorem kfree_refines h L bs fin b sz n : ok h L bs fin [] -> live h L b = Some (sz, n) ->
  exists L' bs', ok (kfree h (payload b)) L' bs' fin [] /\
    (forall a, live (kfree h (payload b)) L' a = if decide (a = b) then None else live h L a) /\
    g_heap_bad_frees (kfree h (payload b)) = g_heap_bad_frees h /\
    g_heap_bad_canaries (kfree h (payload b)) =
      if default 0 (words h !! (payload b + n)) =? HEAP_CANARY then g_heap_bad_canaries h
      else u64 (g_heap_bad_canaries h + 1).
Proof.
  intros Hok Hl. destruct (live_in _ _ _ _ Hl) as (HbL & Hbf & [= Esz Ern]).
  pose proof (ok_magic _ _ _ _ _ _ Hok HbL) as Hm. pose proof (seg_bounds _ _ _ _ _ (ok_seg _ _ _ _ _ Hok) b HbL) as Hbd.
  rewrite (kfree_eq h b Hm Hbf) by (unfold payload; change sizeof_block with 48; lia).
  replace (payload b + n) with (canary_of h b) by (unfold canary_of; by rewrite Ern).
  destruct (ok_prologue h L bs fin b Hok) as (Ho0 & Hb0 & W0 & F0 & C0). set (h0 := free_prologue h b) in *.
  rewrite <- C0, <- F0. assert (Hl0 : forall a, live h0 L a = live h L a) by (intros a; unfold live; by rewrite Hb0).
  assert (Hbf0 : free (blk h0 b) = false) by (by rewrite Hb0). clearbody h0.
  destruct (merge_next_ok h0 L bs fin b Ho0 HbL Hbf0) as (L1 & bs1 & Ho1 & HbL1 & Hbf1 & Hk1).
  pose proof (merge_prev_ok _ L1 bs1 fin b Ho1 HbL1 Hbf1) as Hp.
  destruct (merge_prev (merge_next h0 b) b) as [h1 m]. cbv zeta.
  destruct Hp as (L2 & bs2 & X & Ho2 & HmL & Hmb & HX & Hk2 & Hcase).
  destruct (kept_trans _ _ _ _ _ _ _ Hk1 Hk2) as (K1 & K2 & K3 & K4). set (h2 := upd (upd h1 m _) m _).
  assert (Hf2 : forall x, blk h2 x = if decide (x = m) then set_req 0 (set_free true (blk h1 m)) else blk h1 x)
    by (intros x; apply set_flag_blk).
  assert (Ho3 : ok h2 L2 bs2 fin [m]).
  { apply (ok_flag h1 h2 L2 bs2 fin X [m] m true 0); try assumption; [done|done|]. intros _. by apply elem_of_cons; left. }
  assert (Hfm : free (blk h2 m) = true) by (rewrite Hf2; by rewrite decide_True).
  destruct (push_ok h2 L2 bs2 fin m [] Ho3 HmL ltac:(apply not_elem_of_nil) Hfm) as (Hlo & bs3 & Ho4).
  exists L2, bs3. split; [exact Ho4|].
  split; [|rewrite (lo_bad _ _ Hlo), (lo_canary _ _ Hlo), <- K3, <- K4; done].
  intros a. rewrite (live_links_only h2) by exact Hlo.
  assert (Hm2 : live h2 L2 m = None) by (apply live_None; by right).
  destruct (decide (a = m)) as [->|Ham].
  - rewrite Hm2. destruct (decide (m = b)) as [|Hmne]; [done|]. destruct Hcase as [|[_ Hfr]]; [done|].
    rewrite <- Hl0. symmetry. destruct Hk1 as (Hk1 & _). rewrite <- Hk1 by exact Hmne. apply live_None. by right.
  - assert (E2 : live h2 L2 a = live h1 L2 a) by (apply live_eq; [done|..]; rewrite Hf2; by rewrite decide_False).
    rewrite E2. destruct (decide (a = b)) as [->|Hab]; [|rewrite <- Hl0; by apply K1].
    destruct Hcase as [->|[Hnb _]]; [done|]. apply live_None. by left.
Qed.

(** ** Double frees *)
Lemma bucket_remove_bad h b : g_heap_bad_frees (bucket_remove h b) = g_heap_bad_frees h.
Proof.
  unfold bucket_remove. generalize (Z.to_nat NUM_BUCKETS), 0. intros n.
  induction n as [|n IH]; intros i; cbn [remove_from]; [done|]. case_ifZ; [done|]. case_ifZ; [apply IH|done].
Qed.

Lemma kfree_counts_nothing h b : magic (blk h b) = HEAP_MAGIC -> free (blk h b) = false -> payload b <> 0 ->
  g_heap_bad_frees (kfree h (payload b)) = g_heap_bad_frees h.
Proof.
  intros Hm Hf Hp. rewrite (kfree_eq h b Hm Hf Hp).
  assert (H0 : g_heap_bad_frees (free_prologue h b) = g_heap_bad_frees h)
    by (unfold free_prologue; by destruct (_ =? HEAP_CANARY)).
  assert (H1 : forall k, g_heap_bad_frees (merge_next k b) = g_heap_bad_frees k).
  { intros k. unfold merge_next. destruct (_ && _); [|done].
    destruct (_ =? 0); cbn; by rewrite bucket_remove_bad. }
  assert (H2 : forall k, g_heap_bad_frees (fst (merge_prev k b)) = g_heap_bad_frees k).
  { intros k. rewrite merge_prev_eq. destruct (_ && _); [|done]. cbn [fst].
    destruct (join_rest (bucket_remove k (prev (blk k b))) (prev (blk k b)) b) as (_ & _ & _ & -> & _).
    apply bucket_remove_bad. }
  specialize (H2 (merge_next (free_prologue h b) b)). rewrite H1, H0 in H2.
  destruct (merge_prev (merge_next (free_prologue h b) b) b) as [h1 m]. exact H2.
Qed.

(** What merging forwards leaves in the headers. *)
Lemma merge_next_blk h L bs fin b x : ok h L bs fin [] -> b ∈ L -> free (blk h b) = false ->
  magic (blk (merge_next h b) x) = magic (blk h x) /\ free (blk (merge_next h b) x) = free (blk h x) /\
  prev (blk (merge_next h b) b) = prev (blk h b).
Proof.
  intros Hok HbL Hbf. apply list_elem_of_split in HbL as HL. destruct HL as (l1 & l2 & EL).
  pose proof (ok_seg _ _ _ _ _ Hok) as Hseg. rewrite EL in Hseg.
  destruct (seg_neighbours _ _ _ _ _ _ _ Hseg) as (Enx & _ & Eend). pose proof (seg_NoDup _ _ _ _ _ Hseg) as Hnd.
  destruct l2 as [|c l2].
  { unfold merge_next. rewrite Enx. by cbn [hd Z.eqb negb andb]. }
  cbn [hd] in Enx. apply NoDup_app in Hnd as (_ & N2 & N3). apply NoDup_cons in N3 as [N3 _].
  assert (Hcb : c <> b) by (intros ->; apply N3; by apply elem_of_cons; left).
  rewrite merge_next_eq by (rewrite Enx; exact Hcb). rewrite Enx. destruct (_ && _) eqn:Ec; [|done].
  apply andb_true_iff in Ec as [_ Ef].
  assert (HcL : c ∈ L) by (rewrite EL; apply elem_of_app; right; apply elem_of_cons; right; by apply elem_of_cons; left).
  destruct (bucket_remove_ok h L bs fin [] Hok c HcL Ef ltac:(apply not_elem_of_nil)) as (Hlo & _).
  set (h1 := bucket_remove h c) in *.
  apply seg_app in Hseg as [_ Hseg]. cbn [seg hd] in Hseg.
  destruct Hseg as (_ & _ & _ & _ & _ & _ & _ & _ & _ & _ & _ & _ & Hnc & _ & Hs2).
  assert (Hn2 : next (blk h1 c) <> b).
  { destruct (lo_blk _ _ Hlo c) as ((_ & _ & -> & _) & _). rewrite Hnc. destruct l2 as [|d l2]; cbn [hd].
    - intros <-. by apply (ok_nonzero _ _ _ _ _ _ Hok HbL).
    - intros ->. apply N3. apply elem_of_cons. right. by apply elem_of_cons; left. }
  pose proof (join_blk h1 b c (not_eq_sym Hcb) Hn2) as Hj.
  destruct (lo_blk _ _ Hlo x) as ((<- & _) & <- & _). destruct (lo_blk _ _ Hlo b) as ((_ & _ & _ & <-) & _).
  rewrite (Hj b), decide_True by done. rewrite Hj. destruct (decide (x = b)) as [->|]; [done|].
  by destruct (decide (x = next (blk h1 c) /\ next (blk h1 c) <> 0)).
Qed.

Lemma blk_push h b ci x : x <> b -> blk (bucket_push h b ci) x = blk h x.
Proof.
  intros Hx. transitivity (blk (bfree_set_next h b ((buckets h).[ci])) x); [reflexivity|].
  unfold bfree_set_next. rewrite blk_upd. by rewrite decide_False.
Qed.

(** A block that is merged into a free block before it keeps a header that
    reads as allocated. *)
Lemma kfree_stale h L bs fin b p sz n : ok h L bs fin [] -> live h L b = Some (sz, n) -> prev (blk h b) = p -> p <> 0 ->
  free (blk h p) = true ->
  magic (blk (kfree h (payload b)) b) = HEAP_MAGIC /\ free (blk (kfree h (payload b)) b) = false.
Proof.
  intros Hok Hl Ep Hp0 Hpf. destruct (live_in _ _ _ _ Hl) as (HbL & Hbf & _).
  pose proof (ok_magic _ _ _ _ _ _ Hok HbL) as Hm. pose proof (seg_bounds _ _ _ _ _ (ok_seg _ _ _ _ _ Hok) b HbL) as Hbd.
  rewrite (kfree_eq h b Hm Hbf) by (unfold payload; change sizeof_block with 48; lia).
  destruct (ok_prologue h L bs fin b Hok) as (Ho0 & Hb0 & _). set (h0 := free_prologue h b) in *. clearbody h0.
  assert (Hbf0 : free (blk h0 b) = false) by (by rewrite Hb0).
  pose proof (merge_next_blk h0 L bs fin b b Ho0 HbL Hbf0) as (M1 & M2 & M3).
  pose proof (merge_next_blk h0 L bs fin b p Ho0 HbL Hbf0) as (_ & M4 & _).
  destruct (merge_next_ok h0 L bs fin b Ho0 HbL Hbf0) as (L1 & bs1 & Ho1 & HbL1 & _).
  rewrite Hb0 in *. set (h1 := merge_next h0 b) in *. rewrite merge_prev_eq, M3, Ep, (proj2 (Z.eqb_neq p 0) Hp0), M4, Hpf.
  cbn [negb andb]. cbv zeta. set (h2 := bucket_remove h1 p).
  assert (Hpb : p <> b) by (intros E; rewrite E in Hpf; congruence).
  apply list_elem_of_split in HbL1 as HL. destruct HL as (l0 & l2 & EL).
  pose proof (ok_seg _ _ _ _ _ Ho1) as Hseg. rewrite EL in Hseg.
  destruct (seg_neighbours _ _ _ _ _ _ _ Hseg) as (Enx & Epv & _). rewrite M3, Ep in Epv.
  destruct (decide (l0 = [])) as [->|Hne]; [cbn [last_of] in Epv; lia|].
  destruct (exists_last Hne) as (l1 & p' & ->). rewrite last_of_app in Epv. subst p'.
  assert (HpL : p ∈ L1) by (rewrite EL; apply elem_of_app; left; apply elem_of_app; right; by apply elem_of_cons; left).
  destruct (bucket_remove_ok h1 L1 bs1 fin [] Ho1 p HpL ltac:(congruence) ltac:(apply not_elem_of_nil)) as (Hlo & _).
  fold h2 in Hlo. destruct (lo_blk _ _ Hlo b) as ((Q1 & _ & Q3 & _) & Q2 & _).
  pose proof (seg_NoDup _ _ _ _ _ Hseg) as Hnd. rewrite <- app_assoc in Hnd. apply NoDup_app in Hnd as (_ & _ & N3).
  cbn [app] in N3. apply NoDup_cons in N3 as [N3 _].
  assert (Hn2 : next (blk h2 b) <> p).
  { rewrite Q3, Enx. destruct l2 as [|d l2]; cbn [hd]; [congruence|]. intros ->. apply N3. apply elem_of_cons. right.
    by apply elem_of_cons; left. }
  assert (Hj : magic (blk (join h2 p b) b) = magic (blk h2 b) /\ free (blk (join h2 p b) b) = free (blk h2 b)).
  { rewrite (join_blk h2 p b Hpb Hn2 b), decide_False by congruence.
    by destruct (decide (b = next (blk h2 b) /\ next (blk h2 b) <> 0)). }
  rewrite blk_push by congruence. rewrite !blk_upd. rewrite !(decide_False (P := b = p)) by congruence.
  destruct Hj as [-> ->]. split; congruence.
Qed.

(** Freeing a block twice is not always noticed: when the block before it was
    free, the first call merges it there and leaves its own header as it was,
    so the second call passes every test, counts no bad free, and coalesces
    memory that may be in use again. *)
Theorem double_free_missed h L bs fin b p sz n : ok h L bs fin [] -> live h L b = Some (sz, n) ->
  prev (blk h b) = p -> p <> 0 -> free (blk h p) = true ->
  g_heap_bad_frees (kfree (kfree h (payload b)) (payload b)) = g_heap_bad_frees h.
Proof.
  intros Hok Hl Ep Hp0 Hpf. destruct (kfree_stale h L bs fin b p sz n Hok Hl Ep Hp0 Hpf) as [Hm Hf].
  destruct (live_in _ _ _ _ Hl) as (HbL & Hbf & _). pose proof (ok_magic _ _ _ _ _ _ Hok HbL) as Hm0.
  pose proof (seg_bounds _ _ _ _ _ (ok_seg _ _ _ _ _ Hok) b HbL) as Hbd.
  assert (Hpay : payload b <> 0) by (unfold payload; change sizeof_block with 48; lia).
  rewrite kfree_counts_nothing by assumption. by apply kfree_counts_nothing.
Qed.

(** ** The heap after its initialisation *)
Lemma single_ok h b sz : blk h b = Block HEAP_MAGIC sz 0 true 0 0 -> head h = b ->
  buckets h = (replicate 21 0).[class_for sz <- b] -> 4096 <= b -> (16 | b) -> 0 <= sz ->
  b + 64 + sz <= 18446744073709551616 ->
  ok h [b] (fun i => if i =? class_for sz then [b] else []) (b + 64 + sz) [].
Proof.
  intros Eb Eh Ebk H4 H16 Hsz Hfin. pose proof (class_range sz) as Hr. change NUM_BUCKETS with 21 in Hr. split.
  - cbn [seg hd]. rewrite Eb. splits; try reflexivity; assumption.
  - exact Hfin.
  - exact Eh.
  - rewrite Ebk. by rewrite length_updZ.
  - intros i Hi. rewrite Ebk. destruct (Z.eqb_spec i (class_for sz)) as [->|Hne].
    + rewrite nthZ_updZ_eq by (unfold len; rewrite length_replicate; lia). cbn [fl chain]. rewrite Eb. splits; try done. lia.
    + rewrite nthZ_updZ_ne by lia. apply nthZ_replicate. lia.
  - intros i Hi. destruct (i =? class_for sz); [apply NoDup_singleton|apply NoDup_nil_2].
  - intros i a Hi. rewrite list_elem_of_singleton. split.
    + destruct (Z.eqb_spec i (class_for sz)) as [->|]; [|intros Ha; by apply not_elem_of_nil in Ha].
      intros ->%list_elem_of_singleton. rewrite Eb. splits; try reflexivity. apply not_elem_of_nil.
    + intros (-> & _ & _ & <-). rewrite Eb. cbn [size]. rewrite Z.eqb_refl. by apply list_elem_of_singleton.
Qed.

Lemma push_blk_same h b ci : blk (bucket_push h b ci) b = set_req ((buckets h).[ci]) (blk h b).
Proof.
  transitivity (blk (bfree_set_next h b ((buckets h).[ci])) b); [reflexivity|].
  unfold bfree_set_next. rewrite blk_upd. by rewrite decide_True.
Qed.

(** The first [grow]: one free block. *)
Lemma grow_first `{Reclaimer} hhdm h h' b : head h = 0 -> grow hhdm h 1048576 = Ret (h', b) ->
  blk h' b = Block HEAP_MAGIC 1052608 0 true 0 0 /\ head h' = b /\ buckets h' = buckets h.
Proof.
  intros Eh Hg. unfold grow in Hg. cbv zeta in Hg.
  destruct (pmm_alloc_pages _ _) as [[pm' p]|]; cbn [obind] in Hg; [|done].
  change (head (upd h ?a ?f)) with (head h) in Hg. rewrite Eh, Z.eqb_refl in Hg. injection Hg as <- <-.
  split; [|done]. set (a := phys_to_virt hhdm p).
  transitivity (blk (upd h a (fun _ => Block HEAP_MAGIC 1052608 0 true 0 0)) a); [reflexivity|].
  rewrite blk_upd. by rewrite decide_True.
Qed.

(** [heap_init] establishes the invariant with one free block. *)
Lemma heap_init_ok `{Reclaimer} hhdm pm h : heap_init hhdm pm = Ret h -> 4096 <= head h -> (16 | head h) ->
  head h + 1052672 <= 18446744073709551616 ->
  exists bs, ok h [head h] bs (head h + 1052672) [] /\ free (blk h (head h)) = true /\ size (blk h (head h)) = 1052608.
Proof.
  unfold heap_init. cbv zeta. set (h0 := Heap _ _ _ _ _ _ _ _ _). intros Hi H4 H16 Hfin.
  destruct (grow hhdm h0 1048576) as [[h1 b]|] eqn:Eg; cbn [obind] in Hi; [|done]. injection Hi as Hi.
  destruct (grow_first hhdm h0 h1 b eq_refl Eg) as (Eb & Eh & Ebk). rewrite Eb in Hi. cbn [size] in Hi.
  change (class_for 1052608) with 20 in Hi. change (buckets h0) with (replicate 21 0) in Ebk. clear Eg. clearbody h0.
  assert (Ehb : head h = b) by (rewrite <- Hi, <- Eh; reflexivity). rewrite Ehb in *.
  assert (Eb' : blk h b = Block HEAP_MAGIC 1052608 0 true 0 0).
  { rewrite <- Hi, push_blk_same, Eb, Ebk. reflexivity. }
  pose proof (single_ok h b 1052608 Eb' Ehb) as Hs. rewrite Eb'.
  eexists. split; [|split; reflexivity]. replace (b + 1052672) with (b + 64 + 1052608) by lia. apply Hs; try assumption; try lia.
  rewrite <- Hi. change (buckets (bucket_push h1 b 20)) with ((buckets h1).[20 <- b]). by rewrite Ebk.
Qed.

(** ** Concrete heaps *)
Definition demo_stats : heap_stats := Stats 0 0 0 0 0 0 1 (replicate 21 0).
Definition demo_heap : heap :=
  Heap {[8192 := Block HEAP_MAGIC 4032 0 true 0 0]} ∅ 8192 ((replicate 21 0).[15 <- 8192]) 1 demo_stats 0 0 demo_pmm.
Definition demo_pair : heap :=
  Heap (<[8192 := Block HEAP_MAGIC 32 0 true 8288 0]> {[8288 := Block HEAP_MAGIC 32 32 false 0 8192]})
    {[8368 := HEAP_CANARY]} 8192 ((replicate 21 0).[1 <- 8192]) 1 demo_stats 0 0 demo_pmm.

Lemma demo_heap_ok : ok demo_heap [8192] (fun i => if i =? 15 then [8192] else []) 12288 [].
Proof. apply (single_ok demo_heap 8192 4032); try reflexivity; try lia. by exists 512. Qed.

Lemma demo_pair_ok : ok demo_pair [8192; 8288] (fun i => if i =? 1 then [8192] else []) 8384 [].
Proof.
  split.
  - cbn [seg hd]. splits; try reflexivity; try lia; vm_compute; try discriminate; [by exists 512|by exists 518].
  - lia.
  - reflexivity.
  - reflexivity.
  - intros i Hi. destruct (Z.eqb_spec i 1) as [->|Hne]; [by vm_compute|]. change (fl (blk demo_pair) (buckets demo_pair).[i] []) with
      (((replicate 21 0).[1 <- 8192]).[i] = 0). rewrite nthZ_updZ_ne by lia. apply nthZ_replicate. lia.
  - intros i Hi. destruct (i =? 1); [apply NoDup_singleton|apply NoDup_nil_2].
  - intros i a Hi. rewrite !elem_of_cons. split.
    + destruct (Z.eqb_spec i 1) as [->|]; [|intros Ha; by apply not_elem_of_nil in Ha].
      intros ->%list_elem_of_singleton. splits; try reflexivity; [by left|apply not_elem_of_nil].
    + intros ([->|[->|Ha]] & Hf & _ & <-); [by apply list_elem_of_singleton|by vm_compute in Hf|by apply not_elem_of_nil in Ha].
Qed.

Lemma kmalloc_refines_witness : exists h' L' bs' b,
  @kmalloc no_reclaim 0 demo_heap 100 = Ret (h', payload b) /\ ok h' L' bs' 12288 [] /\
  acquired demo_heap [8192] h' L' b (up16 100) /\ pages h' = pages demo_heap /\ heap_pages_total h' = 1.
Proof.
  apply (@kmalloc_refines no_reclaim 0 demo_heap [8192] (fun i => if i =? 15 then [8192] else []) 12288 100 8192).
  - exact demo_heap_ok.
  - reflexivity.
  - reflexivity.
  - by apply elem_of_cons; left.
  - reflexivity.
  - vm_compute. discriminate.
  - left. reflexivity.
Defined.

Lemma kfree_refines_witness : exists L' bs', ok (kfree demo_pair (payload 8288)) L' bs' 8384 [] /\
    (forall a, live (kfree demo_pair (payload 8288)) L' a
       = if decide (a = 8288) then None else live demo_pair [8192; 8288] a) /\
    g_heap_bad_frees (kfree demo_pair (payload 8288)) = g_heap_bad_frees demo_pair /\
    g_heap_bad_canaries (kfree demo_pair (payload 8288)) =
      if default 0 (words demo_pair !! (payload 8288 + 32)) =? HEAP_CANARY then g_heap_bad_canaries demo_pair
      else u64 (g_heap_bad_canaries demo_pair + 1).
Proof.
  apply (kfree_refines demo_pair [8192; 8288] (fun i => if i =? 1 then [8192] else []) 8384 8288 32 32).
  - exact demo_pair_ok.
  - reflexivity.
Defined.

Lemma double_free_missed_witness :
  g_heap_bad_frees (kfree (kfree demo_pair (payload 8288)) (payload 8288)) = 0.
Proof.
  apply (double_free_missed demo_pair [8192; 8288] (fun i => if i =? 1 then [8192] else []) 8384 8288 8192 32 32).
  - exact demo_pair_ok.
  - reflexivity.
  - reflexivity.
  - discriminate.
  - reflexivity.
Defined.
