(* ===== verification/Sched.v ===== *)
(** * The scheduler and the watchdog (kernel/sched/sched.c, kernel/sched/watchdog.c)

    Tasks and per-CPU areas are records in finite maps, keyed by the address of
    the structure and by the CPU number; run queues are linked through
    [rq_next] as in the code. Each operation is one function of the state and
    the CPU it runs on: the critical sections are the steps that interleave.
    What the code does to hardware, page tables and user memory is logged in
    [effects], newest first. *)
From Stdlib Require Import ZArith Lia Bool.
From stdpp Require Import base list numbers option gmap sets.
From S2P Require Import Prelude.
#[local] Set Default Goal Selector "!".
Open Scope Z_scope.

Inductive task_state := TASK_READY | TASK_RUNNING | TASK_BLOCKED | TASK_ZOMBIE | TASK_STOPPED.
#[export] Instance task_state_eq : EqDecision task_state.
Proof. solve_decision. Defined.
Definition is_state (a b : task_state) : bool := bool_decide (a = b).

(** The part of [cpu_regs_t] the scheduler reads or writes. *)
Record regs := Regs { r_rax : Z; r_rip : Z; r_cs : Z; r_rsp : Z }.
Definition sizeof_regs : Z := 176.

Inductive effect :=
| Ipi (lapic : Z)
| FpuClean (t : Z) | FpuSave (t : Z) | FpuRestore (t : Z) | LoadPml4 (p : Z) | SetFsBase (v : Z) | SetRsp0 (top : Z)
| FreePml4 (p : Z) | FreeKstack (top : Z) | UserTeardown (pml4 : Z) | SurfaceOwnerDied (pid : Z)
| Store32 (a v : Z) | Store64 (a v : Z) | StoreFrame (a : Z) (r : regs)
| Restart (fn : Z) | BlkfsSync | RunWork (fn arg : Z).

(** The fields of [task_t] the scheduler uses; [rq_cpu] is the CPU whose queue
    holds the task. *)
Record task := Task { pid : Z; ppid : Z; state : task_state; exit_status : Z; is_user : bool; linux_abi :
  bool; linux_fs_base : Z; pml4 : Z; kstack_top : Z; saved_rsp : Z; last_sched : Z; sig_handlers : list Z;
  sig_pending : Z; sig_blocked : Z; clear_child_tid : Z; mem_pages : Z; mem_limit_pages : Z; waiting : bool;
  wait_pid : Z; rq_cpu : option Z; rq_next : Z }.
Definition with_state (v : task_state) (t : task) : task := Task (pid t) (ppid t) v (exit_status t) (is_user
  t) (linux_abi t) (linux_fs_base t) (pml4 t) (kstack_top t) (saved_rsp t) (last_sched t) (sig_handlers t)
  (sig_pending t) (sig_blocked t) (clear_child_tid t) (mem_pages t) (mem_limit_pages t) (waiting t) (wait_pid
  t) (rq_cpu t) (rq_next t).
Definition with_exit_status (v : Z) (t : task) : task := Task (pid t) (ppid t) (state t) v (is_user t)
  (linux_abi t) (linux_fs_base t) (pml4 t) (kstack_top t) (saved_rsp t) (last_sched t) (sig_handlers t)
  (sig_pending t) (sig_blocked t) (clear_child_tid t) (mem_pages t) (mem_limit_pages t) (waiting t) (wait_pid
  t) (rq_cpu t) (rq_next t).
Definition with_pml4 (v : Z) (t : task) : task := Task (pid t) (ppid t) (state t) (exit_status t) (is_user t)
  (linux_abi t) (linux_fs_base t) v (kstack_top t) (saved_rsp t) (last_sched t) (sig_handlers t) (sig_pending
  t) (sig_blocked t) (clear_child_tid t) (mem_pages t) (mem_limit_pages t) (waiting t) (wait_pid t) (rq_cpu t)
  (rq_next t).
Definition with_kstack_top (v : Z) (t : task) : task := Task (pid t) (ppid t) (state t) (exit_status t)
  (is_user t) (linux_abi t) (linux_fs_base t) (pml4 t) v (saved_rsp t) (last_sched t) (sig_handlers t)
  (sig_pending t) (sig_blocked t) (clear_child_tid t) (mem_pages t) (mem_limit_pages t) (waiting t) (wait_pid
  t) (rq_cpu t) (rq_next t).
Definition with_saved_rsp (v : Z) (t : task) : task := Task (pid t) (ppid t) (state t) (exit_status t)
  (is_user t) (linux_abi t) (linux_fs_base t) (pml4 t) (kstack_top t) v (last_sched t) (sig_handlers t)
  (sig_pending t) (sig_blocked t) (clear_child_tid t) (mem_pages t) (mem_limit_pages t) (waiting t) (wait_pid
  t) (rq_cpu t) (rq_next t).
Definition with_last_sched (v : Z) (t : task) : task := Task (pid t) (ppid t) (state t) (exit_status t)
  (is_user t) (linux_abi t) (linux_fs_base t) (pml4 t) (kstack_top t) (saved_rsp t) v (sig_handlers t)
  (sig_pending t) (sig_blocked t) (clear_child_tid t) (mem_pages t) (mem_limit_pages t) (waiting t) (wait_pid
  t) (rq_cpu t) (rq_next t).
Definition with_sig_pending (v : Z) (t : task) : task := Task (pid t) (ppid t) (state t) (exit_status t)
  (is_user t) (linux_abi t) (linux_fs_base t) (pml4 t) (kstack_top t) (saved_rsp t) (last_sched t)
  (sig_handlers t) v (sig_blocked t) (clear_child_tid t) (mem_pages t) (mem_limit_pages t) (waiting t)
  (wait_pid t) (rq_cpu t) (rq_next t).
Definition with_mem_pages (v : Z) (t : task) : task := Task (pid t) (ppid t) (state t) (exit_status t)
  (is_user t) (linux_abi t) (linux_fs_base t) (pml4 t) (kstack_top t) (saved_rsp t) (last_sched t)
  (sig_handlers t) (sig_pending t) (sig_blocked t) (clear_child_tid t) v (mem_limit_pages t) (waiting t)
  (wait_pid t) (rq_cpu t) (rq_next t).
Definition with_waiting (v : bool) (t : task) : task := Task (pid t) (ppid t) (state t) (exit_status t)
  (is_user t) (linux_abi t) (linux_fs_base t) (pml4 t) (kstack_top t) (saved_rsp t) (last_sched t)
  (sig_handlers t) (sig_pending t) (sig_blocked t) (clear_child_tid t) (mem_pages t) (mem_limit_pages t) v
  (wait_pid t) (rq_cpu t) (rq_next t).
Definition with_wait_pid (v : Z) (t : task) : task := Task (pid t) (ppid t) (state t) (exit_status t) (is_user
  t) (linux_abi t) (linux_fs_base t) (pml4 t) (kstack_top t) (saved_rsp t) (last_sched t) (sig_handlers t)
  (sig_pending t) (sig_blocked t) (clear_child_tid t) (mem_pages t) (mem_limit_pages t) (waiting t) v (rq_cpu
  t) (rq_next t).
Definition with_rq_cpu (v : option Z) (t : task) : task := Task (pid t) (ppid t) (state t) (exit_status t)
  (is_user t) (linux_abi t) (linux_fs_base t) (pml4 t) (kstack_top t) (saved_rsp t) (last_sched t)
  (sig_handlers t) (sig_pending t) (sig_blocked t) (clear_child_tid t) (mem_pages t) (mem_limit_pages t)
  (waiting t) (wait_pid t) v (rq_next t).
Definition with_rq_next (v : Z) (t : task) : task := Task (pid t) (ppid t) (state t) (exit_status t) (is_user
  t) (linux_abi t) (linux_fs_base t) (pml4 t) (kstack_top t) (saved_rsp t) (last_sched t) (sig_handlers t)
  (sig_pending t) (sig_blocked t) (clear_child_tid t) (mem_pages t) (mem_limit_pages t) (waiting t) (wait_pid
  t) (rq_cpu t) v.

(** Per-CPU areas. *)
Record cpu := Cpu { ap_current : Z; ap_next : Z; ap_rq_head : Z; ap_rq_tail : Z; ap_rq_count : Z; ap_up :
  bool; ap_lapic_id : Z; ap_rsp0 : Z; ap_yield_pending : Z; ap_steals : Z; ap_kwork : option (Z * Z) }.
Definition with_ap_current (v : Z) (o : cpu) : cpu := Cpu v (ap_next o) (ap_rq_head o) (ap_rq_tail o)
  (ap_rq_count o) (ap_up o) (ap_lapic_id o) (ap_rsp0 o) (ap_yield_pending o) (ap_steals o) (ap_kwork o).
Definition with_ap_next (v : Z) (o : cpu) : cpu := Cpu (ap_current o) v (ap_rq_head o) (ap_rq_tail o)
  (ap_rq_count o) (ap_up o) (ap_lapic_id o) (ap_rsp0 o) (ap_yield_pending o) (ap_steals o) (ap_kwork o).
Definition with_ap_rq_head (v : Z) (o : cpu) : cpu := Cpu (ap_current o) (ap_next o) v (ap_rq_tail o)
  (ap_rq_count o) (ap_up o) (ap_lapic_id o) (ap_rsp0 o) (ap_yield_pending o) (ap_steals o) (ap_kwork o).
Definition with_ap_rq_tail (v : Z) (o : cpu) : cpu := Cpu (ap_current o) (ap_next o) (ap_rq_head o) v
  (ap_rq_count o) (ap_up o) (ap_lapic_id o) (ap_rsp0 o) (ap_yield_pending o) (ap_steals o) (ap_kwork o).
Definition with_ap_rq_count (v : Z) (o : cpu) : cpu := Cpu (ap_current o) (ap_next o) (ap_rq_head o)
  (ap_rq_tail o) v (ap_up o) (ap_lapic_id o) (ap_rsp0 o) (ap_yield_pending o) (ap_steals o) (ap_kwork o).
Definition with_ap_yield_pending (v : Z) (o : cpu) : cpu := Cpu (ap_current o) (ap_next o) (ap_rq_head o)
  (ap_rq_tail o) (ap_rq_count o) (ap_up o) (ap_lapic_id o) (ap_rsp0 o) v (ap_steals o) (ap_kwork o).
Definition with_ap_steals (v : Z) (o : cpu) : cpu := Cpu (ap_current o) (ap_next o) (ap_rq_head o) (ap_rq_tail
  o) (ap_rq_count o) (ap_up o) (ap_lapic_id o) (ap_rsp0 o) (ap_yield_pending o) v (ap_kwork o).
Definition with_ap_kwork (v : option (Z * Z)) (o : cpu) : cpu := Cpu (ap_current o) (ap_next o) (ap_rq_head o)
  (ap_rq_tail o) (ap_rq_count o) (ap_up o) (ap_lapic_id o) (ap_rsp0 o) (ap_yield_pending o) (ap_steals o) v.

Record wd_service := Service { last_kick : Z; restart : Z; registered : bool }.
Record watchdog := Watchdog { g_services : list wd_service; g_wd_checks : Z; g_wd_restarts : Z; g_wd_kills :
  Z; g_wd_inited : bool; g_last_wb : Z }.
Definition with_g_services (v : list wd_service) (w : watchdog) : watchdog := Watchdog v (g_wd_checks w)
  (g_wd_restarts w) (g_wd_kills w) (g_wd_inited w) (g_last_wb w).
Definition with_g_wd_checks (v : Z) (w : watchdog) : watchdog := Watchdog (g_services w) v (g_wd_restarts w)
  (g_wd_kills w) (g_wd_inited w) (g_last_wb w).
Definition with_g_wd_restarts (v : Z) (w : watchdog) : watchdog := Watchdog (g_services w) (g_wd_checks w) v
  (g_wd_kills w) (g_wd_inited w) (g_last_wb w).
Definition with_g_wd_kills (v : Z) (w : watchdog) : watchdog := Watchdog (g_services w) (g_wd_checks w)
  (g_wd_restarts w) v (g_wd_inited w) (g_last_wb w).
Definition with_g_last_wb (v : Z) (w : watchdog) : watchdog := Watchdog (g_services w) (g_wd_checks w)
  (g_wd_restarts w) (g_wd_kills w) (g_wd_inited w) v.

(** The state of the scheduler and of the watchdog. [g_sleepers] pairs a task
    with its wake-up tick, [g_futex] a task with its address, [g_shared] a page
    table with its count. *)
Record sys := Sys { tasks : gmap Z task; cpus : gmap Z cpu; g_tasks : list Z; g_idle_task : Z; g_wd_tick_cnt :
  Z; g_next_pid : Z; g_idle_handoff : bool; g_leaked_tasks : Z; g_sleepers : list (Z * Z); g_futex : list (Z *
  Z); g_shared : list (Z * Z); frames : gmap Z regs; wd : watchdog; pit_ticks : Z; effects : list effect }.
Definition with_tasks (v : gmap Z task) (s : sys) : sys := Sys v (cpus s) (g_tasks s) (g_idle_task s)
  (g_wd_tick_cnt s) (g_next_pid s) (g_idle_handoff s) (g_leaked_tasks s) (g_sleepers s) (g_futex s) (g_shared
  s) (frames s) (wd s) (pit_ticks s) (effects s).
Definition with_cpus (v : gmap Z cpu) (s : sys) : sys := Sys (tasks s) v (g_tasks s) (g_idle_task s)
  (g_wd_tick_cnt s) (g_next_pid s) (g_idle_handoff s) (g_leaked_tasks s) (g_sleepers s) (g_futex s) (g_shared
  s) (frames s) (wd s) (pit_ticks s) (effects s).
Definition with_g_tasks (v : list Z) (s : sys) : sys := Sys (tasks s) (cpus s) v (g_idle_task s)
  (g_wd_tick_cnt s) (g_next_pid s) (g_idle_handoff s) (g_leaked_tasks s) (g_sleepers s) (g_futex s) (g_shared
  s) (frames s) (wd s) (pit_ticks s) (effects s).
Definition with_g_idle_task (v : Z) (s : sys) : sys := Sys (tasks s) (cpus s) (g_tasks s) v (g_wd_tick_cnt s)
  (g_next_pid s) (g_idle_handoff s) (g_leaked_tasks s) (g_sleepers s) (g_futex s) (g_shared s) (frames s) (wd
  s) (pit_ticks s) (effects s).
Definition with_g_wd_tick_cnt (v : Z) (s : sys) : sys := Sys (tasks s) (cpus s) (g_tasks s) (g_idle_task s) v
  (g_next_pid s) (g_idle_handoff s) (g_leaked_tasks s) (g_sleepers s) (g_futex s) (g_shared s) (frames s) (wd
  s) (pit_ticks s) (effects s).
Definition with_g_next_pid (v : Z) (s : sys) : sys := Sys (tasks s) (cpus s) (g_tasks s) (g_idle_task s)
  (g_wd_tick_cnt s) v (g_idle_handoff s) (g_leaked_tasks s) (g_sleepers s) (g_futex s) (g_shared s) (frames s)
  (wd s) (pit_ticks s) (effects s).
Definition with_g_idle_handoff (v : bool) (s : sys) : sys := Sys (tasks s) (cpus s) (g_tasks s) (g_idle_task
  s) (g_wd_tick_cnt s) (g_next_pid s) v (g_leaked_tasks s) (g_sleepers s) (g_futex s) (g_shared s) (frames s)
  (wd s) (pit_ticks s) (effects s).
Definition with_g_leaked_tasks (v : Z) (s : sys) : sys := Sys (tasks s) (cpus s) (g_tasks s) (g_idle_task s)
  (g_wd_tick_cnt s) (g_next_pid s) (g_idle_handoff s) v (g_sleepers s) (g_futex s) (g_shared s) (frames s) (wd
  s) (pit_ticks s) (effects s).
Definition with_g_sleepers (v : list (Z * Z)) (s : sys) : sys := Sys (tasks s) (cpus s) (g_tasks s)
  (g_idle_task s) (g_wd_tick_cnt s) (g_next_pid s) (g_idle_handoff s) (g_leaked_tasks s) v (g_futex s)
  (g_shared s) (frames s) (wd s) (pit_ticks s) (effects s).
Definition with_g_futex (v : list (Z * Z)) (s : sys) : sys := Sys (tasks s) (cpus s) (g_tasks s) (g_idle_task
  s) (g_wd_tick_cnt s) (g_next_pid s) (g_idle_handoff s) (g_leaked_tasks s) (g_sleepers s) v (g_shared s)
  (frames s) (wd s) (pit_ticks s) (effects s).
Definition with_g_shared (v : list (Z * Z)) (s : sys) : sys := Sys (tasks s) (cpus s) (g_tasks s) (g_idle_task
  s) (g_wd_tick_cnt s) (g_next_pid s) (g_idle_handoff s) (g_leaked_tasks s) (g_sleepers s) (g_futex s) v
  (frames s) (wd s) (pit_ticks s) (effects s).
Definition with_frames (v : gmap Z regs) (s : sys) : sys := Sys (tasks s) (cpus s) (g_tasks s) (g_idle_task s)
  (g_wd_tick_cnt s) (g_next_pid s) (g_idle_handoff s) (g_leaked_tasks s) (g_sleepers s) (g_futex s) (g_shared
  s) v (wd s) (pit_ticks s) (effects s).
Definition with_wd (v : watchdog) (s : sys) : sys := Sys (tasks s) (cpus s) (g_tasks s) (g_idle_task s)
  (g_wd_tick_cnt s) (g_next_pid s) (g_idle_handoff s) (g_leaked_tasks s) (g_sleepers s) (g_futex s) (g_shared
  s) (frames s) v (pit_ticks s) (effects s).
Definition with_effects (v : list effect) (s : sys) : sys := Sys (tasks s) (cpus s) (g_tasks s) (g_idle_task
  s) (g_wd_tick_cnt s) (g_next_pid s) (g_idle_handoff s) (g_leaked_tasks s) (g_sleepers s) (g_futex s)
  (g_shared s) (frames s) (wd s) (pit_ticks s) v.

(** What the scheduler needs to know of the page tables and of the AP start-up
    code. *)
Class Machine := {
  kernel_pml4 : Z; smp_ap_idle_entry : Z;
  vmm_user_range_ok : Z -> Z -> Z -> bool }.

Definition TICK_HZ : Z := 250.
Definition MS_TO_TICKS (ms : Z) : Z := u32 (ms * TICK_HZ) / 1000.
Definition AP_WAKE_VEC : Z := 62.
Definition SLEEP_MAX : Z := 64.
Definition FUTEX_MAX : Z := 64.
Definition SHARED_PML4_MAX : Z := 64.
Definition USER_VBASE : Z := 1073741824.
Definition USER_STACK_TOP : Z := 2147483648.
Definition SIGRETURN_TRAMP_VA : Z := 1862270976.
Definition HSCRATCH : Z := 512.
Definition USER_CS : Z := 27.
Definition WATCHDOG_TIMEOUT_TICKS : Z := MS_TO_TICKS 15000.
Definition HUNG_TASK_TIMEOUT_TICKS : Z := MS_TO_TICKS 20000.
Definition WNOHANG : Z := 1.

Definition no_task : task :=
  Task 0 0 TASK_READY 0 false false 0 0 0 0 0 (replicate 32 0) 0 0 0 0 0 false 0 None 0.
Definition no_cpu : cpu := Cpu 0 0 0 0 0 false 0 0 0 0 None.
Definition get (s : sys) (t : Z) : task := default no_task (tasks s !! t).
Definition put (s : sys) (t : Z) (f : task -> task) : sys := with_tasks (<[t := f (get s t)]> (tasks s)) s.
Definition core (s : sys) (c : Z) : cpu := default no_cpu (cpus s !! c).
Definition put_core (s : sys) (c : Z) (f : cpu -> cpu) : sys := with_cpus (<[c := f (core s c)]> (cpus s)) s.
Definition emit (e : effect) (s : sys) : sys := with_effects (e :: effects s) s.
Definition cpu_ids : list Z := [0; 1; 2; 3; 4; 5; 6; 7].
Definition ipi (s : sys) (c : Z) : sys := emit (Ipi (ap_lapic_id (core s c))) s.

(** ** Run queues *)
Definition rq_pop (s : sys) (c : Z) : sys * Z :=
  let t := ap_rq_head (core s c) in
  if t =? 0 then (s, 0)
  else
    let s := put_core s c (with_ap_rq_head (rq_next (get s t))) in
    let s := if ap_rq_head (core s c) =? 0 then put_core s c (with_ap_rq_tail 0) else s in
    let s := put_core s c (fun o => with_ap_rq_count (u32 (ap_rq_count o - 1)) o) in
    (put (put s t (with_rq_next 0)) t (with_rq_cpu None), t).

Definition rq_push (s : sys) (c t : Z) : sys :=
  let s := put (put s t (with_rq_next 0)) t (with_rq_cpu (Some c)) in
  let tl := ap_rq_tail (core s c) in
  let s := if tl =? 0 then put_core s c (with_ap_rq_head t) else put s tl (with_rq_next t) in
  let s := put_core s c (with_ap_rq_tail t) in
  put_core s c (fun o => with_ap_rq_count (u32 (ap_rq_count o + 1)) o).

Definition rq_push_pop (s : sys) (c p : Z) : sys * Z :=
  rq_pop (if p =? 0 then s else rq_push s c p) c.

(** Bound on a walk along a queue: it fits the tasks. *)
Definition walk_fuel (s : sys) : nat := S (Datatypes.length (map_to_list (tasks s))).

(** The link that holds [t]: the head ([Some None]), the [rq_next] of a task,
    or none. *)
Fixpoint rq_find (k : nat) (s : sys) (pp : option Z) (x t : Z) : option (option Z) :=
  match k with
  | O => None
  | S k => if x =? 0 then None else if x =? t then Some pp else rq_find k s (Some x) (rq_next (get s x)) t
  end.
Fixpoint rq_last (k : nat) (s : sys) (w : Z) : Z :=
  match k with
  | O => w
  | S k => if rq_next (get s w) =? 0 then w else rq_last k s (rq_next (get s w))
  end.

Definition rq_remove (s : sys) (c t : Z) : sys :=
  match rq_find (walk_fuel s) s None (ap_rq_head (core s c)) t with
  | None => s
  | Some pp =>
    let s := match pp with
             | None => put_core s c (with_ap_rq_head (rq_next (get s t)))
             | Some w => put s w (with_rq_next (rq_next (get s t)))
             end in
    let s := if ap_rq_head (core s c) =? 0 then put_core s c (with_ap_rq_tail 0)
             else if ap_rq_tail (core s c) =? t
             then put_core s c (with_ap_rq_tail (rq_last (walk_fuel s) s (ap_rq_head (core s c))))
             else s in
    let s := put_core s c (fun o => with_ap_rq_count (u32 (ap_rq_count o - 1)) o) in
    put (put s t (with_rq_next 0)) t (with_rq_cpu None)
  end.

Definition smp_load (s : sys) (o : cpu) : Z :=
  if negb (ap_current o =? 0) && is_user (get s (ap_current o)) then u32 (ap_rq_count o + 1) else ap_rq_count o.
Definition smp_least_loaded (s : sys) : option Z :=
  fst (fold_left (fun (acc : option Z * Z) i =>
    match cpus s !! i with
    | Some o => if ap_up o && (smp_load s o <? snd acc) then (Some i, smp_load s o) else acc
    | None => acc
    end) (tail cpu_ids) (None, 4294967295)).

(** Queue [t] on the least loaded CPU, mark it ready, poke that CPU. *)
Definition make_ready (s : sys) (c t : Z) : sys :=
  let target := default c (smp_least_loaded s) in
  let s := rq_push s target t in
  let s := put s t (with_state TASK_READY) in
  ipi s target.

Definition sched_current (s : sys) (c : Z) : Z := ap_current (core s c).
Definition task_running_anywhere (s : sys) (t : Z) : bool :=
  existsb (fun i => match cpus s !! i with Some o => ap_current o =? t | None => false end) cpu_ids.
(** Drop [t] from every parking slot. *)
Definition unpark (s : sys) (t : Z) : sys :=
  fold_left (fun s i => match cpus s !! i with
                        | Some o => if ap_next o =? t then put_core s i (with_ap_next 0) else s
                        | None => s
                        end) cpu_ids s.
(** Poke the CPU that runs [t]. *)
Definition poke_runner (s : sys) (t : Z) : sys :=
  match find (fun i => match cpus s !! i with Some o => ap_current o =? t | None => false end) cpu_ids with
  | Some i => ipi s i
  | None => s
  end.

(** ** Futexes *)
Fixpoint first_free (l : list (Z * Z)) (i : nat) : option nat :=
  match l with [] => None | (w, _) :: r => if w =? 0 then Some i else first_free r (S i) end.
Definition sched_futex_wait (s : sys) (c addr : Z) : sys :=
  let cur := sched_current s c in
  if cur =? 0 then s
  else if is_state (state (get s cur)) TASK_ZOMBIE then s
  else match first_free (g_futex s) 0 with
       | Some i => put (with_g_futex (<[i := (cur, addr)]> (g_futex s)) s) cur (with_state TASK_BLOCKED)
       | None => s
       end.

Definition futex_slot (s : sys) (i : nat) : Z * Z := default (0, 0) (g_futex s !! i).
Definition free_slot (s : sys) (i : nat) : sys := with_g_futex (<[i := (0, snd (futex_slot s i))]> (g_futex s)) s.
Definition wake_slot (s : sys) (c : Z) (i : nat) : sys * Z :=
  let t := fst (futex_slot s i) in
  let s := free_slot s i in
  if is_state (state (get s t)) TASK_BLOCKED then (make_ready s c t, 1) else (s, 0).

Fixpoint futex_wake_from (k : nat) (s : sys) (c addr : Z) (i : nat) (max woken : Z) : sys * Z :=
  match k with
  | O => (s, woken)
  | S k =>
    if negb (woken <? max) then (s, woken)
    else
      let '(t, a) := futex_slot s i in
      if negb (t =? 0) && (a =? addr)
      then let '(s, w) := wake_slot s c i in futex_wake_from k s c addr (S i) max (woken + w)
      else futex_wake_from k s c addr (S i) max woken
  end.
Definition sched_futex_wake (s : sys) (c addr max : Z) : sys * Z :=
  futex_wake_from (Z.to_nat FUTEX_MAX) s c addr 0 max 0.

Fixpoint futex_requeue_from (k : nat) (s : sys) (c a1 a2 : Z) (i : nat) (mw mr woken requeued : Z) : sys * Z :=
  match k with
  | O => (s, woken + requeued)
  | S k =>
    let '(t, a) := futex_slot s i in
    if negb (t =? 0) && (a =? a1) then
      if woken <? mw
      then let '(s, w) := wake_slot s c i in futex_requeue_from k s c a1 a2 (S i) mw mr (woken + w) requeued
      else if requeued <? mr
      then futex_requeue_from k (with_g_futex (<[i := (t, a2)]> (g_futex s)) s) c a1 a2 (S i) mw mr woken (requeued + 1)
      else futex_requeue_from k s c a1 a2 (S i) mw mr woken requeued
    else futex_requeue_from k s c a1 a2 (S i) mw mr woken requeued
  end.
Definition sched_futex_requeue (s : sys) (c a1 a2 mw mr : Z) : sys * Z :=
  futex_requeue_from (Z.to_nat FUTEX_MAX) s c a1 a2 0 mw mr 0 0.

(** ** Shared page tables *)
Fixpoint shared_index (l : list (Z * Z)) (p : Z) (i : nat) : option nat :=
  match l with [] => None | (q, _) :: r => if q =? p then Some i else shared_index r p (S i) end.
Definition shared_refs (s : sys) (i : nat) : Z := snd (default (0, 0) (g_shared s !! i)).
Definition sched_pml4_ref (s : sys) (p : Z) : sys :=
  if p =? 0 then s
  else match shared_index (g_shared s) p 0 with
       | Some i => with_g_shared (<[i := (p, shared_refs s i + 1)]> (g_shared s)) s
       | None => match shared_index (g_shared s) 0 0 with
                 | Some i => with_g_shared (<[i := (p, 2)]> (g_shared s)) s
                 | None => s
                 end
       end.
Definition sched_pml4_unref (s : sys) (p : Z) : sys * bool :=
  if p =? 0 then (s, true)
  else match shared_index (g_shared s) p 0 with
       | Some i =>
         let left := shared_refs s i - 1 in
         if left <=? 0 then (with_g_shared (<[i := (0, left)]> (g_shared s)) s, true)
         else (with_g_shared (<[i := (p, left)]> (g_shared s)) s, false)
       | None => (s, true)
       end.
Definition sched_pml4_is_shared (s : sys) (p : Z) : bool :=
  negb (p =? 0) && match shared_index (g_shared s) p 0 with Some _ => true | None => false end.

(** ** The task list *)
Definition task_append (s : sys) (t : Z) : sys := with_g_tasks (g_tasks s ++ [t]) s.
Fixpoint remove_first (t : Z) (l : list Z) : list Z :=
  match l with [] => [] | x :: r => if x =? t then r else x :: remove_first t r end.
Definition task_remove (s : sys) (t : Z) : sys := with_g_tasks (remove_first t (g_tasks s)) s.
Definition sched_find (s : sys) (p : Z) : Z := default 0 (find (fun t => pid (get s t) =? p) (g_tasks s)).

Definition any_child (p : Z) : bool := (p =? 0) || (p =? 4294967295).
Definition wake_waiting_parent (s : sys) (c child : Z) : sys :=
  let v := get s child in
  if ppid v =? 0 then s
  else
    let p := sched_find s (ppid v) in
    if negb (p =? 0) && waiting (get s p) && is_state (state (get s p)) TASK_BLOCKED then
      if any_child (wait_pid (get s p)) || (wait_pid (get s p) =? pid v)
      then make_ready (put s p (with_waiting false)) c p
      else s
    else s.

(** ** Sleeping *)
Definition sched_sleep_ms (s : sys) (c ms : Z) : sys :=
  let cur := sched_current s c in
  if cur =? 0 then s
  else
    let wake := u64 (pit_ticks s + MS_TO_TICKS ms) in
    if is_state (state (get s cur)) TASK_ZOMBIE then s
    else match first_free (g_sleepers s) 0 with
         | Some i => put (with_g_sleepers (<[i := (cur, wake)]> (g_sleepers s)) s) cur (with_state TASK_BLOCKED)
         | None => s
         end.

Definition wake_sleeper (now c : Z) (s : sys) (i : nat) : sys :=
  let '(t, w) := default (0, 0) (g_sleepers s !! i) in
  if (t =? 0) || (now <? w) then s
  else
    let s := with_g_sleepers (<[i := (0, w)]> (g_sleepers s)) s in
    if is_state (state (get s t)) TASK_BLOCKED then make_ready s c t else s.
Definition sched_wake_sleepers (s : sys) (c now : Z) : sys :=
  fold_left (wake_sleeper now c) (seq 0 (Z.to_nat SLEEP_MAX)) s.

(** ** Accounting *)
Definition sched_charge_pages (s : sys) (c delta : Z) : sys :=
  let t := sched_current s c in
  if (t =? 0) || negb (is_user (get s t)) then s
  else
    let v := get s t in
    if 0 <? delta then
      if mem_limit_pages v <? u64 (mem_pages v + delta) then s
      else put s t (with_mem_pages (u64 (mem_pages v + delta)))
    else put s t (with_mem_pages (if - delta <=? mem_pages v then mem_pages v + delta else 0)).

Definition sched_kick_starved (s : sys) (c t : Z) : sys :=
  if t =? 0 then s
  else if is_state (state (get s t)) TASK_READY && negb (task_running_anywhere s t) then
    match rq_cpu (get s t) with
    | Some q => ipi s q
    | None => make_ready s c t
    end
  else s.

Section Sched.
Context `{Machine}.

Definition sched_exit_group (s : sys) (c p status : Z) : sys :=
  let self := sched_current s c in
  fold_left (fun s t =>
    if (t =? self) || negb (is_user (get s t)) || negb (pml4 (get s t) =? p)
       || is_state (state (get s t)) TASK_ZOMBIE then s
    else
      let s := match rq_cpu (get s t) with Some q => rq_remove s q t | None => s end in
      let s := unpark s t in
      let s := put (put s t (with_exit_status status)) t (with_state TASK_ZOMBIE) in
      wake_waiting_parent s c t) (g_tasks s) s.

Definition sched_exit (s : sys) (c status : Z) : sys :=
  let cur := sched_current s c in
  if (cur =? 0) || negb (is_user (get s cur)) then s
  else
    let tid := clear_child_tid (get s cur) in
    let s := if negb (tid =? 0) && vmm_user_range_ok (pml4 (get s cur)) tid 4
             then fst (sched_futex_wake (emit (Store32 tid 0) s) c tid 1) else s in
    let s := put (put s cur (with_exit_status status)) cur (with_state TASK_ZOMBIE) in
    let s := wake_waiting_parent s c cur in
    let s := if sched_pml4_is_shared s (pml4 (get s cur)) then s
             else emit (UserTeardown (pml4 (get s cur))) s in
    emit (SurfaceOwnerDied (pid (get s cur))) s.

(** ** Signals *)
Definition bit (m sig : Z) : bool := Z.testbit m sig.
Fixpoint deliver_from (k : nat) (s : sys) (c t rsp sig : Z) : sys :=
  match k with
  | O => s
  | S k =>
    let v := get s t in
    if negb (bit (sig_pending v) sig) || bit (sig_blocked v) sig then deliver_from k s c t rsp (sig + 1)
    else
      let h := (sig_handlers v).[sig] in
      let s := put s t (with_sig_pending (Z.clearbit (sig_pending v) sig)) in
      if h =? 0 then sched_exit s c (128 + sig)
      else
        let f := default (Regs 0 0 0 0) (frames s !! rsp) in
        let usp := Z.land (r_rsp f) (u64 (Z.lnot 7)) in
        let ret_va := u64 (usp - 8) in
        let fp_slot := u64 (ret_va - 8) in
        let frame_va := u64 (fp_slot - sizeof_regs - HSCRATCH) in
        if (frame_va <? USER_VBASE) || (USER_STACK_TOP <? u64 (frame_va + sizeof_regs + HSCRATCH + 16))
        then sched_exit s c (128 + sig)
        else
          let s := emit (StoreFrame frame_va f) s in
          let s := emit (Store64 fp_slot frame_va) s in
          let s := emit (Store64 ret_va SIGRETURN_TRAMP_VA) s in
          with_frames (<[rsp := Regs sig h (r_cs f) ret_va]> (frames s)) s
  end.
Definition deliver_pending_signal (s : sys) (c t rsp : Z) : sys * Z := (deliver_from 31 s c t rsp 1, rsp).

(** ** The switch *)
Definition leave (s : sys) (cur rsp : Z) : sys :=
  let s := emit (FpuSave cur) s in
  let s := if is_state (state (get s cur)) TASK_RUNNING then put s cur (with_state TASK_READY) else s in
  put s cur (with_saved_rsp rsp).

Definition switch_to_idle (s : sys) (c rsp : Z) : sys * Z :=
  let cur := ap_current (core s c) in
  let s := if cur =? 0 then s else leave s cur rsp in
  let s := put_core s c (with_ap_current 0) in
  let s := emit (LoadPml4 kernel_pml4) s in
  let r := ap_rsp0 (core s c) - sizeof_regs in
  (with_frames (<[r := Regs 0 smp_ap_idle_entry 8 (ap_rsp0 (core s c) - 128)]> (frames s)) s, r).

(** The switch proper, to a task that is not a zombie. *)
Definition switch_live (s : sys) (c nxt rsp : Z) : sys * Z :=
  let cur := ap_current (core s c) in
  let s := if cur =? 0 then s else leave s cur rsp in
  let s := put_core s c (with_ap_current nxt) in
  let s := put s nxt (with_state TASK_RUNNING) in
  let s := put s nxt (with_last_sched (pit_ticks s)) in
  let v := get s nxt in
  let s := emit (FpuRestore nxt) s in
  let s := emit (LoadPml4 (if is_user v && negb (pml4 v =? 0) then pml4 v else kernel_pml4)) s in
  let s := emit (SetFsBase (if is_user v then linux_fs_base v else 0)) s in
  let s := emit (SetRsp0 (kstack_top v)) s in
  (s, saved_rsp v).

(** [fuel] bounds the falls back to the idle task: a second one would need the
    idle task to be a zombie. *)
Fixpoint switch_to_n (fuel : nat) (s : sys) (c nxt rsp : Z) : sys * Z :=
  match fuel with
  | O => (s, rsp)
  | S k =>
    let cur := ap_current (core s c) in
    if cur =? nxt then (s, rsp)
    else if is_state (state (get s nxt)) TASK_ZOMBIE then
      let s := if negb (cur =? 0) && is_state (state (get s cur)) TASK_RUNNING
               then put s cur (with_state TASK_READY) else s in
      if c =? 0 then
        if negb (g_idle_task s =? 0) && negb (g_idle_task s =? cur) then switch_to_n k s c (g_idle_task s) rsp
        else (s, rsp)
      else switch_to_idle s c rsp
    else switch_live s c nxt rsp
  end.
Definition switch_to (s : sys) (c nxt rsp : Z) : sys * Z := switch_to_n 2 s c nxt rsp.

(** The CPU's idle fallback. *)
Definition go_idle (s : sys) (c cur rsp : Z) : sys * Z :=
  if c =? 0 then
    if negb (g_idle_task s =? 0) && negb (g_idle_task s =? cur) then switch_to s c (g_idle_task s) rsp
    else (s, rsp)
  else switch_to_idle s c rsp.

Definition idle_pop (s : sys) (c : Z) : sys * Z :=
  let t := ap_next (core s c) in
  if t =? 0 then rq_pop s c else (put_core s c (with_ap_next 0), t).

Definition sched_preempt (s : sys) (c cur rsp : Z) : sys * Z :=
  if negb (ap_rq_head (core s c) =? 0) then
    let '(s, other) := rq_pop (rq_push s c cur) c in
    switch_to s c other rsp
  else
    let s := if ap_next (core s c) =? 0
             then put (put_core s c (with_ap_next cur)) cur (with_state TASK_READY) else s in
    go_idle s c cur rsp.

Definition sched_switch_after (s : sys) (c cur rsp : Z) : sys * Z :=
  if negb (cur =? 0) && is_state (state (get s cur)) TASK_READY
     && match rq_cpu (get s cur) with None => true | Some _ => false end then
    let '(s, nxt) := rq_push_pop s c cur in
    if negb (nxt =? 0) && negb (nxt =? cur) then switch_to s c nxt rsp
    else
      let s := if nxt =? cur then rq_remove s c cur else s in
      let s := if ap_next (core s c) =? 0 then put_core s c (with_ap_next cur) else s in
      go_idle s c cur rsp
  else go_idle s c cur rsp.

(** ** Work items and migration *)
Definition sched_ap_try_work (s : sys) (c : Z) : sys * bool :=
  match ap_kwork (core s c) with
  | None => (s, false)
  | Some (fn, arg) => (emit (RunWork fn arg) (put_core s c (with_ap_kwork None)), true)
  end.
Definition sched_queue_ap_work (s : sys) (c fn arg : Z) : sys :=
  if fn =? 0 then s
  else match ap_kwork (core s c) with
       | Some _ => s
       | None => ipi (put_core s c (with_ap_kwork (Some (fn, arg)))) c
       end.
Definition sched_migrate_to_ap (s : sys) (c t : Z) : sys * Z :=
  if t =? 0 then (s, -1)
  else if bool_decide (rq_cpu (get s t) = Some c) then (s, 0)
  else
    let s := match rq_cpu (get s t) with Some q => rq_remove s q t | None => s end in
    let s := put s t (with_state TASK_READY) in
    (ipi (rq_push s c t) c, 0).

Fixpoint steal_from (l : list Z) (s : sys) (c : Z) : sys * Z :=
  match l with
  | [] => (s, 0)
  | i :: l =>
    match cpus s !! i with
    | None => steal_from l s c
    | Some o =>
      if (i =? c) || (negb (i =? 0) && negb (ap_up o)) || (ap_rq_count o <? 2) then steal_from l s c
      else
        let '(s, t) := rq_pop s i in
        if negb (is_state (state (get s t)) TASK_READY) then steal_from l (rq_push s i t) c
        else if task_running_anywhere s t then steal_from l (rq_push s i t) c
        else (put_core s c (fun o => with_ap_steals (u64 (ap_steals o + 1)) o), t)
    end
  end.
Definition sched_steal_pop (s : sys) (c : Z) : sys * Z := steal_from cpu_ids s c.
Definition sched_ap_steal (s : sys) (c : Z) : sys := s.

(** ** Creation *)
(** [t] and [top] are what [kzalloc] and [alloc_kstack] return; descriptors,
    directory and regions are left out. *)
Definition sched_init (s : sys) (t top : Z) : sys :=
  let s := with_g_tasks [] (with_g_idle_task 0 (with_g_next_pid 1 (with_g_idle_handoff false s))) in
  let s := put s t (fun _ => Task 0 0 TASK_RUNNING 0 false false 0 0 top 0 0 (replicate 32 0) 0 0 0 0 0 false 0 None 0) in
  let s := task_append (emit (FpuClean t) s) t in
  put_core (with_g_idle_task t s) 0 (with_ap_current t).
Definition sched_create_user (s : sys) (c t top entry user_rsp p : Z) (npages : list Z) : sys * Z :=
  if t =? 0 then (s, 0)
  else
    let f := top - sizeof_regs in
    let s := put s t (fun _ => Task (g_next_pid s) 0 TASK_READY 0 true false 0 p top f (pit_ticks s) (replicate 32 0) 0 0 0
                                (fold_left (fun n k => u64 (n + k)) npages 0) 65536 false 0 None 0) in
    let s := with_g_next_pid (u32 (g_next_pid s + 1)) s in
    let s := emit (FpuClean t) s in
    let s := with_frames (<[f := Regs 0 entry USER_CS user_rsp]> (frames s)) s in
    let s := task_append s t in
    (rq_push s c t, t).
(** The hand-off flag around the [hlt] of the idle task. *)
Definition sched_idle_begin (s : sys) : sys := with_g_idle_handoff true s.
Definition sched_idle_end (s : sys) : sys := with_g_idle_handoff false s.

(** ** The watchdog *)
Definition put_wd (s : sys) (f : watchdog -> watchdog) : sys := with_wd (f (wd s)) s.
Definition no_service : wd_service := Service 0 0 false.
Fixpoint free_service (l : list wd_service) (i : nat) : option nat :=
  match l with [] => None | v :: r => if registered v then free_service r (S i) else Some i end.
Definition watchdog_register_service (s : sys) (fn : Z) : sys * Z :=
  match free_service (g_services (wd s)) 0 with
  | Some i => (put_wd s (with_g_services (<[i := Service (pit_ticks s) fn true]> (g_services (wd s)))), Z.of_nat i)
  | None => (s, -1)
  end.
Definition watchdog_kick (s : sys) (idx : Z) : sys :=
  if (idx <? 0) || (8 <=? idx) then s
  else
    let v := default no_service (g_services (wd s) !! Z.to_nat idx) in
    put_wd s (with_g_services (<[Z.to_nat idx := Service (pit_ticks s) (restart v) (registered v)]> (g_services (wd s)))).
Definition watchdog_unregister (s : sys) (idx : Z) : sys :=
  if (idx <? 0) || (8 <=? idx) then s
  else
    let v := default no_service (g_services (wd s) !! Z.to_nat idx) in
    put_wd s (with_g_services (<[Z.to_nat idx := Service (last_kick v) 0 false]> (g_services (wd s)))).

Definition check_service (now : Z) (s : sys) (i : nat) : sys :=
  let v := default no_service (g_services (wd s) !! i) in
  if negb (registered v) || negb (WATCHDOG_TIMEOUT_TICKS <? u64 (now - last_kick v)) then s
  else
    let s := put_wd s (fun w => with_g_wd_checks (u64 (g_wd_checks w + 1)) w) in
    let s := if restart v =? 0 then s else emit (Restart (restart v)) s in
    let s := put_wd s (with_g_services (<[i := Service (pit_ticks s) (restart v) (registered v)]> (g_services (wd s)))) in
    put_wd s (fun w => with_g_wd_restarts (u64 (g_wd_restarts w + 1)) w).
Definition check_hung_task (now c : Z) (s : sys) (t : Z) : sys :=
  let v := get s t in
  if is_user v && negb (pid v =? 0) && is_state (state v) TASK_READY
     && (HUNG_TASK_TIMEOUT_TICKS <? u64 (now - last_sched v)) then
    let s := put_wd s (fun w => with_g_wd_kills (u64 (g_wd_kills w + 1)) w) in
    let s := put s t (with_last_sched now) in
    sched_kick_starved s c t
  else s.
Definition watchdog_tick (s : sys) (c : Z) : sys :=
  if negb (g_wd_inited (wd s)) then s
  else
    let now := pit_ticks s in
    let s := fold_left (check_service now) (seq 0 8) s in
    let s := fold_left (check_hung_task now c) (g_tasks s) s in
    if MS_TO_TICKS 2000 <=? u64 (now - g_last_wb (wd s))
    then emit BlkfsSync (put_wd s (with_g_last_wb now)) else s.

(** ** Interrupts *)
Definition user_frame (s : sys) (rsp : Z) : bool :=
  Z.land (r_cs (default (Regs 0 0 0 0) (frames s !! rsp))) 3 =? 3.

Definition bsp_tick (s : sys) (c : Z) : sys :=
  let s := sched_wake_sleepers s c (pit_ticks s) in
  let s := with_g_wd_tick_cnt (u64 (g_wd_tick_cnt s + 1)) s in
  if g_wd_tick_cnt s mod MS_TO_TICKS 1000 =? 0 then watchdog_tick s c else s.

Definition sched_tick (s : sys) (c rsp : Z) : sys * Z :=
  let cur := ap_current (core s c) in
  let s := if c =? 0 then bsp_tick s c else s in
  if cur =? 0 then
    let '(s, nxt) := idle_pop s c in
    if nxt =? 0 then (s, rsp) else switch_to s c nxt rsp
  else if is_user (get s cur) then
    if negb (sig_pending (get s cur) =? 0) then
      let s := if user_frame s rsp then fst (deliver_pending_signal s c cur rsp) else s in
      if negb (is_state (state (get s cur)) TASK_RUNNING) then sched_switch_after s c cur rsp else (s, rsp)
    else if negb (is_state (state (get s cur)) TASK_RUNNING) then sched_switch_after s c cur rsp
    else sched_preempt s c cur rsp
  else if g_idle_handoff s then
    let '(s, nxt) := idle_pop s c in
    if negb (nxt =? 0) && negb (nxt =? cur) then switch_to s c nxt rsp else (s, rsp)
  else (s, rsp).

Definition sched_fault_recover (s : sys) (c rsp : Z) : outcome (sys * Z) :=
  let cur := ap_current (core s c) in
  if negb (cur =? 0) && is_user (get s cur) && negb (pid (get s cur) =? 0) then
    let s := put (put s cur (with_state TASK_ZOMBIE)) cur (with_exit_status (-11)) in
    Ret (go_idle s c cur rsp)
  else Panic.

Definition sched_after_isr (s : sys) (c rsp : Z) : sys * Z :=
  let cur := ap_current (core s c) in
  if cur =? 0 then (s, rsp)
  else if is_user (get s cur) && negb (sig_pending (get s cur) =? 0) then
    let s := if user_frame s rsp then fst (deliver_pending_signal s c cur rsp) else s in
    if negb (is_state (state (get s cur)) TASK_RUNNING) then sched_switch_after s c cur rsp else (s, rsp)
  else if is_state (state (get s cur)) TASK_RUNNING then (s, rsp)
  else sched_switch_after s c cur rsp.

Definition sched_yield (s : sys) (c : Z) : sys :=
  let cur := sched_current s c in
  if (cur =? 0) || negb (is_state (state (get s cur)) TASK_RUNNING) then s
  else
    let s := put_core s c (with_ap_yield_pending 1) in
    ipi (put s cur (with_state TASK_READY)) c.

(** ** Waiting and reaping *)
Definition reap (s : sys) (t : Z) : sys * bool :=
  if task_running_anywhere s t then (s, false)
  else
    let p := pml4 (get s t) in
    let s := if negb (p =? 0) && negb (p =? kernel_pml4) then
               let '(s, last) := sched_pml4_unref s p in if last then emit (FreePml4 p) s else s
             else s in
    let s := if kstack_top (get s t) =? 0 then s else emit (FreeKstack (kstack_top (get s t))) s in
    let s := task_remove s t in
    let s := emit (SurfaceOwnerDied (pid (get s t))) s in
    let s := put s t (with_kstack_top 0) in
    (with_g_leaked_tasks (u64 (g_leaked_tasks s + 1)) s, true).

Definition sched_kill (s : sys) (c p : Z) : sys * Z :=
  let t := sched_find s p in
  if (t =? 0) || (pid (get s t) =? 0) then (s, -1)
  else if is_state (state (get s t)) TASK_ZOMBIE then (s, -1)
  else
    let s := match rq_cpu (get s t) with Some q => rq_remove s q t | None => s end in
    let s := unpark s t in
    let s := put (put s t (with_exit_status (-9))) t (with_state TASK_ZOMBIE) in
    let s := wake_waiting_parent s c t in
    let s := put s t (with_state TASK_ZOMBIE) in
    if task_running_anywhere s t then (poke_runner s t, 0)
    else
      let q := pml4 (get s t) in
      if negb (q =? 0) && negb (q =? kernel_pml4) then
        let '(s, last) := sched_pml4_unref s q in
        (if last then put (emit (FreePml4 q) s) t (with_pml4 0) else s, 0)
      else (s, 0).

Definition sched_signal (s : sys) (c p sig : Z) : sys * Z :=
  let t := sched_find s p in
  if (t =? 0) || (pid (get s t) =? 0) || is_state (state (get s t)) TASK_ZOMBIE then (s, -1)
  else if sig =? 0 then (s, 0)
  else if 32 <=? sig then (s, -1)
  else if sig =? 9 then sched_kill s c p
  else if sig =? 19 then
    let s := match rq_cpu (get s t) with Some q => rq_remove s q t | None => s end in
    let s := unpark s t in
    let s := if is_state (state (get s t)) TASK_RUNNING || is_state (state (get s t)) TASK_READY
             then put s t (with_state TASK_STOPPED) else s in
    (poke_runner s t, 0)
  else if sig =? 18 then
    (if is_state (state (get s t)) TASK_STOPPED then make_ready s c t else s, 0)
  else if bit (sig_blocked (get s t)) sig then (s, 0)
  else (put s t (with_sig_pending (Z.setbit (sig_pending (get s t)) sig)), 0).

(** The child [sched_waitpid] looks at: the first dead or stopped one, else
    the first. *)
Fixpoint pick_child (s : sys) (me p : Z) (l : list Z) (acc : Z) : Z :=
  match l with
  | [] => acc
  | t :: r =>
    if (ppid (get s t) =? me) && (any_child p || (pid (get s t) =? p)) then
      if is_state (state (get s t)) TASK_ZOMBIE || is_state (state (get s t)) TASK_STOPPED then t
      else pick_child s me p r (if acc =? 0 then t else acc)
    else pick_child s me p r acc
  end.
(** State, return value and, where it is written, the status. *)
Definition sched_waitpid (s : sys) (c p flags : Z) : sys * Z * option Z :=
  let cur := sched_current s c in
  if cur =? 0 then (s, -1, None)
  else
    let ch := pick_child s (pid (get s cur)) p (g_tasks s) 0 in
    if ch =? 0 then (s, -1, None)
    else if is_state (state (get s ch)) TASK_STOPPED then (s, pid (get s ch), Some (-19))
    else if negb (is_state (state (get s ch)) TASK_ZOMBIE) then
      if negb (Z.land flags WNOHANG =? 0) then (s, 0, None)
      else (put (put (put s cur (with_waiting true)) cur (with_wait_pid p)) cur (with_state TASK_BLOCKED), 0, None)
    else
      let s := put s cur (with_waiting false) in
      if task_running_anywhere s ch then (s, 0, None)
      else
        let raw := exit_status (get s ch) in
        let st := if linux_abi (get s cur) then Z.shiftl (Z.land raw 255) 8 else raw in
        let p := pid (get s ch) in
        let '(s, ok) := reap s ch in
        (s, if ok then p else 0, Some st).

Definition sched_reap_orphans (s : sys) : sys :=
  fold_left (fun s t =>
    if is_state (state (get s t)) TASK_ZOMBIE && negb (pid (get s t) =? 0)
       && negb (task_running_anywhere s t)
       && ((ppid (get s t) =? 0) || (sched_find s (ppid (get s t)) =? 0))
    then fst (reap s t) else s) (g_tasks s) s.

(** ** Out of memory *)
Definition oom_victim (s : sys) : Z * Z :=
  fold_left (fun (acc : Z * Z) t =>
    let v := get s t in
    if (pid v =? 0) || negb (is_user v) || is_state (state v) TASK_ZOMBIE then acc
    else if snd acc <? mem_pages v then (t, mem_pages v) else acc) (g_tasks s) (0, 0).
Definition sched_oom_kill_one (s : sys) (c : Z) : sys * Z :=
  let '(victim, most) := oom_victim s in
  if (victim =? 0) || (most =? 0) then (s, 0)
  else (fst (sched_kill s c (pid (get s victim))), if victim =? sched_current s c then -1 else 1).
End Sched.

(** * Reading the state back *)
Lemma get_put s t f x : get (put s t f) x = if decide (x = t) then f (get s t) else get s x.
Proof.
  unfold put. change (get (with_tasks ?m s) x) with (default no_task (m !! x)).
  case_decide as E; [subst; by rewrite lookup_insert_eq|by rewrite lookup_insert_ne].
Qed.
Lemma core_put s t f c : core (put s t f) c = core s c.
Proof. reflexivity. Qed.
Lemma get_put_core s c f x : get (put_core s c f) x = get s x.
Proof. reflexivity. Qed.
Lemma core_put_core s c f d : core (put_core s c f) d = if decide (d = c) then f (core s c) else core s d.
Proof.
  unfold put_core. change (core (with_cpus ?m s) d) with (default no_cpu (m !! d)).
  case_decide as E; [subst; by rewrite lookup_insert_eq|by rewrite lookup_insert_ne].
Qed.
Lemma get_put_same s t f : get (put s t f) t = f (get s t).
Proof. rewrite get_put. by rewrite decide_True. Qed.
Lemma core_put_same s c f : core (put_core s c f) c = f (core s c).
Proof. rewrite core_put_core. by rewrite decide_True. Qed.

Create Rewrite HintDb sched.
#[export] Hint Rewrite get_put core_put get_put_core core_put_core : sched.

(** A task and a CPU without their queue fields. *)
Definition off_queue (t : task) : task := with_rq_next 0 (with_rq_cpu None t).
Definition no_queue (o : cpu) : cpu := with_ap_rq_head 0 (with_ap_rq_tail 0 (with_ap_rq_count 0 o)).

(** What the queue operations leave alone. *)
Record queue_only (s s' : sys) : Prop := {
  qo_get a : off_queue (get s' a) = off_queue (get s a);
  qo_core c : no_queue (core s' c) = no_queue (core s c);
  qo_up c : is_Some (cpus s' !! c) <-> is_Some (cpus s !! c);
  qo_rest : with_tasks ∅ (with_cpus ∅ s') = with_tasks ∅ (with_cpus ∅ s) }.

(** The run queues hold the lists [Q]. *)
Record queue (s : sys) (c : Z) (l : list Z) : Prop := {
  q_chain : chain (fun a => rq_next (get s a)) (ap_rq_head (core s c)) l;
  q_tail : ap_rq_tail (core s c) = default 0 (last l);
  q_count : ap_rq_count (core s c) = len l;
  q_nd : NoDup l;
  q_on a : (a ∈ l) <-> rq_cpu (get s a) = Some c }.
Definition queues (s : sys) (Q : Z -> list Z) : Prop := forall c, queue s c (Q c).
Definition set_queue (Q : Z -> list Z) (c : Z) (l : list Z) : Z -> list Z := fun d => if decide (d = c) then l else Q d.

Lemma queue_only_refl s : queue_only s s.
Proof. by split. Qed.
Lemma queue_only_trans s s' s'' : queue_only s s' -> queue_only s' s'' -> queue_only s s''.
Proof.
  intros [A1 A2 A3 A4] [B1 B2 B3 B4]. split; intros; [by rewrite B1|by rewrite B2|by rewrite B3|by rewrite B4].
Qed.
Lemma queue_only_put s t f : (forall v, off_queue (f v) = off_queue v) -> queue_only s (put s t f).
Proof.
  intros Hf. split; intros; try done. rewrite get_put. case_decide; [subst; apply Hf|done].
Qed.
Lemma queue_only_put_core s c f : is_Some (cpus s !! c) -> (forall o, no_queue (f o) = no_queue o) ->
  queue_only s (put_core s c f).
Proof.
  intros Hc Hf. split; intros; try done.
  - rewrite core_put_core. case_decide; [subst; apply Hf|done].
  - change (cpus (put_core s c f)) with (<[c := f (core s c)]> (cpus s)).
    destruct (decide (c0 = c)) as [->|]; [rewrite lookup_insert_eq; split; [done|by eexists]|by rewrite lookup_insert_ne].
Qed.

Lemma qo_field {A} (f : task -> A) s s' a : queue_only s s' -> (forall v, f (off_queue v) = f v) ->
  f (get s' a) = f (get s a).
Proof. intros Hq Hf. by rewrite <- (Hf (get s' a)), <- (Hf (get s a)), (qo_get _ _ Hq). Qed.
Lemma qo_core_field {A} (f : cpu -> A) s s' c : queue_only s s' -> (forall o, f (no_queue o) = f o) ->
  f (core s' c) = f (core s c).
Proof. intros Hq Hf. by rewrite <- (Hf (core s' c)), <- (Hf (core s c)), (qo_core _ _ Hq). Qed.
Lemma qo_sys {A} (f : sys -> A) s s' : queue_only s s' -> (forall v, f (with_tasks ∅ (with_cpus ∅ v)) = f v) -> f s' = f s.
Proof. intros Hq Hf. by rewrite <- (Hf s'), <- (Hf s), (qo_rest _ _ Hq). Qed.

(** ** Run queues refine lists *)
Lemma rq_push_eq s c t : let o := core s c in let tl := ap_rq_tail o in tl <> t ->
  (forall a, get (rq_push s c t) a
     = if decide (a = t) then with_rq_cpu (Some c) (with_rq_next 0 (get s t))
       else if decide (a = tl /\ tl <> 0) then with_rq_next t (get s a) else get s a) /\
  (forall d, core (rq_push s c t) d
     = if decide (d = c)
       then with_ap_rq_count (u32 (ap_rq_count o + 1)) (with_ap_rq_tail t (if tl =? 0 then with_ap_rq_head t o else o))
       else core s d).
Proof.
  cbv zeta. intros Hne. unfold rq_push. set (s1 := put (put s t _) t _).
  change (ap_rq_tail (core s1 c)) with (ap_rq_tail (core s c)).
  assert (H1 : forall a, get s1 a = if decide (a = t) then with_rq_cpu (Some c) (with_rq_next 0 (get s t)) else get s a).
  { intros a. unfold s1. rewrite get_put. destruct (decide (a = t)); [by rewrite get_put_same|].
    rewrite get_put. by rewrite decide_False. }
  assert (H2 : forall d, core s1 d = core s d) by done. clearbody s1.
  destruct (Z.eqb_spec (ap_rq_tail (core s c)) 0) as [E0|E0]; cbv zeta; split.
  - intros a. rewrite !get_put_core, H1. destruct (decide (a = t)); [done|].
    by rewrite decide_False by (intros [_ ?]; congruence).
  - intros d. rewrite !core_put_core, !H2. destruct (decide (d = c)) as [->|]; [|done]. destruct (decide (c = c)) as [_|]; [|done]. reflexivity.
  - intros a. rewrite !get_put_core, get_put, !H1. destruct (decide (a = ap_rq_tail (core s c))) as [->|].
    + destruct (decide (ap_rq_tail (core s c) = t)) as [|_]; [done|].
      destruct (decide (ap_rq_tail (core s c) = ap_rq_tail (core s c) /\ ap_rq_tail (core s c) <> 0)) as [_|Hn]; [done|].
      by destruct Hn.
    + destruct (decide (a = t)); [done|]. by rewrite decide_False by (intros [? _]; congruence).
  - intros d. rewrite !core_put_core, !core_put, !H2. destruct (decide (d = c)) as [->|]; [|done]. destruct (decide (c = c)) as [_|]; [|done]. reflexivity.
Qed.

Lemma rq_push_only s c t : is_Some (cpus s !! c) -> queue_only s (rq_push s c t).
Proof.
  intros Hc. unfold rq_push. cbv zeta. set (s1 := put (put s t _) t _).
  assert (H1 : queue_only s s1).
  { eapply queue_only_trans; apply queue_only_put; done. }
  assert (Hc1 : is_Some (cpus s1 !! c)) by done. clearbody s1.
  set (s2 := if _ =? 0 then _ else _).
  assert (H2 : queue_only s1 s2).
  { unfold s2. destruct (_ =? 0); [by apply queue_only_put_core|by apply queue_only_put]. }
  pose proof (proj2 (qo_up _ _ H2 c) Hc1) as Hc2. clearbody s2.
  eapply queue_only_trans; [exact H1|]. eapply queue_only_trans; [exact H2|].
  eapply queue_only_trans; apply queue_only_put_core; try done.
  change (cpus (put_core s2 c (with_ap_rq_tail t))) with (<[c := with_ap_rq_tail t (core s2 c)]> (cpus s2)).
  rewrite lookup_insert_eq. by eexists.
Qed.

Lemma last_in (l : list Z) : l <> [] -> default 0 (last l) ∈ l.
Proof.
  intros Hl. destruct (exists_last Hl) as (l0 & x & ->). rewrite last_snoc. apply elem_of_app. right.
  by apply elem_of_cons; left.
Qed.

Lemma chain_snoc nx l t : forall x, chain nx x l -> t <> 0 -> t ∉ l -> NoDup l ->
  chain (fun a => if decide (a = t) then 0 else if decide (a = default 0 (last l) /\ default 0 (last l) <> 0) then t else nx a)
    (if default 0 (last l) =? 0 then t else x) (l ++ [t]).
Proof.
  intros x Hl Ht Hin Hnd. pose proof (chain_nonzero _ _ _ Hl) as H0.
  destruct (decide (l = [])) as [->|Hne].
  { cbn. rewrite decide_True by done. done. }
  pose proof (last_in l Hne) as Hlast. rewrite (proj2 (Z.eqb_neq _ 0)) by (intros E; rewrite E in Hlast; done).
  destruct (exists_last Hne) as (l0 & e & ->). rewrite last_snoc in *. cbn [default] in *.
  assert (Hte : t <> e) by (intros ->; done).
  apply NoDup_app in Hnd as (_ & N2 & _).
  assert (Hx : forall l0 y, (forall a, a ∈ l0 -> a <> t /\ a <> e) -> chain nx y (l0 ++ [e]) ->
    chain (fun a => if decide (a = t) then 0 else if decide (a = e /\ e <> 0) then t else nx a) y ((l0 ++ [e]) ++ [t])).
  { clear -Hte Ht. induction l0 as [|a l0 IH]; intros y Ha Hc; cbn [app chain] in *.
    - destruct Hc as (-> & He & _). destruct (decide (e = t)); [congruence|].
      destruct (decide (e = e /\ e <> 0)) as [_|Hn]; [|by destruct Hn]. destruct (decide (t = t)); done.
    - destruct Hc as (-> & Hz & Hc). destruct (Ha a ltac:(by apply elem_of_cons; left)) as [A1 A2].
      destruct (decide (a = t)); [done|]. destruct (decide (a = e /\ e <> 0)) as [[? _]|_]; [done|].
      split; [done|]. split; [done|]. apply IH; [|done]. intros b Hb. apply Ha. by apply elem_of_cons; right. }
  apply Hx; [|exact Hl]. intros a Ha. split; intros ->.
  - apply Hin. apply elem_of_app. by left.
  - apply (N2 e Ha). by apply elem_of_cons; left.
Qed.

(** Queueing a task that is on no queue appends it. *)
Lemma rq_push_queues s Q c t : queues s Q -> t <> 0 -> rq_cpu (get s t) = None -> len (Q c) + 1 < 4294967296 ->
  queues (rq_push s c t) (set_queue Q c (Q c ++ [t])).
Proof.
  intros HQ Ht0 Hrq Hlen.
  assert (Hnot : forall d, t ∉ Q d) by (intros d Hin; apply (q_on _ _ _ (HQ d)) in Hin; congruence).
  pose proof (q_tail _ _ _ (HQ c)) as Htl.
  assert (Hne : ap_rq_tail (core s c) <> t).
  { rewrite Htl. intros E. destruct (decide (Q c = [])) as [E0|E0]; [rewrite E0 in E; cbn in E; lia|].
    apply (Hnot c). rewrite <- E. by apply last_in. }
  destruct (rq_push_eq s c t Hne) as [Hg Hc]. set (s1 := rq_push s c t) in *. clearbody s1.
  assert (Hcpu : forall a, rq_cpu (get s1 a) = if decide (a = t) then Some c else rq_cpu (get s a)).
  { intros a. rewrite Hg. destruct (decide (a = t)); [done|]. by destruct (decide _). }
  intros d. unfold set_queue. destruct (decide (d = c)) as [->|Hdc].
  - destruct (HQ c) as [C1 C2 C3 C4 C5]. split.
    + assert (Ehd : ap_rq_head (core s1 c) = if default 0 (last (Q c)) =? 0 then t else ap_rq_head (core s c)).
      { rewrite Hc, decide_True by done. rewrite Htl. by destruct (default 0 (last (Q c)) =? 0). }
      rewrite Ehd. eapply chain_frame; [|apply (chain_snoc _ _ t _ C1 Ht0 (Hnot c) C4)].
      intros a _. rewrite Hg, Htl. destruct (decide (a = t)); [done|]. by destruct (decide _).
    + rewrite Hc, decide_True by done. by rewrite last_snoc.
    + rewrite Hc, decide_True by done. rewrite len_app.
      change (u32 (ap_rq_count (core s c) + 1) = len (Q c) + 1). rewrite C3, u32_small; [done|]. pose proof (len_nonneg (Q c)). lia.
    + apply NoDup_app. split; [done|]. split; [|apply NoDup_singleton].
      intros x Hx ->%list_elem_of_singleton. by apply (Hnot c).
    + intros a. rewrite Hcpu, elem_of_app, list_elem_of_singleton, C5. destruct (decide (a = t)) as [->|]; [split; [done|by right]|].
      split; [by intros [?|?]|by left].
  - destruct (HQ d) as [C1 C2 C3 C4 C5]. split; try done; rewrite ?(Hc d), ?(decide_False (P := d = c)) by done; try done.
    + eapply chain_frame; [|exact C1]. intros a Ha. rewrite Hg. destruct (decide (a = t)) as [->|]; [by destruct (Hnot d)|].
      destruct (decide (a = ap_rq_tail (core s c) /\ ap_rq_tail (core s c) <> 0)) as [[-> Hz]|]; [|done].
      exfalso. rewrite Htl in Ha, Hz. destruct (decide (Q c = [])) as [E0|E0]; [by rewrite E0 in Hz|].
      pose proof (last_in _ E0) as Hin. apply (q_on _ _ _ (HQ c)) in Hin. apply C5 in Ha. congruence.
    + intros a. rewrite Hcpu, C5. destruct (decide (a = t)) as [->|]; [|done]. rewrite Hrq. split; congruence.
Qed.

(** The unlinking steps shared by [rq_pop] and [rq_remove]. *)
Lemma put_off s t a : get (put (put s t (with_rq_next 0)) t (with_rq_cpu None)) a
  = if decide (a = t) then with_rq_cpu None (with_rq_next 0 (get s t)) else get s a.
Proof.
  rewrite get_put. destruct (decide (a = t)) as [->|]; [by rewrite get_put_same|]. rewrite get_put. by rewrite decide_False.
Qed.

Lemma rq_pop_eq s c : let o := core s c in let t := ap_rq_head o in let n := rq_next (get s t) in t <> 0 ->
  snd (rq_pop s c) = t /\
  (forall a, get (fst (rq_pop s c)) a = if decide (a = t) then with_rq_cpu None (with_rq_next 0 (get s t)) else get s a) /\
  (forall d, core (fst (rq_pop s c)) d
     = if decide (d = c)
       then with_ap_rq_count (u32 (ap_rq_count o - 1)) (if n =? 0 then with_ap_rq_tail 0 (with_ap_rq_head n o) else with_ap_rq_head n o)
       else core s d).
Proof.
  cbv zeta. intros Ht. unfold rq_pop. rewrite (proj2 (Z.eqb_neq _ 0) Ht). cbv zeta. cbn [fst snd].
  rewrite core_put_same. change (ap_rq_head (with_ap_rq_head ?x ?o)) with x. split; [done|]. split.
  - intros a. rewrite put_off. by destruct (rq_next (get s (ap_rq_head (core s c))) =? 0).
  - intros d. rewrite !core_put, core_put_core. destruct (decide (d = c)) as [->|Hd].
    + destruct (rq_next (get s (ap_rq_head (core s c))) =? 0); by rewrite !core_put_same.
    + destruct (rq_next (get s (ap_rq_head (core s c))) =? 0); rewrite ?core_put_core; by rewrite ?(decide_False (P := d = c)).
Qed.

Lemma set_queue_same Q c l : set_queue Q c l c = l.
Proof. unfold set_queue. by rewrite decide_True. Qed.
Lemma set_queue_ne Q c l d : d <> c -> set_queue Q c l d = Q d.
Proof. intros Hd. unfold set_queue. by rewrite decide_False. Qed.

(** Taking [t] off queue [c] leaves the other queues as they were. *)
Lemma queues_off s s' Q c t l1 l2 : queues s Q -> Q c = l1 ++ t :: l2 ->
  (forall a, rq_cpu (get s' a) = if decide (a = t) then None else rq_cpu (get s a)) ->
  (forall a, (a ∉ l1) -> a <> t -> rq_next (get s' a) = rq_next (get s a)) ->
  (forall d, d <> c -> core s' d = core s d) ->
  chain (fun a => rq_next (get s' a)) (ap_rq_head (core s' c)) (l1 ++ l2) ->
  ap_rq_tail (core s' c) = default 0 (last (l1 ++ l2)) ->
  ap_rq_count (core s' c) = u32 (ap_rq_count (core s c) - 1) -> len (Q c) < 4294967296 ->
  queues s' (set_queue Q c (l1 ++ l2)).
Proof.
  intros HQ EQ Hcpu Hnx Hco Hch Htl Hct Hlen. pose proof (HQ c) as Hc. rewrite EQ in Hc. pose proof (q_nd _ _ _ Hc) as Hnd.
  assert (Hnd2 : NoDup (l1 ++ l2) /\ (t ∉ l1 ++ l2)).
  { apply NoDup_app in Hnd as (N1 & N2 & N3). apply NoDup_cons in N3 as [N3 N4]. split.
    - apply NoDup_app. split; [done|]. split; [|done]. intros x Hx Hx2. apply (N2 x Hx). by apply elem_of_cons; right.
    - rewrite elem_of_app. intros [Hx|Hx]; [|done]. apply (N2 t Hx). by apply elem_of_cons; left. }
  intros d. destruct (decide (d = c)) as [->|Hd].
  - rewrite set_queue_same. split; [exact Hch|exact Htl| |exact (proj1 Hnd2)|].
    + rewrite Hct, (q_count _ _ _ Hc). rewrite EQ in Hlen. rewrite !len_app in *. change (t :: l2) with ([t] ++ l2) in *.
      rewrite !len_app in *. change (len [t]) with 1 in *. pose proof (len_nonneg l1). pose proof (len_nonneg l2).
      rewrite u32_small; lia.
    + intros a. rewrite Hcpu. destruct (decide (a = t)) as [->|Ha].
      * split; [by intros Hin; destruct Hnd2|done].
      * rewrite <- (q_on _ _ _ Hc a), !elem_of_app, elem_of_cons. split; [intros [?|?]; [by left|right; by right]|].
        intros [?|[?|?]]; [by left|done|by right].
  - rewrite set_queue_ne by exact Hd. destruct (HQ d) as [C1 C2 C3 C4 C5].
    assert (Hin : forall a, a ∈ Q d -> (a ∉ l1) /\ a <> t).
    { intros a Ha. apply C5 in Ha. split.
      - intros Hl. assert (a ∈ l1 ++ t :: l2) as Hin by (apply elem_of_app; by left).
        apply (q_on _ _ _ Hc) in Hin. congruence.
      - intros ->. assert (t ∈ l1 ++ t :: l2) as Hin by (apply elem_of_app; right; by apply elem_of_cons; left).
        apply (q_on _ _ _ Hc) in Hin. congruence. }
    split; rewrite ?Hco by exact Hd; try done.
    + eapply chain_frame; [|exact C1]. intros a Ha. destruct (Hin a Ha). by apply Hnx.
    + intros a. rewrite Hcpu. destruct (decide (a = t)) as [->|]; [|apply C5]. split; [intros Ha; by destruct (Hin t Ha)|done].
Qed.

(** Popping takes the head. *)
Lemma rq_pop_queues s Q c t l : queues s Q -> Q c = t :: l -> len (Q c) < 4294967296 ->
  snd (rq_pop s c) = t /\ rq_cpu (get (fst (rq_pop s c)) t) = None /\ queues (fst (rq_pop s c)) (set_queue Q c l).
Proof.
  intros HQ EQ Hlen. pose proof (HQ c) as Hc. rewrite EQ in Hc.
  pose proof (q_chain _ _ _ Hc) as Hch. cbn [chain] in Hch. destruct Hch as (Eh & Ht0 & Hch).
  pose proof (rq_pop_eq s c) as Hp. cbv zeta in Hp. rewrite Eh in Hp. destruct (Hp Ht0) as (P1 & P2 & P3).
  split; [exact P1|]. split; [rewrite P2; by destruct (decide (t = t))|]. pose proof (chain_head _ _ _ Hch) as Hn.
  apply (queues_off s _ Q c t [] l); try done.
  - intros a. rewrite P2. by destruct (decide (a = t)).
  - intros a _ Ha. rewrite P2. by rewrite decide_False.
  - intros d Hd. rewrite P3. by rewrite decide_False.
  - rewrite P3, decide_True by done.
    assert (Ehd : forall o, ap_rq_head (if rq_next (get s t) =? 0 then with_ap_rq_tail 0 (with_ap_rq_head (rq_next (get s t)) o)
      else with_ap_rq_head (rq_next (get s t)) o) = rq_next (get s t)) by (intros o; by destruct (_ =? 0)).
    change (ap_rq_head (with_ap_rq_count ?n ?o)) with (ap_rq_head o). rewrite Ehd. eapply chain_frame; [|exact Hch]. intros a Ha. rewrite P2. destruct (decide (a = t)) as [->|]; [|done].
    pose proof (q_nd _ _ _ Hc) as Hnd. by apply NoDup_cons in Hnd as [Hnd _].
  - rewrite P3, decide_True by done. destruct (decide (l = [])) as [->|Hl].
    + cbn [hd] in Hn. rewrite Hn. done.
    + rewrite (proj2 (Z.eqb_neq _ 0)).
      * transitivity (ap_rq_tail (core s c)); [done|]. rewrite (q_tail _ _ _ Hc). by destruct l.
      * rewrite Hn. intros E. apply (chain_nonzero _ _ _ Hch). destruct l as [|x l]; [done|]. cbn [hd] in E. rewrite E.
        by apply elem_of_cons; left.
  - rewrite P3, decide_True by done. by destruct (rq_next (get s t) =? 0).
Qed.

Lemma rq_pop_empty s Q c : queues s Q -> Q c = [] -> rq_pop s c = (s, 0).
Proof.
  intros HQ EQ. pose proof (q_chain _ _ _ (HQ c)) as Hch. rewrite EQ in Hch. cbn [chain] in Hch.
  unfold rq_pop. by rewrite Hch.
Qed.

(** Removing a queued task. *)
Lemma rq_find_spec s t l2 l1 : forall x pp k, chain (fun a => rq_next (get s a)) x (l1 ++ t :: l2) -> NoDup (l1 ++ t :: l2) ->
  (length (l1 ++ t :: l2) < k)%nat ->
  rq_find k s pp x t = Some (match last l1 with Some w => Some w | None => pp end).
Proof.
  induction l1 as [|a l1 IH]; intros x pp k Hc Hnd Hk; (destruct k as [|k]; [lia|]); cbn [app chain rq_find] in *;
    destruct Hc as (-> & Ha & Hc); rewrite (proj2 (Z.eqb_neq _ 0) Ha).
  - by rewrite Z.eqb_refl.
  - apply NoDup_cons in Hnd as [Hna Hnd]. rewrite (proj2 (Z.eqb_neq a t)).
    + rewrite (IH _ (Some a) k Hc Hnd) by (cbn [length] in Hk; lia). rewrite last_cons. by destruct (last l1).
    + intros ->. apply Hna. apply elem_of_app. right. by apply elem_of_cons; left.
Qed.

Lemma rq_last_spec s l : forall x k, chain (fun a => rq_next (get s a)) x l -> l <> [] -> (length l <= k)%nat ->
  rq_last k s x = default 0 (last l).
Proof.
  induction l as [|a l IH]; intros x k Hc Hl Hk; [done|]. destruct k as [|k]; [cbn [length] in Hk; lia|].
  cbn [chain rq_last length] in *. destruct Hc as (-> & Ha & Hc). pose proof (chain_head _ _ _ Hc) as Hh.
  destruct l as [|b l].
  - cbn [hd] in Hh. by rewrite Hh.
  - cbn [hd] in Hh. assert (Hb : b <> 0).
    { intros ->. apply (chain_nonzero _ _ _ Hc). by apply elem_of_cons; left. }
    cbn beta in Hh. rewrite Hh. rewrite (proj2 (Z.eqb_neq b 0) Hb). rewrite last_cons_cons. cbn beta in Hc. rewrite Hh in Hc.
    apply IH; [exact Hc|done|lia].
Qed.

Lemma queued_fit s Q c : queues s Q -> (length (Q c) < walk_fuel s)%nat.
Proof.
  intros HQ. apply keys_fit; [apply (q_nd _ _ _ (HQ c))|]. intros a Ha. apply (q_on _ _ _ (HQ c)) in Ha.
  unfold get in Ha. destruct (tasks s !! a); [by eexists|done].
Qed.

Lemma rq_remove_queues s Q c t l1 l2 : queues s Q -> Q c = l1 ++ t :: l2 -> len (Q c) < 4294967296 ->
  queues (rq_remove s c t) (set_queue Q c (l1 ++ l2)).
Proof.
  intros HQ EQ Hlen. pose proof (queued_fit s Q c HQ) as Hfit. pose proof (HQ c) as Hc. rewrite EQ in Hc, Hfit.
  destruct Hc as [C1 C2 C3 C4 C5]. pose proof (chain_next _ _ _ _ _ C1) as Hn. cbn beta in Hn.
  assert (Htl1 : t ∉ l1).
  { apply NoDup_app in C4 as (_ & N2 & _). intros Hin. apply (N2 t Hin). by apply elem_of_cons; left. }
  unfold rq_remove. rewrite (rq_find_spec s t l2 l1 _ None _ C1 C4 Hfit).
  set (s1 := match match last l1 with Some w => Some w | None => None end with Some w => _ | None => _ end).
  assert (Hg1 : forall a, get s1 a = if decide (last l1 = Some a) then with_rq_next (rq_next (get s t)) (get s a) else get s a).
  { intros a. unfold s1. destruct (last l1) as [w|]; [|done]. rewrite get_put. destruct (decide (a = w)) as [->|Ha].
    - by rewrite decide_True.
    - by rewrite decide_False by congruence. }
  assert (Hc1 : forall d, core s1 d = if decide (d = c /\ l1 = []) then with_ap_rq_head (hd 0 l2) (core s c) else core s d).
  { intros d. unfold s1. destruct l1 as [|b l1 _] using rev_ind.
    - cbn [last]. rewrite core_put_core, Hn. destruct (decide (d = c)) as [->|Hd].
      + by destruct (decide (c = c /\ [] = [])) as [_|Hn']; [|destruct Hn'].
      + by rewrite decide_False by (intros [? _]; done).
    - rewrite last_snoc. rewrite core_put. by rewrite decide_False by (intros [_ ?]; by destruct l1). }
  assert (Hch1 : chain (fun a => rq_next (get s1 a)) (ap_rq_head (core s1 c)) (l1 ++ l2)).
  { rewrite Hc1. destruct l1 as [|b l1 _] using rev_ind.
    - rewrite decide_True by done. cbn [app chain] in *. destruct C1 as (_ & _ & C1). rewrite Hn in C1.
      eapply chain_frame; [|exact C1]. intros a _. rewrite Hg1. by rewrite decide_False.
    - rewrite decide_False by (intros [_ ?]; by destruct l1). rewrite <- app_assoc in C1, C4 |- *. cbn [app] in *.
      eapply chain_unlink; [exact C1| |].
      + rewrite Hg1. rewrite last_snoc. by rewrite decide_True.
      + intros a Ha. rewrite Hg1, last_snoc. rewrite decide_False; [done|]. intros [= <-].
        apply NoDup_app in C4 as (_ & N2 & N3). apply NoDup_cons in N3 as [N3 _]. apply elem_of_app in Ha as [Ha|Ha].
        * apply (N2 b Ha). by apply elem_of_cons; left.
        * apply N3. by apply elem_of_cons; right. }
  assert (Hfit1 : (length (l1 ++ l2) <= walk_fuel s1)%nat).
  { assert (Hs : forall a, is_Some (tasks s !! a) -> is_Some (tasks s1 !! a)).
    { intros a Ha. unfold s1. destruct (last l1) as [w|]; [|done].
      change (tasks (put s w (with_rq_next (rq_next (get s t))))) with (<[w := with_rq_next (rq_next (get s t)) (get s w)]> (tasks s)).
      destruct (decide (a = w)) as [->|]; [rewrite lookup_insert_eq; by eexists|by rewrite lookup_insert_ne]. }
    enough (length (l1 ++ l2) < walk_fuel s1)%nat by lia. apply keys_fit.
    - apply NoDup_app in C4 as (N1 & N2 & N3). apply NoDup_cons in N3 as [_ N3]. apply NoDup_app. split; [done|]. split; [|done].
      intros x Hx Hx2. apply (N2 x Hx). by apply elem_of_cons; right.
    - intros a Ha. apply Hs. assert (a ∈ l1 ++ t :: l2) as Hin.
      { apply elem_of_app in Ha as [Ha|Ha]; apply elem_of_app; [by left|right; by apply elem_of_cons; right]. }
      apply C5 in Hin. unfold get in Hin. destruct (tasks s !! a); [by eexists|done]. }
  set (s2 := if ap_rq_head (core s1 c) =? 0 then _ else _).
  assert (Hg2 : forall a, get s2 a = get s1 a) by (intros a; unfold s2; destruct (_ =? 0); [done|by destruct (_ =? t)]).
  assert (Hc2 : forall d, d <> c -> core s2 d = core s1 d).
  { intros d Hd. unfold s2. destruct (_ =? 0); [|destruct (_ =? t)]; rewrite ?core_put_core, ?(decide_False (P := d = c)) by done; done. }
  assert (Hh2 : ap_rq_head (core s2 c) = ap_rq_head (core s1 c) /\ ap_rq_count (core s2 c) = ap_rq_count (core s1 c)).
  { unfold s2. destruct (_ =? 0); [|destruct (_ =? t)]; rewrite ?core_put_same; done. }
  assert (Ht2 : ap_rq_tail (core s2 c) = default 0 (last (l1 ++ l2))).
  { unfold s2. destruct (Z.eqb_spec (ap_rq_head (core s1 c)) 0) as [E0|E0].
    - rewrite core_put_same. rewrite E0 in Hch1. destruct (l1 ++ l2) as [|x l]; [done|]. cbn [chain] in Hch1.
      by destruct Hch1 as (<- & ? & _).
    - assert (Hne : l1 ++ l2 <> []) by (intros E; rewrite E in Hch1; done).
      assert (Et : ap_rq_tail (core s1 c) = default 0 (last (l1 ++ t :: l2))).
      { rewrite Hc1. destruct (decide (c = c /\ l1 = [])); done. }
      rewrite Et. destruct (Z.eqb_spec (default 0 (last (l1 ++ t :: l2))) t) as [Etl|Etl].
      + rewrite core_put_same. change (ap_rq_tail (with_ap_rq_tail ?x ?o)) with x. by apply rq_last_spec.
      + rewrite Et. destruct l2 as [|x l2 _] using rev_ind; [by rewrite last_snoc in Etl|].
        change (t :: l2 ++ [x]) with ((t :: l2) ++ [x]). by rewrite !app_assoc, !last_snoc. }
  cbv zeta. apply (queues_off s _ Q c t l1 l2); try done.
  - intros a. rewrite put_off, !get_put_core, !Hg2, !Hg1. destruct (decide (a = t)); [done|].
    by destruct (decide (last l1 = Some a)).
  - intros a Ha Hat. rewrite put_off, !get_put_core, !Hg2, !Hg1. rewrite decide_False by done.
    rewrite decide_False; [done|]. intros Hl. apply Ha. by apply last_Some_elem_of.
  - intros d Hd. rewrite !core_put, core_put_core, decide_False by done. rewrite Hc2, Hc1 by done.
    by rewrite decide_False by (intros [? _]; done).
  - rewrite !core_put, core_put_same. change (ap_rq_head (with_ap_rq_count ?n ?o)) with (ap_rq_head o).
    rewrite (proj1 Hh2). eapply chain_frame; [|exact Hch1]. intros a Ha. rewrite put_off, !get_put_core, !Hg2.
    rewrite decide_False; [done|]. intros ->. apply NoDup_app in C4 as (_ & _ & C4). apply NoDup_cons in C4 as [C4 _].
    by apply elem_of_app in Ha as [?|?].
  - rewrite !core_put, core_put_same. exact Ht2.
  - rewrite !core_put, core_put_same. change (ap_rq_count (with_ap_rq_count ?n ?o)) with n. rewrite (proj2 Hh2), Hc1.
    by destruct (decide (c = c /\ l1 = [])).
Qed.

(** ** Frames of the queue operations *)
Lemma rq_pop_only s c : queue_only s (fst (rq_pop s c)).
Proof.
  unfold rq_pop. destruct (Z.eqb_spec (ap_rq_head (core s c)) 0) as [|Hh]; [apply queue_only_refl|]. cbv zeta. cbn [fst].
  assert (Hc : is_Some (cpus s !! c)) by (unfold core in Hh; destruct (cpus s !! c); [by eexists|done]).
  assert (Hp : forall s f, is_Some (cpus s !! c) -> (forall o, no_queue (f o) = no_queue o) ->
    queue_only s (put_core s c f) /\ is_Some (cpus (put_core s c f) !! c)).
  { intros s0 f H0 Hf. pose proof (queue_only_put_core s0 c f H0 Hf) as Hq. split; [done|]. by apply (qo_up _ _ Hq). }
  destruct (Hp s (with_ap_rq_head (rq_next (get s (ap_rq_head (core s c))))) Hc ltac:(done)) as [Q1 Hc1].
  set (s1 := put_core s c _) in *. eapply queue_only_trans; [exact Q1|].
  assert (H2 : queue_only s1 (if ap_rq_head (core s1 c) =? 0 then put_core s1 c (with_ap_rq_tail 0) else s1) /\
    is_Some (cpus (if ap_rq_head (core s1 c) =? 0 then put_core s1 c (with_ap_rq_tail 0) else s1) !! c)).
  { destruct (_ =? 0); [by apply Hp|]. split; [apply queue_only_refl|done]. }
  destruct H2 as [Q2 Hc2]. set (s2 := if _ =? 0 then _ else s1) in *. eapply queue_only_trans; [exact Q2|].
  eapply queue_only_trans;
    [exact (proj1 (Hp s2 (fun o => with_ap_rq_count (u32 (ap_rq_count o - 1)) o) Hc2 ltac:(done)))|]. eapply queue_only_trans; apply queue_only_put; done.
Qed.

(** [queues] reads the queue fields only. *)
Lemma queues_frame s s' Q : (forall a, rq_next (get s' a) = rq_next (get s a) /\ rq_cpu (get s' a) = rq_cpu (get s a)) ->
  (forall c, ap_rq_head (core s' c) = ap_rq_head (core s c) /\ ap_rq_tail (core s' c) = ap_rq_tail (core s c) /\
             ap_rq_count (core s' c) = ap_rq_count (core s c)) -> queues s Q -> queues s' Q.
Proof.
  intros Hg Hc HQ c. destruct (HQ c) as [C1 C2 C3 C4 C5]. destruct (Hc c) as (E1 & E2 & E3). split.
  - rewrite E1. eapply chain_frame; [|exact C1]. intros a _. apply Hg.
  - by rewrite E2.
  - by rewrite E3.
  - done.
  - intros a. destruct (Hg a) as [_ ->]. apply C5.
Qed.

(** [s'] differs from [s] in tasks only, and not in their queue fields. *)
Lemma queues_put s Q t f : (forall v, rq_next (f v) = rq_next v) -> (forall v, rq_cpu (f v) = rq_cpu v) ->
  queues s Q -> queues (put s t f) Q.
Proof.
  intros H1 H2. apply queues_frame; [|done]. intros a. rewrite get_put. by destruct (decide (a = t)) as [->|].
Qed.
Lemma queues_put_core s Q c f : (forall o, ap_rq_head (f o) = ap_rq_head o) -> (forall o, ap_rq_tail (f o) = ap_rq_tail o) ->
  (forall o, ap_rq_count (f o) = ap_rq_count o) -> queues s Q -> queues (put_core s c f) Q.
Proof.
  intros H1 H2 H3. apply queues_frame; [done|]. intros d. rewrite core_put_core. by destruct (decide (d = c)) as [->|].
Qed.
Lemma queues_emit s Q e : queues s Q -> queues (emit e s) Q.
Proof. by apply queues_frame. Qed.

(** The run queues are FIFO lists: queueing appends, popping takes the head,
    removing a task takes that task out, and the other queues, the other
    fields of the tasks and of the CPUs, and the rest of the state stay. *)
Theorem run_queues_refine_lists s Q c : queues s Q -> len (Q c) + 1 < 4294967296 -> is_Some (cpus s !! c) ->
  (forall t, t <> 0 -> rq_cpu (get s t) = None ->
     queues (rq_push s c t) (set_queue Q c (Q c ++ [t])) /\ queue_only s (rq_push s c t)) /\
  match Q c with
  | [] => rq_pop s c = (s, 0)
  | t :: l => snd (rq_pop s c) = t /\ queues (fst (rq_pop s c)) (set_queue Q c l) /\ queue_only s (fst (rq_pop s c))
  end /\
  (forall t, t ∈ Q c -> queues (rq_remove s c t) (set_queue Q c (remove_first t (Q c)))).
Proof.
  intros HQ Hlen Hc. split; [|split].
  - intros t Ht Hrq. split; [by apply rq_push_queues|by apply rq_push_only].
  - destruct (Q c) as [|t l] eqn:EQ; [by apply (rq_pop_empty s Q)|].
    destruct (rq_pop_queues s Q c t l HQ EQ ltac:(rewrite EQ; lia)) as (E & _ & Hq). split; [done|]. split; [done|apply rq_pop_only].
  - intros t Ht. apply list_elem_of_split in Ht as (l1 & l2 & EQ). pose proof (q_nd _ _ _ (HQ c)) as Hnd. rewrite EQ in Hnd |- *.
    assert (E : remove_first t (l1 ++ t :: l2) = l1 ++ l2).
    { clear -Hnd. induction l1 as [|a l1 IH]; cbn [app remove_first]; [by rewrite Z.eqb_refl|].
      cbn [app] in Hnd. apply NoDup_cons in Hnd as [Ha Hnd]. rewrite (proj2 (Z.eqb_neq a t)); [by rewrite IH|].
      intros ->. apply Ha. apply elem_of_app. right. by apply elem_of_cons; left. }
    rewrite E. apply rq_remove_queues; [done|done|lia].
Qed.

(** * Round robin *)
Lemma is_state_true a b : is_state a b = true <-> a = b.
Proof. unfold is_state. apply bool_decide_eq_true. Qed.
Lemma is_state_false a b : is_state a b = false <-> a <> b.
Proof. unfold is_state. apply bool_decide_eq_false. Qed.
Lemma is_state_refl a : is_state a a = true.
Proof. by apply is_state_true. Qed.

(** A task that competes for the CPU: a live user task without signals. *)
Definition runnable (s : sys) (t : Z) : Prop :=
  t <> 0 /\ is_user (get s t) = true /\ sig_pending (get s t) = 0 /\ state (get s t) <> TASK_ZOMBIE.

(** CPU [c] runs the head of [w], the others wait on its queue in order. *)
Record competing (s : sys) (Q : Z -> list Z) (c : Z) (w : list Z) : Prop := {
  cp_q : queues s Q; cp_w : w = ap_current (core s c) :: Q c;
  cp_run : state (get s (ap_current (core s c))) = TASK_RUNNING;
  cp_off : rq_cpu (get s (ap_current (core s c))) = None;
  cp_all t : t ∈ w -> runnable s t; cp_len : len w < 4294967296; cp_up : is_Some (cpus s !! c) }.

Section RoundRobin.
Context `{Machine}.

(** What the switch to a live task does to the fields the queues, the current
    tasks and the states are read from. *)
Lemma switch_live_spec s c nxt rsp : let cur := ap_current (core s c) in let s' := fst (switch_live s c nxt rsp) in
  cur <> 0 -> cur <> nxt -> state (get s cur) = TASK_RUNNING ->
  (forall a, get s' a = if decide (a = nxt) then with_last_sched (pit_ticks s) (with_state TASK_RUNNING (get s a))
                        else if decide (a = cur) then with_saved_rsp rsp (with_state TASK_READY (get s a)) else get s a) /\
  (forall d, core s' d = if decide (d = c) then with_ap_current nxt (core s d) else core s d) /\ is_Some (cpus s' !! c).
Proof.
  cbv zeta. intros H0 Hne Hrun. unfold switch_live. rewrite (proj2 (Z.eqb_neq _ 0) H0). cbv zeta. cbn [fst].
  set (cur := ap_current (core s c)) in *. unfold leave.
  change (get (emit (FpuSave cur) s) cur) with (get s cur). rewrite Hrun, is_state_refl.
  set (s1 := put (put (emit (FpuSave cur) s) cur _) cur _).
  assert (H1 : forall a, get s1 a = if decide (a = cur) then with_saved_rsp rsp (with_state TASK_READY (get s a)) else get s a).
  { intros a. unfold s1. rewrite get_put. destruct (decide (a = cur)) as [->|]; [by rewrite get_put_same|].
    rewrite get_put. by rewrite decide_False. }
  assert (H2 : forall d, core s1 d = core s d) by done.
  assert (H3 : pit_ticks s1 = pit_ticks s) by done. clearbody s1.
  assert (Hem : forall e s, (forall a, get (emit e s) a = get s a) /\ (forall d, core (emit e s) d = core s d)) by done.
  split; [|split].
  - intros a. rewrite !(proj1 (Hem _ _)). rewrite get_put. destruct (decide (a = nxt)) as [->|Ha].
    + rewrite get_put_same, get_put_core, H1. destruct (decide (nxt = cur)); [congruence|].
      rewrite <- H3. reflexivity.
    + rewrite get_put, decide_False by done. by rewrite get_put_core, H1.
  - intros d. rewrite !(proj2 (Hem _ _)), !core_put, core_put_core, H2. by destruct (decide (d = c)) as [->|]; rewrite ?H2.
  - exists (with_ap_current nxt (core s1 c)). apply lookup_insert_eq.
Qed.

Lemma switch_to_live s c nxt rsp : ap_current (core s c) <> nxt -> state (get s nxt) <> TASK_ZOMBIE ->
  switch_to s c nxt rsp = switch_live s c nxt rsp.
Proof.
  intros Hne Hz. unfold switch_to. cbn [switch_to_n]. rewrite (proj2 (Z.eqb_neq _ nxt) Hne).
  by rewrite (proj2 (is_state_false _ _) Hz).
Qed.

(** On a CPU whose current task runs and whose queue is not empty, a tick
    rotates. *)
Lemma tick_rotates s Q c t0 t q rsp : c <> 0 -> competing s Q c (t0 :: t :: q) ->
  exists Q', competing (fst (sched_tick s c rsp)) Q' c (t :: q ++ [t0]).
Proof.
  intros Hc [HQ Hw Hrun Hoff Hall Hlen Hup]. injection Hw as Ecur Eq. rewrite <- Ecur in Hrun, Hoff.
  assert (Hin0 : t0 ∈ t0 :: t :: q) by (by apply elem_of_cons; left).
  assert (Hin1 : t ∈ t0 :: t :: q) by (apply elem_of_cons; right; by apply elem_of_cons; left).
  destruct (Hall t0 Hin0) as (Z0 & U0 & S0 & _). destruct (Hall t Hin1) as (Z1 & U1 & S1 & N1).
  assert (Hl2 : len (t0 :: t :: q) = 2 + len q) by (unfold len; cbn [length]; lia). pose proof (len_nonneg q) as Hq0.
  assert (Hlc : len (Q c) = 1 + len q) by (rewrite <- Eq; unfold len; cbn [length]; lia).
  assert (Hnin : t0 ∉ t :: q).
  { rewrite Eq. intros Hin. apply (q_on _ _ _ (HQ c)) in Hin. congruence. }
  unfold sched_tick. rewrite (proj2 (Z.eqb_neq c 0) Hc), <- Ecur, (proj2 (Z.eqb_neq t0 0) Z0), U0, S0, Hrun, is_state_refl.
  cbn [Z.eqb negb]. unfold sched_preempt.
  pose proof (q_chain _ _ _ (HQ c)) as Hch. rewrite <- Eq in Hch. cbn [chain] in Hch. destruct Hch as (Eh & _).
  rewrite Eh, (proj2 (Z.eqb_neq t 0) Z1). cbn [negb].
  pose proof (rq_push_queues s Q c t0 HQ Z0 Hoff ltac:(lia)) as HQ1. rewrite <- Eq in HQ1.
  pose proof (rq_push_only s c t0 Hup) as O1. set (s1 := rq_push s c t0) in *. clearbody s1.
  set (Q1 := set_queue Q c ((t :: q) ++ [t0])) in *.
  assert (EQ1 : Q1 c = t :: (q ++ [t0])) by (unfold Q1; apply set_queue_same).
  destruct (rq_pop_queues s1 Q1 c t (q ++ [t0]) HQ1 EQ1) as (Ep & Hoff2 & HQ2).
  { rewrite EQ1. change (t :: q ++ [t0]) with ([t] ++ q ++ [t0]). rewrite !len_app. change (len [t]) with 1. change (len [t0]) with 1. lia. }
  pose proof (rq_pop_only s1 c) as O2. pose proof (queue_only_trans _ _ _ O1 O2) as O.
  destruct (rq_pop s1 c) as [s2 o]. cbn [fst snd] in *. subst o. clear O1 O2 HQ1. clearbody Q1. clear s1 EQ1.
  set (Q2 := set_queue Q1 c (q ++ [t0])) in *. assert (EQ2 : Q2 c = q ++ [t0]) by (unfold Q2; apply set_queue_same).
  clearbody Q2.
  assert (Hst : forall a, state (get s2 a) = state (get s a)) by (intros a; by apply (qo_field state s s2)).
  assert (Hcu : ap_current (core s2 c) = t0) by (rewrite Ecur; by apply (qo_core_field ap_current s s2)).
  assert (Hne : t0 <> t) by (intros ->; apply Hnin; by apply elem_of_cons; left).
  rewrite switch_to_live by (rewrite ?Hcu, ?Hst; done).
  pose proof (switch_live_spec s2 c t rsp) as Hsw. cbv zeta in Hsw. rewrite Hcu in Hsw.
  destruct (Hsw Z0 Hne ltac:(by rewrite Hst)) as (Hg & Hco & Hup3). set (s3 := fst (switch_live s2 c t rsp)) in *. clearbody s3.
  assert (Hcur3 : ap_current (core s3 c) = t) by (rewrite Hco; by destruct (decide (c = c))).
  exists Q2. split.
  - eapply queues_frame; [| |exact HQ2].
    + intros a. rewrite Hg. destruct (decide (a = t)); [done|]. by destruct (decide (a = t0)).
    + intros d. rewrite Hco. by destruct (decide (d = c)) as [->|].
  - by rewrite Hcur3, EQ2.
  - rewrite Hcur3, Hg. by destruct (decide (t = t)).
  - rewrite Hcur3, Hg. destruct (decide (t = t)) as [_|]; [|done].
    exact Hoff2.
  - intros a Ha. assert (Ha' : a ∈ t0 :: t :: q).
    { apply elem_of_cons in Ha as [->|Ha]; [done|]. apply elem_of_app in Ha as [Ha|Ha].
      - apply elem_of_cons. right. by apply elem_of_cons; right.
      - apply list_elem_of_singleton in Ha as ->. done. }
    destruct (Hall a Ha') as (A1 & A2 & A3 & A4). unfold runnable.
    assert (U : is_user (get s2 a) = is_user (get s a)) by (by apply (qo_field is_user s s2)).
    assert (G : sig_pending (get s2 a) = sig_pending (get s a)) by (by apply (qo_field sig_pending s s2)).
    split; [done|]. rewrite Hg. destruct (decide (a = t)); [by rewrite <- U, <- G in *|].
    destruct (decide (a = t0)); cbn; rewrite ?U, ?G, ?Hst; done.
  - change (t :: q ++ [t0]) with ([t] ++ q ++ [t0]). rewrite !len_app. change (len [t]) with 1. change (len [t0]) with 1. lia.
  - exact Hup3.
Qed.

Definition ticks (s : sys) (c : Z) (rsps : list Z) : sys := fold_left (fun s rsp => fst (sched_tick s c rsp)) rsps s.

Lemma ticks_reach l1 : forall s Q c t0 t l2 rsps, c <> 0 -> competing s Q c (t0 :: l1 ++ t :: l2) ->
  length rsps = S (length l1) -> exists Q', competing (ticks s c rsps) Q' c (t :: l2 ++ t0 :: l1).
Proof.
  induction l1 as [|a l1 IH]; intros s Q c t0 t l2 rsps Hc Hw Hl; (destruct rsps as [|r rs]; [done|]); cbn [app length] in *.
  - destruct rs; [|done]. by apply (tick_rotates s Q).
  - destruct (tick_rotates s Q c t0 a (l1 ++ t :: l2) r Hc Hw) as (Q' & Hw').
    rewrite <- app_assoc in Hw'. cbn [app] in Hw'.
    destruct (IH _ Q' c a t (l2 ++ [t0]) rs Hc Hw' ltac:(lia)) as (Q'' & Hw'').
    exists Q''. by rewrite <- app_assoc in Hw''.
Qed.
End RoundRobin.

(** [C26] Round robin is fair. On an AP whose current task runs and whose queue
    holds live user tasks without signals, the task at position [length l1] of
    the queue holds the CPU, running, after exactly that many ticks and one
    more; the tasks before it wait behind it, in order. *)
Theorem round_robin_fair `{Machine} s Q c t0 l1 t l2 rsps : c <> 0 -> competing s Q c (t0 :: l1 ++ t :: l2) ->
  length rsps = S (length l1) ->
  let s' := ticks s c rsps in
  sched_current s' c = t /\ state (get s' t) = TASK_RUNNING /\ exists Q', competing s' Q' c (t :: l2 ++ t0 :: l1).
Proof.
  intros Hc Hw Hl s'. destruct (ticks_reach l1 s Q c t0 t l2 rsps Hc Hw Hl) as (Q' & Hw').
  pose proof (cp_w _ _ _ _ Hw') as E. injection E as E _. split; [done|]. split; [|by exists Q'].
  rewrite E. apply (cp_run _ _ _ _ Hw').
Qed.

(** * Waiting for a child *)
Lemma smp_least_loaded_ext s s' : cpus s' = cpus s -> (forall a, is_user (get s' a) = is_user (get s a)) ->
  smp_least_loaded s' = smp_least_loaded s.
Proof.
  intros Hc Hu. unfold smp_least_loaded. f_equal. rewrite Hc.
  assert (Hl : forall o, smp_load s' o = smp_load s o) by (intros o; unfold smp_load; by rewrite Hu).
  generalize (None : option Z, 4294967295). induction (tail cpu_ids) as [|i l IH]; intros acc; cbn [fold_left]; [done|].
  destruct (cpus s !! i) as [o|]; [by rewrite Hl|done].
Qed.

Lemma sched_find_ext s s' p : g_tasks s' = g_tasks s -> (forall a, pid (get s' a) = pid (get s a)) ->
  sched_find s' p = sched_find s p.
Proof.
  intros Hl Hp. unfold sched_find. rewrite Hl. f_equal. clear Hl. induction (g_tasks s) as [|a l IH]; cbn [find]; [done|].
  rewrite Hp. by destruct (_ =? _).
Qed.

(** Making a blocked task ready queues it on the least loaded CPU. *)
Lemma make_ready_spec s Q c t : let d := default c (smp_least_loaded s) in
  queues s Q -> t <> 0 -> rq_cpu (get s t) = None -> len (Q d) + 1 < 4294967296 -> is_Some (cpus s !! d) ->
  queues (make_ready s c t) (set_queue Q d (Q d ++ [t])) /\
  (forall a, off_queue (get (make_ready s c t) a) = off_queue (if decide (a = t) then with_state TASK_READY (get s a) else get s a)) /\
  effects (make_ready s c t) = Ipi (ap_lapic_id (core s d)) :: effects s.
Proof.
  cbv zeta. set (d := default c (smp_least_loaded s)). intros HQ Ht Hrq Hlen Hd. unfold make_ready. fold d.
  pose proof (rq_push_queues s Q d t HQ Ht Hrq Hlen) as HQ1. pose proof (rq_push_only s d t Hd) as O.
  set (s1 := rq_push s d t) in *. clearbody s1. split; [|split].
  - apply queues_emit. by apply queues_put.
  - intros a. change (get (ipi (put s1 t (with_state TASK_READY)) d) a) with (get (put s1 t (with_state TASK_READY)) a).
    rewrite get_put. destruct (decide (a = t)) as [->|]; [|apply (qo_get _ _ O)].
    pose proof (qo_get _ _ O t) as E. 
    change (with_state TASK_READY (off_queue (get s1 t)) = with_state TASK_READY (off_queue (get s t))). by rewrite E.
  - unfold ipi, emit. cbn [effects with_effects].
    change (core (put s1 t (with_state TASK_READY)) d) with (core s1 d).
    change (effects (put s1 t (with_state TASK_READY))) with (effects s1).
    f_equal; [f_equal; by apply (qo_core_field ap_lapic_id s s1)|by apply (qo_sys effects s s1)].
Qed.

(** ** The least loaded CPU *)
(** An application processor that runs, and what it has to do: the tasks on its queue,
    and the user task it runs. *)
Definition online (s : sys) (i : Z) : Prop := 1 <= i < 8 /\ exists o, cpus s !! i = Some o /\ ap_up o = true.
Definition work (s : sys) (Q : Z -> list Z) (i : Z) : Z :=
  len (Q i) + (if negb (ap_current (core s i) =? 0) && is_user (get s (ap_current (core s i))) then 1 else 0).
(** [d] is where a woken task goes: the first of those with the least work; the waker's
    own CPU when no application processor runs. *)
Definition destination (s : sys) (Q : Z -> list Z) (c d : Z) : Prop :=
  (online s d /\ forall i, online s i -> work s Q d < work s Q i \/ (work s Q d = work s Q i /\ d <= i)) \/
  ((forall i, ~ online s i) /\ d = c).

Definition pick (f : Z -> option Z) (acc : option Z * Z) (i : Z) : option Z * Z :=
  match f i with Some x => if x <? snd acc then (Some i, x) else acc | None => acc end.
(** A scan for the least value, the first of equals. *)
Lemma pick_spec f M n : (forall i x, 1 <= i <= Z.of_nat n -> f i = Some x -> x < M) ->
  match fold_left (pick f) (map Z.of_nat (seq 1 n)) (None, M) with
  | (Some d, x) => 1 <= d <= Z.of_nat n /\ f d = Some x /\
      forall i y, 1 <= i <= Z.of_nat n -> f i = Some y -> x < y \/ (x = y /\ d <= i)
  | (None, x) => x = M /\ forall i, 1 <= i <= Z.of_nat n -> f i = None
  end.
Proof.
  induction n as [|n IH]; intros Hm; [by split; [|intros; lia]|].
  specialize (IH ltac:(intros i x ? ?; apply (Hm i); [lia|done])). rewrite seq_S, map_app, fold_left_app. cbn [map fold_left].
  change (1 + n)%nat with (S n). set (k := Z.of_nat (S n)) in *.
  destruct (fold_left _ _ _) as [[d|] x]; unfold pick at 1; cbn [snd]; destruct (f k) as [y|] eqn:Ek.
  - destruct IH as (Hd & Ed & Hl). destruct (Z.ltb_spec y x); (split; [lia|]); (split; [done|]);
      intros i z Hi Ez; (destruct (Z.eq_dec i k) as [->|]; [rewrite Ek in Ez; injection Ez as <-; lia|]);
      destruct (Hl i z) as [|[? ?]]; (lia || done).
  - destruct IH as (Hd & Ed & Hl). split; [lia|]. split; [done|]. intros i z Hi Ez.
    destruct (Z.eq_dec i k) as [->|]; [congruence|]. apply Hl; [lia|done].
  - destruct IH as [-> Hn]. rewrite (proj2 (Z.ltb_lt y M)) by (apply (Hm k); [lia|done]). split; [lia|]. split; [done|].
    intros i z Hi Ez. destruct (Z.eq_dec i k) as [->|]; [right; split; [congruence|lia]|]. rewrite Hn in Ez by lia. done.
  - destruct IH as [-> Hn]. split; [done|]. intros i Hi. destruct (Z.eq_dec i k) as [->|]; [done|]. apply Hn. lia.
Qed.
Lemma least_loaded_destination s Q c : queues s Q -> (forall i, online s i -> len (Q i) + 1 < 4294967295) ->
  destination s Q c (default c (smp_least_loaded s)).
Proof.
  intros HQ Hb. set (f i := match cpus s !! i with Some o => if ap_up o then Some (smp_load s o) else None | None => None end).
  assert (smp_least_loaded s = fst (fold_left (pick f) (map Z.of_nat (seq 1 7)) (None, 4294967295))) as ->.
  { unfold smp_least_loaded. f_equal. change (map Z.of_nat (seq 1 7)) with (tail cpu_ids). generalize (None : option Z, 4294967295).
    induction (tail cpu_ids) as [|i l IH]; intros acc; cbn [fold_left]; [done|]. rewrite IH. f_equal. unfold pick, f.
    destruct (cpus s !! i) as [o|]; [|done]. by destruct (ap_up o). }
  assert (forall i, 1 <= i < 8 -> match f i with Some x => online s i /\ x = work s Q i | None => ~ online s i end) as Hf.
  { intros i Hi. unfold f. destruct (cpus s !! i) as [o|] eqn:Eo; [|by intros [_ (o' & E & _)]; congruence].
    destruct (ap_up o) eqn:Eu; [|by intros [_ (o' & E & U)]; congruence].
    assert (online s i) as On by (split; [done|by exists o]). split; [done|].
    pose proof (Hb i On). pose proof (len_nonneg (Q i)). pose proof (q_count _ _ _ (HQ i)) as Ec. unfold work.
    assert (core s i = o) as Eco by (unfold core; by rewrite Eo). rewrite Eco in *. unfold smp_load. rewrite Ec. destruct (_ && _); [by rewrite u32_small by lia|lia]. }
  pose proof (pick_spec f 4294967295 7) as Hp. destruct (fold_left _ _ _) as [[d|] x].
  - destruct Hp as (Hd & Ed & Hl).
    { intros i y Hi Ey. specialize (Hf i ltac:(lia)). rewrite Ey in Hf. destruct Hf as [On ->]. specialize (Hb i On).
      unfold work. destruct (_ && _); lia. }
    left. pose proof (Hf d ltac:(lia)) as Fd. rewrite Ed in Fd. destruct Fd as [On ->]. split; [done|].
    intros i Oi. pose proof Oi as [Hi _]. pose proof (Hf i Hi) as Fi. destruct (f i) as [y|] eqn:Ei; [|done].
    destruct Fi as [_ ->]. apply Hl; [lia|done].
  - destruct Hp as (_ & Hn).
    { intros i y Hi Ey. specialize (Hf i ltac:(lia)). rewrite Ey in Hf. destruct Hf as [On ->]. specialize (Hb i On).
      unfold work. destruct (_ && _); lia. }
    right. split; [|done]. intros i Oi. pose proof Oi as [Hi _]. pose proof (Hf i Hi) as Fi. by rewrite Hn in Fi by lia.
Qed.

(** A task of the list whose pid no other has is the one [sched_find] returns. *)
Lemma sched_find_task s p : p ∈ g_tasks s ->
  (forall t, t ∈ g_tasks s -> pid (get s t) = pid (get s p) -> t = p) -> sched_find s (pid (get s p)) = p.
Proof.
  intros Hin Hu. unfold sched_find. destruct (find _ _) as [t|] eqn:E; cbn.
  - apply find_some in E as [Ht Et]. apply Hu; [by apply list_elem_of_In|by apply Z.eqb_eq].
  - apply list_elem_of_In in Hin. pose proof (find_none _ _ E _ Hin) as F. cbn in F. by rewrite Z.eqb_refl in F.
Qed.

(** [C27] No wake-up is lost. When a task of a user program, whose thread-exit word is
    not set ([clear_child_tid] = 0), exits while its parent (the one task of the list
    with the child's [ppid]) is blocked in [sched_waitpid] for it or for any child (pid 0
    or -1), the child is a zombie with its status, the parent is ready and no longer
    waiting, and it stands at the end of the queue of the first online application
    processor with the least work ([destination]; the child's CPU when none is online),
    which is poked; the other queues stay. Queues are assumed shorter than 2^32 - 2. *)
Theorem exit_wakes_parent `{Machine} s Q c status p : let ch := sched_current s c in
  let s' := sched_exit s c status in
  queues s Q -> ch <> 0 -> is_user (get s ch) = true -> clear_child_tid (get s ch) = 0 ->
  ppid (get s ch) <> 0 -> p <> 0 -> p <> ch -> p ∈ g_tasks s -> pid (get s p) = ppid (get s ch) ->
  (forall t, t ∈ g_tasks s -> pid (get s t) = pid (get s p) -> t = p) ->
  waiting (get s p) = true -> state (get s p) = TASK_BLOCKED -> rq_cpu (get s p) = None ->
  wait_pid (get s p) = 0 \/ wait_pid (get s p) = 2 ^ 32 - 1 \/ wait_pid (get s p) = pid (get s ch) ->
  (forall i, len (Q i) + 1 < 4294967295) ->
  state (get s' ch) = TASK_ZOMBIE /\ exit_status (get s' ch) = status /\
  state (get s' p) = TASK_READY /\ waiting (get s' p) = false /\
  exists d, destination s Q c d /\
    queues s' (set_queue Q d (Q d ++ [p])) /\ Ipi (ap_lapic_id (core s d)) ∈ effects s'.
Proof.
  cbv zeta. set (ch := sched_current s c).
  intros HQ Hch Hu Htid Hpp Hp Hne Hin Hpid Huniq Hw Hst Hrq Hmatch Hall.
  pose proof (sched_find_task s p Hin Huniq) as Hparent. rewrite Hpid in Hparent.
  pose proof (least_loaded_destination s Q c HQ (fun i _ => Hall i)) as Hdest.
  set (d := default c (smp_least_loaded s)) in *. assert (len (Q d) + 1 < 4294967296) as Hlen by (specialize (Hall d); lia).
  assert (is_Some (cpus s !! d)) as Hd.
  { destruct Hdest as [[[_ (o & -> & _)] _]|[_ ->]]; [done|]. subst ch. unfold sched_current, core in Hch.
    destruct (cpus s !! c); [done|]. by cbn in Hch. }
  unfold sched_exit. fold ch. rewrite (proj2 (Z.eqb_neq ch 0) Hch), Hu, Htid. cbn [Z.eqb negb orb andb].
  set (s1 := put (put s ch (with_exit_status status)) ch (with_state TASK_ZOMBIE)).
  assert (Hg1 : forall a, get s1 a = if decide (a = ch) then with_state TASK_ZOMBIE (with_exit_status status (get s a)) else get s a).
  { intros a. unfold s1. rewrite get_put. destruct (decide (a = ch)) as [->|]; [by rewrite get_put_same|].
    rewrite get_put. by rewrite decide_False. }
  assert (HQ1 : queues s1 Q) by (by repeat apply queues_put).
  assert (Hfind : sched_find s1 (ppid (get s1 ch)) = p).
  { rewrite <- Hparent, Hg1. destruct (decide (ch = ch)) as [_|]; [|done]. apply sched_find_ext; [done|].
    intros a. rewrite Hg1. by destruct (decide (a = ch)). }
  assert (Hgp : get s1 p = get s p) by (rewrite Hg1; by rewrite decide_False).
  assert (Hch1 : ppid (get s1 ch) = ppid (get s ch) /\ pid (get s1 ch) = pid (get s ch))
    by (rewrite Hg1; by destruct (decide (ch = ch))).
  assert (Hwake : wake_waiting_parent s1 c ch = make_ready (put s1 p (with_waiting false)) c p).
  { unfold wake_waiting_parent. rewrite Hfind, (proj1 Hch1), (proj2 (Z.eqb_neq _ 0) Hpp), (proj2 (Z.eqb_neq p 0) Hp).
    rewrite Hgp, Hw, Hst, is_state_refl, (proj2 Hch1). cbn [negb andb].
    destruct Hmatch as [-> |[-> | ->]]; [done|done|]. by rewrite Z.eqb_refl, orb_true_r. }
  rewrite Hwake. set (s2 := put s1 p (with_waiting false)).
  assert (Hll : smp_least_loaded s2 = smp_least_loaded s).
  { apply smp_least_loaded_ext; [done|]. intros a. unfold s2. rewrite get_put, !Hg1.
    destruct (decide (a = p)) as [->|]; [by destruct (decide (p = ch))|by destruct (decide (a = ch))]. }
  pose proof (make_ready_spec s2 Q c p) as Hmr. cbv zeta in Hmr. rewrite Hll in Hmr. fold d in Hmr.
  destruct Hmr as (M1 & M2 & M3); try done.
  { by apply queues_put. }
  { unfold s2. rewrite get_put_same, Hgp. exact Hrq. }
  set (s3 := make_ready s2 c p) in *. clearbody s3.
  set (s4 := emit (SurfaceOwnerDied _) _).
  assert (H4 : (forall a, get s4 a = get s3 a) /\ (forall x, x ∈ effects s3 -> x ∈ effects s4)).
  { unfold s4. destruct (sched_pml4_is_shared _ _); split; try done; intros x Hx; cbn; rewrite ?elem_of_cons; auto. }
  destruct H4 as [H4 H5].
  assert (HQ4 : queues s4 (set_queue Q d (Q d ++ [p]))).
  { apply queues_emit. destruct (sched_pml4_is_shared _ _); [done|by apply queues_emit]. }
  clearbody s4. rewrite !H4.
  assert (Hf : forall {A} (f : task -> A) a, (forall v, f (off_queue v) = f v) ->
    f (get s3 a) = f (if decide (a = p) then with_state TASK_READY (get s2 a) else get s2 a)).
  { intros A f a Hfq. rewrite <- Hfq, M2. apply Hfq. }
  assert (Hc2 : get s2 ch = with_state TASK_ZOMBIE (with_exit_status status (get s ch))).
  { unfold s2. rewrite get_put. destruct (decide (ch = p)); [congruence|]. rewrite Hg1. by destruct (decide (ch = ch)). }
  splits.
  - rewrite Hf by done. destruct (decide (ch = p)); [congruence|]. by rewrite Hc2.
  - rewrite Hf by done. destruct (decide (ch = p)); [congruence|]. by rewrite Hc2.
  - rewrite Hf by done. by destruct (decide (p = p)).
  - rewrite Hf by done. destruct (decide (p = p)); [|done]. unfold s2. by rewrite get_put_same.
  - exists d. split; [exact Hdest|]. split; [exact HQ4|]. apply H5. rewrite M3. by apply elem_of_cons; left.
Qed.

(** * One task on two CPUs *)
(** The steps that interleave: a tick or an interrupt return on a CPU, and the
    futex calls of a CPU whose current task runs in user space. *)
Definition in_syscall (s : sys) (c : Z) : Prop :=
  is_user (get s (sched_current s c)) = true /\ state (get s (sched_current s c)) = TASK_RUNNING.
Inductive sched_step `{Machine} (s : sys) : sys -> Prop :=
| step_tick c rsp : is_Some (cpus s !! c) -> sched_step s (fst (sched_tick s c rsp))
| step_after_isr c rsp : is_Some (cpus s !! c) -> sched_step s (fst (sched_after_isr s c rsp))
| step_futex_wait c addr : in_syscall s c -> sched_step s (sched_futex_wait s c addr)
| step_futex_wake c addr max : in_syscall s c -> sched_step s (fst (sched_futex_wake s c addr max)).

(** No task is current on two CPUs. *)
Definition exclusive (s : sys) : bool :=
  forallb (fun c => forallb (fun d => (c =? d) || (sched_current s c =? 0)
                                      || negb (sched_current s c =? sched_current s d)) cpu_ids) cpu_ids.

Definition demo_task (p pp : Z) (st : task_state) (user : bool) (rsp : Z) : task :=
  Task p pp st 0 user false 0 0 4096 rsp 0 (replicate 32 0) 0 0 0 0 65536 false 0 None 0.
Definition demo_cpu (cur lapic : Z) : cpu := Cpu cur 0 0 0 0 true lapic 65536 0 0 None.
Definition demo_watchdog : watchdog := Watchdog (replicate 8 no_service) 0 0 0 true 0.
(** The desktop on the BSP, two user tasks on the APs 1 and 3, AP 2 idle. *)
Definition demo_smp : sys :=
  Sys {[100 := demo_task 0 0 TASK_RUNNING false 0; 200 := demo_task 1 0 TASK_RUNNING true 7000;
        300 := demo_task 2 1 TASK_RUNNING true 8000]}
      {[0 := demo_cpu 100 0; 1 := demo_cpu 200 1; 2 := demo_cpu 0 2; 3 := demo_cpu 300 3]}
      [100; 200; 300] 100 0 3 false 0 (replicate 64 (0, 0)) (replicate 64 (0, 0)) (replicate 64 (0, 0)) ∅
      demo_watchdog 0 [].
#[local] Instance demo_machine : Machine :=
  {| kernel_pml4 := 4096; smp_ap_idle_entry := 8192; vmm_user_range_ok := fun _ _ _ => true |}.

(** A task that blocks can be woken and resumed by another CPU before its own
    CPU has switched away. From a state in which every CPU runs its own task,
    a futex wait on CPU 1, a wake on CPU 3, a tick on CPU 2 and the return
    from the system call on CPU 1 leave one task current and running on CPUs 1
    and 2. *)
Theorem task_on_two_cpus : exclusive demo_smp = true /\
  exists s, rtc sched_step demo_smp s /\ sched_current s 1 = 200 /\ sched_current s 2 = 200 /\
    state (get s 200) = TASK_RUNNING /\ exclusive s = false.
Proof.
  split; [by vm_compute|].
  set (s1 := sched_futex_wait demo_smp 1 4096). set (s2 := fst (sched_futex_wake s1 3 4096 1)).
  set (s3 := fst (sched_tick s2 2 0)). set (s4 := fst (sched_after_isr s3 1 6000)). exists s4.
  assert (Hs : forall s c, match cpus s !! c with Some _ => true | None => false end = true -> is_Some (cpus s !! c)).
  { intros s c. destruct (cpus s !! c); [by eexists|done]. }
  split; [|by vm_compute].
  apply (rtc_l _ _ s1); [apply step_futex_wait; by vm_compute|].
  apply (rtc_l _ _ s2); [apply step_futex_wake; by vm_compute|].
  apply (rtc_l _ _ s3); [apply step_tick, Hs; by vm_compute|].
  apply (rtc_l _ _ s4); [apply step_after_isr, Hs; by vm_compute|]. apply rtc_refl.
Qed.

(** The watchdog requeues a task that is parked, not lost: once it starves it
    is both parked on the BSP and queued on another CPU. *)
Example kick_duplicates_parked :
  let s := put (put_core (put_core demo_smp 1 (with_ap_current 0)) 0 (with_ap_next 200)) 200 (with_state TASK_READY) in
  let s' := sched_kick_starved s 0 200 in
  ap_next (core s' 0) = 200 /\ rq_cpu (get s' 200) = Some 1.
Proof. by vm_compute. Qed.

(** ** Concrete states *)
Lemma demo_queues : queues demo_smp (fun _ => []).
Proof.
  intros c. assert (Hc : ap_rq_head (core demo_smp c) = 0 /\ ap_rq_tail (core demo_smp c) = 0 /\ ap_rq_count (core demo_smp c) = 0).
  { unfold core, demo_smp. cbn [cpus]. rewrite !lookup_insert, lookup_singleton. by repeat case_decide. }
  destruct Hc as (E1 & E2 & E3). split; [by rewrite E1|by rewrite E2|by rewrite E3|apply NoDup_nil_2|].
  intros a. split; [intros Ha; by apply not_elem_of_nil in Ha|].
  unfold get, demo_smp. cbn [tasks]. rewrite !lookup_insert, lookup_singleton. by repeat case_decide.
Qed.

Lemma run_queues_refine_lists_witness :
  (forall t, t <> 0 -> rq_cpu (get demo_smp t) = None ->
     queues (rq_push demo_smp 1 t) (set_queue (fun _ => []) 1 ([] ++ [t])) /\ queue_only demo_smp (rq_push demo_smp 1 t)) /\
  rq_pop demo_smp 1 = (demo_smp, 0) /\
  (forall t, t ∈ [] -> queues (rq_remove demo_smp 1 t) (set_queue (fun _ => []) 1 (remove_first t []))).
Proof.
  apply (run_queues_refine_lists demo_smp (fun _ => []) 1).
  - exact demo_queues.
  - reflexivity.
  - vm_compute. by eexists.
Defined.

(** AP 1 runs task 200 with task 300 on its queue. *)
Definition demo_rr : sys := rq_push demo_smp 1 300.
Lemma demo_competing : competing demo_rr (set_queue (fun _ => []) 1 [300]) 1 [200; 300].
Proof.
  split.
  - apply (rq_push_queues demo_smp (fun _ => []) 1 300); [exact demo_queues|lia|reflexivity|reflexivity].
  - reflexivity.
  - reflexivity.
  - reflexivity.
  - intros t Ht. rewrite !elem_of_cons in Ht. destruct Ht as [-> | [-> | Ht]]; [| |by apply not_elem_of_nil in Ht];
      vm_compute; splits; done.
  - reflexivity.
  - vm_compute. by eexists.
Qed.

Lemma round_robin_fair_witness : sched_current (ticks demo_rr 1 [7100]) 1 = 300 /\
  state (get (ticks demo_rr 1 [7100]) 300) = TASK_RUNNING /\
  exists Q', competing (ticks demo_rr 1 [7100]) Q' 1 [300; 200].
Proof.
  apply (round_robin_fair demo_rr (set_queue (fun _ => []) 1 [300]) 1 200 [] 300 [] [7100]).
  - discriminate.
  - exact demo_competing.
  - reflexivity.
Defined.

(** Task 200 waits for its child 300, which runs on AP 3. *)
Definition demo_waiting : sys :=
  put (put_core demo_smp 1 (with_ap_current 0)) 200 (fun t => with_waiting true (with_state TASK_BLOCKED t)).

(** Of the three application processors that run, AP 1 and AP 2 have nothing to do. *)
Lemma exit_wakes_parent_witness :
  state (get (sched_exit demo_waiting 3 7) 300) = TASK_ZOMBIE /\ exit_status (get (sched_exit demo_waiting 3 7) 300) = 7 /\
  state (get (sched_exit demo_waiting 3 7) 200) = TASK_READY /\ waiting (get (sched_exit demo_waiting 3 7) 200) = false /\
  exists d, destination demo_waiting (fun _ => []) 3 d /\
    queues (sched_exit demo_waiting 3 7) (set_queue (fun _ => []) d [200]) /\
    Ipi (ap_lapic_id (core demo_waiting d)) ∈ effects (sched_exit demo_waiting 3 7).
Proof.
  apply (exit_wakes_parent demo_waiting (fun _ => []) 3 7 200).
  - apply queues_put; [done|done|]. apply queues_put_core; [done|done|done|exact demo_queues].
  - discriminate.
  - reflexivity.
  - reflexivity.
  - discriminate.
  - discriminate.
  - discriminate.
  - right; left.
  - reflexivity.
  - intros t Ht. repeat (apply elem_of_cons in Ht as [->|Ht]; [try discriminate; try reflexivity|]). by apply elem_of_nil in Ht.
  - reflexivity.
  - reflexivity.
  - reflexivity.
  - by left.
  - reflexivity.
Defined.
